(* ===== verification/_CoqProject ===== *)
-Q . S2P
Prelude.v
Dict.v
DictProofs.v
DictTypes.v
DictSpec.v
Endian.v
Intset.v
IntsetProofs.v
IntsetSpec.v
Crc64.v
Rand.v
Util.v
UtilProofs.v
UtilNum.v
UtilSpec.v
Sds.v
SdsProofs.v
SdsMore.v
SdsRepr.v
SdsSpec.v
Adlist.v
AdlistProofs.v
AdlistSpec.v
Ziplist.v
ZiplistProofs.v
ZiplistCascade.v
ZiplistEdit.v
ZiplistQuery.v
ZiplistSpec.v
Lzf.v
LzfProofs.v
LzfSpec.v
Elements.v
Rio.v
Objects.v
ObjectsSpec.v
Rdb.v
RdbProofs.v
RdbSpec.v
Skiplist.v
SkiplistProofs.v
SkiplistEdit.v
SkiplistOps.v
SkiplistSpec.v
SkiplistQuery.v
SkiplistTheorems.v
Request.v
RequestProofs.v
RequestRun.v
RequestSpec.v
Reply.v
ReplyProofs.v
ReplyQueue.v
ReplySend.v
ReplySpec.v
ReplyStream.v
ReplyTheorems.v
Server.v
Db.v
Evict.v
Strings.v
Bitops.v
BitopsProofs.v
CommandTable.v
Multi.v
ServerProofs.v
KeyProofs.v
CommandProofs.v
StringProofs.v
MultiProofs.v
ExecProofs.v
EventProofs.v
ServerDemo.v
FeedProofs.v
KeyTheorems.v
MultiTheorems.v
StringTheorems.v
Pubsub.v
PubsubProofs.v
Zipmap.v
