(* ===== verification/Prelude.v ===== *)
(** * A verification library for the Redis server of this repository

    The repository carries a copy of Redis 2.6.14 ([redis-2.6.14/]) next to a
    small web application that uses it as a store.  This library models the
    data structures the server is made of, its input and output, its key space
    and transactions and part of its commands, in the C files of
    [redis-2.6.14/src/], and proves that they do what the rest of the server
    and its clients rely on.  File names below are relative to that directory.

    ** How the program's parts fit together

    Every value a client stores is a dynamic string ([sds.c]) or a container
    of them.  The key space, sets, hashes and sorted sets are hash tables
    ([dict.c]) whose hash functions and key comparison are in [redis.c] and
    [dict.c]; a set of integers is instead a sorted packed array ([intset.c])
    stored in little-endian form ([endianconv.c]).  A sorted set is a hash
    table together with a skip list ([t_zset.c]) whose elements are string
    objects ([object.c]), compared by their bytes or, when they hold a
    number instead, by its decimal form.  Small lists, hashes and sorted sets
    are packed into one block ([ziplist.c]; hashes of older dumps come as
    packed maps, [zipmap.c]).  Lists of clients, watched
    keys, and list values are doubly linked lists ([adlist.c]).  Integers
    are recognised in and printed to strings, and key patterns matched, by
    [util.c]; scripts draw reproducible random numbers ([rand.c]).  Dumps
    ([rdb.c]) are written to and read from streams ([rio.c]), in memory or in
    files, with their strings as integers, compressed ([lzf_c.c],
    [lzf_d.c]) or verbatim; the payloads of DUMP and RESTORE ([migrate.c])
    are such strings with a version and a checksum ([crc64.c]).

    Clients send requests over a socket.  [networking.c] reads them in pieces
    into a query buffer, parses each request into a vector of string objects
    and hands it to [processCommand] ([redis.c]).  The commands reply by
    adding to the output of the client, a buffer and a list of string
    objects, which a handler of the event loop writes to the socket.

    A client works on one of the databases, a hash table of keys with a
    second one of times to live ([db.c]).  A key past its time is deleted
    when it is looked up; keys are deleted too when memory runs short
    ([freeMemoryIfNeeded]).  Between MULTI and EXEC the commands of a client
    are queued, and EXEC runs none of them when a key the client watches was
    modified ([multi.c]): each command that writes a key signals it.  What
    changes the data is fed to the append only file and to the slaves
    ([call], [propagate]).  Commands on strings ([t_string.c]) and on their
    bits ([bitops.c]) are such commands; those that publish messages to
    clients ([pubsub.c]) leave the data alone.

    ** Conventions of the model

    A C integer is a [Z]; the conversions [u8] ... [u64], [s8] ... [s64] wrap
    it to a width where the code converts or computes in an unsigned type.
    Signed arithmetic that overflows and memory accesses outside an object
    have no behaviour in C: the operations that may do so are in the option
    monad, [chk32], [chk64], [mem_read], [mem_write], [rd] and the heap
    accesses yield [None] there, and a theorem with [Some] on the right of an
    operation includes that the operation is free of these.  A failed
    assertion is [None] too.  [malloc] does not fail, since [zmalloc] aborts
    the process.  Memory nobody has written is a parameter [junk].  Loops
    that are not structural carry fuel; the theorems say how much fuel is
    enough, and an operation that has to choose it ([search], [nextPower],
    iteration) takes a bound computed from its arguments: the length of
    the array, the 64 doublings of a table size, the number of nodes and one
    more.  Calls of commands nest once, EXEC and the commands in it, so their
    depth is 2; the loop of EXEC makes as many rounds as commands are queued;
    freeing memory deletes a key a round, so one more round than there are
    keys is enough; a random key is drawn at most once more than there are
    keys on a master, where each one refused is deleted, and on a slave no
    number of draws need be enough ([randomkey_never_ends]); the loops over
    bits take a step more than there are bytes.

    ** The files

    - [Prelude]: bytes, machine integers, memory blocks, the C library
      functions used, and lemmas about lists and bits.
    - [Dict] models [dict.c]: a table is an array of chains of entries in
      order, a dictionary is two tables, the rehashing index and the number
      of safe iterators; one definition per function, the loops of
      [dictRehash], [dictNext], [dictGetRandomKey] and [_dictNextPower]
      apart.  [DictProofs] has the well-formedness invariant (each entry is
      in the bucket of its hash, [used] counts entries, keys are distinct,
      the buckets before the rehashing index are empty) and a lemma per
      operation; [DictTypes] the hash functions and key comparisons of
      [dict.c] and [redis.c]; [DictSpec] the theorems: any sequence of
      operations refines a finite map, incremental rehashing makes progress
      and ends, iterators visit each entry once and tolerate deletion of the
      current entry, sizes are the least sufficient powers of two.
    - [Endian] models [endianconv.c] on hosts of either byte order.
    - [Intset] models [intset.c] on a block of bytes; [IntsetProofs] the
      representation relation to a sorted list; [IntsetSpec] the refinement
      of finite sets, upgrades, ranks and independence of the host.
    - [Crc64], [Rand]: [crc64.c] and [rand.c] with their reference
      definitions (a bitwise Jones checksum; the 48-bit generator) and the
      theorems that they agree, and that bursts are detected.
    - [Util] models the glob matcher, [string2ll], [ll2string] and [memtoll]
      of [util.c]; [UtilProofs] relates the matcher to a grammar of
      patterns, [UtilNum] the conversions to decimal numerals, [UtilSpec]
      has the theorems.
    - [Sds] models [sds.c] on a buffer with its header; [SdsProofs] and
      [SdsMore] the operations that edit, compare and split a string,
      [SdsRepr] quoting and the argument parser, [SdsSpec] the refinement of
      byte lists and the round trip between quoting and parsing.
    - [Adlist] models [adlist.c] on a heap of nodes; [AdlistProofs] the
      links of a sequence of nodes and each operation's effect on them,
      [AdlistSpec] the refinement of sequences with its frame, iteration
      with deletion, and copying.
    - [Ziplist] models [ziplist.c] on a block of bytes, a pointer being an
      offset in it and an access outside it a failure.  [ZiplistProofs] has
      the layout of entries and the encodings of integers and lengths,
      [ZiplistCascade] the growth of a chain of previous-length
      fields, [ZiplistEdit] insertion and deletion, [ZiplistQuery] walks,
      reads, searches and the length, [ZiplistSpec] the refinement of lists
      of strings by sequences of operations that leave room in the block
      ([zops_ok]), the round trips, and when an insertion overruns the block.
    - [Zipmap] models [zipmap.c] on such a block: the layout of entries with
      their free bytes, and the refinement of association lists with distinct
      keys by any sequence of operations, with the bound on the block.  A walk
      has a round per byte of the block and one more, for its end; an entry
      takes at least three bytes.
    - [Lzf] models [lzf_c.c] and [lzf_d.c] with every access to the input and
      the output checked.  [LzfProofs] has the tokens of the compressed
      format, their meaning, the decompressor and the invariant of the
      compressor's loop, [LzfSpec] the round trip for any content of the
      hash table, the safety of decompression on damaged input, and where
      the compressor leaves its buffers.
    - [Elements] is the interface a sorted set needs of its elements: a
      class of operations with an order and its laws.  [Objects] models the
      string objects of [object.c] (sharing, encodings, comparison, and the
      conversions from them), [ObjectsSpec] proves its theorems and that the
      objects implement the interface.
    - [Rio] models the streams of [rio.c] and [rio.h]: a class of backend
      methods, the laws users of a stream rely on, the buffer backend with
      the proof that it keeps them, and the request syntax.  [Rdb] models the
      encodings of types, times, lengths, integers and strings of [rdb.c]
      over any backend, and the payloads of [migrate.c] over the buffer;
      [RdbProofs] proves what they write and read from the laws alone;
      [RdbSpec] has the round trips between any two streams and hosts, the
      detection of damaged payloads and the error that is not reported.
    - [Skiplist] models the skip list of [t_zset.c] on a heap of nodes, for
      any elements with the interface.  [SkiplistProofs] says what the
      pointers and spans of a sequence of nodes are and what the searches
      find; [SkiplistEdit] and [SkiplistOps] what insertion and deletion do
      to them, and what sorted sequences are; [SkiplistSpec] the abstract
      operations; [SkiplistQuery] ranks and ranges; and [SkiplistTheorems]
      the theorems, through any sequence of operations and any random levels.
    - [Request] models the input side of a client in [networking.c]:
      [readQueryFromClient], the inline and multi bulk parsers and the loop
      over the query buffer, with the rest of the server behind a class of
      operations.  [RequestProofs] has the parser as a function of bytes and
      the proof that the code computes it; [RequestRun] the laws asked of
      the rest of the server, the invariant between two events, and what
      happens to well-formed requests that arrive in pieces; [RequestSpec] the
      theorems: every request that neither blocks nor closes its client is
      executed when it is complete, for any cuts of the stream; no input and no sequence of
      events makes the parser fail; which requests are refused.
    - [Reply] models the output side of a client in [networking.c]: the
      static buffer, the list of string objects behind it on the heap of
      [Adlist], objects shared by reference count in a store, deferred
      lengths, the functions that reply, the limits, the handler that writes
      to the socket and the freeing of the output.  [ReplyProofs] has the
      invariant (who holds which object, what each node contributes) and the
      primitives; [ReplyQueue] every reply function, [ReplySend] deferred
      lengths and the handler; [ReplySpec] programs of replies with the text
      they mean; [ReplyStream] sessions of replies and writable sockets and
      the shared replies made at the start; [ReplyTheorems] the state of a new
      client, the typing of the store and the theorems: the client receives
      all replies in order, the output drains, types and reference counts are
      kept, and the limit that brings the server down.
    - [Server] has the state of the server as far as keys and transactions go
      (databases, clients by number with the calls that reply to them, the
      counter of changes, what is fed to the append only file and the slaves)
      and the monad of the commands, a state that may fail.  Its class [Rest]
      is what is not modelled of the server: the type of a value and the
      string it is, whether a value is shared, the clock at each reading, the
      order of a dictionary, the key drawn at random, the table of commands,
      which names hash to the same bucket, and the handlers of the other
      commands, functions of the configuration, the client and the data.  [CommandTable] has the table of
      [redis.c].
    - [Db] models [db.c], [Evict] the freeing of memory of [redis.c],
      [Strings] [t_string.c], [Bitops] [bitops.c], and [Multi] [multi.c] with
      the checks, the queueing, the calls and the propagation of [redis.c]
      and the clients that come and go.
    - [ServerProofs] has the invariant (the lists of watched keys of clients
      and databases agree, keys that expire exist, queued commands can be
      run), the relation of what a command may change, and the laws of [Rest];
      [KeyProofs], [CommandProofs] and [StringProofs] prove for each operation
      and each command of those files that it fails no assertion, keeps the
      invariant and signals what it writes; [BitopsProofs] what the words of
      [bitops.c] compute; [MultiProofs] and [ExecProofs] commands and
      transactions as a whole; [EventProofs] the events of the server as a
      step relation; [FeedProofs] what is propagated.  [ServerDemo] is an
      instance of [Rest] on which the theorems are evaluated.
    - [MultiTheorems], [KeyTheorems] and [StringTheorems] have the theorems:
      no event of a reachable server fails, EXEC runs nothing when a watched
      key had another value or was removed on the way (expiry and eviction
      do not count), the commands of a transaction run in order and are
      propagated between MULTI and EXEC, a command in a transaction is queued; look ups, expiry,
      renaming and eviction; counters, what is set is what is got, and the
      commands on bits against the bits of strings.  The arguments for which
      the code overflows or reads out of bounds are excluded by [args_fit];
      slaves that draw random keys and MOVE, which signals nothing, by the
      class [Mode] where a theorem needs that; [event_ok] is all this for an
      event.
    - [Pubsub] models [pubsub.c] on tables of its own; [PubsubProofs] proves
      that the lists of the server agree with the clients and that messages
      go to whom they should, while the matcher stays in its patterns
      ([events_fit]).

    ** The groups of theorems

    Refinement theorems run arbitrary sequences of operations on the model
    and on an abstract value (finite map, finite set, byte list, sequence)
    and show that results and contents agree at every point, so that the
    invariants are preserved by every operation.  Around them: termination
    of the incremental algorithms, round trips of the encoders, equivalence
    of the optimised routines with reference definitions, error paths, and
    the exact conditions under which an operation is outside its contract.

    ** Not modelled

    Input and output, processes, signals and threads (the event loop,
    sockets, files, replication, the append-only file, background I/O), the
    interpreter glue, the command line tools and the web application.  Of
    [object.c] the constructors of containers, the access time field and the
    [OBJECT] command, of [ziplist.c] and [zipmap.c] the debugging
    dump and the test program, are left out; reading a floating point number from a string is
    the C library's, so INCRBYFLOAT is left out too.  A string value of the
    key space is its content and encoding, not an object on a heap; the number
    of other references is a parameter, and the least [long long] is printed
    as two's complement has it.  Of the server core clients in monitor mode,
    the slow log, commands that ask for others to be propagated, blocked
    clients, SHUTDOWN, LASTSAVE, the extraction of keys from commands and the
    flushing of slaves before an eviction are left out.  The commands of
    [pubsub.c] are not among those the server core runs: there a client has
    just the number of its subscriptions, and a handler that is not modelled
    may change it.  The packed maps are not connected with the loading of
    dumps: the containers and floating point numbers of [rdb.c], SHA-1, the partial quicksort and the
    commands on lists, hashes, sets and sorted sets are not modelled: the
    values of those types are abstract to the key space. *)
From Stdlib Require Export ZArith Lia Bool Btauto.
From Stdlib Require Strings.Byte.
From stdpp Require Export base tactics option list numbers gmap.

#[export] Set Default Goal Selector "!".
Open Scope Z_scope.

(** ** Bytes

    A C [unsigned char] is a [byte]; [b2z] reads it as an integer and [z2b]
    is the truncating conversion of an integer to a byte. *)

Abbreviation byte := Corelib.Init.Byte.byte.

#[export] Instance byte_eq_dec : EqDecision byte := Strings.Byte.byte_eq_dec.

Definition b2z (b : byte) : Z := Z.of_N (Strings.Byte.to_N b).

Definition z2b (z : Z) : byte :=
  match Strings.Byte.of_N (Z.to_N (z mod 256)) with
  | Some b => b
  | None => Corelib.Init.Byte.x00
  end.

Lemma b2z_range b : 0 <= b2z b < 256.
Proof. unfold b2z. pose proof (Strings.Byte.to_N_bounded b). lia. Qed.

Lemma z2b_b2z b : z2b (b2z b) = b.
Proof.
  unfold z2b. rewrite Z.mod_small by apply b2z_range.
  unfold b2z. rewrite N2Z.id, Strings.Byte.of_to_N. done.
Qed.

Lemma b2z_z2b z : b2z (z2b z) = z mod 256.
Proof.
  unfold z2b. pose proof (Z.mod_pos_bound z 256 ltac:(lia)) as Hz.
  destruct (Strings.Byte.of_N (Z.to_N (z mod 256))) as [b|] eqn:Hb.
  - apply Strings.Byte.to_of_N in Hb. unfold b2z. lia.
  - apply Strings.Byte.of_N_None_iff in Hb. lia.
Qed.

Lemma b2z_inj b1 b2 : b2z b1 = b2z b2 -> b1 = b2.
Proof. intros H. rewrite <-(z2b_b2z b1), <-(z2b_b2z b2). by f_equal. Qed.

Lemma byte_of_to_N b : default Corelib.Init.Byte.x00 (Strings.Byte.of_N (Strings.Byte.to_N b)) = b.
Proof. by rewrite Strings.Byte.of_to_N. Qed.
#[export] Instance byte_countable : Countable byte :=
  inj_countable' Strings.Byte.to_N (fun n => default Corelib.Init.Byte.x00 (Strings.Byte.of_N n)) byte_of_to_N.

(** ** Machine integers: a value is a [Z], conversions wrap. *)

Definition u8 (z : Z) : Z := z mod 2 ^ 8.
Definition u16 (z : Z) : Z := z mod 2 ^ 16.
Definition u32 (z : Z) : Z := z mod 2 ^ 32.
Definition u64 (z : Z) : Z := z mod 2 ^ 64.

Definition swrap (w z : Z) : Z := (z + 2 ^ (w - 1)) mod 2 ^ w - 2 ^ (w - 1).
Definition s8 : Z -> Z := swrap 8.
Definition s16 : Z -> Z := swrap 16.
Definition s32 : Z -> Z := swrap 32.
Definition s64 : Z -> Z := swrap 64.

(** Signed arithmetic that overflows is undefined: [chk32] and [chk64] are
    the value when it is representable and no value otherwise. *)
Definition chk (w z : Z) : option Z :=
  if decide (- 2 ^ (w - 1) <= z < 2 ^ (w - 1)) then Some z else None.
Definition chk32 : Z -> option Z := chk 32.
Definition chk64 : Z -> option Z := chk 64.

Lemma wrap_small w z : 0 <= z < 2 ^ w -> z mod 2 ^ w = z.
Proof. apply Z.mod_small. Qed.

Lemma swrap_small w z :
  0 < w -> - 2 ^ (w - 1) <= z < 2 ^ (w - 1) -> swrap w z = z.
Proof.
  intros Hw Hz. unfold swrap.
  assert (2 ^ w = 2 * 2 ^ (w - 1)) as E.
  { rewrite <-Z.pow_succ_r by lia. f_equal. lia. }
  rewrite Z.mod_small by lia. lia.
Qed.

Lemma swrap_mod w z : 0 < w -> swrap w (z mod 2 ^ w) = swrap w z.
Proof.
  intros Hw. unfold swrap. rewrite Z.add_mod_idemp_l; [done|].
  pose proof (Z.pow_pos_nonneg 2 w). lia.
Qed.

Lemma swrap_range w z :
  0 < w -> - 2 ^ (w - 1) <= swrap w z < 2 ^ (w - 1).
Proof.
  intros Hw. unfold swrap.
  assert (2 ^ w = 2 * 2 ^ (w - 1)) as E.
  { rewrite <-Z.pow_succ_r by lia. f_equal. lia. }
  pose proof (Z.mod_pos_bound (z + 2 ^ (w - 1)) (2 ^ w)). lia.
Qed.

Lemma chk_ok w z : - 2 ^ (w - 1) <= z < 2 ^ (w - 1) -> chk w z = Some z.
Proof. intros. unfold chk. by rewrite decide_True. Qed.

Lemma chk_inv w z z' :
  chk w z = Some z' -> z' = z /\ - 2 ^ (w - 1) <= z < 2 ^ (w - 1).
Proof. unfold chk. case_decide; [intros [= <-]; done | done]. Qed.

Lemma u8_small z : 0 <= z < 256 -> u8 z = z.
Proof. apply Z.mod_small. Qed.
Lemma u16_small z : 0 <= z < 65536 -> u16 z = z.
Proof. apply Z.mod_small. Qed.
Lemma u32_small z : 0 <= z < 4294967296 -> u32 z = z.
Proof. apply Z.mod_small. Qed.
Lemma u64_small z : 0 <= z < 18446744073709551616 -> u64 z = z.
Proof. apply Z.mod_small. Qed.
Lemma s8_small z : -128 <= z < 128 -> s8 z = z.
Proof. apply (swrap_small 8). lia. Qed.
Lemma s16_small z : -32768 <= z < 32768 -> s16 z = z.
Proof. apply (swrap_small 16). lia. Qed.
Lemma s32_small z : -2147483648 <= z < 2147483648 -> s32 z = z.
Proof. apply (swrap_small 32). lia. Qed.
Lemma s64_small z :
  -9223372036854775808 <= z < 9223372036854775808 -> s64 z = z.
Proof. apply (swrap_small 64). lia. Qed.
Lemma chk32_ok z : -2147483648 <= z < 2147483648 -> chk32 z = Some z.
Proof. apply (chk_ok 32). Qed.
Lemma chk64_ok z :
  -9223372036854775808 <= z < 9223372036854775808 -> chk64 z = Some z.
Proof. apply (chk_ok 64). Qed.
Lemma u8_range z : 0 <= u8 z < 256.
Proof. by apply Z.mod_pos_bound. Qed.
Lemma u16_range z : 0 <= u16 z < 65536.
Proof. by apply Z.mod_pos_bound. Qed.
Lemma u32_range z : 0 <= u32 z < 4294967296.
Proof. by apply Z.mod_pos_bound. Qed.
Lemma u64_range z : 0 <= u64 z < 18446744073709551616.
Proof. by apply Z.mod_pos_bound. Qed.

(** The values of a [long long]. *)
Definition int64 (v : Z) : Prop := - 2 ^ 63 <= v < 2 ^ 63.

(** Wrapping is removed when the range of the argument is in the context. *)
Ltac unwrap :=
  repeat first
    [ rewrite u8_small by lia | rewrite u16_small by lia
    | rewrite u32_small by lia | rewrite u64_small by lia
    | rewrite s8_small by lia | rewrite s16_small by lia
    | rewrite s32_small by lia | rewrite s64_small by lia ].

(** *** Steps of a hash function that lose no information *)

Lemma lt_pow2_shiftr n a : 0 <= n -> 0 <= a -> a < 2 ^ n <-> Z.shiftr a n = 0.
Proof.
  intros Hn Ha. rewrite Z.shiftr_div_pow2 by done. pose proof (Z.pow_pos_nonneg 2 n).
  rewrite Z.div_small_iff by lia. lia.
Qed.

Lemma lxor_u32_range a b :
  0 <= a < 2 ^ 32 -> 0 <= b < 2 ^ 32 -> 0 <= Z.lxor a b < 2 ^ 32.
Proof.
  intros Ha Hb. assert (0 <= Z.lxor a b) by (apply Z.lxor_nonneg; lia).
  split; [done|]. apply lt_pow2_shiftr; [done..|]. rewrite Z.shiftr_lxor.
  by rewrite (proj1 (lt_pow2_shiftr 32 a ltac:(lia) ltac:(lia))),
    (proj1 (lt_pow2_shiftr 32 b ltac:(lia) ltac:(lia))) by lia.
Qed.

Lemma shiftr_u32_range a k : 0 <= k -> 0 <= a < 2 ^ 32 -> 0 <= Z.shiftr a k < 2 ^ 32.
Proof.
  intros Hk Ha. rewrite Z.shiftr_div_pow2 by done. pose proof (Z.pow_pos_nonneg 2 k).
  split; [apply Z.div_pos; lia|]. apply Z.div_lt_upper_bound; nia.
Qed.

Lemma lxor_inj_l a b c : Z.lxor a c = Z.lxor b c -> a = b.
Proof.
  intros H. apply (f_equal (fun z => Z.lxor z c)) in H.
  by rewrite !Z.lxor_assoc, Z.lxor_nilpotent, !Z.lxor_0_r in H.
Qed.

(** Equality of bitwise expressions, bit by bit. *)
Ltac bits := apply Z.bits_inj; intros ?i; rewrite ?Z.lxor_spec, ?Z.land_spec, ?Z.lor_spec; btauto.

Lemma lxor_split k c :
  0 <= k -> c = Z.lxor (c mod 2 ^ k) (Z.shiftl (Z.shiftr c k) k).
Proof.
  intros Hk. apply Z.bits_inj'. intros i Hi. rewrite Z.lxor_spec.
  destruct (Z.lt_ge_cases i k).
  - rewrite Z.mod_pow2_bits_low, Z.shiftl_spec_low by lia. by rewrite xorb_false_r.
  - rewrite Z.mod_pow2_bits_high, Z.shiftl_spec_high, Z.shiftr_spec by lia.
    rewrite xorb_false_l. f_equal. lia.
Qed.

(** [x ^= x >> k] can be undone from the top bit down. *)
Lemma xorshift_inj k x y :
  0 < k -> 0 <= x < 2 ^ 32 -> 0 <= y < 2 ^ 32 ->
  Z.lxor x (Z.shiftr x k) = Z.lxor y (Z.shiftr y k) -> x = y.
Proof.
  intros Hk Hx Hy H.
  assert (forall z i, 0 <= z < 2 ^ 32 -> 32 <= i -> Z.testbit z i = false) as Hhigh.
  { intros z i Hz Hi. apply Z.bits_above_log2; [lia|].
    destruct (decide (z = 0)) as [->|]; [cbn; lia|]. pose proof (Z.log2_lt_pow2 z 32). lia. }
  assert (forall n i, 0 <= i -> 32 - Z.of_nat n <= i -> Z.testbit x i = Z.testbit y i) as Hbits.
  { induction n as [|n IH]; intros i Hi0 Hi.
    - by rewrite !Hhigh by lia.
    - apply (f_equal (fun z => Z.testbit z i)) in H.
      rewrite !Z.lxor_spec, !Z.shiftr_spec, (IH (i + k)) in H by lia.
      by destruct (Z.testbit x i), (Z.testbit y i), (Z.testbit y (i + k)). }
  apply Z.bits_inj'. intros i Hi. apply (Hbits 32%nat); lia.
Qed.

Lemma land_low z k : 0 <= k -> Z.land z (2 ^ k - 1) = z mod 2 ^ k.
Proof. intros Hk. rewrite <-Z.land_ones by done. f_equal. rewrite Z.ones_equiv. lia. Qed.

Lemma land_255 z : Z.land z 0xff = z mod 256.
Proof. exact (land_low z 8 ltac:(lia)). Qed.
Lemma land_63 z : Z.land z 0x3f = z mod 64.
Proof. exact (land_low z 6 ltac:(lia)). Qed.

(** Disjoint bits: [or] is the sum. *)
Lemma lor_add a b k : 0 <= k -> 0 <= b < 2 ^ k -> Z.lor (Z.shiftl a k) b = a * 2 ^ k + b.
Proof.
  intros Hk Hb. assert (Z.land (Z.shiftl a k) b = 0) as H0.
  { apply Z.bits_inj'. intros i Hi. rewrite Z.land_spec, Z.bits_0. destruct (Z.lt_ge_cases i k).
    - by rewrite Z.shiftl_spec_low by lia.
    - rewrite <-(Z.mod_small b (2 ^ k)) by done. rewrite Z.mod_pow2_bits_high by lia. apply andb_false_r. }
  by rewrite <-Z.lxor_lor, <-Z.add_nocarry_lxor, Z.shiftl_mul_pow2 by done.
Qed.

(** Facts about a few values by evaluation. *)
Lemma forall_small (P : Z -> bool) n z :
  forallb (fun i => P (Z.of_nat i)) (seq 0 n) = true -> 0 <= z < Z.of_nat n -> P z = true.
Proof.
  rewrite forallb_forall. intros H Hz. specialize (H (Z.to_nat z)). rewrite Z2Nat.id in H by lia.
  apply H, in_seq. lia.
Qed.

(** Range side conditions on 32-bit words. *)
Create HintDb u32db.
#[export] Hint Resolve lxor_u32_range shiftr_u32_range u32_range : u32db.
#[export] Hint Extern 1 (_ <= _) => lia : u32db.
#[export] Hint Extern 1 (_ < _) => lia : u32db.
#[export] Hint Extern 1 (_ <= _ <= _) => lia : u32db.

(** Multiplication by an invertible constant. *)
Lemma mul_u32_inj a ai b x y :
  (a * ai) mod 2 ^ 32 = 1 -> 0 <= x < 2 ^ 32 -> 0 <= y < 2 ^ 32 ->
  u32 (a * x + b) = u32 (a * y + b) -> x = y.
Proof.
  intros Ha Hx Hy H. unfold u32 in H.
  assert ((ai * (a * x)) mod 2 ^ 32 = (ai * (a * y)) mod 2 ^ 32) as E.
  { rewrite <-(Z.mul_mod_idemp_r ai (a * x)), <-(Z.mul_mod_idemp_r ai (a * y)) by lia.
    do 2 f_equal. replace (a * x) with (a * x + b - b) by lia.
    replace (a * y) with (a * y + b - b) by lia.
    by rewrite <-(Zminus_mod_idemp_l (a * x + b) b), <-(Zminus_mod_idemp_l (a * y + b) b), H. }
  rewrite !Z.mul_assoc, (Z.mul_comm ai), <-(Z.mul_mod_idemp_l (a * ai) x),
    <-(Z.mul_mod_idemp_l (a * ai) y), Ha in E by lia.
  rewrite !Z.mul_1_l in E. by rewrite !Z.mod_small in E by lia.
Qed.

(** ** Little-endian codec: the in-memory image of an n-byte integer. *)

Fixpoint le_bytes (n : nat) (z : Z) : list byte :=
  match n with
  | O => []
  | S n' => z2b z :: le_bytes n' (z / 256)
  end.

Fixpoint le_val (bs : list byte) : Z :=
  match bs with
  | [] => 0
  | b :: bs' => b2z b + 256 * le_val bs'
  end.

Lemma length_le_bytes n z : length (le_bytes n z) = n.
Proof. revert z. induction n; intros; simpl; auto. Qed.

Lemma le_val_range bs : 0 <= le_val bs < 256 ^ Z.of_nat (length bs).
Proof.
  induction bs as [|b bs IH]; [simpl; lia|].
  cbn [le_val length]. rewrite Nat2Z.inj_succ, Z.pow_succ_r by lia.
  pose proof (b2z_range b). lia.
Qed.

Lemma le_val_bytes n z : le_val (le_bytes n z) = z mod 256 ^ Z.of_nat n.
Proof.
  revert z. induction n as [|n IH]; intros z.
  { simpl. by rewrite Z.mod_1_r. }
  cbn [le_bytes le_val]. rewrite IH, b2z_z2b, Nat2Z.inj_succ, Z.pow_succ_r by lia.
  rewrite Z.rem_mul_r by (try apply Z.pow_pos_nonneg; lia). lia.
Qed.

Lemma le_bytes_val bs : le_bytes (length bs) (le_val bs) = bs.
Proof.
  induction bs as [|b bs IH]; [done|]. cbn [le_val length le_bytes].
  pose proof (b2z_range b). f_equal.
  - apply b2z_inj. rewrite b2z_z2b.
    rewrite Z.mul_comm, Z.mod_add by lia. by apply Z.mod_small.
  - rewrite Z.mul_comm, Z.div_add by lia. rewrite Z.div_small by lia. apply IH.
Qed.

Lemma le_bytes_mod n z : le_bytes n (z mod 256 ^ Z.of_nat n) = le_bytes n z.
Proof.
  rewrite <-le_val_bytes. rewrite <-(length_le_bytes n z) at 1. apply le_bytes_val.
Qed.

(** ** Memory blocks

    A block is the list of its bytes.  An access outside the block has no
    value.  [junk] is the content of memory nobody has written yet. *)

Definition mem_read (m : list byte) (off n : Z) : option (list byte) :=
  if decide (0 <= off /\ 0 <= n /\ off + n <= Z.of_nat (length m))
  then Some (take (Z.to_nat n) (drop (Z.to_nat off) m)) else None.

Definition mem_write (m : list byte) (off : Z) (bs : list byte) : option (list byte) :=
  if decide (0 <= off /\ off + Z.of_nat (length bs) <= Z.of_nat (length m))
  then Some (take (Z.to_nat off) m ++ bs ++ drop (Z.to_nat off + length bs) m) else None.

(** [memmove] reads the whole source before it writes. *)
Definition memmove (m : list byte) (dst src n : Z) : option (list byte) :=
  bs ← mem_read m src n; mem_write m dst bs.

Definition mem_resize (junk : nat -> byte) (m : list byte) (n : Z) : list byte :=
  take (Z.to_nat n) m ++ map junk (seq (length m) (Z.to_nat n - length m)).

Lemma length_mem_resize junk m n :
  length (mem_resize junk m n) = Z.to_nat n.
Proof. unfold mem_resize. rewrite length_app, length_map, length_seq, length_take. lia. Qed.

Lemma mem_resize_shrink junk m n :
  n <= Z.of_nat (length m) -> mem_resize junk m n = take (Z.to_nat n) m.
Proof.
  intros. unfold mem_resize. replace (Z.to_nat n - length m)%nat with 0%nat by lia.
  apply app_nil_r.
Qed.

Lemma mem_resize_grow junk m n :
  Z.of_nat (length m) <= n ->
  exists g, mem_resize junk m n = m ++ g /\ Z.of_nat (length g) = n - Z.of_nat (length m).
Proof.
  intros. unfold mem_resize. rewrite take_ge by lia.
  eexists. split; [done|]. rewrite length_map, length_seq. lia.
Qed.

(** Reading and writing a block given as a concatenation. *)
Lemma mem_read_app m1 m2 m3 off n :
  off = Z.of_nat (length m1) -> n = Z.of_nat (length m2) ->
  mem_read (m1 ++ m2 ++ m3) off n = Some m2.
Proof.
  intros -> ->. unfold mem_read. rewrite !length_app, decide_True by lia.
  rewrite !Nat2Z.id, drop_app_length, take_app_length. done.
Qed.

Lemma mem_write_app m1 m2 m3 off bs :
  off = Z.of_nat (length m1) -> length bs = length m2 ->
  mem_write (m1 ++ m2 ++ m3) off bs = Some (m1 ++ bs ++ m3).
Proof.
  intros -> Hl. unfold mem_write. rewrite !length_app, decide_True by lia.
  rewrite Nat2Z.id, take_app_length, Hl. do 3 f_equal.
  rewrite (app_assoc m1), drop_app_ge by (rewrite length_app; lia).
  rewrite length_app, Nat.sub_diag. done.
Qed.

(** One byte, as an [unsigned char]. *)
Definition getb (m : list byte) (i : Z) : option Z :=
  if decide (0 <= i) then b2z <$> m !! Z.to_nat i else None.
Definition setb (m : list byte) (i v : Z) : option (list byte) := mem_write m i [z2b v].

Lemma getb_nat m (i : nat) b : m !! i = Some b -> getb m (Z.of_nat i) = Some (b2z b).
Proof. intros H. unfold getb. rewrite decide_True by lia. by rewrite Nat2Z.id, H. Qed.
Lemma getb_app m1 b m2 i : i = Z.of_nat (length m1) -> getb (m1 ++ b :: m2) i = Some (b2z b).
Proof. intros ->. apply getb_nat. by rewrite lookup_app_r, Nat.sub_diag. Qed.
Lemma setb_app m1 b m2 i v : i = Z.of_nat (length m1) -> setb (m1 ++ b :: m2) i v = Some (m1 ++ z2b v :: m2).
Proof. intros ->. exact (mem_write_app m1 [b] m2 _ [z2b v] eq_refl eq_refl). Qed.

Lemma mem_read_inv m off n bs :
  mem_read m off n = Some bs ->
  exists m1 m3, m = m1 ++ bs ++ m3 /\ off = Z.of_nat (length m1) /\ n = Z.of_nat (length bs).
Proof.
  unfold mem_read. case_decide as H; [|done]. intros [= <-].
  exists (take (Z.to_nat off) m), (drop (Z.to_nat n) (drop (Z.to_nat off) m)).
  rewrite !take_drop, !length_take, length_drop. split_and!; [done|lia|lia].
Qed.

(** Opening a gap of [length G] bytes before [B], and closing a gap [X]. *)
Lemma memmove_right A B G C dst src n :
  dst = Z.of_nat (length A + length G) -> src = Z.of_nat (length A) -> n = Z.of_nat (length B) ->
  memmove (A ++ B ++ G ++ C) dst src n = Some (A ++ take (length G) (B ++ G) ++ B ++ C).
Proof.
  intros -> -> ->. unfold memmove. rewrite (mem_read_app A B) by done. cbn [option_bind mbind].
  replace (A ++ B ++ G ++ C)
    with ((A ++ take (length G) (B ++ G)) ++ drop (length G) (B ++ G) ++ C).
  2:{ rewrite <-!app_assoc, (app_assoc (take _ _)), take_drop. by rewrite <-!app_assoc. }
  rewrite mem_write_app, <-?app_assoc; [done|rewrite length_app, length_take, length_app; lia|].
  rewrite length_drop, length_app. lia.
Qed.

Lemma memmove_left A X B C dst src n :
  dst = Z.of_nat (length A) -> src = Z.of_nat (length A + length X) -> n = Z.of_nat (length B) ->
  memmove (A ++ X ++ B ++ C) dst src n = Some (A ++ B ++ drop (length B) (X ++ B) ++ C).
Proof.
  intros -> -> ->. unfold memmove.
  rewrite (app_assoc A X), (mem_read_app (A ++ X) B) by (rewrite ?length_app; lia).
  cbn [option_bind mbind].
  replace ((A ++ X) ++ B ++ C)
    with (A ++ take (length B) (X ++ B) ++ drop (length B) (X ++ B) ++ C).
  2:{ rewrite (app_assoc (take _ _)), take_drop. by rewrite <-!app_assoc. }
  rewrite mem_write_app; [done|done|]. rewrite length_take, length_app. lia.
Qed.

(** ** C library functions the source uses, in the C locale

    Characters are [int]s.  [memcmp] only promises the sign of its result. *)

Definition tolower (c : Z) : Z := if (65 <=? c) && (c <=? 90) then c + 32 else c.
Definition toupper (c : Z) : Z := if (97 <=? c) && (c <=? 122) then c - 32 else c.
Definition isspace (c : Z) : bool := (c =? 32) || ((9 <=? c) && (c <=? 13)).
Definition isdigit (c : Z) : bool := (48 <=? c) && (c <=? 57).
Definition isprint (c : Z) : bool := (32 <=? c) && (c <=? 126).

(** [char] is signed on the platforms the program is built for. *)
Definition char_val (b : byte) : Z := s8 (b2z b).

(** A [char] read through a pointer: the object and the offset in it. *)
Definition rd (m : list byte) (i : Z) : option Z :=
  if decide (0 <= i) then char_val <$> m !! Z.to_nat i else None.

Definition chr (b : byte) : Z := char_val b.

Fixpoint memcmp (s1 s2 : list byte) : Z :=
  match s1, s2 with
  | b1 :: s1', b2 :: s2' => if b2z b1 =? b2z b2 then memcmp s1' s2' else b2z b1 - b2z b2
  | _, _ => 0
  end.

(** The bytes before the first NUL. *)
Fixpoint cstr (s : list byte) : list byte :=
  match s with
  | [] => []
  | b :: s' => if b2z b =? 0 then [] else b :: cstr s'
  end.

Definition strlen (s : list byte) : Z := Z.of_nat (length (cstr s)).

Lemma rd_app pre b r t i : i = Z.of_nat (length pre) -> rd (pre ++ (b :: r) ++ t) i = Some (char_val b).
Proof.
  intros ->. unfold rd. rewrite decide_True, Nat2Z.id by lia. cbn [app]. by rewrite list_lookup_middle.
Qed.

Lemma char_val_b2z b : char_val b = if b2z b <? 128 then b2z b else b2z b - 256.
Proof.
  unfold char_val, s8, swrap. pose proof (b2z_range b). change (2 ^ (8 - 1)) with 128. change (2 ^ 8) with 256.
  destruct (Z.ltb_spec (b2z b) 128).
  - rewrite Z.mod_small by lia. lia.
  - assert ((b2z b + 128) mod 256 = b2z b - 128) as -> by (symmetry; apply (Z.mod_unique_pos _ _ 1); lia). lia.
Qed.

Lemma char_val_inj b c : char_val b = char_val c -> b = c.
Proof.
  rewrite !char_val_b2z. pose proof (b2z_range b). pose proof (b2z_range c). intros H1. apply b2z_inj.
  destruct (Z.ltb_spec (b2z b) 128), (Z.ltb_spec (b2z c) 128); lia.
Qed.

Lemma chr_eq b c : (char_val b =? chr c) = bool_decide (b = c).
Proof.
  apply eq_true_iff_eq. rewrite Z.eqb_eq, bool_decide_eq_true. unfold chr. split; [apply char_val_inj|by intros ->].
Qed.

Lemma memcmp_eq s1 : forall s2, length s1 = length s2 -> memcmp s1 s2 = 0 <-> s1 = s2.
Proof.
  induction s1 as [|b1 s1 IH]; intros [|b2 s2] Hl; try done. cbn in *.
  destruct (Z.eqb_spec (b2z b1) (b2z b2)) as [E|E].
  - apply b2z_inj in E as ->. rewrite IH by lia. split; [by intros ->|by intros [=]].
  - split; [lia|]. intros [= -> _]. done.
Qed.

(** ** Lists *)

(** Replacing one chain of a bucket array. *)
Lemma concat_insert_perm {A} (l : list (list A)) i b c :
  l !! i = Some b -> b ++ concat (<[i := c]> l) ≡ₚ c ++ concat l.
Proof.
  intros Hi. rewrite <-(take_drop_middle l i b Hi) at 2.
  rewrite insert_take_drop by (by eapply lookup_lt_Some).
  rewrite !concat_app. cbn [concat].
  rewrite (Permutation_app_swap_app b), (Permutation_app_swap_app c).
  apply Permutation_app_head, Permutation_app_swap_app.
Qed.

Lemma concat_replicate_nil {A} n : concat (replicate n ([] : list A)) = [].
Proof. by induction n. Qed.

Lemma elem_of_concat {A} (x : A) l : x ∈ concat l <-> exists i c, l !! i = Some c /\ x ∈ c.
Proof.
  rewrite list_elem_of_In, in_concat. split.
  - intros (c & Hc & Hx). apply list_elem_of_In, list_elem_of_lookup in Hc as [i Hi].
    exists i, c. by rewrite list_elem_of_In.
  - intros (i & c & Hi & Hx). exists c. rewrite <-!list_elem_of_In. split; [|done].
    by eapply list_elem_of_lookup_2.
Qed.

Lemma nodup_fmap_perm {A B} (f : A -> B) l l' :
  l ≡ₚ l' -> NoDup (f <$> l') -> NoDup (f <$> l).
Proof. by intros ->. Qed.

Lemma list_insert_perm {A} (l : list A) i x y :
  l !! i = Some x -> x :: <[i := y]> l ≡ₚ y :: l.
Proof.
  intros Hi. rewrite <-(take_drop_middle l i x Hi) at 2.
  rewrite insert_take_drop by (by eapply lookup_lt_Some).
  rewrite <-!Permutation_middle. apply perm_swap.
Qed.

Lemma list_filter_all {A} (P : A -> Prop) `{!forall x, Decision (P x)} l :
  Forall P l -> filter P l = l.
Proof. induction 1 as [|x l Hx _ IH]; [done|]. by rewrite filter_cons_True, IH. Qed.

Lemma list_filter_none {A} (P : A -> Prop) `{!forall x, Decision (P x)} l :
  Forall (fun x => ~ P x) l -> filter P l = [].
Proof. induction 1 as [|x l Hx _ IH]; [done|]. by rewrite filter_cons_False, IH. Qed.
