(* ===== verification/Dict.v ===== *)
(** Dict: the hash tables of [dict.c], with incremental rehashing.

    A chain of [dictEntry]s linked by [next] is the list of its entries; the
    bucket array is the list of its chains, and the empty list stands for
    the [NULL] table of a table that was never allocated ([size = 0]).
    Operations return no value where the C code would index out of the
    bucket array or fail an [assert]. *)
From S2P Require Import Prelude.

Record dictEntry (K V : Type) := DictEntry { de_key : K; de_val : V }.
Arguments DictEntry {K V} _ _.
Arguments de_key {K V} _.
Arguments de_val {K V} _.

(** [dictType]: an absent function pointer is [None]; destructors only have
    an effect outside the dictionary, so the model keeps whether they are
    set and logs their calls. *)
Record dictType (K V : Type) := DictType {
  hashFunction : K -> Z;
  keyDup : option (K -> K);
  valDup : option (V -> V);
  keyCompare : option (K -> K -> bool);
  keyDestructor : bool;
  valDestructor : bool
}.
Arguments DictType {K V} _ _ _ _ _ _.
Arguments hashFunction {K V} _ _.
Arguments keyDup {K V} _.
Arguments valDup {K V} _.
Arguments keyCompare {K V} _.
Arguments keyDestructor {K V} _.
Arguments valDestructor {K V} _.

Record dictht (K V : Type) := Dictht {
  table : list (list (dictEntry K V));
  size : Z;
  sizemask : Z;
  used : Z
}.
Arguments Dictht {K V} _ _ _ _.
Arguments table {K V} _.
Arguments size {K V} _.
Arguments sizemask {K V} _.
Arguments used {K V} _.

Record dict (K V : Type) := Dict {
  ht0 : dictht K V;
  ht1 : dictht K V;
  rehashidx : Z;
  iterators : Z
}.
Arguments Dict {K V} _ _ _ _.
Arguments ht0 {K V} _.
Arguments ht1 {K V} _.
Arguments rehashidx {K V} _.
Arguments iterators {K V} _.

Definition DICT_HT_INITIAL_SIZE : Z := 4.
Definition dict_force_resize_ratio : Z := 5.
Definition LONG_MAX : Z := 2 ^ 63 - 1.

Section DictOps.
Context {K V : Type} `{EqDecision K} (t : dictType K V).
Implicit Types (d : dict K V) (h : dictht K V) (key : K) (val : V).

(** *** Macros of dict.h *)

(** The destructor calls an operation makes, in order. *)
Definition dictFreeKey (e : dictEntry K V) : list (K + V) :=
  if keyDestructor t then [inl (de_key e)] else [].
Definition dictFreeVal (e : dictEntry K V) : list (K + V) :=
  if valDestructor t then [inr (de_val e)] else [].

Definition dictSetKey (key : K) : K :=
  match keyDup t with Some dup => dup key | None => key end.
Definition dictSetVal (val : V) : V :=
  match valDup t with Some dup => dup val | None => val end.

Definition dictCompareKeys (key1 key2 : K) : bool :=
  match keyCompare t with
  | Some cmp => cmp key1 key2
  | None => bool_decide (key1 = key2)
  end.

Definition dictHashKey (key : K) : Z := u32 (hashFunction t key).
Definition dictSize d : Z := u64 (used (ht0 d) + used (ht1 d)).
Definition dictIsRehashing d : bool := negb (rehashidx d =? -1).

(** [ht->table[idx]] and the assignment to it. *)
Definition ht_bucket h (idx : Z) : option (list (dictEntry K V)) :=
  if decide (0 <= idx) then table h !! Z.to_nat idx else None.
Definition ht_set_bucket h (idx : Z) (c : list (dictEntry K V)) : dictht K V :=
  Dictht (<[Z.to_nat idx := c]> (table h)) (size h) (sizemask h) (used h).
Definition ht_set_used h (n : Z) : dictht K V :=
  Dictht (table h) (size h) (sizemask h) n.

(** [d->ht[i]], [i] being 0 or 1. *)
Definition dict_ht d (i : bool) : dictht K V := if i then ht1 d else ht0 d.
Definition dict_set_ht d (i : bool) h : dict K V :=
  if i then Dict (ht0 d) h (rehashidx d) (iterators d)
  else Dict h (ht1 d) (rehashidx d) (iterators d).

(** *** Creation and sizing *)

Definition _dictReset : dictht K V := Dictht [] 0 0 0.

Definition dictCreate : dict K V := Dict _dictReset _dictReset (-1) 0.

(** The doubling loop of [_dictNextPower]; [unsigned long] wraps. *)
Fixpoint nextPower_loop (fuel : nat) (i sz : Z) : option Z :=
  match fuel with
  | O => None
  | S fuel' => if sz <=? i then Some i else nextPower_loop fuel' (u64 (i * 2)) sz
  end.

(** Sixty-two doublings take 4 past every size below [LONG_MAX]. *)
Definition _dictNextPower (sz : Z) : option Z :=
  if LONG_MAX <=? sz then Some LONG_MAX
  else nextPower_loop 62 DICT_HT_INITIAL_SIZE sz.

(** The [zcalloc] of [realsize] pointers: no table of [realsize] chains
    when the byte count wraps. *)
Definition alloc_table (realsize : Z) : option (list (list (dictEntry K V))) :=
  if decide (u64 (realsize * 8) = realsize * 8)
  then Some (replicate (Z.to_nat realsize) []) else None.

(** Result [true] is [DICT_OK]. *)
Definition dictExpand d (sz : Z) : option (dict K V * bool) :=
  realsize ← _dictNextPower sz;
  if dictIsRehashing d || (sz <? used (ht0 d)) then Some (d, false)
  else
    tab ← alloc_table realsize;
    let n := Dictht tab realsize (realsize - 1) 0 in
    if bool_decide (table (ht0 d) = [])
    then Some (Dict n (ht1 d) (rehashidx d) (iterators d), true)
    else Some (Dict (ht0 d) n 0 (iterators d), true).

(** [dict_can_resize] is the static flag [dictEnableResize] and
    [dictDisableResize] set; operations take its current value. *)
Definition dictResize (dict_can_resize : bool) d : option (dict K V * bool) :=
  if negb dict_can_resize || dictIsRehashing d then Some (d, false)
  else
    let minimal := s32 (used (ht0 d)) in
    let minimal := if minimal <? DICT_HT_INITIAL_SIZE then DICT_HT_INITIAL_SIZE else minimal in
    dictExpand d (u64 minimal).

Definition _dictExpandIfNeeded (dict_can_resize : bool) d : option (dict K V * bool) :=
  if dictIsRehashing d then Some (d, true)
  else if size (ht0 d) =? 0 then dictExpand d DICT_HT_INITIAL_SIZE
  else if (size (ht0 d) <=? used (ht0 d)) &&
          (dict_can_resize || (dict_force_resize_ratio <? used (ht0 d) / size (ht0 d)))
  then dictExpand d (u64 ((if used (ht0 d) <? size (ht0 d)
                           then size (ht0 d) else used (ht0 d)) * 2))
  else Some (d, true).

(** *** Incremental rehashing *)

(** [while(d->ht[0].table[d->rehashidx] == NULL) d->rehashidx++;] *)
Fixpoint rehash_skip (fuel : nat) h (idx : Z) : option Z :=
  match fuel with
  | O => None
  | S fuel' =>
    c ← ht_bucket h idx;
    match c with
    | [] => idx' ← chk32 (idx + 1); rehash_skip fuel' h idx'
    | _ :: _ => Some idx
    end
  end.

(** Move one chain: [used0] counts [ht[0].used] down, [h] is [ht[1]]. *)
Fixpoint rehash_chain (c : list (dictEntry K V)) (used0 : Z) h : option (Z * dictht K V) :=
  match c with
  | [] => Some (used0, h)
  | de :: nextde =>
    let idx := u32 (Z.land (dictHashKey (de_key de)) (sizemask h)) in
    b ← ht_bucket h idx;
    rehash_chain nextde (u64 (used0 - 1))
      (ht_set_used (ht_set_bucket h idx (de :: b)) (u64 (used h + 1)))
  end.

(** The body of the [while(n--)] loop when [ht[0].used != 0]. *)
Definition rehash_bucket d : option (dict K V) :=
  if size (ht0 d) <=? u32 (rehashidx d) then None
  else
    idx ← rehash_skip (S (length (table (ht0 d)))) (ht0 d) (rehashidx d);
    c ← ht_bucket (ht0 d) idx;
    '(used0, h1) ← rehash_chain c (used (ht0 d)) (ht1 d);
    idx' ← chk32 (idx + 1);
    Some (Dict (ht_set_used (ht_set_bucket (ht0 d) idx []) used0) h1 idx' (iterators d)).

Fixpoint dictRehash_loop (n : nat) d : option (dict K V * bool) :=
  match n with
  | O => Some (d, true)
  | S n' =>
    if used (ht0 d) =? 0
    then Some (Dict (ht1 d) _dictReset (-1) (iterators d), false)
    else d' ← rehash_bucket d; dictRehash_loop n' d'
  end.

(** Result [true] (C: 1) says there are keys left to move. *)
Definition dictRehash d (n : nat) : option (dict K V * bool) :=
  if dictIsRehashing d then dictRehash_loop n d else Some (d, false).

(** [clock i] is the i-th reading of [timeInMilliseconds]. *)
Fixpoint dictRehashMilliseconds_loop (clock : nat -> Z) (fuel i : nat) d (start ms rehashes : Z)
    : option (dict K V * Z) :=
  match fuel with
  | O => None
  | S fuel' =>
    '(d', more) ← dictRehash d 100;
    if more : bool then
      rehashes' ← chk32 (rehashes + 100);
      if ms <? clock i - start then Some (d', rehashes')
      else dictRehashMilliseconds_loop clock fuel' (S i) d' start ms rehashes'
    else Some (d', rehashes)
  end.

Definition dictRehashMilliseconds (clock : nat -> Z) (fuel : nat) d (ms : Z) : option (dict K V * Z) :=
  dictRehashMilliseconds_loop clock fuel 1 d (clock 0%nat) ms 0.

Definition _dictRehashStep d : option (dict K V) :=
  if iterators d =? 0 then fst <$> dictRehash d 1 else Some d.

(** [if (dictIsRehashing(d)) _dictRehashStep(d);] *)
Definition rehash_if_needed d : option (dict K V) :=
  if dictIsRehashing d then _dictRehashStep d else Some d.

(** *** Lookup *)

(** A pointer to an entry: the table, the bucket and the position of the
    entry in its chain.  It is used before the dictionary changes. *)
Record entryRef := EntryRef { er_table : bool; er_idx : Z; er_pos : nat }.

(** The [while(he)] loop: position of the first entry comparing equal. *)
Fixpoint chain_find (c : list (dictEntry K V)) key : option nat :=
  match c with
  | [] => None
  | he :: c' => if dictCompareKeys key (de_key he) then Some 0%nat else S <$> chain_find c' key
  end.

Definition table_find d (i : bool) key : option (option entryRef) :=
  let h := dict_ht d i in
  let idx := u32 (Z.land (dictHashKey key) (sizemask h)) in
  c ← ht_bucket h idx;
  Some (EntryRef i idx <$> chain_find c key).

Definition dictFind d key : option (dict K V * option entryRef) :=
  if size (ht0 d) =? 0 then Some (d, None)
  else
    d ← rehash_if_needed d;
    r ← table_find d false key;
    match r with
    | Some he => Some (d, Some he)
    | None =>
      if dictIsRehashing d then r ← table_find d true key; Some (d, r)
      else Some (d, None)
    end.

Definition entry_at d (r : entryRef) : option (dictEntry K V) :=
  c ← ht_bucket (dict_ht d (er_table r)) (er_idx r); c !! er_pos r.

Definition set_entry d (r : entryRef) (e : dictEntry K V) : option (dict K V) :=
  c ← ht_bucket (dict_ht d (er_table r)) (er_idx r);
  if decide (er_pos r < length c)%nat
  then Some (dict_set_ht d (er_table r)
               (ht_set_bucket (dict_ht d (er_table r)) (er_idx r) (<[er_pos r := e]> c)))
  else None.

Definition dictFetchValue d key : option (dict K V * option V) :=
  '(d, he) ← dictFind d key;
  match he with
  | Some r => e ← entry_at d r; Some (d, Some (de_val e))
  | None => Some (d, None)
  end.

(** *** Insertion *)

(** Index of the bucket a new entry goes to, -1 when the key exists (or when
    the bucket number is the [int] -1). *)
Definition _dictKeyIndex (cr : bool) d key : option (dict K V * Z) :=
  '(d, ok) ← _dictExpandIfNeeded cr d;
  if negb ok then Some (d, -1)
  else
    let h := dictHashKey key in
    let idx := u32 (Z.land h (sizemask (ht0 d))) in
    c ← ht_bucket (ht0 d) idx;
    match chain_find c key with
    | Some _ => Some (d, -1)
    | None =>
      if dictIsRehashing d then
        let idx := u32 (Z.land h (sizemask (ht1 d))) in
        c ← ht_bucket (ht1 d) idx;
        match chain_find c key with
        | Some _ => Some (d, -1)
        | None => Some (d, s32 idx)
        end
      else Some (d, s32 idx)
    end.

(** [junk] is the content of the value field of a fresh entry. *)
Definition dictAddRaw (junk : V) (cr : bool) d key : option (dict K V * option entryRef) :=
  d ← rehash_if_needed d;
  '(d, index) ← _dictKeyIndex cr d key;
  if index =? -1 then Some (d, None)
  else
    let i := dictIsRehashing d in
    let h := dict_ht d i in
    c ← ht_bucket h index;
    let h := ht_set_bucket h index (DictEntry (dictSetKey key) junk :: c) in
    Some (dict_set_ht d i (ht_set_used h (u64 (used h + 1))), Some (EntryRef i index 0)).

Definition dictAdd (junk : V) (cr : bool) d key val : option (dict K V * bool) :=
  '(d, entry) ← dictAddRaw junk cr d key;
  match entry with
  | None => Some (d, false)
  | Some r =>
    e ← entry_at d r;
    d ← set_entry d r (DictEntry (de_key e) (dictSetVal val));
    Some (d, true)
  end.

(** Result: [true] (C: 1) when the key was added, and the destructor calls. *)
Definition dictReplace (junk : V) (cr : bool) d key val : option (dict K V * bool * list (K + V)) :=
  '(d, ok) ← dictAdd junk cr d key val;
  if ok : bool then Some (d, true, [])
  else
    '(d, entry) ← dictFind d key;
    r ← entry;
    auxentry ← entry_at d r;
    d ← set_entry d r (DictEntry (de_key auxentry) (dictSetVal val));
    Some (d, false, dictFreeVal auxentry).

Definition dictReplaceRaw (junk : V) (cr : bool) d key : option (dict K V * option entryRef) :=
  '(d, entry) ← dictFind d key;
  match entry with
  | Some r => Some (d, Some r)
  | None => dictAddRaw junk cr d key
  end.

(** *** Deletion *)

Definition table_delete d (i : bool) key (nofree : bool) : option (option (dict K V * list (K + V))) :=
  let h := dict_ht d i in
  let idx := u32 (Z.land (dictHashKey key) (sizemask h)) in
  c ← ht_bucket h idx;
  match chain_find c key with
  | None => Some None
  | Some p =>
    he ← c !! p;
    let freed := if nofree then [] else dictFreeKey he ++ dictFreeVal he in
    let h := ht_set_bucket h idx (delete p c) in
    Some (Some (dict_set_ht d i (ht_set_used h (u64 (used h - 1))), freed))
  end.

Definition dictGenericDelete d key (nofree : bool) : option (dict K V * bool * list (K + V)) :=
  if size (ht0 d) =? 0 then Some (d, false, [])
  else
    d ← rehash_if_needed d;
    r ← table_delete d false key nofree;
    match r with
    | Some (d', freed) => Some (d', true, freed)
    | None =>
      if dictIsRehashing d then
        r ← table_delete d true key nofree;
        match r with
        | Some (d', freed) => Some (d', true, freed)
        | None => Some (d, false, [])
        end
      else Some (d, false, [])
    end.

Definition dictDelete d key := dictGenericDelete d key false.
Definition dictDeleteNoFree d key := dictGenericDelete d key true.

Definition free_chain (c : list (dictEntry K V)) : list (K + V) :=
  concat ((fun e => dictFreeKey e ++ dictFreeVal e) <$> c).

(** [for (i = 0; i < ht->size && ht->used > 0; i++)]: [tab] is the part of
    the table not visited yet. *)
Fixpoint clear_loop (tab : list (list (dictEntry K V))) (u : Z) : list (K + V) :=
  match tab with
  | [] => []
  | c :: tab' =>
    if u <=? 0 then []
    else free_chain c ++ clear_loop tab' (u64 (u - Z.of_nat (length c)))
  end.

Definition _dictClear h : dictht K V * list (K + V) :=
  (_dictReset, clear_loop (take (Z.to_nat (size h)) (table h)) (used h)).

Definition dictRelease d : list (K + V) :=
  (_dictClear (ht0 d)).2 ++ (_dictClear (ht1 d)).2.

Definition dictEmpty d : dict K V * list (K + V) :=
  let '(h0, f0) := _dictClear (ht0 d) in
  let '(h1, f1) := _dictClear (ht1 d) in
  (Dict h0 h1 (-1) 0, f0 ++ f1).

(** *** Iteration

    [entry] and [nextEntry] are the chain from the entry they point to on,
    [NULL] being the empty chain.  Unlinking the entry [dictNext] returned
    leaves the chain after it as it is, which is what a safe iterator is
    for. *)
Record dictIterator := DictIterator {
  it_table : bool;
  it_index : Z;
  it_safe : bool;
  it_entry : list (dictEntry K V);
  it_nextEntry : list (dictEntry K V)
}.

Definition dictGetIterator : dictIterator := DictIterator false (-1) false [] [].
Definition dictGetSafeIterator : dictIterator := DictIterator false (-1) true [] [].

(** The part of the [while (1)] body that moves to the next bucket; [None]
    as the second component is the [break]. *)
Definition dictNext_bucket d (it : dictIterator)
    : option (dict K V * dictIterator * option (list (dictEntry K V))) :=
  let d :=
    if it_safe it && (it_index it =? -1) && negb (it_table it)
    then Dict (ht0 d) (ht1 d) (rehashidx d) (iterators d + 1) else d in
  index ← chk32 (it_index it + 1);
  if s32 (size (dict_ht d (it_table it))) <=? index then
    if dictIsRehashing d && negb (it_table it) then
      c ← ht_bucket (ht1 d) 0;
      Some (d, DictIterator true 0 (it_safe it) (it_entry it) (it_nextEntry it), Some c)
    else
      Some (d, DictIterator (it_table it) index (it_safe it) (it_entry it) (it_nextEntry it), None)
  else
    c ← ht_bucket (dict_ht d (it_table it)) index;
    Some (d, DictIterator (it_table it) index (it_safe it) (it_entry it) (it_nextEntry it), Some c).

Fixpoint dictNext_loop (fuel : nat) d (it : dictIterator)
    : option (dict K V * dictIterator * option (dictEntry K V)) :=
  match fuel with
  | O => None
  | S fuel' =>
    '(d, it, entry) ← match it_entry it with
                      | [] => dictNext_bucket d it
                      | _ :: _ => Some (d, it, Some (it_nextEntry it))
                      end;
    match entry with
    | None => Some (d, it, None)
    | Some [] => dictNext_loop fuel' d
                   (DictIterator (it_table it) (it_index it) (it_safe it) [] (it_nextEntry it))
    | Some (e :: next) =>
      Some (d, DictIterator (it_table it) (it_index it) (it_safe it) (e :: next) next, Some e)
    end
  end.

(** Each round of the loop visits a bucket or leaves one. *)
Definition dictNext d (it : dictIterator) :=
  dictNext_loop (3 + length (table (ht0 d)) + length (table (ht1 d))) d it.

Definition dictReleaseIterator d (it : dictIterator) : dict K V :=
  if it_safe it && negb ((it_index it =? -1) && negb (it_table it))
  then Dict (ht0 d) (ht1 d) (rehashidx d) (iterators d - 1) else d.

(** *** Random entry

    [random i] is the i-th result of [random()]; the functions return how
    many results they have used. *)
Fixpoint random_bucket (random : nat -> Z) (fuel i : nat) d : option (list (dictEntry K V) * nat) :=
  match fuel with
  | O => None
  | S fuel' =>
    he ← (if dictIsRehashing d then
            let h := u32 (random i mod u64 (size (ht0 d) + size (ht1 d))) in
            if size (ht0 d) <=? h then ht_bucket (ht1 d) (h - size (ht0 d))
            else ht_bucket (ht0 d) h
          else ht_bucket (ht0 d) (u32 (Z.land (random i) (sizemask (ht0 d)))));
    match he with
    | [] => random_bucket random fuel' (S i) d
    | _ :: _ => Some (he, S i)
    end
  end.

Definition dictGetRandomKey (random : nat -> Z) (fuel : nat) d
    : option (dict K V * option (dictEntry K V)) :=
  if dictSize d =? 0 then Some (d, None)
  else
    d ← rehash_if_needed d;
    '(orighe, i) ← random_bucket random fuel 0 d;
    let listlen := Z.of_nat (length orighe) in
    he ← orighe !! Z.to_nat (random i mod listlen);
    Some (d, Some he).
End DictOps.
