(* ===== verification/DictProofs.v ===== *)
(** DictProofs: the invariant of a dictionary, the finite map it stands for,
    and the theorems that the operations of [Dict] implement that map. *)
From S2P Require Import Prelude Dict.

(** What a [dictType] promises to the table: keys are compared through a
    canonical form, equal keys have equal hashes and [keyDup] makes an equal
    key. *)
Class DictTypeLaws {K V C : Type} `{EqDecision K} (t : dictType K V) (canon : K -> C) : Prop := {
  compare_canon k1 k2 : dictCompareKeys t k1 k2 = true <-> canon k1 = canon k2;
  hash_canon k1 k2 : canon k1 = canon k2 -> dictHashKey t k1 = dictHashKey t k2;
  dup_canon k : canon (dictSetKey t k) = canon k
}.

Section DictInvariant.
Context {K V C : Type} `{EqDecision K} (t : dictType K V) (canon : K -> C).
Context `{HL : !DictTypeLaws t canon}.
Implicit Types (d : dict K V) (h : dictht K V) (key : K) (val : V).
Implicit Types (e : dictEntry K V).

Definition ht_index h key : Z := u32 (Z.land (dictHashKey t key) (sizemask h)).

Definition ht_entries h : list (dictEntry K V) := concat (table h).

Record ht_wf h : Prop := {
  hw_len : Z.of_nat (length (table h)) = size h;
  hw_size : (size h = 0 /\ sizemask h = 0) \/
            exists n, 2 <= n <= 30 /\ size h = 2 ^ n /\ sizemask h = size h - 1;
  hw_used : used h = Z.of_nat (length (ht_entries h));
  hw_hash i c : table h !! i = Some c ->
                Forall (fun e => ht_index h (de_key e) = Z.of_nat i) c
}.

Definition dict_entries d : list (dictEntry K V) := ht_entries (ht0 d) ++ ht_entries (ht1 d).

Definition entry_canon e : C := canon (de_key e).

Record dict_wf d : Prop := {
  dw_ht0 : ht_wf (ht0 d);
  dw_ht1 : ht_wf (ht1 d);
  dw_rehash :
    (rehashidx d = -1 /\ ht1 d = _dictReset) \/
    (0 <= rehashidx d <= size (ht0 d) /\ 0 < size (ht0 d) /\ 0 < size (ht1 d) /\
     forall i c, table (ht0 d) !! i = Some c -> Z.of_nat i < rehashidx d -> c = []);
  dw_nodup : NoDup (entry_canon <$> dict_entries d);
  dw_used : used (ht0 d) + used (ht1 d) < 2 ^ 62
}.

(** *** One table *)

Lemma ht_wf_reset : ht_wf _dictReset.
Proof.
  split; [done|by left|done|]. intros i c Hi. destruct i; done.
Qed.

Lemma ht_wf_size_bound h : ht_wf h -> 0 <= size h <= 2 ^ 30.
Proof.
  intros [_ [[-> _]|(n & Hn & -> & _)] _ _]; [lia|].
  split; [lia|]. apply Z.pow_le_mono_r; lia.
Qed.

Lemma ht_index_range h key : ht_wf h -> 0 < size h -> 0 <= ht_index h key < size h.
Proof.
  intros W Hs. pose proof (ht_wf_size_bound h W).
  destruct (hw_size h W) as [[? _]|(n & Hn & Hsz & Hm)]; [lia|].
  unfold ht_index. rewrite Hm, Hsz, Z.sub_1_r, <-Z.ones_equiv, Z.land_ones by lia.
  pose proof (Z.mod_pos_bound (dictHashKey t key) (2 ^ n) ltac:(lia)).
  rewrite u32_small; lia.
Qed.

Lemma ht_bucket_lookup h i :
  ht_wf h -> 0 <= i < size h ->
  exists c, ht_bucket h i = Some c /\ table h !! Z.to_nat i = Some c.
Proof.
  intros W Hi. unfold ht_bucket. rewrite decide_True by lia.
  destruct (lookup_lt_is_Some_2 (table h) (Z.to_nat i)) as [c Hc].
  { pose proof (hw_len h W). lia. }
  eauto.
Qed.

(** Replacing the chain of bucket [i]. *)
Lemma ht_wf_set_bucket h i b c :
  ht_wf h -> table h !! Z.to_nat i = Some b ->
  Forall (fun e => ht_index h (de_key e) = Z.of_nat (Z.to_nat i)) c ->
  ht_wf (ht_set_used (ht_set_bucket h i c)
           (used h + Z.of_nat (length c) - Z.of_nat (length b))).
Proof.
  intros W Hb Hc. destruct W as [Wl Ws Wu Wh]. split; cbn.
  - by rewrite length_insert.
  - done.
  - pose proof (Permutation_length (concat_insert_perm _ _ _ c Hb)) as HP.
    rewrite !length_app in HP. unfold ht_entries in *. cbn. lia.
  - intros j c' Hj. change (ht_index _) with (ht_index h).
    destruct (decide (j = Z.to_nat i)) as [->|Hne].
    + rewrite list_lookup_insert_eq in Hj by (by eapply lookup_lt_Some).
      by injection Hj as <-.
    + rewrite list_lookup_insert_ne in Hj by done. by apply Wh.
Qed.

Lemma ht_entries_set_bucket h i b c n :
  table h !! Z.to_nat i = Some b ->
  b ++ ht_entries (ht_set_used (ht_set_bucket h i c) n) ≡ₚ c ++ ht_entries h.
Proof. apply concat_insert_perm. Qed.

(** A key is stored, if at all, in the bucket its hash selects. *)
Lemma ht_entry_bucket h e key c :
  ht_wf h -> e ∈ ht_entries h -> entry_canon e = canon key ->
  table h !! Z.to_nat (ht_index h key) = Some c -> e ∈ c.
Proof.
  intros W He Hk Hc. apply elem_of_concat in He as (i & c' & Hi & He).
  pose proof (hw_hash h W i c' Hi) as HF. rewrite Forall_forall in HF.
  specialize (HF e He). unfold ht_index in *.
  rewrite (hash_canon (de_key e) key Hk) in HF. rewrite HF, Nat2Z.id in Hc. congruence.
Qed.

Lemma chain_find_Some c key p :
  chain_find t c key = Some p -> exists e, c !! p = Some e /\ entry_canon e = canon key.
Proof.
  revert p. induction c as [|e c IH]; intros p; [done|]. cbn.
  destruct (dictCompareKeys t key (de_key e)) eqn:E.
  - intros [= <-]. exists e. split; [done|]. symmetry. by apply (compare_canon key (de_key e)).
  - intros (p' & Hp & ->)%fmap_Some. by apply IH.
Qed.

Lemma chain_find_None c key :
  chain_find t c key = None -> forall e, e ∈ c -> entry_canon e <> canon key.
Proof.
  induction c as [|e c IH]; cbn; intros H e' He'.
  - by apply not_elem_of_nil in He'.
  - destruct (dictCompareKeys t key (de_key e)) eqn:E; [done|].
    apply fmap_None in H. apply elem_of_cons in He' as [->|He']; [|by apply IH].
    intros Heq. apply not_true_iff_false in E. apply E.
    by apply (compare_canon key (de_key e)).
Qed.

(** *** Rehashing *)

Lemma rehash_chain_spec c : forall used0 h,
  ht_wf h -> 0 < size h -> Z.of_nat (length c) <= used0 -> used0 + used h < 2 ^ 62 ->
  exists h', rehash_chain t c used0 h = Some (used0 - Z.of_nat (length c), h') /\
    ht_wf h' /\ size h' = size h /\ ht_entries h' ≡ₚ c ++ ht_entries h.
Proof.
  induction c as [|e c IH]; intros used0 h W Hs Hl Hu; cbn [length] in *.
  { exists h. cbn. by rewrite Z.sub_0_r. }
  pose proof (ht_index_range h (de_key e) W Hs) as Hi.
  destruct (ht_bucket_lookup h _ W Hi) as (b & Hb & Hlk).
  pose proof (hw_used h W) as Hu0.
  cbn. unfold ht_index in Hb. rewrite Hb. cbn.
  pose proof (ht_wf_set_bucket h _ b (e :: b) W Hlk) as W'.
  replace (used h + Z.of_nat (length (e :: b)) - Z.of_nat (length b))
    with (used h + 1) in W' by (cbn; lia).
  rewrite !u64_small by lia.
  destruct (IH (used0 - 1) (ht_set_used (ht_set_bucket h (ht_index h (de_key e)) (e :: b)) (used h + 1)))
    as (h' & E & W'' & Hs' & HP); [| done | lia | cbn; lia |].
  { apply W'. pose proof (hw_hash h W _ _ Hlk). constructor; [lia|done]. }
  exists h'. unfold ht_index in E. rewrite E. split_and!; [f_equal; f_equal; lia|done|done|].
  rewrite HP. pose proof (ht_entries_set_bucket h _ b (e :: b) (used h + 1) Hlk) as HP2.
  apply (Permutation_app_inv_l b). rewrite (Permutation_app_swap_app b c), HP2. cbn.
  rewrite <-!Permutation_middle. by rewrite (Permutation_app_swap_app c).
Qed.

Lemma rehash_skip_spec h j e c : forall fuel idx,
  ht_wf h -> table h !! j = Some (e :: c) -> 0 <= idx <= Z.of_nat j ->
  (j < fuel + Z.to_nat idx)%nat ->
  (forall i c, table h !! i = Some c -> Z.of_nat i < idx -> c = []) ->
  exists i e' c', rehash_skip fuel h (Z.of_nat (Z.to_nat idx)) = Some (Z.of_nat i) /\
    idx <= Z.of_nat i < size h /\ table h !! i = Some (e' :: c') /\
    (forall k c, table h !! k = Some c -> (k < i)%nat -> c = []).
Proof.
  induction fuel as [|fuel IH]; intros idx W Hj Hidx Hf Hemp; [lia|].
  pose proof (lookup_lt_Some _ _ _ Hj) as Hjl. pose proof (hw_len h W).
  pose proof (ht_wf_size_bound h W).
  destruct (ht_bucket_lookup h idx W ltac:(lia)) as (b & Hb & Hlk).
  cbn [rehash_skip]. rewrite Z2Nat.id by lia. rewrite Hb. cbn.
  destruct b as [|e' b].
  - assert (idx <> Z.of_nat j) by (intros ->; rewrite Nat2Z.id in Hlk; congruence).
    rewrite chk32_ok by lia. cbn.
    destruct (IH (idx + 1)) as (i & e' & c' & E & Hi & ?); [done..|lia|lia| |].
    { intros k c0 Hk Hlt. destruct (decide (Z.of_nat k = idx)) as [<-|].
      - rewrite Nat2Z.id in Hlk. congruence.
      - apply (Hemp k); [done|lia]. }
    rewrite Z2Nat.id in E by lia. exists i, e', c'. split_and!; [done|lia|lia|by destruct_and!..].
  - exists (Z.to_nat idx), e', b. rewrite Z2Nat.id by lia. split_and!; [done|lia|lia|done|].
    intros k c0 Hk ?. apply (Hemp k); [done|lia].
Qed.

(** A table in use has a chain that is not empty. *)
Lemma ht_used_bucket h : ht_wf h -> used h <> 0 -> exists j e c, table h !! j = Some (e :: c).
Proof.
  intros W Hu. rewrite (hw_used h W) in Hu.
  destruct (ht_entries h) as [|e l] eqn:E; [done|].
  assert (e ∈ ht_entries h) as He by (rewrite E; apply elem_of_cons; by left).
  apply elem_of_concat in He as (i & [|e' c] & Hi & He).
  - by apply not_elem_of_nil in He.
  - by exists i, e', c.
Qed.

Lemma is_rehashing_true d : dictIsRehashing d = true <-> rehashidx d <> -1.
Proof. unfold dictIsRehashing. destruct (Z.eqb_spec (rehashidx d) (-1)); cbn; naive_solver. Qed.
Lemma is_rehashing_false d : dictIsRehashing d = false <-> rehashidx d = -1.
Proof. unfold dictIsRehashing. destruct (Z.eqb_spec (rehashidx d) (-1)); cbn; naive_solver. Qed.

Lemma rehash_bucket_spec d :
  dict_wf d -> dictIsRehashing d = true -> used (ht0 d) <> 0 ->
  exists d', rehash_bucket t d = Some d' /\ dict_wf d' /\ dictIsRehashing d' = true /\
    dict_entries d' ≡ₚ dict_entries d /\ used (ht0 d') < used (ht0 d) /\
    used (ht0 d') + used (ht1 d') = used (ht0 d) + used (ht1 d) /\
    size (ht0 d') = size (ht0 d) /\ size (ht1 d') = size (ht1 d) /\
    rehashidx d < rehashidx d' /\ iterators d' = iterators d.
Proof.
  intros [W0 W1 Hre Hnd Hus] Hr Hu. apply is_rehashing_true in Hr.
  destruct Hre as [[? _]|(Hi & Hs0 & Hs1 & Hemp)]; [done|].
  pose proof (ht_wf_size_bound _ W0) as Hsz. pose proof (hw_len _ W0) as Hlen.
  destruct (ht_used_bucket _ W0 Hu) as (j & e & c & Hj).
  assert (rehashidx d <= Z.of_nat j) as Hij.
  { destruct (decide (Z.of_nat j < rehashidx d)); [|lia]. by pose proof (Hemp _ _ Hj ltac:(done)). }
  pose proof (lookup_lt_Some _ _ _ Hj) as Hjl.
  destruct (rehash_skip_spec _ j e c (S (length (table (ht0 d)))) (rehashidx d) W0 Hj)
    as (i & e' & c' & Eskip & Hii & Hlk & Hemp'); [lia|lia|done|].
  rewrite Z2Nat.id in Eskip by lia.
  unfold rehash_bucket. rewrite u32_small by lia.
  destruct (Z.leb_spec (size (ht0 d)) (rehashidx d)); [lia|]. rewrite Eskip. cbn [mbind option_bind].
  unfold ht_bucket. rewrite decide_True by lia. rewrite Nat2Z.id, Hlk. cbn [mbind option_bind].
  pose proof (ht_entries_set_bucket (ht0 d) (Z.of_nat i) (e' :: c') []) as HP0.
  rewrite Nat2Z.id in HP0. pose proof (hw_used _ W0) as Hu0. pose proof (hw_used _ W1) as Hu1.
  pose proof (Permutation_length (HP0 0 Hlk)) as HPl. rewrite length_app in HPl. cbn in HPl.
  destruct (rehash_chain_spec (e' :: c') (used (ht0 d)) (ht1 d) W1 Hs1)
    as (h1 & E1 & W1' & Hs1' & HP1); [cbn; lia|lia|].
  rewrite E1. cbn [mbind option_bind]. rewrite chk32_ok by lia. cbn [mbind option_bind].
  eexists. split; [done|].
  pose proof (ht_wf_set_bucket (ht0 d) (Z.of_nat i) (e' :: c') [] W0) as W0'.
  rewrite Nat2Z.id in W0'. specialize (W0' Hlk (Forall_nil_2 _)).
  replace (used (ht0 d) + Z.of_nat (length []) - Z.of_nat (length (e' :: c')))
    with (used (ht0 d) - Z.of_nat (length (e' :: c'))) in W0' by (cbn; lia).
  pose proof (hw_used _ W1') as Hu1'. apply Permutation_length in HP1 as HP1l.
  rewrite length_app in HP1l. cbn [length] in HP1l.
  assert (ht_entries (ht_set_used (ht_set_bucket (ht0 d) (Z.of_nat i) [])
    (used (ht0 d) - Z.of_nat (length (e' :: c')))) ++ ht_entries h1 ≡ₚ dict_entries d) as HP.
  { unfold dict_entries. rewrite HP1, (Permutation_app_swap_app _ (e' :: c')), app_assoc.
    by rewrite HP0. }
  split_and!; cbn; try done; try lia.
  - split; cbn; try done; try lia.
    + right. split_and!; try lia.
      intros k c0 Hk Hlt. rewrite Nat2Z.id in Hk.
      destruct (decide (k = i)) as [->|].
      * rewrite list_lookup_insert_eq in Hk by lia. congruence.
      * rewrite list_lookup_insert_ne in Hk by done. apply (Hemp' k); [done|lia].
    + exact (nodup_fmap_perm _ _ _ HP Hnd).

  - apply is_rehashing_true. cbn. lia.
Qed.

(** [d'] is a well-formed dictionary with the entries of [d]. *)
Definition dict_same d d' : Prop :=
  dict_wf d' /\ dict_entries d' ≡ₚ dict_entries d /\ iterators d' = iterators d /\
  (0 < size (ht0 d) -> 0 < size (ht0 d')).

Lemma dict_same_refl d : dict_wf d -> dict_same d d.
Proof. by split. Qed.

Lemma dict_same_trans d1 d2 d3 : dict_same d1 d2 -> dict_same d2 d3 -> dict_same d1 d3.
Proof.
  intros (? & HP1 & ? & ?) (? & HP2 & ? & ?). split_and!; [done| |congruence|auto].
  by rewrite HP2.
Qed.

Lemma dict_used_entries d :
  dict_wf d -> used (ht0 d) + used (ht1 d) = Z.of_nat (length (dict_entries d)).
Proof.
  intros W. rewrite (hw_used _ (dw_ht0 _ W)), (hw_used _ (dw_ht1 _ W)).
  unfold dict_entries. rewrite length_app. lia.
Qed.

Lemma dict_same_used d d' :
  dict_wf d -> dict_same d d' ->
  used (ht0 d') + used (ht1 d') = used (ht0 d) + used (ht1 d).
Proof.
  intros W (W' & HP & _). rewrite !dict_used_entries by done. by rewrite HP.
Qed.

(** The last step of a rehashing: [ht[1]] replaces the emptied [ht[0]]. *)
Lemma rehash_finish_spec d :
  dict_wf d -> dictIsRehashing d = true -> used (ht0 d) = 0 ->
  dict_same d (Dict (ht1 d) _dictReset (-1) (iterators d)).
Proof.
  intros [W0 W1 Hre Hnd Hus] Hr Hu. apply is_rehashing_true in Hr.
  destruct Hre as [[? _]|(_ & _ & Hs1 & _)]; [done|].
  pose proof (hw_used _ W0) as Hu0. rewrite Hu in Hu0.
  destruct (ht_entries (ht0 d)) as [|e l] eqn:E; [|done].
  assert (ht_entries (ht1 d) ++ [] = dict_entries d) as HE.
  { unfold dict_entries. by rewrite E, app_nil_r. }
  split_and!; cbn; [|unfold dict_entries at 1; cbn; by rewrite HE|done|done].
  split; cbn; [done|by apply ht_wf_reset|by left| |lia].
  unfold dict_entries. cbn. by rewrite HE.
Qed.

Lemma dictRehash_loop_spec n : forall d,
  dict_wf d -> dictIsRehashing d = true ->
  exists d' b, dictRehash_loop t n d = Some (d', b) /\ dict_same d d' /\
    dictIsRehashing d' = b /\ (used (ht0 d) < Z.of_nat n -> b = false) /\
    (b = true -> used (ht0 d') <= used (ht0 d) - Z.of_nat n).
Proof.
  induction n as [|n IH]; intros d W Hr; cbn [dictRehash_loop].
  { exists d, true. split_and!; [done|by apply dict_same_refl|done| |lia].
    rewrite (hw_used _ (dw_ht0 _ W)). lia. }
  destruct (Z.eqb_spec (used (ht0 d)) 0) as [Hu|Hu].
  - eexists _, false. split; [done|]. split; [by apply rehash_finish_spec|done].
  - destruct (rehash_bucket_spec d W Hr Hu)
      as (d1 & E1 & W1 & Hr1 & HP1 & Hu1 & Hsum & Hs0 & Hs1 & Hidx & Hit).
    rewrite E1. cbn. destruct (IH d1 W1 Hr1) as (d' & b & E & Hsame & Hb & Hn & Hp).
    exists d', b. split_and!; [done| |done|intros; apply Hn; lia|intros; specialize (Hp ltac:(done)); lia].
    eapply dict_same_trans; [|done]. split_and!; [done..|lia].
Qed.

Lemma dictRehash_spec n d :
  dict_wf d ->
  exists d' b, dictRehash t d n = Some (d', b) /\ dict_same d d' /\
    dictIsRehashing d' = b /\ (used (ht0 d) < Z.of_nat n -> b = false) /\
    (b = true -> used (ht0 d') <= used (ht0 d) - Z.of_nat n).
Proof.
  intros W. unfold dictRehash. destruct (dictIsRehashing d) eqn:Hr.
  - by apply dictRehash_loop_spec.
  - exists d, false. split_and!; [done|by apply dict_same_refl|done|done|done].
Qed.

Lemma rehash_if_needed_spec d :
  dict_wf d -> exists d', rehash_if_needed t d = Some d' /\ dict_same d d'.
Proof.
  intros W. unfold rehash_if_needed, _dictRehashStep.
  destruct (dictIsRehashing d); [|exists d; split; [done|by apply dict_same_refl]].
  destruct (iterators d =? 0); [|exists d; split; [done|by apply dict_same_refl]].
  destruct (dictRehash_spec 1 d W) as (d' & b & -> & Hs & _). by exists d'.
Qed.

(** *** Lookup *)

Lemma dict_ht_wf d i : dict_wf d -> ht_wf (dict_ht d i).
Proof. intros W. destruct i; apply W. Qed.

Lemma dict_ht_size d : dict_wf d -> dictIsRehashing d = true -> 0 < size (ht1 d).
Proof.
  intros W Hr. apply is_rehashing_true in Hr. destruct (dw_rehash _ W) as [[? _]|?]; [done|tauto].
Qed.

Lemma dict_ht1_reset d : dict_wf d -> dictIsRehashing d = false -> ht1 d = _dictReset.
Proof.
  intros W Hr. apply is_rehashing_false in Hr. destruct (dw_rehash _ W) as [[_ ?]|?]; [done|lia].
Qed.

(** Searching the bucket a key hashes to decides whether the table has it. *)
Lemma bucket_search h key :
  ht_wf h -> 0 < size h ->
  exists c, ht_bucket h (ht_index h key) = Some c /\
    table h !! Z.to_nat (ht_index h key) = Some c /\
    match chain_find t c key with
    | Some p => exists e, c !! p = Some e /\ entry_canon e = canon key /\ e ∈ ht_entries h
    | None => forall e, e ∈ ht_entries h -> entry_canon e <> canon key
    end.
Proof.
  intros W Hs. destruct (ht_bucket_lookup _ _ W (ht_index_range _ key W Hs)) as (c & Hb & Hlk).
  exists c. split_and!; [done..|].
  destruct (chain_find t c key) as [p|] eqn:Ef; cbn.
  - apply chain_find_Some in Ef as (e & Hp & He). exists e. split_and!; [done..|].
    apply elem_of_concat. eexists _, c. split; [done|]. by eapply list_elem_of_lookup_2.
  - intros e He Hk. apply (chain_find_None _ _ Ef e); [|done].
    by apply (ht_entry_bucket h e key).
Qed.

Lemma table_find_spec d i key :
  dict_wf d -> 0 < size (dict_ht d i) ->
  exists r, table_find t d i key = Some r /\
    match r with
    | Some er => exists e, entry_at d er = Some e /\
                   entry_canon e = canon key /\ e ∈ ht_entries (dict_ht d i)
    | None => forall e, e ∈ ht_entries (dict_ht d i) -> entry_canon e <> canon key
    end.
Proof.
  intros W Hs. destruct (bucket_search _ key (dict_ht_wf d i W) Hs) as (c & Hb & _ & Hf).
  unfold table_find. fold (ht_index (dict_ht d i) key). rewrite Hb. cbn.
  eexists. split; [done|]. destruct (chain_find t c key) as [p|] eqn:Ef; cbn; [|done].
  destruct Hf as (e & Hp & He). exists e. split; [|done].
  unfold entry_at. cbn. by rewrite Hb.
Qed.

Lemma ht_entries_size0 h : ht_wf h -> size h = 0 -> ht_entries h = [].
Proof.
  intros W Hs. unfold ht_entries. destruct (table h) eqn:E; [done|].
  pose proof (hw_len _ W) as Hl. rewrite E in Hl. cbn in Hl. lia.
Qed.

Lemma dict_size0 d : dict_wf d -> size (ht0 d) = 0 -> dict_entries d = [].
Proof.
  intros W Hs. unfold dict_entries. rewrite (ht_entries_size0 _ (dw_ht0 _ W) Hs).
  destruct (dw_rehash _ W) as [[_ ->]|?]; [done|lia].
Qed.

Lemma ht_size_pos h : ht_wf h -> size h <> 0 -> 0 < size h.
Proof. intros W ?. pose proof (ht_wf_size_bound _ W). lia. Qed.

Lemma dictFind_spec d key :
  dict_wf d ->
  exists d' r, dictFind t d key = Some (d', r) /\ dict_same d d' /\
    match r with
    | Some er => exists e, entry_at d' er = Some e /\ entry_canon e = canon key /\ e ∈ dict_entries d
    | None => forall e, e ∈ dict_entries d -> entry_canon e <> canon key
    end.
Proof.
  intros W. unfold dictFind. destruct (Z.eqb_spec (size (ht0 d)) 0) as [Hs|Hs].
  { exists d, None. split_and!; [done|by apply dict_same_refl|].
    rewrite dict_size0 by done. intros e He. by apply not_elem_of_nil in He. }
  destruct (rehash_if_needed_spec d W) as (d' & -> & Hsame). cbn.
  pose proof Hsame as (W' & HP & _ & Hs').
  specialize (Hs' (ht_size_pos _ (dw_ht0 _ W) Hs)).
  destruct (table_find_spec d' false key W' Hs') as (r & -> & Hr). cbn.
  destruct r as [er|].
  { destruct Hr as (e & ? & ? & He). exists d', (Some er). split_and!; [done..|].
    exists e. split_and!; [done..|]. rewrite <-HP. apply elem_of_app. by left. }
  destruct (dictIsRehashing d') eqn:Hre.
  - destruct (table_find_spec d' true key W' (dict_ht_size _ W' Hre)) as (r & -> & Hr1). cbn.
    exists d', r. split_and!; [done..|]. destruct r as [er|].
    + destruct Hr1 as (e & ? & ? & He). exists e. split_and!; [done..|].
      rewrite <-HP. apply elem_of_app. by right.
    + intros e He. rewrite <-HP in He. unfold dict_entries in He.
      apply elem_of_app in He as [?|?]; [by apply Hr|by apply Hr1].
  - exists d', None. split_and!; [done..|]. intros e He. rewrite <-HP in He.
    unfold dict_entries in He. rewrite (dict_ht1_reset _ W' Hre) in He. cbn in He.
    rewrite app_nil_r in He. by apply Hr.
Qed.

(** *** Sizing *)

Lemma nextPower_loop_spec sz : forall fuel k,
  0 <= k -> sz < 2 ^ 63 -> 64 <= k + Z.of_nat fuel -> k <= 63 ->
  exists n, nextPower_loop fuel (2 ^ k) sz = Some (2 ^ n) /\ k <= n <= 63 /\ sz <= 2 ^ n /\
    (n = k \/ 2 ^ (n - 1) < sz).
Proof.
  induction fuel as [|fuel IH]; intros k Hk Hsz Hf Hk'; [lia|]. cbn [nextPower_loop].
  destruct (Z.leb_spec sz (2 ^ k)) as [Hle|Hlt]; [exists k; split_and!; auto; lia|].
  assert (k < 63) as Hk63.
  { destruct (decide (k = 63)) as [->|]; lia. }
  assert (u64 (2 ^ k * 2) = 2 ^ (k + 1)) as ->.
  { rewrite Z.pow_add_r, Z.pow_1_r by lia. apply u64_small.
    pose proof (Z.pow_lt_mono_r 2 k 63 ltac:(lia) ltac:(lia) ltac:(lia)). lia. }
  destruct (IH (k + 1)) as (n & -> & ? & ? & Hn); [lia..|].
  exists n. split_and!; [done|lia|lia|done|]. right.
  destruct Hn as [->|?]; [by replace (k + 1 - 1) with k by lia|done].
Qed.

Lemma nextPower_spec sz :
  sz < LONG_MAX ->
  exists n, _dictNextPower sz = Some (2 ^ n) /\ 2 <= n <= 63 /\ sz <= 2 ^ n /\
    (n = 2 \/ 2 ^ (n - 1) < sz).
Proof.
  intros H. unfold _dictNextPower. destruct (Z.leb_spec LONG_MAX sz); [lia|].
  apply (nextPower_loop_spec sz 62 2); unfold LONG_MAX in *; lia.
Qed.

Lemma ht_wf_new n tab :
  2 <= n <= 30 -> alloc_table (2 ^ n) = Some tab ->
  ht_wf (Dictht tab (2 ^ n) (2 ^ n - 1) 0) /\ concat tab = [].
Proof.
  intros Hn. unfold alloc_table. case_decide; [|done]. intros [= <-].
  pose proof (Z.pow_pos_nonneg 2 n).
  split; [split; cbn|by apply concat_replicate_nil].
  - rewrite length_replicate. lia.
  - right. by exists n.
  - unfold ht_entries. cbn. by rewrite concat_replicate_nil.
  - intros i c Hc. apply lookup_replicate in Hc as [-> _]. done.
Qed.

Lemma ht_table_nil h : ht_wf h -> table h = [] <-> size h = 0.
Proof.
  intros W. pose proof (hw_len _ W). destruct (table h); cbn in *; split; intros; [lia|done|done|lia].
Qed.

Lemma alloc_table_ok n : 0 <= n <= 30 -> exists tab : list (list (dictEntry K V)), alloc_table (2 ^ n) = Some tab.
Proof.
  intros Hn. unfold alloc_table. rewrite decide_True; [eauto|].
  apply u64_small. pose proof (Z.pow_le_mono_r 2 n 30). pose proof (Z.pow_pos_nonneg 2 n). lia.
Qed.

(** The table [dictExpand] installs, and where. *)
Lemma dictExpand_spec d sz :
  dict_wf d -> dictIsRehashing d = false -> used (ht0 d) <= sz <= 2 ^ 30 ->
  exists d' n, dictExpand d sz = Some (d', true) /\ dict_same d d' /\
    2 <= n <= 30 /\ sz <= 2 ^ n /\ (n = 2 \/ 2 ^ (n - 1) < sz) /\
    size (if bool_decide (size (ht0 d) = 0) then ht0 d' else ht1 d') = 2 ^ n /\
    dictIsRehashing d' = negb (bool_decide (size (ht0 d) = 0)) /\ 0 < size (ht0 d').
Proof.
  intros W Hre Hsz. pose proof (ht_wf_size_bound _ (dw_ht0 _ W)) as Hb.
  pose proof (hw_used _ (dw_ht0 _ W)) as Hu.
  destruct (nextPower_spec sz) as (n & E & Hn & Hle & Hmin); [unfold LONG_MAX; lia|].
  assert (n <= 30) as Hn30.
  { destruct Hmin as [->|Hmin]; [lia|]. assert (n - 1 < 30); [|lia].
    apply (Z.pow_lt_mono_r_iff 2); lia. }
  destruct (alloc_table_ok n) as [tab Htab]; [lia|].
  destruct (ht_wf_new n tab) as [Wn Hcat]; [lia|done|].
  unfold dictExpand. rewrite E. cbn. rewrite Hre.
  destruct (Z.ltb_spec sz (used (ht0 d))); [lia|]. cbn. rewrite Htab. cbn.
  pose proof (dict_ht1_reset _ W Hre) as H1. pose proof (Z.pow_pos_nonneg 2 n).
  pose proof (ht_table_nil _ (dw_ht0 _ W)) as Hnil.
  pose proof (dw_nodup _ W) as Hnd. pose proof (dw_used _ W).
  case_bool_decide as Ht; eexists _, n.
  - apply Hnil in Ht. rewrite bool_decide_true by done.
    pose proof (dict_size0 _ W Ht) as He. apply is_rehashing_false in Hre.
    split_and!; [done| |lia|lia|done|done|done| |cbn; lia].
    2: { unfold dictIsRehashing. cbn. by rewrite Hre. }
    split_and!; [| |done|cbn; lia].
    + split; cbn; [done|apply W|left; done| |by rewrite H1].
      unfold dict_entries, ht_entries. cbn. rewrite Hcat, H1. constructor.
    + rewrite He. unfold dict_entries, ht_entries. cbn. by rewrite Hcat, H1.
  - rewrite bool_decide_false by (by rewrite <-Hnil).
    assert (0 < size (ht0 d)) by (pose proof (proj2 Hnil); destruct (decide (size (ht0 d) = 0)); tauto || lia).
    assert (forall x y, dict_entries (Dict (ht0 d) (Dictht tab (2 ^ n) (2 ^ n - 1) 0) x y) = dict_entries d) as He.
    { intros. unfold dict_entries, ht_entries. cbn. by rewrite Hcat, H1. }
    split_and!; [done| |lia|lia|done|done|done|done|done]. split_and!; [|by rewrite He|done|done].
    split; cbn; [apply W|done| | |rewrite H1 in *; cbn in *; lia].
    + right. split_and!; [lia|lia|lia|lia|]. intros; lia.
    + by rewrite He.
Qed.

Lemma dictExpandIfNeeded_spec cr d :
  dict_wf d -> used (ht0 d) < 2 ^ 29 ->
  exists d', _dictExpandIfNeeded cr d = Some (d', true) /\ dict_same d d' /\ 0 < size (ht0 d').
Proof.
  intros W Hu. unfold _dictExpandIfNeeded.
  pose proof (ht_wf_size_bound _ (dw_ht0 _ W)). pose proof (hw_used _ (dw_ht0 _ W)).
  destruct (dictIsRehashing d) eqn:Hre.
  { exists d. split_and!; [done|by apply dict_same_refl|]. apply is_rehashing_true in Hre.
    destruct (dw_rehash _ W) as [[? _]|?]; [done|tauto]. }
  destruct (Z.eqb_spec (size (ht0 d)) 0) as [Hs|Hs].
  - assert (used (ht0 d) = 0) as Hu0.
    { pose proof (dict_size0 _ W Hs) as He. apply app_eq_nil in He as [He _].
      rewrite He in *. cbn in *. lia. }
    destruct (dictExpand_spec d DICT_HT_INITIAL_SIZE W Hre) as (d' & n & E & Hsame & Hr).
    { unfold DICT_HT_INITIAL_SIZE. lia. }
    exists d'. split_and!; [done|done|tauto].
  - destruct (Z.leb_spec (size (ht0 d)) (used (ht0 d))); cbn.
    2: { exists d. split_and!; [done|by apply dict_same_refl|lia]. }
    destruct (cr || _); [|exists d; split_and!; [done|by apply dict_same_refl|lia]].
    destruct (Z.ltb_spec (used (ht0 d)) (size (ht0 d))); [lia|]. rewrite u64_small by lia.
    destruct (dictExpand_spec d (used (ht0 d) * 2) W Hre) as (d' & n & E & Hsame & Hr); [lia|].
    exists d'. split_and!; [done|done|tauto].
Qed.

(** *** Changing one chain *)

Lemma dict_set_bucket_spec d i idx b c n :
  dict_wf d -> table (dict_ht d i) !! Z.to_nat idx = Some b ->
  Forall (fun e => ht_index (dict_ht d i) (de_key e) = Z.of_nat (Z.to_nat idx)) c ->
  (b = [] -> i = dictIsRehashing d) ->
  (forall l, b ++ l ≡ₚ c ++ dict_entries d -> NoDup (entry_canon <$> l)) ->
  n = used (dict_ht d i) + Z.of_nat (length c) - Z.of_nat (length b) ->
  used (ht0 d) + used (ht1 d) + Z.of_nat (length c) - Z.of_nat (length b) < 2 ^ 62 ->
  let d' := dict_set_ht d i (ht_set_used (ht_set_bucket (dict_ht d i) idx c) n) in
  dict_wf d' /\ b ++ dict_entries d' ≡ₚ c ++ dict_entries d /\ iterators d' = iterators d /\
  size (ht0 d') = size (ht0 d).
Proof.
  intros W Hlk Hc Hne Hnd -> Hus d'.
  pose proof (ht_wf_set_bucket _ _ _ c (dict_ht_wf d i W) Hlk Hc) as Wi.
  pose proof (ht_entries_set_bucket _ _ _ c
    (used (dict_ht d i) + Z.of_nat (length c) - Z.of_nat (length b)) Hlk) as HPi.
  assert (b ++ dict_entries d' ≡ₚ c ++ dict_entries d) as HP.
  { unfold d', dict_entries. destruct i; cbn in *.
    - rewrite Permutation_app_swap_app, HPi. by rewrite Permutation_app_swap_app.
    - by rewrite !app_assoc, HPi. }
  split; [|split; [done|split; by destruct i]].
  split; try (by destruct i; cbn; first [apply W | apply Wi]).
  - destruct (dw_rehash _ W) as [[Hr H1]|(Hr & Hs0 & Hs1 & Hemp)].
    + left. destruct i; cbn in *; [|done]. by rewrite H1 in Hlk.
    + right. destruct i; cbn in *; [done|]. split_and!; [lia..|].
      intros k c' Hk Hlt. destruct (decide (k = Z.to_nat idx)) as [->|].
      * pose proof (Hemp _ _ Hlk Hlt) as ->. specialize (Hne eq_refl).
        symmetry in Hne. apply is_rehashing_false in Hne. lia.
      * rewrite list_lookup_insert_ne in Hk by done. by apply (Hemp k).
  - by apply Hnd.
  - destruct i; cbn in *; lia.
Qed.

Lemma ht_index_in_bucket h key :
  ht_wf h -> 0 < size h -> ht_index h key = Z.of_nat (Z.to_nat (ht_index h key)).
Proof. intros W Hs. pose proof (ht_index_range h key W Hs). lia. Qed.

Lemma ht_bucket_hash h idx b :
  ht_wf h -> table h !! Z.to_nat idx = Some b ->
  Forall (fun e => ht_index h (de_key e) = Z.of_nat (Z.to_nat idx)) b.
Proof. intros W. apply (hw_hash _ W). Qed.

(** *** Insertion *)

Lemma dict_active_size d :
  dict_wf d -> 0 < size (ht0 d) -> 0 < size (dict_ht d (dictIsRehashing d)).
Proof.
  intros W Hs. destruct (dictIsRehashing d) eqn:E; [by apply dict_ht_size|done].
Qed.

Lemma dictKeyIndex_spec cr d key :
  dict_wf d -> used (ht0 d) < 2 ^ 29 ->
  exists d' idx, _dictKeyIndex t cr d key = Some (d', idx) /\ dict_same d d' /\
    0 < size (ht0 d') /\
    ((idx = -1 /\ exists e, e ∈ dict_entries d /\ entry_canon e = canon key) \/
     (idx = ht_index (dict_ht d' (dictIsRehashing d')) key /\ 0 <= idx /\
      forall e, e ∈ dict_entries d -> entry_canon e <> canon key)).
Proof.
  intros W Hu. destruct (dictExpandIfNeeded_spec cr d W Hu) as (d' & E & Hsame & Hs).
  unfold _dictKeyIndex. rewrite E. cbn. pose proof Hsame as (W' & HP & _ & _).
  assert (forall h, ht_wf h -> 0 < size h -> s32 (ht_index h key) = ht_index h key /\ 0 <= ht_index h key) as Hs32.
  { intros h Wh Hh. pose proof (ht_index_range h key Wh Hh).
    pose proof (ht_wf_size_bound h Wh). split; [apply s32_small; lia|lia]. }
  destruct (bucket_search _ key (dw_ht0 _ W') Hs) as (c & Hb & _ & Hf).
  fold (ht_index (ht0 d') key). rewrite Hb. cbn.
  destruct (chain_find t c key) as [p|].
  { destruct Hf as (e & _ & He & Hin). eexists d', _. split_and!; [done..|].
    left. split; [done|]. exists e. split; [|done]. rewrite <-HP. apply elem_of_app. by left. }
  destruct (dictIsRehashing d') eqn:Hre.
  - destruct (bucket_search _ key (dw_ht1 _ W') (dict_ht_size _ W' Hre)) as (c1 & Hb1 & _ & Hf1).
    fold (ht_index (ht1 d') key). rewrite Hb1. cbn.
    destruct (Hs32 _ (dw_ht1 _ W') (dict_ht_size _ W' Hre)) as [-> ?].
    destruct (chain_find t c1 key) as [p|].
    + destruct Hf1 as (e & _ & He & Hin). eexists d', _. split_and!; [done..|].
      left. split; [done|]. exists e. split; [|done]. rewrite <-HP. apply elem_of_app. by right.
    + eexists d', _. split_and!; [done..|]. right. rewrite Hre. split_and!; [done|done|].
      intros e He. rewrite <-HP in He. apply elem_of_app in He as [?|?]; auto.
  - destruct (Hs32 _ (dw_ht0 _ W') Hs) as [-> ?].
    eexists d', _. split_and!; [done..|]. right. rewrite Hre. split_and!; [done|done|].
    intros e He. rewrite <-HP in He. unfold dict_entries in He.
    rewrite (dict_ht1_reset _ W' Hre), app_nil_r in He. auto.
Qed.

Lemma nodup_insert_entry d key e l :
  dict_wf d -> (forall e, e ∈ dict_entries d -> entry_canon e <> canon key) ->
  entry_canon e = canon key -> l ≡ₚ e :: dict_entries d -> NoDup (entry_canon <$> l).
Proof.
  intros W Hk He Hl. apply (nodup_fmap_perm _ _ _ Hl). cbn. constructor; [|apply W].
  intros (e' & ? & Hin)%list_elem_of_fmap. apply (Hk e' Hin). congruence.
Qed.

Lemma dictAddRaw_spec junk cr d key :
  dict_wf d -> used (ht0 d) + used (ht1 d) < 2 ^ 29 ->
  exists d' r, dictAddRaw t junk cr d key = Some (d', r) /\ dict_wf d' /\
    iterators d' = iterators d /\
    match r with
    | None => dict_entries d' ≡ₚ dict_entries d /\
              exists e, e ∈ dict_entries d /\ entry_canon e = canon key
    | Some er => (forall e, e ∈ dict_entries d -> entry_canon e <> canon key) /\
                 entry_at d' er = Some (DictEntry (dictSetKey t key) junk) /\
                 dict_entries d' ≡ₚ DictEntry (dictSetKey t key) junk :: dict_entries d
    end.
Proof.
  intros W Hu. unfold dictAddRaw.
  destruct (rehash_if_needed_spec d W) as (d1 & -> & Hsame1). cbn.
  pose proof (dict_same_used _ _ W Hsame1) as Hu1. pose proof Hsame1 as (W1 & _).
  pose proof (hw_used _ (dw_ht1 _ W1)).
  destruct (dictKeyIndex_spec cr d1 key W1 ltac:(lia)) as (d2 & idx & -> & Hsame2 & Hs & Hidx). cbn.
  pose proof (dict_same_trans _ _ _ Hsame1 Hsame2) as (W2 & HP & Hit & _).
  pose proof (dict_same_used _ _ W1 Hsame2) as Hu2.
  destruct Hidx as [[-> (e & He & Hk)]|(Hi & Hi0 & Hk)]; cbn.
  { exists d2, None. split_and!; [done..|]. exists e. split; [|done].
    destruct Hsame1 as (_ & HP1 & _). by rewrite HP1 in He. }
  destruct (Z.eqb_spec idx (-1)); [lia|]. set (i := dictIsRehashing d2) in *.
  pose proof (dict_active_size _ W2 Hs) as Hsi. fold i in Hsi.
  destruct (bucket_search _ key (dict_ht_wf d2 i W2) Hsi) as (b & Hb & Hlk & _).
  rewrite Hi in *. rewrite Hb. cbn.
  set (e0 := DictEntry (dictSetKey t key) junk).
  assert (entry_canon e0 = canon key) as He0 by apply dup_canon.
  assert (forall e, e ∈ dict_entries d2 -> entry_canon e <> canon key) as Hk2.
  { intros e He. apply Hk. destruct Hsame2 as (_ & HP2 & _). by rewrite HP2 in He. }
  pose proof (hw_used _ (dict_ht_wf d2 i W2)).
  pose proof (hw_used _ (dw_ht0 _ W2)). pose proof (hw_used _ (dw_ht1 _ W2)).
  assert (u64 (used (dict_ht d2 i) + 1) = used (dict_ht d2 i) + 1) as ->.
  { apply u64_small. destruct i; cbn in *; lia. }
  destruct (dict_set_bucket_spec d2 i (ht_index (dict_ht d2 i) key) b (e0 :: b)
      (used (dict_ht d2 i) + 1) W2 Hlk) as (W' & HP' & Hit' & _).
  - constructor; [|by apply ht_bucket_hash, Hlk; apply dict_ht_wf].
    unfold ht_index. rewrite (hash_canon (de_key e0) key He0).
    by apply ht_index_in_bucket; [apply dict_ht_wf|].
  - done.
  - intros l Hl. apply (nodup_insert_entry d2 key e0); [done..|].
    apply (Permutation_app_inv_l b). rewrite Hl. cbn. by rewrite Permutation_middle.
  - cbn [length]. lia.
  - cbn [length]. lia.
  - eexists _, _. split; [done|]. split_and!; [done|by rewrite Hit'| | |].
    + intros e He. apply Hk2. by rewrite HP.
    + unfold entry_at. cbn. destruct i; cbn in *; unfold ht_bucket; rewrite decide_True by lia;
        cbn; rewrite list_lookup_insert_eq by (by eapply lookup_lt_Some); done.
    + rewrite <-HP. apply (Permutation_app_inv_l b). rewrite HP'. cbn.
      by rewrite Permutation_middle.
Qed.

Lemma set_entry_spec d er e e' :
  dict_wf d -> entry_at d er = Some e -> entry_canon e' = entry_canon e ->
  exists d', set_entry d er e' = Some d' /\ dict_wf d' /\
    e :: dict_entries d' ≡ₚ e' :: dict_entries d /\ iterators d' = iterators d.
Proof.
  intros W He Hc. unfold entry_at in He.
  destruct (ht_bucket _ _) as [c|] eqn:Hb; [|done]. cbn in He.
  unfold ht_bucket in Hb. case_decide as Hi; [|done].
  pose proof (lookup_lt_Some _ _ _ He) as Hp.
  unfold set_entry, ht_bucket. rewrite decide_True by done. rewrite Hb. cbn.
  rewrite decide_True by done.
  pose proof (dict_ht_wf d (er_table er) W) as Wi.
  pose proof (list_insert_perm c (er_pos er) e e' He) as HPc.
  destruct (dict_set_bucket_spec d (er_table er) (er_idx er) c (<[er_pos er := e']> c)
      (used (dict_ht d (er_table er))) W Hb) as (W' & HP & Hit & _).
  - pose proof (ht_bucket_hash _ _ _ Wi Hb) as HF. apply Forall_insert; [done|].
    rewrite Forall_lookup in HF. specialize (HF _ _ He). unfold ht_index in *.
    by rewrite (hash_canon (de_key e') (de_key e) Hc).
  - intros ->. done.
  - intros l Hl.
    assert (entry_canon <$> <[er_pos er:=e']> c = entry_canon <$> c) as Hcc.
    { rewrite list_fmap_insert, Hc. apply list_insert_id. by rewrite list_lookup_fmap, He. }
    assert (entry_canon <$> l ≡ₚ entry_canon <$> dict_entries d) as ->; [|apply W].
    apply (Permutation_app_inv_l (entry_canon <$> c)). rewrite <-!fmap_app, Hl, !fmap_app.
    by rewrite Hcc.
  - rewrite length_insert. lia.
  - rewrite length_insert. pose proof (dw_used _ W). lia.
  - eexists. split; [done|]. split_and!; [done| |done].
    apply (Permutation_app_inv_l c). rewrite <-!Permutation_middle.
    change (ht_set_used (ht_set_bucket (dict_ht d (er_table er)) (er_idx er) (<[er_pos er := e']> c))
      (used (dict_ht d (er_table er)))) with
      (ht_set_bucket (dict_ht d (er_table er)) (er_idx er) (<[er_pos er := e']> c)) in HP.
    rewrite HP. by rewrite !app_comm_cons, HPc.
Qed.

(** *** Deletion *)

Definition freed_entry (nofree : bool) e : list (K + V) :=
  if nofree then [] else dictFreeKey t e ++ dictFreeVal t e.

Lemma table_delete_spec d i key nofree :
  dict_wf d -> 0 < size (dict_ht d i) ->
  exists r, table_delete t d i key nofree = Some r /\
    match r with
    | Some (d', freed) => exists e, entry_canon e = canon key /\ dict_wf d' /\
        dict_entries d ≡ₚ e :: dict_entries d' /\ iterators d' = iterators d /\
        freed = freed_entry nofree e /\ e ∈ ht_entries (dict_ht d i)
    | None => forall e, e ∈ ht_entries (dict_ht d i) -> entry_canon e <> canon key
    end.
Proof.
  intros W Hs. pose proof (dict_ht_wf d i W) as Wi.
  destruct (bucket_search _ key Wi Hs) as (c & Hb & Hlk & Hf).
  unfold table_delete. fold (ht_index (dict_ht d i) key). rewrite Hb. cbn.
  destruct (chain_find t c key) as [p|]; [|by exists None].
  destruct Hf as (e & Hp & He & Hin). rewrite Hp. cbn. eexists. split; [done|].
  exists e. pose proof (delete_Permutation _ _ _ Hp) as HPc.
  pose proof (Permutation_length HPc) as Hl. cbn in Hl.
  pose proof (hw_used _ Wi). pose proof (hw_used _ (dw_ht0 _ W)). pose proof (hw_used _ (dw_ht1 _ W)).
  pose proof (dw_used _ W).
  assert (0 < used (dict_ht d i)) as Hpos.
  { destruct (ht_entries (dict_ht d i)); [by apply not_elem_of_nil in Hin|cbn in *; lia]. }
  assert (u64 (used (dict_ht d i) - 1) = used (dict_ht d i) - 1) as ->.
  { apply u64_small. destruct i; cbn in *; lia. }
  destruct (dict_set_bucket_spec d i (ht_index (dict_ht d i) key) c (delete p c)
      (used (dict_ht d i) - 1) W Hlk) as (W' & HP & Hit & _).
  - apply Forall_delete. by apply ht_bucket_hash.
  - intros ->. done.
  - intros l Hl'. assert (dict_entries d ≡ₚ e :: l) as HP.
    { apply (Permutation_app_inv_l (delete p c)). rewrite <-Hl', <-Permutation_middle.
      by rewrite HPc at 1. }
    pose proof (dw_nodup _ W) as Hnd. rewrite HP in Hnd. by inversion Hnd.
  - lia.
  - lia.
  - split_and!; [done|done| |done|done|done].
    apply (Permutation_app_inv_l (delete p c)). rewrite <-HP, <-Permutation_middle.
    by rewrite HPc at 1.
Qed.

(** A key is in one of the two tables only. *)
Lemma dict_tables_disjoint d e1 e2 :
  dict_wf d -> e1 ∈ ht_entries (ht0 d) -> e2 ∈ ht_entries (ht1 d) ->
  entry_canon e1 <> entry_canon e2.
Proof.
  intros W H1 H2 Hc. pose proof (dw_nodup _ W) as Hnd. unfold dict_entries in Hnd.
  rewrite fmap_app in Hnd. apply NoDup_app in Hnd as (_ & Hnd & _).
  apply (Hnd (entry_canon e1)); [by apply list_elem_of_fmap_2|].
  rewrite Hc. by apply list_elem_of_fmap_2.
Qed.

Lemma dictGenericDelete_spec d key nofree :
  dict_wf d ->
  exists d' ok freed, dictGenericDelete t d key nofree = Some (d', ok, freed) /\ dict_wf d' /\
    iterators d' = iterators d /\
    if ok : bool then exists e, entry_canon e = canon key /\
      dict_entries d ≡ₚ e :: dict_entries d' /\ freed = freed_entry nofree e
    else dict_entries d' ≡ₚ dict_entries d /\ freed = [] /\
         forall e, e ∈ dict_entries d -> entry_canon e <> canon key.
Proof.
  intros W. unfold dictGenericDelete. destruct (Z.eqb_spec (size (ht0 d)) 0) as [Hs|Hs].
  { exists d, false, []. split_and!; [done..|]. cbn. rewrite dict_size0 by done.
    intros e He. by apply not_elem_of_nil in He. }
  destruct (rehash_if_needed_spec d W) as (d1 & -> & W1 & HP & Hit & Hs'). cbn.
  specialize (Hs' (ht_size_pos _ (dw_ht0 _ W) Hs)).
  destruct (table_delete_spec d1 false key nofree W1 Hs') as (r & -> & Hr). cbn.
  destruct r as [[d2 freed]|].
  { destruct Hr as (e & ? & ? & HP2 & ? & -> & _). eexists d2, true, _. split_and!; [done..|congruence|].
    exists e. split_and!; [done| |done]. by rewrite <-HP, HP2. }
  destruct (dictIsRehashing d1) eqn:Hre.
  - destruct (table_delete_spec d1 true key nofree W1 (dict_ht_size _ W1 Hre)) as (r & -> & Hr1). cbn.
    destruct r as [[d2 freed]|].
    + destruct Hr1 as (e & ? & ? & HP2 & ? & -> & _). eexists d2, true, _. split_and!; [done..|congruence|].
      exists e. split_and!; [done| |done]. by rewrite <-HP, HP2.
    + exists d1, false, []. split_and!; [done..|]. intros e He. rewrite <-HP in He.
      apply elem_of_app in He as [?|?]; [by apply Hr|by apply Hr1].
  - exists d1, false, []. split_and!; [done..|]. intros e He. rewrite <-HP in He.
    unfold dict_entries in He. rewrite (dict_ht1_reset _ W1 Hre), app_nil_r in He. auto.
Qed.
End DictInvariant.

(** ** The finite map a dictionary stands for *)

Section DictMap.
Context {K V C : Type} `{EqDecision K} `{Countable C} (t : dictType K V) (canon : K -> C).
Context `{HL : !DictTypeLaws t canon}.
Implicit Types (d : dict K V) (key : K) (val : V) (e : dictEntry K V).

Definition entry_pair e : C * (K * V) := (canon (de_key e), (de_key e, de_val e)).

(** Each key, up to [canon], with the key object stored and its value. *)
Definition dict_map d : gmap C (K * V) := list_to_map (entry_pair <$> dict_entries d).

Lemma entry_pair_fst l : (entry_pair <$> l).*1 = entry_canon canon <$> l.
Proof. by rewrite <-list_fmap_compose. Qed.

Lemma dict_map_Some d c kv :
  dict_wf t canon d ->
  dict_map d !! c = Some kv <->
  exists e, e ∈ dict_entries d /\ entry_canon canon e = c /\ kv = (de_key e, de_val e).
Proof.
  intros W. unfold dict_map. rewrite <-elem_of_list_to_map.
  - rewrite list_elem_of_fmap. unfold entry_pair, entry_canon. split.
    + intros (e & [= -> ->] & He). by exists e.
    + intros (e & He & <- & ->). by exists e.
  - rewrite entry_pair_fst. apply W.
Qed.

Lemma dict_map_None d c :
  dict_wf t canon d ->
  dict_map d !! c = None <-> forall e, e ∈ dict_entries d -> entry_canon canon e <> c.
Proof.
  intros W. split.
  - intros Hn e He Hc. assert (dict_map d !! c = Some (de_key e, de_val e)); [|congruence].
    apply dict_map_Some; [done|]. by exists e.
  - intros Hn. destruct (dict_map d !! c) eqn:E; [|done].
    apply dict_map_Some in E as (e & He & Hc & _); [|done]. by destruct (Hn e He).
Qed.

Lemma dict_map_perm d l :
  dict_wf t canon d -> dict_entries d ≡ₚ l -> dict_map d = list_to_map (entry_pair <$> l).
Proof.
  intros W HP. apply list_to_map_proper; [|by rewrite HP].
  rewrite entry_pair_fst. apply W.
Qed.

Lemma dict_map_same d d' : dict_same t canon d d' -> dict_map d' = dict_map d.
Proof. intros (W' & HP & _). by apply dict_map_perm. Qed.

Lemma dict_map_cons d e l :
  dict_wf t canon d -> dict_entries d ≡ₚ e :: l ->
  dict_map d = <[entry_canon canon e := (de_key e, de_val e)]> (list_to_map (entry_pair <$> l)) /\
  (list_to_map (entry_pair <$> l) : gmap C (K * V)) !! entry_canon canon e = None.
Proof.
  intros W HP. split; [by rewrite (dict_map_perm d _ W HP)|].
  apply not_elem_of_list_to_map. rewrite entry_pair_fst.
  pose proof (dw_nodup _ _ _ W) as Hnd. rewrite HP in Hnd. by inversion Hnd.
Qed.

Lemma dict_map_insert d d' e :
  dict_wf t canon d' -> dict_entries d' ≡ₚ e :: dict_entries d ->
  dict_map d' = <[entry_canon canon e := (de_key e, de_val e)]> (dict_map d).
Proof. intros W HP. apply (dict_map_cons d' e _ W HP). Qed.

Lemma dict_map_delete d d' e :
  dict_wf t canon d -> dict_entries d ≡ₚ e :: dict_entries d' ->
  dict_map d' = delete (entry_canon canon e) (dict_map d).
Proof.
  intros W HP. destruct (dict_map_cons d e _ W HP) as [-> Hn].
  by rewrite delete_insert_id.
Qed.

Lemma dict_map_update d d' e e' :
  dict_wf t canon d -> dict_wf t canon d' -> e ∈ dict_entries d ->
  entry_canon canon e' = entry_canon canon e -> e :: dict_entries d' ≡ₚ e' :: dict_entries d ->
  dict_map d' = <[entry_canon canon e := (de_key e', de_val e')]> (dict_map d).
Proof.
  intros W W' Hin Hc HP.
  assert (exists l, dict_entries d ≡ₚ e :: l) as [l Hl].
  { apply list_elem_of_split in Hin as (l1 & l2 & ->). exists (l1 ++ l2).
    by rewrite Permutation_middle. }
  rewrite Hl, perm_swap in HP. apply Permutation_cons_inv in HP.
  destruct (dict_map_cons d e l W Hl) as [-> _].
  destruct (dict_map_cons d' _ l W' HP) as [-> _].
  by rewrite Hc, insert_insert_eq.
Qed.
End DictMap.
