(* ===== verification/DictTypes.v ===== *)
(** DictTypes: the hash functions of [dict.c], the key comparisons and the
    [dictType] tables of [redis.c], and what they promise to the hash table. *)
From S2P Require Import Prelude Dict DictProofs.

Section Hashing.

(** [dict_hash_function_seed], set by [dictSetHashFunctionSeed]. *)
Context (seed : Z).

Definition dictIntHashFunction (key : Z) : Z :=
  let key := u32 (key + u32 (Z.lnot (u32 (Z.shiftl key 15)))) in
  let key := Z.lxor key (Z.shiftr key 10) in
  let key := u32 (key + u32 (Z.shiftl key 3)) in
  let key := Z.lxor key (Z.shiftr key 6) in
  let key := u32 (key + u32 (Z.lnot (u32 (Z.shiftl key 11)))) in
  let key := Z.lxor key (Z.shiftr key 16) in
  key.

Definition dictIdentityHashFunction (key : Z) : Z := key.

Definition murmur_m : Z := 0x5bd1e995.
Definition murmur_r : Z := 24.

(** The [while(len >= 4)] loop and the [switch(len)] that follows it. *)
Fixpoint murmur_loop (data : list byte) (h : Z) : Z :=
  match data with
  | b0 :: b1 :: b2 :: b3 :: data' =>
    let k := le_val [b0; b1; b2; b3] in
    let k := u32 (k * murmur_m) in
    let k := Z.lxor k (Z.shiftr k murmur_r) in
    let k := u32 (k * murmur_m) in
    let h := u32 (h * murmur_m) in
    murmur_loop data' (Z.lxor h k)
  | [b0; b1; b2] =>
    let h := Z.lxor h (Z.shiftl (b2z b2) 16) in
    let h := Z.lxor h (Z.shiftl (b2z b1) 8) in
    u32 (Z.lxor h (b2z b0) * murmur_m)
  | [b0; b1] =>
    let h := Z.lxor h (Z.shiftl (b2z b1) 8) in
    u32 (Z.lxor h (b2z b0) * murmur_m)
  | [b0] => u32 (Z.lxor h (b2z b0) * murmur_m)
  | [] => h
  end.

Definition dictGenHashFunction (key : list byte) : Z :=
  let h := Z.lxor seed (u32 (Z.of_nat (length key))) in
  let h := murmur_loop key h in
  let h := Z.lxor h (Z.shiftr h 13) in
  let h := u32 (h * murmur_m) in
  Z.lxor h (Z.shiftr h 15).

Fixpoint djb_loop (buf : list byte) (hash : Z) : Z :=
  match buf with
  | [] => hash
  | c :: buf' => djb_loop buf' (u32 (u32 (u32 (Z.shiftl hash 5) + hash) + tolower (b2z c)))
  end.

Definition dictGenCaseHashFunction (buf : list byte) : Z := djb_loop buf seed.

(** *** redis.c: hash and comparison functions on sds keys *)

Definition dictSdsHash (key : list byte) : Z := dictGenHashFunction key.
Definition dictSdsCaseHash (key : list byte) : Z := dictGenCaseHashFunction key.

Definition dictSdsKeyCompare (key1 key2 : list byte) : bool :=
  if bool_decide (length key1 = length key2) then memcmp key1 key2 =? 0 else false.

(** [strcasecmp(key1, key2) == 0]: the strings end at their first NUL. *)
Fixpoint same_letters (s1 s2 : list byte) : bool :=
  match s1, s2 with
  | [], [] => true
  | b1 :: s1', b2 :: s2' => (tolower (b2z b1) =? tolower (b2z b2)) && same_letters s1' s2'
  | _, _ => false
  end.

Definition dictSdsKeyCaseCompare (key1 key2 : list byte) : bool :=
  same_letters (cstr key1) (cstr key2).

Definition dbDictType {V} : dictType (list byte) V :=
  DictType dictSdsHash None None (Some dictSdsKeyCompare) true true.

Definition keyptrDictType {V} : dictType (list byte) V :=
  DictType dictSdsHash None None (Some dictSdsKeyCompare) false false.

Definition commandTableDictType {V} : dictType (list byte) V :=
  DictType dictSdsCaseHash None None (Some dictSdsKeyCaseCompare) true false.

Definition shaScriptObjectDictType {V} : dictType (list byte) V :=
  DictType dictSdsCaseHash None None (Some dictSdsKeyCaseCompare) true true.

(** *** The laws of the key types *)

Lemma dictSdsKeyCompare_spec k1 k2 : dictSdsKeyCompare k1 k2 = true <-> k1 = k2.
Proof.
  unfold dictSdsKeyCompare. case_bool_decide as Hl.
  - rewrite Z.eqb_eq. by apply memcmp_eq.
  - split; [done|]. by intros ->.
Qed.

#[export] Instance dbDictType_laws V : DictTypeLaws (@dbDictType V) (fun k => k).
Proof. split; intros; cbn; [apply dictSdsKeyCompare_spec|by subst|done]. Qed.

#[export] Instance keyptrDictType_laws V : DictTypeLaws (@keyptrDictType V) (fun k => k).
Proof. split; intros; cbn; [apply dictSdsKeyCompare_spec|by subst|done]. Qed.

(** Case-insensitive keys are canonical in lower case. *)
Definition lower (s : list byte) : list byte := (fun b => z2b (tolower (b2z b))) <$> s.

Lemma tolower_range c : 0 <= c < 256 -> 0 <= tolower c < 256.
Proof. unfold tolower. destruct (Z.leb_spec 65 c), (Z.leb_spec c 90); cbn; lia. Qed.

Lemma tolower_idem c : tolower (tolower c) = tolower c.
Proof.
  unfold tolower.
  destruct (Z.leb_spec 65 c), (Z.leb_spec c 90); cbn [andb];
    repeat match goal with |- context [?a <=? ?b] => destruct (Z.leb_spec a b) end; cbn; lia.
Qed.

Lemma b2z_lower b : b2z (z2b (tolower (b2z b))) = tolower (b2z b).
Proof. rewrite b2z_z2b. apply Z.mod_small, tolower_range, b2z_range. Qed.

Lemma same_letters_lower s1 : forall s2, same_letters s1 s2 = true <-> lower s1 = lower s2.
Proof.
  induction s1 as [|b1 s1 IH]; intros [|b2 s2]; try done.
  cbn [same_letters]. rewrite andb_true_iff, Z.eqb_eq, IH. unfold lower. cbn. split.
  - by intros [-> ->].
  - intros [= E E2]. split; [|done]. by rewrite <-b2z_lower, E, b2z_lower.
Qed.

Lemma djb_loop_lower s : forall h, djb_loop (lower s) h = djb_loop s h.
Proof. induction s as [|b s IH]; intros h; [done|]. cbn. by rewrite b2z_lower, tolower_idem, IH. Qed.
(** *** The mixing steps lose no information *)

Lemma int_mix_inj k ai x y :
  0 <= k -> ((1 - 2 ^ k) * ai) mod 2 ^ 32 = 1 -> 0 <= x < 2 ^ 32 -> 0 <= y < 2 ^ 32 ->
  u32 (x + u32 (Z.lnot (u32 (Z.shiftl x k)))) = u32 (y + u32 (Z.lnot (u32 (Z.shiftl y k)))) ->
  x = y.
Proof.
  intros Hk Hai Hx Hy.
  assert (forall z, u32 (z + u32 (Z.lnot (u32 (Z.shiftl z k)))) = u32 ((1 - 2 ^ k) * z + -1)) as E.
  { intros z. unfold u32. rewrite Z.add_mod_idemp_r by lia. unfold Z.lnot.
    rewrite Z.shiftl_mul_pow2 by done. replace (z + Z.pred (- ((z * 2 ^ k) mod 2 ^ 32)))
      with (z - 1 - (z * 2 ^ k) mod 2 ^ 32) by lia.
    rewrite Zminus_mod_idemp_r. f_equal. lia. }
  rewrite !E. by apply (mul_u32_inj _ ai).
Qed.

Lemma int_add_shift_inj k ai x y :
  0 <= k -> ((1 + 2 ^ k) * ai) mod 2 ^ 32 = 1 -> 0 <= x < 2 ^ 32 -> 0 <= y < 2 ^ 32 ->
  u32 (x + u32 (Z.shiftl x k)) = u32 (y + u32 (Z.shiftl y k)) -> x = y.
Proof.
  intros Hk Hai Hx Hy.
  assert (forall z, u32 (z + u32 (Z.shiftl z k)) = u32 ((1 + 2 ^ k) * z + 0)) as E.
  { intros z. unfold u32. rewrite Z.add_mod_idemp_r by lia.
    rewrite Z.shiftl_mul_pow2 by done. f_equal. lia. }
  rewrite !E. by apply (mul_u32_inj _ ai).
Qed.

Lemma xorshift_range k x : 0 <= k -> 0 <= x < 2 ^ 32 -> 0 <= Z.lxor x (Z.shiftr x k) < 2 ^ 32.
Proof. intros. apply lxor_u32_range; [done|]. by apply shiftr_u32_range. Qed.

Lemma murmur_mul_inj x y :
  0 <= x < 2 ^ 32 -> 0 <= y < 2 ^ 32 -> u32 (x * murmur_m) = u32 (y * murmur_m) -> x = y.
Proof.
  intros Hx Hy H. apply (mul_u32_inj murmur_m 0xe59b19bd 0); [done..|].
  by rewrite !Z.add_0_r, !(Z.mul_comm murmur_m).
Qed.

Lemma byte_shift_range b k : 0 <= k <= 16 -> 0 <= Z.shiftl (b2z b) k < 2 ^ 32.
Proof.
  intros Hk. rewrite Z.shiftl_mul_pow2 by lia. pose proof (b2z_range b).
  pose proof (Z.pow_le_mono_r 2 k 16 ltac:(lia) ltac:(lia)). pose proof (Z.pow_pos_nonneg 2 k). nia.
Qed.

Lemma byte_u32_range b : 0 <= b2z b < 2 ^ 32.
Proof. pose proof (b2z_range b). lia. Qed.

#[local] Hint Resolve byte_shift_range byte_u32_range : u32db.

Lemma murmur_loop_inj n : forall data x y, (length data < n)%nat ->
  0 <= x < 2 ^ 32 -> 0 <= y < 2 ^ 32 -> murmur_loop data x = murmur_loop data y -> x = y.
Proof.
  induction n as [|n IH]; intros data x y Hn Hx Hy; [lia|].
  destruct data as [|b0 [|b1 [|b2 [|b3 data]]]]; cbn [murmur_loop].
  - done.
  - intros H%murmur_mul_inj; eauto with u32db. by apply lxor_inj_l in H.
  - intros H%murmur_mul_inj; eauto with u32db. by do 2 apply lxor_inj_l in H.
  - intros H%murmur_mul_inj; eauto 6 with u32db. by do 3 apply lxor_inj_l in H.
  - assert (0 <= le_val [b0; b1; b2; b3] < 2 ^ 32) as Hk by apply (le_val_range [b0; b1; b2; b3]).
    set (k := le_val _) in *. intros H. apply IH in H; [|cbn in *; lia|eauto 8 with u32db..].
    apply lxor_inj_l in H. by apply murmur_mul_inj.
Qed.

Lemma murmur_loop_range n : forall data x, (length data < n)%nat ->
  0 <= x < 2 ^ 32 -> 0 <= murmur_loop data x < 2 ^ 32.
Proof.
  induction n as [|n IH]; intros data x Hn Hx; [lia|].
  destruct data as [|b0 [|b1 [|b2 [|b3 data]]]]; cbn [murmur_loop]; [done|eauto with u32db..|].
  apply IH; [cbn in *; lia|]. eauto 8 with u32db.
Qed.
End Hashing.

(** ** Theorems *)

(** The integer hash is a bijection on 32-bit words: two different keys
    never have the same full hash, so they only share a bucket through the
    mask. *)
Theorem dictIntHashFunction_injective x y :
  0 <= x < 2 ^ 32 -> 0 <= y < 2 ^ 32 ->
  dictIntHashFunction x = dictIntHashFunction y -> x = y.
Proof.
  intros Hx Hy H. unfold dictIntHashFunction in H.
  apply xorshift_inj in H; eauto 8 with u32db.
  apply (int_mix_inj 11 4196353) in H; [|lia|done|apply xorshift_range; eauto 8 with u32db..].
  apply xorshift_inj in H; eauto 8 with u32db.
  apply (int_add_shift_inj 3 954437177) in H; [|lia|done|apply xorshift_range; eauto 8 with u32db..].
  apply xorshift_inj in H; eauto 8 with u32db.
  by apply (int_mix_inj 15 1073774593) in H.
Qed.

Lemma dictIntHashFunction_injective_witness :
  dictIntHashFunction 7 = dictIntHashFunction 7 /\ 7 = 7.
Proof. split; [done|]. by apply (dictIntHashFunction_injective 7 7). Defined.

(** For every key, MurmurHash2 as [dictGenHashFunction] computes it is an
    injective function of the seed: reseeding always changes every hash. *)
Theorem dictGenHashFunction_seed_injective seed1 seed2 key :
  0 <= seed1 < 2 ^ 32 -> 0 <= seed2 < 2 ^ 32 ->
  dictGenHashFunction seed1 key = dictGenHashFunction seed2 key -> seed1 = seed2.
Proof.
  intros H1 H2 H. unfold dictGenHashFunction in H.
  assert (forall s, 0 <= s < 2 ^ 32 ->
    0 <= murmur_loop key (Z.lxor s (u32 (Z.of_nat (length key)))) < 2 ^ 32) as Hr.
  { intros s Hs. apply (murmur_loop_range (S (length key))); [lia|].
    apply lxor_u32_range; [done|apply u32_range]. }
  apply xorshift_inj in H; eauto with u32db.
  apply murmur_mul_inj in H; [|apply xorshift_range; [lia|by apply Hr]..].
  apply xorshift_inj in H; [|lia|by apply Hr..].
  apply (murmur_loop_inj (S (length key))) in H; [|lia|eauto with u32db..].
  by apply lxor_inj_l in H.
Qed.

Lemma dictGenHashFunction_seed_injective_witness :
  let key := z2b <$> [104; 101; 108; 108; 111] in
  dictGenHashFunction 5381 key = dictGenHashFunction 5381 key /\ 5381 = 5381.
Proof.
  split; [done|]. by apply (dictGenHashFunction_seed_injective 5381 5381 (z2b <$> [104; 101; 108; 108; 111])).
Defined.

(** [commandTableDictType] keeps its promise on keys without NUL bytes:
    keys [dictSdsKeyCaseCompare] takes for equal have the same
    [dictSdsCaseHash], whatever the seed. *)
Theorem dictSdsCase_consistent seed k1 k2 :
  cstr k1 = k1 -> cstr k2 = k2 -> dictSdsKeyCaseCompare k1 k2 = true ->
  dictSdsCaseHash seed k1 = dictSdsCaseHash seed k2.
Proof.
  unfold dictSdsKeyCaseCompare, dictSdsCaseHash, dictGenCaseHashFunction.
  intros -> ->. rewrite same_letters_lower. intros Hl.
  by rewrite <-(djb_loop_lower k1), Hl, djb_loop_lower.
Qed.

(** "get" and "GET". *)
Lemma dictSdsCase_consistent_witness :
  dictSdsCaseHash 5381 (z2b <$> [103; 101; 116]) = dictSdsCaseHash 5381 (z2b <$> [71; 69; 84]).
Proof. by apply dictSdsCase_consistent; vm_compute. Defined.

(** The promise fails on keys with NUL bytes: the comparison stops at the
    first NUL and the hash does not, so for every seed there are keys that
    compare equal and hash differently. *)
Theorem dictSdsCase_nul_inconsistent seed :
  let k1 := z2b <$> [97; 0; 98] in
  let k2 := z2b <$> [97; 0; 99] in
  dictSdsKeyCaseCompare k1 k2 = true /\ dictSdsCaseHash seed k1 <> dictSdsCaseHash seed k2.
Proof.
  split; [by vm_compute|]. unfold dictSdsCaseHash, dictGenCaseHashFunction. cbn [djb_loop fmap list_fmap].
  set (h := u32 (u32 (Z.shiftl _ 5) + _)).
  change (tolower (b2z (z2b 98))) with 98. change (tolower (b2z (z2b 99))) with 99.
  intros H. assert (98 = 99) as Heq; [|done].
  apply (mul_u32_inj 1 1 h 98 99); [done|lia|lia|]. by rewrite !Z.mul_1_l, !(Z.add_comm _ h).
Qed.
