(* ===== verification/DictSpec.v ===== *)
(** DictSpec: the abstract specification of a dictionary, a finite map from
    canonical keys, and the theorems that relate the hash tables to it:
    refinement of any sequence of operations, completion of incremental
    rehashing, sizing, release, iteration and random choice. *)
From S2P Require Import Prelude Dict DictProofs DictTypes.

Section DictSpec.
Context {K V C : Type} `{EqDecision K} `{Countable C} (t : dictType K V) (canon : K -> C).
Context `{HL : !DictTypeLaws t canon}.
Implicit Types (d : dict K V) (key : K) (val : V) (e : dictEntry K V) (m : gmap C (K * V)).

(** *** The specification *)

Inductive dict_op :=
  | OpFetch (key : K)
  | OpAdd (key : K) (val : V)
  | OpReplace (key : K) (val : V)
  | OpDelete (key : K) (nofree : bool)
  | OpRehash (n : nat)
  | OpResize.

Inductive dict_res :=
  | RVal (v : option V)
  | ROk (ok : bool) (freed : list (K + V))
  | RUnit.

Definition spec_op m (op : dict_op) : gmap C (K * V) * dict_res :=
  match op with
  | OpFetch key => (m, RVal (snd <$> m !! canon key))
  | OpAdd key val =>
    match m !! canon key with
    | Some _ => (m, ROk false [])
    | None => (<[canon key := (dictSetKey t key, dictSetVal t val)]> m, ROk true [])
    end
  | OpReplace key val =>
    match m !! canon key with
    | Some (k, v) => (<[canon key := (k, dictSetVal t val)]> m,
                      ROk false (dictFreeVal t (DictEntry k v)))
    | None => (<[canon key := (dictSetKey t key, dictSetVal t val)]> m, ROk true [])
    end
  | OpDelete key nofree =>
    match m !! canon key with
    | Some (k, v) => (delete (canon key) m, ROk true (freed_entry t nofree (DictEntry k v)))
    | None => (m, ROk false [])
    end
  | OpRehash _ | OpResize => (m, RUnit)
  end.

(** The same operation on the hash tables; [cr] is [dict_can_resize]. *)
Definition run_op (junk : V) (cr : bool) d (op : dict_op) : option (dict K V * dict_res) :=
  match op with
  | OpFetch key => '(d, v) ← dictFetchValue t d key; Some (d, RVal v)
  | OpAdd key val => '(d, ok) ← dictAdd t junk cr d key val; Some (d, ROk ok [])
  | OpReplace key val => '(d, ok, fr) ← dictReplace t junk cr d key val; Some (d, ROk ok fr)
  | OpDelete key nofree => '(d, ok, fr) ← dictGenericDelete t d key nofree; Some (d, ROk ok fr)
  | OpRehash n => '(d, _) ← dictRehash t d n; Some (d, RUnit)
  | OpResize => '(d, _) ← dictResize cr d; Some (d, RUnit)
  end.

(** Each operation comes with the value of [dict_can_resize] at its time. *)
Fixpoint run_ops (junk : V) d (ops : list (bool * dict_op)) : option (dict K V * list dict_res) :=
  match ops with
  | [] => Some (d, [])
  | (cr, op) :: ops' =>
    '(d, r) ← run_op junk cr d op;
    '(d, rs) ← run_ops junk d ops';
    Some (d, r :: rs)
  end.

Fixpoint spec_ops m (ops : list (bool * dict_op)) : gmap C (K * V) * list dict_res :=
  match ops with
  | [] => (m, [])
  | (_, op) :: ops' =>
    let '(m, r) := spec_op m op in
    let '(m, rs) := spec_ops m ops' in
    (m, r :: rs)
  end.

(** Every operation refines its specification on the map. *)
Local Abbreviation wf := (dict_wf t canon).
Local Abbreviation dmap := (dict_map canon).
Definition total_used d : Z := used (ht0 d) + used (ht1 d).

Lemma dict_map_elem d e :
  wf d -> e ∈ dict_entries d ->
  dmap d !! entry_canon canon e = Some (de_key e, de_val e).
Proof. intros W He. apply (dict_map_Some t); [done|]. by exists e. Qed.

Lemma dictFind_map d key :
  wf d ->
  exists d' r, dictFind t d key = Some (d', r) /\ dict_same t canon d d' /\
    match r with
    | Some er => exists e, entry_at d' er = Some e /\ entry_canon canon e = canon key /\
                   e ∈ dict_entries d' /\ dmap d !! canon key = Some (de_key e, de_val e)
    | None => dmap d !! canon key = None
    end.
Proof.
  intros W. destruct (dictFind_spec t canon d key W) as (d' & r & E & Hs & Hr).
  exists d', r. split_and!; [done..|]. destruct r as [er|].
  - destruct Hr as (e & He & Hk & Hin). exists e. split_and!; [done..| |].
    + destruct Hs as (_ & -> & _). done.
    + rewrite <-Hk. by apply dict_map_elem.
  - by apply (dict_map_None t).
Qed.

Lemma dictAdd_map junk cr d key val :
  wf d -> total_used d < 2 ^ 29 ->
  exists d' ok, dictAdd t junk cr d key val = Some (d', ok) /\ wf d' /\
    iterators d' = iterators d /\
    (dmap d', ROk ok []) = spec_op (dmap d) (OpAdd key val) /\
    total_used d' = total_used d + (if ok : bool then 1 else 0).
Proof.
  intros W Hu. destruct (dictAddRaw_spec t canon junk cr d key W Hu)
    as (d1 & r & E & W1 & Hit & Hr).
  unfold dictAdd. rewrite E. cbn. unfold total_used in *. rewrite (dict_used_entries t canon d W) in *.
  destruct r as [er|].
  - destruct Hr as (Hk & He & HP). rewrite He. cbn.
    destruct (set_entry_spec t canon d1 er _ (DictEntry (dictSetKey t key) (dictSetVal t val)) W1 He)
      as (d2 & -> & W2 & HP2 & Hit2); [done|]. cbn.
    assert (dict_entries d2 ≡ₚ DictEntry (dictSetKey t key) (dictSetVal t val) :: dict_entries d) as HP'.
    { apply (Permutation_cons_inv (a := DictEntry (dictSetKey t key) junk)).
      rewrite HP2, HP. apply perm_swap. }
    eexists d2, true. split_and!; [done|done|congruence| |].
    + rewrite ((proj2 (dict_map_None t canon d (canon key) W)) Hk).
      rewrite (dict_map_insert t canon d d2 _ W2 HP'). unfold entry_canon. cbn.
      by rewrite (dup_canon (canon := canon)).
    + rewrite (dict_used_entries t canon d2 W2), HP'. cbn. lia.
  - destruct Hr as (HP & e & He & Hk). eexists d1, false. split_and!; [done..| |].
    + assert (dmap d1 = dmap d) as ->.
      { rewrite (dict_map_perm t canon d1 _ W1 HP). done. }
      assert (dmap d !! canon key = Some (de_key e, de_val e)) as ->; [|done].
      apply (dict_map_Some t); [done|]. by exists e.
    + rewrite (dict_used_entries t canon d1 W1), HP. lia.
Qed.

Lemma total_used_same d d' : wf d -> dict_same t canon d d' -> total_used d' = total_used d.
Proof. apply dict_same_used. Qed.

Lemma dictReplace_map junk cr d key val :
  wf d -> total_used d < 2 ^ 29 ->
  exists d' ok freed, dictReplace t junk cr d key val = Some (d', ok, freed) /\ wf d' /\
    (dmap d', ROk ok freed) = spec_op (dmap d) (OpReplace key val) /\
    total_used d' = total_used d + (if ok : bool then 1 else 0).
Proof.
  intros W Hu. destruct (dictAdd_map junk cr d key val W Hu) as (d1 & ok & E & W1 & Hit & Hm & Hu1).
  unfold dictReplace. rewrite E. cbn in *. destruct (dmap d !! canon key) as [[k v]|] eqn:Hk.
  - injection Hm as Hm ->. cbn in *.
    destruct (dictFind_map d1 key W1) as (d2 & r & -> & Hs & Hr). cbn.
    pose proof (total_used_same _ _ W1 Hs) as Hu2. pose proof Hs as (W2 & HPs & _).
    rewrite Hm, Hk in Hr.
    destruct r as [er|]; [|done]. destruct Hr as (e & He & Hc & Hin & [= -> ->]).
    cbn. rewrite He. cbn.
    destruct (set_entry_spec t canon d2 er e (DictEntry (de_key e) (dictSetVal t val)) W2 He)
      as (d3 & -> & W3 & HP & _); [done|]. cbn.
    exists d3, false. eexists. split_and!; [done|done| |].
    + rewrite (dict_map_update t canon d2 d3 e (DictEntry (de_key e) (dictSetVal t val))
        W2 W3 Hin eq_refl HP).
      rewrite (dict_map_same t canon d1 d2 Hs), Hm, Hc. by destruct e.
    + assert (total_used d3 = total_used d2); [|lia].
      unfold total_used. rewrite !(dict_used_entries t canon) by done.
      apply Permutation_length in HP. cbn in HP. lia.
  - injection Hm as Hm ->. exists d1, true, []. split_and!; [done|done|by rewrite Hm|lia].
Qed.

Lemma dictDelete_map d key nofree :
  wf d ->
  exists d' ok freed, dictGenericDelete t d key nofree = Some (d', ok, freed) /\ wf d' /\
    (dmap d', ROk ok freed) = spec_op (dmap d) (OpDelete key nofree) /\
    total_used d' = total_used d - (if ok : bool then 1 else 0).
Proof.
  intros W. destruct (dictGenericDelete_spec t canon d key nofree W)
    as (d' & ok & freed & E & W' & Hit & Hr).
  exists d', ok, freed. split_and!; [done|done|cbn|].
  - destruct ok.
    + destruct Hr as (e & Hk & HP & ->).
      destruct (dict_map_cons t canon d e _ W HP) as [Hm _].
      rewrite <-Hk. rewrite Hm at 1. rewrite lookup_insert_eq.
      rewrite <-(dict_map_delete t canon d d' e W HP). by destruct e.
    + destruct Hr as (HP & -> & Hk). rewrite ((proj2 (dict_map_None t canon d _ W)) Hk).
      by rewrite (dict_map_perm t canon d' _ W' HP).
  - unfold total_used. rewrite !(dict_used_entries t canon) by done.
    destruct ok; [destruct Hr as (e & _ & HP & _)|destruct Hr as (HP & _)];
      apply Permutation_length in HP; cbn in HP; lia.
Qed.

Lemma dictFetchValue_map d key :
  wf d ->
  exists d', dictFetchValue t d key = Some (d', snd <$> dmap d !! canon key) /\ dict_same t canon d d'.
Proof.
  intros W. destruct (dictFind_map d key W) as (d' & r & E & Hs & Hr).
  unfold dictFetchValue. rewrite E. cbn. exists d'. destruct r as [er|].
  - destruct Hr as (e & -> & _ & _ & ->). done.
  - by rewrite Hr.
Qed.

Lemma dictResize_same cr d :
  wf d -> total_used d < 2 ^ 29 -> exists d' ok, dictResize cr d = Some (d', ok) /\ dict_same t canon d d'.
Proof.
  intros W Hu. unfold dictResize.
  destruct (negb cr || dictIsRehashing d) eqn:E.
  { exists d, false. split; [done|by apply dict_same_refl]. }
  apply orb_false_iff in E as [_ Hre]. unfold total_used in Hu.
  pose proof (hw_used _ _ (dw_ht0 _ _ _ W)). pose proof (hw_used _ _ (dw_ht1 _ _ _ W)).
  rewrite s32_small by lia. unfold DICT_HT_INITIAL_SIZE.
  destruct (Z.ltb_spec (used (ht0 d)) 4); rewrite u64_small by lia.
  - destruct (dictExpand_spec t canon d 4 W Hre ltac:(lia)) as (d' & n & ? & ? & _). by exists d', true.
  - destruct (dictExpand_spec t canon d (used (ht0 d)) W Hre ltac:(lia)) as (d' & n & ? & ? & _).
    by exists d', true.
Qed.

Lemma run_op_refines junk cr d op :
  wf d -> total_used d < 2 ^ 29 ->
  exists d' r, run_op junk cr d op = Some (d', r) /\ wf d' /\
    spec_op (dmap d) op = (dmap d', r) /\ total_used d' <= total_used d + 1.
Proof.
  intros W Hu. destruct op as [key|key val|key val|key nofree|n|]; cbn [run_op].
  - destruct (dictFetchValue_map d key W) as (d' & -> & Hs). cbn. eexists d', _.
    split; [done|]. pose proof (total_used_same _ _ W Hs). pose proof Hs as (? & _).
    split_and!; [done|by rewrite (dict_map_same t canon _ _ Hs)|lia].
  - destruct (dictAdd_map junk cr d key val W Hu) as (d' & ok & -> & W' & _ & Hm & ?).
    cbn. eexists d', _. split_and!; [done|done|done|destruct ok; lia].
  - destruct (dictReplace_map junk cr d key val W Hu) as (d' & ok & fr & -> & W' & Hm & ?).
    cbn. eexists d', _. split_and!; [done|done|done|destruct ok; lia].
  - destruct (dictDelete_map d key nofree W) as (d' & ok & fr & -> & W' & Hm & ?).
    cbn. eexists d', _. split_and!; [done|done|done|destruct ok; lia].
  - destruct (dictRehash_spec t canon n d W) as (d' & b & -> & Hs & _). cbn. eexists d', _.
    split; [done|]. pose proof (total_used_same _ _ W Hs). pose proof Hs as (? & _).
    split_and!; [done|by rewrite (dict_map_same t canon _ _ Hs)|lia].
  - destruct (dictResize_same cr d W Hu) as (d' & ok & -> & Hs). cbn. eexists d', _.
    split; [done|]. pose proof (total_used_same _ _ W Hs). pose proof Hs as (? & _).
    split_and!; [done|by rewrite (dict_map_same t canon _ _ Hs)|lia].
Qed.

Lemma run_ops_refines junk ops : forall d,
  wf d -> total_used d + Z.of_nat (length ops) < 2 ^ 29 ->
  exists d' rs, run_ops junk d ops = Some (d', rs) /\ wf d' /\ spec_ops (dmap d) ops = (dmap d', rs).
Proof.
  induction ops as [|[cr op] ops IH]; intros d W Hu; cbn [run_ops spec_ops length] in *.
  { by exists d, []. }
  destruct (run_op_refines junk cr d op W ltac:(lia)) as (d1 & r & -> & W1 & -> & Hu1). cbn.
  destruct (IH d1 W1 ltac:(lia)) as (d' & rs & -> & W' & ->). cbn. eauto.
Qed.

Lemma dictCreate_wf : wf dictCreate.
Proof.
  split; cbn; [apply ht_wf_reset|apply ht_wf_reset|by left|constructor|lia].
Qed.

(** *** Release *)

Lemma clear_loop_spec tab : forall u,
  u = Z.of_nat (length (concat tab)) -> u < 2 ^ 62 ->
  clear_loop t tab u = free_chain t (concat tab).
Proof.
  induction tab as [|c tab IH]; intros u Hu Hb; [done|]. cbn in *. rewrite length_app in Hu.
  unfold free_chain. rewrite fmap_app, concat_app.
  destruct (Z.leb_spec u 0).
  - destruct c; [|cbn in *; lia]. destruct (concat tab); [done|cbn in *; lia].
  - f_equal. rewrite u64_small by lia. apply IH; lia.
Qed.

Lemma dictClear_log h :
  ht_wf t h -> used h < 2 ^ 62 -> (_dictClear t h).2 = free_chain t (ht_entries h).
Proof.
  intros W Hu. unfold _dictClear. cbn. rewrite take_ge by (pose proof (hw_len _ _ W); lia).
  apply clear_loop_spec; [apply W|done].
Qed.

(** *** Iteration *)

(** The entries [dictNext] still has to return. *)
Definition it_rest d (it : dictIterator (K := K) (V := V)) : list (dictEntry K V) :=
  match it_entry it with [] => [] | _ :: _ => it_nextEntry it end ++
  concat (drop (Z.to_nat (it_index it + 1)) (table (dict_ht d (it_table it)))) ++
  (if it_table it then [] else ht_entries (ht1 d)).

Definition it_ok d (it : dictIterator (K := K) (V := V)) : Prop :=
  -1 <= it_index it < size (dict_ht d (it_table it)) /\
  (it_index it = -1 -> it_table it = false) /\
  (it_table it = true -> dictIsRehashing d = true).

(** Rounds of [dictNext_loop] an iterator may still need. *)
Definition it_fuel d (it : dictIterator (K := K) (V := V)) : nat :=
  match it_entry it with [] => 0 | _ :: _ => 1 end +
  (Z.to_nat (size (dict_ht d (it_table it)) - it_index it)) +
  (if it_table it then 0 else Z.to_nat (size (ht1 d))).

(** The dictionary seen by an iterator: only [iterators] changes. *)
Definition same_tables d d' : Prop :=
  ht0 d' = ht0 d /\ ht1 d' = ht1 d /\ rehashidx d' = rehashidx d.

Lemma same_tables_ht d d' i : same_tables d d' -> dict_ht d' i = dict_ht d i.
Proof. intros (H0 & H1 & _). by destruct i. Qed.

Lemma same_tables_rehashing d d' : same_tables d d' -> dictIsRehashing d' = dictIsRehashing d.
Proof. intros (_ & _ & Hr). unfold dictIsRehashing. by rewrite Hr. Qed.

Lemma same_tables_trans d1 d2 d3 : same_tables d1 d2 -> same_tables d2 d3 -> same_tables d1 d3.
Proof. unfold same_tables. intuition congruence. Qed.

Lemma same_tables_wf d d' : wf d -> same_tables d d' -> wf d'.
Proof.
  intros [? ? ? Hnd ?] (H0 & H1 & Hr).
  split; unfold dict_entries; rewrite ?H0, ?H1, ?Hr; done.
Qed.

(** Entering an iteration: [iterators] counts safe iterators once. *)
Definition it_iterators d (it : dictIterator (K := K) (V := V)) : Z :=
  iterators d - (if it_safe it && negb ((it_index it =? -1) && negb (it_table it)) then 1 else 0).

(** What is left after the current chain. *)
Definition it_later d (it : dictIterator (K := K) (V := V)) : list (dictEntry K V) :=
  concat (drop (Z.to_nat (it_index it + 1)) (table (dict_ht d (it_table it)))) ++
  (if it_table it then [] else ht_entries (ht1 d)).

Lemma it_rest_later d it :
  it_rest d it = match it_entry it with [] => [] | _ :: _ => it_nextEntry it end ++ it_later d it.
Proof. done. Qed.

Lemma concat_drop_lookup (l : list (list (dictEntry K V))) i c :
  l !! i = Some c -> concat (drop i l) = c ++ concat (drop (S i) l).
Proof. intros Hi. by rewrite (drop_S l c i Hi). Qed.

(** The chain [c] is the one of the bucket the iterator is at. *)
Definition it_pos d (it : dictIterator (K := K) (V := V)) (c : list (dictEntry K V)) : Prop :=
  ht_bucket (dict_ht d (it_table it)) (it_index it) = Some c.

Lemma dictNext_bucket_spec d it :
  wf d -> it_ok d it -> it_entry it = [] ->
  exists d1 it1 r, dictNext_bucket d it = Some (d1, it1, r) /\ same_tables d d1 /\
    it_entry it1 = [] /\ it_safe it1 = it_safe it /\ it_iterators d1 it1 = it_iterators d it /\
    match r with
    | None => it_rest d it = []
    | Some c => it_ok d1 it1 /\ it_rest d it = c ++ it_later d1 it1 /\ (it_fuel d1 it1 < it_fuel d it)%nat /\
                it_pos d1 it1 c
    end.
Proof.
  intros W (Hi & Hi1 & Hit) He. unfold dictNext_bucket.
  set (d1 := if it_safe it && (it_index it =? -1) && negb (it_table it)
    then Dict (ht0 d) (ht1 d) (rehashidx d) (iterators d + 1) else d).
  assert (same_tables d d1) as Hst by (unfold d1; by destruct (_ && _)).
  assert (forall x, x <> -1 -> forall tb ne,
    it_iterators d1 (DictIterator tb x (it_safe it) [] ne) = it_iterators d it) as Hiter.
  { intros x Hx tb ne. unfold d1, it_iterators. cbn. destruct (Z.eqb_spec x (-1)); [done|]. cbn.
    destruct (it_safe it), (Z.eqb_spec (it_index it) (-1)), (it_table it) eqn:Et; cbn; try lia.
    all: specialize (Hi1 ltac:(done)); congruence. }
  pose proof (dict_ht_wf t canon d (it_table it) W) as Wi.
  pose proof (ht_wf_size_bound _ _ Wi). pose proof (hw_len _ _ Wi) as Hlen.
  pose proof (ht_wf_size_bound _ _ (dw_ht1 _ _ _ W)). pose proof (hw_len _ _ (dw_ht1 _ _ _ W)) as Hlen1.
  rewrite chk32_ok by lia. cbn [mbind option_bind].
  rewrite (same_tables_ht _ _ _ Hst), (same_tables_rehashing _ _ Hst).
  rewrite s32_small by lia. rewrite He. unfold it_rest, it_fuel, it_later. rewrite He.
  destruct (Z.leb_spec (size (dict_ht d (it_table it))) (it_index it + 1)) as [Hle|Hlt].
  - rewrite (drop_ge (table (dict_ht d (it_table it)))) by lia.
    destruct (dictIsRehashing d && negb (it_table it)) eqn:Hr.
    + apply andb_true_iff in Hr as [Hr Ht]. apply negb_true_iff in Ht. rewrite Ht in *. cbn.
      pose proof (dict_ht_size t canon d W Hr) as Hs1.
      destruct Hst as (Hst0 & Hst1 & Hst2). rewrite Hst1.
      destruct (ht_bucket_lookup t (ht1 d) 0 (dw_ht1 _ _ _ W)) as (c & Hb & Hlk); [lia|].
      rewrite Hb. cbn.
      eexists _, _, _. split; [done|]. split; [done|]. split_and!; [done|done|by apply Hiter|..].
      * split_and!; cbn; rewrite ?Hst1; [lia|lia|lia|].
        intros _. unfold dictIsRehashing in *. by rewrite Hst2.
      * cbn. rewrite Hst1, app_nil_r. exact (concat_drop_lookup _ 0 c Hlk).
      * cbn. rewrite Hst1. cbn in *. lia.
      * unfold it_pos. cbn. by rewrite Hst1.
    + eexists _, _, _. split; [done|]. split; [done|]. split_and!; [done|done|apply Hiter; lia|]. cbn.
      destruct (it_table it) eqn:Ht; [done|].
      apply andb_false_iff in Hr as [Hr|]; [|done]. by rewrite (dict_ht1_reset t canon d W Hr).
  - destruct (ht_bucket_lookup t _ (it_index it + 1) Wi) as (c & Hb & Hlk); [lia|]. rewrite Hb. cbn.
    eexists _, _, _. split; [done|]. split; [done|].
    split_and!; [done|done|by apply Hiter; lia|..].
    + split_and!; cbn; rewrite ?(same_tables_ht _ _ _ Hst), ?(same_tables_rehashing _ _ Hst);
        [lia|lia|lia|done].
    + cbn. rewrite (same_tables_ht _ _ _ Hst), (concat_drop_lookup _ _ c Hlk).
      replace (Z.to_nat (it_index it + 1 + 1)) with (S (Z.to_nat (it_index it + 1))) by lia.
      destruct Hst as (_ & -> & _). by rewrite app_assoc.
    + cbn. rewrite (same_tables_ht _ _ _ Hst). destruct Hst as (_ & -> & _). lia.
    + unfold it_pos. cbn. by rewrite (same_tables_ht _ _ _ Hst).
Qed.

Lemma dictNext_loop_spec fuel : forall d it,
  wf d -> it_ok d it -> (it_fuel d it < fuel)%nat ->
  exists d' it' r, dictNext_loop fuel d it = Some (d', it', r) /\ same_tables d d' /\
    it_safe it' = it_safe it /\ it_iterators d' it' = it_iterators d it /\
    match r with
    | Some e => it_ok d' it' /\ it_rest d it = e :: it_rest d' it' /\
                it_entry it' = e :: it_nextEntry it' /\
                ((it_entry it <> [] -> it_pos d it (it_nextEntry it)) -> it_pos d' it' (it_entry it'))
    | None => it_rest d it = []
    end.
Proof.
  induction fuel as [|fuel IH]; intros d it W Hok Hf; [lia|]. cbn [dictNext_loop].
  (* both ways to an empty chain go round the loop *)
  assert (forall d1 it1, wf d1 -> it_ok d1 it1 -> same_tables d d1 -> it_safe it1 = it_safe it ->
    it_iterators d1 it1 = it_iterators d it -> it_rest d it = it_later d1 it1 ->
    (it_fuel d1 it1 - match it_entry it1 with [] => 0 | _ :: _ => 1 end < it_fuel d it)%nat ->
    let it2 := DictIterator (it_table it1) (it_index it1) (it_safe it1) [] (it_nextEntry it1) in
    exists d' it' r, dictNext_loop fuel d1 it2 = Some (d', it', r) /\ same_tables d d' /\
      it_safe it' = it_safe it /\ it_iterators d' it' = it_iterators d it /\
      match r with
      | Some e => it_ok d' it' /\ it_rest d it = e :: it_rest d' it' /\
                  it_entry it' = e :: it_nextEntry it' /\
                  ((it_entry it <> [] -> it_pos d it (it_nextEntry it)) -> it_pos d' it' (it_entry it'))
      | None => it_rest d it = []
      end) as Hround.
  { intros d1 it1 W1 Hok1 Hst1 Hs1 Hi1 Hrest Hfuel it2.
    destruct (IH d1 it2 W1 Hok1) as (d' & it' & r & -> & Hst' & Hs' & Hi' & Hr').
    { unfold it_fuel in *. cbn. destruct (it_entry it1); lia. }
    exists d', it', r. split_and!; [done|by eapply same_tables_trans|cbn in *; congruence| |].
    - by rewrite Hi', <-Hi1.
    - rewrite Hrest. destruct r as [e|]; [|done]. destruct Hr' as (? & ? & ? & Hp).
      split_and!; [done|done|done|]. intros _. by apply Hp. }
  destruct (it_entry it) as [|e0 c0] eqn:He.
  - destruct (dictNext_bucket_spec d it W Hok He)
      as (d1 & it1 & r & -> & Hst & He1 & Hs1 & Hi1 & Hr). cbn.
    destruct r as [[|e c]|]; [| |by exists d1, it1, None].
    + destruct Hr as (Hok1 & Hrest & Hfuel & Hpos).
      apply Hround; [by eapply same_tables_wf|done..|]. rewrite He1. lia.
    + destruct Hr as (Hok1 & Hrest & Hfuel & Hpos).
      eexists _, _, _. split; [done|]. split_and!; [done|done|done|done|done|done|]. by intros _.
  - cbn. destruct (it_nextEntry it) as [|e c] eqn:Hn.
    + specialize (Hround d it W Hok). rewrite Hn in Hround.
      apply Hround; [done|done|done|by rewrite it_rest_later, He, Hn|].
      rewrite He. unfold it_fuel. rewrite He. lia.
    + eexists _, _, _. split; [done|]. rewrite it_rest_later, He, Hn.
      split_and!; [done|done|done|done|done|done|]. cbn. intros Hp. by apply Hp.
Qed.

Lemma it_fuel_bound d it :
  wf d -> it_ok d it -> (it_fuel d it < 3 + length (table (ht0 d)) + length (table (ht1 d)))%nat.
Proof.
  intros W (Hi & Hi1 & Ht). unfold it_fuel.
  pose proof (hw_len _ _ (dw_ht0 _ _ _ W)). pose proof (hw_len _ _ (dw_ht1 _ _ _ W)).
  destruct (it_entry it), (it_table it); cbn in *; lia.
Qed.

Lemma dictNext_spec d it :
  wf d -> it_ok d it ->
  exists d' it' r, dictNext d it = Some (d', it', r) /\ same_tables d d' /\
    it_safe it' = it_safe it /\ it_iterators d' it' = it_iterators d it /\
    match r with
    | Some e => it_ok d' it' /\ it_rest d it = e :: it_rest d' it' /\
                it_entry it' = e :: it_nextEntry it' /\
                ((it_entry it <> [] -> it_pos d it (it_nextEntry it)) -> it_pos d' it' (it_entry it'))
    | None => it_rest d it = []
    end.
Proof. intros W Hok. apply dictNext_loop_spec; [done..|]. by apply it_fuel_bound. Qed.
(** The loop [while ((de = dictNext(it)) != NULL)] of the callers, without
    and with a [dictDelete] of the entry returned. *)
Fixpoint iterate (fuel : nat) d (it : dictIterator)
    : option (dict K V * dictIterator * list (dictEntry K V)) :=
  match fuel with
  | O => None
  | S fuel' =>
    '(d, it, r) ← dictNext d it;
    match r with
    | None => Some (d, it, [])
    | Some e => '(d, it, es) ← iterate fuel' d it; Some (d, it, e :: es)
    end
  end.

Fixpoint iterate_delete (fuel : nat) d (it : dictIterator)
    : option (dict K V * dictIterator * list (dictEntry K V) * list (K + V)) :=
  match fuel with
  | O => None
  | S fuel' =>
    '(d, it, r) ← dictNext d it;
    match r with
    | None => Some (d, it, [], [])
    | Some e =>
      '(d, ok, fr) ← dictDelete t d (de_key e);
      '(d, it, es, frs) ← iterate_delete fuel' d it;
      Some (d, it, e :: es, fr ++ frs)
    end
  end.

Lemma iterate_spec fuel : forall d it,
  wf d -> it_ok d it -> (length (it_rest d it) < fuel)%nat ->
  exists d' it', iterate fuel d it = Some (d', it', it_rest d it) /\ same_tables d d' /\
    it_iterators d' it' = it_iterators d it.
Proof.
  induction fuel as [|fuel IH]; intros d it W Hok Hf; [lia|]. cbn [iterate].
  destruct (dictNext_spec d it W Hok) as (d1 & it1 & r & -> & Hst & _ & Hi & Hr). cbn.
  destruct r as [e|]; [|rewrite Hr; by exists d1, it1].
  destruct Hr as (Hok1 & Hrest & _). rewrite Hrest in *. cbn in Hf.
  destruct (IH d1 it1) as (d' & it' & -> & Hst' & Hi'); [by eapply same_tables_wf|done|lia|]. cbn.
  exists d', it'. split_and!; [done|by eapply same_tables_trans|congruence].
Qed.

Definition new_iterator (safe : bool) : dictIterator :=
  if safe then dictGetSafeIterator else dictGetIterator (K := K) (V := V).

Lemma it_rest_new d safe : it_rest d (new_iterator safe) = dict_entries d.
Proof. unfold it_rest, dict_entries, ht_entries. destruct safe; cbn; by rewrite drop_0. Qed.

Lemma it_ok_new d safe : wf d -> it_ok d (new_iterator safe).
Proof.
  intros W. pose proof (ht_wf_size_bound _ _ (dw_ht0 _ _ _ W)).
  destruct safe; (split_and!; cbn; [lia|lia|done|done]).
Qed.

Lemma it_iterators_release d it : iterators (dictReleaseIterator d it) = it_iterators d it.
Proof. unfold dictReleaseIterator, it_iterators. destruct (_ && _); cbn; lia. Qed.

Lemma same_tables_release d it : same_tables d (dictReleaseIterator d it).
Proof. unfold dictReleaseIterator. by destruct (_ && _). Qed.

Lemma dict_compare_refl key : dictCompareKeys t key key = true.
Proof. by apply (compare_canon (canon := canon)). Qed.

(** Deleting the entry a safe iterator has just returned. *)
Lemma delete_current d it e :
  wf d -> iterators d <> 0 -> it_ok d it -> it_entry it = e :: it_nextEntry it ->
  it_pos d it (it_entry it) -> dict_entries d ≡ₚ e :: it_rest d it ->
  exists d', dictDelete t d (de_key e) = Some (d', true, freed_entry t false e) /\ wf d' /\
    iterators d' = iterators d /\ it_ok d' it /\ it_pos d' it (it_nextEntry it) /\
    it_rest d' it = it_rest d it /\ dict_entries d' ≡ₚ it_rest d it.
Proof.
  intros W Hn0 (Hi & Hi1 & Ht) He Hp HP. unfold it_pos in Hp. rewrite He in Hp.
  pose proof (dict_ht_wf t canon d (it_table it) W) as Wi.
  pose proof Hp as Hlk. unfold ht_bucket in Hlk. case_decide as Hidx; [|done].
  pose proof (hw_hash _ _ Wi _ _ Hlk) as HF. inversion HF as [|? ? Hix _]; subst.
  rewrite Z2Nat.id in Hix by lia.
  assert (Hd : table_delete t d (it_table it) (de_key e) false =
    Some (Some (dict_set_ht d (it_table it)
      (ht_set_used (ht_set_bucket (dict_ht d (it_table it)) (it_index it) (it_nextEntry it))
        (u64 (used (dict_ht d (it_table it)) - 1))), freed_entry t false e))).
  { unfold table_delete. fold (ht_index t (dict_ht d (it_table it)) (de_key e)).
    rewrite Hix, Hp. cbn. by rewrite dict_compare_refl. }
  assert (Hsz : 0 < size (dict_ht d (it_table it))) by lia.
  destruct (table_delete_spec t canon d (it_table it) (de_key e) false W Hsz) as (r & Er & Hr).
  rewrite Hd in Er. injection Er as <-. destruct Hr as (e' & Hc' & W' & HP' & Hit & _ & _).
  set (d' := dict_set_ht d _ _) in *.
  exists d'. split; [|split; [done|split; [done|]]].
  - unfold dictDelete, dictGenericDelete.
    assert (size (ht0 d) <> 0) as Hs0.
    { intros Hs0. rewrite (dict_size0 t canon d W Hs0) in HP. by apply Permutation_nil_cons in HP. }
    destruct (Z.eqb_spec (size (ht0 d)) 0); [done|].
    assert (rehash_if_needed t d = Some d) as ->.
    { unfold rehash_if_needed, _dictRehashStep. destruct (dictIsRehashing d); [|done].
      by destruct (Z.eqb_spec (iterators d) 0). }
    cbn. destruct (it_table it) eqn:Et; [|by rewrite Hd].
    destruct (table_delete_spec t canon d false (de_key e) false W) as (r & Er & Hr0).
    { cbn. pose proof (ht_size_pos _ _ (dw_ht0 _ _ _ W)). auto. }
    rewrite Er. cbn. destruct r as [[d2 fr]|].
    + exfalso. destruct Hr0 as (e2 & He2 & _ & _ & _ & _ & Hin).
      apply (dict_tables_disjoint t canon d e2 e W Hin); [|done].
      apply elem_of_concat. eexists _, _. split; [exact Hlk|]. apply elem_of_cons. by left.
    + by rewrite Ht, Hd.
  - assert (dict_ht d' (it_table it) = ht_set_used
      (ht_set_bucket (dict_ht d (it_table it)) (it_index it) (it_nextEntry it))
      (u64 (used (dict_ht d (it_table it)) - 1))) as Hht by (unfold d'; by destruct (it_table it)).
    assert (dictIsRehashing d' = dictIsRehashing d) as Hre by (unfold d'; by destruct (it_table it)).
    split; [|split; [|split]].
    + unfold it_ok. rewrite Hht, Hre. cbn. split_and!; [lia|lia|done|done].
    + unfold it_pos. rewrite Hht. unfold ht_bucket. cbn. rewrite decide_True by lia.
      apply list_lookup_insert_eq. by eapply lookup_lt_Some.
    + unfold it_rest. rewrite He, Hht. cbn. rewrite drop_insert_lt by lia.
      do 2 f_equal. unfold d'. by destruct (it_table it).
    + assert (e' = e) as ->.
      { assert (dmap d !! entry_canon canon e' = Some (de_key e', de_val e')) as E1.
        { apply dict_map_elem; [done|]. rewrite HP'. apply elem_of_cons. by left. }
        assert (dmap d !! entry_canon canon e = Some (de_key e, de_val e)) as E2.
        { apply dict_map_elem; [done|]. rewrite HP. apply elem_of_cons. by left. }
        unfold entry_canon in *. rewrite Hc', E2 in E1. destruct e, e'. cbn in *. congruence. }
      apply (Permutation_cons_inv (a := e)). by rewrite <-HP'.
Qed.

Lemma iterate_delete_spec fuel : forall d it,
  wf d -> 0 < iterators d + (if negb ((it_index it =? -1) && negb (it_table it)) then 0 else 1) ->
  it_safe it = true -> it_ok d it -> (it_entry it <> [] -> it_pos d it (it_nextEntry it)) ->
  dict_entries d ≡ₚ it_rest d it -> (length (it_rest d it) < fuel)%nat ->
  exists d' it', iterate_delete fuel d it =
      Some (d', it', it_rest d it, free_chain t (it_rest d it)) /\
    wf d' /\ dict_entries d' = [] /\ it_iterators d' it' = it_iterators d it.
Proof.
  induction fuel as [|fuel IH]; intros d it W Hn0 Hs Hok Hp HP Hf; [lia|]. cbn [iterate_delete].
  destruct (dictNext_spec d it W Hok) as (d1 & it1 & r & -> & Hst & Hs1 & Hi & Hr). cbn.
  pose proof (same_tables_wf _ _ W Hst) as W1.
  assert (dict_entries d1 = dict_entries d) as HE.
  { destruct Hst as (H0 & H1 & _). unfold dict_entries. by rewrite H0, H1. }
  destruct r as [e|].
  2: { rewrite Hr in *. exists d1, it1. split_and!; [done|done| |done].
       rewrite HE. by apply Permutation_nil_r. }
  destruct Hr as (Hok1 & Hrest & He1 & Hp1). specialize (Hp1 Hp).
  assert ((it_index it1 =? -1) = false \/ it_table it1 = true) as Hidx1.
  { unfold it_pos, ht_bucket in Hp1. case_decide; [|done]. left.
    destruct (Z.eqb_spec (it_index it1) (-1)); [lia|done]. }
  assert (it_iterators d1 it1 = iterators d1 - 1) as Hii.
  { unfold it_iterators. rewrite Hs1, Hs. destruct Hidx1 as [->| ->]; [done|].
    by rewrite andb_false_r. }
  assert (0 < iterators d1) as Hn1.
  { unfold it_iterators in Hi at 2. rewrite Hs in Hi.
    destruct (negb ((it_index it =? -1) && negb (it_table it))) eqn:Hb; cbn in *; lia. }
  destruct (delete_current d1 it1 e W1) as (d2 & -> & W2 & Hit2 & Hok2 & Hp2 & Hrest2 & HP2);
    [lia|done|done|done|by rewrite HE, HP, Hrest|].
  cbn. rewrite Hrest in *. cbn in Hf.
  assert (it_iterators d2 it1 = it_iterators d1 it1) as Hi2.
  { unfold it_iterators. by rewrite Hit2. }
  destruct (IH d2 it1 W2) as (d' & it' & -> & W' & HE' & Hi').
  - rewrite Hit2. destruct (negb ((it_index it1 =? -1) && negb (it_table it1))); lia.
  - by rewrite Hs1.
  - done.
  - done.
  - by rewrite Hrest2.
  - rewrite Hrest2. lia.
  - exists d', it'. rewrite Hrest2. cbn. unfold free_chain. cbn.
    split_and!; [done|done|done|congruence].
Qed.
(** *** Random choice *)

(** The chain a draw [r] selects. *)
Definition random_slot d (r : Z) : option (list (dictEntry K V)) :=
  if dictIsRehashing d then
    let h := u32 (r mod u64 (size (ht0 d) + size (ht1 d))) in
    if size (ht0 d) <=? h then ht_bucket (ht1 d) (h - size (ht0 d)) else ht_bucket (ht0 d) h
  else ht_bucket (ht0 d) (u32 (Z.land r (sizemask (ht0 d)))).

Lemma random_slot_spec d r :
  wf d -> 0 < size (ht0 d) -> 0 <= r -> exists c, random_slot d r = Some c /\ forall e, e ∈ c -> e ∈ dict_entries d.
Proof.
  intros W Hs Hr. unfold random_slot. pose proof (dw_ht0 _ _ _ W) as W0. pose proof (dw_ht1 _ _ _ W) as W1.
  pose proof (ht_wf_size_bound _ _ W0). pose proof (ht_wf_size_bound _ _ W1).
  assert (forall i j, 0 <= j < size (dict_ht d i) ->
    exists c, ht_bucket (dict_ht d i) j = Some c /\ forall e, e ∈ c -> e ∈ dict_entries d) as Hb.
  { intros i j Hj. destruct (ht_bucket_lookup _ _ j (dict_ht_wf t canon d i W) Hj) as (c & Hc & Hlk).
    exists c. split; [done|]. intros e He. apply elem_of_app.
    assert (e ∈ ht_entries (dict_ht d i)) by (apply elem_of_concat; eauto).
    destruct i; [by right|by left]. }
  destruct (dictIsRehashing d) eqn:Hre.
  - rewrite (u64_small (_ + _)) by lia.
    pose proof (Z.mod_pos_bound r (size (ht0 d) + size (ht1 d)) ltac:(lia)).
    rewrite u32_small by lia. case_match eqn:E.
    + apply Z.leb_le in E. apply (Hb true). cbn. lia.
    + apply Z.leb_gt in E. apply (Hb false). cbn. lia.
  - apply (Hb false). cbn. destruct (hw_size _ _ W0) as [[? _]|(n & Hn & Hsz & Hm)]; [lia|].
    rewrite Hm, Hsz, Z.sub_1_r, <-Z.ones_equiv, Z.land_ones by lia.
    pose proof (Z.mod_pos_bound r (2 ^ n) ltac:(lia)). rewrite u32_small; lia.
Qed.

Lemma random_bucket_spec random fuel : forall i d,
  wf d -> 0 < size (ht0 d) -> (forall i, 0 <= random i) ->
  (random_bucket random fuel i d = None /\ forall j, (j < fuel)%nat -> random_slot d (random (i + j)%nat) = Some []) \/
  (exists c j, random_bucket random fuel i d = Some (c, j) /\ c <> [] /\ forall e, e ∈ c -> e ∈ dict_entries d).
Proof.
  induction fuel as [|fuel IH]; intros i d W Hs Hr; [left; split; [done|lia]|].
  cbn [random_bucket]. fold (random_slot d (random i)).
  destruct (random_slot_spec d (random i) W Hs (Hr i)) as (c & Hc & Hin). rewrite Hc. cbn.
  destruct c as [|e c]; [|right; by eexists _, _].
  destruct (IH (S i) d W Hs Hr) as [[E Hall]|?]; [|by right]. left. split; [done|].
  intros [|j] Hj; [by rewrite Nat.add_0_r|]. rewrite Nat.add_succ_r. apply Hall. lia.
Qed.

(** Every bucket is selected by some draw. *)
Lemma random_slot_complete d e :
  wf d -> e ∈ dict_entries d -> exists r c, 0 <= r < 2 ^ 31 /\ random_slot d r = Some c /\ e ∈ c.
Proof.
  intros W He. pose proof (dw_ht0 _ _ _ W) as W0. pose proof (dw_ht1 _ _ _ W) as W1.
  pose proof (ht_wf_size_bound _ _ W0). pose proof (ht_wf_size_bound _ _ W1).
  pose proof (hw_len _ _ W0). pose proof (hw_len _ _ W1).
  assert (forall i, e ∈ ht_entries (dict_ht d i) -> exists j c,
    0 <= j < size (dict_ht d i) /\ ht_bucket (dict_ht d i) j = Some c /\ e ∈ c) as Hb.
  { intros i Hi. apply elem_of_concat in Hi as (j & c & Hj & Hc). exists (Z.of_nat j), c.
    pose proof (lookup_lt_Some _ _ _ Hj). pose proof (hw_len _ _ (dict_ht_wf t canon d i W)).
    split; [lia|]. unfold ht_bucket. rewrite decide_True, Nat2Z.id by lia. done. }
  unfold random_slot. destruct (dictIsRehashing d) eqn:Hre.
  - rewrite (u64_small (_ + _)) by lia. apply elem_of_app in He as [He|He].
    + destruct (Hb false He) as (j & c & Hj & Hc & Hin). cbn in *. exists j, c.
      rewrite Z.mod_small, u32_small by lia. destruct (Z.leb_spec (size (ht0 d)) j); [lia|].
      split_and!; [lia|lia|done|done].
    + destruct (Hb true He) as (j & c & Hj & Hc & Hin). cbn in *. exists (size (ht0 d) + j), c.
      rewrite Z.mod_small, u32_small by lia.
      destruct (Z.leb_spec (size (ht0 d)) (size (ht0 d) + j)); [|lia].
      replace (size (ht0 d) + j - size (ht0 d)) with j by lia. split_and!; [lia|lia|done|done].
  - unfold dict_entries in He. rewrite (dict_ht1_reset _ _ _ W Hre), app_nil_r in He.
    destruct (Hb false He) as (j & c & Hj & Hc & Hin). cbn in *. exists j, c.
    destruct (hw_size _ _ W0) as [[? _]|(n & Hn & Hsz & Hm)]; [lia|].
    rewrite Hm, Hsz, Z.sub_1_r, <-Z.ones_equiv, Z.land_ones by lia.
    rewrite Z.mod_small, u32_small by lia. split_and!; [lia|lia|done|done].
Qed.
(** *** Rehashing against the clock *)

Lemma dictRehashMilliseconds_loop_spec clock fuel : forall i d start ms r,
  wf d -> used (ht0 d) < 2 ^ 29 -> 0 <= r -> r + Z.max 0 (used (ht0 d)) < 2 ^ 30 ->
  (Z.to_nat (used (ht0 d)) < fuel)%nat ->
  exists d' r', dictRehashMilliseconds_loop t clock fuel i d start ms r = Some (d', r') /\
    dict_same t canon d d' /\ r <= r' <= r + Z.max 0 (used (ht0 d)) + 100 /\
    (dictIsRehashing d' = true -> exists j, ms < clock j - start).
Proof.
  induction fuel as [|fuel IH]; intros i d start ms r W Hu Hr Hru Hf; [lia|].
  cbn [dictRehashMilliseconds_loop].
  destruct (dictRehash_spec t canon 100 d W) as (d1 & b & -> & Hs & Hb & _ & Hp). cbn [mbind option_bind].
  destruct b.
  - specialize (Hp eq_refl). pose proof Hs as (W1 & _).
    pose proof (hw_used _ _ (dw_ht0 _ _ _ W1)).
    rewrite chk32_ok by lia. cbn [mbind option_bind].
    destruct (Z.ltb_spec ms (clock i - start)).
    { exists d1, (r + 100). split_and!; [done|done|lia|lia|by exists i]. }
    destruct (IH (S i) d1 start ms (r + 100)) as (d' & r' & -> & Hs' & Hr' & Hc); [done|lia..|].
    exists d', r'. split_and!; [done|by eapply dict_same_trans|lia|lia|done].
  - exists d1, r. split_and!; [done|done|lia|lia|congruence].
Qed.

(** ** Theorems *)

(** C1: refinement.  From any well-formed dictionary, any sequence of lookups,
    additions, replacements, deletions, rehashing steps and resizes, with
    resizing allowed or not at each step, runs without going out of bounds,
    keeps the dictionary well formed and gives the results, the destructor
    calls and the final map of the same sequence on a finite map.  The bound
    keeps bucket numbers in a C [int]. *)
Theorem dict_refines_map junk d ops :
  wf d -> total_used d + Z.of_nat (length ops) < 2 ^ 29 ->
  exists d' rs, run_ops junk d ops = Some (d', rs) /\ wf d' /\
    spec_ops (dmap d) ops = (dmap d', rs).
Proof. apply run_ops_refines. Qed.

(** C36: incremental rehashing.  A call of [dictRehash] on a dictionary being
    rehashed never fails and never changes the map; it completes the
    rehashing when [n] exceeds the number of keys left in [ht[0]], and
    otherwise either completes it or moves at least [n] keys. *)
Theorem dictRehash_progress d n :
  wf d -> dictIsRehashing d = true ->
  exists d' more, dictRehash t d n = Some (d', more) /\ wf d' /\ dmap d' = dmap d /\
    dictIsRehashing d' = more /\ (used (ht0 d) < Z.of_nat n -> more = false) /\
    (more = true -> used (ht0 d') <= used (ht0 d) - Z.of_nat n) /\
    (more = false -> ht1 d' = _dictReset).
Proof.
  intros W Hre. destruct (dictRehash_spec t canon n d W) as (d' & b & E & Hs & Hb & Hn & Hp).
  pose proof Hs as (W' & _). exists d', b. split_and!; [done|done| |done|done|done|].
  - by apply (dict_map_same t canon d d').
  - intros ->. by apply (dict_ht1_reset t canon d').
Qed.

(** [dictRehashMilliseconds] terminates for every clock, a stuck one
    included: more than [used] rounds are never needed, the map is kept, and
    if keys are left to move then the clock did pass the limit. *)
Theorem dictRehashMilliseconds_terminates clock fuel d ms :
  wf d -> used (ht0 d) < 2 ^ 29 -> (Z.to_nat (used (ht0 d)) < fuel)%nat ->
  exists d' r, dictRehashMilliseconds t clock fuel d ms = Some (d', r) /\ wf d' /\
    dmap d' = dmap d /\ 0 <= r <= used (ht0 d) + 100 /\
    (dictIsRehashing d' = true -> exists j, ms < clock j - clock 0%nat).
Proof.
  intros W Hu Hf. pose proof (hw_used _ _ (dw_ht0 _ _ _ W)).
  destruct (dictRehashMilliseconds_loop_spec clock fuel 1 d (clock 0%nat) ms 0 W Hu)
    as (d' & r & E & Hs & Hr & Hc); [lia|lia|done|].
  exists d', r. pose proof Hs as (W' & _). split_and!; [done|done| |lia|lia|done].
  by apply (dict_map_same t canon d d').
Qed.

(** [dictExpand] on a dictionary not being rehashed installs an empty
    table whose size is the least power of two that is at least 4 and at
    least the size asked for, as [ht[0]] when nothing was allocated yet and
    otherwise as the target of a new rehashing; the map is kept. *)
Theorem dictExpand_least_power d sz :
  wf d -> dictIsRehashing d = false -> used (ht0 d) <= sz <= 2 ^ 30 ->
  exists d' n, dictExpand d sz = Some (d', true) /\ wf d' /\ dmap d' = dmap d /\ 0 <= n /\
    size (if bool_decide (size (ht0 d) = 0) then ht0 d' else ht1 d') = 2 ^ n /\
    4 <= 2 ^ n /\ sz <= 2 ^ n /\
    (forall p, 0 <= p -> 4 <= 2 ^ p -> sz <= 2 ^ p -> 2 ^ n <= 2 ^ p) /\
    dictIsRehashing d' = negb (bool_decide (size (ht0 d) = 0)).
Proof.
  intros W Hre Hsz.
  destruct (dictExpand_spec t canon d sz W Hre Hsz) as (d' & n & E & Hs & Hn & Hle & Hmin & Hsize & Hr & _).
  pose proof Hs as (W' & _). pose proof (Z.pow_le_mono_r 2 2 n ltac:(lia) ltac:(lia)).
  exists d', n. split_and!; [done|done|by apply (dict_map_same t canon d d')|lia|done|lia|done| |done].
  intros p Hp H4 Hszp. apply Z.pow_le_mono_r; [lia|].
  destruct Hmin as [->|Hmin].
  - apply (Z.pow_le_mono_r_iff 2); lia.
  - assert (n - 1 < p); [|lia]. apply (Z.pow_lt_mono_r_iff 2); lia.
Qed.

(** [dictEmpty] and [dictRelease] call the destructors of every entry
    exactly once, in table order, and [dictEmpty] leaves a well-formed empty
    dictionary. *)
Theorem dictEmpty_frees_all d :
  wf d ->
  dictRelease t d = free_chain t (dict_entries d) /\
  (dictEmpty t d).2 = free_chain t (dict_entries d) /\
  (dictEmpty t d).1 = dictCreate /\ wf (dictEmpty t d).1 /\ dmap (dictEmpty t d).1 = ∅.
Proof.
  intros W. pose proof (dw_used _ _ _ W). pose proof (dw_ht0 _ _ _ W) as W0.
  pose proof (dw_ht1 _ _ _ W) as W1. pose proof (hw_used _ _ W0). pose proof (hw_used _ _ W1).
  assert ((_dictClear t (ht0 d)).2 ++ (_dictClear t (ht1 d)).2 = free_chain t (dict_entries d)) as HE.
  { rewrite !dictClear_log by (done || lia). unfold free_chain, dict_entries.
    by rewrite fmap_app, concat_app. }
  split_and!; [exact HE|exact HE|done|apply dictCreate_wf|done].
Qed.

(** Iteration.  On a dictionary that does not change, an iterator, safe or
    not, returns every entry of both tables exactly once and then [NULL],
    and releasing it restores the count of safe iterators. *)
Theorem dictNext_visits_all d safe :
  wf d ->
  exists d' it', iterate (S (length (dict_entries d))) d (new_iterator safe) =
      Some (d', it', dict_entries d) /\
    NoDup (entry_canon canon <$> dict_entries d) /\
    same_tables d (dictReleaseIterator d' it') /\
    iterators (dictReleaseIterator d' it') = iterators d.
Proof.
  intros W. destruct (iterate_spec (S (length (dict_entries d))) d (new_iterator safe) W)
    as (d' & it' & E & Hst & Hi).
  { by apply it_ok_new. }
  { rewrite it_rest_new. lia. }
  rewrite it_rest_new in E. exists d', it'. split_and!; [done|apply W|..].
  - eapply same_tables_trans; [done|]. apply same_tables_release.
  - rewrite it_iterators_release, Hi. unfold it_iterators, new_iterator. destruct safe; cbn; lia.
Qed.

(** A safe iterator allows its caller to delete each entry it returns,
    in the middle of a rehashing too: every entry is still returned exactly
    once, every destructor is called once, and the dictionary ends empty. *)
Theorem dictNext_safe_delete d :
  wf d -> 0 <= iterators d ->
  exists d' it', iterate_delete (S (length (dict_entries d))) d dictGetSafeIterator =
      Some (d', it', dict_entries d, free_chain t (dict_entries d)) /\
    wf d' /\ dmap d' = ∅ /\ iterators (dictReleaseIterator d' it') = iterators d.
Proof.
  intros W Hit. destruct (iterate_delete_spec (S (length (dict_entries d))) d (new_iterator true) W)
    as (d' & it' & E & W' & HE & Hi).
  { cbn. lia. }
  { done. }
  { by apply it_ok_new. }
  { done. }
  { by rewrite it_rest_new. }
  { rewrite it_rest_new. lia. }
  rewrite it_rest_new in E. exists d', it'. split_and!; [done|done| |].
  - unfold dict_map. by rewrite HE.
  - rewrite it_iterators_release, Hi. unfold it_iterators. cbn. lia.
Qed.

(** [dictGetRandomKey].  With [random()] returning non-negative numbers it
    stays in bounds, it only returns entries of the dictionary, it returns
    none only on an empty dictionary, and it keeps looking only while the
    draws select empty buckets; and every entry is returned for some two
    draws. *)
Theorem dictGetRandomKey_spec random fuel d :
  wf d -> (forall i, 0 <= random i) ->
  exists d1, rehash_if_needed t d = Some d1 /\ dmap d1 = dmap d /\
    (if bool_decide (dict_entries d = []) then dictGetRandomKey t random fuel d = Some (d, None)
     else (dictGetRandomKey t random fuel d = None /\
           forall j, (j < fuel)%nat -> random_slot d1 (random j) = Some []) \/
          (exists e, dictGetRandomKey t random fuel d = Some (d1, Some e) /\ e ∈ dict_entries d)) /\
    (forall e, e ∈ dict_entries d -> exists r1 r2, 0 <= r1 < 2 ^ 31 /\ 0 <= r2 /\
       forall rnd, rnd 0%nat = r1 -> rnd 1%nat = r2 ->
         dictGetRandomKey t rnd 1 d = Some (d1, Some e)).
Proof.
  intros W Hr. destruct (rehash_if_needed_spec t canon d W) as (d1 & E1 & Hs).
  pose proof Hs as (W1 & HP & _ & Hs0). exists d1. split; [done|].
  split; [by apply (dict_map_same t canon d d1)|].
  pose proof (dict_used_entries t canon d W) as Hu. pose proof (dw_used _ _ _ W) as Hub.
  assert (dictSize d = Z.of_nat (length (dict_entries d))) as Hsize.
  { unfold dictSize. rewrite Hu. apply u64_small. lia. }
  assert (dict_entries d <> [] -> 0 < size (ht0 d1)) as Hne.
  { intros Hne. apply Hs0. destruct (decide (size (ht0 d) = 0)) as [H0|H0].
    - by rewrite (dict_size0 t canon d W H0) in Hne.
    - by apply (ht_size_pos t _ (dw_ht0 _ _ _ W)). }
  unfold dictGetRandomKey. rewrite Hsize. split.
  - case_bool_decide as He; [by rewrite He|].
    destruct (Z.eqb_spec (Z.of_nat (length (dict_entries d))) 0);
      [by destruct (dict_entries d)|]. rewrite E1. cbn.
    destruct (random_bucket_spec random fuel 0 d1 W1 (Hne He) Hr) as [[-> Hall]|(c & j & -> & Hc & Hin)];
      [by left|right]. cbn.
    destruct (lookup_lt_is_Some_2 c (Z.to_nat (random j mod Z.of_nat (length c)))) as [e He'].
    { pose proof (Z.mod_pos_bound (random j) (Z.of_nat (length c))). destruct c; [done|cbn in *; lia]. }
    rewrite He'. cbn. exists e. split; [done|]. rewrite <-HP. apply Hin.
    by eapply list_elem_of_lookup_2.
  - intros e He. assert (dict_entries d <> []) as Hn by (intros E; by rewrite E in He; apply not_elem_of_nil in He).
    rewrite <-HP in He. destruct (random_slot_complete d1 e W1 He) as (r1 & c & Hr1 & Hc & Hin).
    apply list_elem_of_lookup in Hin as [p Hp]. pose proof (lookup_lt_Some _ _ _ Hp).
    exists r1, (Z.of_nat p). split_and!; [lia|lia|lia|]. intros rnd Hd0 Hd1.
    destruct (Z.eqb_spec (Z.of_nat (length (dict_entries d))) 0);
      [by destruct (dict_entries d)|]. rewrite E1. cbn.
    unfold random_slot in Hc. rewrite Hd0, Hc. cbn. destruct c as [|e0 c]; [done|].
    cbn [mbind option_bind]. rewrite Hd1, Z.mod_small, Nat2Z.id by lia. by rewrite Hp.
Qed.
End DictSpec.

(** *** Witnesses, on dictionaries with sds keys *)

Definition key_ (n : nat) : list byte := [z2b 107; z2b (48 + Z.of_nat n)].

(** Five additions to a new dictionary: the fifth finds the four buckets full
    and starts a rehashing. *)
Definition sample_ops : list (bool * dict_op (K := list byte) (V := Z)) :=
  [(true, OpAdd (key_ 0) 10); (true, OpAdd (key_ 1) 11); (false, OpReplace (key_ 0) 12);
   (true, OpAdd (key_ 2) 13); (true, OpAdd (key_ 3) 14); (true, OpAdd (key_ 4) 15)].

Definition sample_dict : dict (list byte) Z :=
  match run_ops (dbDictType 5381) 0 dictCreate sample_ops with
  | Some (d, _) => d
  | None => dictCreate
  end.

Lemma sample_dict_wf :
  dict_wf (dbDictType 5381) (fun k => k) sample_dict /\ dictIsRehashing sample_dict = true /\
  used (ht0 sample_dict) = 4 /\ iterators sample_dict = 0.
Proof.
  split; [|by vm_compute].
  destruct (run_ops_refines (dbDictType 5381) (fun k => k) 0 sample_ops dictCreate)
    as (d' & rs & E & W & _).
  { apply dictCreate_wf. }
  { by vm_compute. }
  unfold sample_dict. by rewrite E.
Qed.

Lemma dict_refines_map_witness :
  exists d' rs, run_ops (dbDictType 5381) 0 dictCreate sample_ops = Some (d', rs) /\
    dict_wf (dbDictType 5381) (fun k => k) d' /\
    spec_ops (dbDictType 5381) (fun k => k) (dict_map (fun k => k) (dictCreate (K := list byte) (V := Z)))
      sample_ops = (dict_map (fun k => k) d', rs).
Proof.
  apply (dict_refines_map (dbDictType 5381) (fun k => k) 0 dictCreate sample_ops).
  - apply dictCreate_wf.
  - by vm_compute.
Defined.

Lemma dictRehash_progress_witness :
  exists d' more, dictRehash (dbDictType 5381) sample_dict 5 = Some (d', more) /\ more = false.
Proof.
  destruct sample_dict_wf as (W & Hre & Hu & _).
  destruct (dictRehash_progress (dbDictType 5381) (fun k => k) sample_dict 5 W Hre)
    as (d' & more & E & _ & _ & _ & Hm & _).
  exists d', more. split; [exact E|]. apply Hm. rewrite Hu. lia.
Defined.

Lemma dictRehashMilliseconds_terminates_witness :
  exists d' r, dictRehashMilliseconds (dbDictType 5381) (fun _ => 0) 5 sample_dict 1 = Some (d', r).
Proof.
  destruct sample_dict_wf as (W & Hre & Hu & _).
  destruct (dictRehashMilliseconds_terminates (dbDictType 5381) (fun k => k) (fun _ => 0) 5 sample_dict 1 W)
    as (d' & r & E & _); [rewrite Hu; lia|rewrite Hu; lia|].
  exists d', r. exact E.
Defined.

Lemma dictExpand_least_power_witness :
  exists d' n, dictExpand (dictCreate (K := list byte) (V := Z)) 5 = Some (d', true) /\
    size (ht0 d') = 2 ^ n.
Proof.
  destruct (dictExpand_least_power (dbDictType 5381) (fun k => k) (dictCreate (K := list byte) (V := Z)) 5)
    as (d' & n & E & _ & _ & _ & Hs & _); [apply dictCreate_wf|done|cbn; lia|].
  exists d', n. split; [exact E|exact Hs].
Defined.

Lemma dictEmpty_frees_all_witness : dictRelease (dbDictType 5381) sample_dict =
  free_chain (dbDictType 5381) (dict_entries sample_dict).
Proof. by apply (dictEmpty_frees_all (dbDictType 5381) (fun k => k) sample_dict), sample_dict_wf. Defined.

Lemma dictNext_visits_all_witness :
  exists d' it', iterate 6 sample_dict (new_iterator true) = Some (d', it', dict_entries sample_dict).
Proof.
  destruct (dictNext_visits_all (dbDictType 5381) (fun k => k) sample_dict true)
    as (d' & it' & E & _); [apply sample_dict_wf|]. exists d', it'. exact E.
Defined.

Lemma dictNext_safe_delete_witness :
  exists d' it', iterate_delete (dbDictType 5381) 6 sample_dict dictGetSafeIterator =
    Some (d', it', dict_entries sample_dict, free_chain (dbDictType 5381) (dict_entries sample_dict)).
Proof.
  destruct (dictNext_safe_delete (dbDictType 5381) (fun k => k) sample_dict)
    as (d' & it' & E & _); [apply sample_dict_wf|by vm_compute|]. exists d', it'. exact E.
Defined.

Lemma dictGetRandomKey_spec_witness :
  exists d1, rehash_if_needed (dbDictType 5381) sample_dict = Some d1 /\
    dict_map (fun k => k) d1 = dict_map (fun k => k) sample_dict.
Proof.
  destruct (dictGetRandomKey_spec (dbDictType 5381) (fun k => k) (fun i => Z.of_nat i) 3 sample_dict)
    as (d1 & E & Hm & _); [apply sample_dict_wf|intros; lia|]. exists d1. split; [exact E|exact Hm].
Defined.
