(* ===== verification/Endian.v ===== *)
(** Endian: byte order conversion ([endianconv.c], [endianconv.h]) on a host
    of either byte order, and the in-memory image of integers. *)
From S2P Require Import Prelude.

(** Toggle the byte order of the first 2, 4 or 8 bytes at [x]: the swaps of
    the source, in order. *)
Definition memrev16 (x : list byte) : list byte :=
  match x with
  | x0 :: x1 :: r => x1 :: x0 :: r
  | _ => x
  end.

Definition memrev32 (x : list byte) : list byte :=
  match x with
  | x0 :: x1 :: x2 :: x3 :: r => x3 :: x2 :: x1 :: x0 :: r
  | _ => x
  end.

Definition memrev64 (x : list byte) : list byte :=
  match x with
  | x0 :: x1 :: x2 :: x3 :: x4 :: x5 :: x6 :: x7 :: r =>
    x7 :: x6 :: x5 :: x4 :: x3 :: x2 :: x1 :: x0 :: r
  | _ => x
  end.

Section Host.
Context (big_endian : bool).

(** Storing and loading an [n]-byte unsigned integer on the host. *)
Definition host_store (n : nat) (v : Z) : list byte :=
  if big_endian then rev (le_bytes n v) else le_bytes n v.
Definition host_load (bs : list byte) : Z :=
  if big_endian then le_val (rev bs) else le_val bs.

Definition intrev16 (v : Z) : Z := host_load (memrev16 (host_store 2 v)).
Definition intrev32 (v : Z) : Z := host_load (memrev32 (host_store 4 v)).
Definition intrev64 (v : Z) : Z := host_load (memrev64 (host_store 8 v)).

(** The [ifbe] macros of [endianconv.h]. *)
Definition memrev16ifbe (x : list byte) : list byte := if big_endian then memrev16 x else x.
Definition memrev32ifbe (x : list byte) : list byte := if big_endian then memrev32 x else x.
Definition memrev64ifbe (x : list byte) : list byte := if big_endian then memrev64 x else x.
Definition intrev16ifbe (v : Z) : Z := if big_endian then intrev16 v else v.
Definition intrev32ifbe (v : Z) : Z := if big_endian then intrev32 v else v.
Definition intrev64ifbe (v : Z) : Z := if big_endian then intrev64 v else v.

Lemma memrev16_rev x : length x = 2%nat -> memrev16 x = rev x.
Proof. by destruct x as [|? [|? [|]]]. Qed.
Lemma memrev32_rev x : length x = 4%nat -> memrev32 x = rev x.
Proof. by destruct x as [|? [|? [|? [|? [|]]]]]. Qed.
Lemma memrev64_rev x : length x = 8%nat -> memrev64 x = rev x.
Proof. by destruct x as [|? [|? [|? [|? [|? [|? [|? [|? [|]]]]]]]]]. Qed.

Lemma length_host_store n v : length (host_store n v) = n.
Proof. unfold host_store. destruct big_endian; rewrite ?length_rev; apply length_le_bytes. Qed.

Lemma host_load_store n v : host_load (host_store n v) = v mod 256 ^ Z.of_nat n.
Proof. unfold host_load, host_store. destruct big_endian; rewrite ?rev_involutive; apply le_val_bytes. Qed.

(** What is stored and then converted is little endian on every host. *)
Lemma store16_le v : memrev16ifbe (host_store 2 v) = le_bytes 2 v.
Proof.
  unfold memrev16ifbe, host_store. destruct big_endian; [|done].
  by rewrite memrev16_rev, rev_involutive by (rewrite length_rev; apply length_le_bytes).
Qed.
Lemma store32_le v : memrev32ifbe (host_store 4 v) = le_bytes 4 v.
Proof.
  unfold memrev32ifbe, host_store. destruct big_endian; [|done].
  by rewrite memrev32_rev, rev_involutive by (rewrite length_rev; apply length_le_bytes).
Qed.
Lemma store64_le v : memrev64ifbe (host_store 8 v) = le_bytes 8 v.
Proof.
  unfold memrev64ifbe, host_store. destruct big_endian; [|done].
  by rewrite memrev64_rev, rev_involutive by (rewrite length_rev; apply length_le_bytes).
Qed.

Lemma load16_le x : length x = 2%nat -> host_load (memrev16ifbe x) = le_val x.
Proof.
  intros Hl. unfold memrev16ifbe, host_load. destruct big_endian; [|done].
  by rewrite memrev16_rev, rev_involutive.
Qed.
Lemma load32_le x : length x = 4%nat -> host_load (memrev32ifbe x) = le_val x.
Proof.
  intros Hl. unfold memrev32ifbe, host_load. destruct big_endian; [|done].
  by rewrite memrev32_rev, rev_involutive.
Qed.
Lemma load64_le x : length x = 8%nat -> host_load (memrev64ifbe x) = le_val x.
Proof.
  intros Hl. unfold memrev64ifbe, host_load. destruct big_endian; [|done].
  by rewrite memrev64_rev, rev_involutive.
Qed.

(** A conversion reverses the bytes of the value, whatever the host. *)
Lemma intrev32_bytes v : intrev32 v = le_val (rev (le_bytes 4 v)).
Proof.
  unfold intrev32. rewrite memrev32_rev by apply length_host_store.
  unfold host_load, host_store. destruct big_endian; by rewrite ?rev_involutive.
Qed.
Lemma intrev16_bytes v : intrev16 v = le_val (rev (le_bytes 2 v)).
Proof.
  unfold intrev16. rewrite memrev16_rev by apply length_host_store.
  unfold host_load, host_store. destruct big_endian; by rewrite ?rev_involutive.
Qed.
Lemma intrev64_bytes v : intrev64 v = le_val (rev (le_bytes 8 v)).
Proof.
  unfold intrev64. rewrite memrev64_rev by apply length_host_store.
  unfold host_load, host_store. destruct big_endian; by rewrite ?rev_involutive.
Qed.

Lemma rev_bytes_involutive n v :
  le_val (rev (le_bytes n (le_val (rev (le_bytes n v))))) = v mod 256 ^ Z.of_nat n.
Proof.
  assert (length (rev (le_bytes n v)) = n) as Hl by (rewrite length_rev; apply length_le_bytes).
  rewrite <-Hl at 1. by rewrite le_bytes_val, rev_involutive, le_val_bytes.
Qed.

Lemma intrev32ifbe_involutive v : 0 <= v < 2 ^ 32 -> intrev32ifbe (intrev32ifbe v) = v.
Proof.
  intros Hv. unfold intrev32ifbe. destruct big_endian; [|done].
  rewrite !intrev32_bytes, rev_bytes_involutive. by apply Z.mod_small.
Qed.
Lemma intrev16ifbe_involutive v : 0 <= v < 2 ^ 16 -> intrev16ifbe (intrev16ifbe v) = v.
Proof.
  intros Hv. unfold intrev16ifbe. destruct big_endian; [|done].
  rewrite !intrev16_bytes, rev_bytes_involutive. by apply Z.mod_small.
Qed.

(** The converted value, stored on the host, is the little-endian image. *)
Lemma host_store_intrev32 v : host_store 4 (intrev32ifbe v) = le_bytes 4 v.
Proof.
  unfold host_store, intrev32ifbe. destruct big_endian; [|done].
  rewrite intrev32_bytes.
  assert (length (rev (le_bytes 4 v)) = 4%nat) as Hl by (rewrite length_rev; apply length_le_bytes).
  rewrite <-Hl at 1. by rewrite le_bytes_val, rev_involutive.
Qed.
Lemma host_store_intrev16 v : host_store 2 (intrev16ifbe v) = le_bytes 2 v.
Proof.
  unfold host_store, intrev16ifbe. destruct big_endian; [|done].
  rewrite intrev16_bytes.
  assert (length (rev (le_bytes 2 v)) = 2%nat) as Hl by (rewrite length_rev; apply length_le_bytes).
  rewrite <-Hl at 1. by rewrite le_bytes_val, rev_involutive.
Qed.
End Host.

(** ** Theorems *)

(** The conversions are involutions on their width and, being byte
    reversals, do not depend on the byte order of the host that computes
    them. *)
Theorem intrev_involutive_host_independent be be' v :
  intrev16 be (intrev16 be v) = u16 v /\
  intrev32 be (intrev32 be v) = u32 v /\
  intrev64 be (intrev64 be v) = u64 v /\
  intrev16 be v = intrev16 be' v /\ intrev32 be v = intrev32 be' v /\
  intrev64 be v = intrev64 be' v.
Proof.
  rewrite !intrev16_bytes, !intrev32_bytes, !intrev64_bytes, !rev_bytes_involutive. done.
Qed.

(** Serialised integers are portable: what any host stores after the [ifbe]
    conversion is the little-endian image, and what any host loads through
    the conversion from bytes another host wrote is the number modulo the
    width. *)
Theorem ifbe_portable be be' v :
  memrev16ifbe be (host_store be 2 v) = le_bytes 2 v /\
  memrev32ifbe be (host_store be 4 v) = le_bytes 4 v /\
  memrev64ifbe be (host_store be 8 v) = le_bytes 8 v /\
  host_store be 4 (intrev32ifbe be v) = le_bytes 4 v /\
  host_load be' (memrev16ifbe be' (memrev16ifbe be (host_store be 2 v))) = u16 v /\
  host_load be' (memrev32ifbe be' (memrev32ifbe be (host_store be 4 v))) = u32 v /\
  host_load be' (memrev64ifbe be' (memrev64ifbe be (host_store be 8 v))) = u64 v.
Proof.
  rewrite !store16_le, !store32_le, !store64_le, host_store_intrev32.
  rewrite load16_le, load32_le, load64_le, !le_val_bytes by apply length_le_bytes. done.
Qed.
