(* ===== verification/Intset.v ===== *)
(** Intset: the sorted integer set of [intset.c], at the level of its bytes. *)
From S2P Require Import Prelude Endian.

Definition INTSET_ENC_INT16 : Z := 2.
Definition INTSET_ENC_INT32 : Z := 4.
Definition INTSET_ENC_INT64 : Z := 8.

(** [encoding] and [length] are the words in memory, in the byte order the
    format fixes. *)
Record intset := Intset { encoding : Z; is_length : Z; contents : list byte }.

Definition _intsetValueEncoding (v : Z) : Z :=
  if (v <? - 2 ^ 31) || (2 ^ 31 - 1 <? v) then INTSET_ENC_INT64
  else if (v <? - 2 ^ 15) || (2 ^ 15 - 1 <? v) then INTSET_ENC_INT32
  else INTSET_ENC_INT16.

Section IntsetOps.
(** The host's byte order and the content of memory never written. *)
Context (be : bool) (junk : nat -> byte).
Implicit Types (iset : intset) (value pos : Z).

Definition enc_of iset : Z := intrev32ifbe be (encoding iset).
Definition len_of iset : Z := intrev32ifbe be (is_length iset).

Definition _intsetGetEncoded iset (pos enc : Z) : option Z :=
  if enc =? INTSET_ENC_INT64 then
    v64 ← mem_read (contents iset) (pos * 8) 8;
    Some (s64 (host_load be (memrev64ifbe be v64)))
  else if enc =? INTSET_ENC_INT32 then
    v32 ← mem_read (contents iset) (pos * 4) 4;
    Some (s32 (host_load be (memrev32ifbe be v32)))
  else
    v16 ← mem_read (contents iset) (pos * 2) 2;
    Some (s16 (host_load be (memrev16ifbe be v16))).

Definition _intsetGet iset (pos : Z) : option Z := _intsetGetEncoded iset pos (enc_of iset).

Definition set_contents iset (c : list byte) : intset := Intset (encoding iset) (is_length iset) c.

Definition _intsetSet iset (pos value : Z) : option intset :=
  c ← (if enc_of iset =? INTSET_ENC_INT64 then
         mem_write (contents iset) (pos * 8) (memrev64ifbe be (host_store be 8 value))
       else if enc_of iset =? INTSET_ENC_INT32 then
         mem_write (contents iset) (pos * 4) (memrev32ifbe be (host_store be 4 value))
       else
         mem_write (contents iset) (pos * 2) (memrev16ifbe be (host_store be 2 value)));
  Some (set_contents iset c).

Definition intsetNew : intset := Intset (intrev32ifbe be INTSET_ENC_INT16) 0 [].

(** [size] is computed in 32 bits. *)
Definition intsetResize iset (len : Z) : intset :=
  let size := u32 (len * enc_of iset) in
  set_contents iset (mem_resize junk (contents iset) size).

(** The binary search loop: [min], [max], [mid] and [cur]. *)
Fixpoint intsetSearch_loop (fuel : nat) iset (value min max mid cur : Z) : option (Z * Z * Z) :=
  match fuel with
  | O => None
  | S fuel' =>
    if min <=? max then
      sum ← chk32 (min + max);
      let mid := Z.quot sum 2 in
      cur ← _intsetGet iset mid;
      if cur <? value then intsetSearch_loop fuel' iset value (mid + 1) max mid cur
      else if value <? cur then intsetSearch_loop fuel' iset value min (mid - 1) mid cur
      else Some (min, mid, cur)
    else Some (min, mid, cur)
  end.

(** Result: whether the value was found, and the position. *)
Definition intsetSearch iset (value : Z) : option (bool * Z) :=
  let min := 0 in
  let max := s32 (u32 (len_of iset - 1)) in
  if len_of iset =? 0 then Some (false, 0)
  else
    last ← _intsetGet iset (s32 (u32 (len_of iset - 1)));
    if last <? value then Some (false, len_of iset)
    else
      first ← _intsetGet iset 0;
      if value <? first then Some (false, 0)
      else
        '(min, mid, cur) ← intsetSearch_loop 33 iset value min max (-1) (-1);
        if value =? cur then Some (true, u32 mid) else Some (false, u32 min).

(** [while(length--) _intsetSet(is,length+prepend,...)] *)
Fixpoint upgrade_loop (length : nat) iset (prepend curenc : Z) : option intset :=
  match length with
  | O => Some iset
  | S length' =>
    v ← _intsetGetEncoded iset (Z.of_nat length') curenc;
    iset ← _intsetSet iset (Z.of_nat length' + prepend) v;
    upgrade_loop length' iset prepend curenc
  end.

Definition set_length iset (len : Z) : intset := Intset (encoding iset) (intrev32ifbe be len) (contents iset).

Definition intsetUpgradeAndAdd iset (value : Z) : option intset :=
  let curenc := u8 (enc_of iset) in
  let newenc := _intsetValueEncoding value in
  let length := s32 (len_of iset) in
  let prepend := if value <? 0 then 1 else 0 in
  let iset := Intset (intrev32ifbe be newenc) (is_length iset) (contents iset) in
  let iset := intsetResize iset (u32 (len_of iset + 1)) in
  iset ← upgrade_loop (Z.to_nat length) iset prepend curenc;
  iset ← (if prepend =? 1 then _intsetSet iset 0 value
        else _intsetSet iset (s32 (len_of iset)) value);
  Some (set_length iset (u32 (len_of iset + 1))).

Definition intsetMoveTail iset (from to : Z) : option intset :=
  let bytes := u32 (len_of iset - from) in
  let size := if enc_of iset =? INTSET_ENC_INT64 then 8
              else if enc_of iset =? INTSET_ENC_INT32 then 4 else 2 in
  c ← memmove (contents iset) (to * size) (from * size) (u32 (bytes * size));
  Some (set_contents iset c).

(** Result: the set and [*success]. *)
Definition intsetAdd iset (value : Z) : option (intset * bool) :=
  let valenc := _intsetValueEncoding value in
  if enc_of iset <? valenc then
    iset ← intsetUpgradeAndAdd iset value; Some (iset, true)
  else
    '(found, pos) ← intsetSearch iset value;
    if found : bool then Some (iset, false)
    else
      let iset := intsetResize iset (u32 (len_of iset + 1)) in
      iset ← (if pos <? len_of iset then intsetMoveTail iset pos (u32 (pos + 1)) else Some iset);
      iset ← _intsetSet iset (s32 pos) value;
      Some (set_length iset (u32 (len_of iset + 1)), true).

Definition intsetRemove iset (value : Z) : option (intset * bool) :=
  let valenc := _intsetValueEncoding value in
  if valenc <=? enc_of iset then
    '(found, pos) ← intsetSearch iset value;
    if found : bool then
      let len := len_of iset in
      iset ← (if pos <? u32 (len - 1) then intsetMoveTail iset (u32 (pos + 1)) pos else Some iset);
      let iset := intsetResize iset (u32 (len - 1)) in
      Some (set_length iset (u32 (len - 1)), true)
    else Some (iset, false)
  else Some (iset, false).

Definition intsetFind iset (value : Z) : option bool :=
  let valenc := _intsetValueEncoding value in
  if valenc <=? enc_of iset then fst <$> intsetSearch iset value else Some false.

(** [r] is the result of [rand()]. *)
Definition intsetRandom iset (r : Z) : option Z :=
  if len_of iset =? 0 then None else _intsetGet iset (s32 (u32 r mod len_of iset)).

Definition intsetGet iset (pos : Z) : option (option Z) :=
  if pos <? len_of iset then v ← _intsetGet iset (s32 pos); Some (Some v) else Some None.

Definition intsetLen iset : Z := len_of iset.

Definition sizeof_intset : Z := 8.
Definition intsetBlobLen iset : Z := u64 (sizeof_intset + u32 (len_of iset * enc_of iset)).
End IntsetOps.
