(* ===== verification/IntsetProofs.v ===== *)
(** IntsetProofs: the representation invariant of an intset (the byte image of
    a sorted list in one encoding) and its preservation by every operation. *)
From stdpp Require Import sorting.
From S2P Require Import Prelude Endian Intset.

Definition enc_ok (enc : Z) : Prop := enc = 2 \/ enc = 4 \/ enc = 8.
Definition in_enc (enc v : Z) : Prop := - 2 ^ (8 * enc - 1) <= v < 2 ^ (8 * enc - 1).

(** The image of a list of integers of [n] bytes each. *)
Definition flat (n : nat) (l : list Z) : list byte := concat (le_bytes n <$> l).

Lemma flat_app n l1 l2 : flat n (l1 ++ l2) = flat n l1 ++ flat n l2.
Proof. unfold flat. by rewrite fmap_app, concat_app. Qed.
Lemma flat_cons n v l : flat n (v :: l) = le_bytes n v ++ flat n l.
Proof. done. Qed.
Lemma length_flat n l : length (flat n l) = (n * length l)%nat.
Proof.
  induction l as [|v l IH]; [cbn; lia|].
  rewrite flat_cons, length_app, length_le_bytes, IH. cbn [length]. lia.
Qed.

Lemma in_enc_64 v : in_enc 8 v <-> int64 v.
Proof. done. Qed.

Lemma in_enc_mono e1 e2 v : enc_ok e1 -> enc_ok e2 -> e1 <= e2 -> in_enc e1 v -> in_enc e2 v.
Proof. unfold in_enc. intros [->|[->| ->]] [->|[->| ->]]; cbn; lia. Qed.

Lemma valueEncoding_ok v : enc_ok (_intsetValueEncoding v).
Proof. unfold _intsetValueEncoding, enc_ok. repeat case_match; auto. Qed.

(** The encoding chosen is the narrowest that holds the value. *)
Lemma valueEncoding_least v enc :
  int64 v -> enc_ok enc -> _intsetValueEncoding v <= enc <-> in_enc enc v.
Proof.
  unfold int64, in_enc, _intsetValueEncoding, INTSET_ENC_INT16, INTSET_ENC_INT32, INTSET_ENC_INT64.
  intros Hv [->|[->| ->]]; cbn in *;
    repeat (case_match || destruct (Z.ltb_spec _ _)); cbn in *; try lia; try discriminate.
Qed.

Section Rep.
Context (be : bool) (junk : nat -> byte).
Implicit Types (iset : intset) (v : Z) (l : list Z).

Record intset_rep iset (enc : Z) l : Prop := IntsetRep {
  rep_enc : enc_ok enc;
  rep_encoding : encoding iset = intrev32ifbe be enc;
  rep_length : is_length iset = intrev32ifbe be (Z.of_nat (length l));
  rep_contents : contents iset = flat (Z.to_nat enc) l;
  rep_range : Forall (in_enc enc) l;
  rep_sorted : StronglySorted Z.lt l;
  rep_bound : (Z.of_nat (length l) < 2 ^ 29)%Z }.

Lemma enc_of_ok iset enc : enc_ok enc -> encoding iset = intrev32ifbe be enc -> enc_of be iset = enc.
Proof.
  intros He E. unfold enc_of. rewrite E. apply intrev32ifbe_involutive. destruct He as [->|[->| ->]]; lia.
Qed.
Lemma rep_enc_of iset enc l : intset_rep iset enc l -> enc_of be iset = enc.
Proof. intros H. apply enc_of_ok; [apply (rep_enc _ _ _ H)|apply (rep_encoding _ _ _ H)]. Qed.
Lemma len_of_ok iset n :
  0 <= n < 2 ^ 32 -> is_length iset = intrev32ifbe be n -> len_of be iset = n.
Proof. intros Hn E. unfold len_of. rewrite E. by apply intrev32ifbe_involutive. Qed.
Lemma rep_len_of iset enc l : intset_rep iset enc l -> len_of be iset = Z.of_nat (length l).
Proof. intros []. apply len_of_ok; [lia|done]. Qed.

(** *** One element *)

Lemma load_elem n v : le_val (le_bytes n v) = v mod 256 ^ Z.of_nat n.
Proof. apply le_val_bytes. Qed.

Lemma getEncoded_spec iset pos enc v pre post :
  enc_ok enc -> in_enc enc v ->
  contents iset = pre ++ le_bytes (Z.to_nat enc) v ++ post ->
  Z.of_nat (length pre) = pos * enc ->
  _intsetGetEncoded be iset pos enc = Some v.
Proof.
  intros He Hv Hc Hp. unfold _intsetGetEncoded, in_enc in *.
  destruct He as [->|[->| ->]]; cbn -[le_bytes] in *; rewrite Hc;
    rewrite (mem_read_app pre (le_bytes _ v) post) by (rewrite ?length_le_bytes; lia);
    cbn -[le_bytes host_load]; f_equal.
  - rewrite load16_le, le_val_bytes by apply length_le_bytes.
    unfold s16. rewrite (swrap_mod 16) by lia. apply swrap_small; lia.
  - rewrite load32_le, le_val_bytes by apply length_le_bytes.
    unfold s32. rewrite (swrap_mod 32) by lia. apply swrap_small; lia.
  - rewrite load64_le, le_val_bytes by apply length_le_bytes.
    unfold s64. rewrite (swrap_mod 64) by lia. apply swrap_small; lia.
Qed.

Lemma set_spec iset pos enc v pre old post :
  enc_ok enc -> enc_of be iset = enc ->
  contents iset = pre ++ old ++ post ->
  Z.of_nat (length pre) = pos * enc -> Z.of_nat (length old) = enc ->
  _intsetSet be iset pos v
  = Some (set_contents iset (pre ++ le_bytes (Z.to_nat enc) v ++ post)).
Proof.
  intros He Heo Hc Hp Ho. unfold _intsetSet. rewrite Heo, Hc.
  destruct He as [->|[->| ->]]; cbn -[le_bytes host_store];
    rewrite ?store16_le, ?store32_le, ?store64_le;
    rewrite mem_write_app by (rewrite ?length_le_bytes; lia); done.
Qed.

Lemma get_spec iset enc l i v :
  intset_rep iset enc l -> l !! i = Some v -> _intsetGet be iset (Z.of_nat i) = Some v.
Proof.
  intros H Hi. pose proof (rep_enc_of _ _ _ H) as He. destruct H. unfold _intsetGet.
  pose proof (lookup_lt_Some _ _ _ Hi).
  rewrite He. apply (getEncoded_spec _ _ _ _ (flat (Z.to_nat enc) (take i l))
    (flat (Z.to_nat enc) (drop (S i) l))); [done| |..].
  - by eapply Forall_lookup_1.
  - by rewrite rep_contents0, <-flat_cons, <-flat_app, take_drop_middle.
  - rewrite length_flat, length_take.
    destruct rep_enc0 as [->|[->| ->]]; lia.
Qed.

(** *** Binary search *)

Lemma sorted_take_lt l i c v :
  StronglySorted Z.lt l -> l !! i = Some c -> c < v -> Forall (fun x => x < v) (take (S i) l).
Proof.
  intros Hs Hi Hc. rewrite (take_S_r _ _ _ Hi). apply Forall_app. split; [|by repeat constructor].
  rewrite <-(take_drop_middle l i c Hi) in Hs. apply StronglySorted_app in Hs as (Hlt & _ & _).
  apply Forall_forall. intros x Hx. specialize (Hlt x c Hx ltac:(set_solver)). lia.
Qed.

Lemma sorted_drop_gt l i c v :
  StronglySorted Z.lt l -> l !! i = Some c -> v < c -> Forall (fun x => v < x) (drop i l).
Proof.
  intros Hs Hi Hc. rewrite (drop_S _ _ _ Hi). constructor; [done|].
  rewrite <-(take_drop_middle l i c Hi) in Hs. apply StronglySorted_app in Hs as (_ & _ & Hs).
  inversion Hs as [|? ? _ Hf]; subst. eapply Forall_impl; [exact Hf|]. cbn. lia.
Qed.

Lemma search_loop_spec iset enc l v fuel : forall min max mid cur,
  intset_rep iset enc l ->
  0 <= min <= max + 1 -> max < Z.of_nat (length l) ->
  max - min + 1 < 2 ^ Z.of_nat fuel ->
  Forall (fun x => x < v) (take (Z.to_nat min) l) ->
  Forall (fun x => v < x) (drop (Z.to_nat (max + 1)) l) ->
  (min <= max \/ cur <> v) ->
  exists min' mid' cur', intsetSearch_loop be (S fuel) iset v min max mid cur = Some (min', mid', cur') /\
    ((cur' = v /\ 0 <= mid' /\ l !! Z.to_nat mid' = Some v) \/
     (cur' <> v /\ 0 <= min' <= Z.of_nat (length l) /\
      Forall (fun x => x < v) (take (Z.to_nat min') l) /\
      Forall (fun x => v < x) (drop (Z.to_nat min') l))).
Proof.
  induction fuel as [|fuel IH]; intros min max mid cur Hr Hmin Hmax Hf Hlo Hhi Hcur.
  { assert (max + 1 = min) as E by lia. rewrite E in Hhi. cbn.
    destruct (Z.leb_spec min max); [lia|]. exists min, mid, cur. split; [done|]. right.
    split_and!; try done; lia. }
  remember (S fuel) as f. cbn [intsetSearch_loop]. destruct (Z.leb_spec min max) as [Hle|Hle].
  2:{ assert (max + 1 = min) as E by lia. rewrite E in Hhi.
      exists min, mid, cur. split; [done|]. right. split_and!; try done; lia. }
  pose proof (rep_bound _ _ _ Hr).
  rewrite chk32_ok by lia. cbn [option_bind mbind].
  rewrite Z.quot_div_nonneg by lia. set (m := (min + max) / 2).
  assert (min <= m <= max /\ 2 * m <= min + max <= 2 * m + 1) as [Hm Hm2]
    by (unfold m; split; [split; [apply Z.div_le_lower_bound; lia|apply Z.div_le_upper_bound; lia]|];
        pose proof (Z.div_mod (min + max) 2); pose proof (Z.mod_pos_bound (min + max) 2); lia).
  destruct (lookup_lt_is_Some_2 l (Z.to_nat m)) as [c Hc]; [lia|].
  pose proof (get_spec _ _ _ _ _ Hr Hc) as Hg. rewrite Z2Nat.id in Hg by lia. rewrite Hg. cbn [option_bind mbind].
  assert (2 ^ Z.of_nat f = 2 * 2 ^ Z.of_nat fuel) as Ef
    by (subst f; rewrite Nat2Z.inj_succ, Z.pow_succ_r; lia).
  pose proof (rep_sorted _ _ _ Hr) as Hs. subst f.
  destruct (Z.ltb_spec c v); [|destruct (Z.ltb_spec v c)].
  - apply IH; try done; try lia.
    replace (Z.to_nat (m + 1)) with (S (Z.to_nat m)) by lia. by eapply sorted_take_lt.
  - apply IH; try done; try lia.
    replace (m - 1 + 1) with m by lia. by eapply sorted_drop_gt.
  - assert (c = v) as -> by lia. exists min, m, v. split; [done|]. left. split_and!; [done|lia|done].
Qed.

(** What the search promises: the rank of the value, and whether it is there. *)
Definition search_ok l v (found : bool) (pos : Z) : Prop :=
  0 <= pos <= Z.of_nat (length l) /\
  if found then l !! Z.to_nat pos = Some v
  else Forall (fun x => x < v) (take (Z.to_nat pos) l) /\
       Forall (fun x => v < x) (drop (Z.to_nat pos) l).

Lemma search_spec iset enc l v :
  intset_rep iset enc l ->
  exists found pos, intsetSearch be iset v = Some (found, pos) /\ search_ok l v found pos.
Proof.
  intros Hr. unfold intsetSearch. rewrite (rep_len_of _ _ _ Hr). pose proof (rep_bound _ _ _ Hr).
  pose proof (rep_sorted _ _ _ Hr) as Hs.
  destruct (Z.eqb_spec (Z.of_nat (length l)) 0) as [H0|H0].
  { exists false, 0. split; [done|]. destruct l; [|done]. repeat constructor; cbn; lia. }
  unwrap. destruct (lookup_lt_is_Some_2 l (length l - 1)) as [la Hla]; [lia|].
  destruct (lookup_lt_is_Some_2 l 0) as [fi Hfi]; [lia|].
  pose proof (get_spec _ _ _ _ _ Hr Hla) as Hgl. pose proof (get_spec _ _ _ _ _ Hr Hfi) as Hgf.
  replace (Z.of_nat (length l - 1)) with (Z.of_nat (length l) - 1) in Hgl by lia.
  rewrite Hgl. cbn [option_bind mbind].
  destruct (Z.ltb_spec la v) as [Hlv|Hlv].
  { exists false, (Z.of_nat (length l)). split; [done|]. split; [lia|].
    rewrite Nat2Z.id, drop_all. split; [|constructor].
    pose proof (sorted_take_lt _ _ _ _ Hs Hla Hlv) as Ht. by replace (S (length l - 1)) with (length l) in Ht by lia. }
  change (Z.of_nat 0) with 0 in Hgf. rewrite Hgf. cbn [option_bind mbind].
  destruct (Z.ltb_spec v fi) as [Hvf|Hvf].
  { exists false, 0. split; [done|]. split; [lia|]. split; [constructor|].
    by apply (sorted_drop_gt _ _ _ _ Hs Hfi). }
  destruct (search_loop_spec iset enc l v 32 0 (Z.of_nat (length l) - 1) (-1) (-1)) as (mi & md & cu & -> & Hres);
    [done|lia|lia|lia|constructor| |lia|].
  { rewrite drop_ge by lia. constructor. }
  cbn [option_bind mbind]. destruct Hres as [(-> & Hmd & Hl) | (Hne & Hmi & Hlo & Hhi)].
  - pose proof (lookup_lt_Some _ _ _ Hl). rewrite Z.eqb_refl. unwrap. exists true, md. split; [done|]. split; [lia|done].
  - rewrite (proj2 (Z.eqb_neq v cu)) by done. unwrap. exists false, mi. split; [done|]. split; [lia|done].
Qed.

Lemma search_ok_in l v found pos : search_ok l v found pos -> found = bool_decide (v ∈ l).
Proof.
  intros [_ H]. destruct found; symmetry.
  - apply bool_decide_eq_true. by eapply list_elem_of_lookup_2.
  - apply bool_decide_eq_false. destruct H as [Hlo Hhi]. rewrite <-(take_drop (Z.to_nat pos) l).
    rewrite elem_of_app. rewrite Forall_forall in Hlo, Hhi.
    intros [Hx|Hx]; [specialize (Hlo _ Hx)|specialize (Hhi _ Hx)]; lia.
Qed.

(** *** Insertion, upgrade and deletion *)

Lemma rep_intro iset enc l :
  enc_ok enc -> encoding iset = intrev32ifbe be enc ->
  is_length iset = intrev32ifbe be (Z.of_nat (length l)) ->
  contents iset = flat (Z.to_nat enc) l -> Forall (in_enc enc) l ->
  StronglySorted Z.lt l -> Z.of_nat (length l) < 2 ^ 29 -> intset_rep iset enc l.
Proof. by constructor. Qed.

Lemma insert_sorted l v pos :
  StronglySorted Z.lt l -> search_ok l v false pos ->
  StronglySorted Z.lt (take (Z.to_nat pos) l ++ v :: drop (Z.to_nat pos) l).
Proof.
  intros Hs [Hp [Hlo Hhi]]. rewrite <-(take_drop (Z.to_nat pos) l) in Hs.
  apply StronglySorted_app in Hs as (H1 & H2 & H3). rewrite Forall_forall in Hlo.
  apply StronglySorted_app. split_and!; [|done|by constructor].
  intros x y Hx [->|Hy]%elem_of_cons; [by apply Hlo|by apply H1].
Qed.

Lemma delete_sorted l i :
  StronglySorted Z.lt l -> StronglySorted Z.lt (take i l ++ drop (S i) l).
Proof.
  intros Hs. rewrite <-(take_drop i l) in Hs. apply StronglySorted_app in Hs as (H1 & H2 & H3).
  assert (drop (S i) l = drop 1 (drop i l)) as E by (rewrite drop_drop; f_equal; lia).
  apply StronglySorted_app. rewrite E. split_and!; [|done|].
  - intros x y Hx Hy. apply H1; [done|]. destruct (drop i l); [done|set_solver].
  - destruct (drop i l); [done|]. by apply StronglySorted_cons in H3 as [_ ?].
Qed.

Lemma length_insert_at (l : list Z) v n :
  (n <= length l)%nat -> length (take n l ++ v :: drop n l) = S (length l).
Proof. intros. rewrite length_app, length_take. cbn [length]. rewrite length_drop. lia. Qed.

(** Growing by one element appends a gap of [enc] bytes. *)
Lemma resize_grow iset enc c len :
  enc_ok enc -> enc_of be iset = enc -> 0 <= len < 2 ^ 29 -> contents iset = c ->
  Z.of_nat (length c) <= len * enc ->
  exists g, intsetResize be junk iset len = set_contents iset (c ++ g) /\
            Z.of_nat (length g) = len * enc - Z.of_nat (length c).
Proof.
  intros He Heo Hl Hc Hlen. unfold intsetResize. rewrite Heo, Hc.
  rewrite u32_small by (destruct He as [->|[->| ->]]; lia).
  destruct (mem_resize_grow junk c (len * enc)) as (g & -> & Hg); [lia|]. eauto.
Qed.

Lemma resize_shrink iset enc c d len :
  enc_ok enc -> enc_of be iset = enc -> 0 <= len < 2 ^ 29 -> contents iset = c ++ d ->
  Z.of_nat (length c) = len * enc ->
  intsetResize be junk iset len = set_contents iset c.
Proof.
  intros He Heo Hl Hc Hlen. unfold intsetResize. rewrite Heo, Hc.
  rewrite u32_small by (destruct He as [->|[->| ->]]; lia).
  rewrite mem_resize_shrink by (rewrite length_app; lia).
  by rewrite take_app_length' by lia.
Qed.

(** [intsetMoveTail] is a [memmove] of whole elements. *)
Lemma moveTail_eq iset enc from to n :
  enc_ok enc -> enc_of be iset = enc -> len_of be iset = n -> 0 <= from <= n -> n < 2 ^ 29 ->
  intsetMoveTail be iset from to
  = c ← memmove (contents iset) (to * enc) (from * enc) ((n - from) * enc);
    Some (set_contents iset c).
Proof.
  intros He Heo Hln Hf Hn. unfold intsetMoveTail. rewrite Heo, Hln. cbv zeta.
  assert ((if enc =? INTSET_ENC_INT64 then 8 else if enc =? INTSET_ENC_INT32 then 4 else 2) = enc)
    as -> by (by destruct He as [->|[->| ->]]).
  rewrite (u32_small (n - from)) by lia.
  rewrite u32_small by (destruct He as [->|[->| ->]]; lia). done.
Qed.

(** The upgrade loop converts the elements from the last to the first; [mid]
    is the space already freed between the elements of both widths. *)
Lemma upgrade_loop_spec iset o w prepend l tail : forall n mid,
  enc_ok o -> enc_ok w -> o <= w -> enc_of be iset = w -> 0 <= prepend ->
  Forall (in_enc o) l -> (n <= length l)%nat ->
  Z.of_nat (length (flat (Z.to_nat o) (take n l) ++ mid)) = (Z.of_nat n + prepend) * w ->
  exists mid0, Z.of_nat (length mid0) = prepend * w /\
    upgrade_loop be n (set_contents iset (flat (Z.to_nat o) (take n l) ++ mid
                        ++ flat (Z.to_nat w) (drop n l) ++ tail)) prepend o
    = Some (set_contents iset (mid0 ++ flat (Z.to_nat w) l ++ tail)).
Proof.
  induction n as [|n IH]; intros mid Ho Hw How Heo Hp Hl Hn Hlen.
  { cbn [upgrade_loop take flat fmap list_fmap concat app drop] in *. exists mid.
    rewrite take_0 in *. cbn in Hlen |- *. rewrite drop_0. split; [lia|done]. }
  cbn [upgrade_loop]. destruct (lookup_lt_is_Some_2 l n) as [x Hx]; [lia|].
  rewrite (take_S_r _ _ _ Hx), flat_app in *.
  set (A := flat (Z.to_nat o) (take n l)) in *.
  assert (length A = Z.to_nat o * n)%nat as HA
    by (unfold A; rewrite length_flat, length_take; f_equal; lia).
  change (flat (Z.to_nat o) [x]) with (le_bytes (Z.to_nat o) x ++ []) in *.
  rewrite app_nil_r in *. rewrite !length_app, length_le_bytes in Hlen.
  assert (0 < o) as Ho0 by (destruct Ho as [->|[->| ->]]; lia).
  rewrite (getEncoded_spec _ _ _ x A
    (mid ++ flat (Z.to_nat w) (drop (S n) l) ++ tail)); cbn [contents set_contents].
  2:{ done. } 2:{ by eapply Forall_lookup_1. } 2:{ by rewrite <-app_assoc. } 2:{ lia. }
  cbn [option_bind mbind].
  set (B := le_bytes (Z.to_nat o) x ++ mid).
  set (k := (Z.to_nat ((Z.of_nat n + prepend) * w) - length A)%nat).
  assert (Z.of_nat (length A) <= (Z.of_nat n + prepend) * w) as HAk by nia.
  assert (length B = k + Z.to_nat w)%nat as HB
    by (unfold B, k; rewrite length_app, length_le_bytes; lia).
  rewrite (set_spec _ _ w x (A ++ take k B) (drop k B) (flat (Z.to_nat w) (drop (S n) l) ++ tail));
    [|done|done| | |].
  - cbn [option_bind mbind]. rewrite <-(app_assoc A (take k B)).
    replace (le_bytes (Z.to_nat w) x ++ flat (Z.to_nat w) (drop (S n) l) ++ tail)
      with (flat (Z.to_nat w) (drop n l) ++ tail)
      by (rewrite (drop_S _ _ _ Hx), flat_cons, <-app_assoc; done).
    apply (IH (take k B)); try done; [lia|]. unfold A in *. rewrite length_app, length_take. lia.
  - cbn [contents set_contents]. unfold B.
    rewrite <-!app_assoc, (app_assoc (take k _)), take_drop. by rewrite <-app_assoc.
  - rewrite length_app, length_take. lia.
  - rewrite length_drop. lia.
Qed.

(** A value that needs a wider encoding lies outside the range of the others. *)
Lemma upgrade_outside l enc v :
  enc_ok enc -> int64 v -> enc < _intsetValueEncoding v -> Forall (in_enc enc) l ->
  if v <? 0 then Forall (fun x => v < x) l else Forall (fun x => x < v) l.
Proof.
  intros He Hv Hlt Hl. assert (~ in_enc enc v) as Hn.
  { rewrite <-valueEncoding_least by done. lia. }
  unfold in_enc in *. destruct (Z.ltb_spec v 0); (eapply Forall_impl; [exact Hl|]); cbn; intros x Hx; lia.
Qed.

Definition upgraded l v : list Z := if v <? 0 then v :: l else l ++ [v].

Lemma upgraded_sorted l enc v :
  enc_ok enc -> int64 v -> enc < _intsetValueEncoding v -> Forall (in_enc enc) l ->
  StronglySorted Z.lt l -> StronglySorted Z.lt (upgraded l v).
Proof.
  intros He Hv Hlt Hl Hs. pose proof (upgrade_outside _ _ _ He Hv Hlt Hl) as Ho.
  unfold upgraded. destruct (v <? 0); [by constructor|].
  apply StronglySorted_app. split_and!; [|done|by repeat constructor].
  rewrite Forall_forall in Ho. intros x y Hx ->%list_elem_of_singleton. by apply Ho.
Qed.

Lemma upgraded_perm l v : upgraded l v ≡ₚ v :: l.
Proof. unfold upgraded. destruct (v <? 0); [done|]. by rewrite Permutation_app_comm. Qed.

Lemma upgraded_range l enc v :
  enc_ok enc -> int64 v -> enc < _intsetValueEncoding v -> Forall (in_enc enc) l ->
  Forall (in_enc (_intsetValueEncoding v)) (upgraded l v).
Proof.
  intros He Hv Hlt Hl. rewrite upgraded_perm. constructor.
  - apply valueEncoding_least; [done|apply valueEncoding_ok|done].
  - eapply Forall_impl; [exact Hl|]. intros x. apply in_enc_mono; [done|apply valueEncoding_ok|lia].
Qed.

Lemma upgrade_spec iset enc l v :
  intset_rep iset enc l -> int64 v -> enc < _intsetValueEncoding v ->
  Z.of_nat (length l) + 1 < 2 ^ 29 ->
  exists iset', intsetUpgradeAndAdd be junk iset v = Some iset' /\
    intset_rep iset' (_intsetValueEncoding v) (upgraded l v).
Proof.
  intros Hr Hv Hlt Hn. set (w := _intsetValueEncoding v) in *.
  assert (enc_ok w) as Hw by apply valueEncoding_ok.
  pose proof (rep_enc_of _ _ _ Hr) as Heo. pose proof (rep_len_of _ _ _ Hr) as Hln.
  pose proof Hr as [He _ Hil Hc Hra Hs _].
  assert (0 < enc) by (destruct He as [->|[->| ->]]; lia).
  unfold intsetUpgradeAndAdd. cbv zeta. rewrite Heo, Hln. fold w.
  rewrite u8_small, s32_small by (destruct He as [->|[->| ->]]; lia).
  set (i0 := Intset (intrev32ifbe be w) (is_length iset) (contents iset)).
  assert (enc_of be i0 = w) as Hew by by apply enc_of_ok.
  assert (len_of be i0 = Z.of_nat (length l)) as Hl0 by (apply len_of_ok; [lia|done]).
  rewrite Hl0, (u32_small (Z.of_nat (length l) + 1)) by lia.
  destruct (resize_grow i0 w (contents iset) (Z.of_nat (length l) + 1)) as (g & -> & Hg);
    [done|done|lia|done|rewrite Hc, length_flat; nia|].
  set (pre := if v <? 0 then 1 else 0). rewrite Hc in Hg |- *. rewrite length_flat in Hg.
  set (m := (length g - Z.to_nat ((1 - pre) * w))%nat).
  assert (pre = 0 \/ pre = 1) as Hpre by (unfold pre; destruct (v <? 0); lia).
  assert ((1 - pre) * w <= Z.of_nat (length g)) as Hgm by (destruct Hpre as [-> | ->]; nia).
  destruct (upgrade_loop_spec i0 enc w pre l (drop m g) (length l) (take m g)) as (mid0 & Hm0 & Hloop);
    [done|done|lia|done|lia|done|lia| |].
  { rewrite length_app, length_flat, !length_take, Nat.min_id. unfold m. nia. }
  rewrite firstn_all, drop_all in Hloop. cbn [flat fmap list_fmap concat app] in Hloop.
  rewrite take_drop in Hloop.
  rewrite Nat2Z.id, Hloop. cbn [option_bind mbind].
  set (i1 := set_contents i0 _). assert (enc_of be i1 = w) as He1 by exact Hew.
  assert (Z.of_nat (length (drop m g)) = (1 - pre) * w) as Hdr by (rewrite length_drop; unfold m; lia).
  set (n := length l) in *.
  assert (exists c, (if pre =? 1 then _intsetSet be i1 0 v else _intsetSet be i1 (s32 (len_of be i1)) v)
      = Some (set_contents i0 c) /\ c = flat (Z.to_nat w) (upgraded l v)) as (c & -> & Hcc).
  { unfold upgraded, pre in *. destruct (v <? 0); cbn [Z.eqb Pos.eqb]; (eexists; split; [|reflexivity]).
    - rewrite (set_spec i1 0 w v [] mid0 (flat (Z.to_nat w) l ++ drop m g)); [|done|done|done|done|lia].
      destruct (drop m g); [|cbn in Hdr; lia]. by rewrite app_nil_r.
    - change (len_of be i1) with (len_of be i0). rewrite Hl0, s32_small by lia.
      destruct mid0; [|cbn in Hm0; lia].
      rewrite (set_spec i1 (Z.of_nat n) w v (flat (Z.to_nat w) l) (drop m g) []); [|done|done| | |lia].
      + by rewrite flat_app, flat_cons.
      + cbn. by rewrite app_nil_r.
      + rewrite length_flat. lia. }
  cbn [option_bind mbind]. eexists. split; [done|].
  assert (length (upgraded l v) = S n) as Hlu by by rewrite upgraded_perm.
  apply rep_intro; cbn -[Z.of_nat]; [done|done| |done| | |].
  - change (len_of be (set_contents i0 c)) with (len_of be i0).
    rewrite Hl0, u32_small, Hlu by lia. f_equal. lia.
  - by apply (upgraded_range l enc).
  - by apply (upgraded_sorted l enc).
  - lia.
Qed.

(** The image of a list with one element inserted or removed at [pos]. *)
Lemma length_flat_take enc l (p : nat) :
  enc_ok enc -> (p <= length l)%nat ->
  Z.of_nat (length (flat (Z.to_nat enc) (take p l))) = Z.of_nat p * enc.
Proof. intros [->|[->| ->]] ?; rewrite length_flat, length_take; lia. Qed.

Lemma length_flat_drop enc l (p : nat) :
  enc_ok enc -> (p <= length l)%nat ->
  Z.of_nat (length (flat (Z.to_nat enc) (drop p l))) = (Z.of_nat (length l) - Z.of_nat p) * enc.
Proof. intros [->|[->| ->]] ?; rewrite length_flat, length_drop; lia. Qed.

Lemma insert_spec iset enc l v pos :
  intset_rep iset enc l -> in_enc enc v -> search_ok l v false pos ->
  Z.of_nat (length l) + 1 < 2 ^ 29 ->
  exists iset',
    (let iset := intsetResize be junk iset (u32 (len_of be iset + 1)) in
     iset ← (if pos <? len_of be iset then intsetMoveTail be iset pos (u32 (pos + 1)) else Some iset);
     iset ← _intsetSet be iset (s32 pos) v;
     Some (set_length be iset (u32 (len_of be iset + 1)))) = Some iset' /\
    intset_rep iset' enc (take (Z.to_nat pos) l ++ v :: drop (Z.to_nat pos) l).
Proof.
  intros Hr Hv Hso Hn. pose proof (rep_enc_of _ _ _ Hr) as Heo. pose proof (rep_len_of _ _ _ Hr) as Hln.
  pose proof Hr as [He Hen Hil Hc Hra Hs _]. pose proof Hso as [Hp _].
  assert (0 < enc) by (destruct He as [->|[->| ->]]; lia).
  cbv zeta. rewrite Hln, (u32_small (Z.of_nat (length l) + 1)) by lia.
  destruct (Z_of_nat_complete pos) as [p ->]; [lia|]. rewrite Nat2Z.id in *.
  assert (p <= length l)%nat as Hpl by lia.
  destruct (resize_grow iset enc (contents iset) (Z.of_nat (length l) + 1)) as (g & -> & Hg);
    [done|done|lia|done|rewrite Hc, length_flat; nia|].
  set (A := flat (Z.to_nat enc) (take p l)). set (B := flat (Z.to_nat enc) (drop p l)).
  assert (contents iset = A ++ B) as Hc' by (by rewrite Hc; unfold A, B; rewrite <-flat_app, take_drop).
  rewrite Hc' in Hg |- *.
  assert (Z.of_nat (length A) = Z.of_nat p * enc) as HA by by apply length_flat_take.
  assert (Z.of_nat (length B) = (Z.of_nat (length l) - Z.of_nat p) * enc) as HB by by apply length_flat_drop.
  rewrite length_app in Hg.
  change (len_of be (set_contents iset ?c)) with (len_of be iset). rewrite Hln.
  set (i1 := set_contents iset _).
  assert (exists gap, Z.of_nat (length gap) = enc /\
    (if Z.of_nat p <? Z.of_nat (length l) then intsetMoveTail be i1 (Z.of_nat p) (u32 (Z.of_nat p + 1)) else Some i1)
    = Some (set_contents iset (A ++ gap ++ B))) as (gap & Hgap & ->).
  { destruct (Z.ltb_spec (Z.of_nat p) (Z.of_nat (length l))).
    - rewrite u32_small by lia. exists (take (length g) (B ++ g)).
      split; [rewrite length_take, length_app; lia|].
      rewrite (moveTail_eq i1 enc _ _ (Z.of_nat (length l))) by (done || lia).
      unfold i1; cbn [contents set_contents]. rewrite <-(app_nil_r g) at 1. rewrite <-!app_assoc.
      rewrite (memmove_right A B g []) by lia. by rewrite app_nil_r.
    - exists g. split; [nia|]. destruct B; [|cbn in HB; nia]. unfold i1. by rewrite !app_nil_r. }
  cbn [option_bind mbind]. rewrite s32_small by lia.
  rewrite (set_spec _ _ enc v A gap B) by done. cbn [option_bind mbind].
  eexists. split; [done|].
  apply rep_intro; cbn -[Z.of_nat take drop].
  - done.
  - done.
  - change (len_of be (set_contents (set_contents iset ?c) ?d)) with (len_of be iset).
    rewrite Hln, u32_small, length_insert_at by lia. f_equal. lia.
  - by rewrite flat_app, flat_cons.
  - rewrite <-(take_drop p l), Forall_app in Hra. apply Forall_app. destruct Hra. split; [done|by constructor].
  - apply (insert_sorted l v (Z.of_nat p)) in Hso; [|done]. by rewrite Nat2Z.id in Hso.
  - rewrite length_insert_at by lia. lia.
Qed.

Lemma add_spec iset enc l v :
  intset_rep iset enc l -> int64 v -> Z.of_nat (length l) + 1 < 2 ^ 29 ->
  exists iset' l', intsetAdd be junk iset v = Some (iset', bool_decide (v ∉ l)) /\
    intset_rep iset' (Z.max enc (_intsetValueEncoding v)) l' /\
    l' ≡ₚ (if bool_decide (v ∈ l) then l else v :: l).
Proof.
  intros Hr Hv Hn. pose proof (rep_enc _ _ _ Hr) as He. unfold intsetAdd.
  rewrite (rep_enc_of _ _ _ Hr). cbv zeta. destruct (Z.ltb_spec enc (_intsetValueEncoding v)) as [Hlt|Hge].
  - destruct (upgrade_spec _ _ _ _ Hr Hv Hlt Hn) as (iset' & -> & Hr').
    assert (v ∉ l) as Hvl.
    { intros Hin. pose proof (rep_range _ _ _ Hr) as Hf. rewrite Forall_forall in Hf.
      specialize (Hf _ Hin). apply (valueEncoding_least v) in Hf; [lia|done|done]. }
    rewrite bool_decide_eq_true_2, bool_decide_eq_false_2 by done. exists iset', (upgraded l v).
    rewrite Z.max_r by lia. split_and!; [done|done|apply upgraded_perm].
  - rewrite Z.max_l by lia. destruct (search_spec _ _ _ v Hr) as (found & pos & -> & Hso).
    pose proof (search_ok_in _ _ _ _ Hso) as Hf. cbn [option_bind mbind].
    rewrite bool_decide_not, <-Hf. destruct found; [by exists iset, l|].
    destruct (insert_spec _ _ _ _ _ Hr (proj1 (valueEncoding_least v enc Hv He) Hge) Hso Hn)
      as (iset' & Hi & Hr'). cbn [negb]. cbv zeta in Hi.
    destruct (if pos <? _ then _ else _) as [i1|]; cbn [option_bind mbind] in Hi |- *; [|done].
    destruct (_intsetSet be i1 (s32 pos) v) as [i2|]; cbn [option_bind mbind] in Hi |- *; [|done].
    injection Hi as ->. eexists _, _. split_and!; [done|done|].
    by rewrite <-Permutation_middle, take_drop.
Qed.

Lemma remove_spec iset enc l v :
  intset_rep iset enc l -> int64 v ->
  exists iset' l', intsetRemove be junk iset v = Some (iset', bool_decide (v ∈ l)) /\
    intset_rep iset' enc l' /\ (if bool_decide (v ∈ l) then l ≡ₚ v :: l' else l' = l).
Proof.
  intros Hr Hv. pose proof (rep_enc_of _ _ _ Hr) as Heo. pose proof (rep_len_of _ _ _ Hr) as Hln.
  pose proof Hr as [He Hen Hil Hc Hra Hs Hb].
  unfold intsetRemove. rewrite Heo. cbv zeta.
  destruct (Z.leb_spec (_intsetValueEncoding v) enc) as [Hle|Hlt].
  2:{ rewrite bool_decide_eq_false_2; [by exists iset, l|].
      intros Hin. rewrite Forall_forall in Hra. specialize (Hra _ Hin).
      apply (valueEncoding_least v) in Hra; [lia|done|done]. }
  destruct (search_spec _ _ _ v Hr) as (found & pos & -> & Hso).
  pose proof (search_ok_in _ _ _ _ Hso) as <-. cbn [option_bind mbind].
  destruct found; [|by exists iset, l]. destruct Hso as [Hp Hl].
  destruct (Z_of_nat_complete pos) as [p ->]; [lia|]. rewrite Nat2Z.id in *.
  pose proof (lookup_lt_Some _ _ _ Hl) as Hpl.
  rewrite Hln, (u32_small (Z.of_nat (length l) - 1)) by lia.
  rewrite <-(take_drop_middle l p v Hl), flat_app, flat_cons in Hc.
  set (A := flat (Z.to_nat enc) (take p l)) in *. set (B := flat (Z.to_nat enc) (drop (S p) l)) in *.
  assert (Z.of_nat (length A) = Z.of_nat p * enc) as HA by (apply length_flat_take; [done|lia]).
  assert (Z.of_nat (length B) = (Z.of_nat (length l) - Z.of_nat (S p)) * enc) as HB
    by (apply length_flat_drop; [done|lia]).
  assert (Z.of_nat (length (le_bytes (Z.to_nat enc) v)) = enc) as HX
    by (rewrite length_le_bytes; destruct He as [->|[->| ->]]; lia).
  set (X := le_bytes (Z.to_nat enc) v) in *.
  assert (exists d, (if Z.of_nat p <? Z.of_nat (length l) - 1 then intsetMoveTail be iset (u32 (Z.of_nat p + 1)) (Z.of_nat p)
      else Some iset) = Some (set_contents iset ((A ++ B) ++ d))) as (d & ->).
  { destruct (Z.ltb_spec (Z.of_nat p) (Z.of_nat (length l) - 1)).
    - rewrite u32_small by lia. rewrite (moveTail_eq iset enc _ _ (Z.of_nat (length l))) by (done || lia).
      rewrite Nat2Z.inj_succ in HB. rewrite Hc. replace (A ++ X ++ B) with (A ++ X ++ B ++ []) by by rewrite app_nil_r.
      rewrite (memmove_left A X B []) by lia. cbn [option_bind mbind].
      rewrite (app_assoc A B). eexists. reflexivity.
    - exists X. destruct B; [|cbn in HB; destruct He as [->|[->| ->]]; lia].
      rewrite app_nil_r in Hc |- *. rewrite <-Hc. by destruct iset. }
  cbn [option_bind mbind].
  rewrite (resize_shrink _ enc (A ++ B) d) by (done || lia || (rewrite length_app; nia)).
  eexists _, (take p l ++ drop (S p) l). split; [done|].
  assert (length (take p l ++ drop (S p) l) = (length l - 1)%nat) as Hlen
    by (rewrite length_app, length_take, length_drop; lia).
  split.
  - apply rep_intro; cbn -[Z.of_nat take drop]; [done|done| | | |by apply delete_sorted|lia].
    + f_equal. lia.
    + by rewrite flat_app.
    + rewrite <-(take_drop_middle l p v Hl), Forall_app in Hra. destruct Hra as [? Hra].
      inversion Hra. by apply Forall_app.
  - rewrite <-(take_drop_middle l p v Hl) at 1. by rewrite <-Permutation_middle.
Qed.

Lemma find_spec iset enc l v :
  intset_rep iset enc l -> int64 v -> intsetFind be iset v = Some (bool_decide (v ∈ l)).
Proof.
  intros Hr Hv. pose proof (rep_enc _ _ _ Hr) as He. pose proof (rep_range _ _ _ Hr) as Hra.
  unfold intsetFind. rewrite (rep_enc_of _ _ _ Hr). cbv zeta.
  destruct (Z.leb_spec (_intsetValueEncoding v) enc) as [Hle|Hlt].
  - destruct (search_spec _ _ _ v Hr) as (found & pos & -> & Hso).
    by rewrite <-(search_ok_in _ _ _ _ Hso).
  - rewrite bool_decide_eq_false_2; [done|]. intros Hin. rewrite Forall_forall in Hra.
    specialize (Hra _ Hin). apply (valueEncoding_least v) in Hra; [lia|done|done].
Qed.

Lemma new_rep : intset_rep (intsetNew be) 2 [].
Proof.
  constructor; try done; [by left|by destruct be|constructor].
Qed.
End Rep.
