(* ===== verification/IntsetSpec.v ===== *)
(** IntsetSpec: the intset refines a finite set of integers; its search,
    upgrade and memory image. *)
From stdpp Require Import sorting.
From S2P Require Import Prelude Endian Intset IntsetProofs.

(** ** The operations of a client and the set they act on *)

Inductive is_op := IsAdd (v : Z) | IsRemove (v : Z) | IsFind (v : Z) | IsGet (pos : nat) | IsLen.

Inductive is_res := RBool (b : bool) | RGet (v : option Z) | RNum (n : Z).

Definition run_is_op (be : bool) (junk : nat -> byte) (iset : intset) (o : is_op)
    : option (intset * is_res) :=
  match o with
  | IsAdd v => '(i, b) ← intsetAdd be junk iset v; Some (i, RBool b)
  | IsRemove v => '(i, b) ← intsetRemove be junk iset v; Some (i, RBool b)
  | IsFind v => b ← intsetFind be iset v; Some (iset, RBool b)
  | IsGet pos => r ← intsetGet be iset (Z.of_nat pos); Some (iset, RGet r)
  | IsLen => Some (iset, RNum (intsetLen be iset))
  end.

Fixpoint run_is (be : bool) (junk : nat -> byte) (iset : intset) (os : list is_op)
    : option (intset * list is_res) :=
  match os with
  | [] => Some (iset, [])
  | o :: os => '(i, r) ← run_is_op be junk iset o; '(i, rs) ← run_is be junk i os; Some (i, r :: rs)
  end.

(** The specification: a finite set of integers and the widest encoding any
    added value has needed so far. *)
Record is_spec := IsSpec { sp_set : gset Z; sp_enc : Z }.

Definition ascending (s : gset Z) : list Z := merge_sort Z.le (elements s).

Definition spec_is_op (sp : is_spec) (o : is_op) : is_spec * is_res :=
  let s := sp_set sp in
  match o with
  | IsAdd v => (IsSpec ({[v]} ∪ s) (Z.max (sp_enc sp) (_intsetValueEncoding v)), RBool (bool_decide (v ∉ s)))
  | IsRemove v => (IsSpec (s ∖ {[v]}) (sp_enc sp), RBool (bool_decide (v ∈ s)))
  | IsFind v => (sp, RBool (bool_decide (v ∈ s)))
  | IsGet pos => (sp, RGet (ascending s !! pos))
  | IsLen => (sp, RNum (Z.of_nat (size s)))
  end.

Fixpoint spec_is (sp : is_spec) (os : list is_op) : is_spec * list is_res :=
  match os with
  | [] => (sp, [])
  | o :: os => let '(sp, r) := spec_is_op sp o in
               let '(sp, rs) := spec_is sp os in (sp, r :: rs)
  end.

Definition op_ok (o : is_op) : Prop :=
  match o with
  | IsAdd v | IsRemove v | IsFind v => int64 v
  | IsGet pos => Z.of_nat pos < 2 ^ 32
  | IsLen => True
  end.
#[export] Instance op_ok_dec o : Decision (op_ok o).
Proof. destruct o; unfold op_ok, int64; apply _. Defined.

(** The memory image: the header words as the host stores them, then the elements. *)
Definition is_image (be : bool) (iset : intset) : list byte :=
  host_store be 4 (encoding iset) ++ host_store be 4 (is_length iset) ++ contents iset.

Definition spec_image (sp : is_spec) : list byte :=
  le_bytes 4 (sp_enc sp) ++ le_bytes 4 (Z.of_nat (size (sp_set sp)))
  ++ flat (Z.to_nat (sp_enc sp)) (ascending (sp_set sp)).

Section Refine.
Context (be : bool) (junk : nat -> byte).
Implicit Types (l : list Z) (s : gset Z).

Definition refines (iset : intset) (sp : is_spec) : Prop :=
  exists l, intset_rep be iset (sp_enc sp) l /\ l ≡ₚ elements (sp_set sp).

Lemma sorted_lt_le l : StronglySorted Z.lt l -> Sorted Z.le l.
Proof.
  intros H. apply StronglySorted_Sorted. induction H as [|x l _ IH Hf]; constructor; [done|].
  eapply Forall_impl; [exact Hf|]. cbn. lia.
Qed.

Lemma ascending_unique l s : StronglySorted Z.lt l -> l ≡ₚ elements s -> l = ascending s.
Proof.
  intros Hs Hp. apply (Sorted_unique Z.le).
  - by apply sorted_lt_le.
  - apply Sorted_merge_sort. apply _.
  - rewrite Hp. unfold ascending. by rewrite merge_sort_Permutation.
Qed.

Lemma refines_elem iset sp v l :
  intset_rep be iset (sp_enc sp) l -> l ≡ₚ elements (sp_set sp) -> v ∈ l <-> v ∈ sp_set sp.
Proof. intros _ ->. apply elem_of_elements. Qed.

Lemma refines_length iset sp l :
  intset_rep be iset (sp_enc sp) l -> l ≡ₚ elements (sp_set sp) ->
  Z.of_nat (length l) = Z.of_nat (size (sp_set sp)).
Proof. by intros _ ->. Qed.

Lemma refines_image iset sp : refines iset sp -> is_image be iset = spec_image sp.
Proof.
  intros (l & Hr & Hp). pose proof (refines_length _ _ _ Hr Hp) as Hl.
  destruct Hr as [_ He Hn Hc _ Hs _]. unfold is_image, spec_image.
  rewrite He, Hn, Hc, !host_store_intrev32, Hl, <-(ascending_unique l); done.
Qed.

Lemma get_refines iset sp pos :
  refines iset sp -> Z.of_nat pos < 2 ^ 32 ->
  intsetGet be iset (Z.of_nat pos) = Some (ascending (sp_set sp) !! pos).
Proof.
  intros (l & Hr & Hp) Hpos. rewrite <-(ascending_unique l _ (rep_sorted _ _ _ _ Hr) Hp).
  unfold intsetGet. rewrite (rep_len_of _ _ _ _ Hr). pose proof (rep_bound _ _ _ _ Hr).
  destruct (Z.ltb_spec (Z.of_nat pos) (Z.of_nat (length l))) as [Hlt|Hge].
  - rewrite s32_small by lia. destruct (lookup_lt_is_Some_2 l pos) as [v Hv]; [lia|].
    rewrite (get_spec _ _ _ _ _ _ Hr Hv), Hv. done.
  - by rewrite lookup_ge_None_2 by lia.
Qed.

Lemma run_is_op_refines iset sp o :
  refines iset sp -> op_ok o -> Z.of_nat (size (sp_set sp)) + 1 < 2 ^ 29 ->
  exists iset', run_is_op be junk iset o = Some (iset', snd (spec_is_op sp o)) /\
                refines iset' (fst (spec_is_op sp o)).
Proof.
  intros Href Ho Hb. pose proof Href as (l & Hr & Hp).
  pose proof (fun v => refines_elem _ _ v _ Hr Hp) as Hin. pose proof (refines_length _ _ _ Hr Hp) as Hl.
  destruct o as [v|v|v|pos|]; cbn -[bool_decide] in *.
  - destruct (add_spec be junk _ _ _ v Hr Ho) as (i' & l' & -> & Hr' & Hp'); [lia|].
    exists i'. split; [cbn; do 3 f_equal; apply bool_decide_ext; by rewrite Hin|].
    exists l'. split; [done|]. rewrite Hp'. cbn [sp_set]. case_bool_decide as Hv.
    + assert (v ∈ sp_set sp) by by apply Hin. by replace ({[v]} ∪ sp_set sp) with (sp_set sp) by set_solver.
    + rewrite elements_union_singleton by (by rewrite <-Hin). by rewrite Hp.
  - destruct (remove_spec be junk _ _ _ v Hr Ho) as (i' & l' & -> & Hr' & Hp').
    exists i'. split; [cbn; do 3 f_equal; by apply bool_decide_ext|].
    exists l'. split; [done|]. cbn [sp_set]. case_bool_decide as Hv.
    + apply (Permutation_cons_inv (a := v)). rewrite <-Hp', Hp.
      rewrite <-elements_union_singleton by set_solver.
      assert (v ∈ sp_set sp) by by apply Hin.
      by replace ({[v]} ∪ sp_set sp ∖ {[v]}) with (sp_set sp) by (by rewrite <-union_difference_singleton_L).
    + assert (v ∉ sp_set sp) by by rewrite <-Hin. subst. by replace (sp_set sp ∖ {[v]}) with (sp_set sp) by set_solver.
  - rewrite (find_spec be junk _ _ _ _ Hr Ho). exists iset. split; [cbn; do 3 f_equal; by apply bool_decide_ext|done].
  - rewrite (get_refines _ _ _ Href Ho). by exists iset.
  - exists iset. split; [|done]. unfold intsetLen. by rewrite (rep_len_of _ _ _ _ Hr), Hl.
Qed.

Lemma size_spec_op sp o : (size (sp_set (fst (spec_is_op sp o))) <= S (size (sp_set sp)))%nat.
Proof.
  destruct o; cbn; try lia.
  - rewrite size_union_alt, size_singleton.
    assert (size (sp_set sp ∖ {[v]}) <= size (sp_set sp))%nat by (apply subseteq_size; set_solver). lia.
  - apply Nat.le_le_succ_r, subseteq_size. set_solver.
Qed.

Lemma run_is_refines os : forall iset sp,
  refines iset sp -> Forall op_ok os ->
  Z.of_nat (size (sp_set sp)) + Z.of_nat (length os) < 2 ^ 29 ->
  exists iset', run_is be junk iset os = Some (iset', snd (spec_is sp os)) /\
                refines iset' (fst (spec_is sp os)).
Proof.
  induction os as [|o os IH]; intros iset sp Hr Hos Hb; [by exists iset|].
  inversion Hos as [|? ? Ho Hos']; subst. cbn [length] in Hb.
  destruct (run_is_op_refines iset sp o Hr Ho) as (i1 & E1 & Hr1); [lia|].
  pose proof (size_spec_op sp o) as Hsz. cbn [run_is spec_is]. rewrite E1. cbn [option_bind mbind].
  destruct (spec_is_op sp o) as [sp1 r1]. cbn [fst snd] in *.
  destruct (IH i1 sp1 Hr1 Hos') as (i2 & E2 & Hr2); [lia|]. rewrite E2. cbn [option_bind mbind].
  destruct (spec_is sp1 os) as [sp2 rs]. by exists i2.
Qed.

Lemma new_refines : refines (intsetNew be) (IsSpec ∅ 2).
Proof. exists []. split; [apply new_rep|done]. Qed.
End Refine.

(** ** Theorems *)

(** C10: every sequence of fewer than 2^29 additions, removals, searches and
    lookups by position on a fresh intset stays within its memory and gives
    the results of the same operations on a finite set of integers (positions
    in ascending order); at the end the intset is, byte for byte, the header
    and the ascending elements at the width of the widest value ever added. *)
Theorem intset_refines_set be junk os :
  Forall op_ok os -> Z.of_nat (length os) < 2 ^ 29 ->
  exists iset, run_is be junk (intsetNew be) os = Some (iset, snd (spec_is (IsSpec ∅ 2) os)) /\
    is_image be iset = spec_image (fst (spec_is (IsSpec ∅ 2) os)).
Proof.
  intros Hos Hl.
  destruct (run_is_refines be junk os (intsetNew be) (IsSpec ∅ 2)) as (iset & E & Hr);
    [apply new_refines|done|by cbn [sp_set]; rewrite size_empty|].
  exists iset. split; [done|]. by apply (refines_image be).
Qed.

Definition sample_ops : list is_op :=
  [IsAdd 5; IsAdd (-3); IsAdd 70000; IsAdd 5; IsFind 70000; IsRemove (-3); IsAdd (-5000000000);
   IsGet 0; IsGet 2; IsGet 9; IsRemove 8; IsLen].

Lemma intset_refines_set_witness :
  Forall op_ok sample_ops /\
  exists iset, run_is true (fun _ => z2b 7) (intsetNew true) sample_ops
    = Some (iset, snd (spec_is (IsSpec ∅ 2) sample_ops)) /\
    is_image true iset = spec_image (fst (spec_is (IsSpec ∅ 2) sample_ops)).
Proof.
  assert (Forall op_ok sample_ops) as H by (apply (bool_decide_unpack _); vm_compute; exact I).
  split; [exact H|]. apply intset_refines_set; [exact H|reflexivity].
Defined.

(** The serialized form of an intset is portable: two hosts of any byte
    order that perform the same operations hold the same bytes and give the
    same answers, whatever uninitialised memory contains. *)
Theorem intset_portable be be' junk junk' os :
  Forall op_ok os -> Z.of_nat (length os) < 2 ^ 29 ->
  exists i i' rs, run_is be junk (intsetNew be) os = Some (i, rs) /\
    run_is be' junk' (intsetNew be') os = Some (i', rs) /\ is_image be i = is_image be' i'.
Proof.
  intros Hos Hl.
  destruct (run_is_refines be junk os (intsetNew be) (IsSpec ∅ 2)) as (i & E & Hr);
    [apply new_refines|done|by cbn [sp_set]; rewrite size_empty|].
  destruct (run_is_refines be' junk' os (intsetNew be') (IsSpec ∅ 2)) as (i' & E' & Hr');
    [apply new_refines|done|by cbn [sp_set]; rewrite size_empty|].
  exists i, i', (snd (spec_is (IsSpec ∅ 2) os)). split_and!; [done|done|].
  by rewrite (refines_image be i _ Hr), (refines_image be' i' _ Hr').
Qed.

Lemma intset_portable_witness :
  exists i i' rs, run_is true (fun n => z2b (Z.of_nat n)) (intsetNew true) sample_ops = Some (i, rs) /\
    run_is false (fun _ => z2b 7) (intsetNew false) sample_ops = Some (i', rs) /\
    is_image true i = is_image false i'.
Proof. apply intset_portable; [apply (bool_decide_unpack _); vm_compute; exact I|reflexivity]. Defined.

(** On an intset that represents the ascending list [l], the binary search
    terminates and reports whether the value is a member, with its position,
    or else the only position where inserting it keeps the order. *)
Theorem intsetSearch_rank be iset enc l v :
  intset_rep be iset enc l -> int64 v ->
  exists found pos, intsetSearch be iset v = Some (found, pos) /\
    found = bool_decide (v ∈ l) /\
    pos = Z.of_nat (length (filter (fun x => x < v) l)) /\
    (found = true -> intsetGet be iset pos = Some (Some v)).
Proof.
  intros Hr Hv. destruct (search_spec be (fun _ => z2b 0) _ _ _ v Hr) as (found & pos & -> & Hso).
  exists found, pos. split; [done|]. split; [by eapply search_ok_in|].
  pose proof (rep_sorted _ _ _ _ Hr) as Hs. destruct Hso as [Hp Hso]. split.
  - assert (Forall (fun x => x < v) (take (Z.to_nat pos) l) /\
            Forall (fun x => ~ x < v) (drop (Z.to_nat pos) l)) as [Hlo Hhi].
    { destruct found.
      - rewrite <-(take_drop_middle _ _ _ Hso) in Hs. apply StronglySorted_app in Hs as (H1 & _ & H3).
        apply StronglySorted_cons in H3 as [H3 _]. split.
        + apply Forall_forall. intros x Hx. apply H1; [done|set_solver].
        + rewrite (drop_S _ _ _ Hso). constructor; [lia|]. eapply Forall_impl; [exact H3|]. cbn. lia.
      - destruct Hso as [Hlo Hhi]. split; [done|]. eapply Forall_impl; [exact Hhi|]. cbn. lia. }
    rewrite <-(take_drop (Z.to_nat pos) l) at 1. rewrite filter_app, length_app.
    rewrite (list_filter_all _ _ Hlo), (list_filter_none _ _ Hhi), length_take. cbn [length]. lia.
  - intros ->. unfold intsetGet. rewrite (rep_len_of _ _ _ _ Hr).
    pose proof (lookup_lt_Some _ _ _ Hso). pose proof (rep_bound _ _ _ _ Hr).
    rewrite (proj2 (Z.ltb_lt _ _)) by lia. rewrite s32_small by lia.
    replace pos with (Z.of_nat (Z.to_nat pos)) by lia. by rewrite (get_spec _ _ _ _ _ _ Hr Hso).
Qed.

Definition sample_intset : intset := Intset 2 3 (flat 2 [-5; 3; 9]).

Lemma sample_rep : intset_rep false sample_intset 2 [-5; 3; 9].
Proof. constructor; [by left|done|done|done| | |done]; repeat constructor; done. Qed.

Lemma intsetSearch_rank_witness :
  exists found pos, intsetSearch false sample_intset 4 = Some (found, pos) /\
    found = bool_decide (4 ∈ [-5; 3; 9]) /\
    pos = Z.of_nat (length (filter (fun x => x < 4) [-5; 3; 9])) /\
    (found = true -> intsetGet false sample_intset pos = Some (Some 4)).
Proof. apply (intsetSearch_rank false sample_intset 2); [apply sample_rep|by split]. Defined.

(** Upgrading in place keeps every element although source and
    destination overlap: adding a value too wide for the current encoding
    yields the old elements and the value, ascending, all at the narrowest
    encoding that holds it, and the reported size is the size of the block. *)
Theorem intsetUpgradeAndAdd_keeps be junk iset enc l v :
  intset_rep be iset enc l -> int64 v -> enc < _intsetValueEncoding v ->
  Z.of_nat (length l) + 1 < 2 ^ 29 ->
  exists iset' l', intsetAdd be junk iset v = Some (iset', true) /\
    intset_rep be iset' (_intsetValueEncoding v) l' /\ l' ≡ₚ v :: l /\
    (forall e, enc_ok e -> e < _intsetValueEncoding v -> ~ in_enc e v) /\
    intsetBlobLen be iset' = Z.of_nat (length (is_image be iset')).
Proof.
  intros Hr Hv Hlt Hn. destruct (upgrade_spec be junk _ _ _ _ Hr Hv Hlt Hn) as (i' & E & Hr').
  exists i', (upgraded l v). split_and!; [|done|apply upgraded_perm| |].
  - unfold intsetAdd. rewrite (rep_enc_of _ _ _ _ Hr). cbv zeta.
    by rewrite (proj2 (Z.ltb_lt _ _) Hlt), E.
  - intros e He Hlte Hin. apply valueEncoding_least in Hin; [lia|done|done].
  - unfold intsetBlobLen, is_image, sizeof_intset.
    rewrite (rep_len_of _ _ _ _ Hr'), (rep_enc_of _ _ _ _ Hr').
    pose proof (rep_bound _ _ _ _ Hr'). rewrite (rep_contents _ _ _ _ Hr').
    rewrite !length_app, !length_host_store, length_flat.
    destruct (rep_enc _ _ _ _ Hr') as [->|[->| ->]]; rewrite u32_small, u64_small by lia; lia.
Qed.

Lemma intsetUpgradeAndAdd_keeps_witness :
  exists iset' l', intsetAdd false (fun _ => z2b 1) sample_intset (-40000) = Some (iset', true) /\
    intset_rep false iset' (_intsetValueEncoding (-40000)) l' /\ l' ≡ₚ -40000 :: [-5; 3; 9] /\
    (forall e, enc_ok e -> e < _intsetValueEncoding (-40000) -> ~ in_enc e (-40000)) /\
    intsetBlobLen false iset' = Z.of_nat (length (is_image false iset')).
Proof.
  apply (intsetUpgradeAndAdd_keeps false _ sample_intset 2);
    [apply sample_rep|by split|reflexivity|reflexivity].
Defined.

(** On a non-empty set, [intsetRandom] stays in bounds, returns only
    members for every value of [rand()], and returns each member for some
    value of [rand()] in its range. *)
Theorem intsetRandom_members be iset enc l :
  intset_rep be iset enc l -> l <> [] ->
  (forall r, exists v, intsetRandom be iset r = Some v /\ v ∈ l) /\
  (forall v, v ∈ l -> exists r, 0 <= r < 2 ^ 31 /\ intsetRandom be iset r = Some v).
Proof.
  intros Hr Hl. unfold intsetRandom. rewrite (rep_len_of _ _ _ _ Hr).
  pose proof (rep_bound _ _ _ _ Hr). assert (length l <> 0%nat) by by destruct l.
  rewrite (proj2 (Z.eqb_neq _ _)) by lia. split.
  - intros r. pose proof (Z.mod_pos_bound (u32 r) (Z.of_nat (length l))).
    rewrite s32_small by lia. set (m := u32 r mod _) in *.
    destruct (lookup_lt_is_Some_2 l (Z.to_nat m)) as [v Hv]; [lia|]. exists v.
    replace m with (Z.of_nat (Z.to_nat m)) by lia.
    rewrite (get_spec _ _ _ _ _ _ Hr Hv). split; [done|by eapply list_elem_of_lookup_2].
  - intros v [i Hi]%list_elem_of_lookup. pose proof (lookup_lt_Some _ _ _ Hi).
    exists (Z.of_nat i). split; [lia|]. rewrite u32_small, Z.mod_small, s32_small by lia.
    by apply (get_spec _ _ _ _ _ _ Hr).
Qed.

Lemma intsetRandom_members_witness :
  (forall r, exists v, intsetRandom false sample_intset r = Some v /\ v ∈ [-5; 3; 9]) /\
  (forall v, v ∈ [-5; 3; 9] -> exists r, 0 <= r < 2 ^ 31 /\ intsetRandom false sample_intset r = Some v).
Proof. apply (intsetRandom_members false sample_intset 2); [apply sample_rep|discriminate]. Defined.
