(* ===== verification/Crc64.v ===== *)
(** Crc64: the checksum of [crc64.c] (variant Jones). *)
From S2P Require Import Prelude.

Definition crc64_tab : list Z :=
  [
   0x0000000000000000; 0x7ad870c830358979; 0xf5b0e190606b12f2; 0x8f689158505e9b8b;
   0xc038e5739841b68f; 0xbae095bba8743ff6; 0x358804e3f82aa47d; 0x4f50742bc81f2d04;
   0xab28ecb46814fe75; 0xd1f09c7c5821770c; 0x5e980d24087fec87; 0x24407dec384a65fe;
   0x6b1009c7f05548fa; 0x11c8790fc060c183; 0x9ea0e857903e5a08; 0xe478989fa00bd371;
   0x7d08ff3b88be6f81; 0x07d08ff3b88be6f8; 0x88b81eabe8d57d73; 0xf2606e63d8e0f40a;
   0xbd301a4810ffd90e; 0xc7e86a8020ca5077; 0x4880fbd87094cbfc; 0x32588b1040a14285;
   0xd620138fe0aa91f4; 0xacf86347d09f188d; 0x2390f21f80c18306; 0x594882d7b0f40a7f;
   0x1618f6fc78eb277b; 0x6cc0863448deae02; 0xe3a8176c18803589; 0x997067a428b5bcf0;
   0xfa11fe77117cdf02; 0x80c98ebf2149567b; 0x0fa11fe77117cdf0; 0x75796f2f41224489;
   0x3a291b04893d698d; 0x40f16bccb908e0f4; 0xcf99fa94e9567b7f; 0xb5418a5cd963f206;
   0x513912c379682177; 0x2be1620b495da80e; 0xa489f35319033385; 0xde51839b2936bafc;
   0x9101f7b0e12997f8; 0xebd98778d11c1e81; 0x64b116208142850a; 0x1e6966e8b1770c73;
   0x8719014c99c2b083; 0xfdc17184a9f739fa; 0x72a9e0dcf9a9a271; 0x08719014c99c2b08;
   0x4721e43f0183060c; 0x3df994f731b68f75; 0xb29105af61e814fe; 0xc849756751dd9d87;
   0x2c31edf8f1d64ef6; 0x56e99d30c1e3c78f; 0xd9810c6891bd5c04; 0xa3597ca0a188d57d;
   0xec09088b6997f879; 0x96d1784359a27100; 0x19b9e91b09fcea8b; 0x636199d339c963f2;
   0xdf7adabd7a6e2d6f; 0xa5a2aa754a5ba416; 0x2aca3b2d1a053f9d; 0x50124be52a30b6e4;
   0x1f423fcee22f9be0; 0x659a4f06d21a1299; 0xeaf2de5e82448912; 0x902aae96b271006b;
   0x74523609127ad31a; 0x0e8a46c1224f5a63; 0x81e2d7997211c1e8; 0xfb3aa75142244891;
   0xb46ad37a8a3b6595; 0xceb2a3b2ba0eecec; 0x41da32eaea507767; 0x3b024222da65fe1e;
   0xa2722586f2d042ee; 0xd8aa554ec2e5cb97; 0x57c2c41692bb501c; 0x2d1ab4dea28ed965;
   0x624ac0f56a91f461; 0x1892b03d5aa47d18; 0x97fa21650afae693; 0xed2251ad3acf6fea;
   0x095ac9329ac4bc9b; 0x7382b9faaaf135e2; 0xfcea28a2faafae69; 0x8632586aca9a2710;
   0xc9622c4102850a14; 0xb3ba5c8932b0836d; 0x3cd2cdd162ee18e6; 0x460abd1952db919f;
   0x256b24ca6b12f26d; 0x5fb354025b277b14; 0xd0dbc55a0b79e09f; 0xaa03b5923b4c69e6;
   0xe553c1b9f35344e2; 0x9f8bb171c366cd9b; 0x10e3202993385610; 0x6a3b50e1a30ddf69;
   0x8e43c87e03060c18; 0xf49bb8b633338561; 0x7bf329ee636d1eea; 0x012b592653589793;
   0x4e7b2d0d9b47ba97; 0x34a35dc5ab7233ee; 0xbbcbcc9dfb2ca865; 0xc113bc55cb19211c;
   0x5863dbf1e3ac9dec; 0x22bbab39d3991495; 0xadd33a6183c78f1e; 0xd70b4aa9b3f20667;
   0x985b3e827bed2b63; 0xe2834e4a4bd8a21a; 0x6debdf121b863991; 0x1733afda2bb3b0e8;
   0xf34b37458bb86399; 0x8993478dbb8deae0; 0x06fbd6d5ebd3716b; 0x7c23a61ddbe6f812;
   0x3373d23613f9d516; 0x49aba2fe23cc5c6f; 0xc6c333a67392c7e4; 0xbc1b436e43a74e9d;
   0x95ac9329ac4bc9b5; 0xef74e3e19c7e40cc; 0x601c72b9cc20db47; 0x1ac40271fc15523e;
   0x5594765a340a7f3a; 0x2f4c0692043ff643; 0xa02497ca54616dc8; 0xdafce7026454e4b1;
   0x3e847f9dc45f37c0; 0x445c0f55f46abeb9; 0xcb349e0da4342532; 0xb1eceec59401ac4b;
   0xfebc9aee5c1e814f; 0x8464ea266c2b0836; 0x0b0c7b7e3c7593bd; 0x71d40bb60c401ac4;
   0xe8a46c1224f5a634; 0x927c1cda14c02f4d; 0x1d148d82449eb4c6; 0x67ccfd4a74ab3dbf;
   0x289c8961bcb410bb; 0x5244f9a98c8199c2; 0xdd2c68f1dcdf0249; 0xa7f41839ecea8b30;
   0x438c80a64ce15841; 0x3954f06e7cd4d138; 0xb63c61362c8a4ab3; 0xcce411fe1cbfc3ca;
   0x83b465d5d4a0eece; 0xf96c151de49567b7; 0x76048445b4cbfc3c; 0x0cdcf48d84fe7545;
   0x6fbd6d5ebd3716b7; 0x15651d968d029fce; 0x9a0d8ccedd5c0445; 0xe0d5fc06ed698d3c;
   0xaf85882d2576a038; 0xd55df8e515432941; 0x5a3569bd451db2ca; 0x20ed197575283bb3;
   0xc49581ead523e8c2; 0xbe4df122e51661bb; 0x3125607ab548fa30; 0x4bfd10b2857d7349;
   0x04ad64994d625e4d; 0x7e7514517d57d734; 0xf11d85092d094cbf; 0x8bc5f5c11d3cc5c6;
   0x12b5926535897936; 0x686de2ad05bcf04f; 0xe70573f555e26bc4; 0x9ddd033d65d7e2bd;
   0xd28d7716adc8cfb9; 0xa85507de9dfd46c0; 0x273d9686cda3dd4b; 0x5de5e64efd965432;
   0xb99d7ed15d9d8743; 0xc3450e196da80e3a; 0x4c2d9f413df695b1; 0x36f5ef890dc31cc8;
   0x79a59ba2c5dc31cc; 0x037deb6af5e9b8b5; 0x8c157a32a5b7233e; 0xf6cd0afa9582aa47;
   0x4ad64994d625e4da; 0x300e395ce6106da3; 0xbf66a804b64ef628; 0xc5bed8cc867b7f51;
   0x8aeeace74e645255; 0xf036dc2f7e51db2c; 0x7f5e4d772e0f40a7; 0x05863dbf1e3ac9de;
   0xe1fea520be311aaf; 0x9b26d5e88e0493d6; 0x144e44b0de5a085d; 0x6e963478ee6f8124;
   0x21c640532670ac20; 0x5b1e309b16452559; 0xd476a1c3461bbed2; 0xaeaed10b762e37ab;
   0x37deb6af5e9b8b5b; 0x4d06c6676eae0222; 0xc26e573f3ef099a9; 0xb8b627f70ec510d0;
   0xf7e653dcc6da3dd4; 0x8d3e2314f6efb4ad; 0x0256b24ca6b12f26; 0x788ec2849684a65f;
   0x9cf65a1b368f752e; 0xe62e2ad306bafc57; 0x6946bb8b56e467dc; 0x139ecb4366d1eea5;
   0x5ccebf68aecec3a1; 0x2616cfa09efb4ad8; 0xa97e5ef8cea5d153; 0xd3a62e30fe90582a;
   0xb0c7b7e3c7593bd8; 0xca1fc72bf76cb2a1; 0x45775673a732292a; 0x3faf26bb9707a053;
   0x70ff52905f188d57; 0x0a2722586f2d042e; 0x854fb3003f739fa5; 0xff97c3c80f4616dc;
   0x1bef5b57af4dc5ad; 0x61372b9f9f784cd4; 0xee5fbac7cf26d75f; 0x9487ca0fff135e26;
   0xdbd7be24370c7322; 0xa10fceec0739fa5b; 0x2e675fb4576761d0; 0x54bf2f7c6752e8a9;
   0xcdcf48d84fe75459; 0xb71738107fd2dd20; 0x387fa9482f8c46ab; 0x42a7d9801fb9cfd2;
   0x0df7adabd7a6e2d6; 0x772fdd63e7936baf; 0xf8474c3bb7cdf024; 0x829f3cf387f8795d;
   0x66e7a46c27f3aa2c; 0x1c3fd4a417c62355; 0x935745fc4798b8de; 0xe98f353477ad31a7;
   0xa6df411fbfb21ca3; 0xdc0731d78f8795da; 0x536fa08fdfd90e51; 0x29b7d047efec8728
  ].

(** [crc64_tab[(uint8_t)crc ^ byte] ^ (crc >> 8)] *)
Definition crc64_step (crc : Z) (byte : byte) : Z :=
  Z.lxor (nth (Z.to_nat (Z.lxor (u8 crc) (b2z byte))) crc64_tab 0) (Z.shiftr crc 8).

Fixpoint crc64 (crc : Z) (s : list byte) : Z :=
  match s with
  | [] => crc
  | byte :: s' => crc64 (crc64_step crc byte) s'
  end.

(** ** The specification: one bit at a time, reflected polynomial *)

Definition crc64_poly : Z := 0x95ac9329ac4bc9b5.

Definition bit_step (c : Z) : Z :=
  if Z.odd c then Z.lxor (Z.shiftr c 1) crc64_poly else Z.shiftr c 1.

Definition byte_step (c : Z) (b : byte) : Z := Nat.iter 8 bit_step (Z.lxor c (b2z b)).

Fixpoint crc64_bitwise (c : Z) (s : list byte) : Z :=
  match s with
  | [] => c
  | b :: s' => crc64_bitwise (byte_step c b) s'
  end.

(** The polynomial the header of the source gives, bits reversed. *)
Fixpoint reflect (n : nat) (z : Z) : Z :=
  match n with
  | O => 0
  | S n' => Z.lor (Z.shiftl (z mod 2) (Z.of_nat n')) (reflect n' (z / 2))
  end.

(** ** Lemmas *)

Lemma bit_step_lxor a b : bit_step (Z.lxor a b) = Z.lxor (bit_step a) (bit_step b).
Proof.
  unfold bit_step. rewrite <-!Z.bit0_odd, Z.lxor_spec, Z.shiftr_lxor.
  destruct (Z.testbit a 0), (Z.testbit b 0); cbn [xorb]; bits.
Qed.

Lemma bit_steps_lxor n a b :
  Nat.iter n bit_step (Z.lxor a b) = Z.lxor (Nat.iter n bit_step a) (Nat.iter n bit_step b).
Proof. induction n as [|n IH]; [done|]. by rewrite !Nat.iter_succ, IH, bit_step_lxor. Qed.

Lemma bit_steps_shiftl n : forall h, Nat.iter n bit_step (Z.shiftl h (Z.of_nat n)) = h.
Proof.
  induction n as [|n IH]; intros h; [apply Z.shiftl_0_r|].
  rewrite Nat.iter_succ_r. unfold bit_step at 2.
  assert (Z.shiftl h (Z.of_nat (S n)) = 2 * Z.shiftl h (Z.of_nat n)) as ->.
  { rewrite !Z.shiftl_mul_pow2, Nat2Z.inj_succ, Z.pow_succ_r by lia. lia. }
  rewrite Z.odd_mul. cbn [Z.odd andb]. rewrite Z.shiftr_div_pow2 by lia.
  rewrite Z.mul_comm, Z.div_mul by lia. apply IH.
Qed.

Lemma tab_bitwise i :
  (i < 256)%nat -> nth i crc64_tab 0 = Nat.iter 8 bit_step (Z.of_nat i).
Proof.
  intros Hi.
  assert (forallb (fun i => nth i crc64_tab 0 =? Nat.iter 8 bit_step (Z.of_nat i)) (seq 0 256) = true)
    as H by (vm_compute; reflexivity).
  rewrite forallb_forall in H. apply Z.eqb_eq, H, in_seq. lia.
Qed.

Lemma lxor_u8_range a b : 0 <= Z.lxor (u8 a) (b2z b) < 256.
Proof.
  assert (0 <= Z.lxor (u8 a) (b2z b)) by (apply Z.lxor_nonneg; pose proof (u8_range a); pose proof (b2z_range b); lia).
  split; [done|]. apply (lt_pow2_shiftr 8); [done|done|]. rewrite Z.shiftr_lxor.
  rewrite (proj1 (lt_pow2_shiftr 8 (u8 a) ltac:(lia) (proj1 (u8_range a))) (proj2 (u8_range a))).
  by rewrite (proj1 (lt_pow2_shiftr 8 (b2z b) ltac:(lia) (proj1 (b2z_range b))) (proj2 (b2z_range b))).
Qed.

Lemma split_u8 c : 0 <= c -> c = Z.lxor (u8 c) (Z.shiftl (Z.shiftr c 8) 8).
Proof. intros _. by apply lxor_split. Qed.

Lemma step_bitwise c b : 0 <= c -> crc64_step c b = byte_step c b.
Proof.
  intros Hc. unfold crc64_step, byte_step. pose proof (lxor_u8_range c b) as Hr.
  rewrite tab_bitwise, Z2Nat.id by lia.
  assert (Z.lxor c (b2z b) = Z.lxor (Z.lxor (u8 c) (b2z b)) (Z.shiftl (Z.shiftr c 8) 8)) as ->.
  { rewrite (split_u8 c Hc) at 1. bits. }
  pose proof (bit_steps_shiftl 8 (Z.shiftr c 8)) as H8. change (Z.of_nat 8) with 8 in H8.
  by rewrite (bit_steps_lxor 8 (Z.lxor (u8 c) (b2z b))), H8.
Qed.

(** The top byte of the entries identifies the index. *)
Definition tab_top (i : nat) : Z := Z.shiftr (nth i crc64_tab 0) 56.

Lemma tab_top_inj i j : (i < 256)%nat -> (j < 256)%nat -> tab_top i = tab_top j -> i = j.
Proof.
  intros Hi Hj H.
  assert (bool_decide (NoDup (tab_top <$> seq 0 256)) = true) as Hn by (vm_compute; reflexivity).
  apply bool_decide_eq_true in Hn. eapply NoDup_lookup; [exact Hn| |];
    rewrite list_lookup_fmap, lookup_seq_lt by done; [done|]. cbn [fmap option_fmap option_map Nat.add]. by rewrite H.
Qed.

Lemma tab_range i : 0 <= nth i crc64_tab 0 < 2 ^ 64.
Proof.
  assert (forallb (fun v => (0 <=? v) && (v <? 2 ^ 64)) crc64_tab = true) as H by (vm_compute; reflexivity).
  rewrite forallb_forall in H. destruct (nth_in_or_default i crc64_tab 0) as [Hin| ->]; [|lia].
  apply H in Hin. lia.
Qed.

(** One step, undone: the top byte of the new state gives the index used. *)
Definition step_index (c : Z) (b : byte) : nat := Z.to_nat (Z.lxor (u8 c) (b2z b)).

Lemma step_range c b : 0 <= c < 2 ^ 64 -> 0 <= crc64_step c b < 2 ^ 64.
Proof.
  intros Hc. unfold crc64_step. pose proof (tab_range (step_index c b)) as Ht. unfold step_index in Ht.
  set (t := nth _ _ _) in *.
  assert (0 <= Z.shiftr c 8 < 2 ^ 64) as Hs.
  { rewrite Z.shiftr_div_pow2 by lia. split; [apply Z.div_pos; lia|]. apply Z.div_lt_upper_bound; lia. }
  assert (0 <= Z.lxor t (Z.shiftr c 8)) by (apply Z.lxor_nonneg; lia).
  split; [done|]. apply lt_pow2_shiftr; [done..|]. rewrite Z.shiftr_lxor.
  by rewrite (proj1 (lt_pow2_shiftr 64 t ltac:(lia) ltac:(lia))),
    (proj1 (lt_pow2_shiftr 64 (Z.shiftr c 8) ltac:(lia) ltac:(lia))) by lia.
Qed.

Lemma crc64_range s : forall c, 0 <= c < 2 ^ 64 -> 0 <= crc64 c s < 2 ^ 64.
Proof. induction s as [|b s IH]; intros c Hc; [done|]. by apply IH, step_range. Qed.

Lemma step_top c b : 0 <= c < 2 ^ 64 -> Z.shiftr (crc64_step c b) 56 = tab_top (step_index c b).
Proof.
  intros Hc. unfold crc64_step. rewrite Z.shiftr_lxor, Z.shiftr_shiftr by lia.
  change (8 + 56) with 64. rewrite (proj1 (lt_pow2_shiftr 64 c ltac:(lia) ltac:(lia))) by lia. by rewrite Z.lxor_0_r.
Qed.

Lemma step_index_lt c b : (step_index c b < 256)%nat.
Proof. unfold step_index. pose proof (lxor_u8_range c b). lia. Qed.

(** If the states after a step agree above bit [k <= 56], the steps used the
    same entry and the states before agree above bit [k + 8]. *)
Lemma step_back c1 c2 b1 b2 k :
  0 <= c1 < 2 ^ 64 -> 0 <= c2 < 2 ^ 64 -> 0 <= k <= 56 ->
  Z.shiftr (crc64_step c1 b1) k = Z.shiftr (crc64_step c2 b2) k ->
  step_index c1 b1 = step_index c2 b2 /\ Z.shiftr c1 (k + 8) = Z.shiftr c2 (k + 8).
Proof.
  intros H1 H2 Hk H.
  assert (step_index c1 b1 = step_index c2 b2) as Hi.
  { apply tab_top_inj; [apply step_index_lt..|]. rewrite <-!step_top by done.
    apply (f_equal (fun z => Z.shiftr z (56 - k))) in H. rewrite !Z.shiftr_shiftr in H by lia.
    by replace (k + (56 - k)) with 56 in H by lia. }
  split; [done|]. unfold crc64_step in H. fold (step_index c1 b1) (step_index c2 b2) in H. rewrite Hi in H.
  rewrite !Z.shiftr_lxor, !Z.shiftr_shiftr in H by lia.
  rewrite !(Z.lxor_comm (Z.shiftr (nth _ _ _) k)) in H. apply lxor_inj_l in H.
  by rewrite (Z.add_comm k 8).
Qed.

Lemma index_byte_inj c b1 b2 : step_index c b1 = step_index c b2 -> b1 = b2.
Proof.
  unfold step_index. pose proof (lxor_u8_range c b1). pose proof (lxor_u8_range c b2). intros H1.
  assert (Z.lxor (u8 c) (b2z b1) = Z.lxor (u8 c) (b2z b2)) as E by lia.
  rewrite !(Z.lxor_comm (u8 c)) in E. by apply lxor_inj_l, b2z_inj in E.
Qed.

(** Equal remainders of two blocks of at most 8 bytes read from the same state. *)
Lemma block_back x : forall y c1 c2 n,
  0 <= c1 < 2 ^ 64 -> 0 <= c2 < 2 ^ 64 -> length x = length y ->
  0 <= n -> n + 8 * Z.of_nat (length x) <= 64 ->
  Z.shiftr (crc64 c1 x) n = Z.shiftr (crc64 c2 y) n ->
  Z.shiftr c1 (n + 8 * Z.of_nat (length x)) = Z.shiftr c2 (n + 8 * Z.of_nat (length x)) /\
  (c1 = c2 -> x = y).
Proof.
  induction x as [|b1 x IH]; intros [|b2 y] c1 c2 n H1 H2 Hl Hn Hk H; try done.
  { cbn in *. by rewrite Z.add_0_r. }
  cbn [crc64 length] in *. rewrite Nat2Z.inj_succ in *.
  destruct (IH y (crc64_step c1 b1) (crc64_step c2 b2) n) as [Hs Hxy]; try (done || lia || by apply step_range).
  destruct (step_back c1 c2 b1 b2 (n + 8 * Z.of_nat (length x))) as [Hi Hc]; try (done || lia).
  split.
  - by replace (n + 8 * Z.succ (Z.of_nat (length x))) with (n + 8 * Z.of_nat (length x) + 8) by lia.
  - intros <-. apply index_byte_inj in Hi as <-. by rewrite Hxy.
Qed.

Lemma crc64_app c s t : crc64 c (s ++ t) = crc64 (crc64 c s) t.
Proof. revert c. induction s as [|b s IH]; intros c; [done|]. apply IH. Qed.

Lemma crc64_suffix_inj s : forall c1 c2,
  0 <= c1 < 2 ^ 64 -> 0 <= c2 < 2 ^ 64 -> crc64 c1 s = crc64 c2 s -> c1 = c2.
Proof.
  induction s as [|b s IH]; intros c1 c2 H1 H2 H; [done|]. cbn in H.
  apply IH in H; [|by apply step_range..].
  destruct (step_back c1 c2 b b 0) as [Hi Hs]; [done|done|lia|by rewrite H|].
  rewrite (split_u8 c1), (split_u8 c2) by lia. rewrite Z.add_0_l in Hs. rewrite Hs. f_equal.
  unfold step_index in Hi. pose proof (lxor_u8_range c1 b). pose proof (lxor_u8_range c2 b).
  apply (lxor_inj_l _ _ (b2z b)). lia.
Qed.

(** Two blocks of at most 8 bytes in the same message. *)
Lemma crc64_burst c p x y s :
  0 <= c < 2 ^ 64 -> length x = length y -> (length x <= 8)%nat ->
  crc64 c (p ++ x ++ s) = crc64 c (p ++ y ++ s) -> x = y.
Proof.
  intros Hc Hl H8 H. rewrite !crc64_app in H.
  apply crc64_suffix_inj in H; [|by do 2 apply crc64_range..].
  eapply (block_back x y (crc64 c p) (crc64 c p) 0);
    first [done | by apply crc64_range | by rewrite H | lia].
Qed.

(** ** Theorems *)

(** The table-driven routine computes the bit-by-bit CRC with the
    polynomial 0xad93d23594c935a9 reflected, for every message and every
    initial state, stays in 64 bits, processes a message in any pieces, and
    gives the check value of the specification. *)
Theorem crc64_is_jones c s t :
  0 <= c < 2 ^ 64 ->
  crc64 c s = crc64_bitwise c s /\ 0 <= crc64 c s < 2 ^ 64 /\
  crc64 c (s ++ t) = crc64 (crc64 c s) t /\
  crc64_poly = reflect 64 0xad93d23594c935a9 /\
  crc64 0 (z2b <$> [49; 50; 51; 52; 53; 54; 55; 56; 57]) = 0xe9c6d914c4b8d9ca.
Proof.
  intros Hc. split; [|split; [by apply crc64_range|split; [apply crc64_app|split; reflexivity]]].
  revert c Hc. induction s as [|b s IH]; intros c Hc; [done|].
  cbn [crc64 crc64_bitwise]. rewrite <-step_bitwise by lia. by apply IH, step_range.
Qed.

Lemma crc64_is_jones_witness :
  crc64 5 [z2b 1; z2b 200] = crc64_bitwise 5 [z2b 1; z2b 200] /\ 0 <= crc64 5 [z2b 1; z2b 200] < 2 ^ 64 /\
  crc64 5 ([z2b 1; z2b 200] ++ [z2b 9]) = crc64 (crc64 5 [z2b 1; z2b 200]) [z2b 9] /\
  crc64_poly = reflect 64 0xad93d23594c935a9 /\
  crc64 0 (z2b <$> [49; 50; 51; 52; 53; 54; 55; 56; 57]) = 0xe9c6d914c4b8d9ca.
Proof. apply (crc64_is_jones 5 [z2b 1; z2b 200] [z2b 9]). split; [discriminate|reflexivity]. Defined.

(** The checksum detects every corruption confined to 8 consecutive
    bytes, wherever it is in the message and whatever the bytes around it. *)
Theorem crc64_detects_bursts c p x y s :
  0 <= c < 2 ^ 64 -> length x = length y -> (length x <= 8)%nat ->
  crc64 c (p ++ x ++ s) = crc64 c (p ++ y ++ s) -> x = y.
Proof. apply crc64_burst. Qed.

Lemma crc64_detects_bursts_witness :
  crc64 0 ([z2b 7] ++ [z2b 1; z2b 2] ++ [z2b 9]) <> crc64 0 ([z2b 7] ++ [z2b 1; z2b 3] ++ [z2b 9]).
Proof.
  intros H. assert ([z2b 1; z2b 2] = [z2b 1; z2b 3]) as E.
  { apply (crc64_detects_bursts 0 [z2b 7] _ _ [z2b 9]); [split; [discriminate|reflexivity]|reflexivity|repeat constructor|exact H]. }
  discriminate E.
Defined.
