(* ===== verification/Rand.v ===== *)
(** Rand: the portable pseudo random generator of [rand.c], used where scripts
    must behave the same on every platform. *)
From S2P Require Import Prelude.

(** The words [x], [a] and [c] of the source. *)
Record rand_state := RandState { x : Z * Z * Z; a : Z * Z * Z; c : Z }.

Definition N : Z := 16.
Definition MASK : Z := Z.shiftl 1 (N - 1) + Z.shiftl 1 (N - 1) - 1.
Definition LOW (x : Z) : Z := Z.land (u32 x) MASK.
Definition HIGH (x : Z) : Z := LOW (Z.shiftr x N).

(** [MUL]: the product is kept in an [int32_t]; the two halves. *)
Definition MUL (x y : Z) : Z * Z := let l := s32 (x * y) in (LOW l, HIGH l).
Definition CARRY (x y : Z) : Z := if MASK <? s32 x + y then 1 else 0.
(** [ADDEQU]: the new [x] and the carry. *)
Definition ADDEQU (x y : Z) : Z * Z := (LOW (u32 (x + y)), CARRY x y).

Definition SEED (x0 x1 x2 : Z) : rand_state :=
  RandState (x0, x1, x2) (0xE66D, 0xDEEC, 0x5) 0xB.

Definition rand_init : rand_state := SEED 0x330E 0xABCD 0x1234.

Definition redisSrand48 (seedval : Z) : rand_state := SEED 0x330E (LOW seedval) (HIGH seedval).

Definition next (st : rand_state) : rand_state :=
  let '(x0, x1, x2) := x st in
  let '(a0, a1, a2) := a st in
  let '(p0, p1) := MUL a0 x0 in
  let '(p0, carry0) := ADDEQU p0 (c st) in
  let '(p1, carry1) := ADDEQU p1 carry0 in
  let '(q0, q1) := MUL a0 x1 in
  let '(p1, carry0) := ADDEQU p1 q0 in
  let '(r0, r1) := MUL a1 x0 in
  let x2 := LOW (u32 (carry0 + carry1 + CARRY p1 r0 + q1 + r1 + a0 * x2 + a1 * x1 + a2 * x0)) in
  let x1 := LOW (u32 (p1 + r0)) in
  let x0 := LOW p0 in
  RandState (x0, x1, x2) (a st) (c st).

(** Result: the state and the number returned. *)
Definition redisLrand48 (st : rand_state) : rand_state * Z :=
  let st := next st in
  let '(x0, x1, x2) := x st in
  (st, s32 (u32 (s32 (Z.shiftl x2 (N - 1)) + Z.shiftr x1 1))).

(** ** The specification: a linear congruential generator on 48 bits *)

Definition lcg (s : Z) : Z := (0x5DEECE66D * s + 0xB) mod 2 ^ 48.

Definition rand_val (st : rand_state) : Z := let '(x0, x1, x2) := x st in x0 + 2 ^ 16 * x1 + 2 ^ 32 * x2.

Definition rand_ok (st : rand_state) : Prop :=
  (let '(x0, x1, x2) := x st in 0 <= x0 < 2 ^ 16 /\ 0 <= x1 < 2 ^ 16 /\ 0 <= x2 < 2 ^ 16) /\
  a st = (0xE66D, 0xDEEC, 0x5) /\ c st = 0xB.

Fixpoint lcg_stream (n : nat) (s : Z) : list Z :=
  match n with
  | O => []
  | S n' => Z.shiftr (lcg s) 17 :: lcg_stream n' (lcg s)
  end.

Fixpoint lrand_stream (n : nat) (st : rand_state) : list Z :=
  match n with
  | O => []
  | S n' => let '(st, r) := redisLrand48 st in r :: lrand_stream n' st
  end.

(** ** Lemmas *)

Lemma LOW_mod v : LOW v = v mod 2 ^ 16.
Proof.
  unfold LOW. change MASK with (Z.ones 16). rewrite Z.land_ones by lia. unfold u32.
  apply Z.mod_mod_divide. by exists (2 ^ 16).
Qed.

Lemma MUL_spec u v :
  0 <= u < 2 ^ 16 -> 0 <= v < 2 ^ 16 -> MUL u v = ((u * v) mod 2 ^ 16, (u * v) / 2 ^ 16).
Proof.
  intros Hu Hv. unfold MUL, HIGH. rewrite !LOW_mod, Z.shiftr_div_pow2 by done.
  assert (0 <= u * v < 2 ^ 32) as H by nia. unfold s32, swrap. change (2 ^ (32 - 1)) with (2 ^ 31). change N with 16.
  set (w := u * v) in *. change (2 ^ 16) with 65536 in *. change (2 ^ 32) with 4294967296 in *. change (2 ^ 31) with 2147483648 in *.
  destruct (Z.lt_ge_cases w 2147483648).
  - rewrite (Z.mod_small (w + _)) by lia. replace (w + 2147483648 - 2147483648) with w by lia.
    f_equal. apply Z.mod_small. split; [apply Z.div_pos; lia|apply Z.div_lt_upper_bound; lia].
  - assert ((w + 2147483648) mod 4294967296 = w - 2147483648) as ->.
    { symmetry. apply (Z.mod_unique_pos _ _ 1); lia. }
    replace (w - 2147483648 - 2147483648) with (w + (-65536) * 65536) by lia.
    rewrite Z.mod_add, Z.div_add by lia. f_equal.
    replace (w / 65536 + -65536) with (w / 65536 + (-1) * 65536) by lia. rewrite Z.mod_add by lia.
    apply Z.mod_small. split; [apply Z.div_pos; lia|apply Z.div_lt_upper_bound; lia].
Qed.

Lemma ADDEQU_spec u v :
  0 <= u < 2 ^ 16 -> 0 <= v < 2 ^ 16 -> ADDEQU u v = ((u + v) mod 2 ^ 16, (u + v) / 2 ^ 16).
Proof.
  intros Hu Hv. unfold ADDEQU, CARRY. rewrite LOW_mod. unwrap. f_equal. change MASK with 65535.
  destruct (Z.ltb_spec 65535 (u + v)).
  - apply (Z.div_unique_pos _ _ _ (u + v - 65536)); lia.
  - symmetry. apply Z.div_small. lia.
Qed.

Lemma CARRY_spec u v :
  0 <= u < 2 ^ 16 -> 0 <= v < 2 ^ 16 -> CARRY u v = (u + v) / 2 ^ 16.
Proof. intros Hu Hv. by injection (ADDEQU_spec u v Hu Hv). Qed.

Lemma LOW_u32 v : LOW (u32 v) = v mod 2 ^ 16.
Proof. rewrite LOW_mod. apply Z.mod_mod_divide. by exists (2 ^ 16). Qed.

(** High and low halves of a number. *)
Lemma halves v :
  0 <= v -> exists h l, v / 2 ^ 16 = h /\ v mod 2 ^ 16 = l /\ v = 2 ^ 16 * h + l /\
                       0 <= l < 2 ^ 16 /\ 0 <= h.
Proof.
  intros Hv. exists (v / 2 ^ 16), (v mod 2 ^ 16). split_and!; try done.
  - by apply Z.div_mod.
  - by apply Z.mod_pos_bound.
  - by apply Z.mod_pos_bound.
  - by apply Z.div_pos.
Qed.

Ltac halve v h l :=
  destruct (halves v) as (h & l & -> & -> & ? & ? & ?); [lia|].

(** One step is multiplication and addition by limbs of 16 bits. *)
Lemma next_spec st :
  rand_ok st -> rand_ok (next st) /\ rand_val (next st) = lcg (rand_val st).
Proof.
  destruct st as [[[x0 x1] x2] aa cc]. intros [(H0 & H1 & H2) [Ha Hc]]. cbn in Ha, Hc. subst aa cc.
  unfold next. cbn [x a c]. rewrite (MUL_spec 0xE66D x0), (MUL_spec 0xE66D x1), (MUL_spec 0xDEEC x0) by lia.
  halve (0xE66D * x0) ph pl. halve (0xE66D * x1) qh ql. halve (0xDEEC * x0) rh rl.
  rewrite (ADDEQU_spec pl) by lia. halve (pl + 0xB) c0 p0.
  rewrite (ADDEQU_spec ph) by lia. halve (ph + c0) c1 p1.
  rewrite (ADDEQU_spec p1) by lia. halve (p1 + ql) c2 p2.
  rewrite CARRY_spec, LOW_mod, !LOW_u32 by lia. halve (p2 + rl) c3 p3.
  set (top := _ + 5 * x0). destruct (halves top) as (tq & tr & _ & -> & ? & ? & ?); [lia|]. rewrite (Z.mod_small p0) by lia.
  unfold rand_ok, rand_val, lcg. cbn [x a c]. split; [by split; [split; [|split]|]|].
  apply (Z.mod_unique_pos _ _ (tq + 0xDEEC * x2 + 5 * x1 + 2 ^ 16 * (5 * x2))); [lia|].
  unfold top in *. clear H0 H1 H2. lia.
Qed.

Lemma SEED_ok s0 s1 s2 :
  0 <= s0 < 2 ^ 16 -> 0 <= s1 < 2 ^ 16 -> 0 <= s2 < 2 ^ 16 -> rand_ok (SEED s0 s1 s2).
Proof. by split. Qed.

Lemma LOW_range v : 0 <= LOW v < 2 ^ 16.
Proof. rewrite LOW_mod. by apply Z.mod_pos_bound. Qed.

Lemma srand_ok seed : rand_ok (redisSrand48 seed).
Proof. apply SEED_ok; [done|apply LOW_range..]. Qed.

(** The number returned is the top 31 bits of the state. *)
Lemma lrand_spec st :
  rand_ok st -> redisLrand48 st = (next st, Z.shiftr (lcg (rand_val st)) 17).
Proof.
  intros Hst. destruct (next_spec st Hst) as [Hok Hv]. rewrite <-Hv. unfold redisLrand48.
  destruct (next st) as [[[x0 x1] x2] aa cc]. destruct Hok as [(H0 & H1 & H2) _]. unfold rand_val. cbn [x].
  f_equal. change (N - 1) with 15. rewrite Z.shiftl_mul_pow2, !Z.shiftr_div_pow2 by lia. change (2 ^ 1) with 2.
  assert (0 <= x1 / 2 < 2 ^ 15) by (split; [apply Z.div_pos; lia|apply Z.div_lt_upper_bound; lia]).
  rewrite (s32_small (x2 * 2 ^ 15)), u32_small, s32_small by lia.
  apply (Z.div_unique_pos _ _ _ (x0 + 2 ^ 16 * (x1 mod 2))); [pose proof (Z.mod_pos_bound x1 2); lia|].
  pose proof (Z.div_mod x1 2). lia.
Qed.

Lemma lrand_stream_spec n : forall st,
  rand_ok st -> lrand_stream n st = lcg_stream n (rand_val st).
Proof.
  induction n as [|n IH]; intros st Hst; [done|]. cbn [lrand_stream lcg_stream].
  rewrite lrand_spec by done. destruct (next_spec st Hst) as [Hok Hv]. by rewrite <-Hv, <-IH.
Qed.

(** ** Theorems *)

(** From every seed, the numbers produced by the 16-bit limb arithmetic
    are, for any count, the top 31 bits of the 48-bit linear congruential
    generator x -> 0x5DEECE66D x + 11 started at 2^16 seed + 0x330E, the
    definition of the standard [lrand48]. *)
Theorem redisLrand48_lcg seed n :
  lrand_stream n (redisSrand48 seed) = lcg_stream n (2 ^ 16 * u32 seed + 0x330E).
Proof.
  rewrite lrand_stream_spec by apply srand_ok. f_equal.
  unfold redisSrand48, SEED, rand_val, HIGH. cbn [x]. rewrite !LOW_mod, Z.shiftr_div_pow2 by done.
  change N with 16. pose proof (Z.rem_mul_r seed (2 ^ 16) (2 ^ 16) ltac:(done) ltac:(done)) as E.
  change (2 ^ 16 * 2 ^ 16) with (2 ^ 32) in E. fold (u32 seed) in E. rewrite E. lia.
Qed.
