(* ===== verification/Util.v ===== *)
(** Util: glob matching and the conversions between numbers and strings
    ([util.c]). *)
From S2P Require Import Prelude.
Import (notations) Corelib.Init.Byte.

(** ** Glob matching

    [P] and [S] are the objects [pattern] and [string] point into, [p] and
    [s] the offsets of the pointers. *)
Section Glob.
Context (P S : list byte) (nocase : bool).

(** [while (pattern[1] == '*')] *)
Fixpoint star_skip (fuel : nat) (pattern patternLen : Z) : option (Z * Z) :=
  match fuel with
  | O => None
  | Datatypes.S fuel =>
    c ← rd P (pattern + 1);
    if c =? chr "*"%byte then star_skip fuel (pattern + 1) (patternLen - 1)
    else Some (pattern, patternLen)
  end.

(** [while( *pattern == '*')] *)
Fixpoint trailing_stars (fuel : nat) (pattern patternLen : Z) : option (Z * Z) :=
  match fuel with
  | O => None
  | Datatypes.S fuel =>
    c ← rd P pattern;
    if c =? chr "*"%byte then trailing_stars fuel (pattern + 1) (patternLen - 1)
    else Some (pattern, patternLen)
  end.

(** The comparison of two characters under [nocase]. *)
Definition char_eq (c1 c2 : Z) : bool :=
  if negb nocase then c1 =? c2 else tolower c1 =? tolower c2.

(** Is [c] in the range of a class? *)
Definition in_range (start end_ c : Z) : bool :=
  let '(start, end_) := if end_ <? start then (end_, start) else (start, end_) in
  let '(start, end_, c) :=
    if nocase then (tolower start, tolower end_, tolower c) else (start, end_, c) in
  (start <=? c) && (c <=? end_).

(** The [while(1)] loop over the members of a class. *)
Fixpoint class_loop (fuel : nat) (pattern patternLen string : Z) (match_ : bool)
    : option (Z * Z * bool) :=
  match fuel with
  | O => None
  | Datatypes.S fuel =>
    p0 ← rd P pattern;
    if p0 =? chr "\"%byte then
      let pattern := pattern + 1 in
      let patternLen := patternLen - 1 in
      p0 ← rd P pattern;
      s0 ← rd S string;
      class_loop fuel (pattern + 1) (patternLen - 1) string (if p0 =? s0 then true else match_)
    else if p0 =? chr "]"%byte then Some (pattern, patternLen, match_)
    else if patternLen =? 0 then Some (pattern - 1, patternLen + 1, match_)
    else
      p1 ← rd P (pattern + 1);
      if (p1 =? chr "-"%byte) && (3 <=? patternLen) then
        end_ ← rd P (pattern + 2);
        c ← rd S string;
        class_loop fuel (pattern + 3) (patternLen - 3) string
          (if in_range p0 end_ c then true else match_)
      else
        s0 ← rd S string;
        class_loop fuel (pattern + 1) (patternLen - 1) string
          (if char_eq p0 s0 then true else match_)
  end.

(** The cases of the [switch] other than ['*']: [Some None] is [return 0],
    otherwise the position after the case. *)
Definition match_case (fuel : nat) (c pattern patternLen string stringLen : Z)
    : option (option (Z * Z * Z * Z)) :=
  if c =? chr "?"%byte then
    if stringLen =? 0 then Some None
    else Some (Some (pattern, patternLen, string + 1, stringLen - 1))
  else if c =? chr "["%byte then
    let pattern := pattern + 1 in
    let patternLen := patternLen - 1 in
    p0 ← rd P pattern;
    let not := p0 =? chr "^"%byte in
    let '(pattern, patternLen) :=
      if not then (pattern + 1, patternLen - 1) else (pattern, patternLen) in
    '(pattern, patternLen, match_) ← class_loop fuel pattern patternLen string false;
    let match_ := if not then negb match_ else match_ in
    if negb match_ then Some None
    else Some (Some (pattern, patternLen, string + 1, stringLen - 1))
  else
    let '(pattern, patternLen) :=
      if (c =? chr "\"%byte) && (2 <=? patternLen) then (pattern + 1, patternLen - 1)
      else (pattern, patternLen) in
    p0 ← rd P pattern;
    s0 ← rd S string;
    if negb (char_eq p0 s0) then Some None
    else Some (Some (pattern, patternLen, string + 1, stringLen - 1)).

(** [while(stringLen)] of the ['*'] case. *)
Fixpoint star_loop (rec : Z -> Z -> option bool) (fuel : nat) (string stringLen : Z)
    : option bool :=
  match fuel with
  | O => None
  | Datatypes.S fuel =>
    if stringLen =? 0 then Some false
    else
      r ← rec string stringLen;
      if r : bool then Some true else star_loop rec fuel (string + 1) (stringLen - 1)
  end.

Fixpoint stringmatch_loop (fuel : nat) (pattern patternLen string stringLen : Z) : option bool :=
  match fuel with
  | O => None
  | Datatypes.S fuel =>
    if patternLen =? 0 then Some (stringLen =? 0)
    else
      c ← rd P pattern;
      if c =? chr "*"%byte then
        '(pattern, patternLen) ← star_skip fuel pattern patternLen;
        if patternLen =? 1 then Some true
        else star_loop (stringmatch_loop fuel (pattern + 1) (patternLen - 1)) fuel string stringLen
      else
        r ← match_case fuel c pattern patternLen string stringLen;
        match r with
        | None => Some false
        | Some (pattern, patternLen, string, stringLen) =>
          let pattern := pattern + 1 in
          let patternLen := patternLen - 1 in
          if stringLen =? 0 then
            '(pattern, patternLen) ← trailing_stars fuel pattern patternLen;
            Some ((patternLen =? 0) && (stringLen =? 0))
          else stringmatch_loop fuel pattern patternLen string stringLen
        end
  end.
End Glob.

(** The fuel is one more than what any terminating call uses. *)
Definition stringmatchlen (pattern : list byte) (patternLen : Z) (string : list byte) (stringLen : Z)
    (nocase : bool) : option bool :=
  stringmatch_loop pattern string nocase (length pattern + length string + 2) 0 patternLen 0 stringLen.

Definition stringmatch (pattern string : list byte) (nocase : bool) : option bool :=
  stringmatchlen pattern (strlen pattern) string (strlen string) nocase.

(** ** Amounts of memory *)

(** [strcasecmp(a, b) == 0]: each string ends at its first NUL, [cstr] cuts it
    there, so what follows a NUL is not compared. *)
Definition strcaseeq (a b : list byte) : bool :=
  bool_decide ((tolower ∘ b2z) <$> cstr a = (tolower ∘ b2z) <$> cstr b).

(** [strtoll(s, NULL, 10)]: white space, a sign, digits; saturates. *)
Fixpoint skip_space (s : list byte) : list byte :=
  match s with
  | b :: s' => if isspace (b2z b) then skip_space s' else s
  | [] => []
  end.
Fixpoint dec_digits (s : list byte) (v : Z) : Z :=
  match s with
  | b :: s' => if isdigit (b2z b) then dec_digits s' (10 * v + (b2z b - 48)) else v
  | [] => v
  end.
Definition strtoll (s : list byte) : Z :=
  let s := skip_space s in
  let '(neg, s) := match s with
                   | b :: s' => if b2z b =? 45 then (true, s') else if b2z b =? 43 then (false, s') else (false, s)
                   | [] => (false, s)
                   end in
  let v := dec_digits s 0 in
  let v := if neg : bool then - v else v in
  Z.max (- 2 ^ 63) (Z.min (2 ^ 63 - 1) v).

(** [while( *u && isdigit( *u)) u++;]: the number of characters skipped. *)
Fixpoint digit_span (s : list byte) : nat :=
  match s with
  | b :: s' => if isdigit (b2z b) then Datatypes.S (digit_span s') else O
  | [] => O
  end.

(** Result: the value returned and [*err]. *)
Definition memtoll (p : list byte) : option (Z * bool) :=
  let p := cstr p in
  let u := match p with b :: _ => if chr b =? chr "-"%byte then 1%nat else O | [] => O end in
  let u := (u + digit_span (drop u p))%nat in
  let unit := drop u p in
  let '(mul, err) :=
    match unit with
    | [] => (1, false)
    | _ =>
      if strcaseeq unit ["b"%byte] then (1, false)
      else if strcaseeq unit ["k"%byte] then (1000, false)
      else if strcaseeq unit ["k"%byte; "b"%byte] then (1024, false)
      else if strcaseeq unit ["m"%byte] then (1000 * 1000, false)
      else if strcaseeq unit ["m"%byte; "b"%byte] then (1024 * 1024, false)
      else if strcaseeq unit ["g"%byte] then (1000 * 1000 * 1000, false)
      else if strcaseeq unit ["g"%byte; "b"%byte] then (1024 * 1024 * 1024, false)
      else (1, true)
    end in
  let digits := Z.of_nat u in
  if 128 <=? digits then Some (2 ^ 63 - 1, true)
  else
    let val := strtoll (take u p) in
    r ← chk64 (val * mul); Some (r, err).

(** ** Integers *)

(** The [do .. while(v)] loop of [ll2string]: the pointer [p] is an offset
    in [buf]. *)
Fixpoint ll2string_loop (fuel : nat) (buf : list byte) (p v : Z) : option (list byte * Z) :=
  match fuel with
  | O => None
  | Datatypes.S fuel =>
    buf ← mem_write buf p [z2b (48 + v mod 10)];
    let p := p - 1 in
    let v := v / 10 in
    if v =? 0 then Some (buf, p) else ll2string_loop fuel buf p v
  end.

(** [junk] is the content of the array before the digits are written.
    Result: the bytes written to [s] and the length returned. *)
Definition ll2string (junk : nat -> byte) (len value : Z) : option (list byte * Z) :=
  if len =? 0 then Some ([], 0)
  else
    let buf := map junk (seq 0 32) in
    v ← (if value <? 0 then chk64 (- value) else Some value);
    '(buf, p) ← ll2string_loop 32 buf 31 v;
    '(buf, p) ← (if value <? 0 then b ← mem_write buf p ["-"%byte]; Some (b, p - 1) else Some (buf, p));
    let p := p + 1 in
    let l := 32 - p in
    let l := if len <? l + 1 then len - 1 else l in
    out ← mem_read buf p l;
    Some (out ++ [z2b 0], l).

(** [while (plen < slen && p[0] >= '0' && p[0] <= '9')]; [Some None] is
    [return 0], otherwise [plen] and [v]. *)
Fixpoint string2ll_loop (fuel : nat) (s : list byte) (slen plen v : Z) : option (option (Z * Z)) :=
  match fuel with
  | O => None
  | Datatypes.S fuel =>
    if plen <? slen then
      c ← rd s plen;
      if (chr "0"%byte <=? c) && (c <=? chr "9"%byte) then
        if (2 ^ 64 - 1) / 10 <? v then Some None
        else
          let v := u64 (v * 10) in
          if (2 ^ 64 - 1) - (c - chr "0"%byte) <? v then Some None
          else string2ll_loop fuel s slen (plen + 1) (u64 (v + (c - chr "0"%byte)))
      else Some (Some (plen, v))
    else Some (Some (plen, v))
  end.

(** [Some None] is [return 0], otherwise the value. *)
Definition string2ll (s : list byte) (slen : Z) : option (option Z) :=
  let plen := 0 in
  if plen =? slen then Some None
  else
    c ← rd s 0;
    if (slen =? 1) && (c =? chr "0"%byte) then Some (Some 0)
    else
      let negative := c =? chr "-"%byte in
      let plen := if negative then plen + 1 else plen in
      if negative && (plen =? slen) then Some None
      else
        c ← rd s plen;
        if (chr "1"%byte <=? c) && (c <=? chr "9"%byte) then
          let v := c - chr "0"%byte in
          r ← string2ll_loop (Z.to_nat slen + 1) s slen (plen + 1) v;
          match r with
          | None => Some None
          | Some (plen, v) =>
            if plen <? slen then Some None
            else if negative then
              if 2 ^ 63 <? v then Some None else Some (Some (s64 (u64 (- v))))
            else
              if 2 ^ 63 - 1 <? v then Some None else Some (Some v)
          end
        else if (c =? chr "0"%byte) && (slen =? 1) then Some (Some 0)
        else Some None.

Definition string2l (s : list byte) (slen : Z) : option (option Z) :=
  r ← string2ll s slen;
  match r with
  | None => Some None
  | Some llval =>
    if (llval <? - 2 ^ 63) || (2 ^ 63 - 1 <? llval) then Some None else Some (Some (s64 llval))
  end.
