(* ===== verification/UtilProofs.v ===== *)
(** UtilProofs: a reference semantics of glob patterns and the proof that the
    pointer-walking matcher of [util.c] implements it. *)
From S2P Require Import Prelude Util.
Import (notations) Corelib.Init.Byte.

(** ** Reference semantics *)

Inductive item := ILit (c : Z) | IChr (c : Z) | IRange (c1 c2 : Z).
Inductive tok := TStar | TAny | TClass (neg : bool) (items : list item) | TLit (c : Z).

(** The members of a class and what follows it.  A class that is not closed
    ends with the pattern; a backslash at the very end of a class has nothing
    to quote. *)
Fixpoint parse_class (p : list Z) : option (list item * list Z) :=
  match p with
  | [] => Some ([], [])
  | c :: p1 =>
    if c =? chr "\"%byte then
      match p1 with
      | [] => None
      | d :: p2 => '(its, r) ← parse_class p2; Some (ILit d :: its, r)
      end
    else if c =? chr "]"%byte then Some ([], p1)
    else match p1 with
         | d :: e :: p3 =>
           if d =? chr "-"%byte then '(its, r) ← parse_class p3; Some (IRange c e :: its, r)
           else '(its, r) ← parse_class p1; Some (IChr c :: its, r)
         | _ => '(its, r) ← parse_class p1; Some (IChr c :: its, r)
         end
  end.

Fixpoint glob_parse (n : nat) (p : list Z) : option (list tok) :=
  match p, n with
  | [], _ => Some []
  | _, O => None
  | c :: p1, S n =>
    if c =? chr "*"%byte then cons TStar <$> glob_parse n p1
    else if c =? chr "?"%byte then cons TAny <$> glob_parse n p1
    else if c =? chr "["%byte then
      let '(neg, p2) := match p1 with
                        | d :: p2 => if d =? chr "^"%byte then (true, p2) else (false, p1)
                        | [] => (false, p1)
                        end in
      '(its, p3) ← parse_class p2; cons (TClass neg its) <$> glob_parse n p3
    else if c =? chr "\"%byte then
      match p1 with
      | d :: p2 => cons (TLit d) <$> glob_parse n p2
      | [] => Some [TLit c]
      end
    else cons (TLit c) <$> glob_parse n p1
  end.

Section Semantics.
Context (nocase : bool).

Definition same_char (c1 c2 : Z) : bool :=
  if nocase then tolower c1 =? tolower c2 else c1 =? c2.

Definition item_match (c : Z) (it : item) : bool :=
  match it with
  | ILit d => d =? c
  | IChr d => same_char d c
  | IRange d e =>
    let f := if nocase then tolower else id in
    (f (Z.min d e) <=? f c) && (f c <=? f (Z.max d e))
  end.

Definition tok_match (t : tok) (c : Z) : bool :=
  match t with
  | TStar => false
  | TAny => true
  | TClass neg its => xorb neg (existsb (item_match c) its)
  | TLit d => same_char d c
  end.

(** Some suffix satisfies [f]. *)
Fixpoint some_suffix (f : list Z -> bool) (s : list Z) : bool :=
  f s || match s with [] => false | _ :: s' => some_suffix f s' end.

Fixpoint glob (ts : list tok) (s : list Z) : bool :=
  match ts with
  | [] => match s with [] => true | _ => false end
  | TStar :: ts' => some_suffix (glob ts') s
  | t :: ts' => match s with [] => false | c :: s' => tok_match t c && glob ts' s' end
  end.
End Semantics.

(** ** The matcher *)

Section Matcher.
Context (P S : list byte) (nocase : bool).

Definition pat_at (i : Z) (p : list Z) : Prop :=
  forall k, (k <= length p)%nat -> rd P (i + Z.of_nat k) = (p ++ [0]) !! k.
Definition str_at (i : Z) (s : list Z) : Prop :=
  forall k, (k < length s)%nat -> rd S (i + Z.of_nat k) = s !! k.

Lemma pat_at_hd i c p : pat_at i (c :: p) -> rd P i = Some c.
Proof. intros H. specialize (H 0%nat ltac:(lia)). by rewrite Z.add_0_r in H. Qed.
Lemma pat_at_nil i : pat_at i [] -> rd P i = Some 0.
Proof. intros H. specialize (H 0%nat ltac:(lia)). by rewrite Z.add_0_r in H. Qed.
Lemma pat_at_tl i c p : pat_at i (c :: p) -> pat_at (i + 1) p.
Proof.
  intros H k Hk. specialize (H (Datatypes.S k) ltac:(cbn; lia)).
  etrans; [|exact H]. f_equal. lia.
Qed.
Lemma pat_at_tl2 i c d p : pat_at i (c :: d :: p) -> pat_at (i + 2) p.
Proof. intros H%pat_at_tl%pat_at_tl. by replace (i + 2) with (i + 1 + 1) by lia. Qed.
Lemma pat_at_tl3 i c d e p : pat_at i (c :: d :: e :: p) -> pat_at (i + 3) p.
Proof. intros H%pat_at_tl%pat_at_tl2. by replace (i + 3) with (i + 1 + 2) by lia. Qed.
Lemma str_at_hd i c s : str_at i (c :: s) -> rd S i = Some c.
Proof. intros H. specialize (H 0%nat ltac:(cbn; lia)). by rewrite Z.add_0_r in H. Qed.
Lemma str_at_tl i c s : str_at i (c :: s) -> str_at (i + 1) s.
Proof.
  intros H k Hk. specialize (H (Datatypes.S k) ltac:(cbn; lia)).
  etrans; [|exact H]. f_equal. lia.
Qed.

Lemma in_range_spec d e c : in_range nocase d e c = item_match nocase c (IRange d e).
Proof.
  unfold in_range. cbn [item_match].
  destruct (Z.ltb_spec e d); destruct nocase; cbn;
    rewrite ?Z.min_l, ?Z.min_r, ?Z.max_l, ?Z.max_r by lia; done.
Qed.

Lemma char_eq_spec c1 c2 : char_eq nocase c1 c2 = same_char nocase c1 c2.
Proof. by destruct nocase. Qed.

Lemma if_orb (b m : bool) : (if b then true else m) = b || m.
Proof. by destruct b. Qed.

Lemma class_loop_spec si s0 fuel : forall p its r i m,
  parse_class p = Some (its, r) -> pat_at i p -> rd S si = Some s0 -> (length p < fuel)%nat ->
  exists i', class_loop P S nocase fuel i (Z.of_nat (length p)) si m
    = Some (i', Z.of_nat (length r) + 1, existsb (item_match nocase s0) its || m) /\
    pat_at (i' + 1) r /\ (length r <= length p)%nat.
Proof.
  induction fuel as [|fuel IH]; intros p its r i m Hp Hat Hs Hf; [lia|].
  cbn [class_loop]. destruct p as [|c p1].
  { injection Hp as <- <-. rewrite (pat_at_nil _ Hat). cbn. exists (i - 1).
    by replace (i - 1 + 1) with i by lia. }
  rewrite (pat_at_hd _ _ _ Hat). cbn [option_bind mbind].
  pose proof (pat_at_tl _ _ _ Hat) as Hat1. cbn [parse_class] in Hp. cbn [length] in Hf.
  destruct (Z.eqb_spec c (chr "\"%byte)) as [Ec|Ec].
  { destruct p1 as [|d p2]; [done|].
    destruct (parse_class p2) as [[its' r']|] eqn:Hp2; [|done]. injection Hp as <- <-.
    rewrite (pat_at_hd _ _ _ Hat1), Hs. cbn [option_bind mbind length]. cbn [length] in Hf.
    replace (i + 1 + 1) with (i + 2) by lia.
    replace (Z.of_nat (Datatypes.S (Datatypes.S (length p2))) - 1 - 1) with (Z.of_nat (length p2)) by lia.
    destruct (IH p2 its' r' (i + 2) (if d =? s0 then true else m) Hp2 (pat_at_tl2 _ _ _ _ Hat) Hs)
      as (i' & -> & Hr & Hlen); [lia|].
    exists i'. split; [|split; [done|lia]]. cbn. rewrite if_orb. do 2 f_equal.
    rewrite !orb_assoc. f_equal. apply orb_comm. }
  destruct (Z.eqb_spec c (chr "]"%byte)) as [Ec'|Ec'].
  { injection Hp as <- <-. exists i. split; [|split; [done|cbn; lia]]. do 3 f_equal. cbn [length]. lia. }
  destruct (Z.eqb_spec (Z.of_nat (length (c :: p1))) 0) as [|Hn0]; [cbn in *; lia|].
  (* one member of the class, a character or a range *)
  assert (forall its' r' k it b j, parse_class k = Some (its', r') -> pat_at j k ->
    (length k < fuel)%nat -> (length k <= length p1)%nat -> b = item_match nocase s0 it ->
    exists i', class_loop P S nocase fuel j (Z.of_nat (length k)) si (if b then true else m)
      = Some (i', Z.of_nat (length r') + 1, existsb (item_match nocase s0) (it :: its') || m) /\
      pat_at (i' + 1) r' /\ (length r' <= length (c :: p1))%nat) as Hone.
  { intros its' r' k it b j Hk Hj Hlf Hlk ->.
    destruct (IH k its' r' j (if item_match nocase s0 it then true else m) Hk Hj Hs Hlf) as (i' & -> & Hr & Hlen).
    exists i'. split; [|split; [done|cbn; lia]]. cbn [existsb]. rewrite if_orb. do 2 f_equal.
    rewrite !orb_assoc. f_equal. apply orb_comm. }
  replace (Z.of_nat (length (c :: p1)) - 1) with (Z.of_nat (length p1)) by (cbn [length]; lia).
  destruct p1 as [|d [|e p3]].
  - rewrite (pat_at_nil _ Hat1). cbn -[class_loop Z.of_nat existsb] in *. rewrite Hs. cbn [option_bind mbind].
    injection Hp as <- <-. apply (Hone [] [] []); try done; [cbn; lia|apply char_eq_spec].
  - rewrite (pat_at_hd _ _ _ Hat1). cbn [option_bind mbind].
    rewrite (proj2 (Z.leb_gt 3 (Z.of_nat (length [c; d])))) by (cbn; lia). rewrite andb_false_r, Hs.
    cbn [option_bind mbind]. destruct (parse_class [d]) as [[its' r']|] eqn:Hk; [|done]. injection Hp as <- <-.
    apply (Hone _ _ [d]); try done; [cbn in *; lia|apply char_eq_spec].
  - rewrite (pat_at_hd _ _ _ Hat1). cbn [option_bind mbind].
    rewrite (proj2 (Z.leb_le 3 (Z.of_nat (length (c :: d :: e :: p3))))) by (cbn [length]; lia).
    rewrite andb_true_r. destruct (d =? chr "-"%byte).
    + pose proof (pat_at_hd _ _ _ (pat_at_tl2 _ _ _ _ Hat)) as He. rewrite He, Hs. cbn [option_bind mbind].
      destruct (parse_class p3) as [[its' r']|] eqn:Hk; [|done]. injection Hp as <- <-.
      replace (Z.of_nat (length (c :: d :: e :: p3)) - 3) with (Z.of_nat (length p3)) by (cbn [length]; lia).
      apply (Hone _ _ p3); [done|by eapply pat_at_tl3|cbn in *; lia|cbn; lia|apply in_range_spec].
    + rewrite Hs. cbn [option_bind mbind].
      destruct (parse_class (d :: e :: p3)) as [[its' r']|] eqn:Hk; [|done]. injection Hp as <- <-.
      apply (Hone _ _ (d :: e :: p3)); try done; [cbn in *; lia|apply char_eq_spec].
Qed.

(** *** Runs of stars *)

Fixpoint drop_stars (p : list Z) : list Z :=
  match p with
  | c :: p' => if c =? chr "*"%byte then drop_stars p' else p
  | [] => []
  end.

Lemma length_drop_stars p : (length (drop_stars p) <= length p)%nat.
Proof. induction p as [|c p IH]; [done|]. cbn. destruct (c =? _); cbn; lia. Qed.

Lemma star_skip_spec fuel : forall i p,
  pat_at i (chr "*"%byte :: p) -> (length p < fuel)%nat ->
  exists i', star_skip P fuel i (Z.of_nat (length p) + 1) = Some (i', Z.of_nat (length (drop_stars p)) + 1) /\
             pat_at i' (chr "*"%byte :: drop_stars p).
Proof.
  induction fuel as [|fuel IH]; intros i p Hat Hf; [lia|]. cbn [star_skip].
  pose proof (pat_at_tl _ _ _ Hat) as Hat1. destruct p as [|c p].
  { rewrite (pat_at_nil _ Hat1). cbn. by exists i. }
  rewrite (pat_at_hd _ _ _ Hat1). cbn [option_bind mbind drop_stars].
  destruct (Z.eqb_spec c (chr "*"%byte)) as [->|Hc]; [|by exists i].
  cbn [length] in *.
  replace (Z.of_nat (Datatypes.S (length p)) + 1 - 1) with (Z.of_nat (length p) + 1) by lia.
  apply IH; [done|lia].
Qed.

Lemma trailing_stars_spec fuel : forall i p,
  pat_at i p -> (length p < fuel)%nat ->
  exists i', trailing_stars P fuel i (Z.of_nat (length p)) = Some (i', Z.of_nat (length (drop_stars p))).
Proof.
  induction fuel as [|fuel IH]; intros i p Hat Hf; [lia|]. cbn [trailing_stars].
  destruct p as [|c p]; [rewrite (pat_at_nil _ Hat); cbn; by exists i|].
  rewrite (pat_at_hd _ _ _ Hat). cbn [option_bind mbind drop_stars].
  destruct (Z.eqb_spec c (chr "*"%byte)) as [->|Hc]; [|by exists i]. cbn [length] in *.
  replace (Z.of_nat (Datatypes.S (length p)) - 1) with (Z.of_nat (length p)) by lia.
  apply IH; [by eapply pat_at_tl|lia].
Qed.

Lemma some_suffix_idem f s : some_suffix (some_suffix f) s = some_suffix f s.
Proof.
  induction s as [|c s IH]; cbn; [by destruct (f [])|]. rewrite IH.
  destruct (f (c :: s)), (some_suffix f s); done.
Qed.

Lemma parse_drop_stars p : forall n ts,
  glob_parse n p = Some ts ->
  exists n' ts', glob_parse n' (drop_stars p) = Some ts' /\
    (forall s, some_suffix (glob nocase ts) s = some_suffix (glob nocase ts') s) /\
    glob nocase ts [] = glob nocase ts' [].
Proof.
  induction p as [|c p IH]; intros n ts Hp; [by exists n, ts|]. cbn [drop_stars].
  destruct (Z.eqb_spec c (chr "*"%byte)) as [->|]; [|by exists n, ts].
  destruct n as [|n]; [done|]. cbn [glob_parse] in Hp. rewrite Z.eqb_refl in Hp.
  destruct (glob_parse n p) as [ts1|] eqn:Hp1; [|done]. injection Hp as <-.
  destruct (IH _ _ Hp1) as (n' & ts' & Hp' & Hs & Hn). exists n', ts'. split; [done|]. cbn [glob]. split.
  - intros s. by rewrite (some_suffix_idem (glob nocase ts1)).
  - cbn. by rewrite orb_false_r.
Qed.

(** *** One token *)

Lemma fmap_cons_inv {A} (t : A) o ts : cons t <$> o = Some ts -> exists ts', o = Some ts' /\ ts = t :: ts'.
Proof. destruct o; [|done]. intros [= <-]. eauto. Qed.

Lemma match_case_spec fuel n c p1 ts i si s0 s :
  c <> chr "*"%byte -> glob_parse (Datatypes.S n) (c :: p1) = Some ts ->
  pat_at i (c :: p1) -> str_at si (s0 :: s) -> (length p1 < fuel)%nat ->
  exists t ts' r i', ts = t :: ts' /\ t <> TStar /\ glob_parse n r = Some ts' /\
    (length r <= length p1)%nat /\ pat_at (i' + 1) r /\
    match_case P S nocase fuel c i (Z.of_nat (length p1) + 1) si (Z.of_nat (length s) + 1)
    = Some (if tok_match nocase t s0
            then Some (i', Z.of_nat (length r) + 1, si + 1, Z.of_nat (length s)) else None).
Proof.
  intros Hc Hp Hat Hs Hf. pose proof (pat_at_tl _ _ _ Hat) as Hat1. pose proof (str_at_hd _ _ _ Hs) as Hs0.
  cbn [glob_parse] in Hp. rewrite (proj2 (Z.eqb_neq _ _) Hc) in Hp. unfold match_case.
  rewrite (Z.add_simpl_r (Z.of_nat (length s))).
  destruct (Z.eqb_spec c (chr "?"%byte)) as [->|Hq].
  { apply fmap_cons_inv in Hp as (ts' & Hp & ->). exists TAny, ts', p1, i.
    rewrite (proj2 (Z.eqb_neq _ 0)) by lia. done. }
  destruct (Z.eqb_spec c (chr "["%byte)) as [->|Hb].
  - rewrite Z.add_simpl_r.
    assert (exists p0 neg p2, rd P (i + 1) = Some p0 /\ (p0 =? chr "^"%byte) = neg /\
      (match p1 with d :: p2 => if d =? chr "^"%byte then (true, p2) else (false, p1) | [] => (false, p1) end)
        = (neg, p2) /\ (length p2 <= length p1)%nat /\
      exists j, pat_at j p2 /\
      (if neg then (i + 1 + 1, Z.of_nat (length p1) - 1) else (i + 1, Z.of_nat (length p1)))
        = (j, Z.of_nat (length p2))) as (p0 & neg & p2 & -> & Hneg & E & Hl2 & j & Hj & E2).
    { destruct p1 as [|d p2].
      - exists 0, false, []. rewrite (pat_at_nil _ Hat1). split_and!; try done. by exists (i + 1).
      - exists d. rewrite (pat_at_hd _ _ _ Hat1). destruct (d =? chr "^"%byte).
        + exists true, p2. split_and!; try done; [cbn; lia|]. exists (i + 1 + 1).
          split; [by eapply pat_at_tl|]. f_equal. cbn [length]. lia.
        + exists false, (d :: p2). split_and!; try done. by exists (i + 1). }
    rewrite E in Hp. cbn [option_bind mbind]. rewrite Hneg, E2.
    destruct (parse_class p2) as [[its p3]|] eqn:Hcl; [|done].
    apply fmap_cons_inv in Hp as (ts' & Hp & ->).
    destruct (class_loop_spec si s0 fuel p2 its p3 j false Hcl Hj Hs0) as (i' & -> & Hi' & Hlen); [lia|].
    exists (TClass neg its), ts', p3, i'. split_and!; try done; [lia|]. cbn [option_bind mbind tok_match].
    rewrite orb_false_r. by destruct neg, (existsb _ _).
  - destruct (Z.eqb_spec c (chr "\"%byte)) as [->|Hbs]; cbn [andb].
    + destruct p1 as [|d p2].
      * injection Hp as <-. exists (TLit (chr "\"%byte)), [], [], i.
        rewrite (proj2 (Z.leb_gt 2 _)) by (cbn; lia). cbv beta iota.
        rewrite (pat_at_hd _ _ _ Hat), Hs0. cbn [option_bind mbind tok_match].
        rewrite char_eq_spec. split_and!; try done; [by destruct n|]. by destruct (same_char _ _ _).
      * apply fmap_cons_inv in Hp as (ts' & Hp & ->). exists (TLit d), ts', p2, (i + 1).
        rewrite (proj2 (Z.leb_le 2 _)) by (cbn [length]; lia). cbv beta iota.
        rewrite (pat_at_hd _ _ _ Hat1), Hs0. cbn [option_bind mbind tok_match].
        rewrite char_eq_spec. split_and!; try done; [cbn; lia|by eapply pat_at_tl|].
        replace (Z.of_nat (length (d :: p2)) + 1 - 1) with (Z.of_nat (length p2) + 1) by (cbn [length]; lia).
        by destruct (same_char _ _ _).
    + apply fmap_cons_inv in Hp as (ts' & Hp & ->). exists (TLit c), ts', p1, i.
      rewrite (pat_at_hd _ _ _ Hat), Hs0. cbn [option_bind mbind tok_match].
      rewrite char_eq_spec. split_and!; try done. by destruct (same_char _ _ _).
Qed.

Lemma nonstar_nil n p ts c p1 :
  glob_parse n p = Some ts -> p = c :: p1 -> c <> chr "*"%byte -> glob nocase ts [] = false.
Proof.
  intros Hp -> Hc. destruct n as [|n]; [done|]. cbn [glob_parse] in Hp.
  rewrite (proj2 (Z.eqb_neq _ _) Hc) in Hp.
  destruct (c =? chr "?"%byte); [by apply fmap_cons_inv in Hp as (? & _ & ->)|].
  destruct (c =? chr "["%byte).
  - destruct (match p1 with [] => _ | _ => _ end) as [neg p2].
    destruct (parse_class p2) as [[its p3]|]; [|done]. by apply fmap_cons_inv in Hp as (? & _ & ->).
  - destruct (c =? chr "\"%byte); [destruct p1; [by injection Hp as <-|]|];
      by apply fmap_cons_inv in Hp as (? & _ & ->).
Qed.

Lemma star_loop_spec rec f L fuel : forall si s,
  (forall si s, str_at si s -> s <> [] -> (length s <= L)%nat -> rec si (Z.of_nat (length s)) = Some (f s)) ->
  f [] = false -> str_at si s -> (length s <= L)%nat -> (length s < fuel)%nat ->
  star_loop rec fuel si (Z.of_nat (length s)) = Some (some_suffix f s).
Proof.
  induction fuel as [|fuel IH]; intros si s Hrec Hnil Hs Hle Hf; [lia|]. cbn [star_loop].
  destruct s as [|c s]; [cbn; by rewrite Hnil|].
  rewrite (proj2 (Z.eqb_neq _ 0)) by (cbn; lia). rewrite Hrec by (done || lia). cbn [option_bind mbind some_suffix].
  destruct (f (c :: s)); [done|]. cbn [orb].
  replace (Z.of_nat (length (c :: s)) - 1) with (Z.of_nat (length s)) by (cbn [length]; lia).
  cbn [length] in *. apply IH; try done; [by eapply str_at_tl|lia|lia].
Qed.

Lemma stringmatch_loop_spec fuel : forall n p ts i s si,
  glob_parse n p = Some ts -> pat_at i p -> str_at si s -> s <> [] ->
  (length p + length s + 2 <= fuel)%nat ->
  stringmatch_loop P S nocase fuel i (Z.of_nat (length p)) si (Z.of_nat (length s)) = Some (glob nocase ts s).
Proof.
  induction fuel as [|fuel IH]; intros n p ts i s si Hp Hat Hs Hne Hf; [lia|]. cbn [stringmatch_loop].
  destruct p as [|c p1].
  { assert (ts = []) as -> by (destruct n; cbn in Hp; congruence). by destruct s. }
  rewrite (proj2 (Z.eqb_neq (Z.of_nat (length (c :: p1))) 0)) by (cbn; lia).
  rewrite (pat_at_hd _ _ _ Hat). cbn [option_bind mbind]. cbn [length] in Hf.
  replace (Z.of_nat (length (c :: p1))) with (Z.of_nat (length p1) + 1) by (cbn [length]; lia).
  destruct n as [|n]; [done|]. destruct (Z.eqb_spec c (chr "*"%byte)) as [->|Hc].
  - cbn [glob_parse] in Hp. rewrite Z.eqb_refl in Hp.
    apply fmap_cons_inv in Hp as (ts' & Hp & ->). cbn [glob].
    destruct (star_skip_spec fuel i p1 Hat) as (i' & -> & Hi'); [lia|]. cbn [option_bind mbind].
    destruct (parse_drop_stars _ _ _ Hp) as (n' & ts2 & Hp2 & Hss & _). rewrite Hss.
    pose proof (length_drop_stars p1) as Hlen. rewrite Z.add_simpl_r.
    destruct (drop_stars p1) as [|c2 p2] eqn:Hds.
    + cbn. assert (ts2 = []) as -> by (destruct n'; cbn in Hp2; congruence).
      f_equal. symmetry. clear. induction s as [|c s IHs]; [done|]. cbn in *. by rewrite IHs.
    + rewrite (proj2 (Z.eqb_neq _ 1)) by (cbn; lia).
      assert (c2 <> chr "*"%byte) as Hc2.
      { clear -Hds. induction p1 as [|a p1 IHp]; [done|]. cbn in Hds.
        destruct (Z.eqb_spec a (chr "*"%byte)); [by apply IHp|congruence]. }
      apply (star_loop_spec _ _ (length s)); [|by eapply nonstar_nil|done|lia|lia].
      intros si' s' Hs' Hne' Hl'. eapply IH; try done; [by eapply pat_at_tl|].
      cbn [length] in *. lia.
  - destruct s as [|s0 s]; [done|]. cbn [length] in Hf |- *.
    replace (Z.of_nat (Datatypes.S (length s))) with (Z.of_nat (length s) + 1) by lia.
    destruct (match_case_spec fuel n c p1 ts i si s0 s Hc Hp Hat Hs) as
      (t & ts' & r & i' & -> & Ht & Hr & Hlr & Hi' & ->); [lia|]. cbn [option_bind mbind].
    assert (glob nocase (t :: ts') (s0 :: s) = tok_match nocase t s0 && glob nocase ts' s) as -> by by destruct t.
    destruct (tok_match nocase t s0); [|done]. cbn [andb]. rewrite Z.add_simpl_r.
    pose proof (str_at_tl _ _ _ Hs) as Hs1. destruct s as [|s1 s].
    + cbn [length Z.of_nat Z.eqb].
      destruct (trailing_stars_spec fuel (i' + 1) r Hi') as (i2 & ->); [lia|]. cbn [option_bind mbind].
      rewrite andb_true_r. f_equal.
      destruct (parse_drop_stars _ _ _ Hr) as (n2 & ts2 & Hp2 & _ & ->).
      destruct (drop_stars r) as [|c2 p2] eqn:Hds.
      * assert (ts2 = []) as -> by (destruct n2; cbn in Hp2; congruence). done.
      * rewrite (nonstar_nil _ _ _ _ _ Hp2 eq_refl); [done|].
        clear -Hds. induction r as [|a r IHr]; [done|]. cbn in Hds.
        destruct (Z.eqb_spec a (chr "*"%byte)); [by apply IHr|congruence].
    + rewrite (proj2 (Z.eqb_neq _ 0)) by (cbn; lia).
      eapply IH; try done. cbn [length] in *. lia.
Qed.
End Matcher.

(** The whole match, on NUL-terminated buffers. *)
Lemma stringmatchlen_parsed p s t nocase ts :
  glob_parse (length p) (char_val <$> p) = Some ts -> s <> [] ->
  stringmatchlen (p ++ [z2b 0]) (Z.of_nat (length p)) (s ++ t) (Z.of_nat (length s)) nocase
  = Some (glob nocase ts (char_val <$> s)).
Proof.
  intros Hp Hs. unfold stringmatchlen.
  rewrite <-(length_fmap char_val p), <-(length_fmap char_val s).
  apply (stringmatch_loop_spec _ _ _ _ (length p)); [done| | |by destruct s|].
  - intros k Hk. rewrite length_fmap in Hk. unfold rd. rewrite decide_True by lia.
    replace (Z.to_nat (0 + Z.of_nat k)) with k by lia.
    rewrite <-list_lookup_fmap, fmap_app. done.
  - intros k Hk. rewrite length_fmap in Hk. unfold rd. rewrite decide_True by lia.
    replace (Z.to_nat (0 + Z.of_nat k)) with k by lia.
    by rewrite lookup_app_l, list_lookup_fmap by done.
  - rewrite !length_fmap, !length_app. lia.
Qed.
