(* ===== verification/UtilNum.v ===== *)
(** UtilNum: decimal numerals and the number conversions of [util.c]. *)
From S2P Require Import Prelude Util.
Import (notations) Corelib.Init.Byte.

(** ** Decimal numerals *)

Definition digit (v : Z) : byte := z2b (48 + v mod 10).
Definition is_digit (b : byte) : bool := isdigit (b2z b).
Definition dig (b : byte) : Z := b2z b - 48.

(** The shortest decimal numeral of [v < 10^k]. *)
Fixpoint dec (k : nat) (v : Z) : list byte :=
  match k with
  | O => []
  | Datatypes.S k => if v <? 10 then [digit v] else dec k (v / 10) ++ [digit v]
  end.

Definition print_nat (v : Z) : list byte := dec 20 v.
Definition print_int (v : Z) : list byte :=
  if v <? 0 then "-"%byte :: print_nat (- v) else print_nat v.

(** The number a digit string stands for, after a prefix worth [v]. *)
Definition dval (v : Z) (s : list byte) : Z := fold_left (fun v b => 10 * v + dig b) s v.


Lemma digit_val v : b2z (digit v) = 48 + v mod 10.
Proof.
  unfold digit. rewrite b2z_z2b. pose proof (Z.mod_pos_bound v 10). apply Z.mod_small. lia.
Qed.
Lemma dig_digit v : dig (digit v) = v mod 10.
Proof. unfold dig. rewrite digit_val. lia. Qed.
Lemma is_digit_digit v : is_digit (digit v) = true.
Proof.
  unfold is_digit, isdigit. rewrite digit_val. pose proof (Z.mod_pos_bound v 10). lia.
Qed.
Lemma is_digit_range b : is_digit b = true -> 0 <= dig b < 10.
Proof. unfold is_digit, isdigit, dig. lia. Qed.
Lemma digit_of_dig b v : is_digit b = true -> v mod 10 = dig b -> digit v = b.
Proof. intros Hb Hv. apply b2z_inj. rewrite digit_val, Hv. unfold dig. lia. Qed.

Lemma dval_app v s t : dval v (s ++ t) = dval (dval v s) t.
Proof. apply fold_left_app. Qed.
Lemma dval_cons v b s : dval v (b :: s) = dval (10 * v + dig b) s.
Proof. done. Qed.
Lemma dval_ge v s : 0 <= v -> Forall (fun b => is_digit b = true) s -> v <= dval v s.
Proof.
  intros Hv Hs. revert v Hv. induction Hs as [|b s Hb _ IH]; intros v Hv; [cbn; lia|].
  rewrite dval_cons. pose proof (is_digit_range b Hb). etrans; [|apply IH; lia]. lia.
Qed.

Lemma dec_spec k : forall v, 0 <= v < 10 ^ Z.of_nat k ->
  (0 < k)%nat -> dval 0 (dec k v) = v /\ Forall (fun b => is_digit b = true) (dec k v) /\
  (length (dec k v) <= k)%nat /\
  exists b s, dec k v = b :: s /\ (0 < v -> 0 < dig b) /\ (v = 0 -> s = []).
Proof.
  induction k as [|k IH]; intros v Hv Hk; [lia|]. cbn [dec].
  destruct (Z.ltb_spec v 10) as [Hlt|Hge].
  - unfold dval. cbn -[dig digit]. rewrite dig_digit, Z.mod_small by lia. split_and!; [done| |lia|].
    + repeat constructor. apply is_digit_digit.
    + exists (digit v), []. rewrite dig_digit, Z.mod_small by lia. done.
  - rewrite Nat2Z.inj_succ, Z.pow_succ_r in Hv by lia.
    assert (1 <= v / 10) as H1 by (apply Z.div_le_lower_bound; lia).
    assert (v / 10 < 10 ^ Z.of_nat k) as H2 by (apply Z.div_lt_upper_bound; lia).
    assert (0 < k)%nat as Hk' by (destruct k; [cbn in *; lia|lia]).
    destruct (IH (v / 10)) as (Hd & Hf & Hl & b & s & E & Hb & Hs); [lia|done|].
    rewrite dval_app, Hd. split_and!.
    + unfold dval. cbn [fold_left]. rewrite dig_digit. pose proof (Z.div_mod v 10). lia.
    + apply Forall_app. split; [done|]. repeat constructor. apply is_digit_digit.
    + rewrite length_app. cbn. lia.
    + exists b, (s ++ [digit v]). rewrite E. split_and!; [done|lia|lia].
Qed.

Lemma dec_fuel k1 : forall k2 v,
  0 <= v < 10 ^ Z.of_nat k1 -> v < 10 ^ Z.of_nat k2 -> (0 < k1)%nat -> (0 < k2)%nat -> dec k1 v = dec k2 v.
Proof.
  induction k1 as [|k1 IH]; intros [|k2] v H1 H2 Hk1 Hk2; try lia. cbn [dec].
  destruct (Z.ltb_spec v 10) as [Hlt|Hge]; [done|]. f_equal.
  rewrite Nat2Z.inj_succ, Z.pow_succ_r in H1, H2 by lia.
  assert (1 <= v / 10) by (apply Z.div_le_lower_bound; lia).
  assert (v / 10 < 10 ^ Z.of_nat k1) by (apply Z.div_lt_upper_bound; lia).
  assert (v / 10 < 10 ^ Z.of_nat k2) by (apply Z.div_lt_upper_bound; lia).
  apply IH; [lia|lia| |]; [destruct k1; [cbn in *; lia|lia]|destruct k2; [cbn in *; lia|lia]].
Qed.

(** A digit string without a leading zero is the numeral of its value. *)
Lemma print_dval b s :
  is_digit b = true -> 0 < dig b -> Forall (fun b => is_digit b = true) s ->
  dval (dig b) s < 10 ^ 20 -> print_nat (dval (dig b) s) = b :: s.
Proof.
  intros Hb Hb0 Hs. pose proof (is_digit_range b Hb) as Hbr.
  induction s as [|c s IH] using rev_ind; intros Hlt.
  - cbn in *. unfold print_nat. cbn [dec]. rewrite (proj2 (Z.ltb_lt _ 10)) by lia. f_equal.
    apply digit_of_dig; [done|]. apply Z.mod_small. lia.
  - apply Forall_app in Hs as [Hs Hc]. inversion Hc as [|? ? Hcd _]; subst.
    rewrite dval_app in Hlt |- *. cbn [dval fold_left] in Hlt |- *. unfold dval in Hlt |- *. cbn [fold_left] in Hlt |- *.
    fold (dval (dig b) s) in Hlt |- *. set (w := dval (dig b) s) in *.
    pose proof (dval_ge (dig b) s ltac:(lia) Hs) as Hge. fold w in Hge. pose proof (is_digit_range c Hcd).
    assert ((10 * w + dig c) / 10 = w) as Hdiv by (symmetry; apply (Z.div_unique_pos _ _ _ (dig c)); lia).
    assert ((10 * w + dig c) mod 10 = dig c) as Hmod by (symmetry; apply (Z.mod_unique_pos _ _ w); lia).
    unfold print_nat. change (dec 20 ?v) with (if v <? 10 then [digit v] else dec 19 (v / 10) ++ [digit v]).
    cbv beta. rewrite (proj2 (Z.ltb_ge _ 10)) by lia. rewrite Hdiv, (digit_of_dig c) by done.
    rewrite (dec_fuel 19 20 w) by lia. fold (print_nat w). rewrite IH by (done || lia). done.
Qed.

(** ** [ll2string] *)

Lemma ll2string_loop_spec k : forall fuel pre x rest v,
  0 <= v < 10 ^ Z.of_nat k -> (0 < k <= fuel)%nat -> (k <= length pre + 1)%nat ->
  exists pre', ll2string_loop fuel (pre ++ x :: rest) (Z.of_nat (length pre)) v
    = Some (pre' ++ dec k v ++ rest, Z.of_nat (length pre') - 1) /\
    (length pre' + length (dec k v) = length pre + 1)%nat.
Proof.
  induction k as [|k IH]; intros fuel pre x rest v Hv Hk Hp; [lia|].
  destruct fuel as [|fuel]; [lia|]. cbn [ll2string_loop dec]. fold (digit v).
  change (pre ++ x :: rest) with (pre ++ [x] ++ rest). rewrite mem_write_app by done. cbn [option_bind mbind].
  destruct (Z.ltb_spec v 10) as [Hlt|Hge].
  - rewrite Z.div_small by lia. cbn [Z.eqb]. exists pre. split; [done|]. done.
  - rewrite Nat2Z.inj_succ, Z.pow_succ_r in Hv by lia.
    assert (1 <= v / 10) as H1 by (apply Z.div_le_lower_bound; lia).
    assert (v / 10 < 10 ^ Z.of_nat k) as H2 by (apply Z.div_lt_upper_bound; lia).
    assert (0 < k)%nat by (destruct k; [cbn in *; lia|lia]).
    rewrite (proj2 (Z.eqb_neq (v / 10) 0)) by lia.
    destruct pre as [|x' pre _] using rev_ind; [cbn in Hp; lia|].
    rewrite length_app in *. cbn [length] in *. rewrite <-app_assoc. cbn [app].
    replace (Z.of_nat (length pre + 1) - 1) with (Z.of_nat (length pre)) by lia.
    destruct (IH fuel pre x' (digit v :: rest) (v / 10)) as (pre' & -> & Hl); [lia|lia|lia|].
    exists pre'. rewrite <-app_assoc, length_app. cbn. split; [done|lia].
Qed.

(** The digits and the sign, at the end of a buffer of 32. *)
Lemma ll2string_digits junk v : - 2 ^ 63 < v < 2 ^ 63 ->
  exists pre,
    (w ← (if v <? 0 then chk64 (- v) else Some v);
     '(buf, p) ← ll2string_loop 32 (map junk (seq 0 32)) 31 w;
     if v <? 0 then b ← mem_write buf p ["-"%byte]; Some (b, p - 1) else Some (buf, p))
    = Some (pre ++ print_int v, Z.of_nat (length pre) - 1) /\
    (length pre + length (print_int v) = 32)%nat.
Proof.
  intros Hv.
  assert (exists w, (if v <? 0 then chk64 (- v) else Some v) = Some w /\ w = Z.abs v) as (w & -> & ->).
  { destruct (Z.ltb_spec v 0); [rewrite chk64_ok by lia|]; (eexists; split; [reflexivity|lia]). }
  cbn [option_bind mbind].
  assert (map junk (seq 0 32) = map junk (seq 0 31) ++ [junk 31%nat]) as -> by done.
  destruct (ll2string_loop_spec 20 32 (map junk (seq 0 31)) (junk 31%nat) [] (Z.abs v)) as (pre & E & Hl);
    [lia|lia|rewrite length_map, length_seq; lia|].
  rewrite length_map, length_seq in E, Hl. change (Z.of_nat 31) with 31 in E. rewrite E. cbn [option_bind mbind].
  fold (print_nat (Z.abs v)) in *. rewrite app_nil_r. clear E. unfold print_int. destruct (Z.ltb_spec v 0).
  - rewrite Z.abs_neq in * by lia.
    assert (length (print_nat (- v)) <= 20)%nat by (destruct (dec_spec 20 (- v)) as (_ & _ & ? & _); [lia|lia|done]).
    destruct pre as [|y pre _] using rev_ind; [cbn [length] in Hl; lia|]. rewrite length_app in *. cbn [length] in *.
    exists pre. rewrite <-app_assoc. cbn [app].
    change (y :: print_nat (- v)) with ([y] ++ print_nat (- v)). rewrite mem_write_app by (cbn; lia).
    cbn [option_bind mbind length]. split; [|lia]. do 2 f_equal. lia.
  - rewrite Z.abs_eq in * by lia. exists pre. split; [done|lia].
Qed.

Lemma ll2string_spec junk len v :
  - 2 ^ 63 < v < 2 ^ 63 -> 0 < len ->
  let l := Z.min (len - 1) (Z.of_nat (length (print_int v))) in
  ll2string junk len v = Some (take (Z.to_nat l) (print_int v) ++ [z2b 0], l).
Proof.
  intros Hv Hlen l. unfold ll2string. rewrite (proj2 (Z.eqb_neq len 0)) by lia. cbv zeta.
  destruct (ll2string_digits junk v Hv) as (pre & E & Hl).
  destruct (if v <? 0 then chk64 (- v) else Some v) as [w|]; [|done]. cbn [option_bind mbind] in *.
  destruct (ll2string_loop 32 (map junk (seq 0 32)) 31 w) as [[buf p]|]; [|done]. cbn [option_bind mbind] in *. rewrite E. clear E.
  cbn [option_bind mbind]. replace (32 - (Z.of_nat (length pre) - 1 + 1)) with (Z.of_nat (length (print_int v))) by lia.
  assert ((if len <? Z.of_nat (length (print_int v)) + 1 then len - 1 else Z.of_nat (length (print_int v))) = l)
    as -> by (unfold l; destruct (Z.ltb_spec len (Z.of_nat (length (print_int v)) + 1)); lia).
  rewrite <-(take_drop (Z.to_nat l) (print_int v)) at 1.
  rewrite mem_read_app by (rewrite ?length_take; lia). done.
Qed.

(** ** [string2ll] *)



Lemma chr_is_digit b : (chr "0"%byte <=? char_val b) && (char_val b <=? chr "9"%byte) = is_digit b.
Proof.
  change (chr "0"%byte) with 48. change (chr "9"%byte) with 57. rewrite char_val_b2z.
  unfold is_digit, isdigit. pose proof (b2z_range b). destruct (Z.ltb_spec (b2z b) 128); lia.
Qed.
Lemma char_val_dig b : is_digit b = true -> char_val b - chr "0"%byte = dig b.
Proof.
  intros H%is_digit_range. unfold dig in *. rewrite char_val_b2z. change (chr "0"%byte) with 48.
  destruct (Z.ltb_spec (b2z b) 128); lia.
Qed.

Definition digits (s : list byte) : Prop := Forall (fun b => is_digit b = true) s.

Lemma string2ll_loop_spec r : forall fuel pre t v,
  (length r < fuel)%nat -> 0 <= v < 2 ^ 64 ->
  exists res, string2ll_loop fuel (pre ++ r ++ t) (Z.of_nat (length pre + length r)) (Z.of_nat (length pre)) v = Some res /\
    (digits r -> res = if dval v r <? 2 ^ 64 then Some (Z.of_nat (length pre + length r), dval v r) else None) /\
    (~ digits r -> match res with None => True | Some (p, _) => p < Z.of_nat (length pre + length r) end).
Proof.
  induction r as [|b r IH]; intros fuel pre t v Hf Hv; (destruct fuel as [|fuel]; [cbn in Hf; lia|]); cbn [string2ll_loop].
  { rewrite (proj2 (Z.ltb_ge _ _)) by (cbn; lia). eexists. split; [reflexivity|]. split.
    - intros _. cbn [dval fold_left length]. unfold dval. cbn [fold_left]. rewrite (proj2 (Z.ltb_lt v _)) by lia.
      do 2 f_equal. lia.
    - intros H. destruct H. constructor. }
  rewrite (proj2 (Z.ltb_lt _ _)) by (cbn [length]; lia). rewrite rd_app by done. cbn [option_bind mbind].
  rewrite chr_is_digit. cbn [length] in Hf. destruct (is_digit b) eqn:Hb.
  2:{ eexists. split; [reflexivity|]. split; [|intros _; cbn [length]; lia].
      intros H. inversion H. congruence. }
  rewrite char_val_dig by done. pose proof (is_digit_range b Hb). rewrite dval_cons.
  change ((2 ^ 64 - 1) / 10) with 1844674407370955161.
  assert (forall w, 0 <= w -> 2 ^ 64 <= w -> digits r -> (dval w r <? 2 ^ 64) = false) as Hov.
  { intros w Hw1 Hw2 Hd. apply Z.ltb_ge. pose proof (dval_ge w r Hw1 Hd). lia. }
  destruct (Z.ltb_spec 1844674407370955161 v).
  { eexists. split; [reflexivity|]. split; [|done]. intros Hd. inversion Hd. by rewrite Hov by (done || lia). }
  rewrite (u64_small (v * 10)) by lia. destruct (Z.ltb_spec (2 ^ 64 - 1 - dig b) (v * 10)).
  { eexists. split; [reflexivity|]. split; [|done]. intros Hd. inversion Hd. by rewrite Hov by (done || lia). }
  rewrite u64_small by lia. replace (v * 10 + dig b) with (10 * v + dig b) by lia.
  destruct (IH fuel (pre ++ [b]) t (10 * v + dig b)) as (res & E & Hd & Hn); [lia|lia|].
  rewrite length_app in E, Hd, Hn. cbn [length] in E, Hd, Hn |- *. rewrite <-app_assoc in E. cbn [app] in E |- *.
  exists res. split; [|split].
  - rewrite <-E. f_equal; lia.
  - intros Hds. inversion Hds as [|? ? _ Hr]. rewrite Hd by done. by replace (length pre + 1 + length r)%nat with (length pre + Datatypes.S (length r))%nat by lia.
  - intros Hds. assert (~ digits r) as Hr by (intros Hr; apply Hds; by constructor).
    specialize (Hn Hr). by replace (length pre + 1 + length r)%nat with (length pre + Datatypes.S (length r))%nat in Hn by lia.
Qed.

(** The strings that are numerals of 64-bit integers. *)
Inductive numeral : list byte -> Z -> Prop :=
| num_zero : numeral ["0"%byte] 0
| num_pos b s : is_digit b = true -> 0 < dig b -> digits s -> dval (dig b) s < 2 ^ 63 ->
    numeral (b :: s) (dval (dig b) s)
| num_neg b s : is_digit b = true -> 0 < dig b -> digits s -> dval (dig b) s <= 2 ^ 63 ->
    numeral ("-"%byte :: b :: s) (- dval (dig b) s).

Lemma numeral_print s v : numeral s v <-> int64 v /\ s = print_int v.
Proof.
  unfold int64. split.
  - intros []; unfold print_int.
    + done.
    + pose proof (is_digit_range b H). pose proof (dval_ge (dig b) s0 ltac:(lia) H1).
      rewrite (proj2 (Z.ltb_ge _ 0)) by lia. rewrite print_dval by (done || lia). split; [lia|done].
    + pose proof (is_digit_range b H). pose proof (dval_ge (dig b) s0 ltac:(lia) H1).
      rewrite (proj2 (Z.ltb_lt _ 0)) by lia. rewrite Z.opp_involutive, print_dval by (done || lia). split; [lia|done].
  - intros [Hv ->]. unfold print_int.
    destruct (dec_spec 20 (Z.abs v)) as (Hd & Hf & _ & b & s & E & Hb & Hs); [lia|lia|].
    fold (print_nat (Z.abs v)) in *. rewrite E in Hd, Hf. inversion Hf as [|? ? Hb0 Hf']; subst.
    unfold dval in Hd. cbn [fold_left] in Hd. fold (dval (10 * 0 + dig b) s) in Hd.
    replace (10 * 0 + dig b) with (dig b) in Hd by lia.
    destruct (Z.ltb_spec v 0).
    + rewrite Z.abs_neq in * by lia. rewrite E. replace v with (- dval (dig b) s) by lia.
      constructor; (done || lia).
    + rewrite Z.abs_eq in * by lia. destruct (Z.eq_dec v 0) as [->|]; [constructor|].
      rewrite E. replace v with (dval (dig b) s) by lia. constructor; (done || lia).
Qed.

Lemma chr_is_digit1 b :
  (chr "1"%byte <=? char_val b) && (char_val b <=? chr "9"%byte) = is_digit b && (0 <? dig b).
Proof.
  change (chr "1"%byte) with 49. change (chr "9"%byte) with 57. rewrite char_val_b2z.
  unfold is_digit, isdigit, dig. pose proof (b2z_range b). destruct (Z.ltb_spec (b2z b) 128); lia.
Qed.

Lemma numeral_neg_iff c s v :
  numeral ("-"%byte :: c :: s) v <->
  (is_digit c && (0 <? dig c) = true /\ digits s) /\ dval (dig c) s <= 2 ^ 63 /\ v = - dval (dig c) s.
Proof.
  rewrite andb_true_iff, Z.ltb_lt. split.
  - inversion 1; subst; [done|]. done.
  - intros (([? ?] & ?) & ? & ->). by constructor.
Qed.

Lemma numeral_pos_iff b s v :
  b <> "-"%byte -> ~ (b = "0"%byte /\ s = []) ->
  numeral (b :: s) v <->
  (is_digit b && (0 <? dig b) = true /\ digits s) /\ dval (dig b) s < 2 ^ 63 /\ v = dval (dig b) s.
Proof.
  intros Hb Hz. rewrite andb_true_iff, Z.ltb_lt. split.
  - inversion 1; subst; [by destruct Hz|done|done].
  - intros (([? ?] & ?) & ? & ->). by constructor.
Qed.

(** The loop entered after a first digit, with [pre] before it. *)
Lemma string2ll_rest pre b s t :
  is_digit b && (0 <? dig b) = true ->
  exists res, string2ll_loop (Z.to_nat (Z.of_nat (length (pre ++ b :: s))) + 1) (pre ++ (b :: s) ++ t)
      (Z.of_nat (length (pre ++ b :: s))) (Z.of_nat (length pre) + 1) (char_val b - chr "0"%byte) = Some res /\
    match res with
    | Some (p, v) => (p <? Z.of_nat (length (pre ++ b :: s))) = false <-> digits s
    | None => digits s -> 2 ^ 64 <= dval (dig b) s
    end /\
    forall p v, res = Some (p, v) -> digits s -> v = dval (dig b) s /\ 0 <= v < 2 ^ 64.
Proof.
  intros [Hb Hb0]%andb_true_iff. pose proof (is_digit_range b Hb). rewrite char_val_dig by done.
  destruct (string2ll_loop_spec s (Z.to_nat (Z.of_nat (length (pre ++ b :: s))) + 1) (pre ++ [b]) t (dig b))
    as (res & E & Hd & Hn); [rewrite length_app; cbn; lia|lia|].
  rewrite !length_app in *. cbn [length] in *. rewrite <-app_assoc in E.
  replace (length pre + 1 + length s)%nat with (length pre + Datatypes.S (length s))%nat in * by lia.
  exists res. split; [rewrite <-E; cbn [app]; f_equal; lia|].
  assert (Decision (digits s)) as D by (unfold digits; apply _).
  destruct D as [Hs|Hs].
  - specialize (Hd Hs). pose proof (dval_ge (dig b) s ltac:(lia) Hs).
    destruct (Z.ltb_spec (dval (dig b) s) (2 ^ 64)); subst res; [|done].
    split; [by rewrite Z.ltb_irrefl|]. intros p v [= <- <-] _. split; [done|lia].
  - specialize (Hn Hs). destruct res as [[p v]|]; [|done]. split; [|done].
    rewrite (proj2 (Z.ltb_lt _ _)) by done. by split.
Qed.

Lemma string2ll_spec s t :
  exists r, string2ll (s ++ t) (Z.of_nat (length s)) = Some r /\ (forall v, r = Some v <-> numeral s v).
Proof.
  unfold string2ll. destruct s as [|b s]; cbv zeta.
  { eexists. split; [reflexivity|]. intros v. split; [done|]. by inversion 1. }
  rewrite (proj2 (Z.eqb_neq 0 _)) by (cbn; lia).
  rewrite (rd_app [] b s t) by done. cbn [option_bind mbind]. rewrite !chr_eq.
  destruct ((Z.of_nat (length (b :: s)) =? 1) && bool_decide (b = "0"%byte)) eqn:E0.
  { apply andb_true_iff in E0 as [E0 ->%bool_decide_eq_true]. apply Z.eqb_eq in E0.
    destruct s; [|cbn in E0; lia]. eexists. split; [reflexivity|]. intros v. split.
    - intros [= <-]. constructor.
    - inversion 1; subst; done. }
  assert (~ (b = "0"%byte /\ s = [])) as Hz.
  { intros [-> ->]. done. }
  destruct (bool_decide_reflect (b = "-"%byte)) as [->|Hm]; cbn [andb].
  - destruct s as [|c s].
    { eexists. split; [reflexivity|]. intros v. split; [done|]. inversion 1; done. }
    rewrite (proj2 (Z.eqb_neq (0 + 1) _)) by (cbn; lia). rewrite (rd_app ["-"%byte] c s t) by done.
    cbn [option_bind mbind]. rewrite chr_is_digit1. setoid_rewrite numeral_neg_iff.
    destruct (is_digit c && (0 <? dig c)) eqn:Hc.
    + destruct (string2ll_rest ["-"%byte] c s t Hc) as (res & E & Hp & Hv).
      cbn [app length] in E, Hp |- *. change (Z.of_nat 1 + 1) with (0 + 1 + 1) in E. rewrite E. cbn [option_bind mbind].
      destruct res as [[p w]|].
      * destruct (p <? _) eqn:Hlt.
        { eexists. split; [reflexivity|]. intros v. split; [done|]. intros ([_ Hs] & _). by apply Hp in Hs. }
        destruct (Hv p w eq_refl) as [-> Hw]; [by apply Hp|]. pose proof (proj1 Hp eq_refl).
        destruct (Z.ltb_spec (2 ^ 63) (dval (dig c) s)); (eexists; split; [reflexivity|]); intros v.
        -- split; [done|lia].
        -- unfold u64, s64. rewrite swrap_mod, swrap_small by lia. split; [by intros [= <-]|].
           by intros (_ & _ & ->).
      * eexists. split; [reflexivity|]. intros v. split; [done|]. intros ([_ Hs] & ? & _). apply Hp in Hs. lia.
    + rewrite (proj2 (Z.eqb_neq _ 1)), andb_false_r by (cbn; lia).
      eexists. split; [reflexivity|]. intros v. split; [done|]. by intros ([? _] & _).
  - rewrite (rd_app [] b s t) by done. cbn [option_bind mbind]. rewrite chr_is_digit1, chr_eq.
    setoid_rewrite numeral_pos_iff; [|done|done].
    destruct (is_digit b && (0 <? dig b)) eqn:Hc.
    + destruct (string2ll_rest [] b s t Hc) as (res & E & Hp & Hv).
      cbn [app] in E, Hp |- *. change (Z.of_nat (length []) + 1) with (0 + 1) in E. rewrite E. cbn [option_bind mbind].
      destruct res as [[p w]|].
      * destruct (p <? _) eqn:Hlt.
        { eexists. split; [reflexivity|]. intros v. split; [done|]. intros ([_ Hs] & _). by apply Hp in Hs. }
        destruct (Hv p w eq_refl) as [-> Hw]; [by apply Hp|]. pose proof (proj1 Hp eq_refl).
        destruct (Z.ltb_spec (2 ^ 63 - 1) (dval (dig b) s)); (eexists; split; [reflexivity|]); intros v.
        -- split; [done|lia].
        -- split; [intros [= <-]; split; [done|lia]|]. by intros (_ & _ & ->).
      * eexists. split; [reflexivity|]. intros v. split; [done|]. intros ([_ Hs] & ? & _). apply Hp in Hs. lia.
    + rewrite andb_comm, E0. eexists. split; [reflexivity|]. intros v. split; [done|]. by intros ([? _] & _).
Qed.

(** [string2ll] on the numerals as they are printed. *)
Lemma string2ll_iff s t v :
  string2ll (s ++ t) (Z.of_nat (length s)) = Some (Some v) <-> int64 v /\ s = print_int v.
Proof.
  destruct (string2ll_spec s t) as (r & -> & Hr). rewrite <-numeral_print, <-Hr. by split; [intros [= ->]|intros ->].
Qed.

Lemma length_print_int v : int64 v -> (0 < length (print_int v) <= 20)%nat.
Proof.
  intros Hv. unfold int64 in Hv. unfold print_int, print_nat. destruct (Z.ltb_spec v 0).
  - rewrite (dec_fuel 20 19) by lia. destruct (dec_spec 19 (- v)) as (_ & _ & ? & _); [lia|lia|]. cbn [length]. lia.
  - destruct (dec_spec 20 v) as (_ & _ & ? & b & s & E & _); [lia|lia|]. split; [|done]. rewrite E. cbn. lia.
Qed.
