(* ===== verification/UtilSpec.v ===== *)
(** UtilSpec: the theorems about the functions of [util.c]. *)
From S2P Require Import Prelude Util UtilProofs UtilNum.
Import (notations) Corelib.Init.Byte.

(** ** Glob patterns *)

(** C37: for a NUL-terminated pattern that parses ([glob_parse]: see
    [stringmatchlen_defects] for one that does not) and a non-empty string, the
    matcher terminates, reads only inside the two buffers and returns what the
    reference semantics of the pattern says: ['*'] any sequence, ['?'] any
    character, classes with ranges, negation and quoting, case folding on
    request. *)
Theorem stringmatchlen_glob p s t nocase ts :
  glob_parse (length p) (char_val <$> p) = Some ts -> s <> [] ->
  stringmatchlen (p ++ [z2b 0]) (Z.of_nat (length p)) (s ++ t) (Z.of_nat (length s)) nocase
  = Some (glob nocase ts (char_val <$> s)).
Proof. apply stringmatchlen_parsed. Qed.

(** Pattern "h[^a-c\]]*l?" *)
Definition sample_pattern : list byte :=
  ["h"; "["; "^"; "a"; "-"; "c"; "\"; "]"; "]"; "*"; "l"; "?"]%byte.
Definition sample_toks : list tok :=
  [TLit 104; TClass true [IRange 97 99; ILit 93]; TStar; TLit 108; TAny].

Lemma stringmatchlen_glob_witness :
  stringmatchlen (sample_pattern ++ [z2b 0]) 12 (["h"; "e"; "l"; "l"; "o"]%byte ++ [z2b 0]) 5 false
  = Some (glob false sample_toks [104; 101; 108; 108; 111]).
Proof. apply (stringmatchlen_glob sample_pattern ["h"; "e"; "l"; "l"; "o"]%byte); [reflexivity|discriminate]. Defined.

(** The guards the matcher lacks: with an empty string a negated class
    consumes the terminator, so the pattern "[^a]*" matches although the
    reference semantics rejects it, and "[^a]*b" runs off the end of the
    string; a backslash that ends a class runs off the end of the pattern. *)
Theorem stringmatchlen_defects nocase :
  stringmatch ["["; "^"; "a"; "]"; "*"; "000"]%byte [z2b 0] nocase = Some true /\
  glob nocase [TClass true [IChr 97]; TStar] [] = false /\
  stringmatch ["["; "^"; "a"; "]"; "*"; "b"; "000"]%byte [z2b 0] nocase = None /\
  stringmatch ["["; "\"; "000"]%byte ["a"; "000"]%byte nocase = None.
Proof. by destruct nocase. Qed.

(** ** Integers *)

(** [string2ll] accepts exactly the shortest decimal numerals of the
    64-bit integers, with their value, and never reads past the length. *)
Theorem string2ll_numerals s t :
  (forall v, string2ll (s ++ t) (Z.of_nat (length s)) = Some (Some v) <-> int64 v /\ s = print_int v) /\
  string2ll (s ++ t) (Z.of_nat (length s)) <> None.
Proof.
  split; [intros v; apply string2ll_iff|]. by destruct (string2ll_spec s t) as (r & -> & _).
Qed.

(** C38: [ll2string] and [string2ll] are inverse: what [ll2string] prints into
    a buffer that is large enough is NUL terminated and parses back to the
    number, and a string that parses is what [ll2string] prints; in a buffer
    that is too small it writes the leading characters and a NUL, never more
    than the size.  (For the least [long long] the negation in the source
    overflows.) *)
Theorem ll2string_string2ll junk v len :
  - 2 ^ 63 < v < 2 ^ 63 -> 0 < len ->
  (21 <= len -> exists s, ll2string junk len v = Some (s ++ [z2b 0], Z.of_nat (length s)) /\
     string2ll (s ++ [z2b 0]) (Z.of_nat (length s)) = Some (Some v) /\
     forall s' t, string2ll (s' ++ t) (Z.of_nat (length s')) = Some (Some v) -> s' = s) /\
  (exists s l, ll2string junk len v = Some (s ++ [z2b 0], l) /\ l = Z.of_nat (length s) /\
     Z.of_nat (length (s ++ [z2b 0])) <= len /\ s `prefix_of` print_int v) /\
  ll2string junk len (- 2 ^ 63) = None.
Proof.
  intros Hv Hlen. pose proof (ll2string_spec junk len v Hv Hlen) as E. cbv zeta in E. split; [|split].
  - intros H21. exists (print_int v).
    pose proof (length_print_int v ltac:(unfold int64; lia)) as Hl.
    rewrite Z.min_r, Nat2Z.id, take_ge in E by lia. split; [done|]. split.
    + apply string2ll_iff. split; [|done]. unfold int64. lia.
    + intros s' t H. by apply string2ll_iff in H as [_ ->].
  - set (l := Z.min _ _) in *. eexists _, l. split; [exact E|].
    rewrite length_app, length_take. cbn [length]. split_and!; [lia|lia|]. exists (drop (Z.to_nat l) (print_int v)).
    by rewrite take_drop.
  - unfold ll2string. by rewrite (proj2 (Z.eqb_neq len 0)) by lia.
Qed.

Lemma ll2string_string2ll_witness :
  (21 <= 32 -> exists s, ll2string (fun _ => z2b 7) 32 (-905) = Some (s ++ [z2b 0], Z.of_nat (length s)) /\
     string2ll (s ++ [z2b 0]) (Z.of_nat (length s)) = Some (Some (-905)) /\
     forall s' t, string2ll (s' ++ t) (Z.of_nat (length s')) = Some (Some (-905)) -> s' = s) /\
  (exists s l, ll2string (fun _ => z2b 7) 32 (-905) = Some (s ++ [z2b 0], l) /\ l = Z.of_nat (length s) /\
     Z.of_nat (length (s ++ [z2b 0])) <= 32 /\ s `prefix_of` print_int (-905)) /\
  ll2string (fun _ => z2b 7) 32 (- 2 ^ 63) = None.
Proof. apply (ll2string_string2ll (fun _ => z2b 7) (-905) 32); [split; reflexivity|reflexivity]. Defined.

(** ** Amounts of memory *)

Lemma dec_digits_dval s t v :
  digits s -> match t with b :: _ => is_digit b = false | [] => True end ->
  dec_digits (s ++ t) v = dval v s.
Proof.
  intros Hs Ht. revert v. induction Hs as [|b s Hb _ IH]; intros v.
  - destruct t as [|b t]; [done|]. unfold is_digit in Ht. cbn [app dec_digits]. by rewrite Ht.
  - cbn [app dec_digits]. unfold is_digit in Hb. rewrite Hb. apply IH.
Qed.

Lemma digit_span_app s t :
  digits s -> match t with b :: _ => is_digit b = false | [] => True end ->
  digit_span (s ++ t) = length s.
Proof.
  intros Hs Ht. induction Hs as [|b s Hb _ IH].
  - destruct t as [|b t]; [done|]. unfold is_digit in Ht. cbn [app digit_span]. by rewrite Ht.
  - cbn [app digit_span length]. unfold is_digit in Hb. rewrite Hb. by f_equal.
Qed.

Lemma print_nat_digits v :
  0 <= v < 10 ^ 20 -> exists b s, print_nat v = b :: s /\ digits (b :: s) /\ dval 0 (b :: s) = v /\ (length s < 20)%nat.
Proof.
  intros Hv. destruct (dec_spec 20 v) as (Hd & Hf & Hl & b & s & E & _); [lia|lia|].
  exists b, s. unfold print_nat. rewrite E in *. split_and!; try done.
Qed.

Lemma digit_facts b : is_digit b = true -> b <> "-"%byte /\ isspace (b2z b) = false /\ b2z b <> 45 /\ b2z b <> 43 /\ b2z b <> 0.
Proof. unfold is_digit, isdigit, isspace. intros H. split; [by intros ->|lia]. Qed.

Lemma strtoll_print v : int64 v -> strtoll (print_int v) = v.
Proof.
  unfold int64. intros Hv. unfold strtoll, print_int.
  destruct (Z.ltb_spec v 0).
  - destruct (print_nat_digits (- v)) as (b & s & -> & Hd & Hval & _); [lia|].
    cbn [skip_space]. 
    rewrite (eq_refl : isspace (b2z "-"%byte) = false), (eq_refl : (b2z "-"%byte =? 45) = true).
    cbv beta iota zeta.
    pose proof (dec_digits_dval (b :: s) [] 0 Hd I) as E. rewrite app_nil_r in E. rewrite E, Hval. lia.
  - destruct (print_nat_digits v) as (b & s & -> & Hd & Hval & _); [lia|].
    inversion Hd as [|? ? Hb _]; subst. destruct (digit_facts b Hb) as (_ & Hsp & H45 & H43 & _).
    cbn [skip_space]. rewrite Hsp, (proj2 (Z.eqb_neq _ _) H45), (proj2 (Z.eqb_neq _ _) H43). cbv beta iota zeta.
    pose proof (dec_digits_dval (b :: s) [] 0 Hd I) as E. rewrite app_nil_r in E. rewrite E. lia.
Qed.

(** The units and their multipliers. *)
Definition mem_units : list (list byte * Z) :=
  [([], 1); (["b"], 1); (["k"], 1000); (["k"; "b"], 1024); (["m"], 1000000); (["m"; "b"], 1048576);
   (["g"], 1000000000); (["g"; "b"], 1073741824)]%byte.

Definition no_nul (s : list byte) : Prop := Forall (fun b => b2z b <> 0) s.

Lemma cstr_app s t : no_nul s -> cstr (s ++ t) = s ++ cstr t.
Proof.
  induction 1 as [|b s Hb _ IH]; [done|]. cbn [app cstr]. rewrite (proj2 (Z.eqb_neq _ 0) Hb). by rewrite IH.
Qed.

Lemma memtoll_unit v u t :
  int64 v -> no_nul u -> match u with b :: _ => is_digit b = false | [] => True end ->
  memtoll (print_int v ++ u ++ z2b 0 :: t)
  = (let '(mul, err) :=
       match u with
       | [] => (1, false)
       | _ =>
         if strcaseeq u ["b"%byte] then (1, false)
         else if strcaseeq u ["k"%byte] then (1000, false)
         else if strcaseeq u ["k"%byte; "b"%byte] then (1024, false)
         else if strcaseeq u ["m"%byte] then (1000 * 1000, false)
         else if strcaseeq u ["m"%byte; "b"%byte] then (1024 * 1024, false)
         else if strcaseeq u ["g"%byte] then (1000 * 1000 * 1000, false)
         else if strcaseeq u ["g"%byte; "b"%byte] then (1024 * 1024 * 1024, false)
         else (1, true)
       end in r ← chk64 (v * mul); Some (r, err)).
Proof.
  intros Hv Hu Hd. unfold memtoll.
  assert (no_nul (print_int v) /\
    exists n, (match print_int v ++ u with b :: _ => if chr b =? chr "-"%byte then 1%nat else O | [] => O end) = n /\
      (n + digit_span (drop n (print_int v ++ u)))%nat = length (print_int v) /\
      (length (print_int v) <= 21)%nat) as (Hp & n & Hn & Hspan & Hlen).
  { unfold int64 in Hv. unfold print_int. destruct (Z.ltb_spec v 0).
    - destruct (print_nat_digits (- v)) as (b & s & -> & Hds & _ & Hl); [lia|].
      split; [constructor; [done|]; eapply Forall_impl; [exact Hds|]; intros x Hx; apply (digit_facts x Hx)|].
      exists 1%nat. split; [done|].
      change (drop 1 (("-"%byte :: b :: s) ++ u)) with ((b :: s) ++ u). rewrite (digit_span_app (b :: s)) by done. cbn [length]. split; [done|lia].
    - destruct (print_nat_digits v) as (b & s & -> & Hds & _ & Hl); [lia|].
      split; [eapply Forall_impl; [exact Hds|]; intros x Hx; apply (digit_facts x Hx)|].
      exists 0%nat. inversion Hds as [|? ? Hb _]; subst. destruct (digit_facts b Hb) as (Hm & _).
      split; [cbn [app]; unfold chr at 1; rewrite chr_eq; by rewrite bool_decide_eq_false_2|].
      change (drop 0 ((b :: s) ++ u)) with ((b :: s) ++ u). rewrite (digit_span_app (b :: s)) by done. cbn [length]. split; [done|lia]. }
  rewrite app_assoc, cstr_app by by apply Forall_app. change (cstr (z2b 0 :: t)) with (@nil byte). rewrite app_nil_r.
  rewrite Hn, Hspan. cbv zeta. rewrite drop_app_length, take_app_length.
  rewrite (proj2 (Z.leb_gt 128 _)) by lia. rewrite strtoll_print by done.
  by destruct u.
Qed.

(** [memtoll] reads every 64-bit number followed by a unit, in any case of
    letters, as their product when it is representable (the overflow that is
    undefined in the source is the only other outcome), and reports an error
    for any other unit. *)
Theorem memtoll_units v u t :
  int64 v -> no_nul u -> match u with b :: _ => is_digit b = false | [] => True end ->
  (forall name mul, (name, mul) ∈ mem_units -> strcaseeq u name = true ->
     memtoll (print_int v ++ u ++ z2b 0 :: t) = r ← chk64 (v * mul); Some (r, false)) /\
  ((forall name mul, (name, mul) ∈ mem_units -> strcaseeq u name = false) ->
     memtoll (print_int v ++ u ++ z2b 0 :: t) = Some (v, true)).
Proof.
  intros Hv Hu Hd. rewrite memtoll_unit by done. split.
  - intros name mul Hin Hname. unfold strcaseeq in *. apply bool_decide_eq_true in Hname.
    unfold mem_units in Hin.
    repeat (apply elem_of_cons in Hin as [Hin|Hin]); [..|by apply elem_of_nil in Hin];
      injection Hin as -> ->; (destruct u as [|b u]; [first [discriminate Hname|done]|]).
    1: { inversion Hu as [|? ? Hb _]; subst. cbn [cstr] in Hname. by rewrite (proj2 (Z.eqb_neq _ 0) Hb) in Hname. }
    all: by rewrite Hname.
  - intros Hno. destruct u as [|b u]; [by specialize (Hno [] 1 ltac:(left))|].
    rewrite (Hno ["b"%byte] 1), (Hno ["k"%byte] 1000), (Hno ["k"; "b"]%byte 1024), (Hno ["m"%byte] 1000000),
      (Hno ["m"; "b"]%byte 1048576), (Hno ["g"%byte] 1000000000), (Hno ["g"; "b"]%byte 1073741824)
      by (apply (bool_decide_unpack _); vm_compute; exact I).
    unfold int64 in Hv. rewrite Z.mul_1_r, chk64_ok by lia. done.
Qed.

Lemma memtoll_units_witness :
  (forall name mul, (name, mul) ∈ mem_units -> strcaseeq ["G"; "b"]%byte name = true ->
     memtoll (print_int 3 ++ ["G"; "b"]%byte ++ z2b 0 :: []) = r ← chk64 (3 * mul); Some (r, false)) /\
  ((forall name mul, (name, mul) ∈ mem_units -> strcaseeq ["G"; "b"]%byte name = false) ->
     memtoll (print_int 3 ++ ["G"; "b"]%byte ++ z2b 0 :: []) = Some (3, true)).
Proof.
  apply memtoll_units; [split; [discriminate|reflexivity]|repeat constructor; discriminate|reflexivity].
Defined.
