(* ===== verification/Sds.v ===== *)
(** Sds: the dynamic strings of [sds.c]: a header with the length and the free
    space, and the characters. *)
From S2P Require Import Prelude Util.
Import (notations) Corelib.Init.Byte.

Definition SDS_MAX_PREALLOC : Z := 1024 * 1024.

(** [sh_buf] is the memory allocated after the two [int]s of the header. *)
Record sdshdr := Sdshdr { sh_len : Z; sh_free : Z; sh_buf : list byte }.

Definition sizeof_sdshdr : Z := 8.

Section SdsOps.
(** The content of memory never written. *)
Context (junk : nat -> byte).
Implicit Types (s : sdshdr) (t : list byte).

Definition sdslen s : Z := u64 (sh_len s).
Definition sdsavail s : Z := u64 (sh_free s).

(** [s[i] = c] *)
Definition put (m : list byte) (i : Z) (c : Z) : option (list byte) := mem_write m i [z2b c].

(** [init] is [None] for the null pointer. *)
Definition sdsnewlen (init : option (list byte)) (initlen : Z) : option sdshdr :=
  let size := u64 (sizeof_sdshdr + initlen + 1) - sizeof_sdshdr in
  let buf := match init with
             | Some _ => mem_resize junk [] size
             | None => replicate (Z.to_nat size) (z2b 0)
             end in
  buf ← match init with
        | Some init =>
          if initlen =? 0 then Some buf
          else bs ← mem_read init 0 initlen; mem_write buf 0 bs
        | None => Some buf
        end;
  buf ← put buf initlen 0;
  Some (Sdshdr (s32 initlen) 0 buf).

Definition sdsempty : option sdshdr := sdsnewlen (Some [z2b 0]) 0.

Definition sdsnew (init : option (list byte)) : option sdshdr :=
  let initlen := match init with None => 0 | Some init => strlen init end in
  sdsnewlen init initlen.

Definition sdsdup s : option sdshdr := sdsnewlen (Some (sh_buf s)) (sdslen s).

Definition sdsupdatelen s : option sdshdr :=
  let reallen := s32 (strlen (sh_buf s)) in
  d ← chk32 (sh_len s - reallen);
  free ← chk32 (sh_free s + d);
  Some (Sdshdr reallen free (sh_buf s)).

Definition sdsclear s : option sdshdr :=
  free ← chk32 (sh_free s + sh_len s);
  buf ← put (sh_buf s) 0 0;
  Some (Sdshdr 0 free buf).

Definition sdsMakeRoomFor s (addlen : Z) : sdshdr :=
  let free := sdsavail s in
  if addlen <=? free then s
  else
    let len := sdslen s in
    let newlen := u64 (len + addlen) in
    let newlen := if newlen <? SDS_MAX_PREALLOC then u64 (newlen * 2)
                  else u64 (newlen + SDS_MAX_PREALLOC) in
    let size := u64 (sizeof_sdshdr + newlen + 1) - sizeof_sdshdr in
    Sdshdr (sh_len s) (s32 (u64 (newlen - len))) (mem_resize junk (sh_buf s) size).

Definition sdsRemoveFreeSpace s : sdshdr :=
  let size := u64 (sizeof_sdshdr + u64 (sh_len s) + 1) - sizeof_sdshdr in
  Sdshdr (sh_len s) 0 (mem_resize junk (sh_buf s) size).

Definition sdsAllocSize s : Z := u64 (sizeof_sdshdr + u64 (sh_len s) + u64 (sh_free s) + 1).

(** The [assert]s abort the program. *)
Definition sdsIncrLen s (incr : Z) : option sdshdr :=
  if sh_free s <? incr then None
  else
    len ← chk32 (sh_len s + incr);
    free ← chk32 (sh_free s - incr);
    if free <? 0 then None
    else buf ← put (sh_buf s) len 0; Some (Sdshdr len free buf).

Definition sdsgrowzero s (len : Z) : option sdshdr :=
  let curlen := u64 (sh_len s) in
  if len <=? curlen then Some s
  else
    let s := sdsMakeRoomFor s (u64 (len - curlen)) in
    buf ← mem_write (sh_buf s) curlen (replicate (Z.to_nat (u64 (len - curlen + 1))) (z2b 0));
    sum ← chk32 (sh_len s + sh_free s);
    let totlen := u64 sum in
    let newlen := s32 len in
    Some (Sdshdr newlen (s32 (u64 (totlen - newlen))) buf).

Definition sdscatlen s t : option sdshdr :=
  let len := Z.of_nat (length t) in
  let curlen := sdslen s in
  let s := sdsMakeRoomFor s len in
  buf ← mem_write (sh_buf s) curlen t;
  buf ← put buf (curlen + len) 0;
  Some (Sdshdr (s32 (u64 (curlen + len))) (s32 (u64 (sh_free s - len))) buf).

Definition sdscat s t : option sdshdr := sdscatlen s (cstr t).

Definition sdscatsds s (t : sdshdr) : option sdshdr :=
  bs ← mem_read (sh_buf t) 0 (sdslen t); sdscatlen s bs.

Definition sdscpylen s t : option sdshdr :=
  let len := Z.of_nat (length t) in
  sum ← chk32 (sh_free s + sh_len s);
  let totlen := u64 sum in
  '(s, totlen) ←
    (if totlen <? len then
       let s := sdsMakeRoomFor s (u64 (len - sh_len s)) in
       sum ← chk32 (sh_free s + sh_len s); Some (s, u64 sum)
     else Some (s, totlen));
  buf ← mem_write (sh_buf s) 0 t;
  buf ← put buf len 0;
  Some (Sdshdr (s32 len) (s32 (u64 (totlen - len))) buf).

Definition sdscpy s t : option sdshdr := sdscpylen s (cstr t).

(** [vsnprintf(buf, size, ...)] of a format that expands to [text]. *)
Definition vsnprintf (buf : list byte) (size : Z) (text : list byte) : option (list byte) :=
  mem_write buf 0 (take (Z.to_nat (size - 1)) text ++ [z2b 0]).

(** The [while(1)] loop that finds a buffer large enough: its content. *)
Fixpoint sdscatvprintf_loop (fuel : nat) (buflen : Z) (text : list byte) : option (list byte) :=
  match fuel with
  | O => None
  | S fuel =>
    let buf := mem_resize junk [] buflen in
    buf ← put buf (buflen - 2) 0;
    buf ← vsnprintf buf buflen text;
    c ← rd buf (buflen - 2);
    if negb (c =? 0) then sdscatvprintf_loop fuel (u64 (buflen * 2)) text else Some buf
  end.

Definition sdscatvprintf s (text : list byte) : option sdshdr :=
  buf ← sdscatvprintf_loop 64 16 text; sdscat s buf.

Definition sdscatprintf s (text : list byte) : option sdshdr := sdscatvprintf s text.

(** [strchr(cset, c) != NULL]: the terminator counts. *)
Definition strchr (cset : list byte) (c : Z) : bool :=
  (c =? 0) || existsb (fun b => char_val b =? c) (cstr cset).

Fixpoint trim_left (fuel : nat) (buf cset : list byte) (sp end_ : Z) : option Z :=
  match fuel with
  | O => None
  | S fuel =>
    if sp <=? end_ then
      c ← rd buf sp; if strchr cset c then trim_left fuel buf cset (sp + 1) end_ else Some sp
    else Some sp
  end.

Fixpoint trim_right (fuel : nat) (buf cset : list byte) (ep start : Z) : option Z :=
  match fuel with
  | O => None
  | S fuel =>
    if start <? ep then
      c ← rd buf ep; if strchr cset c then trim_right fuel buf cset (ep - 1) start else Some ep
    else Some ep
  end.

Definition sdstrim s (cset : list byte) : option sdshdr :=
  let start := 0 in
  let end_ := sdslen s - 1 in
  sp ← trim_left (length (sh_buf s) + 2) (sh_buf s) cset start end_;
  ep ← trim_right (length (sh_buf s) + 2) (sh_buf s) cset end_ start;
  let len := if ep <? sp then 0 else (ep - sp) + 1 in
  buf ← (if negb (sp =? 0) then memmove (sh_buf s) 0 sp len else Some (sh_buf s));
  buf ← put buf len 0;
  Some (Sdshdr (s32 len) (s32 (u64 (sh_free s + (sh_len s - len)))) buf).

Definition sdsrange s (start end_ : Z) : option sdshdr :=
  let len := sdslen s in
  if len =? 0 then Some s
  else
    let start := if start <? 0 then
                   let start := s32 (u64 (len + start)) in if start <? 0 then 0 else start
                 else start in
    let end_ := if end_ <? 0 then
                  let end_ := s32 (u64 (len + end_)) in if end_ <? 0 then 0 else end_
                else end_ in
    newlen ← (if end_ <? start then Some 0 else chk32 ((end_ - start) + 1));
    '(start, newlen) ←
      (if negb (newlen =? 0) then
         if s32 len <=? start then Some (start, 0)
         else if s32 len <=? end_ then
           let end_ := s32 (len - 1) in
           newlen ← (if end_ <? start then Some 0 else chk32 ((end_ - start) + 1));
           Some (start, newlen)
         else Some (start, newlen)
       else Some (0, newlen));
    buf ← (if negb (start =? 0) && negb (newlen =? 0) then memmove (sh_buf s) 0 start newlen
           else Some (sh_buf s));
    buf ← put buf newlen 0;
    Some (Sdshdr (s32 newlen) (s32 (u64 (sh_free s + (sh_len s - newlen)))) buf).

(** A loop over the [len] characters that replaces each in place. *)
Definition map_chars s (f : Z -> Z) : option sdshdr :=
  bs ← mem_read (sh_buf s) 0 (sdslen s);
  buf ← mem_write (sh_buf s) 0 ((fun b => z2b (f (char_val b))) <$> bs);
  Some (Sdshdr (sh_len s) (sh_free s) buf).

Definition sdstolower s : option sdshdr := map_chars s tolower.
Definition sdstoupper s : option sdshdr := map_chars s toupper.

(** The inner loop of [sdsmapchars]: the first of [from] that is [c]. *)
Fixpoint map_set (from to : list byte) (c : Z) : Z :=
  match from, to with
  | f :: from, t :: to => if c =? char_val f then char_val t else map_set from to c
  | _, _ => c
  end.
Definition sdsmapchars s (from to : list byte) : option sdshdr := map_chars s (map_set from to).

Definition sdscmp (s1 s2 : sdshdr) : option Z :=
  let l1 := sdslen s1 in
  let l2 := sdslen s2 in
  let minlen := if l1 <? l2 then l1 else l2 in
  b1 ← mem_read (sh_buf s1) 0 minlen;
  b2 ← mem_read (sh_buf s2) 0 minlen;
  let cmp := memcmp b1 b2 in
  if cmp =? 0 then Some (s32 (u64 (l1 - l2))) else Some cmp.

(** The loop of [sdssplitlen]; [slots] is the size of the token array. *)
Fixpoint sdssplitlen_loop (fuel : nat) (s : list byte) (len : Z) (sep : list byte) (seplen : Z)
    (j start slots : Z) (tokens : list sdshdr) : option (Z * Z * list sdshdr) :=
  match fuel with
  | O => None
  | S fuel =>
    if j <? len - (seplen - 1) then
      let elements := Z.of_nat (length tokens) in
      let slots := if slots <? elements + 2 then slots * 2 else slots in
      b ← mem_read s j seplen;
      sj ← rd s j;
      sep0 ← rd sep 0;
      if ((seplen =? 1) && (sj =? sep0)) || (memcmp b sep =? 0) then
        if elements <? slots then
          tok ← mem_read s start (j - start);
          tok ← sdsnewlen (Some tok) (j - start);
          let start := j + seplen in
          let j := j + seplen - 1 in
          sdssplitlen_loop fuel s len sep seplen (j + 1) start slots (tokens ++ [tok])
        else None
      else sdssplitlen_loop fuel s len sep seplen (j + 1) start slots tokens
    else Some (start, slots, tokens)
  end.

(** [sep] is the separator, of [seplen] bytes.  [Some None] is the null
    pointer; otherwise the tokens, [*count] of them. *)
Definition sdssplitlen (s : list byte) (len : Z) (sep : list byte) : option (option (list sdshdr)) :=
  let seplen := Z.of_nat (length sep) in
  if (seplen <? 1) || (len <? 0) then Some None
  else if len =? 0 then Some (Some [])
  else
    '(start, slots, tokens) ← sdssplitlen_loop (Z.to_nat len + 1) s len sep seplen 0 0 5 [];
    if Z.of_nat (length tokens) <? slots then
      tok ← mem_read s start (len - start);
      tok ← sdsnewlen (Some tok) (len - start);
      Some (Some (tokens ++ [tok]))
    else None.

Definition sdsfromlonglong (value : Z) : option sdshdr :=
  let buf := map junk (seq 0 32) in
  v ← (if value <? 0 then chk64 (- value) else Some value);
  '(buf, p) ← ll2string_loop 32 buf 31 v;
  '(buf, p) ← (if value <? 0 then b ← mem_write buf p ["-"%byte]; Some (b, p - 1) else Some (buf, p));
  let p := p + 1 in
  out ← mem_read buf p (32 - p);
  sdsnewlen (Some out) (32 - p).

(** ** Quoting *)

Definition hex_char (v : Z) : byte := z2b (if v <? 10 then 48 + v else 87 + v).

(** The body of the loop of [sdscatrepr]: what one character appends. *)
Definition sdscatrepr_char s (p : byte) : option sdshdr :=
  let c := char_val p in
  if (c =? chr "\"%byte) || (c =? 34) then sdscatprintf s ["\"%byte; p]
  else if c =? 10 then sdscatlen s ["\"; "n"]%byte
  else if c =? 13 then sdscatlen s ["\"; "r"]%byte
  else if c =? 9 then sdscatlen s ["\"; "t"]%byte
  else if c =? 7 then sdscatlen s ["\"; "a"]%byte
  else if c =? 8 then sdscatlen s ["\"; "b"]%byte
  else if isprint c then sdscatprintf s [p]
  else sdscatprintf s (["\"; "x"]%byte ++ [hex_char (b2z p / 16); hex_char (b2z p mod 16)]).

Fixpoint sdscatrepr_loop s (p : list byte) : option sdshdr :=
  match p with
  | [] => Some s
  | c :: p => s ← sdscatrepr_char s c; sdscatrepr_loop s p
  end.

Definition sdscatrepr s (p : list byte) : option sdshdr :=
  s ← sdscatlen s [z2b 34]; s ← sdscatrepr_loop s p; sdscatlen s [z2b 34].

Definition is_hex_digit (c : Z) : bool :=
  ((chr "0"%byte <=? c) && (c <=? chr "9"%byte)) || ((chr "a"%byte <=? c) && (c <=? chr "f"%byte))
  || ((chr "A"%byte <=? c) && (c <=? chr "F"%byte)).

Definition hex_digit_to_int (c : Z) : Z :=
  if (chr "0"%byte <=? c) && (c <=? chr "9"%byte) then c - chr "0"%byte
  else if (chr "a"%byte <=? c) && (c <=? chr "f"%byte) then c - chr "a"%byte + 10
  else if (chr "A"%byte <=? c) && (c <=? chr "F"%byte) then c - chr "A"%byte + 10
  else 0.

Fixpoint skip_blanks (fuel : nat) (line : list byte) (p : Z) : option Z :=
  match fuel with
  | O => None
  | S fuel =>
    c ← rd line p;
    if negb (c =? 0) && isspace c then skip_blanks fuel line (p + 1) else Some p
  end.

(** One iteration of [while(!done)]: [Some None] is [goto err], otherwise the
    position before the final [if ( *p) p++], the flags [inq], [insq], [done]
    and the token.  The second half of [&&] reads only when the first holds. *)
Definition split_step (line : list byte) (p : Z) (inq insq : bool) (current : sdshdr)
    : option (option (Z * bool * bool * bool * sdshdr)) :=
  c0 ← rd line p;
  if inq then
    c1 ← (if c0 =? chr "\"%byte then rd line (p + 1) else Some 0);
    c2 ← (if c1 =? chr "x"%byte then rd line (p + 2) else Some 0);
    c3 ← (if is_hex_digit c2 then rd line (p + 3) else Some 0);
    if (c0 =? chr "\"%byte) && (c1 =? chr "x"%byte) && is_hex_digit c2 && is_hex_digit c3 then
      let byte := u8 (hex_digit_to_int c2 * 16 + hex_digit_to_int c3) in
      current ← sdscatlen current [z2b byte];
      Some (Some (p + 3, inq, insq, false, current))
    else if (c0 =? chr "\"%byte) && negb (c1 =? 0) then
      let p := p + 1 in
      let c := if c1 =? chr "n"%byte then 10
               else if c1 =? chr "r"%byte then 13
               else if c1 =? chr "t"%byte then 9
               else if c1 =? chr "b"%byte then 8
               else if c1 =? chr "a"%byte then 7
               else c1 in
      current ← sdscatlen current [z2b c];
      Some (Some (p, inq, insq, false, current))
    else if c0 =? 34 then
      n ← rd line (p + 1);
      if negb (n =? 0) && negb (isspace n) then Some None
      else Some (Some (p, inq, insq, true, current))
    else if c0 =? 0 then Some None
    else current ← sdscatlen current [z2b c0]; Some (Some (p, inq, insq, false, current))
  else if insq then
    c1 ← (if c0 =? chr "\"%byte then rd line (p + 1) else Some 0);
    if (c0 =? chr "\"%byte) && (c1 =? 39) then
      current ← sdscatlen current [z2b 39]; Some (Some (p + 1, inq, insq, false, current))
    else if c0 =? 39 then
      n ← rd line (p + 1);
      if negb (n =? 0) && negb (isspace n) then Some None
      else Some (Some (p, inq, insq, true, current))
    else if c0 =? 0 then Some None
    else current ← sdscatlen current [z2b c0]; Some (Some (p, inq, insq, false, current))
  else
    if (c0 =? 32) || (c0 =? 10) || (c0 =? 13) || (c0 =? 9) || (c0 =? 0)
    then Some (Some (p, inq, insq, true, current))
    else if c0 =? 34 then Some (Some (p, true, insq, false, current))
    else if c0 =? 39 then Some (Some (p, inq, true, false, current))
    else current ← sdscatlen current [z2b c0]; Some (Some (p, inq, insq, false, current)).

(** [while(!done)]: the position after the token and the token. *)
Fixpoint split_token (fuel : nat) (line : list byte) (p : Z) (inq insq : bool) (current : sdshdr)
    : option (option (Z * sdshdr)) :=
  match fuel with
  | O => None
  | S fuel =>
    r ← split_step line p inq insq current;
    match r with
    | None => Some None
    | Some (p, inq, insq, done, current) =>
      c ← rd line p;
      let p := if negb (c =? 0) then p + 1 else p in
      if done : bool then Some (Some (p, current))
      else split_token fuel line p inq insq current
    end
  end.

Fixpoint sdssplitargs_loop (fuel : nat) (line : list byte) (p : Z) (vector : list sdshdr)
    : option (option (list sdshdr)) :=
  match fuel with
  | O => None
  | S fuel =>
    p ← skip_blanks (length line + 1) line p;
    c ← rd line p;
    if negb (c =? 0) then
      current ← sdsempty;
      r ← split_token (length line + 1) line p false false current;
      match r with
      | None => Some None
      | Some (p, current) => sdssplitargs_loop fuel line p (vector ++ [current])
      end
    else Some (Some vector)
  end.

(** [Some None] is the null pointer; otherwise the arguments. *)
Definition sdssplitargs (line : list byte) : option (option (list sdshdr)) :=
  sdssplitargs_loop (length line + 1) line 0 [].
End SdsOps.
