(* ===== verification/SdsProofs.v ===== *)
(** SdsProofs: the representation invariant of a dynamic string and what each
    operation does to its content. *)
From S2P Require Import Prelude Util UtilNum Sds.
Import (notations) Corelib.Init.Byte.

(** The largest content for which every size computed fits the header. *)
Definition sds_limit : Z := 2 ^ 31 - 2 ^ 21.

Record sds_rep (s : sdshdr) (c : list byte) : Prop := SdsRep {
  rep_len : sh_len s = Z.of_nat (length c);
  rep_free : 0 <= sh_free s;
  rep_total : sh_len s + sh_free s < 2 ^ 31 - 2 ^ 19;
  rep_buf : exists g, sh_buf s = c ++ z2b 0 :: g /\ Z.of_nat (length g) = sh_free s }.

(** ** Writing into the buffer *)

Lemma put_spec c x g v : put (c ++ x :: g) (Z.of_nat (length c)) v = Some (c ++ z2b v :: g).
Proof. unfold put. change (c ++ x :: g) with (c ++ [x] ++ g). by rewrite mem_write_app. Qed.

(** Writing [t] and a terminator after [c]. *)
Lemma append_spec c r t :
  (length t < length r)%nat ->
  exists b g, mem_write (c ++ r) (Z.of_nat (length c)) t = Some b /\
    put b (Z.of_nat (length c) + Z.of_nat (length t)) 0 = Some (c ++ t ++ z2b 0 :: g) /\
    (length g + length t + 1 = length r)%nat.
Proof.
  intros Hl. destruct (drop (length t) r) as [|x g] eqn:Hd.
  { apply (f_equal length) in Hd. rewrite length_drop in Hd. cbn in Hd. lia. }
  exists (c ++ t ++ x :: g), g. split; [|split].
  - rewrite <-(take_drop (length t) r), Hd. apply mem_write_app; [done|]. rewrite length_take. lia.
  - rewrite (app_assoc c t). replace (Z.of_nat (length c) + Z.of_nat (length t)) with (Z.of_nat (length (c ++ t)))
      by (rewrite length_app; lia). rewrite put_spec. by rewrite <-app_assoc.
  - apply (f_equal length) in Hd. rewrite length_drop in Hd. cbn in Hd. lia.
Qed.

(** The same at the start of the buffer. *)
Lemma write_spec r t :
  (length t < length r)%nat ->
  exists b g, mem_write r 0 t = Some b /\ put b (Z.of_nat (length t)) 0 = Some (t ++ z2b 0 :: g) /\
    (length g + length t + 1 = length r)%nat.
Proof. intros Hl. apply (append_spec [] r t Hl). Qed.

Section Specs.
Context (junk : nat -> byte).
Implicit Types (s : sdshdr) (c t : list byte).

Lemma rep_len_eq s c : sds_rep s c -> sdslen s = Z.of_nat (length c).
Proof. intros [Hl Hf Ht _]. unfold sdslen. rewrite Hl in *. by rewrite u64_small by lia. Qed.
Lemma rep_avail_eq s c : sds_rep s c -> sdsavail s = sh_free s.
Proof. intros [Hl Hf Ht _]. unfold sdsavail. by rewrite u64_small by lia. Qed.
Lemma rep_bound s c : sds_rep s c -> 0 <= Z.of_nat (length c) + sh_free s < 2 ^ 31 - 2 ^ 19.
Proof. intros [Hl Hf Ht _]. lia. Qed.
Lemma rep_read s c : sds_rep s c -> mem_read (sh_buf s) 0 (sdslen s) = Some c.
Proof.
  intros H. rewrite (rep_len_eq _ _ H). destruct H as [_ _ _ (g & -> & _)].
  by apply (mem_read_app [] c).
Qed.

Lemma rep_mk c g len free :
  len = Z.of_nat (length c) -> free = Z.of_nat (length g) -> len + free < 2 ^ 31 - 2 ^ 19 ->
  sds_rep (Sdshdr len free (c ++ z2b 0 :: g)) c.
Proof. intros -> -> Ht. split; cbn; [done|lia|lia|eauto]. Qed.

Lemma newlen_spec t r :
  Z.of_nat (length t) < sds_limit ->
  exists s, sdsnewlen junk (Some (t ++ r)) (Z.of_nat (length t)) = Some s /\ sds_rep s t /\ sh_free s = 0.
Proof.
  unfold sds_limit. intros Hl. unfold sdsnewlen, sizeof_sdshdr. rewrite u64_small by lia.
  replace (8 + Z.of_nat (length t) + 1 - 8) with (Z.of_nat (length t) + 1) by lia.
  set (m := mem_resize junk [] _).
  assert (length m = (length t + 1)%nat) as Hm by (unfold m; rewrite length_mem_resize; lia).
  destruct (write_spec m t) as (b & g & Hw & Hp & Hg); [lia|].
  assert (exists b', (if Z.of_nat (length t) =? 0 then Some m
     else bs ← mem_read (t ++ r) 0 (Z.of_nat (length t)); mem_write m 0 bs) = Some b' /\
     put b' (Z.of_nat (length t)) 0 = Some (t ++ z2b 0 :: g)) as (b' & -> & Hp').
  { destruct (Z.eqb_spec (Z.of_nat (length t)) 0) as [E|E].
    - exists m. split; [done|]. destruct t; [|cbn in E; lia]. injection Hw as <-. cbn in *. done.
    - rewrite (mem_read_app [] t r) by done. cbn [option_bind mbind]. rewrite Hw. by exists b. }
  cbn [option_bind mbind]. rewrite Hp'. cbn [option_bind mbind]. rewrite s32_small by lia.
  eexists. split; [done|]. assert (length g = 0%nat) by lia. split; [apply rep_mk; lia|done].
Qed.

Lemma makeRoom_spec s c n :
  sds_rep s c -> 0 <= n -> Z.of_nat (length c) + n < sds_limit ->
  sds_rep (sdsMakeRoomFor junk s n) c /\ n <= sh_free (sdsMakeRoomFor junk s n).
Proof.
  unfold sds_limit. intros H Hn Hb. pose proof H as [Hl Hf Ht (g & Hbuf & Hg)]. unfold sdsMakeRoomFor.
  rewrite (rep_avail_eq _ _ H), (rep_len_eq _ _ H). cbv zeta.
  destruct (Z.leb_spec n (sh_free s)) as [Hle|Hgt]; [done|].
  rewrite (u64_small (Z.of_nat (length c) + n)) by lia.
  set (newlen := if _ <? SDS_MAX_PREALLOC then _ else _).
  assert (Z.of_nat (length c) + n <= newlen < 2 ^ 31 - 2 ^ 20 /\
    Z.of_nat (length c) + n + sh_free s <= newlen + 2 ^ 40) as [Hnew _].
  { unfold newlen, SDS_MAX_PREALLOC. destruct (Z.ltb_spec (Z.of_nat (length c) + n) (1024 * 1024));
      rewrite u64_small by lia; lia. }
  clearbody newlen. rewrite (u64_small (newlen - _)), s32_small, u64_small by (unfold sizeof_sdshdr; lia).
  unfold sizeof_sdshdr. cbn [sh_free]. split; [|lia].
  rewrite Hbuf. destruct (mem_resize_grow junk (c ++ z2b 0 :: g) (8 + newlen + 1 - 8)) as (g' & -> & Hg').
  { rewrite length_app. cbn [length]. lia. }
  rewrite <-app_assoc. cbn [app]. rewrite Hl. apply rep_mk; [done| |lia].
  rewrite length_app in *. cbn [length] in *. lia.
Qed.

Lemma catlen_spec s c t :
  sds_rep s c -> Z.of_nat (length c) + Z.of_nat (length t) < sds_limit ->
  exists s', sdscatlen junk s t = Some s' /\ sds_rep s' (c ++ t).
Proof.
  intros H Hb. unfold sdscatlen. rewrite (rep_len_eq _ _ H).
  destruct (makeRoom_spec s c (Z.of_nat (length t)) H) as [H' Hfree]; [lia|done|].
  set (s1 := sdsMakeRoomFor _ _ _) in *. pose proof (rep_bound _ _ H').
  destruct H' as [Hl Hf Ht (g & Hbuf & Hg)]. unfold sds_limit in Hb.
  destruct (append_spec c (z2b 0 :: g) t) as (b & g' & Hw & Hp & Hg'); [cbn [length]; lia|].
  rewrite Hbuf, Hw. cbn [option_bind mbind]. rewrite Hp. cbn [option_bind mbind].
  eexists. split; [done|]. cbn [length] in Hg'.
  rewrite (u64_small (Z.of_nat (length c) + _)), s32_small, u64_small, s32_small by lia.
  rewrite app_assoc. apply rep_mk; rewrite ?length_app; lia.
Qed.

Lemma cpylen_spec s c t :
  sds_rep s c -> Z.of_nat (length t) < sds_limit ->
  exists s', sdscpylen junk s t = Some s' /\ sds_rep s' t.
Proof.
  intros H Hb. unfold sdscpylen. pose proof (rep_bound _ _ H). pose proof (rep_len _ _ H) as Hl0.
  rewrite (chk32_ok (sh_free s + sh_len s)) by lia. cbn [option_bind mbind]. rewrite (u64_small (sh_free s + _)) by (pose proof (rep_free _ _ H); lia).
  assert (exists s1 tot, (if sh_free s + sh_len s <? Z.of_nat (length t) then
      sum ← chk32 (sh_free (sdsMakeRoomFor junk s (u64 (Z.of_nat (length t) - sh_len s)))
                   + sh_len (sdsMakeRoomFor junk s (u64 (Z.of_nat (length t) - sh_len s))));
      Some (sdsMakeRoomFor junk s (u64 (Z.of_nat (length t) - sh_len s)), u64 sum)
      else Some (s, sh_free s + sh_len s)) = Some (s1, tot) /\ sds_rep s1 c /\
      tot = sh_free s1 + sh_len s1 /\ Z.of_nat (length t) <= tot) as (s1 & tot & -> & HR & -> & Htot).
  { destruct (Z.ltb_spec (sh_free s + sh_len s) (Z.of_nat (length t))); [|by exists s, (sh_free s + sh_len s)].
    pose proof (rep_free _ _ H). unfold sds_limit in Hb. rewrite u64_small by lia.
    destruct (makeRoom_spec s c (Z.of_nat (length t) - sh_len s) H) as [HR Hf1]; [lia|unfold sds_limit; lia|].
    set (s1 := sdsMakeRoomFor _ _ _) in *. pose proof (rep_bound _ _ HR). pose proof (rep_len _ _ HR).
    rewrite chk32_ok by lia. cbn [option_bind mbind]. rewrite u64_small by (pose proof (rep_free _ _ HR); lia).
    eexists _, _. split; [done|]. split; [done|]. split; [done|]. lia. }
  cbn [option_bind mbind]. destruct HR as [Hl Hf Ht (g & Hbuf & Hg)]. rewrite Hbuf.
  destruct (write_spec (c ++ z2b 0 :: g) t) as (b & g' & Hw & Hp & Hg').
  { rewrite length_app. cbn [length]. lia. }
  rewrite Hw. cbn [option_bind mbind]. rewrite Hp. cbn [option_bind mbind].
  eexists. split; [done|]. rewrite length_app in Hg'. cbn [length] in Hg'. unfold sds_limit in Hb.
  rewrite s32_small, u64_small, s32_small by lia. apply rep_mk; lia.
Qed.

(** *** Truncation: the first [n] characters, read from offset [k] *)

(** [memmove] to the start of the buffer, if needed, then the terminator. *)
Lemma truncate_spec s c (k n : nat) :
  sds_rep s c -> (k + n <= length c)%nat ->
  exists b g, memmove (sh_buf s) 0 (Z.of_nat k) (Z.of_nat n) = Some b /\
    put b (Z.of_nat n) 0 = Some (take n (drop k c) ++ z2b 0 :: g) /\
    Z.of_nat (length g) = sh_free s + (sh_len s - Z.of_nat n).
Proof.
  intros [Hl Hf Ht (g & -> & Hg)] Hn.
  assert (length (take n (drop k c)) = n) as Hm by (rewrite length_take, length_drop; lia).
  replace (c ++ z2b 0 :: g) with (take k c ++ take n (drop k c) ++ drop n (drop k c) ++ z2b 0 :: g)
    by (rewrite (app_assoc (take n _)), take_drop, app_assoc, take_drop; done).
  rewrite (memmove_left [] (take k c) (take n (drop k c)) (drop n (drop k c) ++ z2b 0 :: g))
    by (rewrite ?length_take; cbn; rewrite ?length_take, ?length_drop; lia).
  cbn [app]. set (r := drop (length _) _ ++ _).
  assert (length r = (length c - n + 1 + length g)%nat) as Hr.
  { unfold r. rewrite !length_app, !length_drop, !length_app, Hm, length_take. cbn [length]. lia. }
  destruct r as [|x r]; [cbn in Hr; lia|]. exists (take n (drop k c) ++ x :: r), r.
  split; [done|]. split; [rewrite <-Hm at 2; by rewrite put_spec|]. cbn [length] in Hr. lia.
Qed.

(** Truncation in place. *)
Lemma cut_spec s c (n : nat) :
  sds_rep s c -> (n <= length c)%nat ->
  exists g, put (sh_buf s) (Z.of_nat n) 0 = Some (take n c ++ z2b 0 :: g) /\
    Z.of_nat (length g) = sh_free s + (sh_len s - Z.of_nat n).
Proof.
  intros H Hn. pose proof H as [Hl Hf Ht (g & Hbuf & Hg)].
  destruct (truncate_spec s c 0 n H) as (b & g' & Hm & Hp & Hg'); [lia|].
  exists g'. split; [|done]. rewrite drop_0 in Hp. rewrite <-Hp. f_equal.
  revert Hm. rewrite Hbuf. rewrite <-(take_drop n c), <-app_assoc.
  assert (length (take n c) = n) as Hln by (rewrite length_take; lia).
  pose proof (memmove_left [] [] (take n c) (drop n c ++ z2b 0 :: g) 0 (Z.of_nat 0) (Z.of_nat n)) as E.
  cbn [app] in E. rewrite E, drop_all by (cbn [length]; lia). by intros [= <-].
Qed.

Lemma clear_spec s c : sds_rep s c -> exists s', sdsclear s = Some s' /\ sds_rep s' [].
Proof.
  intros H. pose proof (rep_bound _ _ H). pose proof (rep_len _ _ H) as Hl. pose proof (rep_free _ _ H).
  unfold sdsclear. rewrite (chk32_ok (sh_free s + sh_len s)) by lia. cbn [option_bind mbind].
  destruct (cut_spec s c 0 H) as (g & E & Hg); [lia|]. change (Z.of_nat 0) with 0 in E. rewrite E. cbn [option_bind mbind].
  eexists. split; [done|]. apply (rep_mk []); cbn; lia.
Qed.

Lemma strlen_rep s c : sds_rep s c -> strlen (sh_buf s) = Z.of_nat (length (cstr c)).
Proof.
  intros [_ _ _ (g & -> & _)]. unfold strlen. do 2 f_equal.
  induction c as [|b c IH]; [done|]. cbn [app cstr]. destruct (b2z b =? 0); [done|]. by rewrite IH.
Qed.

Lemma cstr_take c : exists r, c = cstr c ++ r /\ match r with [] => True | x :: _ => x = z2b 0 end.
Proof.
  induction c as [|b c (r & E & Hr)]; [by exists []|]. cbn [cstr].
  destruct (Z.eqb_spec (b2z b) 0) as [E0|].
  - exists (b :: c). split; [done|]. by apply b2z_inj.
  - exists r. split; [cbn; by f_equal|done].
Qed.

Lemma updatelen_spec s c : sds_rep s c -> exists s', sdsupdatelen s = Some s' /\ sds_rep s' (cstr c).
Proof.
  intros H. pose proof H as [Hl Hf Ht (g & Hbuf & Hg)]. unfold sdsupdatelen. rewrite (strlen_rep _ _ H).
  destruct (cstr_take c) as (r & E & Hr). assert (length c = length (cstr c) + length r)%nat as Hlc
    by (rewrite E at 1; apply length_app).
  cbv zeta. rewrite s32_small by lia. rewrite (chk32_ok (sh_len s - _)) by lia. cbn [option_bind mbind].
  rewrite chk32_ok by lia. cbn [option_bind mbind]. eexists. split; [done|]. rewrite Hbuf.
  assert (c ++ z2b 0 :: g = cstr c ++ r ++ z2b 0 :: g) as -> by (rewrite E at 1; by rewrite <-app_assoc).
  destruct r as [|x r].
  - cbn [app length] in *. apply rep_mk; lia.
  - subst x. cbn [app length] in *. apply rep_mk; rewrite ?length_app; cbn [length]; lia.
Qed.

Lemma removeFree_spec s c :
  sds_rep s c -> sds_rep (sdsRemoveFreeSpace junk s) c /\ sh_free (sdsRemoveFreeSpace junk s) = 0.
Proof.
  intros [Hl Hf Ht (g & Hbuf & Hg)]. split; [|done]. unfold sdsRemoveFreeSpace, sizeof_sdshdr.
  rewrite (u64_small (sh_len s)), u64_small by lia. rewrite Hbuf.
  change (c ++ z2b 0 :: g) with (c ++ [z2b 0] ++ g). rewrite mem_resize_shrink
    by (rewrite !length_app; cbn [length]; lia).
  rewrite app_assoc, take_app_length' by (rewrite length_app; cbn [length]; lia).
  apply rep_mk; cbn; lia.
Qed.

Lemma allocSize_spec s c :
  sds_rep s c -> sdsAllocSize s = sizeof_sdshdr + Z.of_nat (length (sh_buf s)).
Proof.
  intros [Hl Hf Ht (g & -> & Hg)]. unfold sdsAllocSize, sizeof_sdshdr. rewrite length_app. cbn [length].
  rewrite (u64_small (sh_len s)), (u64_small (sh_free s)), u64_small by lia. lia.
Qed.

Lemma growzero_spec s c n :
  sds_rep s c -> 0 <= n < sds_limit ->
  exists s', sdsgrowzero junk s n = Some s' /\ sds_rep s' (c ++ replicate (Z.to_nat n - length c) (z2b 0)).
Proof.
  unfold sds_limit. intros H Hn. pose proof (rep_bound _ _ H). pose proof (rep_len _ _ H) as Hl0.
  pose proof (rep_free _ _ H). unfold sdsgrowzero.
  rewrite (u64_small (sh_len s)) by lia. destruct (Z.leb_spec n (sh_len s)).
  { exists s. split; [done|]. replace (Z.to_nat n - length c)%nat with 0%nat by lia. by rewrite app_nil_r. }
  cbv zeta. rewrite (u64_small (n - sh_len s)), (u64_small (n - sh_len s + 1)) by lia.
  destruct (makeRoom_spec s c (n - sh_len s) H) as [H' Hfree]; [lia|unfold sds_limit; lia|].
  set (s1 := sdsMakeRoomFor _ _ _) in *. pose proof (rep_bound _ _ H').
  destruct H' as [Hl Hf Ht (g & Hbuf & Hg)]. rewrite Hbuf, Hl0.
  set (k := (Z.to_nat n - length c)%nat). assert (n - Z.of_nat (length c) + 1 = Z.of_nat (S k)) as -> by lia.
  rewrite Nat2Z.id.
  assert (z2b 0 :: g = take (S k) (z2b 0 :: g) ++ drop (S k) (z2b 0 :: g)) as E by by rewrite take_drop.
  rewrite E, mem_write_app; [|done|rewrite length_replicate, length_take; cbn [length]; lia].
  cbn [option_bind mbind]. rewrite chk32_ok by lia. cbn [option_bind mbind].
  rewrite (s32_small n) by lia. rewrite (u64_small (sh_len s1 + _)), u64_small, s32_small by lia.
  eexists. split; [done|].
  rewrite replicate_S_end, <-app_assoc, app_assoc. cbn [app drop].
  apply rep_mk; rewrite ?length_app, ?length_replicate, ?length_drop; lia.
Qed.

Lemma map_chars_spec s c f :
  sds_rep s c -> exists s', map_chars s f = Some s' /\ sds_rep s' ((fun b => z2b (f (char_val b))) <$> c).
Proof.
  intros H. unfold map_chars. rewrite (rep_read _ _ H). cbn [option_bind mbind].
  destruct H as [Hl Hf Ht (g & -> & Hg)].
  rewrite (mem_write_app [] c (z2b 0 :: g)) by (rewrite ?length_fmap; done). cbn [option_bind mbind].
  eexists. split; [done|]. rewrite Hl. apply rep_mk; rewrite ?length_fmap; lia.
Qed.

(** *** Ranges *)

Definition range_index (n i : Z) : Z := if i <? 0 then Z.max 0 (n + i) else i.

Definition range_spec (c : list byte) (start end_ : Z) : list byte :=
  let n := Z.of_nat (length c) in
  let i := range_index n start in
  let j := Z.min (range_index n end_) (n - 1) in
  take (Z.to_nat (j - i + 1)) (drop (Z.to_nat i) c).

Lemma range_sds s c start end_ :
  sds_rep s c -> - 2 ^ 31 < start < 2 ^ 31 -> - 2 ^ 31 < end_ < 2 ^ 31 - 1 ->
  exists s', sdsrange s start end_ = Some s' /\ sds_rep s' (range_spec c start end_).
Proof.
  intros H Hs He. unfold sdsrange. rewrite (rep_len_eq _ _ H). cbv zeta.
  set (n := Z.of_nat (length c)). pose proof (rep_bound _ _ H) as Hb. fold n in Hb. pose proof (rep_free _ _ H).
  pose proof (rep_len _ _ H) as Hlen. fold n in Hlen.
  destruct (Z.eqb_spec n 0) as [E0|E0].
  { exists s. split; [done|]. destruct c; [|cbn in *; lia]. unfold range_spec. by rewrite drop_nil, take_nil. }
  assert (forall i, - 2 ^ 31 < i < 2 ^ 31 ->
    (if i <? 0 then if s32 (u64 (n + i)) <? 0 then 0 else s32 (u64 (n + i)) else i) = range_index n i) as Hidx.
  { intros i Hi. unfold range_index, u64, s32. destruct (Z.ltb_spec i 0); [|done].
    assert (swrap 32 ((n + i) mod 2 ^ 64) = n + i) as ->.
    { destruct (Z.lt_ge_cases (n + i) 0).
      - assert ((n + i) mod 2 ^ 64 = n + i + 2 ^ 64) as -> by (symmetry; apply (Z.mod_unique_pos _ _ (-1)); lia).
        replace (n + i + 2 ^ 64) with (n + i + 2 ^ 32 * 2 ^ 32) by lia.
        rewrite <-swrap_mod, Z.mod_add, swrap_mod by lia. apply swrap_small; lia.
      - rewrite Z.mod_small by lia. apply swrap_small; lia. }
    destruct (Z.ltb_spec (n + i) 0); lia. }
  rewrite !Hidx by lia. rewrite (s32_small n), (s32_small (n - 1)) by lia.
  unfold range_spec. cbv zeta. fold n.
  assert (0 <= range_index n start < 2 ^ 31) as Hi by (unfold range_index; destruct (Z.ltb_spec start 0); lia).
  assert (0 <= range_index n end_ < 2 ^ 31 - 1) as Hj by (unfold range_index; destruct (Z.ltb_spec end_ 0); lia).
  set (i := range_index n start) in *. set (j := range_index n end_) in *.
  (* the offset and the length chosen *)
  assert (exists k m : nat, (k + m <= length c)%nat /\
    (newlen ← (if j <? i then Some 0 else chk32 (j - i + 1));
     (if negb (newlen =? 0) then
        if n <=? i then Some (i, 0)
        else if n <=? j then newlen ← (if n - 1 <? i then Some 0 else chk32 (n - 1 - i + 1)); Some (i, newlen)
        else Some (i, newlen)
      else Some (0, newlen))) = Some (if decide (m = 0%nat) then (if j <? i then 0 else i) else Z.of_nat k, Z.of_nat m) /\
    take (Z.to_nat (Z.min j (n - 1) - i + 1)) (drop (Z.to_nat i) c) = take m (drop k c)) as (k & m & Hkm & Hc & Ht).
  { destruct (Z.ltb_spec j i).
    - exists 0%nat, 0%nat. cbn. split; [lia|]. split; [done|]. replace (Z.to_nat _) with 0%nat by lia. done.
    - rewrite (chk32_ok (j - i + 1)) by lia. cbn [option_bind mbind].
      rewrite (proj2 (Z.eqb_neq (j - i + 1) 0)) by lia. cbn [negb].
      destruct (Z.leb_spec n i).
      + exists 0%nat, 0%nat. cbn. split; [lia|]. split; [done|]. rewrite drop_ge by lia. by rewrite take_nil.
      + exists (Z.to_nat i), (Z.to_nat (Z.min j (n - 1) - i + 1)). split; [lia|].
        rewrite decide_False by lia. split; [|done]. destruct (Z.leb_spec n j).
        * rewrite (proj2 (Z.ltb_ge _ _)), chk32_ok by lia. cbn [option_bind mbind]. do 2 f_equal; lia.
        * do 2 f_equal; lia. }
  rewrite Ht.
  match type of Hc with ?l = _ =>
    match goal with |- exists s', ?e = Some s' /\ _ =>
      assert (e = ('(start, newlen) ← l;
        buf ← (if negb (start =? 0) && negb (newlen =? 0) then memmove (sh_buf s) 0 start newlen else Some (sh_buf s));
        buf ← put buf newlen 0;
        Some (Sdshdr (s32 newlen) (s32 (u64 (sh_free s + (sh_len s - newlen)))) buf))) as ->
    end
  end.
  { destruct (if j <? i then _ else _); done. }
  rewrite Hc. cbn [option_bind mbind].
  assert (exists b g, (if negb ((if decide (m = 0%nat) then (if j <? i then 0 else i) else Z.of_nat k) =? 0)
      && negb (Z.of_nat m =? 0)
      then memmove (sh_buf s) 0 (if decide (m = 0%nat) then (if j <? i then 0 else i) else Z.of_nat k) (Z.of_nat m)
      else Some (sh_buf s)) = Some b /\ put b (Z.of_nat m) 0 = Some (take m (drop k c) ++ z2b 0 :: g) /\
      Z.of_nat (length g) = sh_free s + (sh_len s - Z.of_nat m)) as (b & g & -> & Hp & Hg).
  { case_decide as Hm0.
    - subst m. rewrite andb_false_r. destruct (cut_spec s c 0 H) as (g & E & Hg); [lia|]. by exists (sh_buf s), g.
    - rewrite (proj2 (Z.eqb_neq (Z.of_nat m) 0)) by lia. rewrite andb_true_r.
      destruct (Z.eqb_spec (Z.of_nat k) 0) as [Ek|Ek]; cbn [negb].
      + assert (k = 0%nat) as -> by lia. rewrite drop_0.
        destruct (cut_spec s c m H) as (g & E & Hg); [lia|]. by exists (sh_buf s), g.
      + by apply truncate_spec. }
  cbn [option_bind mbind]. rewrite Hp. cbn [option_bind mbind]. eexists. split; [done|].
  assert (length (take m (drop k c)) = m) as Hlm by (rewrite length_take, length_drop; lia).
  rewrite s32_small, u64_small, s32_small by lia. apply rep_mk; lia.
Qed.
End Specs.
