(* ===== verification/SdsMore.v ===== *)
(** SdsMore: trimming, comparison, formatting and splitting of dynamic
    strings, and splitting a line into arguments. *)
From S2P Require Import Prelude Util UtilNum Sds SdsProofs.
Import (notations) Corelib.Init.Byte.

Section Specs.
Context (junk : nat -> byte).
Implicit Types (s : sdshdr) (c t : list byte).

(** ** Trimming *)

Fixpoint drop_while (f : byte -> bool) c : list byte :=
  match c with
  | b :: c' => if f b then drop_while f c' else c
  | [] => []
  end.

Definition trim_spec c (cset : list byte) : list byte :=
  let f b := strchr cset (char_val b) in
  reverse (drop_while f (reverse (drop_while f c))).

Lemma rd_mid pre b r i : i = Z.of_nat (length pre) -> rd (pre ++ b :: r) i = Some (char_val b).
Proof. intros Hi. pose proof (rd_app pre b r [] i Hi) as E. by rewrite app_nil_r in E. Qed.

Lemma trim_left_spec cset c : forall fuel pre r,
  (length c < fuel)%nat ->
  let f b := strchr cset (char_val b) in
  trim_left fuel (pre ++ c ++ r) cset (Z.of_nat (length pre)) (Z.of_nat (length pre + length c) - 1)
  = Some (Z.of_nat (length pre + length c - length (drop_while f c))).
Proof.
  induction c as [|b c IH]; intros fuel pre r Hf f; (destruct fuel as [|fuel]; [cbn in Hf; lia|]); cbn [trim_left].
  { rewrite (proj2 (Z.leb_gt _ _)) by (cbn; lia). f_equal. cbn. lia. }
  rewrite (proj2 (Z.leb_le _ _)) by (cbn [length]; lia). cbn [app]. rewrite rd_mid by done.
  cbn [option_bind mbind drop_while]. fold (f b). destruct (f b) eqn:Hb.
  - specialize (IH fuel (pre ++ [b]) r ltac:(cbn in Hf; lia)). cbv zeta in IH. fold f in IH.
    rewrite length_app in IH. cbn [length] in *. rewrite <-app_assoc in IH. cbn [app] in IH.
    replace (Z.of_nat (length pre + 1)) with (Z.of_nat (length pre) + 1) in IH by lia.
    replace (length pre + 1 + length c)%nat with (length pre + S (length c))%nat in IH by lia. exact IH.
  - cbn [length]. f_equal. lia.
Qed.

Lemma drop_while_snoc f c b :
  f b = false -> drop_while f (c ++ [b]) = drop_while f c ++ [b].
Proof.
  intros Hb. induction c as [|x c IH]; cbn; [by rewrite Hb|]. destruct (f x); done.
Qed.

Lemma drop_while_suffix f c : exists p, c = p ++ drop_while f c /\ Forall (fun b => f b = true) p.
Proof.
  induction c as [|b c (p & E & Hp)]; [by exists []|]. cbn. destruct (f b) eqn:Hb.
  - exists (b :: p). split; [cbn; by f_equal|by constructor].
  - by exists [].
Qed.

(** From the last character down, but not below the first. *)
Lemma trim_right_spec cset b0 c : forall fuel r,
  (length c < fuel)%nat ->
  let f b := strchr cset (char_val b) in
  trim_right fuel ((b0 :: c) ++ r) cset (Z.of_nat (length c)) 0
  = Some (Z.of_nat (length (drop_while f (reverse c)))).
Proof.
  induction c as [|b c IH] using rev_ind; intros fuel r Hf f; (destruct fuel as [|fuel]; [lia|]); cbn [trim_right].
  { done. }
  rewrite length_app in *. cbn [length] in *.
  rewrite (proj2 (Z.ltb_lt 0 _)) by lia.
  replace ((b0 :: c ++ [b]) ++ r) with ((b0 :: c) ++ b :: r) by (cbn; by rewrite <-app_assoc).
  rewrite rd_mid by (cbn [length]; lia). cbn [option_bind mbind].
  rewrite reverse_app. cbn [reverse rev_append app drop_while]. fold (f b). destruct (f b) eqn:Hb.
  - replace (Z.of_nat (length c + 1) - 1) with (Z.of_nat (length c)) by lia. apply IH. lia.
  - f_equal. change (reverse [b] ++ reverse c) with (b :: reverse c). cbn [length]. rewrite length_reverse. lia.
Qed.

Lemma drop_while_all f c : Forall (fun b => f b = true) c -> drop_while f c = [].
Proof. induction 1 as [|b c Hb _ IH]; [done|]. cbn. by rewrite Hb. Qed.

Lemma drop_while_app_all f p c :
  Forall (fun b => f b = true) p -> drop_while f (p ++ c) = drop_while f c.
Proof. induction 1 as [|b p Hb _ IH]; [done|]. cbn. by rewrite Hb. Qed.

Lemma drop_while_app_stop f p c b c' : drop_while f p = b :: c' -> drop_while f (p ++ c) = b :: c' ++ c.
Proof.
  induction p as [|x p IH]; cbn; [done|]. destruct (f x); [done|]. by intros [= <- <-].
Qed.

(** What both loops leave of a non-empty string. *)
Lemma trim_bounds cset b0 c :
  let f b := strchr cset (char_val b) in
  let sp := (length (b0 :: c) - length (drop_while f (b0 :: c)))%nat in
  let ep := length (drop_while f (reverse c)) in
  let len := if Z.of_nat ep <? Z.of_nat sp then 0%nat else (ep - sp + 1)%nat in
  (sp + len <= length (b0 :: c))%nat /\ take len (drop sp (b0 :: c)) = trim_spec (b0 :: c) cset.
Proof.
  intros f sp ep len. unfold trim_spec. cbv zeta. fold f.
  destruct (drop_while_suffix f (b0 :: c)) as (p & E & Hp). set (d := drop_while f (b0 :: c)) in *.
  assert (length (b0 :: c) = length p + length d)%nat as Hlen by (rewrite E at 1; apply length_app).
  assert (sp = length p) as Hsp by (unfold sp; lia).
  assert (drop sp (b0 :: c) = d) as Hdrop by (rewrite Hsp, E at 1; apply drop_app_length).
  rewrite Hdrop. destruct d as [|x d'] eqn:Hd.
  - assert (drop_while f (reverse c) = []) as He.
    { apply drop_while_all. rewrite app_nil_r in E. rewrite <-E in Hp. inversion Hp. by apply Forall_reverse. }
    unfold len, ep. rewrite He. cbn [length Z.of_nat]. rewrite (proj2 (Z.ltb_lt _ _)) by (cbn [length] in *; lia).
    cbn [length] in *. split; [lia|]. by rewrite take_nil.
  - destruct (drop_while_suffix f (reverse (x :: d'))) as (q & Eq & Hq).
    set (e := drop_while f (reverse (x :: d'))) in *.
    assert (f x = false) as Hx.
    { clear -Hd. subst d. revert Hd. induction (b0 :: c) as [|y l IH]; cbn; [done|].
      destruct (f y) eqn:Hy; [exact IH|]. by intros [= <- _]. }
    (* the kept part starts with x, so the loop from the right stops in it *)
    assert (e <> []) as He0.
    { intros H0. rewrite H0, app_nil_r in Eq. rewrite <-Eq in Hq. rewrite Forall_reverse in Hq.
      inversion Hq. congruence. }
    assert (ep + 1 = length p + length e)%nat as Hep.
    { unfold ep. destruct p as [|y p].
      - cbn [app] in E. injection E as -> ->. unfold e. rewrite reverse_cons.
        rewrite drop_while_snoc by done. rewrite length_app. cbn [length]. lia.
      - cbn [app] in E. injection E as -> ->. rewrite reverse_app. destruct e as [|z e'] eqn:Hez; [done|].
        rewrite (drop_while_app_stop f (reverse (x :: d')) (reverse p) z e' Hez).
        cbn [length]. rewrite length_app, length_reverse. cbn [length]. lia. }
    assert (length (x :: d') = length q + length e)%nat as Hde
      by (rewrite <-(length_reverse (x :: d')), Eq, length_app; done).
    assert (0 < length e)%nat by (destruct e; cbn; [done|lia]).
    assert (len = length e) as ->.
    { unfold len. rewrite (proj2 (Z.ltb_ge _ _)) by lia. lia. }
    split; [lia|]. rewrite <-(reverse_involutive (x :: d')), Eq, reverse_app.
    by rewrite take_app_length' by by rewrite length_reverse.
Qed.

Lemma trim_sds s c cset :
  sds_rep s c -> exists s', sdstrim s cset = Some s' /\ sds_rep s' (trim_spec c cset).
Proof.
  intros H. pose proof (rep_bound _ _ H). pose proof (rep_free _ _ H). pose proof (rep_len _ _ H) as Hl.
  unfold sdstrim. rewrite (rep_len_eq _ _ H). cbv zeta. set (f := fun b => strchr cset (char_val b)).
  assert (exists k m : nat, (k + m <= length c)%nat /\ take m (drop k c) = trim_spec c cset /\
    exists ep, trim_left (length (sh_buf s) + 2) (sh_buf s) cset 0 (Z.of_nat (length c) - 1) = Some (Z.of_nat k) /\
    trim_right (length (sh_buf s) + 2) (sh_buf s) cset (Z.of_nat (length c) - 1) 0 = Some ep /\
    (if ep <? Z.of_nat k then 0 else ep - Z.of_nat k + 1) = Z.of_nat m) as (k & m & Hkm & Ht & ep & -> & E & Hm).
  { destruct H as [_ _ _ (g & Hbuf & Hg)]. rewrite Hbuf.
    assert (length c < length (c ++ z2b 0 :: g) + 2)%nat as Hfuel by (rewrite length_app; cbn [length]; lia).
    pose proof (trim_left_spec cset c _ [] (z2b 0 :: g) Hfuel) as HL. cbv zeta in HL. fold f in HL.
    cbn [app length Nat.add] in HL. change (Z.of_nat 0) with 0 in HL.
    destruct c as [|b0 c].
    - exists 0%nat, 0%nat. split; [cbn; lia|]. split; [done|]. exists (-1). cbn in HL |- *. rewrite HL. done.
    - destruct (trim_bounds cset b0 c) as [Hb Hs]. cbv zeta in Hb, Hs. fold f in Hb, Hs.
      eexists _, _. split; [exact Hb|]. split; [exact Hs|]. eexists. split; [exact HL|]. split.
      + replace (Z.of_nat (length (b0 :: c)) - 1) with (Z.of_nat (length c)) by (cbn [length]; lia).
        apply (trim_right_spec cset b0 c). cbn [length] in Hfuel. lia.
      + fold f. destruct (Z.ltb_spec (Z.of_nat (length (drop_while f (reverse c))))
          (Z.of_nat (length (b0 :: c) - length (drop_while f (b0 :: c))))); lia. }
  cbn [option_bind mbind]. rewrite E. cbn [option_bind mbind]. rewrite Hm, <-Ht.
  assert (exists b g, (if negb (Z.of_nat k =? 0) then memmove (sh_buf s) 0 (Z.of_nat k) (Z.of_nat m) else Some (sh_buf s))
      = Some b /\ put b (Z.of_nat m) 0 = Some (take m (drop k c) ++ z2b 0 :: g) /\
      Z.of_nat (length g) = sh_free s + (sh_len s - Z.of_nat m)) as (b & g & -> & Hp & Hg).
  { destruct (Z.eqb_spec (Z.of_nat k) 0) as [Ek|Ek]; cbn [negb]; [|by apply truncate_spec].
    assert (k = 0%nat) as -> by lia. rewrite drop_0.
    destruct (cut_spec s c m H) as (g & E' & Hg); [lia|]. by exists (sh_buf s), g. }
  cbn [option_bind mbind]. rewrite Hp. cbn [option_bind mbind]. eexists. split; [done|].
  assert (length (take m (drop k c)) = m) as Hlm by (rewrite length_take, length_drop; lia).
  rewrite s32_small, u64_small, s32_small by lia. apply rep_mk; lia.
Qed.

(** ** Comparison *)

Fixpoint lex (c1 c2 : list byte) : comparison :=
  match c1, c2 with
  | [], [] => Eq
  | [], _ => Lt
  | _, [] => Gt
  | b1 :: c1, b2 :: c2 => match b2z b1 ?= b2z b2 with Eq => lex c1 c2 | r => r end
  end.

Lemma memcmp_lex c1 : forall c2,
  let m := Nat.min (length c1) (length c2) in
  let r := memcmp (take m c1) (take m c2) in
  if r =? 0 then lex c1 c2 = (Z.of_nat (length c1) - Z.of_nat (length c2) ?= 0)
  else lex c1 c2 = (r ?= 0) /\ -256 < r < 256.
Proof.
  induction c1 as [|b1 c1 IH]; intros [|b2 c2]; cbv zeta; cbn [length Nat.min take memcmp lex].
  - done.
  - cbn [Z.eqb]. symmetry. apply Z.compare_lt_iff. lia.
  - cbn [Z.eqb]. symmetry. apply Z.compare_gt_iff. lia.
  - pose proof (b2z_range b1). pose proof (b2z_range b2).
    destruct (Z.eqb_spec (b2z b1) (b2z b2)) as [E|E].
    + rewrite E, Z.compare_refl. specialize (IH c2). cbv zeta in IH.
      destruct (_ =? 0); [|done]. rewrite IH. f_equal. lia.
    + rewrite (proj2 (Z.eqb_neq (b2z b1 - b2z b2) 0)) by lia. split; [|lia].
      destruct (Z.compare_spec (b2z b1) (b2z b2)); [done| |]; symmetry;
        [apply Z.compare_lt_iff|apply Z.compare_gt_iff]; lia.
Qed.

Lemma cmp_sds s1 s2 c1 c2 :
  sds_rep s1 c1 -> sds_rep s2 c2 -> exists r, sdscmp s1 s2 = Some r /\ (r ?= 0) = lex c1 c2.
Proof.
  intros H1 H2. pose proof (rep_bound _ _ H1). pose proof (rep_bound _ _ H2).
  pose proof (rep_free _ _ H1). pose proof (rep_free _ _ H2).
  unfold sdscmp. rewrite (rep_len_eq _ _ H1), (rep_len_eq _ _ H2). cbv zeta.
  set (m := Nat.min (length c1) (length c2)).
  assert ((if Z.of_nat (length c1) <? Z.of_nat (length c2) then Z.of_nat (length c1) else Z.of_nat (length c2)) = Z.of_nat m)
    as -> by (unfold m; destruct (Z.ltb_spec (Z.of_nat (length c1)) (Z.of_nat (length c2))); lia).
  assert (forall s c, sds_rep s c -> (m <= length c)%nat -> mem_read (sh_buf s) 0 (Z.of_nat m) = Some (take m c)) as Hread.
  { intros s c [_ _ _ (g & -> & _)] Hm. rewrite <-(take_drop m c) at 1. rewrite <-app_assoc.
    apply (mem_read_app [] (take m c)); [done|rewrite length_take; lia]. }
  rewrite (Hread _ _ H1), (Hread _ _ H2) by lia. cbn [option_bind mbind].
  pose proof (memcmp_lex c1 c2) as Hlex. cbv zeta in Hlex. fold m in Hlex.
  destruct (memcmp (take m c1) (take m c2) =? 0).
  - eexists. split; [done|]. rewrite Hlex. f_equal. unfold u64, s32.
    rewrite <-swrap_mod by lia. rewrite Z.mod_mod_divide by (exists (2 ^ 32); lia).
    rewrite swrap_mod by lia. apply swrap_small; lia.
  - destruct Hlex as [-> _]. eexists. split; [done|]. done.
Qed.

(** ** Formatted output *)

Definition no_nul c : Prop := Forall (fun b => b2z b <> 0) c.

Lemma cstr_no_nul c r : no_nul c -> cstr (c ++ z2b 0 :: r) = c.
Proof.
  induction 1 as [|b c Hb _ IH]; [done|]. cbn [app cstr]. rewrite (proj2 (Z.eqb_neq _ 0) Hb). by f_equal.
Qed.

Lemma mem_write_0 m bs :
  (length bs <= length m)%nat -> mem_write m 0 bs = Some (bs ++ drop (length bs) m).
Proof.
  intros Hl. rewrite <-(take_drop (length bs) m) at 1.
  apply (mem_write_app [] (take (length bs) m)); [done|]. rewrite length_take. lia.
Qed.

(** One attempt with a buffer of [buflen] bytes: its content and the byte
    the loop tests. *)
Lemma vprintf_attempt t buflen :
  no_nul t -> 16 <= buflen ->
  exists h b, put (mem_resize junk [] buflen) (buflen - 2) 0 = Some h /\ vsnprintf h buflen t = Some b /\
    exists ch : Z, rd b (buflen - 2) = Some ch /\ (ch = 0 <-> Z.of_nat (length t) <= buflen - 2) /\
    (Z.of_nat (length t) <= buflen - 2 -> exists g, b = t ++ z2b 0 :: g).
Proof.
  intros Ht Hb. set (L := Z.to_nat buflen). set (m := mem_resize junk [] buflen).
  assert (length m = L) as Hm by apply length_mem_resize.
  assert (put m (buflen - 2) 0 = Some (take (L - 2) m ++ z2b 0 :: drop (L - 1) m)) as Hput.
  { destruct (drop (L - 2) m) as [|x r] eqn:Hd.
    { apply (f_equal length) in Hd. rewrite length_drop in Hd. cbn in Hd. lia. }
    assert (m = take (L - 2) m ++ x :: r) as Em by by rewrite <-Hd, take_drop.
    rewrite Em at 1. replace (buflen - 2) with (Z.of_nat (length (take (L - 2) m))) by (rewrite length_take; lia).
    rewrite put_spec. do 3 f_equal. replace (L - 1)%nat with (L - 2 + 1)%nat by lia.
    by rewrite <-drop_drop, Hd. }
  set (h := take (L - 2) m ++ z2b 0 :: drop (L - 1) m) in *.
  assert (length h = L) as Hh by (unfold h; rewrite length_app; cbn [length]; rewrite length_take, length_drop; lia).
  assert (h !! (L - 2)%nat = Some (z2b 0)) as Hz.
  { unfold h. rewrite lookup_app_r by (rewrite length_take; lia).
    by replace (L - 2 - length (take (L - 2) m))%nat with 0%nat by (rewrite length_take; lia). }
  set (w := take (Z.to_nat (buflen - 1)) t ++ [z2b 0]).
  assert (length w <= L)%nat as Hw by (unfold w; rewrite length_app, length_take; cbn [length]; lia).
  exists h, (w ++ drop (length w) h). split; [done|]. split; [unfold vsnprintf; apply mem_write_0; lia|].
  destruct (Z.le_gt_cases (Z.of_nat (length t)) (buflen - 2)) as [Hfit|Hbig].
  - exists 0. assert (w = t ++ [z2b 0]) as Ew by (unfold w; rewrite take_ge by lia; done).
    split; [|split; [done|]].
    + unfold rd. rewrite decide_True by lia. replace (Z.to_nat (buflen - 2)) with (L - 2)%nat by lia. rewrite Ew.
      destruct (decide (L - 2 = length t)%nat) as [->|Hne].
      * rewrite <-app_assoc. cbn [app]. by rewrite list_lookup_middle.
      * rewrite lookup_app_r, lookup_drop by (rewrite length_app; cbn [length]; lia).
        by replace (length (t ++ [z2b 0]) + (L - 2 - length (t ++ [z2b 0])))%nat with (L - 2)%nat
          by (rewrite length_app; cbn [length]; lia); rewrite Hz.
    + intros _. exists (drop (length w) h). by rewrite Ew, <-app_assoc.
  - destruct (lookup_lt_is_Some_2 t (L - 2)) as [x Hx]; [lia|]. exists (char_val x). split; [|split].
    + unfold rd. rewrite decide_True by lia. replace (Z.to_nat (buflen - 2)) with (L - 2)%nat by lia.
      rewrite lookup_app_l by (unfold w; rewrite length_app, length_take; cbn [length]; lia). unfold w.
      rewrite lookup_app_l, lookup_take_lt by (rewrite ?length_take; lia). by rewrite Hx.
    + split; [|lia]. intros H0. unfold no_nul in Ht. rewrite Forall_lookup in Ht.
      exfalso. apply (Ht _ _ Hx). rewrite char_val_b2z in H0. pose proof (b2z_range x).
      destruct (Z.ltb_spec (b2z x) 128); lia.
    + lia.
Qed.

Lemma vprintf_loop_spec t : no_nul t -> forall (n fuel : nat) buflen,
  (n < fuel)%nat -> 16 <= buflen -> Z.of_nat (length t) + 2 <= buflen * 2 ^ Z.of_nat n < 2 ^ 40 ->
  exists g, sdscatvprintf_loop junk fuel buflen t = Some (t ++ z2b 0 :: g).
Proof.
  intros Ht. induction n as [|n IH]; intros fuel buflen Hf Hb Hn; (destruct fuel as [|fuel]; [lia|]);
    cbn [sdscatvprintf_loop];
    destruct (vprintf_attempt t buflen Ht Hb) as (h & b & -> & E & ch & Hc & H0 & Hg);
    cbn [option_bind mbind]; rewrite E; cbn [option_bind mbind]; rewrite Hc; cbn [option_bind mbind];
    destruct (Z.eqb_spec ch 0) as [Ec|Ec]; cbn [negb];
    try (destruct (Hg (proj1 H0 Ec)) as [g ->]; by exists g).
  - exfalso. apply Ec, H0. cbn in Hn. lia.
  - rewrite Nat2Z.inj_succ, Z.pow_succ_r in Hn by lia.
    assert (1 <= 2 ^ Z.of_nat n) by (pose proof (Z.pow_pos_nonneg 2 (Z.of_nat n)); lia).
    rewrite u64_small by nia. apply IH; [lia|lia|]. nia.
Qed.

Lemma catprintf_spec s c t :
  sds_rep s c -> no_nul t -> Z.of_nat (length c) + Z.of_nat (length t) < sds_limit ->
  exists s', sdscatprintf junk s t = Some s' /\ sds_rep s' (c ++ t).
Proof.
  unfold sds_limit. intros H Ht Hb. unfold sdscatprintf, sdscatvprintf, sdscat.
  destruct (vprintf_loop_spec t Ht 27 64 16) as (g & ->); [lia|lia|lia|]. cbn [option_bind mbind].
  rewrite cstr_no_nul by done. by apply catlen_spec.
Qed.

(** ** [sdsIncrLen] *)

(** After the caller wrote [t] in the free space, or to drop a suffix. *)
Lemma incrLen_grow s c t x g :
  sh_len s = Z.of_nat (length c) -> sh_buf s = c ++ t ++ x :: g -> sh_free s = Z.of_nat (length t + length g) ->
  sh_len s + sh_free s < 2 ^ 31 - 2 ^ 19 ->
  exists s', sdsIncrLen s (Z.of_nat (length t)) = Some s' /\ sds_rep s' (c ++ t).
Proof.
  intros Hl Hbuf Hf Ht. unfold sdsIncrLen. rewrite (proj2 (Z.ltb_ge _ _)) by lia.
  rewrite (chk32_ok (sh_len s + _)) by lia. cbn [option_bind mbind].
  rewrite chk32_ok by lia. cbn [option_bind mbind]. rewrite (proj2 (Z.ltb_ge _ 0)) by lia.
  rewrite Hbuf, Hl, app_assoc.
  replace (Z.of_nat (length c) + Z.of_nat (length t)) with (Z.of_nat (length (c ++ t))) by (rewrite length_app; lia).
  rewrite put_spec. cbn [option_bind mbind]. eexists. split; [done|].
  apply rep_mk; rewrite ?length_app; lia.
Qed.

Lemma incrLen_trim s c (n : nat) :
  sds_rep s c -> (n <= length c)%nat ->
  exists s', sdsIncrLen s (- Z.of_nat n) = Some s' /\ sds_rep s' (take (length c - n) c).
Proof.
  intros H Hn. pose proof (rep_bound _ _ H). pose proof (rep_free _ _ H). pose proof (rep_len _ _ H) as Hl.
  unfold sdsIncrLen. rewrite (proj2 (Z.ltb_ge _ _)) by lia.
  rewrite (chk32_ok (sh_len s + _)) by lia. cbn [option_bind mbind].
  rewrite chk32_ok by lia. cbn [option_bind mbind]. rewrite (proj2 (Z.ltb_ge _ 0)) by lia.
  destruct (cut_spec s c (length c - n) H) as (g & E & Hg); [lia|].
  replace (sh_len s + - Z.of_nat n) with (Z.of_nat (length c - n)) by lia. rewrite E. cbn [option_bind mbind].
  eexists. split; [done|]. apply rep_mk; rewrite ?length_take; lia.
Qed.
End Specs.

(** Splitting by a separator, and the quoted form of a string and
    its parser. *)
Import (notations) Corelib.Init.Byte.

(** ** Splitting by a separator *)

Definition starts (sep s : list byte) : bool := bool_decide (take (length sep) s = sep).

(** Leftmost splitting; [cur] is the part of the current token already read. *)
Fixpoint split_ref (n : nat) (sep cur s : list byte) : list (list byte) :=
  match n with
  | O => [cur]
  | S n =>
    if starts sep s then cur :: split_ref n sep [] (drop (length sep) s)
    else match s with
         | [] => [cur]
         | b :: s => split_ref n sep (cur ++ [b]) s
         end
  end.

Fixpoint join (sep : list byte) (ts : list (list byte)) : list byte :=
  match ts with
  | [] => []
  | [t] => t
  | t :: ts => t ++ sep ++ join sep ts
  end.

Lemma split_ref_short n : forall sep cur s,
  (length s < n)%nat -> (length s < length sep)%nat -> split_ref n sep cur s = [cur ++ s].
Proof.
  induction n as [|n IH]; intros sep cur s Hn Hl; [lia|]. cbn [split_ref].
  unfold starts. rewrite bool_decide_eq_false_2.
  2:{ intros H. apply (f_equal length) in H. rewrite length_take in H. lia. }
  destruct s as [|b s]; [by rewrite app_nil_r|]. cbn [length] in *.
  rewrite IH by lia. by rewrite <-app_assoc.
Qed.

Lemma split_ref_join n : forall sep cur s,
  (0 < length sep)%nat -> (length s < n)%nat ->
  split_ref n sep cur s <> [] /\ join sep (split_ref n sep cur s) = cur ++ s.
Proof.
  induction n as [|n IH]; intros sep cur s Hsep Hn; [lia|]. cbn [split_ref].
  unfold starts. case_bool_decide as Hst.
  - split; [done|]. assert (length sep <= length s)%nat as Hl.
    { apply (f_equal length) in Hst. rewrite length_take in Hst. lia. }
    destruct (IH sep [] (drop (length sep) s) Hsep) as [Hne E]; [rewrite length_drop; lia|].
    cbn [join]. destruct (split_ref n sep [] (drop (length sep) s)) as [|t ts] eqn:Es; [done|].
    rewrite E. cbn [app]. rewrite <-Hst at 1. by rewrite take_drop.
  - destruct s as [|b s]; [split; [done|]; cbn; by rewrite app_nil_r|]. cbn [length] in Hn.
    destruct (IH sep (cur ++ [b]) s Hsep) as [Hne E]; [lia|]. split; [done|]. by rewrite E, <-app_assoc.
Qed.

(** No token contains the separator. *)
Definition free_of (sep t : list byte) : Prop := forall a b, t <> a ++ sep ++ b.

Lemma starts_app sep s : starts sep (sep ++ s) = true.
Proof. unfold starts. apply bool_decide_eq_true. apply take_app_length. Qed.

Lemma starts_ge sep s : starts sep s = true -> exists r, s = sep ++ r.
Proof.
  unfold starts. intros H%bool_decide_eq_true. exists (drop (length sep) s). rewrite <-H at 1. by rewrite take_drop.
Qed.

Lemma split_ref_free n : forall sep cur s,
  (0 < length sep)%nat -> (length s < n)%nat ->
  (forall i, (i < length cur)%nat -> starts sep (drop i (cur ++ s)) = false) ->
  Forall (free_of sep) (split_ref n sep cur s).
Proof.
  induction n as [|n IH]; intros sep cur s Hsep Hn Hcur; [lia|]. cbn [split_ref].
  assert (free_of sep cur) as Hfree.
  { intros a b ->. rewrite !length_app in Hcur. specialize (Hcur (length a) ltac:(lia)).
    rewrite <-app_assoc, drop_app_length, <-app_assoc, starts_app in Hcur. done. }
  destruct (starts sep s) eqn:Hst.
  - constructor; [done|]. apply starts_ge in Hst as [r ->]. rewrite drop_app_length.
    apply IH; [done|rewrite length_app in Hn; lia|]. intros i Hi. cbn in Hi. lia.
  - destruct s as [|b s]; [by constructor|]. cbn [length] in Hn. apply IH; [done|lia|].
    intros i Hi. rewrite length_app in Hi. cbn [length] in Hi. rewrite <-app_assoc. cbn [app].
    destruct (decide (i = length cur)) as [->|]; [by rewrite drop_app_length|]. apply Hcur. lia.
Qed.

Section Split.
Context (junk : nat -> byte).

Lemma memcmp_starts b sep :
  length b = length sep -> (memcmp b sep =? 0) = bool_decide (b = sep).
Proof.
  intros Hl. apply eq_true_iff_eq. rewrite Z.eqb_eq, bool_decide_eq_true. by apply memcmp_eq.
Qed.

Lemma split_loop_spec sep : (0 < length sep)%nat -> forall (n fuel : nat) dn cur s slots tokens cs,
  (length s < n)%nat -> (n <= fuel)%nat ->
  Z.of_nat (length (dn ++ cur ++ s)) < sds_limit ->
  Z.of_nat (length tokens) + 1 <= slots -> Forall2 sds_rep tokens cs ->
  exists start slots' toks last cs', sdssplitlen_loop junk fuel (dn ++ cur ++ s) (Z.of_nat (length (dn ++ cur ++ s))) sep
      (Z.of_nat (length sep)) (Z.of_nat (length (dn ++ cur))) (Z.of_nat (length dn)) slots tokens
    = Some (Z.of_nat start, slots', toks) /\
    dn ++ cur ++ s = take start (dn ++ cur ++ s) ++ last /\ (start <= length (dn ++ cur ++ s))%nat /\
    Z.of_nat (length toks) + 1 <= slots' /\ Forall2 sds_rep toks cs' /\
    cs' ++ [last] = cs ++ split_ref n sep cur s.
Proof.
  intros Hsep. induction n as [|n IH]; intros fuel dn cur s slots tokens cs Hn Hf Hlim Hslots Htoks; [lia|].
  destruct fuel as [|fuel]; [lia|]. cbn [sdssplitlen_loop]. unfold sds_limit in *.
  pose proof Hlim as Hlim'. rewrite !length_app in Hlim'.
  destruct (Z.ltb_spec (Z.of_nat (length (dn ++ cur)))
    (Z.of_nat (length (dn ++ cur ++ s)) - (Z.of_nat (length sep) - 1))) as [Hlt|Hge].
  2:{ exists (length dn), slots, tokens, (cur ++ s), cs. rewrite !length_app in Hge.
      rewrite take_app_length. rewrite split_ref_short by lia. rewrite !length_app.
      split_and!; try done; lia. }
  rewrite !length_app in Hlt. assert (length sep <= length s)%nat as Hls by lia.
  set (slots1 := if slots <? _ then _ else _).
  assert (Z.of_nat (length tokens) + 2 <= slots1) as Hs1.
  { unfold slots1. destruct (Z.ltb_spec slots (Z.of_nat (length tokens) + 2)); lia. }
  destruct s as [|b s]; [cbn in Hls; lia|]. destruct sep as [|p sep]; [cbn in Hsep; lia|].
  assert (mem_read (dn ++ cur ++ b :: s) (Z.of_nat (length (dn ++ cur))) (Z.of_nat (length (p :: sep)))
    = Some (take (length (p :: sep)) (b :: s))) as ->.
  { rewrite (app_assoc dn cur). rewrite <-(take_drop (length (p :: sep)) (b :: s)) at 1.
    apply mem_read_app; [done|]. rewrite length_take. lia. }
  cbn [option_bind mbind]. rewrite (app_assoc dn cur), rd_mid by done. change (rd (p :: sep) 0) with (Some (char_val p)).
  rewrite <-(app_assoc dn cur). cbn [option_bind mbind].
  assert (((Z.of_nat (length (p :: sep)) =? 1) && (char_val b =? char_val p))
    || (memcmp (take (length (p :: sep)) (b :: s)) (p :: sep) =? 0) = starts (p :: sep) (b :: s)) as ->.
  { unfold starts. rewrite memcmp_starts by (rewrite length_take; lia).
    destruct (Z.eqb_spec (Z.of_nat (length (p :: sep))) 1) as [E1|]; [|done]. cbn [andb].
    destruct sep; [|cbn in E1; lia]. cbn [length take].
    destruct (Z.eqb_spec (char_val b) (char_val p)) as [Ec|]; [|done].
    apply char_val_inj in Ec as ->. by rewrite bool_decide_eq_true_2. }
  cbn [split_ref]. destruct (starts (p :: sep) (b :: s)) eqn:Hst.
  - rewrite (proj2 (Z.ltb_lt _ slots1)) by lia.
    replace (Z.of_nat (length (dn ++ cur)) - Z.of_nat (length dn)) with (Z.of_nat (length cur))
      by (rewrite length_app; lia).
    rewrite mem_read_app by done. cbn [option_bind mbind].
    destruct (newlen_spec junk cur []) as (tok & E & Htok & _); [unfold sds_limit; lia|].
    rewrite app_nil_r in E. rewrite E. cbn [option_bind mbind].
    apply starts_ge in Hst as [r Hr]. rewrite Hr in Hlim |- *.
    rewrite drop_app_length. assert (length (b :: s) = length (p :: sep) + length r)%nat as Hlr
      by (rewrite Hr; apply length_app).
    replace (dn ++ cur ++ (p :: sep) ++ r) with ((dn ++ cur ++ p :: sep) ++ [] ++ r) in * by (by rewrite <-!app_assoc).
    destruct (IH fuel (dn ++ cur ++ p :: sep) [] r slots1 (tokens ++ [tok]) (cs ++ [cur]))
      as (start & slots' & toks & last & cs' & El & H1 & H2 & H3 & H4 & H5).
    { cbn [length] in *. lia. } { lia. } { done. } { rewrite length_app. cbn [length]. lia. }
    { apply Forall2_app; [done|]. by constructor. }
    exists start, slots', toks, last, cs'. split; [|split; [done|split; [done|split; [done|split; [done|]]]]].
    + rewrite <-El. rewrite app_nil_r, !length_app. f_equal; lia.
    + rewrite H5, <-app_assoc. done.
  - replace (dn ++ cur ++ b :: s) with (dn ++ (cur ++ [b]) ++ s) in * by (by rewrite <-!app_assoc).
    destruct (IH fuel dn (cur ++ [b]) s slots1 tokens cs)
      as (start & slots' & toks & last & cs' & El & H1 & H2 & H3 & H4 & H5).
    { cbn [length] in *. lia. } { lia. } { done. } { lia. } { done. }
    exists start, slots', toks, last, cs'. split; [|split_and!; done].
    rewrite <-El. f_equal. rewrite !length_app. cbn [length]. lia.
Qed.

Lemma splitlen_spec sep s :
  (0 < length sep)%nat -> Z.of_nat (length s) < sds_limit ->
  exists toks, sdssplitlen junk s (Z.of_nat (length s)) sep = Some (Some toks) /\
    Forall2 sds_rep toks (if decide (s = []) then [] else split_ref (S (length s)) sep [] s).
Proof.
  intros Hsep Hlim. unfold sdssplitlen. rewrite (proj2 (Z.ltb_ge _ 1)), (proj2 (Z.ltb_ge _ 0)) by lia. cbn [orb].
  destruct (Z.eqb_spec (Z.of_nat (length s)) 0) as [E0|E0].
  { destruct s; [|cbn in E0; lia]. exists []. split; [done|]. by rewrite decide_True. }
  rewrite decide_False by (by intros ->).
  destruct (split_loop_spec sep Hsep (S (length s)) (Z.to_nat (Z.of_nat (length s)) + 1) [] [] s 5 [] [])
    as (start & slots & toks & last & cs & El & H1 & H2 & H3 & H4 & H5); [lia|lia|done|cbn; lia|done|].
  cbn [app length] in El, H1, H2, H5. change (Z.of_nat 0) with 0 in El. rewrite El. cbn [option_bind mbind].
  rewrite (proj2 (Z.ltb_lt _ _)) by lia.
  assert (length s = start + length last)%nat as Hl.
  { rewrite H1 at 1. rewrite length_app, length_take. lia. }
  assert (mem_read s (Z.of_nat start) (Z.of_nat (length s) - Z.of_nat start) = Some last) as ->.
  { rewrite H1 at 1. rewrite <-(app_nil_r last) at 1. apply mem_read_app; [rewrite length_take; lia|lia]. }
  cbn [option_bind mbind]. replace (Z.of_nat (length s) - Z.of_nat start) with (Z.of_nat (length last)) by lia.
  destruct (newlen_spec junk last []) as (tok & E & Htok & _); [lia|].
  rewrite app_nil_r in E. rewrite E. cbn [option_bind mbind].
  eexists. split; [done|]. rewrite <-H5. apply Forall2_app; [done|]. by constructor.
Qed.
End Split.
