(* ===== verification/SdsRepr.v ===== *)
(** SdsRepr: the quoted form written by [sdscatrepr] and the argument parser
    [sdssplitargs]. *)
From S2P Require Import Prelude Util UtilNum Sds SdsProofs SdsMore.
Import (notations) Corelib.Init.Byte.

(** ** The quoted form *)

Definition repr_char (b : byte) : list byte :=
  let c := b2z b in
  if (c =? 92) || (c =? 34) then ["\"%byte; b]
  else if c =? 10 then ["\"; "n"]%byte
  else if c =? 13 then ["\"; "r"]%byte
  else if c =? 9 then ["\"; "t"]%byte
  else if c =? 7 then ["\"; "a"]%byte
  else if c =? 8 then ["\"; "b"]%byte
  else if (32 <=? c) && (c <=? 126) then [b]
  else ["\"; "x"]%byte ++ [hex_char (c / 16); hex_char (c mod 16)].

Definition quoted (a : list byte) : list byte := z2b 34 :: concat (repr_char <$> a) ++ [z2b 34].

(** Between one and four characters, never a NUL. *)
Lemma repr_char_shape b :
  exists x y, repr_char b = x ++ [y] /\ (length x <= 3)%nat /\ no_nul (repr_char b) /\ char_val y <> 0.
Proof.
  assert (let r := repr_char b in
    negb (length r =? 0)%nat && (length r <=? 4)%nat && forallb (fun b => negb (b2z b =? 0)) r = true) as H
    by by destruct b.
  cbv zeta in H. rewrite !andb_true_iff in H. destruct H as [[H1 H2] H3].
  destruct (repr_char b) as [|y x _] using rev_ind; [done|]. exists x, y. rewrite length_app in H2. cbn in H2.
  apply Nat.leb_le in H2. split; [done|]. split; [lia|].
  assert (no_nul (x ++ [y])) as Hn.
  { apply Forall_forall. intros z Hz. rewrite forallb_forall in H3. apply list_elem_of_In, H3 in Hz.
    by apply negb_true_iff, Z.eqb_neq in Hz. }
  split; [done|]. apply Forall_app in Hn as [_ Hn]. inversion Hn as [|? ? Hy _]; subst.
  intros H0. apply Hy. rewrite char_val_b2z in H0. pose proof (b2z_range y).
  destruct (Z.ltb_spec (b2z y) 128); lia.
Qed.

Lemma length_concat_repr a : (length (concat (repr_char <$> a)) <= 4 * length a)%nat.
Proof.
  induction a as [|b a IH]; [cbn; lia|]. cbn [fmap list_fmap concat length]. rewrite length_app.
  destruct (repr_char_shape b) as (x & y & -> & Hx & _). rewrite length_app. cbn [length]. lia.
Qed.

Section Repr.
Context (junk : nat -> byte).

Lemma catrepr_char_eq s b :
  sdscatrepr_char junk s b =
  (if existsb (Z.eqb (b2z b)) [10; 13; 9; 7; 8] then sdscatlen junk s (repr_char b)
   else sdscatprintf junk s (repr_char b)).
Proof. by destruct b. Qed.

Lemma catrepr_char_spec s c b :
  sds_rep s c -> Z.of_nat (length c) + 4 < sds_limit ->
  exists s', sdscatrepr_char junk s b = Some s' /\ sds_rep s' (c ++ repr_char b).
Proof.
  intros H Hl. destruct (repr_char_shape b) as (x & y & E & Hx & Hn & _).
  assert (length (repr_char b) <= 4)%nat by (rewrite E, length_app; cbn [length]; lia).
  rewrite catrepr_char_eq. destruct (existsb _ _).
  - apply catlen_spec; [done|lia].
  - apply catprintf_spec; [done|done|lia].
Qed.

Lemma catrepr_spec a : forall s c,
  sds_rep s c -> Z.of_nat (length c) + 4 * Z.of_nat (length a) + 2 < sds_limit ->
  exists s', sdscatrepr junk s a = Some s' /\ sds_rep s' (c ++ quoted a).
Proof.
  assert (forall s c, sds_rep s c -> Z.of_nat (length c) + 4 * Z.of_nat (length a) < sds_limit ->
    exists s', sdscatrepr_loop junk s a = Some s' /\ sds_rep s' (c ++ concat (repr_char <$> a))) as Hloop.
  { induction a as [|b a IH]; intros s c H Hl; [exists s; by rewrite app_nil_r|].
    cbn [sdscatrepr_loop fmap list_fmap concat length] in *.
    destruct (catrepr_char_spec s c b H) as (s1 & -> & H1); [lia|]. cbn [option_bind mbind].
    destruct (repr_char_shape b) as (x & y & E & Hx & _).
    destruct (IH s1 _ H1) as (s2 & E2 & H2).
    { rewrite E, !length_app. cbn [length]. lia. }
    exists s2. split; [done|]. by rewrite app_assoc. }
  intros s c H Hl. unfold sdscatrepr, quoted.
  destruct (catlen_spec junk s c [z2b 34] H) as (s1 & -> & H1); [cbn [length]; lia|]. cbn [option_bind mbind].
  pose proof (length_concat_repr a).
  destruct (Hloop s1 _ H1) as (s2 & -> & H2); [rewrite length_app; cbn [length]; lia|]. cbn [option_bind mbind].
  destruct (catlen_spec junk s2 _ [z2b 34] H2) as (s3 & -> & H3).
  { rewrite !length_app. cbn [length]. lia. }
  exists s3. split; [done|]. by rewrite <-!app_assoc in H3.
Qed.

(** ** Parsing the quoted form *)

Lemma rd_shift pre w k : 0 <= k -> rd (pre ++ w) (Z.of_nat (length pre) + k) = rd w k.
Proof.
  intros Hk. unfold rd. rewrite !decide_True by lia. f_equal.
  rewrite lookup_app_r by lia. f_equal. lia.
Qed.
Lemma rd_shift0 pre w : rd (pre ++ w) (Z.of_nat (length pre)) = rd w 0.
Proof. by rewrite <-(rd_shift pre w 0), Z.add_0_r by lia. Qed.

Lemma quoted_step b pre post current :
  exists p, split_step junk (pre ++ repr_char b ++ post) (Z.of_nat (length pre)) true false current
    = (current ← sdscatlen junk current [b]; Some (Some (p, true, false, false, current))) /\
    p = Z.of_nat (length pre) + Z.of_nat (length (repr_char b)) - 1.
Proof.
  unfold split_step. rewrite rd_shift0, !rd_shift by lia.
  destruct b; (eexists; split; [reflexivity|cbn; lia]).
Qed.

(** What follows a closing quote. *)
Definition ends_token (post : list byte) : Prop :=
  exists z r, post = z :: r /\ (char_val z = 0 \/ isspace (char_val z) = true).

Lemma close_step pre z r current :
  split_step junk (pre ++ z2b 34 :: z :: r) (Z.of_nat (length pre)) true false current
  = if negb (char_val z =? 0) && negb (isspace (char_val z)) then Some None
    else Some (Some (Z.of_nat (length pre), true, false, true, current)).
Proof. unfold split_step. rewrite rd_shift0, !rd_shift by lia. reflexivity. Qed.

Lemma open_step pre w current :
  split_step junk (pre ++ z2b 34 :: w) (Z.of_nat (length pre)) false false current
  = Some (Some (Z.of_nat (length pre), true, false, false, current)).
Proof. unfold split_step. rewrite rd_shift0. reflexivity. Qed.

Lemma quoted_body a : forall fuel pre post current c,
  ends_token post -> sds_rep current c -> Z.of_nat (length c) + Z.of_nat (length a) < sds_limit ->
  (length a < fuel)%nat ->
  exists cur, split_token junk fuel (pre ++ concat (repr_char <$> a) ++ z2b 34 :: post)
      (Z.of_nat (length pre)) true false current
    = Some (Some (Z.of_nat (length (pre ++ concat (repr_char <$> a) ++ [z2b 34])), cur)) /\ sds_rep cur (c ++ a).
Proof.
  induction a as [|b a IH]; intros fuel pre post current c Hpost Hc Hl Hf; (destruct fuel as [|fuel]; [lia|]);
    cbn [split_token].
  - cbn [fmap list_fmap concat app]. destruct Hpost as (z & r & -> & Hz). rewrite close_step.
    assert (negb (char_val z =? 0) && negb (isspace (char_val z)) = false) as ->.
    { destruct Hz as [-> | ->]; [done|]. by rewrite andb_false_r. }
    cbn [option_bind mbind]. rewrite rd_shift0. change (rd (z2b 34 :: z :: r) 0) with (Some 34).
    cbn [option_bind mbind].
    exists current. rewrite app_nil_r. split; [|done]. rewrite length_app. cbn -[Z.of_nat]. do 3 f_equal. lia.
  - cbn [fmap list_fmap concat length] in *. rewrite <-app_assoc.
    destruct (quoted_step b pre (concat (repr_char <$> a) ++ z2b 34 :: post) current) as (p & -> & ->).
    destruct (catlen_spec junk current c [b] Hc) as (cur & -> & Hcur); [cbn [length]; lia|]. cbn [option_bind mbind].
    destruct (repr_char_shape b) as (x & y & E & Hx & _ & Hy).
    assert (rd (pre ++ repr_char b ++ concat (repr_char <$> a) ++ z2b 34 :: post)
      (Z.of_nat (length pre) + Z.of_nat (length (repr_char b)) - 1) = Some (char_val y)) as ->.
    { rewrite E, <-app_assoc, app_assoc. cbn [app]. apply rd_mid. rewrite !length_app. cbn [length]. lia. }
    cbn [option_bind mbind]. rewrite (proj2 (Z.eqb_neq _ _) Hy). cbn [negb].
    destruct (IH fuel (pre ++ repr_char b) post cur (c ++ [b]) Hpost Hcur) as (cur' & E' & Hcur').
    { rewrite length_app. cbn [length]. lia. } { lia. }
    exists cur'. rewrite <-app_assoc in Hcur'. split; [|done].
    rewrite <-!app_assoc in E'. cbn [app] in E' |- *. rewrite <-!app_assoc.
    replace (Z.of_nat (length pre) + Z.of_nat (length (repr_char b)) - 1 + 1)
      with (Z.of_nat (length (pre ++ repr_char b))) by (rewrite length_app; lia). exact E'.
Qed.

Lemma quoted_token a fuel pre post current :
  ends_token post -> sds_rep current [] -> Z.of_nat (length a) < sds_limit -> (length a + 1 < fuel)%nat ->
  exists cur, split_token junk fuel (pre ++ quoted a ++ post) (Z.of_nat (length pre)) false false current
    = Some (Some (Z.of_nat (length (pre ++ quoted a)), cur)) /\ sds_rep cur a.
Proof.
  intros Hpost Hc Hl Hf. destruct fuel as [|fuel]; [lia|]. cbn [split_token]. unfold quoted. cbn [app].
  rewrite <-app_assoc. cbn [app]. rewrite open_step. cbn [option_bind mbind].
  rewrite rd_shift0. change (rd (z2b 34 :: ?r) 0) with (Some 34). cbn [option_bind mbind].
  rewrite (eq_refl : negb (34 =? 0) = true).
  destruct (quoted_body a fuel (pre ++ [z2b 34]) post current [] Hpost Hc Hl) as (cur & E & Hcur); [lia|].
  exists cur. split; [|done]. rewrite <-!app_assoc in E. cbn [app] in E.
  replace (Z.of_nat (length pre) + 1) with (Z.of_nat (length (pre ++ [z2b 34]))) by (rewrite length_app; cbn [length]; lia).
  exact E.
Qed.

Lemma empty_spec : exists s, sdsempty junk = Some s /\ sds_rep s [].
Proof. destruct (newlen_spec junk [] [z2b 0]) as (s & E & H & _); [done|]. by exists s. Qed.

Lemma args_loop args : forall fuel pre sp toks cs,
  (sp = [] \/ sp = [z2b 32]) ->
  Forall (fun a => 8 * Z.of_nat (length a) < sds_limit) args -> (length args < fuel)%nat ->
  Forall2 sds_rep toks cs ->
  (args = [] -> sp = []) ->
  exists vector, sdssplitargs_loop junk fuel
      (pre ++ match args with [] => [] | a :: args => sp ++ quoted a ++ concat ((cons (z2b 32)) <$> (quoted <$> args)) end ++ [z2b 0])
      (Z.of_nat (length pre)) toks = Some (Some vector) /\ Forall2 sds_rep vector (cs ++ args).
Proof.
  induction args as [|a args IH]; intros fuel pre sp toks cs Hsp Hl Hf Htoks Hnil; (destruct fuel as [|fuel]; [lia|]);
    cbn [sdssplitargs_loop].
  - cbn [app]. rewrite length_app. cbn [length]. rewrite Nat.add_1_r. cbn [skip_blanks]. rewrite !rd_shift0.
    change (rd [z2b 0] 0) with (Some 0). cbn [option_bind mbind]. cbn -[rd]. rewrite rd_shift0.
    change (rd [z2b 0] 0) with (Some 0). cbn [option_bind mbind]. cbn. exists toks. by rewrite app_nil_r.
  - inversion Hl as [|? ? Ha Hl']; subst. clear Hnil. cbn [length] in Hf.
    set (rest := concat (cons (z2b 32) <$> (quoted <$> args)) ++ [z2b 0]).
    assert (ends_token rest) as Hrest.
    { unfold rest. destruct args as [|a' args]; [exists (z2b 0), []; split; [done|by left]|].
      eexists (z2b 32), _. split; [reflexivity|by right]. }
    replace (pre ++ (sp ++ quoted a ++ concat (cons (z2b 32) <$> (quoted <$> args))) ++ [z2b 0])
      with ((pre ++ sp) ++ quoted a ++ rest) by (unfold rest; by rewrite <-!app_assoc).
    set (line := (pre ++ sp) ++ quoted a ++ rest).
    assert (forall f, (2 <= f)%nat -> skip_blanks f line (Z.of_nat (length pre)) = Some (Z.of_nat (length (pre ++ sp)))) as Hskip.
    { intros [|[|f]] Hf2; try lia. cbn [skip_blanks]. unfold line.
      destruct Hsp as [-> | ->].
      - rewrite app_nil_r, rd_shift0. change (rd (quoted a ++ rest) 0) with (Some 34). done.
      - rewrite <-!(app_assoc pre), rd_shift0, rd_shift by lia. cbn [app].
        change (rd (z2b 32 :: ?r) 0) with (Some 32). change (rd (z2b 32 :: quoted a ++ rest) 1) with (Some 34).
        cbn. rewrite length_app. cbn [length]. f_equal. lia. }
    assert (length a + 2 <= length line)%nat as Hna.
    { assert (length a <= length (concat (repr_char <$> a)))%nat.
      { clear. induction a as [|b a IHa]; [cbn; lia|]. cbn [fmap list_fmap concat length]. rewrite length_app.
        destruct (repr_char_shape b) as (x & y & -> & _). rewrite length_app. cbn [length]. lia. }
      unfold line. rewrite !length_app. unfold quoted. cbn [length]. rewrite length_app. cbn [length]. lia. }
    rewrite Hskip by lia. cbn [option_bind mbind].
    assert (rd line (Z.of_nat (length (pre ++ sp))) = Some 34) as -> by (unfold line; rewrite rd_shift0; done).
    cbn -[Z.of_nat length sdsempty split_token sdssplitargs_loop].
    destruct empty_spec as (cur & -> & Hcur). cbn [option_bind mbind].
    unfold sds_limit in Ha.
    destruct (quoted_token a (length line + 1) (pre ++ sp) rest cur Hrest Hcur) as (cur' & E & Hcur');
      [unfold sds_limit; lia|lia|]. fold line in E. rewrite E. cbn [option_bind mbind].
    destruct (IH fuel ((pre ++ sp) ++ quoted a) (match args with [] => [] | _ => [z2b 32] end) (toks ++ [cur']) (cs ++ [a]))
      as (vector & Ev & Hv).
    { destruct args; [by left|by right]. } { done. } { lia. } { apply Forall2_app; [done|by constructor]. } { by intros ->. }
    exists vector. rewrite <-app_assoc in Hv. split; [|done]. rewrite <-Ev. f_equal.
    unfold line, rest. rewrite <-!app_assoc. do 3 f_equal. by destruct args.
Qed.

(** ** The parser on any line *)

Section AnyLine.
Context (text : list byte) (Htext : no_nul text) (Hlim : Z.of_nat (length text) + 2 < sds_limit).
Let line := text ++ [z2b 0].
Let len := Z.of_nat (length text).

Lemma rd_line i : 0 <= i <= len -> exists v, rd line i = Some v /\ (v = 0 <-> i = len).
Proof.
  intros Hi. unfold rd, line, len in *. rewrite decide_True by lia.
  destruct (decide (i = Z.of_nat (length text))) as [->|Hne].
  - rewrite Nat2Z.id, list_lookup_middle by done. exists 0. done.
  - destruct (lookup_lt_is_Some_2 text (Z.to_nat i)) as [b Hb]; [lia|].
    rewrite lookup_app_l, Hb by lia. exists (char_val b). split; [done|]. split; [|done].
    intros H0. exfalso. unfold no_nul in Htext. rewrite Forall_lookup in Htext. apply (Htext _ _ Hb).
    rewrite char_val_b2z in H0. pose proof (b2z_range b). destruct (Z.ltb_spec (b2z b) 128); lia.
Qed.

(** A conditional read, as [&&] performs it. *)
Lemma rd_if (b : bool) i :
  (b = true -> 0 <= i <= len) ->
  exists v, (if b then rd line i else Some 0) = Some v /\ (v <> 0 -> b = true /\ i < len).
Proof.
  intros Hi. destruct b; [|by exists 0]. destruct (rd_line i (Hi eq_refl)) as (v & E & Hv).
  exists v. split; [done|]. intros Hne. split; [done|]. specialize (Hi eq_refl). destruct (decide (i = len)); [|lia].
  by apply Hv in e.
Qed.

Definition step_ok (p : Z) (c : list byte) (inq insq : bool) (c0 : Z)
    (r : option (Z * bool * bool * bool * sdshdr)) : Prop :=
  match r with
  | None => True
  | Some (p', inq', insq', fin, cur') =>
    p <= p' <= len /\ (fin = false -> p' < len) /\
    (exists c', sds_rep cur' c' /\ Z.of_nat (length c') <= Z.of_nat (length c) + 1 /\
       (fin = true -> c' = c)) /\
    (fin = true -> inq = false -> insq = false -> c0 = 0 \/ isspace c0 = true)
  end.

Lemma split_step_total p inq insq cur c c0 :
  0 <= p <= len -> sds_rep cur c -> Z.of_nat (length c) <= p -> rd line p = Some c0 ->
  exists r, split_step junk line p inq insq cur = Some r /\ step_ok p c inq insq c0 r.
Proof.
  intros Hp Hc Hcl Hc0. destruct (rd_line p Hp) as (c0' & E0 & H0). rewrite Hc0 in E0. injection E0 as <-.
  unfold split_step. rewrite Hc0.
  cbn [option_bind mbind]. unfold len in *.
  assert (forall b p' i1 i2, p <= p' -> (c0 <> 0 -> p' < Z.of_nat (length text)) -> c0 <> 0 ->
    exists r, (current ← sdscatlen junk cur [b]; Some (Some (p', i1, i2, false, current))) = Some r /\
      step_ok p c inq insq c0 r) as Hcat.
  { intros b p' i1 i2 Hp1 Hp2 Hne. destruct (catlen_spec junk cur c [b] Hc) as (cur' & -> & Hcur').
    { cbn [length]. lia. }
    eexists. split; [reflexivity|]. specialize (Hp2 Hne). unfold step_ok, len. split; [lia|]. split; [done|]. split; [|done].
    exists (c ++ [b]). split; [done|]. split; [rewrite length_app; cbn [length]; lia|done]. }
  assert (forall p', p' = p -> (inq = true \/ insq = true \/ c0 = 0 \/ isspace c0 = true) ->
    step_ok p c inq insq c0 (Some (p', inq, insq, true, cur))) as Hdone.
  { intros p' -> Hq. unfold step_ok, len. split; [lia|]. split; [done|]. split; [exists c; split; [done|]; split; [lia|done]|].
    intros _ -> ->. by destruct Hq as [?|[?|?]]. }
  assert (c0 <> 0 -> p < Z.of_nat (length text)) as Hlt.
  { intros Hne. destruct (decide (p = Z.of_nat (length text))); [|lia]. by apply H0 in e. }
  destruct inq; [|destruct insq].
  - destruct (rd_if (c0 =? chr "\"%byte) (p + 1)) as (c1 & -> & H1).
    { intros Hb%Z.eqb_eq. unfold len. specialize (Hlt ltac:(by rewrite Hb)). lia. }
    cbn [option_bind mbind].
    destruct (rd_if (c1 =? chr "x"%byte) (p + 2)) as (c2 & -> & H2).
    { intros Hb%Z.eqb_eq. destruct H1 as [_ H1]; [by rewrite Hb|]. unfold len in *. lia. }
    cbn [option_bind mbind].
    destruct (rd_if (is_hex_digit c2) (p + 3)) as (c3 & -> & H3).
    { intros Hb. destruct H2 as [_ H2]; [by intros ->|]. unfold len in *. lia. }
    cbn [option_bind mbind].
    destruct (_ && _ && _ && _) eqn:Hhex.
    { rewrite !andb_true_iff in Hhex. destruct Hhex as [[[Hb0 _] _] Hb3].
      apply Hcat; [lia| |by intros ->]. intros _. destruct H3 as [_ H3]; [by intros ->|]. unfold len in H3. lia. }
    destruct ((c0 =? chr "\"%byte) && negb (c1 =? 0)) eqn:Hesc.
    { apply andb_true_iff in Hesc as [Hb0 Hb1]. apply Hcat; [lia| |by intros ->].
      intros _. destruct H1 as [_ H1]; [by intros ->|]. unfold len in H1. lia. }
    destruct (Z.eqb_spec c0 34) as [E34|].
    { destruct (rd_line (p + 1)) as (v & -> & _); [unfold len; specialize (Hlt ltac:(lia)); lia|]. cbn [option_bind mbind].
      destruct (negb (v =? 0) && negb (isspace v)); (eexists; split; [reflexivity|]); [done|]. apply Hdone; [done|by left]. }
    destruct (Z.eqb_spec c0 0) as [Ez|Ez]; [eexists; split; [reflexivity|done]|].
    by apply Hcat; [lia|..].
  - destruct (rd_if (c0 =? chr "\"%byte) (p + 1)) as (c1 & -> & H1).
    { intros Hb%Z.eqb_eq. unfold len. specialize (Hlt ltac:(by rewrite Hb)). lia. }
    cbn [option_bind mbind].
    destruct ((c0 =? chr "\"%byte) && (c1 =? 39)) eqn:Hesc.
    { apply andb_true_iff in Hesc as [Hb0 Hb1]. apply Hcat; [lia| |by intros ->].
      intros _. destruct H1 as [_ H1]; [by intros ->|]. unfold len in H1. lia. }
    destruct (Z.eqb_spec c0 39) as [E39|].
    { destruct (rd_line (p + 1)) as (v & -> & _); [unfold len; specialize (Hlt ltac:(lia)); lia|]. cbn [option_bind mbind].
      destruct (negb (v =? 0) && negb (isspace v)); (eexists; split; [reflexivity|]); [done|]. apply Hdone; [done|by right; left]. }
    destruct (Z.eqb_spec c0 0) as [Ez|Ez]; [eexists; split; [reflexivity|done]|].
    by apply Hcat; [lia|..].
  - destruct (_ || _) eqn:Hend.
    { eexists. split; [reflexivity|]. apply Hdone; [done|]. right; right.
      rewrite !orb_true_iff, !Z.eqb_eq in Hend. unfold isspace. lia. }
    rewrite !orb_false_iff, !Z.eqb_neq in Hend. destruct Hend as [_ Hne].
    assert (forall i1 i2, step_ok p c false false c0 (Some (p, i1, i2, false, cur))) as Hflag.
    { intros i1 i2. unfold step_ok, len. specialize (Hlt Hne). split; [lia|]. split; [done|]. split; [|done].
      exists c. split; [done|]. split; [lia|done]. }
    destruct (c0 =? 34); [by eexists|]. destruct (c0 =? 39); [by eexists|].
    by apply Hcat; [lia|..].
Qed.

Lemma split_token_total fuel : forall p inq insq cur c,
  0 <= p <= len -> sds_rep cur c -> Z.of_nat (length c) <= p -> (Z.to_nat (len - p) < fuel)%nat ->
  exists r, split_token junk fuel line p inq insq cur = Some r /\
    match r with
    | None => True
    | Some (p', cur') => p <= p' <= len /\ (exists c', sds_rep cur' c') /\
        (inq = false -> insq = false -> (exists c0, rd line p = Some c0 /\ c0 <> 0 /\ isspace c0 = false) -> p < p')
    end.
Proof.
  induction fuel as [|fuel IH]; intros p inq insq cur c Hp Hc Hcl Hf; [lia|]. cbn [split_token].
  destruct (rd_line p Hp) as (c0 & E0 & _).
  destruct (split_step_total p inq insq cur c c0 Hp Hc Hcl E0) as (r & -> & Hr). cbn [option_bind mbind].
  destruct r as [[[[[p' inq'] insq'] fin] cur']|]; [|by eexists].
  destruct Hr as (Hp' & Hfin & (c' & Hc' & Hl' & _) & Hblank).
  destruct (rd_line p') as (v & -> & Hv); [lia|]. cbn [option_bind mbind].
  assert (forall x, (if negb (v =? 0) then p' + 1 else p') = x -> p' <= x <= len /\ (p' < len -> x = p' + 1)) as Hx.
  { intros x <-. destruct (Z.eqb_spec v 0) as [Ev|Ev]; cbn [negb].
    - apply Hv in Ev. lia.
    - assert (p' <> len) by by intros ->%Hv. lia. }
  set (x := if negb (v =? 0) then p' + 1 else p') in *. destruct (Hx x eq_refl) as [Hx1 Hx2]. destruct fin.
  - eexists. split; [reflexivity|]. split; [lia|]. split; [by exists c'|].
    intros -> -> (c1 & E1 & Hne & Hsp). rewrite E0 in E1. injection E1 as <-.
    destruct (Hblank eq_refl eq_refl eq_refl); congruence.
  - specialize (Hfin eq_refl). specialize (Hx2 Hfin).
    destruct (IH x inq' insq' cur' c') as (r & -> & Hr); [lia|done|lia|lia|]. exists r. split; [done|].
    destruct r as [[p2 cur2]|]; [|done]. destruct Hr as (H1 & H2 & _). split; [lia|]. split; [done|]. intros. lia.
Qed.

Lemma skip_blanks_total fuel : forall p,
  0 <= p <= len -> (Z.to_nat (len - p) < fuel)%nat ->
  exists p', skip_blanks fuel line p = Some p' /\ p <= p' <= len /\
    exists c, rd line p' = Some c /\ (c <> 0 -> isspace c = false).
Proof.
  induction fuel as [|fuel IH]; intros p Hp Hf; [lia|]. cbn [skip_blanks].
  destruct (rd_line p Hp) as (c & E & Hc). rewrite E. cbn [option_bind mbind].
  destruct (Z.eqb_spec c 0) as [Ez|Ez]; cbn [negb andb].
  - exists p. split; [done|]. split; [lia|]. exists c. done.
  - destruct (isspace c) eqn:Hs.
    + assert (p <> len) by by intros ->%Hc. destruct (IH (p + 1)) as (p' & -> & H1 & H2); [lia|lia|].
      exists p'. split; [done|]. split; [lia|done].
    + exists p. split; [done|]. split; [lia|]. by exists c.
Qed.

Lemma args_total fuel : forall p vector,
  0 <= p <= len -> (Z.to_nat (len - p) < fuel)%nat -> Forall (fun s => exists c, sds_rep s c) vector ->
  exists r, sdssplitargs_loop junk fuel line p vector = Some r /\
    match r with None => True | Some v => Forall (fun s => exists c, sds_rep s c) v end.
Proof.
  assert (length line = S (length text)) as Hll by (unfold line; rewrite length_app; cbn; lia).
  induction fuel as [|fuel IH]; intros p vector Hp Hf Hv; [lia|]. cbn [sdssplitargs_loop].
  destruct (skip_blanks_total (length line + 1) p Hp) as (p1 & -> & Hp1 & c & Hc & Hcs); [unfold len in *; lia|].
  cbn [option_bind mbind]. rewrite Hc. cbn [option_bind mbind].
  destruct (Z.eqb_spec c 0) as [Ez|Ez]; cbn [negb]; [by eexists|].
  destruct empty_spec as (cur & -> & Hcur). cbn [option_bind mbind].
  destruct (split_token_total (length line + 1) p1 false false cur []) as (r & -> & Hr);
    [lia|done|cbn; lia|unfold len in *; lia|]. cbn [option_bind mbind].
  destruct r as [[p2 cur2]|]; [|by eexists]. destruct Hr as (H1 & Hcur2 & Hprog).
  assert (p1 < p2) by (apply Hprog; [done|done|]; exists c; auto).
  apply IH; [lia|lia|]. apply Forall_app. split; [done|by constructor].
Qed.
End AnyLine.
End Repr.
