(* ===== verification/SdsSpec.v ===== *)
(** SdsSpec: a dynamic string is refined to its content; the theorems about
    [sds.c]. *)
From S2P Require Import Prelude Util UtilNum Sds SdsProofs SdsMore SdsRepr.
Import (notations) Corelib.Init.Byte.

(** ** Operations on the content *)

Inductive sds_op :=
| SCat (t : list byte) | SCatStr (t : list byte) | SPrintf (t : list byte) | SCpy (t : list byte)
| SRange (start end_ : Z) | STrim (cset : list byte) | SLower | SUpper | SMap (from to : list byte)
| SGrow (n : Z) | SClear | SUpdateLen | SMakeRoom (n : Z) | SRemoveFree | SIncr (n : nat).

Definition run_sds_op (junk : nat -> byte) (s : sdshdr) (o : sds_op) : option sdshdr :=
  match o with
  | SCat t => sdscatlen junk s t
  | SCatStr t => sdscat junk s t
  | SPrintf t => sdscatprintf junk s t
  | SCpy t => sdscpylen junk s t
  | SRange start end_ => sdsrange s start end_
  | STrim cset => sdstrim s cset
  | SLower => sdstolower s
  | SUpper => sdstoupper s
  | SMap from to => sdsmapchars s from to
  | SGrow n => sdsgrowzero junk s n
  | SClear => sdsclear s
  | SUpdateLen => sdsupdatelen s
  | SMakeRoom n => Some (sdsMakeRoomFor junk s n)
  | SRemoveFree => Some (sdsRemoveFreeSpace junk s)
  | SIncr n => sdsIncrLen s (- Z.of_nat n)
  end.

Definition spec_sds_op (c : list byte) (o : sds_op) : list byte :=
  match o with
  | SCat t | SPrintf t => c ++ t
  | SCatStr t => c ++ cstr t
  | SCpy t => t
  | SRange start end_ => range_spec c start end_
  | STrim cset => trim_spec c cset
  | SLower => (fun b => z2b (tolower (char_val b))) <$> c
  | SUpper => (fun b => z2b (toupper (char_val b))) <$> c
  | SMap from to => (fun b => z2b (map_set from to (char_val b))) <$> c
  | SGrow n => c ++ replicate (Z.to_nat n - length c) (z2b 0)
  | SClear => []
  | SUpdateLen => cstr c
  | SMakeRoom _ | SRemoveFree => c
  | SIncr n => take (length c - n) c
  end.

(** The sizes the 32-bit header can hold. *)
Definition sds_op_ok (c : list byte) (o : sds_op) : Prop :=
  match o with
  | SCat t | SCatStr t => Z.of_nat (length c) + Z.of_nat (length t) < sds_limit
  | SPrintf t => no_nul t /\ Z.of_nat (length c) + Z.of_nat (length t) < sds_limit
  | SCpy t => Z.of_nat (length t) < sds_limit
  | SRange start end_ => - 2 ^ 31 < start < 2 ^ 31 /\ - 2 ^ 31 < end_ < 2 ^ 31 - 1
  | SGrow n => 0 <= n < sds_limit
  | SMakeRoom n => 0 <= n /\ Z.of_nat (length c) + n < sds_limit
  | SIncr n => (n <= length c)%nat
  | _ => True
  end.

Fixpoint run_sds (junk : nat -> byte) (s : sdshdr) (os : list sds_op) : option sdshdr :=
  match os with
  | [] => Some s
  | o :: os => s ← run_sds_op junk s o; run_sds junk s os
  end.

Fixpoint sds_ops_ok (c : list byte) (os : list sds_op) : Prop :=
  match os with
  | [] => True
  | o :: os => sds_op_ok c o /\ sds_ops_ok (spec_sds_op c o) os
  end.

Lemma length_cstr t : (length (cstr t) <= length t)%nat.
Proof. destruct (cstr_take t) as (r & E & _). rewrite E at 2. rewrite length_app. lia. Qed.

Lemma run_sds_op_refines junk s c o :
  sds_rep s c -> sds_op_ok c o ->
  exists s', run_sds_op junk s o = Some s' /\ sds_rep s' (spec_sds_op c o).
Proof.
  intros H Ho. destruct o; cbn -[sds_limit] in *.
  - by apply catlen_spec.
  - apply catlen_spec; [done|]. pose proof (length_cstr t). lia.
  - destruct Ho. by apply catprintf_spec.
  - by eapply cpylen_spec.
  - destruct Ho. by apply range_sds.
  - by apply trim_sds.
  - by apply map_chars_spec.
  - by apply map_chars_spec.
  - by apply map_chars_spec.
  - by apply growzero_spec.
  - by apply (clear_spec _ c).
  - by apply updatelen_spec.
  - destruct Ho as [H0 H1]. eexists. split; [done|]. by apply makeRoom_spec.
  - eexists. split; [done|]. by apply removeFree_spec.
  - by apply incrLen_trim.
Qed.

Lemma run_sds_refines junk os : forall s c,
  sds_rep s c -> sds_ops_ok c os ->
  exists s', run_sds junk s os = Some s' /\ sds_rep s' (fold_left spec_sds_op os c).
Proof.
  induction os as [|o os IH]; intros s c H Hos; [by exists s|]. destruct Hos as [Ho Hos].
  destruct (run_sds_op_refines junk s c o H Ho) as (s1 & E1 & H1). cbn [run_sds fold_left]. rewrite E1.
  cbn [option_bind mbind]. by apply IH.
Qed.

(** ** Theorems *)

(** C12: starting from a string created from any bytes, every sequence of
    appends, formatted appends, copies, ranges with negative indexes, trims,
    case conversions, character maps, growths, truncations and reallocations
    stays inside its buffer, never trips an assertion, and leaves exactly the
    content of the same sequence on byte lists, NUL terminated, with the
    header telling the length, the free space and the allocation size. *)
Theorem sds_refines_string junk t os :
  Z.of_nat (length t) < sds_limit -> sds_ops_ok t os ->
  exists s0 s, sdsnewlen junk (Some t) (Z.of_nat (length t)) = Some s0 /\ run_sds junk s0 os = Some s /\
    let c := fold_left spec_sds_op os t in
    sdslen s = Z.of_nat (length c) /\ mem_read (sh_buf s) 0 (sdslen s) = Some c /\
    rd (sh_buf s) (sdslen s) = Some 0 /\
    sdsAllocSize s = sizeof_sdshdr + Z.of_nat (length (sh_buf s)) /\
    Z.of_nat (length (sh_buf s)) = sdslen s + sdsavail s + 1.
Proof.
  intros Ht Hos. destruct (newlen_spec junk t [] Ht) as (s0 & E0 & H0 & _). rewrite app_nil_r in E0.
  destruct (run_sds_refines junk os s0 t H0 Hos) as (s & E & H). exists s0, s. split; [done|]. split; [done|].
  cbv zeta. set (c := fold_left _ _ _) in *. pose proof (rep_len_eq _ _ H) as Hl. split; [done|].
  split; [by apply rep_read|]. rewrite (allocSize_spec _ _ H), (rep_avail_eq _ _ H), Hl.
  destruct H as [Hlen Hf Htot (g & -> & Hg)]. split; [by rewrite rd_mid|]. split; [done|].
  rewrite length_app. cbn [length]. lia.
Qed.

Definition sample_sds_ops : list sds_op :=
  [SCat ["x"; "y"]; SRange 1 (-2); SUpper; SPrintf ["!"]; STrim ["!"; "000"]; SGrow 5; SUpdateLen;
   SMakeRoom 100; SCpy ["A"; "b"; "c"]; SMap ["c"] ["d"]; SIncr 1; SRemoveFree]%byte.

Lemma sds_refines_string_witness :
  exists s0 s, sdsnewlen (fun _ => z2b 9) (Some ["a"; "b"]%byte) 2 = Some s0 /\
    run_sds (fun _ => z2b 9) s0 sample_sds_ops = Some s /\
    let c := fold_left spec_sds_op sample_sds_ops ["a"; "b"]%byte in
    sdslen s = Z.of_nat (length c) /\ mem_read (sh_buf s) 0 (sdslen s) = Some c /\
    rd (sh_buf s) (sdslen s) = Some 0 /\
    sdsAllocSize s = sizeof_sdshdr + Z.of_nat (length (sh_buf s)) /\
    Z.of_nat (length (sh_buf s)) = sdslen s + sdsavail s + 1.
Proof.
  apply (sds_refines_string (fun _ => z2b 9) ["a"; "b"]%byte sample_sds_ops); [reflexivity|].
  repeat first [split | reflexivity | discriminate | (vm_compute; lia) | constructor].
Defined.

(** C39: every line is parsed without reading past its terminator and in a
    bounded number of steps; the arguments are quoted by [sdscatrepr] and
    split by [sdssplitargs] without loss: joining the quoted forms of any
    byte strings with spaces and splitting the line gives them back. *)
Theorem sdssplitargs_sdscatrepr junk args text :
  Forall (fun a => 8 * Z.of_nat (length a) < sds_limit) args ->
  no_nul text -> Z.of_nat (length text) + 2 < sds_limit ->
  (exists qs, Forall2 (fun a q => exists e s, sdsempty junk = Some e /\ sdscatrepr junk e a = Some s /\ sds_rep s q) args qs /\
     exists v, sdssplitargs junk (join [z2b 32] qs ++ [z2b 0]) = Some (Some v) /\ Forall2 sds_rep v args) /\
  (exists r, sdssplitargs junk (text ++ [z2b 0]) = Some r).
Proof.
  intros Hargs Htext Hlim. split.
  - exists (quoted <$> args). split.
    + destruct (empty_spec junk) as (e & Ee & He). induction Hargs as [|a args Ha _ IH]; constructor; [|done].
      unfold sds_limit in Ha. destruct (catrepr_spec junk a e [] He) as (s & Es & Hs).
      { unfold sds_limit. cbn [length]. lia. }
      by exists e, s.
    + assert (join [z2b 32] (quoted <$> args) = match args with [] => [] | a :: args => quoted a ++ concat (cons (z2b 32) <$> (quoted <$> args)) end) as ->.
      { destruct args as [|a args]; [done|]. clear. cbn [fmap list_fmap]. revert a.
        induction args as [|a' args IH]; intros a; [cbn; by rewrite app_nil_r|].
        cbn [fmap list_fmap concat]. change (join [z2b 32] (quoted a :: quoted a' :: (quoted <$> args)))
          with (quoted a ++ [z2b 32] ++ join [z2b 32] (quoted a' :: (quoted <$> args))).
        by rewrite IH. }
      unfold sdssplitargs. set (line := _ ++ [z2b 0]).
      destruct (args_loop junk args (length line + 1) [] [] [] []) as (v & Ev & Hv); [by left|done| |constructor|done|].
      { unfold line. rewrite length_app. clear. destruct args as [|a args]; cbn; [lia|]. rewrite length_app.
        assert (length args <= length (concat (cons (z2b 32) <$> (quoted <$> args))))%nat; [|lia].
        induction args as [|a' args IH]; [cbn; lia|]. cbn [fmap list_fmap concat length]. rewrite length_app. cbn [length]. lia. }
      exists v. split; [|done]. exact Ev.
  - destruct (args_total junk text Htext Hlim (length (text ++ [z2b 0]) + 1) 0 []) as (r & E & _);
      [lia|rewrite length_app; cbn; lia|constructor|]. by exists r.
Qed.

Lemma sdssplitargs_sdscatrepr_witness :
  (exists qs, Forall2 (fun a q => exists e s, sdsempty (fun _ => z2b 9) = Some e /\
       sdscatrepr (fun _ => z2b 9) e a = Some s /\ sds_rep s q) [["a"; "034"; "000"]; []; [" "; "255"]]%byte qs /\
     exists v, sdssplitargs (fun _ => z2b 9) (join [z2b 32] qs ++ [z2b 0]) = Some (Some v) /\
       Forall2 sds_rep v [["a"; "034"; "000"]; []; [" "; "255"]]%byte) /\
  (exists r, sdssplitargs (fun _ => z2b 9) (["f"; "034"; "x"]%byte ++ [z2b 0]) = Some r).
Proof.
  apply sdssplitargs_sdscatrepr; [repeat constructor|repeat constructor; discriminate|reflexivity].
Defined.

(** Splitting a string by a non-empty separator stays in bounds (the
    token array included), and the tokens joined by the separator are the
    string, contain no separator, and are none only for the empty string. *)
Theorem sdssplitlen_join junk s sep :
  (0 < length sep)%nat -> Z.of_nat (length s) < sds_limit ->
  exists toks ts, sdssplitlen junk s (Z.of_nat (length s)) sep = Some (Some toks) /\
    Forall2 sds_rep toks ts /\ join sep ts = s /\ Forall (free_of sep) ts /\ (ts = [] <-> s = []).
Proof.
  intros Hsep Hlim. destruct (splitlen_spec junk sep s Hsep Hlim) as (toks & E & H).
  exists toks. eexists. split; [done|]. split; [exact H|]. case_decide as Hs; [by subst|].
  destruct (split_ref_join (S (length s)) sep [] s Hsep) as [Hne Hj]; [lia|].
  split; [done|]. split; [|by split].
  apply split_ref_free; [done|lia|]. intros i Hi. cbn in Hi. lia.
Qed.

Lemma sdssplitlen_join_witness :
  exists toks ts, sdssplitlen (fun _ => z2b 9) ["a"; "_"; "_"; "_"; "b"; "_"; "_"]%byte 7 ["_"; "_"]%byte = Some (Some toks) /\
    Forall2 sds_rep toks ts /\ join ["_"; "_"]%byte ts = ["a"; "_"; "_"; "_"; "b"; "_"; "_"]%byte /\
    Forall (free_of ["_"; "_"]%byte) ts /\ (ts = [] <-> ["a"; "_"; "_"; "_"; "b"; "_"; "_"]%byte = []).
Proof.
  apply (sdssplitlen_join (fun _ => z2b 9) ["a"; "_"; "_"; "_"; "b"; "_"; "_"]%byte); [repeat constructor|reflexivity].
Defined.

(** [sdscmp] is the lexicographic order on unsigned bytes, and zero only
    for equal contents. *)
Theorem sdscmp_lex s1 s2 c1 c2 :
  sds_rep s1 c1 -> sds_rep s2 c2 ->
  exists r, sdscmp s1 s2 = Some r /\ (r ?= 0) = lex c1 c2 /\ (r = 0 <-> c1 = c2).
Proof.
  intros H1 H2. destruct (cmp_sds s1 s2 c1 c2 H1 H2) as (r & E & Hr). exists r. split; [done|]. split; [done|].
  rewrite <-Z.compare_eq_iff, Hr. clear. revert c2.
  induction c1 as [|b1 c1 IH]; intros [|b2 c2]; cbn [lex]; try done.
  destruct (Z.compare_spec (b2z b1) (b2z b2)) as [E|E|E].
  - apply b2z_inj in E as ->. rewrite IH. split; [by intros ->|by intros [=]].
  - split; [done|]. intros [= -> _]. lia.
  - split; [done|]. intros [= -> _]. lia.
Qed.

Lemma sdscmp_lex_witness :
  exists r, sdscmp (Sdshdr 2 0 ["a"; "200"; "000"]%byte) (Sdshdr 1 1 ["a"; "000"; "x"]%byte) = Some r /\
    (r ?= 0) = lex ["a"; "200"]%byte ["a"]%byte /\ (r = 0 <-> ["a"; "200"]%byte = ["a"]%byte).
Proof.
  apply sdscmp_lex.
  - apply (rep_mk ["a"; "200"]%byte []); reflexivity.
  - apply (rep_mk ["a"]%byte ["x"]%byte); reflexivity.
Defined.
