(* ===== verification/Adlist.v ===== *)
(** Adlist: the generic doubly linked list of [adlist.c], on an explicit heap
    of nodes. *)
From S2P Require Import Prelude.

(** A pointer to a node; [None] is the null pointer. *)
Abbreviation ptr := positive.

Definition AL_START_HEAD : Z := 0.
Definition AL_START_TAIL : Z := 1.

Section Adlist.
(** [V] is the type of the [void *] values a list holds, [K] of the keys
    [listSearchKey] is given. *)
Context {V : Type}.

Record listNode := ListNode { prev : option ptr; next : option ptr; value : V }.

(** The heap, and the values the [free] method was called on, last first. *)
Record heap := Heap { nodes : gmap ptr listNode; freed : list V }.

Record list_ := List {
  head : option ptr;
  tail : option ptr;
  dup : option (V -> option V);
  free : option (V -> unit);
  match_ : option (V -> V -> bool);
  len : Z }.

Record listIter := ListIter { it_next : option ptr; direction : Z }.

Implicit Types (h : heap) (l : list_) (node : ptr).

(** Memory accesses: the pointer must be to an allocated node. *)
Definition load h (p : option ptr) : option listNode := p ← p; nodes h !! p.
Definition set_prev h (p : option ptr) (x : option ptr) : option heap :=
  p ← p; n ← nodes h !! p; Some (Heap (<[p := ListNode x (next n) (value n)]> (nodes h)) (freed h)).
Definition set_next h (p : option ptr) (x : option ptr) : option heap :=
  p ← p; n ← nodes h !! p; Some (Heap (<[p := ListNode (prev n) x (value n)]> (nodes h)) (freed h)).
Definition zmalloc_node h (n : listNode) : ptr * heap :=
  let p := fresh (dom (nodes h)) in (p, Heap (<[p := n]> (nodes h)) (freed h)).
Definition zfree_node h (p : ptr) : option heap :=
  n ← nodes h !! p; Some (Heap (delete p (nodes h)) (freed h)).
(** [if (list->free) list->free(value)] *)
Definition call_free l h (v : V) : heap :=
  match free l with Some _ => Heap (nodes h) (v :: freed h) | None => h end.

Definition set_head l (x : option ptr) : list_ := List x (tail l) (dup l) (free l) (match_ l) (len l).
Definition set_tail l (x : option ptr) : list_ := List (head l) x (dup l) (free l) (match_ l) (len l).
Definition set_len l (x : Z) : list_ := List (head l) (tail l) (dup l) (free l) (match_ l) x.

Definition listLength l : Z := len l.

Definition listCreate : list_ := List None None None None None 0.

Fixpoint release_loop (n : nat) l h (current : option ptr) : option heap :=
  match n with
  | O => Some h
  | S n =>
    c ← load h current;
    let h := call_free l h (value c) in
    p ← current;
    h ← zfree_node h p;
    release_loop n l h (next c)
  end.

Definition listRelease l h : option heap := release_loop (Z.to_nat (len l)) l h (head l).

Definition listAddNodeHead l h (v : V) : option (list_ * heap) :=
  if len l =? 0 then
    let '(node, h) := zmalloc_node h (ListNode None None v) in
    Some (set_len (set_tail (set_head l (Some node)) (Some node)) (u64 (len l + 1)), h)
  else
    let '(node, h) := zmalloc_node h (ListNode None (head l) v) in
    h ← set_prev h (head l) (Some node);
    Some (set_len (set_head l (Some node)) (u64 (len l + 1)), h).

Definition listAddNodeTail l h (v : V) : option (list_ * heap) :=
  if len l =? 0 then
    let '(node, h) := zmalloc_node h (ListNode None None v) in
    Some (set_len (set_tail (set_head l (Some node)) (Some node)) (u64 (len l + 1)), h)
  else
    let '(node, h) := zmalloc_node h (ListNode (tail l) None v) in
    h ← set_next h (tail l) (Some node);
    Some (set_len (set_tail l (Some node)) (u64 (len l + 1)), h).

Definition listInsertNode l h (old_node : ptr) (v : V) (after : bool) : option (list_ * heap) :=
  old ← load h (Some old_node);
  let '(node, h) :=
    zmalloc_node h (if after then ListNode (Some old_node) (next old) v
                    else ListNode (prev old) (Some old_node) v) in
  let l := if after then
             if decide (tail l = Some old_node) then set_tail l (Some node) else l
           else
             if decide (head l = Some old_node) then set_head l (Some node) else l in
  n ← load h (Some node);
  h ← (match prev n with Some _ => set_next h (prev n) (Some node) | None => Some h end);
  n ← load h (Some node);
  h ← (match next n with Some _ => set_prev h (next n) (Some node) | None => Some h end);
  Some (set_len l (u64 (len l + 1)), h).

Definition listDelNode l h (node : ptr) : option (list_ * heap) :=
  n ← load h (Some node);
  '(l, h) ← (match prev n with
             | Some _ => h ← set_next h (prev n) (next n); Some (l, h)
             | None => Some (set_head l (next n), h)
             end);
  n ← load h (Some node);
  '(l, h) ← (match next n with
             | Some _ => h ← set_prev h (next n) (prev n); Some (l, h)
             | None => Some (set_tail l (prev n), h)
             end);
  n ← load h (Some node);
  let h := call_free l h (value n) in
  h ← zfree_node h node;
  Some (set_len l (u64 (len l - 1)), h).

Definition listGetIterator l (dir : Z) : listIter :=
  ListIter (if dir =? AL_START_HEAD then head l else tail l) dir.

Definition listRewind l : listIter := ListIter (head l) AL_START_HEAD.
Definition listRewindTail l : listIter := ListIter (tail l) AL_START_TAIL.

(** Result: the node returned and the iterator. *)
Definition listNext h (iter : listIter) : option (option ptr * listIter) :=
  match it_next iter with
  | None => Some (None, iter)
  | Some current =>
    n ← load h (Some current);
    Some (Some current,
          ListIter (if direction iter =? AL_START_HEAD then next n else prev n) (direction iter))
  end.

(** [Some (None, h)] is the null pointer returned when [dup] fails. *)
Fixpoint dup_loop (fuel : nat) h (copy : list_) (iter : listIter) : option (option list_ * heap) :=
  match fuel with
  | O => None
  | S fuel =>
    '(node, iter) ← listNext h iter;
    match node with
    | None => Some (Some copy, h)
    | Some _ =>
      n ← load h node;
      let v := match dup copy with Some f => f (value n) | None => Some (value n) end in
      match v with
      | None => h ← listRelease copy h; Some (None, h)
      | Some v => '(copy, h) ← listAddNodeTail copy h v; dup_loop fuel h copy iter
      end
    end
  end.

Definition listDup (orig : list_) h : option (option list_ * heap) :=
  let copy := List None None (dup orig) (free orig) (match_ orig) 0 in
  dup_loop (Z.to_nat (len orig) + 1) h copy (listGetIterator orig AL_START_HEAD).

(** [same] compares the pointers when there is no [match] method. *)
Fixpoint search_loop (same : V -> V -> bool) (fuel : nat) l h (key : V) (iter : listIter)
    : option (option ptr) :=
  match fuel with
  | O => None
  | S fuel =>
    '(node, iter) ← listNext h iter;
    match node with
    | None => Some None
    | Some _ =>
      n ← load h node;
      let found := match match_ l with Some m => m (value n) key | None => same key (value n) end in
      if found then Some node else search_loop same fuel l h key iter
    end
  end.

Definition listSearchKey (same : V -> V -> bool) l h (key : V) : option (option ptr) :=
  search_loop same (Z.to_nat (len l) + 1) l h key (listGetIterator l AL_START_HEAD).

(** [while(index-- && n) n = n->next] *)
Fixpoint index_loop (index : nat) h (forward : bool) (n : option ptr) : option (option ptr) :=
  match index, n with
  | O, _ | _, None => Some n
  | S index, Some _ =>
    nd ← load h n; index_loop index h forward (if forward then next nd else prev nd)
  end.

Definition listIndex l h (index : Z) : option (option ptr) :=
  if index <? 0 then
    i ← chk64 (- index);
    index_loop (Z.to_nat (i - 1)) h false (tail l)
  else index_loop (Z.to_nat index) h true (head l).

Definition listRotate l h : option (list_ * heap) :=
  let tl := tail l in
  if listLength l <=? 1 then Some (l, h)
  else
    t ← load h tl;
    let l := set_tail l (prev t) in
    h ← set_next h (tail l) None;
    h ← set_prev h (head l) tl;
    h ← set_prev h tl None;
    h ← set_next h tl (head l);
    Some (set_head l tl, h).
End Adlist.

Arguments listNode : clear implicits.
Arguments heap : clear implicits.
Arguments list_ : clear implicits.
