(* ===== verification/AdlistProofs.v ===== *)
(** AdlistProofs: a doubly linked list on the heap represents a sequence of
    nodes; every operation keeps the links of the sequence it promises. *)
From S2P Require Import Prelude Adlist.

(** ** Sequences with an element inserted *)

Definition ins {A} (k : nat) (x : A) (l : list A) : list A := take k l ++ x :: drop k l.

Lemma ins_lt {A} k (x : A) l i : (i < k <= length l)%nat -> ins k x l !! i = l !! i.
Proof. intros Hi. unfold ins. rewrite lookup_app_l by (rewrite length_take; lia). apply lookup_take_lt. lia. Qed.
Lemma ins_eq {A} k (x : A) l : (k <= length l)%nat -> ins k x l !! k = Some x.
Proof. intros Hk. unfold ins. rewrite list_lookup_middle; [done|]. rewrite length_take. lia. Qed.
Lemma ins_gt {A} k (x : A) l i : (k <= i)%nat -> (k <= length l)%nat -> ins k x l !! S i = l !! i.
Proof.
  intros Hi Hk. unfold ins. rewrite lookup_app_r by (rewrite length_take; lia). rewrite length_take.
  replace (S i - Nat.min k (length l))%nat with (S (i - k)) by lia. cbn [lookup list_lookup].
  change (drop k l !! (i - k)%nat = l !! i). rewrite lookup_drop. f_equal. lia.
Qed.
Lemma length_ins {A} k (x : A) l : (k <= length l)%nat -> length (ins k x l) = S (length l).
Proof. intros Hk. unfold ins. rewrite length_app, length_take. cbn [length]. rewrite length_drop. lia. Qed.
Lemma ins_perm {A} k (x : A) l : ins k x l ≡ₚ x :: l.
Proof. unfold ins. by rewrite <-Permutation_middle, take_drop. Qed.

Definition pred (ps : list ptr) (i : nat) : option ptr :=
  match i with O => None | S j => ps !! j end.

Section Proofs.
Context {V : Type}.
Implicit Types (h : heap V) (l : list_ V) (ps : list ptr) (vs : list V) (m : gmap ptr (listNode V)).

(** Each node of the sequence points to its neighbours. *)
Definition rep_nodes m ps vs : Prop :=
  length ps = length vs /\
  forall i p v, ps !! i = Some p -> vs !! i = Some v -> m !! p = Some (ListNode (pred ps i) (ps !! S i) v).

Record list_rep l h ps vs : Prop := ListRep {
  lr_nodup : NoDup ps;
  lr_head : head l = ps !! 0%nat;
  lr_tail : tail l = pred ps (length ps);
  lr_len : len l = Z.of_nat (length ps);
  lr_bound : len l < 2 ^ 64 - 1;
  lr_nodes : rep_nodes (nodes h) ps vs }.

(** Only the memory at [ps] changes. *)
Definition frame h h' ps : Prop := forall q, q ∉ ps -> nodes h' !! q = nodes h !! q.

Lemma rep_lookup m ps vs i p :
  rep_nodes m ps vs -> ps !! i = Some p -> exists v, vs !! i = Some v /\ m !! p = Some (ListNode (pred ps i) (ps !! S i) v).
Proof.
  intros [Hl Hm] Hp. destruct (lookup_lt_is_Some_2 vs i) as [v Hv]; [rewrite <-Hl; by eapply lookup_lt_Some|].
  exists v. split; [done|]. by apply Hm.
Qed.

Lemma nodup_ne ps i j p q : NoDup ps -> ps !! i = Some p -> ps !! j = Some q -> i <> j -> p <> q.
Proof. intros Hn Hi Hj Hij ->. by pose proof (NoDup_lookup _ _ _ _ Hn Hi Hj). Qed.

Lemma pred_some ps k p : pred ps k = Some p -> exists j, k = S j /\ ps !! j = Some p.
Proof. destruct k as [|j]; [done|]. by exists j. Qed.

(** *** Pure link surgery *)

Lemma ins_rep m m' ps vs k n v :
  rep_nodes m ps vs -> (k <= length ps)%nat ->
  m' !! n = Some (ListNode (pred ps k) (ps !! k) v) ->
  (forall i p x, ps !! i = Some p -> m !! p = Some x ->
     m' !! p = Some (ListNode (if decide (i = k) then Some n else prev x)
                              (if decide (S i = k) then Some n else next x) (value x))) ->
  rep_nodes m' (ins k n ps) (ins k v vs).
Proof.
  intros Hrep Hk Hn Hm. pose proof Hrep as [Hl Hlook]. split; [rewrite !length_ins by lia; lia|].
  intros i p w Hp Hw. destruct (lt_eq_lt_dec i k) as [[Hlt|Heq]|Hgt].
  - rewrite ins_lt in Hp by lia. rewrite ins_lt in Hw by lia. rewrite (Hm i p _ Hp (Hlook i p w Hp Hw)). cbn [prev next value].
    rewrite decide_False by lia. do 2 f_equal.
    + destruct i as [|j]; [done|]. cbn [pred]. by rewrite ins_lt by lia.
    + case_decide as Hik; [by rewrite <-Hik in *; rewrite ins_eq by lia|]. by rewrite ins_lt by lia.
  - subst i. rewrite ins_eq in Hp by lia. rewrite ins_eq in Hw by lia. injection Hp as <-. injection Hw as <-. rewrite Hn. do 2 f_equal.
    + destruct k as [|j]; [done|]. cbn [pred]. by rewrite ins_lt by lia.
    + by rewrite ins_gt by lia.
  - destruct i as [|i]; [lia|]. rewrite ins_gt in Hp by lia. rewrite ins_gt in Hw by lia.
    rewrite (Hm i p _ Hp (Hlook i p w Hp Hw)). cbn [prev next value].
    rewrite (decide_False (P := S i = k)) by lia. do 2 f_equal.
    + cbn [pred]. case_decide as Hik; [subst; by rewrite ins_eq by lia|].
      destruct i as [|j]; [lia|]. cbn [pred]. by rewrite ins_gt by lia.
    + by rewrite ins_gt by lia.
Qed.

Lemma del_rep m m' ps vs k :
  rep_nodes m ps vs -> (k < length ps)%nat ->
  (forall i p x, i <> k -> ps !! i = Some p -> m !! p = Some x ->
     m' !! p = Some (ListNode (if decide (i = S k) then pred ps k else prev x)
                              (if decide (S i = k) then ps !! S k else next x) (value x))) ->
  rep_nodes m' (delete k ps) (delete k vs).
Proof.
  intros [Hl Hlook] Hk Hm.
  assert (is_Some (ps !! k)) as Hpk by by apply lookup_lt_is_Some_2.
  assert (is_Some (vs !! k)) as Hvk by (apply lookup_lt_is_Some_2; lia).
  split; [rewrite !length_delete by done; lia|].
  intros i p w Hp Hw. destruct (decide (i < k)%nat) as [Hlt|Hge].
  - rewrite list_lookup_delete_lt in Hp by done. rewrite list_lookup_delete_lt in Hw by done.
    rewrite (Hm i p _ ltac:(lia) Hp (Hlook i p w Hp Hw)). cbn [prev next value].
    rewrite decide_False by lia. do 2 f_equal.
    + destruct i as [|j]; [done|]. cbn [pred]. by rewrite list_lookup_delete_lt by lia.
    + case_decide as Hik.
      * subst k. by rewrite list_lookup_delete_ge by lia.
      * by rewrite list_lookup_delete_lt by lia.
  - rewrite list_lookup_delete_ge in Hp by lia. rewrite list_lookup_delete_ge in Hw by lia.
    rewrite (Hm (S i) p _ ltac:(lia) Hp (Hlook (S i) p w Hp Hw)). cbn [prev next value].
    rewrite (decide_False (P := S (S i) = k)) by lia. do 2 f_equal.
    + case_decide as Hik.
      * injection Hik as ->. destruct k as [|j]; [done|]. cbn [pred]. by rewrite list_lookup_delete_lt by lia.
      * destruct i as [|j]; [lia|]. cbn [pred]. by rewrite list_lookup_delete_ge by lia.
    + by rewrite list_lookup_delete_ge by lia.
Qed.

(** *** The steps of the operations *)

Lemma set_next_ok h p x n :
  nodes h !! p = Some n ->
  set_next h (Some p) x = Some (Heap (<[p := ListNode (prev n) x (value n)]> (nodes h)) (freed h)).
Proof. intros Hn. unfold set_next. cbn [option_bind mbind]. by rewrite Hn. Qed.
Lemma set_prev_ok h p x n :
  nodes h !! p = Some n ->
  set_prev h (Some p) x = Some (Heap (<[p := ListNode x (next n) (value n)]> (nodes h)) (freed h)).
Proof. intros Hn. unfold set_prev. cbn [option_bind mbind]. by rewrite Hn. Qed.

Lemma fresh_none h : nodes h !! fresh (dom (nodes h)) = None.
Proof. apply not_elem_of_dom, is_fresh. Qed.

Lemma fresh_not_in h ps vs :
  rep_nodes (nodes h) ps vs -> fresh (dom (nodes h)) ∉ ps.
Proof.
  intros Hrep Hin. apply list_elem_of_lookup in Hin as [i Hi].
  destruct (rep_lookup _ _ _ _ _ Hrep Hi) as (v & _ & Hm).
  apply (is_fresh (dom (nodes h))). by apply elem_of_dom_2 in Hm.
Qed.

(** Allocating a node and linking it in at position [k]. *)
Lemma link_spec h ps vs k v :
  rep_nodes (nodes h) ps vs -> NoDup ps -> (k <= length ps)%nat ->
  let n := fresh (dom (nodes h)) in
  let nd := ListNode (pred ps k) (ps !! k) v in
  let h1 := Heap (<[n := nd]> (nodes h)) (freed h) in
  exists h2 h3,
    (match pred ps k with Some _ => set_next h1 (pred ps k) (Some n) | None => Some h1 end) = Some h2 /\
    (match ps !! k with Some _ => set_prev h2 (ps !! k) (Some n) | None => Some h2 end) = Some h3 /\
    nodes h1 !! n = Some nd /\ nodes h2 !! n = Some nd /\
    rep_nodes (nodes h3) (ins k n ps) (ins k v vs) /\ frame h h3 (n :: ps) /\ freed h3 = freed h.
Proof.
  intros Hrep Hnd Hk n nd h1. pose proof (fresh_not_in h ps vs Hrep) as Hn. fold n in Hn.
  assert (forall i p, ps !! i = Some p -> p <> n) as Hne.
  { intros i p Hp ->. apply Hn. by eapply list_elem_of_lookup_2. }
  assert (nodes h !! n = None) as Hfresh by (apply not_elem_of_dom, is_fresh).
  assert (exists h2, (match pred ps k with Some _ => set_next h1 (pred ps k) (Some n) | None => Some h1 end) = Some h2 /\
    nodes h2 !! n = Some nd /\ freed h2 = freed h /\ frame h h2 (n :: ps) /\
    forall i p x, ps !! i = Some p -> nodes h !! p = Some x ->
      nodes h2 !! p = Some (ListNode (prev x) (if decide (S i = k) then Some n else next x) (value x)))
    as (h2 & E2 & Hn2 & Hf2 & Hfr2 & H2).
  { unfold h1. destruct (pred ps k) as [p|] eqn:Hpk.
    - apply pred_some in Hpk as (j & -> & Hj). destruct (rep_lookup _ _ _ _ _ Hrep Hj) as (w & _ & Hm).
      pose proof (Hne _ _ Hj) as Hpn.
      erewrite set_next_ok by (cbn; rewrite lookup_insert_ne by done; exact Hm).
      eexists. split; [reflexivity|]. cbn [nodes freed prev next value]. split_and!.
      + by rewrite lookup_insert_ne, lookup_insert_eq.
      + done.
      + intros q [Hqn Hq]%not_elem_of_cons. cbn. rewrite !lookup_insert_ne; [done|done|].
        intros <-. apply Hq. by eapply list_elem_of_lookup_2.
      + intros i q x Hq Hx. case_decide as Hi.
        * injection Hi as ->. rewrite Hj in Hq. injection Hq as <-. rewrite Hm in Hx. injection Hx as <-.
          by rewrite lookup_insert_eq.
        * rewrite !lookup_insert_ne; [by destruct x| |].
          -- intros <-. by eapply Hne.
          -- eapply nodup_ne; [done|exact Hj|exact Hq|lia].
    - eexists. split; [reflexivity|]. cbn. split_and!.
      + by rewrite lookup_insert_eq.
      + done.
      + intros q [Hqn Hq]%not_elem_of_cons. cbn. by rewrite lookup_insert_ne.
      + intros i q x Hq Hx. rewrite decide_False.
        2:{ intros <-. cbn in Hpk. congruence. }
        rewrite lookup_insert_ne by (intros <-; by eapply Hne). by destruct x. }
  assert (exists h3, (match ps !! k with Some _ => set_prev h2 (ps !! k) (Some n) | None => Some h2 end) = Some h3 /\
    nodes h3 !! n = Some nd /\ freed h3 = freed h /\ frame h h3 (n :: ps) /\
    forall i p x, ps !! i = Some p -> nodes h !! p = Some x ->
      nodes h3 !! p = Some (ListNode (if decide (i = k) then Some n else prev x)
                                     (if decide (S i = k) then Some n else next x) (value x)))
    as (h3 & E3 & Hn3 & Hf3 & Hfr3 & H3).
  { destruct (ps !! k) as [p|] eqn:Hpk.
    - destruct (rep_lookup _ _ _ _ _ Hrep Hpk) as (w & _ & Hm). pose proof (Hne _ _ Hpk) as Hpn.
      erewrite set_prev_ok by (exact (H2 _ _ _ Hpk Hm)).
      eexists. split; [reflexivity|]. cbn [nodes freed prev next value]. split_and!.
      + by rewrite lookup_insert_ne.
      + done.
      + intros q Hq. cbn. rewrite lookup_insert_ne; [by apply Hfr2|].
        intros <-. apply Hq. right. by eapply list_elem_of_lookup_2.
      + intros i q x Hq Hx. destruct (decide (i = k)) as [Hi|Hi].
        * subst i. rewrite Hpk in Hq. injection Hq as <-. rewrite Hm in Hx. injection Hx as <-.
          by rewrite lookup_insert_eq.
        * rewrite lookup_insert_ne by (eapply nodup_ne; [done|exact Hpk|exact Hq|lia]). by apply H2.
    - exists h2. split; [done|]. split_and!; try done. intros i q x Hq Hx.
      rewrite decide_False by (intros ->; congruence). by apply H2. }
  exists h2, h3. split; [done|]. split; [done|]. split; [by apply lookup_insert_eq|]. split; [done|].
  split; [|done]. by eapply ins_rep.
Qed.

Lemma pred_ins_end ps k n :
  (k <= length ps)%nat ->
  pred (ins k n ps) (S (length ps)) = if decide (k = length ps) then Some n else pred ps (length ps).
Proof.
  intros Hk. cbn [pred]. case_decide as E; [subst; by rewrite ins_eq|].
  destruct (length ps) as [|j] eqn:Hl; [lia|]. cbn [pred]. by rewrite ins_gt by lia.
Qed.

(** The header after a node was linked in at [k]. *)
Lemma link_rep l h h3 ps vs k v n l' :
  list_rep l h ps vs -> (k <= length ps)%nat -> n ∉ ps -> len l + 1 < 2 ^ 64 - 1 ->
  rep_nodes (nodes h3) (ins k n ps) (ins k v vs) ->
  head l' = (if decide (k = 0%nat) then Some n else head l) ->
  tail l' = (if decide (k = length ps) then Some n else tail l) ->
  len l' = u64 (len l + 1) ->
  list_rep l' h3 (ins k n ps) (ins k v vs).
Proof.
  intros [Hnd Hh Ht Hlen Hb _] Hk Hn Hlim Hrep Hh' Ht' Hl'.
  rewrite u64_small in Hl' by lia.
  constructor; [| | | | |done].
  - rewrite ins_perm. by constructor.
  - rewrite Hh'. destruct (decide (k = 0%nat)) as [->|]; [ by rewrite ins_eq by lia|]. by rewrite ins_lt by lia.
  - rewrite Ht', length_ins by done. rewrite pred_ins_end by done. by destruct (decide (k = length ps)).
  - rewrite length_ins by done. lia.
  - lia.
Qed.

Definition same_methods l l' : Prop := dup l' = dup l /\ free l' = free l /\ match_ l' = match_ l.

(** *** Insertions *)

Lemma rep_last l h ps vs : list_rep l h ps vs -> tail l = last ps.
Proof.
  intros H. rewrite (lr_tail _ _ _ _ H). destruct ps as [|p ps _] using rev_ind; [done|].
  rewrite last_snoc, length_app. cbn [length]. rewrite Nat.add_1_r. cbn [pred].
  by rewrite list_lookup_middle.
Qed.

(** What an insertion at position [k] promises. *)
Definition inserted l h l' h' ps vs k v : Prop :=
  exists n, (n ∉ ps) /\ list_rep l' h' (ins k n ps) (ins k v vs) /\ frame h h' (n :: ps) /\
            freed h' = freed h /\ same_methods l l' /\ nodes h !! n = None.

Lemma addHead_spec l h ps vs v :
  list_rep l h ps vs -> len l + 1 < 2 ^ 64 - 1 ->
  exists l' h', listAddNodeHead l h v = Some (l', h') /\ inserted l h l' h' ps vs 0 v.
Proof.
  intros H Hlim. pose proof H as [Hnd Hh Ht Hlen Hb Hrep].
  destruct (link_spec h ps vs 0 v Hrep Hnd ltac:(lia)) as (h2 & h3 & E2 & E3 & _ & _ & Hrep3 & Hfr & Hfd).
  pose proof (fresh_not_in h ps vs Hrep) as Hn. unfold listAddNodeHead, zmalloc_node.
  cbn [pred] in E2. injection E2 as <-.
  destruct (Z.eqb_spec (len l) 0) as [E0|E0].
  - destruct ps; [|cbn in Hlen; lia]. cbn in E3. injection E3 as <-. eexists _, _. split; [reflexivity|].
    exists (fresh (dom (nodes h))). split; [done|]. split; [|by pose proof (fresh_none h)]. by apply (link_rep l h _ [] vs 0 v).
  - destruct ps as [|p ps]; [cbn in Hlen; lia|]. rewrite Hh. cbn [lookup list_lookup] in E3 |- *.
    rewrite E3. cbn [option_bind mbind]. eexists _, _. split; [reflexivity|].
    exists (fresh (dom (nodes h))). split; [done|]. split; [|by pose proof (fresh_none h)]. apply (link_rep l h _ (p :: ps) vs 0 v); done || (cbn; lia).
Qed.

Lemma addTail_spec l h ps vs v :
  list_rep l h ps vs -> len l + 1 < 2 ^ 64 - 1 ->
  exists l' h', listAddNodeTail l h v = Some (l', h') /\ inserted l h l' h' ps vs (length ps) v.
Proof.
  intros H Hlim. pose proof H as [Hnd Hh Ht Hlen Hb Hrep].
  destruct (link_spec h ps vs (length ps) v Hrep Hnd ltac:(lia)) as (h2 & h3 & E2 & E3 & _ & _ & Hrep3 & Hfr & Hfd).
  pose proof (fresh_not_in h ps vs Hrep) as Hn. unfold listAddNodeTail, zmalloc_node.
  rewrite (lookup_ge_None_2 ps (length ps)) in E2, E3 by lia. injection E3 as <-.
  destruct (Z.eqb_spec (len l) 0) as [E0|E0].
  - destruct ps; [|cbn in Hlen; lia]. cbn in E2. injection E2 as <-. eexists _, _. split; [reflexivity|].
    exists (fresh (dom (nodes h))). split; [done|]. split; [|by pose proof (fresh_none h)]. by apply (link_rep l h _ [] vs 0 v).
  - rewrite Ht. destruct (pred ps (length ps)) as [t|] eqn:Hpt.
    2:{ destruct ps as [|p ps]; [cbn in Hlen; lia|]. cbn [length pred] in Hpt.
        apply lookup_ge_None in Hpt. cbn in Hpt. lia. }
    rewrite E2. cbn [option_bind mbind]. eexists _, _. split; [reflexivity|].
    exists (fresh (dom (nodes h))). split; [done|]. split; [|by pose proof (fresh_none h)].
    apply (link_rep l h _ ps vs (length ps) v); try done.
    + cbn. destruct (decide (length ps = 0%nat)); [lia|done].
    + cbn. by rewrite decide_True.
Qed.

Lemma last_index l h ps vs i p :
  list_rep l h ps vs -> ps !! i = Some p -> (tail l = Some p <-> S i = length ps).
Proof.
  intros H Hp. rewrite (lr_tail _ _ _ _ H). pose proof (lookup_lt_Some _ _ _ Hp).
  split.
  - intros (j & E & Hj)%pred_some. pose proof (NoDup_lookup _ _ _ _ (lr_nodup _ _ _ _ H) Hp Hj). lia.
  - intros <-. done.
Qed.
Lemma first_index l h ps vs i p :
  list_rep l h ps vs -> ps !! i = Some p -> (head l = Some p <-> i = 0%nat).
Proof.
  intros H Hp. rewrite (lr_head _ _ _ _ H). split; [|by intros ->].
  intros H0. by pose proof (NoDup_lookup _ _ _ _ (lr_nodup _ _ _ _ H) Hp H0).
Qed.

Lemma insertNode_spec l h ps vs i p v (after : bool) :
  list_rep l h ps vs -> ps !! i = Some p -> len l + 1 < 2 ^ 64 - 1 ->
  exists l' h', listInsertNode l h p v after = Some (l', h') /\
    inserted l h l' h' ps vs (if after then S i else i) v.
Proof.
  intros H Hp Hlim. pose proof H as [Hnd Hh Ht Hlen Hb Hrep]. pose proof (lookup_lt_Some _ _ _ Hp) as Hi.
  set (k := if after then S i else i). assert (k <= length ps)%nat as Hk by (unfold k; destruct after; lia).
  destruct (link_spec h ps vs k v Hrep Hnd Hk) as (h2 & h3 & E2 & E3 & Hn1 & Hn2 & Hrep3 & Hfr & Hfd).
  pose proof (fresh_not_in h ps vs Hrep) as Hn. set (n := fresh (dom (nodes h))) in *.
  destruct (rep_lookup _ _ _ _ _ Hrep Hp) as (w & Hw & Hm).
  unfold listInsertNode, load, zmalloc_node. cbn [option_bind mbind]. rewrite Hm. cbn [option_bind mbind prev next].
  fold n. assert ((if after then ListNode (Some p) (ps !! S i) v else ListNode (pred ps i) (Some p) v)
    = ListNode (pred ps k) (ps !! k) v) as ->.
  { unfold k. destruct after; cbn [pred]; by rewrite Hp. }
  set (l1 := if after then _ else _).
  rewrite Hn1. cbn [option_bind mbind prev]. rewrite E2. cbn [option_bind mbind].
  rewrite Hn2. cbn [option_bind mbind next]. rewrite E3. cbn [option_bind mbind].
  eexists _, _. split; [reflexivity|]. exists n. split; [done|]. split; [|split; [done|split; [done|split; [|apply fresh_none]]]].
  - apply (link_rep l h _ ps vs k v n); try done.
    + unfold l1, k. destruct after; cbn.
      * by destruct (decide (tail l = Some p)).
      * destruct (decide (head l = Some p)) as [E|E]; cbn.
        -- apply (first_index _ _ _ _ _ _ H Hp) in E. by rewrite decide_True.
        -- rewrite (first_index _ _ _ _ _ _ H Hp) in E. by rewrite decide_False.
    + unfold l1, k. destruct after; cbn.
      * destruct (decide (tail l = Some p)) as [E|E]; cbn.
        -- apply (last_index _ _ _ _ _ _ H Hp) in E. by rewrite decide_True.
        -- rewrite (last_index _ _ _ _ _ _ H Hp) in E. by rewrite decide_False.
      * rewrite (decide_False (P := i = length ps)) by lia. by destruct (decide (head l = Some p)).
    + unfold l1. destruct after; [by destruct (decide (tail l = Some p))|by destruct (decide (head l = Some p))].
  - unfold l1. destruct after; [by destruct (decide (tail l = Some p))|by destruct (decide (head l = Some p))].
Qed.

(** *** Deletion *)

Lemma last_delete ps k :
  (k < length ps)%nat ->
  pred (delete k ps) (length (delete k ps)) = if decide (S k = length ps) then pred ps k else pred ps (length ps).
Proof.
  intros Hk. rewrite length_delete by by apply lookup_lt_is_Some_2.
  destruct (length ps) as [|n] eqn:Hl; [lia|]. replace (S n - 1)%nat with n by lia.
  case_decide as E.
  - injection E as ->. destruct n as [|j]; [done|]. cbn [pred]. by rewrite list_lookup_delete_lt by lia.
  - destruct n as [|j]; [lia|]. cbn [pred]. by rewrite list_lookup_delete_ge by lia.
Qed.

Lemma delNode_spec l h ps vs k p v :
  list_rep l h ps vs -> ps !! k = Some p -> vs !! k = Some v ->
  exists l' h', listDelNode l h p = Some (l', h') /\ list_rep l' h' (delete k ps) (delete k vs) /\
    frame h h' ps /\ nodes h' !! p = None /\
    freed h' = (match free l with Some _ => [v] | None => [] end) ++ freed h /\ same_methods l l'.
Proof.
  intros H Hp Hv. pose proof H as [Hnd Hh Ht Hlen Hb Hrep]. pose proof (lookup_lt_Some _ _ _ Hp) as Hk.
  pose proof Hrep as [Hl Hlook]. pose proof (Hlook _ _ _ Hp Hv) as Hm.
  set (nd := ListNode (pred ps k) (ps !! S k) v) in *.
  (* the previous node, or the head *)
  assert (exists l1 h1, (match prev nd with
      | Some _ => h1 ← set_next h (prev nd) (next nd); Some (l, h1)
      | None => Some (set_head l (next nd), h) end) = Some (l1, h1) /\
    nodes h1 !! p = Some nd /\ freed h1 = freed h /\ frame h h1 ps /\
    head l1 = (if decide (k = 0%nat) then ps !! S k else head l) /\ tail l1 = tail l /\ len l1 = len l /\ same_methods l l1 /\
    forall i q x, ps !! i = Some q -> nodes h !! q = Some x ->
      nodes h1 !! q = Some (ListNode (prev x) (if decide (S i = k) then ps !! S k else next x) (value x)))
    as (l1 & h1 & E1 & Hp1 & Hf1 & Hfr1 & Hhd1 & Htl1 & Hln1 & Hsm1 & H1).
  { subst nd. cbn [prev next]. destruct (pred ps k) as [q|] eqn:Hq.
    - apply pred_some in Hq as (j & -> & Hj). destruct (rep_lookup _ _ _ _ _ Hrep Hj) as (w & _ & Hmq).
      assert (q <> p) as Hqp by (eapply nodup_ne; [done|exact Hj|exact Hp|lia]).
      rewrite (set_next_ok _ _ _ _ Hmq). cbn [option_bind mbind]. eexists _, _. split; [reflexivity|].
      cbn [nodes freed prev next value]. split_and!; try done.
      + by rewrite lookup_insert_ne.
      + intros r Hr. cbn. rewrite lookup_insert_ne; [done|]. intros <-. apply Hr. by eapply list_elem_of_lookup_2.
      + intros i r x Hi Hx. destruct (decide (S i = S j)) as [Hij|Hij].
        * injection Hij as ->. rewrite Hj in Hi. injection Hi as <-. rewrite Hmq in Hx. injection Hx as <-.
          by rewrite lookup_insert_eq.
        * rewrite lookup_insert_ne by (eapply nodup_ne; [done|exact Hj|exact Hi|lia]). rewrite Hx. by destruct x.
    - eexists _, _. split; [reflexivity|]. cbn. destruct k as [|j]; [|cbn in Hq; apply lookup_ge_None in Hq; lia].
      split_and!; try done. intros i r x Hi Hx. rewrite Hx. by destruct x. }
  (* the next node, or the tail *)
  assert (exists l2 h2, (match next nd with
      | Some _ => h2 ← set_prev h1 (next nd) (prev nd); Some (l1, h2)
      | None => Some (set_tail l1 (prev nd), h1) end) = Some (l2, h2) /\
    nodes h2 !! p = Some nd /\ freed h2 = freed h /\ frame h h2 ps /\
    head l2 = (if decide (k = 0%nat) then ps !! S k else head l) /\
    tail l2 = (if decide (S k = length ps) then pred ps k else tail l) /\ len l2 = len l /\ same_methods l l2 /\
    forall i q x, i <> k -> ps !! i = Some q -> nodes h !! q = Some x ->
      nodes h2 !! q = Some (ListNode (if decide (i = S k) then pred ps k else prev x)
                                     (if decide (S i = k) then ps !! S k else next x) (value x)))
    as (l2 & h2 & E2 & Hp2 & Hf2 & Hfr2 & Hhd2 & Htl2 & Hln2 & Hsm2 & H2).
  { subst nd. cbn [prev next] in *. destruct (ps !! S k) as [q|] eqn:Hq.
    - destruct (rep_lookup _ _ _ _ _ Hrep Hq) as (w & _ & Hmq).
      assert (q <> p) as Hqp by (eapply nodup_ne; [done|exact Hq|exact Hp|lia]).
      rewrite (set_prev_ok _ _ _ _ (H1 _ _ _ Hq Hmq)). cbn [option_bind mbind]. eexists _, _. split; [reflexivity|].
      cbn [nodes freed prev next value]. split_and!; try done.
      + by rewrite lookup_insert_ne.
      + intros r Hr. cbn. rewrite lookup_insert_ne; [by apply Hfr1|]. intros <-. apply Hr. by eapply list_elem_of_lookup_2.
      + rewrite Htl1. pose proof (lookup_lt_Some _ _ _ Hq). by rewrite (decide_False (P := S k = length ps)) by lia.
      + intros i r x Hik Hi Hx. destruct (decide (i = S k)) as [->|Hne].
        * rewrite Hq in Hi. injection Hi as <-. rewrite Hmq in Hx. injection Hx as <-. by rewrite lookup_insert_eq.
        * rewrite lookup_insert_ne by (eapply nodup_ne; [done|exact Hq|exact Hi|lia]). by apply H1.
    - eexists _, _. split; [reflexivity|]. cbn. apply lookup_ge_None in Hq. split_and!; try done.
      + by rewrite decide_True by lia.
      + intros i r x Hik Hi Hx. pose proof (lookup_lt_Some _ _ _ Hi). rewrite (decide_False (P := i = S k)) by lia.
        by apply H1. }
  unfold listDelNode, load. cbn [option_bind mbind]. rewrite Hm. cbn [option_bind mbind].
  rewrite E1. cbn [option_bind mbind]. rewrite Hp1. cbn [option_bind mbind].
  rewrite E2. cbn [option_bind mbind]. rewrite Hp2. cbn [option_bind mbind].
  assert (zfree_node (call_free l2 h2 (value nd)) p = Some (Heap (delete p (nodes h2))
    ((match free l with Some _ => [v] | None => [] end) ++ freed h))) as ->.
  { unfold zfree_node, call_free. destruct Hsm2 as (_ & -> & _). destruct (free l); cbn; by rewrite Hp2, Hf2. }
  cbn [option_bind mbind]. eexists _, _. split; [reflexivity|]. split; [|split; [|split; [|done]]].
  - constructor; cbn.
    + eapply sublist_NoDup; [done|]. apply sublist_delete.
    + rewrite Hhd2. destruct (decide (k = 0%nat)) as [->|].
      * by rewrite list_lookup_delete_ge by lia.
      * by rewrite list_lookup_delete_lt by lia.
    + rewrite Htl2, last_delete by done. by destruct (decide (S k = length ps)).
    + rewrite Hln2, length_delete by by apply lookup_lt_is_Some_2. rewrite u64_small by lia. lia.
    + rewrite Hln2, u64_small by lia. lia.
    + eapply (del_rep (nodes h)); [done|done|]. intros i q x Hik Hi Hx.
      rewrite lookup_delete_ne by (eapply nodup_ne; [done|exact Hp|exact Hi|lia]). by apply H2.
  - intros q Hq. cbn. rewrite lookup_delete_ne; [by apply Hfr2|]. intros <-. apply Hq. by eapply list_elem_of_lookup_2.
  - cbn. apply lookup_delete_eq.
Qed.
End Proofs.
