(* ===== verification/AdlistSpec.v ===== *)
(** AdlistSpec: traversals, rotation, copies and the refinement of a linked
    list to a sequence of values. *)
From stdpp Require Import sets.
From S2P Require Import Prelude Adlist AdlistProofs.

Section Spec.
Context {V : Type}.
Implicit Types (h : heap V) (l : list_ V) (ps : list ptr) (vs : list V).

(** ** Traversals *)

Lemma index_fwd n : forall h ps vs i,
  rep_nodes (nodes h) ps vs -> index_loop n h true (ps !! i) = Some (ps !! (i + n)%nat).
Proof.
  induction n as [|n IH]; intros h ps vs i Hrep; [cbn; by rewrite Nat.add_0_r|]. cbn [index_loop].
  destruct (ps !! i) as [p|] eqn:Hp.
  - destruct (rep_lookup _ _ _ _ _ Hrep Hp) as (v & _ & Hm). unfold load. cbn [option_bind mbind].
    rewrite Hm. cbn [option_bind mbind next]. rewrite (IH h ps vs (S i) Hrep). do 2 f_equal. lia.
  - apply lookup_ge_None in Hp. f_equal. symmetry. apply lookup_ge_None. lia.
Qed.


(** The position [listIndex] names. *)
Definition index_spec {A} (xs : list A) (index : Z) : option A :=
  if index <? 0 then if decide (- index <= Z.of_nat (length xs)) then xs !! Z.to_nat (Z.of_nat (length xs) + index) else None
  else xs !! Z.to_nat index.

Lemma index_bwd n : forall h ps vs i,
  rep_nodes (nodes h) ps vs -> (i <= length ps)%nat ->
  index_loop n h false (pred ps i) = Some (if decide (n < i)%nat then pred ps (i - n) else None).
Proof.
  induction n as [|n IH]; intros h ps vs i Hrep Hi; cbn [index_loop].
  - destruct i; [done|]. by rewrite decide_True, Nat.sub_0_r by lia.
  - destruct i as [|j]; [done|]. cbn [pred]. destruct (lookup_lt_is_Some_2 ps j) as [p Hj]; [lia|]. rewrite Hj.
    destruct (rep_lookup _ _ _ _ _ Hrep Hj) as (v & _ & Hm). unfold load. cbn [option_bind mbind].
    rewrite Hm. cbn [option_bind mbind prev]. rewrite (IH h ps vs j Hrep) by lia. f_equal.
    destruct (decide (n < j)%nat), (decide (S n < S j)%nat); try lia; done.
Qed.

Lemma listIndex_spec l h ps vs index :
  list_rep l h ps vs -> - 2 ^ 63 < index < 2 ^ 63 -> listIndex l h index = Some (index_spec ps index).
Proof.
  intros [Hnd Hh Ht Hlen Hb Hrep] Hi. unfold listIndex, index_spec. destruct (Z.ltb_spec index 0).
  - rewrite chk64_ok by lia. cbn [option_bind mbind]. rewrite Ht, (index_bwd _ _ _ _ _ Hrep) by lia. f_equal.
    destruct (decide (Z.to_nat (- index - 1) < length ps)%nat) as [Hlt|Hge].
    + rewrite decide_True by lia. replace (length ps - Z.to_nat (- index - 1))%nat with (S (Z.to_nat (Z.of_nat (length ps) + index))) by lia.
      done.
    + by rewrite decide_False by lia.
  - rewrite Hh, (index_fwd _ _ _ _ _ Hrep). done.
Qed.

Lemma listNext_fwd h ps vs i :
  rep_nodes (nodes h) ps vs ->
  listNext h (ListIter (ps !! i) AL_START_HEAD) = Some (ps !! i, ListIter (ps !! S i) AL_START_HEAD) \/
  (ps !! i = None /\ listNext h (ListIter (ps !! i) AL_START_HEAD) = Some (None, ListIter None AL_START_HEAD)).
Proof.
  intros Hrep. unfold listNext. cbn [it_next direction]. destruct (ps !! i) as [p|] eqn:Hp; [left|by right].
  destruct (rep_lookup _ _ _ _ _ Hrep Hp) as (v & _ & Hm). unfold load. cbn [option_bind mbind]. rewrite Hm. done.
Qed.

Lemma listSearch_loop_spec same l h ps vs key fuel : forall i,
  rep_nodes (nodes h) ps vs -> (length ps - i < fuel)%nat ->
  let found v := match match_ l with Some m => m v key | None => same key v end in
  search_loop same fuel l h key (ListIter (ps !! i) AL_START_HEAD)
  = Some (match list_find (fun v => found v = true) (drop i vs) with Some (j, _) => ps !! (i + j)%nat | None => None end).
Proof.
  induction fuel as [|fuel IH]; intros i Hrep Hf found; [lia|]. cbn [search_loop].
  destruct (listNext_fwd h ps vs i Hrep) as [E | [Hn E]].
  - rewrite E. cbn [option_bind mbind]. destruct (ps !! i) as [p|] eqn:Hp.
    + destruct (rep_lookup _ _ _ _ _ Hrep Hp) as (v & Hv & Hm). unfold load. cbn [option_bind mbind].
      rewrite Hm. cbn [option_bind mbind value]. rewrite (drop_S _ _ _ Hv). cbn [list_find]. fold (found v).
      pose proof (lookup_lt_Some _ _ _ Hp). destruct (found v) eqn:Hfv.
      * rewrite decide_True by done. by rewrite Nat.add_0_r, Hp.
      * rewrite decide_False by done. rewrite (IH (S i) Hrep) by lia. fold found. f_equal.
        destruct (list_find _ (drop (S i) vs)) as [[j w]|]; [|done]. cbn. f_equal. lia.
    + destruct Hrep as [Hl _]. apply lookup_ge_None in Hp. by rewrite drop_ge by lia.
  - rewrite E. cbn [option_bind mbind]. destruct Hrep as [Hl _]. apply lookup_ge_None in Hn. by rewrite drop_ge by lia.
Qed.

Lemma listSearchKey_spec same l h ps vs key :
  list_rep l h ps vs ->
  let found v := match match_ l with Some m => m v key | None => same key v end in
  listSearchKey same l h key
  = Some (match list_find (fun v => found v = true) vs with Some (j, _) => ps !! j | None => None end).
Proof.
  intros H found. pose proof H as [Hnd Hh Ht Hlen Hb Hrep]. unfold listSearchKey, listGetIterator.
  change (AL_START_HEAD =? AL_START_HEAD) with true. cbv iota. rewrite Hh.
  rewrite (listSearch_loop_spec same l h ps vs key _ 0 Hrep) by lia. done.
Qed.

(** ** Rotation *)

Lemma rotate_spec l h ps p vs v :
  list_rep l h (ps ++ [p]) (vs ++ [v]) -> 
  exists l' h', listRotate l h = Some (l', h') /\ list_rep l' h' (p :: ps) (v :: vs) /\
    frame h h' (ps ++ [p]) /\ freed h' = freed h /\ same_methods l l'.
Proof.
  intros H. pose proof H as [Hnd Hh Ht Hlen Hb Hrep]. pose proof Hrep as [Hl Hlook].
  rewrite !length_app in Hl. cbn [length] in Hl. unfold listRotate, listLength. rewrite Hlen, length_app. cbn [length].
  destruct (Z.leb_spec (Z.of_nat (length ps + 1)) 1) as [Hle|Hgt].
  { destruct ps; [|cbn in Hle; lia]. destruct vs; [|cbn in Hl; lia]. exists l, h. by repeat split. }
  destruct ps as [|q0 ps0] eqn:Eps; [cbn in Hgt; lia|]. rewrite <-Eps in *.
  assert (exists k, length ps = S k) as [k Hk] by (rewrite Eps; by eexists).
  assert ((ps ++ [p]) !! S k = Some p) as Hp by (rewrite <-Hk; by apply list_lookup_middle).
  destruct (lookup_lt_is_Some_2 ps k) as [q Hq]; [lia|].
  assert ((ps ++ [p]) !! k = Some q) as Hq' by (rewrite lookup_app_l by lia; done).
  assert (ps !! 0%nat = Some q0) as Hq0 by by rewrite Eps.
  assert ((ps ++ [p]) !! 0%nat = Some q0) as Hq0' by (rewrite lookup_app_l by lia; done).
  destruct (rep_lookup _ _ _ _ _ Hrep Hp) as (w & Hw & Hmp). cbn [pred] in Hmp. rewrite Hq' in Hmp.
  rewrite (lookup_ge_None_2 (ps ++ [p]) (S (S k))) in Hmp by (rewrite length_app; cbn; lia).
  assert (w = v) as ->. { rewrite list_lookup_middle in Hw by lia. by injection Hw. }
  destruct (rep_lookup _ _ _ _ _ Hrep Hq') as (wq & _ & Hmq).
  assert (p <> q) as Hpq by (eapply nodup_ne; [done|exact Hp|exact Hq'|lia]).
  assert (p <> q0) as Hpq0 by (eapply nodup_ne; [done|exact Hp|exact Hq0'|lia]).
  rewrite Ht, length_app. cbn [length]. rewrite Nat.add_1_r, Hk. cbn [pred]. rewrite Hp.
  unfold load. cbn [option_bind mbind]. rewrite Hmp. cbn [option_bind mbind prev set_tail tail].
  rewrite (set_next_ok _ _ _ _ Hmq). cbn [option_bind mbind].
  set (m1 := <[q := _]> (nodes h)).
  (* the list without its last node *)
  assert (rep_nodes m1 ps vs) as Hrep1.
  { replace ps with (delete (S k) (ps ++ [p])) by (by rewrite <-Hk, delete_middle, app_nil_r).
    replace vs with (delete (S k) (vs ++ [v])) by (rewrite <-Hk; replace (length ps) with (length vs) by lia; by rewrite delete_middle, app_nil_r).
    apply (del_rep (nodes h)); [done|rewrite length_app; cbn; lia|].
    intros i r x Hik Hi Hx. unfold m1. rewrite (lookup_ge_None_2 (ps ++ [p]) (S (S k))) by (rewrite length_app; cbn; lia).
    pose proof (lookup_lt_Some _ _ _ Hi) as Hil. rewrite length_app in Hil. cbn [length] in Hil.
    rewrite (decide_False (P := i = S (S k))) by lia.
    destruct (decide (S i = S k)) as [Ei|Ei].
    - injection Ei as ->. rewrite Hq' in Hi. injection Hi as <-. rewrite Hmq in Hx. injection Hx as <-.
      by rewrite lookup_insert_eq.
    - rewrite lookup_insert_ne by (eapply nodup_ne; [done|exact Hq'|exact Hi|lia]). rewrite Hx. by destruct x. }
  cbn [set_tail head]. rewrite Hh, Hq0'.
  destruct (rep_lookup _ _ _ _ _ Hrep1 Hq0) as (w0 & _ & Hm0).
  erewrite set_prev_ok by (cbn; exact Hm0). cbn [option_bind mbind nodes freed].
  assert (m1 !! p = Some (ListNode (Some q) None v)) as Hmp1 by (unfold m1; by rewrite lookup_insert_ne).
  erewrite set_prev_ok by (cbn; rewrite lookup_insert_ne by done; exact Hmp1). cbn [option_bind mbind nodes freed next value].
  erewrite set_next_ok by (cbn; apply lookup_insert_eq). cbn [option_bind mbind nodes freed prev value].
  eexists _, _. split; [reflexivity|].
  rewrite NoDup_app in Hnd. destruct Hnd as (Hnd & Hdis & _).
  assert (p ∉ ps) as Hpn by (intros Hin; apply (Hdis _ Hin); by left).
  split; [|split; [|done]].
  - constructor; cbn [head tail len set_head set_tail nodes].
    + by constructor.
    + done.
    + cbn [length pred]. rewrite Hk. done.
    + rewrite Hlen, length_app. cbn [length]. lia.
    + done.
    + apply (ins_rep m1 _ ps vs 0 p v); [done|lia| |].
      * rewrite lookup_insert_eq. by rewrite Hq0.
      * intros i r x Hi Hx. rewrite (decide_False (P := S i = 0%nat)) by lia.
        assert (r <> p) as Hrp by (intros ->; apply Hpn; by eapply list_elem_of_lookup_2).
        rewrite !(lookup_insert_ne _ p) by done. destruct (decide (i = 0%nat)) as [->|Hi0].
        -- rewrite Hq0 in Hi. injection Hi as <-. rewrite Hm0 in Hx. injection Hx as <-. by rewrite lookup_insert_eq.
        -- rewrite lookup_insert_ne by (eapply nodup_ne; [done|exact Hq0|exact Hi|lia]). rewrite Hx. by destruct x.
  - intros r Hr. cbn. rewrite elem_of_app in Hr. unfold m1.
    rewrite !lookup_insert_ne; [done|..]; intros <-; apply Hr; [left|left|right|right]; try (by left);
      by eapply list_elem_of_lookup_2.
Qed.

(** ** Release and copy *)

(** The nodes of a sequence reachable through [next]. *)
Definition chain h ps vs : Prop :=
  length ps = length vs /\
  forall i p v, ps !! i = Some p -> vs !! i = Some v -> exists pr, nodes h !! p = Some (ListNode pr (ps !! S i) v).

Lemma release_loop_spec l ps : forall vs h,
  NoDup ps -> chain h ps vs ->
  exists h', release_loop (length ps) l h (ps !! 0%nat) = Some h' /\
    (forall q, nodes h' !! q = if decide (q ∈ ps) then None else nodes h !! q) /\
    freed h' = (match free l with Some _ => reverse vs | None => [] end) ++ freed h.
Proof.
  induction ps as [|p ps IH]; intros vs h Hnd [Hl Hch].
  { destruct vs; [|done]. exists h. split; [done|]. split; [|by destruct (free l)].
    intros q. rewrite decide_False; [done|]. apply not_elem_of_nil. }
  destruct vs as [|v vs]; [done|]. destruct (Hch 0%nat p v eq_refl eq_refl) as [pr Hm].
  cbn [release_loop length lookup list_lookup]. unfold load. cbn [option_bind mbind]. rewrite Hm. cbn [option_bind mbind value next].
  assert (zfree_node (call_free l h v) p
    = Some (Heap (delete p (nodes h)) ((match free l with Some _ => [v] | None => [] end) ++ freed h))) as ->.
  { unfold zfree_node, call_free. destruct (free l); cbn; by rewrite Hm. }
  cbn [option_bind mbind]. apply NoDup_cons in Hnd as [Hp Hnd].
  destruct (IH vs (Heap (delete p (nodes h)) ((match free l with Some _ => [v] | None => [] end) ++ freed h)) Hnd)
    as (h' & E & Hn & Hf).
  { split; [cbn in Hl; lia|]. intros i q w Hi Hw. destruct (Hch (S i) q w Hi Hw) as [pr' Hq]. exists pr'.
    cbn [nodes]. rewrite lookup_delete_ne; [exact Hq|]. intros <-. apply Hp. by eapply list_elem_of_lookup_2. }
  exists h'. split; [exact E|]. split.
  - intros q. rewrite Hn. cbn [nodes]. destruct (decide (q ∈ ps)) as [Hq|Hq].
    + by rewrite decide_True by by right.
    + destruct (decide (q = p)) as [->|Hqp].
      * rewrite lookup_delete_eq. by rewrite decide_True by left.
      * rewrite lookup_delete_ne by done. rewrite decide_False; [done|]. by apply not_elem_of_cons.
  - rewrite Hf. cbn [freed]. destruct (free l); [|done]. rewrite reverse_cons, <-app_assoc. done.
Qed.

Lemma rep_chain h ps vs : rep_nodes (nodes h) ps vs -> chain h ps vs.
Proof. intros [Hl Hlook]. split; [done|]. intros i p v Hp Hv. eexists. by apply Hlook. Qed.

Lemma listRelease_spec l h ps vs :
  list_rep l h ps vs ->
  exists h', listRelease l h = Some h' /\
    (forall q, nodes h' !! q = if decide (q ∈ ps) then None else nodes h !! q) /\
    freed h' = (match free l with Some _ => reverse vs | None => [] end) ++ freed h.
Proof.
  intros [Hnd Hh Ht Hlen Hb Hrep]. unfold listRelease. rewrite Hlen, Nat2Z.id, Hh.
  apply release_loop_spec; [done|by apply rep_chain].
Qed.

Lemma mapM_app_option {A B} (f : A -> option B) xs : forall ys,
  mapM f (xs ++ ys) = (us ← mapM f xs; ws ← mapM f ys; Some (us ++ ws)).
Proof.
  induction xs as [|x xs IH]; intros ys; cbn; [by destruct (mapM f ys)|].
  destruct (f x); [|done]. cbn. rewrite IH. destruct (mapM f xs); [|done]. cbn. by destruct (mapM f ys).
Qed.

(** The values a copy holds, or none when [dup] fails on some value. *)
Definition dup_val l (v : V) : option V := match dup l with Some f => f v | None => Some v end.

Lemma ins_end {A} (x : A) xs : ins (length xs) x xs = xs ++ [x].
Proof. unfold ins. by rewrite firstn_all, drop_all. Qed.

Lemma rep_nodes_frame h h' ps vs qs :
  rep_nodes (nodes h) ps vs -> frame h h' qs -> (forall q, q ∈ qs -> q ∉ ps) -> rep_nodes (nodes h') ps vs.
Proof.
  intros [Hl Hlook] Hf Hdis. split; [done|]. intros i p v Hp Hv. rewrite Hf; [by apply Hlook|].
  intros Hin. eapply Hdis; [done|]. by eapply list_elem_of_lookup_2.
Qed.

(** What holds during the copy: [h0] is the heap at the start. *)
Definition copying l h0 h (copy : list_ V) psc vsc : Prop :=
  list_rep copy h psc vsc /\ same_methods l copy /\ freed h = freed h0 /\
  (forall q, q ∈ psc -> nodes h0 !! q = None) /\ frame h0 h psc.

Lemma dup_loop_spec l h0 ps vs fuel : forall i h copy psc vsc,
  list_rep l h0 ps vs -> copying l h0 h copy psc vsc ->
  mapM (dup_val l) (take i vs) = Some vsc -> (i <= length ps)%nat -> (length ps - i < fuel)%nat ->
  exists r h', dup_loop fuel h copy (ListIter (ps !! i) AL_START_HEAD) = Some (r, h') /\
    match r with
    | Some copy' => exists psc' vsc', mapM (dup_val l) vs = Some vsc' /\ copying l h0 h' copy' psc' vsc'
    | None => mapM (dup_val l) vs = None /\ (forall q, nodes h' !! q = nodes h0 !! q) /\
              exists fd, freed h' = fd ++ freed h0 /\ (free l = None -> fd = [])
    end.
Proof.
  induction fuel as [|fuel IH]; intros i h copy psc vsc Hl Hcopy Hvsc Hi Hf; [lia|]. cbn [dup_loop].
  pose proof Hcopy as (Hrc & Hsm & Hfd & Hfresh & Hfr). pose proof Hl as [Hnd Hh Ht Hlen Hb Hrep0].
  assert (rep_nodes (nodes h) ps vs) as Hrep.
  { eapply rep_nodes_frame; [exact Hrep0|exact Hfr|]. intros q Hq Hin.
    apply list_elem_of_lookup in Hin as [j Hj]. destruct (rep_lookup _ _ _ _ _ Hrep0 Hj) as (v & _ & Hm).
    rewrite (Hfresh _ Hq) in Hm. done. }
  pose proof Hrep as [Hlv Hlook].
  destruct (decide (i = length ps)) as [->|Hne].
  { unfold listNext. cbn [it_next]. rewrite (lookup_ge_None_2 ps) by lia. cbn [option_bind mbind].
    eexists _, _. split; [reflexivity|]. exists psc, vsc. split; [|done]. by rewrite <-Hvsc, take_ge by lia. }
  destruct (lookup_lt_is_Some_2 ps i) as [p Hp]; [lia|].
  destruct (listNext_fwd h ps vs i Hrep) as [E | [E _]]; [|congruence]. rewrite E, Hp. cbn [option_bind mbind].
  destruct (rep_lookup _ _ _ _ _ Hrep Hp) as (v & Hv & Hm). unfold load. cbn [option_bind mbind]. rewrite Hm.
  cbn [option_bind mbind value].
  assert (match dup copy with Some f => f v | None => Some v end = dup_val l v) as ->.
  { unfold dup_val. by destruct Hsm as (-> & _). }
  assert (mapM (dup_val l) vs = mapM (dup_val l) (take i vs ++ v :: drop (S i) vs)) as Hvs
    by (by rewrite take_drop_middle).
  rewrite mapM_app_option in Hvs. cbn [mapM] in Hvs.
  destruct (dup_val l v) as [v'|] eqn:Hdup.
  - pose proof (lr_len _ _ _ _ Hrc) as Hclen.
    assert (length psc = i) as Hpsc.
    { destruct (lr_nodes _ _ _ _ Hrc) as [-> _]. apply length_mapM in Hvsc. rewrite length_take in Hvsc. lia. }
    destruct (addTail_spec copy h psc vsc v' Hrc) as (copy' & h' & -> & n & Hn & Hrc' & Hfr' & Hfd' & Hsm' & Hnf); [lia|].
    cbn [option_bind mbind]. apply (IH (S i) h' copy' (ins (length psc) n psc) (ins (length psc) v' vsc)); [done| |..].
    + split; [done|]. split; [destruct Hsm as (?&?&?), Hsm' as (?&?&?); split_and!; congruence|].
      split; [congruence|]. split.
      * intros q. rewrite ins_perm, elem_of_cons. intros [->|Hq]; [|by apply Hfresh].
        rewrite <-Hfr by done. done.
      * intros q. rewrite ins_perm, elem_of_cons. intros Hq. rewrite Hfr', Hfr; [done| |].
        -- intros Hin. apply Hq. by right.
        -- rewrite elem_of_cons. intros [->|Hin]; [by apply Hq; left|]. apply Hq. by right.
    + rewrite (take_S_r _ _ _ Hv), mapM_app_option, Hvsc. cbn. rewrite Hdup. cbn.
      destruct (lr_nodes _ _ _ _ Hrc) as [-> _]. by rewrite ins_end.
    + lia.
    + lia.
  - destruct (listRelease_spec copy h psc vsc Hrc) as (h' & -> & Hn & Hfd'). cbn [option_bind mbind].
    eexists _, _. split; [reflexivity|]. split; [by rewrite Hvs, Hvsc|]. split.
    + intros q. rewrite Hn. destruct (decide (q ∈ psc)) as [Hq|Hq]; [by rewrite Hfresh|by apply Hfr].
    + eexists. split; [rewrite Hfd', Hfd; reflexivity|]. destruct Hsm as (_ & -> & _). by intros ->.
Qed.

Lemma listDup_spec l h ps vs :
  list_rep l h ps vs ->
  exists r h', listDup l h = Some (r, h') /\
    match r with
    | Some copy => exists psc vsc, mapM (dup_val l) vs = Some vsc /\ copying l h h' copy psc vsc
    | None => mapM (dup_val l) vs = None /\ (forall q, nodes h' !! q = nodes h !! q) /\
              exists fd, freed h' = fd ++ freed h /\ (free l = None -> fd = [])
    end.
Proof.
  intros Hl. pose proof Hl as [Hnd Hh Ht Hlen Hb Hrep]. unfold listDup, listGetIterator.
  change (AL_START_HEAD =? AL_START_HEAD) with true. cbv iota. rewrite Hh.
  apply (dup_loop_spec l h ps vs _ 0 h _ [] []); [exact Hl| |done|lia|lia].
  split; [|split; [done|split; [done|split; [by intros q ?%not_elem_of_nil|done]]]].
  constructor; cbn; try done. by constructor.
Qed.

(** ** Iterating while the current node is deleted

    The pattern of the clients of [listNext]: the node just returned may be
    removed, since the iterator is already past it. *)

Fixpoint iterate_del (del : V -> bool) (fuel : nat) l h (iter : listIter) : option (list V * list_ V * heap V) :=
  match fuel with
  | O => None
  | S fuel =>
    '(node, iter) ← listNext h iter;
    match node with
    | None => Some ([], l, h)
    | Some p =>
      n ← load h node;
      '(l, h) ← (if del (value n) then listDelNode l h p else Some (l, h));
      '(seen, l, h) ← iterate_del del fuel l h iter;
      Some (value n :: seen, l, h)
    end
  end.

Lemma same_methods_trans l1 l2 l3 : same_methods l1 l2 -> same_methods l2 l3 -> same_methods l1 l3.
Proof. intros (?&?&?) (?&?&?). split_and!; congruence. Qed.

Lemma rep_middle l h ps1 p ps2 vs :
  list_rep l h (ps1 ++ p :: ps2) vs ->
  exists vs1 v vs2, vs = vs1 ++ v :: vs2 /\ length ps1 = length vs1 /\
    nodes h !! p = Some (ListNode (last ps1) (ps2 !! 0%nat) v).
Proof.
  intros H. pose proof (lr_nodes _ _ _ _ H) as Hrep. assert ((ps1 ++ p :: ps2) !! length ps1 = Some p) as Hp by by rewrite list_lookup_middle.
  destruct (rep_lookup _ _ _ _ _ Hrep Hp) as (v & Hv & Hm). exists (take (length ps1) vs), v, (drop (S (length ps1)) vs).
  rewrite take_drop_middle, length_take by done. pose proof (lookup_lt_Some _ _ _ Hv). split; [done|]. split; [lia|].
  rewrite Hm. f_equal. f_equal.
  - destruct ps1 as [|q ps1 _] using rev_ind; [done|]. rewrite last_snoc, length_app. cbn [length]. rewrite Nat.add_1_r. cbn [pred].
    rewrite <-app_assoc. cbn [app]. by rewrite list_lookup_middle.
  - rewrite lookup_app_r by lia. by replace (S (length ps1) - length ps1)%nat with 1%nat by lia.
Qed.

(** What handling the values [seen] leaves of a list of nodes [ps]. *)
Definition iter_post (del : V -> bool) l h l' h' ps (seen vs' : list V) : Prop :=
  exists ps', list_rep l' h' ps' vs' /\ same_methods l l' /\
    freed h' = reverse (match free l with Some _ => filter (fun v => del v = true) seen | None => [] end) ++ freed h /\
    frame h h' ps /\ ps' ⊆ ps.

(** One node handled, forwards or backwards. *)
Lemma iterate_step (del : V -> bool) l h ps1 p ps2 vs1 v vs2 :
  list_rep l h (ps1 ++ p :: ps2) (vs1 ++ v :: vs2) -> length ps1 = length vs1 ->
  exists l1 h1, (if del v then listDelNode l h p else Some (l, h)) = Some (l1, h1) /\
    list_rep l1 h1 (ps1 ++ (if del v then [] else [p]) ++ ps2) (vs1 ++ (if del v then [] else [v]) ++ vs2) /\
    forall l' h' seen vs',
      iter_post del l1 h1 l' h' (ps1 ++ (if del v then [] else [p]) ++ ps2) seen vs' ->
      iter_post del l h l' h' (ps1 ++ p :: ps2) (v :: seen) vs'.
Proof.
  intros H Hl. unfold iter_post. destruct (del v) eqn:Hd.
  - destruct (delNode_spec l h _ _ (length ps1) p v H) as (l1 & h1 & E & H1 & Hfr & _ & Hfd & Hsm).
    + by rewrite list_lookup_middle.
    + by rewrite list_lookup_middle.
    + exists l1, h1. split; [done|]. rewrite delete_middle, Hl, delete_middle in H1. split; [done|].
      intros l' h' seen vs' (ps' & H' & Hsm' & Hfd' & Hfr' & Hsub). exists ps'. split; [done|].
      split; [by eapply same_methods_trans|]. split.
      * rewrite Hfd', Hfd. destruct Hsm as (_ & -> & _). destruct (free l); [|done].
        rewrite filter_cons_True by done. by rewrite reverse_cons, <-app_assoc.
      * cbn [app] in *. split; [|set_solver]. intros q Hq. rewrite Hfr', Hfr by set_solver. done.
  - exists l, h. split; [done|]. split; [done|]. intros l' h' seen vs' (ps' & H' & Hsm' & Hfd' & Hfr' & Hsub).
    exists ps'. rewrite filter_cons_False by by rewrite Hd. done.
Qed.

Lemma filter_keep_cons (del : V -> bool) v xs :
  filter (fun v => del v <> true) (v :: xs) = (if del v then [] else [v]) ++ filter (fun v => del v <> true) xs.
Proof.
  destruct (del v) eqn:Hd; [rewrite filter_cons_False by (intros X; by apply X)|rewrite filter_cons_True by by rewrite Hd]; done.
Qed.

Lemma iterate_fwd (del : V -> bool) fuel : forall l h ps1 ps2 vs1 vs2,
  list_rep l h (ps1 ++ ps2) (vs1 ++ vs2) -> length ps1 = length vs1 -> (length ps2 < fuel)%nat ->
  exists l' h', iterate_del del fuel l h (ListIter (ps2 !! 0%nat) AL_START_HEAD) = Some (vs2, l', h') /\
    iter_post del l h l' h' (ps1 ++ ps2) vs2 (vs1 ++ filter (fun v => del v <> true) vs2).
Proof.
  induction fuel as [|fuel IH]; intros l h ps1 ps2 vs1 vs2 H Hl Hf; [lia|]. cbn [iterate_del].
  pose proof (lr_nodes _ _ _ _ H) as [Hlen _]. rewrite !length_app in Hlen.
  destruct ps2 as [|p ps2].
  { destruct vs2; [|cbn in Hlen; lia]. unfold listNext. cbn. exists l, h.
    split; [done|]. exists (ps1 ++ []). split_and!; try done. by destruct (free l). }
  destruct vs2 as [|v vs2]; [cbn in Hlen; lia|].
  destruct (rep_middle _ _ _ _ _ _ H) as (vs1' & v' & vs2' & E & Hl' & Hm).
  apply app_inj_1 in E as [<- [= <- <-]]; [|lia].
  unfold listNext, load. cbn [it_next direction lookup list_lookup option_bind mbind]. rewrite Hm. cbn [option_bind mbind value next].
  change (AL_START_HEAD =? AL_START_HEAD) with true. cbv iota. rewrite Hm. cbn [option_bind mbind value].
  destruct (iterate_step del l h _ _ _ _ _ _ H Hl) as (l1 & h1 & -> & H1 & Hpost). cbn [option_bind mbind].
  rewrite !(app_assoc _ (if del v then _ else _)) in H1.
  destruct (IH l1 h1 _ ps2 _ vs2 H1) as (l' & h' & E & H').
  { rewrite !length_app. by destruct (del v); cbn; lia. }
  { cbn in Hf. lia. }
  exists l', h'. cbn [lookup list_lookup] in E. rewrite E. cbn [option_bind mbind]. split; [done|].
  apply Hpost. rewrite <-!app_assoc in H'. by rewrite filter_keep_cons.
Qed.

Lemma iterate_bwd (del : V -> bool) fuel : forall l h ps1 ps2 vs1 vs2,
  list_rep l h (ps1 ++ ps2) (vs1 ++ vs2) -> length ps1 = length vs1 -> (length ps1 < fuel)%nat ->
  exists l' h', iterate_del del fuel l h (ListIter (last ps1) AL_START_TAIL) = Some (reverse vs1, l', h') /\
    iter_post del l h l' h' (ps1 ++ ps2) (reverse vs1) (filter (fun v => del v <> true) vs1 ++ vs2).
Proof.
  induction fuel as [|fuel IH]; intros l h ps1 ps2 vs1 vs2 H Hl Hf; [lia|]. cbn [iterate_del].
  destruct ps1 as [|p ps1 _] using rev_ind.
  { destruct vs1; [|cbn in Hl; lia]. unfold listNext. cbn. exists l, h.
    split; [done|]. exists ps2. split_and!; try done. by destruct (free l). }
  destruct vs1 as [|v vs1 _] using rev_ind; [rewrite length_app in Hl; cbn in Hl; lia|].
  rewrite (length_app ps1), (length_app vs1) in Hl. rewrite (length_app ps1) in Hf. cbn [length] in Hl, Hf.
  rewrite last_snoc. rewrite <-(app_assoc ps1), <-(app_assoc vs1) in H. rewrite <-(app_assoc ps1). cbn [app] in H |- *.
  destruct (rep_middle _ _ _ _ _ _ H) as (vs1' & v' & vs2' & E & Hl' & Hm).
  apply app_inj_1 in E as [<- E]; [|lia]. injection E as <- <-.
  unfold listNext, load. cbn [it_next direction option_bind mbind]. rewrite Hm. cbn [option_bind mbind value prev].
  change (AL_START_TAIL =? AL_START_HEAD) with false. cbv iota. rewrite Hm. cbn [option_bind mbind value].
  destruct (iterate_step del l h _ _ _ _ _ _ H) as (l1 & h1 & -> & H1 & Hpost); [lia|]. cbn [option_bind mbind].
  destruct (IH l1 h1 _ _ _ _ H1) as (l' & h' & E & H'); [lia..|].
  exists l', h'. rewrite E. cbn [option_bind mbind]. rewrite reverse_snoc. split; [done|].
  apply Hpost. by rewrite filter_app, filter_keep_cons, filter_nil, app_nil_r, <-app_assoc.
Qed.

(** ** Sequences of operations *)

(** The position an index names, from the end when it is negative. *)
Definition index_pos (n : nat) (index : Z) : option nat :=
  if index <? 0 then if decide (- index <= Z.of_nat n) then Some (Z.to_nat (Z.of_nat n + index)) else None
  else if decide (index < Z.of_nat n) then Some (Z.to_nat index) else None.

Lemma index_spec_pos {A} (xs : list A) index : index_spec xs index = k ← index_pos (length xs) index; xs !! k.
Proof.
  unfold index_spec, index_pos. destruct (Z.ltb_spec index 0); [by destruct (decide _)|].
  destruct (decide (index < Z.of_nat (length xs))); [done|]. apply lookup_ge_None. lia.
Qed.

Lemma index_pos_lt n index k : index_pos n index = Some k -> (k < n)%nat.
Proof.
  unfold index_pos. destruct (Z.ltb_spec index 0); destruct (decide _); intros [= <-]; lia.
Qed.

Inductive list_op :=
  | OpAddHead (v : V)
  | OpAddTail (v : V)
  | OpInsert (index : Z) (v : V) (after : bool)
  | OpDel (index : Z)
  | OpRotate
  | OpIndex (index : Z)
  | OpSearch (key : V).

Definition op_ok (op : list_op) : Prop :=
  match op with OpInsert i _ _ | OpDel i | OpIndex i => - 2 ^ 63 < i < 2 ^ 63 | _ => True end.

(** The value of a node, and the client's use of each operation: a node to
    insert next to or to delete comes from [listIndex]. *)
Definition value_at h (p : option ptr) : option (option V) :=
  match p with Some _ => n ← load h p; Some (Some (value n)) | None => Some None end.

Definition run_op (same : V -> V -> bool) (op : list_op) l h : option (list_ V * heap V * option V) :=
  match op with
  | OpAddHead v => '(l, h) ← listAddNodeHead l h v; Some (l, h, None)
  | OpAddTail v => '(l, h) ← listAddNodeTail l h v; Some (l, h, None)
  | OpInsert i v after =>
    n ← listIndex l h i;
    match n with Some p => '(l, h) ← listInsertNode l h p v after; Some (l, h, None) | None => Some (l, h, None) end
  | OpDel i =>
    n ← listIndex l h i;
    match n with Some p => '(l, h) ← listDelNode l h p; Some (l, h, None) | None => Some (l, h, None) end
  | OpRotate => '(l, h) ← listRotate l h; Some (l, h, None)
  | OpIndex i => n ← listIndex l h i; r ← value_at h n; Some (l, h, r)
  | OpSearch key => n ← listSearchKey same l h key; r ← value_at h n; Some (l, h, r)
  end.

Fixpoint run_ops (same : V -> V -> bool) (ops : list list_op) l h : option (list_ V * heap V * list (option V)) :=
  match ops with
  | [] => Some (l, h, [])
  | op :: ops =>
    '(l, h, r) ← run_op same op l h;
    '(l, h, rs) ← run_ops same ops l h;
    Some (l, h, r :: rs)
  end.

(** The same on sequences; the results are the sequence, what is freed, and
    the value returned. *)
Definition spec_op (found : V -> V -> bool) (op : list_op) (vs : list V) : list V * list V * option V :=
  match op with
  | OpAddHead v => (v :: vs, [], None)
  | OpAddTail v => (vs ++ [v], [], None)
  | OpInsert i v after =>
    match index_pos (length vs) i with
    | Some k => let k := if after then S k else k in (take k vs ++ v :: drop k vs, [], None)
    | None => (vs, [], None)
    end
  | OpDel i =>
    match index_pos (length vs) i with
    | Some k => (delete k vs, match vs !! k with Some v => [v] | None => [] end, None)
    | None => (vs, [], None)
    end
  | OpRotate => (match last vs with Some v => v :: take (length vs - 1) vs | None => [] end, [], None)
  | OpIndex i => (vs, [], k ← index_pos (length vs) i; vs !! k)
  | OpSearch key => (vs, [], snd <$> list_find (fun v => found v key = true) vs)
  end.

Fixpoint spec_ops (found : V -> V -> bool) (ops : list list_op) (vs : list V) : list V * list V * list (option V) :=
  match ops with
  | [] => (vs, [], [])
  | op :: ops =>
    let '(vs, fd, r) := spec_op found op vs in
    let '(vs, fds, rs) := spec_ops found ops vs in
    (vs, fd ++ fds, r :: rs)
  end.

(** The list is [vs], in nodes allocated since [h0]; nothing else changed. *)
Definition owns (h0 : heap V) l h vs : Prop :=
  exists ps, list_rep l h ps vs /\ (forall q, q ∈ ps -> nodes h0 !! q = None) /\ frame h0 h ps.

Definition found_by (same : V -> V -> bool) l (v key : V) : bool :=
  match match_ l with Some m => m v key | None => same key v end.

Lemma owns_inserted h0 l h l' h' ps vs k v :
  (forall q, q ∈ ps -> nodes h0 !! q = None) -> frame h0 h ps -> inserted l h l' h' ps vs k v ->
  owns h0 l' h' (ins k v vs).
Proof.
  intros Hnew Hfr (n & Hn & H' & Hfr' & _ & _ & Hnn). exists (ins k n ps). split; [done|].
  assert (forall q, q ∈ ins k n ps <-> q ∈ n :: ps) as Hin by (intros q; by rewrite ins_perm). split.
  - intros q [->|Hq]%Hin%elem_of_cons; [by rewrite <-Hfr|by apply Hnew].
  - intros q Hq. rewrite Hin in Hq. rewrite Hfr' by done. apply Hfr. intros Hps. apply Hq. by right.
Qed.

Lemma owns_sub h0 l' h h' ps ps' vs' :
  (forall q, q ∈ ps -> nodes h0 !! q = None) -> frame h0 h ps ->
  list_rep l' h' ps' vs' -> frame h h' ps -> ps' ⊆ ps -> (forall q, q ∈ ps -> q ∉ ps' -> nodes h' !! q = None) ->
  owns h0 l' h' vs'.
Proof.
  intros Hnew Hfr H' Hfr' Hsub Hgone. exists ps'. split; [done|]. split; [intros q Hq; apply Hnew; set_solver|].
  intros q Hq. destruct (decide (q ∈ ps)) as [Hin|Hin]; [by rewrite Hgone, Hnew|by rewrite Hfr', Hfr].
Qed.

Lemma listIndex_owned h0 l h vs index :
  owns h0 l h vs -> - 2 ^ 63 < index < 2 ^ 63 ->
  exists ps, list_rep l h ps vs /\ (forall q, q ∈ ps -> nodes h0 !! q = None) /\ frame h0 h ps /\
    match index_pos (length vs) index with
    | Some k => exists p v, listIndex l h index = Some (Some p) /\ ps !! k = Some p /\ vs !! k = Some v /\
                            value_at h (Some p) = Some (Some v)
    | None => listIndex l h index = Some None
    end.
Proof.
  intros (ps & H & Hnew & Hfr) Hi. exists ps. split; [done|]. split; [done|]. split; [done|].
  rewrite (listIndex_spec _ _ _ _ _ H Hi), index_spec_pos. pose proof (lr_nodes _ _ _ _ H) as Hrep.
  pose proof Hrep as [Hl _]. rewrite Hl. destruct (index_pos (length vs) index) as [k|] eqn:Hk; [|done].
  apply index_pos_lt in Hk. destruct (lookup_lt_is_Some_2 ps k) as [p Hp]; [lia|].
  destruct (rep_lookup _ _ _ _ _ Hrep Hp) as (v & Hv & Hm). exists p, v. cbn. rewrite Hp, Hm. done.
Qed.

(** What an operation promises of the list, the heap and its result. *)
Definition op_post h0 l h l' h' (spec : list V * list V * option V) : Prop :=
  let '(vs', fd, _) := spec in
  owns h0 l' h' vs' /\ same_methods l l' /\
  freed h' = (match free l with Some _ => reverse fd | None => [] end) ++ freed h.

Lemma post_unchanged h0 l h vs r : owns h0 l h vs -> op_post h0 l h l h (vs, [], r).
Proof. intros H. split; [done|]. split; [done|]. by destruct (free l). Qed.

Lemma post_inserted h0 l h l' h' ps vs k v :
  (forall q, q ∈ ps -> nodes h0 !! q = None) -> frame h0 h ps -> inserted l h l' h' ps vs k v ->
  op_post h0 l h l' h' (ins k v vs, [], None).
Proof.
  intros Hnew Hfr Hins. split; [by eapply owns_inserted|]. destruct Hins as (n & _ & _ & _ & -> & ? & _).
  split; [done|]. by destruct (free l).
Qed.

Lemma post_deleted h0 l h ps vs k p v :
  list_rep l h ps vs -> (forall q, q ∈ ps -> nodes h0 !! q = None) -> frame h0 h ps -> ps !! k = Some p -> vs !! k = Some v ->
  exists l' h', listDelNode l h p = Some (l', h') /\ op_post h0 l h l' h' (delete k vs, [v], None).
Proof.
  intros H Hnew Hfr Hp Hv. destruct (delNode_spec l h ps vs k p v H Hp Hv) as (l' & h' & -> & H' & Hfr' & Hgone & Hfd & Hsm).
  exists l', h'. split; [done|]. split; [|done].
  assert (forall q, q ∈ ps <-> q ∈ p :: delete k ps) as Hperm by (intros q; by rewrite <-(delete_Permutation _ _ _ Hp)).
  eapply (owns_sub h0 l' h h' ps); try done; intros q.
  - intros Hq. by apply Hperm; right.
  - intros [->|Hq]%Hperm%elem_of_cons; done.
Qed.

Lemma post_rotated h0 l h vs :
  owns h0 l h vs ->
  exists l' h', listRotate l h = Some (l', h') /\
    op_post h0 l h l' h' (match last vs with Some v => v :: take (length vs - 1) vs | None => [] end, [], None).
Proof.
  intros (ps & H & Hnew & Hfr). pose proof (lr_nodes _ _ _ _ H) as [Hl _].
  destruct vs as [|v vs _] using rev_ind.
  { destruct ps; [|done]. exists l, h. unfold listRotate, listLength. rewrite (lr_len _ _ _ _ H).
    split; [done|]. apply post_unchanged. by exists []. }
  destruct ps as [|p ps _] using rev_ind; [rewrite length_app in Hl; cbn in Hl; lia|].
  destruct (rotate_spec l h ps p vs v H) as (l' & h' & -> & H' & Hfr' & Hfd & Hsm). exists l', h'. split; [done|].
  rewrite last_snoc, length_app, Nat.add_sub, take_app_length. split; [|split; [done|by destruct (free l)]].
  eapply (owns_sub h0 l' h h' (ps ++ [p])); try done; set_solver.
Qed.

Lemma search_owned same h0 l h vs key :
  owns h0 l h vs ->
  exists n, listSearchKey same l h key = Some n /\
    value_at h n = Some (snd <$> list_find (fun v => found_by same l v key = true) vs).
Proof.
  intros (ps & H & _). rewrite (listSearchKey_spec same _ _ _ _ key H). eexists. split; [reflexivity|].
  pose proof (lr_nodes _ _ _ _ H) as Hrep. pose proof Hrep as [Hl _]. fold (found_by same l).
  change (fun v => _ = true) with (fun v => found_by same l v key = true).
  destruct (list_find _ vs) as [[k v]|] eqn:Hf; [|done]. apply list_find_Some in Hf as (Hv & _).
  destruct (lookup_lt_is_Some_2 ps k) as [p Hp]; [rewrite Hl; by eapply lookup_lt_Some|].
  destruct (rep_lookup _ _ _ _ _ Hrep Hp) as (w & Hw & Hm). cbn. rewrite Hp. cbn. rewrite Hm. cbn. congruence.
Qed.

Lemma run_op_spec same h0 op l h vs :
  owns h0 l h vs -> op_ok op -> Z.of_nat (length vs) + 1 < 2 ^ 64 - 1 ->
  exists l' h', run_op same op l h = Some (l', h', (spec_op (found_by same l) op vs).2) /\
    op_post h0 l h l' h' (spec_op (found_by same l) op vs).
Proof.
  intros Ho Hok Hb. pose proof Ho as (ps & H & Hnew & Hfr).
  assert (len l + 1 < 2 ^ 64 - 1) as Hlen.
  { rewrite (lr_len _ _ _ _ H). destruct (lr_nodes _ _ _ _ H) as [-> _]. done. }
  destruct op; cbn [run_op spec_op op_ok] in *.
  - destruct (addHead_spec l h ps vs v H Hlen) as (l' & h' & -> & Hins). exists l', h'. split; [done|].
    apply (post_inserted h0 l h l' h' ps vs 0 v Hnew Hfr Hins).
  - destruct (addTail_spec l h ps vs v H Hlen) as (l' & h' & -> & Hins). exists l', h'. split; [done|].
    pose proof (post_inserted h0 l h l' h' ps vs _ v Hnew Hfr Hins) as Hp. destruct (lr_nodes _ _ _ _ H) as [Hl _].
    by rewrite Hl, ins_end in Hp.
  - destruct (listIndex_owned _ _ _ _ _ Ho Hok) as (ps' & H' & Hnew' & Hfr' & Hi).
    destruct (index_pos (length vs) index) as [k|].
    + destruct Hi as (p & w & -> & Hp & Hw & _). cbn [option_bind mbind].
      destruct (insertNode_spec l h ps' vs k p v after H' Hp Hlen) as (l' & h' & -> & Hins). exists l', h'. split; [done|].
      by apply (post_inserted h0 l h l' h' ps').
    + rewrite Hi. exists l, h. split; [done|]. by apply post_unchanged.
  - destruct (listIndex_owned _ _ _ _ _ Ho Hok) as (ps' & H' & Hnew' & Hfr' & Hi).
    destruct (index_pos (length vs) index) as [k|].
    + destruct Hi as (p & w & -> & Hp & Hw & _). cbn [option_bind mbind]. rewrite Hw.
      destruct (post_deleted h0 l h ps' vs k p w H' Hnew' Hfr' Hp Hw) as (l' & h' & -> & Hpost). by exists l', h'.
    + rewrite Hi. exists l, h. split; [done|]. by apply post_unchanged.
  - destruct (post_rotated h0 l h vs Ho) as (l' & h' & -> & Hpost). by exists l', h'.
  - destruct (listIndex_owned _ _ _ _ _ Ho Hok) as (ps' & _ & _ & _ & Hi). exists l, h.
    split; [|by apply post_unchanged]. destruct (index_pos (length vs) index) as [k|].
    + destruct Hi as (p & w & -> & _ & Hw & Hval). cbn [option_bind mbind]. rewrite Hval. cbn. by rewrite Hw.
    + by rewrite Hi.
  - destruct (search_owned same h0 l h vs key Ho) as (n & -> & Hn). exists l, h. cbn [option_bind mbind]. rewrite Hn.
    split; [done|]. by apply post_unchanged.
Qed.

Lemma spec_op_length found op vs : (length (spec_op found op vs).1.1 <= S (length vs))%nat.
Proof.
  destruct op; cbn; try lia.
  - rewrite length_app. cbn. lia.
  - destruct (index_pos _ _) as [k|]; cbn; [|lia]. rewrite length_app. cbn [length]. rewrite length_take, length_drop. lia.
  - destruct (index_pos _ _) as [k|] eqn:Hk; cbn; [|lia]. rewrite length_delete; [lia|].
    apply lookup_lt_is_Some_2. by eapply index_pos_lt.
  - destruct (last vs); cbn; [|lia]. rewrite length_take. lia.
Qed.

Lemma run_ops_spec same h0 ops : forall l h vs,
  owns h0 l h vs -> Forall op_ok ops -> Z.of_nat (length vs) + Z.of_nat (length ops) < 2 ^ 64 - 1 ->
  let '(vs', fd, rs) := spec_ops (found_by same l) ops vs in
  exists l' h', run_ops same ops l h = Some (l', h', rs) /\ owns h0 l' h' vs' /\ same_methods l l' /\
    freed h' = (match free l with Some _ => reverse fd | None => [] end) ++ freed h.
Proof.
  induction ops as [|op ops IH]; intros l h vs Ho Hok Hb; cbn [spec_ops run_ops].
  { exists l, h. split; [done|]. split; [done|]. split; [done|]. by destruct (free l). }
  apply Forall_cons in Hok as [Hop Hok]. cbn [length] in Hb. pose proof (spec_op_length (found_by same l) op vs) as Hlen.
  destruct (run_op_spec same h0 op l h vs Ho Hop) as (l1 & h1 & E & Hpost); [lia|]. rewrite E.
  destruct (spec_op (found_by same l) op vs) as [[vs1 fd1] r1]. cbn in Hlen. destruct Hpost as (Ho1 & Hsm1 & Hfd1).
  cbn [option_bind mbind snd]. specialize (IH l1 h1 vs1 Ho1 Hok).
  assert (found_by same l1 = found_by same l) as Ef by (unfold found_by; by destruct Hsm1 as (_ & _ & ->)).
  rewrite Ef in IH. destruct (spec_ops (found_by same l) ops vs1) as [[vs2 fd2] rs2].
  destruct IH as (l2 & h2 & -> & Ho2 & Hsm2 & Hfd2); [lia|]. cbn [option_bind mbind]. exists l2, h2. split; [done|].
  split; [done|]. split; [by eapply same_methods_trans|]. rewrite Hfd2, Hfd1. destruct Hsm1 as (_ & -> & _).
  destruct (free l); [|done]. by rewrite reverse_app, <-app_assoc.
Qed.

(** A new list whose methods have been set. *)
Definition new_list (d : option (V -> option V)) (f : option (V -> unit)) (m : option (V -> V -> bool)) : list_ V :=
  let l : list_ V := listCreate in List (head l) (tail l) d f m (len l).

(** C20: a list built by any sequence of operations is a sequence: starting
    from [listCreate] in any heap, every operation only touches allocated
    nodes, the results (the values found by [listIndex] and
    [listSearchKey]) are those of the same operations on sequences, the
    nodes reachable both ways are exactly that sequence, [free] was called,
    when it is set, once on each value removed and in order, every removed node has been
    returned to the heap, and nothing else in the heap changed. *)
Theorem list_refines_sequence same h0 d f m ops :
  Forall op_ok ops -> Z.of_nat (length ops) < 2 ^ 64 - 1 ->
  let l := new_list d f m in
  let '(vs, fd, rs) := spec_ops (found_by same l) ops [] in
  exists l' h', run_ops same ops l h0 = Some (l', h', rs) /\ owns h0 l' h' vs /\ same_methods l l' /\
    freed h' = (match f with Some _ => reverse fd | None => [] end) ++ freed h0.
Proof.
  intros Hok Hb l. apply (run_ops_spec same h0 ops l h0 []); [|done|cbn; lia].
  exists []. split; [constructor; cbn; try done; by constructor|]. split; [by intros q ?%not_elem_of_nil|done].
Qed.

(** The client loop [while ((ln = listNext(&li))) ...] that deletes some
    of the nodes it is given visits every value exactly once, in the order
    of the list from the head or from the tail, never touches a freed node,
    and leaves the values it kept, in order; it ends within one step per
    node and one more. *)
Theorem iterate_del_spec (del : V -> bool) l h ps vs fuel :
  list_rep l h ps vs -> (length ps < fuel)%nat ->
  let keep := filter (fun v => del v <> true) vs in
  (exists l' h', iterate_del del fuel l h (listRewind l) = Some (vs, l', h') /\ iter_post del l h l' h' ps vs keep) /\
  (exists l' h', iterate_del del fuel l h (listRewindTail l) = Some (reverse vs, l', h') /\
     iter_post del l h l' h' ps (reverse vs) keep).
Proof.
  intros H Hf keep. split.
  - unfold listRewind. rewrite (lr_head _ _ _ _ H). apply (iterate_fwd del fuel l h [] ps [] vs H); done.
  - unfold listRewindTail. rewrite (rep_last _ _ _ _ H). pose proof (lr_nodes _ _ _ _ H) as [Hl _].
    rewrite <-(app_nil_r ps), <-(app_nil_r vs) in H. destruct (iterate_bwd del fuel l h ps [] vs [] H Hl Hf) as (l' & h' & E & Hpost).
    rewrite !app_nil_r in Hpost. by exists l', h'.
Qed.

(** [listDup] either returns a new list of the copies of the values, in
    fresh nodes, with the original and the rest of the heap unchanged; or,
    when the [dup] method fails on some value, returns null with every node
    it had allocated released. *)
Theorem listDup_copies l h ps vs :
  list_rep l h ps vs ->
  exists r h', listDup l h = Some (r, h') /\
    match r with
    | Some copy => exists vs', mapM (dup_val l) vs = Some vs' /\ owns h copy h' vs' /\ same_methods l copy /\
                   freed h' = freed h /\ list_rep l h' ps vs
    | None => mapM (dup_val l) vs = None /\ (forall q, nodes h' !! q = nodes h !! q)
    end.
Proof.
  intros H. destruct (listDup_spec l h ps vs H) as ([copy|] & h' & E & Hr); (eexists _, _; split; [exact E|]).
  - destruct Hr as (psc & vsc & Hvs & Hrc & Hsm & Hfd & Hnew & Hfr). exists vsc. split; [done|].
    split; [by exists psc|]. split; [done|]. split; [done|]. destruct H as [Hnd Hh Ht Hlen Hb Hrep]. constructor; try done.
    eapply rep_nodes_frame; [exact Hrep|exact Hfr|]. intros q Hq Hin. apply list_elem_of_lookup in Hin as [i Hi].
    destruct (rep_lookup _ _ _ _ _ Hrep Hi) as (v & _ & Hm). by rewrite Hnew in Hm.
  - destruct Hr as (Hvs & Hn & _). done.
Qed.
End Spec.
Arguments list_op : clear implicits.

(** ** Instances *)

Definition example_heap : heap Z :=
  Heap {[ 5%positive := ListNode None (Some 2%positive) 10;
          2%positive := ListNode (Some 5%positive) (Some 9%positive) 20;
          9%positive := ListNode (Some 2%positive) None 30 ]} [].

Definition example_list : list_ Z :=
  List (Some 5%positive) (Some 9%positive) (Some (fun v => if v =? 40 then None else Some (v + 1))) (Some (fun _ => ()))
    None 3.

Lemma example_rep : list_rep example_list example_heap [5; 2; 9]%positive [10; 20; 30].
Proof.
  constructor; try done; [repeat constructor; set_solver|]. split; [done|].
  intros i p v Hp Hv. destruct i as [|[|[|i]]]; cbn in Hp, Hv; try done; injection Hp as <-; injection Hv as <-; reflexivity.
Defined.

Definition example_ops : list (list_op Z) :=
  [OpAddTail 1; OpAddTail 2; OpAddHead 0; OpInsert (-1) 7 false; OpRotate; OpIndex 1; OpDel (-1); OpSearch 1; OpDel 9].

Lemma list_refines_sequence_witness :
  spec_ops Z.eqb example_ops [] = ([2; 0; 1], [7], [None; None; None; None; None; Some 0; None; Some 1; None]) /\
  exists l' h', run_ops Z.eqb example_ops (new_list None (Some (fun _ => ())) None) example_heap
    = Some (l', h', [None; None; None; None; None; Some 0; None; Some 1; None]) /\
    owns example_heap l' h' [2; 0; 1] /\ freed h' = [7].
Proof.
  pose proof (list_refines_sequence Z.eqb example_heap None (Some (fun _ => ())) None example_ops) as H.
  cbv zeta in H. set (same := found_by Z.eqb _) in H. assert (spec_ops same example_ops []
    = ([2; 0; 1], [7], [None; None; None; None; None; Some 0; None; Some 1; None])) as E by reflexivity.
  split; [reflexivity|]. rewrite E in H. destruct H as (l' & h' & Hrun & Ho & _ & Hf).
  - repeat constructor; cbn; lia.
  - cbn. lia.
  - exists l', h'. split; [exact Hrun|]. split; [exact Ho|exact Hf].
Defined.

Lemma iterate_del_witness :
  (exists l' h', iterate_del (fun v => v =? 20) 4 example_list example_heap (listRewind example_list)
    = Some ([10; 20; 30], l', h') /\ freed h' = [20]) /\
  (exists l' h', iterate_del (fun v => v <? 25) 4 example_list example_heap (listRewindTail example_list)
    = Some ([30; 20; 10], l', h') /\ freed h' = [10; 20]).
Proof.
  split.
  - destruct (iterate_del_spec (fun v => v =? 20) _ _ _ _ 4 example_rep) as [(l' & h' & E & ps & _ & _ & Hf & _) _]; [cbn; lia|].
    by exists l', h'.
  - destruct (iterate_del_spec (fun v => v <? 25) _ _ _ _ 4 example_rep) as [_ (l' & h' & E & ps & _ & _ & Hf & _)]; [cbn; lia|].
    by exists l', h'.
Defined.

Lemma listDup_witness :
  exists copy h', listDup example_list example_heap = Some (Some copy, h') /\ owns example_heap copy h' [11; 21; 31].
Proof.
  destruct (listDup_copies _ _ _ _ example_rep) as ([copy|] & h' & E & Hr).
  - destruct Hr as (vs & Hvs & Ho & _). injection Hvs as <-. by exists copy, h'.
  - destruct Hr as [Hr _]. discriminate.
Defined.
