(* ===== verification/Ziplist.v ===== *)
(** Ziplist: the packed lists of [ziplist.c], on a block of bytes.  A pointer
    into the list is an offset in the block. *)
From S2P Require Import Prelude Endian Util.

Definition ZIP_END : Z := 255.
Definition ZIP_BIGLEN : Z := 254.
Definition ZIP_STR_MASK : Z := 0xc0.
Definition ZIP_STR_06B : Z := Z.shiftl 0 6.
Definition ZIP_STR_14B : Z := Z.shiftl 1 6.
Definition ZIP_STR_32B : Z := Z.shiftl 2 6.
Definition ZIP_INT_16B : Z := Z.lor 0xc0 (Z.shiftl 0 4).
Definition ZIP_INT_32B : Z := Z.lor 0xc0 (Z.shiftl 1 4).
Definition ZIP_INT_64B : Z := Z.lor 0xc0 (Z.shiftl 2 4).
Definition ZIP_INT_24B : Z := Z.lor 0xc0 (Z.shiftl 3 4).
Definition ZIP_INT_8B : Z := 0xfe.
Definition ZIP_INT_IMM_MASK : Z := 0x0f.
Definition ZIP_INT_IMM_MIN : Z := 0xf1.
Definition ZIP_INT_IMM_MAX : Z := 0xfd.
Definition INT24_MAX : Z := 0x7fffff.
Definition INT24_MIN : Z := - INT24_MAX - 1.
Definition UINT16_MAX : Z := 65535.
Definition UCHAR_MAX : Z := 255.

Definition ZIP_IS_STR (enc : Z) : bool := Z.land enc ZIP_STR_MASK <? ZIP_STR_MASK.

Definition ZIPLIST_HEADER_SIZE : Z := 4 * 2 + 2.
Definition ZIPLIST_HEAD : Z := 0.
Definition ZIPLIST_TAIL : Z := 1.

Record zlentry := Zlentry {
  prevrawlensize : Z; prevrawlen : Z; lensize : Z; len : Z; headersize : Z; encoding : Z; e_p : Z }.

Section Ops.
(** The host's byte order and the content of memory never written. *)
Context (be : bool) (junk : nat -> byte).
Implicit Types (zl s : list byte) (p : Z).

(** ** The header *)

(** [p[0]] *)
Definition at_ zl p : option Z := b ← mem_read zl p 1; Some (le_val b).
(** [p[0] = v] *)
Definition put_byte zl p (v : Z) : option (list byte) := mem_write zl p [z2b v].

Definition ZIPLIST_BYTES zl : option Z := host_load be <$> mem_read zl 0 4.
Definition ZIPLIST_TAIL_OFFSET zl : option Z := host_load be <$> mem_read zl 4 4.
Definition ZIPLIST_LENGTH zl : option Z := host_load be <$> mem_read zl 8 2.
Definition set_bytes zl (v : Z) : option (list byte) := mem_write zl 0 (host_store be 4 v).
Definition set_tail_offset zl (v : Z) : option (list byte) := mem_write zl 4 (host_store be 4 v).
Definition set_zllen zl (v : Z) : option (list byte) := mem_write zl 8 (host_store be 2 v).

Definition ZIPLIST_ENTRY_HEAD : Z := ZIPLIST_HEADER_SIZE.
Definition ZIPLIST_ENTRY_TAIL zl : option Z := t ← ZIPLIST_TAIL_OFFSET zl; Some (intrev32ifbe be t).
Definition ZIPLIST_ENTRY_END zl : option Z := b ← ZIPLIST_BYTES zl; Some (intrev32ifbe be b - 1).

(** [ZIPLIST_TAIL_OFFSET(zl) += v] through the byte order conversions. *)
Definition add_tail_offset zl (v : Z) : option (list byte) :=
  t ← ZIPLIST_TAIL_OFFSET zl; set_tail_offset zl (intrev32ifbe be (u32 (intrev32ifbe be t + v))).

Definition ZIPLIST_INCR_LENGTH zl (incr : Z) : option (list byte) :=
  l ← ZIPLIST_LENGTH zl;
  if l <? UINT16_MAX then set_zllen zl (intrev16ifbe be (u16 (intrev16ifbe be l + incr))) else Some zl.

(** ** Entries *)

Definition zipIntSize (enc : Z) : Z :=
  if enc =? ZIP_INT_8B then 1 else if enc =? ZIP_INT_16B then 2 else if enc =? ZIP_INT_24B then 3
  else if enc =? ZIP_INT_32B then 4 else if enc =? ZIP_INT_64B then 8 else 0.

Definition ZIP_ENTRY_ENCODING zl p : option Z :=
  e ← at_ zl p; Some (if e <? ZIP_STR_MASK then Z.land e ZIP_STR_MASK else e).

(** The bytes stored for a length. *)
Definition length_buf (enc rawlen : Z) : list Z :=
  if ZIP_IS_STR enc then
    if rawlen <=? 0x3f then [Z.lor ZIP_STR_06B rawlen]
    else if rawlen <=? 0x3fff then
      [Z.lor ZIP_STR_14B (Z.land (Z.shiftr rawlen 8) 0x3f); Z.land rawlen 0xff]
    else
      [ZIP_STR_32B; Z.land (Z.shiftr rawlen 24) 0xff; Z.land (Z.shiftr rawlen 16) 0xff;
       Z.land (Z.shiftr rawlen 8) 0xff; Z.land rawlen 0xff]
  else [enc].

(** [p] is [None] for the null pointer; the length is returned. *)
Definition zipEncodeLength zl (p : option Z) (enc rawlen : Z) : option (list byte * Z) :=
  let buf := length_buf enc rawlen in
  zl ← (match p with None => Some zl | Some p => mem_write zl p (z2b <$> buf) end);
  Some (zl, Z.of_nat (length buf)).

Definition ZIP_DECODE_LENGTH zl p : option (Z * Z * Z) :=
  enc ← ZIP_ENTRY_ENCODING zl p;
  if enc <? ZIP_STR_MASK then
    if enc =? ZIP_STR_06B then b ← at_ zl p; Some (enc, 1, Z.land b 0x3f)
    else if enc =? ZIP_STR_14B then
      b0 ← at_ zl p; b1 ← at_ zl (p + 1); Some (enc, 2, Z.lor (Z.shiftl (Z.land b0 0x3f) 8) b1)
    else if enc =? ZIP_STR_32B then
      b1 ← at_ zl (p + 1); b2 ← at_ zl (p + 2); b3 ← at_ zl (p + 3); b4 ← at_ zl (p + 4);
      top ← chk32 (Z.shiftl b1 24);
      Some (enc, 5, Z.lor (Z.lor (Z.lor top (Z.shiftl b2 16)) (Z.shiftl b3 8)) b4)
    else None
  else Some (enc, 1, zipIntSize enc).

Definition zipPrevEncodeLength zl (p : option Z) (len : Z) : option (list byte * Z) :=
  match p with
  | None => Some (zl, if len <? ZIP_BIGLEN then 1 else 4 + 1)
  | Some p =>
    if len <? ZIP_BIGLEN then zl ← put_byte zl p len; Some (zl, 1)
    else
      zl ← put_byte zl p ZIP_BIGLEN;
      zl ← mem_write zl (p + 1) (memrev32ifbe be (host_store be 4 len));
      Some (zl, 1 + 4)
  end.

Definition zipPrevEncodeLengthForceLarge zl (p : option Z) (len : Z) : option (list byte) :=
  match p with
  | None => Some zl
  | Some p =>
    zl ← put_byte zl p ZIP_BIGLEN;
    mem_write zl (p + 1) (memrev32ifbe be (host_store be 4 len))
  end.

Definition ZIP_DECODE_PREVLENSIZE zl p : option Z :=
  b ← at_ zl p; Some (if b <? ZIP_BIGLEN then 1 else 5).

Definition ZIP_DECODE_PREVLEN zl p : option (Z * Z) :=
  size ← ZIP_DECODE_PREVLENSIZE zl p;
  if size =? 1 then l ← at_ zl p; Some (size, l)
  else l ← mem_read zl (p + 1) 4; Some (size, host_load be (memrev32ifbe be l)).

Definition zipPrevLenByteDiff zl p (len : Z) : option Z :=
  size ← ZIP_DECODE_PREVLENSIZE zl p;
  '(_, need) ← zipPrevEncodeLength zl None len;
  Some (s32 (u32 (need - size))).

Definition zipRawEntryLength zl p : option Z :=
  size ← ZIP_DECODE_PREVLENSIZE zl p;
  '(_, lensize, len) ← ZIP_DECODE_LENGTH zl (p + size);
  Some (u32 (size + lensize + len)).

(** [None] when the entry is not an integer in range; the value and its
    encoding. *)
Definition int_encoding (value : Z) : Z :=
  if (0 <=? value) && (value <=? 12) then ZIP_INT_IMM_MIN + value
  else if (- 2 ^ 7 <=? value) && (value <=? 2 ^ 7 - 1) then ZIP_INT_8B
  else if (- 2 ^ 15 <=? value) && (value <=? 2 ^ 15 - 1) then ZIP_INT_16B
  else if (INT24_MIN <=? value) && (value <=? INT24_MAX) then ZIP_INT_24B
  else if (- 2 ^ 31 <=? value) && (value <=? 2 ^ 31 - 1) then ZIP_INT_32B
  else ZIP_INT_64B.

Definition zipTryEncoding (entry : list byte) (entrylen : Z) : option (option (Z * Z)) :=
  if (32 <=? entrylen) || (entrylen =? 0) then Some None
  else
    r ← string2ll entry entrylen;
    Some (match r with Some value => Some (value, int_encoding value) | None => None end).

(** [value<<8] is the product, truncated. *)
Definition zipSaveInteger zl p (value enc : Z) : option (list byte) :=
  if enc =? ZIP_INT_8B then put_byte zl p value
  else if enc =? ZIP_INT_16B then mem_write zl p (memrev16ifbe be (host_store be 2 value))
  else if enc =? ZIP_INT_24B then
    mem_write zl p (drop 1 (memrev32ifbe be (host_store be 4 (s32 (value * 256)))))
  else if enc =? ZIP_INT_32B then mem_write zl p (memrev32ifbe be (host_store be 4 value))
  else if enc =? ZIP_INT_64B then mem_write zl p (memrev64ifbe be (host_store be 8 value))
  else if (ZIP_INT_IMM_MIN <=? enc) && (enc <=? ZIP_INT_IMM_MAX) then Some zl
  else None.

Definition zipLoadInteger zl p (enc : Z) : option Z :=
  if enc =? ZIP_INT_8B then b ← at_ zl p; Some (s8 b)
  else if enc =? ZIP_INT_16B then i16 ← mem_read zl p 2; Some (s16 (host_load be (memrev16ifbe be i16)))
  else if enc =? ZIP_INT_32B then i32 ← mem_read zl p 4; Some (s32 (host_load be (memrev32ifbe be i32)))
  else if enc =? ZIP_INT_24B then
    i24 ← mem_read zl p 3;
    Some (Z.shiftr (s32 (host_load be (memrev32ifbe be (z2b 0 :: i24)))) 8)
  else if enc =? ZIP_INT_64B then i64 ← mem_read zl p 8; Some (s64 (host_load be (memrev64ifbe be i64)))
  else if (ZIP_INT_IMM_MIN <=? enc) && (enc <=? ZIP_INT_IMM_MAX) then Some (Z.land enc ZIP_INT_IMM_MASK - 1)
  else None.

Definition zipEntry zl p : option zlentry :=
  '(size, prev) ← ZIP_DECODE_PREVLEN zl p;
  '(enc, lensize, len) ← ZIP_DECODE_LENGTH zl (p + size);
  Some (Zlentry size prev lensize len (u32 (size + lensize)) enc p).

(** ** The whole list *)

Definition ziplistNew : option (list byte) :=
  let bytes := ZIPLIST_HEADER_SIZE + 1 in
  let zl := map junk (seq 0 (Z.to_nat bytes)) in
  zl ← set_bytes zl (intrev32ifbe be bytes);
  zl ← set_tail_offset zl (intrev32ifbe be ZIPLIST_HEADER_SIZE);
  zl ← set_zllen zl 0;
  put_byte zl (bytes - 1) ZIP_END.

Definition ziplistResize zl (len : Z) : option (list byte) :=
  let zl := mem_resize junk zl len in
  zl ← set_bytes zl (intrev32ifbe be len);
  put_byte zl (len - 1) ZIP_END.

(** [while (p[0] != ZIP_END)] of [__ziplistCascadeUpdate] *)
Fixpoint cascade_loop (fuel : nat) zl p (curlen : Z) : option (list byte) :=
  match fuel with
  | O => None
  | S fuel =>
    b ← at_ zl p;
    if b =? ZIP_END then Some zl
    else
      cur ← zipEntry zl p;
      let rawlen := u32 (headersize cur + len cur) in
      '(_, rawlensize) ← zipPrevEncodeLength zl None rawlen;
      b ← at_ zl (p + rawlen);
      if b =? ZIP_END then Some zl
      else
        next ← zipEntry zl (p + rawlen);
        if prevrawlen next =? rawlen then Some zl
        else if prevrawlensize next <? rawlensize then
          let extra := rawlensize - prevrawlensize next in
          zl ← ziplistResize zl (u32 (curlen + extra));
          let np := p + rawlen in
          t ← ZIPLIST_TAIL_OFFSET zl;
          zl ← (if intrev32ifbe be t =? np then Some zl else add_tail_offset zl extra);
          zl ← memmove zl (np + rawlensize) (np + prevrawlensize next)
                 (u64 (curlen - np - prevrawlensize next - 1));
          '(zl, _) ← zipPrevEncodeLength zl (Some np) rawlen;
          cascade_loop fuel zl (p + rawlen) (curlen + extra)
        else if rawlensize <? prevrawlensize next then
          zipPrevEncodeLengthForceLarge zl (Some (p + rawlen)) rawlen
        else
          '(zl, _) ← zipPrevEncodeLength zl (Some (p + rawlen)) rawlen; Some zl
  end.

(** An iteration moves on by an entry, so the block bounds their number. *)
Definition __ziplistCascadeUpdate zl p : option (list byte) :=
  b ← ZIPLIST_BYTES zl;
  cascade_loop (S (length zl)) zl p (intrev32ifbe be b).

(** [for (i = 0; p[0] != ZIP_END && i < num; i++)]: the pointer and [deleted] *)
Fixpoint skip_loop (fuel : nat) zl p (num i : Z) : option (Z * Z) :=
  match fuel with
  | O => None
  | S fuel =>
    b ← at_ zl p;
    if negb (b =? ZIP_END) && (i <? num) then
      n ← zipRawEntryLength zl p; skip_loop fuel zl (p + n) num (u32 (i + 1))
    else Some (p, i)
  end.

(** The part that moves the entries after the deleted ones, which end at [p],
    and sets the tail offset. *)
Definition delete_move zl p (first : zlentry) (totlen : Z) : option (list byte * Z) :=
  b ← at_ zl p;
  if negb (b =? ZIP_END) then
    nextdiff ← zipPrevLenByteDiff zl p (prevrawlen first);
    let p := p - nextdiff in
    '(zl, _) ← zipPrevEncodeLength zl (Some p) (prevrawlen first);
    zl ← add_tail_offset zl (- totlen);
    tail ← zipEntry zl p;
    b ← at_ zl (p + u32 (headersize tail + len tail));
    zl ← (if negb (b =? ZIP_END) then add_tail_offset zl nextdiff else Some zl);
    bytes ← ZIPLIST_BYTES zl;
    zl ← memmove zl (e_p first) p (u64 (intrev32ifbe be bytes - p - 1));
    Some (zl, nextdiff)
  else
    zl ← set_tail_offset zl (intrev32ifbe be (u32 (e_p first - prevrawlen first)));
    Some (zl, 0).

Definition __ziplistDelete zl p (num : Z) : option (list byte) :=
  first ← zipEntry zl p;
  '(p, deleted) ← skip_loop (S (length zl)) zl p num 0;
  let totlen := u32 (p - e_p first) in
  if 0 <? totlen then
    '(zl, nextdiff) ← delete_move zl p first totlen;
    let offset := e_p first in
    bytes ← ZIPLIST_BYTES zl;
    zl ← ziplistResize zl (u32 (intrev32ifbe be bytes - totlen + nextdiff));
    zl ← ZIPLIST_INCR_LENGTH zl (u32 (- deleted));
    if negb (nextdiff =? 0) then __ziplistCascadeUpdate zl offset else Some zl
  else Some zl.

(** The length of the entry before [p]. *)
Definition insert_prevlen zl p : option Z :=
  b ← at_ zl p;
  if negb (b =? ZIP_END) then entry ← zipEntry zl p; Some (prevrawlen entry)
  else
    ptail ← ZIPLIST_ENTRY_TAIL zl;
    b ← at_ zl ptail;
    if negb (b =? ZIP_END) then zipRawEntryLength zl ptail else Some 0.

(** The part that makes room for [reqlen] bytes at [p]. *)
Definition insert_room zl p (curlen reqlen nextdiff : Z) : option (list byte) :=
  zl ← ziplistResize zl (u32 (curlen + reqlen + nextdiff));
  b ← at_ zl p;
  zl ← (if negb (b =? ZIP_END) then
          zl ← memmove zl (p + reqlen) (p - nextdiff) (u64 (curlen - p - 1 + nextdiff));
          '(zl, _) ← zipPrevEncodeLength zl (Some (p + reqlen)) (u32 reqlen);
          zl ← add_tail_offset zl reqlen;
          tail ← zipEntry zl (p + reqlen);
          b ← at_ zl (p + u64 (reqlen + headersize tail + len tail));
          if negb (b =? ZIP_END) then add_tail_offset zl nextdiff else Some zl
        else set_tail_offset zl (intrev32ifbe be (u32 p)));
  if negb (nextdiff =? 0) then __ziplistCascadeUpdate zl (p + reqlen) else Some zl.

Definition __ziplistInsert zl p s (slen : Z) : option (list byte) :=
  bytes ← ZIPLIST_BYTES zl;
  let curlen := intrev32ifbe be bytes in
  prevlen ← insert_prevlen zl p;
  r ← zipTryEncoding s slen;
  let '(value, encoding) := match r with Some (v, e) => (v, e) | None => (123456789, 0) end in
  let reqlen := match r with Some _ => zipIntSize encoding | None => slen end in
  '(_, n1) ← zipPrevEncodeLength zl None prevlen;
  '(_, n2) ← zipEncodeLength zl None encoding slen;
  let reqlen := reqlen + n1 + n2 in
  b ← at_ zl p;
  nextdiff ← (if negb (b =? ZIP_END) then zipPrevLenByteDiff zl p (u32 reqlen) else Some 0);
  zl ← insert_room zl p curlen reqlen nextdiff;
  '(zl, n) ← zipPrevEncodeLength zl (Some p) prevlen;
  let p := p + n in
  '(zl, n) ← zipEncodeLength zl (Some p) encoding slen;
  let p := p + n in
  zl ← (if ZIP_IS_STR encoding then src ← mem_read s 0 slen; mem_write zl p src
        else zipSaveInteger zl p value encoding);
  ZIPLIST_INCR_LENGTH zl 1.

Definition ziplistPush zl s (slen where_ : Z) : option (list byte) :=
  p ← (if where_ =? ZIPLIST_HEAD then Some ZIPLIST_ENTRY_HEAD else ZIPLIST_ENTRY_END zl);
  __ziplistInsert zl p s slen.

(** [while (entry.prevrawlen > 0 && index--)]: the pointer and [index] *)
Fixpoint index_back (fuel : nat) zl p (index : Z) : option (Z * Z) :=
  match fuel with
  | O => None
  | S fuel =>
    entry ← zipEntry zl p;
    if 0 <? prevrawlen entry then
      if index =? 0 then Some (p, index - 1)
      else index_back fuel zl (p - prevrawlen entry) (index - 1)
    else Some (p, index)
  end.

(** [while (p[0] != ZIP_END && index--)] *)
Fixpoint index_fwd (fuel : nat) zl p (index : Z) : option (Z * Z) :=
  match fuel with
  | O => None
  | S fuel =>
    b ← at_ zl p;
    if b =? ZIP_END then Some (p, index)
    else if index =? 0 then Some (p, index - 1)
    else n ← zipRawEntryLength zl p; index_fwd fuel zl (p + n) (index - 1)
  end.

(** The result is [None] for NULL. *)
Definition ziplistIndex zl (index : Z) : option (option Z) :=
  '(p, index) ←
    (if index <? 0 then
       index ← chk32 (- index); let index := index - 1 in
       p ← ZIPLIST_ENTRY_TAIL zl;
       b ← at_ zl p;
       if negb (b =? ZIP_END) then index_back (S (length zl)) zl p index else Some (p, index)
     else index_fwd (S (length zl)) zl ZIPLIST_ENTRY_HEAD index);
  b ← at_ zl p;
  Some (if (b =? ZIP_END) || (0 <? index) then None else Some p).

Definition ziplistNext zl p : option (option Z) :=
  b ← at_ zl p;
  if b =? ZIP_END then Some None
  else
    n ← zipRawEntryLength zl p;
    b ← at_ zl (p + n);
    Some (if b =? ZIP_END then None else Some (p + n)).

Definition ziplistPrev zl p : option (option Z) :=
  b ← at_ zl p;
  if b =? ZIP_END then
    p ← ZIPLIST_ENTRY_TAIL zl;
    b ← at_ zl p;
    Some (if b =? ZIP_END then None else Some p)
  else if p =? ZIPLIST_ENTRY_HEAD then Some None
  else
    entry ← zipEntry zl p;
    if 0 <? prevrawlen entry then Some (Some (p - prevrawlen entry)) else None.

(** What [ziplistGet] stores: the place and length of a string, or an integer. *)
Inductive zget := GetStr (sstr slen : Z) | GetInt (sval : Z).

Definition ziplistGet zl (p : option Z) : option (option zget) :=
  match p with
  | None => Some None
  | Some p =>
    b ← at_ zl p;
    if b =? ZIP_END then Some None
    else
      entry ← zipEntry zl p;
      if ZIP_IS_STR (encoding entry) then Some (Some (GetStr (p + headersize entry) (len entry)))
      else v ← zipLoadInteger zl (p + headersize entry) (encoding entry); Some (Some (GetInt v))
  end.

Definition ziplistInsert zl p s (slen : Z) : option (list byte) := __ziplistInsert zl p s slen.

(** The offset of [*p] does not change. *)
Definition ziplistDelete zl p : option (list byte * Z) := zl ← __ziplistDelete zl p 1; Some (zl, p).

Definition ziplistDeleteRange zl (index num : Z) : option (list byte) :=
  p ← ziplistIndex zl (s32 index);
  match p with None => Some zl | Some p => __ziplistDelete zl p num end.

Definition ziplistCompare zl p (sstr : list byte) (slen : Z) : option bool :=
  b ← at_ zl p;
  if b =? ZIP_END then Some false
  else
    entry ← zipEntry zl p;
    if ZIP_IS_STR (encoding entry) then
      if len entry =? slen then
        a ← mem_read zl (p + headersize entry) slen; c ← mem_read sstr 0 slen; Some (memcmp a c =? 0)
      else Some false
    else
      r ← zipTryEncoding sstr slen;
      match r with
      | Some (sval, _) =>
        zval ← zipLoadInteger zl (p + headersize entry) (encoding entry); Some (zval =? sval)
      | None => Some false
      end.

(** [while (p[0] != ZIP_END)] of [ziplistFind] *)
Fixpoint find_loop (fuel : nat) zl p (vstr : list byte) (vlen skip skipcnt vencoding vll : Z) : option (option Z) :=
  match fuel with
  | O => None
  | S fuel =>
    b ← at_ zl p;
    if b =? ZIP_END then Some None
    else
      size ← ZIP_DECODE_PREVLENSIZE zl p;
      '(enc, lensize, len) ← ZIP_DECODE_LENGTH zl (p + size);
      let q := p + size + lensize in
      if skipcnt =? 0 then
        if ZIP_IS_STR enc then
          eq ← (if len =? vlen then
                  a ← mem_read zl q vlen; c ← mem_read vstr 0 vlen; Some (memcmp a c =? 0)
                else Some false);
          if eq : bool then Some (Some p) else find_loop fuel zl (q + len) vstr vlen skip skip vencoding vll
        else
          '(vencoding, vll) ←
            (if vencoding =? 0 then
               r ← zipTryEncoding vstr vlen;
               Some (match r with Some (v, e) => (e, v) | None => (UCHAR_MAX, vll) end)
             else Some (vencoding, vll));
          if vencoding =? 0 then None
          else if negb (vencoding =? UCHAR_MAX) then
            ll ← zipLoadInteger zl q enc;
            if ll =? vll then Some (Some p) else find_loop fuel zl (q + len) vstr vlen skip skip vencoding vll
          else find_loop fuel zl (q + len) vstr vlen skip skip vencoding vll
      else find_loop fuel zl (q + len) vstr vlen skip (skipcnt - 1) vencoding vll
  end.

Definition ziplistFind zl p (vstr : list byte) (vlen skip : Z) : option (option Z) :=
  find_loop (S (length zl)) zl p vstr vlen (s32 skip) 0 0 0.

(** The loop of [ziplistLen] up to [ZIP_END]. *)
Fixpoint len_loop (fuel : nat) zl p (len : Z) : option Z :=
  match fuel with
  | O => None
  | S fuel =>
    b ← at_ zl p;
    if b =? ZIP_END then Some len
    else n ← zipRawEntryLength zl p; len_loop fuel zl (p + n) (u32 (len + 1))
  end.

(** The length, and the list with the length stored again when it fits. *)
Definition ziplistLen zl : option (Z * list byte) :=
  l ← ZIPLIST_LENGTH zl;
  if intrev16ifbe be l <? UINT16_MAX then Some (intrev16ifbe be l, zl)
  else
    len ← len_loop (S (length zl)) zl ZIPLIST_HEADER_SIZE 0;
    if len <? UINT16_MAX then zl ← set_zllen zl (intrev16ifbe be len); Some (len, zl)
    else Some (len, zl).

Definition ziplistBlobLen zl : option Z := b ← ZIPLIST_BYTES zl; Some (intrev32ifbe be b).
End Ops.
