(* ===== verification/ZiplistProofs.v ===== *)
(** ZiplistProofs: the encodings of integers and lengths, the layout of a
    ziplist, its entries as lists of bytes, and the decoding of an entry in
    place. *)
From S2P Require Import Prelude Endian Util UtilNum Ziplist.

(** ** Reading and writing in a context *)

Lemma mem_read_ctx pre m post off n bs :
  mem_read m off n = Some bs -> mem_read (pre ++ m ++ post) (Z.of_nat (length pre) + off) n = Some bs.
Proof.
  intros (m1 & m3 & -> & -> & ->)%mem_read_inv.
  rewrite <-!app_assoc, (app_assoc pre). apply mem_read_app; [rewrite length_app; lia|done].
Qed.

Lemma mem_write_inv m off bs m' :
  mem_write m off bs = Some m' -> exists m1 m2 m3, m = m1 ++ m2 ++ m3 /\ off = Z.of_nat (length m1) /\ length m2 = length bs /\ m' = m1 ++ bs ++ m3.
Proof.
  unfold mem_write. case_decide as Hd; [|done]. intros [= <-].
  exists (take (Z.to_nat off) m), (take (length bs) (drop (Z.to_nat off) m)), (drop (Z.to_nat off + length bs) m).
  rewrite <-drop_drop, !take_drop, !length_take, length_drop. split_and!; [done|lia|lia|done].
Qed.

Lemma mem_write_ctx pre m post off bs m' :
  mem_write m off bs = Some m' -> mem_write (pre ++ m ++ post) (Z.of_nat (length pre) + off) bs = Some (pre ++ m' ++ post).
Proof.
  intros (m1 & m2 & m3 & -> & -> & Hl & ->)%mem_write_inv.
  replace (pre ++ (m1 ++ m2 ++ m3) ++ post) with ((pre ++ m1) ++ m2 ++ (m3 ++ post)) by by rewrite <-!app_assoc.
  rewrite (mem_write_app (pre ++ m1)) by (rewrite ?length_app; lia). by rewrite <-!app_assoc.
Qed.

Lemma mem_read_0 m1 m2 n : n = Z.of_nat (length m1) -> mem_read (m1 ++ m2) 0 n = Some m1.
Proof. exact (mem_read_app [] m1 m2 0 n eq_refl). Qed.
Lemma mem_write_front m1 m2 bs : length bs = length m1 -> mem_write (m1 ++ m2) 0 bs = Some (bs ++ m2).
Proof. exact (mem_write_app [] m1 m2 0 bs eq_refl). Qed.

Lemma at_ctx pre m post p b : at_ m p = Some b -> at_ (pre ++ m ++ post) (Z.of_nat (length pre) + p) = Some b.
Proof.
  unfold at_. destruct (mem_read m p 1) as [bs|] eqn:E; [|done]. by rewrite (mem_read_ctx _ _ _ _ _ _ E).
Qed.

Lemma at_app pre b post p : p = Z.of_nat (length pre) -> at_ (pre ++ b :: post) p = Some (b2z b).
Proof.
  intros ->. unfold at_. rewrite (mem_read_app pre [b] post) by done. cbn. f_equal. lia.
Qed.

Lemma decode_ctx pre m post p r :
  ZIP_DECODE_LENGTH m p = Some r -> ZIP_DECODE_LENGTH (pre ++ m ++ post) (Z.of_nat (length pre) + p) = Some r.
Proof.
  unfold ZIP_DECODE_LENGTH, ZIP_ENTRY_ENCODING. destruct (at_ m p) as [e|] eqn:E0; [|done]. cbn [option_bind mbind].
  rewrite (at_ctx _ _ _ _ _ E0). cbn [option_bind mbind]. set (enc := if e <? ZIP_STR_MASK then _ else _).
  assert (forall i v, at_ m (p + i) = Some v -> at_ (pre ++ m ++ post) (Z.of_nat (length pre) + p + i) = Some v) as Hat
    by (intros i v Hi; rewrite <-Z.add_assoc; by apply at_ctx).
  destruct (enc <? ZIP_STR_MASK); [|done]. destruct (enc =? ZIP_STR_06B); [done|].
  destruct (enc =? ZIP_STR_14B); [|destruct (enc =? ZIP_STR_32B); [|done]].
  - destruct (at_ m (p + 1)) as [b1|] eqn:E1; [|done]. by rewrite (Hat _ _ E1).
  - destruct (at_ m (p + 1)) as [b1|] eqn:E1; [|done]. rewrite (Hat _ _ E1). cbn [option_bind mbind].
    destruct (at_ m (p + 2)) as [b2|] eqn:E2; [|done]. rewrite (Hat _ _ E2). cbn [option_bind mbind].
    destruct (at_ m (p + 3)) as [b3|] eqn:E3; [|done]. rewrite (Hat _ _ E3). cbn [option_bind mbind].
    destruct (at_ m (p + 4)) as [b4|] eqn:E4; [|done]. rewrite (Hat _ _ E4). done.
Qed.

(** An entry: whether the previous length takes 5 bytes, and the rest of its
    bytes. *)
Abbreviation ent := (bool * list byte)%type.

Section Layout.
Context (be : bool).
Implicit Types (b pre post : list byte) (prev : Z).

Lemma load_ctx pre m post p enc v :
  zipLoadInteger be m p enc = Some v -> zipLoadInteger be (pre ++ m ++ post) (Z.of_nat (length pre) + p) enc = Some v.
Proof.
  unfold zipLoadInteger.
  repeat match goal with |- context [if ?c then _ else _] => destruct c end; try done;
    [destruct (at_ m p) eqn:E; [|done]; by rewrite (at_ctx _ _ _ _ _ E)|..];
    match goal with |- context [mem_read m p ?n] => destruct (mem_read m p n) eqn:E; [|done]; by rewrite (mem_read_ctx _ _ _ _ _ _ E) end.
Qed.

(** ** Values *)

Inductive zval := ZStr (s : list byte) | ZInt (v : Z).

(** The value of the part of an entry after the previous length, when it is
    well formed. *)
Definition body_value b : option zval :=
  '(enc, ls, ln) ← ZIP_DECODE_LENGTH b 0;
  if decide (ls + ln = Z.of_nat (length b) /\ 0 <= ls /\ 0 <= ln) then
    if ZIP_IS_STR enc then s ← mem_read b ls ln; Some (ZStr s)
    else v ← zipLoadInteger be b ls enc; Some (ZInt v)
  else None.

Definition body_ok b : Prop := is_Some (body_value b).

Lemma body_ok_decode b : body_ok b -> exists enc ls ln, ZIP_DECODE_LENGTH b 0 = Some (enc, ls, ln) /\
  ls + ln = Z.of_nat (length b) /\ 0 <= ls /\ 0 <= ln.
Proof.
  intros [v Hv]. unfold body_value in Hv. destruct (ZIP_DECODE_LENGTH b 0) as [[[enc ls] ln]|]; [|done].
  cbn in Hv. case_decide as Hd; [|done]. by exists enc, ls, ln.
Qed.

(** ** Entries *)

Definition psize (big : bool) : Z := if big then 5 else 1.
Definition esize (e : ent) : Z := psize e.1 + Z.of_nat (length e.2).
Definition pbytes (big : bool) prev : list byte := if big then z2b ZIP_BIGLEN :: le_bytes 4 prev else [z2b prev].
Definition ebytes prev (e : ent) : list byte := pbytes e.1 prev ++ e.2.

Fixpoint image prev (es : list ent) : list byte :=
  match es with [] => [] | e :: es => ebytes prev e ++ image (esize e) es end.
Fixpoint lastsize prev (es : list ent) : Z := match es with [] => prev | e :: es => lastsize (esize e) es end.
Fixpoint total (es : list ent) : Z := match es with [] => 0 | e :: es => esize e + total es end.

Definition ent_ok prev (e : ent) : Prop := (e.1 = false -> prev < 254) /\ body_ok e.2.
Fixpoint ents_ok prev (es : list ent) : Prop :=
  match es with [] => True | e :: es => ent_ok prev e /\ ents_ok (esize e) es end.

Lemma length_pbytes big prev : Z.of_nat (length (pbytes big prev)) = psize big.
Proof. destruct big; cbn -[le_bytes]; rewrite ?length_le_bytes; lia. Qed.
Lemma length_ebytes prev e : Z.of_nat (length (ebytes prev e)) = esize e.
Proof. unfold ebytes, esize. rewrite length_app, Nat2Z.inj_add, length_pbytes. done. Qed.
Lemma length_image prev es : Z.of_nat (length (image prev es)) = total es.
Proof.
  revert prev. induction es as [|e es IH]; intros prev; [done|]. cbn [image total].
  by rewrite length_app, Nat2Z.inj_add, length_ebytes, IH.
Qed.
Lemma psize_range big : 1 <= psize big <= 5.
Proof. destruct big; cbn; lia. Qed.
Lemma esize_pos e : 1 <= esize e.
Proof. unfold esize. pose proof (psize_range e.1). lia. Qed.
Lemma total_nonneg es : Z.of_nat (length es) <= total es.
Proof. induction es as [|e es IH]; cbn [total length]; [lia|]. pose proof (esize_pos e). lia. Qed.

Lemma image_app prev l r : image prev (l ++ r) = image prev l ++ image (lastsize prev l) r.
Proof. revert prev. induction l as [|e l IH]; intros prev; [done|]. cbn [app image lastsize]. by rewrite IH, app_assoc. Qed.
Lemma lastsize_app prev l r : lastsize prev (l ++ r) = lastsize (lastsize prev l) r.
Proof. revert prev. induction l as [|e l IH]; intros prev; [done|]. apply IH. Qed.
Lemma total_app l r : total (l ++ r) = total l + total r.
Proof. induction l as [|e l IH]; [done|]. cbn [app total]. rewrite IH. lia. Qed.
Lemma ents_ok_app prev l r : ents_ok prev (l ++ r) <-> ents_ok prev l /\ ents_ok (lastsize prev l) r.
Proof. revert prev. induction l as [|e l IH]; intros prev; cbn [app ents_ok lastsize]; [tauto|]. rewrite IH. tauto. Qed.
Lemma lastsize_le prev l : 0 <= prev -> l = [] \/ lastsize prev l <= total l.
Proof.
  destruct l as [|e l]; [by left|]. right. cbn [lastsize total]. clear prev H. revert e.
  induction l as [|e' l IH]; intros e; cbn [lastsize total]; [lia|]. pose proof (IH e'). pose proof (esize_pos e). lia.
Qed.
Lemma lastsize_nonneg prev l : 0 <= prev -> 0 <= lastsize prev l.
Proof. revert prev. induction l as [|e l IH]; intros prev Hp; [done|]. apply IH. pose proof (esize_pos e). lia. Qed.

(** *** Reading an entry in place *)

Lemma pbytes_size pre big prev post : 0 <= prev -> (big = false -> prev < 254) ->
  ZIP_DECODE_PREVLENSIZE (pre ++ pbytes big prev ++ post) (Z.of_nat (length pre)) = Some (psize big).
Proof.
  intros Hp Hb. unfold ZIP_DECODE_PREVLENSIZE, pbytes, ZIP_BIGLEN. destruct big; cbn [app]; rewrite at_app by done; cbn [option_bind mbind]; rewrite b2z_z2b.
  - done.
  - specialize (Hb eq_refl). rewrite Z.mod_small by lia. by destruct (Z.ltb_spec prev 254); [|lia].
Qed.

Lemma pbytes_prevlen pre big prev post : 0 <= prev < 2 ^ 32 -> (big = false -> prev < 254) ->
  ZIP_DECODE_PREVLEN be (pre ++ pbytes big prev ++ post) (Z.of_nat (length pre)) = Some (psize big, prev).
Proof.
  intros Hp Hb. unfold ZIP_DECODE_PREVLEN. rewrite pbytes_size by (done || lia). cbn [option_bind mbind].
  unfold pbytes. destruct big; cbn [psize].
  - change (5 =? 1) with false. cbv iota.
    replace (pre ++ (z2b ZIP_BIGLEN :: le_bytes 4 prev) ++ post) with ((pre ++ [z2b ZIP_BIGLEN]) ++ le_bytes 4 prev ++ post)
      by by rewrite <-!app_assoc.
    rewrite mem_read_app by (rewrite ?length_app, ?length_le_bytes; cbn; lia). cbn [option_bind mbind].
    rewrite load32_le, le_val_bytes by apply length_le_bytes. change (256 ^ Z.of_nat 4) with (2 ^ 32). by rewrite Z.mod_small.
  - change (1 =? 1) with true. cbv iota. cbn [app]. rewrite at_app by done. cbn [option_bind mbind]. rewrite b2z_z2b.
    rewrite Z.mod_small; [done|]. specialize (Hb eq_refl). lia.
Qed.

(** What [zipEntry] finds at an entry. *)
Definition entry_at (prev : Z) (e : ent) (p : Z) (z : zlentry) : Prop :=
  exists enc ls ln, ZIP_DECODE_LENGTH e.2 0 = Some (enc, ls, ln) /\ ls + ln = Z.of_nat (length e.2) /\ 0 <= ls /\ 0 <= ln /\
    z = Zlentry (psize e.1) prev ls ln (psize e.1 + ls) enc p.

Lemma entry_rawlen prev e p z : entry_at prev e p z -> headersize z + len z = esize e.
Proof. intros (enc & ls & ln & _ & Hl & _ & _ & ->). cbn. unfold esize. lia. Qed.

Lemma body_decode pre e prev post : ent_ok prev e -> exists enc ls ln,
  ZIP_DECODE_LENGTH e.2 0 = Some (enc, ls, ln) /\ ls + ln = Z.of_nat (length e.2) /\ 0 <= ls /\ 0 <= ln /\
  ZIP_DECODE_LENGTH (pre ++ ebytes prev e ++ post) (Z.of_nat (length pre) + psize e.1) = Some (enc, ls, ln).
Proof.
  intros [_ Hok]. destruct (body_ok_decode _ Hok) as (enc & ls & ln & E & Hl & H1 & H2). exists enc, ls, ln. split_and!; try done.
  unfold ebytes. replace (pre ++ (pbytes e.1 prev ++ e.2) ++ post) with ((pre ++ pbytes e.1 prev) ++ e.2 ++ post) by by rewrite <-!app_assoc.
  replace (Z.of_nat (length pre) + psize e.1) with (Z.of_nat (length (pre ++ pbytes e.1 prev)) + 0)
    by (rewrite length_app, Nat2Z.inj_add, length_pbytes; lia).
  by apply decode_ctx.
Qed.

Lemma zipEntry_spec pre prev e post : ent_ok prev e -> 0 <= prev < 2 ^ 32 -> esize e < 2 ^ 32 ->
  exists z, zipEntry be (pre ++ ebytes prev e ++ post) (Z.of_nat (length pre)) = Some z /\ entry_at prev e (Z.of_nat (length pre)) z.
Proof.
  intros Hok Hp He. destruct (body_decode pre e prev post Hok) as (enc & ls & ln & E & Hl & H1 & H2 & Ed).
  unfold zipEntry. unfold ebytes in *. rewrite <-!app_assoc in *. rewrite pbytes_prevlen by (done || apply Hok). cbn [option_bind mbind].
  rewrite Ed. cbn [option_bind mbind]. eexists. split; [reflexivity|]. exists enc, ls, ln. split_and!; try done.
  unfold esize in He. pose proof (psize_range e.1). by rewrite u32_small by lia.
Qed.

Lemma rawlen_spec pre prev e post : ent_ok prev e -> 0 <= prev < 2 ^ 32 -> esize e < 2 ^ 32 ->
  zipRawEntryLength (pre ++ ebytes prev e ++ post) (Z.of_nat (length pre)) = Some (esize e).
Proof.
  intros Hok Hp He. destruct (body_decode pre e prev post Hok) as (enc & ls & ln & E & Hl & H1 & H2 & Ed).
  unfold zipRawEntryLength. unfold ebytes in *. rewrite <-!app_assoc in *. rewrite pbytes_size by (lia || apply Hok). cbn [option_bind mbind].
  rewrite Ed. cbn [option_bind mbind]. f_equal. unfold esize in *. pose proof (psize_range e.1). rewrite u32_small by lia. lia.
Qed.

(** The first byte of an entry is not the end marker. *)
Lemma first_byte pre prev e post : ent_ok prev e -> 0 <= prev ->
  exists c, at_ (pre ++ ebytes prev e ++ post) (Z.of_nat (length pre)) = Some c /\ (c =? ZIP_END) = false.
Proof.
  intros [Hb _] Hp. unfold ebytes, pbytes. destruct e as [[] b]; cbn [fst snd app] in *; rewrite at_app by done; eexists; (split; [reflexivity|]); rewrite b2z_z2b.
  - done.
  - specialize (Hb eq_refl). rewrite Z.mod_small by lia. unfold ZIP_END. by destruct (Z.eqb_spec prev 255); [lia|].
Qed.
End Layout.

(** The encoding of a string or an integer in an entry, and its
    decoding. *)
(** ** Lengths of strings *)

Lemma tag_06 n : 0 <= n < 64 -> Z.lor ZIP_STR_06B n = n /\ Z.land n ZIP_STR_MASK = 0 /\ Z.land n 0x3f = n.
Proof.
  intros Hn. pose proof (forall_small (fun n => (Z.lor ZIP_STR_06B n =? n) && (Z.land n ZIP_STR_MASK =? 0) && (Z.land n 0x3f =? n)) 64 n eq_refl ltac:(lia)) as H.
  cbn beta in H. lia.
Qed.
Lemma tag_14 n : 0 <= n < 64 ->
  Z.lor ZIP_STR_14B n = 64 + n /\ Z.land (64 + n) ZIP_STR_MASK = 64 /\ Z.land (64 + n) 0x3f = n.
Proof.
  intros Hn. pose proof (forall_small (fun n => (Z.lor ZIP_STR_14B n =? 64 + n) && (Z.land (64 + n) ZIP_STR_MASK =? 64) && (Z.land (64 + n) 0x3f =? n)) 64 n eq_refl ltac:(lia)) as H.
  cbn beta in H. lia.
Qed.

Definition len_bytes (n : Z) : list byte := z2b <$> length_buf 0 n.

Lemma at_cons0 b m : at_ (b :: m) 0 = Some (b2z b).
Proof. exact (at_app [] b m 0 eq_refl). Qed.
Lemma at_consS b m p : 0 < p -> at_ (b :: m) p = at_ m (p - 1).
Proof.
  intros Hp. unfold at_, mem_read. cbn [length].
  replace (Z.to_nat p) with (S (Z.to_nat (p - 1))) by lia. cbn [drop].
  destruct (decide (0 <= p /\ 0 <= 1 /\ p + 1 <= Z.of_nat (S (length m)))), (decide (0 <= p - 1 /\ 0 <= 1 /\ p - 1 + 1 <= Z.of_nat (length m)));
    try done; lia.
Qed.

(** Evaluation of reads at the front of a block. *)
Ltac reads := repeat first [rewrite at_cons0 | rewrite at_consS by lia]; rewrite ?b2z_z2b; cbn [option_bind mbind].

Lemma decode_str n post : 0 <= n < 2 ^ 31 -> exists enc,
  ZIP_DECODE_LENGTH (len_bytes n ++ post) 0 = Some (enc, Z.of_nat (length (len_bytes n)), n) /\ ZIP_IS_STR enc = true.
Proof.
  intros Hn. unfold len_bytes, length_buf. change (ZIP_IS_STR 0) with true. cbv iota.
  destruct (Z.leb_spec n 0x3f); [|destruct (Z.leb_spec n 0x3fff)]; unfold ZIP_DECODE_LENGTH, ZIP_ENTRY_ENCODING; cbn [fmap list_fmap app].
  - destruct (tag_06 n) as (E1 & E2 & E3); [lia|]. rewrite E1. reads. rewrite Z.mod_small by lia.
    unfold ZIP_STR_MASK in *. destruct (Z.ltb_spec n 192); [|lia]. rewrite E2. exists 0. cbn -[Z.land]. rewrite E3. done.
  - rewrite land_255, Z.shiftr_div_pow2, land_63 by lia.
    assert (0 <= n / 2 ^ 8 < 64) as Hd by (split; [apply Z.div_pos; lia|apply Z.div_lt_upper_bound; lia]).
    rewrite (Z.mod_small (n / 2 ^ 8)) by lia. destruct (tag_14 (n / 2 ^ 8)) as (E1 & E2 & E3); [done|]. rewrite E1. reads.
    rewrite (Z.mod_small (64 + n / 2 ^ 8)) by lia. unfold ZIP_STR_MASK in *. destruct (Z.ltb_spec (64 + n / 2 ^ 8) 192); [|lia]. rewrite E2.
    exists 64. change (64 <? 192) with true. change (64 =? ZIP_STR_06B) with false. change (64 =? ZIP_STR_14B) with true. cbv iota.
    rewrite E3. rewrite Z.mod_mod by lia. pose proof (Z.mod_pos_bound n 256 ltac:(lia)). rewrite lor_add by lia. split; [|done].
    change (2 ^ 8) with 256. do 2 f_equal. pose proof (Z.div_mod n 256 ltac:(lia)). lia.
  - rewrite !land_255, !Z.shiftr_div_pow2 by lia. reads.
    exists 128. change (_ <? ZIP_STR_MASK) with true. cbv iota. change (Z.land _ ZIP_STR_MASK) with 128.
    change (128 <? ZIP_STR_MASK) with true. change (128 =? ZIP_STR_06B) with false. change (128 =? ZIP_STR_14B) with false. change (128 =? ZIP_STR_32B) with true. cbv iota.
    rewrite !Z.mod_mod by lia. change (2 ^ 24) with 16777216. change (2 ^ 16) with 65536. change (2 ^ 8) with 256.
    assert (0 <= n / 16777216 < 128) as H3 by (split; [apply Z.div_pos; lia|apply Z.div_lt_upper_bound; lia]).
    rewrite (Z.mod_small (n / 16777216)) by lia. pose proof (Z.mod_pos_bound (n / 65536) 256 ltac:(lia)) as H2.
    pose proof (Z.mod_pos_bound (n / 256) 256 ltac:(lia)) as H1. pose proof (Z.mod_pos_bound n 256 ltac:(lia)) as H0'.
    set (b3 := n / 16777216) in *. set (b2 := (n / 65536) mod 256) in *. set (b1 := (n / 256) mod 256) in *. set (b0 := n mod 256) in *.
    rewrite (Z.shiftl_mul_pow2 b3) by lia. rewrite chk32_ok by lia. cbn [option_bind mbind]. rewrite <-Z.shiftl_mul_pow2 by lia.
    rewrite (Z.shiftl_mul_pow2 b2), (Z.shiftl_mul_pow2 b1) by lia.
    rewrite (lor_add b3) by lia. replace (b3 * 2 ^ 24 + b2 * 2 ^ 16) with (Z.shiftl (b3 * 256 + b2) 16) by (rewrite Z.shiftl_mul_pow2 by lia; lia).
    rewrite lor_add by lia. replace ((b3 * 256 + b2) * 2 ^ 16 + b1 * 2 ^ 8) with (Z.shiftl (b3 * 65536 + b2 * 256 + b1) 8) by (rewrite Z.shiftl_mul_pow2 by lia; lia).
    rewrite lor_add by lia. split; [|done]. do 2 f_equal.
    assert (n = n / 256 * 256 + b0) as E0 by (pose proof (Z.div_mod n 256 ltac:(lia)); lia).
    assert (n / 256 = n / 65536 * 256 + b1) as E1.
    { replace 65536 with (256 * 256) by lia. rewrite <-Z.div_div by lia. pose proof (Z.div_mod (n / 256) 256 ltac:(lia)). lia. }
    assert (n / 65536 = b3 * 256 + b2) as E2.
    { unfold b3. replace 16777216 with (65536 * 256) by lia. rewrite <-Z.div_div by lia. pose proof (Z.div_mod (n / 65536) 256 ltac:(lia)). lia. }
    lia.
Qed.

(** ** Integers *)

Section Int.
Context (be : bool).

(** The bytes of an integer of an encoding. *)
Definition int_bytes (v enc : Z) : list byte :=
  if enc =? ZIP_INT_8B then [z2b v] else if enc =? ZIP_INT_16B then le_bytes 2 v
  else if enc =? ZIP_INT_24B then le_bytes 3 v else if enc =? ZIP_INT_32B then le_bytes 4 v
  else if enc =? ZIP_INT_64B then le_bytes 8 v else [].

Definition int_in (v enc : Z) : Prop :=
  (0 <= v <= 12 /\ enc = ZIP_INT_IMM_MIN + v) \/ (- 2 ^ 7 <= v < 2 ^ 7 /\ enc = ZIP_INT_8B) \/
  (- 2 ^ 15 <= v < 2 ^ 15 /\ enc = ZIP_INT_16B) \/ (- 2 ^ 23 <= v < 2 ^ 23 /\ enc = ZIP_INT_24B) \/
  (- 2 ^ 31 <= v < 2 ^ 31 /\ enc = ZIP_INT_32B) \/ (- 2 ^ 63 <= v < 2 ^ 63 /\ enc = ZIP_INT_64B).

Lemma int_encoding_in v : int64 v -> int_in v (int_encoding v).
Proof.
  unfold int64, int_in, int_encoding, INT24_MIN, INT24_MAX. intros Hv.
  repeat match goal with |- context [if ?c then _ else _] => destruct c eqn:? end; lia.
Qed.

(** An immediate value is no other encoding. *)
Lemma imm_encoding v : 0 <= v <= 12 -> let enc := ZIP_INT_IMM_MIN + v in
  (enc =? ZIP_INT_8B) = false /\ (enc =? ZIP_INT_16B) = false /\ (enc =? ZIP_INT_24B) = false /\ (enc =? ZIP_INT_32B) = false /\
  (enc =? ZIP_INT_64B) = false /\ (ZIP_INT_IMM_MIN <=? enc) && (enc <=? ZIP_INT_IMM_MAX) = true /\ Z.land enc ZIP_INT_IMM_MASK - 1 = v /\
  ZIP_IS_STR enc = false.
Proof.
  intros Hv enc.
  pose proof (forall_small (fun v => let enc := ZIP_INT_IMM_MIN + v in
    negb (enc =? ZIP_INT_8B) && negb (enc =? ZIP_INT_16B) && negb (enc =? ZIP_INT_24B) && negb (enc =? ZIP_INT_32B) && negb (enc =? ZIP_INT_64B) &&
    ((ZIP_INT_IMM_MIN <=? enc) && (enc <=? ZIP_INT_IMM_MAX)) && (Z.land enc ZIP_INT_IMM_MASK - 1 =? v) && negb (ZIP_IS_STR enc)) 13 v eq_refl ltac:(lia)) as H.
  cbn beta zeta in H. fold enc in H. rewrite !andb_true_iff, !negb_true_iff, Z.eqb_eq in H. rewrite andb_true_iff. tauto.
Qed.

Lemma int_size v enc : int_in v enc -> Z.of_nat (length (int_bytes v enc)) = zipIntSize enc.
Proof.
  intros [[Hv ->]|[[_ ->]|[[_ ->]|[[_ ->]|[[_ ->]|[_ ->]]]]]]; try (unfold int_bytes; cbn -[le_bytes]; rewrite ?length_le_bytes; done).
  destruct (imm_encoding v Hv) as (E1 & E2 & E3 & E4 & E5 & _). unfold int_bytes, zipIntSize. by rewrite E1, E2, E3, E4, E5.
Qed.

Lemma int_not_str v enc : int_in v enc -> ZIP_IS_STR enc = false /\ 192 <= enc < 255.
Proof.
  intros [[Hv ->]|[[_ ->]|[[_ ->]|[[_ ->]|[[_ ->]|[_ ->]]]]]]; try done. unfold ZIP_INT_IMM_MIN. split; [|lia].
  pose proof (forall_small (fun v => negb (ZIP_IS_STR (0xf1 + v))) 13 v eq_refl ltac:(lia)) as H. cbn beta in H. by apply negb_true_iff.
Qed.

Lemma shift24 v : - 2 ^ 23 <= v < 2 ^ 23 -> le_bytes 4 (s32 (v * 256)) = z2b 0 :: le_bytes 3 v.
Proof.
  intros Hv. rewrite s32_small by lia. cbn [le_bytes]. rewrite Z.div_mul by lia. f_equal.
  apply b2z_inj. rewrite !b2z_z2b. by rewrite Z.mod_mul.
Qed.

Lemma save_spec v enc pre gap post p :
  int_in v enc -> length gap = length (int_bytes v enc) -> p = Z.of_nat (length pre) ->
  zipSaveInteger be (pre ++ gap ++ post) p v enc = Some (pre ++ int_bytes v enc ++ post).
Proof.
  intros Hin Hg Hp. unfold zipSaveInteger, int_bytes, put_byte in *.
  destruct (enc =? ZIP_INT_8B) eqn:E8; [by apply mem_write_app|].
  destruct (enc =? ZIP_INT_16B) eqn:E16; [rewrite store16_le; by apply mem_write_app|].
  destruct (enc =? ZIP_INT_24B) eqn:E24.
  { rewrite store32_le. destruct Hin as [[Hv ->]|[[_ ->]|[[_ ->]|[[Hv ->]|[[_ ->]|[_ ->]]]]]]; try done;
      [apply Z.eqb_eq in E24; change ZIP_INT_24B with 240 in E24; unfold ZIP_INT_IMM_MIN in E24; lia|].
    rewrite shift24 by done. by apply mem_write_app. }
  destruct (enc =? ZIP_INT_32B) eqn:E32; [rewrite store32_le; by apply mem_write_app|].
  destruct (enc =? ZIP_INT_64B) eqn:E64; [rewrite store64_le; by apply mem_write_app|].
  destruct gap; [|done]. destruct Hin as [[Hv ->]|[[_ ->]|[[_ ->]|[[_ ->]|[[_ ->]|[_ ->]]]]]]; try done.
  unfold ZIP_INT_IMM_MIN, ZIP_INT_IMM_MAX. destruct (Z.leb_spec 241 (241 + v)), (Z.leb_spec (241 + v) 253); try lia. done.
Qed.

(** Selects the branch of a known encoding. *)
Ltac pick := rewrite ?Z.eqb_refl; repeat match goal with |- context [?a =? ?b] => change (a =? b) with false end; cbv iota.

Lemma load_spec v enc pre post p :
  int_in v enc -> p = Z.of_nat (length pre) -> zipLoadInteger be (pre ++ int_bytes v enc ++ post) p enc = Some v.
Proof.
  intros Hin Hp. unfold zipLoadInteger, int_bytes in *.
  destruct Hin as [[Hv ->]|[[Hv ->]|[[Hv ->]|[[Hv ->]|[[Hv ->]|[Hv ->]]]]]].
  - destruct (imm_encoding v Hv) as (E1 & E2 & E3 & E4 & E5 & E6 & E7 & _). rewrite E1, E2, E3, E4, E5, E6. by f_equal.
  - rewrite !Z.eqb_refl. cbn [app]. rewrite at_app by done. cbn [option_bind mbind]. rewrite b2z_z2b. f_equal.
    unfold s8. change 256 with (2 ^ 8). rewrite swrap_mod by lia. apply swrap_small; lia.
  - pick. rewrite mem_read_app by (rewrite ?length_le_bytes; done). cbn [option_bind mbind]. f_equal.
    rewrite load16_le, le_val_bytes by apply length_le_bytes. unfold s16. rewrite (swrap_mod 16) by lia. apply swrap_small; lia.
  - pick. rewrite mem_read_app by (rewrite ?length_le_bytes; done). cbn [option_bind mbind]. f_equal.
    rewrite <-shift24, load32_le, le_val_bytes by (done || apply length_le_bytes). rewrite (s32_small (v * 256)) by lia.
    unfold s32. rewrite (swrap_mod 32) by lia. rewrite swrap_small by lia. rewrite Z.shiftr_div_pow2 by lia. apply Z.div_mul. lia.
  - pick. rewrite mem_read_app by (rewrite ?length_le_bytes; done). cbn [option_bind mbind]. f_equal.
    rewrite load32_le, le_val_bytes by apply length_le_bytes. unfold s32. rewrite (swrap_mod 32) by lia. apply swrap_small; lia.
  - pick. rewrite mem_read_app by (rewrite ?length_le_bytes; done). cbn [option_bind mbind]. f_equal.
    rewrite load64_le, le_val_bytes by apply length_le_bytes. unfold s64. rewrite (swrap_mod 64) by lia. apply swrap_small; lia.
Qed.

(** ** Entries for a string *)

Definition try_int (s : list byte) : option (Z * Z) := default None (zipTryEncoding s (Z.of_nat (length s))).

Lemma try_spec s : zipTryEncoding s (Z.of_nat (length s)) = Some (try_int s) /\
  match try_int s with
  | Some (v, enc) => int64 v /\ s = print_int v /\ int_in v enc
  | None => forall v, int64 v -> s <> print_int v
  end.
Proof.
  unfold try_int, zipTryEncoding. destruct ((32 <=? Z.of_nat (length s)) || (Z.of_nat (length s) =? 0)) eqn:E.
  { split; [done|]. cbn. intros v Hv ->. pose proof (length_print_int v Hv). lia. }
  pose proof (string2ll_iff s []) as Hiff. rewrite app_nil_r in Hiff.
  destruct (string2ll_spec s []) as (r & Hr & _). rewrite app_nil_r in Hr. rewrite Hr in Hiff |- *. cbn [option_bind mbind default].
  destruct r as [v|]; (split; [done|]).
  - destruct (proj1 (Hiff v) eq_refl) as [Hv Hs]. split; [done|]. split; [done|]. by apply int_encoding_in.
  - intros v Hv Hs. by pose proof (proj2 (Hiff v) (conj Hv Hs)).
Qed.

(** The value stored for a string, and the string a value stands for. *)
Definition zvalue (s : list byte) : zval := match try_int s with Some (v, _) => ZInt v | None => ZStr s end.
Definition zstring (z : zval) : list byte := match z with ZStr s => s | ZInt v => print_int v end.

Lemma zstring_zvalue s : zstring (zvalue s) = s.
Proof. pose proof (try_spec s) as [_ H]. unfold zvalue. destruct (try_int s) as [[v enc]|]; [by destruct H as (_ & -> & _)|done]. Qed.

Definition body_of (s : list byte) : list byte :=
  match try_int s with Some (v, enc) => z2b enc :: int_bytes v enc | None => len_bytes (Z.of_nat (length s)) ++ s end.

Lemma decode_int v enc post : int_in v enc -> ZIP_DECODE_LENGTH (z2b enc :: post) 0 = Some (enc, 1, zipIntSize enc).
Proof.
  intros Hin. destruct (int_not_str v enc Hin) as (_ & Hr). unfold ZIP_DECODE_LENGTH, ZIP_ENTRY_ENCODING. reads.
  rewrite Z.mod_small by lia. unfold ZIP_STR_MASK. destruct (Z.ltb_spec enc 192); [lia|]. by rewrite (proj2 (Z.ltb_ge enc 192)) by lia.
Qed.

Lemma body_value_of s : Z.of_nat (length s) < 2 ^ 31 -> body_value be (body_of s) = Some (zvalue s).
Proof.
  intros Hs. unfold body_value, body_of, zvalue. pose proof (try_spec s) as [_ H]. destruct (try_int s) as [[v enc]|].
  - destruct H as (_ & _ & Hin). rewrite (decode_int v) by done. cbn [option_bind mbind].
    pose proof (int_size v enc Hin) as Hsz. rewrite decide_True by (cbn [length]; lia). destruct (int_not_str v enc Hin) as [-> _].
    rewrite <-(app_nil_r (z2b enc :: int_bytes v enc)). change (z2b enc :: int_bytes v enc) with ([z2b enc] ++ int_bytes v enc). rewrite <-app_assoc.
    by rewrite load_spec.
  - destruct (decode_str (Z.of_nat (length s)) s) as (enc & -> & Hstr); [lia|]. cbn [option_bind mbind].
    rewrite decide_True by (rewrite length_app; lia). rewrite Hstr.
    rewrite <-(app_nil_r (len_bytes _ ++ s)), <-app_assoc. by rewrite mem_read_app.
Qed.

Lemma body_of_ok s : Z.of_nat (length s) < 2 ^ 31 -> body_ok be (body_of s).
Proof. intros Hs. exists (zvalue s). by apply body_value_of. Qed.

(** The size of the part of an entry after the previous length. *)
Lemma body_size s : Z.of_nat (length (body_of s)) =
  match try_int s with Some (v, enc) => 1 + zipIntSize enc | None => Z.of_nat (length (len_bytes (Z.of_nat (length s)))) + Z.of_nat (length s) end.
Proof.
  unfold body_of. pose proof (try_spec s) as [_ H]. destruct (try_int s) as [[v enc]|].
  - destruct H as (_ & _ & Hin). rewrite <-(int_size v enc Hin). cbn [length]. lia.
  - rewrite length_app. lia.
Qed.
End Int.
