(* ===== verification/ZiplistCascade.v ===== *)
(** ZiplistCascade: the header of a ziplist, resizing, and the cascade of
    updates of the previous lengths. *)
From S2P Require Import Prelude Endian Util Ziplist ZiplistProofs.

Section Cascade.
Context (be : bool) (junk : nat -> byte).
Implicit Types (m pre post : list byte) (prev t o l : Z) (es : list ent).

(** ** The header *)

Definition hdr t o l : list byte := le_bytes 4 t ++ le_bytes 4 o ++ le_bytes 2 l.

Lemma length_hdr t o l : length (hdr t o l) = 10%nat.
Proof. unfold hdr. by rewrite !length_app, !length_le_bytes. Qed.

Lemma host_load_le32 v : host_load be (le_bytes 4 v) = intrev32ifbe be (u32 v).
Proof.
  unfold host_load, intrev32ifbe. destruct be; [|apply le_val_bytes]. rewrite intrev32_bytes. unfold u32.
  change (2 ^ 32) with (256 ^ Z.of_nat 4). by rewrite le_bytes_mod.
Qed.
Lemma host_load_le16 v : host_load be (le_bytes 2 v) = intrev16ifbe be (u16 v).
Proof.
  unfold host_load, intrev16ifbe. destruct be; [|apply le_val_bytes]. rewrite intrev16_bytes. unfold u16.
  change (2 ^ 16) with (256 ^ Z.of_nat 2). by rewrite le_bytes_mod.
Qed.

(** The fields as the code reads and writes them. *)
Lemma read_bytes t o l m : ZIPLIST_BYTES be (hdr t o l ++ m) = Some (intrev32ifbe be (u32 t)).
Proof.
  unfold ZIPLIST_BYTES, hdr. rewrite <-!app_assoc, mem_read_0 by (rewrite ?length_le_bytes; done).
  cbn -[le_bytes host_load]. by rewrite host_load_le32.
Qed.
Lemma read_tail t o l m : ZIPLIST_TAIL_OFFSET be (hdr t o l ++ m) = Some (intrev32ifbe be (u32 o)).
Proof.
  unfold ZIPLIST_TAIL_OFFSET, hdr. rewrite <-!app_assoc, mem_read_app by (rewrite ?length_le_bytes; done).
  cbn -[le_bytes host_load]. by rewrite host_load_le32.
Qed.
Lemma read_zllen t o l m : ZIPLIST_LENGTH be (hdr t o l ++ m) = Some (intrev16ifbe be (u16 l)).
Proof.
  unfold ZIPLIST_LENGTH, hdr. rewrite <-!app_assoc, (app_assoc (le_bytes 4 t)).
  rewrite mem_read_app by (rewrite ?length_app, ?length_le_bytes; done). cbn -[le_bytes host_load]. by rewrite host_load_le16.
Qed.
Lemma intrev_u32 v : intrev32ifbe be (intrev32ifbe be (u32 v)) = u32 v.
Proof. apply intrev32ifbe_involutive. apply u32_range. Qed.
Lemma intrev_u16 v : intrev16ifbe be (intrev16ifbe be (u16 v)) = u16 v.
Proof. apply intrev16ifbe_involutive. apply u16_range. Qed.

Lemma write_bytes t o l m v : set_bytes be (hdr t o l ++ m) (intrev32ifbe be v) = Some (hdr v o l ++ m).
Proof.
  unfold set_bytes, hdr. rewrite host_store_intrev32, <-!app_assoc.
  by rewrite mem_write_front by (rewrite ?length_le_bytes; done).
Qed.
Lemma write_tail t o l m v : set_tail_offset be (hdr t o l ++ m) (intrev32ifbe be v) = Some (hdr t v l ++ m).
Proof.
  unfold set_tail_offset, hdr. rewrite host_store_intrev32, <-!app_assoc.
  by rewrite mem_write_app by (rewrite ?length_le_bytes; done).
Qed.
Lemma write_zllen t o l m v : set_zllen be (hdr t o l ++ m) (intrev16ifbe be v) = Some (hdr t o v ++ m).
Proof.
  unfold set_zllen, hdr. rewrite host_store_intrev16, <-!app_assoc, (app_assoc (le_bytes 4 t)).
  rewrite mem_write_app by (rewrite ?length_app, ?length_le_bytes; done). by rewrite <-!app_assoc.
Qed.

Lemma add_tail t o l m v : 0 <= o + v < 2 ^ 32 -> 0 <= o < 2 ^ 32 ->
  add_tail_offset be (hdr t o l ++ m) v = Some (hdr t (o + v) l ++ m).
Proof.
  intros Hv Ho. unfold add_tail_offset. rewrite read_tail. cbn [option_bind mbind]. rewrite intrev_u32, (u32_small o) by lia.
  by rewrite write_tail, u32_small by lia.
Qed.

(** An unsigned 16 bit field that is all ones is so in either byte order. *)
Lemma zllen_max l : 0 <= l < 65536 -> (intrev16ifbe be l <? UINT16_MAX) = (l <? UINT16_MAX).
Proof.
  intros Hl. assert (intrev16ifbe be UINT16_MAX = UINT16_MAX) as Hmax by (destruct be; done).
  assert (0 <= intrev16ifbe be l <= UINT16_MAX) as Hr.
  { unfold intrev16ifbe, UINT16_MAX. destruct be; [|lia]. rewrite intrev16_bytes.
    pose proof (le_val_range (rev (le_bytes 2 l))) as H. rewrite length_rev, length_le_bytes in H. cbn -[le_bytes le_val] in H. lia. }
  apply eq_true_iff_eq. rewrite !Z.ltb_lt. unfold UINT16_MAX in *. split; intros H.
  - destruct (decide (l = 65535)) as [->|]; lia.
  - destruct (decide (intrev16ifbe be l = 65535)) as [E|]; [|lia].
    rewrite <-(intrev16ifbe_involutive be l), E, Hmax in H by lia. lia.
Qed.

(** ** Resizing *)

Lemma zl_resize_grow t o l m t' : 10 + Z.of_nat (length m) < t' ->
  exists g, ziplistResize be junk (hdr t o l ++ m) t' = Some (hdr t' o l ++ m ++ g ++ [z2b ZIP_END]) /\
    Z.of_nat (length g) = t' - 11 - Z.of_nat (length m).
Proof.
  intros Ht. unfold ziplistResize. destruct (mem_resize_grow junk (hdr t o l ++ m) t') as (g & -> & Hg).
  { rewrite length_app, length_hdr. lia. }
  rewrite length_app, length_hdr in Hg. rewrite <-app_assoc, write_bytes. cbn [option_bind mbind].
  assert (exists g' x, g = g' ++ [x]) as (g' & x & ->).
  { destruct g as [|x g] using rev_ind; [cbn in Hg; lia|]. by exists g, x. }
  exists g'. rewrite length_app in Hg. cbn [length] in Hg. split; [|lia]. unfold put_byte.
  replace (hdr t' o l ++ m ++ g' ++ [x]) with ((hdr t' o l ++ m ++ g') ++ [x] ++ []) by by rewrite app_nil_r, <-!app_assoc.
  rewrite mem_write_app by (rewrite ?length_app, ?length_hdr; cbn [length]; lia). by rewrite app_nil_r, <-!app_assoc.
Qed.

Lemma zl_resize_shrink t o l m1 x m2 t' : t' = 11 + Z.of_nat (length m1) ->
  ziplistResize be junk (hdr t o l ++ m1 ++ x :: m2) t' = Some (hdr t' o l ++ m1 ++ [z2b ZIP_END]).
Proof.
  intros ->. unfold ziplistResize. set (t' := 11 + Z.of_nat (length m1)).
  rewrite mem_resize_shrink by (rewrite !length_app, length_hdr; cbn [length]; lia).
  replace (hdr t o l ++ m1 ++ x :: m2) with ((hdr t o l ++ m1 ++ [x]) ++ m2) by by rewrite <-!app_assoc.
  rewrite take_app_le by (rewrite !length_app, length_hdr; cbn [length]; lia).
  rewrite take_ge by (rewrite !length_app, length_hdr; cbn [length]; lia). rewrite write_bytes. cbn [option_bind mbind]. unfold put_byte.
  replace (hdr t' o l ++ m1 ++ [x]) with ((hdr t' o l ++ m1) ++ [x] ++ []) by by rewrite app_nil_r, <-!app_assoc.
  rewrite mem_write_app by (rewrite ?length_app, ?length_hdr; cbn [length]; lia). by rewrite app_nil_r, <-!app_assoc.
Qed.

(** ** Writing a previous length *)

Definition need prev : bool := 254 <=? prev.

Lemma need_size zl prev : zipPrevEncodeLength be zl None prev = Some (zl, psize (need prev)).
Proof. unfold zipPrevEncodeLength, need, ZIP_BIGLEN. by destruct (Z.ltb_spec prev 254), (Z.leb_spec 254 prev); try lia. Qed.

Lemma need_small prev : need prev = false -> prev < 254.
Proof. unfold need. lia. Qed.

Lemma write_large pre old post p prev : length old = 5%nat -> p = Z.of_nat (length pre) ->
  zipPrevEncodeLengthForceLarge be (pre ++ old ++ post) (Some p) prev = Some (pre ++ pbytes true prev ++ post).
Proof.
  intros Hl ->. unfold zipPrevEncodeLengthForceLarge, put_byte. destruct old as [|x old]; [done|]. cbn [length] in Hl.
  change ((x :: old) ++ post) with ([x] ++ old ++ post). rewrite mem_write_app by done. cbn [option_bind mbind].
  rewrite store32_le. replace (pre ++ [z2b ZIP_BIGLEN] ++ old ++ post) with ((pre ++ [z2b ZIP_BIGLEN]) ++ old ++ post) by by rewrite <-!app_assoc.
  rewrite mem_write_app by (rewrite ?length_app, ?length_le_bytes; cbn; lia). by rewrite <-!app_assoc.
Qed.

Lemma write_prev pre old post p prev : Z.of_nat (length old) = psize (need prev) -> p = Z.of_nat (length pre) ->
  zipPrevEncodeLength be (pre ++ old ++ post) (Some p) prev = Some (pre ++ pbytes (need prev) prev ++ post, psize (need prev)).
Proof.
  intros Hl Hp. destruct (need prev) eqn:Hn; cbn [psize] in Hl.
  - pose proof (write_large pre old post p prev ltac:(lia) Hp) as H. unfold zipPrevEncodeLengthForceLarge in H.
    unfold zipPrevEncodeLength. rewrite (proj2 (Z.ltb_ge prev ZIP_BIGLEN)) by (unfold need, ZIP_BIGLEN in *; lia).
    destruct (put_byte _ _ _) as [zl|]; [|done]. cbn [option_bind mbind] in *. by rewrite H.
  - unfold zipPrevEncodeLength. rewrite (proj2 (Z.ltb_lt prev ZIP_BIGLEN)) by (unfold need, ZIP_BIGLEN in *; lia).
    unfold put_byte. rewrite Hp. rewrite mem_write_app by (done || cbn; lia). done.
Qed.

(** ** The cascade *)

(** The entries after one whose length has become [prev]: a field that is too
    small grows, and the change goes on from there. *)
Fixpoint fixup prev es : list ent :=
  match es with
  | [] => []
  | (big, b) :: es => if negb big && need prev then (true, b) :: fixup (esize (true, b)) es else (big, b) :: es
  end.

Lemma fixup_bodies prev es : (fixup prev es).*2 = es.*2.
Proof. revert prev. induction es as [|[big b] es IH]; intros prev; [done|]. cbn [fixup]. destruct (_ && _); [|done]. cbn. by rewrite IH. Qed.
Lemma length_fixup prev es : length (fixup prev es) = length es.
Proof. pose proof (f_equal length (fixup_bodies prev es)) as H. by rewrite !length_fmap in H. Qed.
Lemma total_fixup prev es : total es <= total (fixup prev es) <= total es + 4 * Z.of_nat (length es).
Proof.
  revert prev. induction es as [|[big b] es IH]; intros prev; [done|]. cbn [fixup]. destruct (negb big && need prev) eqn:E; [|cbn [length]; lia].
  apply andb_prop in E as [E _]. destruct big; [done|]. cbn [total length]. specialize (IH (esize (true, b))).
  change (esize (true, b)) with (5 + Z.of_nat (length b)) in *. change (esize (false, b)) with (1 + Z.of_nat (length b)). lia.
Qed.

Lemma fixup_ok old prev es : ents_ok be old es -> ents_ok be prev (fixup prev es).
Proof.
  revert old prev. induction es as [|[big b] es IH]; intros old prev; [done|]. cbn [ents_ok fixup]. intros [[Hb Hok] Hes].
  destruct (negb big && need prev) eqn:E; cbn [ents_ok].
  - split; [split; [done|done]|]. by apply (IH (esize (big, b))).
  - split; [|done]. split; [|done]. cbn. intros ->. cbn in E. by apply need_small.
Qed.

Lemma fixup_same prev es : ents_ok be prev es -> fixup prev es = es.
Proof.
  destruct es as [|[big b] es]; [done|]. cbn [ents_ok fixup]. intros [[Hb _] _]. destruct big; [done|]. cbn.
  specialize (Hb eq_refl). unfold need. by destruct (Z.leb_spec 254 prev); [cbn in Hb; lia|].
Qed.

(** What the offset to the last entry is made of. *)
Definition before_last es : Z := total (removelast es).
Lemma before_last_cons e es : before_last (e :: es) = match es with [] => 0 | _ => esize e + before_last es end.
Proof. unfold before_last. by destruct es. Qed.
Lemma before_last_app es1 es2 : es2 <> [] -> before_last (es1 ++ es2) = total es1 + before_last es2.
Proof. intros H. unfold before_last. by rewrite removelast_app, total_app. Qed.
Lemma before_last_range es : 0 <= before_last es <= total es.
Proof.
  induction es as [|e es IH]; [done|]. rewrite before_last_cons. cbn [total]. pose proof (esize_pos e). destruct es; lia.
Qed.

(** A block from an entry [cur] whose length changed: the entries after it
    were written after one of length [old]. *)
Definition blk (l : Z) A pc (cur : ent) old es : list byte :=
  hdr (11 + Z.of_nat (length A) + total (cur :: es)) (10 + Z.of_nat (length A) + before_last (cur :: es)) l
    ++ A ++ ebytes pc cur ++ image old es ++ [z2b ZIP_END].

Lemma blk_shift l A pc cur old e es :
  blk l A pc cur old (e :: es) = blk l (A ++ ebytes pc cur) old e (esize e) es.
Proof.
  unfold blk. rewrite before_last_cons. cbn [image total]. rewrite !length_app, !Nat2Z.inj_add, length_ebytes, <-!app_assoc.
  do 2 f_equal; lia.
Qed.

(** One iteration, up to what it does with the next entry. *)
Lemma cascade_next P pc cur old next R t fuel :
  ent_ok be pc cur -> 0 <= pc < 2 ^ 32 -> ent_ok be old next -> 0 <= old < 2 ^ 32 -> esize cur < 2 ^ 32 -> esize next < 2 ^ 32 ->
  let zl := P ++ ebytes pc cur ++ ebytes old next ++ R in let np := Z.of_nat (length P) + esize cur in
  let size := psize (need (esize cur)) in
  cascade_loop be junk (S fuel) zl (Z.of_nat (length P)) t =
  if old =? esize cur then Some zl
  else if psize next.1 <? size then
    zl ← ziplistResize be junk zl (u32 (t + (size - psize next.1)));
    o ← ZIPLIST_TAIL_OFFSET be zl;
    zl ← (if intrev32ifbe be o =? np then Some zl else add_tail_offset be zl (size - psize next.1));
    zl ← memmove zl (np + size) (np + psize next.1) (u64 (t - np - psize next.1 - 1));
    '(zl, _) ← zipPrevEncodeLength be zl (Some np) (esize cur);
    cascade_loop be junk fuel zl np (t + (size - psize next.1))
  else if size <? psize next.1 then zipPrevEncodeLengthForceLarge be zl (Some np) (esize cur)
  else '(zl, _) ← zipPrevEncodeLength be zl (Some np) (esize cur); Some zl.
Proof.
  intros Hcur Hpc Hnext Hold Hc Hn zl np size. pose proof (esize_pos cur). cbn [cascade_loop].
  destruct (first_byte be P pc cur (ebytes old next ++ R) Hcur) as (c & Ec & Ec'); [lia|]. fold zl in Ec. rewrite Ec. cbn [option_bind mbind]. rewrite Ec'.
  destruct (zipEntry_spec be P pc cur (ebytes old next ++ R) Hcur Hpc Hc) as (z & Ez & Hz). fold zl in Ez. rewrite Ez. cbn [option_bind mbind].
  rewrite (entry_rawlen _ _ _ _ Hz), u32_small, need_size by lia. cbn [option_bind mbind]. fold size. fold np.
  assert (np = Z.of_nat (length (P ++ ebytes pc cur))) as Enp by (rewrite length_app, Nat2Z.inj_add, length_ebytes; done).
  assert (zl = (P ++ ebytes pc cur) ++ ebytes old next ++ R) as Ezl by (unfold zl; by rewrite <-!app_assoc).
  destruct (first_byte be (P ++ ebytes pc cur) old next R Hnext) as (d & Ed & Ed'); [lia|].
  rewrite <-Ezl, <-Enp in Ed. rewrite Ed. cbn [option_bind mbind]. rewrite Ed'.
  destruct (zipEntry_spec be (P ++ ebytes pc cur) old next R Hnext Hold Hn) as (zn & Ezn & Hzn).
  rewrite <-Ezl, <-Enp in Ezn. rewrite Ezn. cbn [option_bind mbind].
  destruct Hzn as (enc & ls & ln & _ & _ & _ & _ & ->). done.
Qed.

(** The next entry's field grows: one iteration. *)
Lemma cascade_grow l A pc cur old b es fuel :
  let next := (false, b) in let t := 11 + Z.of_nat (length A) + total (cur :: next :: es) in
  ent_ok be pc cur -> 0 <= pc < 2 ^ 32 -> old < 254 -> 0 <= old -> body_ok be b -> need (esize cur) = true -> t + 4 < 2 ^ 31 ->
  cascade_loop be junk (S fuel) (blk l A pc cur old (next :: es)) (10 + Z.of_nat (length A)) t =
  cascade_loop be junk fuel (blk l (A ++ ebytes pc cur) (esize cur) (true, b) (esize next) es) (10 + Z.of_nat (length (A ++ ebytes pc cur))) (t + 4).
Proof.
  intros next t Hcur Hpc Ho Ho0 Hb Hneed Ht.
  pose proof (esize_pos cur) as Hc1. pose proof (total_nonneg es) as Hes. cbn [total] in t.
  change (esize next) with (1 + Z.of_nat (length b)) in *. assert (t = 12 + Z.of_nat (length A) + esize cur + Z.of_nat (length b) + total es) as Et by lia.
  set (P := hdr t (10 + Z.of_nat (length A) + before_last (cur :: next :: es)) l ++ A).
  set (R := image (esize next) es ++ [z2b ZIP_END]).
  assert (blk l A pc cur old (next :: es) = P ++ ebytes pc cur ++ ebytes old next ++ R) as Eb.
  { unfold blk, P, R. cbn [image]. by rewrite <-!app_assoc. }
  assert (Z.of_nat (length P) = 10 + Z.of_nat (length A)) as Ep by (unfold P; rewrite length_app, length_hdr; lia).
  assert (Z.of_nat (length (P ++ ebytes pc cur)) = Z.of_nat (length P) + esize cur) as Epc by (rewrite length_app, Nat2Z.inj_add; by rewrite length_ebytes).
  assert (ent_ok be old next) as Hnext by by split.
  assert (254 <= esize cur) as Hbig by (unfold need in Hneed; lia).
  rewrite Eb, <-Ep. rewrite cascade_next by (done || lia || (change (esize next) with (1 + Z.of_nat (length b)); lia)).
  rewrite Hneed, <-Epc. cbn [psize]. change (psize next.1) with 1. change (1 <? 5) with true. cbv iota. change (5 - 1) with 4.
  destruct (Z.eqb_spec old (esize cur)) as [|_]; [lia|]. rewrite u32_small by lia. rewrite (app_assoc P).
  assert ((P ++ ebytes pc cur) ++ ebytes old next ++ R = hdr t (10 + Z.of_nat (length A) + before_last (cur :: next :: es)) l ++ (A ++ ebytes pc cur ++ ebytes old next ++ R)) as ->
    by (unfold P; by rewrite <-!app_assoc).
  assert (Z.of_nat (length R) = total es + 1) as ER by (unfold R; rewrite length_app, Nat2Z.inj_add, length_image; cbn; lia).
  destruct (zl_resize_grow t (10 + Z.of_nat (length A) + before_last (cur :: next :: es)) l (A ++ ebytes pc cur ++ ebytes old next ++ R) (t + 4)) as (g & -> & Hg).
  { rewrite !length_app, !Nat2Z.inj_add, ER, !length_ebytes. change (esize next) with (1 + Z.of_nat (length b)). lia. }
  cbn [option_bind mbind]. rewrite read_tail. cbn [option_bind mbind]. rewrite intrev_u32.
  pose proof (before_last_range es) as Hbl. set (o' := 10 + Z.of_nat (length (A ++ ebytes pc cur)) + before_last ((true, b) :: es)).
  assert (Z.of_nat (length (A ++ ebytes pc cur)) = Z.of_nat (length A) + esize cur) as EA by (rewrite length_app, Nat2Z.inj_add, length_ebytes; done).
  assert (length g = 3%nat) as Hg3.
  { revert Hg. rewrite !length_app, !Nat2Z.inj_add, ER, !length_ebytes. change (esize next) with (1 + Z.of_nat (length b)). lia. }
  assert (forall m, (if u32 (10 + Z.of_nat (length A) + before_last (cur :: next :: es)) =? Z.of_nat (length (P ++ ebytes pc cur))
            then Some (hdr (t + 4) (10 + Z.of_nat (length A) + before_last (cur :: next :: es)) l ++ m)
            else add_tail_offset be (hdr (t + 4) (10 + Z.of_nat (length A) + before_last (cur :: next :: es)) l ++ m) 4)
          = Some (hdr (t + 4) o' l ++ m)) as ->.
  { intros m. rewrite Epc, Ep. unfold o'. rewrite EA, !before_last_cons. change (esize next) with (1 + Z.of_nat (length b)).
    change (esize (true, b)) with (5 + Z.of_nat (length b)). rewrite u32_small by (destruct es; lia). destruct es as [|e es].
    - destruct (Z.eqb_spec (10 + Z.of_nat (length A) + (esize cur + 0)) (10 + Z.of_nat (length A) + esize cur)); [|lia].
      do 2 f_equal. f_equal. lia.
    - destruct (Z.eqb_spec (10 + Z.of_nat (length A) + (esize cur + (1 + Z.of_nat (length b) + before_last (e :: es)))) (10 + Z.of_nat (length A) + esize cur)); [lia|].
      rewrite add_tail by lia. do 2 f_equal. f_equal. lia. }
  cbn [option_bind mbind].
  replace (hdr (t + 4) o' l ++ (A ++ ebytes pc cur ++ ebytes old next ++ R) ++ g ++ [z2b ZIP_END])
    with ((hdr (t + 4) o' l ++ A ++ ebytes pc cur ++ [z2b old]) ++ (b ++ image (esize next) es) ++ ([z2b ZIP_END] ++ g) ++ [z2b ZIP_END])
    by (unfold R, ebytes; cbn [fst snd pbytes next]; by rewrite <-!app_assoc).
  assert (Z.of_nat (length (b ++ image (esize next) es)) = Z.of_nat (length b) + total es) as Eb2 by (rewrite length_app, Nat2Z.inj_add, length_image; done).
  rewrite memmove_right; [|rewrite !length_app, length_hdr in *; cbn [length] in *; lia|rewrite !length_app, length_hdr in *; cbn [length] in *; lia|rewrite u64_small by lia; lia].
  cbn [option_bind mbind].
  set (G := take _ _). assert (Z.of_nat (length G) = 4) as EG.
  { unfold G. rewrite length_take, !length_app, Hg3 in *. cbn [length] in *. lia. }
  replace ((hdr (t + 4) o' l ++ A ++ ebytes pc cur ++ [z2b old]) ++ G ++ (b ++ image (esize next) es) ++ [z2b ZIP_END])
    with ((hdr (t + 4) o' l ++ A ++ ebytes pc cur) ++ ([z2b old] ++ G) ++ b ++ R) by (unfold R; by rewrite <-!app_assoc).
  rewrite write_prev; [|rewrite Hneed, length_app, Nat2Z.inj_add, EG; done|rewrite !length_app, length_hdr in *; lia].
  cbn [option_bind mbind]. rewrite Hneed. f_equal; [|lia].
  unfold blk, R. replace (11 + Z.of_nat (length (A ++ ebytes pc cur)) + total ((true, b) :: es)) with (t + 4)
    by (cbn [total]; change (esize (true, b)) with (5 + Z.of_nat (length b)); lia).
  unfold ebytes. cbn [fst snd]. by rewrite <-!app_assoc.
Qed.

(** The whole cascade.  [length es] iterations at most change anything. *)
Lemma cascade_loop_spec l es : forall A pc cur old fuel,
  ent_ok be pc cur -> 0 <= pc < 2 ^ 32 -> ents_ok be old es -> 0 <= old < 2 ^ 32 -> (length es < fuel)%nat ->
  11 + Z.of_nat (length A) + total (cur :: es) + 4 * Z.of_nat (length es) < 2 ^ 31 ->
  cascade_loop be junk fuel (blk l A pc cur old es) (10 + Z.of_nat (length A)) (11 + Z.of_nat (length A) + total (cur :: es))
  = Some (blk l A pc cur (esize cur) (fixup (esize cur) es)).
Proof.
  induction es as [|[nb b] es IH]; intros A pc cur old fuel Hcur Hpc Hes Hold Hf Hb; (destruct fuel as [|fuel]; [cbn in Hf; lia|]);
    match goal with |- cascade_loop _ _ _ (blk _ _ _ _ _ ?es) _ _ = _ =>
      set (P := hdr (11 + Z.of_nat (length A) + total (cur :: es)) (10 + Z.of_nat (length A) + before_last (cur :: es)) l ++ A);
      assert (blk l A pc cur old es = P ++ ebytes pc cur ++ image old es ++ [z2b ZIP_END]) as Estart by (unfold blk, P; by rewrite <-!app_assoc)
    end;
    assert (Z.of_nat (length P) = 10 + Z.of_nat (length A)) as Ep by (unfold P; rewrite length_app, length_hdr; lia).
  - cbn [fixup]. rewrite Estart, <-Ep. cbn [image app]. cbn [cascade_loop].
    destruct (first_byte be P pc cur [z2b ZIP_END] Hcur) as (c & Ec & Ec'); [lia|]. rewrite Ec. cbn [option_bind mbind]. rewrite Ec'.
    cbn [total length] in Hb. pose proof (esize_pos cur).
    destruct (zipEntry_spec be P pc cur [z2b ZIP_END] Hcur Hpc) as (z & -> & Hz); [lia|]. cbn [option_bind mbind].
    rewrite (entry_rawlen _ _ _ _ Hz), u32_small, need_size by lia. cbn [option_bind mbind].
    rewrite (app_assoc P), at_app by (rewrite length_app, Nat2Z.inj_add, length_ebytes; done). cbn [option_bind mbind].
    change (b2z _ =? _) with true. cbv iota. unfold blk, P. cbn [image app]. by rewrite <-!app_assoc.
  - destruct Hes as [[Hnb Hok] Hes]. cbn [fst snd] in Hnb, Hok. cbn [fixup]. 
    destruct (negb nb && need (esize cur)) eqn:E.
    + apply andb_prop in E as [E1 E2]. destruct nb; [done|]. specialize (Hnb eq_refl).
      rewrite (cascade_grow l A pc cur old b es fuel Hcur Hpc Hnb) by (done || cbn [length] in Hb; lia).
      rewrite (blk_shift l A pc cur (esize cur) (true, b)).
      cbn [total] in *. change (esize (false, b)) with (1 + Z.of_nat (length b)) in *. change (esize (true, b)) with (5 + Z.of_nat (length b)).
      assert (Z.of_nat (length (A ++ ebytes pc cur)) = Z.of_nat (length A) + esize cur) as EA by (rewrite length_app, Nat2Z.inj_add, length_ebytes; done).
      pose proof (total_nonneg es). pose proof (esize_pos cur). cbn [length] in *.
      replace (11 + Z.of_nat (length A) + (esize cur + (1 + Z.of_nat (length b) + total es)) + 4)
        with (11 + Z.of_nat (length (A ++ ebytes pc cur)) + total ((true, b) :: es)) by (cbn [total]; change (esize (true, b)) with (5 + Z.of_nat (length b)); lia).
      apply IH; try done; try lia. cbn [total]. change (esize (true, b)) with (5 + Z.of_nat (length b)). lia.
    + assert (ents_ok be (esize cur) ((nb, b) :: es)) as Hes'.
      { split; [|done]. split; [|done]. cbn. intros ->. cbn in E. by apply need_small. }
      assert (ent_ok be old (nb, b)) as Hnext by by split.
      pose proof (total_nonneg es). pose proof (esize_pos cur). pose proof (esize_pos (nb, b)). cbn [total length] in Hb.
      rewrite Estart, <-Ep. cbn [image]. rewrite <-app_assoc, cascade_next by (done || lia).
      assert (forall m, m = (P ++ ebytes pc cur) ++ pbytes nb (esize cur) ++ b ++ image (esize (nb, b)) es ++ [z2b ZIP_END] ->
        Some m = Some (blk l A pc cur (esize cur) ((nb, b) :: es))) as Hend.
      { intros m ->. unfold blk, P. cbn [image]. unfold ebytes. cbn [fst snd]. by rewrite <-!app_assoc. }
      assert (Z.of_nat (length (P ++ ebytes pc cur)) = Z.of_nat (length P) + esize cur) as Epc by (rewrite length_app, Nat2Z.inj_add, length_ebytes; done).
      destruct (Z.eqb_spec old (esize cur)) as [->|_].
      { apply Hend. unfold ebytes. cbn [fst snd]. by rewrite <-!app_assoc. }
      rewrite <-Epc, (app_assoc P).
      replace ((P ++ ebytes pc cur) ++ ebytes old (nb, b) ++ image (esize (nb, b)) es ++ [z2b ZIP_END])
        with ((P ++ ebytes pc cur) ++ pbytes nb old ++ (b ++ image (esize (nb, b)) es ++ [z2b ZIP_END]))
        by (unfold ebytes; cbn [fst snd]; by rewrite <-!app_assoc).
      destruct nb, (need (esize cur)) eqn:Hn; try done; cbn [psize].
      * change (5 <? 5) with false. cbv iota. rewrite write_prev by (first [done|rewrite Hn; apply length_pbytes]). cbn [option_bind mbind]. rewrite Hn. by apply Hend.
      * change (5 <? 1) with false. change (1 <? 5) with true. cbv iota.
        rewrite write_large by (done || (pose proof (length_pbytes true old) as HL; cbn [psize] in HL; lia)). by apply Hend.
      * change (1 <? 1) with false. cbv iota. rewrite write_prev by (first [done|rewrite Hn; apply length_pbytes]). cbn [option_bind mbind]. rewrite Hn. by apply Hend.
Qed.
End Cascade.
