(* ===== verification/ZiplistEdit.v ===== *)
(** ZiplistEdit: insertion and deletion on the layout of a ziplist. *)
From S2P Require Import Prelude Endian Util Ziplist ZiplistProofs ZiplistCascade.

Section Edit.
Context (be : bool) (junk : nat -> byte).
Implicit Types (l p n : Z) (L R es : list ent) (b c : list byte).

(** A whole list: the stored length is a parameter. *)
Definition zblk l es : list byte :=
  hdr (11 + total es) (10 + before_last es) l ++ image 0 es ++ [z2b ZIP_END].

Lemma zblk_blk l L cur R : zblk l (L ++ cur :: R) = blk l (image 0 L) (lastsize 0 L) cur (esize cur) R.
Proof.
  unfold zblk, blk. rewrite total_app, before_last_app, image_app, length_image by done. cbn [image]. rewrite <-!app_assoc.
  do 2 f_equal; lia.
Qed.

Lemma hdr_prefix t o l A : Z.of_nat (length (hdr t o l ++ A)) = 10 + Z.of_nat (length A).
Proof. rewrite length_app, length_hdr. lia. Qed.

(** ** Making room *)

(** Whatever the change of the size of the next entry's field, the move leaves
    a gap of [n] bytes and the bytes to overwrite with that field. *)
Lemma gap_move t o l P pv big c S g n :
  let nd := psize (need n) - psize big in
  Z.of_nat (length g) = n + nd -> 2 <= n -> 0 <= n + nd ->
  exists gap old, Z.of_nat (length gap) = n /\ Z.of_nat (length old) = psize (need n) /\
    memmove (hdr t o l ++ P ++ pbytes big pv ++ c ++ S ++ g ++ [z2b ZIP_END]) (10 + Z.of_nat (length P) + n)
      (10 + Z.of_nat (length P) - nd) (psize big + Z.of_nat (length c + length S) + nd)
    = Some (hdr t o l ++ P ++ gap ++ old ++ c ++ S ++ [z2b ZIP_END]).
Proof.
  intros nd Hg Hn Hnd. pose proof (length_pbytes big pv) as Hpb. unfold nd in *. destruct (need n) eqn:En, big; cbn [psize] in *.
  - (* both 5 *)
    exists (take (length g) ((pbytes true pv ++ c ++ S) ++ g)), (pbytes true pv). split; [rewrite length_take, !length_app; lia|]. split; [done|].
    replace (hdr t o l ++ P ++ pbytes true pv ++ c ++ S ++ g ++ [z2b ZIP_END]) with ((hdr t o l ++ P) ++ (pbytes true pv ++ c ++ S) ++ g ++ [z2b ZIP_END])
      by by rewrite <-!app_assoc.
    rewrite memmove_right by (rewrite ?length_app, ?length_hdr in *; lia). by rewrite <-!app_assoc.
  - (* 1 to 5 *)
    set (Q := hdr t o l ++ P). assert (4 <= length Q)%nat as HQ by (unfold Q; rewrite length_app, length_hdr; lia).
    assert (Z.of_nat (length Q) = 10 + Z.of_nat (length P)) as HQl by (unfold Q; apply hdr_prefix).
    set (A := take (length Q - 4) Q). set (Y := drop (length Q - 4) Q).
    assert (length A = length Q - 4)%nat as HA by (unfold A; rewrite length_take; lia).
    assert (length Y = 4)%nat as HY by (unfold Y; rewrite length_drop; lia).
    assert (Q = A ++ Y) as EQ by (unfold A, Y; by rewrite take_drop).
    exists (take (Z.to_nat n) ((pbytes false pv ++ c ++ S) ++ g)), (Y ++ pbytes false pv).
    split; [rewrite length_take, !length_app; lia|]. split; [rewrite length_app; lia|].
    replace (hdr t o l ++ P ++ pbytes false pv ++ c ++ S ++ g ++ [z2b ZIP_END]) with (A ++ (Y ++ pbytes false pv ++ c ++ S) ++ g ++ [z2b ZIP_END])
      by (rewrite (app_assoc (hdr t o l)); fold Q; rewrite EQ; by rewrite <-!app_assoc).
    rewrite memmove_right by (rewrite ?length_app in *; lia). rewrite <-(app_assoc Y), take_app_ge by lia.
    replace (length g - length Y)%nat with (Z.to_nat n) by lia. rewrite (app_assoc (hdr t o l)). fold Q. rewrite EQ. by rewrite <-!app_assoc.
  - (* 5 to 1 *)
    set (X := pbytes true pv) in *. set (Y := take 4 X). set (y := drop 4 X).
    assert (length Y = 4%nat) as HY by (unfold Y; rewrite length_take; lia). assert (length y = 1%nat) as Hy by (unfold y; rewrite length_drop; lia).
    assert (X = Y ++ y) as EX by (unfold Y, y; by rewrite take_drop).
    exists (Y ++ take (length g) ((y ++ c ++ S) ++ g)), y. split; [rewrite !length_app, length_take, !length_app; lia|]. split; [lia|].
    replace (hdr t o l ++ P ++ X ++ c ++ S ++ g ++ [z2b ZIP_END]) with ((hdr t o l ++ P ++ Y) ++ (y ++ c ++ S) ++ g ++ [z2b ZIP_END])
      by (rewrite EX; by rewrite <-!app_assoc).
    rewrite memmove_right by (rewrite ?length_app, ?length_hdr in *; lia). by rewrite <-!app_assoc.
  - (* both 1 *)
    exists (take (length g) ((pbytes false pv ++ c ++ S) ++ g)), (pbytes false pv). split; [rewrite length_take, !length_app; lia|]. split; [done|].
    replace (hdr t o l ++ P ++ pbytes false pv ++ c ++ S ++ g ++ [z2b ZIP_END]) with ((hdr t o l ++ P) ++ (pbytes false pv ++ c ++ S) ++ g ++ [z2b ZIP_END])
      by by rewrite <-!app_assoc.
    rewrite memmove_right by (rewrite ?length_app, ?length_hdr in *; lia). by rewrite <-!app_assoc.
Qed.

Lemma resize_room t o l M t' : t = 11 + Z.of_nat (length M) -> t <= t' ->
  exists g, ziplistResize be junk (hdr t o l ++ M ++ [z2b ZIP_END]) t' = Some (hdr t' o l ++ M ++ g ++ [z2b ZIP_END]) /\
    Z.of_nat (length g) = t' - t /\ (t < t' -> exists g', g = z2b ZIP_END :: g').
Proof.
  intros Ht Hle. destruct (decide (t = t')) as [<-|Hne].
  - exists []. rewrite zl_resize_shrink by lia. split; [done|]. cbn. split; lia.
  - destruct (zl_resize_grow be junk t o l (M ++ [z2b ZIP_END]) t') as (g & E & Hg); [rewrite length_app; cbn [length]; lia|].
    exists (z2b ZIP_END :: g). rewrite E. rewrite length_app in Hg. cbn [length] in *. split; [by rewrite <-!app_assoc|]. split; [lia|]. by exists g.
Qed.

(** Room at the end. *)
Lemma room_end l L n : 1 <= n -> 11 + total L + n < 2 ^ 31 ->
  exists gap, Z.of_nat (length gap) = n /\
    insert_room be junk (zblk l L) (10 + total L) (11 + total L) n 0
    = Some (hdr (11 + total L + n) (10 + total L) l ++ image 0 L ++ gap ++ [z2b ZIP_END]).
Proof.
  intros Hn Hb. unfold insert_room, zblk. pose proof (total_nonneg L). rewrite (u32_small (11 + total L + n + 0)) by lia.
  destruct (resize_room (11 + total L) (10 + before_last L) l (image 0 L) (11 + total L + n + 0)) as (g & -> & Hg & Hg'); [by rewrite length_image|lia|].
  destruct Hg' as (g' & ->); [lia|]. cbn [option_bind mbind].
  assert (Z.of_nat (length (hdr (11 + total L + n + 0) (10 + before_last L) l ++ image 0 L)) = 10 + total L) as Ep by (rewrite hdr_prefix, length_image; done).
  rewrite (app_assoc (hdr _ _ _)). cbn [app]. rewrite at_app by lia. cbn [option_bind mbind]. change (b2z _ =? ZIP_END) with true. cbn [negb].
  rewrite <-app_assoc, write_tail, u32_small by lia. cbn [option_bind mbind]. change (0 =? 0) with true. cbn [negb].
  exists (z2b ZIP_END :: g'). split; [lia|]. by rewrite Z.add_0_r.
Qed.

Lemma diff_spec pre prev e post n : ent_ok be prev e -> 0 <= prev -> 0 <= n < 2 ^ 32 ->
  zipPrevLenByteDiff be (pre ++ ebytes prev e ++ post) (Z.of_nat (length pre)) n = Some (psize (need n) - psize e.1).
Proof.
  intros Hok Hp Hn. unfold zipPrevLenByteDiff, ebytes. rewrite <-!app_assoc, pbytes_size by (done || apply Hok). cbn [option_bind mbind].
  rewrite need_size. cbn [option_bind mbind]. f_equal. unfold s32, u32. rewrite (swrap_mod 32) by lia.
  destruct (need n), e.1; done.
Qed.

(** The tail offset takes the change of an entry's size into account when the
    entry is not the last one. *)
Lemma tail_fix t o l A n e sz R nd p : ents_ok be sz R -> 0 <= sz -> 0 <= o < 2 ^ 32 -> 0 <= o + nd < 2 ^ 32 -> p = 10 + Z.of_nat (length A) + esize e ->
  (b ← at_ (hdr t o l ++ A ++ ebytes n e ++ image sz R ++ [z2b ZIP_END]) p;
   if negb (b =? ZIP_END) then add_tail_offset be (hdr t o l ++ A ++ ebytes n e ++ image sz R ++ [z2b ZIP_END]) nd
   else Some (hdr t o l ++ A ++ ebytes n e ++ image sz R ++ [z2b ZIP_END])) =
  Some (hdr t (o + match R with [] => 0 | _ => nd end) l ++ A ++ ebytes n e ++ image sz R ++ [z2b ZIP_END]).
Proof.
  intros HR Hsz Ho Hnd ->.
  assert (forall o, Z.of_nat (length (hdr t o l ++ A ++ ebytes n e)) = 10 + Z.of_nat (length A) + esize e) as El
    by (intros o'; rewrite hdr_prefix, length_app, Nat2Z.inj_add, length_ebytes; lia).
  assert (forall m, hdr t o l ++ A ++ ebytes n e ++ m = (hdr t o l ++ A ++ ebytes n e) ++ m) as Ea by (intros m; by rewrite <-!app_assoc).
  rewrite Ea, <-(El o). destruct R as [|r R]; cbn [image app].
  - rewrite at_app by done. cbn [option_bind mbind]. change (b2z _ =? ZIP_END) with true. cbn [negb]. by rewrite <-Ea, Z.add_0_r.
  - destruct HR as [Hr _]. rewrite <-(app_assoc (ebytes sz r)).
    destruct (first_byte be (hdr t o l ++ A ++ ebytes n e) sz r (image (esize r) R ++ [z2b ZIP_END]) Hr Hsz) as (b & -> & Hb).
    cbn [option_bind mbind]. rewrite Hb. cbn [negb]. by rewrite <-Ea, add_tail.
Qed.

Lemma cascade_update l A pc cur old es :
  ent_ok be pc cur -> 0 <= pc < 2 ^ 32 -> ents_ok be old es -> 0 <= old < 2 ^ 32 ->
  11 + Z.of_nat (length A) + total (cur :: es) + 4 * Z.of_nat (length es) < 2 ^ 31 ->
  __ziplistCascadeUpdate be junk (blk l A pc cur old es) (10 + Z.of_nat (length A)) = Some (blk l A pc cur (esize cur) (fixup (esize cur) es)).
Proof.
  intros Hcur Hpc Hes Hold Hb. unfold __ziplistCascadeUpdate.
  rewrite (read_bytes be _ _ _ _ : ZIPLIST_BYTES be (blk l A pc cur old es) = _). cbn [option_bind mbind].
  pose proof (total_nonneg (cur :: es)) as Ht. cbn [length] in Ht. rewrite intrev_u32, u32_small by lia.
  apply cascade_loop_spec; try done. unfold blk. rewrite !length_app.
  pose proof (length_image old es). pose proof (total_nonneg es). lia.
Qed.

(** Room before an entry, whose field is updated and the change passed on. *)
Lemma room_mid l L big c R n :
  let nd := psize (need n) - psize big in let e := (need n, c) in
  let R' := e :: fixup (esize e) R in
  ents_ok be 0 (L ++ (big, c) :: R) -> 2 <= n -> 0 <= n + nd ->
  11 + total (L ++ (big, c) :: R) + n + 4 * Z.of_nat (S (length R)) < 2 ^ 31 ->
  exists gap, Z.of_nat (length gap) = n /\
    insert_room be junk (zblk l (L ++ (big, c) :: R)) (10 + total L) (11 + total (L ++ (big, c) :: R)) n nd
    = Some (hdr (11 + total L + n + total R') (10 + total L + n + before_last R') l ++ image 0 L ++ gap ++ image n R' ++ [z2b ZIP_END]).
Proof.
  intros nd e R' Hok Hn Hnd Hb. apply ents_ok_app in Hok as [HL [Hbc HR]]. cbn [fst snd] in *.
  pose proof (total_nonneg L). pose proof (total_nonneg R). pose proof (length_pbytes big (lastsize 0 L)).
  rewrite total_app in *. cbn [total length] in *. change (esize (big, c)) with (psize big + Z.of_nat (length c)) in *.
  pose proof (psize_range big). pose proof (psize_range (need n)). assert (nd = psize (need n) - psize big) as End by done.
  unfold insert_room.
  set (T := 11 + (total L + (psize big + Z.of_nat (length c) + total R))) in *.
  rewrite (u32_small (T + n + nd)) by lia.
  set (o := 10 + before_last (L ++ (big, c) :: R)).
  set (pv := lastsize 0 L) in *. set (S_ := image (psize big + Z.of_nat (length c)) R).
  assert (zblk l (L ++ (big, c) :: R) = hdr T o l ++ (image 0 L ++ pbytes big pv ++ c ++ S_) ++ [z2b ZIP_END]) as ->.
  { unfold zblk. rewrite total_app, image_app. cbn [total image]. unfold ebytes. cbn [fst snd]. by rewrite <-!app_assoc. }
  assert (Z.of_nat (length S_) = total R) as HS by (unfold S_; apply length_image).
  destruct (resize_room T o l (image 0 L ++ pbytes big pv ++ c ++ S_) (T + n + nd)) as (g & -> & Hg & _).
  { unfold T. rewrite !length_app, !Nat2Z.inj_add, length_image. lia. } { lia. }
  cbn [option_bind mbind].
  set (t' := T + n + nd) in *. assert (ent_ok be pv (big, c)) as Hent by exact Hbc.
  assert (Z.of_nat (length (hdr t' o l ++ image 0 L)) = 10 + total L) as Ep by (rewrite hdr_prefix, length_image; done).
  assert (0 <= pv) as Hpv by (unfold pv; apply lastsize_nonneg; lia).
  replace (hdr t' o l ++ (image 0 L ++ pbytes big pv ++ c ++ S_) ++ g ++ [z2b ZIP_END])
    with ((hdr t' o l ++ image 0 L) ++ ebytes pv (big, c) ++ (S_ ++ g ++ [z2b ZIP_END])) by (unfold ebytes; cbn [fst snd]; by rewrite <-!app_assoc).
  destruct (first_byte be (hdr t' o l ++ image 0 L) pv (big, c) (S_ ++ g ++ [z2b ZIP_END]) Hent Hpv) as (d & Ed & Ed').
  rewrite Ep in Ed. rewrite Ed. cbn [option_bind mbind]. rewrite Ed'. cbn [negb]. clear d Ed Ed'.
  destruct (gap_move t' o l (image 0 L) pv big c S_ g n) as (gap & old & Hgap & Hold & Emove); [fold nd; lia|done|fold nd; lia|].
  fold nd in Emove. rewrite length_image in Emove.
  replace (u64 (T - (10 + total L) - 1 + nd)) with (psize big + Z.of_nat (length c + length S_) + nd) by (rewrite u64_small by lia; unfold T; lia).
  replace ((hdr t' o l ++ image 0 L) ++ ebytes pv (big, c) ++ S_ ++ g ++ [z2b ZIP_END])
    with (hdr t' o l ++ image 0 L ++ pbytes big pv ++ c ++ S_ ++ g ++ [z2b ZIP_END]) by (unfold ebytes; cbn [fst snd]; by rewrite <-!app_assoc).
  rewrite Emove. cbn [option_bind mbind]. clear Emove g Hg.
  assert (forall o, Z.of_nat (length (hdr t' o l ++ image 0 L ++ gap)) = 10 + total L + n) as Epn by (intros o1; rewrite hdr_prefix, length_app, Nat2Z.inj_add, length_image; lia).
  replace (hdr t' o l ++ image 0 L ++ gap ++ old ++ c ++ S_ ++ [z2b ZIP_END]) with ((hdr t' o l ++ image 0 L ++ gap) ++ old ++ (c ++ S_ ++ [z2b ZIP_END])) by by rewrite <-!app_assoc.
  rewrite (u32_small n) by lia. rewrite (write_prev be (hdr t' o l ++ image 0 L ++ gap) old); [|done|by rewrite Epn]. cbn [option_bind mbind].
  pose proof (before_last_range R) as HblR.
  assert (o = 10 + total L + before_last ((big, c) :: R)) as Eo by (unfold o; rewrite before_last_app by done; lia).
  rewrite before_last_cons in Eo. change (esize (big, c)) with (psize big + Z.of_nat (length c)) in Eo.
  rewrite <-(app_assoc (hdr t' o l)), add_tail by (destruct R; lia). cbn [option_bind mbind].
  assert (ent_ok be n e) as He by (split; [intros En; by apply need_small|apply Hbc]).
  assert (esize e = psize (need n) + Z.of_nat (length c)) as Ese by done.
  replace (hdr t' (o + n) l ++ (image 0 L ++ gap) ++ pbytes (need n) n ++ c ++ S_ ++ [z2b ZIP_END])
    with ((hdr t' (o + n) l ++ image 0 L ++ gap) ++ ebytes n e ++ (S_ ++ [z2b ZIP_END])) by (unfold ebytes; cbn [fst snd e]; by rewrite <-!app_assoc).
  destruct (zipEntry_spec be (hdr t' (o + n) l ++ image 0 L ++ gap) n e (S_ ++ [z2b ZIP_END]) He) as (z & Ez & Hz); [lia|lia|].
  rewrite Epn in Ez, Hz. rewrite Ez. cbn [option_bind mbind]. pose proof (entry_rawlen _ _ _ _ Hz) as Hraw.
  rewrite u64_small by lia. replace (10 + total L + (n + headersize z + len z)) with (10 + total L + n + esize e) by lia.
  rewrite <-!app_assoc, (app_assoc (image 0 L)).
  assert (Z.of_nat (length (image 0 L ++ gap)) = total L + n) as EA by (rewrite length_app, Nat2Z.inj_add, length_image; lia).
  unfold S_. change (psize big + Z.of_nat (length c)) with (esize (big, c)) in *.
  assert (esize (big, c) = psize big + Z.of_nat (length c)) as Ebc by done.
  rewrite tail_fix; [|done|lia|destruct R; lia|destruct R; lia|lia]. cbn [option_bind mbind].
  assert (hdr t' (o + n + match R with [] => 0 | _ => nd end) l ++ (image 0 L ++ gap) ++ ebytes n e ++ image (esize (big, c)) R ++ [z2b ZIP_END]
    = blk l (image 0 L ++ gap) n e (esize (big, c)) R) as ->.
  { unfold blk. rewrite EA, before_last_cons. cbn [total]. do 2 f_equal; [lia|]. destruct R; lia. }
  exists gap. split; [done|].
  assert (blk l (image 0 L ++ gap) n e (esize e) (fixup (esize e) R) = hdr (11 + total L + n + total R') (10 + total L + n + before_last R') l
    ++ image 0 L ++ gap ++ image n R' ++ [z2b ZIP_END]) as <-.
  { unfold blk, R'. rewrite EA. cbn [image]. rewrite <-!app_assoc. do 2 f_equal; lia. }
  destruct (Z.eqb_spec nd 0) as [E0|E0]; cbn [negb].
  - assert (esize (big, c) = esize e) as E1 by lia. rewrite E1 in *. by rewrite (fixup_same be).
  - replace (10 + total L + n) with (10 + Z.of_nat (length (image 0 L ++ gap))) by lia.
    apply cascade_update; [done|lia|done|lia|]. rewrite EA. cbn [total]. lia.
Qed.

(** Without enough room: when the field before the entry shrinks by four and
    the new entry takes two bytes, the block is made two bytes shorter and the
    move then reads one byte after its end. *)
Lemma room_short l L c R : 11 + total (L ++ (true, c) :: R) < 2 ^ 31 ->
  insert_room be junk (zblk l (L ++ (true, c) :: R)) (10 + total L) (11 + total (L ++ (true, c) :: R)) 2 (-4) = None.
Proof.
  intros Hb. pose proof (total_nonneg L). pose proof (total_nonneg R). set (T := total (L ++ (true, c) :: R)) in *.
  assert (T = total L + (5 + Z.of_nat (length c) + total R)) as HT by (unfold T; by rewrite total_app).
  set (o := 10 + before_last (L ++ (true, c) :: R)). set (pv := lastsize 0 L). set (X := le_bytes 4 pv ++ c ++ image (esize (true, c)) R).
  assert (Z.of_nat (length X) = 4 + Z.of_nat (length c) + total R) as HX.
  { unfold X. rewrite !length_app, length_le_bytes, !Nat2Z.inj_add, length_image. lia. }
  assert (zblk l (L ++ (true, c) :: R) = hdr (11 + T) o l ++ (image 0 L ++ z2b ZIP_BIGLEN :: X) ++ [z2b ZIP_END]) as ->.
  { unfold zblk. rewrite image_app. cbn [image]. unfold ebytes, X. cbn [fst snd pbytes]. rewrite <-!app_assoc. cbn [app]. by rewrite <-!app_assoc. }
  set (Y := take (length X - 2) X). set (x := drop (length X - 2) X).
  assert (exists x0 m2, x ++ [z2b ZIP_END] = x0 :: m2) as (x0 & m2 & Ex).
  { destruct (x ++ [z2b ZIP_END]) as [|x0 m2] eqn:Ex; [by destruct x|by exists x0, m2]. }
  assert (Z.of_nat (length Y) = Z.of_nat (length X) - 2) as HY by (unfold Y; rewrite length_take; lia).
  assert (hdr (11 + T) o l ++ (image 0 L ++ z2b ZIP_BIGLEN :: X) ++ [z2b ZIP_END] = hdr (11 + T) o l ++ (image 0 L ++ z2b ZIP_BIGLEN :: Y) ++ x0 :: m2) as ->.
  { rewrite <-Ex. rewrite <-(take_drop (length X - 2) X) at 1. fold Y x. rewrite <-!app_assoc. cbn [app]. by rewrite <-!app_assoc. }
  unfold insert_room. rewrite (u32_small (11 + T + 2 + -4)) by lia.
  assert (Z.of_nat (length (image 0 L ++ z2b ZIP_BIGLEN :: Y)) = T - 2) as HM by (rewrite length_app, Nat2Z.inj_add, length_image; cbn [length]; lia).
  rewrite zl_resize_shrink by lia. cbn [option_bind mbind].
  assert (Z.of_nat (length (hdr (11 + T + 2 + -4) o l ++ image 0 L)) = 10 + total L) as Ep by (rewrite hdr_prefix, length_image; done).
  replace (hdr (11 + T + 2 + -4) o l ++ (image 0 L ++ z2b ZIP_BIGLEN :: Y) ++ [z2b ZIP_END])
    with ((hdr (11 + T + 2 + -4) o l ++ image 0 L) ++ z2b ZIP_BIGLEN :: Y ++ [z2b ZIP_END]) by by rewrite <-!app_assoc.
  rewrite at_app by done. cbn [option_bind mbind]. change (negb (b2z (z2b ZIP_BIGLEN) =? ZIP_END)) with true. cbv iota.
  unfold memmove, mem_read. rewrite decide_False; [done|]. rewrite u64_small by lia. rewrite length_app, Nat2Z.inj_add, Ep. cbn [length]. rewrite length_app. cbn [length]. lia.
Qed.

(** ** Insertion *)

Definition incr_len l (d : Z) : Z := if l <? UINT16_MAX then u16 (l + d) else l.

Lemma incr_spec t o l m d : 0 <= l < 65536 -> ZIPLIST_INCR_LENGTH be (hdr t o l ++ m) d = Some (hdr t o (incr_len l d) ++ m).
Proof.
  intros Hl. unfold ZIPLIST_INCR_LENGTH, incr_len. rewrite read_zllen. cbn [option_bind mbind]. rewrite (u16_small l) by lia.
  rewrite zllen_max, intrev16ifbe_involutive by done. destruct (l <? UINT16_MAX); [|done]. apply write_zllen.
Qed.

Lemma zblk_bytes l es : total es + 11 < 2 ^ 31 -> (b ← ZIPLIST_BYTES be (zblk l es); Some (intrev32ifbe be b)) = Some (11 + total es).
Proof.
  intros Hb. pose proof (total_nonneg es). unfold zblk. rewrite read_bytes. cbn [option_bind mbind].
  by rewrite intrev_u32, u32_small by lia.
Qed.

(** The parts of a list around an entry. *)
Lemma zblk_split l L e R : exists post,
  zblk l (L ++ e :: R) = (hdr (11 + total (L ++ e :: R)) (10 + before_last (L ++ e :: R)) l ++ image 0 L) ++ ebytes (lastsize 0 L) e ++ post /\
  post = image (esize e) R ++ [z2b ZIP_END] /\
  Z.of_nat (length (hdr (11 + total (L ++ e :: R)) (10 + before_last (L ++ e :: R)) l ++ image 0 L)) = 10 + total L.
Proof.
  eexists. split; [|split; [reflexivity|by rewrite hdr_prefix, length_image]].
  unfold zblk. rewrite image_app. cbn [image]. by rewrite <-!app_assoc.
Qed.

Lemma zblk_end l L : zblk l L = (hdr (11 + total L) (10 + before_last L) l ++ image 0 L) ++ [z2b ZIP_END] /\
  Z.of_nat (length (hdr (11 + total L) (10 + before_last L) l ++ image 0 L)) = 10 + total L.
Proof. split; [unfold zblk; by rewrite <-app_assoc|by rewrite hdr_prefix, length_image]. Qed.

Lemma at_end l L : at_ (zblk l L) (10 + total L) = Some ZIP_END.
Proof. destruct (zblk_end l L) as [-> <-]. by rewrite at_app. Qed.

Lemma at_entry l L e R : ents_ok be 0 (L ++ e :: R) -> exists d, at_ (zblk l (L ++ e :: R)) (10 + total L) = Some d /\ (d =? ZIP_END) = false.
Proof.
  intros [_ [He _]]%ents_ok_app. destruct (zblk_split l L e R) as (post & -> & _ & <-).
  apply (first_byte be); [done|]. by apply lastsize_nonneg.
Qed.

Lemma lastsize_bound L R : 11 + total (L ++ R) < 2 ^ 31 -> 0 <= lastsize 0 L < 2 ^ 32.
Proof.
  rewrite total_app. intros Hb. pose proof (total_nonneg R). split; [by apply lastsize_nonneg|].
  destruct (lastsize_le 0 L) as [->|]; [lia|cbn; lia|lia].
Qed.

Lemma esize_bound (L : list ent) e R : 11 + total (L ++ e :: R) < 2 ^ 31 -> esize e < 2 ^ 32.
Proof. rewrite total_app. cbn [total]. pose proof (total_nonneg L). pose proof (total_nonneg R). lia. Qed.

Lemma entry_spec l L e R : ents_ok be 0 (L ++ e :: R) -> 11 + total (L ++ e :: R) < 2 ^ 31 ->
  exists z, zipEntry be (zblk l (L ++ e :: R)) (10 + total L) = Some z /\ entry_at (lastsize 0 L) e (10 + total L) z.
Proof.
  intros [_ [He _]]%ents_ok_app Hb. destruct (zblk_split l L e R) as (post & -> & _ & <-).
  apply zipEntry_spec; [done|by eapply lastsize_bound|by eapply esize_bound].
Qed.

Lemma raw_spec l L e R : ents_ok be 0 (L ++ e :: R) -> 11 + total (L ++ e :: R) < 2 ^ 31 ->
  zipRawEntryLength (zblk l (L ++ e :: R)) (10 + total L) = Some (esize e).
Proof.
  intros [_ [He _]]%ents_ok_app Hb. destruct (zblk_split l L e R) as (post & -> & _ & <-).
  apply (rawlen_spec be); [done|by eapply lastsize_bound|by eapply esize_bound].
Qed.

Lemma tail_spec l es : 11 + total es < 2 ^ 31 -> ZIPLIST_ENTRY_TAIL be (zblk l es) = Some (10 + before_last es).
Proof.
  intros Hb. unfold ZIPLIST_ENTRY_TAIL, zblk. rewrite read_tail. cbn [option_bind mbind].
  pose proof (before_last_range es). pose proof (total_nonneg es). by rewrite intrev_u32, u32_small by lia.
Qed.

Lemma last_entry (L : list ent) : L = [] \/ exists L' e, L = L' ++ [e].
Proof. destruct L as [|e L _] using rev_ind; [by left|right]. by exists L, e. Qed.

Lemma prevlen_spec l L R : ents_ok be 0 (L ++ R) -> 11 + total (L ++ R) < 2 ^ 31 ->
  insert_prevlen be (zblk l (L ++ R)) (10 + total L) = Some (lastsize 0 L).
Proof.
  intros Hok Hb. unfold insert_prevlen. destruct R as [|e R].
  - rewrite app_nil_r in *. rewrite at_end. cbn [option_bind mbind]. rewrite Z.eqb_refl. cbn [negb].
    rewrite tail_spec by done. cbn [option_bind mbind]. destruct (last_entry L) as [->|(L' & e & ->)].
    + change (10 + before_last []) with (10 + total []). rewrite at_end. cbn [option_bind mbind]. by rewrite Z.eqb_refl.
    + rewrite before_last_app by done. change (before_last [e]) with 0. rewrite Z.add_0_r.
      destruct (at_entry l L' e [] Hok) as (b & -> & Hb'). cbn [option_bind mbind]. rewrite Hb'. cbn [negb].
      rewrite raw_spec by done. by rewrite lastsize_app.
  - destruct (at_entry l L e R Hok) as (b & -> & Hb'). cbn [option_bind mbind]. rewrite Hb'. cbn [negb].
    destruct (entry_spec l L e R Hok Hb) as (z & -> & Hz). cbn [option_bind mbind].
    by destruct Hz as (? & ? & ? & _ & _ & _ & _ & ->).
Qed.

(** Writing the new entry into the gap. *)
Lemma write_entry t o l A gap rest s pv p :
  Z.of_nat (length gap) = psize (need pv) + Z.of_nat (length (body_of s)) -> p = 10 + Z.of_nat (length A) -> Z.of_nat (length s) < 2 ^ 31 -> 0 <= l < 65536 ->
  let '(value, enc) := match try_int s with Some (v, e) => (v, e) | None => (123456789, 0) end in
  ('(zl, n) ← zipPrevEncodeLength be (hdr t o l ++ A ++ gap ++ rest) (Some p) pv;
   let p := p + n in
   '(zl, n) ← zipEncodeLength zl (Some p) enc (Z.of_nat (length s));
   let p := p + n in
   zl ← (if ZIP_IS_STR enc then src ← mem_read s 0 (Z.of_nat (length s)); mem_write zl p src else zipSaveInteger be zl p value enc);
   ZIPLIST_INCR_LENGTH be zl 1) = Some (hdr t o (incr_len l 1) ++ A ++ ebytes pv (need pv, body_of s) ++ rest).
Proof.
  intros Hgap Hp Hs Hl. pose proof (psize_range (need pv)).
  assert (exists g1 g2, gap = g1 ++ g2 /\ Z.of_nat (length g1) = psize (need pv) /\ Z.of_nat (length g2) = Z.of_nat (length (body_of s)))
    as (g1 & g2 & -> & Hg1 & Hg2).
  { exists (take (Z.to_nat (psize (need pv))) gap), (drop (Z.to_nat (psize (need pv))) gap). rewrite take_drop, length_take, length_drop. split_and!; [done|lia|lia]. }
  replace (hdr t o l ++ A ++ (g1 ++ g2) ++ rest) with ((hdr t o l ++ A) ++ g1 ++ (g2 ++ rest)) by by rewrite <-!app_assoc.
  assert (write_prev_ok : zipPrevEncodeLength be ((hdr t o l ++ A) ++ g1 ++ g2 ++ rest) (Some p) pv
    = Some ((hdr t o l ++ A) ++ pbytes (need pv) pv ++ g2 ++ rest, psize (need pv))) by (apply write_prev; [done|by rewrite hdr_prefix]).
  rewrite write_prev_ok. clear write_prev_ok. set (Q := (hdr t o l ++ A) ++ pbytes (need pv) pv).
  assert (Z.of_nat (length Q) = p + psize (need pv)) as HQ by (unfold Q; rewrite length_app, Nat2Z.inj_add, hdr_prefix, length_pbytes; lia).
  unfold body_of in *. pose proof (try_spec s) as [_ Ht].
  assert (forall buf h pl, g2 = h ++ pl -> length h = length buf ->
    mem_write ((hdr t o l ++ A) ++ pbytes (need pv) pv ++ g2 ++ rest) (p + psize (need pv)) (z2b <$> buf) = Some ((Q ++ (z2b <$> buf)) ++ pl ++ rest)) as Hhead.
  { intros buf h pl -> Hh. rewrite (app_assoc (hdr t o l ++ A)). fold Q. rewrite <-(app_assoc h).
    rewrite mem_write_app by (rewrite ?length_fmap; lia). by rewrite <-!app_assoc. }
  assert (forall pl, (hdr t o l ++ A ++ (pbytes (need pv) pv ++ pl)) ++ rest = Q ++ pl ++ rest) as HQe by (intros pl; unfold Q; by rewrite <-!app_assoc).
  cbn [option_bind mbind]. unfold zipEncodeLength.
  destruct (try_int s) as [[v enc]|] eqn:Et.
  - destruct Ht as (_ & _ & Hin). destruct (int_not_str v enc Hin) as [Hns _]. unfold length_buf. rewrite Hns.
    destruct g2 as [|x g2]; [cbn in Hg2; lia|]. rewrite (Hhead [enc] [x] g2) by done. cbn [option_bind mbind length].
    rewrite (save_spec be v enc (Q ++ (z2b <$> [enc])) g2 rest) 
      by (first [done|cbn [length] in Hg2; lia|rewrite length_app; cbn [fmap list_fmap length]; lia]).
    cbn [option_bind mbind]. unfold Q. rewrite <-!app_assoc. rewrite incr_spec by done. unfold ebytes. cbn. by rewrite <-!app_assoc.
  - change (ZIP_IS_STR 0) with true. cbv iota. set (n := Z.of_nat (length s)) in *.
    assert (length (len_bytes n) = length (length_buf 0 n)) as Hlb by apply length_fmap. rewrite length_app in Hg2.
    assert (exists h pl, g2 = h ++ pl /\ length h = length (length_buf 0 n)) as (h & pl & -> & Hh).
    { exists (take (length (length_buf 0 n)) g2), (drop (length (length_buf 0 n)) g2). rewrite take_drop, length_take. split; [done|lia]. }
    rewrite (Hhead (length_buf 0 n) h pl) by done. cbn [option_bind mbind].
    fold (len_bytes n). rewrite length_app in Hg2.
    assert (mem_read s 0 n = Some s) as ->. { pose proof (mem_read_0 s [] n eq_refl) as E. by rewrite app_nil_r in E. } cbn [option_bind mbind].
    rewrite mem_write_app by (rewrite ?length_app; lia). cbn [option_bind mbind].
    unfold Q. rewrite <-!app_assoc. rewrite incr_spec by done. unfold ebytes. cbn [fst snd]. by rewrite <-!app_assoc.
Qed.
(** The new entry, and the entries after it. *)
Definition new_ent L s : ent := (need (lastsize 0 L), body_of s).
Definition refit prev R : list ent :=
  match R with [] => [] | (_, c) :: R => let e' := (need prev, c) in e' :: fixup (esize e') R end.
Definition insert_at L s R : list ent := L ++ new_ent L s :: refit (esize (new_ent L s)) R.

(** The next entry's field does not shrink by more than the new entry takes. *)
Definition room_ok (e : ent) R : Prop :=
  match R with [] => True | (big, _) :: _ => 0 <= esize e + psize (need (esize e)) - psize big end.

Lemma body_pos s : 1 <= Z.of_nat (length (body_of s)).
Proof.
  rewrite body_size. pose proof (try_spec s) as [_ H]. destruct (try_int s) as [[v enc]|].
  - destruct H as (_ & _ & Hin). pose proof (int_size v enc Hin). lia.
  - unfold len_bytes. rewrite length_fmap. unfold length_buf. change (ZIP_IS_STR 0) with true. cbv iota.
    destruct (_ <=? _); [cbn [length]; lia|]. destruct (_ <=? _); cbn [length]; lia.
Qed.

Lemma new_ent_pos L s : 2 <= esize (new_ent L s).
Proof. pose proof (body_pos s). pose proof (psize_range (need (lastsize 0 L))). unfold esize, new_ent. cbn [fst snd]. lia. Qed.

Lemma refit_total prev R : total (refit prev R) <= total R + 4 * Z.of_nat (length R).
Proof.
  destruct R as [|[big c] R]; [done|]. cbn [refit total length]. pose proof (total_fixup (esize (need prev, c)) R) as H.
  change (esize (need prev, c)) with (psize (need prev) + Z.of_nat (length c)) in *. change (esize (big, c)) with (psize big + Z.of_nat (length c)).
  pose proof (psize_range (need prev)). pose proof (psize_range big). lia.
Qed.

Lemma refit_ok old prev R : ents_ok be old R -> ents_ok be prev (refit prev R).
Proof.
  destruct R as [|[big c] R]; [done|]. intros [[Hb Hc] HR]. split.
  - split; [intros En; by apply need_small|done].
  - by eapply fixup_ok.
Qed.

Lemma insert_at_ok L s R : ents_ok be 0 (L ++ R) -> Z.of_nat (length s) < 2 ^ 31 -> ents_ok be 0 (insert_at L s R).
Proof.
  intros [HL HR]%ents_ok_app Hs. apply ents_ok_app. split; [done|]. split.
  - split; [intros En; by apply need_small|by apply body_of_ok].
  - by eapply refit_ok.
Qed.

Lemma encode_null zl enc n : zipEncodeLength zl None enc n = Some (zl, Z.of_nat (length (length_buf enc n))).
Proof. done. Qed.

Lemma zip_insert_spec l L R s :
  ents_ok be 0 (L ++ R) -> Z.of_nat (length s) < 2 ^ 31 -> 0 <= l < 65536 -> room_ok (new_ent L s) R ->
  11 + total (L ++ R) + esize (new_ent L s) + 4 * Z.of_nat (length R) < 2 ^ 31 ->
  __ziplistInsert be junk (zblk l (L ++ R)) (10 + total L) s (Z.of_nat (length s)) = Some (zblk (incr_len l 1) (insert_at L s R)).
Proof.
  intros Hok Hs Hl Hroom Hb. set (e := new_ent L s) in *. pose proof (new_ent_pos L s) as Hn. fold e in Hn.
  pose proof (total_nonneg (L ++ R)). pose proof (total_nonneg L). pose proof (total_nonneg R).
  unfold __ziplistInsert. pose proof (zblk_bytes l (L ++ R) ltac:(lia)) as Hbytes. destruct (ZIPLIST_BYTES be (zblk l (L ++ R))) as [bytes|]; [|done].
  cbn [option_bind mbind] in *. injection Hbytes as ->. rewrite prevlen_spec by (done || lia). cbn [option_bind mbind].
  pose proof (try_spec s) as [-> _]. cbn [option_bind mbind].
  pose proof (fun t o gap rest => write_entry t o l (image 0 L) gap rest s (lastsize 0 L) (10 + total L)) as Hwrite. cbv zeta in Hwrite.
  assert (let '(value, enc) := match try_int s with Some (v, e) => (v, e) | None => (123456789, 0) end in
    (match try_int s with Some _ => zipIntSize enc | None => Z.of_nat (length s) end) + psize (need (lastsize 0 L)) + Z.of_nat (length (length_buf enc (Z.of_nat (length s)))) = esize e) as Hreq.
  { unfold e, new_ent, esize. cbn [fst snd]. rewrite body_size. pose proof (try_spec s) as [_ Ht]. destruct (try_int s) as [[v enc]|].
    - destruct Ht as (_ & _ & Hin). destruct (int_not_str v enc Hin) as [Hns _]. unfold length_buf. rewrite Hns. cbn [length]. lia.
    - unfold len_bytes. rewrite length_fmap. lia. }
  destruct (match try_int s with Some (v, e) => (v, e) | None => (123456789, 0) end) as [value enc] eqn:Evalue.
  rewrite need_size. cbn [option_bind mbind]. rewrite encode_null. cbn [option_bind mbind]. rewrite Hreq.
  assert (esize e = psize (need (lastsize 0 L)) + Z.of_nat (length (body_of s))) as Ee by done.
  unfold insert_at. fold e. destruct R as [|[big c] R].
  - rewrite app_nil_r in *. rewrite at_end. cbn [option_bind mbind]. rewrite Z.eqb_refl. cbn [negb].
    cbn [option_bind mbind].
    destruct (room_end l L (esize e)) as (gap & Hgap & ->); [lia|cbn [length] in *; lia|]. cbn [option_bind mbind].
    rewrite (Hwrite _ _ gap [z2b ZIP_END]) by (done || lia || by rewrite length_image).
    cbn [refit]. unfold zblk. rewrite image_app, total_app, before_last_app by done. cbn [total image].
    change (before_last [e]) with 0. rewrite <-!app_assoc. do 3 f_equal; lia.
  - destruct (at_entry l L (big, c) R Hok) as (d & -> & Hd). cbn [option_bind mbind]. rewrite Hd. cbn [negb].
    cbn [room_ok refit length] in *. apply ents_ok_app in Hok as Hok'. destruct Hok' as [_ [Hbc _]].
    assert (zipPrevLenByteDiff be (zblk l (L ++ (big, c) :: R)) (10 + total L) (u32 (esize e)) = Some (psize (need (esize e)) - psize big)) as ->.
    { destruct (zblk_split l L (big, c) R) as (post & -> & _ & <-). rewrite u32_small by lia. apply diff_spec; [done|by apply lastsize_nonneg|lia]. }
    cbn [option_bind mbind].
    destruct (room_mid l L big c R (esize e) Hok) as (gap & Hgap & ->); [lia|lia|lia|]. cbn [option_bind mbind].
    rewrite (Hwrite _ _ gap) by (done || lia || by rewrite length_image).
    unfold zblk. rewrite image_app, total_app, (before_last_app L) by done. rewrite (before_last_cons e). cbn [total image].
    rewrite <-!app_assoc. do 3 f_equal; lia.
Qed.

(** An insertion for which no room is made does not return. *)
Lemma zip_insert_none l L big c R s :
  ents_ok be 0 (L ++ (big, c) :: R) -> Z.of_nat (length s) < 2 ^ 31 -> let n := esize (new_ent L s) in
  11 + total (L ++ (big, c) :: R) + n < 2 ^ 31 ->
  insert_room be junk (zblk l (L ++ (big, c) :: R)) (10 + total L) (11 + total (L ++ (big, c) :: R)) n (psize (need n) - psize big) = None ->
  __ziplistInsert be junk (zblk l (L ++ (big, c) :: R)) (10 + total L) s (Z.of_nat (length s)) = None.
Proof.
  intros Hok Hs n Hb Hroom. pose proof (new_ent_pos L s) as Hn. fold n in Hn. pose proof (total_nonneg (L ++ (big, c) :: R)).
  unfold __ziplistInsert. pose proof (zblk_bytes l (L ++ (big, c) :: R) ltac:(lia)) as Hbytes. destruct (ZIPLIST_BYTES be _) as [bytes|]; [|done].
  cbn [option_bind mbind] in *. injection Hbytes as ->. rewrite prevlen_spec by (done || lia). cbn [option_bind mbind].
  pose proof (try_spec s) as [-> Ht]. cbn [option_bind mbind].
  assert (let '(value, enc) := match try_int s with Some (v, e) => (v, e) | None => (123456789, 0) end in
    (match try_int s with Some _ => zipIntSize enc | None => Z.of_nat (length s) end) + psize (need (lastsize 0 L)) + Z.of_nat (length (length_buf enc (Z.of_nat (length s)))) = n) as Hreq.
  { unfold n, new_ent, esize. cbn [fst snd]. rewrite body_size. destruct (try_int s) as [[v enc]|].
    - destruct Ht as (_ & _ & Hin). destruct (int_not_str v enc Hin) as [Hns _]. unfold length_buf. rewrite Hns. cbn [length]. lia.
    - unfold len_bytes. rewrite length_fmap. lia. }
  destruct (match try_int s with Some (v, e) => (v, e) | None => (123456789, 0) end) as [value enc].
  rewrite need_size. cbn [option_bind mbind]. rewrite encode_null. cbn [option_bind mbind]. rewrite Hreq.
  destruct (at_entry l L (big, c) R Hok) as (d & -> & Hd). cbn [option_bind mbind]. rewrite Hd. cbn [negb].
  apply ents_ok_app in Hok as [_ [Hbc _]]. destruct (zblk_split l L (big, c) R) as (post & Eb & _ & Ep).
  assert (zipPrevLenByteDiff be (zblk l (L ++ (big, c) :: R)) (10 + total L) (u32 n) = Some (psize (need n) - psize big)) as ->.
  { rewrite Eb, <-Ep, u32_small by lia. apply diff_spec; [done|by apply lastsize_nonneg|lia]. }
  cbn [option_bind mbind]. by rewrite Hroom.
Qed.

(** ** Deletion *)

Lemma skip_spec l D : forall L R fuel num i,
  ents_ok be 0 (L ++ D ++ R) -> 11 + total (L ++ D ++ R) < 2 ^ 31 -> 0 <= i -> num < 2 ^ 32 -> (length D < fuel)%nat ->
  i + Z.of_nat (length D) <= num -> R = [] \/ i + Z.of_nat (length D) = num ->
  skip_loop fuel (zblk l (L ++ D ++ R)) (10 + total L) num i = Some (10 + total (L ++ D), i + Z.of_nat (length D)).
Proof.
  induction D as [|e D IH]; intros L R fuel num i Hok Hb Hi Hnum Hf Hle Hend; (destruct fuel as [|fuel]; [cbn in Hf; lia|]); cbn [skip_loop length] in *.
  - rewrite app_nil_r, Z.add_0_r. destruct R as [|r R].
    + rewrite app_nil_r, at_end. cbn [option_bind mbind]. by rewrite Z.eqb_refl.
    + destruct Hend as [|Hend]; [done|]. destruct (at_entry l L r R Hok) as (d & Ed & Hd). cbn [app] in *. rewrite Ed. cbn [option_bind mbind]. rewrite Hd.
      destruct (Z.ltb_spec i num); [lia|]. done.
  - cbn [app] in *. destruct (at_entry l L e (D ++ R) Hok) as (d & Ed & Hd). rewrite Ed. cbn [option_bind mbind]. rewrite Hd. cbn [negb andb].
    destruct (Z.ltb_spec i num); [|lia]. rewrite raw_spec by done. cbn [option_bind mbind]. rewrite u32_small by lia.
    assert (forall X, L ++ e :: X = (L ++ [e]) ++ X) as Ea by (intros X; by rewrite <-app_assoc).
    rewrite (Ea (D ++ R)), (Ea D) in *. replace (10 + total L + esize e) with (10 + total (L ++ [e])) by (rewrite total_app; cbn [total]; lia).
    rewrite IH; [f_equal; f_equal; lia|done|done|lia|done|lia|lia|]. destruct Hend as [->|Hend]; [by left|right; lia].
Qed.

Lemma before_last_lastsize L : before_last L = total L - lastsize 0 L.
Proof.
  destruct (last_entry L) as [->|(L' & e & ->)]; [done|]. rewrite before_last_app, total_app, lastsize_app by done. cbn [total lastsize].
  change (before_last [e]) with 0. lia.
Qed.

(** Deleting the end of the list. *)
Lemma delete_end l L D z : D <> [] -> 11 + total (L ++ D) < 2 ^ 31 -> entry_at (lastsize 0 L) (default (false, []) (head D)) (10 + total L) z ->
  delete_move be (zblk l (L ++ D)) (10 + total (L ++ D)) z (total D)
  = Some (hdr (11 + total (L ++ D)) (10 + before_last L) l ++ image 0 (L ++ D) ++ [z2b ZIP_END], 0).
Proof.
  intros HD Hb Hz. unfold delete_move. rewrite at_end. cbn [option_bind mbind]. rewrite Z.eqb_refl. cbn [negb].
  destruct Hz as (enc & ls & ln & _ & _ & _ & _ & ->). cbn [prevrawlen e_p].
  pose proof (before_last_lastsize L). pose proof (before_last_range L). rewrite total_app in Hb. pose proof (total_nonneg D).
  rewrite u32_small by lia. unfold zblk. rewrite write_tail. cbn [option_bind mbind]. do 4 f_equal. lia.
Qed.

(** A needed large field was already there, in the first deleted entry. *)
Lemma delete_room L e D R big : ents_ok be 0 (L ++ (e :: D) ++ R) -> 0 <= total (e :: D) - (psize (need (lastsize 0 L)) - psize big).
Proof.
  intros [_ [[Hb Hok] _]]%ents_ok_app. cbn [total]. pose proof (total_nonneg D). pose proof (psize_range big).
  assert (esize e = psize e.1 + Z.of_nat (length e.2)) as -> by done. unfold need in *.
  destruct (Z.leb_spec 254 (lastsize 0 L)); cbn [psize]; [|pose proof (psize_range e.1); lia].
  destruct e.1; cbn [psize]; [lia|]. specialize (Hb eq_refl). lia.
Qed.

(** Deleting before an entry: its field is rewritten in place and it moves,
    with what follows, to the front. *)
Lemma delete_mid l L D big c R z :
  let pv := lastsize 0 L in let nd := psize (need pv) - psize big in let e := (need pv, c) in
  ents_ok be 0 (L ++ D ++ (big, c) :: R) -> D <> [] -> 11 + total (L ++ D ++ (big, c) :: R) + 4 < 2 ^ 31 ->
  entry_at pv (default (false, []) (head D)) (10 + total L) z ->
  exists m, delete_move be (zblk l (L ++ D ++ (big, c) :: R)) (10 + total (L ++ D)) z (total D)
  = Some (hdr (11 + total (L ++ D ++ (big, c) :: R)) (10 + total L + before_last (e :: R)) l
      ++ image 0 L ++ (ebytes pv e ++ image (esize (big, c)) R) ++ m ++ [z2b ZIP_END], nd).
Proof.
  intros pv nd e Hok HD Hb Hz. unfold delete_move.
  assert (0 <= total D - nd) as Hroom. { destruct D as [|e0 D]; [done|]. by apply (delete_room L e0 D _ big Hok). }
  rewrite app_assoc in Hok. apply ents_ok_app in Hok as Hok'. destruct Hok' as [_ [Hbc HR]].
  pose proof (total_nonneg L). pose proof (total_nonneg D). pose proof (total_nonneg R).
  destruct (at_entry l (L ++ D) (big, c) R Hok) as (d & Ed & Hd). rewrite <-app_assoc in Ed. rewrite Ed. cbn [option_bind mbind]. rewrite Hd. cbn [negb]. clear d Ed Hd.
  destruct Hz as (enc & ls & ln & _ & _ & _ & _ & ->). cbn [prevrawlen e_p].
  assert (0 <= pv < 2 ^ 32) as Hpv by (apply (lastsize_bound L (D ++ (big, c) :: R)); lia).
  set (T := 11 + total (L ++ D ++ (big, c) :: R)) in *.
  assert (T = 11 + total L + total D + esize (big, c) + total R) as ET by (unfold T; rewrite !total_app; cbn [total]; lia).
  set (o := 10 + before_last (L ++ D ++ (big, c) :: R)).
  set (old := lastsize 0 (L ++ D)) in *. set (S_ := image (esize (big, c)) R).
  assert (forall t o l, zipPrevLenByteDiff be (hdr t o l ++ image 0 L ++ image pv D ++ ebytes old (big, c) ++ S_ ++ [z2b ZIP_END]) (10 + total (L ++ D)) pv = Some nd) as Hdiff.
  { intros t' o' l'. replace (hdr t' o' l' ++ image 0 L ++ image pv D ++ ebytes old (big, c) ++ S_ ++ [z2b ZIP_END])
      with ((hdr t' o' l' ++ image 0 L ++ image pv D) ++ ebytes old (big, c) ++ (S_ ++ [z2b ZIP_END])) by by rewrite <-!app_assoc.
    replace (10 + total (L ++ D)) with (Z.of_nat (length (hdr t' o' l' ++ image 0 L ++ image pv D))) by (rewrite hdr_prefix, length_app, Nat2Z.inj_add, !length_image, total_app; lia).
    apply diff_spec; [done|by apply lastsize_nonneg|lia]. }
  assert (zblk l (L ++ D ++ (big, c) :: R) = hdr T o l ++ image 0 L ++ image pv D ++ ebytes old (big, c) ++ S_ ++ [z2b ZIP_END]) as ->.
  { unfold zblk. rewrite !image_app. cbn [image]. unfold old. rewrite lastsize_app. fold pv. by rewrite <-!app_assoc. }
  rewrite Hdiff. cbn [option_bind mbind]. clear Hdiff.
  assert (exists Z1 Z2, image pv D ++ pbytes big old = Z1 ++ Z2 /\ Z.of_nat (length Z1) = total D - nd /\ Z.of_nat (length Z2) = psize (need pv)) as (Z1 & Z2 & EZ & HZ1 & HZ2).
  { exists (take (Z.to_nat (total D - nd)) (image pv D ++ pbytes big old)), (drop (Z.to_nat (total D - nd)) (image pv D ++ pbytes big old)).
    pose proof (length_image pv D). pose proof (length_pbytes big old). pose proof (psize_range (need pv)).
    rewrite take_drop, length_take, length_drop, length_app. unfold nd in *. split_and!; [done|lia|lia]. }
  replace (hdr T o l ++ image 0 L ++ image pv D ++ ebytes old (big, c) ++ S_ ++ [z2b ZIP_END])
    with ((hdr T o l ++ image 0 L ++ Z1) ++ Z2 ++ (c ++ S_ ++ [z2b ZIP_END])).
  2:{ unfold ebytes. cbn [fst snd]. rewrite <-(app_assoc (pbytes big old)), (app_assoc (image pv D)), EZ. by rewrite <-!app_assoc. }
  assert (Z.of_nat (length (image 0 L ++ Z1)) = total L + total D - nd) as EA by (rewrite length_app, Nat2Z.inj_add, length_image; lia).
  rewrite write_prev; [|done|rewrite hdr_prefix, EA, total_app; lia]. cbn [option_bind mbind].
  assert (esize e = psize (need pv) + Z.of_nat (length c)) as Ee by done. assert (esize (big, c) = psize big + Z.of_nat (length c)) as Ebc by done.
  assert (nd = psize (need pv) - psize big) as End by done. pose proof (psize_range (need pv)). pose proof (psize_range big).
  pose proof (before_last_range R) as HblR.
  assert (o = 10 + total L + total D + match R with [] => 0 | _ => esize (big, c) + before_last R end) as Eo.
  { unfold o. rewrite app_assoc, before_last_app, before_last_cons, total_app by done. lia. }
  rewrite <-(app_assoc (hdr T o l)), add_tail by (destruct R; lia). cbn [option_bind mbind].
  assert (ent_ok be pv e) as He by (split; [intros En; by apply need_small|apply Hbc]).
  assert (forall o m, hdr T o l ++ (image 0 L ++ Z1) ++ pbytes (need pv) pv ++ c ++ m = (hdr T o l ++ (image 0 L ++ Z1)) ++ ebytes pv e ++ m) as Ea
    by (intros o1 m; unfold ebytes; cbn [fst snd e]; by rewrite <-!app_assoc).
  assert (Z.of_nat (length (hdr T (o + - total D) l ++ (image 0 L ++ Z1))) = 10 + total (L ++ D) - nd) as Ep by (rewrite hdr_prefix, EA, total_app; lia).
  rewrite Ea. destruct (zipEntry_spec be (hdr T (o + - total D) l ++ (image 0 L ++ Z1)) pv e (S_ ++ [z2b ZIP_END]) He Hpv) as (zt & Ez & Hz); [lia|].
  rewrite Ep in Ez, Hz. rewrite Ez. cbn [option_bind mbind]. rewrite (entry_rawlen _ _ _ _ Hz), u32_small by (pose proof (esize_pos e); lia).
  rewrite <-(app_assoc (hdr T (o + - total D) l)). unfold S_. pose proof (esize_pos (big, c)).
  pose proof (tail_fix T (o + - total D) l (image 0 L ++ Z1) pv e (esize (big, c)) R nd (10 + total (L ++ D) - nd + esize e) HR) as Efix.
  specialize (Efix ltac:(lia) ltac:(destruct R; lia) ltac:(destruct R; lia) ltac:(rewrite EA, total_app; lia)).
  destruct (at_ _ _) as [d|]; [|done]. cbn [option_bind mbind] in Efix |- *. rewrite Efix. cbn [option_bind mbind]. clear Efix.
  replace (o + - total D + match R with [] => 0 | _ => nd end) with (10 + total L + before_last (e :: R)) by (rewrite before_last_cons; destruct R; lia).
  rewrite read_bytes. cbn [option_bind mbind]. rewrite intrev_u32, (u32_small T) by lia.
  replace (hdr T (10 + total L + before_last (e :: R)) l ++ (image 0 L ++ Z1) ++ ebytes pv e ++ image (esize (big, c)) R ++ [z2b ZIP_END])
    with ((hdr T (10 + total L + before_last (e :: R)) l ++ image 0 L) ++ Z1 ++ (ebytes pv e ++ image (esize (big, c)) R) ++ [z2b ZIP_END]) by by rewrite <-!app_assoc.
  assert (length (ebytes pv e ++ image (esize (big, c)) R) = Z.to_nat (esize e + total R)) as EB.
  { apply Nat2Z.inj. rewrite length_app, Nat2Z.inj_add, length_ebytes, length_image. lia. }
  rewrite memmove_left; [|rewrite hdr_prefix, length_image; done|rewrite Nat2Z.inj_add, hdr_prefix, length_image, total_app; lia|
    rewrite u64_small by (rewrite total_app; lia); rewrite EB, total_app; lia].
  cbn [option_bind mbind]. eexists. by rewrite <-(app_assoc (hdr _ _ _)).
Qed.

(** The entries after [D] is deleted between [L] and [R]. *)
Definition delete_range L R : list ent := L ++ refit (lastsize 0 L) R.

Lemma delete_range_ok L D R : ents_ok be 0 (L ++ D ++ R) -> ents_ok be 0 (delete_range L R).
Proof.
  rewrite !ents_ok_app. intros (HL & _ & HR). apply ents_ok_app. split; [done|]. by eapply refit_ok.
Qed.

Lemma zip_delete_spec l L D R num :
  ents_ok be 0 (L ++ D ++ R) -> D <> [] -> 0 <= l < 65536 -> num < 2 ^ 32 ->
  Z.of_nat (length D) <= num -> R = [] \/ Z.of_nat (length D) = num ->
  11 + total (L ++ D ++ R) + 4 * Z.of_nat (length R) < 2 ^ 31 ->
  __ziplistDelete be junk (zblk l (L ++ D ++ R)) (10 + total L) num
  = Some (zblk (incr_len l (u32 (- Z.of_nat (length D)))) (delete_range L R)).
Proof.
  intros Hok HD Hl Hnum Hle Hend Hb. unfold __ziplistDelete. pose proof (total_nonneg L). pose proof (total_nonneg D). pose proof (total_nonneg R).
  destruct D as [|e0 D0]; [done|]. set (D := e0 :: D0) in *.
  assert (total (L ++ D ++ R) = total L + total D + total R) as Etot by (rewrite !total_app; lia).
  destruct (entry_spec l L e0 (D0 ++ R) Hok ltac:(change (L ++ e0 :: D0 ++ R) with (L ++ D ++ R); lia)) as (z & Ez & Hz).
  change (L ++ e0 :: D0 ++ R) with (L ++ D ++ R) in Ez. rewrite Ez. cbn [option_bind mbind].
  rewrite (skip_spec l D L R _ num 0 Hok); [|lia|lia|done| |lia|by rewrite Z.add_0_l].
  2:{ unfold zblk. rewrite !length_app. pose proof (length_image 0 (L ++ D ++ R)). lia. }
  cbn [option_bind mbind]. assert (e_p z = 10 + total L) as -> by (by destruct Hz as (? & ? & ? & _ & _ & _ & _ & ->)).
  assert (0 < total D) as HDpos by (unfold D; cbn [total]; pose proof (esize_pos e0); pose proof (total_nonneg D0); lia).
  replace (10 + total (L ++ D) - (10 + total L)) with (total D) by (rewrite total_app; lia). rewrite u32_small by lia.
  destruct (Z.ltb_spec 0 (total D)); [|lia]. rewrite Z.add_0_l. unfold delete_range.
  destruct R as [|[big c] R].
  - rewrite app_nil_r in *. rewrite (delete_end l L D z) by (done || lia). cbn [option_bind mbind refit]. rewrite read_bytes. cbn [option_bind mbind].
    cbn [total] in Etot. rewrite intrev_u32, (u32_small (11 + total (L ++ D))), (u32_small (11 + total (L ++ D) - total D + 0)) by lia. rewrite image_app, <-app_assoc.
    assert (exists x m2, image (lastsize 0 L) D ++ [z2b ZIP_END] = x :: m2) as (x & m2 & ->).
    { destruct (image (lastsize 0 L) D) as [|x m]; [by eexists _, _|by exists x, (m ++ [z2b ZIP_END])]. }
    rewrite zl_resize_shrink by (rewrite length_image; lia). cbn [option_bind mbind]. rewrite incr_spec by done. cbn [option_bind mbind].
    change (0 =? 0) with true. cbn [negb]. rewrite app_nil_r. unfold zblk. do 3 f_equal. lia.
  - cbn [length] in Hb. destruct (delete_mid l L D big c R z Hok HD ltac:(lia) Hz) as (m & ->). cbn [option_bind mbind refit].
    set (pv := lastsize 0 L) in *. set (e := (need pv, c)) in *. set (nd := psize (need pv) - psize big).
    assert (esize e = psize (need pv) + Z.of_nat (length c)) as Ee by done. assert (esize (big, c) = psize big + Z.of_nat (length c)) as Ebc by done.
    cbn [total] in Etot. pose proof (total_nonneg R). assert (nd = psize (need pv) - psize big) as End by done. pose proof (psize_range (need pv)). pose proof (psize_range big).
    pose proof (delete_room L e0 D0 ((big, c) :: R) big Hok) as Hroom. fold pv in Hroom. change (total (e0 :: D0)) with (total D) in Hroom.
    rewrite read_bytes. cbn [option_bind mbind]. rewrite intrev_u32, (u32_small (11 + total (L ++ D ++ (big, c) :: R))) by lia.
    set (B := ebytes pv e ++ image (esize (big, c)) R).
    assert (Z.of_nat (length B) = esize e + total R) as HB by (unfold B; rewrite length_app, Nat2Z.inj_add, length_ebytes, length_image; done).
    assert (exists x m2, m ++ [z2b ZIP_END] = x :: m2) as (x & m2 & ->).
    { destruct m as [|x m]; [by eexists _, _|by exists x, (m ++ [z2b ZIP_END])]. }
    rewrite (app_assoc (image 0 L)), zl_resize_shrink; [|rewrite length_app, Nat2Z.inj_add, length_image, u32_small by lia; lia].
    cbn [option_bind mbind]. rewrite incr_spec by done. cbn [option_bind mbind]. rewrite (u32_small (11 + _ - _ + _)) by lia.
    set (l' := incr_len l _).
    assert (hdr (11 + total (L ++ D ++ (big, c) :: R) - total D + nd) (10 + total L + before_last (e :: R)) l' ++ (image 0 L ++ B) ++ [z2b ZIP_END]
      = blk l' (image 0 L) pv e (esize (big, c)) R) as ->.
    { unfold blk, B. rewrite length_image, <-!app_assoc. cbn [total]. do 2 f_equal. lia. }
    rewrite (app_assoc L), ents_ok_app in Hok. destruct Hok as [_ [[_ Hc] HR]].
    assert (ent_ok be pv e) as He by (split; [intros En; by apply need_small|done]).
    assert (0 <= pv < 2 ^ 32) as Hpv by (apply (lastsize_bound L (D ++ (big, c) :: R)); lia).
    rewrite zblk_blk. fold pv.
    destruct (Z.eqb_spec nd 0) as [E0|E0]; cbn [negb].
    + assert (esize (big, c) = esize e) as E1 by lia. rewrite E1 in *. by rewrite (fixup_same be).
    + replace (10 + total L) with (10 + Z.of_nat (length (image 0 L))) by (by rewrite length_image).
      apply cascade_update; [done|done|done|pose proof (esize_pos (big, c)); lia|]. rewrite length_image. cbn [total]. lia.
Qed.
End Edit.
