(* ===== verification/ZiplistQuery.v ===== *)
(** ZiplistQuery: creating, walking and searching a ziplist. *)
From S2P Require Import Prelude Endian Util UtilNum Ziplist ZiplistProofs ZiplistCascade ZiplistEdit.

Section Query.
Context (be : bool) (junk : nat -> byte).
Implicit Types (l p n : Z) (L R es : list ent) (b c s : list byte) (vs : list zval) (k : nat).

(** ** The representation *)

(** The stored length is exact below its maximum. *)
Definition len_ok l k : Prop := (l = Z.of_nat k /\ Z.of_nat k < UINT16_MAX) \/ l = UINT16_MAX.

Record zl_rep (zl : list byte) es : Prop := ZlRep {
  zl_block : exists l, zl = zblk l es /\ len_ok l (length es);
  zl_ok : ents_ok be 0 es;
  zl_fits : 11 + total es < 2 ^ 31 }.

(** The values of the entries. *)
Definition holds es vs : Prop := Forall2 (fun b v => body_value be b = Some v) es.*2 vs.

Lemma len_ok_range l k : len_ok l k -> 0 <= l < 65536.
Proof. unfold len_ok, UINT16_MAX. lia. Qed.

Lemma holds_exists prev es : ents_ok be prev es -> exists vs, holds es vs.
Proof.
  revert prev. induction es as [|e es IH]; intros prev; [by exists []; constructor|]. intros [[_ [v Hv]] Hes].
  destruct (IH _ Hes) as (vs & Hvs). exists (v :: vs). constructor; [exact Hv|exact Hvs].
Qed.

Lemma holds_length es vs : holds es vs -> length vs = length es.
Proof. intros H. apply Forall2_length in H. rewrite length_fmap in H. done. Qed.

Lemma holds_lookup es vs k e : holds es vs -> es !! k = Some e -> exists v, vs !! k = Some v /\ body_value be e.2 = Some v.
Proof.
  intros H He. destruct (Forall2_lookup_l _ _ _ k e.2 H) as (v & Hv & Hb); [by rewrite list_lookup_fmap, He|]. by exists v.
Qed.

(** The offset of an entry; of the end marker for the length. *)
Definition off es k : Z := 10 + total (take k es).

Lemma off_0 es : off es 0 = 10.
Proof. done. Qed.
Lemma off_end es : off es (length es) = 10 + total es.
Proof. unfold off. by rewrite firstn_all. Qed.
Lemma off_S es k e : es !! k = Some e -> off es (S k) = off es k + esize e.
Proof. intros H. unfold off. rewrite (take_S_r _ _ _ H), total_app. cbn [total]. lia. Qed.

Section Rep.
Context (zl : list byte) (es : list ent) (Hrep : zl_rep zl es).

Lemma split_at k e : es !! k = Some e -> exists l, zl = zblk l (take k es ++ e :: drop (S k) es) /\ es = take k es ++ e :: drop (S k) es.
Proof. intros H. destruct (zl_block _ _ Hrep) as (l & -> & _). exists l. by rewrite take_drop_middle. Qed.

Lemma zl_at k e : es !! k = Some e -> exists d, at_ zl (off es k) = Some d /\ (d =? ZIP_END) = false.
Proof.
  intros H. destruct (split_at k e H) as (l & -> & E). apply (at_entry be). rewrite <-E. apply (zl_ok _ _ Hrep).
Qed.
Lemma zl_at_end : at_ zl (off es (length es)) = Some ZIP_END.
Proof. destruct (zl_block _ _ Hrep) as (l & -> & _). rewrite off_end. apply at_end. Qed.

Lemma zl_raw k e : es !! k = Some e -> zipRawEntryLength zl (off es k) = Some (esize e).
Proof.
  intros H. destruct (split_at k e H) as (l & -> & E). unfold off. apply (raw_spec be); rewrite <-E; apply Hrep.
Qed.

Definition prev_of k : Z := lastsize 0 (take k es).

Lemma zl_entry k e : es !! k = Some e -> exists z, zipEntry be zl (off es k) = Some z /\ entry_at (prev_of k) e (off es k) z.
Proof.
  intros H. destruct (split_at k e H) as (l & -> & E). unfold off. apply entry_spec; rewrite <-E; apply Hrep.
Qed.

Lemma prev_of_S k e : es !! k = Some e -> prev_of (S k) = esize e.
Proof. intros H. unfold prev_of. by rewrite (take_S_r _ _ _ H), lastsize_app. Qed.

Lemma zl_tail : ZIPLIST_ENTRY_TAIL be zl = Some (off es (length es - 1)).
Proof.
  destruct (zl_block _ _ Hrep) as (l & -> & _). rewrite tail_spec by apply Hrep. unfold off. f_equal. f_equal.
  unfold before_last. by rewrite removelast_firstn_len, <-Nat.sub_1_r.
Qed.

Lemma zl_len : Z.of_nat (length es) < Z.of_nat (length zl) < 2 ^ 31.
Proof.
  destruct (zl_block _ _ Hrep) as (l & -> & _). unfold zblk. rewrite !length_app, length_hdr.
  pose proof (length_image 0 es). pose proof (total_nonneg es). pose proof (zl_fits _ _ Hrep). cbn [length]. lia.
Qed.

(** ** Indices *)

Lemma index_fwd_spec d : forall k i fuel, (length es - k = d)%nat -> (k <= length es)%nat -> (d < fuel)%nat ->
  index_fwd fuel zl (off es k) (Z.of_nat i) = Some (if decide (k + i < length es)%nat then (off es (k + i), -1) else (off es (length es), Z.of_nat i - Z.of_nat d)).
Proof.
  induction d as [|d IH]; intros k i fuel Hd Hk Hf; (destruct fuel as [|fuel]; [lia|]); cbn [index_fwd].
  - assert (k = length es) as -> by lia. rewrite zl_at_end. cbn [option_bind mbind]. rewrite Z.eqb_refl.
    destruct (decide _); [lia|]. do 2 f_equal. lia.
  - destruct (lookup_lt_is_Some_2 es k) as [e He]; [lia|]. destruct (zl_at k e He) as (d' & Ed & Ed'). rewrite Ed. cbn [option_bind mbind]. rewrite Ed'.
    destruct i as [|i].
    + change (Z.of_nat 0 =? 0) with true. cbv iota. rewrite Nat.add_0_r. destruct (decide _); [done|lia].
    + destruct (Z.eqb_spec (Z.of_nat (S i)) 0); [lia|]. rewrite (zl_raw k e He). cbn [option_bind mbind].
      rewrite <-(off_S _ _ _ He). replace (Z.of_nat (S i) - 1) with (Z.of_nat i) by lia. rewrite IH by lia.
      replace (S k + i)%nat with (k + S i)%nat by lia. destruct (decide _); [done|]. do 2 f_equal. lia.
Qed.

Lemma index_back_spec k : forall i fuel, (k < length es)%nat -> (k < fuel)%nat ->
  index_back be fuel zl (off es k) (Z.of_nat i)
  = Some (if decide (i <= k)%nat then (off es (k - i), if decide (i = k) then 0 else -1) else (off es 0, Z.of_nat i - Z.of_nat k)).
Proof.
  induction k as [|k IH]; intros i fuel Hk Hf; (destruct fuel as [|fuel]; [lia|]); cbn [index_back];
    (destruct (lookup_lt_is_Some_2 es _ Hk) as [e He]); destruct (zl_entry _ e He) as (z & -> & Hz); cbn [option_bind mbind];
    destruct Hz as (enc & ls & ln & _ & _ & _ & _ & ->); cbn [prevrawlen].
  - change (prev_of 0) with 0. change (0 <? 0) with false. cbv iota. destruct (decide (i <= 0)%nat).
    + assert (i = 0%nat) as -> by lia. by rewrite decide_True.
    + do 2 f_equal. lia.
  - destruct (lookup_lt_is_Some_2 es k) as [e' He']; [lia|]. rewrite (prev_of_S _ _ He'). pose proof (esize_pos e').
    destruct (Z.ltb_spec 0 (esize e')); [|lia]. destruct i as [|i].
    + change (Z.of_nat 0 =? 0) with true. cbv iota. rewrite decide_True by lia. by rewrite decide_False by lia.
    + destruct (Z.eqb_spec (Z.of_nat (S i)) 0); [lia|]. rewrite (off_S _ _ _ He').
      replace (off es k + esize e' - esize e') with (off es k) by lia. replace (Z.of_nat (S i) - 1) with (Z.of_nat i) by lia.
      rewrite IH by lia. cbn [Nat.sub]. destruct (decide (i <= k)%nat), (decide (S i <= S k)%nat); try lia.
      * destruct (decide (i = k)), (decide (S i = S k)); try lia; done.
      * do 2 f_equal. lia.
Qed.

Lemma ziplistIndex_spec k : Z.of_nat k < 2 ^ 31 -> ziplistIndex be zl (Z.of_nat k) = Some (if decide (k < length es)%nat then Some (off es k) else None).
Proof.
  intros Hk. unfold ziplistIndex. destruct (Z.ltb_spec (Z.of_nat k) 0); [lia|]. pose proof zl_len.
  change ZIPLIST_ENTRY_HEAD with (off es 0). rewrite (index_fwd_spec (length es) 0 k) by lia. cbn [option_bind mbind].
  rewrite Nat.add_0_l. destruct (decide (k < length es)%nat) as [Hlt|Hge].
  - destruct (lookup_lt_is_Some_2 es k Hlt) as [e He]. destruct (zl_at k e He) as (d & -> & Hd). cbn [option_bind mbind]. by rewrite Hd.
  - rewrite zl_at_end. done.
Qed.

(** A negative index counts from the end. *)
Lemma ziplistIndex_neg k : Z.of_nat k + 1 < 2 ^ 31 ->
  ziplistIndex be zl (- Z.of_nat (S k)) = Some (if decide (k < length es)%nat then Some (off es (length es - 1 - k)) else None).
Proof.
  intros Hk. unfold ziplistIndex. destruct (Z.ltb_spec (- Z.of_nat (S k)) 0); [|lia]. pose proof zl_len.
  rewrite chk32_ok by lia. cbn [option_bind mbind]. rewrite zl_tail. cbn [option_bind mbind].
  replace (- - Z.of_nat (S k) - 1) with (Z.of_nat k) by lia.
  destruct (decide (length es = 0)%nat) as [E0|Hpos].
  - pose proof zl_at_end as Hend. rewrite E0 in Hend. rewrite E0. change (0 - 1)%nat with 0%nat. rewrite Hend. cbn [option_bind mbind].
    rewrite Z.eqb_refl. cbn [negb option_bind mbind]. rewrite Hend. done.
  - destruct (lookup_lt_is_Some_2 es (length es - 1)) as [e He]; [lia|]. destruct (zl_at _ e He) as (d & Ed & Hd). rewrite Ed. cbn [option_bind mbind]. rewrite Hd. cbn [negb].
    rewrite index_back_spec by lia. cbn [option_bind mbind].
    destruct (decide (k <= length es - 1)%nat), (decide (k < length es)%nat); try lia.
    + destruct (lookup_lt_is_Some_2 es (length es - 1 - k)) as [e' He']; [lia|]. destruct (zl_at _ e' He') as (d' & -> & Hd'). cbn [option_bind mbind]. rewrite Hd'.
      by destruct (decide _).
    + destruct (lookup_lt_is_Some_2 es 0) as [e' He']; [lia|]. destruct (zl_at _ e' He') as (d' & -> & Hd'). cbn [option_bind mbind]. rewrite Hd'.
      destruct (Z.ltb_spec 0 (Z.of_nat k - Z.of_nat (length es - 1))); [done|lia].
Qed.

(** ** Steps *)

Lemma ziplistNext_spec k : (k < length es)%nat ->
  ziplistNext zl (off es k) = Some (if decide (S k < length es)%nat then Some (off es (S k)) else None).
Proof.
  intros Hk. unfold ziplistNext. destruct (lookup_lt_is_Some_2 es k Hk) as [e He]. destruct (zl_at k e He) as (d & -> & Hd). cbn [option_bind mbind]. rewrite Hd.
  rewrite (zl_raw k e He). cbn [option_bind mbind]. rewrite <-(off_S _ _ _ He). destruct (decide (S k < length es)%nat) as [Hlt|Hge].
  - destruct (lookup_lt_is_Some_2 es _ Hlt) as [e' He']. destruct (zl_at _ e' He') as (d' & -> & Hd'). cbn [option_bind mbind]. by rewrite Hd'.
  - assert (S k = length es) as -> by lia. by rewrite zl_at_end.
Qed.

Lemma ziplistNext_end : ziplistNext zl (off es (length es)) = Some None.
Proof. unfold ziplistNext. by rewrite zl_at_end. Qed.

Lemma off_inj_0 k : (k < length es)%nat -> (off es (S k) =? ZIPLIST_ENTRY_HEAD) = false.
Proof.
  intros Hk. destruct (lookup_lt_is_Some_2 es k Hk) as [e He]. rewrite (off_S _ _ _ He). unfold off, ZIPLIST_ENTRY_HEAD, ZIPLIST_HEADER_SIZE.
  pose proof (esize_pos e). pose proof (total_nonneg (take k es)). lia.
Qed.

(** From the end marker the step back is to the last entry. *)
Lemma ziplistPrev_spec k : (k <= length es)%nat ->
  ziplistPrev be zl (off es k) = Some (match k with 0%nat => None | S k => Some (off es k) end).
Proof.
  intros Hk. unfold ziplistPrev. destruct (decide (k = length es)) as [->|Hne].
  - rewrite zl_at_end. cbn [option_bind mbind]. rewrite Z.eqb_refl, zl_tail. cbn [option_bind mbind]. destruct (length es) as [|j] eqn:El.
    + pose proof zl_at_end as Hend. rewrite El in Hend. cbn [Nat.sub]. by rewrite Hend.
    + destruct (lookup_lt_is_Some_2 es j) as [e He]; [lia|]. destruct (zl_at _ e He) as (d & Ed & Hd). cbn [Nat.sub]. rewrite Nat.sub_0_r, Ed. cbn [option_bind mbind]. by rewrite Hd.
  - destruct (lookup_lt_is_Some_2 es k) as [e He]; [lia|]. destruct (zl_at _ e He) as (d & -> & Hd). cbn [option_bind mbind]. rewrite Hd.
    destruct k as [|k]; [done|]. rewrite off_inj_0 by lia. destruct (zl_entry _ e He) as (z & -> & Hz). cbn [option_bind mbind].
    destruct Hz as (enc & ls & ln & _ & _ & _ & _ & ->). cbn [prevrawlen]. destruct (lookup_lt_is_Some_2 es k) as [e' He']; [lia|].
    rewrite (prev_of_S _ _ He'), (off_S _ _ _ He'). pose proof (esize_pos e'). destruct (Z.ltb_spec 0 (esize e')); [|lia]. do 2 f_equal. lia.
Qed.

(** ** Values *)

Lemma load_int64 b p enc v : zipLoadInteger be b p enc = Some v -> int64 v.
Proof.
  assert (forall w z, 0 < w <= 64 -> int64 (swrap w z)) as Hs.
  { intros w z Hw. unfold int64. pose proof (swrap_range w z ltac:(lia)). pose proof (Z.pow_le_mono_r 2 (w - 1) 63 ltac:(lia) ltac:(lia)). lia. }
  unfold zipLoadInteger, int64.
  destruct (enc =? ZIP_INT_8B); [destruct (at_ b p); [|done]; intros [= <-]; by apply Hs|].
  destruct (enc =? ZIP_INT_16B); [destruct (mem_read b p 2); [|done]; intros [= <-]; by apply Hs|].
  destruct (enc =? ZIP_INT_32B); [destruct (mem_read b p 4); [|done]; intros [= <-]; by apply Hs|].
  destruct (enc =? ZIP_INT_24B).
  { destruct (mem_read b p 3) as [m|]; [|done]. cbn [option_bind mbind]. intros [= <-]. rewrite Z.shiftr_div_pow2 by lia. set (z := host_load _ _).
    pose proof (swrap_range 32 z ltac:(lia)) as Hr. fold (s32 z) in Hr. pose proof (Z.div_mod (s32 z) (2 ^ 8) ltac:(lia)).
    pose proof (Z.mod_pos_bound (s32 z) (2 ^ 8) ltac:(lia)). change (2 ^ 8) with 256 in *. lia. }
  destruct (enc =? ZIP_INT_64B); [destruct (mem_read b p 8); [|done]; intros [= <-]; by apply Hs|].
  destruct (_ && _) eqn:E; [|done]. intros [= <-]. unfold ZIP_INT_IMM_MASK. change 15 with (2 ^ 4 - 1). rewrite land_low by lia.
  pose proof (Z.mod_pos_bound enc (2 ^ 4) ltac:(lia)). lia.
Qed.

Definition value_ok (v : zval) : Prop := match v with ZInt i => int64 i | ZStr _ => True end.

Lemma zl_body k e v enc ls ln : es !! k = Some e -> body_value be e.2 = Some v -> ZIP_DECODE_LENGTH e.2 0 = Some (enc, ls, ln) ->
  let q := off es k + psize e.1 + ls in
  if ZIP_IS_STR enc then exists s, v = ZStr s /\ mem_read zl q ln = Some s /\ Z.of_nat (length s) = ln
  else exists i, v = ZInt i /\ zipLoadInteger be zl q enc = Some i /\ int64 i.
Proof.
  intros He Hv Hd q. destruct (split_at k e He) as (l & -> & E).
  destruct (zblk_split l (take k es) e (drop (S k) es)) as (post & -> & _ & Hpre). rewrite <-E in Hpre |- *.
  unfold body_value in Hv. rewrite Hd in Hv. cbn [option_bind mbind] in Hv. case_decide as Hl; [|done].
  set (pre := hdr _ _ _ ++ image 0 (take k es)) in *. unfold ebytes.
  replace (pre ++ (pbytes e.1 (lastsize 0 (take k es)) ++ e.2) ++ post) with ((pre ++ pbytes e.1 (lastsize 0 (take k es))) ++ e.2 ++ post) by by rewrite <-!app_assoc.
  assert (q = Z.of_nat (length (pre ++ pbytes e.1 (lastsize 0 (take k es)))) + ls) as -> by (rewrite length_app, Nat2Z.inj_add, length_pbytes, Hpre; done).
  destruct (ZIP_IS_STR enc).
  - destruct (mem_read e.2 ls ln) as [s|] eqn:Es; [|done]. injection Hv as <-. exists s. split; [done|]. split; [by apply mem_read_ctx|].
    by apply mem_read_inv in Es as (? & ? & _ & _ & ->).
  - destruct (zipLoadInteger be e.2 ls enc) as [i|] eqn:Ei; [|done]. injection Hv as <-. exists i. split; [done|]. split; [by apply load_ctx|by eapply load_int64].
Qed.

(** What [ziplistGet] tells of a value. *)
Definition shows (g : zget) (v : zval) : Prop :=
  match g, v with
  | GetStr a n, ZStr s => mem_read zl a n = Some s
  | GetInt i, ZInt j => i = j
  | _, _ => False
  end.

Lemma ziplistGet_spec k e v : es !! k = Some e -> body_value be e.2 = Some v ->
  exists g, ziplistGet be zl (Some (off es k)) = Some (Some g) /\ shows g v.
Proof.
  intros He Hv. unfold ziplistGet. destruct (zl_at k e He) as (d & -> & Hd). cbn [option_bind mbind]. rewrite Hd.
  destruct (zl_entry k e He) as (z & -> & (enc & ls & ln & Hdec & _ & _ & _ & ->)). cbn [option_bind mbind encoding headersize len].
  pose proof (zl_body k e v enc ls ln He Hv Hdec) as Hb. cbv zeta in Hb. rewrite <-Z.add_assoc in Hb. destruct (ZIP_IS_STR enc).
  - destruct Hb as (s & -> & Hs & _). by eexists.
  - destruct Hb as (i & -> & -> & _). cbn [option_bind mbind]. by eexists.
Qed.

Lemma zstring_int i s : int64 i -> zipTryEncoding s (Z.of_nat (length s)) = Some (try_int s) /\
  match try_int s with Some (v, _) => (i =? v) = bool_decide (print_int i = s) | None => print_int i <> s end.
Proof.
  intros Hi. pose proof (try_spec s) as [-> H]. split; [done|]. destruct (try_int s) as [[v enc]|].
  - destruct H as (Hv & -> & _). apply eq_true_iff_eq. rewrite Z.eqb_eq, bool_decide_eq_true. split; [by intros ->|].
    intros E. pose proof (proj2 (string2ll_iff (print_int i) [] i) (conj Hi eq_refl)) as E1.
    pose proof (proj2 (string2ll_iff (print_int v) [] v) (conj Hv eq_refl)) as E2. rewrite E in E1. congruence.
  - intros E. by apply (H i Hi).
Qed.

Lemma ziplistCompare_spec k e v s : es !! k = Some e -> body_value be e.2 = Some v ->
  ziplistCompare be zl (off es k) s (Z.of_nat (length s)) = Some (bool_decide (zstring v = s)).
Proof.
  intros He Hv. unfold ziplistCompare. destruct (zl_at k e He) as (d & -> & Hd). cbn [option_bind mbind]. rewrite Hd.
  destruct (zl_entry k e He) as (z & -> & (enc & ls & ln & Hdec & _ & _ & _ & ->)). cbn [option_bind mbind encoding headersize len].
  pose proof (zl_body k e v enc ls ln He Hv Hdec) as Hb. cbv zeta in Hb. rewrite <-Z.add_assoc in Hb. destruct (ZIP_IS_STR enc).
  - destruct Hb as (a & -> & Ha & Hl). cbn [zstring]. destruct (Z.eqb_spec ln (Z.of_nat (length s))) as [->|Hne].
    + rewrite Ha. cbn [option_bind mbind]. assert (mem_read s 0 (Z.of_nat (length s)) = Some s) as -> by (pose proof (mem_read_0 s [] _ eq_refl) as E; by rewrite app_nil_r in E).
      cbn [option_bind mbind]. f_equal. apply eq_true_iff_eq. rewrite Z.eqb_eq, bool_decide_eq_true. apply memcmp_eq. lia.
    + rewrite bool_decide_eq_false_2; [done|]. intros <-. by apply Hne.
  - destruct Hb as (i & -> & Hi & Hi64). cbn [zstring]. destruct (zstring_int i s Hi64) as [-> Hs]. cbn [option_bind mbind].
    destruct (try_int s) as [[v' e']|]; [|by rewrite bool_decide_eq_false_2]. rewrite Hi. cbn [option_bind mbind]. by rewrite Hs.
Qed.

Lemma ziplistCompare_end s : ziplistCompare be zl (off es (length es)) s (Z.of_nat (length s)) = Some false.
Proof. unfold ziplistCompare. by rewrite zl_at_end. Qed.

(** ** Searching *)

(** The position of the first value that is [s], of those looked at: the one
    after [cnt] values, then every one after [skip] more. *)
Fixpoint findv (vs : list zval) s (skip cnt : nat) : option nat :=
  match vs with
  | [] => None
  | v :: vs =>
    match cnt with
    | O => if decide (zstring v = s) then Some 0%nat else S <$> findv vs s skip skip
    | S cnt => S <$> findv vs s skip cnt
    end
  end.

(** What the loop remembers of the string it searches. *)
Definition cached s (vencoding vll : Z) : Prop :=
  vencoding = 0 \/ match try_int s with Some (v, enc) => vencoding = enc /\ vll = v | None => vencoding = UCHAR_MAX end.

Lemma zl_decode k e : es !! k = Some e -> exists enc ls ln, ZIP_DECODE_LENGTH e.2 0 = Some (enc, ls, ln) /\ psize e.1 + ls + ln = esize e /\
  ZIP_DECODE_PREVLENSIZE zl (off es k) = Some (psize e.1) /\ ZIP_DECODE_LENGTH zl (off es k + psize e.1) = Some (enc, ls, ln).
Proof.
  intros He. destruct (split_at k e He) as (l & -> & E). pose proof (zl_ok _ _ Hrep) as Hok. rewrite E in Hok. apply ents_ok_app in Hok as (_ & Hent & _).
  destruct (zblk_split l (take k es) e (drop (S k) es)) as (post & -> & _ & Hpre). rewrite <-E in *. unfold off. rewrite <-Hpre.
  set (pre := hdr _ _ _ ++ image 0 (take k es)) in *.
  destruct (body_decode be pre e (lastsize 0 (take k es)) post Hent) as (enc & ls & ln & Hd & Hl & _ & _ & Hd').
  exists enc, ls, ln. split; [done|]. split; [unfold esize; lia|]. split; [|done].
  unfold ebytes. rewrite <-(app_assoc (pbytes _ _)). apply pbytes_size; [by apply lastsize_nonneg|apply Hent].
Qed.

Lemma find_loop_spec s skip vs0 : forall k cnt fuel venc vll,
  Forall2 (fun b v => body_value be b = Some v) (drop k es).*2 vs0 -> (k <= length es)%nat -> (length vs0 < fuel)%nat -> cached s venc vll ->
  find_loop be fuel zl (off es k) s (Z.of_nat (length s)) (Z.of_nat skip) (Z.of_nat cnt) venc vll
  = Some ((fun j => off es (k + j)) <$> findv vs0 s skip cnt).
Proof.
  induction vs0 as [|v vs0 IH]; intros k cnt fuel venc vll Hvs Hk Hf Hc; (destruct fuel as [|fuel]; [cbn in Hf; lia|]); cbn [find_loop findv].
  - assert (k = length es) as ->.
    { apply Forall2_length in Hvs. rewrite length_fmap, length_drop in Hvs. cbn in Hvs. lia. }
    rewrite zl_at_end. cbn [option_bind mbind]. by rewrite Z.eqb_refl.
  - destruct (drop k es) as [|e rest] eqn:Edrop; [by inversion Hvs|]. cbn [fmap list_fmap] in Hvs. inversion Hvs as [|? ? ? ? Hv Hvs']; subst.
    assert (es !! k = Some e) as He by (by rewrite <-(Nat.add_0_r k), <-lookup_drop, Edrop).
    assert (drop (S k) es = rest) as Erest by (rewrite (drop_S _ _ _ He) in Edrop; congruence).
    assert (S k <= length es)%nat as Hk' by (apply lookup_lt_Some in He; lia). cbn [length] in Hf.
    destruct (zl_at k e He) as (d & -> & Hd). cbn [option_bind mbind]. rewrite Hd.
    destruct (zl_decode k e He) as (enc & ls & ln & Hdec & Hsz & -> & Hdec'). cbn [option_bind mbind]. rewrite Hdec'. cbn [option_bind mbind].
    pose proof (zl_body k e v enc ls ln He Hv Hdec) as Hb. cbv zeta in Hb.
    replace (off es k + psize e.1 + ls + ln) with (off es (S k)) by (rewrite (off_S _ _ _ He); lia).
    assert (forall cnt' venc' vll', cached s venc' vll' -> find_loop be fuel zl (off es (S k)) s (Z.of_nat (length s)) (Z.of_nat skip) (Z.of_nat cnt') venc' vll'
      = Some ((fun j => off es (k + j)) <$> (S <$> findv vs0 s skip cnt'))) as Hgo.
    { intros cnt' venc' vll' Hc'. rewrite IH by (rewrite ?Erest; done || lia). f_equal. destruct (findv vs0 s skip cnt') as [j|]; [|done]. cbn. do 2 f_equal. lia. }
    destruct cnt as [|cnt].
    + change (Z.of_nat 0 =? 0) with true. cbv iota. destruct (ZIP_IS_STR enc).
      * destruct Hb as (a & -> & Ha & Hl). cbn [zstring]. destruct (Z.eqb_spec ln (Z.of_nat (length s))) as [E|Hne].
        -- rewrite E in Ha. rewrite Ha. cbn [option_bind mbind].
           assert (mem_read s 0 (Z.of_nat (length s)) = Some s) as -> by (pose proof (mem_read_0 s [] _ eq_refl) as E'; by rewrite app_nil_r in E').
           cbn [option_bind mbind]. pose proof (memcmp_eq a s ltac:(lia)) as Hm. destruct (Z.eqb_spec (memcmp a s) 0) as [E0|E0], (decide (a = s)); try tauto.
           ++ cbn. by rewrite Nat.add_0_r.
           ++ by apply Hgo.
        -- cbn [option_bind mbind]. rewrite decide_False by (intros ->; congruence). by apply Hgo.
      * destruct Hb as (i & -> & Hi & Hi64). cbn [zstring]. destruct (zstring_int i s Hi64) as [Htry Hs].
        assert (exists venc' vll', (if venc =? 0 then r ← zipTryEncoding s (Z.of_nat (length s)); Some (match r with Some (v, e) => (e, v) | None => (UCHAR_MAX, vll) end)
           else Some (venc, vll)) = Some (venc', vll') /\ match try_int s with Some (v, enc) => venc' = enc /\ vll' = v | None => venc' = UCHAR_MAX end) as (venc' & vll' & -> & Hc').
        { destruct (Z.eqb_spec venc 0) as [->|Hne].
          - rewrite Htry. cbn [option_bind mbind]. destruct (try_int s) as [[v0 e0]|]; by eexists _, _.
          - exists venc, vll. split; [done|]. by destruct Hc. }
        cbn [option_bind mbind]. pose proof (try_spec s) as [_ Hin]. destruct (try_int s) as [[v0 e0]|] eqn:Et.
        -- destruct Hc' as [-> ->]. destruct Hin as (_ & _ & Hin). destruct (int_not_str _ _ Hin) as (_ & Hr). unfold UCHAR_MAX.
           destruct (Z.eqb_spec e0 0); [lia|]. destruct (Z.eqb_spec e0 255); [lia|]. cbn [negb]. rewrite Hi. cbn [option_bind mbind]. rewrite Hs.
           destruct (decide (print_int i = s)) as [Ei|Ei].
           ++ rewrite bool_decide_eq_true_2 by done. cbn. by rewrite Nat.add_0_r.
           ++ rewrite bool_decide_eq_false_2 by done. apply Hgo. right. by rewrite Et.
        -- rewrite Hc'. change (UCHAR_MAX =? 0) with false. change (UCHAR_MAX =? UCHAR_MAX) with true. cbn [negb]. rewrite decide_False by done.
           apply Hgo. right. by rewrite Et.
    + destruct (Z.eqb_spec (Z.of_nat (S cnt)) 0); [lia|]. replace (Z.of_nat (S cnt) - 1) with (Z.of_nat cnt) by lia. by apply Hgo.
Qed.

Lemma ziplistFind_spec k s skip vs : holds es vs -> (k <= length es)%nat -> Z.of_nat skip < 2 ^ 31 ->
  ziplistFind be zl (off es k) s (Z.of_nat (length s)) (Z.of_nat skip) = Some ((fun j => off es (k + j)) <$> findv (drop k vs) s skip 0).
Proof.
  intros Hvs Hk Hs. unfold ziplistFind. rewrite s32_small by lia. apply (find_loop_spec s skip (drop k vs) k 0); [|done| |by left].
  - rewrite fmap_drop. by apply Forall2_drop.
  - rewrite length_drop, (holds_length _ _ Hvs). pose proof zl_len. lia.
Qed.

(** ** The length *)

Lemma len_loop_spec d : forall k fuel, (length es - k = d)%nat -> (k <= length es)%nat -> (d < fuel)%nat ->
  len_loop fuel zl (off es k) (Z.of_nat k) = Some (Z.of_nat (length es)).
Proof.
  pose proof zl_len. induction d as [|d IH]; intros k fuel Hd Hk Hf; (destruct fuel as [|fuel]; [lia|]); cbn [len_loop].
  - assert (k = length es) as -> by lia. rewrite zl_at_end. cbn [option_bind mbind]. by rewrite Z.eqb_refl.
  - destruct (lookup_lt_is_Some_2 es k) as [e He]; [lia|]. destruct (zl_at k e He) as (d' & -> & Hd'). cbn [option_bind mbind]. rewrite Hd'.
    rewrite (zl_raw k e He). cbn [option_bind mbind]. rewrite <-(off_S _ _ _ He), u32_small by lia.
    replace (Z.of_nat k + 1) with (Z.of_nat (S k)) by lia. apply IH; lia.
Qed.

Lemma ziplistLen_spec : exists zl', ziplistLen be zl = Some (Z.of_nat (length es), zl') /\ zl_rep zl' es.
Proof.
  pose proof zl_len as Hlen. pose proof (len_loop_spec (length es) 0 (S (length zl)) ltac:(lia) ltac:(lia) ltac:(lia)) as Hloop.
  change (off es 0) with ZIPLIST_HEADER_SIZE in Hloop. change (Z.of_nat 0) with 0 in Hloop.
  unfold ziplistLen. destruct (zl_block _ _ Hrep) as (l & Ezl & Hl). pose proof (len_ok_range _ _ Hl).
  assert (ZIPLIST_LENGTH be zl = Some (intrev16ifbe be l)) as ->.
  { rewrite Ezl. unfold zblk. rewrite read_zllen. by rewrite u16_small by lia. }
  cbn [option_bind mbind]. rewrite intrev16ifbe_involutive by lia. destruct (Z.ltb_spec l UINT16_MAX) as [Hlt|Hge].
  - exists zl. destruct Hl as [[-> _]| ->]; [done|lia].
  - rewrite Hloop. cbn [option_bind mbind]. destruct (Z.ltb_spec (Z.of_nat (length es)) UINT16_MAX); [|by exists zl].
    rewrite Ezl. unfold zblk. rewrite write_zllen. cbn [option_bind mbind]. eexists. split; [reflexivity|].
    constructor; [|apply Hrep|apply Hrep]. exists (Z.of_nat (length es)). split; [done|]. by left.
Qed.

Lemma ziplistBlobLen_spec : ziplistBlobLen be zl = Some (Z.of_nat (length zl)).
Proof.
  destruct (zl_block _ _ Hrep) as (l & -> & _). unfold ziplistBlobLen. pose proof (zl_fits _ _ Hrep).
  rewrite zblk_bytes by lia. f_equal. unfold zblk. rewrite !length_app, length_hdr. pose proof (length_image 0 es). cbn [length]. lia.
Qed.
End Rep.

(** ** Creation *)

Lemma any_hdr (m : list byte) : length m = 11%nat -> exists t o l x, m = hdr t o l ++ [x].
Proof.
  destruct m as [|m0 [|m1 [|m2 [|m3 [|m4 [|m5 [|m6 [|m7 [|m8 [|m9 [|x [|? ?]]]]]]]]]]]]; try done. intros _.
  exists (le_val [m0; m1; m2; m3]), (le_val [m4; m5; m6; m7]), (le_val [m8; m9]), x. unfold hdr.
  pose proof (le_bytes_val [m0; m1; m2; m3]) as E1. pose proof (le_bytes_val [m4; m5; m6; m7]) as E2.
  pose proof (le_bytes_val [m8; m9]) as E3. cbn [length] in E1, E2, E3. by rewrite E1, E2, E3.
Qed.

Lemma ziplistNew_spec : exists zl, ziplistNew be junk = Some zl /\ zl_rep zl [].
Proof.
  unfold ziplistNew. set (m := map junk (seq 0 (Z.to_nat (ZIPLIST_HEADER_SIZE + 1)))).
  destruct (any_hdr m) as (t & o & l & x & ->); [done|].
  rewrite write_bytes. cbn [option_bind mbind]. rewrite write_tail. cbn [option_bind mbind].
  assert (0 = intrev16ifbe be 0) as -> by by destruct be. rewrite write_zllen. cbn [option_bind mbind].
  unfold put_byte. rewrite <-(app_nil_r (hdr _ _ _ ++ [x])), <-app_assoc, mem_write_app by (rewrite ?length_hdr; done).
  eexists. split; [reflexivity|]. constructor; [|done|cbn; lia]. exists 0. split; [done|]. by left.
Qed.
End Query.
