(* ===== verification/ZiplistSpec.v ===== *)
(** ZiplistSpec: a ziplist as a list of strings, for every operation and
    through any sequence of them; the round trips of its encodings; and the
    insertion that writes over the end of the block. *)
From S2P Require Import Prelude Endian Util UtilNum Ziplist ZiplistProofs ZiplistCascade ZiplistEdit ZiplistQuery.

Section Spec.
Context (be : bool) (junk : nat -> byte).
Implicit Types (l p n : Z) (L R es : list ent) (s : list byte) (ss : list (list byte)) (k : nat).

(** ** The list a block holds *)

(** The first entry has no entry before it, so its field takes one byte. *)
Definition head_small es : Prop := match es with [] => True | e :: _ => e.1 = false end.

(** [zl] holds the strings [ss]. *)
Definition zl_holds zl ss : Prop :=
  exists es, zl_rep be zl es /\ es.*2 = body_of <$> ss /\ head_small es /\ Forall (fun s => Z.of_nat (length s) < 2 ^ 31) ss.

(** More bytes than a block for [ss] can take, with what an update may add. *)
Fixpoint weight ss : Z := match ss with [] => 32 | s :: ss => Z.of_nat (length s) + 18 + weight ss end.

Lemma weight_app ss ss' : weight (ss ++ ss') = weight ss + weight ss' - 32.
Proof. induction ss as [|s ss IH]; cbn [app weight]; lia. Qed.
Lemma weight_split k ss : weight ss = weight (take k ss) + weight (drop k ss) - 32.
Proof. by rewrite <-weight_app, take_drop. Qed.
Lemma weight_pos ss : 32 + 18 * Z.of_nat (length ss) <= weight ss.
Proof. induction ss as [|s ss IH]; cbn [weight length]; lia. Qed.

Lemma body_bound s : 1 <= Z.of_nat (length (body_of s)) <= 9 + Z.of_nat (length s).
Proof.
  split; [apply body_pos|]. rewrite body_size. pose proof (try_spec s) as [_ H]. destruct (try_int s) as [[v enc]|].
  - destruct H as (_ & _ & Hin). rewrite <-(int_size v enc Hin). unfold int_bytes.
    repeat (destruct (_ =? _); [rewrite ?length_le_bytes; cbn [length]; lia|]). cbn [length]. lia.
  - unfold len_bytes. rewrite length_fmap. unfold length_buf. destruct (ZIP_IS_STR 0); [|cbn [length]; lia].
    destruct (_ <=? _); [cbn [length]; lia|]. destruct (_ <=? _); cbn [length]; lia.
Qed.

Lemma total_weight es ss : es.*2 = body_of <$> ss -> total es + 4 * Z.of_nat (length es) + 32 <= weight ss.
Proof.
  revert es. induction ss as [|s ss IH]; intros [|[big c] es] H; try done. cbn [fmap list_fmap] in H. injection H as Hc H.
  cbn [total weight length]. specialize (IH es H). pose proof (body_bound s). pose proof (psize_range big). unfold esize. cbn [fst snd] in *. subst c. lia.
Qed.

Lemma holds_values es ss : es.*2 = body_of <$> ss -> Forall (fun s => Z.of_nat (length s) < 2 ^ 31) ss -> holds be es (zvalue <$> ss).
Proof.
  unfold holds. intros -> H. induction H as [|s ss Hs _ IH]; [constructor|]. constructor; [by apply body_value_of|exact IH].
Qed.

(** ** Updates *)

Lemma refit_bodies prev R : (refit prev R).*2 = R.*2.
Proof. destruct R as [|[big c] R]; [done|]. cbn [refit fmap list_fmap]. by rewrite fixup_bodies. Qed.

Lemma incr_len_S l k : len_ok l k -> len_ok (incr_len l 1) (S k).
Proof.
  unfold len_ok, incr_len, UINT16_MAX. intros H. destruct (Z.ltb_spec l 65535); [|right; lia].
  rewrite u16_small by lia. lia.
Qed.
Lemma incr_len_sub l k d : len_ok l k -> (d <= k)%nat -> len_ok (incr_len l (u32 (- Z.of_nat d))) (k - d).
Proof.
  unfold len_ok, incr_len, UINT16_MAX. intros H Hd. destruct (Z.ltb_spec l 65535); [|right; lia].
  left. unfold u16, u32. rewrite Zplus_mod, Z.mod_mod_divide, <-Zplus_mod by by exists (2 ^ 16).
  rewrite Z.mod_small by lia. lia.
Qed.

Lemma head_small_refit R : head_small (refit 0 R).
Proof. by destruct R as [|[big c] R]. Qed.
Lemma head_small_app L R : head_small L -> (L = [] -> head_small R) -> head_small (L ++ R).
Proof. destruct L; [by intros _ H; apply H|done]. Qed.
Lemma head_small_take es k : head_small es -> head_small (take k es).
Proof. by destruct es, k. Qed.

(** The string takes enough room that the entry after it can move. *)
Definition roomy s : Prop := 3 <= Z.of_nat (length (body_of s)).

Lemma insert_holds zl es ss k s :
  zl_rep be zl es -> es.*2 = body_of <$> ss -> head_small es -> Forall (fun s => Z.of_nat (length s) < 2 ^ 31) ss ->
  (k <= length ss)%nat -> k = 0%nat \/ k = length ss \/ roomy s -> weight ss + Z.of_nat (length s) + 18 < 2 ^ 31 ->
  exists zl', __ziplistInsert be junk zl (off es k) s (Z.of_nat (length s)) = Some zl' /\ zl_holds zl' (take k ss ++ s :: drop k ss).
Proof.
  intros [(l & -> & Hl) Hok Hfit] Hb Hh Hss Hk Hr Hw. pose proof (total_weight _ _ Hb) as Ht. pose proof (body_bound s) as Hs.
  assert (length ss = length es) as El by (apply (f_equal length) in Hb; rewrite !length_fmap in Hb; done). pose proof (weight_pos ss).
  assert (esize (new_ent (take k es) s) <= 14 + Z.of_nat (length s)) as Hne by (unfold esize, new_ent; cbn [fst snd]; pose proof (psize_range (need (lastsize 0 (take k es)))); lia).
  assert (room_ok (new_ent (take k es) s) (drop k es)) as Hroom.
  { destruct (drop k es) as [|[big c] R] eqn:Ed; [done|]. cbn [room_ok]. pose proof (psize_range (need (esize (new_ent (take k es) s)))).
    pose proof (psize_range (need (lastsize 0 (take k es)))) as Hp. pose proof (psize_range big).
    assert (esize (new_ent (take k es) s) = psize (need (lastsize 0 (take k es))) + Z.of_nat (length (body_of s))) as Hsz by done.
    destruct Hr as [->|[->|Hr]]; [|by rewrite El, drop_ge in Ed|unfold roomy in Hr; lia].
    rewrite drop_0 in Ed. subst es. cbn in Hh. subst big. change (psize false) with 1. lia. }
  eexists. split.
  - rewrite <-(take_drop k es) at 1. apply zip_insert_spec; rewrite ?take_drop; [done|lia|by apply (len_ok_range _ (length es))|done|].
    rewrite length_drop. lia.
  - assert ((insert_at (take k es) s (drop k es)).*2 = body_of <$> (take k ss ++ s :: drop k ss)) as Hb'.
    { unfold insert_at. rewrite !fmap_app. cbn [fmap list_fmap]. rewrite refit_bodies, !fmap_take, !fmap_drop, Hb. done. }
    assert (weight (take k ss ++ s :: drop k ss) = weight ss + Z.of_nat (length s) + 18) as Hw'.
    { rewrite (weight_split k ss), weight_app. cbn [weight]. lia. }
    pose proof (total_weight _ _ Hb') as Ht'. eexists. split; [|split; [exact Hb'|split]].
    + constructor; [eexists; split; [reflexivity|]|apply insert_at_ok; [by rewrite take_drop|lia]|lia].
      apply incr_len_S in Hl. replace (length (insert_at _ _ _)) with (S (length es)); [done|].
      apply (f_equal length) in Hb'. rewrite !length_fmap, length_app, length_take in Hb'. cbn [length] in Hb'. rewrite length_drop in Hb'. lia.
    + apply head_small_app; [by apply head_small_take|]. intros E. unfold new_ent. by rewrite E.
    + apply Forall_app. split; [by apply Forall_take|]. constructor; [lia|by apply Forall_drop].
Qed.

Lemma delete_holds zl es ss k num :
  zl_rep be zl es -> es.*2 = body_of <$> ss -> head_small es -> Forall (fun s => Z.of_nat (length s) < 2 ^ 31) ss ->
  (k < length ss)%nat -> Z.of_nat num < 2 ^ 32 -> weight ss < 2 ^ 31 ->
  exists zl', __ziplistDelete be junk zl (off es k) (Z.of_nat num) = Some zl' /\ zl_holds zl' (take k ss ++ drop (k + num) ss).
Proof.
  intros Hrep Hb Hh Hss Hk Hnum Hw. pose proof (total_weight _ _ Hb) as Ht.
  assert (length ss = length es) as El by (apply (f_equal length) in Hb; rewrite !length_fmap in Hb; done).
  destruct num as [|num].
  { exists zl. split; [|by rewrite Nat.add_0_r, take_drop; exists es]. destruct (lookup_lt_is_Some_2 es k) as [e He]; [lia|].
    unfold __ziplistDelete. destruct (zl_entry be zl es Hrep k e He) as (z & -> & Hz). cbn [option_bind mbind].
    destruct Hz as (? & ? & ? & _ & _ & _ & _ & ->). destruct (zl_at be zl es Hrep k e He) as (d & Ed & _). cbn [skip_loop]. rewrite Ed. cbn [option_bind mbind e_p].
    change (0 <? Z.of_nat 0) with false. rewrite andb_false_r. cbn [option_bind mbind]. by rewrite Z.sub_diag. }
  destruct Hrep as [(l & -> & Hl) Hok Hfit].
  set (D := take (S num) (drop k es)). set (R := drop (k + S num) es).
  assert (es = take k es ++ D ++ R) as Ees by (unfold D, R; by rewrite <-drop_drop, take_drop, take_drop).
  assert (length D = Nat.min (S num) (length es - k)) as HD by (unfold D; by rewrite length_take, length_drop).
  assert (length R = length es - (k + S num))%nat as HR by (unfold R; by rewrite length_drop).
  eexists. split.
  - rewrite Ees at 1. apply zip_delete_spec; rewrite <-?Ees; try done; try lia.
    + intros E. rewrite E in HD. cbn [length] in HD. lia.
    + by apply (len_ok_range _ (length es)).
    + destruct (decide (length R = 0)%nat) as [E0|E0]; [left; by apply nil_length_inv|right; lia].
  - assert ((delete_range (take k es) R).*2 = body_of <$> (take k ss ++ drop (k + S num) ss)) as Hb'.
    { unfold delete_range. rewrite !fmap_app, refit_bodies. unfold R. by rewrite !fmap_take, !fmap_drop, Hb. }
    pose proof (total_weight _ _ Hb') as Ht'. 
    assert (weight (take k ss ++ drop (k + S num) ss) <= weight ss) as Hw'.
    { rewrite weight_app, (weight_split k ss), (weight_split (S num) (drop k ss)), drop_drop. pose proof (weight_pos (take (S num) (drop k ss))). lia. }
    eexists. split; [|split; [exact Hb'|split]].
    + constructor; [eexists; split; [reflexivity|]|apply (delete_range_ok _ _ D); by rewrite <-Ees|lia].
      replace (length (delete_range (take k es) R)) with (length es - length D)%nat; [apply incr_len_sub; [done|lia]|].
      apply (f_equal length) in Hb'. rewrite !length_fmap, length_app, length_take, length_drop in Hb'. lia.
    + apply head_small_app; [by apply head_small_take|]. intros E. rewrite E. apply head_small_refit.
    + apply Forall_app. split; [by apply Forall_take|by apply Forall_drop].
Qed.

(** ** Indices *)

(** A negative index counts from the end. *)
Definition zpos (i : Z) (len : nat) : option nat :=
  let j := if i <? 0 then Z.of_nat len + i else i in
  if decide (0 <= j < Z.of_nat len) then Some (Z.to_nat j) else None.

Lemma zpos_lt i len k : zpos i len = Some k -> (k < len)%nat.
Proof. unfold zpos. case_decide; [|done]. intros [= <-]. lia. Qed.

Lemma index_spec zl es i : zl_rep be zl es -> - 2 ^ 31 < i < 2 ^ 31 -> ziplistIndex be zl i = Some (off es <$> zpos i (length es)).
Proof.
  intros Hrep Hi. unfold zpos. destruct (Z.ltb_spec i 0) as [Hneg|Hpos].
  - replace i with (- Z.of_nat (S (Z.to_nat (- i - 1)))) by lia. rewrite (ziplistIndex_neg be zl es Hrep) by lia. f_equal.
    destruct (decide (_ < _)%nat), (decide (0 <= _ < _)); try lia; [|done]. cbn. do 2 f_equal. lia.
  - rewrite <-(Z2Nat.id i) at 1 by lia. rewrite (ziplistIndex_spec be zl es Hrep) by lia. f_equal.
    by destruct (decide (_ < _)%nat), (decide (0 <= _ < _)); try lia.
Qed.

(** ** Sequences of operations *)

Inductive zop :=
| ZPush (s : list byte) (where_ : Z)
| ZInsert (i : Z) (s : list byte)
| ZDelete (i : Z)
| ZDeleteRange (i : Z) (num : nat).

(** What the callers do: an entry is found by its index. *)
Definition zop_run (o : zop) (zl : list byte) : option (list byte) :=
  match o with
  | ZPush s w => ziplistPush be junk zl s (Z.of_nat (length s)) w
  | ZInsert i s =>
    p ← ziplistIndex be zl i;
    match p with Some p => ziplistInsert be junk zl p s (Z.of_nat (length s)) | None => Some zl end
  | ZDelete i =>
    p ← ziplistIndex be zl i;
    match p with Some p => fst <$> ziplistDelete be junk zl p | None => Some zl end
  | ZDeleteRange i num => ziplistDeleteRange be junk zl (u32 i) (Z.of_nat num)
  end.

Definition zop_spec (o : zop) ss : list (list byte) :=
  match o with
  | ZPush s w => if w =? ZIPLIST_HEAD then s :: ss else ss ++ [s]
  | ZInsert i s => match zpos i (length ss) with Some k => take k ss ++ s :: drop k ss | None => ss end
  | ZDelete i => match zpos i (length ss) with Some k => delete k ss | None => ss end
  | ZDeleteRange i num => match zpos i (length ss) with Some k => take k ss ++ drop (k + num) ss | None => ss end
  end.

Definition zop_ok (o : zop) ss : Prop :=
  match o with
  | ZPush s _ => weight ss + Z.of_nat (length s) + 18 < 2 ^ 31
  | ZInsert i s => - 2 ^ 31 < i < 2 ^ 31 /\ weight ss + Z.of_nat (length s) + 18 < 2 ^ 31 /\ (zpos i (length ss) = Some 0%nat \/ roomy s)
  | ZDelete i => - 2 ^ 31 < i < 2 ^ 31 /\ weight ss < 2 ^ 31
  | ZDeleteRange i num => - 2 ^ 31 < i < 2 ^ 31 /\ weight ss < 2 ^ 31 /\ Z.of_nat num < 2 ^ 32
  end.

Lemma index_holds zl es ss i : zl_rep be zl es -> es.*2 = body_of <$> ss -> - 2 ^ 31 < i < 2 ^ 31 ->
  ziplistIndex be zl i = Some (off es <$> zpos i (length ss)).
Proof.
  intros Hrep Hb Hi. rewrite (index_spec zl es i Hrep Hi). apply (f_equal length) in Hb. rewrite !length_fmap in Hb. by rewrite Hb.
Qed.

Lemma push_spec zl ss s w : zl_holds zl ss -> zop_ok (ZPush s w) ss ->
  exists zl', ziplistPush be junk zl s (Z.of_nat (length s)) w = Some zl' /\ zl_holds zl' (zop_spec (ZPush s w) ss).
Proof.
  intros (es & Hrep & Hb & Hh & Hss) Hok. cbn in Hok. unfold ziplistPush, zop_spec. destruct (w =? ZIPLIST_HEAD).
  - change (Some ZIPLIST_ENTRY_HEAD) with (Some (off es 0)). cbn [option_bind mbind].
    destruct (insert_holds zl es ss 0 s Hrep Hb Hh Hss) as (zl' & -> & H); [lia|by left|lia|]. exists zl'. split; [done|]. by rewrite take_0, drop_0 in H.
  - destruct (insert_holds zl es ss (length ss) s Hrep Hb Hh Hss) as (zl' & E & H); [lia|by right; left|lia|].
    rewrite take_ge, drop_ge in H by lia. exists zl'. split; [|done]. unfold ZIPLIST_ENTRY_END.
    pose proof (zl_fits be zl es Hrep). destruct (zl_block be zl es Hrep) as (l & Ezl & _).
    assert ((b ← ZIPLIST_BYTES be zl; Some (intrev32ifbe be b - 1)) = Some (off es (length es))) as ->.
    { pose proof (zblk_bytes be l es ltac:(lia)) as E'. rewrite <-Ezl in E'. destruct (ZIPLIST_BYTES be zl) as [b|]; [|done].
      cbn [option_bind mbind] in *. injection E' as ->. rewrite off_end. f_equal. lia. }
    cbn [option_bind mbind]. apply (f_equal length) in Hb. rewrite !length_fmap in Hb. by rewrite Hb.
Qed.

Lemma zop_step o zl ss : zl_holds zl ss -> zop_ok o ss -> exists zl', zop_run o zl = Some zl' /\ zl_holds zl' (zop_spec o ss).
Proof.
  destruct o as [s w|i s|i|i num]; intros H Hok; [by apply push_spec|..]; destruct H as (es & Hrep & Hb & Hh & Hss); cbn [zop_run zop_spec zop_ok] in *.
  - destruct Hok as (Hi & Hw & Hr). rewrite (index_holds zl es ss i Hrep Hb Hi). cbn [option_bind mbind].
    destruct (zpos i (length ss)) as [k|] eqn:Ek; [|by exists zl; split; [|exists es]]. apply zpos_lt in Ek as Hk. cbn [fmap option_fmap option_map].
    apply insert_holds; [done..|lia|destruct Hr as [[= ->]|Hr]; [by left|by right; right]|done].
  - destruct Hok as (Hi & Hw). rewrite (index_holds zl es ss i Hrep Hb Hi). cbn [option_bind mbind].
    destruct (zpos i (length ss)) as [k|] eqn:Ek; [|by exists zl; split; [|exists es]]. apply zpos_lt in Ek as Hk. cbn [fmap option_fmap option_map].
    unfold ziplistDelete. change 1 with (Z.of_nat 1). destruct (delete_holds zl es ss k 1 Hrep Hb Hh Hss Hk) as (zl' & -> & H); [lia|done|]. exists zl'. split; [done|].
    rewrite delete_take_drop. by rewrite Nat.add_1_r in H.
  - destruct Hok as (Hi & Hw & Hnum). unfold ziplistDeleteRange.
    assert (s32 (u32 i) = i) as -> by (unfold u32, s32; rewrite swrap_mod by lia; apply swrap_small; lia).
    rewrite (index_holds zl es ss i Hrep Hb Hi). cbn [option_bind mbind].
    destruct (zpos i (length ss)) as [k|] eqn:Ek; [|by exists zl; split; [|exists es]]. apply zpos_lt in Ek as Hk. cbn [fmap option_fmap option_map].
    by apply delete_holds.
Qed.

Fixpoint zops_run (os : list zop) (zl : list byte) : option (list byte) :=
  match os with [] => Some zl | o :: os => zl ← zop_run o zl; zops_run os zl end.
Fixpoint zops_spec (os : list zop) ss : list (list byte) :=
  match os with [] => ss | o :: os => zops_spec os (zop_spec o ss) end.
Fixpoint zops_ok (os : list zop) ss : Prop :=
  match os with [] => True | o :: os => zop_ok o ss /\ zops_ok os (zop_spec o ss) end.

Lemma zops_step os zl ss : zl_holds zl ss -> zops_ok os ss -> exists zl', zops_run os zl = Some zl' /\ zl_holds zl' (zops_spec os ss).
Proof.
  revert zl ss. induction os as [|o os IH]; intros zl ss H; [by exists zl|]. cbn [zops_ok zops_run zops_spec]. intros [Ho Hos].
  destruct (zop_step o zl ss H Ho) as (zl' & -> & H'). cbn [option_bind mbind]. by apply IH.
Qed.

(** ** Searching among the strings *)

(** The first position of [s], comparing one string of every [skip + 1] after
    the first [cnt]. *)
Fixpoint find_str ss s (skip cnt : nat) : option nat :=
  match ss with
  | [] => None
  | a :: ss =>
    match cnt with
    | O => if decide (a = s) then Some 0%nat else S <$> find_str ss s skip skip
    | S cnt => S <$> find_str ss s skip cnt
    end
  end.

Lemma findv_str ss s skip cnt : findv (zvalue <$> ss) s skip cnt = find_str ss s skip cnt.
Proof.
  revert cnt. induction ss as [|a ss IH]; intros cnt; [done|]. cbn [fmap list_fmap findv find_str]. rewrite zstring_zvalue.
  by destruct cnt as [|cnt]; rewrite IH.
Qed.

(** The bytes a reader of [ziplistGet]'s answer sees. *)
Definition zget_string zl (g : zget) : option (list byte) :=
  match g with GetStr a n => mem_read zl a n | GetInt i => Some (print_int i) end.

Lemma shows_string zl g v : shows zl g v -> zget_string zl g = Some (zstring v).
Proof. by destruct g, v; cbn; try done; intros ->. Qed.

(** ** The theorems *)

(** C5: from [ziplistNew], a sequence of pushes at either end, insertions
    and deletions by index (from the front, or from the end when negative) and
    deletions of a range that is [zops_ok] (the block stays below 2^31 bytes,
    and the insertions below) runs to the end without an access
    outside the block, and the block then holds the list of strings the same
    operations give on an abstract list: whatever chains of previous-length
    fields grow, with the stored byte count, tail offset and length right, and
    for either byte order.  An insertion before an entry other than the first
    is required to take three bytes or more besides its previous length
    ([roomy]): see [ziplistInsert_overruns] for the others. *)
Theorem ziplist_refines_list os : zops_ok os [] ->
  exists zl, (zl ← ziplistNew be junk; zops_run os zl) = Some zl /\ zl_holds zl (zops_spec os []).
Proof.
  intros Hok. destruct (ziplistNew_spec be junk) as (zl0 & -> & H0). cbn [option_bind mbind].
  apply zops_step; [|done]. by exists [].
Qed.

(** On a block that holds a list of strings, [ziplistIndex] gives the
    position from the front or from the end, or NULL outside; from the
    position of an index [ziplistNext] and [ziplistPrev] give those of the
    neighbours; [ziplistGet] and [ziplistCompare] give the string at it;
    [ziplistFind] the first match at every [skip + 1]-th position from it on;
    [ziplistBlobLen] the size of the block, and [ziplistLen] the length, also
    when it is too long for the header's 16 bits, keeping the list. *)
Theorem ziplist_queries zl ss : zl_holds zl ss ->
  exists pos : nat -> Z,
    (forall i, - 2 ^ 31 < i < 2 ^ 31 -> ziplistIndex be zl i = Some (pos <$> zpos i (length ss))) /\
    (forall k a, ss !! k = Some a ->
      ziplistNext zl (pos k) = Some (if decide (S k < length ss)%nat then Some (pos (S k)) else None) /\
      ziplistPrev be zl (pos k) = Some (match k with 0%nat => None | S k => Some (pos k) end) /\
      (exists g, ziplistGet be zl (Some (pos k)) = Some (Some g) /\ zget_string zl g = Some a) /\
      (forall s, ziplistCompare be zl (pos k) s (Z.of_nat (length s)) = Some (bool_decide (a = s))) /\
      (forall s skip, Z.of_nat skip < 2 ^ 31 ->
        ziplistFind be zl (pos k) s (Z.of_nat (length s)) (Z.of_nat skip) = Some ((fun j => pos (k + j)%nat) <$> find_str (drop k ss) s skip 0))) /\
    ziplistBlobLen be zl = Some (Z.of_nat (length zl)) /\
    (exists zl', ziplistLen be zl = Some (Z.of_nat (length ss), zl') /\ zl_holds zl' ss).
Proof.
  intros (es & Hrep & Hb & Hh & Hss). exists (off es). pose proof (holds_values es ss Hb Hss) as Hv.
  assert (length ss = length es) as El by (apply (f_equal length) in Hb; rewrite !length_fmap in Hb; done).
  split; [intros i Hi; by apply index_holds|]. split; [|split].
  - intros k a Ha. pose proof (lookup_lt_Some _ _ _ Ha) as Hk. rewrite El in *. destruct (lookup_lt_is_Some_2 es k Hk) as [e He].
    destruct (holds_lookup be es _ k e Hv He) as (v & Hkv & Hev). rewrite list_lookup_fmap, Ha in Hkv. injection Hkv as <-.
    split; [by apply (ziplistNext_spec be)|]. split; [apply ziplistPrev_spec; [done|lia]|]. split; [|split].
    + destruct (ziplistGet_spec be zl es Hrep k e _ He Hev) as (g & E & Hg). exists g. split; [done|].
      by rewrite (shows_string zl g _ Hg), zstring_zvalue.
    + intros s. by rewrite (ziplistCompare_spec be zl es Hrep k e _ s He Hev), zstring_zvalue.
    + intros s skip Hskip. rewrite (ziplistFind_spec be junk zl es Hrep k s skip _ Hv) by lia. by rewrite <-fmap_drop, findv_str.
  - by apply (ziplistBlobLen_spec be zl es).
  - destruct (ziplistLen_spec be zl es Hrep) as (zl' & E & Hrep'). exists zl'. rewrite El. split; [done|]. by exists es.
Qed.
End Spec.

(** ** The insertion that overruns the block *)

Definition nul_junk (_ : nat) : byte := z2b 0.
(** An entry of 300 bytes, one of 248 and one of 2; the first is deleted. *)
Definition overrun_start : option (list byte) :=
  zl ← ziplistNew false nul_junk;
  zops_run false nul_junk
    [ZPush (replicate 300 (z2b 65)) ZIPLIST_TAIL; ZPush (replicate 248 (z2b 120)) ZIPLIST_TAIL;
     ZPush [z2b 98; z2b 98] ZIPLIST_TAIL; ZDelete 0] zl.
Definition overrun_insert (s : list Z) : option (list byte) :=
  zl ← overrun_start; zop_run false nul_junk (ZInsert 1 (map z2b s)) zl.
Definition zget_at (zl : list byte) (i : Z) : option (list Z) :=
  p ← ziplistIndex false zl i; g ← ziplistGet false zl p; 
  match g with Some g => s ← zget_string zl g; Some (map b2z s) | None => None end.

(** C27: in a block that is in order, the insertion of a value whose encoding
    takes one byte (the empty string, or a number from 0 to 12) after an entry
    of less than 254 bytes and before an entry whose previous length takes five
    bytes (it need only take one): the block is made two bytes smaller before
    the entries are moved, and the move reads after its end. *)
Theorem ziplistInsert_overruns be junk zl L c R s :
  zl_rep be zl (L ++ (true, c) :: R) -> lastsize 0 L < 254 -> length (body_of s) = 1%nat -> Z.of_nat (length s) < 2 ^ 31 ->
  11 + total (L ++ (true, c) :: R) + 2 < 2 ^ 31 ->
  ziplistInsert be junk zl (off (L ++ (true, c) :: R) (length L)) s (Z.of_nat (length s)) = None.
Proof.
  intros [(l & -> & _) Hok Hfit] Hlast Hbody Hs Hb. unfold ziplistInsert, off. rewrite take_app_length.
  assert (need (lastsize 0 L) = false) as Hneed by (apply Z.leb_gt; lia).
  assert (esize (new_ent L s) = 2) as En by (unfold esize, new_ent; cbn [fst snd]; by rewrite Hneed, Hbody).
  apply zip_insert_none; rewrite ?En; [done|done|done|]. by apply room_short.
Qed.

(** A list of two entries, the second of which has a previous length of five
    bytes. Inserting [1] (two bytes) before it reads after the end of the
    block; inserting [100] or [a] (three) replaces the last byte of the last
    entry by 255; [1a] (four) is right. *)
Lemma overrun_examples :
  (zl ← overrun_start; Some (zget_at zl 0, zget_at zl 1)) = Some (Some (repeat 120 248), Some [98; 98]) /\
  overrun_insert [49] = None /\
  (zl ← overrun_insert [49; 48; 48]; Some (zget_at zl 1, zget_at zl 2)) = Some (Some [49; 48; 48], Some [98; 255]) /\
  (zl ← overrun_insert [97]; Some (zget_at zl 1, zget_at zl 2)) = Some (Some [97], Some [98; 255]) /\
  (zl ← overrun_insert [49; 97]; Some (zget_at zl 1, zget_at zl 2)) = Some (Some [49; 97], Some [98; 98]).
Proof. by vm_compute. Qed.

(** What each encoding writes into a gap of its size is read back, in
    either byte order and whatever surrounds it: integers in the encoding
    chosen for them, lengths of strings below 2^31 in one, two or five bytes,
    and lengths of previous entries, in one byte when below 254 or, always
    when forced, in five.  A string a block holds is thus read as it was
    written, an integer as its decimal form. *)
Theorem zip_encodings_roundtrip be pre gap post : let p := Z.of_nat (length pre) in let n := Z.of_nat (length gap) in
  (forall v, int64 v -> n = zipIntSize (int_encoding v) ->
    exists m, zipSaveInteger be (pre ++ gap ++ post) p v (int_encoding v) = Some m /\ zipLoadInteger be m p (int_encoding v) = Some v) /\
  (forall len, 0 <= len < 2 ^ 31 -> zipEncodeLength [] None ZIP_STR_06B len = Some ([], n) ->
    exists m enc, zipEncodeLength (pre ++ gap ++ post) (Some p) ZIP_STR_06B len = Some (m, n) /\
      ZIP_DECODE_LENGTH m p = Some (enc, n, len) /\ ZIP_IS_STR enc = true) /\
  (forall len, 0 <= len < 2 ^ 32 -> zipPrevEncodeLength be [] None len = Some ([], n) ->
    exists m, zipPrevEncodeLength be (pre ++ gap ++ post) (Some p) len = Some (m, n) /\ ZIP_DECODE_PREVLEN be m p = Some (n, len)) /\
  (forall len, 0 <= len < 2 ^ 32 -> n = 5 ->
    exists m, zipPrevEncodeLengthForceLarge be (pre ++ gap ++ post) (Some p) len = Some m /\ ZIP_DECODE_PREVLEN be m p = Some (5, len)) /\
  (forall s, Z.of_nat (length s) < 2 ^ 31 -> zstring <$> body_value be (body_of s) = Some s).
Proof.
  intros p n. split; [|split; [|split; [|split]]].
  - intros v Hv Hn. pose proof (int_encoding_in v Hv) as Hin. eexists. split; [apply save_spec; [done| |done]|by apply load_spec].
    pose proof (int_size v _ Hin). lia.
  - intros len Hl Hn. unfold zipEncodeLength in *. cbn [option_bind mbind] in *. injection Hn as Hn.
    destruct (decode_str len [] Hl) as (enc & Hd & Hs). unfold len_bytes in Hd. rewrite app_nil_r, length_fmap in Hd. unfold ZIP_STR_06B in *.
    rewrite mem_write_app by (rewrite ?length_fmap; done || lia). cbn [option_bind mbind]. eexists _, enc. split; [rewrite Hn; reflexivity|].
    split; [|done]. rewrite <-Hn. pose proof (decode_ctx pre _ post 0 _ Hd) as H. by rewrite Z.add_0_r in H.
  - intros len Hl Hn. rewrite need_size in Hn. injection Hn as Hn. eexists. rewrite write_prev by (done || lia). rewrite Hn.
    split; [reflexivity|]. rewrite pbytes_prevlen by (done || apply need_small). by rewrite Hn.
  - intros len Hl Hn. eexists. rewrite write_large by (done || lia). split; [reflexivity|]. by rewrite pbytes_prevlen.
  - intros s Hs. rewrite body_value_of by done. cbn. by rewrite zstring_zvalue.
Qed.

Example zip_encodings_roundtrip_witness :
  (exists m, zipSaveInteger true (map z2b [1; 2; 3; 4]) 1 (-3000) (int_encoding (-3000)) = Some m /\ zipLoadInteger true m 1 (int_encoding (-3000)) = Some (-3000)) /\
  (exists m enc, zipEncodeLength (map z2b [1; 2; 3; 4]) (Some 1) ZIP_STR_06B 1000 = Some (m, 2) /\ ZIP_DECODE_LENGTH m 1 = Some (enc, 2, 1000) /\ ZIP_IS_STR enc = true).
Proof.
  destruct (zip_encodings_roundtrip true [z2b 1] [z2b 2; z2b 3] [z2b 4]) as (H1 & H2 & _).
  split; [apply H1; [unfold int64; lia|reflexivity]|apply H2; [lia|reflexivity]].
Defined.

Example ziplist_refines_list_witness : exists zl,
  (zl ← ziplistNew true nul_junk; zops_run true nul_junk [ZPush (repeat (z2b 65) 252) 1; ZPush (repeat (z2b 66) 252) 1; ZPush (repeat (z2b 67) 300) 0;
     ZInsert 1 (map z2b [49; 48; 48; 48]); ZInsert (-1) (map z2b [97; 98]); ZDelete (-2); ZDeleteRange 0 1] zl) = Some zl /\
  zl_holds true zl [map z2b [49; 48; 48; 48]; repeat (z2b 65) 252; repeat (z2b 66) 252].
Proof.
  apply (ziplist_refines_list true nul_junk [ZPush (repeat (z2b 65) 252) 1; ZPush (repeat (z2b 66) 252) 1; ZPush (repeat (z2b 67) 300) 0;
     ZInsert 1 (map z2b [49; 48; 48; 48]); ZInsert (-1) (map z2b [97; 98]); ZDelete (-2); ZDeleteRange 0 1]).

  cbn [zops_ok zop_ok]. unfold roomy.
  repeat match goal with |- _ /\ _ => split | |- _ < _ < _ => split | |- True => exact I end; try (vm_compute; first [done | by left | by right]).
Defined.

Example ziplist_queries_witness : exists zl pos,
  (zl ← ziplistNew false nul_junk; ziplistPush false nul_junk zl (map z2b [49; 50]) 2 ZIPLIST_TAIL) = Some zl /\
  ziplistIndex false zl (-1) = Some (Some (pos 0%nat)) /\
  (exists g, ziplistGet false zl (Some (pos 0%nat)) = Some (Some g) /\ zget_string zl g = Some (map z2b [49; 50])).
Proof.
  destruct (ziplistNew_spec false nul_junk) as (zl0 & -> & H0). cbn [option_bind mbind].
  destruct (push_spec false nul_junk zl0 [] (map z2b [49; 50]) ZIPLIST_TAIL) as (zl & E & H); [by exists []|by vm_compute|].
  destruct (ziplist_queries false nul_junk zl _ H) as (pos & Hi & Hk & _). exists zl, pos. split; [exact E|].
  split; [by apply (Hi (-1))|]. by apply (Hk 0%nat (map z2b [49; 50])).
Defined.

(** The list of [overrun_start]. *)
Definition overrun_ents : list ent := [(false, body_of (replicate 248 (z2b 120))); (true, body_of [z2b 98; z2b 98])].
Lemma overrun_rep : zl_rep false (zblk 2 overrun_ents) overrun_ents.
Proof.
  constructor; [exists 2; split; [done|left; split; [done|vm_compute; done]]| |vm_compute; done].
  split; [split; [by vm_compute|by apply body_of_ok]|]. split; [split; [by vm_compute|by apply body_of_ok]|done].
Qed.

Example ziplistInsert_overruns_witness : overrun_start = Some (zblk 2 overrun_ents) /\
  ziplistInsert false nul_junk (zblk 2 overrun_ents) (off overrun_ents 1) [z2b 49] 1 = None.
Proof.
  split; [vm_compute; reflexivity|].
  apply (ziplistInsert_overruns false nul_junk (zblk 2 overrun_ents) [(false, body_of (replicate 248 (z2b 120)))] (body_of [z2b 98; z2b 98]) [] [z2b 49]);
    [exact overrun_rep|vm_compute; reflexivity|vm_compute; reflexivity|vm_compute; reflexivity|vm_compute; reflexivity].
Defined.
