(* ===== verification/Lzf.v ===== *)
(** Lzf: the compressor of [lzf_c.c] and the decompressor of [lzf_d.c], with
    the options of [lzfP.h] (a table of 2^16 pointers, not initialised; the
    "very fast" variant; input checked).  A pointer into a buffer is an offset
    in it. *)
From S2P Require Import Prelude.

Definition HLOG : Z := 16.
Definition HSIZE : Z := Z.shiftl 1 HLOG.
Definition MAX_LIT : Z := Z.shiftl 1 5.
Definition MAX_OFF : Z := Z.shiftl 1 13.
Definition MAX_REF : Z := Z.shiftl 1 8 + Z.shiftl 1 3.
Definition E2BIG : Z := 7.
Definition EINVAL : Z := 22.

(** ** Compression *)

(** The locals of [lzf_compress]: the positions [ip] and [op], the rolling
    value, the literals of the open run, the table (offsets in the input,
    those it starts with being arbitrary) and the output buffer. *)
Record lzf_state := LzfState { ip : Z; op : Z; hval : Z; lit : Z; htab : Z -> Z; outb : list byte }.

Section Compress.
Context (inp : list byte) (in_end out_end : Z).
Implicit Types (p h len : Z) (st : lzf_state).

Definition FRST p : option Z := a ← getb inp p; b ← getb inp (p + 1); Some (Z.lor (Z.shiftl a 8) b).
Definition NEXT (v p : Z) : option Z := c ← getb inp (p + 2); Some (Z.lor (u32 (Z.shiftl v 8)) c).
Definition IDX h : Z := Z.land (u32 (Z.shiftr h (3 * 8 - HLOG) - u32 (h * 5))) (HSIZE - 1).
Definition set_slot (t : Z -> Z) (i v : Z) : Z -> Z := fun j => if j =? i then v else t j.

(** [len++; if (ref [len] != ip [len]) break;], [n] times: [len], and whether
    it broke. *)
Fixpoint unrolled (n : nat) (ref p len : Z) : option (Z * bool) :=
  match n with
  | O => Some (len, false)
  | S n =>
    let len := len + 1 in
    a ← getb inp (ref + len); b ← getb inp (p + len);
    if a =? b then unrolled n ref p len else Some (len, true)
  end.

(** [do len++; while (len < maxlen && ref[len] == ip[len]);] *)
Fixpoint extend (fuel : nat) (ref p maxlen len : Z) : option Z :=
  match fuel with
  | O => None
  | S fuel =>
    let len := len + 1 in
    if len <? maxlen then
      a ← getb inp (ref + len); b ← getb inp (p + len);
      if a =? b then extend fuel ref p maxlen len else Some len
    else Some len
  end.

Definition match_length (ref p maxlen : Z) : option Z :=
  '(len, stop) ← (if 16 <? maxlen then unrolled 16 ref p 2 else Some (2, false));
  if stop : bool then Some len else extend (S (Z.to_nat maxlen)) ref p maxlen len.

(** [op [- lit - 1] = lit - 1; /* stop run */] *)
Definition stop_run st : option (list byte) := setb (outb st) (op st - lit st - 1) (lit st - 1).
(** [op -= !lit; /* undo run if length is zero */] *)
Definition undo_run st : Z := op st - (if lit st =? 0 then 1 else 0).

(** [lit++; *op++ = *ip++;] and the end of a run of [MAX_LIT]. *)
Definition literal st : option lzf_state :=
  b ← getb inp (ip st);
  out ← setb (outb st) (op st) b;
  let st := LzfState (ip st + 1) (op st + 1) (hval st) (lit st + 1) (htab st) out in
  if lit st =? MAX_LIT then
    out ← stop_run st; Some (LzfState (ip st) (op st + 1) (hval st) 0 (htab st) out)
  else Some st.

(** Whether there is a match at [ref]. *)
Definition is_match (p ref off : Z) : option bool :=
  if (off <? MAX_OFF) && (p + 4 <? in_end) && (0 <? ref) then
    r0 ← getb inp ref; i0 ← getb inp p;
    if r0 =? i0 then
      r1 ← getb inp (ref + 1); i1 ← getb inp (p + 1);
      if r1 =? i1 then r2 ← getb inp (ref + 2); i2 ← getb inp (p + 2); Some (r2 =? i2)
      else Some false
    else Some false
  else Some false.

(** Writing a back reference of [len + 2] bytes at distance [off + 1]; the
    result is the output and [op]. *)
Definition write_ref (out : list byte) (o off len : Z) : option (list byte * Z) :=
  '(out, o) ←
    (if len <? 7 then out ← setb out o (Z.shiftr off 8 + Z.shiftl len 5); Some (out, o + 1)
     else
       out ← setb out o (Z.shiftr off 8 + Z.shiftl 7 5);
       out ← setb out (o + 1) (len - 7); Some (out, o + 2));
  out ← setb out o off; Some (out, o + 1).

(** The tail of a match that the loop goes on after: two positions of it are
    entered in the table. *)
Definition rehash st : option lzf_state :=
  let p := ip st - 2 in
  h ← FRST p;
  h ← NEXT h p;
  let t := set_slot (htab st) (IDX h) p in
  let p := p + 1 in
  h ← NEXT h p;
  let t := set_slot t (IDX h) p in
  Some (LzfState (p + 1) (op st) h (lit st) t (outb st)).

Inductive lzf_step := Full (out : list byte) | Break (st : lzf_state) | Continue (st : lzf_state).

(** The body of the main loop when a match is found. *)
Definition match_step st ref off : option lzf_step :=
  let maxlen := u32 (in_end - ip st - 2) in
  let maxlen := if MAX_REF <? maxlen then MAX_REF else maxlen in
  out ← stop_run st;
  let o := undo_run st in
  if out_end <=? o + 3 + 1 then Some (Full out)
  else
    len ← match_length ref (ip st) maxlen;
    let len := len - 2 in
    '(out, o) ← write_ref out o off len;
    let st := LzfState (ip st + 1 + (len + 1)) (o + 1) (hval st) 0 (htab st) out in
    if in_end - 2 <=? ip st then Some (Break st) else st ← rehash st; Some (Continue st).

Definition lzf_body st : option lzf_step :=
  h ← NEXT (hval st) (ip st);
  let ref := htab st (IDX h) in
  let st := LzfState (ip st) (op st) h (lit st) (set_slot (htab st) (IDX h) (ip st)) (outb st) in
  let off := u64 (ip st - ref - 1) in
  m ← is_match (ip st) ref off;
  if m : bool then match_step st ref off
  else if out_end <=? op st then Some (Full (outb st))
  else st ← literal st; Some (Continue st).

(** [while (ip < in_end - 2)]: the state after it, or the output when there
    is no room. *)
Fixpoint lzf_loop (fuel : nat) st : option (list byte + lzf_state) :=
  match fuel with
  | O => None
  | S fuel =>
    if ip st <? in_end - 2 then
      r ← lzf_body st;
      match r with Full out => Some (inl out) | Break st => Some (inr st) | Continue st => lzf_loop fuel st end
    else Some (inr st)
  end.

(** [while (ip < in_end)] *)
Fixpoint literals (fuel : nat) st : option lzf_state :=
  match fuel with
  | O => None
  | S fuel => if ip st <? in_end then st ← literal st; literals fuel st else Some st
  end.
End Compress.

(** The length of the result, 0 for none, and the output buffer. *)
Definition lzf_compress (table : Z -> Z) (inp : list byte) (in_len : Z) (out : list byte) (out_len : Z) : option (Z * list byte) :=
  if (in_len =? 0) || (out_len =? 0) then Some (0, out)
  else
    h ← FRST inp 0;
    r ← lzf_loop inp in_len out_len (S (Z.to_nat in_len)) (LzfState 0 1 h 0 table out);
    match r with
    | inl out => Some (0, out)
    | inr st =>
      if out_len <? op st + 3 then Some (0, outb st)
      else
        st ← literals inp in_len (S (Z.to_nat in_len)) st;
        out ← stop_run st;
        Some (undo_run st, out)
    end.

(** ** Decompression *)

(** [do *op++ = *ip++; while (--ctrl);] *)
Fixpoint lit_copy (n : nat) (inp : list byte) (p : Z) (out : list byte) (o : Z) : option (list byte) :=
  match n with
  | O => Some out
  | S n => b ← getb inp p; out ← setb out o b; lit_copy n inp (p + 1) out (o + 1)
  end.

(** [*op++ = *ref++], [n] times. *)
Fixpoint ref_copy (n : nat) (out : list byte) (ref o : Z) : option (list byte) :=
  match n with
  | O => Some out
  | S n => b ← getb out ref; out ← setb out o b; ref_copy n out (ref + 1) (o + 1)
  end.

(** The result is the number of bytes written or 0, [errno] (0 when it is not
    set) and the output buffer. *)
Fixpoint decomp_loop (fuel : nat) (inp : list byte) (in_end : Z) (out : list byte) (out_end p o : Z) : option (Z * Z * list byte) :=
  match fuel with
  | O => None
  | S fuel =>
    ctrl ← getb inp p;
    let p := p + 1 in
    if ctrl <? Z.shiftl 1 5 then
      let ctrl := ctrl + 1 in
      if out_end <? o + ctrl then Some (0, E2BIG, out)
      else if in_end <? p + ctrl then Some (0, EINVAL, out)
      else
        out ← lit_copy (Z.to_nat ctrl) inp p out o;
        if p + ctrl <? in_end then decomp_loop fuel inp in_end out out_end (p + ctrl) (o + ctrl) else Some (o + ctrl, 0, out)
    else
      let len := Z.shiftr ctrl 5 in
      let ref := o - Z.shiftl (Z.land ctrl 0x1f) 8 - 1 in
      if in_end <=? p then Some (0, EINVAL, out)
      else
        '(len, p) ← (if len =? 7 then b ← getb inp p; Some (len + b, p + 1) else Some (len, p));
        if in_end <=? p then Some (0, EINVAL, out)
        else
          b ← getb inp p;
          let ref := ref - b in
          let p := p + 1 in
          if out_end <? o + len + 2 then Some (0, E2BIG, out)
          else if ref <? 0 then Some (0, EINVAL, out)
          else
            out ← ref_copy (Z.to_nat (2 + len)) out ref o;
            if p <? in_end then decomp_loop fuel inp in_end out out_end p (o + (2 + len)) else Some (o + (2 + len), 0, out)
  end.

(** The loop tests its condition after the body. *)
Definition lzf_decompress (inp : list byte) (in_len : Z) (out : list byte) (out_len : Z) : option (Z * Z * list byte) :=
  decomp_loop (S (Z.to_nat in_len)) inp in_len out out_len 0 0.
