(* ===== verification/LzfProofs.v ===== *)
(** LzfProofs: the compressed format as a list of tokens, what the
    decompressor does with it, and the invariant of the compressor's loop. *)
From S2P Require Import Prelude Lzf.

Implicit Types (bs acc data inp out rest : list byte).

(** ** The format *)

(** A run of literals, or a copy of [n] bytes from [off + 1] bytes back. *)
Inductive token := Lit (bs : list byte) | Ref (off n : nat).

Definition tok_ok (t : token) : Prop :=
  match t with Lit bs => (1 <= length bs <= 32)%nat | Ref off n => Z.of_nat off < 8192 /\ 3 <= Z.of_nat n <= 264 end.

Definition ser_tok (t : token) : list byte :=
  match t with
  | Lit bs => z2b (Z.of_nat (length bs) - 1) :: bs
  | Ref off n =>
    let o := Z.of_nat off in let l := Z.of_nat n - 2 in
    if decide (l < 7) then [z2b (o / 256 + l * 32); z2b o] else [z2b (o / 256 + 224); z2b (l - 7); z2b o]
  end.
Definition ser (ts : list token) : list byte := concat (ser_tok <$> ts).

(** The copy goes byte by byte: it may read what it has written. *)
Fixpoint back (off n : nat) acc : option (list byte) :=
  match n with
  | O => Some acc
  | S n => if decide (off < length acc)%nat then b ← acc !! (length acc - S off)%nat; back off n (acc ++ [b]) else None
  end.

Definition expand_tok (t : token) acc : option (list byte) :=
  match t with Lit bs => Some (acc ++ bs) | Ref off n => back off n acc end.
Fixpoint expand (ts : list token) acc : option (list byte) :=
  match ts with [] => Some acc | t :: ts => acc ← expand_tok t acc; expand ts acc end.

Lemma ser_app ts us : ser (ts ++ us) = ser ts ++ ser us.
Proof. unfold ser. by rewrite fmap_app, concat_app. Qed.
Lemma ser_snoc ts t : ser (ts ++ [t]) = ser ts ++ ser_tok t.
Proof. rewrite ser_app. unfold ser at 2. cbn. by rewrite app_nil_r. Qed.
Lemma expand_app ts us acc : expand (ts ++ us) acc = a ← expand ts acc; expand us a.
Proof.
  revert acc. induction ts as [|t ts IH]; intros acc; [done|]. cbn [app expand]. destruct (expand_tok t acc) as [a|]; [|done]. apply IH.
Qed.
Lemma expand_snoc ts t acc a : expand ts acc = Some a -> expand (ts ++ [t]) acc = expand_tok t a.
Proof. intros H. rewrite expand_app, H. cbn. by destruct (expand_tok t a). Qed.

(** A repetition of the input is a valid copy. *)
Lemma back_take inp off n : forall i, (off < i)%nat -> (i + n <= length inp)%nat ->
  (forall j, (j < n)%nat -> inp !! (i + j)%nat = inp !! (i + j - S off)%nat) ->
  back off n (take i inp) = Some (take (i + n) inp).
Proof.
  induction n as [|n IH]; intros i Ho Hi He; cbn [back]; [by rewrite Nat.add_0_r|].
  rewrite length_take_le by lia. rewrite decide_True by done. rewrite lookup_take_lt by lia.
  pose proof (He 0%nat ltac:(lia)) as H0. rewrite Nat.add_0_r in H0. destruct (lookup_lt_is_Some_2 inp i) as [b Hb]; [lia|].
  rewrite <-H0, Hb. cbn [option_bind mbind]. rewrite <-(take_S_r _ _ _ Hb). rewrite IH; [f_equal; f_equal; lia|lia|lia|].
  intros j Hj. specialize (He (S j) ltac:(lia)). rewrite <-Nat.add_succ_comm in He. exact He.
Qed.

Lemma back_length off n : forall acc data, back off n acc = Some data -> exists ext, data = acc ++ ext /\ length ext = n.
Proof.
  induction n as [|n IH]; intros acc data; cbn [back].
  - intros [= <-]. exists []. by rewrite app_nil_r.
  - case_decide; [|done]. destruct (acc !! _) as [b|]; [|done]. cbn [option_bind mbind]. intros (ext & -> & Hl)%IH.
    exists (b :: ext). rewrite <-app_assoc. split; [done|]. cbn. lia.
Qed.

Lemma expand_length ts : forall acc data, expand ts acc = Some data -> exists ext, data = acc ++ ext.
Proof.
  induction ts as [|t ts IH]; intros acc data; cbn [expand]; [intros [= <-]; exists []; by rewrite app_nil_r|].
  destruct (expand_tok t acc) as [a|] eqn:E; [|done]. cbn [option_bind mbind]. intros (ext & ->)%IH.
  destruct t as [bs|off n]; cbn in E; [injection E as <-|apply back_length in E as (e & -> & _)]; rewrite <-app_assoc; by eexists.
Qed.

(** ** Matches *)

(** The first [n] bytes at [r] and at [p] are the same. *)
Definition same inp (r p n : Z) : Prop := forall j, 0 <= j < n -> getb inp (r + j) = getb inp (p + j).

Lemma getb_some inp i : 0 <= i < Z.of_nat (length inp) -> exists b, getb inp i = Some b /\ 0 <= b < 256.
Proof.
  intros Hi. destruct (lookup_lt_is_Some_2 inp (Z.to_nat i)) as [b Hb]; [lia|]. exists (b2z b). pose proof (b2z_range b). split; [|lia].
  rewrite <-(Z2Nat.id i) by lia. by apply getb_nat.
Qed.

Lemma same_S inp r p n : same inp r p n -> getb inp (r + n) = getb inp (p + n) -> same inp r p (n + 1).
Proof. intros H E j Hj. destruct (Z.eq_dec j n) as [->|]; [done|]. apply H. lia. Qed.

Section Match.
Context (inp : list byte).
Abbreviation N := (Z.of_nat (length inp)).

Lemma unrolled_spec n r p len : 0 <= r < p -> 0 <= len -> p + len + Z.of_nat n < N -> same inp r p (len + 1) ->
  exists len' stop, unrolled inp n r p len = Some (len', stop) /\ len <= len' <= len + Z.of_nat n /\ same inp r p len' /\
    (stop = true -> len < len') /\ (stop = false -> len' = len + Z.of_nat n /\ same inp r p (len' + 1)).
Proof.
  revert len. induction n as [|n IH]; intros len Hr Hl Hn Hs; cbn [unrolled].
  - exists len, false. split; [done|]. split; [lia|]. split; [intros j Hj; apply Hs; lia|]. split; [done|]. intros _. split; [lia|done].
  - destruct (getb_some inp (r + (len + 1))) as (a & Ea & _); [lia|]. destruct (getb_some inp (p + (len + 1))) as (b & Eb & _); [lia|].
    rewrite Ea, Eb. cbn [option_bind mbind]. destruct (Z.eqb_spec a b) as [->|Hne].
    + destruct (IH (len + 1)) as (len' & stop & -> & Hl' & Hs' & Ht & Hf); [lia|lia|lia|apply same_S; [done|congruence]|].
      exists len', stop. split; [done|]. split; [lia|]. split; [done|]. split; [intros; lia|]. intros ->. destruct (Hf eq_refl). split; [lia|done].
    + exists (len + 1), true. split; [done|]. split; [lia|]. split; [done|]. split; [lia|done].
Qed.

Lemma extend_spec fuel r p maxlen len : 0 <= r < p -> 0 <= len -> p + maxlen <= N -> p + len + 1 <= N -> same inp r p (len + 1) ->
  (Z.to_nat (maxlen - len) < fuel)%nat ->
  exists len', extend inp fuel r p maxlen len = Some len' /\ len < len' /\ (len' <= maxlen \/ len' = len + 1) /\ same inp r p len'.
Proof.
  revert len. induction fuel as [|fuel IH]; intros len Hr Hl Hm Hn Hs Hf; [lia|]. cbn [extend].
  destruct (Z.ltb_spec (len + 1) maxlen) as [Hlt|Hge].
  - destruct (getb_some inp (r + (len + 1))) as (a & Ea & _); [lia|]. destruct (getb_some inp (p + (len + 1))) as (b & Eb & _); [lia|].
    rewrite Ea, Eb. cbn [option_bind mbind]. destruct (Z.eqb_spec a b) as [->|Hne].
    + destruct (IH (len + 1)) as (len' & -> & H1 & H2 & H3); [lia|lia|lia|lia|apply same_S; [done|congruence]|lia|].
      exists len'. split; [done|]. split; [lia|]. split; [lia|done].
    + exists (len + 1). split; [done|]. split; [lia|]. split; [lia|done].
  - exists (len + 1). split; [done|]. split; [lia|]. split; [by right|done].
Qed.

Lemma match_length_spec r p : 0 <= r < p -> p + 4 < N -> N < 2 ^ 32 -> same inp r p 3 ->
  let m := u32 (N - p - 2) in
  exists len, match_length inp r p (if MAX_REF <? m then MAX_REF else m) = Some len /\ 3 <= len <= 264 /\ p + len <= N /\ same inp r p len.
Proof.
  intros Hr Hp HN Hs m. unfold m. rewrite u32_small by lia. change MAX_REF with 264. set (maxlen := if 264 <? N - p - 2 then 264 else N - p - 2).
  assert (maxlen = Z.min 264 (N - p - 2)) as Hm by (unfold maxlen; destruct (Z.ltb_spec 264 (N - p - 2)); lia).
  unfold match_length. destruct (Z.ltb_spec 16 maxlen) as [Hbig|Hsmall].
  - destruct (unrolled_spec 16 r p 2) as (len & stop & -> & Hl & Hsl & Ht & Hf); [lia|lia|lia|done|]. cbn [option_bind mbind]. destruct stop.
    + exists len. split; [done|]. pose proof (Ht eq_refl). split; [lia|]. split; [lia|done].
    + destruct (Hf eq_refl) as (-> & Hs'). destruct (extend_spec (S (Z.to_nat maxlen)) r p maxlen (2 + Z.of_nat 16)) as (len & -> & H1 & H2 & H3); [lia|lia|lia|lia|done|lia|].
      exists len. split; [done|]. split; [lia|]. split; [lia|done].
  - cbn [option_bind mbind]. destruct (extend_spec (S (Z.to_nat maxlen)) r p maxlen 2) as (len & -> & H1 & H2 & H3); [lia|lia|lia|lia|done|lia|].
    exists len. split; [done|]. split; [lia|]. split; [lia|done].
Qed.

(** An entry of the table is any pointer. *)
Definition tab_ok (t : Z -> Z) : Prop := forall i, - 2 ^ 63 <= t i < 2 ^ 63.

Lemma tab_set t i v : tab_ok t -> - 2 ^ 63 <= v < 2 ^ 63 -> tab_ok (set_slot t i v).
Proof. intros H Hv j. unfold set_slot. by destruct (j =? i). Qed.

(** Only a position before [p] in the input, at most [MAX_OFF] back, matches. *)
Lemma is_match_spec p ref : 0 <= p < N -> N < 2 ^ 32 -> - 2 ^ 63 <= ref < 2 ^ 63 ->
  let off := u64 (p - ref - 1) in
  exists m, is_match inp N p ref off = Some m /\
    (m = true -> 0 < ref < p /\ off = p - ref - 1 /\ off < 8192 /\ p + 4 < N /\ same inp ref p 3).
Proof.
  intros Hp HN Href off. unfold is_match. change MAX_OFF with 8192.
  destruct (Z.ltb_spec off 8192) as [Hoff|]; [|by exists false]. destruct (Z.ltb_spec (p + 4) N); [|by exists false].
  destruct (Z.ltb_spec 0 ref); [|by exists false]. cbn [andb].
  assert (ref < p /\ off = p - ref - 1) as [Hlt E].
  { unfold off, u64 in *. destruct (Z.lt_ge_cases ref p); [split; [lia|apply Z.mod_small; lia]|].
    rewrite <-(Z.mod_add _ 1), Z.mod_small in Hoff by lia. lia. }
  destruct (getb_some inp ref) as (r0 & Er0 & _); [lia|]. destruct (getb_some inp p) as (i0 & Ei0 & _); [lia|].
  destruct (getb_some inp (ref + 1)) as (r1 & Er1 & _); [lia|]. destruct (getb_some inp (p + 1)) as (i1 & Ei1 & _); [lia|].
  destruct (getb_some inp (ref + 2)) as (r2 & Er2 & _); [lia|]. destruct (getb_some inp (p + 2)) as (i2 & Ei2 & _); [lia|].
  rewrite Er0, Ei0. cbn [option_bind mbind]. destruct (Z.eqb_spec r0 i0) as [->|]; [|by exists false].
  rewrite Er1, Ei1. cbn [option_bind mbind]. destruct (Z.eqb_spec r1 i1) as [->|]; [|by exists false].
  rewrite Er2, Ei2. cbn [option_bind mbind]. exists (r2 =? i2). split; [done|]. intros ->%Z.eqb_eq.
  split; [lia|]. split; [done|]. split; [lia|]. split; [lia|]. intros j Hj.
  assert (j = 0 \/ j = 1 \/ j = 2) as [ -> | [ -> | -> ] ] by lia; rewrite ?Z.add_0_r; congruence.
Qed.
End Match.

(** The invariant of the compressor and its result. *)
Section Comp.
Context (inp : list byte) (cap : Z).
Abbreviation N := (Z.of_nat (length inp)).
Implicit Types (st : lzf_state) (ts : list token).

(** The tokens written stand for the input up to the open run, whose literals
    follow the place of its header. *)
Record lzf_inv st ts : Prop := LzfInv {
  inv_out : exists h rest, outb st = ser ts ++ h :: take (Z.to_nat (lit st)) (drop (Z.to_nat (ip st - lit st)) inp) ++ rest /\
    Z.of_nat (length (outb st)) = cap + 1;
  inv_ts : Forall tok_ok ts;
  inv_exp : expand ts [] = Some (take (Z.to_nat (ip st - lit st)) inp);
  inv_lit : 0 <= lit st < 32 /\ lit st <= ip st <= N;
  inv_op : op st = Z.of_nat (length (ser ts)) + 1 + lit st;
  inv_tab : tab_ok (htab st) }.

Lemma take_extend i l b : inp !! (i + l)%nat = Some b -> take (S l) (drop i inp) = take l (drop i inp) ++ [b].
Proof. intros H. apply take_S_r. by rewrite lookup_drop. Qed.

(** Ending the open run. *)
Lemma stop_spec st ts : lzf_inv st ts -> exists out ts' rest,
  stop_run st = Some out /\ out = ser ts' ++ rest /\ Z.of_nat (length out) = cap + 1 /\ undo_run st = Z.of_nat (length (ser ts')) /\
  Forall tok_ok ts' /\ expand ts' [] = Some (take (Z.to_nat (ip st)) inp) /\ (lit st = 0 -> rest <> []).
Proof.
  intros [(h & rest & Hout & Hlen) Hts Hexp Hl Hop Ht]. unfold stop_run, undo_run. rewrite Hout.
  set (l := Z.to_nat (lit st)) in *. set (lits := take l _) in *. rewrite setb_app by lia.
  assert (length lits = l) as Hll by (unfold lits; rewrite length_take, length_drop; lia).
  destruct (Z.eqb_spec (lit st) 0) as [E|E].
  - exists (ser ts ++ z2b (lit st - 1) :: lits ++ rest), ts, (z2b (lit st - 1) :: lits ++ rest).
    split; [done|]. split; [done|]. split; [rewrite Hout in Hlen; by rewrite length_app in *|]. split; [lia|]. split; [done|].
    split; [by rewrite E, Z.sub_0_r in Hexp|done].
  - exists (ser (ts ++ [Lit lits]) ++ rest), (ts ++ [Lit lits]), rest. split_and!.
    + f_equal. rewrite ser_snoc, <-app_assoc. cbn [ser_tok]. rewrite Hll. replace (Z.of_nat l) with (lit st) by lia. done.
    + done.
    + rewrite Hout in Hlen. rewrite ser_snoc, !length_app in *. cbn [ser_tok length] in *. rewrite length_app in Hlen. lia.
    + rewrite ser_snoc, length_app. cbn [ser_tok length]. lia.
    + apply Forall_app. split; [done|]. constructor; [cbn; lia|done].
    + rewrite (expand_snoc _ _ _ _ Hexp). cbn [expand_tok]. f_equal. unfold lits. rewrite take_take_drop. f_equal. lia.
    + done.
Qed.

(** Starting a run where [rest] begins. *)
Lemma start_run ts h rest p o hv t : Z.of_nat (length (ser ts ++ h :: rest)) = cap + 1 -> o = Z.of_nat (length (ser ts)) -> 0 <= p <= N ->
  Forall tok_ok ts -> expand ts [] = Some (take (Z.to_nat p) inp) -> tab_ok t ->
  lzf_inv (LzfState p (o + 1) hv 0 t (ser ts ++ h :: rest)) ts.
Proof.
  intros Hlen Ho Hp Hts Hexp Ht. constructor; cbn [ip op hval lit htab outb]; [|done| |lia|lia|done].
  - exists h, rest. by rewrite take_0.
  - by rewrite Z.sub_0_r.
Qed.

Lemma literal_spec st ts : lzf_inv st ts -> ip st < N -> op st < cap ->
  exists st' ts', literal inp st = Some st' /\ lzf_inv st' ts' /\ ip st' = ip st + 1 /\
    (lit st' = lit st + 1 /\ op st' = op st + 1 \/ lit st = 31 /\ lit st' = 0 /\ op st' = op st + 2).
Proof.
  intros [(h & rest & Hout & Hlen) Hts Hexp Hl Hop Ht] Hip Hcap. unfold literal.
  destruct (lookup_lt_is_Some_2 inp (Z.to_nat (ip st))) as [b Hb]; [lia|].
  assert (getb inp (ip st) = Some (b2z b)) as -> by (rewrite <-(Z2Nat.id (ip st)) by lia; by apply getb_nat). cbn [option_bind mbind].
  set (l := Z.to_nat (lit st)) in *. set (lits := take l _) in *.
  assert (length lits = l) as Hll by (unfold lits; rewrite length_take, length_drop; lia).
  destruct rest as [|x rest].
  { exfalso. rewrite Hout, length_app in Hlen. cbn [length] in Hlen. rewrite length_app in Hlen. cbn [length] in Hlen. lia. }
  rewrite Hout. replace (ser ts ++ h :: lits ++ x :: rest) with ((ser ts ++ h :: lits) ++ x :: rest) by by rewrite <-app_assoc.
  rewrite setb_app by (rewrite length_app; cbn [length]; lia). cbn [option_bind mbind]. rewrite z2b_b2z.
  assert (Z.of_nat (length ((ser ts ++ h :: lits) ++ b :: rest)) = cap + 1) as Hlen'.
  { rewrite Hout in Hlen. rewrite !length_app in *. cbn [length] in *. rewrite length_app in Hlen. cbn [length] in Hlen. lia. }
  set (st1 := LzfState _ _ _ _ _ _).
  assert (take (S l) (drop (Z.to_nat (ip st - lit st)) inp) = lits ++ [b]) as Hlits.
  { apply take_extend. by replace (Z.to_nat (ip st - lit st) + l)%nat with (Z.to_nat (ip st)) by lia. }
  cbn [lit st1]. destruct (Z.eqb_spec (lit st + 1) MAX_LIT) as [E|E]; change MAX_LIT with 32 in E.
  - unfold stop_run. cbn [outb op lit st1]. rewrite <-app_assoc. cbn [app]. rewrite setb_app by lia. cbn [option_bind mbind ip htab hval].
    destruct rest as [|y rest].
    { exfalso. rewrite length_app in Hlen'. cbn [length] in Hlen'. rewrite length_app in Hlen'. cbn [length] in Hlen'. lia. }
    exists (LzfState (ip st + 1) (op st + 1 + 1) (hval st) 0 (htab st) (ser ts ++ z2b (lit st + 1 - 1) :: lits ++ b :: y :: rest)), (ts ++ [Lit (lits ++ [b])]).
    split; [done|]. split; [|split; [done|right; cbn [ip op lit]; lia]].
    assert (ser ts ++ z2b (lit st + 1 - 1) :: lits ++ b :: y :: rest = ser (ts ++ [Lit (lits ++ [b])]) ++ y :: rest) as ->.
    { rewrite ser_snoc, <-app_assoc. cbn [ser_tok app]. rewrite <-app_assoc, length_app, Hll. cbn [length app]. do 2 f_equal. f_equal. lia. }
    apply start_run; [|rewrite ser_snoc, length_app; cbn [ser_tok length]; rewrite length_app; cbn [length]; lia|lia| | |done].
    + rewrite ser_snoc, !length_app in *. cbn [ser_tok length] in *. rewrite !length_app in *. cbn [length] in *. lia.
    + apply Forall_app. split; [done|]. constructor; [cbn; rewrite length_app; cbn; lia|done].
    + rewrite (expand_snoc _ _ _ _ Hexp). cbn [expand_tok]. f_equal. rewrite <-Hlits, take_take_drop. f_equal. lia.
  - exists st1, ts. split; [done|]. split; [|split; [done|left; done]]. unfold st1. constructor; cbn [ip op hval lit htab outb]; [|done| |lia|lia|done].
    + exists h, rest. replace (Z.to_nat (lit st + 1)) with (S l) by lia. replace (ip st + 1 - (lit st + 1)) with (ip st - lit st) by lia.
      rewrite Hlits. split; [by rewrite <-!app_assoc|done].
    + by replace (ip st + 1 - (lit st + 1)) with (ip st - lit st) by lia.
Qed.

Lemma write_ref_spec ts rest off len :
  0 <= off < 8192 -> 1 <= len <= 262 -> 3 <= Z.of_nat (length rest) ->
  let ts' := ts ++ [Ref (Z.to_nat off) (Z.to_nat (len + 2))] in
  exists k, (k <= 3)%nat /\ length (ser ts') = (length (ser ts) + k)%nat /\
    write_ref (ser ts ++ rest) (Z.of_nat (length (ser ts))) off len = Some (ser ts' ++ drop k rest, Z.of_nat (length (ser ts'))).
Proof.
  intros Hoff Hlen Hrest ts'. destruct rest as [|x [|y [|z rest]]]; try (cbn [length] in Hrest; lia).
  assert (ser ts' = ser ts ++ ser_tok (Ref (Z.to_nat off) (Z.to_nat (len + 2)))) as -> by apply ser_snoc.
  unfold write_ref, ser_tok. rewrite !Z2Nat.id by lia. replace (len + 2 - 2) with len by lia. rewrite !Z.shiftr_div_pow2, !Z.shiftl_mul_pow2 by lia.
  change (2 ^ 8) with 256. change (2 ^ 5) with 32. change (7 * 32) with 224.
  destruct (Z.ltb_spec len 7), (decide (len < 7)); try lia; rewrite setb_app by done; cbn [option_bind mbind].
  - change (ser ts ++ z2b (off / 256 + len * 32) :: y :: z :: rest) with (ser ts ++ [z2b (off / 256 + len * 32)] ++ y :: z :: rest).
    rewrite (app_assoc (ser ts)), setb_app by (rewrite length_app; cbn [length]; lia). cbn [option_bind mbind].
    exists 2%nat. split; [lia|]. split; [by rewrite length_app|]. rewrite <-!app_assoc, !length_app. cbn [app drop length]. do 2 f_equal. lia.
  - change (ser ts ++ z2b (off / 256 + 224) :: y :: z :: rest) with (ser ts ++ [z2b (off / 256 + 224)] ++ y :: z :: rest).
    rewrite (app_assoc (ser ts)), setb_app by (rewrite length_app; cbn [length]; lia). cbn [option_bind mbind].
    change ((ser ts ++ [z2b (off / 256 + 224)]) ++ z2b (len - 7) :: z :: rest) with ((ser ts ++ [z2b (off / 256 + 224)]) ++ [z2b (len - 7)] ++ z :: rest).
    rewrite (app_assoc (ser ts ++ _)), setb_app by (rewrite !length_app; cbn [length]; lia). cbn [option_bind mbind].
    exists 3%nat. split; [lia|]. split; [by rewrite length_app|]. rewrite <-!app_assoc, !length_app. cbn [app drop length]. do 2 f_equal. lia.
Qed.

Lemma rehash_spec st : 2 <= ip st -> ip st < N - 2 -> N < 2 ^ 32 -> tab_ok (htab st) ->
  exists h t, rehash inp st = Some (LzfState (ip st) (op st) h (lit st) t (outb st)) /\ tab_ok t.
Proof.
  intros Hp Hn HN Ht. unfold rehash, FRST, NEXT.
  destruct (getb_some inp (ip st - 2)) as (a & -> & _); [lia|]. cbn [option_bind mbind].
  destruct (getb_some inp (ip st - 2 + 1)) as (b & -> & _); [lia|]. cbn [option_bind mbind].
  destruct (getb_some inp (ip st - 2 + 2)) as (c & -> & _); [lia|]. cbn [option_bind mbind].
  destruct (getb_some inp (ip st - 2 + 1 + 2)) as (d & -> & _); [lia|]. cbn [option_bind mbind].
  replace (ip st - 2 + 1 + 1) with (ip st) by lia. eexists _, _. split; [reflexivity|]. apply tab_set; [apply tab_set; [done|lia]|lia].
Qed.

Lemma match_step_spec st ts ref : N < 2 ^ 32 -> lzf_inv st ts -> 0 < ref < ip st -> ip st - ref - 1 < 8192 -> ip st + 4 < N -> same inp ref (ip st) 3 ->
  exists r, match_step inp N cap st ref (ip st - ref - 1) = Some r /\
    match r with
    | Full out => Z.of_nat (length out) = cap + 1
    | Break st' => exists ts', lzf_inv st' ts' /\ N - 2 <= ip st'
    | Continue st' => exists ts', lzf_inv st' ts' /\ ip st < ip st' /\ op st' <= cap
    end.
Proof.
  intros HN Hinv Href Hoff Hp Hs. unfold match_step. destruct (stop_spec st ts Hinv) as (out & ts1 & rest & -> & Eout & Hlen & -> & Hts1 & Hexp1 & _).
  cbn [option_bind mbind]. destruct (Z.leb_spec cap (Z.of_nat (length (ser ts1)) + 3 + 1)) as [Hfull|Hroom].
  { exists (Full out). done. }
  destruct (match_length_spec inp ref (ip st)) as (len & -> & Hl & Hpl & Hsl); [lia|lia|lia|done|]. cbn [option_bind mbind].
  assert (Z.of_nat (length rest) = cap + 1 - Z.of_nat (length (ser ts1))) as Hrest by (rewrite Eout, length_app in Hlen; lia).
  destruct (write_ref_spec ts1 rest (ip st - ref - 1) (len - 2)) as (k & Hk & E2 & Ew); [lia|lia|lia|]. rewrite Eout, Ew. cbn [option_bind mbind].
  set (ts2 := ts1 ++ _) in *. replace (len - 2 + 2) with len in ts2 by lia.
  assert (expand ts2 [] = Some (take (Z.to_nat (ip st + len)) inp)) as Hexp2.
  { unfold ts2. rewrite (expand_snoc _ _ _ _ Hexp1). cbn [expand_tok]. rewrite back_take; [f_equal; f_equal; lia|lia|lia|].
    intros j Hj. pose proof (Hsl (Z.of_nat j) ltac:(lia)) as E. unfold getb in E. rewrite !decide_True in E by lia.
    replace (Z.to_nat (ref + Z.of_nat j)) with (Z.to_nat (ip st) + j - S (Z.to_nat (ip st - ref - 1)))%nat in E by lia.
    replace (Z.to_nat (ip st + Z.of_nat j)) with (Z.to_nat (ip st) + j)%nat in E by lia.
    destruct (inp !! (Z.to_nat (ip st) + j)%nat) as [a|], (inp !! (Z.to_nat (ip st) + j - _)%nat) as [b|]; try done.
    injection E as E. by rewrite (b2z_inj _ _ E). }
  assert (Forall tok_ok ts2) as Hts2.
  { apply Forall_app. split; [done|]. constructor; [cbn; lia|done]. }
  destruct (drop k rest) as [|x rest'] eqn:Ed; [apply (f_equal length) in Ed; rewrite length_drop in Ed; cbn [length] in Ed; lia|].
  assert (Z.of_nat (length (ser ts2 ++ x :: rest')) = cap + 1 /\ Z.of_nat (length (ser ts2)) <= Z.of_nat (length (ser ts1)) + 3) as [Hlen2 Hs2].
  { apply (f_equal length) in Ed. rewrite length_drop in Ed.
    replace (len - 2 + 2) with len in E2 by lia. fold ts2 in E2.
    rewrite length_app, <-Ed, E2. lia. }
  replace (ip st + 1 + (len - 2 + 1)) with (ip st + len) by lia. cbn [ip].
  assert (lzf_inv (LzfState (ip st + len) (Z.of_nat (length (ser ts2)) + 1) (hval st) 0 (htab st) (ser ts2 ++ x :: rest')) ts2) as Hinv2.
  { apply start_run; [done|done|lia|done|done|apply Hinv]. }
  destruct (Z.leb_spec (N - 2) (ip st + len)).
  - eexists. split; [reflexivity|]. by exists ts2.
  - set (st2 := LzfState _ _ _ _ _ _) in *. destruct (rehash_spec st2) as (h & t & -> & Ht); [cbn; lia|cbn; lia|done|apply Hinv|].
    cbn [option_bind mbind]. eexists. split; [reflexivity|]. exists ts2. split; [|cbn; lia].
    apply start_run; [done|done|cbn; lia|done|done|done].
Qed.

Lemma body_spec st ts : N < 2 ^ 32 -> lzf_inv st ts -> ip st < N - 2 ->
  exists r, lzf_body inp N cap st = Some r /\
    match r with
    | Full out => Z.of_nat (length out) = cap + 1
    | Break st' => exists ts', lzf_inv st' ts' /\ N - 2 <= ip st'
    | Continue st' => exists ts', lzf_inv st' ts' /\ ip st < ip st'
    end.
Proof.
  intros HN Hinv Hp. pose proof (inv_lit _ _ Hinv) as Hl. unfold lzf_body, NEXT. destruct (getb_some inp (ip st + 2)) as (c & -> & _); [lia|].
  cbn [option_bind mbind]. set (h := Z.lor _ _). set (ref := htab st (IDX h)). pose proof (inv_tab _ _ Hinv (IDX h)) as Href. fold ref in Href.
  destruct (is_match_spec inp (ip st) ref) as (m & Em & Hm); [lia|done|done|]. set (st1 := LzfState _ _ _ _ _ _).
  assert (lzf_inv st1 ts) as Hinv1 by (destruct Hinv; constructor; cbn [ip op hval lit htab outb st1]; try done; apply tab_set; [done|lia]).
  change (ip st1) with (ip st). rewrite Em. cbn [option_bind mbind]. destruct m.
  - destruct (Hm eq_refl) as (Hr & -> & Hoff & Hp4 & Hs). destruct (match_step_spec st1 ts ref) as (r & Er & Hr'); [done..|].
    change (ip st1) with (ip st) in *. rewrite Er. exists r. split; [done|]. destruct r as [| |st']; [done|done|]. destruct Hr' as (ts' & ? & ? & _). by exists ts'.
  - destruct (Z.leb_spec cap (op st1)) as [Hfull|Hroom].
    + eexists. split; [reflexivity|]. destruct (inv_out _ _ Hinv1) as (? & ? & _ & H). done.
    + destruct (literal_spec st1 ts Hinv1) as (st' & ts' & -> & Hinv' & Hip & _); [cbn; lia|done|]. cbn [option_bind mbind].
      eexists. split; [reflexivity|]. exists ts'. split; [done|]. change (ip st1) with (ip st) in Hip. lia.
Qed.

Lemma loop_spec fuel : forall st ts, N < 2 ^ 32 -> lzf_inv st ts -> (Z.to_nat (N - ip st) < fuel)%nat ->
  exists r, lzf_loop inp N cap fuel st = Some r /\
    match r with
    | inl out => Z.of_nat (length out) = cap + 1
    | inr st' => exists ts', lzf_inv st' ts' /\ N - 2 <= ip st'
    end.
Proof.
  induction fuel as [|fuel IH]; intros st ts HN Hinv Hf; [lia|]. cbn [lzf_loop]. destruct (Z.ltb_spec (ip st) (N - 2)) as [Hlt|Hge].
  - destruct (body_spec st ts HN Hinv Hlt) as (r & -> & Hr). cbn [option_bind mbind]. destruct r as [out|st'|st'].
    + by eexists.
    + by eexists.
    + destruct Hr as (ts' & Hinv' & Hp). apply (IH _ ts'); [done|done|]. pose proof (inv_lit _ _ Hinv'). lia.
  - eexists. split; [reflexivity|]. by exists ts.
Qed.

(** The last bytes: at most one run ends among them. *)
Lemma literals_spec fuel : forall st ts, lzf_inv st ts -> N - ip st < 32 -> (Z.to_nat (N - ip st) < fuel)%nat ->
  ip st = N \/ op st + (N - ip st) + (if 32 <? lit st + (N - ip st) then 1 else 0) <= cap ->
  exists st' ts', literals inp N fuel st = Some st' /\ lzf_inv st' ts' /\ ip st' = N /\
    undo_run st' <= (if ip st =? N then undo_run st else op st + (N - ip st) + (if 32 <? lit st + (N - ip st) then 1 else 0)).
Proof.
  induction fuel as [|fuel IH]; intros st ts Hinv Hr Hf Hop; [lia|]. cbn [literals]. pose proof (inv_lit _ _ Hinv) as Hl.
  destruct (Z.ltb_spec (ip st) N) as [Hlt|Hge].
  - destruct Hop as [?|Hop]; [lia|].
    destruct (literal_spec st ts Hinv) as (st1 & ts1 & -> & Hinv1 & Hp & Hcase); [done|destruct (32 <? _); lia|]. cbn [option_bind mbind].
    destruct (IH st1 ts1 Hinv1) as (st' & ts' & -> & Hinv' & Hip & Hu); [lia|lia| |].
    { destruct (Z.ltb_spec 32 (lit st1 + (N - ip st1))), (Z.ltb_spec 32 (lit st + (N - ip st))); lia. } exists st', ts'. split; [done|]. split; [done|]. split; [done|].
    unfold undo_run in Hu |- *. destruct (Z.eqb_spec (ip st) N); [lia|]. destruct (Z.eqb_spec (lit st1) 0), (Z.eqb_spec (ip st1) N);
      destruct (Z.ltb_spec 32 (lit st1 + (N - ip st1))), (Z.ltb_spec 32 (lit st + (N - ip st))); lia.
  - exists st, ts. split; [done|]. split; [done|]. split; [lia|]. rewrite (proj2 (Z.eqb_eq _ _)) by lia. done.
Qed.

Lemma compress_spec table out : 2 <= N < 2 ^ 32 -> 0 <= cap -> Z.of_nat (length out) = cap + 1 -> tab_ok table ->
  exists r out', lzf_compress table inp N out cap = Some (r, out') /\ Z.of_nat (length out') = cap + 1 /\ 0 <= r <= cap /\
    (r = 0 \/ exists ts rest, out' = ser ts ++ rest /\ r = Z.of_nat (length (ser ts)) /\ ts <> [] /\ Forall tok_ok ts /\ expand ts [] = Some inp).
Proof.
  intros HN Hcap Hout Ht. unfold lzf_compress. destruct (Z.eqb_spec N 0); [lia|]. destruct (Z.eqb_spec cap 0) as [->|]; cbn [orb].
  { exists 0, out. split; [done|]. split; [done|]. split; [lia|by left]. }
  unfold FRST. destruct (getb_some inp 0) as (a & -> & _); [lia|]. cbn [option_bind mbind]. destruct (getb_some inp (0 + 1)) as (b & -> & _); [lia|]. cbn [option_bind mbind].
  set (st0 := LzfState _ _ _ _ _ _). destruct out as [|x out]; [cbn [length] in Hout; lia|].
  assert (lzf_inv st0 []) as Hinv0 by (apply (start_run [] x out 0 0); [done|done|lia|constructor|done|done]).
  destruct (loop_spec (S (Z.to_nat N)) st0 [] ltac:(lia) Hinv0) as (r & -> & Hr); [cbn; lia|]. cbn [option_bind mbind]. destruct r as [out'|st].
  { exists 0, out'. split; [done|]. split; [done|]. split; [lia|by left]. }
  destruct Hr as (ts & Hinv & Hp). destruct (Z.ltb_spec cap (op st + 3)) as [Hfull|Hroom].
  { eexists 0, _. split; [reflexivity|]. destruct (inv_out _ _ Hinv) as (? & ? & _ & H). split; [done|]. split; [lia|by left]. }
  pose proof (inv_lit _ _ Hinv) as Hl. destruct (literals_spec (S (Z.to_nat N)) st ts Hinv) as (st' & ts' & -> & Hinv' & Hip & Hu); [lia|lia|destruct (32 <? _); lia|]. cbn [option_bind mbind].
  destruct (stop_spec st' ts' Hinv') as (out' & ts2 & rest & -> & Eout & Hlen & Eu & Hts & Hexp & _). cbn [option_bind mbind].
  exists (undo_run st'), out'. split; [done|]. split; [done|]. split; [rewrite Eu in Hu |- *; unfold undo_run in Hu; destruct (ip st =? N); [destruct (lit st =? 0)|destruct (32 <? _)]; lia|]. right. exists ts2, rest.
  split; [done|]. split; [done|]. rewrite Hip, Nat2Z.id, firstn_all in Hexp. split; [|done]. intros ->. cbn in Hexp. injection Hexp as Hexp. rewrite <-Hexp in HN. cbn in HN. lia.
Qed.
End Comp.
