(* ===== verification/LzfSpec.v ===== *)
(** LzfSpec: decompression is safe on any input and undoes compression;
    compression may write one byte after its buffer. *)
From S2P Require Import Prelude Lzf LzfProofs.

Implicit Types (bs acc data inp out rest : list byte) (ts : list token).

(** ** Decompression of tokens *)

Lemma lit_copy_spec bs : forall pre post acc g rest p o, p = Z.of_nat (length pre) -> o = Z.of_nat (length acc) -> length g = length bs ->
  lit_copy (length bs) (pre ++ bs ++ post) p (acc ++ g ++ rest) o = Some (acc ++ bs ++ rest).
Proof.
  induction bs as [|b bs IH]; intros pre post acc g rest p o Hp Ho Hg; (destruct g as [|x g]; try done). cbn [length app lit_copy].
  rewrite getb_app by done. cbn [option_bind mbind]. rewrite setb_app by done. cbn [option_bind mbind]. rewrite z2b_b2z.
  change (pre ++ b :: bs ++ post) with (pre ++ [b] ++ bs ++ post). change (acc ++ b :: g ++ rest) with (acc ++ [b] ++ g ++ rest).
  rewrite (app_assoc pre), (app_assoc acc), IH; [by rewrite <-!app_assoc|rewrite length_app; cbn; lia..|cbn in Hg; lia].
Qed.

Lemma ref_copy_spec off n : forall acc data g rest ref o, back off n acc = Some data -> length g = n -> o = Z.of_nat (length acc) ->
  ref = o - Z.of_nat off - 1 -> ref_copy n (acc ++ g ++ rest) ref o = Some (data ++ rest).
Proof.
  induction n as [|n IH]; intros acc data g rest ref o Hb Hg Ho Hr; cbn [back ref_copy] in *; (destruct g as [|x g]; try done).
  - by injection Hb as <-.
  - case_decide; [|done]. destruct (acc !! _) as [b|] eqn:Eb; [|done]. cbn [option_bind mbind] in Hb.
    assert (getb (acc ++ (x :: g) ++ rest) ref = Some (b2z b)) as ->.
    { replace ref with (Z.of_nat (length acc - S off)) by lia. apply getb_nat. rewrite lookup_app_l by lia. exact Eb. }
    cbn [option_bind mbind app]. rewrite setb_app by done. cbn [option_bind mbind]. rewrite z2b_b2z.
    change (acc ++ b :: g ++ rest) with (acc ++ [b] ++ g ++ rest). rewrite app_assoc.
    apply (IH _ data); [done|cbn in Hg; lia|rewrite length_app; cbn; lia|lia].
Qed.

(** The fields of the first byte of a back reference. *)
Lemma ref_ctrl o k : 0 <= o < 32 -> 1 <= k <= 7 ->
  let c := b2z (z2b (o + k * 32)) in (c <? Z.shiftl 1 5) = false /\ Z.shiftr c 5 = k /\ Z.land c 0x1f = o.
Proof.
  intros Ho Hk c. unfold c. rewrite b2z_z2b, Z.mod_small by lia. change (Z.shiftl 1 5) with 32. split; [lia|]. split.
  - rewrite Z.shiftr_div_pow2 by lia. change (2 ^ 5) with 32. rewrite Z.div_add by lia. rewrite Z.div_small by lia. lia.
  - change 0x1f with (Z.ones 5). rewrite Z.land_ones by lia. change (2 ^ 5) with 32. rewrite Z.mod_add by lia. by rewrite Z.mod_small by lia.
Qed.

Lemma split_len {A} (l : list A) n : (n <= length l)%nat -> exists g r, l = g ++ r /\ length g = n.
Proof. intros H. exists (take n l), (drop n l). rewrite take_drop, length_take. split; [done|lia]. Qed.

(** One token. *)
Lemma decomp_tok fuel t acc acc' pre post rest cap p o :
  tok_ok t -> expand_tok t acc = Some acc' -> p = Z.of_nat (length pre) -> o = Z.of_nat (length acc) -> Z.of_nat (length acc') <= cap ->
  cap <= Z.of_nat (length (acc ++ rest)) ->
  let inp := pre ++ ser_tok t ++ post in let p' := Z.of_nat (length (pre ++ ser_tok t)) in let in_end := Z.of_nat (length inp) in
  let rest' := drop (length acc' - length acc) rest in
  decomp_loop (S fuel) inp in_end (acc ++ rest) cap p o =
    (if p' <? in_end then decomp_loop fuel inp in_end (acc' ++ rest') cap p' (Z.of_nat (length acc')) else Some (Z.of_nat (length acc'), 0, acc' ++ rest')).
Proof.
  intros Ht He Hp Ho Hc Hr inp p' in_end rest'. unfold rest'.
  assert (forall q b u v, inp = u ++ b :: v -> q = Z.of_nat (length u) -> getb inp q = Some (b2z b)) as Hget by (intros q b u v -> ->; by apply getb_app).
  assert (in_end = Z.of_nat (length pre) + Z.of_nat (length (ser_tok t)) + Z.of_nat (length post)) as Hin by (unfold in_end, inp; rewrite !length_app; lia).
  assert (inp = pre ++ ser_tok t ++ post) as Einp by done. clearbody in_end inp.
  rewrite length_app in Hr. cbn [decomp_loop]. destruct t as [bs|off n]; cbn [tok_ok expand_tok] in *.
  - injection He as <-. rewrite length_app in *. cbn [ser_tok app length] in *. rewrite (Hget _ _ _ _ Einp Hp). cbn [option_bind mbind].
    rewrite b2z_z2b, Z.mod_small by lia. change (Z.shiftl 1 5) with 32. destruct (Z.ltb_spec (Z.of_nat (length bs) - 1) 32); [|lia].
    replace (Z.of_nat (length bs) - 1 + 1) with (Z.of_nat (length bs)) by lia.
    destruct (Z.ltb_spec cap (o + Z.of_nat (length bs))); [lia|].
    destruct (Z.ltb_spec in_end (p + 1 + Z.of_nat (length bs))); [lia|].
    destruct (split_len rest (length bs)) as (g & r & -> & Hg); [lia|]. rewrite Nat2Z.id.
    assert (inp = (pre ++ [z2b (Z.of_nat (length bs) - 1)]) ++ bs ++ post) as E by (rewrite Einp; by rewrite <-app_assoc).
    rewrite E at 1. rewrite lit_copy_spec by (rewrite ?length_app; cbn [length]; lia). cbn [option_bind mbind].
    replace (length acc + length bs - length acc)%nat with (length g) by lia. rewrite drop_app_length.
    assert (p + 1 + Z.of_nat (length bs) = p') as -> by (unfold p'; rewrite length_app; cbn [ser_tok length]; lia).
    replace (o + Z.of_nat (length bs)) with (Z.of_nat (length acc + length bs)) by lia. by rewrite <-!app_assoc.
  - destruct Ht as [Hoff Hn]. pose proof (back_length _ _ _ _ He) as (ext & Eacc & Hext).
    assert (off < length acc)%nat as Hoa by (destruct n; [lia|]; cbn [back] in He; by case_decide).
    assert (length acc' = length acc + n)%nat as Hl by (rewrite Eacc, length_app; lia).
    destruct (split_len rest n) as (g & r & -> & Hg); [lia|].
    set (od := Z.of_nat off) in *. set (l := Z.of_nat n - 2) in *. unfold ser_tok in *. fold od l in Einp, Hin |- *. fold od l in p'.
    pose proof (Z.div_mod od 256 ltac:(lia)). pose proof (Z.mod_pos_bound od 256 ltac:(lia)). assert (0 <= od / 256 < 32) by (split; [apply Z.div_pos|apply Z.div_lt_upper_bound]; lia).
    replace (length acc' - length acc)%nat with (length g) by lia. rewrite drop_app_length.
    assert (forall k, 1 <= k -> ref_copy (Z.to_nat (2 + l)) (acc ++ g ++ r) (o - Z.shiftl (od / 256) 8 - 1 - od mod 256) o = Some (acc' ++ r)) as Hcopy.
    { intros _ _. replace (Z.to_nat (2 + l)) with n by lia. rewrite Z.shiftl_mul_pow2 by lia. change (2 ^ 8) with 256.
      apply (ref_copy_spec off n acc acc' g r); [done|done|done|lia]. }
    specialize (Hcopy 1 ltac:(lia)). assert (o - Z.shiftl (od / 256) 8 - 1 - od mod 256 = o - od - 1) as Eref by (rewrite Z.shiftl_mul_pow2 by lia; change (2 ^ 8) with 256; lia).
    destruct (decide (l < 7)) as [Hl7|Hl7].
    + cbn [length app] in *. destruct (ref_ctrl (od / 256) l) as (E1 & E2 & E3); [lia|lia|]. rewrite (Hget _ _ _ _ Einp Hp). cbn [option_bind mbind]. rewrite E1, E2, E3.
      destruct (Z.leb_spec in_end (p + 1)); [lia|]. rewrite (proj2 (Z.eqb_neq l 7)) by lia. cbn [option_bind mbind]. destruct (Z.leb_spec in_end (p + 1)); [lia|].
      rewrite (Hget _ (z2b od) (pre ++ [z2b (od / 256 + l * 32)]) post) by (rewrite ?Einp, ?length_app, <-?app_assoc; cbn; done || lia). cbn [option_bind mbind]. rewrite b2z_z2b, Hcopy, Eref.
      destruct (Z.ltb_spec cap (o + l + 2)); [lia|]. destruct (Z.ltb_spec (o - od - 1) 0); [lia|]. cbn [option_bind mbind].
      assert (p + 1 + 1 = p') as -> by (unfold p'; rewrite length_app; cbn [length]; lia). replace (o + (2 + l)) with (Z.of_nat (length acc')) by lia. done.
    + cbn [length app] in *. destruct (ref_ctrl (od / 256) 7) as (E1 & E2 & E3); [lia|lia|]. rewrite (Hget _ _ _ _ Einp Hp). cbn [option_bind mbind].
      change (7 * 32) with 224 in *. rewrite E1, E2, E3.
      destruct (Z.leb_spec in_end (p + 1)); [lia|]. change (7 =? 7) with true. cbv iota.
      rewrite (Hget _ (z2b (l - 7)) (pre ++ [z2b (od / 256 + 224)]) (z2b od :: post)) by (rewrite ?Einp, ?length_app, <-?app_assoc; cbn; done || lia). cbn [option_bind mbind]. destruct (Z.leb_spec in_end (p + 1 + 1)); [lia|].
      rewrite (Hget _ (z2b od) (pre ++ [z2b (od / 256 + 224); z2b (l - 7)]) post) by (rewrite ?Einp, ?length_app, <-?app_assoc; cbn; done || lia). cbn [option_bind mbind]. rewrite !b2z_z2b, (Z.mod_small (l - 7)) by lia.
      replace (7 + (l - 7)) with l by lia. rewrite Hcopy, Eref.
      destruct (Z.ltb_spec cap (o + l + 2)); [lia|]. destruct (Z.ltb_spec (o - od - 1) 0); [lia|]. cbn [option_bind mbind].
      assert (p + 1 + 1 + 1 = p') as -> by (unfold p'; rewrite length_app; cbn [length]; lia). replace (o + (2 + l)) with (Z.of_nat (length acc')) by lia. done.
Qed.

Lemma ser_tok_pos t : (0 < length (ser_tok t))%nat.
Proof. destruct t; cbn [ser_tok]; [cbn; lia|case_decide; cbn; lia]. Qed.

Lemma decomp_tokens ts : forall fuel acc data pre rest cap p o,
  ts <> [] -> Forall tok_ok ts -> expand ts acc = Some data -> p = Z.of_nat (length pre) -> o = Z.of_nat (length acc) -> Z.of_nat (length data) <= cap ->
  cap <= Z.of_nat (length (acc ++ rest)) -> (length (ser ts) < fuel)%nat ->
  decomp_loop fuel (pre ++ ser ts) (Z.of_nat (length (pre ++ ser ts))) (acc ++ rest) cap p o
  = Some (Z.of_nat (length data), 0, data ++ drop (length data - length acc) rest).
Proof.
  induction ts as [|t ts IH]; intros fuel acc data pre rest cap p o Hne Hok He Hp Ho Hc Hr Hf; [done|].
  apply Forall_cons in Hok as [Ht Hts]. cbn [expand] in He. destruct (expand_tok t acc) as [acc'|] eqn:Ea; [|done]. cbn [option_bind mbind] in He.
  pose proof (ser_tok_pos t) as Hpos. assert (ser (t :: ts) = ser_tok t ++ ser ts) as Es by done. rewrite Es in *. rewrite length_app in Hf.
  destruct fuel as [|fuel]; [lia|]. destruct (expand_length _ _ _ He) as (ext & Edata).
  assert (length acc <= length acc')%nat as Hacc.
  { destruct t as [bs|off n]; cbn in Ea; [injection Ea as <-; rewrite length_app; lia|apply back_length in Ea as (e & -> & _); rewrite length_app; lia]. }
  assert (length data = length acc' + length ext)%nat as Hld by (rewrite Edata, length_app; done).
  rewrite (decomp_tok fuel t acc acc' pre (ser ts) rest cap p o Ht Ea Hp Ho) by (done || lia).
  destruct ts as [|t' ts].
  - cbn in He. injection He as <-. rewrite app_nil_r, Z.ltb_irrefl. done.
  - pose proof (ser_tok_pos t') as Hpos'. assert (ser (t' :: ts) = ser_tok t' ++ ser ts) as Es' by done.
    destruct (Z.ltb_spec (Z.of_nat (length (pre ++ ser_tok t))) (Z.of_nat (length (pre ++ ser_tok t ++ ser (t' :: ts))))) as [_|Hbad].
    2:{ rewrite !length_app, Es', length_app in Hbad. lia. }
    rewrite (app_assoc pre). rewrite (IH fuel acc' data) by (done || lia || (rewrite length_app in Hr |- *; rewrite length_drop; lia)).
    rewrite drop_drop. do 4 f_equal. lia.
Qed.

(** ** Decompression of anything *)

Lemma setb_safe out o v : 0 <= o < Z.of_nat (length out) -> exists out', setb out o v = Some out' /\ length out' = length out.
Proof.
  intros Ho. unfold setb, mem_write. cbn [length]. rewrite decide_True by lia. eexists. split; [reflexivity|].
  rewrite !length_app, length_take, length_drop. cbn [length]. lia.
Qed.

Lemma lit_copy_safe inp n : forall p out o, 0 <= p -> p + Z.of_nat n <= Z.of_nat (length inp) -> 0 <= o -> o + Z.of_nat n <= Z.of_nat (length out) ->
  exists out', lit_copy n inp p out o = Some out' /\ length out' = length out.
Proof.
  induction n as [|n IH]; intros p out o Hp Hpn Ho Hon; cbn [lit_copy]; [by exists out|].
  destruct (getb_some inp p) as (b & -> & _); [lia|]. cbn [option_bind mbind]. destruct (setb_safe out o b) as (out1 & -> & Hl); [lia|]. cbn [option_bind mbind].
  destruct (IH (p + 1) out1 (o + 1)) as (out2 & -> & Hl2); [lia..|]. exists out2. split; [done|lia].
Qed.

Lemma ref_copy_safe n : forall out ref o, 0 <= ref -> ref <= o -> o + Z.of_nat n <= Z.of_nat (length out) ->
  exists out', ref_copy n out ref o = Some out' /\ length out' = length out.
Proof.
  induction n as [|n IH]; intros out ref o Hr Hro Hon; cbn [ref_copy]; [by exists out|].
  destruct (getb_some out ref) as (b & -> & _); [lia|]. cbn [option_bind mbind]. destruct (setb_safe out o b) as (out1 & -> & Hl); [lia|]. cbn [option_bind mbind].
  destruct (IH out1 (ref + 1) (o + 1)) as (out2 & -> & Hl2); [lia..|]. exists out2. split; [done|lia].
Qed.

Definition decomp_result (out : list byte) (cap : Z) (r : option (Z * Z * list byte)) : Prop :=
  exists n e out', r = Some (n, e, out') /\ length out' = length out /\ 0 <= n <= cap /\
    ((n = 0 /\ (e = E2BIG \/ e = EINVAL)) \/ (0 < n /\ e = 0)).

Lemma decomp_safe inp cap fuel : forall out p o, 0 <= p < Z.of_nat (length inp) -> 0 <= o <= cap -> cap = Z.of_nat (length out) ->
  (Z.to_nat (Z.of_nat (length inp) - p) < fuel)%nat ->
  decomp_result out cap (decomp_loop fuel inp (Z.of_nat (length inp)) out cap p o).
Proof.
  induction fuel as [|fuel IH]; intros out p o Hp Ho Hcap Hf; [lia|]. cbn [decomp_loop]. set (N := Z.of_nat (length inp)) in *.
  assert (forall e, (e = E2BIG \/ e = EINVAL) -> decomp_result out cap (Some (0, e, out))) as Herr.
  { intros e He. exists 0, e, out. split; [done|]. split; [done|]. split; [lia|]. by left. }
  destruct (getb_some inp p) as (c & -> & Hc); [done|]. cbn [option_bind mbind]. change (Z.shiftl 1 5) with 32.
  assert (forall out' p' o', length out' = length out -> p < p' -> o < o' <= cap ->
    decomp_result out cap (if p' <? N then decomp_loop fuel inp N out' cap p' o' else Some (o', 0, out'))) as Hgo.
  { intros out' p' o' Hl Hp' Ho'. destruct (Z.ltb_spec p' N) as [Hlt|].
    - destruct (IH out' p' o') as (n & e & out2 & -> & Hl2 & H); [lia|lia|lia|lia|]. exists n, e, out2. split; [done|]. split; [lia|done].
    - exists o', 0, out'. split; [done|]. split; [done|]. split; [lia|]. right. lia. }
  destruct (Z.ltb_spec c 32) as [Hlit|Href].
  - destruct (Z.ltb_spec cap (o + (c + 1))); [by apply Herr; left|]. destruct (Z.ltb_spec N (p + 1 + (c + 1))); [by apply Herr; right|].
    destruct (lit_copy_safe inp (Z.to_nat (c + 1)) (p + 1) out o) as (out' & -> & Hl); [lia..|]. cbn [option_bind mbind]. apply Hgo; [done|lia|lia].
  - destruct (Z.leb_spec N (p + 1)); [by apply Herr; right|].
    assert (1 <= Z.shiftr c 5) as Hk.
    { rewrite Z.shiftr_div_pow2 by lia. change (2 ^ 5) with 32. apply Z.div_le_lower_bound; lia. }
    assert (0 <= Z.shiftl (Z.land c 0x1f) 8) as Hd.
    { apply Z.shiftl_nonneg. apply Z.land_nonneg. lia. }
    assert (exists len p', (if Z.shiftr c 5 =? 7 then b ← getb inp (p + 1); Some (Z.shiftr c 5 + b, p + 1 + 1) else Some (Z.shiftr c 5, p + 1)) = Some (len, p') /\
      1 <= len /\ p < p') as (len & p' & -> & Hlen & Hp').
    { destruct (_ =? 7); [|by eexists _, _; split; [reflexivity|lia]]. destruct (getb_some inp (p + 1)) as (b & -> & Hb); [lia|]. cbn [option_bind mbind].
      eexists _, _. split; [reflexivity|]. lia. }
    cbn [option_bind mbind]. destruct (Z.leb_spec N p'); [by apply Herr; right|]. destruct (getb_some inp p') as (b & -> & Hb); [lia|]. cbn [option_bind mbind].
    destruct (Z.ltb_spec cap (o + len + 2)); [by apply Herr; left|]. set (ref := o - _ - 1 - b). destruct (Z.ltb_spec ref 0); [by apply Herr; right|].
    destruct (ref_copy_safe (Z.to_nat (2 + len)) out ref o) as (out' & -> & Hl); [lia|lia|lia|]. cbn [option_bind mbind]. apply Hgo; [done|lia|lia].
Qed.

(** ** The theorems *)

(** C32: on an input of 2 to [2^32 - 1] bytes, with an output block that has
    one byte more than the [out_len] it is given, whatever is in its table to
    begin with, [lzf_compress] ends, stays in the block, and returns 0 or the
    size of a result that fits in them and that [lzf_decompress] turns back
    into the input, given room for it. *)
Theorem lzf_roundtrip table data out room cap :
  2 <= Z.of_nat (length data) < 2 ^ 32 -> 0 <= cap -> Z.of_nat (length out) = cap + 1 -> tab_ok table -> (length data <= length room)%nat ->
  exists r out', lzf_compress table data (Z.of_nat (length data)) out cap = Some (r, out') /\ length out' = length out /\ 0 <= r <= cap /\
    (0 < r -> lzf_decompress (take (Z.to_nat r) out') r room (Z.of_nat (length room))
              = Some (Z.of_nat (length data), 0, data ++ drop (length data) room)).
Proof.
  intros HN Hcap Hout Ht Hroom. destruct (compress_spec data cap table out HN Hcap Hout Ht) as (r & out' & E & Hl & Hr & Hcase).
  exists r, out'. split; [done|]. split; [lia|]. split; [done|]. intros Hpos. destruct Hcase as [->|(ts & rest & -> & -> & Hne & Hts & Hexp)]; [lia|].
  rewrite Nat2Z.id, take_app_length. unfold lzf_decompress. rewrite Nat2Z.id.
  pose proof (decomp_tokens ts (S (length (ser ts))) [] data [] room (Z.of_nat (length room)) 0 0 Hne Hts Hexp eq_refl eq_refl) as H. cbn [app length] in H.
  rewrite Nat.sub_0_r in H. apply H; lia.
Qed.

(** C33: on any input of at least one byte, however damaged, [lzf_decompress]
    ends without an access outside the input and the [out_len] bytes of
    output, and returns either a positive number of bytes that fits, or 0 with
    [E2BIG] or [EINVAL]. *)
Theorem lzf_decompress_safe inp out : inp <> [] ->
  decomp_result out (Z.of_nat (length out)) (lzf_decompress inp (Z.of_nat (length inp)) out (Z.of_nat (length out))).
Proof.
  intros Hne. unfold lzf_decompress. assert (0 < length inp)%nat by (destruct inp; [done|cbn; lia]). apply decomp_safe; lia.
Qed.

(** Thirty-two bytes without a repetition, then a repetition of five. *)
Definition overrun_data : list byte := map (fun i => z2b (Z.of_nat i)) (seq 1 32 ++ seq 2 5).
Definition no_table (_ : Z) : Z := 0.
Definition zeros (n : nat) : list byte := repeat (z2b 0) n.

(** The two accesses [lzf_compress] makes outside its buffers.  When a
    full run of literals ends at [out_end] and a match follows, the header of
    the empty run is written after the end, before the room is tested: with
    exactly [out_len] bytes of output that is a failure, with one more the
    answer is 0.  An input of one byte is read two bytes far. *)
Theorem lzf_compress_overruns :
  lzf_compress no_table overrun_data 37 (zeros 33) 33 = None /\
  fst <$> lzf_compress no_table overrun_data 37 (zeros 34) 33 = Some 0 /\
  lzf_compress no_table [z2b 7] 1 (zeros 8) 7 = None.
Proof. by vm_compute. Qed.

Example lzf_roundtrip_witness : exists out',
  lzf_compress (fun i => i mod 65536 - 40000) (repeat (z2b 97) 300) 300 (zeros 297) 296 = Some (12, out') /\
  lzf_decompress (take 12 out') 12 (zeros 300) 300 = Some (300, 0, repeat (z2b 97) 300).
Proof.
  destruct (lzf_roundtrip (fun i => i mod 65536 - 40000) (repeat (z2b 97) 300) (zeros 297) (zeros 300) 296) as (r & out' & E & _ & _ & H);
    [vm_compute; intuition discriminate|lia|done| |done|].
  { intros i. pose proof (Z.mod_pos_bound i 65536 ltac:(lia)). lia. }
  pose proof E as E2. vm_compute in E2. injection E2 as <- <-. eexists. split; [exact E|]. exact (H eq_refl).
Defined.

Example lzf_decompress_safe_witness :
  decomp_result (zeros 4) 4 (lzf_decompress (map z2b [0; 97; 224; 250; 0; 3]) 6 (zeros 4) 4) /\
  lzf_decompress (map z2b [0; 97; 224; 250; 0; 3]) 6 (zeros 4) 4 = Some (0, E2BIG, map z2b [97; 0; 0; 0]).
Proof. split; [by apply (lzf_decompress_safe (map z2b [0; 97; 224; 250; 0; 3]) (zeros 4))|reflexivity]. Defined.
