(* ===== verification/Elements.v ===== *)
(** Elements: what containers of string objects rely on: the comparison of
    objects is the lexicographic order of their contents. *)
From S2P Require Import Prelude SdsMore.

(** ** The order of byte strings *)

Lemma lex_refl c : lex c c = Eq.
Proof. induction c as [|b c IH]; [done|]. cbn. by rewrite Z.compare_refl. Qed.

Lemma lex_eq c1 : forall c2, lex c1 c2 = Eq -> c1 = c2.
Proof.
  induction c1 as [|b1 c1 IH]; intros [|b2 c2]; try done. cbn. destruct (Z.compare_spec (b2z b1) (b2z b2)) as [E| |]; try done.
  apply b2z_inj in E as ->. intros H. by rewrite (IH c2 H).
Qed.

Lemma lex_antisym c1 : forall c2, lex c2 c1 = CompOpp (lex c1 c2).
Proof.
  induction c1 as [|b1 c1 IH]; intros [|b2 c2]; try done. cbn. rewrite (Z.compare_antisym (b2z b1) (b2z b2)).
  destruct (b2z b1 ?= b2z b2); cbn; [apply IH|done|done].
Qed.

Lemma lex_trans c1 : forall c2 c3, lex c1 c2 = Lt -> lex c2 c3 = Lt -> lex c1 c3 = Lt.
Proof.
  induction c1 as [|b1 c1 IH]; intros [|b2 c2] [|b3 c3]; try done. cbn.
  destruct (Z.compare_spec (b2z b1) (b2z b2)) as [E1|L1|L1]; intros H1; try done;
    destruct (Z.compare_spec (b2z b2) (b2z b3)) as [E2|L2|L2]; intros H2; try done.
  - rewrite E1, E2, Z.compare_refl. by apply (IH c2).
  - rewrite E1. by rewrite (proj2 (Z.compare_lt_iff _ _)).
  - rewrite <-E2. by rewrite (proj2 (Z.compare_lt_iff _ _)).
  - by rewrite (proj2 (Z.compare_lt_iff _ _)) by lia.
Qed.

(** ** The interface

    [obj_ok] are the objects the operations are meant for. *)
Class StringObjects (O : Type) := {
  obj_compare : O -> O -> option Z;
  obj_equal : O -> O -> option bool;
  obj_ok : O -> Prop;
  obj_content : O -> list byte;
  obj_compare_lex a b : obj_ok a -> obj_ok b ->
    exists r, obj_compare a b = Some r /\ (r ?= 0) = lex (obj_content a) (obj_content b);
  obj_equal_content a b : obj_ok a -> obj_ok b ->
    obj_equal a b = Some (bool_decide (obj_content a = obj_content b)) }.
