(* ===== verification/Rio.v ===== *)
(** Rio: the stream abstraction of [rio.c] and [rio.h]: a backend with its
    methods and the checksum, the buffer backend, and the request syntax
    written over it.  The file backend is the C library's. *)
From S2P Require Import Prelude Util Sds SdsProofs Crc64.

(** The methods of a backend with state [S].  [r_read] gives the bytes read,
    or [None] when it returns 0; [r_write] whether it succeeds. *)
Class RioMethods (S : Type) := {
  r_read : S -> Z -> option (option (list byte) * S);
  r_write : S -> list byte -> option (bool * S);
  r_tell : S -> Z }.

(** [update_cksum] is the method and null otherwise; [io] the backend. *)
Record rio (S : Type) := Rio { update_cksum : option (Z -> list byte -> Z); cksum : Z; io : S }.
Arguments Rio {S}.
Arguments update_cksum {S}.
Arguments cksum {S}.
Arguments io {S}.

Section Streams.
Context {S : Type} `{RioMethods S} (junk : nat -> byte).
Implicit Types (r : rio S) (buf : list byte).

(** [if (r->update_cksum) r->update_cksum(r,buf,len);] *)
Definition update r buf : rio S :=
  match update_cksum r with Some f => Rio (update_cksum r) (f (cksum r) buf) (io r) | None => r end.
Definition with_io r (s : S) : rio S := Rio (update_cksum r) (cksum r) s.

Definition rioWrite r buf : option (bool * rio S) :=
  let r := update r buf in
  '(ok, s) ← r_write (io r) buf;
  Some (ok, with_io r s).

Definition rioRead r (len : Z) : option (option (list byte) * rio S) :=
  '(bs, s) ← r_read (io r) len;
  match bs with
  | Some bs => Some (Some bs, update (with_io r s) bs)
  | None => Some (None, with_io r s)
  end.

Definition rioTell r : Z := r_tell (io r).

Definition rioGenericUpdateChecksum (sum : Z) buf : Z := crc64 sum buf.

(** The size written, 0 on failure. *)
Definition rioWriteBulkCount r (prefix : byte) (count : Z) : option (Z * rio S) :=
  '(digits, l) ← ll2string junk (128 - 1) count;
  let clen := 1 + l in
  cbuf ← mem_read (prefix :: digits) 0 clen;
  '(ok, r) ← rioWrite r (cbuf ++ [z2b 13; z2b 10]);
  if ok : bool then Some (clen + 2, r) else Some (0, r).

Definition rioWriteBulkString r buf (len : Z) : option (Z * rio S) :=
  '(nwritten, r) ← rioWriteBulkCount r (z2b 36) (s32 len);
  if nwritten =? 0 then Some (0, r)
  else
    '(ok, r) ← (if 0 <? len then bs ← mem_read buf 0 len; rioWrite r bs else Some (true, r));
    if ok : bool then
      '(ok, r) ← rioWrite r [z2b 13; z2b 10];
      if ok : bool then Some (u64 (nwritten + len + 2), r) else Some (0, r)
    else Some (0, r).

Definition rioWriteBulkLongLong r (l : Z) : option (Z * rio S) :=
  '(lbuf, llen) ← ll2string junk 32 l;
  rioWriteBulkString r lbuf llen.
End Streams.

(** ** What users of a stream rely on

    [writing s w n]: [w] has been written and [n] more bytes can be;
    [reading s rest]: [rest] is still to be read.  Nothing is promised about
    blocks of no bytes: [fread] and [fwrite], behind the file backend, report
    a failure for them. *)
Class RioLaws (S : Type) `{RioMethods S} := {
  writing : S -> list byte -> Z -> Prop;
  reading : S -> list byte -> Prop;
  write_law s w n bs : writing s w n -> 0 < Z.of_nat (length bs) <= n ->
    exists s', r_write s bs = Some (true, s') /\ writing s' (w ++ bs) (n - Z.of_nat (length bs));
  read_law s bs rest : reading s (bs ++ rest) -> bs <> [] ->
    exists s', r_read s (Z.of_nat (length bs)) = Some (Some bs, s') /\ reading s' rest;
  read_short s rest n : reading s rest -> Z.of_nat (length rest) < n < 2 ^ 62 ->
    exists s', r_read s n = Some (None, s') /\ reading s' rest }.

(** ** The buffer backend *)

Record rio_buffer := RioBuffer { b_ptr : sdshdr; b_pos : Z }.

Section Buffer.
Context (junk : nat -> byte).

Definition rioBufferWrite (b : rio_buffer) (buf : list byte) : option (bool * rio_buffer) :=
  s ← sdscatlen junk (b_ptr b) buf;
  pos ← chk64 (b_pos b + Z.of_nat (length buf));
  Some (true, RioBuffer s pos).

Definition rioBufferRead (b : rio_buffer) (len : Z) : option (option (list byte) * rio_buffer) :=
  if u64 (sdslen (b_ptr b) - b_pos b) <? len then Some (None, b)
  else
    bs ← mem_read (sh_buf (b_ptr b)) (b_pos b) len;
    pos ← chk64 (b_pos b + len);
    Some (Some bs, RioBuffer (b_ptr b) pos).

Definition rioBufferTell (b : rio_buffer) : Z := b_pos b.

#[export] Instance rioBufferIO : RioMethods rio_buffer :=
  {| r_read := rioBufferRead; r_write := rioBufferWrite; r_tell := rioBufferTell |}.

Definition rioInitWithBuffer (s : sdshdr) : rio rio_buffer := Rio None 0 (RioBuffer s 0).

(** A dynamic string and a position in it. *)
Definition buf_writing (b : rio_buffer) (w : list byte) (n : Z) : Prop :=
  sds_rep (b_ptr b) w /\ Z.of_nat (length w) + n < sds_limit /\ 0 <= b_pos b /\ b_pos b + n < 2 ^ 62.
Definition buf_reading (b : rio_buffer) (rest : list byte) : Prop :=
  exists pre, sds_rep (b_ptr b) (pre ++ rest) /\ b_pos b = Z.of_nat (length pre).

Lemma buffer_write s w n bs : buf_writing s w n -> 0 < Z.of_nat (length bs) <= n ->
  exists s', rioBufferWrite s bs = Some (true, s') /\ buf_writing s' (w ++ bs) (n - Z.of_nat (length bs)).
Proof.
  intros (Hrep & Hn & Hpos & Hb) Hl. unfold rioBufferWrite. destruct (catlen_spec junk (b_ptr s) w bs Hrep) as (s' & -> & Hrep'); [lia|]. cbn [option_bind mbind].
  rewrite chk64_ok by lia. cbn [option_bind mbind]. eexists. split; [reflexivity|]. split; [done|]. rewrite length_app. cbn. lia.
Qed.

Lemma reading_len b rest : buf_reading b rest ->
  u64 (sdslen (b_ptr b) - b_pos b) = Z.of_nat (length rest) /\ Z.of_nat (length rest) < 2 ^ 31 /\ 0 <= b_pos b < 2 ^ 31.
Proof.
  intros (pre & Hrep & ->). pose proof (rep_bound _ _ Hrep) as Hb. pose proof (rep_free _ _ Hrep). rewrite (rep_len_eq _ _ Hrep). rewrite length_app in *.
  rewrite u64_small by lia. lia.
Qed.

Lemma buffer_read s bs rest : buf_reading s (bs ++ rest) -> bs <> [] ->
  exists s', rioBufferRead s (Z.of_nat (length bs)) = Some (Some bs, s') /\ buf_reading s' rest.
Proof.
  intros H _. pose proof (reading_len _ _ H) as (El & Hl & Hp). destruct H as (pre & Hrep & Epos). unfold rioBufferRead. rewrite El, length_app in *.
  destruct (Z.ltb_spec (Z.of_nat (length bs + length rest)) (Z.of_nat (length bs))); [lia|]. destruct (rep_buf _ _ Hrep) as (g & Eb & _).
  rewrite Eb, <-!app_assoc, mem_read_app by done. cbn [option_bind mbind]. rewrite chk64_ok by lia. cbn [option_bind mbind].
  eexists. split; [reflexivity|]. exists (pre ++ bs). split; [by rewrite <-app_assoc|]. cbn. rewrite length_app. lia.
Qed.

Lemma buffer_short s rest n : buf_reading s rest -> Z.of_nat (length rest) < n < 2 ^ 62 ->
  exists s', rioBufferRead s n = Some (None, s') /\ buf_reading s' rest.
Proof.
  intros H Hn. pose proof (reading_len _ _ H) as (El & Hl & Hp). unfold rioBufferRead. rewrite El.
  destruct (Z.ltb_spec (Z.of_nat (length rest)) n); [|lia]. by exists s.
Qed.

#[export] Instance buffer_laws : RioLaws rio_buffer :=
  {| writing := buf_writing; reading := buf_reading; write_law := buffer_write; read_law := buffer_read; read_short := buffer_short |}.
End Buffer.
