(* ===== verification/Objects.v ===== *)
(** Objects: the string objects of [object.c]: creation, reference counts,
    the integer encoding, comparison and conversion to integers. *)
From S2P Require Import Prelude Util Sds.
Import (notations) Corelib.Init.Byte.

Definition REDIS_STRING : Z := 0.
Definition REDIS_ENCODING_RAW : Z := 0.
Definition REDIS_ENCODING_INT : Z := 1.
Definition REDIS_SHARED_INTEGERS : Z := 10000.

(** The [ptr] field of a string object: a dynamic string, or an integer kept
    in the pointer itself. *)
Inductive payload := PSds (s : sdshdr) | PLong (v : Z).

Record robj := Robj { type : Z; encoding : Z; ptr : payload; refcount : Z }.

(** [shared.integers] *)
Abbreviation shared_ints := (list robj).

Section Objects.
(** The content of memory never written. *)
Context (junk : nat -> byte).
Implicit Types (o a b : robj) (shared : shared_ints).

Definition set_refcount o (n : Z) : robj := Robj (type o) (encoding o) (ptr o) n.

(** [(sds) o->ptr] and [(long) o->ptr] *)
Definition ptr_sds o : option sdshdr := match ptr o with PSds s => Some s | PLong _ => None end.
Definition ptr_long o : option Z := match ptr o with PLong v => Some v | PSds _ => None end.

Definition createObject (type : Z) (ptr : payload) : robj := Robj type REDIS_ENCODING_RAW ptr 1.

Definition createStringObject (init : list byte) (len : Z) : option robj :=
  s ← sdsnewlen junk (Some init) len; Some (createObject REDIS_STRING (PSds s)).

Definition incrRefCount o : option robj := n ← chk32 (refcount o + 1); Some (set_refcount o n).

(** [Some None] is the object freed. *)
Definition decrRefCount o : option (option robj) :=
  if refcount o <=? 0 then None
  else if refcount o =? 1 then
    if type o =? REDIS_STRING then Some None else None
  else n ← chk32 (refcount o - 1); Some (Some (set_refcount o n)).

Definition resetRefCount o : robj := set_refcount o 0.

(** [incrRefCount(shared.integers[value])] and the object. *)
Definition take_shared shared (value : Z) : option (robj * shared_ints) :=
  o ← shared !! Z.to_nat value;
  o ← incrRefCount o;
  Some (o, <[Z.to_nat value := o]> shared).

Definition createStringObjectFromLongLong shared (value : Z) : option (robj * shared_ints) :=
  if (0 <=? value) && (value <? REDIS_SHARED_INTEGERS) then take_shared shared value
  else if (- 2 ^ 63 <=? value) && (value <=? 2 ^ 63 - 1) then
    Some (Robj REDIS_STRING REDIS_ENCODING_INT (PLong (s64 value)) 1, shared)
  else s ← sdsfromlonglong junk value; Some (createObject REDIS_STRING (PSds s), shared).

Definition dupStringObject o : option robj :=
  if encoding o =? REDIS_ENCODING_RAW then
    s ← ptr_sds o; createStringObject (sh_buf s) (sdslen s)
  else None.

(** Result: [Some v] when the function returns [REDIS_OK] and stores [v]. *)
Definition isObjectRepresentableAsLongLong o : option (option Z) :=
  if type o =? REDIS_STRING then
    if encoding o =? REDIS_ENCODING_INT then v ← ptr_long o; Some (Some v)
    else s ← ptr_sds o; string2ll (sh_buf s) (sdslen s)
  else None.

(** [maxmemory] is [server.maxmemory]. *)
Definition tryObjectEncoding (maxmemory : Z) shared o : option (robj * shared_ints) :=
  if negb (encoding o =? REDIS_ENCODING_RAW) then Some (o, shared)
  else if 1 <? refcount o then Some (o, shared)
  else if type o =? REDIS_STRING then
    s ← ptr_sds o;
    value ← string2l (sh_buf s) (sdslen s);
    match value with
    | None => Some (o, shared)
    | Some value =>
      if (maxmemory =? 0) && (0 <=? value) && (value <? REDIS_SHARED_INTEGERS) then
        _ ← decrRefCount o; take_shared shared value
      else Some (Robj (type o) REDIS_ENCODING_INT (PLong value) (refcount o), shared)
    end
  else None.

(** Result: the decoded object; for a raw object it is the object itself with
    its count incremented. *)
Definition getDecodedObject o : option robj :=
  if encoding o =? REDIS_ENCODING_RAW then incrRefCount o
  else if (type o =? REDIS_STRING) && (encoding o =? REDIS_ENCODING_INT) then
    v ← ptr_long o;
    '(buf, _) ← ll2string junk 32 v;
    createStringObject buf (strlen buf)
  else None.

(** [strcmp] promises the sign of its result; both strings must end. *)
Fixpoint strcmp (s1 s2 : list byte) : option Z :=
  match s1, s2 with
  | b1 :: s1', b2 :: s2' =>
    if b2z b1 =? b2z b2 then if b2z b1 =? 0 then Some 0 else strcmp s1' s2'
    else Some (b2z b1 - b2z b2)
  | _, _ => None
  end.

(** The characters to compare, and whether they are a dynamic string. *)
Definition compare_str o : option (list byte + sdshdr) :=
  if negb (encoding o =? REDIS_ENCODING_RAW) then
    v ← ptr_long o; '(buf, _) ← ll2string junk 128 v; Some (inl buf)
  else s ← ptr_sds o; Some (inr s).

(** [same] is the test [a == b] on the pointers. *)
Definition compareStringObjects (same : bool) a b : option Z :=
  if (type a =? REDIS_STRING) && (type b =? REDIS_STRING) then
    if same then Some 0
    else
      astr ← compare_str a;
      bstr ← compare_str b;
      match astr, bstr with
      | inr s1, inr s2 => sdscmp s1 s2
      | _, _ => strcmp (match astr with inl buf => buf | inr s => sh_buf s end)
                       (match bstr with inl buf => buf | inr s => sh_buf s end)
      end
  else None.

Definition equalStringObjects (same : bool) a b : option bool :=
  if negb (encoding a =? REDIS_ENCODING_RAW) && negb (encoding b =? REDIS_ENCODING_RAW) then
    va ← ptr_long a; vb ← ptr_long b; Some (va =? vb)
  else cmp ← compareStringObjects same a b; Some (cmp =? 0).

Definition stringObjectLen o : option Z :=
  if type o =? REDIS_STRING then
    if encoding o =? REDIS_ENCODING_RAW then s ← ptr_sds o; Some (sdslen s)
    else v ← ptr_long o; '(_, l) ← ll2string junk 32 v; Some l
  else None.

(** [strtoll(s, &eptr, 10)]: the value, what [eptr] points to, and whether
    [errno] is [ERANGE]; without digits [eptr] is the start. *)
Fixpoint drop_digits (s : list byte) : list byte :=
  match s with
  | b :: s' => if isdigit (b2z b) then drop_digits s' else s
  | [] => []
  end.
Definition strtoll_end (s : list byte) : Z * list byte * bool :=
  let t := skip_space s in
  let '(neg, t) := match t with
                   | b :: t' => if b2z b =? 45 then (true, t') else if b2z b =? 43 then (false, t') else (false, t)
                   | [] => (false, t)
                   end in
  match t with
  | b :: _ =>
    if isdigit (b2z b) then
      let v := dec_digits t 0 in
      let v := if neg : bool then - v else v in
      (Z.max (- 2 ^ 63) (Z.min (2 ^ 63 - 1) v), drop_digits t, negb ((- 2 ^ 63 <=? v) && (v <=? 2 ^ 63 - 1)))
    else (0, s, false)
  | [] => (0, s, false)
  end.

(** The outer option is [None] on a failed assertion or a panic; [Some None] is
    [REDIS_ERR]. The argument may be the null pointer. *)
Definition getLongLongFromObject (o : option robj) : option (option Z) :=
  match o with
  | None => Some (Some 0)
  | Some o =>
    if type o =? REDIS_STRING then
      if encoding o =? REDIS_ENCODING_RAW then
        s ← ptr_sds o;
        let '(value, eptr, erange) := strtoll_end (sh_buf s) in
        c0 ← rd (sh_buf s) 0;
        e0 ← rd eptr 0;
        if isspace c0 || negb (e0 =? 0) || erange then Some None else Some (Some value)
      else if encoding o =? REDIS_ENCODING_INT then v ← ptr_long o; Some (Some v)
      else None
    else None
  end.
End Objects.
