(* ===== verification/ObjectsSpec.v ===== *)
(** ObjectsSpec: the integer encoding of string objects is invisible, and when
    the comparison of objects is the order of their contents. *)
From S2P Require Import Prelude Util UtilNum UtilSpec Sds SdsProofs SdsMore Elements Objects.
Import (notations) Corelib.Init.Byte.

(** ** The content of a string object *)

Definition content (o : robj) : list byte :=
  match ptr o with PSds s => take (Z.to_nat (sh_len s)) (sh_buf s) | PLong v => print_int v end.

Definition raw (o : robj) : Prop := type o = REDIS_STRING /\ encoding o = REDIS_ENCODING_RAW /\
  exists s c, ptr o = PSds s /\ sds_rep s c.
Definition int_encoded (o : robj) : Prop := type o = REDIS_STRING /\ encoding o = REDIS_ENCODING_INT /\
  exists v, ptr o = PLong v /\ - 2 ^ 63 < v < 2 ^ 63.
Definition string_obj (o : robj) : Prop := raw o \/ int_encoded o.

Definition counted (o : robj) : Prop := 0 < refcount o < 2 ^ 31 - 1.

(** [shared.integers] holds the small integers, with room in their counts. *)
Definition shared_ok (shared : list robj) : Prop :=
  forall v, 0 <= v < REDIS_SHARED_INTEGERS ->
    exists n, shared !! Z.to_nat v = Some (Robj REDIS_STRING REDIS_ENCODING_INT (PLong v) n) /\ 0 < n < 2 ^ 31 - 1.

Section Spec.
Context (junk : nat -> byte).
Implicit Types (o : robj).

Lemma raw_inv o : raw o -> exists s, type o = REDIS_STRING /\ encoding o = REDIS_ENCODING_RAW /\ ptr o = PSds s /\ sds_rep s (content o).
Proof.
  intros (Ht & He & s & c & Hp & Hs). exists s. split_and!; try done. unfold content. rewrite Hp.
  destruct Hs as [Hl Hf Htot (g & Hb & Hg)]. rewrite Hl, Hb, Nat2Z.id, take_app_length.
  constructor; try done. by exists g.
Qed.

Lemma raw_string2ll o s :
  raw o -> ptr o = PSds s ->
  exists r, string2ll (sh_buf s) (sdslen s) = Some r /\ forall v, r = Some v <-> int64 v /\ content o = print_int v.
Proof.
  intros Ho Hp. destruct (raw_inv o Ho) as (s' & _ & _ & Hp' & Hs). rewrite Hp in Hp'. injection Hp' as <-.
  rewrite (rep_len_eq _ _ Hs). destruct Hs as [_ _ _ (g & -> & _)].
  destruct (string2ll_spec (content o) (z2b 0 :: g)) as (r & -> & Hr). exists r. split; [done|].
  intros v. by rewrite Hr, numeral_print.
Qed.

Lemma string2l_eq s l r : string2ll s l = Some r -> (forall v, r = Some v -> int64 v) -> string2l s l = Some r.
Proof.
  intros E H. unfold string2l. rewrite E. cbn [option_bind mbind]. destruct r as [v|]; [|done].
  pose proof (H v eq_refl) as Hv. unfold int64 in Hv.
  rewrite (proj2 (Z.ltb_ge v (- 2 ^ 63))), (proj2 (Z.ltb_ge (2 ^ 63 - 1) v)) by lia. cbn [orb]. by rewrite s64_small by lia.
Qed.

Lemma no_nul_print_int v : int64 v -> no_nul (print_int v).
Proof.
  intros Hv. unfold int64 in Hv. unfold print_int.
  assert (forall s, digits s -> no_nul s) as Hdig.
  { intros s Hs. eapply Forall_impl; [exact Hs|]. intros x Hx. apply digit_facts in Hx. tauto. }
  destruct (Z.ltb_spec v 0).
  - destruct (print_nat_digits (- v)) as (b & s & -> & Hd & _); [lia|]. constructor; [done|]. by apply Hdig.
  - destruct (print_nat_digits v) as (b & s & -> & Hd & _); [lia|]. by apply Hdig.
Qed.

Lemma ll2string_fits len v :
  - 2 ^ 63 < v < 2 ^ 63 -> 21 <= len ->
  ll2string junk len v = Some (print_int v ++ [z2b 0], Z.of_nat (length (print_int v))).
Proof.
  intros Hv Hl. pose proof (length_print_int v ltac:(unfold int64; lia)).
  rewrite (ll2string_spec junk len v Hv) by lia. cbv zeta. rewrite Z.min_r, Nat2Z.id, take_ge by lia. done.
Qed.

Lemma decoded o :
  string_obj o -> counted o -> Z.of_nat (length (content o)) < sds_limit ->
  exists d, getDecodedObject junk o = Some d /\ raw d /\ content d = content o.
Proof.
  intros Ho Hc Hl. unfold getDecodedObject, counted in *. destruct Ho as [Ho|Ho].
  - destruct (raw_inv o Ho) as (s & Ht & -> & Hp & Hs). cbn. unfold incrRefCount. rewrite chk32_ok by lia.
    cbn [option_bind mbind]. eexists. split; [reflexivity|]. unfold set_refcount, raw, content. cbn. rewrite Ht, Hp.
    split; [split; [done|split; [by destruct Ho as (_ & -> & _)|by exists s, (content o)]]|done].
  - destruct Ho as (Ht & -> & v & Hp & Hv). rewrite Ht. cbn [Z.eqb REDIS_ENCODING_INT REDIS_ENCODING_RAW REDIS_STRING andb Z.eqb].
    change (REDIS_ENCODING_INT =? REDIS_ENCODING_RAW) with false. cbv iota. unfold ptr_long. rewrite Hp. cbn [option_bind mbind].
    rewrite (ll2string_fits 32 v Hv) by lia. cbn [option_bind mbind].
    pose proof (no_nul_print_int v ltac:(unfold int64; lia)) as Hn.
    assert (strlen (print_int v ++ [z2b 0]) = Z.of_nat (length (print_int v))) as ->
      by (unfold strlen; by rewrite (cstr_no_nul _ [] Hn)).
    unfold createStringObject. unfold content in Hl |- *. rewrite Hp in Hl |- *.
    destruct (newlen_spec junk (print_int v) [z2b 0] Hl) as (s & -> & Hs & _). cbn [option_bind mbind].
    eexists. split; [reflexivity|]. cbn. split; [split; [done|split; [done|by exists s, (print_int v)]]|].
    destruct Hs as [Hsl _ _ (g & -> & _)]. by rewrite Hsl, Nat2Z.id, take_app_length.
Qed.

(** C40: encoding a string object as an integer is invisible: it changes
    neither the content nor what [getDecodedObject] gives back, it happens
    exactly for the canonical decimal numerals of 64-bit integers in objects
    that are not shared, and the shared integers stay what they are.  (The
    least 64-bit integer is left out: printing it back negates it, which
    overflows.) *)
Theorem tryObjectEncoding_transparent maxmemory shared o :
  string_obj o -> counted o -> shared_ok shared -> Z.of_nat (length (content o)) < sds_limit ->
  content o <> print_int (- 2 ^ 63) ->
  exists o' shared', tryObjectEncoding maxmemory shared o = Some (o', shared') /\
    string_obj o' /\ content o' = content o /\
    (encoding o' = REDIS_ENCODING_INT <->
       encoding o = REDIS_ENCODING_INT \/ refcount o = 1 /\ exists v, int64 v /\ content o = print_int v) /\
    (forall i, (fun o => (type o, encoding o, ptr o)) <$> shared' !! i = (fun o => (type o, encoding o, ptr o)) <$> shared !! i) /\
    (refcount o' < 2 ^ 31 - 1 -> exists d, getDecodedObject junk o' = Some d /\ raw d /\ content d = content o).
Proof.
  intros Ho Hc Hsh Hl Hmin.
  assert (forall o', string_obj o' -> 0 < refcount o' -> content o' = content o -> refcount o' < 2 ^ 31 - 1 ->
    exists d, getDecodedObject junk o' = Some d /\ raw d /\ content d = content o) as Hdec.
  { intros o' H' H0 E Hr. destruct (decoded o' H') as (d & Hd & Hraw & Ed); [done|by rewrite E|].
    exists d. split; [done|]. split; [done|congruence]. }
  unfold tryObjectEncoding. destruct Ho as [Ho|Ho].
  2:{ pose proof Ho as (Ht & He & _). rewrite He. change (negb (REDIS_ENCODING_INT =? REDIS_ENCODING_RAW)) with true. cbv iota.
      exists o, shared. split; [done|]. split; [by right|]. split; [done|]. split; [tauto|]. split; [done|].
      apply Hdec; [by right|apply Hc|done]. }
  destruct (raw_inv o Ho) as (s & Ht & He & Hp & Hs). rewrite He. change (negb (REDIS_ENCODING_RAW =? REDIS_ENCODING_RAW)) with false.
  cbv iota. unfold counted in Hc. destruct (Z.ltb_spec 1 (refcount o)) as [H1|H1].
  { exists o, shared. split; [done|]. split; [by left|]. split; [done|]. split; [|split; [done|apply Hdec; [by left|lia|done]]].
    rewrite He. split; [done|]. intros [?|[? _]]; [done|lia]. }
  rewrite Ht. change (REDIS_STRING =? REDIS_STRING) with true. cbv iota. unfold ptr_sds. rewrite Hp. cbn [option_bind mbind].
  destruct (raw_string2ll o s Ho Hp) as (r & E & Hr). rewrite (string2l_eq _ _ _ E) by (intros v Hv; by apply Hr).
  cbn [option_bind mbind]. destruct r as [v|].
  2:{ exists o, shared. split; [done|]. split; [by left|]. split; [done|]. split; [|split; [done|apply Hdec; [by left|lia|done]]].
      rewrite He. split; [done|]. intros [?|(_ & v & Hv)]; [done|]. by apply Hr in Hv. }
  destruct (proj1 (Hr v) eq_refl) as [Hv Hcv].
  assert (v <> - 2 ^ 63) as Hvm by (intros ->; by apply Hmin). unfold int64 in Hv.
  assert (refcount o = 1) as Hrc by lia.
  destruct ((maxmemory =? 0) && (0 <=? v) && (v <? REDIS_SHARED_INTEGERS)) eqn:Esh.
  - assert (0 <= v < REDIS_SHARED_INTEGERS) as Hvs by lia. unfold decrRefCount, take_shared.
    rewrite Hrc, Ht. cbn [Z.leb Z.eqb Z.compare REDIS_STRING option_bind mbind]. change (REDIS_STRING =? REDIS_STRING) with true.
    cbv iota. cbn [option_bind mbind]. destruct (Hsh v Hvs) as (n & Hn & Hnb). rewrite Hn. cbn [option_bind mbind].
    unfold incrRefCount. cbn [refcount]. rewrite chk32_ok by lia. cbn [option_bind mbind].
    eexists _, _. split; [reflexivity|]. unfold set_refcount; cbn [type encoding ptr refcount].
    assert (string_obj (Robj REDIS_STRING REDIS_ENCODING_INT (PLong v) (n + 1))) as Hso.
    { right. split; [done|]. split; [done|]. exists v. split; [done|lia]. }
    split; [exact Hso|]. split; [by rewrite Hcv|]. split; [|split; [|apply (Hdec _ Hso); [cbn; lia|by rewrite Hcv]]].
    + split; [|done]. intros _. right. split; [done|]. by exists v.
    + intros i. destruct (decide (i = Z.to_nat v)) as [->|Hi].
      * rewrite list_lookup_insert_eq by (by eapply lookup_lt_Some). by rewrite Hn.
      * by rewrite list_lookup_insert_ne.
  - eexists _, _. split; [reflexivity|].
    assert (string_obj (Robj REDIS_STRING REDIS_ENCODING_INT (PLong v) (refcount o))) as Hso.
    { right. split; [done|]. split; [done|]. exists v. split; [done|lia]. }
    split; [exact Hso|]. split; [by rewrite Hcv|]. split; [|split; [done|apply (Hdec _ Hso); [cbn; lia|by rewrite Hcv]]].
    split; [|done]. intros _. right. split; [done|]. by exists v.
Qed.

(** ** Comparison *)

Lemma strcmp_lex c1 : forall c2 g1 g2,
  no_nul c1 -> no_nul c2 ->
  exists r, strcmp (c1 ++ z2b 0 :: g1) (c2 ++ z2b 0 :: g2) = Some r /\ (r ?= 0) = lex c1 c2.
Proof.
  induction c1 as [|b1 c1 IH]; intros [|b2 c2] g1 g2 H1 H2; cbn [app strcmp lex]; change (b2z (z2b 0)) with 0.
  - by exists 0.
  - inversion H2 as [|? ? Hb _]; subst. rewrite (proj2 (Z.eqb_neq 0 _)) by lia. eexists. split; [reflexivity|].
    pose proof (b2z_range b2). rewrite (proj2 (Z.compare_lt_iff _ _)) by lia. done.
  - inversion H1 as [|? ? Hb _]; subst. rewrite (proj2 (Z.eqb_neq _ 0)) by lia. eexists. split; [reflexivity|].
    pose proof (b2z_range b1). rewrite (proj2 (Z.compare_gt_iff _ _)) by lia. done.
  - inversion H1 as [|? ? Hb1 H1']; inversion H2 as [|? ? Hb2 H2']; subst. destruct (Z.eqb_spec (b2z b1) (b2z b2)) as [E|E].
    + rewrite E in Hb1. rewrite E, Z.compare_refl. rewrite (proj2 (Z.eqb_neq (b2z b2) 0)) by done. by apply IH.
    + eexists. split; [reflexivity|]. destruct (Z.compare_spec (b2z b1) (b2z b2)); [lia|..];
        [apply Z.compare_lt_iff|apply Z.compare_gt_iff]; lia.
Qed.

(** The bytes compared, when they end at the first NUL. *)
Lemma compare_str_spec o :
  string_obj o -> exists x, compare_str junk o = Some x /\
    match x with inr s => raw o /\ sds_rep s (content o)
               | inl buf => int_encoded o /\ buf = content o ++ [z2b 0] /\ no_nul (content o) end.
Proof.
  intros [Ho|Ho]; unfold compare_str.
  - destruct (raw_inv o Ho) as (s & _ & -> & Hp & Hs). change (negb (REDIS_ENCODING_RAW =? REDIS_ENCODING_RAW)) with false. cbv iota.
    unfold ptr_sds. rewrite Hp. exists (inr s). done.
  - pose proof Ho as (_ & -> & v & Hp & Hv). change (negb (REDIS_ENCODING_INT =? REDIS_ENCODING_RAW)) with true. cbv iota.
    unfold ptr_long. rewrite Hp. cbn [option_bind mbind]. rewrite (ll2string_fits 128 v Hv) by lia. cbn [option_bind mbind].
    eexists. split; [reflexivity|]. split; [done|]. unfold content. rewrite Hp. split; [done|]. apply no_nul_print_int. unfold int64. lia.
Qed.

Lemma string_obj_type o : string_obj o -> type o = REDIS_STRING.
Proof. by intros [(-> & _)|(-> & _)]. Qed.

Lemma compare_contents same a b :
  string_obj a -> string_obj b -> (raw a /\ raw b) \/ (no_nul (content a) /\ no_nul (content b)) ->
  (same = true -> a = b) ->
  exists r, compareStringObjects junk same a b = Some r /\ (r ?= 0) = lex (content a) (content b).
Proof.
  intros Ha Hb Hnul Hsame. unfold compareStringObjects. rewrite !string_obj_type by done. cbn [Z.eqb REDIS_STRING andb].
  destruct same; [rewrite Hsame by done; exists 0; by rewrite lex_refl|].
  destruct (compare_str_spec a Ha) as (xa & -> & Hxa), (compare_str_spec b Hb) as (xb & -> & Hxb). cbn [option_bind mbind].
  assert (forall s c, sds_rep s c -> exists g, sh_buf s = c ++ z2b 0 :: g) as Hbuf by (intros s c [_ _ _ (g & E & _)]; by exists g).
  assert (forall o, int_encoded o -> ~ raw o) as Hni by (intros o (_ & E & _) (_ & E' & _); rewrite E in E'; discriminate).
  destruct xa as [ba|sa], xb as [bb|sb].
  - destruct Hxa as (_ & -> & ?), Hxb as (_ & -> & ?). by apply strcmp_lex.
  - destruct Hxa as (Ia & -> & ?), Hxb as (Rb & Hs). destruct (Hbuf _ _ Hs) as [g ->].
    destruct Hnul as [[? _]|[? ?]]; [by destruct (Hni a)|]. by apply strcmp_lex.
  - destruct Hxb as (Ib & -> & ?), Hxa as (Ra & Hs). destruct (Hbuf _ _ Hs) as [g ->].
    destruct Hnul as [[_ ?]|[? ?]]; [by destruct (Hni b)|]. by apply strcmp_lex.
  - destruct Hxa as [_ Hsa], Hxb as [_ Hsb]. by apply cmp_sds.
Qed.

Lemma print_int_inj v w : int64 v -> int64 w -> print_int v = print_int w -> v = w.
Proof. intros Hv Hw E. rewrite <-(strtoll_print v Hv), <-(strtoll_print w Hw). by f_equal. Qed.

Lemma equal_contents same a b :
  string_obj a -> string_obj b -> (raw a /\ raw b) \/ (no_nul (content a) /\ no_nul (content b)) ->
  (same = true -> a = b) ->
  equalStringObjects junk same a b = Some (bool_decide (content a = content b)).
Proof.
  intros Ha Hb Hnul Hsame. unfold equalStringObjects.
  destruct (negb (encoding a =? REDIS_ENCODING_RAW) && negb (encoding b =? REDIS_ENCODING_RAW)) eqn:E.
  - destruct Ha as [(_ & Ea & _)|(_ & Ea & v & Hpa & Hv)]; [rewrite Ea in E; discriminate|].
    destruct Hb as [(_ & Eb & _)|(_ & Eb & w & Hpb & Hw)]; [rewrite Eb, andb_false_r in E; discriminate|].
    unfold ptr_long, content. rewrite Hpa, Hpb. cbn [option_bind mbind]. f_equal. apply eq_true_iff_eq.
    rewrite Z.eqb_eq, bool_decide_eq_true. split; [by intros ->|]. apply print_int_inj; unfold int64; lia.
  - destruct (compare_contents same a b Ha Hb Hnul Hsame) as (r & -> & Hr). cbn [option_bind mbind]. f_equal. apply eq_true_iff_eq.
    rewrite Z.eqb_eq, bool_decide_eq_true. split.
    + intros ->. by apply lex_eq.
    + intros Hc. rewrite Hc, lex_refl in Hr. by apply Z.compare_eq.
Qed.

(** Comparing string objects compares their contents, as unsigned bytes,
    whichever way the two objects are encoded, and equality is equality of
    the contents, when both are dynamic strings or neither contains a NUL. *)
Theorem compareStringObjects_contents same a b :
  string_obj a -> string_obj b -> (raw a /\ raw b) \/ (no_nul (content a) /\ no_nul (content b)) ->
  (same = true -> a = b) ->
  (exists r, compareStringObjects junk same a b = Some r /\ (r ?= 0) = lex (content a) (content b)) /\
  equalStringObjects junk same a b = Some (bool_decide (content a = content b)).
Proof. intros Ha Hb Hn Hs. split; [by apply compare_contents|by apply equal_contents]. Qed.

(** ** Integers in string objects *)

Lemma digit_split s : exists ds t,
  s = ds ++ t /\ digits ds /\ match t with b :: _ => is_digit b = false | [] => True end /\
  drop_digits s = t /\ forall v, dec_digits s v = dval v ds.
Proof.
  induction s as [|b s (ds & t & -> & Hd & Ht & E1 & E2)].
  - exists [], []. split_and!; try done; by constructor.
  - destruct (is_digit b) eqn:Hb.
    + exists (b :: ds), t. cbn [drop_digits dec_digits app]. unfold is_digit in Hb. rewrite Hb. split_and!; try done.
      by constructor.
    + exists [], (b :: ds ++ t). cbn [drop_digits dec_digits app]. unfold is_digit in Hb. rewrite Hb.
      split_and!; try done; by constructor.
Qed.

(** What [strtoll] reads: an optional sign and digits within 64 bits. *)
Definition decimal (s : list byte) (v : Z) : Prop :=
  exists neg sgn ds, s = sgn ++ ds /\ (neg = true /\ sgn = ["-"%byte] \/ neg = false /\ (sgn = [] \/ sgn = ["+"%byte])) /\
    digits ds /\ ds <> [] /\ v = (if neg : bool then - dval 0 ds else dval 0 ds) /\ int64 v.

Lemma is_digit_not_sign (b : byte) : is_digit b = true -> (b2z b =? 45) = false /\ (b2z b =? 43) = false.
Proof. unfold is_digit, isdigit. lia. Qed.

(** After the sign. *)
Lemma strtoll_body neg m g s :
  no_nul m ->
  let t := m ++ z2b 0 :: g in
  let res := match t with
    | b :: _ =>
      if isdigit (b2z b) then
        let v := dec_digits t 0 in let v := if neg : bool then - v else v in
        (Z.max (- 2 ^ 63) (Z.min (2 ^ 63 - 1) v), drop_digits t, negb ((- 2 ^ 63 <=? v) && (v <=? 2 ^ 63 - 1)))
      else (0, s, false)
    | [] => (0, s, false) end in
  (match m with b :: _ => is_digit b = false | [] => True end /\ res = (0, s, false)) \/
  exists ds t', m = ds ++ t' /\ digits ds /\ ds <> [] /\ match t' with b :: _ => is_digit b = false | [] => True end /\
    let v := if neg : bool then - dval 0 ds else dval 0 ds in
    res = (Z.max (- 2 ^ 63) (Z.min (2 ^ 63 - 1) v), t' ++ z2b 0 :: g, negb ((- 2 ^ 63 <=? v) && (v <=? 2 ^ 63 - 1))).
Proof.
  intros Hn t res. destruct m as [|b m]; [by left|]. unfold res, t. cbn [app]. fold (is_digit b).
  destruct (is_digit b) eqn:Hb; [|by left]. right.
  destruct (digit_split (b :: m ++ z2b 0 :: g)) as (ds & t' & E & Hd & Ht & Ed & Ev).
  destruct (digit_split (b :: m)) as (ds1 & t1 & E1 & Hd1 & Ht1 & Ed1 & Ev1). exists ds1, t1.
  assert (ds1 <> []) as Hne by (intros ->; cbn in E1; subst t1; by rewrite Hb in Ht1).
  split; [done|]. split; [done|]. split; [done|]. split; [done|].
  assert (ds = ds1 /\ t' = t1 ++ z2b 0 :: g) as [-> ->].
  { change (b :: m ++ z2b 0 :: g) with ((b :: m) ++ z2b 0 :: g) in E. rewrite E1, <-app_assoc in E.
    assert (match t1 ++ z2b 0 :: g with b :: _ => is_digit b = false | [] => True end) as Ht2 by by destruct t1.
    clear -E Hd Hd1 Ht Ht2. revert ds Hd E. generalize dependent (t1 ++ z2b 0 :: g). intros u Hu.
    induction ds1 as [|x ds1 IH]; intros [|y ds] Hd E; cbn in E.
    - done.
    - subst u. inversion Hd as [|? ? Hy _]; subst. cbn in Hu. congruence.
    - subst t'. inversion Hd1 as [|? ? Hx _]; subst. congruence.
    - injection E as -> E. inversion Hd; inversion Hd1; subst. by destruct (IH ltac:(done) ds ltac:(done) E) as [-> ->]. }
  cbv zeta. rewrite Ev, Ed. done.
Qed.
Lemma decimal_digits m ds t v neg sgn :
  m = ds ++ t -> digits ds -> match t with b :: _ => is_digit b = false | [] => True end ->
  (neg = true /\ sgn = ["-"%byte]) \/ (neg = false /\ (sgn = ["+"%byte] \/ sgn = [] /\ ds <> [])) ->
  decimal (sgn ++ m) v <-> t = [] /\ ds <> [] /\ v = (if neg : bool then - dval 0 ds else dval 0 ds) /\ int64 v.
Proof.
  intros -> Hd Ht Hs. split.
  - intros (neg' & sgn' & ds' & E & Hs' & Hd' & Hne & -> & Hv).
    assert (neg' = neg /\ ds' = ds ++ t) as [-> ->].
    { assert (forall b u, digits (b :: u) -> b <> "-"%byte /\ b <> "+"%byte) as Hsign.
      { intros b u Hbu. inversion Hbu as [|? ? Hb _]; subst. split; intros ->; discriminate. }
      destruct ds' as [|d ds']; [done|]. destruct (Hsign _ _ Hd').
      assert (ds = [] \/ exists x ds1, ds = x :: ds1 /\ x <> "-"%byte /\ x <> "+"%byte) as Hds.
      { destruct ds as [|x ds1]; [by left|]. right. destruct (Hsign _ _ Hd). by exists x, ds1. }
      destruct Hs as [[-> ->]|[-> [->|[-> Hne1]]]], Hs' as [[-> ->]|[-> [->| ->]]]; cbn in E;
        destruct Hds as [->|(x & ds1 & -> & ? & ?)]; cbn in E; simplify_eq; auto. }
    destruct t as [|b t]; [by rewrite app_nil_r in *|]. apply Forall_app in Hd' as [_ Hb]. inversion Hb; congruence.
  - intros (-> & Hne & -> & Hv). rewrite app_nil_r. exists neg, sgn, ds. split; [done|]. split; [|done].
    destruct Hs as [?|[? [?|[? _]]]]; [by left|right; split; [done|by right]|right; split; [done|by left]].
Qed.

Lemma strtoll_end_spec n g :
  no_nul n -> match n with b :: _ => isspace (b2z b) = false | [] => True end ->
  let '(v, e, erange) := strtoll_end (n ++ z2b 0 :: g) in
  exists b t, e = b :: t /\
    forall w, (if negb (b2z b =? 0) || erange then None else Some v) = Some w <-> n = [] /\ w = 0 \/ decimal n w.
Proof.
  intros Hn Hsp. unfold strtoll_end.
  assert (skip_space (n ++ z2b 0 :: g) = n ++ z2b 0 :: g) as ->.
  { destruct n as [|b n]; [done|]. cbn [app skip_space]. by rewrite Hsp. }
  destruct n as [|b0 n].
  { cbn. exists (z2b 0), g. split; [done|]. intros w. split; [intros [= <-]; by left|].
    intros [[_ ->]|(neg & sgn & ds & E & _ & _ & Hne & _)]; [done|]. by destruct sgn, ds. }
  cbn [app]. assert (b2z b0 <> 0) as Hb0 by by inversion Hn. assert (no_nul n) as Hn' by by inversion Hn.
  assert (exists neg m sgn, (neg = true /\ sgn = ["-"%byte] \/ neg = false /\ (sgn = ["+"%byte] \/ sgn = [] /\ b0 <> "-"%byte /\ b0 <> "+"%byte)) /\ b0 :: n = sgn ++ m /\ no_nul m /\
    (if b2z b0 =? 45 then (true, n ++ z2b 0 :: g) else if b2z b0 =? 43 then (false, n ++ z2b 0 :: g) else (false, b0 :: n ++ z2b 0 :: g))
    = (neg, m ++ z2b 0 :: g)) as (neg & m & sgn & Hs & Em & Hm & ->).
  { destruct (Z.eqb_spec (b2z b0) 45) as [E|E]; [|destruct (Z.eqb_spec (b2z b0) 43) as [E'|E']].
    - change 45 with (b2z "-"%byte) in E. apply b2z_inj in E as ->. exists true, n, ["-"%byte]. split_and!; try done. by left.
    - change 43 with (b2z "+"%byte) in E'. apply b2z_inj in E' as ->. exists false, n, ["+"%byte]. split_and!; try done.
      right. split; [done|by left].
    - exists false, (b0 :: n), []. split_and!; try done. right. split; [done|]. right.
      split; [done|]. split; [by intros ->|by intros ->]. }
  pose proof (strtoll_body neg m g (b0 :: n ++ z2b 0 :: g) Hm) as Hbody. cbv zeta in Hbody |- *.
  destruct Hbody as [[Hd ->]|(ds & t & -> & Hds & Hne & Ht & ->)].
  - exists b0, (n ++ z2b 0 :: g). split; [done|]. intros w. rewrite (proj2 (Z.eqb_neq _ 0) Hb0). cbn [negb orb]. split; [done|].
    intros [[? _]|Hdec]; [done|]. exfalso. rewrite Em in Hdec.
    destruct Hs as [Hs|[-> [->|(-> & H1 & H2)]]].
    + apply (decimal_digits m [] m w neg sgn) in Hdec; [by destruct Hdec as (_ & ? & _)|done|constructor|done|by left].
    + apply (decimal_digits m [] m w false ["+"%byte]) in Hdec; [by destruct Hdec as (_ & ? & _)|done|constructor|done|].
      right. split; [done|by left].
    + destruct Hdec as (neg & sgn & ds & E & [[_ ->]|[_ [->| ->]]] & Hds & Hne & _); cbn in E, Em; subst m.
      * injection E as -> _. done.
      * destruct ds as [|x ds]; [done|]. injection E as -> ->. inversion Hds; congruence.
      * injection E as -> _. done.
  - assert (forall w, decimal (b0 :: n) w <-> t = [] /\ ds <> [] /\ w = (if neg then - dval 0 ds else dval 0 ds) /\ int64 w) as Hdec.
    { intros w. rewrite Em. apply decimal_digits; [done..|]. destruct Hs as [?|[? [?|[? _]]]]; [by left|right; split; [done|by left]|].
      right. split; [done|]. by right. }
    set (v := if neg then - dval 0 ds else dval 0 ds) in *.
    assert (forall w, b0 :: n = [] /\ w = 0 \/ decimal (b0 :: n) w <-> t = [] /\ w = v /\ int64 w) as Hdec'.
    { intros w. rewrite Hdec. split; [intros [[? _]|(? & _ & ?)]; done|intros (? & ? & ?); by right]. }
    unfold int64 in Hdec'. destruct t as [|b t].
    + exists (z2b 0), g. split; [done|]. intros w. rewrite Hdec'. change (b2z (z2b 0) =? 0) with true. cbn [negb orb].
      destruct ((- 2 ^ 63 <=? v) && (v <=? 2 ^ 63 - 1)) eqn:Ev; cbn [negb].
      * split; [intros [= <-]; split; [done|lia]|intros (_ & -> & ?); f_equal; lia].
      * split; [done|]. intros (_ & -> & ?). lia.
    + exists b, (t ++ z2b 0 :: g). split; [done|]. intros w. rewrite Hdec'.
      assert (b2z b <> 0) as Hb. { apply Forall_app in Hm as [_ Hm]. by inversion Hm. }
      rewrite (proj2 (Z.eqb_neq _ 0) Hb). cbn [negb orb]. split; [done|]. by intros (? & _).
Qed.
Lemma isspace_char b : isspace (char_val b) = isspace (b2z b).
Proof. rewrite char_val_b2z. unfold isspace. pose proof (b2z_range b). destruct (Z.ltb_spec (b2z b) 128); lia. Qed.

Lemma char_val_0 b : (char_val b =? 0) = (b2z b =? 0).
Proof. rewrite char_val_b2z. pose proof (b2z_range b). destruct (Z.ltb_spec (b2z b) 128); lia. Qed.

Lemma decimal_print v w : int64 v -> decimal (print_int v) w <-> w = v.
Proof.
  intros Hv. unfold int64 in Hv. unfold print_int. destruct (Z.ltb_spec v 0).
  - destruct (print_nat_digits (- v)) as (b & s & -> & Hd & Hval & _); [lia|].
    rewrite (decimal_digits (b :: s) (b :: s) [] w true ["-"%byte] ltac:(by rewrite app_nil_r) Hd I) by by left.
    rewrite Hval. unfold int64. split; [lia|intros ->]. split; [done|]. split; [done|lia].
  - destruct (print_nat_digits v) as (b & s & -> & Hd & Hval & _); [lia|].
    rewrite (decimal_digits (b :: s) (b :: s) [] w false [] ltac:(by rewrite app_nil_r) Hd I)
      by (right; split; [done|]; by right).
    rewrite Hval. unfold int64. split; [lia|intros ->]. split; [done|]. split; [done|lia].
Qed.

Lemma cstr_split c g : exists g', c ++ z2b 0 :: g = cstr c ++ z2b 0 :: g'.
Proof.
  destruct (cstr_take c) as (r & E & Hr). destruct r as [|x r]; [exists g; by rewrite E at 1; rewrite app_nil_r|].
  subst x. exists (r ++ z2b 0 :: g). rewrite E at 1. by rewrite <-app_assoc.
Qed.

Lemma no_nul_cstr c : no_nul (cstr c).
Proof.
  induction c as [|b c IH]; [constructor|]. cbn. destruct (Z.eqb_spec (b2z b) 0); [constructor|by constructor].
Qed.

Lemma rd_head b t : rd (b :: t) 0 = Some (char_val b).
Proof. pose proof (rd_app [] b t [] 0 eq_refl) as E. by rewrite app_nil_r in E. Qed.

Lemma strtoll_end_total n g :
  no_nul n -> exists v b t erange, strtoll_end (n ++ z2b 0 :: g) = (v, b :: t, erange).
Proof.
  intros Hn. unfold strtoll_end.
  assert (exists n1, no_nul n1 /\ skip_space (n ++ z2b 0 :: g) = n1 ++ z2b 0 :: g) as (n1 & Hn1 & ->).
  { induction Hn as [|b n Hb Hn IH]; [exists []; by split; [constructor|]|]. cbn [app skip_space].
    destruct (isspace (b2z b)); [exact IH|]. exists (b :: n). split; [by constructor|done]. }
  assert (exists b0 t0, n ++ z2b 0 :: g = b0 :: t0) as (b0 & t0 & ->) by (destruct n as [|b n]; cbn; eauto).
  assert (exists neg m, no_nul m /\ match n1 ++ z2b 0 :: g with
    | b :: t' => if b2z b =? 45 then (true, t') else if b2z b =? 43 then (false, t') else (false, n1 ++ z2b 0 :: g)
    | [] => (false, n1 ++ z2b 0 :: g) end = (neg, m ++ z2b 0 :: g)) as (neg & m & Hm & ->).
  { destruct n1 as [|b n1]; cbn [app]; [by exists false, []|]. assert (no_nul n1) as Hn2 by by inversion Hn1.
    destruct (b2z b =? 45); [by exists true, n1|]. destruct (b2z b =? 43); [by exists false, n1|]. by exists false, (b :: n1). }
  destruct (strtoll_body neg m g (b0 :: t0) Hm) as [[_ E]|(ds & t & _ & _ & _ & _ & E)]; cbv zeta in E |- *; rewrite E; [eauto|].
  destruct t as [|b t]; cbn [app]; eauto.
Qed.

(** [getLongLongFromObject] accepts exactly the objects whose characters
    up to the first NUL are empty (read as 0) or an optional sign and
    digits of a 64-bit number, whichever way the object is encoded; every
    other string is an error, and no string is read past its end. *)
Theorem getLongLongFromObject_accepts o :
  string_obj o ->
  exists r, getLongLongFromObject (Some o) = Some r /\
    forall v, r = Some v <-> cstr (content o) = [] /\ v = 0 \/ decimal (cstr (content o)) v.
Proof.
  intros Ho. unfold getLongLongFromObject. rewrite string_obj_type by done. cbn [Z.eqb REDIS_STRING].
  destruct Ho as [Ho|(Ht & He & v & Hp & Hv)].
  - destruct (raw_inv o Ho) as (s & _ & -> & Hp & [_ _ _ (g & Hb & _)]). cbn [Z.eqb REDIS_ENCODING_RAW]. unfold ptr_sds. rewrite Hp.
    cbn [option_bind mbind]. rewrite Hb. destruct (cstr_split (content o) g) as [g' ->].
    pose proof (no_nul_cstr (content o)) as Hn. set (n := cstr (content o)) in *.
    assert (rd (n ++ z2b 0 :: g') 0 = Some (char_val (match n with b :: _ => b | [] => z2b 0 end))) as Hrd
      by (destruct n as [|b n]; [by apply (rd_app [] _ [] g')|by apply (rd_app [] b n (z2b 0 :: g'))]).
    rewrite Hrd. cbn [option_bind mbind]. rewrite isspace_char.
    destruct (isspace (b2z (match n with b :: _ => b | [] => z2b 0 end))) eqn:Hsp.
    + destruct (strtoll_end_total n g' Hn) as (v & b & t & er & ->). rewrite rd_head.
      cbn [option_bind mbind orb]. eexists. split; [reflexivity|]. intros w. split; [done|]. intros Hdec. exfalso.
      destruct n as [|b0 n]; [done|]. destruct Hdec as [[? _]|(neg & sgn & ds & E & Hs & Hds & Hne & _)]; [done|].
      destruct Hs as [[_ ->]|[_ [->| ->]]]; [by injection E as -> _| |by injection E as -> _].
      destruct ds as [|d ds]; [done|]. injection E as -> _. inversion Hds as [|? ? Hd _]; subst.
      destruct (digit_facts d Hd) as (_ & Hnsp & _). congruence.
    + pose proof (strtoll_end_spec n g' Hn) as Hspec. destruct (strtoll_end (n ++ z2b 0 :: g')) as [[v e] er].
      destruct Hspec as (b & t & -> & Hspec); [by destruct n|]. rewrite rd_head. cbn [option_bind mbind orb]. rewrite char_val_0.
      exists (if negb (b2z b =? 0) || er then None else Some v). split; [by destruct (negb (b2z b =? 0) || er)|exact Hspec].
  - rewrite He. cbn [Z.eqb REDIS_ENCODING_INT REDIS_ENCODING_RAW Pos.eqb]. unfold ptr_long. rewrite Hp. cbn [option_bind mbind].
    exists (Some v). split; [done|]. intros w. assert (int64 v) as Hv64 by (unfold int64; lia). unfold content. rewrite Hp.
    pose proof (no_nul_print_int v Hv64) as Hn. pose proof (cstr_app (print_int v) [] Hn) as E. cbn [cstr] in E. rewrite !app_nil_r in E.
    rewrite E, decimal_print by done. pose proof (length_print_int v Hv64) as Hl. split; [intros [= ->]; by right|].
    intros [[E' _]|?]; [rewrite E' in Hl; cbn in Hl; lia|congruence].
Qed.


(** String objects without NUL bytes are what containers expect. *)
#[export] Instance robj_objects : StringObjects robj.
Proof.
  refine {| obj_compare := compareStringObjects junk false; obj_equal := equalStringObjects junk false;
            obj_ok := fun o => string_obj o /\ no_nul (content o); obj_content := content |}.
  - intros a b [Ha Hna] [Hb Hnb]. apply compare_contents; auto. discriminate.
  - intros a b [Ha Hna] [Hb Hnb]. apply equal_contents; auto. discriminate.
Defined.
End Spec.

(** ** Instances *)

Definition raw_of (c : list byte) : robj :=
  Robj REDIS_STRING REDIS_ENCODING_RAW (PSds (Sdshdr (Z.of_nat (length c)) 0 (c ++ [z2b 0]))) 1.
Definition int_of (v : Z) : robj := Robj REDIS_STRING REDIS_ENCODING_INT (PLong v) 1.

(** The shared integers as the server creates them. *)
Definition shared_init : list robj := map (fun v => int_of (Z.of_nat v)) (seq 0 (Z.to_nat REDIS_SHARED_INTEGERS)).
Lemma shared_init_ok : shared_ok shared_init.
Proof.
  intros v Hv. exists 1. split; [|done]. unfold shared_init. rewrite list_lookup_fmap, lookup_seq_lt by lia. cbn. by rewrite Z2Nat.id by lia.
Qed.

Lemma raw_of_ok c : Z.of_nat (length c) < 2 ^ 20 -> raw (raw_of c).
Proof. intros Hc. split; [done|]. split; [done|]. eexists _, c. split; [reflexivity|]. apply rep_mk; cbn; lia. Qed.

(** Outside that condition comparison is not an order: an object encoded
    as an integer is compared as a C string, so it is equal to every string
    that continues its digits with a NUL, although these differ from it and
    from each other; and such strings, like the empty one, are accepted as
    integers. *)
Theorem compareStringObjects_nul_defect junk :
  let x := raw_of (["1"; "2"; "000"; "a"]%byte) in let y := raw_of (["1"; "2"; "000"; "b"]%byte) in
  content (int_of 12) <> content x /\ content x <> content y /\
  equalStringObjects junk false (int_of 12) x = Some true /\ equalStringObjects junk false (int_of 12) y = Some true /\
  equalStringObjects junk false x y = Some false /\
  compareStringObjects junk false (int_of 12) x = Some 0 /\ compareStringObjects junk false x y = Some (-1) /\
  getLongLongFromObject (Some x) = Some (Some 12) /\ getLongLongFromObject (Some (raw_of [])) = Some (Some 0).
Proof. split_and!; try done; reflexivity. Qed.

Lemma tryObjectEncoding_transparent_witness :
  let shared := map (fun v => int_of (Z.of_nat v)) (seq 0 (Z.to_nat REDIS_SHARED_INTEGERS)) in
  exists o' shared', tryObjectEncoding 0 shared (raw_of ["-"; "7"]%byte) = Some (o', shared') /\
    content o' = ["-"; "7"]%byte /\ encoding o' = REDIS_ENCODING_INT.
Proof.
  intros shared.
  destruct (tryObjectEncoding_transparent (fun _ => z2b 0) 0 shared (raw_of ["-"; "7"]%byte)) as (o' & sh & E & _ & Hc & Henc & _).
  - left. by apply raw_of_ok.
  - by split.
  - intros v Hv. exists 1. split; [|done]. unfold shared.
    rewrite list_lookup_fmap, lookup_seq_lt by lia. cbn. by rewrite Z2Nat.id by lia.
  - reflexivity.
  - vm_compute. discriminate.
  - exists o', sh. split; [exact E|]. split; [exact Hc|]. apply Henc. right. split; [done|]. exists (-7). split; [by split|reflexivity].
Defined.

Lemma compareStringObjects_contents_witness :
  (exists r, compareStringObjects (fun _ => z2b 0) false (int_of 12) (raw_of ["1"; "3"]%byte) = Some r /\ (r ?= 0) = Lt) /\
  equalStringObjects (fun _ => z2b 0) false (int_of 12) (raw_of ["1"; "2"]%byte) = Some true.
Proof.
  assert (string_obj (int_of 12)) as H12 by (right; split; [done|]; split; [done|]; by exists 12).
  assert (no_nul (content (int_of 12))) as Hn by (repeat constructor; discriminate).
  split.
  - apply (compareStringObjects_contents (fun _ => z2b 0) false (int_of 12) (raw_of ["1"; "3"]%byte)); [done|by left; apply raw_of_ok| |done].
    right. split; [done|]. repeat constructor; discriminate.
  - refine (proj2 (compareStringObjects_contents (fun _ => z2b 0) false (int_of 12) (raw_of ["1"; "2"]%byte) _ _ _ _));
      [done|by left; apply raw_of_ok| |done].
    right. split; [done|]. repeat constructor; discriminate.
Defined.

Lemma getLongLongFromObject_accepts_witness :
  exists r, getLongLongFromObject (Some (raw_of ["+"; "0"; "5"]%byte)) = Some r /\ r = Some 5.
Proof.
  destruct (getLongLongFromObject_accepts (raw_of ["+"; "0"; "5"]%byte)) as (r & E & Hr); [left; by apply raw_of_ok|].
  exists r. split; [exact E|]. apply Hr. right. exists false, ["+"%byte], ["0"; "5"]%byte. split; [done|].
  split; [right; split; [done|by right]|]. split; [repeat constructor|]. split; [done|]. split; [done|by split].
Defined.
