(* ===== verification/Rdb.v ===== *)
(** Rdb: the encodings of types, times, lengths, integers and strings of
    [rdb.c], over any stream; and the payloads of DUMP and RESTORE
    ([migrate.c]), which are such strings with a version and a checksum. *)
From S2P Require Import Prelude Endian Crc64 Util Sds Lzf Elements Rio Objects.

Definition REDIS_RDB_6BITLEN : Z := 0.
Definition REDIS_RDB_14BITLEN : Z := 1.
Definition REDIS_RDB_32BITLEN : Z := 2.
Definition REDIS_RDB_ENCVAL : Z := 3.
Definition REDIS_RDB_LENERR : Z := 2 ^ 32 - 1.
Definition REDIS_RDB_ENC_INT8 : Z := 0.
Definition REDIS_RDB_ENC_INT16 : Z := 1.
Definition REDIS_RDB_ENC_INT32 : Z := 2.
Definition REDIS_RDB_ENC_LZF : Z := 3.

Definition REDIS_LIST : Z := 1.
Definition REDIS_SET : Z := 2.
Definition REDIS_ZSET : Z := 3.
Definition REDIS_HASH : Z := 4.
Definition REDIS_ENCODING_HT : Z := 2.
Definition REDIS_ENCODING_LINKEDLIST : Z := 4.
Definition REDIS_ENCODING_ZIPLIST : Z := 5.
Definition REDIS_ENCODING_INTSET : Z := 6.
Definition REDIS_ENCODING_SKIPLIST : Z := 7.

Definition REDIS_RDB_TYPE_STRING : Z := 0.
Definition REDIS_RDB_TYPE_LIST : Z := 1.
Definition REDIS_RDB_TYPE_SET : Z := 2.
Definition REDIS_RDB_TYPE_ZSET : Z := 3.
Definition REDIS_RDB_TYPE_HASH : Z := 4.
Definition REDIS_RDB_TYPE_LIST_ZIPLIST : Z := 10.
Definition REDIS_RDB_TYPE_SET_INTSET : Z := 11.
Definition REDIS_RDB_TYPE_ZSET_ZIPLIST : Z := 12.
Definition REDIS_RDB_TYPE_HASH_ZIPLIST : Z := 13.

Definition rdbIsObjectType (t : Z) : bool := ((0 <=? t) && (t <=? 4)) || ((9 <=? t) && (t <=? 13)).

Section Rdb.
(** The stream's methods; unwritten memory, the host's byte order, and what
    is in the table of the compressor. *)
Context {S : Type} `{RioMethods S} (junk : nat -> byte) (be : bool) (table : Z -> Z).
Implicit Types (rdb : option (rio S)) (r : rio S) (s : list byte) (shared : shared_ints).

(** Saving to the null stream only counts. *)
Definition rdbWriteRaw rdb (p : list byte) : option (Z * option (rio S)) :=
  match rdb with
  | None => Some (s32 (Z.of_nat (length p)), None)
  | Some r => '(ok, r) ← rioWrite r p; Some (if ok : bool then s32 (Z.of_nat (length p)) else -1, Some r)
  end.

Definition rdbSaveType rdb (type : Z) : option (Z * option (rio S)) := rdbWriteRaw rdb [z2b type].

Definition rdbLoadType r : option (Z * rio S) :=
  '(bs, r) ← rioRead r 1;
  match bs with None => Some (-1, r) | Some bs => Some (le_val bs, r) end.

Definition rdbLoadTime r : option (Z * rio S) :=
  '(bs, r) ← rioRead r 4;
  match bs with None => Some (-1, r) | Some bs => Some (s32 (host_load be bs), r) end.

Definition rdbSaveMillisecondTime rdb (t : Z) : option (Z * option (rio S)) := rdbWriteRaw rdb (host_store be 8 t).

Definition rdbLoadMillisecondTime r : option (Z * rio S) :=
  '(bs, r) ← rioRead r 8;
  match bs with None => Some (-1, r) | Some bs => Some (s64 (host_load be bs), r) end.

(** POSIX: the most significant byte is the first in memory. *)
Definition htonl (v : Z) : Z := host_load be (rev (le_bytes 4 v)).
Definition ntohl (v : Z) : Z := le_val (rev (host_store be 4 v)).

(** ** Lengths *)

Definition rdbSaveLen rdb (len : Z) : option (Z * option (rio S)) :=
  if len <? Z.shiftl 1 6 then
    '(n, rdb) ← rdbWriteRaw rdb [z2b (Z.lor (Z.land len 0xff) (Z.shiftl REDIS_RDB_6BITLEN 6))];
    if n =? -1 then Some (-1, rdb) else Some (1, rdb)
  else if len <? Z.shiftl 1 14 then
    '(n, rdb) ← rdbWriteRaw rdb [z2b (Z.lor (Z.land (Z.shiftr len 8) 0xff) (Z.shiftl REDIS_RDB_14BITLEN 6)); z2b (Z.land len 0xff)];
    if n =? -1 then Some (-1, rdb) else Some (2, rdb)
  else
    '(n, rdb) ← rdbWriteRaw rdb [z2b (Z.shiftl REDIS_RDB_32BITLEN 6)];
    if n =? -1 then Some (-1, rdb)
    else
      '(n, rdb) ← rdbWriteRaw rdb (host_store be 4 (htonl len));
      if n =? -4 then Some (-1, rdb) else Some (1 + 4, rdb).

(** The length, or an encoding, or [REDIS_RDB_LENERR], and [isencoded]. *)
Definition rdbLoadLen r : option (Z * bool * rio S) :=
  '(b, r) ← rioRead r 1;
  match b with
  | None => Some (REDIS_RDB_LENERR, false, r)
  | Some b =>
    let b0 := le_val b in
    let type := Z.shiftr (Z.land b0 0xC0) 6 in
    if type =? REDIS_RDB_ENCVAL then Some (Z.land b0 0x3F, true, r)
    else if type =? REDIS_RDB_6BITLEN then Some (Z.land b0 0x3F, false, r)
    else if type =? REDIS_RDB_14BITLEN then
      '(b, r) ← rioRead r 1;
      match b with
      | None => Some (REDIS_RDB_LENERR, false, r)
      | Some b => Some (Z.lor (Z.shiftl (Z.land b0 0x3F) 8) (le_val b), false, r)
      end
    else
      '(b, r) ← rioRead r 4;
      match b with
      | None => Some (REDIS_RDB_LENERR, false, r)
      | Some b => Some (ntohl (host_load be b), false, r)
      end
  end.

(** ** Integers *)

(** The bytes stored in [enc]; none when the result is 0. *)
Definition rdbEncodeInteger (value : Z) : list byte :=
  let head e := z2b (Z.lor (Z.shiftl REDIS_RDB_ENCVAL 6) e) in
  let nth k := z2b (Z.land (Z.shiftr value (8 * k)) 0xFF) in
  if (- Z.shiftl 1 7 <=? value) && (value <=? Z.shiftl 1 7 - 1) then [head REDIS_RDB_ENC_INT8; nth 0]
  else if (- Z.shiftl 1 15 <=? value) && (value <=? Z.shiftl 1 15 - 1) then [head REDIS_RDB_ENC_INT16; nth 0; nth 1]
  else if (- Z.shiftl 1 31 <=? value) && (value <=? Z.shiftl 1 31 - 1) then [head REDIS_RDB_ENC_INT32; nth 0; nth 1; nth 2; nth 3]
  else [].

(** The shifts of bytes into an [int] keep the low 32 bits, as the compilers
    the program is built with define them. *)
Definition rdbLoadIntegerObject r (enctype : Z) (encode : bool) shared : option (option robj * shared_ints * rio S) :=
  let n := if enctype =? REDIS_RDB_ENC_INT8 then 1 else if enctype =? REDIS_RDB_ENC_INT16 then 2 else 4 in
  if negb ((enctype =? REDIS_RDB_ENC_INT8) || (enctype =? REDIS_RDB_ENC_INT16) || (enctype =? REDIS_RDB_ENC_INT32)) then None
  else
    '(enc, r) ← rioRead r n;
    match enc with
    | None => Some (None, shared, r)
    | Some enc =>
      let v := le_val enc in
      let val := if enctype =? REDIS_RDB_ENC_INT8 then s8 v else if enctype =? REDIS_RDB_ENC_INT16 then s16 v else s32 v in
      if encode then '(o, shared) ← createStringObjectFromLongLong junk shared val; Some (Some o, shared, r)
      else s ← sdsfromlonglong junk val; Some (Some (createObject REDIS_STRING (PSds s)), shared, r)
    end.

(** [s] ends with a null character after its [len] bytes. *)
Definition rdbTryIntegerEncoding s (len : Z) : option (list byte) :=
  let '(value, endptr, _) := strtoll_end s in
  e0 ← rd endptr 0;
  if negb (e0 =? 0) then Some []
  else
    '(buf, _) ← ll2string junk 32 value;
    if negb (strlen buf =? len) then Some []
    else
      a ← mem_read buf 0 len; b ← mem_read s 0 len;
      if negb (memcmp a b =? 0) then Some [] else Some (rdbEncodeInteger value).

(** ** Strings *)

Definition rdbSaveLzfStringObject rdb s (len : Z) : option (Z * option (rio S)) :=
  if len <=? 4 then Some (0, rdb)
  else
    let outlen := len - 4 in
    src ← mem_read s 0 len;
    '(comprlen, out) ← lzf_compress table src (u32 len) (map junk (seq 0 (Z.to_nat (outlen + 1)))) (u32 outlen);
    if comprlen =? 0 then Some (0, rdb)
    else
      '(n1, rdb) ← rdbWriteRaw rdb [z2b (Z.lor (Z.shiftl REDIS_RDB_ENCVAL 6) REDIS_RDB_ENC_LZF)];
      if n1 =? -1 then Some (-1, rdb)
      else
        '(n2, rdb) ← rdbSaveLen rdb comprlen;
        if n2 =? -1 then Some (-1, rdb)
        else
          '(n3, rdb) ← rdbSaveLen rdb (u32 len);
          if n3 =? -1 then Some (-1, rdb)
          else
            bs ← mem_read out 0 comprlen;
            '(n4, rdb) ← rdbWriteRaw rdb bs;
            if n4 =? -1 then Some (-1, rdb) else n ← chk32 (n1 + n2 + n3 + n4); Some (n, rdb).

Definition rdbLoadLzfStringObject r : option (option robj * rio S) :=
  '(clen, _, r) ← rdbLoadLen r;
  if clen =? REDIS_RDB_LENERR then Some (None, r)
  else
    '(len, _, r) ← rdbLoadLen r;
    if len =? REDIS_RDB_LENERR then Some (None, r)
    else
      val ← sdsnewlen junk None len;
      '(c, r) ← rioRead r clen;
      match c with
      | None => Some (None, r)
      | Some c =>
        '(n, _, buf) ← lzf_decompress c clen (sh_buf val) len;
        if n =? 0 then Some (None, r)
        else Some (Some (createObject REDIS_STRING (PSds (Sdshdr (sh_len val) (sh_free val) buf))), r)
      end.

(** [compression] is [server.rdb_compression]. *)
Definition rdbSaveRawString (compression : bool) rdb s (len : Z) : option (Z * option (rio S)) :=
  enc ← (if len <=? 11 then rdbTryIntegerEncoding s len else Some []);
  let enclen := Z.of_nat (length enc) in
  if 0 <? enclen then
    '(n, rdb) ← rdbWriteRaw rdb enc;
    Some (if n =? -1 then -1 else enclen, rdb)
  else
    '(n, rdb) ← (if compression && (20 <? len) then rdbSaveLzfStringObject rdb s len else Some (0, rdb));
    if n =? -1 then Some (-1, rdb)
    else if 0 <? n then Some (n, rdb)
    else
      '(n, rdb) ← rdbSaveLen rdb (u32 len);
      if n =? -1 then Some (-1, rdb)
      else if 0 <? len then
        bs ← mem_read s 0 len;
        '(m, rdb) ← rdbWriteRaw rdb bs;
        if m =? -1 then Some (-1, rdb) else Some (s32 (u64 (n + len)), rdb)
      else Some (n, rdb).

Definition rdbSaveLongLongAsStringObject rdb (value : Z) : option (Z * option (rio S)) :=
  let enc := rdbEncodeInteger value in
  if 0 <? Z.of_nat (length enc) then rdbWriteRaw rdb enc
  else
    '(buf, enclen) ← ll2string junk 32 value;
    if enclen <? 32 then
      '(n, rdb) ← rdbSaveLen rdb enclen;
      if n =? -1 then Some (-1, rdb)
      else
        bs ← mem_read buf 0 enclen;
        '(m, rdb) ← rdbWriteRaw rdb bs;
        if m =? -1 then Some (-1, rdb) else Some (n + m, rdb)
    else None.

Definition rdbSaveStringObject (compression : bool) rdb (obj : robj) : option (Z * option (rio S)) :=
  if encoding obj =? REDIS_ENCODING_INT then v ← ptr_long obj; rdbSaveLongLongAsStringObject rdb v
  else if encoding obj =? REDIS_ENCODING_RAW then s ← ptr_sds obj; rdbSaveRawString compression rdb (sh_buf s) (sdslen s)
  else None.

Definition rdbGenericLoadStringObject r (encode : bool) shared : option (option robj * shared_ints * rio S) :=
  '(len, isencoded, r) ← rdbLoadLen r;
  if isencoded : bool then
    if (len =? REDIS_RDB_ENC_INT8) || (len =? REDIS_RDB_ENC_INT16) || (len =? REDIS_RDB_ENC_INT32) then
      rdbLoadIntegerObject r len encode shared
    else if len =? REDIS_RDB_ENC_LZF then '(o, r) ← rdbLoadLzfStringObject r; Some (o, shared, r)
    else None
  else if len =? REDIS_RDB_LENERR then Some (None, shared, r)
  else
    val ← sdsnewlen junk None len;
    if len =? 0 then Some (Some (createObject REDIS_STRING (PSds val)), shared, r)
    else
      '(bs, r) ← rioRead r len;
      match bs with
      | None => Some (None, shared, r)
      | Some bs =>
        buf ← mem_write (sh_buf val) 0 bs;
        Some (Some (createObject REDIS_STRING (PSds (Sdshdr (sh_len val) (sh_free val) buf))), shared, r)
      end.

Definition rdbLoadStringObject r shared := rdbGenericLoadStringObject r false shared.
Definition rdbLoadEncodedStringObject r shared := rdbGenericLoadStringObject r true shared.

(** ** Objects *)

Definition rdbSaveObjectType rdb (o : robj) : option (Z * option (rio S)) :=
  let t := type o in let e := encoding o in
  if t =? REDIS_STRING then rdbSaveType rdb REDIS_RDB_TYPE_STRING
  else if t =? REDIS_LIST then
    if e =? REDIS_ENCODING_ZIPLIST then rdbSaveType rdb REDIS_RDB_TYPE_LIST_ZIPLIST
    else if e =? REDIS_ENCODING_LINKEDLIST then rdbSaveType rdb REDIS_RDB_TYPE_LIST else None
  else if t =? REDIS_SET then
    if e =? REDIS_ENCODING_INTSET then rdbSaveType rdb REDIS_RDB_TYPE_SET_INTSET
    else if e =? REDIS_ENCODING_HT then rdbSaveType rdb REDIS_RDB_TYPE_SET else None
  else if t =? REDIS_ZSET then
    if e =? REDIS_ENCODING_ZIPLIST then rdbSaveType rdb REDIS_RDB_TYPE_ZSET_ZIPLIST
    else if e =? REDIS_ENCODING_SKIPLIST then rdbSaveType rdb REDIS_RDB_TYPE_ZSET else None
  else if t =? REDIS_HASH then
    if e =? REDIS_ENCODING_ZIPLIST then rdbSaveType rdb REDIS_RDB_TYPE_HASH_ZIPLIST
    else if e =? REDIS_ENCODING_HT then rdbSaveType rdb REDIS_RDB_TYPE_HASH else None
  else None.

Definition rdbLoadObjectType r : option (Z * rio S) :=
  '(type, r) ← rdbLoadType r;
  if type =? -1 then Some (-1, r) else if negb (rdbIsObjectType type) then Some (-1, r) else Some (type, r).
End Rdb.

(** The payloads of the DUMP and RESTORE commands ([migrate.c]): a
    serialised object, the version of the format and a checksum. *)
Definition REDIS_RDB_VERSION : Z := 6.
Definition REDIS_OK : Z := 0.
Definition REDIS_ERR : Z := -1.

Section Dump.
Context (junk : nat -> byte) (be : bool) (table : Z -> Z).

(** [createDumpPayload] for a string object: the other types go through
    [rdbSaveObject] to the container modules. *)
Definition createDumpPayload (compression : bool) (o : robj) : option sdshdr :=
  e ← sdsempty junk;
  let payload := rioInitWithBuffer e in
  '(n, rdb) ← rdbSaveObjectType (H := rioBufferIO junk) (Some payload) o;
  if n =? 0 then None
  else
    '(n, rdb) ← (if type o =? REDIS_STRING then rdbSaveStringObject (H := rioBufferIO junk) junk be table compression rdb o else None);
    if n =? 0 then None
    else
      payload ← rdb;
      s ← sdscatlen junk (b_ptr (io payload)) [z2b (Z.land REDIS_RDB_VERSION 0xff); z2b (Z.land (Z.shiftr REDIS_RDB_VERSION 8) 0xff)];
      bs ← mem_read (sh_buf s) 0 (sdslen s);
      let crc := crc64 0 bs in
      sdscatlen junk s (memrev64ifbe be (host_store be 8 crc)).

Definition verifyDumpPayload (p : list byte) (len : Z) : option Z :=
  if len <? 10 then Some REDIS_ERR
  else
    let footer := len - 10 in
    f1 ← getb p (footer + 1); f0 ← getb p footer;
    let rdbver := u16 (Z.lor (Z.shiftl f1 8) f0) in
    if negb (rdbver =? REDIS_RDB_VERSION) then Some REDIS_ERR
    else
      bs ← mem_read p 0 (len - 8);
      let crc := memrev64ifbe be (host_store be 8 (crc64 0 bs)) in
      c ← mem_read p (footer + 2) 8;
      Some (if memcmp crc c =? 0 then REDIS_OK else REDIS_ERR).
End Dump.
