(* ===== verification/RdbProofs.v ===== *)
(** RdbProofs: what each function of [Rdb] writes to a stream and reads back. *)
From S2P Require Import Prelude Endian Util UtilNum UtilSpec Sds SdsProofs SdsMore Elements Objects ObjectsSpec Lzf LzfProofs LzfSpec Rio Rdb.

Section Rdb.
Context {S : Type} `{RioLaws S} (junk : nat -> byte) (be : bool) (table : Z -> Z).
(** The checksum method and the sum both ends start with. *)
Context (f : option (Z -> list byte -> Z)) (c0 : Z).
Implicit Types (r : rio S) (w d rest bs s : list byte) (n len : Z) (shared : list robj).

(** ** Streams with their checksum *)

Definition sum w : Z := match f with Some f => f c0 w | None => c0 end.
Definition additive : Prop := match f with Some f => forall c a b, f (f c a) b = f c (a ++ b) | None => True end.

Definition wstate w n r : Prop := update_cksum r = f /\ writing (io r) w n /\ cksum r = sum w.
Definition rstate d rest r : Prop := update_cksum r = f /\ reading (io r) rest /\ cksum r = sum d.

Lemma sum_app w bs : additive -> match f with Some g => g (sum w) bs | None => sum w end = sum (w ++ bs).
Proof. unfold additive, sum. destruct f; [intros Ha; apply Ha|done]. Qed.

Context (Hadd : additive).

Lemma rio_write_spec w n r bs : wstate w n r -> 0 < Z.of_nat (length bs) <= n ->
  exists r', rioWrite r bs = Some (true, r') /\ wstate (w ++ bs) (n - Z.of_nat (length bs)) r'.
Proof.
  intros (Ef & Hw & Ec) Hl. unfold rioWrite.
  assert (io (update r bs) = io r) as Eio by (unfold update; by destruct (update_cksum r)).
  destruct (write_law (io r) w n bs Hw Hl) as (s' & E & Hw'). rewrite Eio, E. cbn [option_bind mbind].
  eexists. split; [reflexivity|]. split_and!; unfold with_io, update; rewrite ?Ef.
  - by destruct f.
  - by destruct (update_cksum r).
  - cbn [cksum]. pose proof (sum_app w bs Hadd) as Hs. destruct f as [g|]; cbn [cksum] in *; by rewrite Ec.
Qed.

Lemma stream_write_spec w n r bs : wstate w n r -> 0 < Z.of_nat (length bs) <= n -> Z.of_nat (length bs) < 2 ^ 31 ->
  exists r', rdbWriteRaw (Some r) bs = Some (Z.of_nat (length bs), Some r') /\ wstate (w ++ bs) (n - Z.of_nat (length bs)) r'.
Proof.
  intros Hw Hl Hb. unfold rdbWriteRaw. destruct (rio_write_spec w n r bs Hw Hl) as (r' & -> & Hw'). cbn [option_bind mbind].
  eexists. split; [rewrite s32_small by lia; reflexivity|done].
Qed.

Lemma stream_read_spec d bs rest r : rstate d (bs ++ rest) r -> bs <> [] ->
  exists r', rioRead r (Z.of_nat (length bs)) = Some (Some bs, r') /\ rstate (d ++ bs) rest r'.
Proof.
  intros (Ef & Hr & Ec) Hne. unfold rioRead. destruct (read_law (io r) bs rest Hr Hne) as (s' & E & Hr'). rewrite E. cbn [option_bind mbind].
  eexists. split; [reflexivity|]. pose proof (sum_app d bs Hadd) as Hs. unfold update, with_io, rstate. cbn [update_cksum cksum io]. rewrite Ef.
  destruct f as [g|]; cbn [update_cksum cksum io] in *; by rewrite Ec.
Qed.

Lemma read_byte d b rest r : rstate d (b :: rest) r -> exists r', rioRead r 1 = Some (Some [b], r') /\ rstate (d ++ [b]) rest r'.
Proof. intros Hr. by apply (stream_read_spec d [b] rest r). Qed.

Lemma le_val_1 b : le_val [b] = b2z b.
Proof. cbn. lia. Qed.

(** ** Lengths *)

Definition enc_len len : list byte :=
  if len <? 64 then [z2b len] else if len <? 16384 then [z2b (64 + len / 256); z2b len] else z2b 128 :: rev (le_bytes 4 len).

Lemma enc_len_size len : 1 <= Z.of_nat (length (enc_len len)) <= 5.
Proof. unfold enc_len. destruct (_ <? _); [cbn; lia|]. destruct (_ <? _); [cbn; lia|]. cbn [length]. rewrite length_rev, length_le_bytes. lia. Qed.

Lemma store_htonl len : 0 <= len < 2 ^ 32 -> host_store be 4 (htonl be len) = rev (le_bytes 4 len).
Proof.
  intros Hl. unfold host_store, htonl, host_load. destruct be.
  - rewrite rev_involutive. pose proof (le_bytes_val (le_bytes 4 len)) as E. rewrite length_le_bytes in E. by rewrite E.
  - pose proof (le_bytes_val (rev (le_bytes 4 len))) as E. rewrite length_rev, length_le_bytes in E. by rewrite E.
Qed.

Lemma ntohl_load len : 0 <= len < 2 ^ 32 -> ntohl be (host_load be (rev (le_bytes 4 len))) = len.
Proof.
  intros Hl. unfold ntohl, host_store, host_load. destruct be.
  - rewrite rev_involutive, rev_involutive, le_val_bytes. change (256 ^ Z.of_nat 4) with (2 ^ 32). rewrite le_val_bytes. change (256 ^ Z.of_nat 4) with (2 ^ 32).
    by rewrite Z.mod_mod, Z.mod_small by lia.
  - pose proof (le_bytes_val (rev (le_bytes 4 len))) as E. rewrite length_rev, length_le_bytes in E. rewrite E, rev_involutive, le_val_bytes.
    change (256 ^ Z.of_nat 4) with (2 ^ 32). by rewrite Z.mod_small by lia.
Qed.

Lemma z2b_low len : z2b (Z.land len 0xff) = z2b len.
Proof. rewrite land_255. apply b2z_inj. rewrite !b2z_z2b. by rewrite Z.mod_mod. Qed.
Lemma len6_head len : 0 <= len < 64 -> Z.lor (Z.land len 0xff) (Z.shiftl REDIS_RDB_6BITLEN 6) = len.
Proof. intros Hl. change (Z.shiftl REDIS_RDB_6BITLEN 6) with 0. by rewrite Z.lor_0_r, land_255, Z.mod_small by lia. Qed.
Lemma len14_head len : 64 <= len < 16384 ->
  Z.lor (Z.land (Z.shiftr len 8) 0xff) (Z.shiftl REDIS_RDB_14BITLEN 6) = 64 + len / 256.
Proof.
  intros Hl. rewrite Z.shiftr_div_pow2 by lia. change (2 ^ 8) with 256.
  assert (0 <= len / 256 < 64) as Hq by (split; [apply Z.div_pos; lia|apply Z.div_lt_upper_bound; lia]).
  rewrite land_255, (Z.mod_small (len / 256)) by lia. rewrite Z.lor_comm.
  change (Z.shiftl REDIS_RDB_14BITLEN 6) with (Z.shiftl 1 6). rewrite lor_add by lia. lia.
Qed.

Lemma save_len_spec w n r len : wstate w n r -> 0 <= len < 2 ^ 32 -> 5 <= n ->
  exists r', rdbSaveLen be (Some r) len = Some (Z.of_nat (length (enc_len len)), Some r') /\ wstate (w ++ enc_len len) (n - Z.of_nat (length (enc_len len))) r'.
Proof.
  intros Hw Hl Hn. unfold rdbSaveLen, enc_len. change (Z.shiftl 1 6) with 64. change (Z.shiftl 1 14) with 16384.
  destruct (Z.ltb_spec len 64) as [H1|H1]; [|destruct (Z.ltb_spec len 16384) as [H2|H2]].
  - rewrite len6_head by lia. destruct (stream_write_spec w n r [z2b len] Hw) as (r' & -> & Hw'); [cbn; lia..|]. by exists r'.
  - rewrite len14_head by lia.
    rewrite z2b_low.
    destruct (stream_write_spec w n r [z2b (64 + len / 256); z2b len] Hw) as (r' & -> & Hw'); [cbn; lia..|]. by exists r'.
  - change (Z.shiftl REDIS_RDB_32BITLEN 6) with 128. destruct (stream_write_spec w n r [z2b 128] Hw) as (r1 & -> & Hw1); [cbn; lia..|]. cbn [option_bind mbind].
    cbn [length]. rewrite store_htonl by done. assert (length (rev (le_bytes 4 len)) = 4%nat) as L4 by (by rewrite length_rev, length_le_bytes).
    destruct (stream_write_spec _ _ r1 (rev (le_bytes 4 len)) Hw1) as (r2 & -> & Hw2); [rewrite L4; cbn; lia|rewrite L4; lia|]. cbn [option_bind mbind].
    rewrite L4 in *. exists r2. split; [done|]. rewrite <-app_assoc in Hw2. cbn [length] in Hw2. replace (n - Z.of_nat 5) with (n - Z.of_nat 1 - Z.of_nat 4) by lia. exact Hw2.
Qed.

(** The fields of the first byte. *)
Lemma len_head k x : 0 <= k < 4 -> 0 <= x < 64 ->
  let b := b2z (z2b (k * 64 + x)) in Z.shiftr (Z.land b 0xC0) 6 = k /\ Z.land b 0x3F = x.
Proof.
  intros Hk Hx b. unfold b. rewrite b2z_z2b, Z.mod_small by lia.
  pose proof (forall_small (fun z => (Z.shiftr (Z.land z 0xC0) 6 =? z / 64) && (Z.land z 0x3F =? z mod 64)) 256 (k * 64 + x) eq_refl ltac:(lia)) as Hb.
  cbn beta in Hb. rewrite Z.div_add_l, Z.div_small in Hb by lia. rewrite Z.add_comm, Z.mod_add, Z.mod_small in Hb by lia. rewrite Z.add_comm in Hb. lia.
Qed.

Lemma load_len_spec d len rest r : 0 <= len < 2 ^ 32 -> rstate d (enc_len len ++ rest) r ->
  exists r', rdbLoadLen be r = Some (len, false, r') /\ rstate (d ++ enc_len len) rest r'.
Proof.
  intros Hl Hr. unfold rdbLoadLen. unfold enc_len in *. destruct (Z.ltb_spec len 64) as [H1|H1]; [|destruct (Z.ltb_spec len 16384) as [H2|H2]].
  - destruct (read_byte d (z2b len) rest r Hr) as (r' & -> & Hr'). cbn [option_bind mbind]. rewrite le_val_1.
    destruct (len_head 0 len ltac:(lia) ltac:(lia)) as [E1 E2]. rewrite Z.add_0_l in E1, E2. rewrite E1, E2. by exists r'.
  - assert (0 <= len / 256 < 64) as Hq by (split; [apply Z.div_pos; lia|apply Z.div_lt_upper_bound; lia]).
    destruct (read_byte d _ ([z2b len] ++ rest) r Hr) as (r1 & -> & Hr1). cbn [option_bind mbind]. rewrite le_val_1.
    destruct (len_head 1 (len / 256) ltac:(lia) Hq) as [E1 E2]. rewrite Z.mul_1_l in E1, E2. rewrite E1, E2.
    change (1 =? REDIS_RDB_ENCVAL) with false. change (1 =? REDIS_RDB_6BITLEN) with false. change (1 =? REDIS_RDB_14BITLEN) with true. cbv iota.
    destruct (read_byte _ (z2b len) rest r1 Hr1) as (r2 & -> & Hr2). cbn [option_bind mbind]. rewrite le_val_1, b2z_z2b.
    exists r2. rewrite <-app_assoc in Hr2. split; [|done]. do 3 f_equal. pose proof (Z.mod_pos_bound len 256 ltac:(lia)).
    rewrite lor_add by lia. change (2 ^ 8) with 256. pose proof (Z.div_mod len 256 ltac:(lia)). lia.
  - assert (length (rev (le_bytes 4 len)) = 4%nat) as L4 by (by rewrite length_rev, length_le_bytes).
    destruct (read_byte d (z2b 128) (rev (le_bytes 4 len) ++ rest) r Hr) as (r1 & -> & Hr1). cbn [option_bind mbind]. rewrite le_val_1.
    destruct (len_head 2 0 ltac:(lia) ltac:(lia)) as [E1 E2]. change (2 * 64 + 0) with 128 in E1, E2. rewrite E1, E2.
    change (2 =? REDIS_RDB_ENCVAL) with false. change (2 =? REDIS_RDB_6BITLEN) with false. change (2 =? REDIS_RDB_14BITLEN) with false. cbv iota.
    destruct (stream_read_spec _ _ rest r1 Hr1) as (r2 & E & Hr2); [intros E; apply (f_equal length) in E; by rewrite L4 in E|]. rewrite L4 in E. change (Z.of_nat 4) with 4 in E. rewrite E. cbn [option_bind mbind].
    rewrite ntohl_load by done. exists r2. by rewrite <-app_assoc in Hr2.
Qed.

(** The head of an encoded value. *)
Definition enc_head (e : Z) : byte := z2b (Z.lor (Z.shiftl REDIS_RDB_ENCVAL 6) e).

Lemma load_enc_spec d e rest r : 0 <= e < 4 -> rstate d (enc_head e :: rest) r ->
  exists r', rdbLoadLen be r = Some (e, true, r') /\ rstate (d ++ [enc_head e]) rest r'.
Proof.
  intros He Hr. unfold rdbLoadLen. destruct (read_byte d _ rest r Hr) as (r' & -> & Hr'). cbn [option_bind mbind]. rewrite le_val_1.
  assert (enc_head e = z2b (3 * 64 + e)) as Eh by (unfold enc_head; change (Z.shiftl REDIS_RDB_ENCVAL 6) with (Z.shiftl 3 6); by rewrite lor_add by lia).
  rewrite Eh in Hr' |- *. destruct (len_head 3 e ltac:(lia) ltac:(lia)) as [-> ->]. by exists r'.
Qed.

(** ** Integers *)

Definition int_tail (value : Z) : option (Z * list byte) :=
  if (- 128 <=? value) && (value <=? 127) then Some (REDIS_RDB_ENC_INT8, le_bytes 1 value)
  else if (- 32768 <=? value) && (value <=? 32767) then Some (REDIS_RDB_ENC_INT16, le_bytes 2 value)
  else if (- 2 ^ 31 <=? value) && (value <=? 2 ^ 31 - 1) then Some (REDIS_RDB_ENC_INT32, le_bytes 4 value)
  else None.

Lemma encode_integer value : rdbEncodeInteger value = match int_tail value with Some (e, bs) => enc_head e :: bs | None => [] end.
Proof.
  assert (forall k, 0 <= k -> z2b (Z.land (Z.shiftr value (8 * k)) 0xFF) = z2b (value / 256 ^ k)) as Hn.
  { intros k Hk. rewrite land_255, Z.shiftr_div_pow2 by lia. replace (2 ^ (8 * k)) with (256 ^ k) by (rewrite Z.pow_mul_r by lia; done).
    apply b2z_inj. by rewrite !b2z_z2b, Z.mod_mod. }
  unfold rdbEncodeInteger, int_tail. rewrite !Hn by lia.
  change (- Z.shiftl 1 7) with (-128). change (Z.shiftl 1 7 - 1) with 127. change (- Z.shiftl 1 15) with (-32768). change (Z.shiftl 1 15 - 1) with 32767.
  change (- Z.shiftl 1 31) with (- 2 ^ 31). change (Z.shiftl 1 31 - 1) with (2 ^ 31 - 1). cbn [le_bytes].
  rewrite !Z.div_div by lia. change (256 ^ 0) with 1. rewrite Z.div_1_r.
  destruct (_ && _); [done|]. destruct (_ && _); [done|]. by destruct (_ && _).
Qed.

Lemma int_tail_some value e bs : int_tail value = Some (e, bs) ->
  - 2 ^ 31 <= value < 2 ^ 31 /\ bs <> [] /\
  (e = REDIS_RDB_ENC_INT8 /\ Z.of_nat (length bs) = 1 /\ s8 (le_val bs) = value \/
   e = REDIS_RDB_ENC_INT16 /\ Z.of_nat (length bs) = 2 /\ s16 (le_val bs) = value \/
   e = REDIS_RDB_ENC_INT32 /\ Z.of_nat (length bs) = 4 /\ s32 (le_val bs) = value).
Proof.
  unfold int_tail, s8, s16, s32. intros E.
  destruct ((- 128 <=? value) && (value <=? 127)) eqn:E1; [|destruct ((- 32768 <=? value) && (value <=? 32767)) eqn:E2;
    [|destruct ((- 2 ^ 31 <=? value) && (value <=? 2 ^ 31 - 1)) eqn:E3; [|done]]]; apply Some_inj, pair_equal_spec in E as [<- <-];
    (split; [lia|]); (split; [done|]); rewrite length_le_bytes, le_val_bytes.
  - left. split; [done|]. split; [done|]. change (256 ^ Z.of_nat 1) with (2 ^ 8). rewrite swrap_mod by lia. apply swrap_small; lia.
  - right; left. split; [done|]. split; [done|]. change (256 ^ Z.of_nat 2) with (2 ^ 16). rewrite swrap_mod by lia. apply swrap_small; lia.
  - right; right. split; [done|]. split; [done|]. change (256 ^ Z.of_nat 4) with (2 ^ 32). rewrite swrap_mod by lia. apply swrap_small; lia.
Qed.

(** ** Objects read back *)

(** A string object with content [c]; the shared integers keep their values. *)
Definition loads shared c (o : robj) shared' : Prop :=
  string_obj o /\ content o = c /\
  forall i, (fun o => (type o, encoding o, ptr o)) <$> shared' !! i = (fun o => (type o, encoding o, ptr o)) <$> shared !! i.

Lemma sdsfromlonglong_spec v : - 2 ^ 63 < v < 2 ^ 63 -> exists sh, sdsfromlonglong junk v = Some sh /\ sds_rep sh (print_int v).
Proof.
  intros Hv. unfold sdsfromlonglong. cbv zeta. destruct (ll2string_digits junk v Hv) as (pre & E & Hl).
  destruct (if v <? 0 then chk64 (- v) else Some v) as [z|]; [|done]. cbn [option_bind mbind] in *.
  destruct (ll2string_loop 32 (map junk (seq 0 32)) 31 z) as [[buf p]|]; [|done]. cbn [option_bind mbind] in *. rewrite E. clear E.
  cbn [option_bind mbind]. replace (32 - (Z.of_nat (length pre) - 1 + 1)) with (Z.of_nat (length (print_int v))) by lia.
  pose proof (mem_read_app pre (print_int v) [] (Z.of_nat (length pre) - 1 + 1) _ ltac:(lia) eq_refl) as Er. rewrite app_nil_r in Er. rewrite Er. cbn [option_bind mbind].
  destruct (newlen_spec junk (print_int v) []) as (sh & E & Hs & _); [unfold sds_limit; lia|]. rewrite app_nil_r in E. by exists sh.
Qed.

Lemma filled_content sh c : sds_rep sh c -> let o := createObject REDIS_STRING (PSds sh) in string_obj o /\ content o = c.
Proof.
  intros Hs o. split; [left; split; [done|]; split; [done|]; by exists sh, c|].
  unfold content, o. cbn [ptr createObject]. destruct Hs as [Hl _ _ (g & -> & _)]. by rewrite Hl, Nat2Z.id, take_app_length.
Qed.

Lemma from_longlong_spec shared v : shared_ok shared -> - 2 ^ 63 < v < 2 ^ 63 ->
  exists o shared', createStringObjectFromLongLong junk shared v = Some (o, shared') /\ loads shared (print_int v) o shared'.
Proof.
  intros Hsh Hv. unfold createStringObjectFromLongLong, loads. destruct ((0 <=? v) && (v <? REDIS_SHARED_INTEGERS)) eqn:Es.
  - unfold take_shared. destruct (Hsh v ltac:(lia)) as (n & Hn & Hnb). rewrite Hn. cbn [option_bind mbind]. unfold incrRefCount. cbn [refcount].
    rewrite chk32_ok by lia. cbn [option_bind mbind]. eexists _, _. split; [reflexivity|]. unfold set_refcount. cbn [type encoding ptr].
    split; [right; split; [done|]; split; [done|]; by exists v|]. split; [done|]. intros i. destruct (decide (i = Z.to_nat v)) as [->|Hi].
    + rewrite list_lookup_insert_eq by (by eapply lookup_lt_Some). by rewrite Hn.
    + by rewrite list_lookup_insert_ne.
  - rewrite (proj2 (andb_true_iff _ _)) by lia. rewrite s64_small by lia. eexists _, _. split; [reflexivity|].
    split; [right; split; [done|]; split; [done|]; by exists v|]. done.
Qed.

Lemma load_integer_spec d e bs rest r v shared encode : int_tail v = Some (e, bs) -> shared_ok shared -> rstate d (bs ++ rest) r ->
  exists o shared' r', rdbLoadIntegerObject junk r e encode shared = Some (Some o, shared', r') /\
    loads shared (print_int v) o shared' /\ rstate (d ++ bs) rest r'.
Proof.
  intros Hi Hsh Hr. destruct (int_tail_some v e bs Hi) as (Hv & Hne & He). unfold rdbLoadIntegerObject.
  destruct (stream_read_spec d bs rest r Hr Hne) as (r' & E & Hr').
  assert (exists o shared', (if encode then '(o, shared) ← createStringObjectFromLongLong junk shared v; Some (Some o, shared, r')
      else sh ← sdsfromlonglong junk v; Some (Some (createObject REDIS_STRING (PSds sh)), shared, r')) = Some (Some o, shared', r') /\
    loads shared (print_int v) o shared') as (o & shared' & Ho & Hl).
  { destruct encode.
    - destruct (from_longlong_spec shared v Hsh) as (o & shared' & -> & Hl); [lia|]. by exists o, shared'.
    - destruct (sdsfromlonglong_spec v) as (sh & -> & Hs); [lia|]. cbn [option_bind mbind]. eexists _, shared. split; [reflexivity|].
      destruct (filled_content sh _ Hs). by split_and!. }
  exists o, shared', r'. destruct He as [(-> & Hlen & Ev)|[(-> & Hlen & Ev)|(-> & Hlen & Ev)]];
    (cbn [Z.eqb Pos.eqb REDIS_RDB_ENC_INT8 REDIS_RDB_ENC_INT16 REDIS_RDB_ENC_INT32 negb orb]; rewrite Hlen in E; cbn -[rioRead createStringObjectFromLongLong sdsfromlonglong le_val s8 s16 s32];
     rewrite E; cbn [option_bind mbind]; rewrite Ev; done).
Qed.

(** ** Strings *)

(** The ways a string may be stored. *)
Inductive encodes c : list byte -> Prop :=
| EncInt v e bs : c = print_int v -> int_tail v = Some (e, bs) -> encodes c (enc_head e :: bs)
| EncLzf ts : ts <> [] -> Forall tok_ok ts -> expand ts [] = Some c -> Z.of_nat (length (ser ts)) <= Z.of_nat (length c) ->
    encodes c (enc_head REDIS_RDB_ENC_LZF :: enc_len (Z.of_nat (length (ser ts))) ++ enc_len (Z.of_nat (length c)) ++ ser ts)
| EncPlain : encodes c (enc_len (Z.of_nat (length c)) ++ c).

Lemma newlen_null len : 0 <= len < sds_limit -> sdsnewlen junk None len = Some (Sdshdr len 0 (replicate (Z.to_nat len) (z2b 0) ++ [z2b 0])).
Proof.
  unfold sds_limit. intros Hl. unfold sdsnewlen, sizeof_sdshdr. rewrite u64_small by lia. cbn [option_bind mbind].
  replace (Z.to_nat (8 + len + 1 - 8)) with (Z.to_nat len + 1)%nat by lia. rewrite replicate_add. cbn [replicate]. unfold put.
  pose proof (put_spec (replicate (Z.to_nat len) (z2b 0)) (z2b 0) [] 0) as E. unfold put in E. rewrite length_replicate, Z2Nat.id in E by lia. rewrite E.
  cbn [option_bind mbind]. by rewrite s32_small by lia.
Qed.

Lemma filled_raw c : Z.of_nat (length c) < sds_limit -> sds_rep (Sdshdr (Z.of_nat (length c)) 0 (c ++ [z2b 0])) c.
Proof. unfold sds_limit. intros Hl. apply (rep_mk c []); [done|done|lia]. Qed.

Lemma load_lzf_spec d ts c rest r : ts <> [] -> Forall tok_ok ts -> expand ts [] = Some c -> Z.of_nat (length (ser ts)) <= Z.of_nat (length c) ->
  Z.of_nat (length c) < sds_limit -> let enc := enc_len (Z.of_nat (length (ser ts))) ++ enc_len (Z.of_nat (length c)) ++ ser ts in
  rstate d (enc ++ rest) r ->
  exists o r', rdbLoadLzfStringObject junk be r = Some (Some o, r') /\ string_obj o /\ content o = c /\ rstate (d ++ enc) rest r'.
Proof.
  intros Hne Hok Hexp Hlen Hc enc Hr. unfold enc in *. rewrite <-!app_assoc in Hr. unfold sds_limit in Hc. unfold rdbLoadLzfStringObject.
  destruct (load_len_spec d (Z.of_nat (length (ser ts))) _ r ltac:(lia) Hr) as (r1 & -> & Hr1). cbn [option_bind mbind].
  rewrite (proj2 (Z.eqb_neq _ _)) by (unfold REDIS_RDB_LENERR; lia).
  destruct (load_len_spec _ (Z.of_nat (length c)) _ r1 ltac:(lia) Hr1) as (r2 & -> & Hr2). cbn [option_bind mbind].
  rewrite (proj2 (Z.eqb_neq _ _)) by (unfold REDIS_RDB_LENERR; lia). rewrite newlen_null by (unfold sds_limit; lia). cbn [option_bind mbind sh_buf sh_len sh_free].
  assert (0 < length (ser ts))%nat as Hpos.
  { destruct ts as [|t ts']; [done|]. change (ser (t :: ts')) with (ser_tok t ++ ser ts'). rewrite length_app. pose proof (ser_tok_pos t). lia. }
  destruct (stream_read_spec _ (ser ts) rest r2 Hr2) as (r3 & -> & Hr3); [intros E; rewrite E in Hpos; cbn in Hpos; lia|]. cbn [option_bind mbind].
  set (buf := replicate (Z.to_nat (Z.of_nat (length c))) (z2b 0) ++ [z2b 0]).
  assert (length buf = length c + 1)%nat as Hbuf by (unfold buf; rewrite length_app, length_replicate; cbn; lia).
  pose proof (decomp_tokens ts (Datatypes.S (length (ser ts))) [] c [] buf (Z.of_nat (length c)) 0 0 Hne Hok Hexp eq_refl eq_refl) as Hd.
  cbn [app length] in Hd. unfold lzf_decompress. rewrite Nat2Z.id, Hd by lia. cbn [option_bind mbind].
  assert (0 < length c)%nat by lia. rewrite (proj2 (Z.eqb_neq _ 0)) by lia.
  assert (drop (length c - 0) buf = [z2b 0]) as ->.
  { rewrite Nat.sub_0_r. unfold buf. rewrite drop_app_length'; [done|]. rewrite length_replicate. lia. }
  eexists _, r3. split; [reflexivity|]. destruct (filled_content _ c (filled_raw c Hc)). split; [done|]. split; [done|]. by rewrite <-!app_assoc in Hr3.
Qed.

Lemma load_string_spec d c enc rest r shared encode : encodes c enc -> Z.of_nat (length c) < sds_limit -> shared_ok shared -> rstate d (enc ++ rest) r ->
  exists o shared' r', rdbGenericLoadStringObject junk be r encode shared = Some (Some o, shared', r') /\ loads shared c o shared' /\ rstate (d ++ enc) rest r'.
Proof.
  intros He Hc Hsh Hr. pose proof Hc as Hc'. unfold sds_limit in Hc'. unfold rdbGenericLoadStringObject. destruct He as [v e bs -> Hi|ts Hne Hok Hexp Hlen|].
  - destruct (int_tail_some v e bs Hi) as (_ & _ & He).
    destruct (load_enc_spec d e (bs ++ rest) r) as (r1 & -> & Hr1); [destruct He as [(-> & _)|[(-> & _)|(-> & _)]]; done|exact Hr|]. cbn [option_bind mbind].
    assert ((e =? REDIS_RDB_ENC_INT8) || (e =? REDIS_RDB_ENC_INT16) || (e =? REDIS_RDB_ENC_INT32) = true) as -> by (by destruct He as [(-> & _)|[(-> & _)|(-> & _)]]).
    destruct (load_integer_spec _ e bs rest r1 v shared encode Hi Hsh Hr1) as (o & shared' & r' & -> & Hl & Hr'). exists o, shared', r'. by rewrite <-app_assoc in Hr'.
  - destruct (load_enc_spec d REDIS_RDB_ENC_LZF _ r ltac:(done) Hr) as (r1 & -> & Hr1). cbn [option_bind mbind].
    destruct (load_lzf_spec _ ts c rest r1 Hne Hok Hexp Hlen Hc Hr1) as (o & r' & E & Ho & Ec & Hr'). cbn [Z.eqb Pos.eqb REDIS_RDB_ENC_LZF REDIS_RDB_ENC_INT8 REDIS_RDB_ENC_INT16 REDIS_RDB_ENC_INT32 orb].
    rewrite E. cbn [option_bind mbind]. exists o, shared, r'. split; [done|]. split; [done|]. by rewrite <-app_assoc in Hr'.
  - rewrite <-app_assoc in Hr. destruct (load_len_spec d (Z.of_nat (length c)) _ r ltac:(lia) Hr) as (r1 & -> & Hr1). cbn [option_bind mbind].
    rewrite (proj2 (Z.eqb_neq _ _)) by (unfold REDIS_RDB_LENERR; lia). rewrite newlen_null by lia. cbn [option_bind mbind sh_buf sh_len sh_free].
    destruct (filled_content _ c (filled_raw c Hc)) as [Ho Ec].
    destruct (Z.eqb_spec (Z.of_nat (length c)) 0) as [E0|E0].
    + destruct c; [|done]. eexists _, shared, r1. split; [reflexivity|]. split; [done|]. by rewrite app_nil_r.
    + destruct (stream_read_spec _ c rest r1 Hr1) as (r2 & -> & Hr2); [by intros ->|]. cbn [option_bind mbind].
      pose proof (mem_write_app [] (replicate (Z.to_nat (Z.of_nat (length c))) (z2b 0)) [z2b 0] 0 c eq_refl) as Ew. cbn [app] in Ew. rewrite Ew by (rewrite length_replicate; lia).
      cbn [option_bind mbind]. eexists _, shared, r2. split; [reflexivity|]. split; [done|]. by rewrite <-app_assoc in Hr2.
Qed.

(** [n] more bytes were written: [enc]. *)
Definition saved w n enc (res : option (Z * option (rio S))) : Prop :=
  exists r', res = Some (Z.of_nat (length enc), Some r') /\ wstate (w ++ enc) (n - Z.of_nat (length enc)) r'.

Lemma dec_digits_bound m g : forall v, 0 <= v -> 0 <= dec_digits (m ++ z2b 0 :: g) v < (v + 1) * 10 ^ Z.of_nat (length m).
Proof.
  induction m as [|b m IH]; intros v Hv; cbn [app dec_digits length].
  - change (isdigit (b2z (z2b 0))) with false. cbv iota. change (10 ^ Z.of_nat 0) with 1. lia.
  - rewrite Nat2Z.inj_succ, Z.pow_succ_r by lia. pose proof (Z.pow_pos_nonneg 10 (Z.of_nat (length m)) ltac:(lia) ltac:(lia)) as Hp.
    destruct (isdigit (b2z b)) eqn:Ed; [|nia]. unfold isdigit in Ed. destruct (IH (10 * v + (b2z b - 48)) ltac:(lia)). split; [done|]. nia.
Qed.

Lemma skip_space_nul m g : exists m', skip_space (m ++ z2b 0 :: g) = m' ++ z2b 0 :: g /\ (length m' <= length m)%nat.
Proof.
  induction m as [|b m (m' & E & Hl)]; [by exists []|]. cbn [app skip_space]. destruct (isspace (b2z b)); [exists m'; cbn; split; [done|lia]|by exists (b :: m)].
Qed.

(** [strtoll] on a string of few characters. *)
Lemma strtoll_small c g : exists v b t er, strtoll_end (c ++ z2b 0 :: g) = (v, b :: t, er) /\ - 10 ^ Z.of_nat (length c) < v < 10 ^ Z.of_nat (length c).
Proof.
  destruct (cstr_split c g) as [g' E]. destruct (strtoll_end_total (cstr c) g' (no_nul_cstr c)) as (v & b & t & er & Ev).
  rewrite <-E in Ev. exists v, b, t, er. split; [done|]. clear E.
  assert (forall (m : list byte) neg z, (length m <= length c)%nat -> 0 <= z < 10 ^ Z.of_nat (length m) ->
    - 10 ^ Z.of_nat (length c) < Z.max (- 2 ^ 63) (Z.min (2 ^ 63 - 1) (if neg : bool then - z else z)) < 10 ^ Z.of_nat (length c)) as Hfin.
  { intros m neg z Hm Hz. pose proof (Z.pow_le_mono_r 10 (Z.of_nat (length m)) (Z.of_nat (length c)) ltac:(lia) ltac:(lia)). destruct neg; lia. }
  pose proof (Z.pow_pos_nonneg 10 (Z.of_nat (length c)) ltac:(lia) ltac:(lia)) as Hpos. unfold strtoll_end in Ev.
  destruct (skip_space_nul c g) as (n1 & Es & Hn1). rewrite Es in Ev.
  assert (exists neg m, (length m <= length c)%nat /\ match n1 ++ z2b 0 :: g with
    | b :: t' => if b2z b =? 45 then (true, t') else if b2z b =? 43 then (false, t') else (false, n1 ++ z2b 0 :: g)
    | [] => (false, n1 ++ z2b 0 :: g) end = (neg, m ++ z2b 0 :: g)) as (neg & m & Hm & Em).
  { destruct n1 as [|x n1]; cbn [app]; [by exists false, []; split; [cbn; lia|]|]. cbn [length] in Hn1.
    destruct (b2z x =? 45); [by exists true, n1; split; [lia|]|]. destruct (b2z x =? 43); [by exists false, n1; split; [lia|]|]. by exists false, (x :: n1). }
  rewrite Em in Ev. pose proof (dec_digits_bound m g 0 ltac:(lia)) as Hd. rewrite Z.add_0_l, Z.mul_1_l in Hd.
  destruct (m ++ z2b 0 :: g) as [|x rest] eqn:Emg; [by destruct m|]. destruct (isdigit (b2z x)); injection Ev as <- _ _; [|lia]. by apply (Hfin m).
Qed.

Lemma try_integer_spec c g : Z.of_nat (length c) <= 11 ->
  exists enc, rdbTryIntegerEncoding junk (c ++ z2b 0 :: g) (Z.of_nat (length c)) = Some enc /\ (enc <> [] -> encodes c enc /\ Z.of_nat (length enc) <= 5).
Proof.
  intros Hc. unfold rdbTryIntegerEncoding. destruct (strtoll_small c g) as (v & b & t & er & -> & Hv).
  pose proof (Z.pow_le_mono_r 10 (Z.of_nat (length c)) 11 ltac:(lia) ltac:(lia)). rewrite rd_head. cbn [option_bind mbind].
  destruct (negb _); [by exists []|]. rewrite (ll2string_fits junk 32 v) by lia. cbn [option_bind mbind].
  pose proof (no_nul_print_int v ltac:(unfold int64; lia)) as Hn.
  assert (strlen (print_int v ++ [z2b 0]) = Z.of_nat (length (print_int v))) as -> by (unfold strlen; by rewrite (cstr_no_nul _ [] Hn)).
  destruct (Z.eqb_spec (Z.of_nat (length (print_int v))) (Z.of_nat (length c))) as [El|]; cbn [negb]; [|by exists []].
  pose proof (mem_read_app [] (print_int v) [z2b 0] 0 (Z.of_nat (length c)) eq_refl ltac:(lia)) as E1. cbn [app] in E1. rewrite E1. cbn [option_bind mbind].
  pose proof (mem_read_app [] c (z2b 0 :: g) 0 (Z.of_nat (length c)) eq_refl eq_refl) as E2. cbn [app] in E2. rewrite E2. cbn [option_bind mbind].
  pose proof (memcmp_eq (print_int v) c ltac:(lia)) as Hm. destruct (Z.eqb_spec (memcmp (print_int v) c) 0) as [E0|]; cbn [negb]; [|by exists []].
  exists (rdbEncodeInteger v). split; [done|]. intros Hne. rewrite encode_integer in *. destruct (int_tail v) as [[e bs]|] eqn:Hi; [|done].
  split; [apply (EncInt c v e bs); [symmetry; by apply Hm|done]|]. destruct (int_tail_some v e bs Hi) as (_ & _ & He). cbn [length]. lia.
Qed.

Lemma save_plain_spec w n r c g : wstate w n r -> Z.of_nat (length c) < sds_limit -> Z.of_nat (length c) + 5 <= n ->
  saved w n (enc_len (Z.of_nat (length c)) ++ c)
   ('(m, rdb) ← rdbSaveLen be (Some r) (u32 (Z.of_nat (length c)));
    if m =? -1 then Some (-1, rdb)
    else if 0 <? Z.of_nat (length c) then
      bs ← mem_read (c ++ z2b 0 :: g) 0 (Z.of_nat (length c));
      '(k, rdb) ← rdbWriteRaw rdb bs;
      if k =? -1 then Some (-1, rdb) else Some (s32 (u64 (m + Z.of_nat (length c))), rdb)
    else Some (m, rdb)).
Proof.
  unfold sds_limit, saved. intros Hw Hc Hn. rewrite u32_small by lia. pose proof (enc_len_size (Z.of_nat (length c))) as Hsz.
  destruct (save_len_spec w n r (Z.of_nat (length c)) Hw) as (r1 & -> & Hw1); [lia|lia|]. cbn [option_bind mbind].
  rewrite (proj2 (Z.eqb_neq _ (-1))) by lia. rewrite length_app. destruct (Z.ltb_spec 0 (Z.of_nat (length c))) as [Hpos|Hz].
  - pose proof (mem_read_app [] c (z2b 0 :: g) 0 (Z.of_nat (length c)) eq_refl eq_refl) as E2. cbn [app] in E2. rewrite E2. cbn [option_bind mbind].
    destruct (stream_write_spec _ _ r1 c Hw1) as (r2 & -> & Hw2); [lia|lia|]. cbn [option_bind mbind]. rewrite (proj2 (Z.eqb_neq _ (-1))) by lia.
    rewrite u64_small, s32_small by lia. exists r2. split; [do 2 f_equal; lia|]. rewrite <-app_assoc in Hw2.
    replace (n - Z.of_nat (length (enc_len (Z.of_nat (length c))) + length c)) with (n - Z.of_nat (length (enc_len (Z.of_nat (length c)))) - Z.of_nat (length c)) by lia. exact Hw2.
  - destruct c; [|cbn in Hz; lia]. exists r1. cbn [length]. rewrite app_nil_r, Nat.add_0_r. done.
Qed.

Lemma save_lzf_spec w n r c g : tab_ok table -> wstate w n r -> Z.of_nat (length c) < sds_limit -> Z.of_nat (length c) + 7 <= n -> 4 < Z.of_nat (length c) ->
  rdbSaveLzfStringObject junk be table (Some r) (c ++ z2b 0 :: g) (Z.of_nat (length c)) = Some (0, Some r) \/
  exists enc, encodes c enc /\ 0 < Z.of_nat (length enc) <= Z.of_nat (length c) + 7 /\
    saved w n enc (rdbSaveLzfStringObject junk be table (Some r) (c ++ z2b 0 :: g) (Z.of_nat (length c))).
Proof.
  unfold sds_limit. intros Ht Hw Hc Hn H4. unfold rdbSaveLzfStringObject. destruct (Z.leb_spec (Z.of_nat (length c)) 4); [lia|].
  pose proof (mem_read_app [] c (z2b 0 :: g) 0 (Z.of_nat (length c)) eq_refl eq_refl) as E2. cbn [app] in E2. rewrite E2. cbn [option_bind mbind].
  rewrite !u32_small by lia. set (cap := Z.of_nat (length c) - 4). set (out := map junk _).
  assert (Z.of_nat (length out) = cap + 1) as Hout by (unfold out; rewrite length_map, length_seq; lia).
  destruct (compress_spec c cap table out ltac:(lia) ltac:(lia) Hout Ht) as (k & out' & -> & Hlen & Hk & Hcase). cbn [option_bind mbind].
  destruct (Z.eqb_spec k 0) as [->|Hk0]; [by left|]. right. destruct Hcase as [?|(ts & rest & -> & -> & Hne & Hok & Hexp)]; [lia|].
  set (h := enc_head REDIS_RDB_ENC_LZF). fold h. set (z := ser ts) in *.
  pose proof (enc_len_size (Z.of_nat (length z))) as Hs1. pose proof (enc_len_size (Z.of_nat (length c))) as Hs2.
  exists (h :: enc_len (Z.of_nat (length z)) ++ enc_len (Z.of_nat (length c)) ++ z).
  assert (Z.of_nat (length (h :: enc_len (Z.of_nat (length z)) ++ enc_len (Z.of_nat (length c)) ++ z))
    = 1 + Z.of_nat (length (enc_len (Z.of_nat (length z)))) + Z.of_nat (length (enc_len (Z.of_nat (length c)))) + Z.of_nat (length z)) as El
    by (cbn [length]; rewrite !length_app; lia).
  split; [apply EncLzf; [done|done|done|fold z; lia]|]. split; [lia|]. unfold saved.
  destruct (stream_write_spec w n r [h] Hw) as (r1 & E & Hw1); [cbn; lia|cbn; lia|]. cbn [length] in E, Hw1. unfold h, enc_head in E. rewrite E. cbn [option_bind mbind].
  rewrite (proj2 (Z.eqb_neq _ (-1))) by lia. destruct (save_len_spec _ _ r1 (Z.of_nat (length z)) Hw1) as (r2 & -> & Hw2); [lia|lia|]. cbn [option_bind mbind].
  rewrite (proj2 (Z.eqb_neq _ (-1))) by lia. destruct (save_len_spec _ _ r2 (Z.of_nat (length c)) Hw2) as (r3 & -> & Hw3); [lia|lia|]. cbn [option_bind mbind].
  rewrite (proj2 (Z.eqb_neq _ (-1))) by lia.
  pose proof (mem_read_app [] z rest 0 (Z.of_nat (length z)) eq_refl eq_refl) as E3. cbn [app] in E3. rewrite E3. cbn [option_bind mbind].
  destruct (stream_write_spec _ _ r3 z Hw3) as (r4 & -> & Hw4); [lia|lia|]. cbn [option_bind mbind]. rewrite (proj2 (Z.eqb_neq _ (-1))) by lia.
  rewrite chk32_ok by lia. cbn [option_bind mbind]. exists r4. split; [do 2 f_equal; lia|]. rewrite <-!app_assoc in Hw4.
  replace (n - Z.of_nat (length (h :: _))) with (n - Z.of_nat 1 - Z.of_nat (length (enc_len (Z.of_nat (length z)))) - Z.of_nat (length (enc_len (Z.of_nat (length c)))) - Z.of_nat (length z)) by lia.
  exact Hw4.
Qed.

Lemma save_raw_spec compression w n r c g : tab_ok table -> wstate w n r -> Z.of_nat (length c) < sds_limit -> Z.of_nat (length c) + 7 <= n ->
  exists enc, encodes c enc /\ Z.of_nat (length enc) <= Z.of_nat (length c) + 7 /\
    saved w n enc (rdbSaveRawString junk be table compression (Some r) (c ++ z2b 0 :: g) (Z.of_nat (length c))).
Proof.
  intros Ht Hw Hc Hn. unfold rdbSaveRawString. pose proof (enc_len_size (Z.of_nat (length c))) as Hsz. unfold sds_limit in *.
  assert (exists enc, (if Z.of_nat (length c) <=? 11 then rdbTryIntegerEncoding junk (c ++ z2b 0 :: g) (Z.of_nat (length c)) else Some []) = Some enc /\
    (enc <> [] -> encodes c enc /\ Z.of_nat (length enc) <= 5)) as (enc & -> & Henc).
  { destruct (Z.leb_spec (Z.of_nat (length c)) 11); [by apply try_integer_spec|by exists []]. }
  cbn [option_bind mbind]. destruct (Z.ltb_spec 0 (Z.of_nat (length enc))) as [Hpos|Hz].
  { destruct Henc as [He H5]; [by intros ->|]. exists enc. split; [done|]. split; [lia|].
    destruct (stream_write_spec w n r enc Hw) as (r' & -> & Hw'); [lia|lia|]. cbn [option_bind mbind]. rewrite (proj2 (Z.eqb_neq _ (-1))) by lia. by exists r'. }
  pose proof (save_plain_spec w n r c g Hw Hc ltac:(lia)) as Hplain.
  destruct (compression && (20 <? Z.of_nat (length c))) eqn:Eb.
  - destruct (save_lzf_spec w n r c g Ht Hw Hc Hn ltac:(lia)) as [->|(e2 & He2 & Hl2 & (r' & -> & Hw'))]; cbn [option_bind mbind].
    + exists (enc_len (Z.of_nat (length c)) ++ c). split; [apply EncPlain|]. split; [rewrite length_app; lia|exact Hplain].
    + exists e2. split; [done|]. split; [lia|]. rewrite (proj2 (Z.eqb_neq _ (-1))) by lia. destruct (Z.ltb_spec 0 (Z.of_nat (length e2))); [|lia]. by exists r'.
  - cbn [option_bind mbind]. exists (enc_len (Z.of_nat (length c)) ++ c). split; [apply EncPlain|]. split; [rewrite length_app; lia|exact Hplain].
Qed.

Lemma save_longlong_spec w n r v : wstate w n r -> - 2 ^ 63 < v < 2 ^ 63 -> Z.of_nat (length (print_int v)) + 7 <= n ->
  exists enc, encodes (print_int v) enc /\ Z.of_nat (length enc) <= Z.of_nat (length (print_int v)) + 7 /\
    saved w n enc (rdbSaveLongLongAsStringObject junk be (Some r) v).
Proof.
  intros Hw Hv Hn. pose proof (length_print_int v ltac:(unfold int64; lia)) as Hl. unfold rdbSaveLongLongAsStringObject. rewrite encode_integer.
  destruct (int_tail v) as [[e bs]|] eqn:Hi.
  - destruct (int_tail_some v e bs Hi) as (_ & _ & He). exists (enc_head e :: bs). split; [by eapply EncInt|]. cbn [length]. split; [lia|].
    destruct (Z.ltb_spec 0 (Z.of_nat (Datatypes.S (length bs)))); [|lia]. destruct (stream_write_spec w n r (enc_head e :: bs) Hw) as (r' & -> & Hw'); [cbn [length]; lia|cbn [length]; lia|]. by exists r'.
  - cbn [length]. change (0 <? Z.of_nat 0) with false. cbv iota. rewrite (ll2string_fits junk 32 v Hv) by lia. cbn [option_bind mbind].
    destruct (Z.ltb_spec (Z.of_nat (length (print_int v))) 32); [|lia]. pose proof (enc_len_size (Z.of_nat (length (print_int v)))) as Hsz.
    exists (enc_len (Z.of_nat (length (print_int v))) ++ print_int v). split; [apply EncPlain|]. rewrite length_app. split; [lia|]. unfold saved.
    destruct (save_len_spec w n r (Z.of_nat (length (print_int v))) Hw) as (r1 & -> & Hw1); [lia|lia|]. cbn [option_bind mbind]. rewrite (proj2 (Z.eqb_neq _ (-1))) by lia.
    pose proof (mem_read_app [] (print_int v) [z2b 0] 0 _ eq_refl eq_refl) as E2. cbn [app] in E2. rewrite E2. cbn [option_bind mbind].
    destruct (stream_write_spec _ _ r1 (print_int v) Hw1) as (r2 & -> & Hw2); [lia|lia|]. cbn [option_bind mbind]. rewrite (proj2 (Z.eqb_neq _ (-1))) by lia.
    exists r2. rewrite length_app. split; [do 2 f_equal; lia|]. rewrite <-app_assoc in Hw2. rewrite Nat2Z.inj_add, Z.sub_add_distr. exact Hw2.
Qed.

Lemma save_object_spec compression w n r o : tab_ok table -> wstate w n r -> string_obj o -> Z.of_nat (length (content o)) < sds_limit ->
  Z.of_nat (length (content o)) + 7 <= n ->
  exists enc, encodes (content o) enc /\ Z.of_nat (length enc) <= Z.of_nat (length (content o)) + 7 /\
    saved w n enc (rdbSaveStringObject junk be table compression (Some r) o).
Proof.
  intros Ht Hw Ho Hc Hn. unfold rdbSaveStringObject. destruct Ho as [Ho|(_ & -> & v & Hp & Hv)].
  - destruct (raw_inv o Ho) as (sh & _ & -> & Hp & Hs). change (REDIS_ENCODING_RAW =? REDIS_ENCODING_INT) with false. change (REDIS_ENCODING_RAW =? REDIS_ENCODING_RAW) with true. cbv iota.
    unfold ptr_sds. rewrite Hp. cbn [option_bind mbind]. rewrite (rep_len_eq _ _ Hs). destruct (rep_buf _ _ Hs) as (g & -> & _). by apply save_raw_spec.
  - change (REDIS_ENCODING_INT =? REDIS_ENCODING_INT) with true. cbv iota. unfold ptr_long, content in *. rewrite Hp in *. cbn [option_bind mbind]. by apply save_longlong_spec.
Qed.
End Rdb.
