(* ===== verification/RdbSpec.v ===== *)
(** RdbSpec: what is saved to any stream is loaded from any other, a length
    cut short by a failing write is reported as saved, and DUMP payloads. *)
From S2P Require Import Prelude Endian Util UtilNum Crc64 Sds SdsProofs Elements Objects ObjectsSpec Lzf LzfProofs Rio Rdb RdbProofs.

(** ** Strings *)

(** C28: a string object, encoded or not, saved with compression or without to
    any stream that keeps its laws and has room, takes at most seven bytes
    more than its content; from any stream that gives these bytes, on a host
    of either byte order, [rdbGenericLoadStringObject] loads a string object
    with the same content, leaves the rest of the stream and the values of the
    shared integers alone, and both streams have followed the checksum of
    exactly these bytes. *)
Theorem rdb_string_roundtrip {S} `{RioLaws S} junk be table f c0 compression w n (r : rio S) o :
  additive f -> tab_ok table -> wstate f c0 w n r -> string_obj o ->
  Z.of_nat (length (content o)) < sds_limit -> Z.of_nat (length (content o)) + 7 <= n ->
  exists enc r', rdbSaveStringObject junk be table compression (Some r) o = Some (Z.of_nat (length enc), Some r') /\
    wstate f c0 (w ++ enc) (n - Z.of_nat (length enc)) r' /\ Z.of_nat (length enc) <= Z.of_nat (length (content o)) + 7 /\
    forall (T : Type) (methods : RioMethods T) (laws : RioLaws T) junk' be' g c1 d rest (q : rio T) encode shared,
      additive g -> shared_ok shared -> rstate g c1 d (enc ++ rest) q ->
      exists o' shared' q', rdbGenericLoadStringObject junk' be' q encode shared = Some (Some o', shared', q') /\
        loads shared (content o) o' shared' /\ rstate g c1 (d ++ enc) rest q'.
Proof.
  intros Hf Ht Hw Ho Hc Hn. destruct (save_object_spec junk be table f c0 Hf compression w n r o Ht Hw Ho Hc Hn) as (enc & He & Hl & (r' & E & Hw')).
  exists enc, r'. split; [done|]. split; [done|]. split; [done|]. intros T HT HL junk' be' g c1 d rest q encode shared Hg Hsh Hr.
  by apply (load_string_spec junk' be' g c1 Hg d (content o) enc rest q shared encode).
Qed.

(** Lengths take one byte below 2^6, two below 2^14 and five otherwise,
    and [rdbLoadLen] reads back the one saved, not encoded, and leaves the
    rest; the length 2^32 - 1 is the value it returns for an error. *)
Theorem rdb_len_roundtrip {S} `{RioLaws S} be f c0 w n (r : rio S) len :
  additive f -> wstate f c0 w n r -> 0 <= len < 2 ^ 32 -> 5 <= n ->
  exists enc r', rdbSaveLen be (Some r) len = Some (Z.of_nat (length enc), Some r') /\ wstate f c0 (w ++ enc) (n - Z.of_nat (length enc)) r' /\
    Z.of_nat (length enc) = (if len <? 2 ^ 6 then 1 else if len <? 2 ^ 14 then 2 else 5) /\
    (len = 2 ^ 32 - 1 -> len = REDIS_RDB_LENERR) /\
    forall (T : Type) (methods : RioMethods T) (laws : RioLaws T) be' g c1 d rest (q : rio T), additive g -> rstate g c1 d (enc ++ rest) q ->
      exists q', rdbLoadLen be' q = Some (len, false, q') /\ rstate g c1 (d ++ enc) rest q'.
Proof.
  intros Hf Hw Hl Hn. destruct (save_len_spec be f c0 Hf w n r len Hw Hl Hn) as (r' & E & Hw'). exists (enc_len len), r'.
  split; [done|]. split; [done|]. split; [|split; [by intros ->|]].
  - unfold enc_len. change (2 ^ 6) with 64. change (2 ^ 14) with 16384. destruct (len <? 64); [done|].
    destruct (len <? 16384); [done|]. cbn [length]. by rewrite length_rev, length_le_bytes.
  - intros T HT HL be' g c1 d rest q Hg Hr. by apply load_len_spec.
Qed.

(** ** A failing write *)

(** A length of five bytes whose second part cannot be written is reported
    as saved: [rdbSaveLen] compares the result of that write with -4, which
    it never is.  A shorter length that cannot be written is an error. *)
Theorem rdbSaveLen_hides_failure {S} `{RioMethods S} be (r : rio S) s1 s2 len :
  2 ^ 14 <= len < 2 ^ 32 ->
  r_write (io r) [z2b 128] = Some (true, s1) ->
  r_write s1 (host_store be 4 (htonl be len)) = Some (false, s2) ->
  (exists r', rdbSaveLen be (Some r) len = Some (5, Some r') /\ io r' = s2) /\
  forall len' bs s3, (0 <= len' < 2 ^ 6 /\ bs = [z2b len'] \/ 2 ^ 6 <= len' < 2 ^ 14 /\ bs = [z2b (64 + len' / 256); z2b len']) ->
    r_write (io r) bs = Some (false, s3) -> exists r', rdbSaveLen be (Some r) len' = Some (-1, Some r').
Proof.
  assert (forall (q : rio S) bs, io (update q bs) = io q) as Hio by (intros q bs; unfold update; by destruct (update_cksum q)).
  intros Hl H1 H2. split.
  - unfold rdbSaveLen. change (Z.shiftl 1 6) with 64. change (Z.shiftl 1 14) with 16384. change (Z.shiftl REDIS_RDB_32BITLEN 6) with 128.
    destruct (Z.ltb_spec len 64); [lia|]. destruct (Z.ltb_spec len 16384); [lia|].
    unfold rdbWriteRaw, rioWrite. rewrite Hio, H1. cbn [option_bind mbind]. change (s32 (Z.of_nat (length [z2b 128])) =? -1) with false. cbv iota.
    rewrite Hio. cbn [io with_io]. rewrite H2. cbn [option_bind mbind]. by eexists.
  - intros len' bs s3 Hcase H3. unfold rdbSaveLen. change (Z.shiftl 1 6) with 64. change (Z.shiftl 1 14) with 16384.
    unfold rdbWriteRaw, rioWrite. destruct Hcase as [[Hl' ->]|[Hl' ->]].
    + destruct (Z.ltb_spec len' 64); [|lia]. rewrite len6_head, Hio, H3 by lia. cbn [option_bind mbind]. by eexists.
    + destruct (Z.ltb_spec len' 64); [lia|]. destruct (Z.ltb_spec len' 16384); [|lia]. rewrite len14_head, z2b_low, Hio, H3 by lia. cbn [option_bind mbind]. by eexists.
Qed.

(** ** DUMP payloads *)

(** What a payload is checked for. *)
Lemma verify_payload be q foot : length foot = 8%nat -> (2 <= length q)%nat ->
  verifyDumpPayload be (q ++ foot) (Z.of_nat (length (q ++ foot)))
  = Some (if decide (drop (length q - 2) q = [z2b 6; z2b 0] /\ foot = le_bytes 8 (crc64 0 q)) then REDIS_OK else REDIS_ERR).
Proof.
  intros Hf Hq. unfold verifyDumpPayload. rewrite length_app, Hf. destruct (Z.ltb_spec (Z.of_nat (length q + 8)) 10); [lia|].
  assert (exists q0 a b, q = q0 ++ [a; b]) as (q0 & a & b & ->).
  { destruct q as [|b q _] using rev_ind; [cbn in Hq; lia|]. destruct q as [|a q _] using rev_ind; [cbn in Hq; lia|]. exists q, a, b. by rewrite <-app_assoc. }
  rewrite length_app in *. cbn [length] in *. replace (length q0 + 2 - 2)%nat with (length q0) by lia. rewrite drop_app_length.
  replace (Z.of_nat (length q0 + 2 + 8) - 10) with (Z.of_nat (length q0)) by lia.
  assert ((q0 ++ [a; b]) ++ foot = q0 ++ a :: b :: foot) as E0 by (by rewrite <-app_assoc).
  assert (getb ((q0 ++ [a; b]) ++ foot) (Z.of_nat (length q0) + 1) = Some (b2z b)) as ->.
  { rewrite E0. change (q0 ++ a :: b :: foot) with (q0 ++ [a] ++ b :: foot). rewrite (app_assoc q0). apply getb_app. rewrite length_app. cbn. lia. }
  cbn [option_bind mbind]. rewrite E0, getb_app by done. rewrite <-E0. cbn [option_bind mbind].
  pose proof (b2z_range a). pose proof (b2z_range b). rewrite lor_add by lia. change (2 ^ 8) with 256. rewrite u16_small by lia.
  destruct (Z.eqb_spec (b2z b * 256 + b2z a) REDIS_RDB_VERSION) as [Ev|Ev]; unfold REDIS_RDB_VERSION in Ev; cbn [negb].
  - assert (a = z2b 6 /\ b = z2b 0) as [-> ->] by (split; apply b2z_inj; rewrite b2z_z2b; [change (6 mod 256) with 6|change (0 mod 256) with 0]; lia).
    replace (Z.of_nat (length q0 + 2 + 8) - 8) with (Z.of_nat (length (q0 ++ [z2b 6; z2b 0]))) by (rewrite length_app; cbn [length]; lia).
    pose proof (mem_read_app [] (q0 ++ [z2b 6; z2b 0]) foot 0 _ eq_refl eq_refl) as E1. cbn [app] in E1. rewrite E1. cbn [option_bind mbind].
    pose proof (mem_read_app (q0 ++ [z2b 6; z2b 0]) foot [] (Z.of_nat (length q0) + 2) 8) as E2. rewrite app_nil_r in E2.
    rewrite E2 by (rewrite ?length_app; cbn [length]; lia). cbn [option_bind mbind]. rewrite store64_le. f_equal.
    pose proof (memcmp_eq (le_bytes 8 (crc64 0 (q0 ++ [z2b 6; z2b 0]))) foot ltac:(by rewrite length_le_bytes)) as Hm.
    destruct (Z.eqb_spec (memcmp (le_bytes 8 (crc64 0 (q0 ++ [z2b 6; z2b 0]))) foot) 0) as [E|E].
    + rewrite decide_True; [done|]. split; [done|]. symmetry. by apply Hm.
    + rewrite decide_False; [done|]. intros [_ ->]. by apply E, Hm.
  - rewrite decide_False; [done|]. intros [[= -> ->] _]. by apply Ev.
Qed.

Section Dump.
Context (junk : nat -> byte) (be : bool) (table : Z -> Z).
#[local] Hint Extern 0 (RioMethods rio_buffer) => exact (rioBufferIO junk) : typeclass_instances.
#[local] Hint Extern 0 (RioLaws rio_buffer) => exact (buffer_laws junk) : typeclass_instances.

Lemma sdsempty_ok : exists e, sdsempty junk = Some e /\ sds_rep e [].
Proof. destruct (newlen_spec junk [] [z2b 0]) as (s & E & Hs & _); [done|]. by exists s. Qed.

Lemma dump_spec compression o : tab_ok table -> string_obj o -> Z.of_nat (length (content o)) + 32 < sds_limit ->
  exists sh enc, createDumpPayload junk be table compression o = Some sh /\ encodes (content o) enc /\
    let body := z2b REDIS_RDB_TYPE_STRING :: enc ++ [z2b 6; z2b 0] in sds_rep sh (body ++ le_bytes 8 (crc64 0 body)).
Proof.
  intros Ht Ho Hc. assert (type o = REDIS_STRING) as Hto by (by apply string_obj_type). unfold createDumpPayload.
  destruct sdsempty_ok as (e & -> & He). cbn [option_bind mbind]. set (n := Z.of_nat (length (content o)) + 31).
  assert (wstate None 0 [] n (rioInitWithBuffer e)) as Hw.
  { split; [done|]. split; [|done]. change (buf_writing (RioBuffer e 0) [] n). unfold buf_writing, n, sds_limit in *. split; [done|]. cbn [length b_pos]. lia. }
  unfold rdbSaveObjectType. rewrite Hto. change (REDIS_STRING =? REDIS_STRING) with true. cbv iota. unfold rdbSaveType.
  destruct (stream_write_spec None 0 I [] n (rioInitWithBuffer e) [z2b REDIS_RDB_TYPE_STRING] Hw) as (r1 & -> & Hw1); [cbn; lia|cbn; lia|]. cbn [option_bind mbind length].
  change (Z.of_nat 1 =? 0) with false. cbv iota.
  destruct (save_object_spec junk be table None 0 I compression _ _ r1 o Ht Hw1 Ho) as (enc & Henc & Hl & (r2 & -> & Hw2)); [unfold sds_limit in *; lia|cbn; lia|].
  cbn [option_bind mbind]. assert (0 < Z.of_nat (length enc)) as Hpos.
  { destruct Henc as [v x bs _ _|ts _ _ _ _|]; cbn [length]; [lia|lia|]. rewrite length_app. pose proof (enc_len_size (Z.of_nat (length (content o)))). lia. }
  destruct (Z.eqb_spec (Z.of_nat (length enc)) 0); [lia|]. cbn [option_bind mbind].
  destruct Hw2 as (_ & (Hs & _) & _). cbn [app] in Hs. unfold sds_limit in *.
  destruct (catlen_spec junk (b_ptr (io r2)) _ [z2b 6; z2b 0] Hs) as (s3 & E3 & Hs3); [unfold sds_limit; cbn [length]; lia|].
  change (z2b (Z.land REDIS_RDB_VERSION 0xff)) with (z2b 6). change (z2b (Z.land (Z.shiftr REDIS_RDB_VERSION 8) 0xff)) with (z2b 0). rewrite E3.
  cbn [option_bind mbind]. rewrite (rep_read _ _ Hs3). cbn [option_bind mbind]. rewrite store64_le.
  destruct (catlen_spec junk s3 _ (le_bytes 8 (crc64 0 ((z2b REDIS_RDB_TYPE_STRING :: enc) ++ [z2b 6; z2b 0]))) Hs3) as (s4 & E4 & Hs4).
  { rewrite length_app, length_le_bytes. cbn [length]. unfold sds_limit. lia. }
  exists s4, enc. split; [exact E4|]. split; [done|]. exact Hs4.
Qed.

(** C29: the payload DUMP makes of a string passes the check of RESTORE, which
    reads from it the type and then a string object with the same content,
    leaving exactly the footer; on a host of either byte order. *)
Theorem dump_restore_string compression o be' shared :
  tab_ok table -> string_obj o -> Z.of_nat (length (content o)) + 32 < sds_limit -> shared_ok shared ->
  exists sh p, createDumpPayload junk be table compression o = Some sh /\ sds_rep sh p /\
    verifyDumpPayload be' p (Z.of_nat (length p)) = Some REDIS_OK /\
    exists r1 o' shared' r2, rdbLoadObjectType (rioInitWithBuffer sh) = Some (REDIS_RDB_TYPE_STRING, r1) /\
      rdbLoadEncodedStringObject junk be' r1 shared = Some (Some o', shared', r2) /\ loads shared (content o) o' shared' /\
      buf_reading (io r2) (drop (length p - 10) p).
Proof.
  intros Ht Ho Hc Hsh. destruct (dump_spec compression o Ht Ho Hc) as (sh & enc & E & Henc & Hs). cbv zeta in Hs.
  set (body := z2b REDIS_RDB_TYPE_STRING :: enc ++ [z2b 6; z2b 0]) in *. set (foot := le_bytes 8 (crc64 0 body)) in *.
  assert (length foot = 8%nat) as Hf by apply length_le_bytes.
  assert (length body = length enc + 3)%nat as Hb by (unfold body; cbn [length]; rewrite length_app; cbn; lia).
  exists sh, (body ++ foot). split; [done|]. split; [done|]. split.
  { rewrite (verify_payload be') by lia. rewrite decide_True; [done|]. split; [|done]. rewrite Hb. unfold body.
    replace (length enc + 3 - 2)%nat with (Datatypes.S (length enc)) by lia. cbn [drop]. by rewrite drop_app_length. }
  assert (rstate None 0 [] (z2b REDIS_RDB_TYPE_STRING :: enc ++ [z2b 6; z2b 0] ++ foot) (rioInitWithBuffer sh)) as Hr.
  { split; [done|]. split; [|done]. exists []. split; [|done]. assert (body ++ foot = z2b REDIS_RDB_TYPE_STRING :: enc ++ [z2b 6; z2b 0] ++ foot) as <- by (unfold body; cbn [app]; by rewrite <-app_assoc). exact Hs. }
  unfold rdbLoadObjectType, rdbLoadType. destruct (read_byte None 0 I [] _ _ _ Hr) as (r1 & -> & Hr1). cbn [option_bind mbind].
  change (le_val [z2b REDIS_RDB_TYPE_STRING]) with 0. change (0 =? -1) with false. change (rdbIsObjectType 0) with true. cbv iota. cbn [negb].
  destruct (load_string_spec junk be' None 0 I _ (content o) enc _ r1 shared true Henc ltac:(unfold sds_limit in *; lia) Hsh Hr1) as (o' & shared' & r2 & El & Hl & Hr2).
  exists r1, o', shared', r2. split; [done|]. split; [exact El|]. split; [done|]. destruct Hr2 as (_ & Hr2 & _).
  rewrite length_app, Hf, Hb. replace (length enc + 3 + 8 - 10)%nat with (length (z2b REDIS_RDB_TYPE_STRING :: enc)) by (cbn [length]; lia).
  assert (body ++ foot = (z2b REDIS_RDB_TYPE_STRING :: enc) ++ [z2b 6; z2b 0] ++ foot) as -> by (unfold body; cbn [app]; by rewrite <-app_assoc).
  by rewrite drop_app_length.
Qed.
End Dump.

(** C34: a payload that passes the check no longer does when at most eight
    consecutive bytes of it, the version among them or not, are changed in any
    way; nor does one whose version or checksum is. *)
Theorem verifyDumpPayload_detects be pre x y post foot foot' :
  (2 <= length (pre ++ x ++ post))%nat -> length foot = 8%nat -> length foot' = 8%nat ->
  length x = length y -> (length x <= 8)%nat ->
  let check p := verifyDumpPayload be p (Z.of_nat (length p)) in
  check ((pre ++ x ++ post) ++ foot) = Some REDIS_OK ->
  (check ((pre ++ y ++ post) ++ foot) = Some (if decide (x = y) then REDIS_OK else REDIS_ERR)) /\
  (check ((pre ++ x ++ post) ++ foot') = Some (if decide (foot = foot') then REDIS_OK else REDIS_ERR)).
Proof.
  intros Hq Hf Hf' Hl H8 check. unfold check. assert (length (pre ++ y ++ post) = length (pre ++ x ++ post)) as Hly by (rewrite !length_app; lia).
  rewrite !verify_payload by lia. destruct (decide (_ /\ foot = _)) as [[Hv Hfoot]|]; [|done]. intros _. split.
  - destruct (decide (x = y)) as [<-|Hne]; [by rewrite decide_True|]. rewrite decide_False; [done|]. intros [_ E]. apply Hne.
    apply (crc64_burst 0 pre x y post ltac:(lia) Hl H8). rewrite Hfoot in E. apply (f_equal le_val) in E. rewrite !le_val_bytes in E.
    change (256 ^ Z.of_nat 8) with (2 ^ 64) in E. by rewrite !Z.mod_small in E by (apply crc64_range; lia).
  - destruct (decide (foot = foot')) as [<-|Hne]; [by rewrite decide_True|]. rewrite decide_False; [done|]. intros [_ E]. apply Hne. congruence.
Qed.

(** ** Witnesses *)

Definition zero_junk (_ : nat) : byte := z2b 0.
Definition zero_table (_ : Z) : Z := 0.
Lemma zero_table_ok : tab_ok zero_table.
Proof. intros i. unfold zero_table. lia. Qed.

(** A buffer to read [bs] from, and one to write to. *)
Definition reader (bs : list byte) : rio rio_buffer :=
  Rio (Some rioGenericUpdateChecksum) 0 (RioBuffer (Sdshdr (Z.of_nat (length bs)) 0 (bs ++ [z2b 0])) 0).
Lemma reader_state rest : Z.of_nat (length rest) < 2 ^ 20 ->
  @rstate _ _ (buffer_laws zero_junk) (Some rioGenericUpdateChecksum) 0 [] rest (reader rest).
Proof.
  intros Hl. split; [done|]. split; [|done]. exists []. split; [|done]. cbn [app b_ptr io reader]. apply filled_raw. unfold sds_limit. lia.
Qed.
Lemma writer_state : @wstate _ _ (buffer_laws zero_junk) (Some rioGenericUpdateChecksum) 0 [] 1000 (reader []).
Proof.
  split; [done|]. split; [|done]. split; [cbn [b_ptr io reader app length]; by apply (filled_raw [])|]. unfold sds_limit. cbn [length b_pos io reader]. lia.
Qed.
Lemma crc_additive : additive (Some rioGenericUpdateChecksum).
Proof. intros c a b. symmetry. apply crc64_app. Qed.

Definition long_string : list byte := repeat (z2b 97) 40.
Lemma long_string_obj : string_obj (raw_of long_string).
Proof. left. by apply raw_of_ok. Qed.

Example rdb_string_roundtrip_witness : exists enc r' o' shared' q',
  @rdbSaveStringObject _ (rioBufferIO zero_junk) zero_junk false zero_table true (Some (reader [])) (raw_of long_string) = Some (Z.of_nat (length enc), Some r') /\
  @rdbGenericLoadStringObject _ (rioBufferIO zero_junk) zero_junk true (reader enc) false shared_init = Some (Some o', shared', q') /\
  content o' = long_string /\ cksum q' = crc64 0 enc.
Proof.
  destruct (@rdb_string_roundtrip _ _ (buffer_laws zero_junk) zero_junk false zero_table _ _ true [] 1000 (reader []) (raw_of long_string)
    crc_additive zero_table_ok writer_state long_string_obj ltac:(reflexivity) ltac:(vm_compute; discriminate)) as (enc & r' & E & _ & Hl & H).
  assert (Z.of_nat (length enc) <= 47) as Hl' by exact Hl.
  destruct (H _ _ (buffer_laws zero_junk) zero_junk true (Some rioGenericUpdateChecksum) 0 [] [] (reader enc) false shared_init crc_additive shared_init_ok)
    as (o' & shared' & q' & El & (_ & Hc & _) & (_ & _ & Hck)).
  { rewrite app_nil_r. apply reader_state. lia. }
  exists enc, r', o', shared', q'. split; [exact E|]. split; [exact El|]. split; [exact Hc|exact Hck].
Defined.

Example rdb_len_roundtrip_witness : exists enc r' q',
  @rdbSaveLen _ (rioBufferIO zero_junk) true (Some (reader [])) 70000 = Some (5, Some r') /\ length enc = 5%nat /\
  @rdbLoadLen _ (rioBufferIO zero_junk) false (reader enc) = Some (70000, false, q').
Proof.
  destruct (@rdb_len_roundtrip _ _ (buffer_laws zero_junk) true _ _ [] 1000 (reader []) 70000 crc_additive writer_state ltac:(lia) ltac:(lia)) as (enc & r' & E & _ & Hl & _ & H).
  change (if 70000 <? 2 ^ 6 then 1 else if 70000 <? 2 ^ 14 then 2 else 5) with 5 in Hl.
  destruct (H _ _ (buffer_laws zero_junk) false (Some rioGenericUpdateChecksum) 0 [] [] (reader enc) crc_additive) as (q' & Eq & _).
  { rewrite app_nil_r. apply reader_state. lia. }
  exists enc, r', q'. split; [rewrite Hl in E; exact E|]. split; [lia|exact Eq].
Defined.

(** A file on a disk with room for [Z] bytes. *)
Definition full_disk : RioMethods Z :=
  {| r_read := fun s _ => Some (None, s);
     r_write := fun s bs => Some (if Z.of_nat (length bs) <=? s then (true, s - Z.of_nat (length bs)) else (false, s));
     r_tell := fun s => 0 |}.

Example rdbSaveLen_hides_failure_witness :
  exists r', @rdbSaveLen Z full_disk false (Some (Rio None 0 1)) 100000 = Some (5, Some r') /\ io r' = 0.
Proof. by apply (proj1 (@rdbSaveLen_hides_failure Z full_disk false (Rio None 0 1) 0 0 100000 ltac:(lia) eq_refl eq_refl)). Defined.

Example dump_restore_string_witness : exists sh p,
  createDumpPayload zero_junk false zero_table true (raw_of long_string) = Some sh /\ verifyDumpPayload true p (Z.of_nat (length p)) = Some REDIS_OK /\
  sds_rep sh p.
Proof.
  destruct (dump_restore_string zero_junk false zero_table true (raw_of long_string) true shared_init zero_table_ok long_string_obj ltac:(reflexivity) shared_init_ok)
    as (sh & p & E & Hs & Hv & _). exists sh, p. split; [exact E|]. split; [exact Hv|exact Hs].
Defined.

Example verifyDumpPayload_detects_witness :
  let body := map z2b [0; 1; 55; 6; 0] in let p := body ++ le_bytes 8 (crc64 0 body) in
  verifyDumpPayload true p (Z.of_nat (length p)) = Some REDIS_OK /\
  verifyDumpPayload true (map z2b [0; 1; 56; 6; 0] ++ le_bytes 8 (crc64 0 body)) 13 = Some REDIS_ERR.
Proof.
  split; [by vm_compute|].
  destruct (verifyDumpPayload_detects true (map z2b [0; 1]) [z2b 55] [z2b 56] (map z2b [6; 0]) (le_bytes 8 (crc64 0 (map z2b [0; 1; 55; 6; 0]))) (map z2b [0; 0; 0; 0; 0; 0; 0; 0]))
    as [H _]; [cbn; lia|done|done|done|cbn; lia|by vm_compute|]. exact H.
Defined.

(** A compressed string of no bytes: the decompressor reads a byte before it
    tests for the end. *)
Lemma rdbLoadLzf_empty :
  @rdbLoadLzfStringObject _ (rioBufferIO zero_junk) zero_junk false (reader (map z2b [0; 5])) = None.
Proof. reflexivity. Qed.
