(* ===== verification/Skiplist.v ===== *)
(** Skiplist: the skip list of [t_zset.c] on an explicit heap of nodes, and the
    ranges of scores. *)
From Stdlib Require Export Floats.SpecFloat.
From S2P Require Import Prelude Elements.

(** A pointer to a node; [None] is the null pointer. *)
Abbreviation zptr := positive.

Definition ZSKIPLIST_MAXLEVEL : Z := 32.

(** A [double] is an IEEE 754 datum; it is only compared here. *)
Abbreviation double := spec_float.
Definition isnan (d : double) : bool := match d with S754_nan => true | _ => false end.

Record zskiplistLevel := ZLevel { forward : option zptr; span : Z }.

Record zrangespec := Zrangespec { min : double; max : double; minex : bool; maxex : bool }.

Section Skiplist.
(** [O] is the type of the objects; [D] the hash table view of the sorted
    set, of which only the call [dictDelete(dict, obj)] is used. *)
Context {O : Type} `{StringObjects O} {D : Type} (dictDelete : D -> O -> D).
(** The content of the memory of a new node. *)
Context (junk_level : zskiplistLevel) (junk_backward : option zptr).

Record zskiplistNode := ZNode {
  obj : option O; score : double; backward : option zptr; level : list zskiplistLevel }.

(** The nodes, and the objects [decrRefCount] was called on, last first. *)
Record zheap := Zheap { znodes : gmap zptr zskiplistNode; released : list O }.

Record zskiplist := Zskiplist {
  header : zptr; tail : option zptr; zlength : Z; zlevel : Z }.

Implicit Types (h : zheap) (zsl : zskiplist) (x p : zptr) (o : O).

(** *** Memory accesses *)

Definition znode h x : option zskiplistNode := znodes h !! x.
(** [x->level[i]] *)
Definition zlev h x (i : nat) : option zskiplistLevel := n ← znode h x; level n !! i.
Definition put_node h x (n : zskiplistNode) : zheap := Zheap (<[x := n]> (znodes h)) (released h).
Definition set_lev h x (i : nat) (l : zskiplistLevel) : option zheap :=
  n ← znode h x; _ ← level n !! i;
  Some (put_node h x (ZNode (obj n) (score n) (backward n) (<[i := l]> (level n)))).
Definition set_span h x i (s : Z) : option zheap := l ← zlev h x i; set_lev h x i (ZLevel (forward l) s).
Definition set_forward h x i (f : option zptr) : option zheap := l ← zlev h x i; set_lev h x i (ZLevel f (span l)).
Definition set_backward h x (b : option zptr) : option zheap :=
  n ← znode h x; Some (put_node h x (ZNode (obj n) (score n) b (level n))).
Definition zalloc h (n : zskiplistNode) : zptr * zheap :=
  let x := fresh (dom (znodes h)) in (x, put_node h x n).
Definition zfree h x : option zheap := _ ← znode h x; Some (Zheap (delete x (znodes h)) (released h)).

Definition set_ztail zsl t : zskiplist := Zskiplist (header zsl) t (zlength zsl) (zlevel zsl).
Definition set_zlength zsl n : zskiplist := Zskiplist (header zsl) (tail zsl) n (zlevel zsl).
Definition set_zlevel zsl l : zskiplist := Zskiplist (header zsl) (tail zsl) (zlength zsl) l.

(** *** Creation and release *)

Definition zslCreateNode h (lvl : Z) (sc : double) (o : option O) : zptr * zheap :=
  zalloc h (ZNode o sc junk_backward (replicate (Z.to_nat lvl) junk_level)).

Fixpoint create_loop (n : nat) h x (j : nat) : option zheap :=
  match n with
  | Datatypes.O => Some h
  | S n =>
    h ← set_forward h x j None;
    h ← set_span h x j 0;
    create_loop n h x (S j)
  end.

Definition zslCreate h : option (zskiplist * zheap) :=
  let '(x, h) := zslCreateNode h ZSKIPLIST_MAXLEVEL (S754_zero false) None in
  h ← create_loop (Z.to_nat ZSKIPLIST_MAXLEVEL) h x 0;
  h ← set_backward h x None;
  Some (Zskiplist x None 0 1, h).

Definition zslFreeNode h x : option zheap :=
  n ← znode h x;
  o ← obj n;
  zfree (Zheap (znodes h) (o :: released h)) x.

(** [while(node)] *)
Fixpoint free_loop (fuel : nat) h (node : option zptr) : option zheap :=
  match fuel with
  | Datatypes.O => None
  | S fuel =>
    match node with
    | None => Some h
    | Some x =>
      l ← zlev h x 0;
      h ← zslFreeNode h x;
      free_loop fuel h (forward l)
    end
  end.

Definition zslFree zsl h : option zheap :=
  l ← zlev h (header zsl) 0;
  h ← zfree h (header zsl);
  free_loop (Z.to_nat (zlength zsl) + 1) h (forward l).

(** [random i] is the i-th result of [random()]; the comparison with
    [0.25 * 0xFFFF] is exact. *)
Fixpoint random_level_loop (random : nat -> Z) (fuel i : nat) (lvl : Z) : option Z :=
  match fuel with
  | Datatypes.O => None
  | S fuel =>
    if 4 * Z.land (random i) 0xFFFF <? 0xFFFF then
      lvl ← chk32 (lvl + 1); random_level_loop random fuel (S i) lvl
    else Some lvl
  end.

Definition zslRandomLevel (random : nat -> Z) (fuel : nat) : option Z :=
  lvl ← random_level_loop random fuel 0 1;
  Some (if lvl <? ZSKIPLIST_MAXLEVEL then lvl else ZSKIPLIST_MAXLEVEL).

(** *** Walking forward

    The inner loop [while (x->level[i].forward && ...)]: [test] is the rest
    of the condition on the next node, and is given the sum of the spans up
    to it, computed in the type [wrap] of the accumulator. *)
Fixpoint walk (wrap : Z -> Z) (test : zskiplistNode -> Z -> option bool) (fuel : nat) h (i : nat) x (rank : Z)
    : option (zptr * Z) :=
  match fuel with
  | Datatypes.O => None
  | S fuel =>
    l ← zlev h x i;
    match forward l with
    | None => Some (x, rank)
    | Some f =>
      nf ← znode h f;
      b ← test nf (wrap (rank + span l));
      if b : bool then walk wrap test fuel h i f (wrap (rank + span l)) else Some (x, rank)
    end
  end.

(** The outer loop [for (i = level-1; i >= 0; i--)]: the node reached, its
    rank, and the arrays [update] and [rank]. *)
Fixpoint descend (wrap : Z -> Z) (test : zskiplistNode -> Z -> option bool) (fuel : nat) h (i : nat) x (rank : Z)
    : option (zptr * Z * list (zptr * Z)) :=
  match i with
  | Datatypes.O => Some (x, rank, [])
  | S i =>
    '(x, rank) ← walk wrap test fuel h i x rank;
    '(x', rank', update) ← descend wrap test fuel h i x rank;
    Some (x', rank', update ++ [(x, rank)])
  end.

Definition walk_fuel zsl : nat := Z.to_nat (zlength zsl) + 1.

Definition search wrap test zsl h : option (zptr * Z * list (zptr * Z)) :=
  descend wrap test (walk_fuel zsl) h (Z.to_nat (zlevel zsl)) (header zsl) 0.

(** [f->score < score || (f->score == score && compareStringObjects(f->obj,o) < 0)],
    or [<= 0]. *)
Definition before (or_equal : bool) (sc : double) (o : O) (f : zskiplistNode) (_ : Z) : option bool :=
  if SFltb (score f) sc then Some true
  else if SFeqb (score f) sc then
    fo ← obj f; c ← obj_compare fo o; Some (if or_equal then c <=? 0 else c <? 0)
  else Some false.

(** *** Insertion *)

(** [for (i = zsl->level; i < level; i++)] *)
Fixpoint grow_loop (n : nat) zsl h (i : nat) : option zheap :=
  match n with
  | Datatypes.O => Some h
  | S n => h ← set_span h (header zsl) i (u32 (zlength zsl)); grow_loop n zsl h (S i)
  end.

(** [for (i = 0; i < level; i++)]; [rank0] is [rank[0]]. *)
Fixpoint link_loop h x (rank0 : Z) (update : list (zptr * Z)) (i : nat) : option zheap :=
  match update with
  | [] => Some h
  | (u, r) :: update =>
    lu ← zlev h u i;
    h ← set_forward h x i (forward lu);
    h ← set_forward h u i (Some x);
    lu ← zlev h u i;
    h ← set_span h x i (u32 (span lu - u32 (rank0 - r)));
    h ← set_span h u i (u32 (u32 (rank0 - r) + 1));
    link_loop h x rank0 update (S i)
  end.

(** [for (i = level; i < zsl->level; i++)] *)
Fixpoint incr_loop h (update : list (zptr * Z)) (i : nat) : option zheap :=
  match update with
  | [] => Some h
  | (u, _) :: update => l ← zlev h u i; h ← set_span h u i (u32 (span l + 1)); incr_loop h update (S i)
  end.

(** [lvl] is the result of [zslRandomLevel()]. *)
Definition zslInsert zsl h (sc : double) (o : O) (lvl : Z) : option (zskiplist * zheap * zptr) :=
  if isnan sc then None
  else
    '(_, _, update) ← search u32 (before false sc o) zsl h;
    '(zsl, h, update) ←
      (if zlevel zsl <? lvl then
         let extra := Z.to_nat (lvl - zlevel zsl) in
         h ← grow_loop extra zsl h (Z.to_nat (zlevel zsl));
         Some (set_zlevel zsl lvl, h, update ++ replicate extra (header zsl, 0))
       else Some (zsl, h, update));
    let '(x, h) := zslCreateNode h lvl sc (Some o) in
    '(u0, rank0) ← update !! 0%nat;
    h ← link_loop h x rank0 (take (Z.to_nat lvl) update) 0;
    h ← incr_loop h (drop (Z.to_nat lvl) update) (Z.to_nat lvl);
    h ← set_backward h x (if decide (u0 = header zsl) then None else Some u0);
    l ← zlev h x 0;
    '(zsl, h) ← (match forward l with
                 | Some f => h ← set_backward h f (Some x); Some (zsl, h)
                 | None => Some (set_ztail zsl (Some x), h)
                 end);
    Some (set_zlength zsl (u64 (zlength zsl + 1)), h, x).

(** *** Deletion *)

Fixpoint unlink_loop h x (update : list (zptr * Z)) (i : nat) : option zheap :=
  match update with
  | [] => Some h
  | (u, _) :: update =>
    lu ← zlev h u i;
    h ← (if decide (forward lu = Some x) then
           lx ← zlev h x i;
           h ← set_span h u i (u32 (span lu + u32 (span lx - 1)));
           set_forward h u i (forward lx)
         else set_span h u i (u32 (span lu - 1)));
    unlink_loop h x update (S i)
  end.

(** [while(zsl->level > 1 && zsl->header->level[zsl->level-1].forward == NULL)] *)
Fixpoint lower_loop (fuel : nat) zsl h : option zskiplist :=
  match fuel with
  | Datatypes.O => None
  | S fuel =>
    if 1 <? zlevel zsl then
      l ← zlev h (header zsl) (Z.to_nat (zlevel zsl - 1));
      match forward l with
      | None => lower_loop fuel (set_zlevel zsl (zlevel zsl - 1)) h
      | Some _ => Some zsl
      end
    else Some zsl
  end.

Definition zslDeleteNode zsl h x (update : list (zptr * Z)) : option (zskiplist * zheap) :=
  h ← unlink_loop h x (take (Z.to_nat (zlevel zsl)) update) 0;
  n ← znode h x;
  l ← level n !! 0%nat;
  '(zsl, h) ← (match forward l with
               | Some f => h ← set_backward h f (backward n); Some (zsl, h)
               | None => Some (set_ztail zsl (backward n), h)
               end);
  zsl ← lower_loop (Z.to_nat (zlevel zsl) + 1) zsl h;
  Some (set_zlength zsl (u64 (zlength zsl - 1)), h).

(** Result [true] is 1. *)
Definition zslDelete zsl h (sc : double) (o : O) : option (zskiplist * zheap * bool) :=
  '(x, _, update) ← search u32 (before false sc o) zsl h;
  l ← zlev h x 0;
  match forward l with
  | None => Some (zsl, h, false)
  | Some x =>
    n ← znode h x;
    if SFeqb sc (score n) then
      xo ← obj n;
      e ← obj_equal xo o;
      if e : bool then
        '(zsl, h) ← zslDeleteNode zsl h x update;
        h ← zslFreeNode h x;
        Some (zsl, h, true)
      else Some (zsl, h, false)
    else Some (zsl, h, false)
  end.

(** *** Ranges of scores; [a > b] is [b < a] and [a >= b] is [b <= a] *)

Definition zslValueGteMin (value : double) (spec : zrangespec) : bool :=
  if minex spec then SFltb (min spec) value else SFleb (min spec) value.
Definition zslValueLteMax (value : double) (spec : zrangespec) : bool :=
  if maxex spec then SFltb value (max spec) else SFleb value (max spec).

Definition zslIsInRange zsl h (range : zrangespec) : option bool :=
  if SFltb (max range) (min range) || (SFeqb (min range) (max range) && (minex range || maxex range))
  then Some false
  else
    match tail zsl with
    | None => Some false
    | Some x =>
      n ← znode h x;
      if negb (zslValueGteMin (score n) range) then Some false
      else
        l ← zlev h (header zsl) 0;
        match forward l with
        | None => Some false
        | Some x => n ← znode h x; Some (zslValueLteMax (score n) range)
        end
    end.

Definition zslFirstInRange zsl h (range : zrangespec) : option (option zptr) :=
  r ← zslIsInRange zsl h range;
  if negb r then Some None
  else
    '(x, _, _) ← search u64 (fun f _ => Some (negb (zslValueGteMin (score f) range))) zsl h;
    l ← zlev h x 0;
    x ← forward l;
    n ← znode h x;
    if negb (zslValueLteMax (score n) range) then Some None else Some (Some x).

Definition zslLastInRange zsl h (range : zrangespec) : option (option zptr) :=
  r ← zslIsInRange zsl h range;
  if negb r then Some None
  else
    '(x, _, _) ← search u64 (fun f _ => Some (zslValueLteMax (score f) range)) zsl h;
    n ← znode h x;
    if negb (zslValueGteMin (score n) range) then Some None else Some (Some x).

(** *** Deletion of ranges: the hash table view is updated as well *)

(** [while (x && ...)]: [cond] is the rest of the condition, given the count of
    nodes traversed. *)
Fixpoint delete_loop (cond : zskiplistNode -> Z -> bool) (fuel : nat) zsl h (d : D) (x : option zptr)
    (update : list (zptr * Z)) (traversed removed : Z) : option (zskiplist * zheap * D * Z) :=
  match fuel with
  | Datatypes.O => None
  | S fuel =>
    match x with
    | None => Some (zsl, h, d, removed)
    | Some x =>
      n ← znode h x;
      if cond n traversed then
        l ← level n !! 0%nat;
        '(zsl, h) ← zslDeleteNode zsl h x update;
        o ← obj n;
        let d := dictDelete d o in
        h ← zslFreeNode h x;
        delete_loop cond fuel zsl h d (forward l) update (u64 (traversed + 1)) (u64 (removed + 1))
      else Some (zsl, h, d, removed)
    end
  end.

Definition zslDeleteRangeByScore zsl h (range : zrangespec) (d : D) : option (zskiplist * zheap * D * Z) :=
  '(x, _, update) ← search u64 (fun f _ => Some (if minex range then SFleb (score f) (min range)
                                                  else SFltb (score f) (min range))) zsl h;
  l ← zlev h x 0;
  delete_loop (fun n _ => if maxex range then SFltb (score n) (max range) else SFleb (score n) (max range))
    (walk_fuel zsl) zsl h d (forward l) update 0 0.

Definition zslDeleteRangeByRank zsl h (start end_ : Z) (d : D) : option (zskiplist * zheap * D * Z) :=
  '(x, traversed, update) ← search u64 (fun _ r => Some (r <? start)) zsl h;
  l ← zlev h x 0;
  delete_loop (fun _ traversed => traversed <=? end_)
    (walk_fuel zsl) zsl h d (forward l) update (u64 (traversed + 1)) 0.

(** *** Ranks *)

Fixpoint rank_loop (sc : double) (o : O) (fuel : nat) h (i : nat) x (rank : Z) : option Z :=
  match i with
  | Datatypes.O => Some 0
  | S i =>
    '(x, rank) ← walk u64 (before true sc o) fuel h i x rank;
    n ← znode h x;
    match obj n with
    | Some xo =>
      e ← obj_equal xo o;
      if e : bool then Some rank else rank_loop sc o fuel h i x rank
    | None => rank_loop sc o fuel h i x rank
    end
  end.

Definition zslGetRank zsl h (sc : double) (o : O) : option Z :=
  rank_loop sc o (walk_fuel zsl) h (Z.to_nat (zlevel zsl)) (header zsl) 0.

Fixpoint element_loop (rank : Z) (fuel : nat) h (i : nat) x (traversed : Z) : option (option zptr) :=
  match i with
  | Datatypes.O => Some None
  | S i =>
    '(x, traversed) ← walk u64 (fun _ t => Some (t <=? rank)) fuel h i x traversed;
    if traversed =? rank then Some (Some x) else element_loop rank fuel h i x traversed
  end.

Definition zslGetElementByRank zsl h (rank : Z) : option (option zptr) :=
  element_loop rank (walk_fuel zsl) h (Z.to_nat (zlevel zsl)) (header zsl) 0.
End Skiplist.

Arguments zskiplistNode : clear implicits.
Arguments zheap : clear implicits.
