(* ===== verification/SkiplistProofs.v ===== *)
(** SkiplistProofs: the links of a skip list as functions of the sequence of
    heights, which node each level points to and how insertion and deletion of
    one node change that; and the sequence a skip list on the heap represents,
    with what its searches find. *)
From S2P Require Import Prelude AdlistProofs Elements Skiplist.

(** A sequence of heights; position 0 is the header. *)
Implicit Types (hs : list nat) (i k m j : nat).

(** The height at position [k] is above level [i]. *)
Definition tall hs i k : Prop := exists hk, hs !! k = Some hk /\ (i < hk)%nat.

#[export] Instance tall_dec hs i k : Decision (tall hs i k).
Proof.
  unfold tall. destruct (hs !! k) as [hk|]; [|right; by intros (? & ? & _)].
  destruct (decide (i < hk)%nat); [left; by exists hk|right; by intros (? & [= <-] & ?)].
Defined.

(** The next position after [k] on level [i]. *)
Definition fwd hs i k : option nat := (fun '(j, _) => (S k + j)%nat) <$> list_find (fun hk => i < hk)%nat (drop (S k) hs).

(** The last position up to [m] on level [i]; the header is on every level. *)
Fixpoint prv hs i m : nat :=
  match m with
  | O => O
  | S m' => if decide (tall hs i m) then m else prv hs i m'
  end.

(** The distance covered by a link; to the last position if there is none. *)
Definition lspan hs i k : Z := Z.of_nat (default (length hs - 1)%nat (fwd hs i k)) - Z.of_nat k.

Lemma tall_lt hs i k : tall hs i k -> (k < length hs)%nat.
Proof. intros (hk & Hk & _). by eapply lookup_lt_Some. Qed.

Lemma fwd_Some hs i k j :
  fwd hs i k = Some j <-> (k < j)%nat /\ tall hs i j /\ forall t, (k < t < j)%nat -> ~ tall hs i t.
Proof.
  unfold fwd. rewrite fmap_Some. split.
  - intros ([r hk] & (Hr & Hk & Hmin)%list_find_Some & ->). rewrite lookup_drop in Hr.
    split; [lia|]. split; [by exists hk|]. intros t Ht (ht & Hlt & Hi).
    eapply (Hmin (t - S k)%nat ht); [rewrite lookup_drop; by replace (S k + (t - S k))%nat with t by lia|lia|done].
  - intros (Hkj & (hj & Hj & Hi) & Hmin). exists ((j - S k)%nat, hj). split; [|lia].
    apply list_find_Some. rewrite lookup_drop. replace (S k + (j - S k))%nat with j by lia.
    split; [done|]. split; [done|]. intros t ht Ht Hlt Hit. rewrite lookup_drop in Ht.
    apply (Hmin (S k + t)%nat); [lia|by exists ht].
Qed.

Lemma fwd_None hs i k : fwd hs i k = None <-> forall t, (k < t)%nat -> ~ tall hs i t.
Proof.
  unfold fwd. rewrite fmap_None, list_find_None, Forall_lookup. split.
  - intros Hno t Ht (ht & Hlt & Hi). apply (Hno (t - S k)%nat ht); [|done].
    rewrite lookup_drop. by replace (S k + (t - S k))%nat with t by lia.
  - intros Hno t ht Ht Hi. rewrite lookup_drop in Ht. apply (Hno (S k + t)%nat); [lia|by exists ht].
Qed.

(** One characterisation for both cases. *)
Definition is_fwd hs i k (r : option nat) : Prop :=
  match r with
  | Some j => (k < j)%nat /\ tall hs i j /\ forall t, (k < t < j)%nat -> ~ tall hs i t
  | None => forall t, (k < t)%nat -> ~ tall hs i t
  end.

Lemma fwd_iff hs i k r : fwd hs i k = r <-> is_fwd hs i k r.
Proof. destruct r; [apply fwd_Some|apply fwd_None]. Qed.

Lemma fwd_is hs i k : is_fwd hs i k (fwd hs i k).
Proof. by apply fwd_iff. Qed.

Lemma prv_spec hs i m k :
  tall hs i 0 -> prv hs i m = k <-> (k <= m)%nat /\ tall hs i k /\ forall t, (k < t <= m)%nat -> ~ tall hs i t.
Proof.
  intros H0. split.
  - revert k. induction m as [|m IH]; cbn [prv]; intros k.
    + intros <-. split; [done|]. split; [done|]. lia.
    + destruct (decide (tall hs i (S m))) as [Ht|Ht].
      * intros <-. split; [done|]. split; [done|]. lia.
      * intros Hk. destruct (IH k Hk) as (Hle & Htk & Hmax). split; [lia|]. split; [done|].
        intros t Hkt. destruct (decide (t = S m)) as [->|]; [done|]. apply Hmax. lia.
  - intros (Hle & Htk & Hmax). induction m as [|m IH]; cbn [prv]; [lia|].
    destruct (decide (tall hs i (S m))) as [Ht|Ht].
    + destruct (decide (k = S m)) as [->|Hne]; [done|]. exfalso. apply (Hmax (S m)); [lia|done].
    + destruct (decide (k = S m)) as [->|Hne]; [done|]. apply IH; [lia|]. intros t Hkt. apply Hmax. lia.
Qed.

Lemma prv_props hs i m :
  tall hs i 0 -> (prv hs i m <= m)%nat /\ tall hs i (prv hs i m) /\ forall t, (prv hs i m < t <= m)%nat -> ~ tall hs i t.
Proof. intros H0. by apply prv_spec. Qed.

(** A step forward from [k] either stays within [m] or [k] is [prv m]. *)
Lemma fwd_step hs i m k :
  tall hs i 0 -> tall hs i k -> (k <= m)%nat ->
  match fwd hs i k with
  | Some j => (k < j)%nat /\ tall hs i j /\ (j <= m \/ m < j /\ prv hs i m = k)%nat
  | None => prv hs i m = k
  end.
Proof.
  intros H0 Hk Hkm. destruct (fwd hs i k) as [j|] eqn:Hf.
  - apply fwd_Some in Hf as (Hkj & Hj & Hmin). split; [done|]. split; [done|].
    destruct (decide (j <= m)%nat); [by left|right]. split; [lia|]. apply prv_spec; [done|]. split; [done|]. split; [done|].
    intros t Ht. apply Hmin. lia.
  - rewrite fwd_None in Hf. apply prv_spec; [done|]. split; [done|]. split; [done|]. intros t Ht. apply Hf. lia.
Qed.

Lemma prv_fwd hs i m j :
  tall hs i 0 -> fwd hs i (prv hs i m) = Some j -> (m < j)%nat.
Proof.
  intros H0 Hf. destruct (prv_props hs i m H0) as (Hle & Htp & Hmax). apply fwd_Some in Hf as (Hlt & Hj & _).
  destruct (decide (m < j)%nat); [done|]. exfalso. apply (Hmax j); [lia|done].
Qed.

(** *** One more node, at position [S m], of height [lvl] *)

(** Where a position goes. *)
Definition shift m j : nat := if decide (j <= m)%nat then j else S j.

Lemma shift_inj m a b : shift m a = shift m b -> a = b.
Proof. unfold shift. destruct (decide _), (decide _); lia. Qed.
Lemma shift_le m j : (j <= m)%nat -> shift m j = j.
Proof. intros. unfold shift. by rewrite decide_True. Qed.
Lemma shift_gt m j : (m < j)%nat -> shift m j = S j.
Proof. intros. unfold shift. rewrite decide_False by lia. done. Qed.
Lemma shift_ne m j : shift m j <> S m.
Proof. unfold shift. destruct (decide _); lia. Qed.
Lemma shift_onto m t : t <> S m -> exists j, t = shift m j.
Proof.
  intros Ht. destruct (decide (t <= m)%nat); [exists t; by rewrite shift_le|].
  exists (t - 1)%nat. rewrite shift_gt by lia. lia.
Qed.
Lemma shift_lt m a b : (a < b)%nat <-> (shift m a < shift m b)%nat.
Proof. unfold shift. destruct (decide _), (decide _); lia. Qed.

Lemma ins_shift {A} m (x : A) (l : list A) j :
  (m < length l)%nat -> ins (S m) x l !! shift m j = l !! j.
Proof.
  intros Hm. unfold shift. destruct (decide (j <= m)%nat); [apply ins_lt; lia|apply ins_gt; lia].
Qed.

Section Insert.
Context (hs : list nat) (m lvl : nat) (Hm : (m < length hs)%nat).
Let hs' := ins (S m) lvl hs.

Lemma tall_shift i j : tall hs' i (shift m j) <-> tall hs i j.
Proof. unfold tall, hs'. by rewrite ins_shift. Qed.

Lemma tall_new i : tall hs' i (S m) <-> (i < lvl)%nat.
Proof.
  unfold tall, hs'. rewrite ins_eq by lia. split; [by intros (? & [= <-] & ?)|]. intros Hi. by exists lvl.
Qed.

(** The predecessor on a level of the new node points to it. *)
Lemma fwd_pred i : tall hs i 0 -> (i < lvl)%nat -> fwd hs' i (prv hs i m) = Some (S m).
Proof.
  intros H0 Hi. destruct (prv_props hs i m H0) as (Hle & Htp & Hmax). apply fwd_Some. split; [lia|].
  split; [by apply tall_new|]. intros t Ht Htall. apply (Hmax t); [lia|].
  rewrite <-tall_shift, shift_le by lia. done.
Qed.

Lemma fwd_new i : tall hs i 0 -> fwd hs' i (S m) = shift m <$> fwd hs i (prv hs i m).
Proof.
  intros H0. destruct (prv_props hs i m H0) as (Hle & Htp & Hmax). apply fwd_iff.
  destruct (fwd hs i (prv hs i m)) as [j|] eqn:Hf; cbn.
  - pose proof (prv_fwd hs i m j H0 Hf) as Hj. apply fwd_Some in Hf as (_ & Htj & Hmin). rewrite shift_gt by lia.
    split; [lia|]. split; [rewrite <-(shift_gt m) by lia; by apply tall_shift|].
    intros t Ht Htall. destruct (shift_onto m t) as [t0 ->]; [lia|]. apply tall_shift in Htall.
    destruct (decide (t0 <= m)%nat); [rewrite shift_le in Ht by lia; lia|]. rewrite shift_gt in Ht by lia.
    apply (Hmin t0); [lia|done].
  - rewrite fwd_None in Hf. intros t Ht Htall. destruct (shift_onto m t) as [t0 ->]; [lia|]. apply tall_shift in Htall.
    apply (Hf t0); [|done]. destruct (decide (t0 <= m)%nat); [rewrite shift_le in Ht by lia; lia|]. lia.
Qed.

(** Every other link goes where it went. *)
Lemma fwd_other i k :
  tall hs i 0 -> tall hs i k -> (k = prv hs i m -> lvl <= i)%nat ->
  fwd hs' i (shift m k) = shift m <$> fwd hs i k.
Proof.
  intros H0 Hk Hprv. destruct (prv_props hs i m H0) as (Hle & Htp & Hmax). apply fwd_iff.
  assert (forall t, t = S m -> (shift m k < t)%nat -> tall hs' i t -> (prv hs i m < S m)%nat /\ (k < prv hs i m)%nat \/ False) as Hnew.
  { intros t -> Hlt Ht. apply tall_new in Ht. left. split; [lia|].
    assert (k <= m)%nat as Hkm by (destruct (decide (k <= m)%nat); [done|rewrite shift_gt in Hlt by lia; lia]).
    destruct (Nat.lt_trichotomy k (prv hs i m)) as [|[->|Hgt]]; [done|lia|]. exfalso. apply (Hmax k); [lia|done]. }
  destruct (fwd hs i k) as [j|] eqn:Hf; cbn.
  - apply fwd_Some in Hf as (Hkj & Htj & Hmin). split; [by apply shift_lt|]. split; [by apply tall_shift|].
    intros t [Ht1 Ht2] Htall. destruct (decide (t = S m)) as [Et|Hne].
    + destruct (Hnew t Et Ht1 Htall) as [[_ Hkp]|[]]. subst t. 
      assert (j <= prv hs i m)%nat by (destruct (decide (j <= prv hs i m)%nat); [done|exfalso; apply (Hmin (prv hs i m)); [lia|done]]).
      rewrite shift_le in Ht2 by lia. lia.
    + destruct (shift_onto m t Hne) as [t0 ->]. apply tall_shift in Htall. apply (Hmin t0); [|done].
      by rewrite (shift_lt m k), (shift_lt m t0 j).
  - rewrite fwd_None in Hf. intros t Ht Htall. destruct (decide (t = S m)) as [Et|Hne].
    + destruct (Hnew t Et Ht Htall) as [[_ Hkp]|[]]. by apply (Hf (prv hs i m)).
    + destruct (shift_onto m t Hne) as [t0 ->]. apply tall_shift in Htall. apply (Hf t0); [|done]. by apply (shift_lt m).
Qed.

Lemma length_hs' : length hs' = S (length hs).
Proof. apply length_ins. lia. Qed.

(** *** Spans *)

Lemma lspan_pred i : tall hs i 0 -> (i < lvl)%nat -> lspan hs' i (prv hs i m) = Z.of_nat (S m) - Z.of_nat (prv hs i m).
Proof. intros H0 Hi. unfold lspan. by rewrite fwd_pred. Qed.

Lemma lspan_new i : tall hs i 0 ->
  lspan hs' i (S m) = lspan hs i (prv hs i m) - (Z.of_nat m - Z.of_nat (prv hs i m)).
Proof.
  intros H0. unfold lspan. rewrite fwd_new by done. destruct (fwd hs i (prv hs i m)) as [j|] eqn:Hf; cbn [fmap option_fmap option_map default from_option].
  - pose proof (prv_fwd hs i m j H0 Hf). rewrite shift_gt by lia. cbn. lia.
  - rewrite length_hs'. cbn. lia.
Qed.

(** The links over the new node are longer. *)
Lemma lspan_over i : tall hs i 0 -> (lvl <= i)%nat -> lspan hs' i (prv hs i m) = lspan hs i (prv hs i m) + 1.
Proof.
  intros H0 Hi. destruct (prv_props hs i m H0) as (Hle & Htp & Hmax).
  pose proof (fwd_other i (prv hs i m) H0 Htp (fun _ => Hi)) as E. rewrite shift_le in E by lia. unfold lspan. rewrite E.
  destruct (fwd hs i (prv hs i m)) as [j|] eqn:Hf; cbn [fmap option_fmap option_map default from_option].
  - pose proof (prv_fwd hs i m j H0 Hf). rewrite shift_gt by lia. cbn. lia.
  - rewrite length_hs'. cbn. lia.
Qed.

Lemma lspan_other i k : tall hs i 0 -> tall hs i k -> k <> prv hs i m -> lspan hs' i (shift m k) = lspan hs i k.
Proof.
  intros H0 Hk Hne. destruct (prv_props hs i m H0) as (Hle & Htp & Hmax). unfold lspan. rewrite fwd_other by done.
  destruct (decide (k <= m)%nat) as [Hkm|Hkm].
  - assert (k < prv hs i m)%nat.
    { destruct (Nat.lt_trichotomy k (prv hs i m)) as [|[?|Hgt]]; [done|done|]. exfalso. apply (Hmax k); [lia|done]. }
    rewrite (shift_le m k) by done. destruct (fwd hs i k) as [j|] eqn:Hf; cbn [fmap option_fmap option_map default from_option].
    + apply fwd_Some in Hf as (_ & _ & Hmin).
      assert (j <= prv hs i m)%nat by (destruct (decide (j <= prv hs i m)%nat); [done|exfalso; apply (Hmin (prv hs i m)); [lia|done]]).
      by rewrite shift_le by lia.
    + rewrite fwd_None in Hf. exfalso. by apply (Hf (prv hs i m)).
  - rewrite (shift_gt m k) by lia. destruct (fwd hs i k) as [j|] eqn:Hf; cbn [fmap option_fmap option_map default from_option].
    + apply fwd_Some in Hf as (? & _). rewrite shift_gt by lia. cbn. lia.
    + rewrite length_hs'. pose proof (tall_lt _ _ _ Hk). cbn. lia.
Qed.

(** Predecessors up to the position of the new node. *)
Lemma prv_ins i : tall hs i 0 -> prv hs' i m = prv hs i m.
Proof.
  intros H0. destruct (prv_props hs i m H0) as (Hle & Htp & Hmax).
  assert (forall t, (t <= m)%nat -> tall hs' i t <-> tall hs i t) as Hlow.
  { intros t Ht. rewrite <-tall_shift, shift_le by done. done. }
  apply prv_spec; [by apply Hlow; [lia|]|]. split; [done|]. split; [by apply Hlow|].
  intros t Ht Htall. apply (Hmax t); [done|]. apply Hlow; [lia|done].
Qed.
End Insert.

(** A skip list on the heap represents a sequence of elements;
    the searches find a position of it, and insertion and deletion keep the
    links. *)
Section Heap.
Context {O : Type}.
Implicit Types (h : zheap O) (x y p : zptr).

(** ** Memory *)

(** What a node holds besides its links. *)
Definition meta h x : option (option O * double * option zptr * nat) :=
  (fun n => (obj n, score n, backward n, length (level n))) <$> znode h x.

(** [h'] is [h] with [x->level[i]] set to [l]. *)
Definition updated h h' x i (l : zskiplistLevel) : Prop :=
  (forall y j, zlev h' y j = if decide (y = x /\ j = i) then Some l else zlev h y j) /\
  (forall y, meta h' y = meta h y) /\ (forall y, y <> x -> znode h' y = znode h y) /\ released h' = released h.

Lemma set_lev_spec h x i l l0 :
  zlev h x i = Some l0 -> exists h', set_lev h x i l = Some h' /\ updated h h' x i l.
Proof.
  unfold zlev, set_lev, znode. intros Hl. destruct (znodes h !! x) as [n|] eqn:Hn; [|done]. cbn [option_bind mbind] in *.
  rewrite Hl. cbn [option_bind mbind]. eexists. split; [reflexivity|]. unfold updated, zlev, meta, znode, put_node; cbn [znodes released].
  split; [|split; [|split; [|done]]].
  - intros y j. destruct (decide (y = x)) as [->|Hy].
    + rewrite lookup_insert_eq. cbn. rewrite Hn. cbn. destruct (decide (x = x /\ j = i)) as [[_ ->]|Hji].
      * apply list_lookup_insert_eq. by eapply lookup_lt_Some.
      * apply list_lookup_insert_ne. intros <-. by apply Hji.
    + rewrite lookup_insert_ne by done. rewrite decide_False; [done|]. by intros [? _].
  - intros y. destruct (decide (y = x)) as [->|Hy].
    + rewrite lookup_insert_eq, Hn. cbn. by rewrite length_insert.
    + by rewrite lookup_insert_ne by done.
  - intros y Hy. by rewrite lookup_insert_ne by done.
Qed.

Lemma set_span_spec h x i s f s0 :
  zlev h x i = Some (ZLevel f s0) -> exists h', set_span h x i s = Some h' /\ updated h h' x i (ZLevel f s).
Proof. intros Hl. unfold set_span. rewrite Hl. cbn [option_bind mbind forward]. by eapply set_lev_spec. Qed.

Lemma set_forward_spec h x i f f0 s :
  zlev h x i = Some (ZLevel f0 s) -> exists h', set_forward h x i f = Some h' /\ updated h h' x i (ZLevel f s).
Proof. intros Hl. unfold set_forward. rewrite Hl. cbn [option_bind mbind span]. by eapply set_lev_spec. Qed.

(** [h'] is [h] with [x->backward] set. *)
Lemma set_backward_spec h x b n :
  znode h x = Some n ->
  exists h', set_backward h x b = Some h' /\ (forall y j, zlev h' y j = zlev h y j) /\
    (forall y, meta h' y = if decide (y = x) then Some (obj n, score n, b, length (level n)) else meta h y) /\
    (forall y, y <> x -> znode h' y = znode h y) /\ released h' = released h.
Proof.
  unfold set_backward, znode. intros Hn. rewrite Hn. cbn [option_bind mbind]. eexists. split; [reflexivity|].
  unfold zlev, meta, znode, put_node; cbn [znodes released]. split; [|split; [|split; [|done]]].
  - intros y j. destruct (decide (y = x)) as [->|Hy]; [by rewrite lookup_insert_eq, Hn|by rewrite lookup_insert_ne by done].
  - intros y. destruct (decide (y = x)) as [->|Hy]; [by rewrite lookup_insert_eq|by rewrite lookup_insert_ne by done].
  - intros y Hy. by rewrite lookup_insert_ne by done.
Qed.

Lemma meta_node h x o sc b n : meta h x = Some (o, sc, b, n) -> exists nd, znode h x = Some nd /\
  obj nd = o /\ score nd = sc /\ backward nd = b /\ length (level nd) = n.
Proof. unfold meta. intros (nd & Hn & [= -> -> -> ->])%fmap_Some. by exists nd. Qed.

(** ** The represented sequence *)

Implicit Types (ps : list zptr) (es : list (double * O)) (L : nat).

Definition zback ps k : option zptr := match k with S (S j) => ps !! S j | _ => None end.

(** Position 0 of [ps] is the header, [L] the number of levels in use. *)
Record zrep h L ps hs es : Prop := Zrep {
  zr_nodup : NoDup ps;
  zr_length_hs : length hs = length ps;
  zr_length_es : length ps = S (length es);
  zr_bound : Z.of_nat (length es) < 2 ^ 32 - 1;
  zr_height0 : hs !! 0%nat = Some 32%nat;
  zr_heights k hk : hs !! S k = Some hk -> (0 < hk <= L)%nat;
  zr_levels : (0 < L <= 32)%nat;
  zr_header p : ps !! 0%nat = Some p -> exists sc, meta h p = Some (None, sc, None, 32%nat);
  zr_meta k p sc o hk : ps !! S k = Some p -> es !! k = Some (sc, o) -> hs !! S k = Some hk ->
    meta h p = Some (Some o, sc, zback ps (S k), hk);
  zr_link k p i : ps !! k = Some p -> tall hs i k -> (i < L)%nat ->
    zlev h p i = Some (ZLevel (fwd hs i k ≫= (fun j => ps !! j)) (lspan hs i k));
  zr_top p i : ps !! 0%nat = Some p -> (L <= i < 32)%nat -> exists s, zlev h p i = Some (ZLevel None s) }.

Lemma zrep_tall0 h L ps hs es i : zrep h L ps hs es -> (i < L)%nat -> tall hs i 0.
Proof. intros H Hi. exists 32%nat. split; [apply (zr_height0 _ _ _ _ _ H)|]. pose proof (zr_levels _ _ _ _ _ H). lia. Qed.

Lemma zrep_elem h L ps hs es k :
  zrep h L ps hs es -> (k < length es)%nat ->
  exists p sc o hk n, ps !! S k = Some p /\ es !! k = Some (sc, o) /\ hs !! S k = Some hk /\ znode h p = Some n /\
    obj n = Some o /\ score n = sc /\ backward n = zback ps (S k) /\ length (level n) = hk.
Proof.
  intros H Hk. pose proof (zr_length_hs _ _ _ _ _ H). pose proof (zr_length_es _ _ _ _ _ H).
  destruct (lookup_lt_is_Some_2 ps (S k)) as [p Hp]; [lia|]. destruct (lookup_lt_is_Some_2 hs (S k)) as [hk Hhk]; [lia|].
  destruct (lookup_lt_is_Some_2 es k) as [[sc o] He]; [lia|].
  destruct (meta_node _ _ _ _ _ _ (zr_meta _ _ _ _ _ H k p sc o hk Hp He Hhk)) as (n & ? & ? & ? & ? & ?).
  exists p, sc, o, hk, n. done.
Qed.

Lemma lspan_fwd hs i k j : fwd hs i k = Some j -> lspan hs i k = Z.of_nat j - Z.of_nat k.
Proof. unfold lspan. by intros ->. Qed.

Lemma tall_mono hs i j k : tall hs i k -> (j <= i)%nat -> tall hs j k.
Proof. intros (hk & ? & ?) ?. exists hk. split; [done|lia]. Qed.

Lemma zrep_level0 h L ps hs es m : zrep h L ps hs es -> (m <= length es)%nat -> prv hs 0 m = m.
Proof.
  intros H Hm. pose proof (zr_levels _ _ _ _ _ H). destruct m as [|m]; [done|].
  cbn [prv]. rewrite decide_True; [done|]. destruct (lookup_lt_is_Some_2 hs (S m)) as [hk Hhk].
  { rewrite (zr_length_hs _ _ _ _ _ H), (zr_length_es _ _ _ _ _ H). lia. }
  exists hk. split; [done|]. by apply (zr_heights _ _ _ _ _ H m).
Qed.

(** ** Searches *)

(** The accumulator does not overflow. *)
Definition wraps (wrap : Z -> Z) : Prop := forall z, 0 <= z < 2 ^ 32 -> wrap z = z.

Lemma wraps_u32 : wraps u32.
Proof. intros z Hz. by apply u32_small. Qed.
Lemma wraps_u64 : wraps u64.
Proof. intros z Hz. apply u64_small. lia. Qed.

(** The test of a search for position [m] is true exactly up to it. *)
Definition tests h ps (test : zskiplistNode O -> Z -> option bool) m : Prop :=
  forall j p n, ps !! S j = Some p -> znode h p = Some n -> test n (Z.of_nat (S j)) = Some (bool_decide (S j <= m)%nat).

Lemma walk_spec wrap test h L ps hs es m i fuel : forall k x,
  zrep h L ps hs es -> wraps wrap -> tests h ps test m -> (m <= length es)%nat -> (i < L)%nat ->
  ps !! k = Some x -> tall hs i k -> (k <= m)%nat -> (m - k < fuel)%nat ->
  exists p, ps !! prv hs i m = Some p /\ walk wrap test fuel h i x (Z.of_nat k) = Some (p, Z.of_nat (prv hs i m)).
Proof.
  induction fuel as [|fuel IH]; intros k x H Hw Ht Hm Hi Hx Hk Hkm Hf; [lia|]. cbn [walk].
  rewrite (zr_link _ _ _ _ _ H k x i Hx Hk Hi). cbn [option_bind mbind forward span].
  pose proof (zrep_tall0 _ _ _ _ _ i H Hi) as H0. pose proof (fwd_step hs i m k H0 Hk Hkm) as Hstep.
  destruct (fwd hs i k) as [j|] eqn:Hfw; cbn [option_bind mbind].
  2:{ exists x. by rewrite Hstep. }
  destruct Hstep as (Hkj & Hj & Hcase). destruct j as [|j]; [lia|].
  pose proof (tall_lt _ _ _ Hj) as Hjl. pose proof (zr_length_hs _ _ _ _ _ H). pose proof (zr_length_es _ _ _ _ _ H).
  destruct (zrep_elem _ _ _ _ _ j H) as (p & sc & o & hk & n & Hp & _ & _ & Hn & _); [lia|].
  rewrite Hp. cbn [option_bind mbind]. rewrite Hn. cbn [option_bind mbind]. rewrite (lspan_fwd _ _ _ _ Hfw).
  pose proof (zr_bound _ _ _ _ _ H). rewrite !Hw by lia. replace (Z.of_nat k + (Z.of_nat (S j) - Z.of_nat k)) with (Z.of_nat (S j)) by lia.
  rewrite (Ht j p n Hp Hn). cbn [option_bind mbind]. destruct Hcase as [Hle|[Hlt Hprv]].
  - rewrite bool_decide_eq_true_2 by done. apply IH; try done. lia.
  - rewrite bool_decide_eq_false_2 by lia. exists x. by rewrite Hprv.
Qed.

(** [update[j]] is the last node up to [m] on level [j], and its rank. *)
Definition updates ps hs m (us : list (zptr * Z)) i : Prop :=
  length us = i /\ forall j, (j < i)%nat -> exists p, us !! j = Some (p, Z.of_nat (prv hs j m)) /\ ps !! prv hs j m = Some p.

Lemma descend_spec wrap test h L ps hs es m fuel i : forall k x,
  zrep h L ps hs es -> wraps wrap -> tests h ps test m -> (m <= length es)%nat -> (m < fuel)%nat -> (i <= L)%nat ->
  ps !! k = Some x -> (k <= m)%nat -> (forall j, (j < i)%nat -> tall hs j k) -> (i = 0%nat -> k = m) ->
  exists p us, ps !! m = Some p /\ descend wrap test fuel h i x (Z.of_nat k) = Some (p, Z.of_nat m, us) /\ updates ps hs m us i.
Proof.
  induction i as [|i IH]; intros k x H Hw Ht Hm Hf Hi Hx Hkm Htall Hend; cbn [descend].
  { exists x, []. rewrite Hend in Hx |- * by done. split; [done|]. split; [done|]. split; [done|]. lia. }
  destruct (walk_spec wrap test h L ps hs es m i fuel k x) as (p & Hp & ->); try done; [by apply Htall; lia|lia|].
  cbn [option_bind mbind]. destruct (prv_props hs i m) as (Hle & Htp & _); [by eapply zrep_tall0|].
  destruct (IH (prv hs i m) p) as (q & us & Hq & -> & Hlen & Hus); try done; [lia| | |].
  { intros j Hj. eapply tall_mono; [exact Htp|lia]. }
  { intros ->. by eapply zrep_level0. }
  cbn [option_bind mbind]. exists q, (us ++ [(p, Z.of_nat (prv hs i m))]). split; [done|]. split; [done|]. split.
  { rewrite length_app. cbn. lia. }
  intros j Hj. destruct (decide (j = i)) as [->|Hne].
  - exists p. split; [|done]. rewrite <-Hlen. by rewrite list_lookup_middle.
  - destruct (Hus j) as (p' & Hp' & ?); [lia|]. exists p'. split; [|done]. by rewrite lookup_app_l by lia.
Qed.

Lemma zskip_search_spec wrap test zsl h L ps hs es m :
  zrep h L ps hs es -> zlevel zsl = Z.of_nat L -> zlength zsl = Z.of_nat (length es) -> ps !! 0%nat = Some (header zsl) ->
  wraps wrap -> tests h ps test m -> (m <= length es)%nat ->
  exists p us, ps !! m = Some p /\ search wrap test zsl h = Some (p, Z.of_nat m, us) /\ updates ps hs m us L.
Proof.
  intros H HL Hlen Hh Hw Ht Hm. unfold search, walk_fuel. rewrite HL, Hlen, !Nat2Z.id.
  apply (descend_spec wrap test h L ps hs es m _ L 0); try done; try lia.
  - intros j Hj. by eapply zrep_tall0.
  - intros ->. pose proof (zr_levels _ _ _ _ _ H). lia.
Qed.
End Heap.
