(* ===== verification/SkiplistEdit.v ===== *)
(** SkiplistEdit: insertion and deletion of a node keep the represented
    sequence of a skip list. *)
From S2P Require Import Prelude Elements AdlistProofs Skiplist SkiplistProofs.

Abbreviation skiplist_ := Skiplist.zskiplist.

Section Edit.
Context {O : Type}.
Implicit Types (h : zheap O) (x y p u : zptr) (i j k m t : nat) (us : list (zptr * Z)).
Implicit Types (ps : list zptr) (hs : list nat) (es : list (double * O)) (L : nat).

(** ** Rewriting the levels of [x] and of [update] up to level [t] *)

Definition patch x us (a b : nat -> option zskiplistLevel) t y j : option zskiplistLevel :=
  if decide (j < t)%nat then
    if decide (y = x) then a j
    else match us !! j with Some (u, _) => if decide (y = u) then b j else None | None => None end
  else None.

Definition or_old (new old : option zskiplistLevel) : option zskiplistLevel :=
  match new with Some l => Some l | None => old end.

Definition patched h0 h x us (a b : nat -> option zskiplistLevel) t : Prop :=
  (forall y j, zlev h y j = or_old (patch x us a b t y j) (zlev h0 y j)) /\
  (forall y, meta h y = meta h0 y) /\
  (forall y, y <> x -> (forall j r, us !! j <> Some (y, r)) -> znode h y = znode h0 y) /\ released h = released h0.

Lemma patched_0 h x us a b : patched h h x us a b 0.
Proof. split; [|done]. intros y j. done. Qed.

Lemma patched_ext h0 h x us a b a' b' t :
  patched h0 h x us a b t -> (forall j, (j < t)%nat -> a j = a' j /\ b j = b' j) -> patched h0 h x us a' b' t.
Proof.
  intros (Hl & Hrest) Hab. split; [|done]. intros y j. rewrite Hl. unfold patch. destruct (decide (j < t)%nat) as [Hj|]; [|done].
  by destruct (Hab j Hj) as [-> ->].
Qed.

Lemma patched_old h0 h x us a b t y j : patched h0 h x us a b t -> (t <= j)%nat -> zlev h y j = zlev h0 y j.
Proof. intros (Hl & _) Hj. rewrite Hl. unfold patch. by rewrite decide_False by lia. Qed.

(** One level. *)
Lemma patched_step h0 h h' x us a b t u r :
  us !! t = Some (u, r) -> u <> x -> patched h0 h x us a b t ->
  (forall y j, zlev h' y j = if decide (j = t) then or_old (if decide (y = x) then a t else if decide (y = u) then b t else None) (zlev h y j)
                             else zlev h y j) ->
  (forall y, meta h' y = meta h y) -> (forall y, y <> x -> y <> u -> znode h' y = znode h y) -> released h' = released h ->
  patched h0 h' x us a b (S t).
Proof.
  intros Hu Hux (Hl & Hm & Hn & Hr) Hl' Hm' Hn' Hr'. split; [|split; [|split]].
  - intros y j. rewrite Hl'. destruct (decide (j = t)) as [->|Hj].
    + rewrite Hl. unfold patch. rewrite (decide_False (P := (t < t)%nat)) by lia. rewrite (decide_True (P := (t < S t)%nat)) by lia. by rewrite Hu.
    + rewrite Hl. unfold patch. destruct (decide (j < t)%nat).
      * by rewrite (decide_True (P := (j < S t)%nat)) by lia.
      * by rewrite (decide_False (P := (j < S t)%nat)) by lia.
  - intros y. by rewrite Hm', Hm.
  - intros y Hyx Hyu. rewrite Hn'; [by apply Hn|done|]. intros ->. by apply (Hyu t r).
  - congruence.
Qed.

(** Setting the level of [u] only. *)
Lemma patched_u h0 h h' x us a b t u r l :
  us !! t = Some (u, r) -> u <> x -> patched h0 h x us a b t -> updated h h' u t l -> a t = None -> b t = Some l ->
  patched h0 h' x us a b (S t).
Proof.
  intros Hu Hux H (Hl & Hm & Hn & Hr) Ha Hb. eapply patched_step; try done.
  - intros y j. rewrite Hl, Ha, Hb. destruct (decide (j = t)) as [->|Hj].
    + destruct (decide (y = x)) as [->|Hyx]; [rewrite decide_False by (intros [? _]; congruence); done|].
      destruct (decide (y = u)) as [->|Hyu]; [by rewrite decide_True|rewrite decide_False by tauto; done].
    + by rewrite decide_False by tauto.
  - intros y _ Hyu. by apply Hn.
Qed.

(** ** Spans fit the machine words *)

Lemma lspan_range hs i k : tall hs i k -> 0 <= lspan hs i k < Z.of_nat (length hs).
Proof.
  intros Hk. pose proof (tall_lt _ _ _ Hk). unfold lspan. destruct (fwd hs i k) as [j|] eqn:Hf; cbn; [|lia].
  apply fwd_Some in Hf as (? & Hj & _). pose proof (tall_lt _ _ _ Hj). lia.
Qed.

(** ** The loops of the insertion *)

Section Insert.
Context (h0 : zheap O) (L lvl m : nat) (ps : list zptr) (hs : list nat) (es : list (double * O)) (x : zptr) (us : list (zptr * Z)).
Hypothesis Hrep : zrep h0 L ps hs es.
Hypothesis Hx : x ∉ ps.
Hypothesis Hmeta : exists mx, meta h0 x = Some mx /\ mx.2 = lvl.
Hypothesis Hm : (m <= length es)%nat.
Hypothesis Hlvl : (0 < lvl <= L)%nat.
Hypothesis Hus : updates ps hs m us L.

Definition ins_x j : option zskiplistLevel :=
  if decide (j < lvl)%nat
  then Some (ZLevel (fwd hs j (prv hs j m) ≫= (fun t => ps !! t)) (lspan hs j (prv hs j m) - (Z.of_nat m - Z.of_nat (prv hs j m))))
  else None.
Definition ins_u j : option zskiplistLevel :=
  if decide (j < lvl)%nat then Some (ZLevel (Some x) (Z.of_nat (S m) - Z.of_nat (prv hs j m)))
  else Some (ZLevel (fwd hs j (prv hs j m) ≫= (fun t => ps !! t)) (lspan hs j (prv hs j m) + 1)).

Lemma ins_update j : (j < L)%nat -> exists u, us !! j = Some (u, Z.of_nat (prv hs j m)) /\ ps !! prv hs j m = Some u /\ u <> x /\
  tall hs j (prv hs j m) /\ (prv hs j m <= m)%nat /\
  zlev h0 u j = Some (ZLevel (fwd hs j (prv hs j m) ≫= (fun t => ps !! t)) (lspan hs j (prv hs j m))) /\
  0 <= lspan hs j (prv hs j m) < 2 ^ 32 - 1 /\ Z.of_nat m - Z.of_nat (prv hs j m) <= lspan hs j (prv hs j m).
Proof.
  intros Hj. destruct Hus as [_ Hu]. destruct (Hu j Hj) as (u & Hu1 & Hu2). exists u. split; [done|]. split; [done|].
  split; [intros ->; apply Hx; by eapply list_elem_of_lookup_2|].
  pose proof (zrep_tall0 _ _ _ _ _ j Hrep Hj) as H0. destruct (prv_props hs j m H0) as (Hle & Htp & _).
  split; [done|]. split; [done|]. split; [by apply (zr_link _ _ _ _ _ Hrep)|].
  pose proof (lspan_range _ _ _ Htp). pose proof (zr_bound _ _ _ _ _ Hrep).
  pose proof (zr_length_hs _ _ _ _ _ Hrep). pose proof (zr_length_es _ _ _ _ _ Hrep). split; [lia|].
  unfold lspan. destruct (fwd hs j (prv hs j m)) as [f|] eqn:Hf; cbn; [|lia]. apply (prv_fwd hs j m f H0) in Hf. lia.
Qed.

Lemma link_loop_spec n : forall h t,
  patched h0 h x us ins_x ins_u t -> (t + n = lvl)%nat ->
  exists h', link_loop h x (Z.of_nat m) (take n (drop t us)) t = Some h' /\ patched h0 h' x us ins_x ins_u lvl.
Proof.
  induction n as [|n IH]; intros h t Hp Hn.
  { exists h. split; [done|]. by replace lvl with t by lia. }
  destruct (ins_update t) as (u & Hu & Hpu & Hux & Htp & Hle & Hlu & Hsp & Hsp'); [lia|].
  rewrite (drop_S _ _ _ Hu). cbn [take link_loop].
  rewrite <-(patched_old _ _ _ _ _ _ _ _ _ Hp (le_n t)) in Hlu. rewrite Hlu. cbn [option_bind mbind forward].
  assert (exists f0 s0, zlev h x t = Some (ZLevel f0 s0)) as (f0 & s0 & Hlx).
  { destruct Hmeta as (mx & Hmx & Hmx2). destruct mx as [[[o sc] bk] n']. destruct (meta_node _ _ _ _ _ _ Hmx) as (nd & Hnd & _ & _ & _ & Hlen).
    cbn in Hmx2. rewrite (patched_old _ _ _ _ _ _ _ _ _ Hp (le_n t)). unfold zlev. rewrite Hnd. cbn [option_bind mbind].
    destruct (lookup_lt_is_Some_2 (level nd) t) as [[f0 s0] Hl]; [lia|]. by exists f0, s0. }
  destruct (set_forward_spec h x t (fwd hs t (prv hs t m) ≫= (fun t => ps !! t)) f0 s0 Hlx) as (h1 & -> & Hl1 & Hm1 & Hn1 & Hr1).
  cbn [option_bind mbind].
  assert (zlev h1 u t = zlev h u t) as Hlu1 by (rewrite Hl1; by rewrite decide_False by (intros [? _]; congruence)). rewrite Hlu in Hlu1.
  destruct (set_forward_spec h1 u t (Some x) _ _ Hlu1) as (h2 & -> & Hl2 & Hm2 & Hn2 & Hr2). cbn [option_bind mbind].
  rewrite Hl2, decide_True by done. cbn [option_bind mbind span].
  assert (zlev h2 x t = Some (ZLevel (fwd hs t (prv hs t m) ≫= (fun t => ps !! t)) s0)) as Hlx2.
  { rewrite Hl2, decide_False by (intros [? _]; congruence). by rewrite Hl1, decide_True. }
  destruct (set_span_spec h2 x t (u32 (lspan hs t (prv hs t m) - u32 (Z.of_nat m - Z.of_nat (prv hs t m)))) _ _ Hlx2) as (h3 & -> & Hl3 & Hm3 & Hn3 & Hr3).
  cbn [option_bind mbind].
  assert (zlev h3 u t = Some (ZLevel (Some x) (lspan hs t (prv hs t m)))) as Hlu3.
  { rewrite Hl3, decide_False by (intros [? _]; congruence). by rewrite Hl2, decide_True. }
  destruct (set_span_spec h3 u t (u32 (u32 (Z.of_nat m - Z.of_nat (prv hs t m)) + 1)) _ _ Hlu3) as (h4 & -> & Hl4 & Hm4 & Hn4 & Hr4).
  cbn [option_bind mbind]. apply IH; [|lia].
  pose proof (zr_bound _ _ _ _ _ Hrep). rewrite !u32_small in Hl3, Hl4 by (rewrite ?u32_small by lia; lia).
  eapply patched_step; [exact Hu|exact Hux|exact Hp|..].
  - intros y j. rewrite Hl4, Hl3, Hl2, Hl1. unfold ins_x, ins_u. rewrite !(decide_True (P := (t < lvl)%nat)) by lia.
    destruct (decide (j = t)) as [->|Hj].
    + destruct (decide (y = x)) as [->|Hyx].
      * rewrite (decide_False (P := x = u /\ t = t)) by (intros [? _]; congruence). by rewrite decide_True.
      * destruct (decide (y = u)) as [->|Hyu].
        -- rewrite decide_True by done. cbn. do 2 f_equal. lia.
        -- rewrite !decide_False by tauto. done.
    + rewrite !decide_False by tauto. done.
  - intros y. by rewrite Hm4, Hm3, Hm2, Hm1.
  - intros y Hyx Hyu. by rewrite Hn4, Hn3, Hn2, Hn1.
  - congruence.
Qed.

Lemma incr_loop_spec n : forall h t,
  patched h0 h x us ins_x ins_u t -> (lvl <= t)%nat -> (t + n = L)%nat ->
  exists h', incr_loop h (drop t us) t = Some h' /\ patched h0 h' x us ins_x ins_u L.
Proof.
  induction n as [|n IH]; intros h t Hp Ht Hn.
  { exists h. destruct Hus as [Hl _]. rewrite drop_ge by lia. split; [done|]. by replace L with t by lia. }
  destruct (ins_update t) as (u & Hu & Hpu & Hux & Htp & Hle & Hlu & Hsp & Hsp'); [lia|].
  rewrite (drop_S _ _ _ Hu). cbn [incr_loop]. rewrite <-(patched_old _ _ _ _ _ _ _ _ _ Hp (le_n t)) in Hlu.
  rewrite Hlu. cbn [option_bind mbind span].
  destruct (set_span_spec h u t (u32 (lspan hs t (prv hs t m) + 1)) _ _ Hlu) as (h1 & -> & Hup). cbn [option_bind mbind].
  rewrite u32_small in Hup by lia. apply IH; [|lia|lia].
  eapply patched_u; [exact Hu|done|done|exact Hup|..].
  - unfold ins_x. by rewrite decide_False by lia.
  - unfold ins_u. by rewrite decide_False by lia.
Qed.

(** The links after both loops. *)
Lemma ins_links h k p i :
  patched h0 h x us ins_x ins_u L ->
  ins (S m) x ps !! k = Some p -> tall (ins (S m) lvl hs) i k -> (i < L)%nat ->
  zlev h p i = Some (ZLevel (fwd (ins (S m) lvl hs) i k ≫= (fun j => ins (S m) x ps !! j)) (lspan (ins (S m) lvl hs) i k)).
Proof.
  intros (Hl & _) Hp Hk Hi. pose proof (zrep_tall0 _ _ _ _ _ i Hrep Hi) as H0.
  pose proof (zr_length_hs _ _ _ _ _ Hrep). pose proof (zr_length_es _ _ _ _ _ Hrep).
  assert (m < length hs)%nat as Hmh by lia. assert (m < length ps)%nat as Hmp by lia.
  destruct (ins_update i Hi) as (u & Hu & Hpu & Hux & Htp & Hle & Hlu & Hsp & Hsp').
  assert (forall r, (shift m <$> r) ≫= (fun j => ins (S m) x ps !! j) = r ≫= (fun j => ps !! j)) as Hshift.
  { intros [j|]; cbn; [by apply ins_shift|done]. }
  rewrite Hl. unfold patch. rewrite (decide_True (P := (i < L)%nat)) by done. rewrite Hu.
  destruct (decide (k = S m)) as [->|Hne].
  - rewrite ins_eq in Hp by lia. injection Hp as <-. rewrite decide_True by done.
    apply tall_new in Hk; [|done]. unfold ins_x. rewrite decide_True by done. cbn.
    rewrite fwd_new, Hshift, lspan_new by done. done.
  - destruct (shift_onto m k Hne) as [k0 ->]. rewrite ins_shift in Hp by done. apply tall_shift in Hk; [|done].
    assert (p <> x) as Hpx by (intros ->; apply Hx; by eapply list_elem_of_lookup_2).
    rewrite (decide_False (P := p = x)) by done.
    destruct (decide (k0 = prv hs i m)) as [->|Hk0].
    + rewrite Hpu in Hp. injection Hp as <-. rewrite decide_True by done. unfold ins_u. rewrite shift_le by done.
      destruct (decide (i < lvl)%nat) as [Hlt|Hge]; cbn.
      * rewrite fwd_pred, lspan_pred by done. cbn. by rewrite ins_eq by lia.
      * rewrite lspan_over by (done || lia). rewrite <-(shift_le m (prv hs i m)) at 3 by done.
        rewrite fwd_other, Hshift by (done || lia). done.
    + rewrite (decide_False (P := p = u)). 2:{ eapply nodup_ne; [apply (zr_nodup _ _ _ _ _ Hrep)|exact Hp|exact Hpu|done]. }
      cbn. rewrite lspan_other by done. rewrite fwd_other, Hshift by done. by apply (zr_link _ _ _ _ _ Hrep).
Qed.
End Insert.

(** ** Frames *)

Lemma zrep_frame h h' L ps hs es :
  zrep h L ps hs es -> (forall p, p ∈ ps -> znode h' p = znode h p) -> zrep h' L ps hs es.
Proof.
  intros H Hf.
  assert (forall k p, ps !! k = Some p -> znode h' p = znode h p) as Hf' by (intros k p Hp; apply Hf; by eapply list_elem_of_lookup_2).
  assert (forall k p i, ps !! k = Some p -> zlev h' p i = zlev h p i) as Hl by (intros k p i Hp; unfold zlev; by erewrite Hf').
  assert (forall k p, ps !! k = Some p -> meta h' p = meta h p) as Hm by (intros k p Hp; unfold meta; by erewrite Hf').
  destruct H. constructor; try done.
  - intros p Hp. rewrite (Hm _ _ Hp). auto.
  - intros k p sc o hk Hp He Hk. rewrite (Hm _ _ Hp). auto.
  - intros k p i Hp Ht Hi. rewrite (Hl _ _ _ Hp). auto.
  - intros p i Hp Hi. rewrite (Hl _ _ _ Hp). auto.
Qed.

(** ** More levels *)

Lemma grow_step h h' L ps hs es hd :
  zrep h L ps hs es -> (L < 32)%nat -> ps !! 0%nat = Some hd ->
  updated h h' hd L (ZLevel None (Z.of_nat (length es))) -> zrep h' (S L) ps hs es.
Proof.
  intros H HL Hhd (Hl & Hm & _). pose proof (zr_nodup _ _ _ _ _ H) as Hnd. pose proof (zr_length_hs _ _ _ _ _ H) as Hlh.
  pose proof (zr_length_es _ _ _ _ _ H) as Hle. pose proof (zr_heights _ _ _ _ _ H) as Hhs.
  destruct H. constructor; try done.
  - intros k hk Hk. destruct (Hhs k hk Hk). lia.
  - lia.
  - intros p Hp. rewrite Hm. auto.
  - intros k p sc o hk Hp He Hk. rewrite Hm. auto.
  - intros k p i Hp Ht Hi. rewrite Hl. destruct (decide (i = L)) as [->|Hne].
    + assert (k = 0%nat) as ->. { destruct k as [|k]; [done|]. destruct Ht as (hk & Hk & ?). destruct (Hhs k hk Hk). lia. }
      rewrite Hhd in Hp. injection Hp as <-. rewrite decide_True by done.
      assert (fwd hs L 0 = None) as E. { apply fwd_None. intros [|t] Ht' (ht & Hk & ?); [lia|]. destruct (Hhs t ht Hk). lia. }
      unfold lspan. rewrite E. cbn. do 2 f_equal. lia.
    + rewrite decide_False by tauto. apply zr_link; [done|done|lia].
  - intros p i Hp Hi. rewrite Hl, decide_False by lia. apply zr_top; [done|lia].
Qed.

Lemma grow_loop_spec n : forall zsl h L ps hs es,
  zrep h L ps hs es -> (L + n <= 32)%nat -> ps !! 0%nat = Some (header zsl) -> zlength zsl = Z.of_nat (length es) ->
  exists h', grow_loop n zsl h L = Some h' /\ zrep h' (L + n) ps hs es /\
    (forall y, y <> header zsl -> znode h' y = znode h y) /\ released h' = released h.
Proof.
  induction n as [|n IH]; intros zsl h L ps hs es H HL Hhd Hlen; cbn [grow_loop].
  { exists h. by rewrite Nat.add_0_r. }
  destruct (zr_top _ _ _ _ _ H (header zsl) L Hhd ltac:(lia)) as (s & Hs). pose proof (zr_bound _ _ _ _ _ H).
  rewrite Hlen, u32_small by lia.
  destruct (set_span_spec h (header zsl) L (Z.of_nat (length es)) _ _ Hs) as (h1 & -> & Hup). cbn [option_bind mbind].
  destruct (IH zsl h1 (S L) ps hs es) as (h' & E & H' & Hn & Hr); [eapply grow_step; [exact H|lia|exact Hhd|exact Hup]|lia|done|done|].
  exists h'. split; [done|]. split; [by replace (L + S n)%nat with (S L + n)%nat by lia|].
  destruct Hup as (_ & _ & Hn1 & Hr1). split; [|congruence]. intros y Hy. by rewrite Hn, Hn1.
Qed.

Lemma updates_grow h L ps hs es m us n hd :
  zrep h L ps hs es -> ps !! 0%nat = Some hd -> updates ps hs m us L ->
  updates ps hs m (us ++ replicate n (hd, 0)) (L + n).
Proof.
  intros H Hhd [Hl Hu]. split; [rewrite length_app, length_replicate; lia|]. intros j Hj.
  destruct (decide (j < L)%nat) as [HjL|HjL].
  - destruct (Hu j HjL) as (p & Hp & Hpp). exists p. split; [|done]. by rewrite lookup_app_l by lia.
  - exists hd. assert (prv hs j m = 0%nat) as ->.
    { clear Hu. induction m as [|m IH]; [done|]. cbn [prv]. rewrite decide_False; [done|]. intros (hk & Hk & ?).
      destruct (zr_heights _ _ _ _ _ H m hk Hk). lia. }
    split; [|done]. rewrite lookup_app_r by lia. rewrite lookup_replicate_2 by lia. done.
Qed.

(** ** The sequence after an insertion *)

Lemma zback_shift ps m x k :
  (m < length ps)%nat -> (0 < k)%nat ->
  zback (ins (S m) x ps) (shift m k) = if decide (k = S m) then Some x else zback ps k.
Proof.
  intros Hm Hk. destruct k as [|k]; [lia|]. destruct (decide (S k = S m)) as [E|Hne].
  - injection E as ->. rewrite shift_gt by lia. cbn. by rewrite ins_eq by lia.
  - destruct (decide (S k <= m)%nat) as [Hle|Hgt].
    + rewrite shift_le by done. destruct k as [|k]; [done|]. cbn [zback]. rewrite <-(shift_le m (S k)) at 1 by lia. by apply ins_shift.
    + rewrite shift_gt by lia. destruct k as [|k]; [lia|]. cbn [zback]. rewrite <-(shift_gt m (S k)) by lia. by apply ins_shift.
Qed.

Lemma ins_pos {A} m k (x : A) (l : list A) :
  (m <= length l)%nat -> (k <> m) -> exists k0, S k = shift m (S k0) /\ ins m x l !! k = l !! k0.
Proof.
  intros Hm Hne. destruct (decide (k < m)%nat) as [Hlt|Hge].
  - exists k. rewrite shift_le by lia. split; [done|]. by apply ins_lt; lia.
  - exists (k - 1)%nat. rewrite shift_gt by lia. split; [lia|]. replace k with (S (k - 1)) at 1 by lia. by apply ins_gt; lia.
Qed.

Lemma zrep_ins h0 h L lvl m ps hs es x sc o :
  zrep h0 L ps hs es -> x ∉ ps -> (m <= length es)%nat -> (0 < lvl <= L)%nat -> Z.of_nat (S (length es)) < 2 ^ 32 - 1 ->
  (forall k p i, ins (S m) x ps !! k = Some p -> tall (ins (S m) lvl hs) i k -> (i < L)%nat ->
     zlev h p i = Some (ZLevel (fwd (ins (S m) lvl hs) i k ≫= (fun j => ins (S m) x ps !! j)) (lspan (ins (S m) lvl hs) i k))) ->
  (forall y i, (L <= i)%nat -> zlev h y i = zlev h0 y i) ->
  meta h x = Some (Some o, sc, zback (ins (S m) x ps) (S m), lvl) ->
  (forall k p, ps !! k = Some p -> meta h p =
     if decide (k = S m) then (fun '(o, sc, _, n) => (o, sc, Some x, n)) <$> meta h0 p else meta h0 p) ->
  zrep h L (ins (S m) x ps) (ins (S m) lvl hs) (ins m (sc, o) es).
Proof.
  intros H Hx Hm Hlvl Hb Hlinks Htop Hmx Hmo.
  pose proof (zr_length_hs _ _ _ _ _ H) as Hlh. pose proof (zr_length_es _ _ _ _ _ H) as Hle.
  constructor; try done.
  - rewrite ins_perm. constructor; [done|]. apply (zr_nodup _ _ _ _ _ H).
  - rewrite !length_ins by lia. lia.
  - rewrite !length_ins by lia. lia.
  - rewrite length_ins by lia. done.
  - rewrite ins_lt by lia. apply (zr_height0 _ _ _ _ _ H).
  - intros k hk Hk. destruct (decide (k = m)) as [->|Hne].
    + rewrite ins_eq in Hk by lia. injection Hk as <-. done.
    + destruct (shift_onto m (S k)) as [k0 E]; [lia|]. rewrite E, ins_shift in Hk by lia.
      destruct k0 as [|k0]; [rewrite shift_le in E by lia; lia|]. by apply (zr_heights _ _ _ _ _ H k0).
  - apply (zr_levels _ _ _ _ _ H).
  - intros p Hp. rewrite ins_lt in Hp by lia. rewrite (Hmo _ _ Hp), decide_False by lia. by apply (zr_header _ _ _ _ _ H).
  - intros k p sc' o' hk Hp He Hk. destruct (decide (k = m)) as [->|Hne].
    + rewrite ins_eq in Hp by lia. rewrite ins_eq in He by lia. rewrite ins_eq in Hk by lia. congruence.
    + destruct (ins_pos m k (sc, o) es Hm Hne) as (k0 & E & Ee). rewrite Ee in He. rewrite E in Hp, Hk |- *.
      rewrite ins_shift in Hp by lia. rewrite ins_shift in Hk by lia. rewrite zback_shift by lia. rewrite (Hmo _ _ Hp), (zr_meta _ _ _ _ _ H k0 p sc' o' hk Hp He Hk).
      by destruct (decide (S k0 = S m)).
  - intros p i Hp Hi. rewrite ins_lt in Hp by lia. rewrite Htop by lia. by apply (zr_top _ _ _ _ _ H).
Qed.

(** ** The represented skip list *)

Definition levels (zsl : skiplist_) : nat := Z.to_nat (zlevel zsl).

Record zsl_rep (zsl : skiplist_) h ps hs es : Prop := ZslRep {
  zs_rep : zrep h (levels zsl) ps hs es;
  zs_header : ps !! 0%nat = Some (header zsl);
  zs_tail : tail zsl = zback ps (length ps);
  zs_length : zlength zsl = Z.of_nat (length es);
  zs_tight : levels zsl = 1%nat \/ fwd hs (levels zsl - 1) 0 <> None }.

Lemma zs_zlevel zsl h ps hs es : zsl_rep zsl h ps hs es -> zlevel zsl = Z.of_nat (levels zsl).
Proof. intros H. pose proof (zr_levels _ _ _ _ _ (zs_rep _ _ _ _ _ H)). unfold levels in *. lia. Qed.

Context `{SO : StringObjects O} (junk_level : zskiplistLevel) (junk_backward : option zptr).

Lemma create_node_spec h lvl sc (o : option O) :
  0 < lvl ->
  exists x h', zslCreateNode junk_level junk_backward h lvl sc o = (x, h') /\ znode h x = None /\
    znode h' x = Some (ZNode o sc junk_backward (replicate (Z.to_nat lvl) junk_level)) /\
    (forall y, y <> x -> znode h' y = znode h y) /\ released h' = released h.
Proof.
  intros Hl. unfold zslCreateNode, zalloc, put_node, znode. eexists _, _. split; [reflexivity|]. cbn [znodes released].
  split; [apply not_elem_of_dom, is_fresh|]. split; [apply lookup_insert_eq|]. split; [|done].
  intros y Hy. by apply lookup_insert_ne.
Qed.

(** The part of the insertion after the search, when there are enough levels. *)
Lemma insert_rest zsl h L m ps hs es us sc o lvl :
  zrep h L ps hs es -> zlevel zsl = Z.of_nat L -> ps !! 0%nat = Some (header zsl) -> tail zsl = zback ps (length ps) ->
  zlength zsl = Z.of_nat (length es) -> (m <= length es)%nat -> (0 < lvl <= L)%nat -> Z.of_nat (S (length es)) < 2 ^ 32 - 1 ->
  updates ps hs m us L -> fwd (ins (S m) lvl hs) (L - 1) 0 <> None \/ L = 1%nat ->
  exists zsl' h' x,
    (let '(x, h) := zslCreateNode junk_level junk_backward h (Z.of_nat lvl) sc (Some o) in
     '(u0, rank0) ← us !! 0%nat;
     h ← link_loop h x rank0 (take (Z.to_nat (Z.of_nat lvl)) us) 0;
     h ← incr_loop h (drop (Z.to_nat (Z.of_nat lvl)) us) (Z.to_nat (Z.of_nat lvl));
     h ← set_backward h x (if decide (u0 = header zsl) then None else Some u0);
     l ← zlev h x 0;
     '(zsl, h) ← (match forward l with
                  | Some f => h ← set_backward h f (Some x); Some (zsl, h)
                  | None => Some (set_ztail zsl (Some x), h)
                  end);
     Some (set_zlength zsl (u64 (zlength zsl + 1)), h, x)) = Some (zsl', h', x) /\
    zsl_rep zsl' h' (ins (S m) x ps) (ins (S m) lvl hs) (ins m (sc, o) es) /\
    (x ∉ ps) /\ znode h x = None /\ (forall y, y <> x -> y ∉ ps -> znode h' y = znode h y) /\ released h' = released h /\
    header zsl' = header zsl.
Proof.
  intros Hrep HL Hhd Htl Hlen Hm Hlvl Hb Hus Htight.
  pose proof (zr_length_hs _ _ _ _ _ Hrep) as Hlh. pose proof (zr_length_es _ _ _ _ _ Hrep) as Hle.
  destruct (create_node_spec h (Z.of_nat lvl) sc (Some o)) as (x & h1 & -> & Hfresh & Hx1 & Hn1 & Hr1); [lia|].
  assert (x ∉ ps) as Hx.
  { intros Hin. apply list_elem_of_lookup in Hin as [k Hk]. destruct k as [|k].
    - destruct (zr_header _ _ _ _ _ Hrep x Hk) as (s & Hs). unfold meta in Hs. by rewrite Hfresh in Hs.
    - pose proof (lookup_lt_Some _ _ _ Hk). destruct (zrep_elem _ _ _ _ _ k Hrep) as (p & ? & ? & ? & n & Hp & _ & _ & Hn & _); [lia|].
      congruence. }
  assert (zrep h1 L ps hs es) as Hrep1.
  { eapply zrep_frame; [exact Hrep|]. intros p Hp. apply Hn1. by intros ->. }
  assert (exists mx, meta h1 x = Some mx /\ mx.2 = lvl) as Hmeta.
  { unfold meta. rewrite Hx1. eexists. split; [reflexivity|]. cbn. rewrite length_replicate. lia. }
  destruct (ins_update h1 L lvl m ps hs es x us Hrep1 Hx Hm Hlvl Hus 0) as (u0 & Hu0 & Hpu0 & Hux0 & _); [lia|].
  rewrite (zrep_level0 _ _ _ _ _ _ Hrep1 Hm) in Hu0, Hpu0.
  rewrite Hu0. cbn [option_bind mbind]. rewrite !Nat2Z.id.
  destruct (link_loop_spec h1 L lvl m ps hs es x us Hrep1 Hx Hmeta Hm Hlvl Hus lvl h1 0) as (h2 & E2 & Hp2); [apply patched_0|lia|].
  rewrite drop_0 in E2. rewrite E2. cbn [option_bind mbind].
  destruct (incr_loop_spec h1 L lvl m ps hs es x us Hrep1 Hx Hm Hlvl Hus (L - lvl) h2 lvl Hp2) as (h3 & -> & Hp3); [lia|lia|].
  cbn [option_bind mbind]. pose proof Hp3 as (Hl3 & Hm3 & Hn3 & Hr3).
  assert (exists n3, znode h3 x = Some n3 /\ obj n3 = Some o /\ score n3 = sc /\ length (level n3) = lvl) as (n3 & Hx3 & Ho3 & Hs3 & Hv3).
  { pose proof (Hm3 x) as E. unfold meta at 2 in E. rewrite Hx1 in E. cbn in E.
    destruct (meta_node _ _ _ _ _ _ E) as (n3 & ? & ? & ? & _ & Hlen3). exists n3. rewrite length_replicate in Hlen3. split_and!; try done. lia. }
  destruct (set_backward_spec h3 x (if decide (u0 = header zsl) then None else Some u0) n3 Hx3) as (h4 & -> & Hl4 & Hm4 & Hn4 & Hr4).
  cbn [option_bind mbind].
  set (ps' := ins (S m) x ps) in *. set (hs' := ins (S m) lvl hs) in *.
  assert (Hlinks : forall k p i, ps' !! k = Some p -> tall hs' i k -> (i < L)%nat ->
    zlev h4 p i = Some (ZLevel (fwd hs' i k ≫= (fun j => ps' !! j)) (lspan hs' i k))).
  { intros k p i Hk Ht Hi. rewrite Hl4. by apply (ins_links h1 L lvl m ps hs es x us Hrep1 Hx Hm Hlvl Hus h3). }
  assert (fwd hs' 0 (S m) ≫= (fun j => ps' !! j) = ps !! S m) as Hfx.
  { pose proof (zrep_tall0 _ _ _ _ _ 0 Hrep ltac:(lia)) as H0. unfold hs'. rewrite fwd_new by (done || lia).
    rewrite (zrep_level0 _ _ _ _ _ _ Hrep Hm). destruct (decide (m < length es)%nat) as [Hlt|Hge].
    - assert (fwd hs 0 m = Some (S m)) as ->.
      { apply fwd_Some. split; [lia|]. split; [|lia]. destruct (lookup_lt_is_Some_2 hs (S m)) as [hk Hhk]; [lia|].
        exists hk. split; [done|]. by apply (zr_heights _ _ _ _ _ Hrep m). }
      cbn. apply ins_shift. lia.
    - assert (fwd hs 0 m = None) as ->. { apply fwd_None. intros t Ht (ht & Hht & _). apply lookup_lt_Some in Hht. lia. }
      cbn. symmetry. apply lookup_ge_None. lia. }
  rewrite (Hlinks (S m) x 0%nat) by (try (unfold ps'; rewrite ins_eq by lia); try (apply tall_new; lia); lia || done).
  cbn [option_bind mbind forward]. rewrite Hfx.
  assert ((if decide (u0 = header zsl) then None else Some u0) = zback ps' (S m)) as Hbk.
  { unfold ps'. destruct m as [|m'].
    - rewrite Hhd in Hpu0. injection Hpu0 as <-. by rewrite decide_True.
    - cbn [zback]. rewrite ins_lt by lia. rewrite Hpu0. rewrite decide_False; [done|]. eapply nodup_ne; [apply (zr_nodup _ _ _ _ _ Hrep)|exact Hpu0|exact Hhd|lia]. }
  rewrite Hbk in Hm4.
  assert (Hframe4 : forall y, y <> x -> y ∉ ps -> znode h4 y = znode h y).
  { intros y Hyx Hyp. rewrite Hn4 by done. rewrite Hn3; [by apply Hn1|done|]. intros j r Hj.
    destruct Hus as [Hul Hu]. pose proof (lookup_lt_Some _ _ _ Hj). destruct (Hu j) as (u & Hu1 & Hu2); [lia|].
    rewrite Hu1 in Hj. injection Hj as -> _. apply Hyp. by eapply list_elem_of_lookup_2. }
  assert (Hmeta1 : forall y, y <> x -> meta h4 y = meta h1 y).
  { intros y Hy. rewrite Hm4, decide_False by done. apply Hm3. }
  assert (Hmetax : meta h4 x = Some (Some o, sc, zback ps' (S m), lvl)).
  { rewrite Hm4, decide_True by done. by rewrite Ho3, Hs3, Hv3. }
  assert (Htop4 : forall y i, (L <= i)%nat -> zlev h4 y i = zlev h1 y i).
  { intros y i Hi. rewrite Hl4. by apply (patched_old _ _ _ _ _ _ _ _ _ Hp3). }
  assert (Hlen' : u64 (zlength zsl + 1) = Z.of_nat (length (ins m (sc, o) es))).
  { rewrite Hlen, length_ins, u64_small by lia. lia. }
  assert (Hpx : forall k p, ps !! k = Some p -> p <> x) by (intros k p Hk ->; apply Hx; by eapply list_elem_of_lookup_2).
  assert (HLz : levels (set_zlength zsl (u64 (zlength zsl + 1))) = L) by (unfold levels; cbn; lia).
  destruct (ps !! S m) as [f|] eqn:Hf; cbn [option_bind mbind].
  - assert (exists nf, znode h4 f = Some nf) as [nf Hnf].
    { pose proof (lookup_lt_Some _ _ _ Hf). destruct (zrep_elem _ _ _ _ _ m Hrep1) as (p & s' & o' & hk & n & Hp & He & Hh & Hn & _); [lia|].
      rewrite Hf in Hp. injection Hp as <-. pose proof (Hmeta1 f (Hpx _ _ Hf)) as E. unfold meta in E. rewrite Hn in E.
      destruct (znode h4 f); [by eexists|done]. }
    destruct (set_backward_spec h4 f (Some x) nf Hnf) as (h5 & -> & Hl5 & Hm5 & Hn5 & Hr5). cbn [option_bind mbind].
    eexists _, h5, x. split; [reflexivity|]. split; [|split; [done|split; [done|split; [|split; [congruence|done]]]]].
    + constructor; cbn [header tail zlength set_zlength]; try done.
      * rewrite HLz. apply (zrep_ins h1 h5 L lvl m ps hs es x sc o); try done.
        -- intros k p i Hk Ht Hi. rewrite Hl5. by apply Hlinks.
        -- intros y i Hi. rewrite Hl5. by apply Htop4.
        -- rewrite Hm5, decide_False by (intros ->; by apply (Hpx _ _ Hf)). done.
        -- intros k p Hk. rewrite Hm5. destruct (decide (k = S m)) as [->|Hne].
           ++ rewrite Hf in Hk. injection Hk as <-. rewrite decide_True by done.
              rewrite <-(Hmeta1 f) by by eapply Hpx. unfold meta. by rewrite Hnf.
           ++ rewrite decide_False. { apply Hmeta1. by eapply Hpx. }
              eapply nodup_ne; [apply (zr_nodup _ _ _ _ _ Hrep)|exact Hk|exact Hf|done].
      * unfold ps'. rewrite ins_lt by lia. done.
      * rewrite Htl. unfold ps'. rewrite length_ins by lia. rewrite <-(shift_gt m (length ps)) by lia.
        rewrite zback_shift by lia. rewrite decide_False; [done|]. pose proof (lookup_lt_Some _ _ _ Hf). lia.
      * unfold levels; cbn. rewrite HL, Nat2Z.id. tauto.
    + intros y Hyx Hyp. rewrite Hn5; [by apply Hframe4|]. intros ->. apply Hyp. by eapply list_elem_of_lookup_2.
  - eexists _, h4, x. split; [reflexivity|]. split; [|split; [done|split; [done|split; [done|split; [congruence|done]]]]].
    constructor; cbn [header tail zlength set_zlength set_ztail]; try done.
    + unfold levels; cbn. rewrite HL, Nat2Z.id. apply (zrep_ins h1 h4 L lvl m ps hs es x sc o); try done.
      intros k p Hk. rewrite decide_False. { apply Hmeta1. by eapply Hpx. } intros ->. congruence.
    + unfold ps'. rewrite ins_lt by lia. done.
    + unfold ps'. apply lookup_ge_None in Hf. rewrite length_ins by lia. replace (length ps) with (S m) by lia. cbn. by rewrite ins_eq by lia.
    + unfold levels; cbn. rewrite HL, Nat2Z.id. tauto.
Qed.

(** ** The loop of the deletion *)

Lemma u32_add_r a b : u32 (a + u32 b) = u32 (a + b).
Proof. unfold u32. apply Zplus_mod_idemp_r. Qed.

Section Delete.
(** The node [x] at position [S m] is to be removed from the sequence. *)
Context (h0 : zheap O) (L lvl m : nat) (ps : list zptr) (hs : list nat) (es : list (double * O)) (x : zptr) (e : double * O)
        (us : list (zptr * Z)) (L0 : nat).
Hypothesis Hrep : zrep h0 L (ins (S m) x ps) (ins (S m) lvl hs) (ins m e es).
Hypothesis Hlen_ps : length ps = S (length es).
Hypothesis Hlen_hs : length hs = length ps.
Hypothesis Hm : (m <= length es)%nat.
Hypothesis Hus : updates ps hs m us L0.
Hypothesis HL0 : (L <= L0)%nat.

Lemma del_x : (x ∉ ps) /\ NoDup ps.
Proof. pose proof (zr_nodup _ _ _ _ _ Hrep) as Hnd. rewrite ins_perm in Hnd. by apply NoDup_cons in Hnd. Qed.

Lemma del_tall0 j : (j < L)%nat -> tall hs j 0.
Proof.
  intros Hj. pose proof (zrep_tall0 _ _ _ _ _ j Hrep Hj) as H0. rewrite <-(shift_le m 0) in H0 by lia.
  by apply tall_shift in H0; [|lia].
Qed.

Lemma del_fwd_ps (r : option nat) : (shift m <$> r) ≫= (fun j => ins (S m) x ps !! j) = r ≫= (fun j => ps !! j).
Proof. destruct r as [j|]; cbn; [apply ins_shift; lia|done]. Qed.

Definition del_u j : option zskiplistLevel :=
  Some (ZLevel (fwd hs j (prv hs j m) ≫= (fun t => ps !! t)) (lspan hs j (prv hs j m))).

(** The levels of the predecessor before the deletion. *)
Lemma del_update j : (j < L)%nat -> exists u, us !! j = Some (u, Z.of_nat (prv hs j m)) /\ ps !! prv hs j m = Some u /\ u <> x /\
  tall hs j (prv hs j m) /\ (prv hs j m <= m)%nat /\ 0 <= lspan hs j (prv hs j m) < 2 ^ 32 - 2 /\
  zlev h0 u j = Some (if decide (j < lvl)%nat then ZLevel (Some x) (Z.of_nat (S m) - Z.of_nat (prv hs j m))
                      else ZLevel (fwd hs j (prv hs j m) ≫= (fun t => ps !! t)) (lspan hs j (prv hs j m) + 1)) /\
  ((j < lvl)%nat -> zlev h0 x j = Some (ZLevel (fwd hs j (prv hs j m) ≫= (fun t => ps !! t))
                                         (lspan hs j (prv hs j m) - (Z.of_nat m - Z.of_nat (prv hs j m))))).
Proof.
  intros Hj. destruct Hus as [_ Hu]. destruct (Hu j) as (u & Hu1 & Hu2); [lia|]. exists u. split; [done|]. split; [done|].
  destruct del_x as [Hx Hnd]. split; [intros ->; apply Hx; by eapply list_elem_of_lookup_2|].
  pose proof (del_tall0 j Hj) as H0. destruct (prv_props hs j m H0) as (Hle & Htp & _).
  split; [done|]. split; [done|].
  pose proof (lspan_range _ _ _ Htp). pose proof (zr_bound _ _ _ _ _ Hrep) as Hb. rewrite length_ins in Hb by lia. split; [lia|]. split.
  - pose proof (zr_link _ _ _ _ _ Hrep (prv hs j m) u j) as El. rewrite <-(shift_le m (prv hs j m)) in El by done.
    rewrite ins_shift in El by lia. rewrite El; [|done|apply tall_shift; [lia|done]|done]. f_equal. rewrite shift_le by done.
    destruct (decide (j < lvl)%nat) as [Hlt|Hge].
    + rewrite fwd_pred, lspan_pred by (done || lia). cbn. by rewrite ins_eq by lia.
    + rewrite lspan_over by (done || lia). rewrite <-(shift_le m (prv hs j m)) at 1 by done. rewrite fwd_other by (done || lia).
      by rewrite del_fwd_ps.
  - intros Hlt. rewrite (zr_link _ _ _ _ _ Hrep (S m) x j); [|apply ins_eq; lia|apply tall_new; lia|done].
    rewrite fwd_new, lspan_new by (done || lia). by rewrite del_fwd_ps.
Qed.

Lemma unlink_loop_spec n : forall h t,
  patched h0 h x us (fun _ => None) del_u t -> (t + n = L)%nat ->
  exists h', unlink_loop h x (take n (drop t us)) t = Some h' /\ patched h0 h' x us (fun _ => None) del_u L.
Proof.
  induction n as [|n IH]; intros h t Hp Hn.
  { exists h. split; [done|]. by replace L with t by lia. }
  destruct (del_update t) as (u & Hu & Hpu & Hux & Htp & Hle & Hsp & Hlu & Hlx); [lia|]. destruct del_x as [Hx Hnd].
  rewrite (drop_S _ _ _ Hu). cbn [take unlink_loop].
  rewrite <-(patched_old _ _ _ _ _ _ _ u t Hp (le_n t)) in Hlu. rewrite <-(patched_old _ _ _ _ _ _ _ x t Hp (le_n t)) in Hlx.
  rewrite Hlu. cbn [option_bind mbind].
  destruct (decide (t < lvl)%nat) as [Hlt|Hge]; cbn [forward span].
  - rewrite decide_True by done. rewrite (Hlx Hlt). cbn [option_bind mbind forward span].
    rewrite u32_add_r. match goal with |- context [u32 ?z] => replace z with (lspan hs t (prv hs t m)) by lia end.
    rewrite u32_small by lia.
    destruct (set_span_spec h u t (lspan hs t (prv hs t m)) _ _ Hlu) as (h1 & -> & Hl1 & Hm1 & Hn1 & Hr1). cbn [option_bind mbind].
    assert (zlev h1 u t = Some (ZLevel (Some x) (lspan hs t (prv hs t m)))) as Hlu1 by (rewrite Hl1; by rewrite decide_True).
    destruct (set_forward_spec h1 u t (fwd hs t (prv hs t m) ≫= (fun t => ps !! t)) _ _ Hlu1) as (h2 & -> & Hl2 & Hm2 & Hn2 & Hr2).
    cbn [option_bind mbind]. apply IH; [|lia].
    eapply patched_u; [exact Hu|exact Hux|exact Hp| |done|reflexivity].
    split; [|split; [|split]].
    + intros y j. rewrite Hl2, Hl1. destruct (decide (y = u /\ j = t)); done.
    + intros y. by rewrite Hm2, Hm1.
    + intros y Hy. by rewrite Hn2, Hn1.
    + congruence.
  - rewrite decide_False.
    2:{ destruct (fwd hs t (prv hs t m)) as [f|]; cbn; [|done]. intros Hfx. apply Hx. by eapply list_elem_of_lookup_2. }
    replace (lspan hs t (prv hs t m) + 1 - 1) with (lspan hs t (prv hs t m)) by lia. rewrite u32_small by lia.
    destruct (set_span_spec h u t (lspan hs t (prv hs t m)) _ _ Hlu) as (h1 & -> & Hup). cbn [option_bind mbind].
    apply IH; [|lia]. by eapply patched_u.
Qed.

(** The links after the loop. *)
Lemma del_links h k p i :
  patched h0 h x us (fun _ => None) del_u L -> ps !! k = Some p -> tall hs i k -> (i < L)%nat ->
  zlev h p i = Some (ZLevel (fwd hs i k ≫= (fun j => ps !! j)) (lspan hs i k)).
Proof.
  intros (Hl & _) Hp Hk Hi. destruct (del_update i Hi) as (u & Hu & Hpu & Hux & Htp & Hle & _). destruct del_x as [Hx Hnd].
  pose proof (del_tall0 i Hi) as H0.
  assert (p <> x) as Hpx by (intros ->; apply Hx; by eapply list_elem_of_lookup_2).
  rewrite Hl. unfold patch. rewrite (decide_True (P := (i < L)%nat)), (decide_False (P := p = x)) by done. rewrite Hu.
  destruct (decide (k = prv hs i m)) as [->|Hk0].
  - rewrite Hpu in Hp. injection Hp as <-. by rewrite decide_True.
  - rewrite (decide_False (P := p = u)) by (eapply nodup_ne; [exact Hnd|exact Hp|exact Hpu|done]). cbn.
    rewrite (zr_link _ _ _ _ _ Hrep (shift m k) p i); [|rewrite ins_shift by lia; done|apply tall_shift; [lia|done]|done].
    rewrite lspan_other, fwd_other by (done || lia). by rewrite del_fwd_ps.
Qed.

(** The sequence without [x], once the back pointer of its successor is set. *)
Lemma zrep_del h :
  (forall k p i, ps !! k = Some p -> tall hs i k -> (i < L)%nat ->
     zlev h p i = Some (ZLevel (fwd hs i k ≫= (fun j => ps !! j)) (lspan hs i k))) ->
  (forall y i, (L <= i)%nat -> zlev h y i = zlev h0 y i) ->
  (forall k p, ps !! k = Some p -> meta h p =
     if decide (k = S m) then (fun '(o, sc, _, n) => (o, sc, zback ps (S m), n)) <$> meta h0 p else meta h0 p) ->
  zrep h L ps hs es.
Proof.
  intros Hlinks Htop Hmo. destruct del_x as [Hx Hnd].
  assert (forall k, ps !! k = ins (S m) x ps !! shift m k) as Eps by (intros k; by rewrite ins_shift by lia).
  assert (forall k, hs !! k = ins (S m) lvl hs !! shift m k) as Ehs by (intros k; by rewrite ins_shift by lia).
  constructor; try done.
  - pose proof (zr_bound _ _ _ _ _ Hrep) as Hb. rewrite length_ins in Hb by lia. lia.
  - rewrite Ehs, shift_le by lia. apply (zr_height0 _ _ _ _ _ Hrep).
  - intros k hk Hk. rewrite Ehs in Hk. destruct (shift m (S k)) as [|k'] eqn:E; [unfold shift in E; by destruct (decide _)|].
    by apply (zr_heights _ _ _ _ _ Hrep k').
  - apply (zr_levels _ _ _ _ _ Hrep).
  - intros p Hp. rewrite (Hmo _ _ Hp), decide_False by lia. rewrite Eps, shift_le in Hp by lia. by apply (zr_header _ _ _ _ _ Hrep).
  - intros k p sc o hk Hp He Hk. rewrite (Hmo _ _ Hp). pose proof Hp as Hp0. rewrite Eps in Hp. rewrite Ehs in Hk.
    assert (exists k', shift m (S k) = S k' /\ ins m e es !! k' = Some (sc, o)) as (k' & Ek & He').
    { destruct (decide (k < m)%nat).
      - exists k. rewrite shift_le by lia. split; [done|]. by rewrite ins_lt by lia.
      - exists (S k). rewrite shift_gt by lia. split; [done|]. by rewrite ins_gt by lia. }
    rewrite Ek in Hp, Hk. rewrite (zr_meta _ _ _ _ _ Hrep k' p sc o hk Hp He' Hk). rewrite <-Ek, zback_shift by lia.
    destruct (decide (S k = S m)) as [E|]; [|done]. injection E as ->. done.
  - intros p i Hp Hi. rewrite Htop by lia. rewrite Eps, shift_le in Hp by lia. by apply (zr_top _ _ _ _ _ Hrep).
Qed.
End Delete.

(** ** Lowering the number of levels *)

Lemma zrep_lower h L ps hs es :
  zrep h (S L) ps hs es -> (0 < L)%nat -> fwd hs L 0 = None -> zrep h L ps hs es.
Proof.
  intros H HL Hf. pose proof (zr_heights _ _ _ _ _ H) as Hhs. pose proof (zr_link _ _ _ _ _ H) as Hlink.
  pose proof (zr_top _ _ _ _ _ H) as Htop. pose proof (zr_levels _ _ _ _ _ H) as HL32.
  pose proof (zrep_tall0 _ _ _ _ _ L H ltac:(lia)) as H0. destruct H. constructor; try done.
  - intros k hk Hk. destruct (Hhs k hk Hk). split; [done|]. destruct (decide (hk <= L)%nat); [done|]. exfalso.
    rewrite fwd_None in Hf. apply (Hf (S k)); [lia|]. exists hk. split; [done|lia].
  - lia.
  - intros k p i Hp Ht Hi. apply Hlink; [done|done|lia].
  - intros p i Hp Hi. destruct (decide (i = L)) as [->|].
    + eexists. rewrite (Hlink 0%nat p L Hp H0) by lia. rewrite Hf. cbn. reflexivity.
    + apply Htop; [done|lia].
Qed.

Lemma lower_loop_spec fuel : forall zsl h ps hs es,
  zrep h (levels zsl) ps hs es -> ps !! 0%nat = Some (header zsl) -> (levels zsl <= fuel)%nat ->
  exists zsl', lower_loop fuel zsl h = Some zsl' /\ zrep h (levels zsl') ps hs es /\ (levels zsl' <= levels zsl)%nat /\
    header zsl' = header zsl /\ tail zsl' = tail zsl /\ zlength zsl' = zlength zsl /\
    (levels zsl' = 1%nat \/ fwd hs (levels zsl' - 1) 0 <> None).
Proof.
  induction fuel as [|fuel IH]; intros zsl h ps hs es H Hhd Hf; pose proof (zr_levels _ _ _ _ _ H) as HL; [lia|].
  cbn [lower_loop]. assert (zlevel zsl = Z.of_nat (levels zsl)) as Ez by (unfold levels in *; lia). rewrite Ez.
  destruct (Z.ltb_spec 1 (Z.of_nat (levels zsl))) as [H1|H1].
  2:{ exists zsl. split_and!; try done. left. lia. }
  replace (Z.to_nat (Z.of_nat (levels zsl) - 1)) with (levels zsl - 1)%nat by lia.
  pose proof (zrep_tall0 _ _ _ _ _ (levels zsl - 1) H ltac:(lia)) as H0.
  rewrite (zr_link _ _ _ _ _ H 0%nat (header zsl) (levels zsl - 1) Hhd H0) by lia. cbn [option_bind mbind forward].
  destruct (fwd hs (levels zsl - 1) 0) as [j|] eqn:Hfw; cbn [option_bind mbind].
  - apply fwd_Some in Hfw as Hj. destruct Hj as (_ & Hj & _). apply tall_lt in Hj. rewrite (zr_length_hs _ _ _ _ _ H) in Hj.
    destruct (lookup_lt_is_Some_2 ps j Hj) as [p ->]. exists zsl. split_and!; try done. right. by rewrite Hfw.
  - assert (levels (set_zlevel zsl (Z.of_nat (levels zsl) - 1)) = (levels zsl - 1)%nat) as El by (unfold levels at 1; cbn; lia).
    destruct (IH (set_zlevel zsl (Z.of_nat (levels zsl) - 1)) h ps hs es) as (zsl' & E & H' & Hle & ? & ? & ? & ?).
    + rewrite El. apply zrep_lower; [|lia|done]. by replace (S (levels zsl - 1)) with (levels zsl) by lia.
    + done.
    + lia.
    + exists zsl'. split_and!; try done. lia.
Qed.
End Edit.
