(* ===== verification/SkiplistOps.v ===== *)
(** SkiplistOps: sorted sequences of elements, and the operations of a skip
    list at a given position of its sequence. *)
From Stdlib Require Import Sorting.Sorted.
From S2P Require Import Prelude SdsMore AdlistProofs Elements Skiplist SkiplistProofs SkiplistEdit.

Section Ops.
Context {O : Type} `{SO : StringObjects O} (junk_level : zskiplistLevel) (junk_backward : option zptr).
Implicit Types (h : zheap O) (x y p u : zptr) (i j k m t : nat) (us : list (zptr * Z)) (zsl : zskiplist).
Implicit Types (ps : list zptr) (hs : list nat) (es : list (double * O)) (L : nat).

Lemma zsl_rep_frame zsl h h' ps hs es :
  zsl_rep zsl h ps hs es -> (forall p, p ∈ ps -> znode h' p = znode h p) -> zsl_rep zsl h' ps hs es.
Proof. intros [Hr Hh Ht Hl Hti] Hf. constructor; try done. by eapply zrep_frame. Qed.

Lemma zsl_lengths zsl h ps hs es :
  zsl_rep zsl h ps hs es -> length hs = length ps /\ length ps = S (length es) /\ Z.of_nat (length es) < 2 ^ 32 - 1.
Proof. intros [Hr _ _ _ _]. destruct Hr. done. Qed.

Lemma zsl_nodup zsl h ps hs es : zsl_rep zsl h ps hs es -> NoDup ps.
Proof. intros [Hr _ _ _ _]. by destruct Hr. Qed.

Lemma zsl_header_in zsl h ps hs es : zsl_rep zsl h ps hs es -> header zsl ∈ ps.
Proof. intros H. eapply list_elem_of_lookup_2. apply (zs_header _ _ _ _ _ H). Qed.

Lemma zsl_search wrap test zsl h ps hs es m :
  zsl_rep zsl h ps hs es -> wraps wrap -> tests h ps test m -> (m <= length es)%nat ->
  exists p us, ps !! m = Some p /\ search wrap test zsl h = Some (p, Z.of_nat m, us) /\ updates ps hs m us (levels zsl).
Proof.
  intros H Hw Ht Hm. apply (zskip_search_spec wrap test zsl h (levels zsl) ps hs es m); try done.
  - apply (zs_rep _ _ _ _ _ H).
  - by apply (zs_zlevel _ _ _ _ _ H).
  - apply (zs_length _ _ _ _ _ H).
  - apply (zs_header _ _ _ _ _ H).
Qed.

(** The first link of a position. *)
Lemma zsl_next zsl h ps hs es k p :
  zsl_rep zsl h ps hs es -> ps !! k = Some p -> exists l, zlev h p 0 = Some l /\ forward l = ps !! S k.
Proof.
  intros H Hp. pose proof (zs_rep _ _ _ _ _ H) as Hr. pose proof (zr_levels _ _ _ _ _ Hr).
  destruct (zsl_lengths _ _ _ _ _ H) as (Hlh & Hle & _).
  assert (forall t, (t < length ps)%nat -> tall hs 0 t) as Htall.
  { intros [|t] Ht; [eapply zrep_tall0; [exact Hr|lia]|]. destruct (lookup_lt_is_Some_2 hs (S t)) as [ht Hht]; [lia|].
    exists ht. split; [done|]. by apply (zr_heights _ _ _ _ _ Hr t). }
  pose proof (lookup_lt_Some _ _ _ Hp).
  rewrite (zr_link _ _ _ _ _ Hr k p 0%nat Hp) by (first [lia|apply Htall; lia]). eexists. split; [reflexivity|]. cbn.
  destruct (decide (S k < length ps)%nat).
  - assert (fwd hs 0 k = Some (S k)) as ->; [|done]. apply fwd_Some. split; [lia|]. split; [by apply Htall|lia].
  - assert (fwd hs 0 k = None) as ->. { apply fwd_None. intros t Ht (? & Hht & _). apply lookup_lt_Some in Hht. lia. }
    cbn. symmetry. apply lookup_ge_None. lia.
Qed.

Lemma zsl_elem zsl h ps hs es k p :
  zsl_rep zsl h ps hs es -> ps !! S k = Some p -> exists sc o n, es !! k = Some (sc, o) /\ znode h p = Some n /\ obj n = Some o /\ score n = sc.
Proof.
  intros H Hp. destruct (zsl_lengths _ _ _ _ _ H) as (Hlh & Hle & _). pose proof (lookup_lt_Some _ _ _ Hp).
  destruct (zrep_elem _ _ _ _ _ k (zs_rep _ _ _ _ _ H)) as (p' & sc & o & hk & n & Hp' & He & _ & Hn & Ho & Hs & _); [lia|].
  rewrite Hp in Hp'. injection Hp' as <-. exists sc, o, n. done.
Qed.

(** ** Insertion *)

Lemma tight_ins hs m lvl i : (m < length hs)%nat -> tall hs i 0 ->
  (i < lvl)%nat \/ fwd hs i 0 <> None -> fwd (ins (S m) lvl hs) i 0 <> None.
Proof.
  intros Hm H0 Hcase E. rewrite fwd_None in E. destruct Hcase as [Hi|Hf].
  - apply (E (S m)); [lia|]. by apply tall_new.
  - destruct (fwd hs i 0) as [j|] eqn:Hj; [|done]. apply fwd_Some in Hj as (? & Ht & _).
    apply (E (shift m j)); [unfold shift; destruct (decide _); lia|]. by apply tall_shift.
Qed.

Lemma zsl_insert_spec zsl h ps hs es sc o lvl m :
  zsl_rep zsl h ps hs es -> isnan sc = false -> tests h ps (before false sc o) m -> (m <= length es)%nat ->
  (0 < lvl <= 32)%nat -> Z.of_nat (S (length es)) < 2 ^ 32 - 1 ->
  exists zsl' h' x, zslInsert junk_level junk_backward zsl h sc o (Z.of_nat lvl) = Some (zsl', h', x) /\
    zsl_rep zsl' h' (ins (S m) x ps) (ins (S m) lvl hs) (ins m (sc, o) es) /\ (x ∉ ps) /\ znode h x = None /\
    (forall y, y <> x -> y ∉ ps -> znode h' y = znode h y) /\ released h' = released h.
Proof.
  intros H Hnan Ht Hm Hlvl Hb. unfold zslInsert. rewrite Hnan.
  destruct (zsl_search u32 _ _ _ _ _ _ _ H wraps_u32 Ht Hm) as (p0 & us & _ & -> & Hus). cbn [option_bind mbind].
  pose proof (zs_rep _ _ _ _ _ H) as Hr. pose proof (zs_zlevel _ _ _ _ _ H) as HL. pose proof (zr_levels _ _ _ _ _ Hr) as HL32.
  destruct (zsl_lengths _ _ _ _ _ H) as (Hlh & Hle & _).
  destruct (Z.ltb_spec (zlevel zsl) (Z.of_nat lvl)) as [Hgrow|Hno].
  - replace (Z.to_nat (zlevel zsl)) with (levels zsl) by (unfold levels; lia).
    set (n := Z.to_nat (Z.of_nat lvl - zlevel zsl)). assert (levels zsl + n = lvl)%nat as Hn by lia.
    destruct (grow_loop_spec n zsl h (levels zsl) ps hs es Hr) as (h1 & -> & Hr1 & Hn1 & Hrel1);
      [lia|apply (zs_header _ _ _ _ _ H)|apply (zs_length _ _ _ _ _ H)|]. cbn [option_bind mbind].
    rewrite Hn in Hr1. pose proof (updates_grow _ _ _ _ _ m us n _ Hr (zs_header _ _ _ _ _ H) Hus) as Hus'. rewrite Hn in Hus'.
    destruct (insert_rest junk_level junk_backward (set_zlevel zsl (Z.of_nat lvl)) h1 lvl m ps hs es (us ++ replicate n (header zsl, 0)) sc o lvl Hr1) as (zsl' & h' & x & E & H' & Hx & Hf & Hfr & Hrel & _);
      [done|apply (zs_header _ _ _ _ _ H)|apply (zs_tail _ _ _ _ _ H)|apply (zs_length _ _ _ _ _ H)|done|lia|done|exact Hus'| |].
    { left. apply tight_ins; [lia|by eapply zrep_tall0; [exact Hr1|lia]|left; lia]. }
    exists zsl', h', x. split; [exact E|]. split; [done|]. split; [done|]. split.
    + rewrite <-Hn1; [done|]. intros ->. apply Hx. by eapply zsl_header_in.
    + split; [|congruence]. intros y Hyx Hyp. rewrite Hfr by done. apply Hn1. intros ->. apply Hyp. by eapply zsl_header_in.
  - cbn [option_bind mbind].
    destruct (insert_rest junk_level junk_backward zsl h (levels zsl) m ps hs es us sc o lvl Hr HL) as (zsl' & h' & x & E & H' & Hx & Hf & Hfr & Hrel & _);
      [apply (zs_header _ _ _ _ _ H)|apply (zs_tail _ _ _ _ _ H)|apply (zs_length _ _ _ _ _ H)|done|lia|done|exact Hus| |].
    { destruct (zs_tight _ _ _ _ _ H) as [->|Htight]; [by right|left].
      apply tight_ins; [lia|by eapply zrep_tall0; [exact Hr|lia]|by right]. }
    exists zsl', h', x. done.
Qed.

(** ** Deletion of the node after position [m] *)

Lemma delete_node_spec zsl h lvl m ps hs es x sc o us L0 :
  zsl_rep zsl h (ins (S m) x ps) (ins (S m) lvl hs) (ins m (sc, o) es) ->
  length ps = S (length es) -> length hs = length ps -> (m <= length es)%nat ->
  updates ps hs m us L0 -> (levels zsl <= L0)%nat ->
  exists zsl' h', zslDeleteNode zsl h x us = Some (zsl', h') /\ zsl_rep zsl' h' ps hs es /\ (levels zsl' <= levels zsl)%nat /\
    (forall y, y <> x -> y ∉ ps -> znode h' y = znode h y) /\ (exists n, znode h' x = Some n /\ obj n = Some o) /\
    released h' = released h.
Proof.
  intros H Hlp Hlh Hm Hus HL0. pose proof (zs_rep _ _ _ _ _ H) as Hr. unfold zslDeleteNode.
  fold (levels zsl). destruct (del_x _ _ _ _ _ _ _ _ _ Hr) as [Hx Hnd].
  destruct (unlink_loop_spec h (levels zsl) lvl m ps hs es x (sc, o) us L0 Hr Hlp Hlh Hm Hus HL0 (levels zsl) h 0) as (h1 & E1 & Hp1);
    [apply patched_0|lia|]. rewrite drop_0 in E1. rewrite E1. cbn [option_bind mbind].
  pose proof Hp1 as (Hl1 & Hm1 & Hn1 & Hr1).
  assert (meta h x = Some (Some o, sc, zback (ins (S m) x ps) (S m), lvl)) as Hmx.
  { apply (zr_meta _ _ _ _ _ Hr m); by rewrite ins_eq by lia. }
  pose proof Hmx as Hmx1. rewrite <-Hm1 in Hmx1. destruct (meta_node _ _ _ _ _ _ Hmx1) as (n & Hn & Hno & Hns & Hnb & Hnl).
  rewrite Hn. cbn [option_bind mbind].
  destruct (zsl_next _ _ _ _ _ (S m) x H) as (l & Hl & Hfl); [by rewrite ins_eq by lia|].
  rewrite ins_gt in Hfl by lia.
  assert (zlev h1 x 0 = zlev h x 0) as Hlx. { rewrite Hl1. unfold patch. destruct (decide _); [|done]. by rewrite decide_True. }
  rewrite Hl in Hlx. unfold zlev in Hlx. rewrite Hn in Hlx. cbn [option_bind mbind] in Hlx. rewrite Hlx. cbn [option_bind mbind].
  rewrite Hfl, Hnb.
  assert (zback (ins (S m) x ps) (S m) = zback ps (S m)) as ->. { destruct m as [|m']; [done|]. cbn [zback]. by rewrite ins_lt by lia. }
  assert (Hpx : forall k p, ps !! k = Some p -> p <> x) by (intros k p Hk ->; apply Hx; by eapply list_elem_of_lookup_2).
  assert (Hfr1 : forall y, y <> x -> y ∉ ps -> znode h1 y = znode h y).
  { intros y Hyx Hyp. apply Hn1; [done|]. intros j r Hj. destruct Hus as [Hul Hu]. pose proof (lookup_lt_Some _ _ _ Hj).
    destruct (Hu j) as (u & Hu1 & Hu2); [lia|]. rewrite Hu1 in Hj. injection Hj as -> _. apply Hyp. by eapply list_elem_of_lookup_2. }
  assert (Hlinks : forall k p i, ps !! k = Some p -> tall hs i k -> (i < levels zsl)%nat ->
    zlev h1 p i = Some (ZLevel (fwd hs i k ≫= (fun j => ps !! j)) (lspan hs i k))).
  { intros k p i. by apply (del_links h (levels zsl) lvl m ps hs es x (sc, o) us L0 Hr Hlp Hlh Hm Hus HL0). }
  assert (Htop1 : forall y i, (levels zsl <= i)%nat -> zlev h1 y i = zlev h y i).
  { intros y i Hi. by apply (patched_old _ _ _ _ _ _ _ _ _ Hp1). }
  (* the successor or the tail *)
  assert (exists zsl2 h2, (match ps !! S m with
      | Some f => h2 ← set_backward h1 f (zback ps (S m)); Some (zsl, h2)
      | None => Some (set_ztail zsl (zback ps (S m)), h1) end) = Some (zsl2, h2) /\
    zrep h2 (levels zsl) ps hs es /\ levels zsl2 = levels zsl /\ header zsl2 = header zsl /\ tail zsl2 = zback ps (length ps) /\
    zlength zsl2 = zlength zsl /\ (forall y, y ∉ ps -> znode h2 y = znode h1 y) /\ released h2 = released h1)
    as (zsl2 & h2 & -> & Hr2 & Hlv2 & Hhd2 & Htl2 & Hln2 & Hn2 & Hrel2).
  { destruct (ps !! S m) as [f|] eqn:Hf.
    - assert (exists nf, znode h1 f = Some nf) as [nf Hnf].
      { destruct (zsl_elem _ _ _ _ _ (S m) f H) as (? & ? & nf & _ & Hnf & _); [by rewrite ins_gt by lia|].
        pose proof (Hm1 f) as E. unfold meta in E. rewrite Hnf in E. destruct (znode h1 f); [by eexists|done]. }
      destruct (set_backward_spec h1 f (zback ps (S m)) nf Hnf) as (h2 & -> & Hl2 & Hm2 & Hn2 & Hr2). cbn [option_bind mbind].
      exists zsl, h2. split; [done|]. split; [|split; [done|split; [done|split; [|split; [done|split; [|done]]]]]].
      + eapply (zrep_del h (levels zsl) lvl m ps hs es x (sc, o)); [eassumption..| | |].
        * intros k p i. rewrite Hl2. by apply Hlinks.
        * intros y i. rewrite Hl2. by apply Htop1.
        * intros k p Hk. rewrite Hm2. destruct (decide (k = S m)) as [->|Hne].
          -- rewrite Hf in Hk. injection Hk as <-. rewrite decide_True by done. rewrite <-Hm1. unfold meta. by rewrite Hnf.
          -- rewrite decide_False; [by rewrite Hm1|]. eapply nodup_ne; [exact Hnd|exact Hk|exact Hf|done].
      + rewrite (zs_tail _ _ _ _ _ H), length_ins by lia. pose proof (lookup_lt_Some _ _ _ Hf).
        rewrite <-(shift_gt m (length ps)) by lia. rewrite zback_shift by lia. by rewrite decide_False by lia.
      + intros y Hy. apply Hn2. intros ->. apply Hy. by eapply list_elem_of_lookup_2.
    - exists (set_ztail zsl (zback ps (S m))), h1. split; [done|]. split; [|split; [done|split; [done|split; [|done]]]].
      + eapply (zrep_del h (levels zsl) lvl m ps hs es x (sc, o)); [eassumption..| | |]; [done|done|].
        intros k p Hk. rewrite decide_False; [by rewrite Hm1|]. intros ->. congruence.
      + cbn [set_ztail tail]. apply lookup_ge_None in Hf. by replace (length ps) with (S m) by lia. }
  cbn [option_bind mbind]. pose proof (zr_levels _ _ _ _ _ Hr).
  destruct (lower_loop_spec (Z.to_nat (zlevel zsl2) + 1) zsl2 h2 ps hs es) as (zsl3 & -> & Hr3 & Hle3 & Hhd3 & Htl3 & Hln3 & Htight3).
  { by rewrite Hlv2. }
  { rewrite Hhd2. pose proof (zs_header _ _ _ _ _ H) as Hh. by rewrite ins_lt in Hh by lia. }
  { unfold levels. lia. }
  cbn [option_bind mbind]. eexists _, h2. split; [reflexivity|]. split; [|split; [|split; [|split]]].
  - constructor; cbn [header tail zlength set_zlength]; try done.
    + pose proof (zs_header _ _ _ _ _ H) as Hh. rewrite ins_lt in Hh by lia. congruence.
    + congruence.
    + rewrite Hln3, Hln2, (zs_length _ _ _ _ _ H), length_ins by lia.
      pose proof (zr_bound _ _ _ _ _ Hr3). rewrite u64_small by lia. lia.
  - unfold levels in Hle3, Hlv2 |- *. cbn. lia.
  - intros y Hyx Hyp. by rewrite Hn2, Hfr1.
  - exists n. split; [|done]. by rewrite Hn2.
  - congruence.
Qed.

(** The node freed afterwards. *)
Lemma free_node_spec zsl h ps hs es x n o :
  zsl_rep zsl h ps hs es -> x ∉ ps -> znode h x = Some n -> obj n = Some o ->
  exists h', zslFreeNode h x = Some h' /\ zsl_rep zsl h' ps hs es /\ znode h' x = None /\
    (forall y, y <> x -> znode h' y = znode h y) /\ released h' = o :: released h.
Proof.
  intros H Hx Hn Ho. unfold zslFreeNode. rewrite Hn. cbn [option_bind mbind]. rewrite Ho. cbn [option_bind mbind].
  unfold zfree, znode in *. cbn [znodes released]. rewrite Hn. cbn [option_bind mbind]. eexists. split; [reflexivity|]. cbn [znodes released].
  assert (forall y, y <> x -> delete x (znodes h) !! y = znodes h !! y) as Hne by (intros y Hy; by apply lookup_delete_ne).
  split; [|split; [apply lookup_delete_eq|split; [done|done]]]. eapply zsl_rep_frame; [exact H|]. intros p Hp. unfold znode. cbn. apply Hne.
  by intros ->.
Qed.
End Ops.

(** The order of scores and of the elements of a sorted set, and
    sequences sorted by it. *)
(** ** The order of doubles *)

(** Lexicographic comparison of triples. *)
Definition cmp3 (a b : Z * Z * Z) : comparison :=
  let '(a1, a2, a3) := a in let '(b1, b2, b3) := b in
  match a1 ?= b1 with Eq => match a2 ?= b2 with Eq => a3 ?= b3 | c => c end | c => c end.

Definition score_key (d : double) : Z * Z * Z :=
  match d with
  | S754_zero _ => (0, 0, 0)
  | S754_infinity s => (if s then -2 else 2, 0, 0)
  | S754_nan => (0, 0, 0)
  | S754_finite s m e => if s then (-1, - e, - Zpos m) else (1, e, Zpos m)
  end.

Lemma cmp3_lt a b : cmp3 a b = Lt <->
  a.1.1 < b.1.1 \/ (a.1.1 = b.1.1 /\ (a.1.2 < b.1.2 \/ (a.1.2 = b.1.2 /\ a.2 < b.2))).
Proof.
  destruct a as [[a1 a2] a3], b as [[b1 b2] b3]. cbn.
  destruct (Z.compare_spec a1 b1); [|split; [lia|done]|split; [done|lia]].
  destruct (Z.compare_spec a2 b2); [|split; [lia|done]|split; [done|lia]].
  destruct (Z.compare_spec a3 b3); split; try done; lia.
Qed.
Lemma cmp3_eq a b : cmp3 a b = Eq <-> a = b.
Proof.
  destruct a as [[a1 a2] a3], b as [[b1 b2] b3]. cbn.
  destruct (Z.compare_spec a1 b1), (Z.compare_spec a2 b2), (Z.compare_spec a3 b3);
    (split; [intros; try done; congruence|intros [= ? ? ?]; try lia; done]).
Qed.
Lemma cmp3_opp a b : cmp3 b a = CompOpp (cmp3 a b).
Proof.
  destruct a as [[a1 a2] a3], b as [[b1 b2] b3]. cbn.
  rewrite (Z.compare_antisym a1), (Z.compare_antisym a2), (Z.compare_antisym a3).
  by destruct (a1 ?= b1), (a2 ?= b2), (a3 ?= b3).
Qed.

Lemma SFcompare_key a b : isnan a = false -> isnan b = false -> SFcompare a b = Some (cmp3 (score_key a) (score_key b)).
Proof.
  intros Ha Hb. destruct a as [|[]| |[] ma ea], b as [|[]| |[] mb eb]; try done; cbn.
  - rewrite (Z.compare_opp ea eb). rewrite (Z.compare_antisym ea eb). by destruct (ea ?= eb).
Qed.

(** ** Elements: a score and an object *)

Section Order.
Context {O : Type} `{SO : StringObjects O}.
Implicit Types (e t : double * O) (es : list (double * O)).

Definition ecmp e t : comparison :=
  match cmp3 (score_key e.1) (score_key t.1) with Eq => lex (obj_content e.2) (obj_content t.2) | c => c end.
Definition elt e t : Prop := ecmp e t = Lt.

Lemma ecmp_opp e t : ecmp t e = CompOpp (ecmp e t).
Proof.
  unfold ecmp. rewrite (cmp3_opp (score_key e.1)), (lex_antisym (obj_content e.2)).
  by destruct (cmp3 (score_key e.1) (score_key t.1)).
Qed.

Lemma elt_trans e1 e2 e3 : elt e1 e2 -> elt e2 e3 -> elt e1 e3.
Proof.
  unfold elt, ecmp. destruct (cmp3 (score_key e1.1) (score_key e2.1)) eqn:E1; intros H1; try done;
    destruct (cmp3 (score_key e2.1) (score_key e3.1)) eqn:E2; intros H2; try done.
  - apply cmp3_eq in E1 as ->. rewrite E2. by eapply lex_trans.
  - apply cmp3_eq in E1 as ->. by rewrite E2.
  - apply cmp3_eq in E2 as <-. by rewrite E1.
  - rewrite (proj2 (cmp3_lt (score_key e1.1) (score_key e3.1))); [done|].
    apply cmp3_lt in E1, E2. lia.
Qed.

Lemma elt_irrefl e : ~ elt e e.
Proof. unfold elt, ecmp. rewrite (proj2 (cmp3_eq _ _) eq_refl), lex_refl. done. Qed.

Lemma ecmp_eq e t : ecmp e t = Eq <-> score_key e.1 = score_key t.1 /\ obj_content e.2 = obj_content t.2.
Proof.
  unfold ecmp. destruct (cmp3 (score_key e.1) (score_key t.1)) eqn:E.
  - apply cmp3_eq in E. rewrite E. split; [intros ?; split; [done|by apply lex_eq]|intros [_ ->]; apply lex_refl].
  - split; [done|]. intros [E' _]. rewrite E', (proj2 (cmp3_eq _ _) eq_refl) in E. done.
  - split; [done|]. intros [E' _]. rewrite E', (proj2 (cmp3_eq _ _) eq_refl) in E. done.
Qed.

(** What a sorted set guarantees of its elements. *)
Record zset_ok es : Prop := ZsetOk {
  zo_nan e : e ∈ es -> isnan e.1 = false;
  zo_obj e : e ∈ es -> obj_ok e.2;
  zo_sorted : StronglySorted elt es;
  zo_unique : NoDup ((fun e => obj_content e.2) <$> es) }.

Lemma sorted_app es1 es2 :
  StronglySorted elt (es1 ++ es2) <-> StronglySorted elt es1 /\ StronglySorted elt es2 /\ forall e1 e2, e1 ∈ es1 -> e2 ∈ es2 -> elt e1 e2.
Proof.
  induction es1 as [|e es1 IH]; cbn [app].
  - split; [intros H; split; [constructor|split; [done|by intros ? ? ?%not_elem_of_nil]]|by intros (_ & ? & _)].
  - split.
    + intros H. inversion H as [|? ? Hs Hf]; subst. apply IH in Hs as (H1 & H2 & H12). apply Forall_app in Hf as [Hf1 Hf2].
      split; [by constructor|]. split; [done|]. intros a b [->|Ha]%elem_of_cons Hb; [|by apply H12].
      rewrite Forall_forall in Hf2. by apply Hf2.
    + intros (H1 & H2 & H12). inversion H1 as [|? ? Hs Hf]; subst. constructor.
      * apply IH. split; [done|]. split; [done|]. intros a b Ha Hb. apply H12; [by right|done].
      * apply Forall_app. split; [done|]. apply Forall_forall. intros b Hb. apply H12; [by left|done].
Qed.

(** ** Prefixes given by a test on elements *)

(** A test that holds of every element before one it holds of. *)
Definition downward (P : double * O -> bool) es : Prop :=
  forall e t, e ∈ es -> t ∈ es -> elt e t -> P t = true -> P e = true.

Definition count (P : double * O -> bool) es : nat := length (filter (fun e => P e = true) es).

Lemma filter_prefix P es :
  StronglySorted elt es -> downward P es ->
  es = filter (fun e => P e = true) es ++ filter (fun e => P e = false) es.
Proof.
  induction 1 as [|e es Hs IH Hf]; intros Hd; [done|].
  assert (downward P es) as Hd' by (intros a b Ha Hb; apply Hd; by right).
  destruct (P e) eqn:HP.
  - rewrite filter_cons_True by done. rewrite (filter_cons_False (fun e => P e = false)) by by rewrite HP. cbn [app]. f_equal. by apply IH.
  - assert (Forall (fun t => P t = false) es) as Hall.
    { apply Forall_forall. intros t Ht. rewrite Forall_forall in Hf. destruct (P t) eqn:HPt; [|done].
      rewrite (Hd e t) in HP; [done|by left|by right|by apply Hf|done]. }
    rewrite filter_cons_False by by rewrite HP. rewrite (filter_cons_True (fun e => P e = false)) by done.
    rewrite list_filter_none by (eapply Forall_impl; [exact Hall|]; cbn; by intros ? ->).
    by rewrite (list_filter_all (fun e => P e = false)).
Qed.

Lemma prefix_lookup P es j e :
  StronglySorted elt es -> downward P es -> es !! j = Some e -> P e = bool_decide (S j <= count P es)%nat.
Proof.
  intros Hs Hd Hj. rewrite (filter_prefix P es Hs Hd) in Hj. unfold count.
  destruct (decide (j < length (filter (fun e => P e = true) es))%nat) as [Hlt|Hge].
  - rewrite lookup_app_l in Hj by done. rewrite bool_decide_eq_true_2 by lia.
    apply list_elem_of_lookup_2, list_elem_of_filter in Hj. tauto.
  - rewrite lookup_app_r in Hj by lia. rewrite bool_decide_eq_false_2 by lia.
    apply list_elem_of_lookup_2, list_elem_of_filter in Hj. tauto.
Qed.

Lemma count_le P es : (count P es <= length es)%nat.
Proof. apply length_filter. Qed.

Lemma take_count P es :
  StronglySorted elt es -> downward P es -> take (count P es) es = filter (fun e => P e = true) es.
Proof. intros Hs Hd. rewrite (filter_prefix P es Hs Hd) at 2. apply take_app_length. Qed.
Lemma drop_count P es :
  StronglySorted elt es -> downward P es -> drop (count P es) es = filter (fun e => P e = false) es.
Proof. intros Hs Hd. rewrite (filter_prefix P es Hs Hd) at 2. apply drop_app_length. Qed.

(** *** The tests of the searches *)

Definition elt_b t e : bool := match ecmp e t with Lt => true | _ => false end.
Definition ele_b t e : bool := match ecmp e t with Gt => false | _ => true end.

Lemma downward_elt t es : downward (elt_b t) es.
Proof.
  intros a b _ _ Hab Hb. unfold elt_b in *. destruct (ecmp b t) eqn:E; try done.
  by rewrite (elt_trans a b t Hab E).
Qed.

Lemma downward_ele t es : downward (ele_b t) es.
Proof.
  intros a b _ _ Hab Hb. unfold ele_b in *. destruct (ecmp b t) eqn:E; try done.
  - assert (ecmp a t = Lt) as ->; [|done]. apply ecmp_eq in E as [E1 E2]. unfold elt, ecmp in *. by rewrite <-E1, <-E2.
  - by rewrite (elt_trans a b t Hab E).
Qed.

(** *** Tests on the score *)

Lemma elt_score e t : elt e t -> cmp3 (score_key e.1) (score_key t.1) <> Gt.
Proof. unfold elt, ecmp. by destruct (cmp3 _ _). Qed.

Lemma SFltb_key a b : isnan a = false -> isnan b = false ->
  SFltb a b = match cmp3 (score_key a) (score_key b) with Lt => true | _ => false end.
Proof. intros Ha Hb. unfold SFltb. rewrite SFcompare_key by done. by destruct (cmp3 _ _). Qed.
Lemma SFleb_key a b : isnan a = false -> isnan b = false ->
  SFleb a b = match cmp3 (score_key a) (score_key b) with Gt => false | _ => true end.
Proof. intros Ha Hb. unfold SFleb. rewrite SFcompare_key by done. by destruct (cmp3 _ _). Qed.
Lemma SFeqb_key a b : isnan a = false -> isnan b = false ->
  SFeqb a b = match cmp3 (score_key a) (score_key b) with Eq => true | _ => false end.
Proof. intros Ha Hb. unfold SFeqb. rewrite SFcompare_key by done. by destruct (cmp3 _ _). Qed.

Lemma cmp3_le_lt_trans a b c : cmp3 a b <> Gt -> cmp3 b c = Lt -> cmp3 a c = Lt.
Proof.
  intros H1 H2. destruct (cmp3 a b) eqn:E; [|..|done].
  - apply cmp3_eq in E as ->. done.
  - apply cmp3_lt in E, H2. apply cmp3_lt. lia.
Qed.
Lemma cmp3_le_trans a b c : cmp3 a b <> Gt -> cmp3 b c <> Gt -> cmp3 a c <> Gt.
Proof.
  intros H1 H2. destruct (cmp3 b c) eqn:E; [|..|done].
  - apply cmp3_eq in E as <-. done.
  - by rewrite (cmp3_le_lt_trans a b c H1 E).
Qed.
End Order.
