(* ===== verification/SkiplistSpec.v ===== *)
(** SkiplistSpec: the skip list refines a sorted sequence of elements. *)
From Stdlib Require Import Sorting.Sorted.
From stdpp Require Import sets.
From S2P Require Import Prelude SdsMore Elements AdlistProofs Skiplist SkiplistProofs SkiplistEdit SkiplistOps.

Section Spec.
Context {O : Type} `{SO : StringObjects O} {D : Type} (dictDelete : D -> O -> D).
Context (junk_level : zskiplistLevel) (junk_backward : option zptr).
Implicit Types (h : zheap O) (x p : zptr) (es : list (double * O)) (t e : double * O) (zsl : zskiplist) (d : D).

(** The sorted set is [es], in nodes allocated since [h0]; nothing else
    changed. *)
Definition owned (h0 h : zheap O) (ps : list zptr) : Prop :=
  (forall q, q ∈ ps -> znode h0 q = None) /\ (forall q, q ∉ ps -> znode h q = znode h0 q).

Definition zset_rep (h0 : zheap O) zsl h es : Prop :=
  zset_ok es /\ exists ps hs, zsl_rep zsl h ps hs es /\ owned h0 h ps.

(** ** Searches by a test on elements *)

Lemma tests_of zsl h ps hs es P test :
  zsl_rep zsl h ps hs es -> zset_ok es -> downward P es ->
  (forall n e r, e ∈ es -> score n = e.1 -> obj n = Some e.2 -> test n r = Some (P e)) -> tests h ps test (count P es).
Proof.
  intros H Hok Hd Htest j p n Hp Hn. destruct (zsl_elem _ _ _ _ _ j p H Hp) as (sc & o & n' & He & Hn' & Ho & Hs).
  rewrite Hn in Hn'. injection Hn' as <-. rewrite (Htest n (sc, o)) by (done || by eapply list_elem_of_lookup_2).
  f_equal. apply prefix_lookup; [apply (zo_sorted _ Hok)|done|done].
Qed.

Lemma before_test (or_equal : bool) t es n e r :
  zset_ok es -> isnan t.1 = false -> obj_ok t.2 -> e ∈ es -> score n = e.1 -> obj n = Some e.2 ->
  before or_equal t.1 t.2 n r = Some ((if or_equal then ele_b else elt_b) t e).
Proof.
  intros Hok Hnan Ho He Hs Hob. pose proof (zo_nan _ Hok e He) as Hne. pose proof (zo_obj _ Hok e He) as Hoe.
  unfold before. rewrite Hs, Hob, SFltb_key, SFeqb_key by done.
  assert ((if or_equal then ele_b else elt_b) t e = match ecmp e t with Lt => true | Eq => or_equal | Gt => false end) as ->
    by (destruct or_equal; unfold ele_b, elt_b; by destruct (ecmp e t)).
  unfold ecmp. destruct (cmp3 (score_key e.1) (score_key t.1)); [|done|done]. cbn [option_bind mbind].
  destruct (obj_compare_lex e.2 t.2 Hoe Ho) as (c & -> & Hc). cbn [option_bind mbind]. rewrite <-Hc. f_equal.
  destruct or_equal; [unfold Z.leb|unfold Z.ltb]; by destruct (c ?= 0).
Qed.

Lemma search_elt (or_equal : bool) wrap t zsl h ps hs es :
  zsl_rep zsl h ps hs es -> zset_ok es -> isnan t.1 = false -> obj_ok t.2 -> wraps wrap ->
  let m := count ((if or_equal then ele_b else elt_b) t) es in
  tests h ps (before or_equal t.1 t.2) m.
Proof.
  intros H Hok Hnan Ho Hw m. eapply tests_of; [done|done| |].
  - destruct or_equal; [apply downward_ele|apply downward_elt].
  - intros n e r He Hs Hob. by eapply before_test.
Qed.

(** ** Insertion *)

Definition zinsert t es : list (double * O) :=
  filter (fun e => elt_b t e = true) es ++ t :: filter (fun e => elt_b t e = false) es.

Lemma ins_count t es : StronglySorted elt es -> ins (count (elt_b t) es) t es = zinsert t es.
Proof.
  intros Hs. unfold ins, zinsert. rewrite take_count, drop_count by (done || apply downward_elt). done.
Qed.

Lemma zinsert_perm t es : zinsert t es ≡ₚ t :: es.
Proof.
  unfold zinsert. rewrite <-Permutation_middle. constructor. clear. induction es as [|e es IH]; [done|].
  destruct (elt_b t e) eqn:E.
  - rewrite filter_cons_True by done. rewrite (filter_cons_False (fun e => elt_b t e = false)) by by rewrite E. cbn. by rewrite IH.
  - rewrite filter_cons_False by by rewrite E. rewrite (filter_cons_True (fun e => elt_b t e = false)) by done.
    rewrite <-Permutation_middle. by rewrite IH.
Qed.

Lemma zinsert_ok t es :
  zset_ok es -> isnan t.1 = false -> obj_ok t.2 -> obj_content t.2 ∉ (fun e => obj_content e.2) <$> es -> zset_ok (zinsert t es).
Proof.
  intros [Hn Ho Hs Hu] Hnan Hob Hnew. pose proof (zinsert_perm t es) as Hp. constructor.
  - intros e. rewrite Hp, elem_of_cons. intros [->|He]; [done|by apply Hn].
  - intros e. rewrite Hp, elem_of_cons. intros [->|He]; [done|by apply Ho].
  - pose proof (filter_prefix (elt_b t) es Hs (downward_elt t es)) as E. unfold zinsert.
    rewrite E in Hs. apply sorted_app in Hs as (H1 & H2 & H12). apply sorted_app. split; [done|]. split.
    + constructor; [done|]. apply Forall_forall. intros e (He & Hin)%list_elem_of_filter. unfold elt_b in He.
      unfold elt. rewrite ecmp_opp. destruct (ecmp e t) eqn:Ec; try done. exfalso. apply Hnew.
      apply ecmp_eq in Ec as [_ <-]. by apply (list_elem_of_fmap_2 (fun e => obj_content e.2)).
    + intros a b Ha [->|Hb]%elem_of_cons; [|by apply H12]. apply list_elem_of_filter in Ha as [Ha _].
      unfold elt_b in Ha. unfold elt. by destruct (ecmp a t).
  - rewrite Hp. cbn. by constructor.
Qed.

Lemma owned_ins h0 h h' ps x m :
  owned h0 h ps -> x ∉ ps -> znode h x = None -> (forall y, y <> x -> y ∉ ps -> znode h' y = znode h y) ->
  owned h0 h' (ins m x ps).
Proof.
  intros [Hnew Hfr] Hx Hn Hf. assert (forall q, q ∈ ins m x ps <-> q = x \/ q ∈ ps) as Hin by (intros q; by rewrite ins_perm, elem_of_cons).
  split.
  - intros q [->|Hq]%Hin; [by rewrite <-Hfr|by apply Hnew].
  - intros q Hq. rewrite Hin in Hq. rewrite Hf by tauto. apply Hfr. tauto.
Qed.

Lemma zslInsert_rep h0 zsl h es t lvl :
  zset_rep h0 zsl h es -> isnan t.1 = false -> obj_ok t.2 -> obj_content t.2 ∉ (fun e => obj_content e.2) <$> es ->
  1 <= lvl <= 32 -> Z.of_nat (S (length es)) < 2 ^ 32 - 1 ->
  exists zsl' h' x, zslInsert junk_level junk_backward zsl h t.1 t.2 lvl = Some (zsl', h', x) /\
    zset_rep h0 zsl' h' (zinsert t es) /\ released h' = released h /\
    exists n, znode h' x = Some n /\ score n = t.1 /\ obj n = Some t.2.
Proof.
  intros (Hok & ps & hs & H & Hown) Hnan Ho Hnew Hlvl Hb.
  pose proof (search_elt false u32 t zsl h ps hs es H Hok Hnan Ho wraps_u32) as Ht. cbv zeta in Ht.
  destruct (zsl_insert_spec junk_level junk_backward zsl h ps hs es t.1 t.2 (Z.to_nat lvl) _ H Hnan Ht) as (zsl' & h' & x & E & H' & Hx & Hf & Hfr & Hrel);
    [apply count_le|lia|done|]. rewrite Z2Nat.id in E by lia. exists zsl', h', x. split; [done|].
  destruct (zsl_lengths _ _ _ _ _ H) as (Hlh & Hle & _). pose proof (count_le (elt_b t) es) as Hc.
  split; [|split; [done|]].
  - split; [by apply zinsert_ok|]. rewrite <-surjective_pairing, ins_count in H' by apply (zo_sorted _ Hok).
    eexists _, _. split; [exact H'|]. by eapply owned_ins.
  - destruct (zsl_elem _ _ _ _ _ (count (elt_b t) es) x H') as (sc & o & n & He & Hn & Hno & Hns); [by rewrite ins_eq by lia|].
    rewrite ins_eq in He by lia. injection He as <- <-. by exists n.
Qed.

(** ** Deletion *)

Lemma ins_delete {A} k (x : A) (l : list A) : l !! k = Some x -> ins k x (delete k l) = l.
Proof.
  intros Hk. pose proof (lookup_lt_Some _ _ _ Hk). unfold ins. rewrite delete_take_drop.
  rewrite take_app_le by (rewrite length_take; lia). rewrite drop_app_ge by (rewrite length_take; lia).
  rewrite length_take, take_take, Nat.min_id, Nat.min_l, Nat.sub_diag, drop_0 by lia. by apply take_drop_middle.
Qed.

Lemma updates_del ps hs m us L x hk :
  hs !! 0%nat = Some 32%nat -> (L <= 32)%nat -> ps !! S m = Some x -> hs !! S m = Some hk ->
  updates ps hs m us L -> updates (delete (S m) ps) (delete (S m) hs) m us L.
Proof.
  intros H0 HL Hp Hh [Hl Hu]. split; [done|]. intros j Hj. destruct (Hu j Hj) as (p & Hp1 & Hp2). exists p.
  pose proof (lookup_lt_Some _ _ _ Hh). pose proof (lookup_lt_Some _ _ _ Hp).
  assert (tall (delete (S m) hs) j 0) as Ht0.
  { exists 32%nat. rewrite list_lookup_delete_lt by lia. split; [done|lia]. }
  assert (prv hs j m = prv (delete (S m) hs) j m) as E.
  { rewrite <-(ins_delete (S m) hk hs) at 1 by done. apply prv_ins; [|done]. rewrite length_delete by done. lia. }
  rewrite <-E. split; [done|]. destruct (prv_props (delete (S m) hs) j m Ht0) as (? & _). by rewrite list_lookup_delete_lt by lia.
Qed.

Lemma owned_delete h0 h h' ps x m :
  owned h0 h ps -> NoDup ps -> ps !! m = Some x -> znode h' x = None ->
  (forall y, y <> x -> y ∉ delete m ps -> znode h' y = znode h y) -> owned h0 h' (delete m ps).
Proof.
  intros [Hnew Hfr] Hnd Hm Hx Hf. pose proof (delete_Permutation _ _ _ Hm) as Hp.
  assert (forall q, q ∈ ps <-> q = x \/ q ∈ delete m ps) as Hin by (intros q; by rewrite Hp at 1; rewrite elem_of_cons).
  split.
  - intros q Hq. apply Hnew. rewrite Hin. by right.
  - intros q Hq. destruct (decide (q = x)) as [->|Hne].
    + rewrite Hx. symmetry. apply Hnew. rewrite Hin. by left.
    + rewrite Hf by done. apply Hfr. rewrite Hin. tauto.
Qed.

(** Removing the element at position [m], with the updates of any search
    for it. *)
Lemma delete_at h0 zsl h ps hs es m x sc o us L0 :
  zsl_rep zsl h ps hs es -> owned h0 h ps -> es !! m = Some (sc, o) -> ps !! S m = Some x ->
  updates ps hs m us L0 -> (levels zsl <= L0 <= 32)%nat ->
  exists zsl' h1 h2 n, zslDeleteNode zsl h x us = Some (zsl', h1) /\ znode h1 x = Some n /\ obj n = Some o /\
    zslFreeNode h1 x = Some h2 /\ zsl_rep zsl' h2 (delete (S m) ps) (delete (S m) hs) (delete m es) /\
    owned h0 h2 (delete (S m) ps) /\ updates (delete (S m) ps) (delete (S m) hs) m us L0 /\
    (levels zsl' <= levels zsl)%nat /\ released h2 = o :: released h.
Proof.
  intros H Hown He Hx Hus HL0. destruct (zsl_lengths _ _ _ _ _ H) as (Hlh & Hle & _). pose proof (zsl_nodup _ _ _ _ _ H) as Hnd.
  pose proof (lookup_lt_Some _ _ _ He). pose proof (lookup_lt_Some _ _ _ Hx).
  destruct (lookup_lt_is_Some_2 hs (S m)) as [lvl Hlvl]; [lia|].
  pose proof (zr_height0 _ _ _ _ _ (zs_rep _ _ _ _ _ H)) as Hh0.
  assert (updates (delete (S m) ps) (delete (S m) hs) m us L0) as Hus' by (eapply updates_del; [done|lia|done|done|done]).
  assert (zsl_rep zsl h (ins (S m) x (delete (S m) ps)) (ins (S m) lvl (delete (S m) hs)) (ins m (sc, o) (delete m es))) as H'
    by (by rewrite !ins_delete).
  destruct (delete_node_spec zsl h lvl m _ _ _ x sc o us L0 H') as (zsl' & h1 & E1 & Hz1 & Hlv & Hfr1 & (n & Hn & Hno) & Hr1);
    [rewrite !length_delete by done; lia|rewrite !length_delete by done; lia|rewrite length_delete by done; lia|done|lia|].
  assert (x ∉ delete (S m) ps) as Hxn.
  { pose proof (delete_Permutation _ _ _ Hx) as Hp. rewrite Hp in Hnd. by apply NoDup_cons in Hnd as [? _]. }
  destruct (free_node_spec zsl' h1 _ _ _ x n o Hz1 Hxn Hn Hno) as (h2 & E2 & Hz2 & Hgone & Hfr2 & Hr2).
  exists zsl', h1, h2, n. do 5 (split; [done|]). split; [|split; [done|split; [done|congruence]]].
  eapply owned_delete; try done. intros y Hy Hyn. by rewrite Hfr2, Hfr1.
Qed.

Lemma zset_ok_delete es m : zset_ok es -> zset_ok (delete m es).
Proof.
  intros [Hn Ho Hs Hu]. assert (forall e, e ∈ delete m es -> e ∈ es) as Hsub.
  { intros e. rewrite delete_take_drop. intros [He|He]%elem_of_app; [rewrite <-(take_drop m es)|rewrite <-(take_drop (S m) es)];
      apply elem_of_app; [by left|by right]. }
  constructor; try (intros e He; auto).
  - rewrite <-(take_drop m es) in Hs. rewrite delete_take_drop. apply sorted_app in Hs as (H1 & H2 & H12).
    rewrite <-(take_drop 1 (drop m es)), drop_drop in H2. rewrite Nat.add_1_r in H2. apply sorted_app in H2 as (_ & H2 & _).
    apply sorted_app. split; [done|]. split; [done|]. intros a b Ha Hb. apply H12; [done|].
    rewrite <-(take_drop 1 (drop m es)), drop_drop, Nat.add_1_r. apply elem_of_app. by right.
  - eapply sublist_NoDup; [exact Hu|]. apply fmap_sublist, sublist_delete.
Qed.

(** The element equal to [t] is the first that is not less. *)
Lemma lookup_equal t es :
  zset_ok es ->
  match filter (fun e => ecmp e t = Eq) es with
  | [] => match es !! count (elt_b t) es with Some e => ecmp e t = Gt | None => True end
  | e :: rest => es !! count (elt_b t) es = Some e /\ rest = [] /\ ecmp e t = Eq /\ filter (fun e => ecmp e t <> Eq) es = delete (count (elt_b t) es) es
  end.
Proof.
  intros [_ _ Hs Hu]. pose proof (filter_prefix (elt_b t) es Hs (downward_elt t es)) as E. unfold count.
  set (A := filter (fun e => elt_b t e = true) es) in *. set (B := filter (fun e => elt_b t e = false) es) in *.
  assert (forall e, e ∈ A -> ecmp e t = Lt) as HA.
  { intros e [He _]%list_elem_of_filter. unfold elt_b in He. by destruct (ecmp e t). }
  assert (forall e, e ∈ B -> ecmp e t <> Lt) as HB.
  { intros e [He _]%list_elem_of_filter. unfold elt_b in He. by destruct (ecmp e t). }
  clearbody A B. subst es. rewrite filter_app. rewrite (list_filter_none _ A) by (apply Forall_forall; intros e He; by rewrite HA).
  cbn [app].
  destruct B as [|e B].
  { cbn. by rewrite lookup_app_r, Nat.sub_diag by lia. }
  apply sorted_app in Hs as (_ & Hs & _). inversion Hs as [|? ? _ Hf]; subst. rewrite Forall_forall in Hf.
  assert (forall b, b ∈ B -> ecmp b t = Gt) as HBgt.
  { intros b Hb. pose proof (HB b ltac:(by right)) as Hbt. pose proof (HB e ltac:(by left)) as Het. pose proof (Hf b Hb) as Heb.
    destruct (ecmp b t) eqn:Ec; [|done|done]. exfalso. apply Het. unfold elt, ecmp in *. apply ecmp_eq in Ec as [E1 E2].
    by rewrite <-E1, <-E2. }
  rewrite list_lookup_middle by done.
  assert (filter (fun e => ecmp e t = Eq) B = []) as HBno.
  { apply list_filter_none, Forall_forall. intros b Hb. by rewrite HBgt. }
  destruct (ecmp e t) eqn:Ec.
  - rewrite filter_cons_True, HBno by done. split; [done|]. split; [done|]. split; [done|].
    rewrite filter_app, delete_middle. rewrite (list_filter_all _ A) by (apply Forall_forall; intros a Ha; by rewrite HA).
    rewrite filter_cons_False by (intros X; by apply X). rewrite list_filter_all; [done|]. apply Forall_forall. intros b Hb. by rewrite HBgt.
  - exfalso. apply (HB e); [by left|done].
  - rewrite filter_cons_False by by rewrite Ec. by rewrite HBno.
Qed.

Definition zdelete t es : list (double * O) := filter (fun e => ecmp e t <> Eq) es.
Definition zfind t es : list (double * O) := filter (fun e => ecmp e t = Eq) es.

Lemma zslDelete_rep h0 zsl h es t :
  zset_rep h0 zsl h es -> isnan t.1 = false -> obj_ok t.2 ->
  exists zsl' h', zslDelete zsl h t.1 t.2 = Some (zsl', h', negb (bool_decide (zfind t es = []))) /\
    zset_rep h0 zsl' h' (zdelete t es) /\ released h' = (snd <$> zfind t es) ++ released h.
Proof.
  intros (Hok & ps & hs & H & Hown) Hnan Ho. pose proof (search_elt false u32 t zsl h ps hs es H Hok Hnan Ho wraps_u32) as Ht.
  cbv zeta iota in Ht. pose proof (count_le (elt_b t) es) as Hc. set (m := count (elt_b t) es) in *.
  destruct (zsl_search u32 _ _ _ _ _ _ _ H wraps_u32 Ht Hc) as (p & us & Hp & E & Hus).
  unfold zslDelete. rewrite E. cbn [option_bind mbind].
  destruct (zsl_next _ _ _ _ _ m p H Hp) as (l & -> & Hl). cbn [option_bind mbind]. rewrite Hl.
  pose proof (lookup_equal t es Hok) as Heq. fold m in Heq. fold (zfind t es) in Heq.
  destruct (zsl_lengths _ _ _ _ _ H) as (Hlh & Hle & _).
  assert (zfind t es = [] -> zdelete t es = es) as Hnone.
  { intros En. unfold zfind, zdelete in *. apply list_filter_all, Forall_forall. intros e He Ec.
    assert (e ∈ filter (fun e => ecmp e t = Eq) es) as X by by apply list_elem_of_filter. rewrite En in X. by apply not_elem_of_nil in X. }
  assert (zfind t es = [] -> zset_rep h0 zsl h (zdelete t es)) as Hsame by (intros ->%Hnone; split; [done|by exists ps, hs]).
  destruct (ps !! S m) as [x|] eqn:Hx.
  2:{ exists zsl, h. assert (zfind t es = []) as En.
      { destruct (zfind t es) as [|e r]; [done|]. destruct Heq as (He & _). apply lookup_lt_Some in He. apply lookup_ge_None in Hx. lia. }
      rewrite bool_decide_eq_true_2 by done. rewrite En. split; [done|]. split; [by apply Hsame|done]. }
  destruct (zsl_elem _ _ _ _ _ m x H Hx) as (sc & o & n & He & Hn & Hno & Hns). rewrite Hn. cbn [option_bind mbind].
  rewrite Hns, Hno. pose proof (zo_nan _ Hok _ (list_elem_of_lookup_2 _ _ _ He)) as Hnan'. cbn in Hnan'.
  pose proof (zo_obj _ Hok _ (list_elem_of_lookup_2 _ _ _ He)) as Ho'. cbn in Ho'.
  rewrite SFeqb_key by done.
  assert (zfind t es = [] <-> ecmp (sc, o) t <> Eq) as Hfind.
  { destruct (zfind t es) as [|e r]; rewrite He in Heq; [split; [by rewrite Heq|done]|].
    destruct Heq as ([= <-] & _ & Ec & _). split; [done|]. by rewrite Ec. }
  destruct (cmp3 (score_key t.1) (score_key sc)) eqn:Ecmp.
  - cbn [option_bind mbind]. rewrite (obj_equal_content o t.2) by done. cbn [option_bind mbind].
    assert (ecmp (sc, o) t = Eq <-> obj_content o = obj_content t.2) as Ec.
    { rewrite ecmp_eq. cbn. apply cmp3_eq in Ecmp. rewrite Ecmp. tauto. }
    destruct (decide (obj_content o = obj_content t.2)) as [Eo|Eo].
    + rewrite bool_decide_eq_true_2 by done. apply Ec in Eo as Eeq.
      destruct (delete_at h0 zsl h ps hs es m x sc o us _ H Hown He Hx Hus) as (zsl' & h1 & h2 & n1 & -> & Hn1 & Hno1 & E2 & H2 & Hown2 & _ & _ & Hr2).
      { split; [done|]. pose proof (zr_levels _ _ _ _ _ (zs_rep _ _ _ _ _ H)). lia. }
      cbn [option_bind mbind]. rewrite E2. cbn [option_bind mbind]. exists zsl', h2.
      destruct (zfind t es) as [|e r] eqn:Ef; [by destruct (proj1 Hfind eq_refl)|]. destruct Heq as (He' & -> & _ & Hdel).
      rewrite He in He'. injection He' as <-. rewrite bool_decide_eq_false_2 by done. split; [done|]. split; [|done].
      unfold zdelete. rewrite Hdel. split; [by apply zset_ok_delete|]. by exists (delete (S m) ps), (delete (S m) hs).
    + rewrite bool_decide_eq_false_2 by done. assert (zfind t es = []) as En by (apply Hfind; tauto).
      exists zsl, h. rewrite bool_decide_eq_true_2 by done. rewrite En. split; [done|]. split; [by apply Hsame|done].
  - assert (zfind t es = []) as En.
    { apply Hfind. intros [E1 _]%ecmp_eq. cbn in E1. by rewrite E1, (proj2 (cmp3_eq _ _) eq_refl) in Ecmp. }
    exists zsl, h. rewrite bool_decide_eq_true_2 by done. rewrite En. split; [done|]. split; [by apply Hsame|done].
  - assert (zfind t es = []) as En.
    { apply Hfind. intros [E1 _]%ecmp_eq. cbn in E1. by rewrite E1, (proj2 (cmp3_eq _ _) eq_refl) in Ecmp. }
    exists zsl, h. rewrite bool_decide_eq_true_2 by done. rewrite En. split; [done|]. split; [by apply Hsame|done].
Qed.

(** ** Deletion of ranges *)

Lemma delete_loop_spec h0 cond K us L0 fuel : forall zsl h d ps hs es m tr removed,
  zsl_rep zsl h ps hs es -> zset_ok es -> owned h0 h ps -> (m <= length es)%nat ->
  updates ps hs m us L0 -> (levels zsl <= L0 <= 32)%nat -> (length es - m < fuel)%nat ->
  0 <= tr -> tr + Z.of_nat (length es) < 2 ^ 64 -> 0 <= removed -> removed + Z.of_nat (length es) < 2 ^ 64 ->
  (forall i e n, drop m es !! i = Some e -> score n = e.1 -> cond n (tr + Z.of_nat i) = bool_decide (i < K)%nat) ->
  let gone := take K (drop m es) in
  exists zsl' h', delete_loop dictDelete cond fuel zsl h d (ps !! S m) us tr removed
      = Some (zsl', h', foldl dictDelete d (snd <$> gone), removed + Z.of_nat (length gone)) /\
    zset_rep h0 zsl' h' (take m es ++ drop K (drop m es)) /\ released h' = reverse (snd <$> gone) ++ released h.
Proof.
  revert K. induction fuel as [|fuel IH]; intros K zsl h d ps hs es m tr removed H Hok Hown Hm Hus HL Hf Htr Htrb Hrm Hrmb Hcond; [lia|].
  cbn [delete_loop]. destruct (zsl_lengths _ _ _ _ _ H) as (Hlh & Hle & _).
  assert (forall K', take K' (drop m es) = [] -> zset_rep h0 zsl h (take m es ++ drop K' (drop m es))) as Hstop.
  { intros K' E. assert (drop K' (drop m es) = drop m es) as ->.
    { rewrite <-(take_drop K' (drop m es)) at 2. by rewrite E. }
    rewrite take_drop. split; [done|]. by exists ps, hs. }
  destruct (ps !! S m) as [x|] eqn:Hx.
  2:{ apply lookup_ge_None in Hx. assert (drop m es = []) as E by (apply drop_ge; lia).
      pose proof (Hstop K ltac:(by rewrite E; apply take_nil)) as Hz. rewrite E in Hz |- *. rewrite take_nil.
      exists zsl, h. cbn [length fmap list_fmap foldl]. by rewrite Z.add_0_r. }
  destruct (zsl_elem _ _ _ _ _ m x H Hx) as (sc & o & n & He & Hn & Hno & Hns). rewrite Hn. cbn [option_bind mbind].
  rewrite (drop_S _ _ _ He) in Hcond |- *.
  pose proof (Hcond 0%nat (sc, o) n eq_refl Hns) as Hc0. rewrite Z.add_0_r in Hc0. rewrite Hc0.
  destruct K as [|K].
  { rewrite bool_decide_eq_false_2 by lia. exists zsl, h. cbn. rewrite Z.add_0_r. split; [done|]. split; [|done].
    rewrite <-(drop_S _ _ _ He). apply (Hstop 0%nat). done. }
  rewrite bool_decide_eq_true_2 by lia.
  destruct (zsl_next _ _ _ _ _ (S m) x H Hx) as (l & Hl & Hfl). unfold zlev in Hl. rewrite Hn in Hl. cbn [option_bind mbind] in Hl.
  rewrite Hl. cbn [option_bind mbind].
  destruct (delete_at h0 zsl h ps hs es m x sc o us L0 H Hown He Hx Hus HL) as (zsl1 & h1 & h2 & n1 & -> & Hn1 & Hno1 & E2 & H2 & Hown2 & Hus2 & Hlv & Hr2).
  cbn [option_bind mbind]. rewrite Hno. cbn [option_bind mbind]. rewrite E2. cbn [option_bind mbind]. rewrite Hfl.
  pose proof (lookup_lt_Some _ _ _ He) as Hme. rewrite !u64_small by lia.
  assert (drop m (delete m es) = drop (S m) es) as Edrop.
  { rewrite delete_take_drop, drop_app_ge by (rewrite length_take; lia). by rewrite length_take, Nat.min_l, Nat.sub_diag by lia. }
  assert (take m (delete m es) = take m es) as Etake.
  { rewrite delete_take_drop, take_app_le by (rewrite length_take; lia). by rewrite take_take, Nat.min_id. }
  assert (length (delete m es) = length es - 1)%nat as Elen by (by rewrite length_delete).
  destruct (IH K zsl1 h2 (dictDelete d o) _ _ (delete m es) m (tr + 1) (removed + 1) H2) as (zsl' & h' & E & Hrep & Hrel); try lia; try done.
  { by apply zset_ok_delete. }
  { intros i e nd Hi Hs. rewrite Edrop in Hi. replace (tr + 1 + Z.of_nat i) with (tr + Z.of_nat (S i)) by lia.
    rewrite (Hcond (S i) e nd Hi Hs). apply bool_decide_ext. lia. }
  rewrite Edrop, Etake in *. rewrite list_lookup_delete_ge in E by lia. rewrite E.
  exists zsl', h'. cbn [take fmap list_fmap foldl drop length]. split; [do 2 f_equal; lia|]. split; [done|].
  rewrite Hrel, Hr2. cbn [snd]. by rewrite reverse_cons, <-app_assoc.
Qed.

(** *** By score *)

Definition range_ok (r : zrangespec) : Prop := isnan (min r) = false /\ isnan (max r) = false.

Definition gte_min (r : zrangespec) e : bool := zslValueGteMin e.1 r.
Definition lte_max (r : zrangespec) e : bool := zslValueLteMax e.1 r.
Definition in_zrange (r : zrangespec) e : bool := gte_min r e && lte_max r e.

Lemma gte_min_key r e : range_ok r -> isnan e.1 = false ->
  gte_min r e = match cmp3 (score_key (min r)) (score_key e.1) with Lt => true | Eq => negb (minex r) | Gt => false end.
Proof.
  intros [Hmin _] He. unfold gte_min, zslValueGteMin. rewrite SFltb_key, SFleb_key by done.
  by destruct (minex r), (cmp3 _ _).
Qed.
Lemma lte_max_key r e : range_ok r -> isnan e.1 = false ->
  lte_max r e = match cmp3 (score_key e.1) (score_key (max r)) with Lt => true | Eq => negb (maxex r) | Gt => false end.
Proof.
  intros [_ Hmax] He. unfold lte_max, zslValueLteMax. rewrite SFltb_key, SFleb_key by done.
  by destruct (maxex r), (cmp3 _ _).
Qed.

Lemma elt_cmp e t : elt e t -> score_key e.1 = score_key t.1 \/ cmp3 (score_key e.1) (score_key t.1) = Lt.
Proof.
  intros H. pose proof (elt_score e t H). destruct (cmp3 (score_key e.1) (score_key t.1)) eqn:E; [left; by apply cmp3_eq|by right|done].
Qed.

Lemma downward_min r es : range_ok r -> zset_ok es -> downward (fun e => negb (gte_min r e)) es.
Proof.
  intros Hr Hok a b Ha Hb Hab. rewrite !gte_min_key by (done || by apply (zo_nan _ Hok)).
  destruct (elt_cmp a b Hab) as [->|Hlt]; [done|].
  destruct (cmp3 (score_key (min r)) (score_key a.1)) eqn:E; intros Hb'; [..|done].
  - apply cmp3_eq in E. rewrite E, Hlt in Hb'. done.
  - rewrite (cmp3_le_lt_trans _ (score_key a.1)) in Hb'; [done|by rewrite E|done].
Qed.

Lemma downward_max r es : range_ok r -> zset_ok es -> downward (lte_max r) es.
Proof.
  intros Hr Hok a b Ha Hb Hab. rewrite !lte_max_key by (done || by apply (zo_nan _ Hok)).
  destruct (elt_cmp a b Hab) as [->|Hlt]; [done|]. intros Hb'.
  assert (cmp3 (score_key b.1) (score_key (max r)) <> Gt) as Hle by by destruct (cmp3 (score_key b.1) _).
  destruct (cmp3 (score_key b.1) (score_key (max r))) eqn:E; try done.
  - apply cmp3_eq in E. by rewrite <-E, Hlt.
  - apply cmp3_lt in E, Hlt. rewrite (proj2 (cmp3_lt (score_key a.1) (score_key (max r)))); [done|]. lia.
Qed.

(** A sorted sequence around a range. *)
Lemma range_split r es :
  range_ok r -> zset_ok es ->
  let m := count (fun e => negb (gte_min r e)) es in
  let K := count (lte_max r) (drop m es) in
  take K (drop m es) = filter (fun e => in_zrange r e = true) es /\
  take m es ++ drop K (drop m es) = filter (fun e => in_zrange r e = false) es /\
  StronglySorted elt (drop m es) /\ downward (lte_max r) (drop m es).
Proof.
  intros Hr Hok m K. pose proof (zo_sorted _ Hok) as Hs. pose proof (downward_min r es Hr Hok) as Hdm.
  assert (forall e, e ∈ drop m es -> e ∈ es) as Hsub by (intros e He; rewrite <-(take_drop m es); apply elem_of_app; by right).
  assert (StronglySorted elt (drop m es)) as Hsd by (rewrite <-(take_drop m es) in Hs; apply sorted_app in Hs; tauto).
  assert (downward (lte_max r) (drop m es)) as Hdd by (intros a b Ha Hb; apply (downward_max r es Hr Hok); auto).
  pose proof (take_count _ _ Hs Hdm) as Et. pose proof (drop_count _ _ Hs Hdm) as Ed. fold m in Et, Ed.
  pose proof (take_count _ _ Hsd Hdd) as Et2. pose proof (drop_count _ _ Hsd Hdd) as Ed2. fold K in Et2, Ed2.
  rewrite Et2, Ed2, Et, Ed. split; [|split; [|by rewrite <-Ed]].
  - rewrite list_filter_filter. apply list_filter_iff. intros e. unfold in_zrange.
    destruct (gte_min r e), (lte_max r e); cbn; naive_solver.
  - assert (es = filter (fun e => negb (gte_min r e) = true) es ++ filter (fun e => negb (gte_min r e) = false) es) as E by by apply filter_prefix.
    rewrite E at 3. rewrite filter_app. f_equal.
    + symmetry. apply list_filter_all, Forall_forall. intros e [He _]%list_elem_of_filter. unfold in_zrange. by destruct (gte_min r e).
    + rewrite !list_filter_filter. apply list_filter_iff. intros e. unfold in_zrange.
      destruct (gte_min r e), (lte_max r e); cbn; naive_solver.
Qed.

(** The test of the deletion is the negation of the lower bound. *)
Lemma min_test r sc : range_ok r -> isnan sc = false ->
  (if minex r then SFleb sc (min r) else SFltb sc (min r)) = negb (zslValueGteMin sc r).
Proof.
  intros [Hmin _] Hsc. unfold zslValueGteMin. rewrite !SFltb_key, !SFleb_key by done.
  rewrite (cmp3_opp (score_key sc)). by destruct (minex r), (cmp3 (score_key sc) _).
Qed.

Lemma zslDeleteRangeByScore_rep h0 zsl h es r d :
  zset_rep h0 zsl h es -> range_ok r ->
  let gone := filter (fun e => in_zrange r e = true) es in
  exists zsl' h', zslDeleteRangeByScore dictDelete zsl h r d
      = Some (zsl', h', foldl dictDelete d (snd <$> gone), Z.of_nat (length gone)) /\
    zset_rep h0 zsl' h' (filter (fun e => in_zrange r e = false) es) /\ released h' = reverse (snd <$> gone) ++ released h.
Proof.
  intros (Hok & ps & hs & H & Hown) Hr gone. unfold zslDeleteRangeByScore.
  set (m := count (fun e => negb (gte_min r e)) es). pose proof (count_le (fun e => negb (gte_min r e)) es) as Hm. fold m in Hm.
  assert (tests h ps (fun f _ => Some (if minex r then SFleb (score f) (min r) else SFltb (score f) (min r))) m) as Ht.
  { eapply tests_of; [done|done|by apply downward_min|]. intros n e _ He Hs _. rewrite Hs, min_test; [done|done|].
    by apply (zo_nan _ Hok). }
  destruct (zsl_search u64 _ _ _ _ _ _ _ H wraps_u64 Ht Hm) as (p & us & Hp & -> & Hus). cbn [option_bind mbind].
  destruct (zsl_next _ _ _ _ _ m p H Hp) as (l & -> & Hl). cbn [option_bind mbind]. rewrite Hl.
  destruct (range_split r es Hr Hok) as (Eg & Er & Hsd & Hdd). fold m in Eg, Er, Hsd, Hdd.
  destruct (zsl_lengths _ _ _ _ _ H) as (Hlh & Hle & Hb).
  destruct (delete_loop_spec h0 (fun n _ => if maxex r then SFltb (score n) (max r) else SFleb (score n) (max r))
    (count (lte_max r) (drop m es)) us (levels zsl) (walk_fuel zsl) zsl h d ps hs es m 0 0 H Hok Hown Hm Hus) as (zsl' & h' & E & Hrep & Hrel).
  - pose proof (zr_levels _ _ _ _ _ (zs_rep _ _ _ _ _ H)). lia.
  - unfold walk_fuel. rewrite (zs_length _ _ _ _ _ H). lia.
  - lia.
  - lia.
  - lia.
  - lia.
  - intros i e n Hi Hs. rewrite Hs. pose proof (prefix_lookup _ _ _ _ Hsd Hdd Hi) as Ep.
    unfold lte_max, zslValueLteMax in Ep. exact Ep.
  - rewrite Eg, Er in *. exists zsl', h'. rewrite E. done.
Qed.

(** *** By rank *)

Lemma zslDeleteRangeByRank_rep h0 zsl h es start end_ d :
  zset_rep h0 zsl h es -> 1 <= start < 2 ^ 32 -> 0 <= end_ ->
  let a := Nat.min (Z.to_nat (start - 1)) (length es) in
  let gone := take (Z.to_nat end_ - a) (drop a es) in
  exists zsl' h', zslDeleteRangeByRank dictDelete zsl h start end_ d
      = Some (zsl', h', foldl dictDelete d (snd <$> gone), Z.of_nat (length gone)) /\
    zset_rep h0 zsl' h' (take a es ++ drop (Z.to_nat end_ - a) (drop a es)) /\
    released h' = reverse (snd <$> gone) ++ released h.
Proof.
  intros (Hok & ps & hs & H & Hown) Hst Hen a gone. unfold zslDeleteRangeByRank.
  destruct (zsl_lengths _ _ _ _ _ H) as (Hlh & Hle & Hb). assert (a <= length es)%nat as Ha by (unfold a; lia).
  assert (tests h ps (fun _ r => Some (r <? start)) a) as Ht.
  { intros j p n Hp _. f_equal. pose proof (lookup_lt_Some _ _ _ Hp). apply eq_true_iff_eq. rewrite Z.ltb_lt, bool_decide_eq_true. lia. }
  destruct (zsl_search u64 _ _ _ _ _ _ _ H wraps_u64 Ht Ha) as (p & us & Hp & -> & Hus). cbn [option_bind mbind].
  destruct (zsl_next _ _ _ _ _ a p H Hp) as (l & -> & Hl). cbn [option_bind mbind]. rewrite Hl, u64_small by lia.
  destruct (delete_loop_spec h0 (fun _ traversed => traversed <=? end_)
    (Z.to_nat end_ - a) us (levels zsl) (walk_fuel zsl) zsl h d ps hs es a (Z.of_nat a + 1) 0 H Hok Hown Ha Hus) as (zsl' & h' & E & Hrep & Hrel).
  - pose proof (zr_levels _ _ _ _ _ (zs_rep _ _ _ _ _ H)). lia.
  - unfold walk_fuel. rewrite (zs_length _ _ _ _ _ H). lia.
  - lia.
  - lia.
  - lia.
  - lia.
  - intros i e n Hi _. apply eq_true_iff_eq. rewrite Z.leb_le, bool_decide_eq_true. lia.
  - exists zsl', h'. rewrite E. done.
Qed.
End Spec.
