(* ===== verification/SkiplistQuery.v ===== *)
(** SkiplistQuery: creation and release of a skip list, the ranks and the
    ranges of scores. *)
From Stdlib Require Import Sorting.Sorted.
From S2P Require Import Prelude SdsMore Elements AdlistProofs Skiplist SkiplistProofs SkiplistEdit SkiplistOps SkiplistSpec.

Section Query.
Context {O : Type} `{SO : StringObjects O} (junk_level : zskiplistLevel) (junk_backward : option zptr).
Implicit Types (h : zheap O) (x p : zptr) (es : list (double * O)) (t e : double * O) (zsl : zskiplist).

(** The element in a node. *)
Definition elem_at h x : option (double * O) := n ← znode h x; o ← obj n; Some (score n, o).

Lemma elem_at_pos zsl h ps hs es k x :
  zsl_rep zsl h ps hs es -> ps !! S k = Some x -> elem_at h x = es !! k.
Proof.
  intros H Hx. destruct (zsl_elem _ _ _ _ _ k x H Hx) as (sc & o & n & -> & Hn & Ho & Hs).
  unfold elem_at. rewrite Hn. cbn [option_bind mbind]. rewrite Ho. cbn. by rewrite Hs.
Qed.

Lemma zsl_pos zsl h ps hs es k :
  zsl_rep zsl h ps hs es -> (k <= length es)%nat -> exists x, ps !! k = Some x.
Proof. intros H Hk. destruct (zsl_lengths _ _ _ _ _ H) as (_ & Hl & _). apply lookup_lt_is_Some_2. lia. Qed.

(** ** Creation *)

Lemma znode_put h x n : znode (put_node h x n) x = Some n.
Proof. unfold znode, put_node. cbn. apply lookup_insert_eq. Qed.
Lemma put_put h x n n' : put_node (put_node h x n) x n' = put_node h x n'.
Proof. unfold put_node. cbn. by rewrite insert_insert_eq. Qed.

Definition with_level (n : zskiplistNode O) i l : zskiplistNode O :=
  ZNode (obj n) (score n) (backward n) (<[i := l]> (level n)).

Lemma set_forward_node h x n i l f :
  znode h x = Some n -> level n !! i = Some l ->
  set_forward h x i f = Some (put_node h x (with_level n i (ZLevel f (span l)))).
Proof.
  intros Hn Hl. unfold set_forward, set_lev, zlev. rewrite Hn. cbn [option_bind mbind]. by rewrite Hl.
Qed.
Lemma set_span_node h x n i l s :
  znode h x = Some n -> level n !! i = Some l ->
  set_span h x i s = Some (put_node h x (with_level n i (ZLevel (forward l) s))).
Proof.
  intros Hn Hl. unfold set_span, set_lev, zlev. rewrite Hn. cbn [option_bind mbind]. by rewrite Hl.
Qed.

Lemma create_loop_spec x : forall k h n j,
  znode h x = Some n -> length (level n) = (j + k)%nat ->
  create_loop k h x j = Some (match k with
                              | 0%nat => h
                              | _ => put_node h x (ZNode (obj n) (score n) (backward n) (take j (level n) ++ replicate k (ZLevel None 0)))
                              end).
Proof.
  induction k as [|k IH]; intros h n j Hn Hl; [done|]. cbn [create_loop].
  destruct (lookup_lt_is_Some_2 (level n) j) as [l Hj]; [lia|].
  rewrite (set_forward_node h x n j l) by done. cbn [option_bind mbind].
  rewrite (set_span_node _ x (with_level n j (ZLevel None (span l))) j (ZLevel None (span l)))
    by (first [apply znode_put|cbn; apply list_lookup_insert_eq; lia]).
  cbn [option_bind mbind forward]. rewrite put_put. unfold with_level. cbn [obj score backward level]. rewrite list_insert_insert_eq.
  rewrite (IH _ (with_level n j (ZLevel None 0)) (S j)) by (first [apply znode_put|cbn; rewrite length_insert; lia]).
  rewrite put_put. unfold with_level. cbn [obj score backward level].
  assert (take (S j) (<[j := ZLevel None 0]> (level n)) = take j (level n) ++ [ZLevel None 0]) as Et.
  { rewrite (take_S_r _ _ (ZLevel None 0)) by (apply list_lookup_insert_eq; lia). by rewrite take_insert_ge. }
  destruct k as [|k].
  - do 3 f_equal. rewrite <-(take_ge (<[j := ZLevel None 0]> (level n)) (S j)) by (rewrite length_insert; lia). by rewrite Et.
  - do 3 f_equal. rewrite Et, <-app_assoc. done.
Qed.

Lemma zslCreate_rep h0 :
  exists zsl h, zslCreate junk_level junk_backward h0 = Some (zsl, h) /\ zset_rep h0 zsl h [] /\ released h = released h0.
Proof.
  unfold zslCreate, zslCreateNode, zalloc. set (x := fresh _).
  assert (znode h0 x = None) as Hx by (apply not_elem_of_dom, is_fresh). clearbody x.
  rewrite (create_loop_spec x _ _ (ZNode None (S754_zero false) junk_backward (replicate 32 junk_level)));
    [|by unfold znode, put_node; cbn; rewrite lookup_insert_eq|done].
  change (Z.to_nat ZSKIPLIST_MAXLEVEL) with 32%nat. cbn [option_bind mbind obj score backward level take app].
  unfold set_backward, znode, put_node. cbn [znodes released]. rewrite lookup_insert_eq. cbn [option_bind mbind obj score level].
  eexists _, _. split; [reflexivity|]. split; [|done]. rewrite !insert_insert_eq. cbn [backward level obj score]. split.
  { constructor; try constructor; by intros ? ?%not_elem_of_nil. }
  exists [x], [32%nat]. split; [|split].
  - constructor; try done; [|by left]. constructor; try done; cbn; try lia.
    + apply NoDup_singleton.
    + change (levels _) with 1%nat. lia.
    + intros p [= <-]. exists (S754_zero false). unfold meta, znode. cbn. by rewrite lookup_insert_eq.
    + intros k p i Hk Ht Hi. destruct k as [|k]; [|done]. injection Hk as <-. change (levels _) with 1%nat in Hi.
      assert (i = 0%nat) as -> by lia. unfold zlev, znode. cbn. by rewrite lookup_insert_eq.
    + intros p i [= <-] Hi. change (levels _) with 1%nat in Hi. exists 0. unfold zlev, znode. cbn [znodes]. rewrite lookup_insert_eq. cbn [option_bind mbind level].
      apply (lookup_replicate_2 32). lia.
  - intros q ->%list_elem_of_singleton. done.
  - intros q Hq. unfold znode. cbn. apply lookup_insert_ne. intros <-. apply Hq. by left.
Qed.

(** ** Release *)

Lemma free_loop_spec zsl h ps hs es : zsl_rep zsl h ps hs es ->
  forall fuel k hc, (length es - k < fuel)%nat -> (k <= length es)%nat ->
  (forall j p, (k < j)%nat -> ps !! j = Some p -> znode hc p = znode h p) ->
  exists h', free_loop fuel hc (ps !! S k) = Some h' /\
    (forall q, q ∈ drop (S k) ps -> znode h' q = None) /\ (forall q, q ∉ drop (S k) ps -> znode h' q = znode hc q) /\
    released h' = reverse (snd <$> drop k es) ++ released hc.
Proof.
  intros H. destruct (zsl_lengths _ _ _ _ _ H) as (_ & Hlp & _). pose proof (zsl_nodup _ _ _ _ _ H) as Hnd.
  induction fuel as [|fuel IH]; intros k hc Hf Hk Hint; [lia|]. cbn [free_loop].
  destruct (ps !! S k) as [x|] eqn:Hx.
  2:{ exists hc. apply lookup_ge_None in Hx. rewrite !drop_ge by lia. split; [done|]. split; [|done]. by intros q ?%not_elem_of_nil. }
  destruct (zsl_elem _ _ _ _ _ k x H Hx) as (sc & o & n & He & Hn & Ho & _).
  destruct (zsl_next _ _ _ _ _ (S k) x H Hx) as (l & Hl & Hfl). pose proof (Hint (S k) x ltac:(lia) Hx) as Hcx.
  unfold zlev in Hl |- *. rewrite Hcx. rewrite Hn in Hl |- *. cbn [option_bind mbind] in Hl |- *. rewrite Hl. cbn [option_bind mbind].
  unfold zslFreeNode. rewrite Hcx, Hn. cbn [option_bind mbind]. rewrite Ho. cbn [option_bind mbind]. unfold zfree.
  change (znode (Zheap (znodes hc) (o :: released hc)) x) with (znode hc x). rewrite Hcx, Hn. cbn [option_bind mbind znodes released]. rewrite Hfl.
  pose proof (lookup_lt_Some _ _ _ He).
  destruct (IH (S k) (Zheap (delete x (znodes hc)) (o :: released hc))) as (h' & -> & Hgone & Hkeep & Hrel); [lia|lia| |].
  { intros j p Hj Hp. unfold znode; cbn. rewrite lookup_delete_ne; [by apply (Hint j); [lia|]|].
    intros <-. pose proof (NoDup_lookup _ _ _ _ Hnd Hx Hp). lia. }
  exists h'. split; [done|]. rewrite (drop_S _ _ _ Hx), (drop_S _ _ _ He). 
  assert (x ∉ drop (S (S k)) ps) as Hxn.
  { intros (j & Hj)%list_elem_of_lookup. rewrite lookup_drop in Hj. pose proof (NoDup_lookup _ _ _ _ Hnd Hx Hj). lia. }
  split; [|split].
  - intros q [->|Hq]%elem_of_cons; [|by apply Hgone]. rewrite Hkeep by done. unfold znode; cbn. apply lookup_delete_eq.
  - intros q [Hqx Hq]%not_elem_of_cons. rewrite Hkeep by done. unfold znode; cbn. by apply lookup_delete_ne.
  - rewrite Hrel. cbn [fmap list_fmap snd]. by rewrite reverse_cons, <-app_assoc.
Qed.

(** Everything is freed, and every object released, in order. *)
Lemma zslFree_rep h0 zsl h es :
  zset_rep h0 zsl h es ->
  exists h', zslFree zsl h = Some h' /\ (forall q, znode h' q = znode h0 q) /\ released h' = reverse (snd <$> es) ++ released h.
Proof.
  intros (Hok & ps & hs & H & Hnew & Hfr). unfold zslFree. pose proof (zs_header _ _ _ _ _ H) as Hh.
  destruct (zsl_next _ _ _ _ _ 0 _ H Hh) as (l & Hl & Hfl). rewrite Hl. cbn [option_bind mbind].
  assert (exists n, znode h (header zsl) = Some n) as [n Hn].
  { unfold zlev in Hl. destruct (znode h (header zsl)) as [n|]; [by exists n|done]. }
  unfold zfree. rewrite Hn. cbn [option_bind mbind]. rewrite Hfl, (zs_length _ _ _ _ _ H), Nat2Z.id.
  pose proof (zsl_nodup _ _ _ _ _ H) as Hnd.
  destruct (free_loop_spec _ _ _ _ _ H (length es + 1) 0 (Zheap (delete (header zsl) (znodes h)) (released h))) as (h' & -> & Hgone & Hkeep & Hrel);
    [lia|lia| |].
  { intros j p Hj Hp. unfold znode; cbn. rewrite lookup_delete_ne; [done|]. intros E. rewrite <-E in Hp. pose proof (NoDup_lookup _ _ _ _ Hnd Hh Hp). lia. }
  exists h'. split; [done|]. split; [|by rewrite Hrel, drop_0].
  assert (forall q, q ∈ ps <-> q = header zsl \/ q ∈ drop 1 ps) as Hps.
  { intros q. destruct ps as [|p0 ps]; [done|]. injection Hh as ->. cbn. apply elem_of_cons. }
  intros q. destruct (decide (q ∈ drop 1 ps)) as [Hq|Hq].
  - rewrite Hgone by done. symmetry. apply Hnew, Hps. by right.
  - rewrite Hkeep by done. unfold znode at 1; cbn. destruct (decide (q = header zsl)) as [->|Hne].
    + rewrite lookup_delete_eq. symmetry. apply Hnew, Hps. by left.
    + rewrite lookup_delete_ne by done. apply Hfr. rewrite Hps. tauto.
Qed.

(** ** Ranks *)

(** The header holds no object; another position holds its element's. *)
Lemma zsl_obj zsl h ps hs es k p :
  zsl_rep zsl h ps hs es -> ps !! k = Some p ->
  exists n, znode h p = Some n /\ obj n = match k with 0%nat => None | S j => snd <$> es !! j end.
Proof.
  intros H Hp. destruct k as [|k].
  - destruct (zr_header _ _ _ _ _ (zs_rep _ _ _ _ _ H) p Hp) as (sc & Hm).
    destruct (meta_node _ _ _ _ _ _ Hm) as (n & Hn & Ho & _). by exists n.
  - destruct (zsl_elem _ _ _ _ _ k p H Hp) as (sc & o & n & -> & Hn & Ho & _). by exists n.
Qed.

(** Position [k] holds an object with the content of [o]. *)
Definition hit es (o : O) (k : nat) : Prop :=
  match k with 0%nat => False | S j => exists e, es !! j = Some e /\ obj_content e.2 = obj_content o end.

Lemma hit_inj es o k k' : zset_ok es -> hit es o k -> hit es o k' -> k = k'.
Proof.
  intros Hok. destruct k as [|k], k' as [|k']; cbn; try done. intros (e & He & Hc) (e' & He' & Hc'). f_equal.
  eapply NoDup_lookup; [apply (zo_unique _ Hok)| |]; rewrite list_lookup_fmap; [rewrite He|rewrite He']; cbn; [reflexivity|congruence].
Qed.

Lemma rank_loop_spec zsl h ps hs es sc o m fuel i : zsl_rep zsl h ps hs es -> zset_ok es -> obj_ok o ->
  tests h ps (before true sc o) m -> (m <= length es)%nat -> (m < fuel)%nat -> (i <= levels zsl)%nat ->
  forall k x, ps !! k = Some x -> (k <= m)%nat -> (forall j, (j < i)%nat -> tall hs j k) -> (i = 0%nat -> ~ hit es o m) ->
  exists r, rank_loop sc o fuel h i x (Z.of_nat k) = Some r /\ (hit es o m -> r = Z.of_nat m) /\
    (r = 0 \/ exists j, hit es o j /\ r = Z.of_nat j).
Proof.
  intros H Hok Ho Ht Hm Hf. pose proof (zs_rep _ _ _ _ _ H) as Hr.
  induction i as [|i IH]; intros Hi k x Hx Hkm Htall Hend; cbn [rank_loop].
  { exists 0. split; [done|]. split; [intros Hh; by destruct (Hend eq_refl)|by left]. }
  destruct (walk_spec u64 (before true sc o) h (levels zsl) ps hs es m i fuel k x Hr wraps_u64 Ht Hm) as (p & Hp & ->);
    [lia|done|by apply Htall; lia|lia|lia|].
  cbn [option_bind mbind]. destruct (prv_props hs i m) as (Hle & Htp & _); [by eapply zrep_tall0|].
  set (q := prv hs i m) in *. destruct (zsl_obj _ _ _ _ _ q p H Hp) as (n & -> & Hno). cbn [option_bind mbind].
  assert (~ hit es o q -> exists r, rank_loop sc o fuel h i p (Z.of_nat q) = Some r /\ (hit es o m -> r = Z.of_nat m) /\
    (r = 0 \/ exists j, hit es o j /\ r = Z.of_nat j)) as Hgo.
  { intros Hq. apply IH; try done; [lia| |].
    - intros j Hj. eapply tall_mono; [exact Htp|lia].
    - intros ->. replace m with q; [done|]. by apply (zrep_level0 _ _ _ _ _ _ Hr). }
  rewrite Hno. destruct q as [|q]; [apply Hgo; by intros []|]. pose proof (lookup_lt_Some _ _ _ Hp). destruct (zsl_lengths _ _ _ _ _ H) as (_ & Hl & _).
  destruct (lookup_lt_is_Some_2 es q) as [e He]; [lia|]. rewrite He. cbn [fmap option_fmap option_map].
  rewrite (obj_equal_content e.2 o (zo_obj _ Hok e (list_elem_of_lookup_2 _ _ _ He)) Ho). cbn [option_bind mbind].
  destruct (bool_decide_reflect (obj_content e.2 = obj_content o)) as [E|E].
  - assert (hit es o (S q)) as Hh by by exists e. exists (Z.of_nat (S q)). split; [done|].
    split; [intros Hm'; f_equal; by eapply hit_inj|right; by exists (S q)].
  - apply Hgo. intros (e' & He' & Hc). congruence.
Qed.

Lemma sorted_lookup es i j e e' : StronglySorted elt es -> es !! i = Some e -> es !! j = Some e' -> (i < j)%nat -> elt e e'.
Proof.
  intros Hs Hi Hj Hij. rewrite <-(take_drop j es) in Hs. apply sorted_app in Hs as (_ & _ & Hs). apply Hs.
  - apply (list_elem_of_lookup_2 _ i). by rewrite lookup_take_lt.
  - apply (list_elem_of_lookup_2 _ 0). by rewrite lookup_drop, Nat.add_0_r.
Qed.

Lemma count_ele t es k e : StronglySorted elt es -> es !! k = Some e -> ecmp e t = Eq -> count (ele_b t) es = S k.
Proof.
  intros Hs He Ec. pose proof (count_le (ele_b t) es) as Hle.
  pose proof (prefix_lookup (ele_b t) es k e Hs (downward_ele _ _) He) as Hp. unfold ele_b at 1 in Hp. rewrite Ec in Hp.
  symmetry in Hp. apply bool_decide_eq_true in Hp.
  destruct (decide (S k < count (ele_b t) es)%nat) as [Hlt|]; [|lia]. exfalso.
  destruct (lookup_lt_is_Some_2 es (S k)) as [e' He']; [lia|].
  pose proof (prefix_lookup (ele_b t) es (S k) e' Hs (downward_ele _ _) He') as Hp'. rewrite bool_decide_eq_true_2 in Hp' by lia.
  pose proof (sorted_lookup es k (S k) e e' Hs He He' ltac:(lia)) as Hee.
  assert (ecmp e' t = Gt) as Hgt; [|unfold ele_b in Hp'; by rewrite Hgt in Hp'].
  apply ecmp_eq in Ec as [E1 E2]. rewrite ecmp_opp. unfold elt, ecmp in *. rewrite <-E1, <-E2. by rewrite Hee.
Qed.

(** The rank of an element of the set is one more than its position; it is 0
    for an object that is not in the set. *)
Lemma zslGetRank_rep h0 zsl h es sc o :
  zset_rep h0 zsl h es -> isnan sc = false -> obj_ok o ->
  exists r, zslGetRank zsl h sc o = Some r /\
    (forall k e, es !! k = Some e -> ecmp e (sc, o) = Eq -> r = Z.of_nat (S k)) /\
    (obj_content o ∉ (fun e => obj_content e.2) <$> es -> r = 0).
Proof.
  intros (Hok & ps & hs & H & _) Hnan Ho. unfold zslGetRank, walk_fuel. rewrite (zs_length _ _ _ _ _ H), Nat2Z.id.
  pose proof (search_elt true u64 (sc, o) zsl h ps hs es H Hok Hnan Ho wraps_u64) as Ht. cbv zeta iota in Ht. cbn [fst snd] in Ht.
  pose proof (count_le (ele_b (sc, o)) es) as Hm. pose proof (zr_levels _ _ _ _ _ (zs_rep _ _ _ _ _ H)) as HL.
  destruct (rank_loop_spec zsl h ps hs es sc o _ (length es + 1) (levels zsl) H Hok Ho Ht Hm) with (k := 0%nat) (x := header zsl)
    as (r & E & Hhit & Hor); [lia|lia|apply (zs_header _ _ _ _ _ H)|lia| |lia|].
  { intros j Hj. eapply zrep_tall0; [apply (zs_rep _ _ _ _ _ H)|done]. }
  exists r. split; [exact E|]. split.
  - intros k e He Ec. rewrite (count_ele _ es k e (zo_sorted _ Hok) He Ec) in Hhit. apply Hhit. exists e. split; [done|].
    by apply ecmp_eq in Ec as [_ ?].
  - intros Hno. destruct Hor as [?|([|j] & Hj & _)]; [done|done|]. exfalso. apply Hno. destruct Hj as (e & He & <-).
    apply (list_elem_of_fmap_2 (fun e => obj_content e.2)). by eapply list_elem_of_lookup_2.
Qed.

(** ** Elements by rank *)

Lemma element_loop_spec zsl h ps hs es rank fuel i : zsl_rep zsl h ps hs es -> 0 <= rank ->
  let m := Nat.min (Z.to_nat rank) (length es) in (m < fuel)%nat -> (i <= levels zsl)%nat ->
  forall k x, ps !! k = Some x -> (k <= m)%nat -> (forall j, (j < i)%nat -> tall hs j k) -> (i = 0%nat -> rank <> Z.of_nat m) ->
  element_loop rank fuel h i x (Z.of_nat k) = Some (ps !! Z.to_nat rank).
Proof.
  intros H Hrk m Hf. pose proof (zs_rep _ _ _ _ _ H) as Hr. destruct (zsl_lengths _ _ _ _ _ H) as (_ & Hl & _).
  assert (tests h ps (fun _ r => Some (r <=? rank)) m) as Ht.
  { intros j p n Hp _. f_equal. pose proof (lookup_lt_Some _ _ _ Hp). apply eq_true_iff_eq. rewrite Z.leb_le, bool_decide_eq_true. lia. }
  induction i as [|i IH]; intros Hi k x Hx Hkm Htall Hend; cbn [element_loop].
  { specialize (Hend eq_refl). f_equal. symmetry. apply lookup_ge_None. lia. }
  destruct (walk_spec u64 (fun _ r => Some (r <=? rank)) h (levels zsl) ps hs es m i fuel k x Hr wraps_u64 Ht) as (p & Hp & ->);
    [lia|lia|done|by apply Htall; lia|lia|lia|].
  cbn [option_bind mbind]. destruct (prv_props hs i m) as (Hle & Htp & _); [by eapply zrep_tall0|].
  destruct (Z.eqb_spec (Z.of_nat (prv hs i m)) rank) as [E|E].
  - rewrite <-E, Nat2Z.id. by rewrite Hp.
  - apply IH; [lia|done|done| |].
    + intros j Hj. eapply tall_mono; [exact Htp|lia].
    + intros -> Hm. apply E. rewrite Hm. f_equal. apply (zrep_level0 _ _ _ _ _ _ Hr). lia.
Qed.

(** A rank counts from 1; there is no element beyond the last rank. *)
Lemma zslGetElementByRank_rep h0 zsl h es k :
  zset_rep h0 zsl h es ->
  exists r, zslGetElementByRank zsl h (Z.of_nat (S k)) = Some r /\ elem_at h <$> r = Some <$> es !! k.
Proof.
  intros (Hok & ps & hs & H & _). unfold zslGetElementByRank, walk_fuel. rewrite (zs_length _ _ _ _ _ H), Nat2Z.id.
  pose proof (zr_levels _ _ _ _ _ (zs_rep _ _ _ _ _ H)) as HL. destruct (zsl_lengths _ _ _ _ _ H) as (_ & Hl & _).
  exists (ps !! S k). split.
  - rewrite <-(Nat2Z.id (S k)) at 2. change 0 with (Z.of_nat 0). fold (levels zsl).
    apply (element_loop_spec zsl h ps hs es); [done|lia|lia|lia|apply (zs_header _ _ _ _ _ H)|lia| |lia].
    intros j Hj. eapply zrep_tall0; [apply (zs_rep _ _ _ _ _ H)|done].
  - destruct (ps !! S k) as [x|] eqn:Hx; cbn.
    + rewrite (elem_at_pos _ _ _ _ _ _ _ H Hx). pose proof (lookup_lt_Some _ _ _ Hx).
      by destruct (lookup_lt_is_Some_2 es k) as [e ->]; [lia|].
    + apply lookup_ge_None in Hx. by rewrite lookup_ge_None_2 by lia.
Qed.

(** ** Ranges of scores *)

Lemma zsl_tail zsl h ps hs es : zsl_rep zsl h ps hs es -> tail zsl = match es with [] => None | _ => ps !! length es end.
Proof.
  intros H. rewrite (zs_tail _ _ _ _ _ H). destruct (zsl_lengths _ _ _ _ _ H) as (_ & Hl & _). rewrite Hl.
  by destruct es as [|e es].
Qed.

Lemma filter_last_nil (P : double * O -> bool) es e a :
  StronglySorted elt es -> downward (fun e => negb (P e)) es -> last es = Some e -> P e = false -> a ∈ es -> P a = false.
Proof.
  intros Hs Hd He HP Ha. rewrite last_lookup in He. apply list_elem_of_lookup in Ha as (i & Hi).
  pose proof (lookup_lt_Some _ _ _ Hi). destruct (decide (i = Nat.pred (length es))) as [->|Hne]; [congruence|].
  apply negb_true_iff, (Hd a e); [by eapply list_elem_of_lookup_2|by eapply list_elem_of_lookup_2| |by rewrite HP].
  apply (sorted_lookup es i (Nat.pred (length es)) a e Hs Hi He). lia.
Qed.

Lemma filter_first_nil (P : double * O -> bool) es e a :
  StronglySorted elt es -> downward P es -> es !! 0%nat = Some e -> P e = false -> a ∈ es -> P a = false.
Proof.
  intros Hs Hd He HP Ha. apply list_elem_of_lookup in Ha as (i & Hi). destruct i as [|i]; [congruence|].
  destruct (P a) eqn:E; [|done]. rewrite (Hd e a) in HP; [done|by eapply list_elem_of_lookup_2|by eapply list_elem_of_lookup_2| |done].
  apply (sorted_lookup es 0 (S i) e a Hs He Hi). lia.
Qed.

Lemma in_zrange_nil r es : (forall e, e ∈ es -> in_zrange r e = false) -> filter (fun e => in_zrange r e = true) es = [].
Proof. intros Hall. apply list_filter_none, Forall_forall. intros e He. by rewrite Hall. Qed.

(** The ranges that are empty whatever the set. *)
Lemma empty_range r e : range_ok r -> isnan e.1 = false ->
  SFltb (max r) (min r) || (SFeqb (min r) (max r) && (minex r || maxex r)) = true -> in_zrange r e = false.
Proof.
  intros [Hmin Hmax] He. rewrite SFltb_key, SFeqb_key by done. unfold in_zrange. rewrite gte_min_key, lte_max_key by done.
  destruct (cmp3 (score_key (min r)) (score_key e.1)) eqn:E1, (cmp3 (score_key e.1) (score_key (max r))) eqn:E2; cbn; try done;
    try (by destruct (minex r)); rewrite (cmp3_opp (score_key (min r))).
  - apply cmp3_eq in E1 as ->. rewrite E2. cbn. by destruct (minex r), (maxex r).
  - apply cmp3_eq in E1 as ->. by rewrite E2.
  - apply cmp3_eq in E2 as <-. by rewrite E1.
  - by rewrite (cmp3_le_lt_trans _ _ _ (ltac:(by rewrite E1)) E2).
Qed.

(** When there is no part in the range, no element is. *)
Lemma zslIsInRange_rep h0 zsl h es r :
  zset_rep h0 zsl h es -> range_ok r ->
  exists b, zslIsInRange zsl h r = Some b /\
    (b = false -> filter (fun e => in_zrange r e = true) es = []) /\
    (b = true -> exists e e', es !! 0%nat = Some e /\ lte_max r e = true /\ last es = Some e' /\ gte_min r e' = true).
Proof.
  intros (Hok & ps & hs & H & _) Hr. unfold zslIsInRange. destruct (zsl_lengths _ _ _ _ _ H) as (_ & Hl & _).
  destruct (_ || _) eqn:Eempty.
  { exists false. split; [done|]. split; [|done]. intros _. apply in_zrange_nil. intros e He. apply empty_range; [done|by apply (zo_nan _ Hok)|done]. }
  clear Eempty. rewrite (zsl_tail _ _ _ _ _ H). destruct (last es) as [e'|] eqn:Hlast.
  2:{ apply last_None in Hlast as ->. by exists false. }
  pose proof Hlast as He'. rewrite last_lookup in He'.
  destruct (lookup_lt_is_Some_2 es 0) as [e He]; [apply lookup_lt_Some in He'; lia|].
  assert (match es with [] => None | _ => ps !! length es end = ps !! S (Nat.pred (length es))) as -> by by destruct es.
  destruct (zsl_pos _ _ _ _ _ (S (Nat.pred (length es))) H) as [x Hx]; [apply lookup_lt_Some in He'; lia|]. rewrite Hx.
  destruct (zsl_elem _ _ _ _ _ _ x H Hx) as (sc & o & n & Hn' & -> & _ & Hs). cbn [option_bind mbind].
  rewrite He' in Hn'. injection Hn' as ->. change (zslValueGteMin (score n) r) with (gte_min r (score n, o)). rewrite Hs.
  destruct (gte_min r (sc, o)) eqn:Emin; cbn [negb].
  2:{ exists false. split; [done|]. split; [|done]. intros _. apply in_zrange_nil. intros a Ha. unfold in_zrange.
      by rewrite (filter_last_nil _ es _ a (zo_sorted _ Hok) (downward_min _ _ Hr Hok) Hlast Emin Ha). }
  destruct (zsl_next _ _ _ _ _ 0 _ H (zs_header _ _ _ _ _ H)) as (l & -> & Hf). cbn [option_bind mbind]. rewrite Hf.
  destruct (zsl_pos _ _ _ _ _ 1 H) as [y Hy]; [apply lookup_lt_Some in He; lia|]. rewrite Hy.
  destruct (zsl_elem _ _ _ _ _ 0 y H Hy) as (sc0 & o0 & n0 & Hn0 & -> & _ & Hs0). cbn [option_bind mbind].
  rewrite He in Hn0. injection Hn0 as ->. change (zslValueLteMax (score n0) r) with (lte_max r (score n0, o0)). rewrite Hs0.
  eexists. split; [reflexivity|]. split.
  - intros Emax. apply in_zrange_nil. intros a Ha. unfold in_zrange.
    rewrite (filter_first_nil _ es _ a (zo_sorted _ Hok) (downward_max _ _ Hr Hok) He Emax Ha). apply andb_false_r.
  - intros Emax. by exists (sc0, o0), (sc, o).
Qed.

Lemma in_zrange_filter r es :
  filter (fun e => in_zrange r e = true) es = filter (fun e => lte_max r e = true) (filter (fun e => negb (gte_min r e) = false) es) /\
  filter (fun e => in_zrange r e = true) es = filter (fun e => gte_min r e = true) (filter (fun e => lte_max r e = true) es).
Proof.
  rewrite !list_filter_filter. split; apply list_filter_iff; intros e; unfold in_zrange;
    destruct (gte_min r e), (lte_max r e); cbn; naive_solver.
Qed.

(** Both searches of the ends of a range, given the position of the first
    node that is not passed. *)
Lemma score_search zsl h ps hs es (P : double -> bool) :
  zsl_rep zsl h ps hs es -> zset_ok es -> downward (fun e => P e.1) es ->
  exists p us, ps !! count (fun e => P e.1) es = Some p /\
    search u64 (fun f _ => Some (P (score f))) zsl h = Some (p, Z.of_nat (count (fun e => P e.1) es), us).
Proof.
  intros H Hok Hd. pose proof (count_le (fun e : double * O => P e.1) es) as Hm.
  assert (tests h ps (fun f _ => Some (P (score f))) (count (fun e => P e.1) es)) as Ht.
  { eapply tests_of; [done|done|done|]. intros n e _ He Hs _. by rewrite Hs. }
  destruct (zsl_search u64 _ _ _ _ _ _ _ H wraps_u64 Ht Hm) as (p & us & Hp & E & _). by exists p, us.
Qed.

Lemma zslFirstInRange_rep h0 zsl h es r :
  zset_rep h0 zsl h es -> range_ok r ->
  exists y, zslFirstInRange zsl h r = Some y /\ elem_at h <$> y = Some <$> head (filter (fun e => in_zrange r e = true) es).
Proof.
  intros Hrep Hr. destruct (zslIsInRange_rep _ _ _ _ _ Hrep Hr) as (b & E & Hno & Hyes). unfold zslFirstInRange. rewrite E.
  cbn [option_bind mbind]. destruct b; cbn [negb]; [|by exists None; rewrite Hno].
  destruct (Hyes eq_refl) as (_ & e' & _ & _ & Hlast & Hge). destruct Hrep as (Hok & ps & hs & H & _).
  pose proof (downward_min r es Hr Hok) as Hd. pose proof (zo_sorted _ Hok) as Hs.
  destruct (score_search _ _ _ _ _ (fun s => negb (zslValueGteMin s r)) H Hok Hd) as (p & us & Hp & ->). cbn [option_bind mbind].
  change (count _ es) with (count (fun e => negb (gte_min r e)) es) in Hp. set (m := count _ es) in Hp.
  destruct (zsl_next _ _ _ _ _ m p H Hp) as (l & -> & Hl). cbn [option_bind mbind]. rewrite Hl.
  rewrite last_lookup in Hlast. pose proof (prefix_lookup _ _ _ _ Hs Hd Hlast) as Hml. cbn beta in Hml. rewrite Hge in Hml.
  symmetry in Hml. apply bool_decide_eq_false in Hml. apply lookup_lt_Some in Hlast.
  destruct (zsl_pos _ _ _ _ _ (S m) H) as [x Hx]; [unfold m; lia|]. rewrite Hx. cbn [option_bind mbind].
  destruct (zsl_elem _ _ _ _ _ m x H Hx) as (sc & o & n & He & Hn & _ & Hns). rewrite Hn. cbn [option_bind mbind].
  rewrite (proj1 (in_zrange_filter r es)), <-(drop_count _ _ Hs Hd). fold m. rewrite (drop_S _ _ _ He).
  change (zslValueLteMax (score n) r) with (lte_max r (score n, o)). rewrite Hns.
  destruct (lte_max r (sc, o)) eqn:Emax; cbn [negb]; eexists; (split; [reflexivity|]).
  - rewrite filter_cons_True by done. cbn. by rewrite (elem_at_pos _ _ _ _ _ _ _ H Hx), He.
  - rewrite list_filter_none; [done|]. apply Forall_forall. intros a Ha. assert (lte_max r a = false) as ->; [|done].
    rewrite <-(drop_S _ _ _ He) in Ha. assert (StronglySorted elt (drop m es)) as Hsd.
    { rewrite <-(take_drop m es) in Hs. by apply sorted_app in Hs as (_ & ? & _). }
    apply (filter_first_nil (lte_max r) (drop m es) (sc, o) a Hsd); [|by rewrite lookup_drop, Nat.add_0_r|done|done].
    intros c d Hc Hdd. apply (downward_max r es Hr Hok); rewrite <-(take_drop m es); apply elem_of_app; by right.
Qed.

Lemma zslLastInRange_rep h0 zsl h es r :
  zset_rep h0 zsl h es -> range_ok r ->
  exists y, zslLastInRange zsl h r = Some y /\ elem_at h <$> y = Some <$> last (filter (fun e => in_zrange r e = true) es).
Proof.
  intros Hrep Hr. destruct (zslIsInRange_rep _ _ _ _ _ Hrep Hr) as (b & E & Hno & Hyes). unfold zslLastInRange. rewrite E.
  cbn [option_bind mbind]. destruct b; cbn [negb]; [|by exists None; rewrite Hno].
  destruct (Hyes eq_refl) as (e0 & _ & He0 & Hle & _). destruct Hrep as (Hok & ps & hs & H & _).
  pose proof (downward_max r es Hr Hok) as Hd. pose proof (zo_sorted _ Hok) as Hs.
  destruct (score_search _ _ _ _ _ (fun s => zslValueLteMax s r) H Hok Hd) as (x & us & Hx & ->). cbn [option_bind mbind].
  change (count _ es) with (count (lte_max r) es) in Hx. 
  pose proof (prefix_lookup _ _ _ _ Hs Hd He0) as Hml. cbn beta in Hml. rewrite Hle in Hml.
  symmetry in Hml. apply bool_decide_eq_true in Hml. pose proof (take_count _ _ Hs Hd) as Et. destruct (count (lte_max r) es) as [|m]; [lia|].
  destruct (zsl_elem _ _ _ _ _ m x H Hx) as (sc & o & n & He & Hn & _ & Hns). rewrite Hn. cbn [option_bind mbind].
  rewrite (proj2 (in_zrange_filter r es)), <-Et, (take_S_r _ _ _ He).
  change (zslValueGteMin (score n) r) with (gte_min r (score n, o)). rewrite Hns.
  destruct (gte_min r (sc, o)) eqn:Emin; cbn [negb]; eexists; (split; [reflexivity|]).
  - rewrite filter_app, filter_cons_True, filter_nil by done. rewrite last_snoc. cbn. by rewrite (elem_at_pos _ _ _ _ _ _ _ H Hx), He.
  - rewrite list_filter_none; [done|]. apply Forall_forall. intros a Ha. assert (gte_min r a = false) as ->; [|done].
    rewrite <-(take_S_r _ _ _ He) in Ha. assert (StronglySorted elt (take (S m) es)) as Hsd.
    { rewrite <-(take_drop (S m) es) in Hs. by apply sorted_app in Hs as (? & _ & _). }
    apply (filter_last_nil (gte_min r) (take (S m) es) (sc, o) a Hsd); [|by rewrite (take_S_r _ _ _ He), last_snoc|done|done].
    intros c d Hc Hdd. apply (downward_min r es Hr Hok); rewrite <-(take_drop (S m) es); apply elem_of_app; by left.
Qed.

(** ** Levels *)

(** A draw continues the loop, [random() & 0xFFFF] being less than a quarter
    of 0xFFFF. *)
Definition draws_up (z : Z) : bool := Z.land z 0xFFFF <=? 16383.

Lemma random_level_loop_spec (random : nat -> Z) k : forall fuel i l,
  (forall j, (j < k)%nat -> draws_up (random (i + j)%nat) = true) -> draws_up (random (i + k)%nat) = false ->
  (k < fuel)%nat -> 0 <= l -> l + Z.of_nat k < 2 ^ 31 -> random_level_loop random fuel i l = Some (l + Z.of_nat k).
Proof.
  assert (forall z, (4 * Z.land z 0xFFFF <? 0xFFFF) = draws_up z) as E.
  { intros z. unfold draws_up. destruct (Z.ltb_spec (4 * Z.land z 65535) 65535), (Z.leb_spec (Z.land z 65535) 16383); lia. }
  induction k as [|k IH]; intros fuel i l Hup Hstop Hf Hl Hb; (destruct fuel as [|fuel]; [lia|]); cbn [random_level_loop]; rewrite E.
  - rewrite Nat.add_0_r in Hstop. rewrite Hstop. f_equal. lia.
  - pose proof (Hup 0%nat ltac:(lia)) as H0. rewrite Nat.add_0_r in H0. rewrite H0, chk32_ok by lia. cbn [option_bind mbind].
    rewrite IH; try lia; [f_equal; lia|..].
    + intros j Hj. replace (S i + j)%nat with (i + S j)%nat by lia. apply Hup. lia.
    + by replace (S i + k)%nat with (i + S k)%nat by lia.
Qed.
End Query.
