(* ===== verification/SkiplistTheorems.v ===== *)
(** SkiplistTheorems: programs over a skip list, from [zslCreate] to
    [zslFree], against a sorted sequence of elements. *)
From Stdlib Require Import Sorting.Sorted Strings.Byte.
From S2P Require Import Prelude SdsMore Elements AdlistProofs Objects ObjectsSpec.
From S2P Require Import Skiplist SkiplistProofs SkiplistEdit SkiplistOps SkiplistSpec SkiplistQuery.

Section Programs.
Context {O : Type} `{SO : StringObjects O} {D : Type} (dictDelete : D -> O -> D).
Context (junk_level : zskiplistLevel) (junk_backward : option zptr).
Implicit Types (h : zheap O) (x p : zptr) (es : list (double * O)) (t e : double * O) (zsl : zskiplist) (d : D).

(** ** Operations *)

Inductive zop :=
| ZInsert (sc : double) (o : O) (lvl : Z)
| ZDelete (sc : double) (o : O)
| ZDeleteRangeByScore (r : zrangespec)
| ZDeleteRangeByRank (start end_ : Z).

(** What they return; of an inserted node, the element in it. *)
Inductive zout := OutNode (e : option (double * O)) | OutFound (b : bool) | OutCount (n : Z).

Abbreviation zstate := (zskiplist * zheap O * D)%type.

Definition run_zop (op : zop) (s : zstate) : option (zstate * zout) :=
  let '(zsl, h, d) := s in
  match op with
  | ZInsert sc o lvl =>
      '(zsl, h, x) ← zslInsert junk_level junk_backward zsl h sc o lvl;
      Some ((zsl, h, d), OutNode (elem_at h x))
  | ZDelete sc o => '(zsl, h, b) ← zslDelete zsl h sc o; Some ((zsl, h, d), OutFound b)
  | ZDeleteRangeByScore r =>
      '(zsl, h, d, n) ← zslDeleteRangeByScore dictDelete zsl h r d; Some ((zsl, h, d), OutCount n)
  | ZDeleteRangeByRank start end_ =>
      '(zsl, h, d, n) ← zslDeleteRangeByRank dictDelete zsl h start end_ d; Some ((zsl, h, d), OutCount n)
  end.

(** The specification: what is left, what is removed in order, whether the
    hash table view is told, and the result. *)
Definition rank_range (start end_ : Z) es : nat * nat :=
  let a := Nat.min (Z.to_nat (start - 1)) (length es) in (a, Z.to_nat end_ - a)%nat.

Definition spec_left (op : zop) es : list (double * O) :=
  match op with
  | ZInsert sc o _ => zinsert (sc, o) es
  | ZDelete sc o => zdelete (sc, o) es
  | ZDeleteRangeByScore r => filter (fun e => in_zrange r e = false) es
  | ZDeleteRangeByRank start end_ => let '(a, k) := rank_range start end_ es in take a es ++ drop k (drop a es)
  end.
Definition spec_gone (op : zop) es : list O :=
  snd <$> (match op with
           | ZInsert _ _ _ => []
           | ZDelete sc o => zfind (sc, o) es
           | ZDeleteRangeByScore r => filter (fun e => in_zrange r e = true) es
           | ZDeleteRangeByRank start end_ => let '(a, k) := rank_range start end_ es in take k (drop a es)
           end).
Definition spec_dict (op : zop) es d : D :=
  match op with ZInsert _ _ _ | ZDelete _ _ => d | _ => foldl dictDelete d (spec_gone op es) end.
Definition spec_out (op : zop) es : zout :=
  match op with
  | ZInsert sc o _ => OutNode (Some (sc, o))
  | ZDelete _ _ => OutFound (negb (bool_decide (spec_gone op es = [])))
  | _ => OutCount (Z.of_nat (length (spec_gone op es)))
  end.

(** What the callers guarantee: scores are numbers, an inserted object is new
    and its level comes from [zslRandomLevel]; ranks start at 1. *)
Definition zop_ok (op : zop) es : Prop :=
  match op with
  | ZInsert sc o lvl => isnan sc = false /\ obj_ok o /\ (obj_content o ∉ (fun e => obj_content e.2) <$> es) /\
      1 <= lvl <= 32 /\ Z.of_nat (S (length es)) < 2 ^ 32 - 1
  | ZDelete sc o => isnan sc = false /\ obj_ok o
  | ZDeleteRangeByScore r => range_ok r
  | ZDeleteRangeByRank start end_ => 1 <= start < 2 ^ 32 /\ 0 <= end_ < 2 ^ 32
  end.

Lemma run_zop_spec h0 op zsl h d es :
  zset_rep h0 zsl h es -> zop_ok op es ->
  exists zsl' h', run_zop op (zsl, h, d) = Some ((zsl', h', spec_dict op es d), spec_out op es) /\
    zset_rep h0 zsl' h' (spec_left op es) /\ released h' = reverse (spec_gone op es) ++ released h.
Proof.
  intros H Hok. destruct op as [sc o lvl|sc o|r|start end_]; cbn [zop_ok run_zop] in *.
  - destruct Hok as (Hn & Ho & Hnew & Hl & Hb).
    destruct (zslInsert_rep junk_level junk_backward h0 zsl h es (sc, o) lvl H Hn Ho Hnew Hl Hb) as (zsl' & h' & x & E & H' & Hr & n & Hx & Hs & Hno).
    cbn [fst snd] in *. rewrite E. cbn [option_bind mbind]. exists zsl', h'. split; [|done].
    unfold elem_at. rewrite Hx. cbn [option_bind mbind]. rewrite Hno. cbn [option_bind mbind]. by rewrite Hs.
  - destruct Hok as (Hn & Ho). destruct (zslDelete_rep h0 zsl h es (sc, o) H Hn Ho) as (zsl' & h' & E & H' & Hr).
    cbn [fst snd] in *. rewrite E. cbn [option_bind mbind]. exists zsl', h'. unfold spec_out, spec_gone, spec_dict.
    destruct H as (Hzok & _). pose proof (lookup_equal (sc, o) es Hzok) as Heq. fold (zfind (sc, o) es) in Heq.
    destruct (zfind (sc, o) es) as [|e rest]; [done|]. destruct Heq as (_ & -> & _). split; [done|]. done.
  - destruct (zslDeleteRangeByScore_rep dictDelete h0 zsl h es r d H Hok) as (zsl' & h' & -> & H' & Hr).
    cbn [option_bind mbind]. exists zsl', h'. cbn. by rewrite length_fmap.
  - destruct Hok as (Hst & Hen).
    destruct (zslDeleteRangeByRank_rep dictDelete h0 zsl h es start end_ d H) as (zsl' & h' & -> & H' & Hr); [lia|lia|].
    cbn [option_bind mbind]. exists zsl', h'. cbn. by rewrite length_fmap.
Qed.

(** *** Programs *)

Fixpoint run_zops (ops : list zop) (s : zstate) : option (zstate * list zout) :=
  match ops with
  | [] => Some (s, [])
  | op :: ops => '(s, out) ← run_zop op s; '(s, outs) ← run_zops ops s; Some (s, out :: outs)
  end.

Fixpoint spec_zops (ops : list zop) es d : list (double * O) * D * list O * list zout :=
  match ops with
  | [] => (es, d, [], [])
  | op :: ops =>
    let '(es', d', gone, outs) := spec_zops ops (spec_left op es) (spec_dict op es d) in
    (es', d', spec_gone op es ++ gone, spec_out op es :: outs)
  end.

Fixpoint zops_ok (ops : list zop) es : Prop :=
  match ops with [] => True | op :: ops => zop_ok op es /\ zops_ok ops (spec_left op es) end.

Lemma run_zops_spec h0 ops : forall zsl h d es,
  zset_rep h0 zsl h es -> zops_ok ops es ->
  let '(es', d', gone, outs) := spec_zops ops es d in
  exists zsl' h', run_zops ops (zsl, h, d) = Some ((zsl', h', d'), outs) /\
    zset_rep h0 zsl' h' es' /\ released h' = reverse gone ++ released h.
Proof.
  induction ops as [|op ops IH]; intros zsl h d es H Hok; cbn [spec_zops zops_ok run_zops] in *; [by exists zsl, h|].
  destruct Hok as [Hop Hok]. destruct (run_zop_spec h0 op zsl h d es H Hop) as (zsl1 & h1 & -> & H1 & Hr1). cbn [option_bind mbind].
  pose proof (IH zsl1 h1 (spec_dict op es d) _ H1 Hok) as Hrest. destruct (spec_zops _ _ _) as [[[es' d'] gone] outs].
  destruct Hrest as (zsl' & h' & -> & H' & Hr'). cbn [option_bind mbind]. exists zsl', h'. split; [done|]. split; [done|].
  by rewrite Hr', Hr1, reverse_app, <-app_assoc.
Qed.

Definition start h0 d : option zstate := '(zsl, h) ← zslCreate junk_level junk_backward h0; Some (zsl, h, d).

(** The states a program can reach. *)
Inductive reachable (h0 : zheap O) (d0 : D) : zstate -> list (double * O) -> Prop :=
| reach_start s : start h0 d0 = Some s -> reachable h0 d0 s []
| reach_step s s' es op out : reachable h0 d0 s es -> zop_ok op es -> run_zop op s = Some (s', out) ->
    reachable h0 d0 s' (spec_left op es).

Lemma reachable_rep h0 d0 s es : reachable h0 d0 s es -> zset_rep h0 s.1.1 s.1.2 es.
Proof.
  induction 1 as [s Hs|[[zsl h] d] s' es op out Hr IH Hop Hrun].
  - unfold start in Hs. destruct (zslCreate_rep junk_level junk_backward h0) as (zsl & h & E & H & _). rewrite E in Hs. by injection Hs as <-.
  - destruct (run_zop_spec h0 op zsl h d es IH Hop) as (zsl' & h' & E & H' & _). rewrite E in Hrun. by injection Hrun as <- _.
Qed.

(** ** Properties *)

(** C3: the skip list refines a sorted sequence. A program of insertions and
    deletions (of an element, of a range of scores, of a range of ranks) on a
    new list never fails, whatever the random levels; it returns what the
    sequence gives, tells the hash table view about exactly the elements that
    ranges remove, in order, and releases each removed object once. At the end
    [zslFree] releases the objects left, in order, and the memory is what it
    was before [zslCreate]. *)
Theorem zskiplist_refines_sequence h0 d0 ops :
  zops_ok ops [] ->
  let '(es, d, gone, outs) := spec_zops ops [] d0 in
  exists s zsl h h', start h0 d0 = Some s /\ run_zops ops s = Some ((zsl, h, d), outs) /\ zset_rep h0 zsl h es /\
    zslFree zsl h = Some h' /\ (forall q, znode h' q = znode h0 q) /\
    released h' = reverse (gone ++ (snd <$> es)) ++ released h0.
Proof.
  intros Hok. destruct (zslCreate_rep junk_level junk_backward h0) as (zsl & h & E & H & Hr).
  pose proof (run_zops_spec h0 ops zsl h d0 [] H Hok) as Hrun. destruct (spec_zops ops [] d0) as [[[es d] gone] outs].
  destruct Hrun as (zsl' & h' & Hrun & H' & Hr'). destruct (zslFree_rep h0 zsl' h' es H') as (h'' & Hf & Hsame & Hr'').
  exists (zsl, h, d0), zsl', h', h''. unfold start. rewrite E. do 5 (split; [done|]).
  by rewrite Hr'', Hr', Hr, reverse_app, <-app_assoc.
Qed.

(** C19: the invariant of the links. In every state a program reaches, there
    are nodes [ps], the header first, then one for each element in strictly
    increasing order (by score, then by content): level 0 links them in turn,
    the backward pointers and [tail] link them back, [length] counts them, and
    on every level in use a link goes to a node as many places further as its
    span, the last one to NULL with the places that are left as its span. *)
Theorem zskiplist_invariant h0 d0 zsl h d es :
  reachable h0 d0 (zsl, h, d) es ->
  StronglySorted elt es /\ zlength zsl = Z.of_nat (length es) /\ 1 <= zlevel zsl <= 32 /\
  exists ps, NoDup ps /\ length ps = S (length es) /\ ps !! 0%nat = Some (header zsl) /\
    tail zsl = (match es with [] => None | _ => ps !! length es end) /\
    (forall k p, ps !! k = Some p -> exists l, zlev h p 0 = Some l /\ forward l = ps !! S k) /\
    (forall k p, ps !! S k = Some p -> elem_at h p = es !! k /\
       (backward <$> znode h p) = Some (match k with 0%nat => None | S _ => ps !! k end)) /\
    (forall k p i l, ps !! k = Some p -> zlev h p i = Some l -> Z.of_nat i < zlevel zsl ->
       match forward l with
       | Some f => exists j, ps !! j = Some f /\ (k < j)%nat /\ span l = Z.of_nat j - Z.of_nat k
       | None => span l = Z.of_nat (length es) - Z.of_nat k
       end).
Proof.
  intros Hreach. apply reachable_rep in Hreach as (Hok & ps & hs & H & _). cbn [fst snd] in H.
  pose proof (zs_rep _ _ _ _ _ H) as Hr. destruct (zsl_lengths _ _ _ _ _ H) as (Hlh & Hl & _).
  pose proof (zr_levels _ _ _ _ _ Hr) as HL. rewrite <-(zs_length _ _ _ _ _ H). pose proof (zs_zlevel _ _ _ _ _ H) as Hzl.
  split; [apply (zo_sorted _ Hok)|]. split; [done|]. split; [lia|]. exists ps. split; [by eapply zsl_nodup|]. split; [done|].
  split; [apply (zs_header _ _ _ _ _ H)|]. split; [by eapply zsl_tail|]. split; [intros k p; by eapply zsl_next|]. split.
  - intros k p Hp. split; [by eapply elem_at_pos|]. pose proof (lookup_lt_Some _ _ _ Hp).
    destruct (zrep_elem _ _ _ _ _ k Hr) as (p' & sc & o & hk & n & Hp' & _ & _ & Hn & _ & _ & Hb & _); [lia|].
    rewrite Hp in Hp'. injection Hp' as <-. rewrite Hn. cbn. rewrite Hb. by destruct k.
  - intros k p i l Hp Hlev Hi. assert (tall hs i k) as Htall.
    { destruct k as [|k]; [eapply zrep_tall0; [exact Hr|lia]|]. pose proof (lookup_lt_Some _ _ _ Hp).
      destruct (zrep_elem _ _ _ _ _ k Hr) as (p' & sc & o & hk & n & Hp' & _ & Hk & Hn & _ & _ & _ & Hlen); [lia|].
      rewrite Hp in Hp'. injection Hp' as <-. exists hk. split; [done|]. unfold zlev in Hlev. rewrite Hn in Hlev. cbn in Hlev.
      apply lookup_lt_Some in Hlev. lia. }
    rewrite (zr_link _ _ _ _ _ Hr k p i Hp Htall) in Hlev by lia. injection Hlev as <-. cbn [forward span].
    destruct (fwd hs i k) as [j|] eqn:Hf; cbn [option_bind mbind].
    + apply fwd_Some in Hf as Hf'. destruct Hf' as (Hkj & Hj & _). pose proof (tall_lt _ _ _ Hj).
      destruct (lookup_lt_is_Some_2 ps j) as [f Hpf]; [lia|]. rewrite Hpf. exists j. split; [done|]. split; [done|]. by apply lspan_fwd.
    + rewrite (zs_length _ _ _ _ _ H). unfold lspan. rewrite Hf. cbn. lia.
Qed.

(** Ranks. In every state a program reaches, the rank of the element at
    position [k] is [k+1] and the element of rank [k+1] is the one at position
    [k]; the rank of an object that is not in the set is 0 whatever the score,
    and there is no element of a rank beyond the length. *)
Theorem zskiplist_ranks h0 d0 zsl h d es :
  reachable h0 d0 (zsl, h, d) es ->
  (forall k e, es !! k = Some e ->
     zslGetRank zsl h e.1 e.2 = Some (Z.of_nat (S k)) /\
     exists x, zslGetElementByRank zsl h (Z.of_nat (S k)) = Some (Some x) /\ elem_at h x = Some e) /\
  (forall sc o, isnan sc = false -> obj_ok o -> obj_content o ∉ (fun e => obj_content e.2) <$> es ->
     zslGetRank zsl h sc o = Some 0) /\
  (forall k, (length es <= k)%nat -> zslGetElementByRank zsl h (Z.of_nat (S k)) = Some None).
Proof.
  intros H%reachable_rep. cbn [fst snd] in H. split; [|split].
  - intros k e He. pose proof (proj1 H) as Hok. pose proof (list_elem_of_lookup_2 _ _ _ He) as Hin. split.
    + destruct (zslGetRank_rep h0 zsl h es e.1 e.2 H (zo_nan _ Hok _ Hin) (zo_obj _ Hok _ Hin)) as (r & -> & Hr & _).
      by rewrite (Hr k e He (proj2 (ecmp_eq e (e.1, e.2)) (conj eq_refl eq_refl))).
    + destruct (zslGetElementByRank_rep h0 zsl h es k H) as (r & -> & Hr). rewrite He in Hr. destruct r as [x|]; [|done].
      exists x. split; [done|]. cbn in Hr. congruence.
  - intros sc o Hn Ho Hnew. destruct (zslGetRank_rep h0 zsl h es sc o H Hn Ho) as (r & -> & _ & Hr). by rewrite Hr.
  - intros k Hk. destruct (zslGetElementByRank_rep h0 zsl h es k H) as (r & -> & Hr). rewrite lookup_ge_None_2 in Hr by done.
    by destruct r.
Qed.

(** Ranges of scores. In every state a program reaches, the ends found of
    a range are the first and the last element whose score is in it, infinite
    and excluded bounds included; NULL when there is none. *)
Theorem zskiplist_ranges h0 d0 zsl h d es r :
  reachable h0 d0 (zsl, h, d) es -> range_ok r ->
  (exists y, zslFirstInRange zsl h r = Some y /\ elem_at h <$> y = Some <$> head (filter (fun e => in_zrange r e = true) es)) /\
  (exists y, zslLastInRange zsl h r = Some y /\ elem_at h <$> y = Some <$> last (filter (fun e => in_zrange r e = true) es)) /\
  (zslIsInRange zsl h r = Some false -> filter (fun e => in_zrange r e = true) es = []).
Proof.
  intros H%reachable_rep Hr. cbn [fst snd] in H. split; [by eapply zslFirstInRange_rep|]. split; [by eapply zslLastInRange_rep|].
  destruct (zslIsInRange_rep h0 zsl h es r H Hr) as (b & -> & Hb & _). intros [= ->]. by apply Hb.
Qed.

Lemma run_zops_reachable h0 d0 ops : forall s es s' outs,
  reachable h0 d0 s es -> zops_ok ops es -> run_zops ops s = Some (s', outs) ->
  reachable h0 d0 s' (spec_zops ops es s.2).1.1.1.
Proof.
  induction ops as [|op ops IH]; intros s es s' outs Hr Hok; cbn [run_zops zops_ok spec_zops] in *; [by intros [= <- <-]|].
  destruct Hok as [Hop Hok]. destruct (run_zop op s) as [[s1 out]|] eqn:E; [|done]. cbn [option_bind mbind].
  destruct (run_zops ops s1) as [[s2 outs2]|] eqn:E2; [|done]. cbn [option_bind mbind]. intros [= <- _].
  pose proof (IH s1 _ s2 outs2 (reach_step _ _ _ _ _ _ _ Hr Hop E) Hok E2) as H2. destruct s as [[zsl h] d].
  destruct (run_zop_spec h0 op zsl h d es (reachable_rep _ _ _ _ Hr) Hop) as (zsl' & h' & E' & _).
  rewrite E' in E. injection E as <- _. cbn [snd] in H2 |- *. by destruct (spec_zops ops _ _) as [[[es' d'] gone] outs'].
Qed.

Lemma program_reachable h0 d0 ops :
  zops_ok ops [] -> exists zsl h d, reachable h0 d0 (zsl, h, d) (spec_zops ops [] d0).1.1.1.
Proof.
  intros Hok. destruct (zslCreate_rep junk_level junk_backward h0) as (zsl & h & E & H & _).
  pose proof (run_zops_spec h0 ops zsl h d0 [] H Hok) as Hrun.
  assert (start h0 d0 = Some (zsl, h, d0)) as Hs by by unfold start; rewrite E.
  pose proof (fun s' outs => run_zops_reachable h0 d0 ops _ _ s' outs (reach_start _ _ _ Hs) Hok) as Hreach.
  cbn [snd] in Hreach. destruct (spec_zops ops [] d0) as [[[es d] gone] outs]. destruct Hrun as (zsl' & h' & Hrun & _).
  exists zsl', h', d. by apply (Hreach _ outs).
Qed.
End Programs.

(** Levels. The level of a new node is one more than the number of draws
    of [random()] below a quarter before the first that is not, and at most
    32; the loop ends with that draw. *)
Theorem zslRandomLevel_geometric (random : nat -> Z) k fuel :
  (forall j, (j < k)%nat -> draws_up (random j) = true) -> draws_up (random k) = false ->
  Z.of_nat k + 1 < 2 ^ 31 -> (k < fuel)%nat ->
  zslRandomLevel random fuel = Some (Z.min (Z.of_nat k + 1) ZSKIPLIST_MAXLEVEL) /\
  1 <= Z.min (Z.of_nat k + 1) ZSKIPLIST_MAXLEVEL <= 32.
Proof.
  intros Hup Hstop Hk Hf. unfold zslRandomLevel. rewrite (random_level_loop_spec random k fuel 0 1) by (done || lia).
  cbn [option_bind mbind]. unfold ZSKIPLIST_MAXLEVEL. split; [|lia]. f_equal. destruct (Z.ltb_spec (1 + Z.of_nat k) 32); lia.
Qed.

(** ** Instances: a sorted set of string objects *)

Definition objs : StringObjects robj := robj_objects (fun _ => z2b 0).

#[local] Existing Instance objs.

Lemma raw_content c : content (raw_of c) = c.
Proof. unfold content, raw_of. cbn. rewrite Nat2Z.id. apply take_app_length. Qed.
Lemma raw_obj_ok c : Z.of_nat (length c) < 2 ^ 20 -> no_nul c -> obj_ok (raw_of c).
Proof. intros Hl Hn. split; [left; by apply raw_of_ok|]. by rewrite raw_content. Qed.
Lemma int_obj_ok v : - 2 ^ 63 < v < 2 ^ 63 -> no_nul (content (int_of v)) -> obj_ok (int_of v).
Proof. intros Hv Hn. split; [right|done]. split; [done|]. split; [done|]. by exists v. Qed.

Definition one : double := S754_finite false 1 0.
Definition two : double := S754_finite false 2 0.
Definition three : double := S754_finite false 3 0.

(** Insert b and a at 1, the integer 12 at 3 and c at -inf; remove a range
    of ranks, an element and an absent one. *)
Definition demo_inserts : list (zop (O := robj)) :=
  [ZInsert one (raw_of ["b"]%byte) 3; ZInsert one (raw_of ["a"]%byte) 1; ZInsert three (int_of 12) 2;
   ZInsert (S754_infinity true) (raw_of ["c"]%byte) 5].
Definition demo_deletes : list (zop (O := robj)) :=
  [ZDeleteRangeByRank 2 2; ZDelete three (raw_of ["1"; "2"]%byte); ZDelete two (raw_of ["b"]%byte);
   ZDeleteRangeByScore (Zrangespec (S754_infinity true) one false true)].

Ltac demo_op :=
  first [ apply raw_obj_ok; [vm_compute; done|repeat constructor; done]
        | apply int_obj_ok; [lia|repeat constructor; done]
        | apply (bool_decide_unpack _); vm_compute; done
        | done | lia ].

Definition demo : list (zop (O := robj)) := demo_inserts ++ demo_deletes.

Lemma demo_ok : zops_ok demo [].
Proof. unfold demo, demo_inserts, demo_deletes. cbn [app zops_ok zop_ok]. split_and!. all: demo_op. Qed.
Lemma inserts_ok : zops_ok demo_inserts [].
Proof. unfold demo_inserts. cbn [zops_ok zop_ok]. split_and!. all: demo_op. Qed.

(** The hash table view is here the list of the keys deleted. *)
Definition note (d : list robj) (o : robj) : list robj := o :: d.
Definition mem0 : zheap robj := Zheap ∅ [].

(** The elements after the insertions. *)
Definition inserted : list (double * robj) :=
  [(S754_infinity true, raw_of ["c"]%byte); (one, raw_of ["a"]%byte); (one, raw_of ["b"]%byte); (three, int_of 12)].

Lemma demo_reached : exists zsl h d, reachable note (ZLevel None 7) None mem0 [] (zsl, h, d) inserted.
Proof. exact (program_reachable note (ZLevel None 7) None mem0 [] demo_inserts inserts_ok). Qed.

Example zskiplist_refines_sequence_witness :
  zops_ok demo [] /\
  exists s zsl h h', start (ZLevel None 7) None mem0 [] = Some s /\
    run_zops note (ZLevel None 7) None demo s = Some ((zsl, h, [raw_of ["c"]; raw_of ["a"]]%byte),
      [OutNode (Some (one, raw_of ["b"]%byte)); OutNode (Some (one, raw_of ["a"]%byte)); OutNode (Some (three, int_of 12));
       OutNode (Some (S754_infinity true, raw_of ["c"]%byte)); OutCount 1; OutFound true; OutFound false; OutCount 1]) /\
    zset_rep mem0 zsl h [(one, raw_of ["b"]%byte)] /\ zslFree zsl h = Some h' /\ (forall q, znode h' q = None) /\
    released h' = [raw_of ["b"]; raw_of ["c"]; int_of 12; raw_of ["a"]]%byte.
Proof.
  split; [apply demo_ok|].
  exact (zskiplist_refines_sequence note (ZLevel None 7) None mem0 [] demo demo_ok).
Defined.

Example zskiplist_invariant_witness :
  exists zsl h d, reachable note (ZLevel None 7) None mem0 [] (zsl, h, d) inserted /\
    StronglySorted elt inserted /\ zlength zsl = 4 /\ 1 <= zlevel zsl <= 32.
Proof.
  destruct demo_reached as (zsl & h & d & H). exists zsl, h, d. split; [exact H|].
  destruct (zskiplist_invariant note (ZLevel None 7) None mem0 [] zsl h d inserted H) as (Hs & Hl & Hlv & _).
  split; [exact Hs|]. split; [exact Hl|exact Hlv].
Defined.

Example zskiplist_ranks_witness :
  exists zsl h d, reachable note (ZLevel None 7) None mem0 [] (zsl, h, d) inserted /\
    zslGetRank zsl h one (raw_of ["b"]%byte) = Some 3 /\ zslGetRank zsl h three (raw_of ["d"]%byte) = Some 0 /\
    (exists x, zslGetElementByRank zsl h 4 = Some (Some x) /\ elem_at h x = Some (three, int_of 12)) /\
    zslGetElementByRank zsl h 5 = Some None.
Proof.
  destruct demo_reached as (zsl & h & d & H). exists zsl, h, d. split; [exact H|].
  destruct (zskiplist_ranks note (ZLevel None 7) None mem0 [] zsl h d inserted H) as (Hin & Hout & Hend).
  split; [exact (proj1 (Hin 2%nat _ eq_refl))|]. split; [|split; [exact (proj2 (Hin 3%nat _ eq_refl))|exact (Hend 4%nat (le_n 4))]].
  apply Hout; [done|apply raw_obj_ok; [vm_compute; done|repeat constructor; done]|]. apply (bool_decide_unpack _). vm_compute. done.
Defined.

(** Between -inf excluded and 3 excluded. *)
Example zskiplist_ranges_witness :
  exists zsl h d, reachable note (ZLevel None 7) None mem0 [] (zsl, h, d) inserted /\
    (exists y, zslFirstInRange zsl h (Zrangespec (S754_infinity true) three true true) = Some y /\
       elem_at h <$> y = Some (Some (one, raw_of ["a"]%byte))) /\
    (exists y, zslLastInRange zsl h (Zrangespec (S754_infinity true) three true true) = Some y /\
       elem_at h <$> y = Some (Some (one, raw_of ["b"]%byte))) /\
    exists y, zslFirstInRange zsl h (Zrangespec two two false false) = Some y /\ elem_at h <$> y = None.
Proof.
  destruct demo_reached as (zsl & h & d & H). exists zsl, h, d. split; [exact H|].
  destruct (zskiplist_ranges note (ZLevel None 7) None mem0 [] zsl h d inserted
    (Zrangespec (S754_infinity true) three true true) H (conj eq_refl eq_refl)) as (Hf & Hl & _).
  split; [exact Hf|]. split; [exact Hl|].
  exact (proj1 (zskiplist_ranges note (ZLevel None 7) None mem0 [] zsl h d inserted (Zrangespec two two false false) H (conj eq_refl eq_refl))).
Defined.

Example zslRandomLevel_geometric_witness :
  zslRandomLevel (fun i => if (i <? 2)%nat then 0x70001 else 16384) 3 = Some 3.
Proof.
  refine (proj1 (zslRandomLevel_geometric (fun i => if (i <? 2)%nat then 0x70001 else 16384) 2 3 _ eq_refl eq_refl (le_n 3))).
  intros [|[|j]] Hj; [done|done|lia].
Defined.

(** A range between two scores has a part in the set as [zslIsInRange] says,
    although no element is in it. *)
Lemma zslIsInRange_gap :
  match start (ZLevel None 7) None mem0 [] ≫= run_zops note (ZLevel None 7) None demo_inserts with
  | Some ((zsl, h, _), _) =>
      zslIsInRange zsl h (Zrangespec two two false false) = Some true /\
      zslFirstInRange zsl h (Zrangespec two two false false) = Some None
  | None => False
  end.
Proof. vm_compute. done. Qed.
