(* ===== verification/Request.v ===== *)
(** Request: the request parser of [networking.c]: reading from the socket,
    inline and multi bulk requests, and the loop that hands complete requests
    to the commands. *)
From Stdlib Require Strings.String.
From S2P Require Import Prelude Util Sds Objects Rdb.
Import (notations) Corelib.Init.Byte.

Import (notations) Strings.String.
Abbreviation text s := (Strings.String.list_byte_of_string s%string).

Definition REDIS_IOBUF_LEN : Z := 1024 * 16.
Definition REDIS_INLINE_MAX_SIZE : Z := 1024 * 64.
Definition REDIS_MBULK_BIG_ARG : Z := 1024 * 32.
Definition REDIS_REQ_INLINE : Z := 1.
Definition REDIS_REQ_MULTIBULK : Z := 2.
Definition REDIS_MULTI : Z := Z.shiftl 1 3.
Definition REDIS_BLOCKED : Z := Z.shiftl 1 4.
Definition REDIS_CLOSE_AFTER_REPLY : Z := Z.shiftl 1 6.
Definition REDIS_ASKING : Z := Z.shiftl 1 9.

(** ** The C library's searches in a string

    The block must hold the end of the string. *)

Definition ends (m : list byte) : bool := existsb (fun b => b2z b =? 0) m.

Fixpoint index_of (needle m : list byte) (i : Z) : option Z :=
  if bool_decide (take (length needle) m = needle) then Some i
  else match m with [] => None | _ :: m => index_of needle m (i + 1) end.

(** [strstr(s,needle)] and [strchr(s,c)], [c] not null: the offset. *)
Definition strstr_at (m needle : list byte) : option (option Z) :=
  if ends m then Some (index_of needle (cstr m) 0) else None.
Definition strchr_at (m : list byte) (c : byte) : option (option Z) := strstr_at m [c].

(** [m+i] *)
Definition ptr_at (m : list byte) (i : Z) : option (list byte) :=
  if (0 <=? i) && (i <=? Z.of_nat (length m)) then Some (drop (Z.to_nat i) m) else None.

(** ** The client

    The fields the parser works on; [argv_size] is the number of slots of the
    argument vector. *)
Record redisClient := RedisClient {
  querybuf : sdshdr; querybuf_peak : Z; reqtype : Z; multibulklen : Z; bulklen : Z;
  argv : list robj; argv_size : Z; lastinteraction : Z }.

Definition argc (c : redisClient) : Z := Z.of_nat (length (argv c)).

(** What the parser uses of the rest of the client and of the server, with
    state [W]: the flags of the client, error replies (the text may come from
    a format), [processCommand] in [redis.c], [c->cmd = NULL],
    [server.current_client], the clock, the maximum size of a query buffer
    and the release of the client. *)
Class RequestEnv (W : Type) := {
  flags : W -> Z;
  set_flags : W -> Z -> W;
  addReplyError : W -> list byte -> option W;
  addReplyErrorFormat : W -> list byte -> option W;
  processCommand : redisClient -> W -> option (Z * redisClient * W);
  clear_cmd : W -> W;
  set_current_client : W -> bool -> W;
  unixtime : W -> Z;
  client_max_querybuf_len : W -> Z;
  freeClient : redisClient -> W -> option W }.

Section Request.
(** Unwritten memory. *)
Context {W : Type} `{RequestEnv W} (junk : nat -> byte).
Implicit Types (c : redisClient) (w : W) (qb : sdshdr) (pos : Z).

Definition set_querybuf c qb : redisClient :=
  RedisClient qb (querybuf_peak c) (reqtype c) (multibulklen c) (bulklen c) (argv c) (argv_size c) (lastinteraction c).
Definition set_reqtype c (t : Z) : redisClient :=
  RedisClient (querybuf c) (querybuf_peak c) t (multibulklen c) (bulklen c) (argv c) (argv_size c) (lastinteraction c).
Definition set_multibulklen c (n : Z) : redisClient :=
  RedisClient (querybuf c) (querybuf_peak c) (reqtype c) n (bulklen c) (argv c) (argv_size c) (lastinteraction c).
Definition set_bulklen c (n : Z) : redisClient :=
  RedisClient (querybuf c) (querybuf_peak c) (reqtype c) (multibulklen c) n (argv c) (argv_size c) (lastinteraction c).
(** [c->argv = zmalloc(sizeof(robj * )*n)], with [c->argc] zero. *)
Definition new_argv c (n : Z) : redisClient :=
  RedisClient (querybuf c) (querybuf_peak c) (reqtype c) (multibulklen c) (bulklen c) [] n (lastinteraction c).
(** [c->argv[c->argc++] = o], within the slots. *)
Definition push_arg c (o : robj) : option redisClient :=
  if argc c <? argv_size c then
    Some (RedisClient (querybuf c) (querybuf_peak c) (reqtype c) (multibulklen c) (bulklen c) (argv c ++ [o]) (argv_size c) (lastinteraction c))
  else None.

(** A new client, as far as the parser goes. *)
Definition createClient (now : Z) : option redisClient :=
  qb ← sdsempty junk; Some (RedisClient qb 0 0 0 (-1) [] 0 now).

Fixpoint release_args (os : list robj) : option unit :=
  match os with
  | [] => Some tt
  | o :: os => _ ← decrRefCount o; release_args os
  end.

Definition freeClientArgv c w : option (redisClient * W) :=
  _ ← release_args (argv c);
  Some (RedisClient (querybuf c) (querybuf_peak c) (reqtype c) (multibulklen c) (bulklen c) [] (argv_size c) (lastinteraction c), clear_cmd w).

Definition resetClient c w : option (redisClient * W) :=
  '(c, w) ← freeClientArgv c w;
  let c := set_bulklen (set_multibulklen (set_reqtype c 0) 0) (-1) in
  let w := if Z.land (flags w) REDIS_MULTI =? 0 then set_flags w (Z.land (flags w) (Z.lnot REDIS_ASKING)) else w in
  Some (c, w).

(** The message it logs is left out. *)
Definition setProtocolError c w pos : option (redisClient * W) :=
  let w := set_flags w (Z.lor (flags w) REDIS_CLOSE_AFTER_REPLY) in
  qb ← sdsrange (querybuf c) pos (-1);
  Some (set_querybuf c qb, w).

(** ** Inline requests *)

(** The objects of the tokens that are not empty. *)
Fixpoint inline_args c (toks : list sdshdr) : option redisClient :=
  match toks with
  | [] => Some c
  | t :: toks =>
    if negb (sdslen t =? 0) then c ← push_arg c (createObject REDIS_STRING (PSds t)); inline_args c toks
    else inline_args c toks
  end.

Definition processInlineBuffer c w : option (Z * redisClient * W) :=
  newline ← strstr_at (sh_buf (querybuf c)) [z2b 13; z2b 10];
  match newline with
  | None =>
    if REDIS_INLINE_MAX_SIZE <? sdslen (querybuf c) then
      w ← addReplyError w (text "Protocol error: too big inline request");
      '(c, w) ← setProtocolError c w 0;
      Some (REDIS_ERR, c, w)
    else Some (REDIS_ERR, c, w)
  | Some querylen =>
    toks ← sdssplitlen junk (sh_buf (querybuf c)) querylen [z2b 32];
    toks ← toks;
    qb ← sdsrange (querybuf c) (s32 (u64 (querylen + 2))) (-1);
    c ← inline_args (new_argv (set_querybuf c qb) (Z.of_nat (length toks))) toks;
    Some (REDIS_OK, c, w)
  end.

(** ** Multi bulk requests *)

(** The number of arguments, when it is not known: what the function returns,
    or the position after it. *)
Definition mbulk_count c w : option ((Z + Z) * redisClient * W) :=
  if multibulklen c =? 0 then
    if negb (argc c =? 0) then None
    else
      let buf := sh_buf (querybuf c) in
      newline ← strchr_at buf (z2b 13);
      match newline with
      | None =>
        if REDIS_INLINE_MAX_SIZE <? sdslen (querybuf c) then
          w ← addReplyError w (text "Protocol error: too big mbulk count string");
          '(c, w) ← setProtocolError c w 0;
          Some (inl REDIS_ERR, c, w)
        else Some (inl REDIS_ERR, c, w)
      | Some newline =>
        lim ← chk32 (s32 (sdslen (querybuf c)) - 2);
        if lim <? newline then Some (inl REDIS_ERR, c, w)
        else
          q0 ← getb buf 0;
          if negb (q0 =? chr "*"%byte) then None
          else
            p ← ptr_at buf 1;
            ll ← string2ll p (newline - 1);
            match ll with
            | Some ll =>
              if 1024 * 1024 <? ll then
                w ← addReplyError w (text "Protocol error: invalid multibulk length");
                '(c, w) ← setProtocolError c w 0;
                Some (inl REDIS_ERR, c, w)
              else
                let pos := s32 (newline + 2) in
                if ll <=? 0 then qb ← sdsrange (querybuf c) pos (-1); Some (inl REDIS_OK, set_querybuf c qb, w)
                else Some (inr pos, new_argv (set_multibulklen c (s32 ll)) (s32 ll), w)
            | None =>
              w ← addReplyError w (text "Protocol error: invalid multibulk length");
              '(c, w) ← setProtocolError c w 0;
              Some (inl REDIS_ERR, c, w)
            end
      end
  else Some (inr 0, c, w).

(** How a part of the loop's body ends: leaving the loop, returning an error,
    or going on. *)
Inductive mbulk_res := MbBreak c w pos | MbReturn c w | MbNext c w pos.

(** [if (c->bulklen == -1)]: the length of the next argument. *)
Definition bulk_len c w pos : option mbulk_res :=
  if bulklen c =? -1 then
    let buf := sh_buf (querybuf c) in
    p ← ptr_at buf pos;
    newline ← strchr_at p (z2b 13);
    match newline with
    | None =>
      if REDIS_INLINE_MAX_SIZE <? sdslen (querybuf c) then
        w ← addReplyError w (text "Protocol error: too big bulk count string");
        '(c, w) ← setProtocolError c w 0;
        Some (MbBreak c w pos)
      else Some (MbBreak c w pos)
    | Some n =>
      let newline := pos + n in
      lim ← chk32 (s32 (sdslen (querybuf c)) - 2);
      if lim <? newline then Some (MbBreak c w pos)
      else
        q ← getb buf pos;
        if negb (q =? chr "$"%byte) then
          w ← addReplyErrorFormat w (text "Protocol error: expected '$', got '" ++ [z2b q] ++ text "'");
          '(c, w) ← setProtocolError c w pos;
          Some (MbReturn c w)
        else
          p ← ptr_at buf (pos + 1);
          ll ← string2ll p (newline - (pos + 1));
          match ll with
          | Some ll =>
            if (ll <? 0) || (512 * 1024 * 1024 <? ll) then
              w ← addReplyError w (text "Protocol error: invalid bulk length");
              '(c, w) ← setProtocolError c w pos;
              Some (MbReturn c w)
            else
              let pos := s32 (pos + (newline - pos + 2)) in
              if REDIS_MBULK_BIG_ARG <=? ll then
                qb ← sdsrange (querybuf c) pos (-1);
                let qb := sdsMakeRoomFor junk qb (u64 (ll + 2)) in
                Some (MbNext (set_bulklen (set_querybuf c qb) ll) w 0)
              else Some (MbNext (set_bulklen c ll) w pos)
          | None =>
            w ← addReplyError w (text "Protocol error: invalid bulk length");
            '(c, w) ← setProtocolError c w pos;
            Some (MbReturn c w)
          end
    end
  else Some (MbNext c w pos).

(** The argument itself.  The object made of the whole query buffer and the
    buffer are one string, so the object has it without the last two bytes. *)
Definition bulk_arg c w pos : option mbulk_res :=
  let qb := querybuf c in
  if u64 (sdslen qb - pos) <? u32 (bulklen c + 2) then Some (MbBreak c w pos)
  else
    '(c, pos) ←
      (if (pos =? 0) && (REDIS_MBULK_BIG_ARG <=? bulklen c) && (s32 (sdslen qb) =? bulklen c + 2) then
         arg ← sdsIncrLen qb (-2);
         c ← push_arg c (createObject REDIS_STRING (PSds arg));
         qb ← sdsempty junk;
         Some (set_querybuf c (sdsMakeRoomFor junk qb (u64 (bulklen c + 2))), 0)
       else
         p ← ptr_at (sh_buf qb) pos;
         o ← createStringObject junk p (u64 (bulklen c));
         c ← push_arg c o;
         Some (c, s32 (pos + (bulklen c + 2))));
    n ← chk32 (multibulklen c - 1);
    Some (MbNext (set_multibulklen (set_bulklen c (-1)) n) w pos).

(** [while(c->multibulklen)] *)
Fixpoint mbulk_loop (fuel : nat) c w pos : option mbulk_res :=
  match fuel with
  | O => None
  | S fuel =>
    if multibulklen c =? 0 then Some (MbBreak c w pos)
    else
      r ← bulk_len c w pos;
      match r with
      | MbNext c w pos =>
        r ← bulk_arg c w pos;
        match r with MbNext c w pos => mbulk_loop fuel c w pos | _ => Some r end
      | _ => Some r
      end
  end.

(** What follows the loop. *)
Definition mbulk_done (r : mbulk_res) : option (Z * redisClient * W) :=
  match r with
  | MbReturn c w => Some (REDIS_ERR, c, w)
  | MbBreak c w pos | MbNext c w pos =>
    qb ← (if negb (pos =? 0) then sdsrange (querybuf c) pos (-1) else Some (querybuf c));
    Some (if multibulklen c =? 0 then REDIS_OK else REDIS_ERR, set_querybuf c qb, w)
  end.

Definition processMultibulkBuffer c w : option (Z * redisClient * W) :=
  '(r, c, w) ← mbulk_count c w;
  match r with
  | inl ret => Some (ret, c, w)
  | inr pos =>
    if multibulklen c <=? 0 then None
    else r ← mbulk_loop (S (Z.to_nat (multibulklen c))) c w pos; mbulk_done r
  end.

(** ** The input buffer *)

(** The body of the loop; whether it goes on. *)
Definition input_step c w : option (bool * redisClient * W) :=
  if negb (Z.land (flags w) REDIS_BLOCKED =? 0) then Some (false, c, w)
  else if negb (Z.land (flags w) REDIS_CLOSE_AFTER_REPLY =? 0) then Some (false, c, w)
  else
    q0 ← getb (sh_buf (querybuf c)) 0;
    let c := if reqtype c =? 0 then set_reqtype c (if q0 =? chr "*"%byte then REDIS_REQ_MULTIBULK else REDIS_REQ_INLINE) else c in
    '(r, c, w) ← (if reqtype c =? REDIS_REQ_INLINE then processInlineBuffer c w
                  else if reqtype c =? REDIS_REQ_MULTIBULK then processMultibulkBuffer c w else None);
    if negb (r =? REDIS_OK) then Some (false, c, w)
    else if argc c =? 0 then '(c, w) ← resetClient c w; Some (true, c, w)
    else
      '(r, c, w) ← processCommand c w;
      if r =? REDIS_OK then '(c, w) ← resetClient c w; Some (true, c, w) else Some (true, c, w).

Fixpoint input_loop (fuel : nat) c w : option (redisClient * W) :=
  match fuel with
  | O => None
  | S fuel =>
    if sdslen (querybuf c) =? 0 then Some (c, w)
    else '(go, c, w) ← input_step c w; if go : bool then input_loop fuel c w else Some (c, w)
  end.

(** Every round but the last takes a byte from the buffer. *)
Definition processInputBuffer c w : option (redisClient * W) :=
  input_loop (Z.to_nat (sdslen (querybuf c)) + 2) c w.

(** What [read] gives: an error, [EAGAIN] or another, the end of the stream,
    or bytes, at most as many as there is room for. *)
Inductive read_result := RError (again : bool) | REof | RData (bs : list byte).

Definition read_len c : Z :=
  let readlen := REDIS_IOBUF_LEN in
  if (reqtype c =? REDIS_REQ_MULTIBULK) && negb (multibulklen c =? 0) && negb (bulklen c =? -1)
     && (REDIS_MBULK_BIG_ARG <=? bulklen c) then
    let remaining := s32 (u64 (u32 (bulklen c + 2) - sdslen (querybuf c))) in
    if remaining <? readlen then remaining else readlen
  else readlen.

(** The client is gone in some cases. *)
Definition readQueryFromClient c w (nread : read_result) : option (option redisClient * W) :=
  let w := set_current_client w true in
  let readlen := read_len c in
  let qblen := sdslen (querybuf c) in
  let peak := if querybuf_peak c <? qblen then qblen else querybuf_peak c in
  let qb := sdsMakeRoomFor junk (querybuf c) (u64 readlen) in
  let c := RedisClient qb peak (reqtype c) (multibulklen c) (bulklen c) (argv c) (argv_size c) (lastinteraction c) in
  match nread with
  | RError false | REof | RData [] => w ← freeClient c w; Some (None, w)
  | RError true => Some (Some c, set_current_client w false)
  | RData bs =>
    if readlen <? Z.of_nat (length bs) then None
    else
      buf ← mem_write (sh_buf qb) qblen bs;
      qb ← sdsIncrLen (Sdshdr (sh_len qb) (sh_free qb) buf) (Z.of_nat (length bs));
      let c := RedisClient qb peak (reqtype c) (multibulklen c) (bulklen c) (argv c) (argv_size c) (unixtime w) in
      if client_max_querybuf_len w <? sdslen qb then w ← freeClient c w; Some (None, w)
      else
        '(c, w) ← processInputBuffer c w;
        Some (Some c, set_current_client w false)
  end.
End Request.
