(* ===== verification/RequestProofs.v ===== *)
(** RequestProofs: the parser as a function of bytes, and the proof that the
    parser of [Request] computes it. *)
From S2P Require Import Prelude Util UtilNum Sds SdsProofs SdsMore Objects Rdb Request.
Import (notations) Corelib.Init.Byte.
Import (notations) Strings.String.

(** ** Searches *)

Lemma cstr_end l g : cstr (l ++ z2b 0 :: g) = cstr l.
Proof. induction l as [|b l IH]; [done|]. cbn [app cstr]. destruct (b2z b =? 0); [done|]. by rewrite IH. Qed.

Lemma ends_end l g : ends (l ++ z2b 0 :: g) = true.
Proof. unfold ends. rewrite existsb_app. apply orb_true_iff. by right. Qed.

Lemma index_of_shift needle m : forall i, index_of needle m i = Z.add i <$> index_of needle m 0.
Proof.
  induction m as [|b m IH]; intros i; cbn [index_of]; (case_bool_decide; [cbn; f_equal; lia|]); [done|].
  rewrite IH, (IH (0 + 1)). destruct (index_of needle m 0); cbn; [f_equal; lia|done].
Qed.

(** Where [needle] is first found in [l] before a null character. *)
Definition find (needle l : list byte) : option nat := Z.to_nat <$> index_of needle (cstr l) 0.

Lemma index_of_spec needle m i : index_of needle m 0 = Some i ->
  exists n, i = Z.of_nat n /\ (n + length needle <= length m)%nat /\ take (length needle) (drop n m) = needle /\
    forall j, (j < n)%nat -> take (length needle) (drop j m) <> needle.
Proof.
  revert i. induction m as [|b m IH]; intros i; cbn [index_of]; case_bool_decide as Hb.
  1, 3: intros [= <-]; exists 0%nat; (split; [done|]); (split; [rewrite <-Hb at 1; rewrite length_take; lia|]); (split; [done|]); intros; lia.
  1: done.
  rewrite index_of_shift. destruct (index_of needle m 0) as [j|] eqn:E; [|done]. intros [= <-]. destruct (IH j eq_refl) as (n & -> & Hn & Ht & Hmin).
  exists (S n). cbn [length drop]. split; [lia|]. split; [lia|]. split; [done|]. intros [|k] Hk; [done|]. cbn [drop]. apply Hmin. lia.
Qed.

Lemma strstr_find needle l g : strstr_at (l ++ z2b 0 :: g) needle = Some (Z.of_nat <$> find needle l).
Proof.
  unfold strstr_at, find. rewrite ends_end, cstr_end. f_equal. destruct (index_of needle (cstr l) 0) eqn:E; [|done].
  apply index_of_spec in E as (n & -> & _). cbn. by rewrite Nat2Z.id.
Qed.

Lemma find_first needle l n : find needle l = Some n ->
  (n + length needle <= length (cstr l))%nat /\ take (length needle) (drop n (cstr l)) = needle /\
  forall j, (j < n)%nat -> take (length needle) (drop j (cstr l)) <> needle.
Proof. unfold find. destruct (index_of needle (cstr l) 0) as [i|] eqn:E; [|done]. apply index_of_spec in E as (m & -> & E). intros [= <-]. by rewrite Nat2Z.id. Qed.

Lemma cstr_length l : (length (cstr l) <= length l)%nat.
Proof. destruct (cstr_take l) as (r & E & _). rewrite E at 2. rewrite length_app. lia. Qed.

Lemma find_bound needle l n : find needle l = Some n -> (n + length needle <= length l)%nat.
Proof. intros (H & _)%find_first. pose proof (cstr_length l). lia. Qed.

(** A clean prefix, then the byte looked for. *)
Lemma find_here b p l : b2z b <> 0 -> Forall (fun x => b2z x <> 0 /\ x <> b) p -> find [b] (p ++ b :: l) = Some (length p).
Proof.
  intros Hb Hp. unfold find. assert (forall i, index_of [b] (cstr (p ++ b :: l)) i = Some (i + Z.of_nat (length p))) as ->; [|cbn; f_equal; lia].
  induction Hp as [|x p [Hx Hne] _ IH]; intros i; cbn [app cstr].
  - rewrite (proj2 (Z.eqb_neq _ 0) Hb). cbn [index_of length take]. rewrite bool_decide_eq_true_2 by done. f_equal. cbn. lia.
  - rewrite (proj2 (Z.eqb_neq _ 0) Hx). cbn [index_of length take]. rewrite bool_decide_eq_false_2 by congruence. rewrite IH. f_equal. lia.
Qed.

Lemma find_none b p : Forall (fun x => b2z x <> 0 /\ x <> b) p -> find [b] p = None.
Proof.
  intros Hp. unfold find. assert (forall i, index_of [b] (cstr p) i = None) as ->; [|done].
  induction Hp as [|x p [Hx Hne] _ IH]; intros i; cbn [cstr]; [done|].
  rewrite (proj2 (Z.eqb_neq _ 0) Hx). cbn [index_of length take]. rewrite bool_decide_eq_false_2 by congruence. apply IH.
Qed.

Lemma ptr_at_app p l i : i = Z.of_nat (length p) -> ptr_at (p ++ l) i = Some l.
Proof. intros ->. unfold ptr_at. rewrite length_app, (proj2 (Z.leb_le 0 _)), (proj2 (Z.leb_le _ _)) by lia. cbn [andb]. by rewrite Nat2Z.id, drop_app_length. Qed.

Lemma ptr_at_rep qb q (i : nat) : sds_rep qb q -> (i <= length q)%nat -> exists g, ptr_at (sh_buf qb) (Z.of_nat i) = Some (drop i q ++ z2b 0 :: g).
Proof.
  intros H Hi. destruct (rep_buf _ _ H) as (g & -> & _). exists g. rewrite <-(take_drop i q) at 1. rewrite <-app_assoc. apply ptr_at_app. rewrite length_take. lia.
Qed.

Lemma getb_rep qb q (i : nat) b : sds_rep qb q -> q !! i = Some b -> getb (sh_buf qb) (Z.of_nat i) = Some (b2z b).
Proof. intros H Hb. destruct (rep_buf _ _ H) as (g & -> & _). apply getb_nat. by apply lookup_app_l_Some. Qed.

(** A block may be followed by more. *)
Lemma mem_read_more m t off n bs : mem_read m off n = Some bs -> mem_read (m ++ t) off n = Some bs.
Proof. intros (m1 & m3 & -> & -> & ->)%mem_read_inv. rewrite <-!app_assoc. apply mem_read_app; done. Qed.

Lemma rd_more m t i b : rd m i = Some b -> rd (m ++ t) i = Some b.
Proof.
  unfold rd. case_decide; [|done]. destruct (m !! Z.to_nat i) eqn:E; [|done]. rewrite (lookup_app_l_Some _ _ _ _ E). done.
Qed.

Lemma splitlen_loop_more junk t sep len seplen : forall fuel s j start slots tokens r,
  sdssplitlen_loop junk fuel s len sep seplen j start slots tokens = Some r ->
  sdssplitlen_loop junk fuel (s ++ t) len sep seplen j start slots tokens = Some r.
Proof.
  induction fuel as [|fuel IH]; intros s j start slots tokens r; [done|]. cbn [sdssplitlen_loop]. destruct (_ <? _); [|done].
  set (slots' := if slots <? _ then _ else _). destruct (mem_read s j seplen) as [b|] eqn:Eb; [|done]. rewrite (mem_read_more _ t _ _ _ Eb). cbn [option_bind mbind].
  destruct (rd s j) as [sj|] eqn:Ej; [|done]. rewrite (rd_more _ t _ _ Ej). cbn [option_bind mbind]. destruct (rd sep 0); [|done]. cbn [option_bind mbind].
  destruct (_ || _); [|apply IH]. destruct (Z.of_nat (length tokens) <? slots'); [|done]. destruct (mem_read s start _) as [tok|] eqn:Et; [|done]. rewrite (mem_read_more _ t _ _ _ Et).
  cbn [option_bind mbind]. destruct (sdsnewlen _ _ _); [|done]. cbn [option_bind mbind]. apply IH.
Qed.

Lemma splitlen_more junk s t sep len r : sdssplitlen junk s len sep = Some r -> sdssplitlen junk (s ++ t) len sep = Some r.
Proof.
  unfold sdssplitlen. destruct (_ || _); [done|]. destruct (_ =? 0); [done|].
  destruct (sdssplitlen_loop _ _ _ _ _ _ _ _ _ _) as [[[start slots] toks]|] eqn:E; [|done]. rewrite (splitlen_loop_more _ t _ _ _ _ _ _ _ _ _ _ E). cbn [option_bind mbind].
  destruct (_ <? _); [|done]. destruct (mem_read s start _) as [tok|] eqn:Et; [|done]. by rewrite (mem_read_more _ t _ _ _ Et).
Qed.

(** The numeral [l] is, if it is one. *)
Definition num (l : list byte) : option Z := mjoin (string2ll l (Z.of_nat (length l))).

Lemma string2ll_num s t : string2ll (s ++ t) (Z.of_nat (length s)) = Some (num s).
Proof.
  unfold num. destruct (string2ll_spec s t) as (r & -> & Hr). f_equal. destruct (string2ll_spec s []) as (r' & E & Hr'). rewrite app_nil_r in E. rewrite E.
  cbn. destruct r as [v|]; [by symmetry; apply Hr', Hr|]. destruct r' as [v'|]; [by apply Hr, Hr'|done].
Qed.

Lemma num_print v : int64 v -> num (print_int v) = Some v.
Proof. intros Hv. unfold num. pose proof (proj2 (string2ll_iff (print_int v) [] v) (conj Hv eq_refl)) as E. rewrite app_nil_r in E. by rewrite E. Qed.

Lemma num_range s v : num s = Some v -> int64 v.
Proof. intros H. pose proof (string2ll_num s []) as E. rewrite H in E. apply string2ll_iff in E. tauto. Qed.

(** ** The parser on bytes *)

(** The line at [pos], without its end: there is none yet and may be one
    later; the buffer is too long; or the line and what follows it. *)
Inductive line_res := LWait | LBig | LGot (line : list byte) (next : nat).

Definition spec_line (q : list byte) (pos : nat) : line_res :=
  match find [z2b 13] (drop pos q) with
  | None => if REDIS_INLINE_MAX_SIZE <? Z.of_nat (length q) then LBig else LWait
  | Some n => if (length q <? pos + n + 2)%nat then LWait else LGot (take n (drop pos q)) (pos + n + 2)
  end.

(** More bytes are needed, the error to report, or the request is complete. *)
Inductive outcome := OWait | OFail (fmt : bool) (msg : list byte) | OReady.

(** The state between calls: the bytes not yet used, the arguments to come,
    the length of the next when it is known, the arguments so far. *)
Record pstate := PState { p_q : list byte; p_n : nat; p_bl : option nat; p_args : list (list byte) }.

(** The length of the next argument: the buffer, the position and it. *)
Inductive len_res := NWait | NFail (fmt : bool) (msg : list byte) | NGot (q : list byte) (pos : nat) (L : nat).

Definition bad_len : len_res := NFail false (text "Protocol error: invalid bulk length").

Definition spec_len (q : list byte) (pos : nat) : len_res :=
  match spec_line q pos with
  | LWait => NWait
  | LBig => NFail false (text "Protocol error: too big bulk count string")
  | LGot line next =>
    let b := default (z2b 13) (head line) in
    if negb (bool_decide (b = "$"%byte)) then NFail true (text "Protocol error: expected '$', got '" ++ [b] ++ text "'")
    else
      match num (drop 1 line) with
      | Some ll =>
        if (ll <? 0) || (512 * 1024 * 1024 <? ll) then bad_len
        else if REDIS_MBULK_BIG_ARG <=? ll then NGot (drop next q) 0 (Z.to_nat ll) else NGot q next (Z.to_nat ll)
      | None => bad_len
      end
  end.

(** An argument of [L] bytes at [pos], with the buffer and position after it. *)
Definition spec_arg (q : list byte) (pos L : nat) : option (list byte * nat * list byte) :=
  if (length q - pos <? L + 2)%nat then None
  else if ((pos =? 0)%nat && (REDIS_MBULK_BIG_ARG <=? Z.of_nat L)) && (length q =? L + 2)%nat then Some ([], 0%nat, take L q)
  else Some (q, (pos + L + 2)%nat, take L (drop pos q)).

Fixpoint spec_args (n : nat) (q : list byte) (pos : nat) (bl : option nat) (args : list (list byte)) : outcome * pstate :=
  match n with
  | O => (OReady, PState (drop pos q) 0 None args)
  | S n' =>
    match (match bl with Some L => NGot q pos L | None => spec_len q pos end) with
    | NWait => (OWait, PState (drop pos q) (S n') None args)
    | NFail fmt msg => (OFail fmt msg, PState (drop pos q) (S n') None args)
    | NGot q pos L =>
      match spec_arg q pos L with
      | None => (OWait, PState (drop pos q) (S n') (Some L) args)
      | Some (q, pos, a) => spec_args n' q pos None (args ++ [a])
      end
    end
  end.

Definition bad_count : outcome := OFail false (text "Protocol error: invalid multibulk length").

Definition spec_mbulk (p : pstate) : outcome * pstate :=
  let '(PState q n bl args) := p in
  match n with
  | S _ => spec_args n q 0 bl args
  | O =>
    match spec_line q 0 with
    | LWait => (OWait, p)
    | LBig => (OFail false (text "Protocol error: too big mbulk count string"), p)
    | LGot line next =>
      match num (drop 1 line) with
      | Some ll =>
        if 1024 * 1024 <? ll then (bad_count, p)
        else if ll <=? 0 then (OReady, PState (drop next q) 0 None args)
        else spec_args (Z.to_nat ll) q next None []
      | None => (bad_count, p)
      end
    end
  end.

(** The words of an inline request: the tokens between spaces, but the empty
    ones. *)
Definition words (l : list byte) : list (list byte) :=
  base.filter (fun a => a <> []) (if decide (l = []) then [] else split_ref (S (length l)) [z2b 32] [] l).

Definition spec_inline (p : pstate) : outcome * pstate :=
  match find [z2b 13; z2b 10] (p_q p) with
  | None => (if REDIS_INLINE_MAX_SIZE <? Z.of_nat (length (p_q p)) then OFail false (text "Protocol error: too big inline request") else OWait, p)
  | Some n => (OReady, PState (drop (n + 2) (p_q p)) 0 None (words (take n (p_q p))))
  end.

(** ** The client holds a state of the parser *)

Definition arg_obj (o : robj) (a : list byte) : Prop :=
  exists s, o = createObject REDIS_STRING (PSds s) /\ sds_rep s a.

Definition bl_val (bl : option nat) : Z := match bl with None => -1 | Some L => Z.of_nat L end.

Record holds (c : redisClient) (ty : Z) (p : pstate) : Prop := Holds {
  h_q : sds_rep (querybuf c) (p_q p);
  h_ty : reqtype c = ty;
  h_n : multibulklen c = Z.of_nat (p_n p);
  h_bl : bulklen c = bl_val (p_bl p);
  h_args : Forall2 arg_obj (argv c) (p_args p);
  h_slots : Z.of_nat (length (p_args p) + p_n p) <= argv_size c }.

(** The sizes that occur: a query buffer is at most a gigabyte and a read. *)
Definition p_ok (p : pstate) : Prop :=
  Z.of_nat (length (p_q p)) <= 2 ^ 30 + 2 ^ 14 /\ Z.of_nat (p_n p) <= 2 ^ 20 /\
  (forall L, p_bl p = Some L -> Z.of_nat L <= 2 ^ 29) /\ (p_n p = 0%nat -> p_bl p = None).

Section Parser.
Context {W : Type} `{RequestEnv W} (junk : nat -> byte).
Implicit Types (c : redisClient) (w : W) (qb : sdshdr) (q : list byte).

(** The error reply and the flag. *)
Definition fail_with (fmt : bool) (msg : list byte) w : option W :=
  w ← (if fmt then addReplyErrorFormat w msg else addReplyError w msg);
  Some (set_flags w (Z.lor (flags w) REDIS_CLOSE_AFTER_REPLY)).

Definition result (o : outcome) c w : option (Z * redisClient * W) :=
  match o with
  | OWait => Some (REDIS_ERR, c, w)
  | OFail fmt msg => w ← fail_with fmt msg w; Some (REDIS_ERR, c, w)
  | OReady => Some (REDIS_OK, c, w)
  end.

Lemma trim_spec_q qb q (pos : nat) : sds_rep qb q -> Z.of_nat (length q) < 2 ^ 31 - 2 ^ 21 -> (pos <= length q)%nat ->
  exists qb', sdsrange qb (Z.of_nat pos) (-1) = Some qb' /\ sds_rep qb' (drop pos q).
Proof.
  intros Hq Hl Hp. destruct (range_sds qb q (Z.of_nat pos) (-1) Hq) as (qb' & E & Hr); [lia..|]. exists qb'. split; [done|].
  unfold range_spec, range_index in Hr. rewrite (proj2 (Z.ltb_ge (Z.of_nat pos) 0)) in Hr by lia. change (-1 <? 0) with true in Hr. cbv iota zeta in Hr.
  rewrite take_ge in Hr; [by rewrite Nat2Z.id in Hr|]. rewrite length_drop. lia.
Qed.

Lemma trim_pos qb q (pos : nat) : sds_rep qb q -> Z.of_nat (length q) < 2 ^ 31 - 2 ^ 21 -> (pos <= length q)%nat ->
  exists qb', (if negb (Z.of_nat pos =? 0) then sdsrange qb (Z.of_nat pos) (-1) else Some qb) = Some qb' /\ sds_rep qb' (drop pos q).
Proof.
  intros Hq Hl Hp. destruct (Z.eqb_spec (Z.of_nat pos) 0) as [E|]; cbn [negb]; [|by apply trim_spec_q].
  exists qb. replace pos with 0%nat by lia. by rewrite drop_0.
Qed.

Lemma holds_q c ty p qb q : holds c ty p -> sds_rep qb q -> holds (set_querybuf c qb) ty (PState q (p_n p) (p_bl p) (p_args p)).
Proof. intros [] ?. by constructor. Qed.

Lemma empty_room n : 0 <= n <= 2 ^ 29 + 2 -> exists qb, sdsempty junk = Some qb /\ sds_rep (sdsMakeRoomFor junk qb n) [] /\ sds_rep qb [].
Proof.
  intros Hn. destruct (newlen_spec junk [] [z2b 0]) as (qb & E & Hq & _); [unfold sds_limit; cbn; lia|]. exists qb. split; [exact E|].
  split; [|done]. apply makeRoom_spec; [done|lia|unfold sds_limit; cbn; lia].
Qed.

Lemma protocol_error c ty p (pos : nat) : holds c ty p -> p_ok p -> (pos <= length (p_q p))%nat ->
  exists c', holds c' ty (PState (drop pos (p_q p)) (p_n p) (p_bl p) (p_args p)) /\
    forall w, setProtocolError c w (Z.of_nat pos) = Some (c', set_flags w (Z.lor (flags w) REDIS_CLOSE_AFTER_REPLY)).
Proof.
  intros Hh (Hq & _) Hp. destruct (trim_spec_q _ _ pos (h_q _ _ _ Hh)) as (qb & E & Hqb); [lia|done|]. exists (set_querybuf c qb).
  split; [by apply holds_q|]. intros w. unfold setProtocolError. by rewrite E.
Qed.

Lemma line_find qb q (pos : nat) : sds_rep qb q -> (pos <= length q)%nat ->
  exists p, ptr_at (sh_buf qb) (Z.of_nat pos) = Some p /\ strchr_at p (z2b 13) = Some (Z.of_nat <$> find [z2b 13] (drop pos q)).
Proof. intros Hq Hp. destruct (ptr_at_rep _ _ pos Hq Hp) as (g & E). eexists. split; [exact E|]. apply strstr_find. Qed.

Lemma line_head q (pos n : nat) : find [z2b 13] (drop pos q) = Some n -> (pos + n + 2 <= length q)%nat ->
  exists b, q !! pos = Some b /\ default (z2b 13) (head (take n (drop pos q))) = b.
Proof.
  intros Hf Hn. destruct (lookup_lt_is_Some_2 q pos) as [b Hb]; [lia|]. exists b. split; [done|]. apply drop_S in Hb as E.
  destruct n as [|n]; [|by rewrite E]. apply find_first in Hf as (_ & Hf & _). rewrite E in Hf. cbn [cstr] in Hf.
  destruct (b2z b =? 0); [done|]. cbn [take drop length] in Hf. injection Hf as Hf. by rewrite <-Hf.
Qed.

(** The digits of a line after its first character. *)
Lemma line_num qb q (pos n : nat) : sds_rep qb q -> (1 <= n)%nat -> (pos + n + 2 <= length q)%nat ->
  exists p, ptr_at (sh_buf qb) (Z.of_nat pos + 1) = Some p /\
    string2ll p (Z.of_nat pos + Z.of_nat n - (Z.of_nat pos + 1)) = Some (num (drop 1 (take n (drop pos q)))).
Proof.
  intros Hq Hn Hp. destruct (ptr_at_rep _ _ (S pos) Hq) as (g & E); [lia|]. replace (Z.of_nat pos + 1) with (Z.of_nat (S pos)) by lia. eexists. split; [exact E|].
  rewrite skipn_firstn_comm, drop_drop. replace (pos + 1)%nat with (S pos) by lia.
  rewrite <-(take_drop (n - 1) (drop (S pos) q)) at 1. rewrite <-app_assoc.
  replace (Z.of_nat pos + Z.of_nat n - Z.of_nat (S pos)) with (Z.of_nat (length (take (n - 1) (drop (S pos) q)))) by (rewrite length_take, length_drop; lia).
  apply string2ll_num.
Qed.

Lemma signed_len l : 0 <= l < 2 ^ 31 -> chk32 (s32 l - 2) = Some (l - 2).
Proof. intros Hl. rewrite s32_small by lia. apply chk32_ok. lia. Qed.

Lemma spec_len_bounds q (pos : nat) q' pos' L : spec_len q pos = NGot q' pos' L -> (pos <= length q)%nat ->
  (pos' <= length q' <= length q)%nat /\ Z.of_nat L <= 2 ^ 29.
Proof.
  unfold spec_len, spec_line. destruct (find _ _) as [n|]; [|by destruct (_ <? _)]. destruct (Nat.ltb_spec (length q) (pos + n + 2)) as [|Hn]; [done|].
  destruct (negb _); [done|]. destruct (num _) as [ll|]; [|done]. destruct (Z.ltb_spec ll 0); [done|]. destruct (Z.ltb_spec (512 * 1024 * 1024) ll); [done|]. cbn [orb].
  intros E Hp. destruct (_ <=? ll); injection E as <- <- <-; rewrite ?length_drop; lia.
Qed.

Lemma len_spec c w ty q n args (pos : nat) : holds c ty (PState q (S n) None args) -> p_ok (PState q (S n) None args) -> (pos <= length q)%nat ->
  match spec_len q pos with
  | NWait => bulk_len junk c w (Z.of_nat pos) = Some (MbBreak c w (Z.of_nat pos))
  | NFail fmt msg => exists c', holds c' ty (PState (drop pos q) (S n) None args) /\
      forall k, (r ← bulk_len junk c w (Z.of_nat pos); match r with MbNext c w p => k c w p | _ => mbulk_done r end)
                = (w ← fail_with fmt msg w; Some (REDIS_ERR, c', w))
  | NGot q' pos' L => exists c', holds c' ty (PState q' (S n) (Some L) args) /\ bulk_len junk c w (Z.of_nat pos) = Some (MbNext c' w (Z.of_nat pos'))
  end.
Proof.
  intros Hh Hok Hp. pose proof Hok as (Hq & _). cbn [p_q] in Hq. pose proof (h_q _ _ _ Hh) as Hrep. cbn [p_q] in Hrep.
  unfold spec_len, spec_line, bulk_len. rewrite (h_bl _ _ _ Hh). cbn [p_bl bl_val]. change (-1 =? -1) with true. cbv iota.
  destruct (line_find _ _ pos Hrep Hp) as (p & -> & Ef). cbn [option_bind mbind]. rewrite Ef, (rep_len_eq _ _ Hrep). cbn [option_bind mbind].
  destruct (find [z2b 13] (drop pos q)) as [m|] eqn:E; cbn [fmap option_fmap option_map].
  2:{ destruct (_ <? _); [|done]. destruct (protocol_error c ty _ 0 Hh Hok) as (c1 & Hh1 & Hk); [lia|]. cbn [p_q p_n p_bl p_args] in Hh1. rewrite drop_0 in Hh1.
      destruct (trim_pos (querybuf c1) q pos (h_q _ _ _ Hh1)) as (qb & Et & Hqb); [lia|done|]. exists (set_querybuf c1 qb). split; [by apply (holds_q c1 ty _ qb _ Hh1)|].
      intros k. unfold fail_with. destruct (addReplyError _ _) as [w1|]; [|done]. cbn [option_bind mbind]. change 0 with (Z.of_nat 0). rewrite Hk. cbn [option_bind mbind mbulk_done].
      rewrite Et. cbn [option_bind mbind]. rewrite (h_n _ _ _ Hh1). done. }
  rewrite signed_len by lia. cbn [option_bind mbind].
  destruct (Nat.ltb_spec (length q) (pos + m + 2)) as [Hw|Hw].
  { rewrite (proj2 (Z.ltb_lt _ _)) by lia. done. }
  rewrite (proj2 (Z.ltb_ge _ _)) by lia. destruct (line_head q pos m E Hw) as (b & Hb & Ehd). rewrite (getb_rep _ _ _ _ Hrep Hb), Ehd. cbn [option_bind mbind].
  destruct (protocol_error c ty _ pos Hh Hok Hp) as (c1 & Hh1 & Hk).
  assert ((b2z b =? chr "$"%byte) = bool_decide (b = "$"%byte)) as ->.
  { apply eq_true_iff_eq. rewrite Z.eqb_eq, bool_decide_eq_true. split; [|by intros ->]. intros Eb. apply b2z_inj. rewrite Eb. reflexivity. }
  case_bool_decide as Hd; cbn [negb].
  2:{ exists c1. split; [done|]. intros k. rewrite z2b_b2z. unfold fail_with. destruct (addReplyErrorFormat _ _) as [w1|]; [|done]. cbn [option_bind mbind]. rewrite Hk. done. }
  assert (1 <= m)%nat as Hm.
  { destruct m; [|lia]. cbn in Ehd. subst b. done. }
  destruct (line_num _ _ pos m Hrep Hm Hw) as (pd & -> & Ell). cbn [option_bind mbind]. rewrite Ell. cbn [option_bind mbind].
  assert (exists c', holds c' ty (PState (drop pos q) (S n) None args) /\
      forall k, (r ← (w ← addReplyError w (text "Protocol error: invalid bulk length"); '(c, w) ← setProtocolError c w (Z.of_nat pos); Some (MbReturn c w));
                 match r with MbNext c w p => k c w p | _ => mbulk_done r end)
                = (w ← fail_with false (text "Protocol error: invalid bulk length") w; Some (REDIS_ERR, c', w))) as Hbad.
  { exists c1. split; [done|]. intros k. unfold fail_with. destruct (addReplyError _ _) as [w1|]; [|done]. cbn [option_bind mbind]. rewrite Hk. done. }
  destruct (num _) as [ll|]; [|exact Hbad]. destruct ((ll <? 0) || (512 * 1024 * 1024 <? ll)) eqn:Er; [exact Hbad|].
  apply orb_false_iff in Er as [Er1%Z.ltb_ge Er2%Z.ltb_ge]. rewrite s32_small by lia.
  replace (Z.of_nat pos + (Z.of_nat pos + Z.of_nat m - Z.of_nat pos + 2)) with (Z.of_nat (pos + m + 2)) by lia.
  destruct (Z.leb_spec REDIS_MBULK_BIG_ARG ll).
  - destruct (trim_spec_q (querybuf c) q (pos + m + 2) Hrep) as (qb & -> & Hqb); [lia|lia|]. cbn [option_bind mbind]. rewrite u64_small by lia.
    eexists. split; [|reflexivity]. destruct (makeRoom_spec junk qb _ (ll + 2) Hqb) as [Hroom _]; [lia|unfold sds_limit; rewrite length_drop; lia|].
    destruct Hh. constructor; cbn [set_bulklen set_querybuf querybuf reqtype multibulklen bulklen argv argv_size p_q p_n p_bl p_args bl_val]; try done. lia.
  - eexists. split; [|reflexivity].
    destruct Hh. constructor; cbn [set_bulklen set_querybuf querybuf reqtype multibulklen bulklen argv argv_size p_q p_n p_bl p_args bl_val]; try done. lia.
Qed.

Lemma spec_arg_bounds q (pos L : nat) q' (pos' : nat) a : spec_arg q pos L = Some (q', pos', a) -> (pos <= length q)%nat ->
  (pos' <= length q' <= length q)%nat /\ length a = L.
Proof.
  unfold spec_arg. intros E Hp. destruct (Nat.ltb_spec (length q - pos) (L + 2)) as [|Hl]; [done|].
  destruct (_ && _ && _); injection E as <- <- <-; rewrite length_take, ?length_drop; cbn [length]; lia.
Qed.

Lemma push_arg_spec c ty q n L args s a : holds c ty (PState q (S n) (Some L) args) -> sds_rep s a ->
  exists c', push_arg c (createObject REDIS_STRING (PSds s)) = Some c' /\ querybuf c' = querybuf c /\
    multibulklen c' = multibulklen c /\ bulklen c' = bulklen c /\
    holds (set_multibulklen (set_bulklen c' (-1)) (Z.of_nat n)) ty (PState q n None (args ++ [a])).
Proof.
  intros Hh Hs. pose proof (h_slots _ _ _ Hh) as Hsl. cbn [p_args p_n] in Hsl. pose proof (Forall2_length _ _ _ (h_args _ _ _ Hh)) as El. cbn [p_args] in El.
  unfold push_arg, argc. rewrite (proj2 (Z.ltb_lt _ _)) by lia. eexists. split; [reflexivity|]. destruct Hh. do 3 (split; [done|]).
  constructor; cbn [set_multibulklen set_bulklen querybuf reqtype multibulklen bulklen argv argv_size p_q p_n p_bl p_args bl_val] in *; try done.
  - apply Forall2_app; [done|]. constructor; [|done]. by exists s.
  - rewrite length_app. cbn [length]. lia.
Qed.

Lemma bulk_arg_spec c w ty q n L args (pos : nat) : holds c ty (PState q (S n) (Some L) args) -> p_ok (PState q (S n) (Some L) args) -> (pos <= length q)%nat ->
  match spec_arg q pos L with
  | None => bulk_arg junk c w (Z.of_nat pos) = Some (MbBreak c w (Z.of_nat pos))
  | Some (q', pos', a) => exists c', holds c' ty (PState q' n None (args ++ [a])) /\ bulk_arg junk c w (Z.of_nat pos) = Some (MbNext c' w (Z.of_nat pos'))
  end.
Proof.
  intros Hh (Hq & Hn & HL & _) Hp. cbn [p_q p_n p_bl] in *. specialize (HL L eq_refl). pose proof (h_q _ _ _ Hh) as Hrep. cbn [p_q] in Hrep.
  pose proof (h_bl _ _ _ Hh) as Ebl. pose proof (h_n _ _ _ Hh) as En. cbn [p_bl bl_val p_n] in Ebl, En.
  unfold spec_arg, bulk_arg. rewrite Ebl, (rep_len_eq _ _ Hrep). rewrite u64_small, u32_small, s32_small by lia.
  destruct (Nat.ltb_spec (length q - pos) (L + 2)) as [Hw|Hw]; [by rewrite (proj2 (Z.ltb_lt _ _)) by lia|]. rewrite (proj2 (Z.ltb_ge _ _)) by lia.
  assert ((Z.of_nat pos =? 0) && (REDIS_MBULK_BIG_ARG <=? Z.of_nat L) && (Z.of_nat (length q) =? Z.of_nat L + 2)
    = ((pos =? 0)%nat && (REDIS_MBULK_BIG_ARG <=? Z.of_nat L)) && (length q =? L + 2)%nat) as ->.
  { do 2 f_equal; [f_equal|]; apply eq_true_iff_eq; rewrite Z.eqb_eq, Nat.eqb_eq; lia. }
  destruct (_ && _ && _) eqn:Esteal.
  - apply andb_true_iff in Esteal as [_ Elen%Nat.eqb_eq]. destruct (incrLen_trim (querybuf c) q 2 Hrep) as (arg & E & Harg); [lia|].
    change (- Z.of_nat 2) with (-2) in E. rewrite E. cbn [option_bind mbind]. replace (length q - 2)%nat with L in Harg by lia.
    destruct (push_arg_spec c ty q n L args arg _ Hh Harg) as (c1 & -> & Eq & Em & Eb & Hh1). cbn [option_bind mbind].
    destruct (empty_room (Z.of_nat L + 2)) as (e & -> & He & _); [lia|]. cbn [option_bind mbind]. cbn [multibulklen set_querybuf]. rewrite Em, En, chk32_ok by lia.
    cbn [option_bind mbind]. rewrite Eb, Ebl, u64_small by lia. eexists. split; [|reflexivity]. replace (Z.of_nat (S n) - 1) with (Z.of_nat n) by lia.
    destruct Hh1. by constructor.
  - destruct (ptr_at_rep _ _ pos Hrep Hp) as (g & ->). cbn [option_bind mbind]. rewrite u64_small by lia.
    set (a := take L (drop pos q)). assert (length a = L) as La by (unfold a; rewrite length_take, length_drop; lia).
    rewrite <-(take_drop L (drop pos q)), <-app_assoc. fold a. unfold createStringObject.
    destruct (newlen_spec junk a (drop L (drop pos q) ++ z2b 0 :: g)) as (s & E & Hs & _); [unfold sds_limit; lia|]. rewrite La in E. rewrite E. cbn [option_bind mbind].
    destruct (push_arg_spec c ty q n L args s a Hh Hs) as (c1 & -> & Eq & Em & Eb & Hh1). cbn [option_bind mbind]. rewrite Em, En, chk32_ok, Eb, Ebl, s32_small by lia.
    cbn [option_bind mbind]. replace (Z.of_nat pos + (Z.of_nat L + 2)) with (Z.of_nat (pos + L + 2)) by lia. eexists. split; [|reflexivity].
    by replace (Z.of_nat (S n) - 1) with (Z.of_nat n) by lia.
Qed.

Lemma bind_done (X : option mbulk_res) (K : redisClient -> W -> Z -> option mbulk_res) :
  ((r ← X; match r with MbNext c w p => K c w p | _ => Some r end) ≫= mbulk_done)
  = (r ← X; match r with MbNext c w p => K c w p ≫= mbulk_done | _ => mbulk_done r end).
Proof. by destruct X as [[]|]. Qed.

Lemma p_ok_q q q' n bl args args' : p_ok (PState q n bl args) -> (length q' <= length q)%nat -> p_ok (PState q' n bl args').
Proof. intros (H1 & H2 & H3 & H4) Hl. cbn [p_q p_n p_bl] in *. split; [cbn; lia|done]. Qed.

(** Leaving the loop at [pos]. *)
Lemma break_done c w ty q n bl args (pos : nat) : holds c ty (PState q n bl args) -> p_ok (PState q n bl args) -> (pos <= length q)%nat ->
  exists c', holds c' ty (PState (drop pos q) n bl args) /\
    mbulk_done (MbBreak c w (Z.of_nat pos)) = Some (if Z.of_nat n =? 0 then REDIS_OK else REDIS_ERR, c', w).
Proof.
  intros Hh (Hq & _) Hp. cbn [p_q] in Hq. destruct (trim_pos (querybuf c) q pos (h_q _ _ _ Hh)) as (qb & E & Hqb); [lia|done|].
  exists (set_querybuf c qb). split; [by apply (holds_q c ty _ qb _ Hh)|]. cbn [mbulk_done]. rewrite E, (h_n _ _ _ Hh). done.
Qed.

Lemma args_spec n : forall fuel c w ty q (pos : nat) bl args, holds c ty (PState q n bl args) -> p_ok (PState q n bl args) -> (pos <= length q)%nat -> (n < fuel)%nat ->
  let '(o, p) := spec_args n q pos bl args in
  exists c', holds c' ty p /\ mbulk_loop junk fuel c w (Z.of_nat pos) ≫= mbulk_done = result o c' w.
Proof.
  induction n as [|n IH]; intros fuel c w ty q pos bl args Hh Hok Hp Hf; (destruct fuel as [|fuel]; [lia|]); cbn [spec_args mbulk_loop]; rewrite (h_n _ _ _ Hh); cbn [p_n].
  - change (Z.of_nat 0 =? 0) with true. cbv iota. destruct (break_done c w ty q 0 bl args pos Hh Hok Hp) as (c' & Hh' & E).
    exists c'. split; [|exact E]. destruct Hok as (_ & _ & _ & Hbl). specialize (Hbl eq_refl). cbn in Hbl. by subst.
  - rewrite (proj2 (Z.eqb_neq (Z.of_nat (S n)) 0)) by lia. rewrite bind_done.
    assert (forall c q' (pos' L : nat), holds c ty (PState q' (S n) (Some L) args) -> p_ok (PState q' (S n) (Some L) args) -> (pos' <= length q')%nat ->
      let '(o, p) := match spec_arg q' pos' L with
                     | None => (OWait, PState (drop pos' q') (S n) (Some L) args)
                     | Some (q, pos, a) => spec_args n q pos None (args ++ [a]) end in
      exists c', holds c' ty p /\ ((r ← bulk_arg junk c w (Z.of_nat pos'); match r with MbNext c w pos => mbulk_loop junk fuel c w pos | _ => Some r end) ≫= mbulk_done) = result o c' w) as Harg.
    { intros c2 q2 pos2 L Hh2 Hok2 Hp2. rewrite bind_done. pose proof (bulk_arg_spec c2 w ty q2 n L args pos2 Hh2 Hok2 Hp2) as Ha.
      destruct (spec_arg q2 pos2 L) as [[[q3 pos3] a]|] eqn:Ea.
      - apply spec_arg_bounds in Ea as [Hb _]; [|done]. destruct Ha as (c3 & Hh3 & ->). cbn [option_bind mbind]. apply IH; [done| |lia|lia].
        destruct Hok2 as (H1 & H2 & H3 & H4). cbn [p_q p_n p_bl] in *. split; [cbn; lia|]. split; [cbn; lia|]. done.
      - rewrite Ha. cbn [option_bind mbind]. destruct (break_done c2 w ty q2 (S n) (Some L) args pos2 Hh2 Hok2 Hp2) as (c' & Hh' & E). exists c'. split; [done|exact E]. }
    destruct bl as [L|].
    + assert (bulk_len junk c w (Z.of_nat pos) = Some (MbNext c w (Z.of_nat pos))) as ->.
      { unfold bulk_len. rewrite (h_bl _ _ _ Hh). cbn [p_bl bl_val]. by rewrite (proj2 (Z.eqb_neq _ _)) by lia. }
      cbn [option_bind mbind]. by apply Harg.
    + pose proof (len_spec c w ty q n args pos Hh Hok Hp) as Hlen. destruct (spec_len q pos) as [|fmt msg|q2 pos2 L] eqn:Es.
      * rewrite Hlen. cbn [option_bind mbind]. destruct (break_done c w ty q (S n) None args pos Hh Hok Hp) as (c' & Hh' & E). exists c'. split; [done|exact E].
      * destruct Hlen as (c' & Hh' & E). exists c'. split; [done|]. exact (E (fun c w p => (r ← bulk_arg junk c w p; match r with MbNext c w pos => mbulk_loop junk fuel c w pos | _ => Some r end) ≫= mbulk_done)).
      * apply spec_len_bounds in Es as [Hb HL]; [|done]. destruct Hlen as (c2 & Hh2 & ->). cbn [option_bind mbind]. apply Harg; [done| |lia].
        destruct Hok as (H1 & H2 & H3 & H4). cbn [p_q p_n p_bl] in *. split; [cbn; lia|]. split; [cbn; lia|]. split; [|done]. intros L' [= <-]. lia.
Qed.

Lemma mbulk_spec c w ty p : holds c ty p -> p_ok p -> (p_n p = 0%nat -> p_args p = [] /\ head (p_q p) = Some "*"%byte) ->
  let '(o, p') := spec_mbulk p in exists c', holds c' ty p' /\ processMultibulkBuffer junk c w = result o c' w.
Proof.
  intros Hh Hok H0. destruct p as [q n bl args]. pose proof Hok as (Hq & Hn & _). cbn [p_q p_n p_args] in *. pose proof (h_q _ _ _ Hh) as Hrep. cbn [p_q] in Hrep.
  unfold spec_mbulk, processMultibulkBuffer, mbulk_count. rewrite (h_n _ _ _ Hh). cbn [p_n]. destruct n as [|n].
  2:{ rewrite (proj2 (Z.eqb_neq (Z.of_nat (S n)) 0)) by lia. cbn [option_bind mbind]. rewrite (h_n _ _ _ Hh), (proj2 (Z.leb_gt _ 0)) by (cbn [p_n]; lia). cbn [p_n]. rewrite Nat2Z.id.
      change 0 with (Z.of_nat 0). apply args_spec; [done|done|lia|lia]. }
  destruct (H0 eq_refl) as [-> Hhd]. pose proof (Forall2_length _ _ _ (h_args _ _ _ Hh)) as El. cbn [p_args length] in El.
  assert (bl = None) as -> by (destruct Hok as (_ & _ & _ & Hbl); by apply Hbl).
  change (Z.of_nat 0 =? 0) with true. unfold argc. rewrite El. change (negb (Z.of_nat 0 =? 0)) with false. cbv iota zeta.
  destruct (line_find _ _ 0 Hrep) as (p & Ep & Ef); [lia|]. assert (ptr_at (sh_buf (querybuf c)) (Z.of_nat 0) = Some (sh_buf (querybuf c))) as Ep'.
  { unfold ptr_at. rewrite (proj2 (Z.leb_le 0 _)), (proj2 (Z.leb_le (Z.of_nat 0) _)) by lia. done. }
  rewrite Ep' in Ep. injection Ep as <-. rewrite Ef, (rep_len_eq _ _ Hrep). cbn [option_bind mbind]. unfold spec_line. rewrite drop_0.
  destruct (protocol_error c ty _ 0 Hh Hok) as (c1 & Hh1 & Hk); [lia|]. cbn [p_q p_n p_bl p_args] in Hh1. rewrite drop_0 in Hh1. change (Z.of_nat 0) with 0 in Hk.
  destruct (find [z2b 13] q) as [m|] eqn:E; cbn [fmap option_fmap option_map].
  2:{ destruct (_ <? _); [|by exists c]. exists c1. split; [done|]. cbn [result]. unfold fail_with. destruct (addReplyError _ _); [|done]. cbn [option_bind mbind]. by rewrite Hk. }
  rewrite signed_len by lia. cbn [option_bind mbind].
  destruct (Nat.ltb_spec (length q) (0 + m + 2)) as [Hw|Hw]; [rewrite (proj2 (Z.ltb_lt _ _)) by lia; by exists c|]. rewrite (proj2 (Z.ltb_ge _ _)) by lia.
  assert (q !! 0%nat = Some "*"%byte) as Hb by (by destruct q). pose proof (getb_rep _ _ 0 _ Hrep Hb) as Eg. change (Z.of_nat 0) with 0 in Eg. rewrite Eg. cbn [option_bind mbind].
  change (negb (b2z "*"%byte =? chr "*"%byte)) with false. cbv iota.
  assert (1 <= m)%nat as Hm. { destruct m; [|lia]. apply find_first in E as (_ & E & _). destruct q as [|b q]; [done|]. injection Hb as ->. done. }
  destruct (line_num _ _ 0 m Hrep Hm Hw) as (pd & Ept & Ell). change (Z.of_nat 0 + 1) with 1 in Ept. rewrite Ept. cbn [option_bind mbind].
  change (Z.of_nat 0 + Z.of_nat m - (Z.of_nat 0 + 1)) with (Z.of_nat m - 1) in Ell. rewrite Ell. cbn [option_bind mbind]. rewrite drop_0.
  assert (exists c', holds c' ty (PState q 0 None []) /\
    ('(r, c, w) ← (w ← addReplyError w (text "Protocol error: invalid multibulk length"); '(c, w) ← setProtocolError c w 0; Some (inl REDIS_ERR, c, w));
     match r with inl ret => Some (ret, c, w) | inr pos => if multibulklen c <=? 0 then None else r ← mbulk_loop junk (S (Z.to_nat (multibulklen c))) c w pos; mbulk_done r end)
    = result bad_count c' w) as Hbad.
  { exists c1. split; [done|]. cbn [result bad_count]. unfold fail_with. destruct (addReplyError _ _); [|done]. cbn [option_bind mbind]. by rewrite Hk. }
  destruct (num _) as [ll|]; [|exact Hbad]. destruct (Z.ltb_spec (1024 * 1024) ll); [exact Hbad|]. rewrite (s32_small (_ + 2)) by lia.
  replace (Z.of_nat m + 2) with (Z.of_nat (0 + m + 2)) by lia. destruct (Z.leb_spec ll 0).
  - destruct (trim_spec_q (querybuf c) q (0 + m + 2) Hrep) as (qb & -> & Hqb); [lia|lia|]. cbn [option_bind mbind]. eexists. split; [|reflexivity]. by apply (holds_q c ty _ qb _ Hh).
  - cbn [option_bind mbind new_argv set_multibulklen multibulklen]. rewrite s32_small, (proj2 (Z.leb_gt _ 0)) by lia.
    apply args_spec; [|split; [done|split; [cbn; lia|done]]|lia|lia].
    destruct Hh. constructor; cbn [new_argv set_multibulklen querybuf reqtype multibulklen bulklen argv argv_size p_q p_n p_bl p_args bl_val length Nat.add] in *; try done; lia.
Qed.

Lemma inline_args_spec toks : forall ts c ty q args, Forall2 sds_rep toks ts -> holds c ty (PState q 0 None args) ->
  Z.of_nat (length args + length toks) <= argv_size c ->
  exists c', inline_args c toks = Some c' /\ holds c' ty (PState q 0 None (args ++ base.filter (fun a => a <> []) ts)).
Proof.
  induction toks as [|t toks IH]; intros ts c ty q args Hts Hh Hsl; apply Forall2_cons_inv_l in Hts || apply Forall2_nil_inv_l in Hts.
  { subst ts. exists c. by rewrite app_nil_r. }
  destruct Hts as (a & ts' & Ha & Hts & ->). cbn [inline_args]. rewrite (rep_len_eq _ _ Ha). cbn [length] in Hsl. destruct (decide (a = [])) as [->|Hne].
  { cbn [length negb]. change (Z.of_nat 0 =? 0) with true. cbn [negb]. rewrite filter_cons_False by (intros H'; by apply H'). apply IH; [done|done|lia]. }
  rewrite (proj2 (Z.eqb_neq _ 0)) by (destruct a; [done|cbn; lia]). cbn [negb]. rewrite filter_cons_True by done.
  pose proof (Forall2_length _ _ _ (h_args _ _ _ Hh)) as El. cbn [p_args] in El. unfold push_arg, argc. rewrite (proj2 (Z.ltb_lt _ _)) by lia. cbn [option_bind mbind].
  replace (args ++ a :: base.filter (fun a => a <> []) ts') with ((args ++ [a]) ++ base.filter (fun a => a <> []) ts') by (by rewrite <-app_assoc).
  apply IH; [done| |cbn [argv_size]; rewrite length_app; cbn [length]; lia].
  destruct Hh. constructor; cbn [querybuf reqtype multibulklen bulklen argv argv_size p_q p_n p_bl p_args] in *; try done.
  - apply Forall2_app; [done|]. constructor; [|done]. by exists t.
  - rewrite length_app. cbn [length]. lia.
Qed.

Lemma inline_spec c w ty p : holds c ty p -> p_ok p -> p_n p = 0%nat ->
  let '(o, p') := spec_inline p in exists c', holds c' ty p' /\ processInlineBuffer junk c w = result o c' w.
Proof.
  intros Hh Hok H0. destruct p as [q n bl args]. cbn [p_n] in H0. subst n. pose proof Hok as (Hq & _ & _ & Hbl). cbn [p_q p_n p_bl] in *. specialize (Hbl eq_refl). subst bl.
  pose proof (h_q _ _ _ Hh) as Hrep. cbn [p_q] in Hrep. unfold spec_inline, processInlineBuffer. cbn [p_q].
  destruct (rep_buf _ _ Hrep) as (g & Eg & _). rewrite Eg, strstr_find, (rep_len_eq _ _ Hrep). cbn [option_bind mbind].
  destruct (find [z2b 13; z2b 10] q) as [m|] eqn:E; cbn [fmap option_fmap option_map].
  2:{ destruct (_ <? _); [|by exists c]. destruct (protocol_error c ty _ 0 Hh Hok) as (c1 & Hh1 & Hk); [lia|]. cbn [p_q p_n p_bl p_args] in Hh1. rewrite drop_0 in Hh1. change (Z.of_nat 0) with 0 in Hk.
      exists c1. split; [done|]. cbn [result]. unfold fail_with. destruct (addReplyError _ _); [|done]. cbn [option_bind mbind]. by rewrite Hk. }
  apply find_bound in E as Hm. cbn [length] in Hm.
  destruct (splitlen_spec junk [z2b 32] (take m q)) as (toks & Et & Htoks); [cbn; lia|unfold sds_limit; rewrite length_take; lia|].
  replace (Z.of_nat (length (take m q))) with (Z.of_nat m) in Et by (rewrite length_take; lia). apply (splitlen_more _ _ (drop m q ++ z2b 0 :: g)) in Et.
  rewrite app_assoc, take_drop in Et. rewrite Et. cbn [option_bind mbind]. rewrite u64_small, s32_small by lia. replace (Z.of_nat m + 2) with (Z.of_nat (m + 2)) by lia.
  destruct (trim_spec_q (querybuf c) q (m + 2) Hrep) as (qb & -> & Hqb); [lia|lia|]. cbn [option_bind mbind].
  edestruct (inline_args_spec toks _ (new_argv (set_querybuf c qb) (Z.of_nat (length toks))) ty (drop (m + 2) q) [] Htoks) as (c' & -> & Hh'); [|cbn; lia|by exists c'].
  destruct Hh. constructor; cbn [new_argv set_querybuf querybuf reqtype multibulklen bulklen argv argv_size p_q p_n p_bl p_args] in *; try done. cbn. lia.
Qed.
End Parser.
