(* ===== verification/RequestRun.v ===== *)
(** RequestRun: the loop over the query buffer and the read handler, for any
    commands and server that keep the laws: what a client's state is between
    two events, that every event leads to such a state, and what becomes of
    well-formed requests that arrive in pieces. *)
From S2P Require Import Prelude Util UtilNum UtilSpec Sds SdsProofs SdsMore Objects Rdb Request RequestProofs.
Import (notations) Corelib.Init.Byte.

(** ** Flags *)

Lemma land_bit f k : 0 <= k -> (Z.land f (Z.shiftl 1 k) =? 0) = negb (Z.testbit f k).
Proof.
  intros Hk. apply eq_true_iff_eq. rewrite Z.eqb_eq, negb_true_iff. rewrite Z.shiftl_1_l. split.
  - intros E. apply (f_equal (fun z => Z.testbit z k)) in E. rewrite Z.land_spec, Z.pow2_bits_true, andb_true_r, Z.bits_0 in E by done. done.
  - intros E. apply Z.bits_inj'. intros i Hi. rewrite Z.land_spec, Z.bits_0, Z.pow2_bits_eqb by done.
    destruct (Z.eqb_spec k i) as [<-|]; [by rewrite E|apply andb_false_r].
Qed.

Definition blocked {W} `{RequestEnv W} (w : W) : bool := Z.testbit (flags w) 4.
Definition closing {W} `{RequestEnv W} (w : W) : bool := Z.testbit (flags w) 6.

(** ** What the parser relies on *)

(** All flags stay but [REDIS_CLOSE_ASAP], which a reply may set. *)
Definition flags_kept {W} `{RequestEnv W} (w w' : W) : Prop := forall n, n <> 10 -> Z.testbit (flags w') n = Z.testbit (flags w) n.

(** [env_ok] is an invariant of the rest of the server.  A command leaves the
    parser's fields alone, and a result that is not [REDIS_OK] means that the
    client is to be closed. *)
Class RequestLaws (W : Type) `{RequestEnv W} := {
  env_ok : W -> Prop;
  env_flags w f : flags (set_flags w f) = f;
  env_set w f : env_ok w -> env_ok (set_flags w f);
  env_error w msg : env_ok w -> exists w', addReplyError w msg = Some w' /\ env_ok w' /\ flags_kept w w';
  env_errorf w msg : env_ok w -> exists w', addReplyErrorFormat w msg = Some w' /\ env_ok w' /\ flags_kept w w';
  env_clear w : env_ok w -> env_ok (clear_cmd w) /\ flags (clear_cmd w) = flags w;
  env_current w b : env_ok w -> env_ok (set_current_client w b) /\ flags (set_current_client w b) = flags w;
  env_max w : env_ok w -> client_max_querybuf_len w <= 2 ^ 30;
  env_free c w : env_ok w -> exists w', freeClient c w = Some w' /\ env_ok w';
  env_command c w : env_ok w -> blocked w = false -> closing w = false -> argv c <> [] -> argc c <= argv_size c -> (exists args, Forall2 arg_obj (argv c) args) ->
    exists r c' w', processCommand c w = Some (r, c', w') /\ env_ok w' /\
      querybuf c' = querybuf c /\ reqtype c' = reqtype c /\ multibulklen c' = multibulklen c /\ bulklen c' = bulklen c /\
      release_args (argv c') = Some tt /\ 0 <= argv_size c' /\ (r = REDIS_OK \/ closing w' = true) }.

(** ** What the parser leaves *)

Lemma spec_args_out n : forall q (pos : nat) bl args o p, spec_args n q pos bl args = (o, p) -> (pos <= length q)%nat ->
  (forall L, bl = Some L -> Z.of_nat L <= 2 ^ 29) -> (n = 0%nat -> bl = None) ->
  (p_n p <= n)%nat /\ (length (p_q p) <= length q - pos)%nat /\ (forall L, p_bl p = Some L -> Z.of_nat L <= 2 ^ 29 /\ (length (p_q p) < L + 2)%nat) /\
  (p_n p = 0%nat -> p_bl p = None) /\ (o = OReady <-> p_n p = 0%nat) /\ (o = OReady -> n <> 0%nat -> (length (p_q p) + 2 <= length q - pos)%nat) /\
  (length (p_args p) + p_n p = length args + n)%nat.
Proof.
  induction n as [|n IH]; intros q pos bl args o p E Hp Hbl H0; cbn [spec_args] in E.
  { injection E as <- <-. cbn [p_n p_q p_bl p_args]. rewrite length_drop. split_and!; try done; lia. }
  assert (forall q2 (pos2 L : nat), (pos2 <= length q2)%nat -> (length q2 - pos2 <= length q - pos)%nat -> Z.of_nat L <= 2 ^ 29 ->
    match spec_arg q2 pos2 L with
    | None => (OWait, PState (drop pos2 q2) (S n) (Some L) args)
    | Some (q, pos, a) => spec_args n q pos None (args ++ [a]) end = (o, p) ->
    (p_n p <= S n)%nat /\ (length (p_q p) <= length q - pos)%nat /\ (forall L, p_bl p = Some L -> Z.of_nat L <= 2 ^ 29 /\ (length (p_q p) < L + 2)%nat) /\
    (p_n p = 0%nat -> p_bl p = None) /\ (o = OReady <-> p_n p = 0%nat) /\ (o = OReady -> S n <> 0%nat -> (length (p_q p) + 2 <= length q - pos)%nat) /\
    (length (p_args p) + p_n p = length args + S n)%nat) as Harg.
  { intros q2 pos2 L Hp2 Hle HL Ea. unfold spec_arg in Ea. destruct (Nat.ltb_spec (length q2 - pos2) (L + 2)) as [Hw|Hw].
    { injection Ea as <- <-. cbn [p_n p_q p_bl p_args]. rewrite length_drop. split_and!; try done; try lia. intros L' [= <-]. lia. }
    destruct (_ && _ && _).
    - apply IH in Ea as (A & B & C & D & E' & F & G); [|done|done|done]. cbn [length] in *. rewrite length_app in G. cbn [length] in G. split_and!; try done; try lia.
    - apply IH in Ea as (A & B & C & D & E' & F & G); [|lia|done|done]. rewrite length_app in G. cbn [length] in G. split_and!; try done; try lia. }
  assert (forall (X : outcome * pstate), X = (o, p) -> (exists fmt msg, X = (OFail fmt msg, PState (drop pos q) (S n) None args)) \/ X = (OWait, PState (drop pos q) (S n) None args) ->
    (p_n p <= S n)%nat /\ (length (p_q p) <= length q - pos)%nat /\ (forall L, p_bl p = Some L -> Z.of_nat L <= 2 ^ 29 /\ (length (p_q p) < L + 2)%nat) /\
    (p_n p = 0%nat -> p_bl p = None) /\ (o = OReady <-> p_n p = 0%nat) /\ (o = OReady -> S n <> 0%nat -> (length (p_q p) + 2 <= length q - pos)%nat) /\
    (length (p_args p) + p_n p = length args + S n)%nat) as Hstop.
  { intros X -> [(fmt & msg & [= -> ->])|[= -> ->]]; cbn [p_n p_q p_bl p_args]; rewrite length_drop; split_and!; try done; try lia. }
  destruct bl as [L|].
  - apply (Harg q pos L); [done|lia|by apply Hbl|exact E].
  - destruct (spec_len q pos) as [|fmt msg|q2 pos2 L] eqn:Es; [by apply (Hstop _ E); right|apply (Hstop _ E); left; by exists fmt, msg|].
    assert ((length q2 - pos2 <= length q - pos)%nat) as Hle.
    { unfold spec_len, spec_line in Es. destruct (find _ _) as [m|]; [|by destruct (_ <? _)]. destruct (Nat.ltb_spec (length q) (pos + m + 2)); [done|].
      destruct (negb _); [done|]. destruct (num _); [|done]. destruct (_ || _); [done|]. destruct (_ <=? _); injection Es as <- <- <-; rewrite ?length_drop; lia. }
    apply spec_len_bounds in Es as [[] HL]; [|done]. by apply (Harg q2 pos2 L).
Qed.

Lemma spec_mbulk_out p o p' : spec_mbulk p = (o, p') -> p_ok p -> (p_n p = 0%nat -> p_args p = []) ->
  p_ok p' /\ (length (p_q p') <= length (p_q p))%nat /\ (forall L, p_bl p' = Some L -> (length (p_q p') < L + 2)%nat) /\
  (o = OReady -> p_n p' = 0%nat /\ (length (p_q p') < length (p_q p))%nat) /\
  (o = OWait -> p_n p' = 0%nat -> p' = p).
Proof.
  destruct p as [q n bl args]. intros E (Hq & Hn & HL & Hbl) Hargs. cbn [spec_mbulk p_q p_n p_bl p_args] in *. destruct n as [|n].
  - specialize (Hbl eq_refl). subst bl. assert (p_ok (PState q 0 None args)) as Hok by (split; [done|split; [done|done]]).
    assert (forall o', (o', PState q 0 None args) = (o, p') -> o' <> OReady -> p_ok p' /\ (length (p_q p') <= length q)%nat /\ (forall L, p_bl p' = Some L -> (length (p_q p') < L + 2)%nat) /\
      (o = OReady -> p_n p' = 0%nat /\ (length (p_q p') < length q)%nat) /\ (o = OWait -> p_n p' = 0%nat -> p' = PState q 0 None args)) as Hstop.
    { intros o' [= -> <-] Hne. split; [done|]. cbn [p_q p_bl p_n]. split; [lia|]. by split. }
    unfold spec_line in E. rewrite drop_0 in E. destruct (find _ _) as [m|] eqn:Ef; [|destruct (_ <? _); by apply (Hstop _ E)].
    destruct (Nat.ltb_spec (length q) (0 + m + 2)) as [|Hm]; [by apply (Hstop _ E)|]. destruct (num _) as [ll|]; [|by apply (Hstop _ E)].
    destruct (Z.ltb_spec (1024 * 1024) ll) as [|Hll]; [by apply (Hstop _ E)|]. destruct (Z.leb_spec ll 0).
    + injection E as <- <-. cbn [p_q p_n p_bl]. rewrite length_drop. split; [split; [cbn; rewrite length_drop; lia|done]|]. split; [lia|]. split; [done|]. split; [lia|done].
    + apply spec_args_out in E as (A & B & C & D & F & G & _); [|lia|done|lia]. split; [split; [lia|split; [lia|split; [intros L HL'; by apply C|done]]]|].
      split; [lia|]. split; [intros L HL'; by apply C|]. split; [|intros -> H0; by apply F in H0]. intros Ho. split; [by apply F|]. specialize (G Ho). lia.
  - apply spec_args_out in E as (A & B & C & D & F & G & _); [|lia|done|done]. split; [split; [lia|split; [lia|split; [intros L HL'; by apply C|done]]]|].
    split; [lia|]. split; [intros L HL'; by apply C|]. split; [|intros -> H0; by apply F in H0]. intros Ho. split; [by apply F|]. specialize (G Ho). lia.
Qed.

Lemma spec_inline_out p o p' : spec_inline p = (o, p') -> p_ok p -> p_n p = 0%nat ->
  p_ok p' /\ (length (p_q p') <= length (p_q p))%nat /\ p_n p' = 0%nat /\ (o = OReady -> (length (p_q p') < length (p_q p))%nat) /\ (o <> OReady -> p' = p).
Proof.
  intros E Hok H0. unfold spec_inline in E. destruct (find _ _) as [m|] eqn:Ef; injection E as <- <-.
  - cbn [p_q p_n]. apply find_bound in Ef. cbn [length] in Ef. destruct Hok as (Hq & _). rewrite length_drop. split; [split; [cbn; rewrite length_drop; lia|done]|].
    split; [lia|]. split; [done|]. split; [lia|done].
  - split; [done|]. split; [lia|]. split; [done|]. split; [by destruct (_ <? _)|done].
Qed.

(** ** Between two events *)

Record frame (c : redisClient) (ty : Z) (p : pstate) : Prop := Frame {
  f_q : sds_rep (querybuf c) (p_q p);
  f_ty : reqtype c = ty;
  f_n : multibulklen c = Z.of_nat (p_n p);
  f_bl : bulklen c = bl_val (p_bl p) }.

(** Where a request can be interrupted. *)
Definition rest (ty : Z) (p : pstate) : Prop :=
  (p_n p = 0%nat -> p_args p = []) /\
  (ty = 0 /\ p_n p = 0%nat \/ ty = REDIS_REQ_INLINE /\ p_n p = 0%nat \/
   ty = REDIS_REQ_MULTIBULK /\ (p_n p = 0%nat -> head (p_q p) = Some "*"%byte)).

(** The buffer has no more than the large argument it waits for. *)
Definition fits_arg (ty : Z) (p : pstate) : Prop :=
  forall L, p_bl p = Some L -> ty = REDIS_REQ_MULTIBULK /\ (REDIS_MBULK_BIG_ARG <= Z.of_nat L -> (length (p_q p) <= L + 2)%nat).

Section Loop.
Context {W : Type} {env : RequestEnv W} {laws : RequestLaws W} (junk : nat -> byte).
Implicit Types (c : redisClient) (w : W) (p : pstate).

Record inv c w (ty : Z) p : Prop := Inv {
  i_env : env_ok w;
  i_frame : frame c ty p;
  i_ok : p_ok p;
  i_len : Z.of_nat (length (p_q p)) <= 2 ^ 30;
  i_arg : fits_arg ty p;
  i_rest : closing w = true \/ (holds c ty p /\ rest ty p) }.

Lemma holds_frame c ty p : holds c ty p -> frame c ty p.
Proof. intros []. by constructor. Qed.

Lemma holds_argc c ty p : holds c ty p -> argc c <= argv_size c.
Proof. intros []. unfold argc. rewrite (Forall2_length _ _ _ h_args). lia. Qed.

Lemma blocked_test w : (Z.land (flags w) REDIS_BLOCKED =? 0) = negb (blocked w).
Proof. by apply (land_bit _ 4). Qed.
Lemma closing_test w : (Z.land (flags w) REDIS_CLOSE_AFTER_REPLY =? 0) = negb (closing w).
Proof. by apply (land_bit _ 6). Qed.

Lemma release_held os : forall args, Forall2 arg_obj os args -> release_args os = Some tt.
Proof. induction os as [|o os IH]; intros args Ha; [done|]. inversion Ha as [|? a ? args' (s & -> & _) Hos]; subst. cbn [release_args]. by apply (IH args'). Qed.

Lemma reset_spec c w ty p : frame c ty p -> env_ok w -> release_args (argv c) = Some tt -> 0 <= argv_size c ->
  exists c' w', resetClient c w = Some (c', w') /\ holds c' 0 (PState (p_q p) 0 None []) /\ env_ok w' /\
    blocked w' = blocked w /\ closing w' = closing w /\ querybuf c' = querybuf c.
Proof.
  intros [] Hw Hr Hsz. destruct (env_clear w Hw) as [Hw1 Hf1]. unfold resetClient, freeClientArgv. rewrite Hr. cbn [option_bind mbind].
  eexists _, _. split; [reflexivity|]. split; [by constructor|]. destruct (_ =? 0).
  - split; [by apply env_set|]. unfold blocked, closing. rewrite env_flags, !Z.land_spec, Hf1, !Z.lnot_spec by lia. change (Z.testbit REDIS_ASKING 4) with false.
    change (Z.testbit REDIS_ASKING 6) with false. cbn [negb]. by rewrite !andb_true_r.
  - split; [done|]. unfold blocked, closing. by rewrite Hf1.
Qed.

Lemma fail_spec fmt msg w : env_ok w -> exists w', fail_with fmt msg w = Some w' /\ env_ok w' /\ closing w' = true /\ blocked w' = blocked w.
Proof.
  intros Hw. assert (exists w1, (if fmt then addReplyErrorFormat w msg else addReplyError w msg) = Some w1 /\ env_ok w1 /\ flags_kept w w1) as (w1 & E & Hw1 & Hf).
  { destruct fmt; [by apply env_errorf|by apply env_error]. }
  unfold fail_with. rewrite E. cbn [option_bind mbind]. eexists. split; [reflexivity|]. split; [by apply env_set|].
  unfold closing, blocked. rewrite env_flags, !Z.lor_spec, !Hf by lia. change (Z.testbit REDIS_CLOSE_AFTER_REPLY 6) with true. change (Z.testbit REDIS_CLOSE_AFTER_REPLY 4) with false.
  by rewrite orb_true_r, orb_false_r.
Qed.

(** The call of one of the two parsers, in a client that is not closing. *)
Definition parse (ty : Z) p : outcome * pstate := if decide (ty = REDIS_REQ_INLINE) then spec_inline p else spec_mbulk p.

Lemma parse_spec c w ty p : holds c ty p -> p_ok p -> rest ty p -> ty <> 0 ->
  let '(o, p') := parse ty p in
  exists c', holds c' ty p' /\ result o c' w =
    (if reqtype c =? REDIS_REQ_INLINE then processInlineBuffer junk c w
     else if reqtype c =? REDIS_REQ_MULTIBULK then processMultibulkBuffer junk c w else None).
Proof.
  intros Hh Hok [Hargs Hty] Hne. rewrite (h_ty _ _ _ Hh). unfold parse. destruct Hty as [[-> _]|[[-> Hn]|[-> Hhd]]]; [done| |].
  - rewrite decide_True by done. change (REDIS_REQ_INLINE =? REDIS_REQ_INLINE) with true. cbv iota. pose proof (inline_spec junk c w _ p Hh Hok Hn) as Hi.
    destruct (spec_inline p) as [o p']. destruct Hi as (c' & Hh' & E). by exists c'.
  - rewrite decide_False by done. change (REDIS_REQ_MULTIBULK =? REDIS_REQ_INLINE) with false. change (REDIS_REQ_MULTIBULK =? REDIS_REQ_MULTIBULK) with true. cbv iota.
    assert (p_n p = 0%nat -> p_args p = [] /\ head (p_q p) = Some "*"%byte) as H0 by (intros E; split; auto).
    pose proof (mbulk_spec junk c w _ p Hh Hok H0) as Hi. destruct (spec_mbulk p) as [o p']. destruct Hi as (c' & Hh' & E). by exists c'.
Qed.

Lemma parse_out ty p o p' : parse ty p = (o, p') -> p_ok p -> rest ty p -> ty <> 0 ->
  p_ok p' /\ (length (p_q p') <= length (p_q p))%nat /\ fits_arg ty p' /\
  (o = OReady -> p_n p' = 0%nat /\ (length (p_q p') < length (p_q p))%nat) /\ (o = OWait -> rest ty p').
Proof.
  unfold parse. intros E Hok [Hargs Hty] Hne. case_decide as Hd.
  - assert (p_n p = 0%nat) as Hn. { destruct Hty as [[-> _]|[[_ Hn]|[-> _]]]; [done|done|by subst]. }
    destruct (spec_inline_out p o p' E Hok Hn) as (A & B & C & D & F). split; [done|]. split; [done|].
    assert (fits_arg ty p') as Hfit. { intros L HL. destruct A as (_ & _ & _ & A). by rewrite A in HL. }
    split; [done|]. split; [intros Ho; split; auto|]. intros ->. rewrite F by done. by split.
  - destruct Hty as [[-> _]|[[-> _]|[-> Hhd]]]; [done|done|].
    destruct (spec_mbulk_out p o p' E Hok Hargs) as (A & B & C & D & F). split; [done|]. split; [done|].
    split; [intros L HL; specialize (C L HL); split; [done|lia]|]. split; [done|]. intros Ho. split.
    + intros H0. specialize (F Ho H0). subst p'. auto.
    + right. right. split; [done|]. intros H0. specialize (F Ho H0). subst p'. auto.
Qed.

(** The type of a request, from its first byte when it is not known. *)
Definition req_type (ty : Z) p : Z :=
  if decide (ty = 0) then (if decide (head (p_q p) = Some "*"%byte) then REDIS_REQ_MULTIBULK else REDIS_REQ_INLINE) else ty.

Lemma rest_type ty p : rest ty p -> p_q p <> [] -> rest (req_type ty p) p /\ req_type ty p <> 0.
Proof.
  intros [Hargs Hty] Hq. unfold req_type. case_decide as H0; [|done]. destruct Hty as [[_ Hn]|[[-> _]|[-> _]]]; [|done|done].
  case_decide as Hd; (split; [|done]); (split; [done|]); [right; right|right; left]; by split.
Qed.

Lemma step_eq c w ty p : holds c ty p -> p_ok p -> rest ty p -> blocked w = false -> closing w = false -> p_q p <> [] ->
  let '(o, p') := parse (req_type ty p) p in
  exists c', holds c' (req_type ty p) p' /\ input_step junk c w =
    match o with
    | OWait => Some (false, c', w)
    | OFail fmt msg => w ← fail_with fmt msg w; Some (false, c', w)
    | OReady =>
      if argc c' =? 0 then '(c, w) ← resetClient c' w; Some (true, c, w)
      else
        '(r, c, w) ← processCommand c' w;
        if r =? REDIS_OK then '(c, w) ← resetClient c w; Some (true, c, w) else Some (true, c, w)
    end.
Proof.
  intros Hh Hok Hr Hb Hc Hq. destruct (rest_type ty p Hr Hq) as [Hr1 Hty1]. unfold input_step. rewrite blocked_test, closing_test, Hb, Hc. cbn [negb].
  destruct (p_q p) as [|b q] eqn:Eq; [done|]. assert (p_q p !! 0%nat = Some b) as Hb0 by (by rewrite Eq).
  pose proof (getb_rep _ _ 0 _ (h_q _ _ _ Hh) Hb0) as Eg. change (Z.of_nat 0) with 0 in Eg. rewrite Eg. cbn [option_bind mbind].
  assert ((b2z b =? chr "*"%byte) = bool_decide (b = "*"%byte)) as Estar.
  { apply eq_true_iff_eq. rewrite Z.eqb_eq, bool_decide_eq_true. split; [|by intros ->]. intros Eb. apply b2z_inj. rewrite Eb. reflexivity. }
  set (c1 := if reqtype c =? 0 then _ else c).
  assert (holds c1 (req_type ty p) p) as Hh1.
  { unfold c1, req_type. rewrite (h_ty _ _ _ Hh), Eq. cbn [head]. destruct (Z.eqb_spec ty 0) as [E0|E0].
    - rewrite decide_True by done. rewrite Estar. destruct Hh. case_bool_decide as Hs; [rewrite decide_True by congruence|rewrite decide_False by congruence]; by constructor.
    - by rewrite decide_False. }
  pose proof (parse_spec c1 w _ p Hh1 Hok Hr1 Hty1) as Hp. destruct (parse (req_type ty p) p) as [o p']. destruct Hp as (c' & Hh' & <-). exists c'. split; [done|].
  destruct o as [|fmt msg|]; cbn [result option_bind mbind]; [done| |done]. by destruct (fail_with fmt msg w).
Qed.

Lemma inv_keep c c' w w' ty p : inv c w ty p -> env_ok w' -> closing w' = true -> frame c' ty p -> inv c' w' ty p.
Proof. intros [] ? ? ?. constructor; auto. Qed.

(** Every round leads to such a state, with a shorter buffer unless the client
    is to be closed. *)
Lemma step_safe c w ty p : inv c w ty p -> p_q p <> [] ->
  exists go c' w' ty' p', input_step junk c w = Some (go, c', w') /\ inv c' w' ty' p' /\ (length (p_q p') <= length (p_q p))%nat /\
    (go = true -> (length (p_q p') < length (p_q p))%nat).
Proof.
  intros Hi Hq. destruct (blocked w) eqn:Hb.
  { exists false, c, w, ty, p. unfold input_step. rewrite blocked_test, Hb. split; [done|]. split; [done|]. by split. }
  destruct (closing w) eqn:Hc.
  { exists false, c, w, ty, p. unfold input_step. rewrite blocked_test, closing_test, Hb, Hc. split; [done|]. split; [done|]. by split. }
  destruct Hi as [Hw Hf Hok Hlen Harg [Hcl|[Hh Hr]]]; [congruence|]. destruct (rest_type ty p Hr Hq) as [Hr1 Hty1].
  pose proof (step_eq c w ty p Hh Hok Hr Hb Hc Hq) as Hs. destruct (parse (req_type ty p) p) as [o p'] eqn:Ep.
  destruct (parse_out _ _ _ _ Ep Hok Hr1 Hty1) as (Hok' & Hle & Harg' & Hrdy & Hwait). destruct Hs as (c' & Hh' & E). rewrite E. clear E.
  assert (Z.of_nat (length (p_q p')) <= 2 ^ 30) as Hlen' by lia. destruct o as [|fmt msg|].
  - exists false, c', w, (req_type ty p), p'. split; [done|]. split; [|by split]. constructor; try done; [by apply holds_frame|]. right. split; [done|by apply Hwait].
  - destruct (fail_spec fmt msg w Hw) as (w' & E & Hw' & Hcl & _). rewrite E. cbn [option_bind mbind]. exists false, c', w', (req_type ty p), p'.
    split; [done|]. split; [|by split]. constructor; try done; [by apply holds_frame|by left].
  - destruct (Hrdy eq_refl) as [Hn Hlt]. assert (0 <= argv_size c') as Hsz by (pose proof (h_slots _ _ _ Hh'); lia).
    assert (forall c1 w1, frame c1 (req_type ty p) p' -> env_ok w1 -> release_args (argv c1) = Some tt -> 0 <= argv_size c1 ->
      exists go c2 w2 ty2 p2, ('(c, w) ← resetClient c1 w1; Some (true, c, w)) = Some (go, c2, w2) /\ inv c2 w2 ty2 p2 /\ (length (p_q p2) <= length (p_q p))%nat /\
        (go = true -> (length (p_q p2) < length (p_q p))%nat)) as Hreset.
    { intros c1 w1 Hf1 Hw1 Hrel Hsz1. destruct (reset_spec c1 w1 _ p' Hf1 Hw1 Hrel Hsz1) as (c2 & w2 & -> & Hh2 & Hw2 & _). cbn [option_bind mbind].
      exists true, c2, w2, 0, (PState (p_q p') 0 None []). split; [done|]. split; [|split; [cbn [p_q]; lia|done]].
      constructor; try done; [by apply holds_frame|split; [cbn [p_q]; lia|done]|]. right. split; [done|]. split; [done|]. by left. }
    destruct (Z.eqb_spec (argc c') 0) as [E0|E0].
    + apply Hreset; [by apply holds_frame|done|exact (release_held _ _ (h_args _ _ _ Hh'))|done].
    + destruct (env_command c' w Hw Hb Hc) as (r & c1 & w1 & -> & Hw1 & Eq & Et & Em & Ebl & Hrel & Hsz1 & Hok1).
      { intros Ea. unfold argc in E0. by rewrite Ea in E0. } { by apply (holds_argc c' _ _ Hh'). } { exists (p_args p'). exact (h_args _ _ _ Hh'). }
      cbn [option_bind mbind]. assert (frame c1 (req_type ty p) p') as Hf1.
      { destruct Hh'. constructor; congruence. }
      destruct (Z.eqb_spec r REDIS_OK) as [->|Hr'].
      * by apply Hreset.
      * destruct Hok1 as [->|Hcl]; [done|]. exists true, c1, w1, (req_type ty p), p'. split; [done|]. split; [|by split]. constructor; try done. by left.
Qed.

Lemma loop_safe fuel : forall c w ty p, inv c w ty p -> (length (p_q p) < fuel)%nat ->
  exists c' w' ty' p', input_loop junk fuel c w = Some (c', w') /\ inv c' w' ty' p' /\ (length (p_q p') <= length (p_q p))%nat.
Proof.
  induction fuel as [|fuel IH]; intros c w ty p Hi Hf; [lia|]. cbn [input_loop]. rewrite (rep_len_eq _ _ (f_q _ _ _ (i_frame _ _ _ _ Hi))).
  destruct (Z.eqb_spec (Z.of_nat (length (p_q p))) 0) as [E0|E0]; [by exists c, w, ty, p|].
  destruct (step_safe c w ty p Hi) as (go & c1 & w1 & ty1 & p1 & -> & Hi1 & Hle & Hlt); [by intros E; rewrite E in E0|]. cbn [option_bind mbind].
  destruct go; [|by exists c1, w1, ty1, p1]. specialize (Hlt eq_refl). destruct (IH c1 w1 ty1 p1 Hi1) as (c2 & w2 & ty2 & p2 & E & Hi2 & Hle2); [lia|].
  exists c2, w2, ty2, p2. split; [done|]. split; [done|]. lia.
Qed.

Lemma input_safe c w ty p : inv c w ty p ->
  exists c' w' ty' p', processInputBuffer junk c w = Some (c', w') /\ inv c' w' ty' p' /\ (length (p_q p') <= length (p_q p))%nat.
Proof. intros Hi. unfold processInputBuffer. apply (loop_safe _ c w ty p Hi). rewrite (rep_len_eq _ _ (f_q _ _ _ (i_frame _ _ _ _ Hi))). lia. Qed.

(** How much is asked for. *)
Lemma read_len_spec c w ty p : inv c w ty p ->
  read_len c = (if decide (ty = REDIS_REQ_MULTIBULK) then
                  match p_bl p with
                  | Some L => if REDIS_MBULK_BIG_ARG <=? Z.of_nat L then Z.min (Z.of_nat (L + 2) - Z.of_nat (length (p_q p))) REDIS_IOBUF_LEN else REDIS_IOBUF_LEN
                  | None => REDIS_IOBUF_LEN
                  end else REDIS_IOBUF_LEN) /\ 0 <= read_len c <= REDIS_IOBUF_LEN.
Proof.
  intros [_ Hf (Hq & Hn & HL & Hbl) _ Harg _]. assert (forall x : Z, x = read_len c -> 0 <= x <= REDIS_IOBUF_LEN -> read_len c = x /\ 0 <= read_len c <= REDIS_IOBUF_LEN) as Hx by (intros x ->; done).
  apply Hx.
  - unfold read_len. rewrite (f_ty _ _ _ Hf), (f_n _ _ _ Hf), (f_bl _ _ _ Hf), (rep_len_eq _ _ (f_q _ _ _ Hf)).
    destruct (Z.eqb_spec ty REDIS_REQ_MULTIBULK) as [->|]; [rewrite decide_True by done|by rewrite decide_False]. destruct (p_bl p) as [L|] eqn:EL; cbn [bl_val].
    2:{ change (-1 =? -1) with true. cbn [negb]. by rewrite andb_false_r. }
    specialize (HL L eq_refl). rewrite (proj2 (Z.eqb_neq (Z.of_nat (p_n p)) 0)) by (intros E; specialize (Hbl ltac:(lia)); congruence).
    rewrite (proj2 (Z.eqb_neq (Z.of_nat L) (-1))) by lia. cbn [negb andb]. destruct (Z.leb_spec REDIS_MBULK_BIG_ARG (Z.of_nat L)) as [Hbig|]; [|done].
    destruct (Harg L EL) as [_ Hfit]. specialize (Hfit Hbig). rewrite (u32_small (_ + 2)), u64_small, s32_small by lia.
    destruct (Z.ltb_spec (Z.of_nat L + 2 - Z.of_nat (length (p_q p))) REDIS_IOBUF_LEN); lia.
  - case_decide; [|unfold REDIS_IOBUF_LEN; lia]. destruct (p_bl p) as [L|] eqn:EL; [|unfold REDIS_IOBUF_LEN; lia].
    destruct (Z.leb_spec REDIS_MBULK_BIG_ARG (Z.of_nat L)) as [Hbig|]; [|unfold REDIS_IOBUF_LEN; lia]. destruct (Harg L EL) as [_ Hfit]. specialize (Hfit Hbig). unfold REDIS_IOBUF_LEN. lia.
Qed.

(** ** Reading *)

(** [read] returns at least a byte and no more than there is room for. *)
Definition read_ok c (r : read_result) : Prop :=
  match r with RData bs => 0 < Z.of_nat (length bs) <= read_len c | _ => True end.

Lemma fill_spec qb q n bs : sds_rep qb q -> Z.of_nat (length bs) <= n -> Z.of_nat (length q) + n < sds_limit ->
  let qb1 := sdsMakeRoomFor junk qb n in
  exists b qb2, mem_write (sh_buf qb1) (Z.of_nat (length q)) bs = Some b /\
    sdsIncrLen (Sdshdr (sh_len qb1) (sh_free qb1) b) (Z.of_nat (length bs)) = Some qb2 /\ sds_rep qb2 (q ++ bs).
Proof.
  intros Hq Hn Hlim qb1. destruct (makeRoom_spec junk qb q n Hq) as [Hr Hfree]; [lia|done|]. fold qb1 in Hr, Hfree.
  destruct (rep_buf _ _ Hr) as (g & Eb & Hg). rewrite Eb. assert (length bs <= length (z2b 0 :: g))%nat as Hl by (cbn [length]; lia).
  rewrite <-(take_drop (length bs) (z2b 0 :: g)). rewrite mem_write_app by (rewrite ?length_take; lia).
  destruct (drop (length bs) (z2b 0 :: g)) as [|x g'] eqn:Ed.
  { apply (f_equal length) in Ed. rewrite length_drop in Ed. cbn [length] in *. lia. }
  assert (length g' + length bs = length g)%nat as Hg'. { apply (f_equal length) in Ed. rewrite length_drop in Ed. cbn [length] in *. lia. }
  destruct (incrLen_grow (Sdshdr (sh_len qb1) (sh_free qb1) (q ++ bs ++ x :: g')) q bs x g') as (qb2 & E & Hq2); cbn [sh_len sh_buf sh_free].
  { by rewrite (rep_len _ _ Hr). } { done. } { lia. } { exact (rep_total _ _ Hr). }
  by eexists _, qb2.
Qed.

(** The state the loop is started in after a read. *)
Definition after_read c qb (peak now : Z) : redisClient :=
  RedisClient qb peak (reqtype c) (multibulklen c) (bulklen c) (argv c) (argv_size c) now.
Definition more p (bs : list byte) : pstate := PState (p_q p ++ bs) (p_n p) (p_bl p) (p_args p).

Lemma read_eq c w ty p bs : inv c w ty p -> read_ok c (RData bs) ->
  let w1 := set_current_client w true in
  exists qb peak, sds_rep qb (p_q p ++ bs) /\ sdslen qb = Z.of_nat (length (p_q p ++ bs)) /\
    readQueryFromClient junk c w (RData bs)
    = if client_max_querybuf_len w1 <? Z.of_nat (length (p_q p ++ bs)) then w ← freeClient (after_read c qb peak (unixtime w1)) w1; Some (None, w)
      else '(c, w) ← processInputBuffer junk (after_read c qb peak (unixtime w1)) w1; Some (Some c, set_current_client w false).
Proof.
  intros Hi Hbs w1. cbn [read_ok] in Hbs. destruct (read_len_spec c w ty p Hi) as [_ Hrl]. unfold REDIS_IOBUF_LEN in Hrl. pose proof (i_len _ _ _ _ Hi) as Hlen.
  pose proof (f_q _ _ _ (i_frame _ _ _ _ Hi)) as Hrep. unfold readQueryFromClient. destruct bs as [|b bs]; [cbn in Hbs; lia|]. set (bs' := b :: bs) in *.
  rewrite (proj2 (Z.ltb_ge _ _)) by lia. rewrite (u64_small (read_len c)), (rep_len_eq _ _ Hrep) by lia.
  destruct (fill_spec (querybuf c) (p_q p) (read_len c) bs' Hrep) as (buf & qb & -> & E & Hq2); [lia|unfold sds_limit; lia|].
  cbn [option_bind mbind]. rewrite E. cbn [option_bind mbind]. rewrite (rep_len_eq _ _ Hq2). eexists qb, _. split; [done|]. split; [exact (rep_len_eq _ _ Hq2)|]. reflexivity.
Qed.

Lemma after_read_inv c w ty p bs qb peak now : inv c w ty p -> read_ok c (RData bs) -> sds_rep qb (p_q p ++ bs) ->
  Z.of_nat (length (p_q p ++ bs)) <= 2 ^ 30 -> inv (after_read c qb peak now) (set_current_client w true) ty (more p bs).
Proof.
  intros Hi Hbs Hqb Hlen. pose proof (read_len_spec c w ty p Hi) as [Hrl _]. destruct Hi as [Hw [] (Hq & Hn & HL & Hbl) Hl Harg Hr]. destruct (env_current w true Hw) as [Hw1 Hf1].
  cbn [read_ok] in Hbs. constructor; try done.
  - split; [cbn [more p_q]; lia|done].
  - intros L EL. cbn [more p_bl] in EL. destruct (Harg L EL) as [-> Hfit]. split; [done|]. intros Hbig. rewrite decide_True, EL, (proj2 (Z.leb_le _ _)) in Hrl by done.
    cbn [more p_q]. rewrite length_app. lia.
  - destruct Hr as [Hr|[[] [Hargs Hty]]]; [left; unfold closing; by rewrite Hf1|]. right. split; [by constructor|]. split; [done|]. destruct Hty as [?|[?|[? Hhd]]]; [by left|by right; left|].
    right. right. split; [done|]. intros H0. specialize (Hhd H0). cbn [more p_q]. by destruct (p_q p).
Qed.

(** Every read is served, and leads to a state between events again, if the
    client is still there. *)
Lemma read_safe c w ty p r : inv c w ty p -> read_ok c r ->
  exists oc w', readQueryFromClient junk c w r = Some (oc, w') /\
    match oc with None => env_ok w' | Some c' => exists ty' p', inv c' w' ty' p' end.
Proof.
  intros Hi Hr. destruct (env_current w true (i_env _ _ _ _ Hi)) as [Hw1 Hf1]. destruct r as [[]| |bs].
  - pose proof (f_q _ _ _ (i_frame _ _ _ _ Hi)) as Hq. destruct (env_current (set_current_client w true) false Hw1) as [Hw2 Hf2]. destruct (read_len_spec c w ty p Hi) as [_ Hrl].
    unfold readQueryFromClient. eexists _, _. split; [reflexivity|]. exists ty, p. destruct Hi as [_ [] ? Hl ? Hrest]. constructor; try done.
    + constructor; try done. cbn [querybuf]. unfold REDIS_IOBUF_LEN in Hrl. rewrite u64_small by lia. apply makeRoom_spec; [done|lia|unfold sds_limit; lia].
    + destruct Hrest as [Hcl|[[] ?]]; [left; unfold closing in *; by rewrite Hf2, Hf1|]. right. split; [|done]. constructor; try done.
      cbn [querybuf]. unfold REDIS_IOBUF_LEN in Hrl. rewrite u64_small by lia. apply makeRoom_spec; [done|lia|unfold sds_limit; lia].
  - unfold readQueryFromClient. match goal with |- context [freeClient ?c ?w] => destruct (env_free c w Hw1) as (w' & -> & Hw') end. cbn [option_bind mbind]. by eexists _, _.
  - unfold readQueryFromClient. match goal with |- context [freeClient ?c ?w] => destruct (env_free c w Hw1) as (w' & -> & Hw') end. cbn [option_bind mbind]. by eexists _, _.
  - destruct (read_eq c w ty p bs Hi Hr) as (qb & peak & Hqb & _ & ->). set (w1 := set_current_client w true) in *. destruct (Z.ltb_spec (client_max_querybuf_len w1) (Z.of_nat (length (p_q p ++ bs)))).
    + destruct (env_free (after_read c qb peak (unixtime w1)) w1 Hw1) as (w' & -> & Hw'). cbn [option_bind mbind]. by eexists _, _.
    + pose proof (env_max w1 Hw1). pose proof (after_read_inv c w ty p bs qb peak (unixtime w1) Hi Hr Hqb ltac:(lia)) as Hi1.
      destruct (input_safe _ _ _ _ Hi1) as (c2 & w2 & ty2 & p2 & E & Hi2 & _). fold w1 in E. rewrite E. cbn [option_bind mbind]. eexists _, _. split; [reflexivity|].
      destruct Hi2 as [Hw2 ? ? ? ? Hrest]. destruct (env_current w2 false Hw2) as [Hw3 Hf3]. exists ty2, p2. constructor; try done.
      destruct Hrest as [Hcl|]; [left; unfold closing in *; by rewrite Hf3|by right].
Qed.
End Loop.

(** What the parser does with well-formed requests that arrive in
    pieces. *)
Import (notations) Corelib.Init.Byte.

(** ** The request syntax *)

Definition crlf : list byte := [z2b 13; z2b 10].
Definition header (mark : byte) (v : Z) : list byte := mark :: print_int v.
Definition enc_bulk (a : list byte) : list byte := header "$" (Z.of_nat (length a)) ++ crlf ++ a ++ crlf.
Definition enc_bulks (bs : list (list byte)) : list byte := concat (enc_bulk <$> bs).
Definition enc_request (args : list (list byte)) : list byte :=
  header "*" (Z.of_nat (length args)) ++ crlf ++ enc_bulks args.
Definition enc_requests (rs : list (list (list byte))) : list byte := concat (enc_request <$> rs).

(** The sizes the protocol allows. *)
Definition arg_ok (a : list byte) : Prop := Z.of_nat (length a) <= 512 * 1024 * 1024.
Definition request_ok (args : list (list byte)) : Prop :=
  args <> [] /\ Z.of_nat (length args) <= 1024 * 1024 /\ Forall arg_ok args.

Definition plain_char (x : byte) : Prop := b2z x <> 0 /\ x <> z2b 13.

Lemma plain_digits s : digits s -> Forall plain_char s.
Proof.
  intros Hs. eapply Forall_impl; [exact Hs|]. intros x Hx. apply is_digit_range in Hx. unfold dig in Hx. split; [lia|].
  intros ->. rewrite b2z_z2b in Hx. change (13 mod 256) with 13 in Hx. lia.
Qed.

Lemma plain_header mark (n : nat) : plain_char mark -> Z.of_nat n <= 2 ^ 40 -> Forall plain_char (header mark (Z.of_nat n)).
Proof.
  intros Hm Hn. constructor; [done|]. unfold print_int. rewrite (proj2 (Z.ltb_ge _ 0)) by lia.
  destruct (print_nat_digits (Z.of_nat n)) as (b & s & -> & Hd & _); [lia|]. by apply plain_digits.
Qed.

Lemma header_length mark (n : nat) : Z.of_nat n <= 2 ^ 40 -> (2 <= length (header mark (Z.of_nat n)) <= 21)%nat.
Proof. intros Hn. unfold header. cbn [length]. pose proof (length_print_int (Z.of_nat n)) as Hl. unfold int64 in Hl. lia. Qed.

(** A line that has arrived in part. *)
Lemma line_prefix q (pos : nat) u h s : drop pos q ++ u = h ++ crlf ++ s -> (pos <= length q)%nat -> Forall plain_char h ->
  Z.of_nat (length q) <= REDIS_INLINE_MAX_SIZE ->
  if (length q - pos <? length h + 2)%nat then spec_line q pos = LWait
  else spec_line q pos = LGot h (pos + length h + 2) /\ drop (pos + length h + 2) q ++ u = s.
Proof.
  intros E Hp Hh Hq. unfold spec_line. set (l := drop pos q) in *. assert (length l = length q - pos)%nat as Hl by (unfold l; apply length_drop). rewrite <-Hl.
  destruct (Nat.ltb_spec (length l) (length h + 2)) as [Hs|Hs].
  - assert (find [z2b 13] l = None \/ find [z2b 13] l = Some (length h) /\ length l = S (length h)) as [->|[-> ?]].
    { destruct (decide (length l <= length h)%nat) as [Hle|Hgt].
      - left. apply find_none. apply (f_equal (take (length l))) in E. rewrite take_app_length, take_app_le in E by lia. rewrite E. by apply Forall_take.
      - right. assert (length l = S (length h)) as Hl1 by lia. split; [|done]. apply (f_equal (take (S (length h)))) in E. rewrite <-Hl1, take_app_length in E. rewrite Hl1 in E.
        rewrite take_app_ge in E by lia. replace (S (length h) - length h)%nat with 1%nat in E by lia. rewrite E. by apply find_here. }
    + by rewrite (proj2 (Z.ltb_ge _ _)) by lia.
    + destruct (Nat.ltb_spec (length q) (pos + length h + 2)); [done|lia].
  - assert (l = h ++ crlf ++ drop (length h + 2) l) as El.
    { apply (f_equal (take (length h + 2))) in E. rewrite take_app_le, app_assoc, take_app_length' in E by (rewrite ?length_app; cbn; lia).
      rewrite <-(take_drop (length h + 2) l) at 1. by rewrite E, <-app_assoc. }
    assert (find [z2b 13] l = Some (length h)) as -> by (rewrite El; by apply find_here).
    destruct (Nat.ltb_spec (length q) (pos + length h + 2)); [lia|]. split.
    + f_equal. rewrite El. by rewrite take_app_length.
    + replace (pos + length h + 2)%nat with (pos + (length h + 2))%nat by lia. rewrite <-drop_drop. fold l.
      rewrite El in E. rewrite <-!app_assoc in E. apply app_inv_head, app_inv_head in E. exact E.
Qed.

(** What remains of the arguments [bs], the first of which may have its
    header read. *)
Definition enc_tail (bl : option nat) (bs : list (list byte)) : list byte :=
  match bl, bs with
  | Some _, a :: bs => a ++ crlf ++ enc_bulks bs
  | _, _ => enc_bulks bs
  end.
Definition bl_of (bl : option nat) (bs : list (list byte)) : Prop :=
  match bl with None => True | Some L => match bs with a :: _ => L = length a | [] => False end end.

(** The buffer is short, or has only the large argument it waits for. *)
Definition short (q : list byte) (pos : nat) (bl : option nat) : Prop :=
  Z.of_nat (length q) <= REDIS_INLINE_MAX_SIZE \/
  pos = 0%nat /\ exists L, bl = Some L /\ REDIS_MBULK_BIG_ARG <= Z.of_nat L /\ (length q <= L + 2)%nat.

Definition small (bl : option nat) (q : list byte) : Prop :=
  match bl with Some L => (length q < L + 2)%nat | None => (length q <= 22)%nat end.

Lemma len_valid q (pos : nat) u a s : drop pos q ++ u = enc_bulk a ++ s -> (pos <= length q)%nat -> Z.of_nat (length q) <= REDIS_INLINE_MAX_SIZE -> arg_ok a ->
  (spec_len q pos = NWait /\ (length q - pos < length (header "$" (Z.of_nat (length a))) + 2)%nat) \/
  (exists q' pos', spec_len q pos = NGot q' pos' (length a) /\ (pos' <= length q')%nat /\ drop pos' q' ++ u = a ++ crlf ++ s /\ Z.of_nat (length q') <= REDIS_INLINE_MAX_SIZE).
Proof.
  unfold arg_ok. intros E Hp Hq Ha. unfold enc_bulk in E. rewrite <-!app_assoc in E. pose proof (header_length "$"%byte (length a)) as Hhl.
  pose proof (line_prefix q pos u _ _ E Hp (plain_header "$"%byte (length a) ltac:(by split) ltac:(lia)) Hq) as Hline. unfold spec_len.
  destruct (Nat.ltb_spec (length q - pos) (length (header "$"%byte (Z.of_nat (length a))) + 2)) as [Hs|Hs].
  { left. by rewrite Hline. }
  right. destruct Hline as [-> Hrest]. cbn [header head default drop]. rewrite drop_0, bool_decide_eq_true_2 by done. cbn [negb]. rewrite num_print by (unfold int64; lia).
  rewrite (proj2 (Z.ltb_ge _ 0)), (proj2 (Z.ltb_ge _ (Z.of_nat (length a)))) by lia. cbn [orb]. rewrite Nat2Z.id.
  set (next := (pos + _ + 2)%nat) in *.
  assert (next <= length q)%nat as Hn by (unfold next, header in *; cbn [length] in *; lia).
  destruct (_ <=? _); eexists _, _; (split; [reflexivity|]).
  - rewrite drop_0, length_drop. split; [lia|]. split; [exact Hrest|lia].
  - split; [done|]. by split.
Qed.

Lemma arg_valid q (pos : nat) u a s : drop pos q ++ u = a ++ crlf ++ s -> (pos <= length q)%nat -> short q pos (Some (length a)) ->
  (spec_arg q pos (length a) = None /\ (length q - pos < length a + 2)%nat) \/
  (exists q' pos', spec_arg q pos (length a) = Some (q', pos', a) /\ (pos' <= length q')%nat /\ drop pos' q' ++ u = s /\ Z.of_nat (length q') <= REDIS_INLINE_MAX_SIZE).
Proof.
  intros E Hp Hsh. unfold spec_arg. destruct (Nat.ltb_spec (length q - pos) (length a + 2)) as [Hs|Hs]; [by left|]. right.
  assert (drop pos q = a ++ crlf ++ drop (pos + length a + 2) q) as El.
  { rewrite <-(take_drop (length a + 2) (drop pos q)). rewrite drop_drop. replace (pos + length a + 2)%nat with (pos + (length a + 2))%nat by lia. rewrite app_assoc. f_equal.
    apply (f_equal (take (length a + 2))) in E. rewrite take_app_le, app_assoc, take_app_length' in E by (rewrite ?length_app, ?length_drop; cbn; lia). done. }
  assert (drop (pos + length a + 2) q ++ u = s) as Es.
  { rewrite El in E. rewrite <-!app_assoc in E. apply app_inv_head, app_inv_head in E. exact E. }
  destruct (_ && _ && _) eqn:Esteal.
  - apply andb_true_iff in Esteal as [[E0%Nat.eqb_eq _]%andb_true_iff Elen%Nat.eqb_eq]. subst pos. rewrite drop_0 in El. eexists _, _. split; [by rewrite El, take_app_length|].
    split; [done|]. split; [|done]. rewrite drop_ge in Es by lia. exact Es.
  - rewrite El, take_app_length. eexists _, _. split; [reflexivity|]. split; [lia|]. split; [exact Es|]. destruct Hsh as [Hq|(-> & L & [= <-] & Hbig & Hq)]; [done|].
    exfalso. cbn [Nat.eqb andb] in Esteal. rewrite (proj2 (Z.leb_le _ _) Hbig) in Esteal. apply Nat.eqb_neq in Esteal. lia.
Qed.

(** The loop over the arguments: either all are there, or the parser stops in
    the middle of one. *)
Lemma args_valid bs : forall q (pos : nat) bl args u s, drop pos q ++ u = enc_tail bl bs ++ s -> (pos <= length q)%nat -> Forall arg_ok bs -> bl_of bl bs ->
  short q pos bl -> (bs = [] -> Z.of_nat (length q) <= REDIS_INLINE_MAX_SIZE) ->
  (exists q', spec_args (length bs) q pos bl args = (OReady, PState q' 0 None (args ++ bs)) /\ q' ++ u = s /\ Z.of_nat (length q') <= REDIS_INLINE_MAX_SIZE) \/
  (exists q' bl' bs1 bs2, spec_args (length bs) q pos bl args = (OWait, PState q' (length bs2) bl' (args ++ bs1)) /\ bs = bs1 ++ bs2 /\ bs2 <> [] /\ bl_of bl' bs2 /\
     q' ++ u = enc_tail bl' bs2 ++ s /\ (length q' < length (enc_tail bl' bs2))%nat /\ small bl' q').
Proof.
  induction bs as [|a bs IH]; intros q pos bl args u s E Hp Hbs Hbl Hsh Hnil.
  { left. exists (drop pos q). destruct bl; [done|]. cbn [enc_tail enc_bulks fmap list_fmap concat app length spec_args] in *. rewrite app_nil_r, length_drop.
    specialize (Hnil eq_refl). split; [done|]. split; [done|lia]. }
  apply Forall_cons in Hbs as [Ha Hbs].
  assert (forall q' (pos' : nat), (pos' <= length q')%nat -> drop pos' q' ++ u = a ++ crlf ++ enc_bulks bs ++ s -> short q' pos' (Some (length a)) ->
    let r := match spec_arg q' pos' (length a) with
             | None => (OWait, PState (drop pos' q') (S (length bs)) (Some (length a)) args)
             | Some (q, pos, b) => spec_args (length bs) q pos None (args ++ [b]) end in
    (exists q', r = (OReady, PState q' 0 None (args ++ a :: bs)) /\ q' ++ u = s /\ Z.of_nat (length q') <= REDIS_INLINE_MAX_SIZE) \/
    (exists q' bl' bs1 bs2, r = (OWait, PState q' (length bs2) bl' (args ++ bs1)) /\ a :: bs = bs1 ++ bs2 /\ bs2 <> [] /\ bl_of bl' bs2 /\
       q' ++ u = enc_tail bl' bs2 ++ s /\ (length q' < length (enc_tail bl' bs2))%nat /\ small bl' q')) as Hgo.
  { intros q' pos' Hp' E' Hsh'. cbv zeta. destruct (arg_valid q' pos' u a _ E' Hp' Hsh') as [[-> Hlt]|(q2 & pos2 & -> & Hp2 & E2 & Hq2)].
    - right. exists (drop pos' q'), (Some (length a)), [], (a :: bs). rewrite app_nil_r. cbn [length app enc_tail bl_of small]. rewrite length_drop.
      split_and!; try done. + by rewrite E', <-!app_assoc. + rewrite !length_app. cbn. lia.
    - destruct (IH q2 pos2 None (args ++ [a]) u s E2 Hp2 Hbs I (or_introl Hq2) (fun _ => Hq2)) as [(q3 & -> & E3 & Hq3)|(q3 & bl3 & bs1 & bs2 & -> & -> & Hne & Hbl3 & E3 & Hlt & Hsm)].
      + left. exists q3. rewrite <-app_assoc. by split.
      + right. exists q3, bl3, (a :: bs1), bs2. rewrite <-app_assoc. by split_and!. }
  cbn [length spec_args]. destruct bl as [L|].
  - cbn [bl_of] in Hbl. subst L. cbn [enc_tail] in E. rewrite <-!app_assoc in E. apply Hgo; [done|exact E|done].
  - destruct Hsh as [Hq|(_ & L & [=] & _)]. cbn [enc_tail enc_bulks fmap list_fmap concat] in E. fold (enc_bulks bs) in E. change (concat (enc_bulk <$> bs)) with (enc_bulks bs) in E. rewrite <-app_assoc in E.
    destruct (len_valid q pos u a _ E Hp Hq Ha) as [[-> Hlt]|(q2 & pos2 & -> & Hp2 & E2 & Hq2)].
    + right. exists (drop pos q), None, [], (a :: bs). rewrite app_nil_r. cbn [length app enc_tail bl_of small]. rewrite length_drop.
      split_and!; try done. * by rewrite E, app_assoc. * change (enc_bulks (a :: bs)) with (enc_bulk a ++ enc_bulks bs). rewrite length_app. unfold enc_bulk. rewrite !length_app. cbn [length crlf]. lia.
      * pose proof (header_length "$"%byte (length a)) as Hh. unfold arg_ok in Ha. lia.
    + apply Hgo; [done|exact E2|by left].
Qed.

(** The requests that leave the client to be served: their command returns
    [REDIS_OK], and the client is then neither blocked nor to be closed. It
    also records its arguments. [QUIT], the commands that block the client and
    what has it closed are not such requests. *)
Class PlainCommands (W : Type) {env : RequestEnv W} {laws : RequestLaws W} := {
  plain_request : list (list byte) -> Prop;
  log : W -> list (list (list byte));
  log_set w f : log (set_flags w f) = log w;
  log_clear w : log (clear_cmd w) = log w;
  log_current w b : log (set_current_client w b) = log w;
  plain_command c w args : env_ok w -> blocked w = false -> closing w = false -> Forall2 arg_obj (argv c) args -> plain_request args -> args <> [] -> argc c <= argv_size c ->
    exists c' w', processCommand c w = Some (REDIS_OK, c', w') /\ env_ok w' /\ (blocked w' = false /\ closing w' = false) /\ log w' = log w ++ [args] /\
      querybuf c' = querybuf c /\ reqtype c' = reqtype c /\ multibulklen c' = multibulklen c /\ bulklen c' = bulklen c /\
      release_args (argv c') = Some tt /\ 0 <= argv_size c';
  plain_max w : env_ok w -> 2 ^ 29 + 2 <= client_max_querybuf_len w }.

(** The state [p] with the bytes [u] to come is in the requests [rs]. *)
Definition pend (ty : Z) (p : pstate) (u : list byte) (rs : list (list (list byte))) : Prop :=
  (p_n p = 0%nat /\ p_bl p = None /\ ty <> REDIS_REQ_INLINE /\ p_q p ++ u = enc_requests rs) \/
  (ty = REDIS_REQ_MULTIBULK /\ exists bs rs', bs <> [] /\ p_n p = length bs /\ bl_of (p_bl p) bs /\ rs = (p_args p ++ bs) :: rs' /\
     p_q p ++ u = enc_tail (p_bl p) bs ++ enc_requests rs').

(** Nothing complete is left unexecuted. *)
Definition prompt (u : list byte) (rs : list (list (list byte))) : Prop :=
  rs = [] \/ (length (enc_requests (tail rs)) < length u)%nat.

Lemma enc_request_pos args : (2 <= length (enc_request args))%nat.
Proof. unfold enc_request. rewrite !length_app. cbn [length crlf]. lia. Qed.

Lemma enc_tail_pos bl bs : bs <> [] -> bl_of bl bs -> (2 <= length (enc_tail bl bs))%nat.
Proof.
  destruct bs as [|a bs]; [done|]. intros _ _. destruct bl; cbn [enc_tail]; [rewrite !length_app; cbn; lia|].
  change (enc_bulks (a :: bs)) with (enc_bulk a ++ enc_bulks bs). unfold enc_bulk. rewrite !length_app. cbn [length crlf]. lia.
Qed.

Lemma enc_tail_le bl bs args : bl_of bl bs -> (length (enc_tail bl bs) <= length (enc_request (args ++ bs)))%nat.
Proof.
  intros Hbl. assert (enc_bulks (args ++ bs) = enc_bulks args ++ enc_bulks bs) as E by (unfold enc_bulks; by rewrite fmap_app, concat_app).
  unfold enc_request. rewrite E, !length_app. destruct bl as [L|]; [|cbn [enc_tail]; lia]. destruct bs as [|a bs]; [done|]. cbn [enc_tail].
  change (enc_bulks (a :: bs)) with (enc_bulk a ++ enc_bulks bs). unfold enc_bulk. rewrite !length_app. lia.
Qed.

Lemma parse_valid ty p u rs : p_q p <> [] -> rest ty p -> pend ty p u rs -> Forall request_ok rs -> short (p_q p) 0 (p_bl p) ->
  req_type ty p = REDIS_REQ_MULTIBULK /\
  ((exists q' args rs', parse (req_type ty p) p = (OReady, PState q' 0 None args) /\ rs = args :: rs' /\ q' ++ u = enc_requests rs' /\ Z.of_nat (length q') <= REDIS_INLINE_MAX_SIZE) \/
   (exists p', parse (req_type ty p) p = (OWait, p') /\ pend REDIS_REQ_MULTIBULK p' u rs /\ prompt u rs /\ small (p_bl p') (p_q p'))).
Proof.
  destruct p as [q n bl args0]. cbn [p_q p_n p_bl p_args]. intros Hq [Hargs Hty] Hp Hrs Hsh. unfold pend in Hp. cbn [p_q p_n p_bl p_args] in *. destruct Hp as [(-> & -> & Hni & E)|(-> & bs & rs' & Hne & -> & Hbl & -> & E)].
  - destruct rs as [|r rs]; [by destruct q|]. change (enc_requests (r :: rs)) with (enc_request r ++ enc_requests rs) in E.
    apply Forall_cons in Hrs as [(Hr0 & Hr1 & Hr2) Hrs]. specialize (Hargs eq_refl). subst args0. destruct Hsh as [Hsh|(_ & L & [=] & _)].
    assert (head q = Some "*"%byte) as Hhd by (destruct q; [done|]; cbn in E; by injection E as -> _).
    assert (req_type ty (PState q 0 None []) = REDIS_REQ_MULTIBULK) as ->.
    { unfold req_type. cbn [p_q]. case_decide; [by rewrite decide_True|]. destruct Hty as [[? _]|[[? _]|[-> _]]]; done. }
    split; [done|]. unfold parse. rewrite decide_False by done. unfold enc_request in E. rewrite <-!app_assoc in E. cbn [spec_mbulk].
    pose proof (header_length "*"%byte (length r)) as Hhl. pose proof (line_prefix q 0 u _ _ E ltac:(lia) (plain_header "*"%byte (length r) ltac:(by split) ltac:(lia)) Hsh) as Hline.
    destruct (Nat.ltb_spec (length q - 0) (length (header "*"%byte (Z.of_nat (length r))) + 2)) as [Hs|Hs].
    + right. rewrite Hline. eexists. split; [reflexivity|]. split; [|split].
      * left. cbn [p_q p_n p_bl]. split_and!; try done. change (enc_requests (r :: rs)) with (enc_request r ++ enc_requests rs). unfold enc_request. by rewrite <-!app_assoc.
      * right. cbn [tail]. apply (f_equal length) in E. rewrite !length_app in E. cbn [length crlf] in E. lia.
      * cbn [p_bl p_q small]. lia.
    + destruct Hline as [-> Hrest]. cbn [header drop]. rewrite drop_0, num_print by (unfold int64; lia). rewrite (proj2 (Z.ltb_ge _ (Z.of_nat (length r)))), (proj2 (Z.leb_gt _ 0)) by (destruct r; cbn in *; [done|lia]).
      rewrite Nat2Z.id. set (next := (0 + _ + 2)%nat) in *. assert (next <= length q)%nat as Hn by (unfold next, header in *; cbn [length] in *; lia).
      destruct (args_valid r q next None [] u (enc_requests rs) Hrest Hn Hr2 I (or_introl Hsh) (fun _ => Hsh)) as [(q' & -> & E' & Hq')|(q' & bl' & bs1 & bs2 & -> & -> & Hne & Hbl & E' & Hlt & Hsm)].
      * left. exists q', r, rs. by split_and!.
      * right. eexists. split; [reflexivity|]. split; [|split; [|done]].
        -- right. split; [done|]. exists bs2, rs. by split_and!.
        -- right. cbn [tail]. apply (f_equal length) in E'. rewrite !length_app in E'. lia.
  - apply Forall_cons in Hrs as [(_ & _ & Hbs%Forall_app) Hrs]. destruct Hbs as [_ Hbs].
    assert (req_type REDIS_REQ_MULTIBULK (PState q (length bs) bl args0) = REDIS_REQ_MULTIBULK) as -> by done. split; [done|]. unfold parse. rewrite decide_False by done.
    destruct bs as [|a bs]; [done|]. cbn [spec_mbulk length]. change (S (length bs)) with (length (a :: bs)).
    destruct (args_valid (a :: bs) q 0 bl args0 u (enc_requests rs') E ltac:(lia) Hbs Hbl Hsh ltac:(done)) as [(q' & -> & E' & Hq')|(q' & bl' & bs1 & bs2 & -> & Eb & Hne' & Hbl' & E' & Hlt & Hsm)].
    + left. exists q', (args0 ++ a :: bs), rs'. by split_and!.
    + right. eexists. split; [reflexivity|]. rewrite Eb. split; [|split; [|done]].
      * right. split; [done|]. exists bs2, rs'. cbn [p_n p_bl p_args p_q]. split_and!; try done. by rewrite <-app_assoc.
      * right. cbn [tail]. apply (f_equal length) in E'. rewrite !length_app in E'. lia.
Qed.

(** At the end of the buffer. *)
Lemma prompt_end ty p u rs : p_q p = [] -> pend ty p u rs -> prompt u rs.
Proof.
  unfold pend. intros ->. cbn [app]. intros [(_ & _ & _ & ->)|(_ & bs & rs' & Hne & _ & Hbl & -> & ->)].
  - destruct rs as [|r rs]; [by left|]. right. cbn [tail]. change (enc_requests (r :: rs)) with (enc_request r ++ enc_requests rs). rewrite length_app. pose proof (enc_request_pos r). lia.
  - right. cbn [tail]. rewrite length_app. pose proof (enc_tail_pos _ _ Hne Hbl). lia.
Qed.

Section Run.
Context {W : Type} {env : RequestEnv W} {laws : RequestLaws W} {plain : PlainCommands W} (junk : nat -> byte).
Implicit Types (c : redisClient) (w : W) (p : pstate) (u : list byte) (rs : list (list (list byte))).

(** A client that is served, in the middle of [rs]. *)
Record mid c w (ty : Z) p u rs : Prop := Mid {
  m_inv : inv c w ty p;
  m_holds : holds c ty p;
  m_rest : rest ty p;
  m_blocked : blocked w = false;
  m_closing : closing w = false;
  m_pend : pend ty p u rs }.

Lemma loop_valid fuel : forall c w ty p u rs, mid c w ty p u rs -> Forall request_ok rs -> Forall plain_request rs -> short (p_q p) 0 (p_bl p) -> (length (p_q p) < fuel)%nat ->
  exists c' w' ty' p' done rs', input_loop junk fuel c w = Some (c', w') /\ rs = done ++ rs' /\ log w' = log w ++ done /\
    mid c' w' ty' p' u rs' /\ prompt u rs' /\ small (p_bl p') (p_q p').
Proof.
  induction fuel as [|fuel IH]; intros c w ty p u rs Hm Hrs Hpl Hsh Hf; [lia|]. cbn [input_loop]. pose proof Hm as [Hi Hh Hr Hb Hc Hp]. pose proof (i_ok _ _ _ _ Hi) as Hok.
  rewrite (rep_len_eq _ _ (h_q _ _ _ Hh)). destruct (decide (p_q p = [])) as [E0|Hq].
  { rewrite E0. change (Z.of_nat (length []) =? 0) with true. cbv iota. exists c, w, ty, p, [], rs. rewrite app_nil_r. split_and!; try done; [by apply (prompt_end ty p)|].
    unfold small. rewrite E0. cbn. destruct (p_bl p); lia. }
  rewrite (proj2 (Z.eqb_neq _ 0)) by (destruct (p_q p); [done|cbn; lia]).
  destruct (rest_type ty p Hr Hq) as [Hr1 Hty1]. pose proof (step_eq junk c w ty p Hh Hok Hr Hb Hc Hq) as Hs.
  destruct (parse_valid ty p u rs Hq Hr Hp Hrs Hsh) as (Et & [(q' & args & rs' & E & -> & E' & Hq')|(p' & E & Hp' & Hpr & Hsm)]); rewrite E, Et in Hs; destruct Hs as (c1 & Hh1 & ->);
    destruct (parse_out _ _ _ _ E Hok Hr1 Hty1) as (Hok' & Hle & Harg' & Hrdy & Hwait); rewrite Et in *.
  2:{ cbn [option_bind mbind]. exists c1, w, REDIS_REQ_MULTIBULK, p', [], rs. rewrite app_nil_r. split_and!; try done. constructor; try done; [|by apply Hwait].
      destruct Hi as [Hw _ _ Hlen _ _]. constructor; try done; [by apply holds_frame|lia|]. right. split; [done|by apply Hwait]. }
  apply Forall_cons in Hrs as [(Hne & _) Hrs]. apply Forall_cons in Hpl as [Hpa Hpl]. destruct (Hrdy eq_refl) as [_ Hlt]. cbn [p_q] in Hlt. pose proof (h_args _ _ _ Hh1) as Hargs. cbn [p_args] in Hargs.
  assert ((argc c1 =? 0) = false) as ->. { unfold argc. rewrite (Forall2_length _ _ _ Hargs). apply Z.eqb_neq. destruct args; [done|cbn; lia]. }
  destruct (plain_command c1 w args (i_env _ _ _ _ Hi) Hb Hc Hargs Hpa Hne (holds_argc _ _ _ Hh1)) as (c2 & w2 & -> & Hw2 & [Hfb Hfc] & Hlog & Eq & Ety & Em & Ebl & Hrel & Hsz).
  cbn [option_bind mbind]. change (REDIS_OK =? REDIS_OK) with true. cbv iota.
  assert (frame c2 REDIS_REQ_MULTIBULK (PState q' 0 None args)) as Hf2 by (destruct Hh1; constructor; congruence).
  destruct (reset_spec c2 w2 _ _ Hf2 Hw2 Hrel Hsz) as (c3 & w3 & E3 & Hh3 & Hw3 & Hb3 & Hc3 & _). rewrite E3. cbn [option_bind mbind]. cbn [p_q] in *.
  assert (log w3 = log w ++ [args]) as Hlog3.
  { revert E3. unfold resetClient, freeClientArgv. rewrite Hrel. cbn [option_bind mbind]. intros [= _ <-]. destruct (_ =? 0); by rewrite ?log_set, log_clear. }
  assert (mid c3 w3 0 (PState q' 0 None []) u rs') as Hm3.
  { assert (rest 0 (PState q' 0 None [])) as Hr3 by (split; [done|by left]). constructor; try done.
    - unfold REDIS_INLINE_MAX_SIZE in Hq'. constructor; cbn [p_q]; [done|by apply holds_frame| |lia|done|by right]. split; [cbn [p_q]; lia|done].
    - unfold blocked in *. by rewrite Hb3.
    - unfold closing in *. by rewrite Hc3.
    - left. by split_and!. }
  destruct (IH c3 w3 0 _ u rs' Hm3 Hrs Hpl (or_introl Hq')) as (c' & w' & ty' & p' & dn & rs2 & -> & -> & Hl & Hm' & Hpr & Hsm); [cbn [p_q]; lia|].
  exists c', w', ty', p', (args :: dn), rs2. split_and!; try done. by rewrite Hl, Hlog3, <-app_assoc.
Qed.

(** Reading: the sizes are what [read] chooses to give at each call, at least
    a byte and what was asked for at most; without input it is not called. *)
Fixpoint serve (ks : list nat) c w u : option (redisClient * W * list byte) :=
  match ks with
  | [] => Some (c, w, u)
  | k :: ks =>
    let n := Nat.min (S k) (Nat.min (Z.to_nat (read_len c)) (length u)) in
    if decide (u = []) then Some (c, w, u)
    else
      '(oc, w) ← readQueryFromClient junk c w (RData (take n u));
      c ← oc;
      serve ks c w (drop n u)
  end.

Lemma serve_spec ks : forall c w ty p u rs, mid c w ty p u rs -> small (p_bl p) (p_q p) -> prompt u rs -> Forall request_ok rs -> Forall plain_request rs ->
  exists c' w' ty' p' u' done rs', serve ks c w u = Some (c', w', u') /\ rs = done ++ rs' /\ log w' = log w ++ done /\ mid c' w' ty' p' u' rs' /\ prompt u' rs' /\
    (length u' <= length u - length ks)%nat.
Proof.
  induction ks as [|k ks IH]; intros c w ty p u rs Hm Hsm Hpr Hrs Hpl; cbn [serve].
  { exists c, w, ty, p, u, [], rs. rewrite app_nil_r. split_and!; try done. cbn. lia. }
  case_decide as Hu. { exists c, w, ty, p, u, [], rs. rewrite app_nil_r. subst u. split_and!; try done. }
  set (n := Nat.min (S k) _). pose proof Hm as [Hi Hh Hr Hb Hc Hp]. destruct (read_len_spec c w ty p Hi) as [Erl Hrl].
  assert (0 < length u)%nat as Hlu by (destruct u; [done|cbn; lia]).
  assert (0 < read_len c) as Hpos.
  { rewrite Erl. case_decide; [|done]. destruct (p_bl p) as [L|] eqn:EL; [|done]. cbn [small] in Hsm. destruct (_ <=? _); [|done]. unfold REDIS_IOBUF_LEN. lia. }
  assert (length (take n u) = n) as Hln by (rewrite length_take; unfold n; lia). assert (0 < n)%nat as Hn0 by (unfold n; lia).
  assert (read_ok c (RData (take n u))) as Hrok by (cbn [read_ok]; rewrite Hln; unfold n; lia).
  assert (short (p_q p ++ take n u) 0 (p_bl p)) as Hsh.
  { unfold short. rewrite length_app, Hln. cbn [read_ok] in Hrok. rewrite Hln in Hrok. destruct (i_arg _ _ _ _ Hi) as [] || pose proof (i_arg _ _ _ _ Hi) as Harg.
    unfold small in Hsm. unfold REDIS_IOBUF_LEN in *. destruct (p_bl p) as [L|] eqn:EL; [|left; unfold REDIS_INLINE_MAX_SIZE; lia]. destruct (Harg L EL) as [-> _].
    rewrite decide_True in Erl by done. destruct (Z.leb_spec REDIS_MBULK_BIG_ARG (Z.of_nat L)) as [Hbig|Hbig]; [right; split; [done|exists L; split; [done|split; [done|lia]]]|].
    left. unfold REDIS_INLINE_MAX_SIZE, REDIS_MBULK_BIG_ARG in *. lia. }
  set (w1 := set_current_client w true) in *. destruct (env_current w true (i_env _ _ _ _ Hi)) as [Hw1 Hf1]. fold w1 in Hw1, Hf1. pose proof (plain_max w1 Hw1) as Hmax.
  assert (Z.of_nat (length (p_q p ++ take n u)) <= 2 ^ 29 + 2) as Hlen.
  { destruct Hsh as [Hs|(_ & L & EL & _ & Hs)]; [unfold REDIS_INLINE_MAX_SIZE in Hs; lia|]. destruct (i_ok _ _ _ _ Hi) as (_ & _ & HL & _). specialize (HL L EL). lia. }
  destruct (read_eq junk c w ty p (take n u) Hi Hrok) as (qb & peak & Hqb & _ & E). cbv zeta in E. fold w1 in E. rewrite E, (proj2 (Z.ltb_ge _ _)) by lia.
  pose proof (after_read_inv c w ty p (take n u) qb peak (unixtime w1) Hi Hrok Hqb ltac:(lia)) as Hi1. fold w1 in Hi1. set (c1 := after_read c qb peak (unixtime w1)) in *.
  assert (mid c1 w1 ty (more p (take n u)) (drop n u) rs) as Hm1.
  { destruct (i_rest _ _ _ _ Hi1) as [Hcl|[Hh1 Hr1]]; [unfold closing in *; congruence|]. constructor; try done; [unfold blocked in *; congruence|unfold closing in *; congruence|].
    unfold pend, more. cbn [p_q p_n p_bl p_args]. rewrite <-!app_assoc, take_drop. exact Hp. }
  unfold processInputBuffer. change (querybuf c1) with qb. rewrite (rep_len_eq _ _ Hqb). destruct (loop_valid (Z.to_nat (Z.of_nat (length (p_q p ++ take n u))) + 2) c1 w1 ty _ _ rs Hm1 Hrs Hpl Hsh) as (c2 & w2 & ty2 & p2 & dn & rs2 & E2 & -> & Hl2 & Hm2 & Hpr2 & Hsm2);
    [cbn [more p_q]; lia|]. rewrite E2. cbn [option_bind mbind]. set (w3 := set_current_client w2 false). apply Forall_app in Hrs as [_ Hrs]. apply Forall_app in Hpl as [_ Hpl].
  assert (mid c2 w3 ty2 p2 (drop n u) rs2) as Hm3.
  { destruct Hm2 as [Hi2 Hh2 Hr2 Hb2 Hc2 Hp2]. destruct (env_current w2 false (i_env _ _ _ _ Hi2)) as [Hw3 Hf3]. fold w3 in Hw3, Hf3. destruct Hi2. constructor; try done;
      [constructor; try done; by right|unfold blocked in *; congruence|unfold closing in *; congruence]. }
  destruct (IH c2 w3 ty2 p2 _ rs2 Hm3 Hsm2 Hpr2 Hrs Hpl) as (c' & w' & ty' & p' & u' & dn' & rs' & -> & -> & Hl' & Hm' & Hpr' & Hlu').
  exists c', w', ty', p', u', (dn ++ dn'), rs'. split; [done|]. split; [by rewrite <-app_assoc|]. split; [|split; [done|split; [done|]]].
  - rewrite Hl'. unfold w3. rewrite log_current, Hl2. unfold w1. rewrite log_current. by rewrite <-app_assoc.
  - rewrite length_drop in Hlu'. cbn [length]. lia.
Qed.
End Run.
