(* ===== verification/RequestSpec.v ===== *)
(** RequestSpec: the theorems about the request parser. *)
From S2P Require Import Prelude Util UtilNum Sds SdsProofs SdsMore Elements Objects ObjectsSpec Crc64 Rio RdbProofs Rdb RdbSpec Request RequestProofs RequestRun.
Import (notations) Corelib.Init.Byte.
Import (notations) Strings.String.

(** ** Every sequence of events *)

Section Reach.
Context {W : Type} {env : RequestEnv W} {laws : RequestLaws W} (junk : nat -> byte).
Implicit Types (c : redisClient) (w : W).

(** A client is created; the socket is read; the rest of the server changes
    anything but the closing of the client; the pending input is processed
    again, as when a blocked client is released. *)
Inductive reachable : redisClient -> W -> Prop :=
| reach_new c w now : createClient junk now = Some c -> env_ok w -> reachable c w
| reach_read c w r c' w' : reachable c w -> read_ok c r -> readQueryFromClient junk c w r = Some (Some c', w') -> reachable c' w'
| reach_server c w w' : reachable c w -> env_ok w' -> (closing w = true -> closing w' = true) -> reachable c w'
| reach_resume c w c' w' : reachable c w -> processInputBuffer junk c w = Some (c', w') -> reachable c' w'.

Lemma new_mid now c w : createClient junk now = Some c -> holds c 0 (PState [] 0 None []).
Proof.
  unfold createClient. destruct (empty_room junk 0 ltac:(lia)) as (qb & -> & _ & Hq). cbn [option_bind mbind]. intros [= <-]. by constructor.
Qed.

Lemma reachable_inv c w : reachable c w -> exists ty p, inv c w ty p.
Proof.
  induction 1 as [c w now Hc Hw|c w r c' w' _ (ty & p & Hi) Hr E|c w w' _ (ty & p & Hi) Hw Hcl|c w c' w' _ (ty & p & Hi) E].
  - exists 0, (PState [] 0 None []). pose proof (new_mid now c w Hc) as Hh. constructor; try done; [by apply holds_frame|]. right. split; [done|]. split; [done|by left].
  - destruct (read_safe junk c w ty p r Hi Hr) as (oc & w2 & E2 & Hoc). rewrite E in E2. injection E2 as <- <-. exact Hoc.
  - exists ty, p. destruct Hi as [? ? ? ? ? [?|?]]; constructor; try done; [left; auto|by right].
  - destruct (input_safe junk c w ty p Hi) as (c2 & w2 & ty2 & p2 & E2 & Hi2 & _). rewrite E in E2. injection E2 as <- <-. by exists ty2, p2.
Qed.

(** C18: whatever bytes a client sends, in whatever pieces, and whatever the
    commands and the server do in between, reading and parsing them never
    fails: no assertion is violated, no access is outside a buffer or the
    argument vector, and the loops end. *)
Theorem request_reader_safe c w : reachable c w ->
  (forall r, read_ok c r -> exists oc w', readQueryFromClient junk c w r = Some (oc, w')) /\
  (exists c' w', processInputBuffer junk c w = Some (c', w')).
Proof.
  intros (ty & p & Hi)%reachable_inv. split.
  - intros r Hr. destruct (read_safe junk c w ty p r Hi Hr) as (oc & w' & E & _). by exists oc, w'.
  - destruct (input_safe junk c w ty p Hi) as (c' & w' & _ & _ & E & _). by exists c', w'.
Qed.

(** At every point between two events the query buffer is a string of at
    most 2^30 bytes, at most 2^20 arguments are awaited, the length of the
    next is unknown or at most 512 MB, the next read asks for at most 16 KB,
    and, until the client is to be closed, the arguments read and awaited
    have their slots in the vector, and a client between requests has none. *)
Theorem request_state_invariant c w : reachable c w ->
  (exists q, sds_rep (querybuf c) q /\ Z.of_nat (length q) <= 2 ^ 30) /\
  0 <= multibulklen c <= 2 ^ 20 /\ (bulklen c = -1 \/ 0 <= bulklen c <= 2 ^ 29) /\ (multibulklen c = 0 -> bulklen c = -1) /\
  0 <= read_len c <= REDIS_IOBUF_LEN /\
  (closing w = false ->
    argc c + multibulklen c <= argv_size c /\ (multibulklen c = 0 -> argc c = 0) /\ exists args, Forall2 arg_obj (argv c) args).
Proof.
  intros (ty & p & Hi)%reachable_inv. pose proof (read_len_spec c w ty p Hi) as [_ Hrl]. destruct Hi as [_ [Hq _ En Eb] (_ & Hn & HL & Hbl) Hlen _ Hr].
  split; [by exists (p_q p)|]. split; [lia|]. rewrite Eb. split; [|split; [|split; [done|]]].
  - destruct (p_bl p) as [L|]; cbn [bl_val]; [|by left]. specialize (HL L eq_refl). lia.
  - intros E0. by rewrite Hbl by lia.
  - intros Hc. destruct Hr as [?|[Hh [Hargs _]]]; [congruence|]. pose proof (Forall2_length _ _ _ (h_args _ _ _ Hh)) as El. pose proof (h_slots _ _ _ Hh) as Hsl.
    unfold argc. rewrite El. split; [lia|]. split; [intros E0; by rewrite Hargs by lia|]. exists (p_args p). exact (h_args _ _ _ Hh).
Qed.
End Reach.

(** ** Requests *)

Section Requests.
Context {W : Type} {env : RequestEnv W} {laws : RequestLaws W} (junk : nat -> byte).
Implicit Types (c : redisClient) (w : W).

(** C6: when a client that is neither blocked nor to be closed sends requests
    of the protocol one after the other, all of them plain (the command returns
    [REDIS_OK] and leaves the client neither blocked nor to be closed: not
    [QUIT], nor a command that blocks), then however the stream is cut by the
    calls of [read], each request is executed once, in order, with its
    arguments, as soon as its last byte has been read and not before, no error
    is reported, and after as many reads as there are bytes all have been
    executed and nothing is left. *)
Theorem requests_executed {plain : PlainCommands W} c w now ks rs :
  createClient junk now = Some c -> env_ok w -> blocked w = false -> closing w = false -> Forall request_ok rs -> Forall plain_request rs ->
  exists c' w' u done rs', serve junk ks c w (enc_requests rs) = Some (c', w', u) /\
    rs = done ++ rs' /\ log w' = log w ++ done /\ closing w' = false /\
    (length u <= length (enc_requests rs'))%nat /\ (rs' = [] \/ length (enc_requests (tail rs')) < length u)%nat /\
    ((length (enc_requests rs) <= length ks)%nat -> u = [] /\ rs' = [] /\ sdslen (querybuf c') = 0 /\ multibulklen c' = 0 /\ argc c' = 0).
Proof.
  intros Hnew Hw Hb Hc Hrs Hpl. pose proof (new_mid junk now c w Hnew) as Hh. assert (rest 0 (PState [] 0 None [])) as Hr0 by (split; [done|by left]).
  assert (mid c w 0 (PState [] 0 None []) (enc_requests rs) rs) as Hm.
  { constructor; try done; [|by left]. constructor; try done; [by apply holds_frame|by right]. }
  destruct (serve_spec junk ks c w _ _ _ rs Hm) as (c' & w' & ty' & p' & u' & dn & rs' & E & -> & Hlog & Hm' & Hpr & Hlu); [cbn; lia|by apply (prompt_end 0 (PState [] 0 None [])), Hm|done|done|].
  exists c', w', u', dn, rs'. pose proof Hm' as [Hi' Hh' Hr' Hb' Hc' Hp']. split; [done|]. split; [done|]. split; [done|]. split; [done|]. split; [|split; [exact Hpr|]].
  - destruct Hp' as [(_ & _ & _ & Ep)|(_ & bs & rest & _ & _ & Hbl & -> & Ep)]; apply (f_equal length) in Ep; rewrite !length_app in Ep; [lia|].
    change (enc_requests ((p_args p' ++ bs) :: rest)) with (enc_request (p_args p' ++ bs) ++ enc_requests rest). rewrite length_app.
    pose proof (enc_tail_le _ _ (p_args p') Hbl). lia.
  - intros Hks. assert (u' = []) as -> by (destruct u'; [done|cbn [length] in Hlu; lia]). destruct Hpr as [->|Hpr]; [|cbn in Hpr; lia].
    destruct Hp' as [(Hn & _ & _ & Ep)|(_ & bs & rest & _ & _ & _ & [=] & _)]. rewrite app_nil_r in Ep. cbn in Ep.
    rewrite (rep_len_eq _ _ (h_q _ _ _ Hh')), Ep. split_and!; try done; [rewrite (h_n _ _ _ Hh'); lia|].
    unfold argc. rewrite (Forall2_length _ _ _ (h_args _ _ _ Hh')). destruct Hr' as [Ha _]. by rewrite Ha.
Qed.

(** An inline request is the line up to the first CR LF before any null
    character: its words become the arguments and the rest of the buffer is
    kept, nothing else is touched; without such a line the client waits, until
    the buffer has more than 64 KB, when it is told so and is to be closed. *)
Theorem processInlineBuffer_lines c w ty p : holds c ty p -> p_ok p -> p_n p = 0%nat ->
  match find [z2b 13; z2b 10] (p_q p) with
  | Some n => exists c', processInlineBuffer junk c w = Some (REDIS_OK, c', w) /\
      sds_rep (querybuf c') (drop (n + 2) (p_q p)) /\ Forall2 arg_obj (argv c') (words (take n (p_q p)))
  | None =>
    if 64 * 1024 <? Z.of_nat (length (p_q p)) then
      env_ok w -> exists c' w', processInlineBuffer junk c w = Some (REDIS_ERR, c', w') /\ closing w' = true /\ sds_rep (querybuf c') (p_q p)
    else processInlineBuffer junk c w = Some (REDIS_ERR, c, w)
  end.
Proof.
  intros Hh Hok Hn. pose proof (inline_spec junk c w ty p Hh Hok Hn) as Hi. unfold spec_inline in Hi. destruct (find [z2b 13; z2b 10] (p_q p)) as [n|] eqn:E.
  - destruct Hi as (c' & Hh' & ->). exists c'. split; [done|]. split; [exact (h_q _ _ _ Hh')|exact (h_args _ _ _ Hh')].
  - change (64 * 1024) with REDIS_INLINE_MAX_SIZE. destruct (REDIS_INLINE_MAX_SIZE <? _) eqn:El; destruct Hi as (c' & Hh' & Ei).
    + intros Hw. destruct (fail_spec false (text "Protocol error: too big inline request") w Hw) as (w' & Ef & _ & Hcl & _). exists c', w'. cbn [result] in Ei. rewrite Ef in Ei.
      split; [exact Ei|]. split; [done|exact (h_q _ _ _ Hh')].
    + unfold processInlineBuffer. destruct (rep_buf _ _ (h_q _ _ _ Hh)) as (g & Eg & _). rewrite Eg, strstr_find, E, (rep_len_eq _ _ (h_q _ _ _ Hh)). cbn [fmap option_fmap option_map option_bind mbind].
      by rewrite El.
Qed.

(** The reply [msg] (from a format or not), the client is to be closed, it
    keeps the bytes [rest], and no input is ever parsed again. *)
Definition refused (call : option (Z * redisClient * W)) w (fmt : bool) (msg rest : list byte) : Prop :=
  exists w1 c' w', (if fmt then addReplyErrorFormat w msg else addReplyError w msg) = Some w1 /\
    call = Some (REDIS_ERR, c', w') /\ w' = set_flags w1 (Z.lor (flags w1) REDIS_CLOSE_AFTER_REPLY) /\ closing w' = true /\
    sds_rep (querybuf c') rest /\ input_step junk c' w' = Some (false, c', w').

Lemma refused_fail call w fmt msg c' ty p : env_ok w -> holds c' ty p -> call = result (OFail fmt msg) c' w -> refused call w fmt msg (p_q p).
Proof.
  intros Hw Hh ->. destruct (fail_spec fmt msg w Hw) as (w' & E & _ & Hcl & _). cbn [result]. rewrite E. revert E. unfold fail_with.
  destruct (if fmt then _ else _) as [w1|] eqn:E1; [|done]. cbn [option_bind mbind]. intros [= E]. exists w1, c', w'. split; [done|]. split; [done|]. split; [done|]. split; [done|].
  split; [exact (h_q _ _ _ Hh)|]. unfold input_step. rewrite closing_test, Hcl. by destruct (negb _).
Qed.

Lemma line_got q (pos : nat) h s : drop pos q = h ++ crlf ++ s -> Forall plain_char h -> spec_line q pos = LGot h (pos + length h + 2).
Proof.
  intros E Hh. unfold spec_line. rewrite E. change (h ++ crlf ++ s) with (h ++ z2b 13 :: z2b 10 :: s). rewrite (find_here (z2b 13) h) by done. pose proof (f_equal length E) as El. rewrite length_drop, !length_app in El. cbn [length crlf] in El.
  destruct (Nat.ltb_spec (length q) (pos + length h + 2)); [lia|]. by rewrite take_app_length.
Qed.

(** The header of a multi bulk request.  A count that is not a numeral or
    is above a million is refused with the buffer kept whole; one that is not
    positive is a request without arguments; after a valid count the header
    of the first argument must start with a dollar, and its length must be a
    numeral from 0 to 512 MB, or it is refused with the buffer kept from it. *)
Theorem multibulk_header c w d s : env_ok w ->
  let q := "*"%byte :: d ++ crlf ++ s in
  holds c REDIS_REQ_MULTIBULK (PState q 0 None []) -> p_ok (PState q 0 None []) -> Forall plain_char d ->
  let call := processMultibulkBuffer junk c w in
  match num d with
  | Some n =>
    if 1024 * 1024 <? n then refused call w false (text "Protocol error: invalid multibulk length") q
    else if n <=? 0 then exists c', call = Some (REDIS_OK, c', w) /\ argc c' = 0 /\ sds_rep (querybuf c') s
    else forall b d' s', s = b :: d' ++ crlf ++ s' -> Forall plain_char (b :: d') ->
      if decide (b = "$"%byte) then
        match num d' with
        | Some l => (l < 0 \/ 512 * 1024 * 1024 < l) -> refused call w false (text "Protocol error: invalid bulk length") s
        | None => refused call w false (text "Protocol error: invalid bulk length") s
        end
      else refused call w true (text "Protocol error: expected '$', got '" ++ [b] ++ text "'") s
  | None => refused call w false (text "Protocol error: invalid multibulk length") q
  end.
Proof.
  intros Hw q Hh Hok Hd call. pose proof (mbulk_spec junk c w _ _ Hh Hok ltac:(done)) as Hs. fold call in Hs. cbn [spec_mbulk] in Hs.
  rewrite (line_got q 0 ("*"%byte :: d) s) in Hs by (done || by constructor). cbn [drop length Nat.add] in Hs. rewrite drop_0 in Hs.
  assert (drop (S (length d + 2)) q = s) as Edrop.
  { unfold q. cbn [drop]. rewrite app_assoc. apply drop_app_length'. rewrite length_app. done. }
  destruct (num d) as [n|]; [|destruct Hs as (c' & Hh' & E); by apply (refused_fail call w _ _ c' _ _ Hw Hh')].
  destruct (1024 * 1024 <? n); [destruct Hs as (c' & Hh' & E); by apply (refused_fail call w _ _ c' _ _ Hw Hh')|].
  destruct (Z.leb_spec n 0) as [Hn|Hn].
  { destruct Hs as (c' & Hh' & E). exists c'. split; [done|]. pose proof (h_q _ _ _ Hh') as Hq'. cbn [p_q] in Hq'. rewrite Edrop in Hq'. split; [|done].
    unfold argc. by rewrite (Forall2_length _ _ _ (h_args _ _ _ Hh')). }
  intros b d' s' Es Hd'. destruct (Z.to_nat n) as [|m] eqn:Em; [lia|]. cbn [spec_args] in Hs. unfold spec_len in Hs.
  rewrite (line_got q (S (length d + 2)) (b :: d') s') in Hs by (done || by rewrite Edrop, Es). cbn [head default drop] in Hs. rewrite drop_0, Edrop in Hs. destruct (decide (b = "$"%byte)) as [Hb|Hb].
  - rewrite bool_decide_eq_true_2 in Hs by done. cbn [negb] in Hs. destruct (num d') as [l|].
    + intros Hl. assert ((l <? 0) || (512 * 1024 * 1024 <? l) = true) as El by (apply orb_true_iff; rewrite !Z.ltb_lt; lia). rewrite El in Hs. unfold bad_len in Hs.
      destruct Hs as (c' & Hh' & E). by apply (refused_fail call w _ _ c' _ _ Hw Hh').
    + unfold bad_len in Hs. destruct Hs as (c' & Hh' & E). by apply (refused_fail call w _ _ c' _ _ Hw Hh').
  - rewrite bool_decide_eq_false_2 in Hs by done. cbn [negb] in Hs. destruct Hs as (c' & Hh' & E). by apply (refused_fail call w _ _ c' _ _ Hw Hh').
Qed.
End Requests.

(** ** What writes requests *)

Section Writers.
Context {S : Type} {methods : RioMethods S} {rlaws : RioLaws S} (junk : nat -> byte).
Implicit Types (r : rio S) (w : list byte).

(** The arguments after a count, as the code that rewrites the append only
    file writes them. *)
Fixpoint rio_write_args r (args : list (list byte)) : option (Z * rio S) :=
  match args with
  | [] => Some (0, r)
  | a :: args =>
    '(k, r) ← rioWriteBulkString junk r a (Z.of_nat (length a));
    '(ks, r) ← rio_write_args r args;
    Some (k + ks, r)
  end.

Context (f : option (Z -> list byte -> Z)) (c0 : Z) (Hadd : additive f).

Lemma write_count w n r (m : byte) v : wstate f c0 w n r -> 0 <= v < 2 ^ 31 -> Z.of_nat (length (header m v ++ crlf)) <= n ->
  exists r', rioWriteBulkCount junk r m v = Some (Z.of_nat (length (header m v ++ crlf)), r') /\
    wstate f c0 (w ++ header m v ++ crlf) (n - Z.of_nat (length (header m v ++ crlf))) r'.
Proof.
  intros Hw Hv Hn. unfold rioWriteBulkCount. rewrite ll2string_fits by lia. cbn [option_bind mbind].
  change (m :: print_int v ++ [z2b 0]) with ([] ++ header m v ++ [z2b 0]). replace (1 + Z.of_nat (length (print_int v))) with (Z.of_nat (length (header m v))) by (unfold header; cbn [length]; lia).
  rewrite mem_read_app by done. cbn [option_bind mbind]. change [z2b 13; z2b 10] with crlf.
  destruct (rio_write_spec f c0 Hadd w n r (header m v ++ crlf) Hw) as (r' & -> & Hw'); [rewrite length_app in *; cbn in *; lia|]. cbn [option_bind mbind].
  exists r'. split; [|done]. do 2 f_equal. rewrite length_app. cbn [length crlf]. lia.
Qed.

Lemma write_string w n r a : wstate f c0 w n r -> Z.of_nat (length a) < 2 ^ 31 -> Z.of_nat (length (enc_bulk a)) <= n ->
  exists r', rioWriteBulkString junk r a (Z.of_nat (length a)) = Some (Z.of_nat (length (enc_bulk a)), r') /\
    wstate f c0 (w ++ enc_bulk a) (n - Z.of_nat (length (enc_bulk a))) r'.
Proof.
  intros Hw Ha Hn. unfold rioWriteBulkString. rewrite s32_small by lia. unfold enc_bulk in Hn |- *. rewrite app_assoc in Hn |- *. rewrite length_app in Hn.
  change (z2b 36) with "$"%byte. destruct (write_count w n r "$"%byte (Z.of_nat (length a)) Hw) as (r1 & -> & Hw1); [lia|lia|]. cbn [option_bind mbind]. set (h := header "$" (Z.of_nat (length a)) ++ crlf) in *.
  assert (0 < Z.of_nat (length h) <= 30) as Hh.
  { unfold h, header. rewrite length_app. cbn [length crlf]. pose proof (length_print_int (Z.of_nat (length a))) as Hl. unfold int64 in Hl. lia. }
  rewrite (proj2 (Z.eqb_neq _ 0)) by lia. rewrite length_app in Hn. cbn [length crlf] in Hn.
  assert (exists r2, (if 0 <? Z.of_nat (length a) then bs ← mem_read a 0 (Z.of_nat (length a)); rioWrite r1 bs else Some (true, r1)) = Some (true, r2) /\
    wstate f c0 ((w ++ h) ++ a) (n - Z.of_nat (length h) - Z.of_nat (length a)) r2) as (r2 & -> & Hw2).
  { destruct (Z.ltb_spec 0 (Z.of_nat (length a))).
    - pose proof (mem_read_app [] a [] 0 (Z.of_nat (length a)) eq_refl eq_refl) as Er. cbn [app] in Er. rewrite app_nil_r in Er. rewrite Er. cbn [option_bind mbind]. apply (rio_write_spec f c0 Hadd); [done|lia].
    - exists r1. destruct a; [|cbn in *; lia]. rewrite app_nil_r. cbn [length]. by rewrite Z.sub_0_r. }
  cbn [option_bind mbind]. destruct (rio_write_spec f c0 Hadd _ _ r2 [z2b 13; z2b 10] Hw2) as (r3 & -> & Hw3); [cbn [length]; lia|]. cbn [option_bind mbind length] in *.
  rewrite u64_small by lia. exists r3. split; [do 2 f_equal; rewrite !length_app; cbn [length crlf]; lia|].
  replace (w ++ h ++ a ++ crlf) with (((w ++ h) ++ a) ++ crlf) by (by rewrite <-!app_assoc). replace (n - _) with (n - Z.of_nat (length h) - Z.of_nat (length a) - Z.of_nat 2); [done|].
  rewrite !length_app. cbn [length crlf]. lia.
Qed.

Lemma write_args args : forall w n r, wstate f c0 w n r -> Forall arg_ok args -> Z.of_nat (length (enc_bulks args)) <= n ->
  exists r', rio_write_args r args = Some (Z.of_nat (length (enc_bulks args)), r') /\ wstate f c0 (w ++ enc_bulks args) (n - Z.of_nat (length (enc_bulks args))) r'.
Proof.
  induction args as [|a args IH]; intros w n r Hw Hok Hn; cbn [rio_write_args].
  { exists r. cbn. rewrite app_nil_r, Z.sub_0_r. by split. }
  change (enc_bulks (a :: args)) with (enc_bulk a ++ enc_bulks args) in *. rewrite length_app in *. apply Forall_cons in Hok as [Ha Hok]. unfold arg_ok in Ha.
  destruct (write_string w n r a Hw) as (r1 & -> & Hw1); [lia|lia|]. cbn [option_bind mbind]. destruct (IH _ _ r1 Hw1 Hok) as (r' & -> & Hw'); [lia|]. cbn [option_bind mbind].
  exists r'. split; [do 2 f_equal; lia|]. rewrite app_assoc. replace (n - _) with (n - Z.of_nat (length (enc_bulk a)) - Z.of_nat (length (enc_bulks args))) by lia. done.
Qed.
End Writers.

(** The request syntax written over a stream, a count and then each
    argument, is the request that the parser reads, on any stream that keeps
    its laws and has room; the calls return the number of bytes written. *)
Theorem rio_writes_requests {S} {methods : RioMethods S} {rlaws : RioLaws S} junk f c0 w n (r : rio S) args :
  additive f -> wstate f c0 w n r -> request_ok args -> Z.of_nat (length (enc_request args)) <= n ->
  exists k r1 ks r', rioWriteBulkCount junk r (z2b 42) (Z.of_nat (length args)) = Some (k, r1) /\ rio_write_args junk r1 args = Some (ks, r') /\
    k + ks = Z.of_nat (length (enc_request args)) /\ wstate f c0 (w ++ enc_request args) (n - Z.of_nat (length (enc_request args))) r'.
Proof.
  intros Hf Hw (_ & Hargs & Hok) Hn. unfold enc_request in *. rewrite app_assoc in *. rewrite length_app in *. change (z2b 42) with "*"%byte.
  destruct (write_count junk f c0 Hf w n r "*"%byte (Z.of_nat (length args)) Hw) as (r1 & E1 & Hw1); [lia|lia|].
  destruct (write_args junk f c0 Hf args _ _ r1 Hw1 Hok) as (r' & E2 & Hw2); [lia|].
  eexists _, r1, _, r'. split; [exact E1|]. split; [exact E2|]. split; [lia|]. rewrite app_assoc.
  replace (n - _) with (n - Z.of_nat (length (header "*" (Z.of_nat (length args)) ++ crlf)) - Z.of_nat (length (enc_bulks args))) by lia. done.
Qed.

(** ** A pipeline that is refused *)

(** A request of the argument [a] and a second one, cut after the dollar of
    the second. *)
Definition cut_request (a : list byte) : list byte := header "*" 2 ++ crlf ++ enc_bulk a ++ ["$"%byte].

Lemma cut_parsed a : 64 * 1024 <= Z.of_nat (length a) -> arg_ok a ->
  spec_mbulk (PState (cut_request a) 0 None []) = (OFail false (text "Protocol error: too big bulk count string"), PState ["$"%byte] 1 None [a]).
Proof.
  unfold arg_ok. intros Ha Hok. set (q := cut_request a). cbn [spec_mbulk]. rewrite (line_got q 0 (header "*" 2) (enc_bulk a ++ ["$"%byte]) eq_refl) by (by apply (plain_header "*"%byte 2)).
  change (num (drop 1 (header "*" 2))) with (Some 2). cbv iota. change (1024 * 1024 <? 2) with false. change (2 <=? 0) with false. cbv iota.
  change (Z.to_nat 2) with 2%nat. change (0 + length (header "*" 2) + 2)%nat with 4%nat. cbn [spec_args]. unfold spec_len at 1.
  assert (drop 4 q = header "$" (Z.of_nat (length a)) ++ crlf ++ a ++ crlf ++ ["$"%byte]) as E4.
  { unfold q, cut_request. rewrite app_assoc. change 4%nat with (length (header "*" 2 ++ crlf)). rewrite drop_app_length. unfold enc_bulk. by rewrite <-!app_assoc. }
  rewrite (line_got q 4 _ _ E4) by (apply plain_header; [by split|lia]). set (next := (4 + _ + 2)%nat). cbn [header head default drop]. rewrite bool_decide_eq_true_2 by done. cbn [negb].
  rewrite drop_0, num_print by (unfold int64; lia). rewrite (proj2 (Z.ltb_ge _ 0)), (proj2 (Z.ltb_ge _ (Z.of_nat (length a)))) by lia. cbn [orb].
  rewrite (proj2 (Z.leb_le _ _)) by (unfold REDIS_MBULK_BIG_ARG; lia). rewrite Nat2Z.id.
  assert (drop next q = a ++ crlf ++ ["$"%byte]) as En.
  { unfold next. replace (4 + length (header "$" (Z.of_nat (length a))) + 2)%nat with (4 + (length (header "$" (Z.of_nat (length a))) + 2))%nat by lia. rewrite <-drop_drop, E4, app_assoc.
    apply drop_app_length'. rewrite length_app. done. }
  rewrite En. set (q' := a ++ crlf ++ ["$"%byte]). assert (length q' = length a + 3)%nat as Hl by (unfold q'; rewrite !length_app; done).
  unfold spec_arg at 1. destruct (Nat.ltb_spec (length q' - 0) (length a + 2)); [lia|]. rewrite (proj2 (Nat.eqb_neq (length q') _)), andb_false_r by lia. rewrite drop_0.
  assert (take (length a) q' = a) as -> by apply take_app_length. unfold spec_len, spec_line.
  assert (drop (0 + length a + 2) q' = ["$"%byte]) as -> by (unfold q'; rewrite app_assoc; apply drop_app_length'; rewrite length_app; done).
  change (find [z2b 13] ["$"%byte]) with (@None nat). cbv iota. rewrite (proj2 (Z.ltb_lt _ _)) by (unfold REDIS_INLINE_MAX_SIZE; lia). done.
Qed.

(** The length test of the header of an argument counts the arguments
    before it that are still in the buffer.  A client that is blocked while it
    sends more than 64 KB, ending in the middle of such a header, is refused
    when it is released, although what it sent is the beginning of a valid
    request. *)
Theorem pipelined_request_refused {W : Type} {env : RequestEnv W} {laws : RequestLaws W} junk (c : redisClient) (w : W) a b :
  64 * 1024 <= Z.of_nat (length a) -> arg_ok a -> arg_ok b -> env_ok w -> holds c REDIS_REQ_MULTIBULK (PState (cut_request a) 0 None []) ->
  request_ok [a; b] /\ (exists u, enc_request [a; b] = cut_request a ++ u) /\
  refused junk (processMultibulkBuffer junk c w) w false (text "Protocol error: too big bulk count string") (text "$").
Proof.
  intros Ha Hoka Hokb Hw Hh. split; [by split_and!; [|done|repeat constructor]|]. split.
  { exists (print_int (Z.of_nat (length b)) ++ crlf ++ b ++ crlf). unfold cut_request, enc_request, enc_bulks. cbn [fmap list_fmap concat length]. rewrite app_nil_r, <-!app_assoc. do 3 f_equal. }
  assert (p_ok (PState (cut_request a) 0 None [])) as Hok.
  { split; [|done]. cbn [p_q]. unfold cut_request, enc_bulk. rewrite !length_app. cbn [length crlf]. pose proof (header_length "$"%byte (length a)). unfold arg_ok in Hoka.
    change (length (header "*" 2)) with 2%nat. lia. }
  pose proof (mbulk_spec junk c w _ _ Hh Hok ltac:(done)) as Hs. rewrite (cut_parsed a Ha Hoka) in Hs. destruct Hs as (c' & Hh' & E').
  exact (refused_fail junk _ w _ _ c' _ _ Hw Hh' E').
Qed.

(** ** Witnesses *)

(** A server that records requests and errors, and closes on [QUIT]. *)
Record recorder := Recorder { rec_flags : Z; rec_log : list (list (list byte)); rec_errors : list (list byte) }.

Definition arg_bytes (o : robj) : list byte := match ptr o with PSds s => take (Z.to_nat (sh_len s)) (sh_buf s) | PLong _ => [] end.

#[local] Instance recorder_env : RequestEnv recorder := {|
  flags := rec_flags;
  set_flags w f := Recorder f (rec_log w) (rec_errors w);
  addReplyError w m := Some (Recorder (rec_flags w) (rec_log w) (rec_errors w ++ [m]));
  addReplyErrorFormat w m := Some (Recorder (rec_flags w) (rec_log w) (rec_errors w ++ [m]));
  processCommand c w :=
    let args := arg_bytes <$> argv c in
    if decide (args = [text "QUIT"]) then Some (REDIS_ERR, c, Recorder (Z.setbit (rec_flags w) 6) (rec_log w) (rec_errors w))
    else Some (REDIS_OK, c, Recorder (rec_flags w) (rec_log w ++ [args]) (rec_errors w));
  clear_cmd w := w;
  set_current_client w _ := w;
  unixtime _ := 0;
  client_max_querybuf_len _ := 2 ^ 30;
  freeClient _ w := Some w |}.

#[local] Instance recorder_laws : RequestLaws recorder.
Proof.
  refine {| env_ok _ := True |}; try done; try (by intros; eexists).
  intros c w _ _ _ _ Hs (args & Ha). cbn [processCommand recorder_env]. cbv zeta. case_decide; (eexists _, _, _; split; [reflexivity|]; do 5 (split; [done|]);
    split; [exact (release_held _ _ Ha)|]; split; [unfold argc in Hs; lia|]); [right|by left]. unfold closing. cbn [flags recorder_env rec_flags]. by rewrite Z.setbit_eqb, Z.eqb_refl by lia.
Defined.

#[local] Instance recorder_plain : PlainCommands recorder.
Proof.
  refine {| plain_request args := args <> [text "QUIT"]; log := rec_log |}; try done.
  intros c w args _ Hb Hc Ha Hp _ Hs. assert (arg_bytes <$> argv c = args) as Ea.
  { clear -Ha. induction Ha as [|o a os args (s & -> & Hs) _ IH]; [done|]. cbn. f_equal; [|exact IH]. unfold arg_bytes. cbn [ptr createObject].
    destruct Hs as [Hl _ _ (g & -> & _)]. by rewrite Hl, Nat2Z.id, take_app_length. }
  cbn [processCommand recorder_env]. cbv zeta. rewrite Ea, decide_False by done. eexists _, _. split; [reflexivity|]. do 2 (split; [done|]). split.
  - done.
  - do 4 (split; [done|]). split; [exact (release_held _ _ Ha)|unfold argc in Hs; lia].
Defined.

Definition idle_server : recorder := Recorder 0 [] [].

(** A client whose buffer holds [q]. *)
Definition client_of (q : list byte) : redisClient := RedisClient (Sdshdr (Z.of_nat (length q)) 0 (q ++ [z2b 0])) 0 0 0 (-1) [] 0 0.

Lemma client_of_holds q : Z.of_nat (length q) < 2 ^ 30 -> holds (client_of q) 0 (PState q 0 None []).
Proof. intros Hl. constructor; try done. apply rep_mk; [done|done|cbn; lia]. Qed.

Lemma client_of_multi q : Z.of_nat (length q) < 2 ^ 30 -> holds (set_reqtype (client_of q) REDIS_REQ_MULTIBULK) REDIS_REQ_MULTIBULK (PState q 0 None []).
Proof. intros Hl. destruct (client_of_holds q Hl). by constructor. Qed.

Lemma idle_ok : env_ok idle_server.
Proof. exact I. Qed.

Lemma idle_reachable c : createClient zero_junk 7 = Some c -> reachable zero_junk c idle_server.
Proof. intros Hc. by apply (reach_new zero_junk c idle_server 7). Qed.

Example request_reader_safe_witness : exists c oc w', createClient zero_junk 7 = Some c /\
  readQueryFromClient zero_junk c idle_server (RData (text "*2$oops")) = Some (oc, w').
Proof.
  eexists. destruct (request_reader_safe zero_junk _ idle_server (idle_reachable _ eq_refl)) as [H _].
  destruct (H (RData (text "*2$oops"))) as (oc & w' & E); [vm_compute; split; [done|discriminate]|]. exists oc, w'. split; [reflexivity|exact E].
Defined.

Example request_state_invariant_witness : exists c, createClient zero_junk 7 = Some c /\ argc c + multibulklen c <= argv_size c.
Proof.
  eexists. split; [reflexivity|]. destruct (request_state_invariant zero_junk _ idle_server (idle_reachable _ eq_refl)) as (_ & _ & _ & _ & _ & H).
  exact (proj1 (H eq_refl)).
Defined.

Definition two_requests : list (list (list byte)) := [[text "SET"; text "k"; []]; [text "GET"; text "k"]].

Example requests_executed_witness : exists c c' w' u, createClient zero_junk 7 = Some c /\
  serve zero_junk (repeat 4%nat 80) c idle_server (enc_requests two_requests) = Some (c', w', u) /\ log w' = two_requests.
Proof.
  eexists. destruct (requests_executed zero_junk _ idle_server 7 (repeat 4%nat 80) two_requests eq_refl idle_ok eq_refl eq_refl) as (c' & w' & u & done & rs' & E & Ers & El & _ & _ & _ & H).
  { repeat constructor; try done; vm_compute; discriminate. } { repeat constructor; discriminate. }
  exists c', w', u. split; [reflexivity|]. split; [exact E|]. destruct H as (_ & -> & _); [vm_compute; lia|]. rewrite app_nil_r in Ers. rewrite El, Ers. reflexivity.
Defined.

Example processInlineBuffer_lines_witness : exists c', processInlineBuffer zero_junk (client_of (text "PING  x" ++ crlf ++ text "*")) idle_server = Some (REDIS_OK, c', idle_server) /\
  sds_rep (querybuf c') (text "*") /\ Forall2 arg_obj (argv c') [text "PING"; text "x"].
Proof.
  apply (processInlineBuffer_lines zero_junk _ idle_server 0 (PState (text "PING  x" ++ crlf ++ text "*") 0 None [])); [by apply client_of_holds|by split_and!|done].
Defined.

Definition bad_header : list byte := "*"%byte :: text "1" ++ crlf ++ "$"%byte :: text "-1" ++ crlf ++ text "x".

Example multibulk_header_witness :
  refused zero_junk (processMultibulkBuffer zero_junk (set_reqtype (client_of bad_header) REDIS_REQ_MULTIBULK) idle_server) idle_server false
    (text "Protocol error: invalid bulk length") ("$"%byte :: text "-1" ++ crlf ++ text "x").
Proof.
  assert (p_ok (PState bad_header 0 None [])) as Hok by (by split_and!). assert (Forall plain_char (text "1")) as Hd by (by repeat constructor).
  pose proof (multibulk_header zero_junk (set_reqtype (client_of bad_header) REDIS_REQ_MULTIBULK) idle_server (text "1") ("$"%byte :: text "-1" ++ crlf ++ text "x")
    idle_ok (client_of_multi bad_header eq_refl) Hok Hd) as H.
  replace (num (text "1")) with (Some 1) in H by (vm_compute; reflexivity). change (1024 * 1024 <? 1) with false in H. change (1 <=? 0) with false in H. cbv iota in H.
  specialize (H "$"%byte (text "-1") (text "x") eq_refl). rewrite decide_True in H by done. replace (num (text "-1")) with (Some (-1)) in H by (vm_compute; reflexivity).
  apply H; [by repeat constructor|by left].
Defined.

Example rio_writes_requests_witness : exists k r1 ks r',
  @rioWriteBulkCount _ (rioBufferIO zero_junk) zero_junk (reader []) (z2b 42) 2 = Some (k, r1) /\
  @rio_write_args _ (rioBufferIO zero_junk) zero_junk r1 [text "GET"; text "k"] = Some (ks, r') /\ k + ks = 20.
Proof.
  destruct (@rio_writes_requests _ _ (buffer_laws zero_junk) zero_junk _ _ [] 1000 (reader []) [text "GET"; text "k"] crc_additive writer_state) as (k & r1 & ks & r' & E1 & E2 & E & _).
  { split; [done|]. split; [vm_compute; discriminate|]. repeat constructor; vm_compute; discriminate. } { vm_compute. discriminate. }
  exists k, r1, ks, r'. split; [exact E1|]. split; [exact E2|exact E].
Defined.

Definition long_arg : list byte := repeat (z2b 120) (Z.to_nat 66000).

Example pipelined_request_refused_witness :
  refused zero_junk (processMultibulkBuffer zero_junk (set_reqtype (client_of (cut_request long_arg)) REDIS_REQ_MULTIBULK) idle_server) idle_server false
    (text "Protocol error: too big bulk count string") (text "$").
Proof.
  assert (Z.of_nat (length long_arg) = 66000) as Hl by (unfold long_arg; rewrite repeat_length; apply Z2Nat.id; lia).
  apply (pipelined_request_refused zero_junk (set_reqtype (client_of (cut_request long_arg)) REDIS_REQ_MULTIBULK) idle_server long_arg (text "hello")).
  - rewrite Hl. lia.
  - unfold arg_ok. rewrite Hl. lia.
  - vm_compute. discriminate.
  - exact idle_ok.
  - apply client_of_multi. unfold cut_request, enc_bulk. rewrite !length_app. cbn [length crlf]. pose proof (header_length "$"%byte (length long_arg)). change (length (header "*" 2)) with 2%nat. lia.
Defined.
