(* ===== verification/Reply.v ===== *)
(** Reply: the output buffers of [networking.c]: the static buffer, the list
    of objects behind it, deferred lengths, the limits on their size, and the
    handler that writes them to the socket. *)
From Stdlib Require Strings.String.
From S2P Require Import Prelude Util UtilNum Sds Adlist Objects.
From S2P Require Request.
Import (notations) Corelib.Init.Byte.
Import (notations) Strings.String.
Abbreviation text s := (Strings.String.list_byte_of_string s%string).

Definition REDIS_REPLY_CHUNK_BYTES : Z := 16 * 1024.
Definition REDIS_MAX_WRITE_PER_EVENT : Z := 1024 * 64.
Definition REDIS_SHARED_BULKHDR_LEN : Z := 32.
Definition REDIS_SLAVE : Z := Z.shiftl 1 0.
Definition REDIS_MASTER : Z := Z.shiftl 1 1.
Definition REDIS_LUA_CLIENT : Z := Z.shiftl 1 8.
Definition REDIS_CLOSE_ASAP : Z := Z.shiftl 1 10.
Definition REDIS_REPL_NONE : Z := 0.
Definition REDIS_REPL_ONLINE : Z := 6.
Definition REDIS_CLIENT_LIMIT_CLASS_NORMAL : Z := 0.
Definition REDIS_CLIENT_LIMIT_CLASS_SLAVE : Z := 1.
Definition REDIS_CLIENT_LIMIT_CLASS_PUBSUB : Z := 2.

(** A pointer to an object, and to a client. *)
Abbreviation loc := positive.
Abbreviation cid := positive.

(** [shared]: the objects the replies are made of. *)
Record sharedObjects := SharedObjects {
  crlf : loc; ok : loc; czero : loc; cone : loc; nullbulk : loc; nullmultibulk : loc; queued : loc;
  nokeyerr : loc; sameobjecterr : loc; outofrangeerr : loc; loadingerr : loc; slowscripterr : loc;
  masterdownerr : loc; bgsaveerr : loc; roslaveerr : loc; oomerr : loc; execaborterr : loc;
  emptybulk : loc; wrongtypeerr : loc; syntaxerr : loc; colon : loc;
  messagebulk : loc; pmessagebulk : loc; subscribebulk : loc; unsubscribebulk : loc; psubscribebulk : loc; punsubscribebulk : loc;
  mbulkhdr : list loc; bulkhdr : list loc }.

Record clientBufferLimitsConfig := BufferLimits {
  hard_limit_bytes : Z; soft_limit_bytes : Z; soft_limit_seconds : Z }.

(** The output side of a client. [handler] tells whether the event loop has
    [sendReplyToClient] for its socket; [pubsub] counts its channels and
    patterns. *)
Record outClient := OutClient {
  id : cid; fd : Z; cflags : Z; replstate : Z; pubsub : Z;
  buf : list byte; bufpos : Z; reply : list_ loc; reply_bytes : Z; sentlen : Z;
  obuf_soft_limit_reached_time : Z; lastinteraction : Z; handler : bool }.

(** The rest: the nodes of the lists, the objects, the clients and those to
    close, the clock, the limits and the memory; whether the event loop takes
    a new handler for a descriptor; the bytes the socket has taken. *)
Record server := Server {
  cells : heap loc; objs : gmap loc robj; clients : list cid; clients_to_close : list cid;
  unixtime : Z; client_obuf_limits : list clientBufferLimitsConfig;
  maxmemory : Z; used_memory : Z; ae_accepts : Z -> bool; socket : list byte }.

Implicit Types (c : outClient) (w : server) (p o : loc).

Definition set_flags c (f : Z) : outClient :=
  OutClient (id c) (fd c) f (replstate c) (pubsub c) (buf c) (bufpos c) (reply c) (reply_bytes c) (sentlen c)
    (obuf_soft_limit_reached_time c) (lastinteraction c) (handler c).
Definition set_buf c (b : list byte) (pos : Z) : outClient :=
  OutClient (id c) (fd c) (cflags c) (replstate c) (pubsub c) b pos (reply c) (reply_bytes c) (sentlen c)
    (obuf_soft_limit_reached_time c) (lastinteraction c) (handler c).
Definition set_reply c (l : list_ loc) : outClient :=
  OutClient (id c) (fd c) (cflags c) (replstate c) (pubsub c) (buf c) (bufpos c) l (reply_bytes c) (sentlen c)
    (obuf_soft_limit_reached_time c) (lastinteraction c) (handler c).
Definition set_reply_bytes c (n : Z) : outClient :=
  OutClient (id c) (fd c) (cflags c) (replstate c) (pubsub c) (buf c) (bufpos c) (reply c) n (sentlen c)
    (obuf_soft_limit_reached_time c) (lastinteraction c) (handler c).
Definition set_sentlen c (n : Z) : outClient :=
  OutClient (id c) (fd c) (cflags c) (replstate c) (pubsub c) (buf c) (bufpos c) (reply c) (reply_bytes c) n
    (obuf_soft_limit_reached_time c) (lastinteraction c) (handler c).
Definition set_soft_time c (t : Z) : outClient :=
  OutClient (id c) (fd c) (cflags c) (replstate c) (pubsub c) (buf c) (bufpos c) (reply c) (reply_bytes c) (sentlen c)
    t (lastinteraction c) (handler c).
Definition set_lastinteraction c (t : Z) : outClient :=
  OutClient (id c) (fd c) (cflags c) (replstate c) (pubsub c) (buf c) (bufpos c) (reply c) (reply_bytes c) (sentlen c)
    (obuf_soft_limit_reached_time c) t (handler c).
Definition set_handler c (b : bool) : outClient :=
  OutClient (id c) (fd c) (cflags c) (replstate c) (pubsub c) (buf c) (bufpos c) (reply c) (reply_bytes c) (sentlen c)
    (obuf_soft_limit_reached_time c) (lastinteraction c) b.

Definition set_cells w (h : heap loc) : server :=
  Server h (objs w) (clients w) (clients_to_close w) (unixtime w) (client_obuf_limits w) (maxmemory w) (used_memory w)
    (ae_accepts w) (socket w).
Definition set_objs w (os : gmap loc robj) : server :=
  Server (cells w) os (clients w) (clients_to_close w) (unixtime w) (client_obuf_limits w) (maxmemory w) (used_memory w)
    (ae_accepts w) (socket w).
Definition set_clients w (cs : list cid) : server :=
  Server (cells w) (objs w) cs (clients_to_close w) (unixtime w) (client_obuf_limits w) (maxmemory w) (used_memory w)
    (ae_accepts w) (socket w).
Definition set_to_close w (cs : list cid) : server :=
  Server (cells w) (objs w) (clients w) cs (unixtime w) (client_obuf_limits w) (maxmemory w) (used_memory w)
    (ae_accepts w) (socket w).
Definition set_socket w (bs : list byte) : server :=
  Server (cells w) (objs w) (clients w) (clients_to_close w) (unixtime w) (client_obuf_limits w) (maxmemory w) (used_memory w)
    (ae_accepts w) bs.

(** ** Objects behind pointers *)

Definition load_obj w p : option robj := objs w !! p.
Definition store_obj w p (x : robj) : server := set_objs w (<[p := x]> (objs w)).

(** [createObject] and the constructors built on it, on the heap. *)
Definition new_obj w (x : robj) : loc * server :=
  let p := fresh (dom (objs w)) in (p, store_obj w p x).

Definition incr w p : option server := x ← load_obj w p; x ← incrRefCount x; Some (store_obj w p x).
Definition decr w p : option server :=
  x ← load_obj w p;
  r ← decrRefCount x;
  Some (match r with Some x => store_obj w p x | None => set_objs w (delete p (objs w)) end).

(** [o->ptr != NULL], and [o->ptr] as a string. *)
Definition ptr_null (x : robj) : bool := match ptr x with PLong v => v =? 0 | PSds _ => false end.
Definition sds_at w p : option sdshdr := x ← load_obj w p; ptr_sds x.
Definition set_ptr w p (s : sdshdr) : option server :=
  x ← load_obj w p; Some (store_obj w p (Robj (type x) (encoding x) (PSds s) (refcount x))).

(** ** The nodes of the reply list *)

Definition node_value w (n : option Adlist.ptr) : option loc := x ← load (cells w) n; Some (value x).
Definition set_node_value w (n : option Adlist.ptr) p : option server :=
  n ← n; x ← nodes (cells w) !! n;
  Some (set_cells w (Heap (<[n := ListNode (prev x) (next x) p]> (nodes (cells w))) (freed (cells w)))).

Definition add_tail c w p : option (outClient * server) :=
  '(l, h) ← listAddNodeTail (reply c) (cells w) p; Some (set_reply c l, set_cells w h).

(** The calls of the list's free method, [decrRefCount]. *)
Fixpoint release_all w (ps : list loc) : option server :=
  match ps with
  | [] => Some w
  | p :: ps => w ← decr w p; release_all w ps
  end.
Definition run_frees w : option server :=
  let ps := rev (freed (cells w)) in release_all (set_cells w (Heap (nodes (cells w)) [])) ps.

Definition del_node c w (n : option Adlist.ptr) : option (outClient * server) :=
  n ← n;
  '(l, h) ← listDelNode (reply c) (cells w) n;
  w ← run_frees (set_cells w h);
  Some (set_reply c l, w).

Section Reply.
(** Unwritten memory, the bytes the allocator reports for a block of a given
    requested size, and the shared objects. *)
Context (junk : nat -> byte) (zmalloc_size : Z -> Z) (shared : sharedObjects).
Implicit Types (s : sdshdr) (bs : list byte).

(** The block of a string is its header and its buffer. *)
Definition zmalloc_size_sds s : Z := zmalloc_size (sizeof_sdshdr + Z.of_nat (length (sh_buf s))).

Definition new_string w bs (len : Z) : option (loc * server) :=
  x ← createStringObject junk bs len; Some (new_obj w x).

(** [createObject(REDIS_STRING,sdsnew(init))], [init] a C string, and
    [createObject(REDIS_STRING,sdscatprintf(sdsempty(),...))]. *)
Definition shared_string w (init : list byte) : option (loc * server) :=
  s ← sdsnew junk (Some (init ++ [z2b 0])); Some (new_obj w (createObject REDIS_STRING (PSds s))).
Definition shared_format w (msg : list byte) : option (loc * server) :=
  s ← sdsempty junk; s ← sdscatprintf junk s msg; Some (new_obj w (createObject REDIS_STRING (PSds s))).

(** [createStringObject(init,len)] *)
Definition shared_literal w (init : list byte) (len : Z) : option (loc * server) := new_string w (init ++ [z2b 0]) len.

(** The last loop, from [j]. *)
Fixpoint shared_headers (n : nat) (j : Z) w : option (list loc * list loc * server) :=
  match n with
  | O => Some ([], [], w)
  | S n =>
    '(m, w) ← shared_format w (text "*" ++ print_int j ++ [z2b 13; z2b 10]);
    '(b, w) ← shared_format w (text "$" ++ print_int j ++ [z2b 13; z2b 10]);
    '(ms, bs, w) ← shared_headers n (j + 1) w;
    Some (m :: ms, b :: bs, w)
  end.

(** The part of the function that makes these objects. *)
Definition createSharedObjects w : option (sharedObjects * server) :=
  '(crlf, w) ← shared_string w [z2b 13; z2b 10];
  '(ok, w) ← shared_string w (text "+OK" ++ [z2b 13; z2b 10]);
  '(emptybulk, w) ← shared_string w (text "$0" ++ [z2b 13; z2b 10; z2b 13; z2b 10]);
  '(czero, w) ← shared_string w (text ":0" ++ [z2b 13; z2b 10]);
  '(cone, w) ← shared_string w (text ":1" ++ [z2b 13; z2b 10]);
  '(nullbulk, w) ← shared_string w (text "$-1" ++ [z2b 13; z2b 10]);
  '(nullmultibulk, w) ← shared_string w (text "*-1" ++ [z2b 13; z2b 10]);
  '(queued, w) ← shared_string w (text "+QUEUED" ++ [z2b 13; z2b 10]);
  '(wrongtypeerr, w) ← shared_string w (text "-ERR Operation against a key holding the wrong kind of value" ++ [z2b 13; z2b 10]);
  '(nokeyerr, w) ← shared_string w (text "-ERR no such key" ++ [z2b 13; z2b 10]);
  '(syntaxerr, w) ← shared_string w (text "-ERR syntax error" ++ [z2b 13; z2b 10]);
  '(sameobjecterr, w) ← shared_string w (text "-ERR source and destination objects are the same" ++ [z2b 13; z2b 10]);
  '(outofrangeerr, w) ← shared_string w (text "-ERR index out of range" ++ [z2b 13; z2b 10]);
  '(loadingerr, w) ← shared_string w (text "-LOADING Redis is loading the dataset in memory" ++ [z2b 13; z2b 10]);
  '(slowscripterr, w) ← shared_string w (text "-BUSY Redis is busy running a script. You can only call SCRIPT KILL or SHUTDOWN NOSAVE." ++ [z2b 13; z2b 10]);
  '(masterdownerr, w) ← shared_string w (text "-MASTERDOWN Link with MASTER is down and slave-serve-stale-data is set to 'no'." ++ [z2b 13; z2b 10]);
  '(bgsaveerr, w) ← shared_string w (text "-MISCONF Redis is configured to save RDB snapshots, but is currently not able to persist on disk. Commands that may modify the data set are disabled. Please check Redis logs for details about the error." ++ [z2b 13; z2b 10]);
  '(roslaveerr, w) ← shared_string w (text "-READONLY You can't write against a read only slave." ++ [z2b 13; z2b 10]);
  '(oomerr, w) ← shared_string w (text "-OOM command not allowed when used memory > 'maxmemory'." ++ [z2b 13; z2b 10]);
  '(execaborterr, w) ← shared_string w (text "-EXECABORT Transaction discarded because of previous errors." ++ [z2b 13; z2b 10]);
  '(colon, w) ← shared_string w (text ":");
  '(messagebulk, w) ← shared_literal w (text "$7" ++ [z2b 13; z2b 10] ++ text "message" ++ [z2b 13; z2b 10]) 13;
  '(pmessagebulk, w) ← shared_literal w (text "$8" ++ [z2b 13; z2b 10] ++ text "pmessage" ++ [z2b 13; z2b 10]) 14;
  '(subscribebulk, w) ← shared_literal w (text "$9" ++ [z2b 13; z2b 10] ++ text "subscribe" ++ [z2b 13; z2b 10]) 15;
  '(unsubscribebulk, w) ← shared_literal w (text "$11" ++ [z2b 13; z2b 10] ++ text "unsubscribe" ++ [z2b 13; z2b 10]) 18;
  '(psubscribebulk, w) ← shared_literal w (text "$10" ++ [z2b 13; z2b 10] ++ text "psubscribe" ++ [z2b 13; z2b 10]) 17;
  '(punsubscribebulk, w) ← shared_literal w (text "$12" ++ [z2b 13; z2b 10] ++ text "punsubscribe" ++ [z2b 13; z2b 10]) 19;
  '(ms, bs, w) ← shared_headers (Z.to_nat REDIS_SHARED_BULKHDR_LEN) 0 w;
  Some (SharedObjects crlf ok czero cone nullbulk nullmultibulk queued nokeyerr sameobjecterr outofrangeerr
    loadingerr slowscripterr masterdownerr bgsaveerr roslaveerr oomerr execaborterr
    emptybulk wrongtypeerr syntaxerr colon messagebulk pmessagebulk subscribebulk unsubscribebulk psubscribebulk punsubscribebulk ms bs, w).

(** A new client, as far as its output goes. *)
Definition createClient w (i : cid) (fd : Z) : outClient * server :=
  (OutClient i fd 0 REDIS_REPL_NONE 0 (map junk (seq 0 (Z.to_nat REDIS_REPLY_CHUNK_BYTES))) 0
     (List None None (Some Some) (Some (fun _ => tt)) None 0) 0 0 0 (unixtime w) false,
   if negb (fd =? -1) then set_clients w (clients w ++ [i]) else w).

(** ** Limits *)

Definition freeClientAsync c w : outClient * server :=
  if negb (Z.land (cflags c) REDIS_CLOSE_ASAP =? 0) then (c, w)
  else (set_flags c (Z.lor (cflags c) REDIS_CLOSE_ASAP), set_to_close w (clients_to_close w ++ [id c])).

(** [sizeof(listNode)+sizeof(robj)] is 24 + 16. *)
Definition getClientOutputBufferMemoryUsage c : Z := u64 (reply_bytes c + u64 (40 * listLength (reply c))).

Definition getClientLimitClass c : Z :=
  if negb (Z.land (cflags c) REDIS_SLAVE =? 0) then REDIS_CLIENT_LIMIT_CLASS_SLAVE
  else if negb (pubsub c =? 0) then REDIS_CLIENT_LIMIT_CLASS_PUBSUB
  else REDIS_CLIENT_LIMIT_CLASS_NORMAL.

Definition checkClientOutputBufferLimits c w : option (bool * outClient) :=
  let used_mem := getClientOutputBufferMemoryUsage c in
  lim ← client_obuf_limits w !! Z.to_nat (getClientLimitClass c);
  let hard := negb (hard_limit_bytes lim =? 0) && (hard_limit_bytes lim <=? used_mem) in
  let soft := negb (soft_limit_bytes lim =? 0) && (soft_limit_bytes lim <=? used_mem) in
  '(soft, c) ←
    (if soft then
       if obuf_soft_limit_reached_time c =? 0 then Some (false, set_soft_time c (unixtime w))
       else
         elapsed ← chk64 (unixtime w - obuf_soft_limit_reached_time c);
         Some (negb (elapsed <=? soft_limit_seconds lim), c)
     else Some (false, set_soft_time c 0));
  Some ((soft : bool) || hard, c).

(** [ULONG_MAX-(1024*64)] is asserted not to be reached. The message it logs
    is left out. *)
Definition asyncCloseClientOnOutputBufferLimitReached c w : option (outClient * server) :=
  if negb (reply_bytes c <? 2 ^ 64 - 1 - 1024 * 64) then None
  else if (reply_bytes c =? 0) || negb (Z.land (cflags c) REDIS_CLOSE_ASAP =? 0) then Some (c, w)
  else
    '(reached, c) ← checkClientOutputBufferLimits c w;
    if (reached : bool) then Some (freeClientAsync c w) else Some (c, w).

(** ** Low level functions *)

(** Whether the result is [REDIS_OK]. *)
Definition prepareClientToWrite c w : bool * outClient :=
  if negb (Z.land (cflags c) REDIS_LUA_CLIENT =? 0) then (true, c)
  else if fd c <=? 0 then (false, c)
  else if (bufpos c =? 0) && (listLength (reply c) =? 0) &&
          ((replstate c =? REDIS_REPL_NONE) || (replstate c =? REDIS_REPL_ONLINE)) then
    if ae_accepts w (fd c) then (true, set_handler c true) else (false, c)
  else (true, c).

(** The object at the tail, made the list's own. *)
Definition dupLastObjectIfNeeded c w : option (loc * server) :=
  if negb (0 <? listLength (reply c)) then None
  else
    let ln := tail (reply c) in
    cur ← node_value w ln;
    x ← load_obj w cur;
    w ← (if 1 <? refcount x then
           x ← dupStringObject junk x;
           let '(new, w) := new_obj w x in
           w ← decr w cur;
           set_node_value w ln new
         else Some w);
    v ← node_value w ln;
    Some (v, w).

Definition _addReplyToBuffer c bs : option (bool * outClient) :=
  let available := u64 (REDIS_REPLY_CHUNK_BYTES - bufpos c) in
  if negb (Z.land (cflags c) Request.REDIS_CLOSE_AFTER_REPLY =? 0) then Some (true, c)
  else if 0 <? listLength (reply c) then Some (false, c)
  else if available <? Z.of_nat (length bs) then Some (false, c)
  else
    b ← mem_write (buf c) (bufpos c) bs;
    Some (true, set_buf c b (s32 (u64 (bufpos c + Z.of_nat (length bs))))).

(** The tail of the list takes [bs] when it is a string and the two are not
    longer than a chunk. [from] is the object whose string [bs] is: it must
    not be the string that is extended. *)
Definition glue_tail c w (from : option loc) bs : option (option (outClient * server)) :=
  tl ← node_value w (tail (reply c));
  x ← load_obj w tl;
  if ptr_null x then Some None
  else
    s ← ptr_sds x;
    if u64 (sdslen s + Z.of_nat (length bs)) <=? REDIS_REPLY_CHUNK_BYTES then
      let c := set_reply_bytes c (u64 (reply_bytes c - zmalloc_size_sds s)) in
      '(tl, w) ← dupLastObjectIfNeeded c w;
      if bool_decide (from = Some tl) then None
      else
        s ← sds_at w tl;
        s ← sdscatlen junk s bs;
        w ← set_ptr w tl s;
        Some (Some (set_reply_bytes c (u64 (reply_bytes c + zmalloc_size_sds s)), w))
    else Some None.

(** [listAddNodeTail(c->reply,o)], the object being in the list's charge. *)
Definition append_obj c w o : option (outClient * server) :=
  '(c, w) ← add_tail c w o;
  s ← sds_at w o;
  Some (set_reply_bytes c (u64 (reply_bytes c + zmalloc_size_sds s)), w).

(** The three functions that add to the list, but for how they make the
    object of a new node. *)
Definition add_to_list c w (from : option loc) bs (make : server -> option (loc * server)) : option (outClient * server) :=
  if negb (Z.land (cflags c) Request.REDIS_CLOSE_AFTER_REPLY =? 0) then Some (c, w)
  else
    glued ← (if listLength (reply c) =? 0 then Some None else glue_tail c w from bs);
    '(c, w) ← (match glued with
               | Some cw => Some cw
               | None => '(o, w) ← make w; append_obj c w o
               end);
    asyncCloseClientOnOutputBufferLimitReached c w.

(** The bytes of a string object: [o->ptr], [sdslen(o->ptr)]. *)
Definition obj_bytes w o : option (list byte) := s ← sds_at w o; mem_read (sh_buf s) 0 (sdslen s).
Definition sds_bytes s : option (list byte) := mem_read (sh_buf s) 0 (sdslen s).

Definition _addReplyObjectToList c w o : option (outClient * server) :=
  bs ← obj_bytes w o;
  add_to_list c w (Some o) bs (fun w => w ← incr w o; Some (o, w)).

Definition _addReplySdsToList c w s : option (outClient * server) :=
  bs ← sds_bytes s;
  add_to_list c w None bs (fun w => Some (new_obj w (createObject REDIS_STRING (PSds s)))).

Definition _addReplyStringToList c w bs : option (outClient * server) :=
  add_to_list c w None bs (fun w => new_string w bs (Z.of_nat (length bs))).

(** ** Replies *)

Definition buffer_or_list (c : outClient) w bs (to_list : outClient -> server -> option (outClient * server)) :
    option (outClient * server) :=
  '(ok, c) ← _addReplyToBuffer c bs;
  if ok : bool then Some (c, w) else to_list c w.

Definition addReplyString c w bs : option (outClient * server) :=
  let '(ok, c) := prepareClientToWrite c w in
  if negb ok then Some (c, w) else buffer_or_list c w bs (fun c w => _addReplyStringToList c w bs).

Definition addReplySds c w s : option (outClient * server) :=
  let '(ok, c) := prepareClientToWrite c w in
  if negb ok then Some (c, w)
  else bs ← sds_bytes s; buffer_or_list c w bs (fun c w => _addReplySdsToList c w s).

Definition addReply c w obj : option (outClient * server) :=
  let '(ok, c) := prepareClientToWrite c w in
  if negb ok then Some (c, w)
  else
    x ← load_obj w obj;
    if encoding x =? REDIS_ENCODING_RAW then
      bs ← obj_bytes w obj;
      buffer_or_list c w bs (fun c w => _addReplyObjectToList c w obj)
    else if encoding x =? REDIS_ENCODING_INT then
      fast ← (if (listLength (reply c) =? 0) && (32 <=? u64 (REDIS_REPLY_CHUNK_BYTES - bufpos c)) then
                v ← ptr_long x;
                '(b, len) ← ll2string junk 32 v;
                bs ← mem_read b 0 len;
                '(ok, c) ← _addReplyToBuffer c bs;
                Some (ok, c)
              else Some (false, c));
      let '(done, c) := fast : bool * outClient in
      if done then Some (c, w)
      else
        x ← getDecodedObject junk x;
        let '(o, w) := new_obj w x in
        bs ← obj_bytes w o;
        '(c, w) ← buffer_or_list c w bs (fun c w => _addReplyObjectToList c w o);
        w ← decr w o;
        Some (c, w)
    else None.

Definition addReplyErrorLength c w bs : option (outClient * server) :=
  '(c, w) ← addReplyString c w (text "-ERR ");
  '(c, w) ← addReplyString c w bs;
  addReplyString c w [z2b 13; z2b 10].

(** [err] as a C string *)
Definition addReplyError c w (err : list byte) : option (outClient * server) := addReplyErrorLength c w (cstr err).

(** [msg] is what the format gives. *)
Definition addReplyErrorFormat c w (msg : list byte) : option (outClient * server) :=
  s ← sdsempty junk;
  s ← sdscatvprintf junk s msg;
  s ← map_chars s (fun x => if (x =? 13) || (x =? 10) then 32 else x);
  bs ← sds_bytes s;
  addReplyErrorLength c w bs.

Definition addReplyStatusLength c w bs : option (outClient * server) :=
  '(c, w) ← addReplyString c w (text "+");
  '(c, w) ← addReplyString c w bs;
  addReplyString c w [z2b 13; z2b 10].

Definition addReplyStatus c w (status : list byte) : option (outClient * server) := addReplyStatusLength c w (cstr status).

Definition addReplyStatusFormat c w (msg : list byte) : option (outClient * server) :=
  s ← sdsempty junk;
  s ← sdscatvprintf junk s msg;
  bs ← sds_bytes s;
  addReplyStatusLength c w bs.

(** The node of a length not known yet: its object has a null pointer. *)
Definition addDeferredMultiBulkLength c w : option (option Adlist.ptr * outClient * server) :=
  let '(ok, c) := prepareClientToWrite c w in
  if negb ok then Some (None, c, w)
  else
    let '(o, w) := new_obj w (createObject REDIS_STRING (PLong 0)) in
    '(c, w) ← add_tail c w o;
    Some (tail (reply c), c, w).

(** [if (ln->next != NULL)]: the string of the next node is glued to [s], the
    string of [len], when there is one. *)
Definition glue_next_node c w (len : loc) s (nx : option Adlist.ptr) : option (outClient * server) :=
  match nx with
  | None => Some (c, w)
  | Some _ =>
    n ← node_value w nx;
    x ← load_obj w n;
    if ptr_null x then Some (c, w)
    else
      t ← ptr_sds x;
      let c := set_reply_bytes c (u64 (reply_bytes c - zmalloc_size_sds s)) in
      let c := set_reply_bytes c (u64 (reply_bytes c - zmalloc_size_sds t)) in
      bs ← sds_bytes t;
      s ← sdscatlen junk s bs;
      w ← set_ptr w len s;
      let c := set_reply_bytes c (u64 (reply_bytes c + zmalloc_size_sds s)) in
      del_node c w nx
  end.

Definition setDeferredMultiBulkLength c w (node : option Adlist.ptr) (length : Z) : option (outClient * server) :=
  match node with
  | None => Some (c, w)
  | Some _ =>
    ln ← load (cells w) node;
    let len := value ln in
    s ← sdsempty junk;
    s ← sdscatprintf junk s (text "*" ++ print_int length ++ [z2b 13; z2b 10]);
    w ← set_ptr w len s;
    let c := set_reply_bytes c (u64 (reply_bytes c + zmalloc_size_sds s)) in
    '(c, w) ← glue_next_node c w len s (next ln);
    asyncCloseClientOnOutputBufferLimitReached c w
  end.

(** The value is [long long]; an index outside the array of shared headers is
    not allowed. *)
Definition addReplyLongLongWithPrefix c w (ll : Z) (prefix : byte) : option (outClient * server) :=
  if (b2z prefix =? chr "*") && (ll <? REDIS_SHARED_BULKHDR_LEN) then
    if ll <? 0 then None else o ← mbulkhdr shared !! Z.to_nat ll; addReply c w o
  else if (b2z prefix =? chr "$") && (ll <? REDIS_SHARED_BULKHDR_LEN) then
    if ll <? 0 then None else o ← bulkhdr shared !! Z.to_nat ll; addReply c w o
  else
    '(b, len) ← ll2string junk 127 ll;
    bs ← mem_read b 0 len;
    addReplyString c w ((prefix :: bs) ++ [z2b 13; z2b 10]).

Definition addReplyLongLong c w (ll : Z) : option (outClient * server) :=
  if ll =? 0 then addReply c w (czero shared)
  else if ll =? 1 then addReply c w (cone shared)
  else addReplyLongLongWithPrefix c w ll ":".

Definition addReplyMultiBulkLen c w (length : Z) : option (outClient * server) :=
  addReplyLongLongWithPrefix c w length "*".

(** [while((n = n/10) != 0) len++;] *)
Fixpoint count_digits (fuel : nat) (n len : Z) : option Z :=
  match fuel with
  | O => None
  | S fuel => let n := n ÷ 10 in if n =? 0 then Some len else count_digits fuel n (len + 1)
  end.

Definition addReplyBulkLen c w obj : option (outClient * server) :=
  x ← load_obj w obj;
  len ← (if encoding x =? REDIS_ENCODING_RAW then s ← ptr_sds x; Some (sdslen s)
         else
           n ← ptr_long x;
           '(len, n) ← (if n <? 0 then n ← chk64 (- n); Some (2, n) else Some (1, n));
           count_digits 20 n len);
  addReplyLongLongWithPrefix c w (s64 len) "$".

Definition addReplyBulk c w obj : option (outClient * server) :=
  '(c, w) ← addReplyBulkLen c w obj;
  '(c, w) ← addReply c w obj;
  addReply c w (crlf shared).

Definition addReplyBulkCBuffer c w bs : option (outClient * server) :=
  '(c, w) ← addReplyLongLongWithPrefix c w (Z.of_nat (length bs)) "$";
  '(c, w) ← addReplyString c w bs;
  addReply c w (crlf shared).

(** [None] is the null pointer. *)
Definition addReplyBulkCString c w (str : option (list byte)) : option (outClient * server) :=
  match str with
  | None => addReply c w (nullbulk shared)
  | Some str => addReplyBulkCBuffer c w (cstr str)
  end.

Definition addReplyBulkLongLong c w (ll : Z) : option (outClient * server) :=
  '(b, len) ← ll2string junk 64 ll;
  bs ← mem_read b 0 len;
  addReplyBulkCBuffer c w bs.

(** [listDelNode(l,listSearchKey(l,c))], which asserts that the client is on
    the list. *)
Fixpoint del_client (i : cid) (cs : list cid) : option (list cid) :=
  match cs with
  | [] => None
  | j :: cs => if bool_decide (i = j) then Some cs else cs ← del_client i cs; Some (j :: cs)
  end.

(** ** Closing a client

    The part of [freeClient] on this state: the handlers are removed, the
    reply list is released, and the client leaves the lists it is on; it must
    be on them. *)
Definition freeClient c w : option server :=
  h ← listRelease (reply c) (cells w);
  w ← run_frees (set_cells w h);
  cs ← del_client (id c) (clients w);
  let w := set_clients w cs in
  if negb (Z.land (cflags c) REDIS_CLOSE_ASAP =? 0) then
    cs ← del_client (id c) (clients_to_close w); Some (set_to_close w cs)
  else Some w.

(** Over the store of the clients. *)
Fixpoint free_queue (fuel : nat) (cs : gmap cid outClient) w : option (gmap cid outClient * server) :=
  match clients_to_close w with
  | [] => Some (cs, w)
  | i :: rest =>
    match fuel with
    | O => None
    | S fuel =>
      c ← cs !! i;
      let c := set_flags c (Z.land (cflags c) (Z.lnot REDIS_CLOSE_ASAP)) in
      w ← freeClient c w;
      free_queue fuel (delete i cs) (set_to_close w (drop 1 (clients_to_close w)))
    end
  end.

Definition freeClientsInAsyncFreeQueue (cs : gmap cid outClient) w : option (gmap cid outClient * server) :=
  free_queue (length (clients_to_close w)) cs w.

(** ** Writing to the socket *)

(** What [write] does: it takes at most [n] bytes, or fails, with [EAGAIN] or
    another error. *)
Inductive write_result := Takes (n : nat) | Fails (again : bool).

(** The result of [write(fd,bs)], and whether [errno] is [EAGAIN]. *)
Definition write w bs (r : write_result) : Z * bool * server :=
  match r with
  | Takes n => (Z.of_nat (length (take n bs)), false, set_socket w (socket w ++ take n bs))
  | Fails again => (-1, again, w)
  end.

(** [nwritten]: all of [bs] for a master, which is sent nothing; otherwise
    the result of the next [write]. A socket that has no more results to give
    is not ready. *)
Definition transmit c w bs (ws : list write_result) : Z * bool * server * list write_result :=
  if negb (Z.land (cflags c) REDIS_MASTER =? 0) then (Z.of_nat (length bs), false, w, ws)
  else
    let '(n, again, w) := write w bs (default (Fails true) (ws !! 0%nat)) in
    (n, again, w, drop 1 ws).

(** How an iteration ends: it leaves the loop, goes on at its top, or goes on
    after having written. *)
Inductive send_res :=
  | SendBreak (nwritten : Z) (again : bool) c w
  | SendNext (nwritten totwritten : Z) c w (ws : list write_result).

(** What follows a write: the limit for one event. *)
Definition send_more c w (ws : list write_result) (nwritten totwritten : Z) : (Z * send_res) :=
  if (REDIS_MAX_WRITE_PER_EVENT <? totwritten) && ((maxmemory w =? 0) || (used_memory w <? maxmemory w)) then
    (totwritten, SendBreak nwritten false c w)
  else (totwritten, SendNext nwritten totwritten c w ws).

(** The body of the loop, with the bytes written so far. *)
Definition send_step c w (ws : list write_result) (nwritten totwritten : Z) : option (Z * send_res) :=
  let master := negb (Z.land (cflags c) REDIS_MASTER =? 0) in
  if 0 <? bufpos c then
    bs ← mem_read (buf c) (sentlen c) (bufpos c - sentlen c);
    let '(nwritten, again, w, ws) := transmit c w bs ws in
    if negb master && (nwritten <=? 0) then Some (totwritten, SendBreak nwritten again c w)
    else
      sent ← chk32 (sentlen c + nwritten);
      totwritten ← chk32 (totwritten + nwritten);
      let c := if sent =? bufpos c then set_sentlen (set_buf c (buf c) 0) 0 else set_sentlen c sent in
      Some (send_more c w ws nwritten totwritten)
  else
    o ← node_value w (Adlist.head (reply c));
    s ← sds_at w o;
    let objlen := s32 (sdslen s) in
    let objmem := zmalloc_size_sds s in
    if objlen =? 0 then
      '(c, w) ← del_node c w (Adlist.head (reply c));
      Some (totwritten, SendNext nwritten totwritten c w ws)
    else
      bs ← mem_read (sh_buf s) (sentlen c) (objlen - sentlen c);
      let '(nwritten, again, w, ws) := transmit c w bs ws in
      if negb master && (nwritten <=? 0) then Some (totwritten, SendBreak nwritten again c w)
      else
        sent ← chk32 (sentlen c + nwritten);
        totwritten ← chk32 (totwritten + nwritten);
        '(c, w) ←
          (if sent =? objlen then
             '(c, w) ← del_node c w (Adlist.head (reply c));
             Some (set_reply_bytes (set_sentlen c 0) (u64 (reply_bytes c - objmem)), w)
           else Some (set_sentlen c sent, w));
        Some (send_more c w ws nwritten totwritten).

Fixpoint send_loop (fuel : nat) c w (ws : list write_result) (nwritten totwritten : Z) :
    option (outClient * server * Z * Z * bool) :=
  match fuel with
  | O => None
  | S fuel =>
    if (0 <? bufpos c) || negb (listLength (reply c) =? 0) then
      '(tot, r) ← send_step c w ws nwritten totwritten;
      match r with
      | SendBreak n again c w => Some (c, w, n, tot, again)
      | SendNext n tot c w ws => send_loop fuel c w ws n tot
      end
    else Some (c, w, nwritten, totwritten, false)
  end.

(** The handler of a socket that can be written; [None] for a client that was
    closed. Each iteration uses a result of [write] or deletes a node. *)
Definition sendReplyToClient c w (ws : list write_result) : option (option outClient * server) :=
  '(c, w, nwritten, totwritten, again) ← send_loop (length ws + Z.to_nat (listLength (reply c)) + 3) c w ws 0 0;
  if (nwritten =? -1) && negb again then w ← freeClient c w; Some (None, w)
  else
    let c := if 0 <? totwritten then set_lastinteraction c (unixtime w) else c in
    if (bufpos c =? 0) && (listLength (reply c) =? 0) then
      let c := set_handler (set_sentlen c 0) false in
      if negb (Z.land (cflags c) Request.REDIS_CLOSE_AFTER_REPLY =? 0) then w ← freeClient c w; Some (None, w)
      else Some (Some c, w)
    else Some (Some c, w).

End Reply.
