(* ===== verification/ReplyProofs.v ===== *)
(** ReplyProofs: the invariant of the output buffers: who holds which object,
    what each node of the reply list contributes to the output, and what the
    functions that add to the buffers do. *)
From S2P Require Import Prelude Util UtilNum UtilSpec Sds SdsProofs SdsMore Adlist AdlistProofs AdlistSpec Objects ObjectsSpec Reply.
Import (notations) Corelib.Init.Byte.

(** ** Counting references *)

Definition occ (p : loc) (vs : list loc) : Z := Z.of_nat (count_occ Pos.eq_dec vs p).

Lemma occ_nonneg p vs : 0 <= occ p vs. Proof. unfold occ. lia. Qed.
Lemma occ_app p vs us : occ p (vs ++ us) = occ p vs + occ p us.
Proof. unfold occ. rewrite count_occ_app. lia. Qed.
Lemma occ_one p q : occ p [q] = if decide (p = q) then 1 else 0.
Proof. unfold occ. cbn. destruct (Pos.eq_dec q p), (decide (p = q)); congruence || done. Qed.
Lemma occ_in p vs : p ∈ vs <-> 0 < occ p vs.
Proof. unfold occ. rewrite list_elem_of_In, (count_occ_In Pos.eq_dec). lia. Qed.
Lemma occ_not_in p vs : p ∉ vs -> occ p vs = 0.
Proof. rewrite occ_in. pose proof (occ_nonneg p vs). lia. Qed.
Lemma occ_length p vs : occ p vs <= Z.of_nat (length vs).
Proof. unfold occ. pose proof (count_occ_bound Pos.eq_dec p vs). lia. Qed.
Lemma occ_middle p l v r : occ p (l ++ v :: r) = occ p l + occ p [v] + occ p r.
Proof. change (v :: r) with ([v] ++ r). rewrite !occ_app. lia. Qed.
Lemma occ_delete p vs k v : vs !! k = Some v -> occ p (delete k vs) = occ p vs - occ p [v].
Proof.
  intros Hk. pose proof (f_equal (occ p) (take_drop_middle _ _ _ Hk)) as E. rewrite occ_middle in E.
  rewrite delete_take_drop, occ_app. lia.
Qed.
Lemma occ_insert p vs k v u : vs !! k = Some v -> occ p (<[k:=u]> vs) = occ p vs - occ p [v] + occ p [u].
Proof.
  intros Hk. pose proof (f_equal (occ p) (take_drop_middle _ _ _ Hk)) as E. rewrite occ_middle in E.
  rewrite insert_take_drop, occ_middle by by eapply lookup_lt_Some. lia.
Qed.
Lemma occ_once vs k v : vs !! k = Some v -> occ v vs = 1 -> forall j, vs !! j = Some v -> j = k.
Proof.
  intros Hk H1 j Hj. destruct (decide (j = k)) as [->|Hne]; [done|].
  assert (v ∈ delete k vs) as Hin.
  { destruct (decide (j < k)%nat).
    - apply list_elem_of_lookup. exists j. by rewrite list_lookup_delete_lt.
    - destruct j as [|j]; [lia|]. apply list_elem_of_lookup. exists j. by rewrite list_lookup_delete_ge by lia. }
  apply occ_in in Hin. rewrite (occ_delete _ _ _ _ Hk), occ_one, decide_True in Hin by done. lia.
Qed.

(** ** The store of objects *)

Section Store.
Implicit Types (os : gmap loc robj) (n ext : loc -> Z) (p : loc).

(** Every object is counted: [n p] references to [p] exist. *)
Record counts os n : Prop := {
  ct_alive : forall p, 0 < n p -> is_Some (os !! p);
  ct_count : forall p x, os !! p = Some x -> refcount x = n p /\ 0 < n p < 2 ^ 31 /\ type x = REDIS_STRING }.

Lemma counts_ext os n n' : counts os n -> (forall p, n p = n' p) -> counts os n'.
Proof. intros [Ha Hc] E. split; intros p; rewrite <-E; [apply Ha|apply Hc]. Qed.

(** Nothing but the reference count changed. *)
Definition same_object (x y : robj) : Prop := type y = type x /\ encoding y = encoding x /\ ptr y = ptr x.

Lemma counts_incr os n p x :
  counts os n -> os !! p = Some x -> n p + 1 < 2 ^ 31 ->
  exists y, incrRefCount x = Some y /\ same_object x y /\ refcount y = refcount x + 1 /\
    counts (<[p := y]> os) (fun q => n q + occ q [p]).
Proof.
  intros [Ha Hc] Hx Hn. destruct (Hc p x Hx) as (Hr & Hp & Ht). unfold incrRefCount. rewrite chk32_ok by lia.
  eexists. split; [reflexivity|]. split; [done|]. split; [done|]. split.
  - intros q Hq. destruct (decide (q = p)) as [->|Hne]; [by rewrite lookup_insert_eq|].
    rewrite lookup_insert_ne by done. apply Ha. rewrite occ_one, decide_False in Hq by done. lia.
  - intros q z Hz. rewrite occ_one. apply lookup_insert_Some in Hz as [(<- & <-)|(Hne & Hz)].
    + rewrite decide_True by done. cbn. split; [lia|]. split; [lia|done].
    + rewrite decide_False by done. rewrite Z.add_0_r. by apply Hc.
Qed.

Lemma counts_new os n x :
  counts os n -> refcount x = 1 -> type x = REDIS_STRING -> (forall p, 0 <= n p) ->
  let p := fresh (dom os) in
  os !! p = None /\ n p = 0 /\ counts (<[p := x]> os) (fun q => n q + occ q [p]).
Proof.
  intros [Ha Hc] Hx Ht Hn p. assert (os !! p = None) as Hp by apply not_elem_of_dom, is_fresh.
  assert (n p = 0) as H0.
  { pose proof (Hn p). destruct (decide (0 < n p)) as [Hlt|]; [|lia]. destruct (Ha p Hlt) as [? E]. congruence. }
  split; [done|]. split; [done|]. split.
  - intros q Hq. destruct (decide (q = p)) as [->|Hne]; [by rewrite lookup_insert_eq|].
    rewrite lookup_insert_ne by done. apply Ha. rewrite occ_one, decide_False in Hq by done. lia.
  - intros q z Hz. rewrite occ_one. apply lookup_insert_Some in Hz as [(<- & <-)|(Hne & Hz)].
    + rewrite decide_True, H0 by done. split; [lia|]. split; [lia|done].
    + rewrite decide_False by done. rewrite Z.add_0_r. by apply Hc.
Qed.

(** Dropping a reference: the object goes with the last one. *)
Lemma counts_decr os n p :
  counts os n -> 0 < n p ->
  exists x r, os !! p = Some x /\ decrRefCount x = Some r /\
    let os' := match r with Some y => <[p := y]> os | None => delete p os end in
    counts os' (fun q => n q - occ q [p]) /\
    (forall q, q <> p -> os' !! q = os !! q) /\
    (1 < n p -> exists y, os' !! p = Some y /\ same_object x y).
Proof.
  intros [Ha Hc] Hp. destruct (Ha p Hp) as [x Hx]. destruct (Hc p x Hx) as (Hr & Hb & Ht). exists x.
  unfold decrRefCount. rewrite (proj2 (Z.leb_gt (refcount x) 0)) by lia. destruct (Z.eqb_spec (refcount x) 1) as [H1|H1].
  - rewrite Ht. exists None. split; [done|]. split; [done|]. cbv zeta. split; [|split; [by intros q Hq; rewrite lookup_delete_ne by done|lia]]. split.
    + intros q. rewrite occ_one. destruct (decide (q = p)) as [->|Hne]; [lia|]. intros Hq. rewrite lookup_delete_ne by done. apply Ha. lia.
    + intros q z [Hne Hz]%lookup_delete_Some. rewrite occ_one, decide_False, Z.sub_0_r by done. by apply Hc.
  - rewrite chk32_ok by lia. eexists (Some _). split; [done|]. split; [reflexivity|]. cbv zeta.
    split; [|split; [by intros q Hq; rewrite lookup_insert_ne by done|intros _; eexists; by rewrite lookup_insert_eq]]. split.
    + intros q. rewrite occ_one. destruct (decide (q = p)) as [->|Hne]; intros Hq; [by rewrite lookup_insert_eq|].
      rewrite lookup_insert_ne by done. apply Ha. lia.
    + intros q z Hz. rewrite occ_one. apply lookup_insert_Some in Hz as [(<- & <-)|(Hne & Hz)].
      * rewrite decide_True by done. cbn. split; [lia|]. split; [lia|done].
      * rewrite decide_False by done. rewrite Z.sub_0_r. by apply Hc.
Qed.

Lemma counts_put os n p x y :
  counts os n -> os !! p = Some x -> type y = type x -> refcount y = refcount x -> counts (<[p := y]> os) n.
Proof.
  intros [Ha Hc] Hx Ht Hr. split.
  - intros q Hq. destruct (decide (q = p)) as [->|Hne]; [by rewrite lookup_insert_eq|]. rewrite lookup_insert_ne by done. by apply Ha.
  - intros q z Hz. apply lookup_insert_Some in Hz as [(<- & <-)|(Hne & Hz)]; [|by apply Hc].
    rewrite Hr, Ht. by apply Hc.
Qed.

(** *** What the nodes contribute *)

Inductive item := Str (bs : list byte) | Hole.

Definition null_obj : robj := Robj REDIS_STRING REDIS_ENCODING_RAW (PLong 0) 1.

(** The object of a node: a string, or the place of a length not known yet. *)
Definition item_of (x : robj) (it : item) : Prop :=
  match it with
  | Str bs => encoding x = REDIS_ENCODING_RAW /\ exists s, ptr x = PSds s /\ sds_rep s bs
  | Hole => x = null_obj
  end.

Definition node_ok os p (it : item) : Prop := exists x, os !! p = Some x /\ item_of x it.

Lemma item_same x y it : same_object x y -> refcount y = refcount x \/ it <> Hole -> item_of x it -> item_of y it.
Proof.
  intros (Ht & He & Hp) Hh. destruct it as [bs|]; cbn.
  - rewrite He, Hp. done.
  - intros ->. destruct Hh as [Hr|]; [|done]. destruct y; cbn in *; subst; done.
Qed.

(** Nothing changes in the nodes when their objects do not. *)
Lemma nodes_frame os os' vs its :
  Forall2 (node_ok os) vs its -> (forall p, p ∈ vs -> os' !! p = os !! p) -> Forall2 (node_ok os') vs its.
Proof.
  induction 1 as [|p it vs its (x & Hx & Hi) _ IH]; intros Hf; constructor.
  - exists x. split; [|done]. rewrite Hf; [done|by left].
  - apply IH. intros q Hq. apply Hf. by right.
Qed.

(** A string keeps its place when its count changes. *)
Lemma nodes_recount os p x y vs its :
  Forall2 (node_ok os) vs its -> os !! p = Some x -> same_object x y -> (x <> null_obj \/ (p ∉ vs)) -> Forall2 (node_ok (<[p := y]> os)) vs its.
Proof.
  intros Hn Hx Hs Hh. induction Hn as [|q it vs its (z & Hz & Hi) _ IH]; constructor.
  - destruct (decide (q = p)) as [->|Hne].
    + exists y. rewrite lookup_insert_eq. split; [done|]. assert (z = x) as -> by congruence.
      destruct it as [bs|]; [eapply item_same; [done|by right|done]|]. cbn in Hi. destruct Hh as [Hh|Hh]; [done|]. exfalso. apply Hh. by left.
    + exists z. by rewrite lookup_insert_ne.
  - apply IH. destruct Hh as [Hh|Hh]; [by left|right]. intros Hin. apply Hh. by right.
Qed.
End Store.

(** ** The state of the output *)

Definition lua c : bool := Z.testbit (cflags c) 8.
Definition dropping c : bool := Z.testbit (cflags c) 6.
Definition master c : bool := Z.testbit (cflags c) 1.
Definition asap c : bool := Z.testbit (cflags c) 10.
Definition online c : bool := (replstate c =? REDIS_REPL_NONE) || (replstate c =? REDIS_REPL_ONLINE).

(** Whether what is added goes to the buffers. *)
Definition takes c : bool := (lua c || (0 <? fd c)) && negb (dropping c).

(** The output: bytes, and the lengths not known yet, named by their nodes. *)
Abbreviation out := (byte + Adlist.ptr)%type.
Definition bytes (bs : list byte) : list out := inl <$> bs.
Definition item_out (p : Adlist.ptr) (it : item) : list out := match it with Str bs => bytes bs | Hole => [inr p] end.
Definition items (ps : list Adlist.ptr) (its : list item) : list out := concat (zip_with item_out ps its).
Definition stream c (ps : list Adlist.ptr) (its : list item) : list out :=
  drop (Z.to_nat (sentlen c)) (bytes (take (Z.to_nat (bufpos c)) (buf c)) ++ items ps its).

(** What was sent is part of the buffer, or of the string at the head. *)
Definition sent_ok (pos sent : Z) (its : list item) : Prop :=
  sent = 0 \/ 0 <= sent < pos \/ (pos = 0 /\ exists bs r, its = Str bs :: r /\ 0 <= sent < Z.of_nat (length bs)).

Lemma bytes_app bs cs : bytes (bs ++ cs) = bytes bs ++ bytes cs. Proof. apply fmap_app. Qed.
Lemma length_bytes bs : length (bytes bs) = length bs. Proof. apply length_fmap. Qed.

Lemma items_app ps qs its jts : length ps = length its -> items (ps ++ qs) (its ++ jts) = items ps its ++ items qs jts.
Proof. intros Hl. unfold items. by rewrite zip_with_app, concat_app. Qed.
Lemma items_one p it : items [p] [it] = item_out p it. Proof. unfold items. cbn. apply app_nil_r. Qed.

(** *** Flags *)

Lemma flag_test f k : 0 <= k -> negb (Z.land f (Z.shiftl 1 k) =? 0) = Z.testbit f k.
Proof.
  intros Hk. rewrite <-(negb_involutive (Z.testbit f k)). f_equal. apply eq_true_iff_eq. rewrite Z.eqb_eq, negb_true_iff, Z.shiftl_1_l. split.
  - intros E. apply (f_equal (fun z => Z.testbit z k)) in E. by rewrite Z.land_spec, Z.pow2_bits_true, andb_true_r, Z.bits_0 in E by done.
  - intros E. apply Z.bits_inj'. intros i Hi. rewrite Z.land_spec, Z.bits_0, Z.pow2_bits_eqb by done.
    destruct (Z.eqb_spec k i) as [<-|]; [by rewrite E|apply andb_false_r].
Qed.
Lemma lua_test c : negb (Z.land (cflags c) REDIS_LUA_CLIENT =? 0) = lua c. Proof. by apply (flag_test _ 8). Qed.
Lemma dropping_test c : negb (Z.land (cflags c) Request.REDIS_CLOSE_AFTER_REPLY =? 0) = dropping c. Proof. by apply (flag_test _ 6). Qed.
Lemma master_test c : negb (Z.land (cflags c) REDIS_MASTER =? 0) = master c. Proof. by apply (flag_test _ 1). Qed.
Lemma asap_test c : negb (Z.land (cflags c) REDIS_CLOSE_ASAP =? 0) = asap c. Proof. by apply (flag_test _ 10). Qed.

(** The same flags, but for [REDIS_CLOSE_ASAP]. *)
Definition same_flags (f g : Z) : Prop := forall k, k <> 10 -> Z.testbit g k = Z.testbit f k.

Lemma same_flags_asap f : same_flags f (Z.lor f REDIS_CLOSE_ASAP).
Proof.
  intros k Hk. rewrite Z.lor_spec. unfold REDIS_CLOSE_ASAP. destruct (Z.ltb_spec k 0); [by rewrite !Z.testbit_neg_r by done|].
  rewrite Z.shiftl_1_l, Z.pow2_bits_false by lia. apply orb_false_r.
Qed.
Lemma asap_set f : Z.testbit (Z.lor f REDIS_CLOSE_ASAP) 10 = true.
Proof. rewrite Z.lor_spec. apply orb_true_r. Qed.

(** What the functions that add to the buffers leave as it is. *)
Record steady c w c' w' : Prop := {
  st_id : id c' = id c; st_fd : fd c' = fd c; st_flags : same_flags (cflags c) (cflags c');
  st_repl : replstate c' = replstate c; st_pubsub : pubsub c' = pubsub c;
  st_last : lastinteraction c' = lastinteraction c;
  st_clients : clients w' = clients w; st_time : unixtime w' = unixtime w;
  st_limits : client_obuf_limits w' = client_obuf_limits w; st_max : maxmemory w' = maxmemory w;
  st_used : used_memory w' = used_memory w; st_ae : ae_accepts w' = ae_accepts w; st_sock : socket w' = socket w }.

Lemma steady_refl c w : steady c w c w. Proof. by constructor. Qed.
Lemma steady_trans c w c1 w1 c2 w2 : steady c w c1 w1 -> steady c1 w1 c2 w2 -> steady c w c2 w2.
Proof.
  intros [] []. constructor; try congruence. intros k Hk. by rewrite (st_flags1 k Hk), (st_flags0 k Hk).
Qed.
Lemma steady_takes c w c' w' : steady c w c' w' ->
  takes c' = takes c /\ dropping c' = dropping c /\ lua c' = lua c /\ master c' = master c /\ online c' = online c.
Proof.
  intros H. pose proof (st_flags _ _ _ _ H) as Hf. unfold takes, lua, dropping, master, online.
  rewrite (st_fd _ _ _ _ H), (st_repl _ _ _ _ H), !(Hf _) by lia. done.
Qed.

(** Objects held from outside keep their contents. *)
Definition keeps (ext : loc -> Z) (os os' : gmap loc robj) : Prop :=
  forall p x, 0 < ext p -> os !! p = Some x -> exists y, os' !! p = Some y /\ same_object x y.

Lemma same_refl x : same_object x x. Proof. done. Qed.
Lemma same_trans x y z : same_object x y -> same_object y z -> same_object x z.
Proof. intros (?&?&?) (?&?&?). repeat split; congruence. Qed.
Lemma keeps_refl ext os : keeps ext os os. Proof. intros p x _ Hx. by exists x. Qed.
Lemma keeps_trans ext os os1 os2 : keeps ext os os1 -> keeps ext os1 os2 -> keeps ext os os2.
Proof.
  intros H1 H2 p x Hp Hx. destruct (H1 p x Hp Hx) as (y & Hy & S1). destruct (H2 p y Hp Hy) as (z & Hz & S2).
  exists z. split; [done|]. by eapply same_trans.
Qed.
Lemma keeps_frame ext os os' : (forall p, 0 < ext p -> os' !! p = os !! p) -> keeps ext os os'.
Proof. intros H p x Hp Hx. exists x. by rewrite H. Qed.

Create HintDb reply.
#[export] Hint Resolve steady_refl keeps_refl same_refl : reply.

Section Buffers.
Context (junk : nat -> byte) (zmalloc_size : Z -> Z).
(** The allocator gives at most twice what it is asked, and a megabyte. *)
Definition allocator : Prop := forall n, 0 <= n -> 0 <= zmalloc_size n <= 2 * n + 2 ^ 20.
Context (Hz : allocator).
(** [e p]: the references to the object that are not in the reply list. *)
Implicit Types (e : loc -> Z) (ps : list Adlist.ptr) (vs : list loc) (its : list item) (os : gmap loc robj).

(** The bytes accounted for an object of the list, and for all. *)
Definition wt os p : Z :=
  match os !! p with
  | Some x => match ptr x with PSds s => zmalloc_size_sds zmalloc_size s | PLong _ => 0 end
  | None => 0
  end.
Definition total os vs : Z := foldr (fun p n => wt os p + n) 0 vs.

Record list_ok e (l : list_ loc) (h : heap loc) os ps vs its : Prop := {
  lo_rep : list_rep l h ps vs;
  lo_free : is_Some (Adlist.free l);
  lo_freed : freed h = [];
  lo_counts : counts os (fun p => e p + occ p vs);
  lo_ext : forall p, 0 <= e p;
  lo_nodes : Forall2 (node_ok os) vs its }.

Record out_inv e c w ps vs its : Prop := {
  oi_list : list_ok e (reply c) (cells w) (objs w) ps vs its;
  oi_buf : Z.of_nat (length (buf c)) = REDIS_REPLY_CHUNK_BYTES;
  oi_pos : 0 <= bufpos c <= REDIS_REPLY_CHUNK_BYTES;
  oi_sent : sent_ok (bufpos c) (sentlen c) its;
  oi_bytes : total (objs w) vs <= reply_bytes c;
  oi_limits : length (client_obuf_limits w) = 3%nat;
  oi_times : 0 <= unixtime w < 2 ^ 62 /\ 0 <= obuf_soft_limit_reached_time c < 2 ^ 62;
  oi_asap : asap c = true <-> id c ∈ clients_to_close w;
  oi_ae : lua c = false -> 0 < fd c -> ae_accepts w (fd c) = true;
  oi_handler : 0 < bufpos c \/ 0 < listLength (reply c) -> online c = true -> lua c = false -> handler c = true }.

(** The output is [q], in at most [N] nodes, with at most [B] bytes
    accounted. *)
Definition holds e c w (q : list out) (N B : Z) : Prop :=
  exists ps vs its, out_inv e c w ps vs its /\ q = stream c ps its /\ Z.of_nat (length ps) <= N /\ reply_bytes c <= B.

(** *** Sizes *)

Definition grow : Z := 2 ^ 33.

Lemma size_bound s bs : sds_rep s bs -> 0 <= zmalloc_size_sds zmalloc_size s < grow.
Proof.
  intros H. pose proof (rep_bound _ _ H). destruct H as [_ _ _ (g & Hb & Hg)]. unfold zmalloc_size_sds, sizeof_sdshdr, grow.
  rewrite Hb, length_app. cbn [length]. pose proof (Hz (8 + Z.of_nat (length bs + S (length g))) ltac:(lia)). lia.
Qed.

Lemma wt_str os p x s : os !! p = Some x -> ptr x = PSds s -> wt os p = zmalloc_size_sds zmalloc_size s.
Proof. intros Hx Hp. unfold wt. by rewrite Hx, Hp. Qed.
Lemma wt_bound os p it : node_ok os p it -> 0 <= wt os p < grow.
Proof.
  intros (x & Hx & Hi). unfold wt. rewrite Hx. destruct it as [bs|]; cbn in Hi.
  - destruct Hi as (_ & s & -> & Hs). by eapply size_bound.
  - subst x. cbn. unfold grow. lia.
Qed.
Lemma wt_same os os' p x y : os !! p = Some x -> os' !! p = Some y -> same_object x y -> wt os' p = wt os p.
Proof. intros Hx Hy (_ & _ & E). unfold wt. by rewrite Hx, Hy, E. Qed.

Lemma total_cons os p vs : total os (p :: vs) = wt os p + total os vs. Proof. done. Qed.
Lemma mem_total_app os vs us : total os (vs ++ us) = total os vs + total os us.
Proof. induction vs as [|p vs IH]; [done|]. cbn [app]. rewrite !total_cons, IH. lia. Qed.
Lemma total_frame os os' vs : (forall p, p ∈ vs -> wt os' p = wt os p) -> total os' vs = total os vs.
Proof.
  induction vs as [|p vs IH]; intros H; [done|]. rewrite !total_cons, H by by left. rewrite IH; [done|]. intros q Hq. apply H. by right.
Qed.
Lemma mem_total_nonneg os vs its : Forall2 (node_ok os) vs its -> 0 <= total os vs.
Proof. induction 1 as [|p it vs its Hn _ IH]; [done|]. rewrite total_cons. pose proof (wt_bound _ _ _ Hn). lia. Qed.
Lemma total_delete os vs k p : vs !! k = Some p -> total os (delete k vs) = total os vs - wt os p.
Proof.
  intros Hk. pose proof (f_equal (total os) (take_drop_middle _ _ _ Hk)) as E. rewrite mem_total_app, total_cons in E.
  rewrite delete_take_drop, mem_total_app. lia.
Qed.
Lemma total_insert os vs k p q : vs !! k = Some p -> total os (<[k:=q]> vs) = total os vs - wt os p + wt os q.
Proof.
  intros Hk. pose proof (f_equal (total os) (take_drop_middle _ _ _ Hk)) as E. rewrite mem_total_app, total_cons in E.
  rewrite insert_take_drop, mem_total_app, total_cons by (by eapply lookup_lt_Some). lia.
Qed.

Lemma inv_lengths e c w ps vs its : out_inv e c w ps vs its ->
  length ps = length vs /\ length vs = length its /\ listLength (reply c) = Z.of_nat (length ps).
Proof.
  intros H. destruct (oi_list _ _ _ _ _ _ H) as [Hr _ _ _ _ Hn]. destruct Hr as [_ _ _ Hl _ [Hn' _]].
  split; [done|]. split; [by eapply Forall2_length|done].
Qed.

(** *** The limits *)

Lemma class_range c : 0 <= getClientLimitClass c < 3.
Proof. unfold getClientLimitClass. repeat case_match; by vm_compute. Qed.

Lemma limits_spec e c w ps vs its : out_inv e c w ps vs its ->
  exists b t, checkClientOutputBufferLimits c w = Some (b, set_soft_time c t) /\ 0 <= t < 2 ^ 62.
Proof.
  intros H. pose proof (oi_times _ _ _ _ _ _ H) as [Ht Hs]. unfold checkClientOutputBufferLimits. cbv zeta. pose proof (class_range c).
  destruct (lookup_lt_is_Some_2 (client_obuf_limits w) (Z.to_nat (getClientLimitClass c))) as [lim ->];
    [rewrite (oi_limits _ _ _ _ _ _ H); lia|]. cbn [option_bind mbind].
  assert (set_soft_time c (obuf_soft_limit_reached_time c) = c) as Hid by by destruct c.
  destruct (negb (soft_limit_bytes lim =? 0) && _).
  - destruct (Z.eqb_spec (obuf_soft_limit_reached_time c) 0) as [E|E]; cbn [option_bind mbind]; [by eexists _, _|].
    rewrite chk64_ok by lia. cbn [option_bind mbind]. eexists _, (obuf_soft_limit_reached_time c). rewrite Hid. done.
  - cbn [option_bind mbind]. eexists _, 0. split; [reflexivity|lia].
Qed.

Lemma async_spec e c w ps vs its : out_inv e c w ps vs its -> reply_bytes c < 2 ^ 63 ->
  exists c' w', asyncCloseClientOnOutputBufferLimitReached c w = Some (c', w') /\ out_inv e c' w' ps vs its /\
    steady c w c' w' /\ objs w' = objs w /\ stream c' ps its = stream c ps its /\ reply_bytes c' = reply_bytes c.
Proof.
  intros H Hb. unfold asyncCloseClientOnOutputBufferLimitReached. rewrite (proj2 (Z.ltb_lt (reply_bytes c) _)) by lia.
  cbn [negb]. rewrite asap_test. destruct (reply_bytes c =? 0); [exists c, w; split_and!; eauto with reply|].
  destruct (asap c) eqn:Ha; [exists c, w; split_and!; eauto with reply|]. cbn [orb].
  destruct (limits_spec _ _ _ _ _ _ H) as (b & t & -> & Ht). cbn [option_bind mbind].
  destruct H as [Hl Hbuf Hpos Hsent Hbytes Hlim Htim Hasap Hae Hh].
  destruct Htim as [Htime _].
  destruct b; [|eexists _, _; split; [done|]; split_and!; try done; constructor; try done; by destruct Hpos].
  unfold freeClientAsync. rewrite (asap_test (set_soft_time c t)). change (asap (set_soft_time c t)) with (asap c). rewrite Ha.
  eexists _, _; split; [done|]. split_and!; try done; [|constructor; try done; apply same_flags_asap].
  assert (forall k, k <> 10 -> Z.testbit (Z.lor (cflags c) REDIS_CLOSE_ASAP) k = Z.testbit (cflags c) k) as Hf by apply same_flags_asap.
  constructor; try done.
  - split; intros _; [|exact (asap_set _)]. cbn. apply elem_of_app. right. by left.
  - intros Hlu. apply Hae. rewrite <-Hlu. symmetry. by apply Hf.
  - intros Ho Hon Hlu. apply (Hh Ho Hon). rewrite <-Hlu. symmetry. by apply Hf.
Qed.

(** *** The static buffer *)

Lemma sent_bound e c w ps vs its : out_inv e c w ps vs its ->
  (Z.to_nat (sentlen c) <= length (bytes (take (Z.to_nat (bufpos c)) (buf c)) ++ items ps its))%nat /\ 0 <= sentlen c.
Proof.
  intros H. pose proof (inv_lengths _ _ _ _ _ _ H) as (H1 & H2 & _). pose proof (oi_pos _ _ _ _ _ _ H). pose proof (oi_buf _ _ _ _ _ _ H).
  rewrite length_app, length_bytes, length_take. destruct (oi_sent _ _ _ _ _ _ H) as [->|[?|(E & bs & r & -> & ?)]]; [lia|lia|].
  destruct ps as [|p ps]; [cbn in *; lia|]. unfold items. cbn [zip_with concat item_out]. rewrite length_app, length_bytes. lia.
Qed.

Lemma stream_app e c w ps vs its c' ps' its' t : out_inv e c w ps vs its -> sentlen c' = sentlen c ->
  bytes (take (Z.to_nat (bufpos c')) (buf c')) ++ items ps' its' = (bytes (take (Z.to_nat (bufpos c)) (buf c)) ++ items ps its) ++ t ->
  stream c' ps' its' = stream c ps its ++ t.
Proof. intros H Hs E. unfold stream. rewrite E, Hs. rewrite drop_app_le; [done|]. by eapply sent_bound. Qed.

(** The handler is there, if it has to be. *)
Definition ready c : Prop := online c = true -> lua c = false -> handler c = true.

Lemma prepare_spec e c w ps vs its : out_inv e c w ps vs its ->
  exists c', prepareClientToWrite c w = (lua c || (0 <? fd c), c') /\ out_inv e c' w ps vs its /\
    steady c w c' w /\ stream c' ps its = stream c ps its /\ reply_bytes c' = reply_bytes c /\
    (lua c || (0 <? fd c) = true -> ready c').
Proof.
  intros H. unfold prepareClientToWrite. rewrite lua_test. unfold ready.
  destruct (lua c) eqn:Hlua; [exists c; split_and!; eauto with reply; congruence|]. cbn [orb].
  rewrite Z.leb_antisym. destruct (Z.ltb_spec 0 (fd c)) as [Hfd|Hfd]; cbn [negb]; [|exists c; split_and!; eauto with reply; done].
  fold (online c). rewrite (oi_ae _ _ _ _ _ _ H Hlua Hfd).
  pose proof (inv_lengths _ _ _ _ _ _ H) as (_ & _ & Hll). pose proof (oi_pos _ _ _ _ _ _ H).
  destruct ((bufpos c =? 0) && (listLength (reply c) =? 0) && online c) eqn:E.
  - exists (set_handler c true). split; [done|]. split; [by destruct H|]. split; [by constructor|]. done.
  - exists c. split; [done|]. split; [done|]. split; [auto with reply|]. split; [done|]. split; [done|]. intros _ Hon _.
    apply (oi_handler _ _ _ _ _ _ H); [|done|done]. rewrite Hon, andb_true_r, andb_false_iff, !Z.eqb_neq in E. lia.
Qed.

Lemma buffer_spec e c w ps vs its bs : out_inv e c w ps vs its -> ready c -> Z.of_nat (length bs) < 2 ^ 31 ->
  exists ok c', _addReplyToBuffer c bs = Some (ok, c') /\
    if dropping c then ok = true /\ c' = c
    else if ok then out_inv e c' w ps vs its /\ steady c w c' w /\ stream c' ps its = stream c ps its ++ bytes bs /\ reply_bytes c' = reply_bytes c
    else c' = c.
Proof.
  intros H Hr Hlen. unfold _addReplyToBuffer. cbv zeta. rewrite dropping_test. destruct (dropping c); [by eexists _, _|].
  pose proof (inv_lengths _ _ _ _ _ _ H) as (Hl1 & Hl2 & ->).
  destruct (Z.ltb_spec 0 (Z.of_nat (length ps))) as [Hp|Hp]; [by exists false, c|].
  destruct ps; [|cbn in Hp; lia]. destruct vs; [|done]. destruct its; [|done]. clear Hl1 Hl2 Hp.
  pose proof (oi_pos _ _ _ _ _ _ H) as Hpos. pose proof (oi_buf _ _ _ _ _ _ H) as Hbuf. unfold REDIS_REPLY_CHUNK_BYTES in *.
  rewrite u64_small by lia. destruct (Z.ltb_spec (16 * 1024 - bufpos c) (Z.of_nat (length bs))) as [Ho|Ho]; [by exists false, c|].
  set (n := Z.to_nat (bufpos c)).
  assert (mem_write (buf c) (bufpos c) bs = Some (take n (buf c) ++ bs ++ drop (n + length bs) (buf c))) as ->.
  { rewrite <-(take_drop n (buf c)) at 1. rewrite <-(take_drop (length bs) (drop n (buf c))), drop_drop.
    apply mem_write_app; [rewrite length_take|rewrite length_take, length_drop]; lia. }
  cbn [option_bind mbind]. rewrite u64_small, s32_small by lia. eexists true, _. split; [reflexivity|].
  assert (forall c0 : outClient, c0 = set_buf c (take n (buf c) ++ bs ++ drop (n + length bs) (buf c)) (bufpos c + Z.of_nat (length bs)) ->
    bytes (take (Z.to_nat (bufpos c0)) (buf c0)) ++ items [] [] = (bytes (take n (buf c)) ++ items [] []) ++ bytes bs) as Hst.
  { intros c0 ->. cbn [set_buf bufpos buf]. unfold items. cbn. rewrite !app_nil_r, <-bytes_app. f_equal.
    rewrite app_assoc. apply take_app_length'. rewrite length_app, length_take. lia. }
  split; [|split; [by constructor|split; [by eapply stream_app; [exact H| |apply Hst]|done]]].
  destruct H as [Hli _ _ Hsent Hby Hlim Htim Has Hae Hh]. constructor; try done.
  - cbn. rewrite !length_app, length_take, length_drop. unfold REDIS_REPLY_CHUNK_BYTES. lia.
  - cbn. unfold REDIS_REPLY_CHUNK_BYTES. lia.
  - cbn. destruct Hsent as [->|[Hs|(_ & ? & ? & ? & _)]]; [by left|right; left; lia|done].
Qed.

(** *** Adding a node *)

Lemma add_tail_spec c w ps vs p : list_rep (reply c) (cells w) ps vs -> is_Some (Adlist.free (reply c)) -> Z.of_nat (length ps) < 2 ^ 31 ->
  exists n l h, add_tail c w p = Some (set_reply c l, set_cells w h) /\ list_rep l h (ps ++ [n]) (vs ++ [p]) /\
    is_Some (Adlist.free l) /\ freed h = freed (cells w) /\ (n ∉ ps).
Proof.
  intros H Hf Hlen. pose proof (lr_len _ _ _ _ H) as Hl. destruct (addTail_spec _ _ _ _ p H) as (l & h & E & n & Hn & Hr & _ & Hfr & (_ & Hm & _) & _).
  { rewrite Hl. lia. }
  exists n, l, h. unfold add_tail. rewrite E. cbn [option_bind mbind]. split; [done|].
  pose proof H as [_ _ _ _ _ [Hlv _]]. unfold ins in Hr. rewrite take_ge, drop_ge in Hr by lia. rewrite Hlv, take_ge, drop_ge in Hr by lia.
  split; [done|]. by rewrite Hm.
Qed.

(** *** References change hands *)

(** One more reference to [o] outside the list. *)
Definition give e o : loc -> Z := fun q => e q + occ q [o].

Lemma give_ext e o p : give e o p = e p + occ p [o]. Proof. done. Qed.
Lemma give_here e o : give e o o = e o + 1. Proof. by rewrite give_ext, occ_one, decide_True. Qed.
Lemma give_nonneg e o : (forall p, 0 <= e p) -> forall p, 0 <= give e o p.
Proof. intros H p. rewrite give_ext. pose proof (occ_nonneg p [o]). specialize (H p). lia. Qed.
Lemma keeps_give e o os os' : keeps (give e o) os os' -> keeps e os os'.
Proof. intros H p x Hp. apply H. rewrite give_ext. pose proof (occ_nonneg p [o]). lia. Qed.

(** The list holds on to the same strings in another store. *)
Lemma inv_objs e c w ps vs its e' os' : out_inv e c w ps vs its ->
  counts os' (fun p => e' p + occ p vs) -> (forall p, 0 <= e' p) -> Forall2 (node_ok os') vs its ->
  total os' vs = total (objs w) vs -> out_inv e' c (set_objs w os') ps vs its.
Proof.
  intros [Hl Hbuf Hpos Hsent Hbytes Hlim Htim Hasap Hae Hh] Hc He Hn Ht. destruct Hl as [Hr Hf Hfr _ _ _].
  constructor; try done. cbn. by rewrite Ht.
Qed.

Lemma total_recount os p x y vs : os !! p = Some x -> same_object x y -> total (<[p:=y]> os) vs = total os vs.
Proof.
  intros Hx Hs. apply total_frame. intros q _. destruct (decide (q = p)) as [->|Hne].
  - eapply wt_same; [exact Hx| |exact Hs]. by rewrite lookup_insert_eq.
  - unfold wt. by rewrite lookup_insert_ne by done.
Qed.

Lemma incr_obj_spec e c w ps vs its o x : out_inv e c w ps vs its -> objs w !! o = Some x -> e o + occ o vs + 1 < 2 ^ 31 ->
  (x <> null_obj \/ (o ∉ vs)) ->
  exists y, incr w o = Some (store_obj w o y) /\ same_object x y /\ out_inv (give e o) c (store_obj w o y) ps vs its.
Proof.
  intros H Hx Hn Hh. pose proof (oi_list _ _ _ _ _ _ H) as [_ _ _ Hc He Hno].
  destruct (counts_incr _ _ _ _ Hc Hx Hn) as (y & E & Hs & _ & Hc'). exists y. unfold incr, load_obj. rewrite Hx. cbn [option_bind mbind].
  rewrite E. split; [done|]. split; [done|]. unfold store_obj. eapply inv_objs; [exact H| |by apply give_nonneg| |by eapply total_recount].
  - eapply counts_ext; [exact Hc'|]. intros p. rewrite give_ext. lia.
  - by eapply nodes_recount.
Qed.

Lemma new_spec e c w ps vs its x : out_inv e c w ps vs its -> refcount x = 1 -> type x = REDIS_STRING ->
  let p := fresh (dom (objs w)) in
  new_obj w x = (p, store_obj w p x) /\ objs w !! p = None /\ e p = 0 /\ (p ∉ vs) /\ out_inv (give e p) c (store_obj w p x) ps vs its.
Proof.
  intros H Hr Ht p. pose proof (oi_list _ _ _ _ _ _ H) as [_ _ _ Hc He Hno].
  destruct (counts_new _ _ x Hc Hr Ht) as (Hp & H0 & Hc'); [intros q; pose proof (He q); pose proof (occ_nonneg q vs); lia|].
  fold p in Hp, H0, Hc'. pose proof (He p). pose proof (occ_nonneg p vs). split; [done|]. split; [done|]. split; [lia|].
  assert (p ∉ vs) as Hpv by (rewrite occ_in; lia). split; [done|].
  assert (forall q, q ∈ vs -> <[p:=x]> (objs w) !! q = objs w !! q) as Hfr by (intros q Hq; apply lookup_insert_ne; congruence).
  unfold store_obj. eapply inv_objs; [exact H| |by apply give_nonneg|by eapply nodes_frame|].
  - eapply counts_ext; [exact Hc'|]. intros q. rewrite give_ext. lia.
  - apply total_frame. intros q Hq. unfold wt. by rewrite Hfr.
Qed.

Lemma decr_counts w n p : counts (objs w) n -> 0 < n p ->
  exists os', decr w p = Some (set_objs w os') /\ counts os' (fun q => n q - occ q [p]) /\
    (forall q, q <> p -> os' !! q = objs w !! q) /\
    (1 < n p -> exists x y, objs w !! p = Some x /\ os' !! p = Some y /\ same_object x y).
Proof.
  intros Hc Hp. destruct (counts_decr _ _ _ Hc Hp) as (x & r & Hx & E & Hc' & Hfr & Hleft). cbv zeta in Hc', Hfr, Hleft.
  unfold decr, load_obj. rewrite Hx. cbn [option_bind mbind]. rewrite E. cbn [option_bind mbind].
  exists (match r with Some y => <[p := y]> (objs w) | None => delete p (objs w) end). split; [by destruct r|]. split; [done|].
  split; [done|]. intros H1. destruct (Hleft H1) as (y & Hy & Hs). by exists x, y.
Qed.

(** What is still referred to is still there. *)
Lemma stays os os' n n' p : counts os n -> (forall q, q <> p -> os' !! q = os !! q) ->
  (1 < n p -> exists x y, os !! p = Some x /\ os' !! p = Some y /\ same_object x y) -> (forall q, n' q <= n q - occ q [p]) ->
  forall q, 0 < n' q -> exists z y, os !! q = Some z /\ os' !! q = Some y /\ same_object z y.
Proof.
  intros Hc Hfr Hleft Hn q Hq. specialize (Hn q). rewrite occ_one in Hn. destruct (decide (q = p)) as [->|Hne]; [apply Hleft; lia|].
  destruct (ct_alive _ _ Hc q) as [z Hx]; [lia|]. exists z, z. by rewrite Hfr.
Qed.

Lemma decr_spec e c w ps vs its o : out_inv (give e o) c w ps vs its -> (forall p, 0 <= e p) ->
  exists os', decr w o = Some (set_objs w os') /\ keeps e (objs w) os' /\
    forall c', out_inv (give e o) c' w ps vs its -> out_inv e c' (set_objs w os') ps vs its.
Proof.
  intros H He. pose proof (oi_list _ _ _ _ _ _ H) as [_ _ _ Hc _ Hno]. pose proof (He o). pose proof (occ_nonneg o vs).
  destruct (decr_counts w _ o Hc) as (os' & E & Hc' & Hfr & Hleft); [rewrite give_here; lia|]. exists os'. split; [done|].
  assert (forall q, 0 < e q + occ q vs -> exists z y, objs w !! q = Some z /\ os' !! q = Some y /\ same_object z y) as Hstay.
  { apply (stays _ _ _ (fun q => e q + occ q vs) o Hc Hfr Hleft). intros q. cbv beta. rewrite give_ext. lia. }
  split; [intros q z Hq Hq2; destruct (Hstay q) as (z' & y & Hz' & Hy & Hs); [pose proof (occ_nonneg q vs); lia|]; exists y; split; congruence|]. intros c' H'.
  assert (forall q, q ∈ vs -> 0 < e q + occ q vs) as Hin by (intros q Hq%occ_in; pose proof (He q); lia).
  eapply inv_objs; [exact H'| |done| |].
  - eapply counts_ext; [exact Hc'|]. intros q. cbv beta. rewrite give_ext. lia.
  - apply Forall2_same_length_lookup_2; [by eapply Forall2_length|]. intros i q it Hq Hit.
    destruct (Forall2_lookup_lr _ _ _ _ _ _ Hno Hq Hit) as (z & Hq2 & Hi). pose proof (Hin q (list_elem_of_lookup_2 _ _ _ Hq)) as Hpos.
    destruct (Hstay q Hpos) as (z' & y & Hz' & Hy & Hs). assert (z' = z) as -> by congruence. exists y. split; [done|]. eapply item_same; [exact Hs| |exact Hi].
    destruct it as [bs|]; [by right|left]. cbn in Hi. destruct (ct_count _ _ Hc q z Hq2) as (Hr1 & _ & _). destruct (ct_count _ _ Hc' q y Hy) as (Hr2 & Hb & _).
    cbv beta in Hr1, Hr2, Hb. rewrite give_ext in Hr1, Hr2, Hb. subst z. cbn [refcount null_obj] in Hr1 |- *. pose proof (occ_nonneg q [o]). lia.
  - apply total_frame. intros q Hq. destruct (Hstay q (Hin q Hq)) as (z & y & Hq2 & Hy & Hs). by eapply wt_same.
Qed.

(** *** A new node *)

Lemma sent_ok_app pos sent its jts : sent_ok pos sent its -> sent_ok pos sent (its ++ jts).
Proof. intros [?|[?|(? & bs & r & -> & ?)]]; [by left|by right; left|right; right]. split; [done|]. exists bs, (r ++ jts). done. Qed.

Lemma rep_tail l h ps n vs : list_rep l h (ps ++ [n]) vs -> tail l = Some n.
Proof. intros H. rewrite (rep_last _ _ _ _ H). apply last_snoc. Qed.

(** The list takes over a reference to [o]. *)
Lemma push_node_spec e c w ps vs its o it b : out_inv (give e o) c w ps vs its -> (forall p, 0 <= e p) -> node_ok (objs w) o it ->
  Z.of_nat (length ps) < 2 ^ 31 -> ready c -> total (objs w) vs + wt (objs w) o <= b ->
  exists n l h, add_tail c w o = Some (set_reply c l, set_cells w h) /\ (n ∉ ps) /\ tail l = Some n /\
    out_inv e (set_reply_bytes (set_reply c l) b) (set_cells w h) (ps ++ [n]) (vs ++ [o]) (its ++ [it]) /\
    stream (set_reply c l) (ps ++ [n]) (its ++ [it]) = stream c ps its ++ item_out n it.
Proof.
  intros H He Hn Hlen Hready Hb. pose proof (oi_list _ _ _ _ _ _ H) as [Hr Hf Hfr Hc _ Hno].
  pose proof (inv_lengths _ _ _ _ _ _ H) as (Hl1 & Hl2 & _).
  destruct (add_tail_spec _ _ _ _ o Hr Hf Hlen) as (n & l & h & E & Hr' & Hf' & Hfr' & Hnn). exists n, l, h.
  split; [done|]. split; [done|]. split; [by eapply rep_tail|]. split.
  - destruct H as [_ Hbuf Hpos Hsent Hbytes Hlim Htim Hasap Hae Hh]. constructor; try done.
    + constructor; try done; [by cbn; rewrite Hfr'| |by apply Forall2_app; [|constructor]].
      eapply counts_ext; [exact Hc|]. intros p. cbv beta. rewrite give_ext, occ_app. lia.
    + cbn. by apply sent_ok_app.
    + cbn. rewrite mem_total_app, total_cons. change (total (objs w) []) with 0. lia.
  - eapply stream_app; [exact H|done|]. cbn. rewrite <-app_assoc. f_equal. rewrite items_app, items_one by lia. done.
Qed.

Lemma append_obj_spec e c w ps vs its o bs : out_inv (give e o) c w ps vs its -> (forall p, 0 <= e p) -> node_ok (objs w) o (Str bs) ->
  Z.of_nat (length ps) < 2 ^ 31 -> ready c -> reply_bytes c < 2 ^ 63 ->
  exists n l h, append_obj zmalloc_size c w o = Some (set_reply_bytes (set_reply c l) (reply_bytes c + wt (objs w) o), set_cells w h) /\
    out_inv e (set_reply_bytes (set_reply c l) (reply_bytes c + wt (objs w) o)) (set_cells w h) (ps ++ [n]) (vs ++ [o]) (its ++ [Str bs]) /\
    stream (set_reply c l) (ps ++ [n]) (its ++ [Str bs]) = stream c ps its ++ bytes bs.
Proof.
  intros H He Hn Hlen Hready Hb. pose proof (oi_bytes _ _ _ _ _ _ H) as Hby. pose proof (mem_total_nonneg _ _ _ (lo_nodes _ _ _ _ _ _ _ (oi_list _ _ _ _ _ _ H))).
  pose proof (wt_bound _ _ _ Hn) as Hw. unfold grow in Hw.
  destruct (push_node_spec e c w ps vs its o (Str bs) (reply_bytes c + wt (objs w) o) H He Hn Hlen Hready ltac:(lia)) as (n & l & h & E & _ & _ & Hi & Hs).
  exists n, l, h. split; [|by split]. unfold append_obj. rewrite E. cbn [option_bind mbind]. unfold sds_at, load_obj. cbn [set_cells objs].
  destruct Hn as (x & Hx & _ & s & Hp & _). rewrite Hx. cbn [option_bind mbind]. unfold ptr_sds. rewrite Hp. cbn [option_bind mbind].
  rewrite (wt_str _ _ _ _ Hx Hp) in *. by rewrite u64_small by (cbn; lia).
Qed.

(** *** Extending the last node *)

Lemma rep_set_value l h ps vs k p v u x fr : list_rep l h ps vs -> ps !! k = Some p -> vs !! k = Some v -> nodes h !! p = Some x ->
  list_rep l (Heap (<[p := ListNode (Adlist.prev x) (Adlist.next x) u]> (nodes h)) fr) ps (<[k:=u]> vs).
Proof.
  intros [Hnd Hh Ht Hlen Hb [Hl Hm]] Hp Hv Hx. constructor; try done. split; [by rewrite length_insert|]. intros i q y Hq Hy. cbn [nodes].
  assert (x = ListNode (pred ps k) (ps !! S k) v) as -> by (rewrite (Hm _ _ _ Hp Hv) in Hx; congruence). cbn [Adlist.prev Adlist.next].
  destruct (decide (i = k)) as [->|Hne].
  - assert (q = p) as -> by congruence. rewrite lookup_insert_eq. rewrite list_lookup_insert_eq in Hy by by eapply lookup_lt_Some. congruence.
  - rewrite lookup_insert_ne by (eapply nodup_ne; [exact Hnd|exact Hp|exact Hq|done]). rewrite list_lookup_insert_ne in Hy by done. by apply Hm.
Qed.

Lemma node_value_spec l w ps vs k p v : list_rep l (cells w) ps vs -> ps !! k = Some p -> vs !! k = Some v -> node_value w (Some p) = Some v.
Proof. intros H Hp Hv. unfold node_value, load. cbn [option_bind mbind]. pose proof H as [_ _ _ _ _ [_ Hm]]. by rewrite (Hm _ _ _ Hp Hv). Qed.

Lemma snoc_lengths e c w ps n vs p its it : out_inv e c w (ps ++ [n]) (vs ++ [p]) (its ++ [it]) ->
  length ps = length vs /\ length vs = length its /\ listLength (reply c) = Z.of_nat (length ps) + 1.
Proof. intros H. destruct (inv_lengths _ _ _ _ _ _ H) as (H1 & H2 & ->). rewrite !length_app in *. cbn [length] in *. lia. Qed.

(** The last node given another object with the same string. *)
Lemma replace_last e c w ps n vs tl its ts os h p x' : out_inv e c w (ps ++ [n]) (vs ++ [tl]) (its ++ [Str ts]) ->
  counts os (fun q => e q + occ q (vs ++ [p])) -> os !! p = Some x' -> item_of x' (Str ts) -> Forall2 (node_ok os) vs its ->
  total os vs = total (objs w) vs -> list_rep (reply c) h (ps ++ [n]) (vs ++ [p]) -> freed h = [] ->
  out_inv e (set_reply_bytes c (reply_bytes c - wt (objs w) tl + wt os p)) (set_cells (set_objs w os) h) (ps ++ [n]) (vs ++ [p]) (its ++ [Str ts]).
Proof.
  intros [Hl Hbuf Hpos Hsent Hbytes Hlim Htim Hasap Hae Hh] Hc Hp Hi Hn Ht Hr Hfr. destruct Hl as [_ Hf _ _ He _]. constructor; try done.
  - constructor; try done. apply Forall2_app; [done|]. constructor; [by exists x'|done].
  - cbn in *. rewrite mem_total_app, total_cons in *. change (total os []) with 0. change (total (objs w) []) with 0 in Hbytes. lia.
Qed.

(** An object that only the list holds, once. *)
Definition own os e vs p x : Prop := os !! p = Some x /\ refcount x = 1 /\ e p + occ p vs = 1.

Lemma dup_fresh e c w ps n vs tl its ts x : out_inv e c w (ps ++ [n]) (vs ++ [tl]) (its ++ [Str ts]) -> Z.of_nat (length ts) < sds_limit ->
  objs w !! tl = Some x -> item_of x (Str ts) -> 1 < refcount x ->
  exists x' p w' w'', dupStringObject junk x = Some x' /\ new_obj w x' = (p, w') /\ decr w' tl = Some (set_objs w' w'') /\
    counts w'' (fun q => e q + occ q (vs ++ [p])) /\ own w'' e (vs ++ [p]) p x' /\ item_of x' (Str ts) /\ Forall2 (node_ok w'') vs its /\
    total w'' vs = total (objs w) vs /\ keeps e (objs w) w'' /\ w' = store_obj w p x'.
Proof.
  intros H Hlen Hx (Henc & s & Hps & Hs) Hgt. pose proof (oi_list _ _ _ _ _ _ H) as [_ _ _ Hc He Hno].
  pose proof (snoc_lengths _ _ _ _ _ _ _ _ _ H) as (_ & Hl2 & _).
  apply Forall2_app_inv in Hno as [Hno _]; [|lia]. destruct (ct_count _ _ Hc tl x Hx) as (Hrc & Hcb & Hty). rewrite occ_app, occ_one, decide_True in Hrc, Hcb by done.
  unfold dupStringObject, ptr_sds. rewrite Henc, Hps. cbn [option_bind mbind].
  change (REDIS_ENCODING_RAW =? REDIS_ENCODING_RAW) with true. cbv iota. unfold createStringObject. rewrite (rep_len_eq _ _ Hs).
  pose proof Hs as [_ _ _ (g & -> & _)]. destruct (newlen_spec junk ts (z2b 0 :: g) Hlen) as (s' & -> & Hs' & _). cbn [option_bind mbind].
  set (x' := createObject REDIS_STRING (PSds s')).
  destruct (counts_new _ _ x' Hc eq_refl eq_refl) as (Hp & Hp0 & Hc1). { intros q. pose proof (He q). pose proof (occ_nonneg q (vs ++ [tl])). lia. }
  unfold new_obj. cbv zeta. set (p := fresh (dom (objs w))) in *. cbv beta in Hp0, Hc1. rewrite occ_app in Hp0.
  assert (tl <> p) as Hne by congruence. pose proof (He p). pose proof (occ_nonneg p vs). pose proof (occ_nonneg p [tl]). pose proof (He tl). pose proof (occ_nonneg tl vs).
  assert (p ∉ vs) as Hpv by (rewrite occ_in; lia).
  destruct (decr_counts (store_obj w p x') _ tl Hc1) as (os & Ed & Hc2 & Hfr & Hleft). { rewrite occ_app, !occ_one, decide_True, decide_False by done. lia. }
  rewrite occ_app, !occ_one, decide_True, decide_False in Hleft by done. destruct Hleft as (x1 & y & Hx1 & Hy & Hsame); [lia|].
  unfold store_obj in Hx1, Hfr. cbn [set_objs objs] in Hx1, Hfr. rewrite lookup_insert_ne in Hx1 by done. assert (x1 = x) as -> by congruence.
  assert (forall q z, q <> p -> objs w !! q = Some z -> exists y, os !! q = Some y /\ same_object z y) as Hold.
  { intros q z Hq Hz'. destruct (decide (q = tl)) as [->|Hqt]; [exists y; split; congruence|]. exists z. by rewrite Hfr, lookup_insert_ne by done. }
  exists x', p, (store_obj w p x'), os. split; [done|]. split; [done|]. split; [done|]. split.
  { eapply counts_ext; [exact Hc2|]. intros q. cbv beta. rewrite !occ_app. lia. }
  split. { split; [by rewrite Hfr, lookup_insert_eq|]. split; [done|]. rewrite occ_app, occ_one, decide_True by done. lia. }
  split; [by split; [|exists s']|]. split; [|split; [|split; [|done]]].
  - apply Forall2_same_length_lookup_2; [by eapply Forall2_length|]. intros i q it Hq Hit.
    destruct (Forall2_lookup_lr _ _ _ _ _ _ Hno Hq Hit) as (z & Hq2 & Hi). destruct (decide (q = tl)) as [->|Hqt].
    + exists y. split; [done|]. assert (z = x) as -> by congruence. eapply item_same; [exact Hsame|right|exact Hi]. intros ->. cbn in Hi. by subst x.
    + exists z. rewrite Hfr, lookup_insert_ne; [done| |done]. intros <-. apply Hpv. by eapply list_elem_of_lookup_2.
  - apply total_frame. intros q Hq. assert (q <> p) as Hqp by congruence. apply list_elem_of_lookup in Hq as [i Hi].
    destruct (lookup_lt_is_Some_2 its i) as [it Hit]; [apply lookup_lt_Some in Hi; lia|]. destruct (Forall2_lookup_lr _ _ _ _ _ _ Hno Hi Hit) as (z & Hq2 & _).
    destruct (Hold q z Hqp Hq2) as (z' & Hz' & Hs2). by eapply wt_same.
  - intros q z Hq Hq2. apply Hold; [congruence|done].
Qed.

Lemma dup_spec e c w ps n vs tl its ts : out_inv e c w (ps ++ [n]) (vs ++ [tl]) (its ++ [Str ts]) -> Z.of_nat (length ts) < sds_limit ->
  forall c0, reply c0 = reply c ->
  exists tl' w' x', dupLastObjectIfNeeded junk c0 w = Some (tl', w') /\
    out_inv e (set_reply_bytes c (reply_bytes c - wt (objs w) tl + wt (objs w') tl')) w' (ps ++ [n]) (vs ++ [tl']) (its ++ [Str ts]) /\
    own (objs w') e (vs ++ [tl']) tl' x' /\ item_of x' (Str ts) /\ keeps e (objs w) (objs w') /\ steady c w c w'.
Proof.
  intros H Hlen c0 Hc0. pose proof (oi_list _ _ _ _ _ _ H) as [Hr Hf Hfr Hc He Hno]. pose proof (snoc_lengths _ _ _ _ _ _ _ _ _ H) as (Hl1 & Hl2 & Hll).
  unfold dupLastObjectIfNeeded. rewrite Hc0, Hll, (proj2 (Z.ltb_lt 0 _)) by lia. cbn [negb].
  rewrite (rep_tail _ _ _ _ _ Hr).
  assert ((ps ++ [n]) !! length vs = Some n) as Hn by (apply list_lookup_middle; lia).
  assert ((vs ++ [tl]) !! length vs = Some tl) as Htl by by apply list_lookup_middle.
  rewrite (node_value_spec _ _ _ _ _ _ _ Hr Hn Htl). cbn [option_bind mbind]. unfold load_obj at 1.
  apply Forall2_app_inv in Hno as [_ Hlast]; [|lia]. inversion Hlast as [|? ? ? ? (x & Hx & Hi) _]; subst. rewrite Hx. cbn [option_bind mbind].
  destruct (ct_count _ _ Hc tl x Hx) as (Hrc & Hcb & Hty). destruct (Z.ltb_spec 1 (refcount x)) as [Hgt|Hle].
  2:{ cbn [option_bind mbind]. rewrite (node_value_spec _ _ _ _ _ _ _ Hr Hn Htl). cbn [option_bind mbind]. exists tl, w, x. split; [done|].
      replace (reply_bytes c - wt (objs w) tl + wt (objs w) tl) with (reply_bytes c) by lia. unfold own.
      split_and!; auto with reply; try lia. by destruct c. }
  destruct (dup_fresh _ _ _ _ _ _ _ _ _ _ H Hlen Hx Hi Hgt) as (x' & p & w' & os & -> & En & Ed & Hcs & Hown & Hi' & Hn' & Ht & Hk & ->).
  cbn [option_bind mbind]. rewrite En, Ed. cbn [option_bind mbind]. unfold set_node_value. cbn [option_bind mbind set_objs store_obj cells].
  pose proof Hr as [_ _ _ _ _ [_ Hm]]. pose proof (Hm _ _ _ Hn Htl) as Hnode. rewrite Hnode. cbn [option_bind mbind].
  pose proof (rep_set_value _ _ _ _ _ _ _ p _ (freed (cells w)) Hr Hn Htl Hnode) as Hr'. rewrite insert_app_r_alt, Nat.sub_diag in Hr' by done.
  cbn [insert list_insert] in Hr'. change (<[0%nat:=p]> [tl]) with [p] in Hr'.
  assert ((vs ++ [p]) !! length vs = Some p) as Hp by by apply list_lookup_middle.
  rewrite (node_value_spec (reply c) _ (ps ++ [n]) (vs ++ [p]) (length vs) n p); [|exact Hr'|done|done].
  cbn [option_bind mbind]. eexists p, _, x'. split; [reflexivity|]. cbn [set_objs objs set_cells cells].
  destruct Hown as (Hpx & Hown). split; [exact (replace_last _ _ _ _ _ _ _ _ _ os _ p x' H Hcs Hpx Hi' Hn' Ht Hr' Hfr)|]. split; [by split|]. split; [done|]. split; [done|by constructor].
Qed.

(** Writing the string of an object that only the list holds. *)
Lemma set_node e c w ps vs its k p x s us b : out_inv e c w ps vs its -> vs !! k = Some p ->
  own (objs w) e vs p x -> encoding x = REDIS_ENCODING_RAW -> sds_rep s us -> sent_ok (bufpos c) (sentlen c) (<[k:=Str us]> its) ->
  reply_bytes c - wt (objs w) p + zmalloc_size_sds zmalloc_size s <= b ->
  let os := <[p := Robj (type x) (encoding x) (PSds s) (refcount x)]> (objs w) in
  set_ptr w p s = Some (set_objs w os) /\
  out_inv e (set_reply_bytes c b) (set_objs w os) ps vs (<[k:=Str us]> its) /\ keeps e (objs w) os.
Proof.
  intros H Hp (Hx & Hrc & Hown) Henc Hs Hsent' Hb os. pose proof (oi_list _ _ _ _ _ _ H) as [Hr Hf Hfr Hc He Hno].
  pose proof (inv_lengths _ _ _ _ _ _ H) as (Hl1 & Hl2 & _). pose proof (He p).
  assert (0 < occ p vs) as Hin by (apply occ_in; by eapply list_elem_of_lookup_2).
  assert (forall q, q <> p -> os !! q = objs w !! q) as Hfrm by (intros q Hq; by apply lookup_insert_ne).
  assert (forall q, q <> p -> wt os q = wt (objs w) q) as Hwt by (intros q Hq; unfold wt; by rewrite Hfrm).
  split; [unfold set_ptr, load_obj; by rewrite Hx|]. split; [|apply keeps_frame; intros q Hq; apply Hfrm; intros ->; lia].
  destruct H as [_ Hbuf Hpos _ Hbytes Hlim Htim Hasap Hae Hh]. constructor; try done.
  - constructor; try done; [by eapply counts_put|]. apply Forall2_same_length_lookup_2; [by rewrite length_insert|]. intros i q it Hq Hit.
    destruct (decide (i = k)) as [->|Hne].
    + rewrite list_lookup_insert_eq in Hit by (apply lookup_lt_Some in Hp; lia). injection Hit as <-. assert (q = p) as -> by congruence.
      eexists. split; [apply lookup_insert_eq|]. split; [done|]. by exists s.
    + rewrite list_lookup_insert_ne in Hit by done. destruct (Forall2_lookup_lr _ _ _ _ _ _ Hno Hq Hit) as (y & Hy & Hi). exists y. split; [|done].
      rewrite Hfrm; [done|]. intros ->. apply Hne. apply (occ_once vs k p Hp); [lia|done].
  - cbn [reply_bytes set_reply_bytes objs set_objs]. assert (total os vs = total (objs w) vs - wt (objs w) p + wt os p) as ->.
    { pose proof (total_delete os _ _ _ Hp) as E1. pose proof (total_delete (objs w) _ _ _ Hp) as E2.
      assert (total os (delete k vs) = total (objs w) (delete k vs)) as E; [|lia]. apply total_frame. intros q Hq. apply Hwt. intros ->.
      apply occ_in in Hq. rewrite (occ_delete _ _ _ _ Hp), occ_one, decide_True in Hq by done. lia. }
    assert (wt os p = zmalloc_size_sds zmalloc_size s) as -> by (eapply wt_str; [apply lookup_insert_eq|done]). lia.
Qed.

Lemma set_last e c w ps n vs p its ts x s us b : out_inv e c w (ps ++ [n]) (vs ++ [p]) (its ++ [Str ts]) ->
  own (objs w) e (vs ++ [p]) p x -> encoding x = REDIS_ENCODING_RAW -> sds_rep s (ts ++ us) ->
  reply_bytes c - wt (objs w) p + zmalloc_size_sds zmalloc_size s <= b ->
  let os := <[p := Robj (type x) (encoding x) (PSds s) (refcount x)]> (objs w) in
  set_ptr w p s = Some (set_objs w os) /\
  out_inv e (set_reply_bytes c b) (set_objs w os) (ps ++ [n]) (vs ++ [p]) (its ++ [Str (ts ++ us)]) /\ keeps e (objs w) os.
Proof.
  intros H Hown Henc Hs Hb. pose proof (snoc_lengths _ _ _ _ _ _ _ _ _ H) as (Hl1 & Hl2 & _).
  assert (its ++ [Str (ts ++ us)] = <[length vs := Str (ts ++ us)]> (its ++ [Str ts])) as -> by by rewrite insert_app_r_alt, Hl2, Nat.sub_diag by lia.
  eapply set_node; try done; [by apply list_lookup_middle|]. rewrite insert_app_r_alt, Hl2, Nat.sub_diag by lia. cbn [insert list_insert].
  destruct (oi_sent _ _ _ _ _ _ H) as [?|[?|(? & bs & r & E & ?)]]; [by left|by right; left|right; right]. split; [done|].
  destruct its as [|i its]; injection E as -> E; [exists (bs ++ us), []; split; [done|rewrite length_app; lia]|].
  exists bs, (its ++ [Str (ts ++ us)]). by split.
Qed.

Lemma stream_last e c w ps n vs p its ts us b c' : out_inv e c w (ps ++ [n]) (vs ++ [p]) (its ++ [Str ts]) ->
  c' = set_reply_bytes c b -> stream c' (ps ++ [n]) (its ++ [Str (ts ++ us)]) = stream c (ps ++ [n]) (its ++ [Str ts]) ++ bytes us.
Proof.
  intros H ->. pose proof (snoc_lengths _ _ _ _ _ _ _ _ _ H) as (Hl1 & Hl2 & _).
  eapply stream_app; [exact H|done|]. cbn [set_reply_bytes bufpos buf]. rewrite !items_app, !items_one by lia. cbn [item_out].
  rewrite bytes_app, <-!app_assoc. done.
Qed.

(** What a function that adds [bs] achieves. *)
Definition adds e c w ps vs its bs c' w' : Prop :=
  exists ps' vs' its', out_inv e c' w' ps' vs' its' /\ stream c' ps' its' = stream c ps its ++ bytes bs /\
    Z.of_nat (length ps') <= Z.of_nat (length ps) + 1 /\ steady c w c' w' /\ keeps e (objs w) (objs w') /\ reply_bytes c' <= reply_bytes c + grow.

Lemma glue_spec e c w ps vs its from bs : out_inv e c w ps vs its -> (0 < length ps)%nat -> Z.of_nat (length bs) < 2 ^ 31 ->
  (forall o, from = Some o -> 0 < e o) -> reply_bytes c < 2 ^ 63 ->
  exists r, glue_tail junk zmalloc_size c w from bs = Some r /\
    match r with Some (c', w') => adds e c w ps vs its bs c' w' | None => True end.
Proof.
  intros H Hps Hlen Hfrom Hb. pose proof (inv_lengths _ _ _ _ _ _ H) as (Hl1 & Hl2 & _).
  destruct ps as [|n ps _] using rev_ind; [cbn in Hps; lia|]. destruct vs as [|tl vs _] using rev_ind; [rewrite length_app in Hl1; cbn in Hl1; lia|].
  destruct its as [|it its _] using rev_ind; [rewrite length_app in Hl2; cbn in Hl2; lia|]. clear Hl1 Hl2 Hps.
  pose proof (snoc_lengths _ _ _ _ _ _ _ _ _ H) as (Hl1 & Hl2 & _). pose proof (oi_list _ _ _ _ _ _ H) as [Hr Hf Hfr Hc He Hno].
  unfold glue_tail. rewrite (rep_tail _ _ _ _ _ Hr).
  rewrite (node_value_spec _ _ _ _ (length vs) n tl Hr) by (apply list_lookup_middle; lia). cbn [option_bind mbind]. unfold load_obj.
  apply Forall2_app_inv in Hno as [Hno Hlast]; [|lia]. inversion Hlast as [|? ? ? ? (x & Hx & Hi) _]; subst. rewrite Hx. cbn [option_bind mbind].
  destruct it as [ts|]; [|cbn in Hi; subst x; by exists None]. pose proof Hi as (Henc & s & Hp & Hs). unfold ptr_null, ptr_sds. rewrite Hp. cbn [option_bind mbind].
  rewrite (rep_len_eq _ _ Hs). pose proof (rep_bound _ _ Hs). pose proof (rep_free _ _ Hs). rewrite (u64_small (_ + Z.of_nat (length bs))) by lia. unfold REDIS_REPLY_CHUNK_BYTES.
  destruct (Z.leb_spec (Z.of_nat (length ts) + Z.of_nat (length bs)) (16 * 1024)) as [Hfit|]; [|by exists None]. cbv zeta.
  destruct (dup_spec _ _ _ _ _ _ _ _ _ H ltac:(unfold sds_limit; lia) (set_reply_bytes c (u64 (reply_bytes c - zmalloc_size_sds zmalloc_size s))) eq_refl)
    as (tl' & w1 & x' & Ed & Hd & Hown & (Henc' & s' & Hp' & Hs') & Hk1 & Hst1).
  rewrite Ed. cbn [option_bind mbind]. pose proof Hown as (Hx' & Hrc' & Hocc).
  rewrite bool_decide_eq_false_2.
  2:{ intros E. pose proof (Hfrom _ E). rewrite occ_app, occ_one, decide_True in Hocc by done. pose proof (occ_nonneg tl' vs). lia. }
  unfold sds_at, load_obj. rewrite Hx'. cbn [option_bind mbind]. unfold ptr_sds. rewrite Hp'. cbn [option_bind mbind].
  destruct (catlen_spec junk s' ts bs Hs') as (s2 & -> & Hs2); [unfold sds_limit; lia|]. cbn [option_bind mbind].
  pose proof (size_bound _ _ Hs) as Hsz. pose proof (size_bound _ _ Hs2) as Hsz2. unfold grow in Hsz, Hsz2.
  rewrite (wt_str _ _ _ _ Hx Hp) in Hd. pose proof (oi_bytes _ _ _ _ _ _ H) as Hby. rewrite mem_total_app, total_cons, (wt_str _ _ _ _ Hx Hp) in Hby. change (total (objs w) []) with 0 in Hby.
  pose proof (mem_total_nonneg _ _ _ Hno). cbn [set_reply_bytes reply_bytes]. rewrite (u64_small (reply_bytes c - _)) by lia. rewrite u64_small by lia.
  destruct (set_last _ _ _ _ _ _ _ _ _ _ s2 bs (reply_bytes c - zmalloc_size_sds zmalloc_size s + zmalloc_size_sds zmalloc_size s2) Hd Hown Henc' Hs2) as (-> & Hd2 & Hk2).
  { cbn [set_reply_bytes reply_bytes]. lia. }
  cbn [option_bind mbind]. eexists (Some (_, _)). split; [reflexivity|].
  eexists _, _, _. split; [exact Hd2|]. split; [by eapply stream_last|]. split; [lia|]. split; [|split; [by eapply keeps_trans|cbn; unfold grow; lia]].
  eapply steady_trans; [exact Hst1|by constructor].
Qed.
End Buffers.
