(* ===== verification/ReplyQueue.v ===== *)
(** ReplyQueue: every function of the reply interface appends its text to the
    output, and keeps the objects held elsewhere as they are. *)
From Stdlib Require Strings.String.
From S2P Require Import Prelude Util UtilNum UtilSpec Sds SdsProofs SdsMore Adlist AdlistProofs AdlistSpec Objects ObjectsSpec Reply ReplyProofs.
Import (notations) Corelib.Init.Byte.
Import (notations) Strings.String.

(** The references from outside are not too many. *)
Definition held (e : loc -> Z) : Prop := forall p, 0 <= e p < 2 ^ 30.

Definition content_of (x : robj) (bs : list byte) : Prop :=
  (encoding x = REDIS_ENCODING_RAW /\ exists s, ptr x = PSds s /\ sds_rep s bs) \/
  (encoding x = REDIS_ENCODING_INT /\ exists v, ptr x = PLong v /\ bs = print_int v /\ - 2 ^ 63 < v < 2 ^ 63).

(** The store has an object with this content, held from outside. *)
Definition obj_holds (e : loc -> Z) (o : loc) (bs : list byte) (os : gmap loc robj) : Prop :=
  0 < e o /\ exists x, os !! o = Some x /\ content_of x bs.

(** A fact about the objects held from outside. *)
Definition stable (e : loc -> Z) (P : gmap loc robj -> Prop) : Prop := forall os os', P os -> keeps e os os' -> P os'.

Lemma content_same x y bs : same_object x y -> content_of x bs -> content_of y bs.
Proof. intros (_ & He & Hp). unfold content_of. by rewrite He, Hp. Qed.
Lemma stable_obj e o bs : stable e (obj_holds e o bs).
Proof.
  intros os os' (Ho & x & Hx & Hc) Hk. split; [done|]. destruct (Hk o x Ho Hx) as (y & Hy & Hs). exists y. split; [done|]. by eapply content_same.
Qed.
Lemma stable_true e : stable e (fun _ => True). Proof. done. Qed.
Lemma stable_and e P Q : stable e P -> stable e Q -> stable e (fun os => P os /\ Q os).
Proof. intros HP HQ os os' [H1 H2] Hk. split; [by eapply HP|by eapply HQ]. Qed.
#[export] Hint Resolve stable_obj stable_true stable_and : reply.

Section Queue.
Context (junk : nat -> byte) (zmalloc_size : Z -> Z) (Hz : allocator zmalloc_size).
Implicit Types (e : loc -> Z) (bs cs : list byte) (P : gmap loc robj -> Prop).
#[local] Abbreviation out_inv := (out_inv zmalloc_size).
#[local] Abbreviation holds := (holds zmalloc_size).
#[local] Abbreviation adds := (adds zmalloc_size).

(** ** The list *)

Lemma adds_refl e c w ps vs its : out_inv e c w ps vs its -> adds e c w ps vs its [] c w.
Proof. intros H. exists ps, vs, its. rewrite app_nil_r. split_and!; auto with reply; [lia|unfold grow; lia]. Qed.

(** [make] puts a reference to an object with [bs] in our charge. *)
Definition makes e c w ps vs its bs (make : server -> option (loc * server)) : Prop :=
  exists o os, make w = Some (o, set_objs w os) /\ out_inv (give e o) c (set_objs w os) ps vs its /\ node_ok os o (Str bs) /\ keeps e (objs w) os.

Lemma add_to_list_spec e c w ps vs its from bs make : out_inv e c w ps vs its -> held e -> ready c ->
  Z.of_nat (length ps) < 2 ^ 30 -> reply_bytes c + grow < 2 ^ 63 -> Z.of_nat (length bs) < 2 ^ 31 ->
  (forall o, from = Some o -> 0 < e o) -> makes e c w ps vs its bs make ->
  exists c' w', add_to_list junk zmalloc_size c w from bs make = Some (c', w') /\ adds e c w ps vs its (if dropping c then [] else bs) c' w'.
Proof.
  intros H Hheld Hready Hps Hb Hbs Hfrom (o & os & Em & Hm & Hn & Hk). unfold add_to_list. rewrite dropping_test. unfold grow in Hb.
  destruct (dropping c); [exists c, w; split; [done|by apply adds_refl]|].
  assert (exists r, (if listLength (reply c) =? 0 then Some None else glue_tail junk zmalloc_size c w from bs) = Some r /\
    match r with Some (c', w') => adds e c w ps vs its bs c' w' | None => True end) as (r & -> & Hr).
  { pose proof (inv_lengths _ _ _ _ _ _ _ H) as (_ & _ & ->). destruct (Z.eqb_spec (Z.of_nat (length ps)) 0) as [E|E]; [by exists None|].
    apply (glue_spec _ _ Hz); try done; lia. }
  cbn [option_bind mbind].
  assert (exists c1 w1, (match r with Some cw => Some cw | None => '(o, w) ← make w; append_obj zmalloc_size c w o end) = Some (c1, w1) /\
    adds e c w ps vs its bs c1 w1) as (c1 & w1 & -> & ps1 & vs1 & its1 & H1 & Hs & Hl & Hst & Hk1 & Hb1).
  { destruct r as [[c1 w1]|]; [by exists c1, w1|]. rewrite Em. cbn [option_bind mbind].
    destruct (append_obj_spec _ Hz e c (set_objs w os) ps vs its o bs Hm) as (n & l & h & -> & H1 & Hs); [intros p; apply Hheld|done|lia|done|lia|].
    eexists _, _. split; [reflexivity|]. eexists _, _, _. split; [exact H1|]. split; [exact Hs|]. rewrite length_app. cbn [length].
    split; [lia|]. split; [by constructor|]. split; [done|]. pose proof (wt_bound _ Hz _ _ _ Hn). cbn. lia. }
  cbn [option_bind mbind]. destruct (async_spec _ e c1 w1 ps1 vs1 its1 H1) as (c2 & w2 & -> & H2 & Hst2 & Ho2 & Hs2 & Hb2); [unfold grow in Hb1; lia|].
  eexists _, _. split; [done|]. exists ps1, vs1, its1. split; [done|]. rewrite Hs2, Hb2, Ho2. split; [done|]. split; [done|].
  split; [by eapply steady_trans|done].
Qed.

Lemma sds_node_ok os p s bs (r : Z) : sds_rep s bs -> os !! p = Some (Robj REDIS_STRING REDIS_ENCODING_RAW (PSds s) r) -> node_ok os p (Str bs).
Proof. intros Hs Hp. eexists. split; [exact Hp|]. split; [done|]. by exists s. Qed.

Lemma makes_new e c w ps vs its s bs : out_inv e c w ps vs its -> sds_rep s bs ->
  makes e c w ps vs its bs (fun w => Some (new_obj w (createObject REDIS_STRING (PSds s)))).
Proof.
  intros H Hs. destruct (new_spec _ e c w ps vs its (createObject REDIS_STRING (PSds s)) H eq_refl eq_refl) as (E & Hf & He & Hv & Hi).
  eexists _, _. rewrite E. split; [done|]. split; [done|]. split; [eapply sds_node_ok; [exact Hs|apply lookup_insert_eq]|].
  apply keeps_frame. intros q Hq. rewrite lookup_insert_ne; [done|]. intros <-. lia.
Qed.

Lemma makes_string e c w ps vs its bs : out_inv e c w ps vs its -> Z.of_nat (length bs) < sds_limit ->
  makes e c w ps vs its bs (fun w => new_string junk w bs (Z.of_nat (length bs))).
Proof.
  intros H Hl. unfold new_string, createStringObject. destruct (newlen_spec junk bs [] Hl) as (s & E & Hs & _). rewrite app_nil_r in E.
  destruct (makes_new e c w ps vs its s bs H Hs) as (o & os & Em & Hm). exists o, os. split; [|done]. rewrite E. exact Em.
Qed.

Lemma raw_node os o x bs : os !! o = Some x -> encoding x = REDIS_ENCODING_RAW -> content_of x bs -> node_ok os o (Str bs) /\ x <> null_obj /\ exists s, ptr x = PSds s /\ sds_rep s bs.
Proof.
  intros Hx He [(_ & s & Hp & Hs)|(He' & _)]; [|rewrite He in He'; done]. split; [by exists x; split; [|split; [|exists s]]|].
  split; [intros ->; done|by exists s].
Qed.

Lemma makes_incr e c w ps vs its o x bs : out_inv e c w ps vs its -> held e -> 0 < e o -> Z.of_nat (length ps) < 2 ^ 30 -> objs w !! o = Some x ->
  encoding x = REDIS_ENCODING_RAW -> content_of x bs -> makes e c w ps vs its bs (fun w => w ← incr w o; Some (o, w)).
Proof.
  intros H Hh He Hl Hx Henc Hc. pose proof (inv_lengths _ _ _ _ _ _ _ H) as (Hl1 & _). pose proof (occ_length o vs). pose proof (Hh o).
  destruct (raw_node _ _ _ _ Hx Henc Hc) as (_ & Hnn & s & Hp & Hs).
  destruct (incr_obj_spec _ e c w ps vs its o x H Hx) as (y & E & Hsame & Hi); [lia|by left|]. exists o, (<[o:=y]> (objs w)). rewrite E. cbn [option_bind mbind].
  split; [done|]. split; [exact Hi|]. destruct Hsame as (Ht' & He' & Hp'). split.
  - exists y. rewrite lookup_insert_eq. split; [done|]. split; [congruence|]. exists s. split; congruence.
  - intros q z Hq Hz'. destruct (decide (q = o)) as [->|Hne].
    + exists y. rewrite lookup_insert_eq. split; [done|]. assert (z = x) as -> by congruence. done.
    + exists z. by rewrite lookup_insert_ne.
Qed.

(** ** Replies *)

(** [f] adds [bs] to the output in any state where [P] holds of the objects:
    at most [k] nodes are new. Nothing is added for a client that takes
    nothing. *)
Definition replies e P (f : outClient -> server -> option (outClient * server)) (k : Z) bs : Prop :=
  forall c w q N B, holds e c w q N B -> P (objs w) -> N + k < 2 ^ 30 -> B + k * grow < 2 ^ 63 ->
  exists c' w', f c w = Some (c', w') /\ holds e c' w' (q ++ (if takes c then bytes bs else [])) (N + k) (B + k * grow) /\
    steady c w c' w' /\ keeps e (objs w) (objs w').

Lemma replies_seq e P f g k j bs cs : stable e P -> 0 <= k -> 0 <= j -> replies e P f k bs -> replies e P g j cs ->
  replies e P (fun c w => '(c, w) ← f c w; g c w) (k + j) (bs ++ cs).
Proof.
  intros HP Hk Hj Hf Hg c w q N B H Hp HN HB. assert (0 < grow) by done.
  destruct (Hf c w q N B H Hp) as (c1 & w1 & -> & H1 & Hst1 & Hk1); [lia|nia|]. cbn [option_bind mbind].
  destruct (Hg c1 w1 _ _ _ H1) as (c2 & w2 & -> & H2 & Hst2 & Hk2); [by eapply HP|lia|lia|].
  exists c2, w2. split; [done|]. destruct (steady_takes _ _ _ _ Hst1) as (Ht & _). rewrite Ht in H2.
  split; [|split; [by eapply steady_trans|by eapply keeps_trans]].
  replace (N + (k + j)) with (N + k + j) by lia. replace (B + (k + j) * grow) with (B + k * grow + j * grow) by lia.
  destruct (takes c); [by rewrite bytes_app, app_assoc|by rewrite !app_nil_r in *].
Qed.

Lemma replies_ext e P f g k bs : (forall c w, f c w = g c w) -> replies e P f k bs -> replies e P g k bs.
Proof. intros E H c w q N B Hh Hp HN HB. rewrite <-E. by apply H. Qed.

Lemma replies_weaken e (P Q : gmap loc robj -> Prop) f k bs : (forall os, Q os -> P os) -> replies e P f k bs -> replies e Q f k bs.
Proof. intros HPQ H c w q N B Hh Hp. apply H; [done|]. by apply HPQ. Qed.

(** The step every reply is made of. *)
Lemma queue_spec e c w ps vs its bs to_list : out_inv e c w ps vs its -> held e -> ready c -> lua c || (0 <? fd c) = true ->
  Z.of_nat (length ps) < 2 ^ 30 -> reply_bytes c + grow < 2 ^ 63 -> Z.of_nat (length bs) < 2 ^ 31 ->
  (dropping c = false -> exists from make, (forall o, from = Some o -> 0 < e o) /\ makes e c w ps vs its bs make /\
     to_list c w = add_to_list junk zmalloc_size c w from bs make) ->
  exists c' w', buffer_or_list c w bs to_list = Some (c', w') /\ adds e c w ps vs its (if takes c then bs else []) c' w'.
Proof.
  intros H Hh Hr Ht Hps Hb Hbs Hlist. unfold buffer_or_list, takes. rewrite Ht. cbn [andb].
  destruct (buffer_spec _ e c w ps vs its bs H Hr Hbs) as (ok & c1 & -> & Hc). cbn [option_bind mbind].
  destruct (dropping c) eqn:Hd; cbn [negb].
  - destruct Hc as [-> ->]. exists c, w. split; [done|by apply adds_refl].
  - destruct ok.
    + destruct Hc as (H1 & Hst & Hs & Hby). exists c1, w. split; [done|]. exists ps, vs, its. split_and!; auto with reply; try lia. unfold grow. lia.
    + subst c1. destruct (Hlist eq_refl) as (from & make & Hf & Hm & ->).
      destruct (add_to_list_spec e c w ps vs its from bs make H Hh Hr Hps Hb Hbs Hf Hm) as (c' & w' & -> & Ha). rewrite Hd in Ha. by exists c', w'.
Qed.

Lemma holds_adds e c w ps vs its q N B bs c' w' : q = stream c ps its -> Z.of_nat (length ps) <= N -> reply_bytes c <= B ->
  adds e c w ps vs its bs c' w' -> holds e c' w' (q ++ bytes bs) (N + 1) (B + grow) /\ steady c w c' w' /\ keeps e (objs w) (objs w').
Proof.
  intros -> HN HB (ps' & vs' & its' & H & Hs & Hl & Hst & Hk & Hb). split; [|done]. exists ps', vs', its'. split; [done|]. split; [done|]. lia.
Qed.

(** [prepareClientToWrite], then the step. *)
Lemma reply_spec e P f bs : held e ->
  (forall c w, P (objs w) -> exists step,
     (forall c w, f c w = let '(ok, c) := prepareClientToWrite c w in if negb ok then Some (c, w) else step c w) /\
     forall ps vs its, out_inv e c w ps vs its -> ready c -> lua c || (0 <? fd c) = true ->
       Z.of_nat (length ps) < 2 ^ 30 -> reply_bytes c + grow < 2 ^ 63 ->
       exists c' w', step c w = Some (c', w') /\ adds e c w ps vs its (if takes c then bs else []) c' w') ->
  replies e P f 1 bs.
Proof.
  intros Hh Hstep c w q N B (ps & vs & its & H & Hq & HN & HB) HP HN' HB'. rewrite Z.mul_1_l in *.
  destruct (prepare_spec _ e c w ps vs its H) as (c1 & E & H1 & Hst & Hs & Hby & Hready).
  destruct (Hstep c1 w HP) as (step & Ef & Hst2). rewrite Ef, E. destruct (lua c || (0 <? fd c)) eqn:Ht; cbn [negb].
  - assert (takes c1 = takes c) as Htk by by destruct (steady_takes _ _ _ _ Hst).
    destruct (Hst2 ps vs its H1) as (c2 & w2 & -> & Ha); [by apply Hready|destruct (steady_takes _ _ _ _ Hst) as (_ & _ & -> & _); by rewrite (st_fd _ _ _ _ Hst)|lia|lia|].
    exists c2, w2. split; [done|]. rewrite Htk in Ha. destruct (holds_adds e c1 w ps vs its q N B (if takes c then bs else []) c2 w2) as (Hh2 & Hst3 & Hk); [by rewrite Hs|done|lia|exact Ha|].
    split; [by destruct (takes c)|]. split; [by eapply steady_trans|done].
  - exists c1, w. split; [done|]. unfold takes. rewrite Ht. cbn [andb]. rewrite app_nil_r. split; [|auto with reply].
    exists ps, vs, its. split; [done|]. split; [by rewrite Hs|]. split; [lia|]. unfold grow. lia.
Qed.

Lemma addReplyString_spec e P bs : held e -> Z.of_nat (length bs) < sds_limit ->
  replies e P (fun c w => addReplyString junk zmalloc_size c w bs) 1 bs.
Proof.
  intros Hh Hl. apply reply_spec; [done|]. intros c w _. eexists. split; [intros; reflexivity|]. intros ps vs its H Hr Ht Hps Hb. unfold sds_limit in Hl.
  apply (queue_spec _ _ _ _ _ _ _ _ H Hh Hr Ht Hps Hb); [lia|]. intros _. eexists None, _. split; [done|]. split; [by apply makes_string|done].
Qed.

Lemma addReplySds_spec e P s bs : held e -> sds_rep s bs -> replies e P (fun c w => addReplySds junk zmalloc_size c w s) 1 bs.
Proof.
  intros Hh Hs. pose proof (rep_bound _ _ Hs). pose proof (rep_free _ _ Hs). apply reply_spec; [done|]. intros c w _. eexists.
  split; [intros; reflexivity|]. intros ps vs its H' Hr Ht Hps Hb. cbv beta. unfold sds_bytes. rewrite (rep_read _ _ Hs). cbn [option_bind mbind].
  apply (queue_spec _ _ _ _ _ _ _ _ H' Hh Hr Ht Hps Hb); [lia|]. intros _. exists None, (fun w => Some (new_obj w (createObject REDIS_STRING (PSds s)))).
  split; [done|]. split; [by apply makes_new|]. unfold _addReplySdsToList, sds_bytes. by rewrite (rep_read _ _ Hs).
Qed.

(** An object that is held, of either encoding. *)
Lemma obj_bytes_raw w o x bs : objs w !! o = Some x -> encoding x = REDIS_ENCODING_RAW -> content_of x bs ->
  obj_bytes w o = Some bs /\ Z.of_nat (length bs) < 2 ^ 31.
Proof.
  intros Hx He Hc. destruct (raw_node _ _ _ _ Hx He Hc) as (_ & _ & s & Hp & Hs). unfold obj_bytes, sds_at, load_obj.
  rewrite Hx. cbn [option_bind mbind]. unfold ptr_sds. rewrite Hp. cbn [option_bind mbind]. split; [by apply rep_read|].
  pose proof (rep_bound _ _ Hs). pose proof (rep_free _ _ Hs). lia.
Qed.

Lemma object_to_list e c w ps vs its o x bs : out_inv e c w ps vs its -> held e -> 0 < e o -> Z.of_nat (length ps) < 2 ^ 30 ->
  objs w !! o = Some x -> encoding x = REDIS_ENCODING_RAW -> content_of x bs ->
  exists from make, (forall o, from = Some o -> 0 < e o) /\ makes e c w ps vs its bs make /\
    _addReplyObjectToList junk zmalloc_size c w o = add_to_list junk zmalloc_size c w from bs make.
Proof.
  intros H Hh Ho Hl Hx He Hc. eexists (Some o), _. split; [by intros ? [= <-]|]. split; [by eapply makes_incr|].
  unfold _addReplyObjectToList. by rewrite (proj1 (obj_bytes_raw _ _ _ _ Hx He Hc)).
Qed.

(** An integer in the decoded form: an object of our own, dropped at the end. *)
Lemma decoded_spec e c w ps vs its v : out_inv e c w ps vs its -> held e -> ready c -> lua c || (0 <? fd c) = true ->
  Z.of_nat (length ps) < 2 ^ 30 -> reply_bytes c + grow < 2 ^ 63 -> - 2 ^ 63 < v < 2 ^ 63 ->
  forall x, type x = REDIS_STRING -> encoding x = REDIS_ENCODING_INT -> ptr x = PLong v ->
  exists c' w', (x ← getDecodedObject junk x;
        let '(o, w) := new_obj w x in
        bs ← obj_bytes w o;
        '(c, w) ← buffer_or_list c w bs (fun c w => _addReplyObjectToList junk zmalloc_size c w o);
        w ← decr w o;
        Some (c, w)) = Some (c', w') /\ adds e c w ps vs its (if takes c then print_int v else []) c' w'.
Proof.
  intros H Hh Hr Ht Hps Hb Hv x Hty Henc Hp. pose proof (length_print_int v ltac:(unfold int64; lia)) as Hlen.
  unfold getDecodedObject, ptr_long. rewrite Hty, Henc, Hp. change (REDIS_ENCODING_INT =? REDIS_ENCODING_RAW) with false.
  change ((REDIS_STRING =? REDIS_STRING) && (REDIS_ENCODING_INT =? REDIS_ENCODING_INT)) with true. cbv iota. cbn [option_bind mbind].
  rewrite (ll2string_fits junk 32 v Hv) by lia. cbn [option_bind mbind]. 
  assert (strlen (print_int v ++ [z2b 0]) = Z.of_nat (length (print_int v))) as ->
    by (unfold strlen; by rewrite (cstr_no_nul _ [] (no_nul_print_int v ltac:(unfold int64; lia)))).
  unfold createStringObject. destruct (newlen_spec junk (print_int v) [z2b 0]) as (s & -> & Hs & _); [unfold sds_limit; lia|]. cbn [option_bind mbind].
  set (d := createObject REDIS_STRING (PSds s)). destruct (new_spec _ e c w ps vs its d H eq_refl eq_refl) as (-> & Hf & He0 & Hv0 & H1).
  set (o := fresh (dom (objs w))) in *. set (w1 := store_obj w o d) in *.
  assert (objs w1 !! o = Some d) as Hod by apply lookup_insert_eq.
  assert (content_of d (print_int v)) as Hcd by (left; split; [done|by exists s]).
  destruct (obj_bytes_raw w1 o d _ Hod eq_refl Hcd) as (-> & Hbl). cbn [option_bind mbind].
  assert (held (give e o)) as Hh'. { intros q. rewrite give_ext, occ_one. pose proof (Hh q). destruct (decide (q = o)) as [->|]; lia. }
  destruct (queue_spec (give e o) c w1 ps vs its (print_int v) (fun c w => _addReplyObjectToList junk zmalloc_size c w o) H1 Hh' Hr Ht Hps Hb Hbl)
    as (c2 & w2 & -> & ps2 & vs2 & its2 & H2 & Hs2 & Hl2 & Hst2 & Hk2 & Hb2).
  { intros _. eapply object_to_list; try done. rewrite give_here, He0. lia. }
  cbn [option_bind mbind]. destruct (decr_spec _ e c2 w2 ps2 vs2 its2 o H2) as (os' & -> & Hk3 & H3); [intros q; apply Hh|]. specialize (H3 c2 H2).
  cbn [option_bind mbind]. eexists _, _. split; [reflexivity|]. exists ps2, vs2, its2. split; [done|]. split; [done|]. split; [done|].
  split; [eapply steady_trans; [|by constructor]; destruct Hst2; by constructor|]. split; [|done].
  apply (keeps_trans _ _ (objs w2)); [|exact Hk3]. apply keeps_give in Hk2. eapply keeps_trans; [|exact Hk2].
  apply keeps_frame. intros q Hq. apply lookup_insert_ne. intros <-. lia.
Qed.

Lemma addReply_spec e o bs : held e -> replies e (obj_holds e o bs) (fun c w => addReply junk zmalloc_size c w o) 1 bs.
Proof.
  intros Hh. apply reply_spec; [done|]. intros c w (Ho & x & Hx & Hc). eexists. split; [intros; reflexivity|].
  intros ps vs its H Hr Ht Hps Hb. cbv beta. unfold load_obj. rewrite Hx. cbn [option_bind mbind].
  destruct Hc as [(Henc & s & Hp & Hs)|(Henc & v & Hp & -> & Hv)].
  - rewrite Henc. change (REDIS_ENCODING_RAW =? REDIS_ENCODING_RAW) with true. cbv iota.
    assert (content_of x bs) as Hc by (left; split; [done|by exists s]). destruct (obj_bytes_raw _ _ _ _ Hx Henc Hc) as (-> & Hbl). cbn [option_bind mbind].
    apply (queue_spec _ _ _ _ _ _ _ _ H Hh Hr Ht Hps Hb Hbl). intros _. by eapply object_to_list.
  - rewrite Henc. change (REDIS_ENCODING_INT =? REDIS_ENCODING_RAW) with false. change (REDIS_ENCODING_INT =? REDIS_ENCODING_INT) with true. cbv iota.
    pose proof (length_print_int v ltac:(unfold int64; lia)) as Hlen.
    destruct (ct_count _ _ (lo_counts _ _ _ _ _ _ _ (oi_list _ _ _ _ _ _ _ H)) o x Hx) as (_ & _ & Hty).
    assert (exists (ok : bool) c1, (if (listLength (reply c) =? 0) && (32 <=? u64 (REDIS_REPLY_CHUNK_BYTES - bufpos c)) then
                v ← ptr_long x;
                '(b, len) ← ll2string junk 32 v;
                bs ← mem_read b 0 len;
                '(ok, c) ← _addReplyToBuffer c bs;
                Some (ok, c)
              else Some (false, c)) = Some (ok, c1) /\
       (if ok then adds e c w ps vs its (if takes c then print_int v else []) c1 w else c1 = c)) as (ok & c1 & -> & Hfast).
    { destruct (_ && _); [|by exists false, c]. unfold ptr_long. rewrite Hp. cbn [option_bind mbind].
      rewrite (ll2string_fits junk 32 v Hv) by lia. cbn [option_bind mbind].
      rewrite (mem_read_app [] (print_int v) [z2b 0]) by done. cbn [option_bind mbind].
      destruct (buffer_spec _ e c w ps vs its (print_int v) H Hr ltac:(lia)) as (ok & c1 & -> & Hc). cbn [option_bind mbind]. exists ok, c1. split; [done|].
      unfold takes. rewrite Ht. cbn [andb]. destruct (dropping c); cbn [negb].
      - destruct Hc as [-> ->]. by apply adds_refl.
      - destruct ok; [|done]. destruct Hc as (H1 & Hst & Hs & Hby). exists ps, vs, its. split_and!; auto with reply; try lia. unfold grow. lia. }
    cbn [option_bind mbind]. destruct ok; [by exists c1, w|]. subst c1. by apply decoded_spec.
Qed.

(** ** The reply protocol *)

Definition crlf_bytes : list byte := [z2b 13; z2b 10].
Definition num_line (mark : byte) (v : Z) : list byte := mark :: print_int v ++ crlf_bytes.
Definition bulk (bs : list byte) : list byte := num_line "$" (Z.of_nat (length bs)) ++ bs ++ crlf_bytes.
Definition error_line (msg : list byte) : list byte := text "-ERR " ++ msg ++ crlf_bytes.
Definition status_line (msg : list byte) : list byte := text "+" ++ msg ++ crlf_bytes.
(** Line ends become spaces. *)
Definition one_line (msg : list byte) : list byte :=
  (fun b => if bool_decide (b = z2b 13 \/ b = z2b 10) then z2b 32 else b) <$> msg.

(** The lines of the shared objects. *)
Definition shared_texts : list ((sharedObjects -> loc) * list byte) :=
  [(crlf, crlf_bytes);
   (ok, text "+OK" ++ crlf_bytes);
   (czero, num_line ":" 0);
   (cone, num_line ":" 1);
   (nullbulk, num_line "$" (-1));
   (nullmultibulk, num_line "*" (-1));
   (queued, text "+QUEUED" ++ crlf_bytes);
   (nokeyerr, text "-ERR no such key" ++ crlf_bytes);
   (sameobjecterr, text "-ERR source and destination objects are the same" ++ crlf_bytes);
   (outofrangeerr, text "-ERR index out of range" ++ crlf_bytes);
   (loadingerr, text "-LOADING Redis is loading the dataset in memory" ++ crlf_bytes);
   (slowscripterr, text "-BUSY Redis is busy running a script. You can only call SCRIPT KILL or SHUTDOWN NOSAVE." ++ crlf_bytes);
   (masterdownerr, text "-MASTERDOWN Link with MASTER is down and slave-serve-stale-data is set to 'no'." ++ crlf_bytes);
   (bgsaveerr, text "-MISCONF Redis is configured to save RDB snapshots, but is currently not able to persist on disk. Commands that may modify the data set are disabled. Please check Redis logs for details about the error." ++ crlf_bytes);
   (roslaveerr, text "-READONLY You can't write against a read only slave." ++ crlf_bytes);
   (oomerr, text "-OOM command not allowed when used memory > 'maxmemory'." ++ crlf_bytes);
   (execaborterr, text "-EXECABORT Transaction discarded because of previous errors." ++ crlf_bytes);
   (emptybulk, num_line "$" 0 ++ crlf_bytes);
   (wrongtypeerr, text "-ERR Operation against a key holding the wrong kind of value" ++ crlf_bytes);
   (syntaxerr, text "-ERR syntax error" ++ crlf_bytes);
   (colon, text ":");
   (messagebulk, bulk (text "message"));
   (pmessagebulk, bulk (text "pmessage"));
   (subscribebulk, bulk (text "subscribe"));
   (unsubscribebulk, bulk (text "unsubscribe"));
   (psubscribebulk, bulk (text "psubscribe"));
   (punsubscribebulk, bulk (text "punsubscribe"))].

(** What [createSharedObjects] sets up. *)
Record shared_replies e (sh : sharedObjects) (os : gmap loc robj) : Prop := {
  sr_texts : Forall (fun '(o, bs) => obj_holds e (o sh) bs os) shared_texts;
  sr_mbulkhdr : forall j, 0 <= j < REDIS_SHARED_BULKHDR_LEN -> exists o, mbulkhdr sh !! Z.to_nat j = Some o /\ obj_holds e o (num_line "*" j) os;
  sr_bulkhdr : forall j, 0 <= j < REDIS_SHARED_BULKHDR_LEN -> exists o, bulkhdr sh !! Z.to_nat j = Some o /\ obj_holds e o (num_line "$" j) os }.

Lemma shared_text k e sh os o bs : shared_replies e sh os -> shared_texts !! k = Some (o, bs) -> obj_holds e (o sh) bs os.
Proof. intros H Hk. exact (Forall_lookup_1 _ _ _ _ (sr_texts _ _ _ H) Hk). Qed.
Lemma sr_crlf e sh os : shared_replies e sh os -> obj_holds e (crlf sh) crlf_bytes os.
Proof. intros H. by apply (shared_text 0 e sh os crlf _ H). Qed.
Lemma sr_czero e sh os : shared_replies e sh os -> obj_holds e (czero sh) (num_line ":" 0) os.
Proof. intros H. by apply (shared_text 2 e sh os czero _ H). Qed.
Lemma sr_cone e sh os : shared_replies e sh os -> obj_holds e (cone sh) (num_line ":" 1) os.
Proof. intros H. by apply (shared_text 3 e sh os cone _ H). Qed.
Lemma sr_nullbulk e sh os : shared_replies e sh os -> obj_holds e (nullbulk sh) (num_line "$" (-1)) os.
Proof. intros H. by apply (shared_text 4 e sh os nullbulk _ H). Qed.

Lemma stable_shared e sh : stable e (shared_replies e sh).
Proof.
  intros os os' [Ht Hm Hb] Hk. constructor.
  - eapply Forall_impl; [exact Ht|]. intros [o bs] Ho. by eapply stable_obj.
  - intros j Hj. destruct (Hm j Hj) as (o & E & Ho). exists o. split; [done|by eapply stable_obj].
  - intros j Hj. destruct (Hb j Hj) as (o & E & Ho). exists o. split; [done|by eapply stable_obj].
Qed.
Hint Resolve stable_shared : reply.

Context (sh : sharedObjects).

Lemma prefix_test (m : byte) (b : bool) : (b2z m =? chr "*") && b = bool_decide (m = "*"%byte) && b.
Proof. f_equal. apply eq_true_iff_eq. rewrite Z.eqb_eq, bool_decide_eq_true. split; [|by intros ->]. intros E. by apply b2z_inj. Qed.
Lemma prefix_test' (m : byte) (b : bool) : (b2z m =? chr "$") && b = bool_decide (m = "$"%byte) && b.
Proof. f_equal. apply eq_true_iff_eq. rewrite Z.eqb_eq, bool_decide_eq_true. split; [|by intros ->]. intros E. by apply b2z_inj. Qed.

(** A header with a shared object when there is one; the index must not be
    negative. *)
Lemma prefix_spec e ll mark : held e -> - 2 ^ 63 < ll < 2 ^ 63 -> (mark = "*"%byte \/ mark = "$"%byte -> 0 <= ll) ->
  replies e (shared_replies e sh) (fun c w => addReplyLongLongWithPrefix junk zmalloc_size sh c w ll mark) 1 (num_line mark ll).
Proof.
  intros Hh Hll Hneg. assert (- 2 ^ 63 < ll < 2 ^ 63) as Hll' by done. pose proof (length_print_int ll ltac:(unfold int64; lia)) as Hlen.
  assert (forall P, replies e P (fun c w => '(b, len) ← ll2string junk 127 ll; bs ← mem_read b 0 len;
    addReplyString junk zmalloc_size c w ((mark :: bs) ++ [z2b 13; z2b 10])) 1 (num_line mark ll)) as Hlong.
  { intros P. eapply replies_ext; [|apply (addReplyString_spec e P (num_line mark ll) Hh)].
    - intros c w. rewrite (ll2string_fits junk 127 ll Hll) by lia. cbn [option_bind mbind].
      rewrite (mem_read_app [] (print_int ll) [z2b 0]) by done. done.
    - unfold num_line, crlf_bytes. cbn [length]. rewrite length_app. cbn [length]. unfold sds_limit. lia. }
  intros c w q N B Hc HP HN HB. unfold addReplyLongLongWithPrefix. rewrite prefix_test, prefix_test'.
  destruct (bool_decide_reflect (mark = "*"%byte)) as [->|]; cbn [andb].
  - destruct (Z.ltb_spec ll REDIS_SHARED_BULKHDR_LEN) as [Hs|Hs].
    + rewrite (proj2 (Z.ltb_ge ll 0)) by (apply Hneg; by left). destruct (sr_mbulkhdr _ _ _ HP ll) as (o & -> & Ho); [split; [apply Hneg; by left|done]|].
      cbn [option_bind mbind]. by apply (addReply_spec e o _ Hh c w q N B).
    + rewrite bool_decide_false by done. cbn [andb]. by apply (Hlong (fun _ => True)).
  - destruct (bool_decide_reflect (mark = "$"%byte)) as [->|]; cbn [andb]; [|by apply (Hlong (fun _ => True))].
    destruct (Z.ltb_spec ll REDIS_SHARED_BULKHDR_LEN) as [Hs|Hs]; [|by apply (Hlong (fun _ => True))].
    rewrite (proj2 (Z.ltb_ge ll 0)) by (apply Hneg; by right). destruct (sr_bulkhdr _ _ _ HP ll) as (o & -> & Ho); [split; [apply Hneg; by right|done]|].
    cbn [option_bind mbind]. by apply (addReply_spec e o _ Hh c w q N B).
Qed.

Lemma longlong_spec e ll : held e -> - 2 ^ 63 < ll < 2 ^ 63 ->
  replies e (shared_replies e sh) (fun c w => addReplyLongLong junk zmalloc_size sh c w ll) 1 (num_line ":" ll).
Proof.
  intros Hh Hll c w q N B Hc HP HN HB. unfold addReplyLongLong.
  destruct (Z.eqb_spec ll 0) as [->|]; [apply (addReply_spec e _ _ Hh c w q N B); try done; by apply sr_czero|].
  destruct (Z.eqb_spec ll 1) as [->|]; [apply (addReply_spec e _ _ Hh c w q N B); try done; by apply sr_cone|].
  apply (prefix_spec e ll ":" Hh Hll); try done. by intros [?|?].
Qed.

(** *** The length of an integer *)

Lemma count_digits_spec k : forall n len, 0 <= n < 10 ^ Z.of_nat k -> (0 < k)%nat ->
  count_digits k n len = Some (len + Z.of_nat (length (dec k n)) - 1).
Proof.
  induction k as [|k IH]; intros n len Hn Hk; [lia|]. cbn [count_digits dec]. rewrite Z.quot_div_nonneg by lia.
  destruct (Z.ltb_spec n 10) as [Hlt|Hge].
  - rewrite Z.div_small by lia. cbn [length]. change (0 =? 0) with true. cbv iota. f_equal. lia.
  - assert (1 <= n / 10) by (apply Z.div_le_lower_bound; lia). rewrite (proj2 (Z.eqb_neq _ 0)) by lia.
    rewrite Nat2Z.inj_succ, Z.pow_succ_r in Hn by lia.
    assert (n / 10 < 10 ^ Z.of_nat k) by (apply Z.div_lt_upper_bound; lia). destruct k; [cbn in *; lia|].
    rewrite IH by lia. rewrite length_app. cbn [length]. f_equal. lia.
Qed.

Lemma int_length v : - 2 ^ 63 < v < 2 ^ 63 ->
  ('(len, n) ← (if v <? 0 then n ← chk64 (- v); Some (2, n) else Some (1, v)); count_digits 20 n len) = Some (Z.of_nat (length (print_int v))).
Proof.
  intros Hv. unfold print_int. destruct (Z.ltb_spec v 0).
  - rewrite chk64_ok by lia. cbn [option_bind mbind]. rewrite count_digits_spec by lia. cbn [length]. unfold print_nat. f_equal. lia.
  - cbn [option_bind mbind]. rewrite count_digits_spec by lia. unfold print_nat. f_equal. lia.
Qed.

Lemma content_len_bound x bs : content_of x bs -> Z.of_nat (length bs) < 2 ^ 31.
Proof.
  intros [(_ & s & _ & Hs)|(_ & v & _ & -> & Hv)].
  - pose proof (rep_bound _ _ Hs). pose proof (rep_free _ _ Hs). lia.
  - pose proof (length_print_int v ltac:(unfold int64; lia)). lia.
Qed.

Lemma bulklen_spec e o bs : held e ->
  replies e (fun os => shared_replies e sh os /\ obj_holds e o bs os) (fun c w => addReplyBulkLen junk zmalloc_size sh c w o) 1 (num_line "$" (Z.of_nat (length bs))).
Proof.
  intros Hh c w q N B Hc [HP (Ho & x & Hx & Hcx)] HN HB. pose proof (content_len_bound _ _ Hcx) as Hb.
  unfold addReplyBulkLen, load_obj. rewrite Hx. cbn [option_bind mbind].
  assert ((if encoding x =? REDIS_ENCODING_RAW then s ← ptr_sds x; Some (sdslen s)
         else n ← ptr_long x; '(len, n) ← (if n <? 0 then n ← chk64 (- n); Some (2, n) else Some (1, n)); count_digits 20 n len) = Some (Z.of_nat (length bs))) as ->.
  { destruct Hcx as [(He & s & Hp & Hs)|(He & v & Hp & -> & Hv)]; rewrite He.
    - change (REDIS_ENCODING_RAW =? REDIS_ENCODING_RAW) with true. cbv iota. unfold ptr_sds. rewrite Hp. cbn [option_bind mbind]. by rewrite (rep_len_eq _ _ Hs).
    - change (REDIS_ENCODING_INT =? REDIS_ENCODING_RAW) with false. cbv iota. unfold ptr_long. rewrite Hp. cbn [option_bind mbind]. by apply int_length. }
  cbn [option_bind mbind]. rewrite s64_small by lia. apply (prefix_spec e _ "$" Hh); try done; lia.
Qed.

(** *** Replies made of several parts *)

Lemma replies_seq3 e P f g h bs cs ds : stable e P -> replies e P f 1 bs -> replies e P g 1 cs -> replies e P h 1 ds ->
  replies e P (fun c w => '(c, w) ← f c w; '(c, w) ← g c w; h c w) 3 (bs ++ cs ++ ds).
Proof. intros HP Hf Hg Hd. apply (replies_seq e P f _ 1 2); try done. by apply (replies_seq e P g h 1 1). Qed.

Lemma error_length_spec e P bs : stable e P -> held e -> Z.of_nat (length bs) < sds_limit ->
  replies e P (fun c w => addReplyErrorLength junk zmalloc_size c w bs) 3 (error_line bs).
Proof. intros HP Hh Hl. apply replies_seq3; [done|..]; by apply addReplyString_spec. Qed.

Lemma status_length_spec e P bs : stable e P -> held e -> Z.of_nat (length bs) < sds_limit ->
  replies e P (fun c w => addReplyStatusLength junk zmalloc_size c w bs) 3 (status_line bs).
Proof. intros HP Hh Hl. apply replies_seq3; [done|..]; by apply addReplyString_spec. Qed.

Lemma cstr_shorter (m : list byte) : (length (cstr m) <= length m)%nat.
Proof. induction m as [|b m IH]; cbn; [lia|]. case_match; cbn; lia. Qed.

Lemma error_spec e P err : stable e P -> held e -> Z.of_nat (length err) < sds_limit ->
  replies e P (fun c w => addReplyError junk zmalloc_size c w err) 3 (error_line (cstr err)).
Proof. intros HP Hh Hl. apply error_length_spec; [done|done|]. pose proof (cstr_shorter err). lia. Qed.

Lemma status_spec e P st : stable e P -> held e -> Z.of_nat (length st) < sds_limit ->
  replies e P (fun c w => addReplyStatus junk zmalloc_size c w st) 3 (status_line (cstr st)).
Proof. intros HP Hh Hl. apply status_length_spec; [done|done|]. pose proof (cstr_shorter st). lia. Qed.

(** The text of a format. *)
Lemma formatted msg : no_nul msg -> Z.of_nat (length msg) < sds_limit ->
  exists s s', sdsempty junk = Some s /\ sdscatvprintf junk s msg = Some s' /\ sds_rep s' msg.
Proof.
  intros Hn Hl. destruct (newlen_spec junk [] [z2b 0]) as (s & E & Hs & _); [done|]. exists s.
  destruct (catprintf_spec junk s [] msg Hs Hn Hl) as (s' & E' & Hs'). by exists s'.
Qed.

Lemma one_line_char b :
  z2b (if (char_val b =? 13) || (char_val b =? 10) then 32 else char_val b) = (if bool_decide (b = z2b 13 \/ b = z2b 10) then z2b 32 else b).
Proof. destruct b; reflexivity. Qed.

Lemma error_format_spec e P msg : stable e P -> held e -> no_nul msg -> Z.of_nat (length msg) < sds_limit ->
  replies e P (fun c w => addReplyErrorFormat junk zmalloc_size c w msg) 3 (error_line (one_line msg)).
Proof.
  intros HP Hh Hn Hl. destruct (formatted msg Hn Hl) as (s & s' & E & E' & Hs).
  destruct (map_chars_spec s' msg (fun x => if (x =? 13) || (x =? 10) then 32 else x) Hs) as (s2 & E2 & Hs2).
  assert ((fun b => z2b (if (char_val b =? 13) || (char_val b =? 10) then 32 else char_val b)) <$> msg = one_line msg) as Em.
  { apply list_fmap_ext. intros i b _. apply one_line_char. }
  cbv beta in Hs2. rewrite Em in Hs2. eapply replies_ext; [|apply (error_length_spec e P (one_line msg) HP Hh)].
  - intros c w. unfold addReplyErrorFormat. rewrite E. cbn [option_bind mbind]. rewrite E'. cbn [option_bind mbind]. rewrite E2. cbn [option_bind mbind].
    unfold sds_bytes. by rewrite (rep_read _ _ Hs2).
  - unfold one_line. by rewrite length_fmap.
Qed.

Lemma status_format_spec e P msg : stable e P -> held e -> no_nul msg -> Z.of_nat (length msg) < sds_limit ->
  replies e P (fun c w => addReplyStatusFormat junk zmalloc_size c w msg) 3 (status_line msg).
Proof.
  intros HP Hh Hn Hl. destruct (formatted msg Hn Hl) as (s & s' & E & E' & Hs).
  eapply replies_ext; [|by apply (status_length_spec e P msg HP Hh)].
  intros c w. unfold addReplyStatusFormat. rewrite E. cbn [option_bind mbind]. rewrite E'. cbn [option_bind mbind].
  unfold sds_bytes. by rewrite (rep_read _ _ Hs).
Qed.

Lemma addReplyBulk_spec e o bs : held e ->
  replies e (fun os => shared_replies e sh os /\ obj_holds e o bs os) (fun c w => addReplyBulk junk zmalloc_size sh c w o) 3 (bulk bs).
Proof.
  intros Hh. apply replies_seq3; [auto with reply|by apply bulklen_spec| |].
  - eapply replies_weaken; [|by apply addReply_spec]. by intros os [_ ?].
  - eapply replies_weaken; [|by apply addReply_spec]. intros os [H _]. by apply sr_crlf.
Qed.

Lemma cbuffer_spec e bs : held e -> Z.of_nat (length bs) < sds_limit ->
  replies e (shared_replies e sh) (fun c w => addReplyBulkCBuffer junk zmalloc_size sh c w bs) 3 (bulk bs).
Proof.
  intros Hh Hl. unfold sds_limit in Hl. apply replies_seq3; [auto with reply| |by apply addReplyString_spec|].
  - apply prefix_spec; [done|lia|lia].
  - eapply replies_weaken; [|by apply addReply_spec]. intros os H. by apply sr_crlf.
Qed.

Lemma cstring_spec e (str : option (list byte)) : held e -> (forall s, str = Some s -> Z.of_nat (length s) < sds_limit) ->
  replies e (shared_replies e sh) (fun c w => addReplyBulkCString junk zmalloc_size sh c w str) 3
    (match str with Some s => bulk (cstr s) | None => num_line "$" (-1) end).
Proof.
  intros Hh Hl. destruct str as [s|].
  - apply cbuffer_spec; [done|]. pose proof (cstr_shorter s). specialize (Hl s eq_refl). lia.
  - intros c w q N B Hc HP HN HB. assert (0 < grow) by done.
    destruct (addReply_spec e (nullbulk sh) (num_line "$" (-1)) Hh c w q N B Hc) as (c' & w' & E & (ps & vs & its & H1 & Hq & Hl1 & Hb1) & Hst); [by apply sr_nullbulk|lia|lia|].
    exists c', w'. split; [exact E|]. split; [|done]. exists ps, vs, its. split; [done|]. split; [done|]. lia.
Qed.

Lemma bulk_longlong_spec e ll : held e -> - 2 ^ 63 < ll < 2 ^ 63 ->
  replies e (shared_replies e sh) (fun c w => addReplyBulkLongLong junk zmalloc_size sh c w ll) 3 (bulk (print_int ll)).
Proof.
  intros Hh Hll. pose proof (length_print_int ll ltac:(unfold int64; lia)). eapply replies_ext; [|apply (cbuffer_spec e (print_int ll) Hh); unfold sds_limit; lia].
  intros c w. unfold addReplyBulkLongLong. rewrite (ll2string_fits junk 64 ll Hll) by lia. cbn [option_bind mbind].
  by rewrite (mem_read_app [] (print_int ll) [z2b 0]) by done.
Qed.
End Queue.
