(* ===== verification/ReplySend.v ===== *)
(** ReplySend: lengths filled in late, and the handler that writes the output
    to the socket. *)
From Stdlib Require Strings.String.
From S2P Require Import Prelude Util UtilNum UtilSpec Sds SdsProofs SdsMore SdsRepr Adlist AdlistProofs AdlistSpec Objects ObjectsSpec Reply ReplyProofs ReplyQueue.
Import (notations) Corelib.Init.Byte.
Import (notations) Strings.String.

Section Send.
Context (junk : nat -> byte) (zmalloc_size : Z -> Z) (Hz : allocator zmalloc_size).
Implicit Types (e : loc -> Z) (bs cs : list byte).
#[local] Abbreviation out_inv := (out_inv zmalloc_size).
#[local] Abbreviation holds := (holds zmalloc_size).

(** ** Deleting a node *)

Lemma rev_reverse {A} (l : list A) : rev l = reverse l.
Proof. induction l as [|x l IH]; [done|]. by rewrite reverse_cons, <-IH. Qed.

Lemma Forall2_delete {A B} (R : A -> B -> Prop) l k i : Forall2 R l k -> Forall2 R (delete i l) (delete i k).
Proof. intros H. rewrite !delete_take_drop. apply Forall2_app; [by apply Forall2_take|by apply Forall2_drop]. Qed.

Lemma delete_length_le {A} (l : list A) i : (length (delete i l) <= length l)%nat.
Proof. rewrite delete_take_drop, length_app, length_take, length_drop. lia. Qed.

(** The list without node [k], for a new count of bytes sent and accounted. *)
Lemma del_node_spec e c w ps vs its k n p : out_inv e c w ps vs its -> ps !! k = Some n -> vs !! k = Some p ->
  exists l h os, (forall c0, reply c0 = reply c -> del_node c0 w (Some n) = Some (set_reply c0 l, set_objs (set_cells w h) os)) /\ keeps e (objs w) os /\
    listLength l = Z.of_nat (length (delete k ps)) /\
    forall s b, sent_ok (bufpos c) s (delete k its) -> total zmalloc_size (objs w) vs - wt zmalloc_size (objs w) p <= b ->
      out_inv e (set_reply_bytes (set_sentlen (set_reply c l) s) b) (set_objs (set_cells w h) os) (delete k ps) (delete k vs) (delete k its).
Proof.
  intros H Hn Hp. pose proof (oi_list _ _ _ _ _ _ _ H) as [Hr Hf Hfr Hc He Hno]. pose proof (inv_lengths _ _ _ _ _ _ _ H) as (Hl1 & Hl2 & Hll).
  destruct (delNode_spec _ _ _ _ _ _ _ Hr Hn Hp) as (l & h & E & Hr' & _ & _ & Hfr' & (_ & Hm & _)). destruct Hf as [f Hf].
  rewrite Hf, Hfr in Hfr'. cbn in Hfr'.
  set (w1 := set_cells (set_cells w h) (Heap (nodes h) [])).
  assert (listLength l = Z.of_nat (length (delete k ps))) as Hll' by apply (lr_len _ _ _ _ Hr').
  assert (forall s b, sent_ok (bufpos c) s (delete k its) -> total zmalloc_size (objs w) vs - wt zmalloc_size (objs w) p <= b ->
    out_inv (give e p) (set_reply_bytes (set_sentlen (set_reply c l) s) b) w1 (delete k ps) (delete k vs) (delete k its)) as Hinv.
  { intros s b Hs Hb. destruct H as [_ Hbuf Hpos _ Hbytes Hlim Htim Hasap Hae Hh]. constructor; try done.
    - constructor.
      + destruct Hr' as [? ? ? ? ? ?]. by constructor.
      + cbn. rewrite Hm, Hf. by eexists.
      + done.
      + eapply counts_ext; [exact Hc|]. intros q. cbv beta. rewrite give_ext, (occ_delete _ _ _ _ Hp). lia.
      + by apply give_nonneg.
      + by apply Forall2_delete.
    - cbn. by rewrite (total_delete _ _ _ _ _ Hp).
    - cbn. intros Ho. apply Hh. pose proof (delete_length_le ps k). rewrite Hll' in Ho. rewrite Hll. lia. }
  destruct (decr_spec zmalloc_size e (set_reply_bytes (set_sentlen (set_reply c l) 0) (total zmalloc_size (objs w) vs - wt zmalloc_size (objs w) p)) w1 (delete k ps) (delete k vs) (delete k its) p)
    as (os & Ed & Hk & Hfin); [apply Hinv; [by left|done]|done|].
  exists l, (Heap (nodes h) []), os. split.
  { intros c0 Hc0. unfold del_node. cbn [option_bind mbind]. rewrite Hc0, E. cbn [option_bind mbind]. unfold run_frees. cbn [set_cells cells].
    rewrite Hfr'. cbn [rev app release_all]. fold w1. by rewrite Ed. }
  split; [exact Hk|]. split; [done|].
  intros s b Hs Hb. apply Hfin. by apply Hinv.
Qed.

(** ** Lengths filled in *)

(** [bs] in the place of the hole [p]. *)
Definition fill (p : Adlist.ptr) bs (q : list out) : list out :=
  concat ((fun o => match o with inr p' => if decide (p' = p) then bytes bs else [o] | inl _ => [o] end) <$> q).

Lemma fill_app p bs q q' : fill p bs (q ++ q') = fill p bs q ++ fill p bs q'.
Proof. unfold fill. by rewrite fmap_app, concat_app. Qed.
Lemma fill_bytes p bs cs : fill p bs (bytes cs) = bytes cs.
Proof. unfold fill. induction cs as [|b cs IH]; [done|]. cbn. f_equal. exact IH. Qed.

Lemma items_cons p ps it its : items (p :: ps) (it :: its) = item_out p it ++ items ps its. Proof. done. Qed.

Lemma fill_items_out p bs ps : forall its, p ∉ ps -> fill p bs (items ps its) = items ps its.
Proof.
  induction ps as [|n ps IH]; intros [|it its] Hp; try done. rewrite items_cons, fill_app, IH by (intros Hin; apply Hp; by right). f_equal.
  destruct it as [cs|]; [apply fill_bytes|]. unfold fill. cbn. rewrite decide_False; [done|]. intros ->. apply Hp. by left.
Qed.

Lemma fill_items p bs ps : forall its k, NoDup ps -> ps !! k = Some p -> its !! k = Some Hole -> fill p bs (items ps its) = items ps (<[k:=Str bs]> its).
Proof.
  induction ps as [|n ps IH]; intros [|it its] k Hnd Hp Hi; try done. apply NoDup_cons in Hnd as [Hn Hnd]. destruct k as [|k]; cbn in Hp, Hi.
  - injection Hp as ->. injection Hi as ->. cbn [insert list_insert]. change (<[0%nat:=Str bs]> (Hole :: its)) with (Str bs :: its).
    rewrite !items_cons, fill_app, fill_items_out by done. f_equal. unfold fill. cbn. rewrite decide_True by done. apply app_nil_r.
  - change (<[S k:=Str bs]> (it :: its)) with (it :: <[k:=Str bs]> its). rewrite !items_cons, fill_app, (IH _ _ Hnd Hp Hi). f_equal.
    destruct it as [cs|]; [apply fill_bytes|]. unfold fill. cbn. rewrite decide_False; [done|]. intros ->. apply Hn. by eapply list_elem_of_lookup_2.
Qed.

(** What was sent is bytes. *)
Lemma sent_prefix e c w ps vs its : out_inv e c w ps vs its ->
  exists cs, take (Z.to_nat (sentlen c)) (bytes (take (Z.to_nat (bufpos c)) (buf c)) ++ items ps its) = bytes cs /\ length cs = Z.to_nat (sentlen c).
Proof.
  intros H. destruct (sent_bound _ _ _ _ _ _ _ H) as [Hb Hs]. pose proof (inv_lengths _ _ _ _ _ _ _ H) as (Hl1 & Hl2 & _).
  assert (exists cs t, bytes (take (Z.to_nat (bufpos c)) (buf c)) ++ items ps its = bytes cs ++ t /\ (Z.to_nat (sentlen c) <= length cs)%nat) as (cs & t & E & Hl).
  { pose proof (oi_buf _ _ _ _ _ _ _ H). pose proof (oi_pos _ _ _ _ _ _ _ H). destruct (oi_sent _ _ _ _ _ _ _ H) as [->|[?|(E & bs & r & -> & ?)]].
    - eexists [], _. split; [reflexivity|cbn; lia].
    - eexists _, _. split; [reflexivity|]. rewrite length_take. lia.
    - rewrite E. cbn [Z.to_nat take]. destruct ps as [|n ps]; [cbn in *; lia|]. exists bs, (items ps r). split; [done|lia]. }
  exists (take (Z.to_nat (sentlen c)) cs). rewrite E, take_app_le by (by rewrite length_bytes). unfold bytes. rewrite fmap_take. split; [done|].
  rewrite length_take. lia.
Qed.

Lemma fill_stream e c w ps vs its p bs k c' its' : out_inv e c w ps vs its -> ps !! k = Some p -> its !! k = Some Hole ->
  sentlen c' = sentlen c -> bufpos c' = bufpos c -> buf c' = buf c -> its' = <[k:=Str bs]> its ->
  stream c' ps its' = fill p bs (stream c ps its).
Proof.
  intros H Hp Hi Hs Hbp Hbu ->. pose proof (lr_nodup _ _ _ _ (lo_rep _ _ _ _ _ _ _ (oi_list _ _ _ _ _ _ _ H))) as Hnd.
  unfold stream. rewrite Hs, Hbp, Hbu. set (x := bytes _ ++ items ps its). set (n := Z.to_nat (sentlen c)).
  assert (bytes (take (Z.to_nat (bufpos c)) (buf c)) ++ items ps (<[k:=Str bs]> its) = fill p bs x) as ->
    by (subst x; by rewrite fill_app, fill_bytes, (fill_items _ _ _ _ _ Hnd Hp Hi)).
  destruct (sent_prefix _ _ _ _ _ _ H) as (cs & E & Hl). fold x n in E. rewrite <-(take_drop n x) at 1. rewrite E, fill_app, fill_bytes.
  apply drop_app_length'. by rewrite length_bytes, Hl.
Qed.

Lemma hole_lookup p ps : forall its, inr p ∈ items ps its -> exists k, ps !! k = Some p /\ its !! k = Some Hole.
Proof.
  induction ps as [|n ps IH]; intros [|it its] Hin; try by apply elem_of_nil in Hin. rewrite items_cons in Hin. apply elem_of_app in Hin as [Hin|Hin].
  - destruct it as [bs|]; cbn in Hin.
    + apply list_elem_of_fmap in Hin as (b & ? & _). done.
    + apply list_elem_of_singleton in Hin. exists 0%nat. split; [cbn; congruence|done].
  - destruct (IH its Hin) as (k & Hp & Hi). by exists (S k).
Qed.

Lemma stream_hole c ps its p : inr p ∈ stream c ps its -> exists k, ps !! k = Some p /\ its !! k = Some Hole.
Proof.
  intros Hin. assert (inr p ∈ bytes (take (Z.to_nat (bufpos c)) (buf c)) ++ items ps its) as Hin'.
  { rewrite <-(take_drop (Z.to_nat (sentlen c))). apply elem_of_app. by right. }
  apply elem_of_app in Hin' as [Hin'|Hin']; [|by apply hole_lookup]. apply list_elem_of_fmap in Hin' as (b & ? & _). done.
Qed.

Lemma deferred_spec e c w q N B : holds e c w q N B -> held e -> N + 1 < 2 ^ 30 ->
  exists node c' w', addDeferredMultiBulkLength c w = Some (node, c', w') /\ steady c w c' w' /\ keeps e (objs w) (objs w') /\
    if lua c || (0 <? fd c) then exists p, node = Some p /\ (inr p ∉ q) /\ holds e c' w' (q ++ [inr p]) (N + 1) B
    else node = None /\ holds e c' w' q (N + 1) B.
Proof.
  intros (ps & vs & its & H & -> & HN & HB) Hh Hlim. unfold addDeferredMultiBulkLength.
  destruct (prepare_spec _ e c w ps vs its H) as (c1 & -> & H1 & Hst & Hs & Hby & Hready). cbn [option_bind mbind].
  destruct (lua c || (0 <? fd c)) eqn:Ht; cbn [negb].
  2:{ exists None, c1, w. split; [done|]. split; [done|]. split; [auto with reply|]. split; [done|]. exists ps, vs, its. rewrite Hs, Hby. split_and!; try done. lia. }
  destruct (new_spec _ e c1 w ps vs its null_obj H1 eq_refl eq_refl) as (E & Hf & He0 & Hv0 & H2).
  change (createObject REDIS_STRING (PLong 0)) with null_obj. rewrite E. set (o := fresh (dom (objs w))) in *.
  destruct (push_node_spec _ e c1 (store_obj w o null_obj) ps vs its o Hole (reply_bytes c1) H2) as (n & l & h & -> & Hn & Htl & H3 & Hs3).
  - intros p. apply Hh.
  - exists null_obj. split; [apply lookup_insert_eq|done].
  - lia.
  - by apply Hready.
  - assert (wt zmalloc_size (objs (store_obj w o null_obj)) o = 0) as -> by (unfold wt; cbn; by rewrite lookup_insert_eq).
    pose proof (oi_bytes _ _ _ _ _ _ _ H2). lia.
  - cbn [option_bind mbind]. exists (tail l), (set_reply c1 l), (set_cells (store_obj w o null_obj) h). split; [done|].
    split; [destruct Hst; constructor; try done|]. split.
    { apply keeps_frame. intros p Hp. cbn. rewrite lookup_insert_ne; [done|]. intros <-. lia. }
    exists n. split; [done|]. split; [intros (k & Hk & _)%stream_hole; apply Hn; by eapply list_elem_of_lookup_2|].
    exists (ps ++ [n]), (vs ++ [o]), (its ++ [Hole]). split; [by destruct c1|]. split; [by rewrite Hs3, Hs|]. split; [rewrite length_app; cbn; lia|]. cbn. lia.
Qed.

(** Two nodes become one. *)
Lemma items_glue ps : forall its k p nx bs ts, ps !! k = Some p -> ps !! S k = Some nx -> its !! k = Some (Str bs) -> its !! S k = Some (Str ts) ->
  items (delete (S k) ps) (delete (S k) (<[k:=Str (bs ++ ts)]> its)) = items ps its.
Proof.
  induction ps as [|n ps IH]; intros [|it its] k p nx bs ts Hp Hnx Hi Hi'; try done. destruct k as [|k].
  - destruct ps as [|n2 ps]; [done|]. destruct its as [|it2 its]; [done|]. cbn in *. injection Hi as ->. injection Hi' as ->.
    change (items (n :: ps) (Str (bs ++ ts) :: its) = items (n :: n2 :: ps) (Str bs :: Str ts :: its)).
    rewrite !items_cons. cbn [item_out]. by rewrite bytes_app, app_assoc.
  - change (items (n :: delete (S k) ps) (it :: delete (S k) (<[k:=Str (bs ++ ts)]> its)) = items (n :: ps) (it :: its)).
    rewrite !items_cons. f_equal. by apply (IH its k p nx).
Qed.

Lemma sent_ok_filled pos sent its k us : sent_ok pos sent its -> its !! k = Some Hole ->
  sent_ok pos sent (<[k:=Str us]> its) /\ sent_ok pos sent (delete (S k) (<[k:=Str us]> its)).
Proof.
  intros [?|[?|(Hpos & bs & r & -> & Hs)]] Hk; [by split; left|by split; right; left|]. destruct k as [|k]; [done|].
  split; right; right; (split; [done|]); cbn; by eexists _, _.
Qed.

Lemma line_no_nul n : int64 n -> no_nul (num_line "*" n) /\ (length (num_line "*" n) <= 23)%nat.
Proof.
  intros Hn. pose proof (length_print_int n Hn). split.
  - constructor; [done|]. apply Forall_app. split; [by apply no_nul_print_int|]. by repeat constructor.
  - unfold num_line, crlf_bytes. cbn [length]. rewrite length_app. cbn [length]. lia.
Qed.

Lemma own_hole e c w ps vs its k p : out_inv e c w ps vs its -> vs !! k = Some p -> its !! k = Some Hole -> own (objs w) e vs p null_obj.
Proof.
  intros H Hp Hi. pose proof (oi_list _ _ _ _ _ _ _ H) as [_ _ _ Hc He Hno].
  destruct (Forall2_lookup_lr _ _ _ _ _ _ Hno Hp Hi) as (x & Hx & Hit). cbn in Hit. subst x. split; [done|]. split; [done|].
  destruct (ct_count _ _ Hc p _ Hx) as (Hr & _). cbn in Hr. lia.
Qed.

(** The line in the place of the hole, before anything is glued to it. *)
Lemma fill_hole e c w ps vs its k p s us : out_inv e c w ps vs its -> vs !! k = Some p -> its !! k = Some Hole -> sds_rep s us ->
  exists os, set_ptr w p s = Some (set_objs w os) /\ keeps e (objs w) os /\
    out_inv e (set_reply_bytes c (reply_bytes c + zmalloc_size_sds zmalloc_size s)) (set_objs w os) ps vs (<[k:=Str us]> its) /\
    own os e vs p (Robj REDIS_STRING REDIS_ENCODING_RAW (PSds s) 1) /\ (forall q, q <> p -> os !! q = objs w !! q).
Proof.
  intros H Hp Hi Hs. pose proof (own_hole _ _ _ _ _ _ _ _ H Hp Hi) as Hown. pose proof (proj1 Hown) as Hx.
  destruct (set_node _ e c w ps vs its k p null_obj s us (reply_bytes c + zmalloc_size_sds zmalloc_size s) H Hp Hown eq_refl Hs) as (E & H1 & Hk).
  - by apply sent_ok_filled; [apply (oi_sent _ _ _ _ _ _ _ H)|].
  - assert (wt zmalloc_size (objs w) p = 0) as -> by (unfold wt; by rewrite Hx). lia.
  - eexists. split; [exact E|]. split; [done|]. split; [done|]. destruct Hown as (_ & _ & Ho). split; [split; [apply lookup_insert_eq|done]|].
    intros q Hq. by apply lookup_insert_ne.
Qed.

(** A node that is not the head is in the output as a whole. *)
Lemma items_lookup_length ps : forall its k ts, length ps = length its -> its !! k = Some (Str ts) -> (length ts <= length (items ps its))%nat.
Proof.
  induction ps as [|n ps IH]; intros [|it its] k ts Hl Hk; try done. rewrite items_cons, length_app. destruct k as [|k].
  - injection Hk as ->. cbn [item_out]. rewrite length_bytes. lia.
  - cbn in Hl. pose proof (IH its k ts ltac:(lia) Hk). lia.
Qed.

Lemma later_length e c w ps vs its k ts : out_inv e c w ps vs its -> its !! k = Some Hole -> its !! S k = Some (Str ts) ->
  Z.of_nat (length ts) <= Z.of_nat (length (stream c ps its)).
Proof.
  intros H Hk Hk'. pose proof (inv_lengths _ _ _ _ _ _ _ H) as (Hl1 & Hl2 & _). unfold stream. rewrite length_drop, length_app, length_bytes, length_take.
  pose proof (oi_buf _ _ _ _ _ _ _ H). pose proof (oi_pos _ _ _ _ _ _ _ H). destruct ps as [|n ps]; [destruct its; [done|cbn in *; lia]|].
  destruct its as [|it its]; [done|]. cbn in Hk'. rewrite items_cons, length_app. cbn in Hl1, Hl2. pose proof (items_lookup_length ps its k ts ltac:(lia) Hk').
  destruct (oi_sent _ _ _ _ _ _ _ H) as [->|[?|(E & bs & r & [= -> ->] & ?)]]; [lia|lia|]. cbn [item_out]. rewrite length_bytes. lia.
Qed.

(** The next node's string glued to the line. *)
Lemma glue_next e c w ps vs its k p nx s t bs ts s2 : out_inv e c w ps vs its -> vs !! k = Some p -> ps !! k <> None -> ps !! S k = Some nx ->
  its !! k = Some (Str bs) -> its !! S k = Some (Str ts) -> own (objs w) e vs p (Robj REDIS_STRING REDIS_ENCODING_RAW (PSds s) 1) ->
  sds_rep s bs -> sds_rep t ts -> sds_rep s2 (bs ++ ts) -> (forall u, vs !! S k = Some u -> exists x, objs w !! u = Some x /\ ptr x = PSds t) ->
  let b := reply_bytes c - zmalloc_size_sds zmalloc_size s - zmalloc_size_sds zmalloc_size t + zmalloc_size_sds zmalloc_size s2 in
  sent_ok (bufpos c) (sentlen c) (<[k:=Str (bs ++ ts)]> its) -> sent_ok (bufpos c) (sentlen c) (delete (S k) (<[k:=Str (bs ++ ts)]> its)) ->
  0 <= reply_bytes c - zmalloc_size_sds zmalloc_size s - zmalloc_size_sds zmalloc_size t /\
  exists w1 c' w' ps' vs' its', set_ptr w p s2 = Some w1 /\ del_node (set_reply_bytes c b) w1 (Some nx) = Some (c', w') /\
    out_inv e c' w' ps' vs' its' /\ (length ps' <= length ps)%nat /\ stream c' ps' its' = stream c ps its /\ steady c w c' w' /\
    keeps e (objs w) (objs w') /\ reply_bytes c' = b.
Proof.
  intros H Hp Hpk Hnx Hi Hi' Hown Hs Hst Hs2 Hu b Hok1 Hok2. pose proof (inv_lengths _ _ _ _ _ _ _ H) as (Hl1 & Hl2 & _).
  pose proof (oi_list _ _ _ _ _ _ _ H) as [_ _ _ _ _ Hno]. pose proof (oi_bytes _ _ _ _ _ _ _ H) as Hby.
  destruct (lookup_lt_is_Some_2 vs (S k)) as [u Hu']; [apply lookup_lt_Some in Hnx; lia|]. destruct (Hu u Hu') as (x & Hx & Hpt).
  destruct (ps !! k) as [n|] eqn:Hn; [|done].
  assert (u <> p) as Hup. { intros ->. destruct Hown as (_ & _ & Ho). pose proof (lo_ext _ _ _ _ _ _ _ (oi_list _ _ _ _ _ _ _ H) p).
    pose proof (proj1 (occ_in p vs) (list_elem_of_lookup_2 _ _ _ Hp)). assert (k = S k) as E by (symmetry; apply (occ_once vs k p Hp); [lia|done]). lia. }
  pose proof (wt_str zmalloc_size _ _ _ _ Hx Hpt) as Wu. pose proof (wt_str zmalloc_size _ _ _ _ (proj1 Hown) eq_refl) as Wp.
  split.
  { pose proof (total_delete zmalloc_size (objs w) vs (S k) u Hu') as E1. rewrite Wu in E1.
    assert (delete (S k) vs !! k = Some p) as Hpk' by (by rewrite list_lookup_delete_lt by lia).
    pose proof (total_delete zmalloc_size (objs w) _ k p Hpk') as E2. rewrite Wp in E2.
    pose proof (mem_total_nonneg _ Hz (objs w) _ _ (Forall2_delete _ _ _ k (Forall2_delete _ _ _ (S k) Hno))). lia. }
  set (b0 := reply_bytes c - zmalloc_size_sds zmalloc_size s + zmalloc_size_sds zmalloc_size s2).
  destruct (set_node _ e c w ps vs its k p _ s2 (bs ++ ts) b0 H Hp Hown eq_refl Hs2 Hok1) as (E & H1 & Hk1); [rewrite Wp; lia|].
  set (w1 := set_objs w _) in *. destruct (del_node_spec e (set_reply_bytes c b0) w1 ps vs _ (S k) nx u H1 Hnx Hu') as (l & h & os & Ed & Hk2 & _ & Hfin).
  exists w1, (set_reply (set_reply_bytes c b) l). eexists _, _, _, _. split; [exact E|]. split; [by apply Ed|]. split; [|split; [apply delete_length_le|split; [|split; [by constructor|split; [by eapply keeps_trans|done]]]]].
  - assert (out_inv e (set_reply_bytes (set_sentlen (set_reply (set_reply_bytes c b0) l) (sentlen c)) b) (set_objs (set_cells w1 h) os) (delete (S k) ps) (delete (S k) vs)
      (delete (S k) (<[k:=Str (bs ++ ts)]> its))) as Hf; [|by destruct c].
    apply Hfin; [exact Hok2|]. assert (wt zmalloc_size (objs w1) u = zmalloc_size_sds zmalloc_size t) as ->.
    { eapply wt_str; [|exact Hpt]. cbn. by rewrite lookup_insert_ne. }
    pose proof (oi_bytes _ _ _ _ _ _ _ H1) as Hb1. cbn [set_reply_bytes reply_bytes] in Hb1. unfold b, b0 in *. lia.
  - unfold stream. cbn [set_reply set_reply_bytes sentlen bufpos buf]. by rewrite (items_glue ps its k n nx bs ts).
Qed.

Lemma glue_next_spec e c w ps vs its k p v s bs q0 : out_inv e c w ps vs its -> ps !! k = Some p -> vs !! k = Some v ->
  its !! k = Some (Str bs) -> own (objs w) e vs v (Robj REDIS_STRING REDIS_ENCODING_RAW (PSds s) 1) -> sds_rep s bs -> (length bs <= 23)%nat ->
  (forall ts, its !! S k = Some (Str ts) -> Z.of_nat (length ts) <= q0) -> q0 + 64 < sds_limit -> reply_bytes c < 2 ^ 63 ->
  (forall us, sent_ok (bufpos c) (sentlen c) (<[k:=Str us]> its) /\ sent_ok (bufpos c) (sentlen c) (delete (S k) (<[k:=Str us]> its))) ->
  exists c' w' ps' vs' its', glue_next_node junk zmalloc_size c w v s (ps !! S k) = Some (c', w') /\ out_inv e c' w' ps' vs' its' /\
    (length ps' <= length ps)%nat /\ stream c' ps' its' = stream c ps its /\ steady c w c' w' /\ keeps e (objs w) (objs w') /\
    reply_bytes c' <= reply_bytes c - zmalloc_size_sds zmalloc_size s + grow.
Proof.
  intros H Hp Hv Hi Hown Hs Hlen Hnext Hq Hb Hok. pose proof (inv_lengths _ _ _ _ _ _ _ H) as (Hl1 & Hl2 & _).
  pose proof (size_bound _ Hz _ _ Hs) as Hsz. unfold grow in *.
  assert (exists c' w' ps' vs' its', Some (c, w) = Some (c', w') /\ out_inv e c' w' ps' vs' its' /\ (length ps' <= length ps)%nat /\ stream c' ps' its' = stream c ps its /\
    steady c w c' w' /\ keeps e (objs w) (objs w') /\ reply_bytes c' <= reply_bytes c - zmalloc_size_sds zmalloc_size s + 2 ^ 33) as Hsame.
  { exists c, w, ps, vs, its. split_and!; auto with reply. lia. }
  unfold glue_next_node. destruct (ps !! S k) as [nx|] eqn:Hnx; [|exact Hsame].
  destruct (lookup_lt_is_Some_2 vs (S k)) as [u Hu]; [apply lookup_lt_Some in Hnx; lia|].
  destruct (lookup_lt_is_Some_2 its (S k)) as [it Hit]; [apply lookup_lt_Some in Hnx; lia|].
  rewrite (node_value_spec _ w ps vs (S k) nx u) by (done || apply (lo_rep _ _ _ _ _ _ _ (oi_list _ _ _ _ _ _ _ H))). cbn [option_bind mbind].
  destruct (Forall2_lookup_lr _ _ _ _ _ _ (lo_nodes _ _ _ _ _ _ _ (oi_list _ _ _ _ _ _ _ H)) Hu Hit) as (x & Hx & Hix).
  unfold load_obj. rewrite Hx. cbn [option_bind mbind]. destruct it as [ts|]; [|cbn in Hix; by subst x].
  destruct Hix as (_ & t & Hpt & Hts). unfold ptr_null, ptr_sds. rewrite Hpt. cbn [option_bind mbind]. cbv zeta.
  unfold sds_bytes. rewrite (rep_read _ _ Hts). cbn [option_bind mbind]. specialize (Hnext ts Hit).
  destruct (catlen_spec junk s bs ts Hs) as (s2 & -> & Hsc); [lia|]. cbn [option_bind mbind].
  pose proof (size_bound _ Hz _ _ Hts) as Hst. pose proof (size_bound _ Hz _ _ Hsc) as Hs2c. unfold grow in *.
  destruct (Hok (bs ++ ts)) as [Hok1 Hok2].
  destruct (glue_next e c w ps vs its k v nx s t bs ts s2 H Hv ltac:(by rewrite Hp) Hnx Hi Hit Hown Hs Hts Hsc) as (Hnn0 & w3 & c2 & w2 & ps2 & vs2 & its2 & E3 & E4 & H2 & Hl & Hs2 & Hst2 & Hk2 & Hb2); try done.
  { intros u' Hu''. exists x. split; [congruence|done]. }
  cbn [set_reply_bytes reply_bytes]. rewrite (u64_small (reply_bytes c - _)) by lia. rewrite (u64_small (reply_bytes c - _ - _)) by lia.
  rewrite u64_small by lia. rewrite E3. cbn [option_bind mbind]. exists c2, w2, ps2, vs2, its2. split; [exact E4|]. split_and!; try done. lia.
Qed.

Lemma setDeferred_spec e c w q N B p n : holds e c w q N B -> inr p ∈ q -> - 2 ^ 63 <= n < 2 ^ 63 ->
  Z.of_nat (length q) + 64 < sds_limit -> B + grow < 2 ^ 62 ->
  exists c' w', setDeferredMultiBulkLength junk zmalloc_size c w (Some p) n = Some (c', w') /\
    holds e c' w' (fill p (num_line "*" n) q) N (B + grow) /\ steady c w c' w' /\ keeps e (objs w) (objs w').
Proof.
  intros (ps & vs & its & H & -> & HN & HB) Hin Hn Hq HBm. destruct (stream_hole _ _ _ _ Hin) as (k & Hp & Hi).
  pose proof (inv_lengths _ _ _ _ _ _ _ H) as (Hl1 & Hl2 & _). destruct (lookup_lt_is_Some_2 vs k) as [v Hv]; [apply lookup_lt_Some in Hp; lia|].
  pose proof (oi_list _ _ _ _ _ _ _ H) as [[Hnd _ _ _ _ [_ Hm]] _ _ _ _ Hno]. unfold setDeferredMultiBulkLength, load. cbn [option_bind mbind].
  rewrite (Hm _ _ _ Hp Hv). cbn [option_bind mbind value next]. destruct (line_no_nul n Hn) as [Hnn Hll].
  destruct (empty_spec junk) as (s0 & -> & Hs0). cbn [option_bind mbind].
  destruct (catprintf_spec junk s0 [] (num_line "*" n) Hs0 Hnn) as (s & E1 & Hs); [unfold sds_limit; cbn [length]; lia|].
  change (text "*" ++ print_int n ++ [z2b 13; z2b 10]) with (num_line "*" n). rewrite E1. cbn [option_bind mbind]. cbn [app] in Hs.
  destruct (fill_hole e c w ps vs its k v s _ H Hv Hi Hs) as (os & -> & Hk1 & H1 & Hown & Hfr). cbn [option_bind mbind].
  pose proof (size_bound _ Hz _ _ Hs) as Hsz. pose proof (mem_total_nonneg _ Hz _ _ _ Hno). pose proof (oi_bytes _ _ _ _ _ _ _ H). unfold grow in Hsz, HBm.
  rewrite u64_small by lia. set (c1 := set_reply_bytes c (reply_bytes c + zmalloc_size_sds zmalloc_size s)) in *. set (w1 := set_objs w os) in *.
  assert (stream c1 ps (<[k:=Str (num_line "*" n)]> its) = fill p (num_line "*" n) (stream c ps its)) as Hstr by by eapply (fill_stream e c w).
  destruct (glue_next_spec e c1 w1 ps vs _ k p v s (num_line "*" n) (Z.of_nat (length (stream c ps its))) H1 Hp Hv) as (c2 & w2 & ps2 & vs2 & its2 & -> & Hd2 & Hl & Hs2 & Hst2 & Hk2 & Hb2); try done.
  - apply list_lookup_insert_eq. apply lookup_lt_Some in Hp. lia.
  - intros ts Hts. rewrite list_lookup_insert_ne in Hts by lia. by eapply (later_length e c w ps vs its k).
  - cbn. lia.
  - intros us. rewrite list_insert_insert_eq. apply sent_ok_filled; [apply (oi_sent _ _ _ _ _ _ _ H)|done].
  - cbn [option_bind mbind]. cbn [c1 set_reply_bytes reply_bytes] in Hb2. destruct (async_spec _ e c2 w2 ps2 vs2 its2 Hd2) as (c3 & w3 & -> & H3 & Hst3 & Ho3 & Hs3 & Hb3); [unfold grow in Hb2; lia|].
    exists c3, w3. split; [done|]. split; [exists ps2, vs2, its2; split; [done|split; [congruence|lia]]|].
    split; [|rewrite Ho3; eapply keeps_trans; [exact Hk1|exact Hk2]]. eapply steady_trans; [|exact Hst3]. eapply steady_trans; [|exact Hst2]. by constructor.
Qed.

(** ** Writing *)

(** No length is missing: the output is bytes. *)
Definition strings (its : list item) : Prop := Forall (fun it => it <> Hole) its.

(** What writing leaves as it is. *)
Record sending c w c' w' : Prop := {
  sn_id : id c' = id c; sn_fd : fd c' = fd c; sn_flags : cflags c' = cflags c; sn_repl : replstate c' = replstate c;
  sn_pubsub : pubsub c' = pubsub c; sn_last : lastinteraction c' = lastinteraction c; sn_handler : handler c' = handler c;
  sn_clients : clients w' = clients w; sn_close : clients_to_close w' = clients_to_close w; sn_time : unixtime w' = unixtime w;
  sn_limits : client_obuf_limits w' = client_obuf_limits w; sn_max : maxmemory w' = maxmemory w;
  sn_used : used_memory w' = used_memory w; sn_ae : ae_accepts w' = ae_accepts w }.

Lemma sending_refl c w : sending c w c w. Proof. by constructor. Qed.
Lemma sending_trans c w c1 w1 c2 w2 : sending c w c1 w1 -> sending c1 w1 c2 w2 -> sending c w c2 w2.
Proof. intros [] []. constructor; congruence. Qed.
Lemma sending_master c w c' w' : sending c w c' w' -> master c' = master c /\ dropping c' = dropping c /\ asap c' = asap c /\ lua c' = lua c /\ online c' = online c.
Proof. intros H. unfold master, dropping, asap, lua, online. rewrite (sn_flags _ _ _ _ H), (sn_repl _ _ _ _ H). done. Qed.

(** [k] bytes of the output [q] have gone. *)
Definition sent_state e c w q (k : nat) c' w' : Prop :=
  (exists ps vs its, out_inv e c' w' ps vs its /\ strings its /\ stream c' ps its = drop k q) /\
  bytes (socket w') = bytes (socket w) ++ (if master c then [] else take k q) /\ sending c w c' w' /\ keeps e (objs w) (objs w') /\
  reply_bytes c' <= reply_bytes c /\ listLength (reply c') <= listLength (reply c).

(** The outcome of a write of [tb]: [k] bytes taken. *)
Lemma transmit_spec c w tb ws : exists n again k ws', transmit c w tb ws = (n, again, set_socket w (socket w ++ (if master c then [] else take k tb)), ws') /\
  (k <= length tb)%nat /\
  (if master c then n = Z.of_nat k /\ k = length tb /\ ws' = ws /\ again = false
   else ws' = drop 1 ws /\
     match default (Fails true) (ws !! 0%nat) with
     | Takes j => n = Z.of_nat k /\ k = Nat.min j (length tb) /\ again = false
     | Fails a => n = -1 /\ k = 0%nat /\ again = a
     end).
Proof.
  unfold transmit. rewrite master_test.
  destruct (master c); [exists (Z.of_nat (length tb)), false, (length tb), ws; rewrite app_nil_r; split; [by destruct w|done]|].
  destruct (default (Fails true) (ws !! 0%nat)) as [j|a]; cbn [write].
  - exists (Z.of_nat (length (take j tb))), false, (Nat.min j (length tb)), (drop 1 ws). rewrite length_take. split; [|split; [lia|done]].
    do 3 f_equal. destruct (decide (j <= length tb)%nat); [by rewrite Nat.min_l by lia|by rewrite Nat.min_r, !take_ge by lia].
  - exists (-1), a, 0%nat, (drop 1 ws). rewrite take_0, app_nil_r. split; [by destruct w|]. split; [lia|done].
Qed.

Lemma inv_socket e c w ps vs its bs : out_inv e c w ps vs its -> out_inv e c (set_socket w bs) ps vs its.
Proof. intros []. by constructor. Qed.
Lemma inv_sent e c w ps vs its s : out_inv e c w ps vs its -> sent_ok (bufpos c) s its -> out_inv e (set_sentlen c s) w ps vs its.
Proof. intros [] Hs. by constructor. Qed.
Lemma inv_emptied e c w ps vs its : out_inv e c w ps vs its -> out_inv e (set_sentlen (set_buf c (buf c) 0) 0) w ps vs its.
Proof.
  intros [Hl Hbuf Hpos Hsent Hbytes Hlim Htim Hasap Hae Hh]. constructor; try done; [by left|]. intros [Ho|Ho]; [cbn in Ho; lia|]. apply Hh. by right.
Qed.

(** The static buffer has bytes to send. *)
Lemma send_buffer e c w ps vs its (k : nat) : out_inv e c w ps vs its -> strings its -> 0 < bufpos c ->
  let tb := drop (Z.to_nat (sentlen c)) (take (Z.to_nat (bufpos c)) (buf c)) in
  mem_read (buf c) (sentlen c) (bufpos c - sentlen c) = Some tb /\ tb <> [] /\ stream c ps its = bytes tb ++ items ps its /\
  0 <= sentlen c /\ Z.of_nat (length tb) = bufpos c - sentlen c /\
  ((k <= length tb)%nat ->
    let c' := if sentlen c + Z.of_nat k =? bufpos c then set_sentlen (set_buf c (buf c) 0) 0 else set_sentlen c (sentlen c + Z.of_nat k) in
    sent_state e c w (stream c ps its) k c' (set_socket w (socket w ++ (if master c then [] else take k tb)))).
Proof.
  intros H Hstr Hpos tb. pose proof (oi_buf _ _ _ _ _ _ _ H). pose proof (oi_pos _ _ _ _ _ _ _ H).
  assert (0 <= sentlen c < bufpos c) as Hs by (destruct (oi_sent _ _ _ _ _ _ _ H) as [->|[?|(? & _)]]; lia).
  assert (Z.of_nat (length tb) = bufpos c - sentlen c) as Hlen by (subst tb; rewrite length_drop, length_take; lia).
  assert (stream c ps its = bytes tb ++ items ps its) as Hq.
  { unfold stream. rewrite drop_app_le by (rewrite length_bytes, length_take; lia). unfold tb, bytes. by rewrite fmap_drop. }
  split; [|split; [intros E; rewrite E in Hlen; cbn in Hlen; lia|split; [done|split; [lia|split; [done|]]]]].
  { rewrite <-(take_drop (Z.to_nat (bufpos c)) (buf c)) at 1. rewrite <-(take_drop (Z.to_nat (sentlen c)) (take _ (buf c))), <-app_assoc.
    apply mem_read_app; [rewrite !length_take; lia|by fold tb]. }
  intros Hk c'. assert (take k (stream c ps its) = bytes (take k tb)) as Htk.
  { rewrite Hq, take_app_le by (by rewrite length_bytes). unfold bytes. by rewrite fmap_take. }
  split; [|split; [rewrite Htk; destruct (master c); apply bytes_app|subst c'; destruct (sentlen c + _ =? _); (split; [by constructor|split; [apply keeps_refl|done]])]].
  exists ps, vs, its. subst c'. destruct (Z.eqb_spec (sentlen c + Z.of_nat k) (bufpos c)) as [E|E].
  - split; [by apply inv_socket, inv_emptied|]. split; [done|]. rewrite Hq. rewrite drop_app_length' by (rewrite length_bytes; lia). by unfold stream.
  - split; [apply inv_socket, inv_sent; [done|right; left; lia]|]. split; [done|]. unfold stream. cbn [set_sentlen sentlen bufpos buf].
    rewrite Z2Nat.inj_add, Nat2Z.id, <-drop_drop by lia. done.
Qed.

(** The head of the list: its string, and the list without it. *)
Lemma head_node e c w ps vs its : out_inv e c w ps vs its -> strings its -> 0 < listLength (reply c) ->
  exists n v bs s ps' vs' its', ps = n :: ps' /\ vs = v :: vs' /\ its = Str bs :: its' /\ sds_rep s bs /\ head (reply c) = Some n /\
    node_value w (head (reply c)) = Some v /\ sds_at w v = Some s /\ wt zmalloc_size (objs w) v = zmalloc_size_sds zmalloc_size s /\
    strings its' /\ length ps' = length its'.
Proof.
  intros H Hstr Hl. pose proof (inv_lengths _ _ _ _ _ _ _ H) as (Hl1 & Hl2 & Hll). pose proof (oi_list _ _ _ _ _ _ _ H) as [Hr _ _ _ _ Hno].
  destruct ps as [|n ps']; [cbn in Hll; lia|]. destruct vs as [|v vs']; [done|]. destruct its as [|it its']; [done|].
  apply Forall_cons in Hstr as [Hit Hstr]. destruct it as [bs|]; [|done]. inversion Hno as [|? ? ? ? (x & Hx & Hi) _]; subst. cbn in Hi. destruct Hi as (_ & s & Hp & Hs).
  exists n, v, bs, s, ps', vs', its'. rewrite (lr_head _ _ _ _ Hr). split_and!; try done.
  - exact (node_value_spec (reply c) w _ _ 0 n v Hr eq_refl eq_refl).
  - unfold sds_at, load_obj. rewrite Hx. cbn [option_bind mbind]. unfold ptr_sds. by rewrite Hp.
  - by eapply wt_str.
  - cbn in Hl1, Hl2. lia.
Qed.

Lemma empty_node e c w n v ps vs its : out_inv e c w (n :: ps) (v :: vs) (Str [] :: its) -> strings its -> bufpos c = 0 ->
  exists c' w', del_node c w (Some n) = Some (c', w') /\ sent_state e c w (stream c (n :: ps) (Str [] :: its)) 0 c' w' /\
    listLength (reply c') = listLength (reply c) - 1 /\ bufpos c' = bufpos c.
Proof.
  intros H Hstr Hpos. pose proof (inv_lengths _ _ _ _ _ _ _ H) as (Hl1 & Hl2 & Hll).
  pose proof (oi_list _ _ _ _ _ _ _ H) as [_ _ _ _ _ Hno]. pose proof (oi_bytes _ _ _ _ _ _ _ H) as Hby.
  inversion Hno as [|? ? ? ? Hn _]; subst. pose proof (wt_bound _ Hz _ _ _ Hn).
  assert (sentlen c = 0) as Hs by (destruct (oi_sent _ _ _ _ _ _ _ H) as [?|[?|(_ & bs & r & [= <- _] & ?)]]; [done|lia|cbn in *; lia]).
  destruct (del_node_spec e c w _ _ _ 0 n v H eq_refl eq_refl) as (l & h & os & Ed & Hk & Hll' & Hfin). cbn [delete list_delete] in *.
  specialize (Hfin 0 (reply_bytes c) ltac:(by left) ltac:(lia)).
  exists (set_reply c l). eexists _. split; [by apply Ed|]. split; [|split; [cbn; rewrite Hll', Hll; cbn; lia|done]].
  assert (set_reply_bytes (set_sentlen (set_reply c l) 0) (reply_bytes c) = set_reply c l) as E by (rewrite <-Hs; by destruct c). rewrite E in Hfin.
  split; [|split; [by destruct (master c); rewrite app_nil_r|split; [by constructor|split; [done|split; [done|cbn; rewrite Hll', Hll; cbn; lia]]]]].
  exists ps, vs, its. split; [done|]. split; [done|]. rewrite drop_0. unfold stream. cbn [set_reply sentlen bufpos buf]. done.
Qed.

Lemma send_node e c w n v ps vs its s bs (k : nat) : out_inv e c w (n :: ps) (v :: vs) (Str bs :: its) -> strings its -> bufpos c = 0 -> sds_rep s bs ->
  wt zmalloc_size (objs w) v = zmalloc_size_sds zmalloc_size s -> reply_bytes c < 2 ^ 63 -> 0 < Z.of_nat (length bs) ->
  let tb := drop (Z.to_nat (sentlen c)) bs in let q := stream c (n :: ps) (Str bs :: its) in
  let w1 := set_socket w (socket w ++ (if master c then [] else take k tb)) in
  mem_read (sh_buf s) (sentlen c) (Z.of_nat (length bs) - sentlen c) = Some tb /\ tb <> [] /\ q = bytes tb ++ items ps its /\
  0 <= sentlen c /\ Z.of_nat (length tb) = Z.of_nat (length bs) - sentlen c /\
  ((0 < k <= length tb)%nat ->
    exists c' w', (if sentlen c + Z.of_nat k =? Z.of_nat (length bs) then
             '(c, w) ← del_node c w1 (Some n);
             Some (set_reply_bytes (set_sentlen c 0) (u64 (reply_bytes c - zmalloc_size_sds zmalloc_size s)), w)
           else Some (set_sentlen c (sentlen c + Z.of_nat k), w1)) = Some (c', w') /\
      sent_state e c w q k c' w' /\ bufpos c' = 0 /\
      listLength (reply c') = listLength (reply c) - (if sentlen c + Z.of_nat k =? Z.of_nat (length bs) then 1 else 0)).
Proof.
  intros H Hstr Hpos Hs Hwt Hrb Hne tb q w1. pose proof (inv_lengths _ _ _ _ _ _ _ H) as (Hl1 & Hl2 & Hll).
  assert (0 <= sentlen c < Z.of_nat (length bs)) as Hsent by (destruct (oi_sent _ _ _ _ _ _ _ H) as [->|[?|(_ & bs' & r & [= <- _] & ?)]]; lia).
  assert (Z.of_nat (length tb) = Z.of_nat (length bs) - sentlen c) as Hlen by (subst tb; rewrite length_drop; lia).
  assert (q = bytes tb ++ items ps its) as Hq.
  { unfold q, stream. rewrite Hpos. change (bytes (take (Z.to_nat 0) (buf c)) ++ ?x) with x. rewrite items_cons. cbn [item_out].
    rewrite drop_app_le by (rewrite length_bytes; lia). unfold tb, bytes. by rewrite fmap_drop. }
  split; [|split; [intros E; rewrite E in Hlen; cbn in Hlen; lia|split; [done|split; [lia|split; [done|]]]]].
  { destruct Hs as [_ _ _ (g & -> & _)]. rewrite <-(take_drop (Z.to_nat (sentlen c)) bs) at 1. rewrite <-app_assoc.
    apply mem_read_app; [rewrite length_take; lia|by fold tb]. }
  intros Hk. assert (take k q = bytes (take k tb)) as Htk.
  { rewrite Hq, take_app_le by (rewrite length_bytes; lia). unfold bytes. by rewrite fmap_take. }
  assert (bytes (socket w1) = bytes (socket w) ++ (if master c then [] else take k q)) as Hsock by (rewrite Htk; destruct (master c); apply bytes_app).
  pose proof (inv_socket _ _ _ _ _ _ (socket w1) H) as H1. fold w1 in H1. change (set_socket w (socket w1)) with w1 in H1.
  destruct (Z.eqb_spec (sentlen c + Z.of_nat k) (Z.of_nat (length bs))) as [E|E].
  - destruct (del_node_spec e c w1 _ _ _ 0 n v H1 eq_refl eq_refl) as (l & h & os & Ed & Hkp & Hll' & Hfin). cbn [delete list_delete] in *.
    pose proof (oi_bytes _ _ _ _ _ _ _ H) as Hby. rewrite total_cons, Hwt in Hby. pose proof (size_bound _ Hz _ _ Hs) as Hsz.
    pose proof (oi_list _ _ _ _ _ _ _ H) as [_ _ _ _ _ Hno]. inversion Hno as [|? ? ? ? _ Hno']; subst. pose proof (mem_total_nonneg _ Hz _ _ _ Hno').
    specialize (Hfin 0 (reply_bytes c - zmalloc_size_sds zmalloc_size s) ltac:(by left)). cbn [w1 set_socket objs] in Hfin. rewrite total_cons, Hwt in Hfin. specialize (Hfin ltac:(lia)).
    rewrite (Ed c eq_refl). cbn [option_bind mbind]. eexists _, _. split; [reflexivity|]. cbn [set_reply reply_bytes]. rewrite u64_small by lia.
    split; [|split; [done|cbn; rewrite Hll', Hll; cbn; lia]].
    split; [|split; [exact Hsock|split; [by constructor|split; [exact Hkp|split; [cbn; lia|cbn; rewrite Hll', Hll; cbn; lia]]]]].
    exists ps, vs, its. split; [exact Hfin|]. split; [done|]. rewrite Hq. rewrite drop_app_length' by (rewrite length_bytes; lia).
    unfold stream. cbn [set_reply_bytes set_sentlen set_reply sentlen bufpos buf]. by rewrite Hpos.
  - eexists _, _. split; [reflexivity|]. split; [|split; [done|cbn; lia]].
    split; [|split; [exact Hsock|split; [by constructor|split; [apply keeps_refl|done]]]].
    exists (n :: ps), (v :: vs), (Str bs :: its). split; [apply inv_sent; [done|right; right; split; [done|]; eexists _, _; split; [done|lia]]|].
    split; [by constructor|]. unfold q, stream. cbn [set_sentlen sentlen bufpos buf]. rewrite Z2Nat.inj_add, Nat2Z.id, <-drop_drop by lia. done.
Qed.

(** *** The loop *)

(** It decreases at each iteration. *)
Definition measure c (ws : list write_result) : nat :=
  (length ws + Z.to_nat (listLength (reply c)) + (if (0 <? bufpos c)%Z then 1 else 0))%nat.

(** The socket took nothing: the result of [write], and [errno]. *)
Definition stopped c (ws : list write_result) (n : Z) (again : bool) : Prop :=
  master c = false /\
  match default (Fails true) (ws !! 0%nat) with Takes j => n = 0 /\ j = 0%nat /\ again = false | Fails a => n = -1 /\ again = a end.

Definition step_ok e c w q ws nw (tot : Z) (k : nat) (r : send_res) : Prop :=
  match r with
  | SendBreak n again c' w' => sent_state e c w q k c' w' /\ ((k = 0%nat /\ stopped c ws n again) \/ ((0 < k)%nat /\ 0 <= n /\ again = false))
  | SendNext n t c' w' ws' => t = tot + Z.of_nat k /\ sent_state e c w q k c' w' /\ (measure c' ws' < measure c ws)%nat /\
      (n = nw \/ 0 <= n) /\ (k = 0%nat -> ws' = ws) /\ exists i, ws' = drop i ws
  end.

Lemma more_ok e c w q ws nw tot k c' w' ws' n : sent_state e c w q k c' w' -> (0 < k)%nat -> 0 <= n -> (measure c' ws' < measure c ws)%nat ->
  (exists i, ws' = drop i ws) -> exists r, send_more c' w' ws' n (tot + Z.of_nat k) = (tot + Z.of_nat k, r) /\ step_ok e c w q ws nw tot k r.
Proof.
  intros Hs Hk Hn Hm Hi. unfold send_more. destruct (_ && _); eexists; (split; [reflexivity|]); cbn; [split; [done|right; done]|].
  split; [done|]. split; [done|]. split; [done|]. split; [by right|]. split; [lia|done].
Qed.

(** Nothing was taken. *)
Lemma none_ok e c w q ws nw tot ps vs its n again : out_inv e c w ps vs its -> strings its -> stream c ps its = q -> stopped c ws n again ->
  step_ok e c w q ws nw tot 0 (SendBreak n again c (set_socket w (socket w))).
Proof.
  intros H Hs Hq Hst. cbn. split; [|by left]. split; [exists ps, vs, its; rewrite drop_0; split; [by apply inv_socket|done]|].
  split; [rewrite take_0; destruct (master c); by rewrite app_nil_r|]. split; [by constructor|]. split; [apply keeps_refl|done].
Qed.

(** The socket took nothing, or [k] bytes, all of them for a master. *)
Lemma transmit_cases c w tb ws : tb <> [] ->
  exists n again k ws', transmit c w tb ws = (n, again, set_socket w (socket w ++ (if master c then [] else take k tb)), ws') /\ (k <= length tb)%nat /\
    ((negb (master c) && (n <=? 0) = true /\ k = 0%nat /\ stopped c ws n again) \/
     (negb (master c) && (n <=? 0) = false /\ n = Z.of_nat k /\ (0 < k)%nat /\ (length ws' <= length ws)%nat /\
      (k < length tb -> length ws' < length ws)%nat /\ exists i, ws' = drop i ws)).
Proof.
  intros Hne. destruct (transmit_spec c w tb ws) as (n & again & k & ws' & E & Hk & Hn). exists n, again, k, ws'. split; [done|]. split; [done|].
  assert (0 < length tb)%nat by (destruct tb; [done|cbn; lia]). unfold stopped. destruct (master c); cbn [negb andb].
  - destruct Hn as (-> & -> & -> & ->). right. split_and!; try (lia || done). by exists 0%nat.
  - destruct Hn as [-> Hw]. rewrite length_drop. destruct ws as [|r ws]; cbn in Hw |- *; [left; destruct Hw as (-> & -> & ->); done|].
    destruct r as [j|a]; [|left; destruct Hw as (-> & -> & ->); done]. destruct Hw as (-> & -> & ->).
    destruct (Z.leb_spec (Z.of_nat (Nat.min j (length tb))) 0); [left|right]; split_and!; try (lia || done). by exists 1%nat.
Qed.

Lemma send_step_spec e c w ps vs its ws nw tot : out_inv e c w ps vs its -> strings its ->
  (0 <? bufpos c) || negb (listLength (reply c) =? 0) = true -> 0 <= tot -> tot + Z.of_nat (length (stream c ps its)) < 2 ^ 31 -> reply_bytes c < 2 ^ 63 ->
  exists k r, send_step zmalloc_size c w ws nw tot = Some (tot + Z.of_nat k, r) /\ (k <= length (stream c ps its))%nat /\
    step_ok e c w (stream c ps its) ws nw tot k r.
Proof.
  intros H Hstr Hmore Htot Hq Hrb. pose proof (inv_lengths _ _ _ _ _ _ _ H) as (Hl1 & Hl2 & Hll). unfold send_step. rewrite master_test.
  pose proof (oi_pos _ _ _ _ _ _ _ H) as Hpos. unfold REDIS_REPLY_CHUNK_BYTES in Hpos. destruct (Z.ltb_spec 0 (bufpos c)) as [Hb|Hb].
  - destruct (send_buffer e c w ps vs its 0 H Hstr Hb) as (-> & Hne & Hst & Hs0 & Hlen & _). set (tb := drop _ _) in *. cbn [option_bind mbind].
    assert (length (stream c ps its) = length tb + length (items ps its))%nat as Hql by by rewrite Hst, length_app, length_bytes.
    destruct (transmit_cases c w tb ws Hne) as (n & again & k & ws' & -> & Hk & [(-> & -> & Hstop)|(-> & -> & Hk0 & Hws & Hws' & Hsuf)]).
    + exists 0%nat. eexists. rewrite Z.add_0_r. split; [reflexivity|]. split; [lia|]. rewrite take_0, Tauto.if_same, app_nil_r. by eapply none_ok.
    + destruct (send_buffer e c w ps vs its k H Hstr Hb) as (_ & _ & _ & _ & _ & Hsent). fold tb in Hsent. specialize (Hsent Hk). cbv zeta in Hsent.
      rewrite !chk32_ok by lia. cbn [option_bind mbind].
      destruct (more_ok e c w (stream c ps its) ws nw tot k _ _ ws' (Z.of_nat k) Hsent Hk0 ltac:(lia)) as (r & E & Hr); [|done|exists k, r; split; [by rewrite E|split; [lia|done]]].
      unfold measure. rewrite (proj2 (Z.ltb_lt 0 (bufpos c))) by done.
      destruct (Z.eqb_spec (sentlen c + Z.of_nat k) (bufpos c)) as [E|E]; cbn [set_sentlen set_buf reply bufpos]; [change (0 <? 0) with false; cbv iota; lia|].
      rewrite (proj2 (Z.ltb_lt 0 (bufpos c))) by done. lia.
  - cbn [orb] in Hmore. apply negb_true_iff, Z.eqb_neq in Hmore. assert (bufpos c = 0) as Hb0 by lia.
    destruct (head_node e c w ps vs its H Hstr) as (n & v & bs & s & ps' & vs' & its' & -> & -> & -> & Hs & Hhd & -> & Hsds & Hwt & Hstr' & Hl'); [lia|].
    cbn [option_bind mbind]. rewrite Hsds, Hhd. cbn [option_bind mbind]. rewrite (rep_len_eq _ _ Hs). pose proof (rep_bound _ _ Hs). pose proof (rep_free _ _ Hs).
    rewrite s32_small by lia. destruct (Z.eqb_spec (Z.of_nat (length bs)) 0) as [E0|E0].
    + destruct bs; [|cbn in E0; lia]. destruct (empty_node e c w n v ps' vs' its' H Hstr' Hb0) as (c' & w' & -> & Hst & Hlc & Hbc). cbn [option_bind mbind].
      exists 0%nat. eexists. rewrite Z.add_0_r. split; [reflexivity|]. split; [lia|]. cbn. split; [lia|]. split; [done|]. split; [|split; [by left|split; [done|by exists 0%nat]]].
      unfold measure. rewrite Hlc, Hbc. lia.
    + assert (0 < Z.of_nat (length bs)) as Hbs by lia.
      destruct (send_node e c w n v ps' vs' its' s bs 0 H Hstr' Hb0 Hs Hwt Hrb Hbs) as (-> & Hne & Hst & Hs0 & Hlen & _). set (tb := drop _ _) in *. cbn [option_bind mbind].
      set (q := stream c (n :: ps') (Str bs :: its')) in *.
      assert (length q = length tb + length (items ps' its'))%nat as Hql by by rewrite Hst, length_app, length_bytes.
      destruct (transmit_cases c w tb ws Hne) as (m & again & k & ws' & -> & Hk & [(-> & -> & Hstop)|(-> & -> & Hk0 & Hws & Hws' & Hsuf)]).
      * exists 0%nat. eexists. rewrite Z.add_0_r. split; [reflexivity|]. split; [lia|]. rewrite take_0, Tauto.if_same, app_nil_r. by eapply none_ok.
      * destruct (send_node e c w n v ps' vs' its' s bs k H Hstr' Hb0 Hs Hwt Hrb Hbs) as (_ & _ & _ & _ & _ & Hsent). fold tb in Hsent. cbv zeta in Hsent. fold q in Hsent.
        rewrite !chk32_ok by lia. cbn [option_bind mbind]. destruct (Hsent ltac:(lia)) as (c' & w' & -> & Hst' & Hb' & Hlc). cbn [option_bind mbind].
        destruct (more_ok e c w q ws nw tot k c' w' ws' (Z.of_nat k) Hst' Hk0 ltac:(lia)) as (r & E & Hr); [|done|exists k, r; split; [by rewrite E|split; [lia|done]]].
        unfold measure. rewrite Hlc, Hb', Hb0. change (0 <? 0) with false. cbv iota. destruct (Z.eqb_spec (sentlen c + Z.of_nat k) (Z.of_nat (length bs))); lia.
Qed.

Lemma sent_state_trans e c w q k1 c1 w1 k2 c2 w2 : sent_state e c w q k1 c1 w1 -> sent_state e c1 w1 (drop k1 q) k2 c2 w2 ->
  sent_state e c w q (k1 + k2) c2 w2.
Proof.
  intros (_ & Hs1 & Hn1 & Hk1 & Hr1 & Hl1) ((ps & vs & its & H & Hstr & Hq) & Hs2 & Hn2 & Hk2 & Hr2 & Hl2).
  destruct (sending_master _ _ _ _ Hn1) as (Hm & _). split; [exists ps, vs, its; rewrite drop_drop in Hq; done|].
  split; [|split; [by eapply sending_trans|split; [by eapply keeps_trans|lia]]].
  rewrite Hs2, Hs1, Hm, <-app_assoc. f_equal. destruct (master c); [done|]. by rewrite take_take_drop.
Qed.

(** The socket takes at least a byte, if it is offered one. *)
Definition willing c (ws : list write_result) : Prop := master c = true \/ exists j, ws !! 0%nat = Some (Takes (S j)).

Lemma send_loop_spec e fuel : forall c w ps vs its ws nw tot, (measure c ws < fuel)%nat -> out_inv e c w ps vs its -> strings its ->
  0 <= tot -> tot + Z.of_nat (length (stream c ps its)) < 2 ^ 31 -> reply_bytes c < 2 ^ 63 -> 0 <= nw ->
  exists k c' w' n again, send_loop zmalloc_size fuel c w ws nw tot = Some (c', w', n, tot + Z.of_nat k, again) /\
    (k <= length (stream c ps its))%nat /\ sent_state e c w (stream c ps its) k c' w' /\
    (0 <= n \/ n = -1 /\ (again = false -> exists i, ws !! i = Some (Fails false))) /\ (stream c ps its <> [] -> willing c ws -> (0 < k)%nat).
Proof.
  induction fuel as [|fuel IH]; intros c w ps vs its ws nw tot Hf H Hstr Htot Hq Hrb Hnw; [lia|]. cbn [send_loop].
  set (q := stream c ps its) in *. destruct ((0 <? bufpos c) || negb (listLength (reply c) =? 0)) eqn:Hmore.
  2:{ exists 0%nat, c, w, nw, false. rewrite Z.add_0_r. split; [done|]. split; [lia|]. split.
      { split; [exists ps, vs, its; rewrite drop_0; done|]. split; [rewrite take_0; destruct (master c); by rewrite app_nil_r|].
        split; [apply sending_refl|]. split; [apply keeps_refl|done]. }
      split; [by left|]. intros Hne _. exfalso. apply Hne. pose proof (inv_lengths _ _ _ _ _ _ _ H) as (Hl1 & Hl2 & Hll).
      apply orb_false_iff in Hmore as [Hb Hl]. apply negb_false_iff, Z.eqb_eq in Hl. destruct ps; [|cbn in Hll; lia].
      unfold q, stream. apply Z.ltb_ge in Hb. pose proof (oi_pos _ _ _ _ _ _ _ H). replace (bufpos c) with 0 by lia. unfold items. cbn. apply drop_nil. }
  destruct (send_step_spec e c w ps vs its ws nw tot H Hstr Hmore Htot Hq Hrb) as (k & r & -> & Hk & Hok). cbn [option_bind mbind]. fold q in Hk, Hok.
  destruct r as [n again c' w'|n t c' w' ws']; cbn in Hok.
  - destruct Hok as [Hs Hr]. exists k, c', w', n, again. split; [done|]. split; [done|]. split; [done|]. unfold stopped in Hr. split.
    + destruct Hr as [(_ & _ & Hr)|(_ & Hn & _)]; [|by left]. destruct (ws !! 0%nat) as [[j|a]|] eqn:Hw0; cbn in Hr; [left; lia|right|right].
      * destruct Hr as [-> ->]. split; [done|]. intros ->. by exists 0%nat.
      * destruct Hr as [-> ->]. done.
    + intros _ [Hm|(j & Hj)]; destruct Hr as [(-> & Hm' & Hr)|(Hk0 & _)]; try done; [congruence|]. rewrite Hj in Hr. cbn in Hr. lia.
  - destruct Hok as (-> & Hs & Hm & Hn & Hws & i & Hsuf). pose proof Hs as ((ps' & vs' & its' & H' & Hstr' & Hq') & _ & Hsn & _ & Hrb' & _).
    destruct (IH c' w' ps' vs' its' ws' n (tot + Z.of_nat k)) as (k2 & c2 & w2 & n2 & again & E & Hk2 & Hs2 & Hn2 & Hp); try done; [lia|lia|rewrite Hq', length_drop; lia|lia|lia|].
    rewrite Hq' in Hk2, Hs2, Hp. rewrite length_drop in Hk2. exists (k + k2)%nat, c2, w2, n2, again.
    split; [rewrite E; do 3 f_equal; lia|]. split; [lia|]. split; [by eapply sent_state_trans|]. split.
    { destruct Hn2 as [|[-> Hf2]]; [by left|right]. split; [done|]. intros Ha. destruct (Hf2 Ha) as (j & Hj). exists (i + j)%nat. rewrite Hsuf, lookup_drop in Hj. done. }
    intros Hne Hw. destruct k as [|k]; [|lia]. rewrite drop_0 in Hp. apply Hp; [done|]. rewrite Hws by done. destruct (sending_master _ _ _ _ Hsn) as (Hmm & _).
    unfold willing. by rewrite Hmm.
Qed.

(** *** Closing *)

Lemma release_all_spec us : forall w n, counts (objs w) (fun p => n p + occ p us) -> (forall p, 0 <= n p) ->
  exists os, release_all w us = Some (set_objs w os) /\ counts os n /\ keeps n (objs w) os.
Proof.
  induction us as [|u us IH]; intros w n Hc Hn.
  - exists (objs w). split; [by destruct w|]. split; [|apply keeps_refl]. eapply counts_ext; [exact Hc|]. intros p. cbv beta. change (occ p []) with 0. lia.
  - assert (forall p, occ p (u :: us) = occ p [u] + occ p us) as Hocc by (intros p; change (u :: us) with ([u] ++ us); apply occ_app).
    assert (occ u [u] = 1) as H1 by by rewrite occ_one, decide_True.
    destruct (decr_counts w _ u Hc) as (os & E & Hc' & Hfr & Hleft); [cbv beta; rewrite Hocc, H1; pose proof (Hn u); pose proof (occ_nonneg u us); lia|].
    cbn [release_all]. rewrite E. cbn [option_bind mbind].
    destruct (IH (set_objs w os) n) as (os2 & -> & Hc2 & Hk2); [eapply counts_ext; [exact Hc'|]; intros p; cbv beta; rewrite Hocc; lia|done|].
    exists os2. split; [done|]. split; [done|]. eapply keeps_trans; [|exact Hk2]. intros p x Hp Hx.
    destruct (stays _ _ _ n u Hc Hfr Hleft) with (q := p) as (z & y & Hz' & Hy & Hs); [|done|exists y; split; [exact Hy|congruence]].
    intros q. cbv beta. rewrite Hocc. pose proof (occ_nonneg q us). lia.
Qed.

Lemma del_client_spec i (cs : list cid) : i ∈ cs -> exists cs' : list cid, del_client i cs = Some cs' /\ cs ≡ₚ i :: cs'.
Proof.
  induction cs as [|j cs IH]; intros Hi; [by apply elem_of_nil in Hi|]. cbn. case_bool_decide as E; [subst; by exists cs|].
  destruct IH as (cs' & -> & Hp); [apply elem_of_cons in Hi as [?|?]; done|]. exists (j :: cs'). split; [done|]. rewrite Hp. apply Permutation_swap.
Qed.

(** All the references of the list are given back. *)
(** The list is released, and the references it held with it. *)
Lemma release_spec e c w ps vs its : out_inv e c w ps vs its ->
  exists h os, listRelease (reply c) (cells w) = Some h /\ run_frees (set_cells w h) = Some (set_objs (set_cells w (Heap (nodes h) [])) os) /\
    counts os e /\ keeps e (objs w) os.
Proof.
  intros H. pose proof (oi_list _ _ _ _ _ _ _ H) as [Hr [f Hf] Hfr Hc He Hno].
  destruct (listRelease_spec _ _ _ _ Hr) as (h & E & _ & Hfd). rewrite Hf, Hfr, app_nil_r in Hfd. exists h.
  unfold run_frees. cbn [set_cells cells]. rewrite Hfd, rev_reverse, reverse_involutive.
  destruct (release_all_spec vs (set_cells (set_cells w h) (Heap (nodes h) [])) e Hc He) as (os & -> & Hc' & Hk). by exists os.
Qed.

Lemma freeClient_spec e c w ps vs its : out_inv e c w ps vs its -> id c ∈ clients w ->
  exists w', freeClient c w = Some w' /\ counts (objs w') e /\ keeps e (objs w) (objs w') /\ socket w' = socket w /\ clients w ≡ₚ id c :: clients w'.
Proof.
  intros H Hid. unfold freeClient. destruct (release_spec _ _ _ _ _ _ H) as (h & os & -> & E & Hc' & Hk). cbn [option_bind mbind].
  rewrite E. cbn [option_bind mbind set_objs set_cells clients]. destruct (del_client_spec _ _ Hid) as (cs & -> & Hp). cbn [option_bind mbind]. rewrite asap_test.
  destruct (asap c) eqn:Ha.
  - destruct (del_client_spec (id c) (clients_to_close w)) as (cs' & E' & _); [by apply (oi_asap _ _ _ _ _ _ _ H)|].
    cbn [set_clients clients_to_close set_cells set_objs]. rewrite E'. cbn [option_bind mbind]. eexists. split; [reflexivity|]. done.
  - eexists. split; [reflexivity|]. done.
Qed.

(** No length is missing in the output. *)
Definition complete (q : list out) : Prop := Forall (fun o => match o with inl _ => True | inr _ => False end) q.

Lemma complete_strings e c w ps vs its : out_inv e c w ps vs its -> complete (stream c ps its) -> strings its.
Proof.
  intros H Hq. apply Forall_lookup. intros k it Hk ->. pose proof (inv_lengths _ _ _ _ _ _ _ H) as (Hl1 & Hl2 & _).
  destruct (lookup_lt_is_Some_2 ps k) as [p Hp]; [apply lookup_lt_Some in Hk; lia|].
  assert (inr p ∈ items ps its) as Hin.
  { unfold items. apply list_elem_of_In, in_concat. exists (item_out p Hole). split; [|by left]. apply list_elem_of_In. apply list_elem_of_lookup. exists k.
    by rewrite lookup_zip_with, Hp, Hk. }
  assert (inr p ∈ stream c ps its) as Hs; [|unfold complete in Hq; rewrite Forall_forall in Hq; exact (Hq _ Hs)].
  destruct (sent_prefix _ _ _ _ _ _ H) as (cs & E & _). unfold stream. set (x := bytes _ ++ _) in *.
  assert (inr p ∈ x) as Hx by (apply elem_of_app; by right). rewrite <-(take_drop (Z.to_nat (sentlen c)) x), E in Hx.
  apply elem_of_app in Hx as [Hx|]; [|done]. apply list_elem_of_fmap in Hx as (? & ? & _). done.
Qed.

(** The handler has written [k] bytes of [q]; the client is closed after an
    error, or when the output it was to be sent before closing has gone. *)
Lemma sendReply_spec e c w q N B ws : holds e c w q N B -> complete q -> Z.of_nat (length q) < 2 ^ 31 -> B < 2 ^ 63 -> id c ∈ clients w ->
  exists r w' (k : nat), sendReplyToClient zmalloc_size c w ws = Some (r, w') /\ (k <= length q)%nat /\
    bytes (socket w') = bytes (socket w) ++ (if master c then [] else take k q) /\ keeps e (objs w) (objs w') /\
    (q <> [] -> willing c ws -> (0 < k)%nat) /\
    match r with
    | Some c' => holds e c' w' (drop k q) N B /\ id c' = id c /\ fd c' = fd c /\ cflags c' = cflags c /\ replstate c' = replstate c /\
        clients w' = clients w /\ clients_to_close w' = clients_to_close w /\ ae_accepts w' = ae_accepts w
    | None => counts (objs w') e /\ clients w ≡ₚ id c :: clients w' /\ ((dropping c = true /\ k = length q) \/ exists n, ws !! n = Some (Fails false))
    end.
Proof.
  intros (ps & vs & its & H & -> & HN & HB) Hc Hq HBm Hid. pose proof (complete_strings _ _ _ _ _ _ H Hc) as Hstr. unfold sendReplyToClient.
  destruct (send_loop_spec e (length ws + Z.to_nat (listLength (reply c)) + 3) c w ps vs its ws 0 0) as (k & c' & w' & n & again & -> & Hk & Hs & Hn & Hp); try done; [|lia|].
  { unfold measure. destruct (0 <? bufpos c); lia. }
  cbn [option_bind mbind]. pose proof Hs as ((ps' & vs' & its' & H' & Hstr' & Hq') & Hsock & Hsn & Hkp & Hrb & Hll). set (q := stream c ps its) in *.
  assert (id c' ∈ clients w') as Hid' by by rewrite (sn_id _ _ _ _ Hsn), (sn_clients _ _ _ _ Hsn).
  assert (forall c2 ps2 vs2 its2, out_inv e c2 w' ps2 vs2 its2 -> id c2 = id c -> exists w2, freeClient c2 w' = Some w2 /\ counts (objs w2) e /\ keeps e (objs w) (objs w2) /\
    bytes (socket w2) = bytes (socket w) ++ (if master c then [] else take k q) /\ clients w ≡ₚ id c :: clients w2) as Hfree.
  { intros c2 ps2 vs2 its2 H2 Ei. destruct (freeClient_spec e c2 w' ps2 vs2 its2 H2) as (w2 & E & Hct & Hk2 & Hs2 & Hcl); [by rewrite Ei, <-(sn_id _ _ _ _ Hsn)|].
    exists w2. split; [done|]. split; [done|]. split; [by eapply keeps_trans|]. rewrite Hs2, <-(sn_clients _ _ _ _ Hsn), <-Ei. done. }
  destruct ((n =? -1) && negb again) eqn:Herr.
  { apply andb_prop in Herr as [E Ha]. apply Z.eqb_eq in E. apply negb_true_iff in Ha. subst n. destruct Hn as [|[_ Hn]]; [lia|].
    destruct (Hfree c' _ _ _ H' (sn_id _ _ _ _ Hsn)) as (w2 & -> & Hct & Hk2 & Hs2 & Hcl). cbn [option_bind mbind].
    exists None, w2, k. split_and!; try done. right. by apply Hn. }
  set (c2 := if 0 <? 0 + Z.of_nat k then _ else c').
  assert (out_inv e c2 w' ps' vs' its' /\ id c2 = id c /\ fd c2 = fd c /\ cflags c2 = cflags c /\ replstate c2 = replstate c /\ bufpos c2 = bufpos c' /\ reply c2 = reply c' /\
    stream c2 ps' its' = drop k q /\ reply_bytes c2 <= reply_bytes c) as (H2 & Hi2 & Hf2 & Hfl2 & Hrp2 & Hb2 & Hr2 & Hs2 & Hrb2).
  { subst c2. destruct Hsn. destruct (0 <? _); [|done]. split; [destruct H'; by constructor|]. done. }
  assert (forall c3, out_inv e c3 w' ps' vs' its' -> stream c3 ps' its' = drop k q -> reply_bytes c3 <= reply_bytes c -> holds e c3 w' (drop k q) N B) as Hhold.
  { intros c3 H3 Hs3 Hr3. exists ps', vs', its'. split; [done|]. split; [done|].
    pose proof (inv_lengths _ _ _ _ _ _ _ H) as (_ & _ & E1). pose proof (inv_lengths _ _ _ _ _ _ _ H') as (_ & _ & E2). lia. }
  destruct ((bufpos c2 =? 0) && (listLength (reply c2) =? 0)) eqn:Hdone.
  2:{ exists (Some c2), w', k. split; [done|]. destruct Hsn. split_and!; try done. by apply Hhold. }
  apply andb_prop in Hdone as [E1 E2]. apply Z.eqb_eq in E1, E2. set (c3 := set_handler (set_sentlen c2 0) false).
  pose proof (inv_lengths _ _ _ _ _ _ _ H2) as (El1 & El2 & El3). destruct ps'; [|cbn in El3; lia]. destruct vs'; [|done]. destruct its'; [|done].
  assert (out_inv e c3 w' [] [] []) as H3.
  { destruct H2 as [? ? ? _ ? ? ? ? ? ?]. constructor; try done; [by left|]. cbn. lia. }
  assert (drop k q = []) as Hnil by (rewrite <-Hs2; unfold stream; rewrite E1; unfold items; cbn; apply drop_nil).
  rewrite dropping_test. change (dropping c3) with (dropping c2). assert (dropping c2 = dropping c) as -> by (unfold dropping; by rewrite Hfl2).
  destruct (dropping c) eqn:Hd.
  - destruct (Hfree c3 _ _ _ H3 Hi2) as (w2 & -> & Hct & Hk2 & Hsk & Hcl). cbn [option_bind mbind]. exists None, w2, k. split_and!; try done.
    left. split; [done|]. apply (f_equal length) in Hnil. rewrite length_drop in Hnil. cbn in Hnil. lia.
  - exists (Some c3), w', k. split; [done|]. destruct Hsn. split_and!; try done. apply Hhold; [done| |done].
    rewrite Hnil. unfold stream. cbn [c3 set_handler set_sentlen sentlen bufpos buf]. by rewrite E1.
Qed.
End Send.
