(* ===== verification/ReplySpec.v ===== *)
(** ReplySpec: what a client receives: the replies in order, each byte once,
    whatever the socket does, with every reference given back. *)
From Stdlib Require Strings.String.
From S2P Require Import Prelude Util UtilNum UtilSpec Sds SdsProofs SdsMore Adlist AdlistProofs AdlistSpec Objects ObjectsSpec Reply ReplyProofs ReplyQueue ReplySend.
Import (notations) Corelib.Init.Byte.
Import (notations) Strings.String.

(** ** Programs of replies

    The calls a command makes, with their arguments; a deferred length stands
    around the replies it counts. *)
Inductive reply_call :=
  | CString (bs : list byte) | CObj (o : loc) | CError (msg : list byte) | CErrorFormat (msg : list byte)
  | CStatus (msg : list byte) | CStatusFormat (msg : list byte) | CLongLong (v : Z) | CMultiBulkLen (n : Z)
  | CBulk (o : loc) | CBulkCBuffer (bs : list byte) | CBulkCString (str : option (list byte)) | CBulkLongLong (v : Z)
  | CDeferred (body : list reply_call) (n : Z).

Section Spec.
Context (junk : nat -> byte) (zmalloc_size : Z -> Z) (Hz : allocator zmalloc_size) (sh : sharedObjects).
#[local] Abbreviation out_inv := (out_inv zmalloc_size).
#[local] Abbreviation holds := (holds zmalloc_size).

Fixpoint run_call (r : reply_call) (c : outClient) (w : server) : option (outClient * server) :=
  let fix run_calls (rs : list reply_call) c w :=
    match rs with
    | [] => Some (c, w)
    | r :: rs => '(c, w) ← run_call r c w; run_calls rs c w
    end in
  match r with
  | CString bs => addReplyString junk zmalloc_size c w bs
  | CObj o => addReply junk zmalloc_size c w o
  | CError msg => addReplyError junk zmalloc_size c w msg
  | CErrorFormat msg => addReplyErrorFormat junk zmalloc_size c w msg
  | CStatus msg => addReplyStatus junk zmalloc_size c w msg
  | CStatusFormat msg => addReplyStatusFormat junk zmalloc_size c w msg
  | CLongLong v => addReplyLongLong junk zmalloc_size sh c w v
  | CMultiBulkLen n => addReplyMultiBulkLen junk zmalloc_size sh c w n
  | CBulk o => addReplyBulk junk zmalloc_size sh c w o
  | CBulkCBuffer bs => addReplyBulkCBuffer junk zmalloc_size sh c w bs
  | CBulkCString str => addReplyBulkCString junk zmalloc_size sh c w str
  | CBulkLongLong v => addReplyBulkLongLong junk zmalloc_size sh c w v
  | CDeferred body n =>
    '(node, c, w) ← addDeferredMultiBulkLength c w;
    '(c, w) ← run_calls body c w;
    setDeferredMultiBulkLength junk zmalloc_size c w node n
  end.

Fixpoint run_calls (rs : list reply_call) c w : option (outClient * server) :=
  match rs with
  | [] => Some (c, w)
  | r :: rs => '(c, w) ← run_call r c w; run_calls rs c w
  end.

(** ** What they are to write

    [known] gives the content of the objects. A client that is to be closed
    after its reply gets no more text, but for deferred lengths. *)
Context (known : loc -> option (list byte)).

Definition text_of (r : reply_call) : list byte :=
  match r with
  | CString bs => bs
  | CObj o => default [] (known o)
  | CError msg => error_line (cstr msg)
  | CErrorFormat msg => error_line (one_line msg)
  | CStatus msg => status_line (cstr msg)
  | CStatusFormat msg => status_line msg
  | CLongLong v => num_line ":" v
  | CMultiBulkLen n => num_line "*" n
  | CBulk o => bulk (default [] (known o))
  | CBulkCBuffer bs => bulk bs
  | CBulkCString str => match str with Some s => bulk (cstr s) | None => num_line "$" (-1) end
  | CBulkLongLong v => bulk (print_int v)
  | CDeferred _ _ => []
  end.

Fixpoint emit (closing : bool) (r : reply_call) : list byte :=
  match r with
  | CDeferred body n => num_line "*" n ++ concat (map (emit closing) body)
  | r => if closing then [] else text_of r
  end.
Definition emits (closing : bool) (rs : list reply_call) : list byte := concat (map (emit closing) rs).

(** The nodes they may add. *)
Fixpoint cost (r : reply_call) : Z :=
  match r with CDeferred body _ => 2 + foldr (fun r n => cost r + n) 0 body | _ => 3 end.
Definition costs (rs : list reply_call) : Z := foldr (fun r n => cost r + n) 0 rs.

(** The arguments are in range: texts shorter than a string can be, numbers
    that [ll2string] can print, lengths that are not negative, texts of
    formats without NUL, objects that are known. *)
Definition arg_ok (r : reply_call) : Prop :=
  match r with
  | CString bs | CError bs | CStatus bs | CBulkCBuffer bs => Z.of_nat (length bs) < sds_limit
  | CErrorFormat msg | CStatusFormat msg => no_nul msg /\ Z.of_nat (length msg) < sds_limit
  | CLongLong v | CBulkLongLong v => - 2 ^ 63 < v < 2 ^ 63
  | CMultiBulkLen n => 0 <= n < 2 ^ 63
  | CObj o | CBulk o => is_Some (known o)
  | CBulkCString str => match str with Some s => Z.of_nat (length s) < sds_limit | None => True end
  | CDeferred _ n => - 2 ^ 63 <= n < 2 ^ 63
  end.
Fixpoint call_ok (r : reply_call) : Prop :=
  arg_ok r /\ match r with CDeferred body _ => foldr (fun r P => call_ok r /\ P) True body | _ => True end.
Definition calls_ok (rs : list reply_call) : Prop := foldr (fun r P => call_ok r /\ P) True rs.

Lemma run_call_deferred body n c w : run_call (CDeferred body n) c w =
  ('(node, c, w) ← addDeferredMultiBulkLength c w; '(c, w) ← run_calls body c w; setDeferredMultiBulkLength junk zmalloc_size c w node n).
Proof.
  cbn [run_call]. destruct (addDeferredMultiBulkLength c w) as [[[node c1] w1]|]; [|done]. cbn [option_bind mbind].
  match goal with |- (?f body c1 w1 ≫= _) = _ => assert (forall rs c w, f rs c w = run_calls rs c w) as -> end; [|done].
  clear. intros rs. induction rs as [|r rs IH]; intros c w; [done|]. cbn [run_calls]. destruct (run_call r c w) as [[c1 w1]|]; [|done]. apply IH.
Qed.

(** Induction on programs. *)
Lemma calls_ind (P : reply_call -> Prop) :
  (forall r, (forall body n, r <> CDeferred body n) -> P r) -> (forall body n, Forall P body -> P (CDeferred body n)) -> forall r, P r.
Proof.
  intros Hbase Hdef. fix IH 1. intros [ | | | | | | | | | | | |body n]; try (by apply Hbase). apply Hdef. induction body as [|r body IHb]; constructor; [apply IH|exact IHb].
Qed.

(** The facts about objects the calls rely on. *)
Definition facts (e : loc -> Z) (os : gmap loc robj) : Prop :=
  shared_replies e sh os /\ forall o bs, known o = Some bs -> obj_holds e o bs os.
Lemma stable_facts e : stable e (facts e).
Proof. intros os os' [H1 H2] Hk. split; [by eapply stable_shared|]. intros o bs Ho. eapply stable_obj; [by apply H2|done]. Qed.

(** ** A call does what it is to do *)

Definition connected (c : outClient) : bool := lua c || (0 <? fd c).

(** [txt] is appended, for a client that is connected. *)
Definition call_spec e (f : outClient -> server -> option (outClient * server)) (k : Z) (txt : bool -> list byte) : Prop :=
  forall c w q N B, holds e c w q N B -> facts e (objs w) -> N + k < 2 ^ 30 -> B + k * grow < 2 ^ 62 ->
  Z.of_nat (length q) + Z.of_nat (length (txt (dropping c))) + 64 < sds_limit ->
  exists c' w', f c w = Some (c', w') /\ holds e c' w' (q ++ bytes (if connected c then txt (dropping c) else [])) (N + k) (B + k * grow) /\
    steady c w c' w' /\ keeps e (objs w) (objs w').

Lemma replies_call e f k k' bs : 0 <= k <= k' -> replies zmalloc_size e (facts e) f k bs -> call_spec e f k' (fun closing => if closing then [] else bs).
Proof.
  intros Hk H c w q N B Hh HP HN HB _. assert (0 < grow) by done. destruct (H c w q N B Hh HP) as (c' & w' & E & (ps & vs & its & H1 & Hq & Hl & Hb) & Hst); [lia|nia|].
  exists c', w'. split; [done|]. split; [|done]. exists ps, vs, its. split; [done|]. split; [|split; [lia|nia]]. rewrite <-Hq. unfold takes, connected.
  destruct (lua c || (0 <? fd c)); cbn [andb]; [|done]. by destruct (dropping c).
Qed.

Lemma base_call e r : held e -> (forall body n, r <> CDeferred body n) -> arg_ok r -> call_spec e (run_call r) 3 (fun closing => emit closing r).
Proof.
  intros Hh Hr Ha. assert (forall k, 0 <= k <= 3 -> replies zmalloc_size e (facts e) (run_call r) k (text_of r) -> call_spec e (run_call r) 3 (fun closing => emit closing r)) as Hrep.
  { intros k Hk H. pose proof (replies_call e _ k 3 _ Hk H) as Hc. destruct r; try exact Hc. by destruct (Hr body n). }
  assert (forall f k bs, replies zmalloc_size e (shared_replies e sh) f k bs -> replies zmalloc_size e (facts e) f k bs) as Hsh.
  { intros f k bs H. eapply replies_weaken; [|exact H]. by intros os [? _]. }
  pose proof (stable_facts e) as Hst.
  destruct r as [bs|o|msg|msg|msg|msg|v|n|o|bs|str|v|body n]; cbn [arg_ok] in Ha; cbn [run_call text_of] in *.
  - apply (Hrep 1); [lia|]. by apply addReplyString_spec.
  - destruct Ha as [bs Hb]. apply (Hrep 1); [lia|]. eapply replies_weaken; [|by apply addReply_spec]. intros os [_ H]. rewrite Hb. by apply H.
  - apply (Hrep 3); [lia|]. by apply error_spec.
  - apply (Hrep 3); [lia|]. apply error_format_spec; tauto.
  - apply (Hrep 3); [lia|]. by apply status_spec.
  - apply (Hrep 3); [lia|]. apply status_format_spec; tauto.
  - apply (Hrep 1); [lia|]. by apply Hsh, longlong_spec.
  - apply (Hrep 1); [lia|]. apply Hsh, prefix_spec; [done|done|lia|lia].
  - destruct Ha as [bs Hb]. apply (Hrep 3); [lia|]. eapply replies_weaken; [|by apply addReplyBulk_spec]. intros os [H1 H2]. rewrite Hb. split; [done|by apply H2].
  - apply (Hrep 3); [lia|]. by apply Hsh, cbuffer_spec.
  - apply (Hrep 3); [lia|]. apply Hsh, cstring_spec; [done|done|]. intros s ->. done.
  - apply (Hrep 3); [lia|]. by apply Hsh, bulk_longlong_spec.
  - by destruct (Hr body n).
Qed.

Lemma steady_same c w c' w' : steady c w c' w' -> connected c' = connected c /\ dropping c' = dropping c.
Proof. intros H. destruct (steady_takes _ _ _ _ H) as (_ & Hd & Hl & _). unfold connected. by rewrite Hl, (st_fd _ _ _ _ H). Qed.

Lemma call_seq e f g k j t1 t2 : 0 <= k -> 0 <= j -> call_spec e f k t1 -> call_spec e g j t2 ->
  call_spec e (fun c w => '(c, w) ← f c w; g c w) (k + j) (fun closing => t1 closing ++ t2 closing).
Proof.
  intros Hk Hj Hf Hg c w q N B H Hp HN HB Hl. assert (0 < grow) by done. rewrite length_app in Hl.
  destruct (Hf c w q N B H Hp) as (c1 & w1 & -> & H1 & Hst1 & Hk1); [lia|nia|lia|]. cbn [option_bind mbind].
  destruct (steady_same _ _ _ _ Hst1) as [Hcn Hdr].
  destruct (Hg c1 w1 _ _ _ H1) as (c2 & w2 & -> & H2 & Hst2 & Hk2); [by eapply stable_facts|lia|lia| |].
  { rewrite Hdr, length_app, length_bytes. destruct (connected c); cbn [length]; lia. }
  exists c2, w2. split; [done|]. rewrite Hdr, Hcn in H2.
  split; [|split; [by eapply steady_trans|by eapply keeps_trans]].
  replace (N + (k + j)) with (N + k + j) by lia. replace (B + (k + j) * grow) with (B + k * grow + j * grow) by lia.
  destruct (connected c); [by rewrite bytes_app, app_assoc|]. change (bytes []) with (@nil out) in *. by rewrite !app_nil_r in *.
Qed.

Lemma fill_fresh p bs q : inr p ∉ q -> fill p bs q = q.
Proof.
  unfold fill. induction q as [|o q IH]; intros Hp; [done|]. cbn. rewrite IH by (intros Hin; apply Hp; by right).
  destruct o as [b|p']; [done|]. rewrite decide_False; [done|]. intros ->. apply Hp. by left.
Qed.
Lemma fill_hole_self p bs : fill p bs [inr p] = bytes bs.
Proof. unfold fill. cbn. rewrite decide_True by done. apply app_nil_r. Qed.

Lemma num_line_pos m v : (1 <= length (num_line m v))%nat. Proof. cbn. lia. Qed.

Lemma deferred_call e f k txt n : held e -> 0 <= k -> - 2 ^ 63 <= n < 2 ^ 63 -> call_spec e f k txt ->
  call_spec e (fun c w => '(node, c, w) ← addDeferredMultiBulkLength c w; '(c, w) ← f c w; setDeferredMultiBulkLength junk zmalloc_size c w node n)
    (2 + k) (fun closing => num_line "*" n ++ txt closing).
Proof.
  intros Hh Hk Hn Hf c w q N B H Hp HN HB Hl. assert (0 < grow) by done. rewrite length_app in Hl. pose proof (num_line_pos "*" n).
  destruct (deferred_spec _ e c w q N B H Hh) as (node & c1 & w1 & -> & Hst1 & Hk1 & Hd1); [lia|]. cbn [option_bind mbind].
  destruct (steady_same _ _ _ _ Hst1) as [Hcn Hdr]. fold (connected c) in Hd1.
  destruct (connected c) eqn:Hc.
  - destruct Hd1 as (p & -> & Hpq & Hd1).
    destruct (Hf c1 w1 _ _ _ Hd1) as (c2 & w2 & -> & Hd2 & Hst2 & Hk2); [by eapply stable_facts|lia|nia|rewrite Hdr, length_app; cbn [length]; lia|].
    cbn [option_bind mbind]. rewrite Hcn, Hdr in Hd2.
    destruct (setDeferred_spec junk _ Hz e c2 w2 _ _ _ p n Hd2) as (c3 & w3 & -> & Hd3 & Hst3 & Hk3); [apply elem_of_app; left; apply elem_of_app; right; by left|done|rewrite !length_app, length_bytes; cbn [length]; lia|nia|].
    exists c3, w3. split; [done|]. split; [|split; [by eapply steady_trans; [|eapply steady_trans]|by eapply keeps_trans; [|eapply keeps_trans]]].
    rewrite !fill_app, fill_fresh, fill_hole_self, fill_bytes, <-app_assoc, <-bytes_app in Hd3 by done.
    destruct Hd3 as (ps & vs & its & Hi3 & Hq3 & Hl3 & Hb3). exists ps, vs, its. split; [done|]. split; [done|]. split; [lia|]. nia.
  - destruct Hd1 as [-> Hd1].
    destruct (Hf c1 w1 _ _ _ Hd1) as (c2 & w2 & -> & Hd2 & Hst2 & Hk2); [by eapply stable_facts|lia|nia|rewrite Hdr; lia|].
    cbn [option_bind mbind setDeferredMultiBulkLength]. rewrite Hcn in Hd2. exists c2, w2. split; [done|]. change (bytes []) with (@nil out) in *. rewrite app_nil_r in *.
    split; [|split; [by eapply steady_trans|by eapply keeps_trans]].
    destruct Hd2 as (ps & vs & its & Hi3 & Hq3 & Hl3 & Hb3). exists ps, vs, its. split; [done|]. split; [done|]. split; [lia|]. nia.
Qed.

Lemma cost_pos r : 0 <= cost r.
Proof.
  revert r. apply calls_ind; [intros r Hr; destruct r; cbn; try lia; by destruct (Hr body n)|]. intros body n Hb. cbn [cost].
  enough (0 <= foldr (fun r n => cost r + n) 0 body) by lia. induction Hb as [|r body Hr _ IH]; cbn; lia.
Qed.
Lemma costs_pos rs : 0 <= costs rs.
Proof. induction rs as [|r rs IH]; cbn; [lia|]. pose proof (cost_pos r). unfold costs in IH. lia. Qed.

Lemma calls_spec_of e rs : Forall (fun r => call_ok r -> call_spec e (run_call r) (cost r) (fun closing => emit closing r)) rs -> calls_ok rs ->
  call_spec e (run_calls rs) (costs rs) (fun closing => emits closing rs).
Proof.
  induction 1 as [|r rs Hr _ IH]; intros Hok.
  - intros c w q N B H _ _ _ _. exists c, w. split; [done|]. assert (bytes (if connected c then emits (dropping c) [] else []) = []) as -> by by destruct (connected c).
    rewrite app_nil_r. cbn [costs foldr]. rewrite Z.mul_0_l, !Z.add_0_r. split; [done|]. split; [apply steady_refl|apply keeps_refl].
  - destruct Hok as [H1 H2]. apply (call_seq e (run_call r) (run_calls rs) (cost r) (costs rs) _ _ (cost_pos r) (costs_pos rs) (Hr H1) (IH H2)).
Qed.

Lemma run_call_spec e r : held e -> call_ok r -> call_spec e (run_call r) (cost r) (fun closing => emit closing r).
Proof.
  intros Hh. revert r. apply (calls_ind (fun r => call_ok r -> call_spec e (run_call r) (cost r) (fun closing => emit closing r))).
  - intros r Hr Hok. assert (cost r = 3) as -> by (destruct r; try done; by destruct (Hr body n)). apply base_call; [done|done|]. by destruct r; destruct Hok.
  - intros body n Hb [Ha Hok]. cbn [arg_ok] in Ha.
    pose proof (deferred_call e (run_calls body) (costs body) (fun closing => emits closing body) n Hh (costs_pos body) Ha (calls_spec_of e body Hb Hok)) as H.
    intros c w q N B Hc HP HN HB Hl. rewrite run_call_deferred. by apply H.
Qed.

Lemma run_calls_spec e rs : held e -> calls_ok rs -> call_spec e (run_calls rs) (costs rs) (fun closing => emits closing rs).
Proof. intros Hh. apply calls_spec_of. apply Forall_forall. intros r _. by apply run_call_spec. Qed.
End Spec.
