(* ===== verification/ReplyStream.v ===== *)
(** ReplyStream: sessions of a client, and what holds of the output whatever
    the commands reply and however the socket takes it; and the shared replies
    made when the server starts. *)
From Stdlib Require Strings.String.
From S2P Require Import Prelude Util UtilNum UtilSpec Sds SdsProofs SdsMore SdsRepr Adlist AdlistProofs AdlistSpec Objects ObjectsSpec Reply ReplyProofs ReplyQueue ReplySend ReplySpec.
Import (notations) Corelib.Init.Byte.
Import (notations) Strings.String.

Section Stream.
Context (junk : nat -> byte) (zmalloc_size : Z -> Z) (Hz : allocator zmalloc_size) (sh : sharedObjects) (known : loc -> option (list byte)).
#[local] Abbreviation out_inv := (out_inv zmalloc_size).
#[local] Abbreviation holds := (holds zmalloc_size).

(** ** Sessions

    A command replies; the client is marked to be closed once it has its
    reply, which [QUIT] and protocol errors do; or the socket can be written,
    with the results of [write] given: the event loop calls the handler that
    is installed. *)
Inductive event := EReplies (rs : list reply_call) | EClose | EWritable (ws : list write_result).

Definition run_event (ev : event) (c : outClient) (w : server) : option (option outClient * server) :=
  match ev with
  | EReplies rs => '(c, w) ← run_calls junk zmalloc_size sh rs c w; Some (Some c, w)
  | EClose => Some (Some (set_flags c (Z.lor (cflags c) Request.REDIS_CLOSE_AFTER_REPLY)), w)
  | EWritable ws => if handler c then sendReplyToClient zmalloc_size c w ws else Some (Some c, w)
  end.

Fixpoint run (evs : list event) (c : outClient) (w : server) : option (option outClient * server) :=
  match evs with
  | [] => Some (Some c, w)
  | ev :: evs =>
    '(c, w) ← run_event ev c w;
    match c with Some c => run evs c w | None => Some (None, w) end
  end.

(** All that the session is to send. *)
Fixpoint expected (closing : bool) (evs : list event) : list byte :=
  match evs with
  | [] => []
  | EReplies rs :: evs => emits known closing rs ++ expected closing evs
  | EClose :: evs => expected true evs
  | EWritable _ :: evs => expected closing evs
  end.

Definition event_cost (ev : event) : Z := match ev with EReplies rs => costs rs | _ => 0 end.
Definition session_cost (evs : list event) : Z := foldr (fun ev n => event_cost ev + n) 0 evs.
Definition event_ok (ev : event) : Prop := match ev with EReplies rs => calls_ok known rs | _ => True end.

(** No write fails for good. *)
Definition no_error (evs : list event) : Prop :=
  Forall (fun ev => match ev with EWritable ws => Forall (fun r => r <> Fails false) ws | _ => True end) evs.
Definition closes (evs : list event) : Prop := EClose ∈ evs.

Lemma session_cost_pos evs : 0 <= session_cost evs.
Proof. induction evs as [|ev evs IH]; cbn; [lia|]. unfold session_cost in IH. assert (0 <= event_cost ev) by (destruct ev; cbn; [apply costs_pos|lia..]). lia. Qed.

(** An ordinary client: connected, not a master, nor a slave that waits. *)
Record ordinary c w : Prop := {
  or_fd : 0 < fd c; or_lua : lua c = false; or_master : master c = false; or_online : online c = true; or_listed : id c ∈ clients w }.

Lemma ordinary_flags c w c' w' : ordinary c w -> id c' = id c -> fd c' = fd c -> same_flags (cflags c) (cflags c') ->
  replstate c' = replstate c -> clients w' = clients w -> ordinary c' w'.
Proof.
  intros [Hf Hl Hm Ho Hi] Ei Ef Hfl Er Ec. constructor; unfold lua, master, online in *.
  - by rewrite Ef.
  - rewrite Hfl by lia. done.
  - rewrite Hfl by lia. done.
  - by rewrite Er.
  - by rewrite Ei, Ec.
Qed.

Lemma close_bit f k : Z.testbit (Z.lor f Request.REDIS_CLOSE_AFTER_REPLY) k = Z.testbit f k || (k =? 6).
Proof.
  rewrite Z.lor_spec. f_equal. unfold Request.REDIS_CLOSE_AFTER_REPLY. rewrite Z.shiftl_1_l.
  destruct (Z.ltb_spec k 0); [rewrite Z.testbit_neg_r by done; symmetry; apply Z.eqb_neq; lia|]. rewrite Z.pow2_bits_eqb by done. apply Z.eqb_sym.
Qed.

Lemma holds_close e c w q N B : holds e c w q N B -> ordinary c w ->
  let c' := set_flags c (Z.lor (cflags c) Request.REDIS_CLOSE_AFTER_REPLY) in holds e c' w q N B /\ ordinary c' w /\ dropping c' = true.
Proof.
  intros (ps & vs & its & H & Hq & Hl & Hb) [Hf Hlu Hm Ho Hi] c'.
  assert (forall k, k <> 6 -> Z.testbit (cflags c') k = Z.testbit (cflags c) k) as Hbit.
  { intros k Hk. unfold c'. cbn [set_flags cflags]. rewrite close_bit. rewrite (proj2 (Z.eqb_neq k 6)) by done. apply orb_false_r. }
  split; [|split; [|unfold dropping, c'; cbn [set_flags cflags]; rewrite close_bit; apply orb_true_r]].
  - exists ps, vs, its. split; [|done]. destruct H as [H1 H2 H3 H4 H5 H6 H7 H8 H9 H10]. constructor; try done.
    + unfold asap. rewrite Hbit by lia. exact H8.
    + intros Hlua. apply H9. unfold lua in *. rewrite Hbit in Hlua by lia. done.
    + intros Hne Hon Hlua. apply H10; [done|done|]. unfold lua in *. rewrite Hbit in Hlua by lia. done.
  - constructor; unfold lua, master in *; try rewrite Hbit by lia; done.
Qed.

(** A pending output has its handler. *)
Lemma pending_handler e c w q N B : holds e c w q N B -> ordinary c w -> q <> [] -> handler c = true.
Proof.
  intros (ps & vs & its & H & -> & _) [_ Hlu _ Hon _] Hne. apply (oi_handler _ _ _ _ _ _ _ H); [|done|done].
  pose proof (inv_lengths _ _ _ _ _ _ _ H) as (Hl1 & Hl2 & Hll). destruct ps as [|p ps]; [left|right; rewrite Hll; cbn; lia].
  pose proof (oi_pos _ _ _ _ _ _ _ H). destruct (Z.eq_dec (bufpos c) 0) as [E|]; [|lia]. exfalso. apply Hne. unfold stream. rewrite E. apply drop_nil.
Qed.

Lemma complete_app q bs : complete q -> complete (q ++ bytes bs).
Proof. intros H. apply Forall_app. split; [done|]. apply Forall_fmap. by apply Forall_true. Qed.
Lemma complete_bytes q : complete q -> exists bs, q = bytes bs.
Proof.
  induction q as [|o q IH]; intros H; [by exists []|]. apply Forall_cons in H as [Ho Hq]. destruct o as [b|]; [|done].
  destruct (IH Hq) as [bs ->]. by exists (b :: bs).
Qed.
Lemma bytes_inj bs cs : bytes bs = bytes cs -> bs = cs.
Proof. intros H. apply (list_fmap_eq_inj inl) in H; [done|]. by intros ? ? [= ->]. Qed.

(** What a session has done, from a state with the output [q]. *)
Definition done_with e c w q N B evs (oc : option outClient) (w' : server) : Prop :=
  keeps e (objs w) (objs w') /\
  match oc with
  | Some c' => exists q', holds e c' w' q' (N + session_cost evs) (B + session_cost evs * grow) /\ complete q' /\ ordinary c' w' /\
      (exists sent, socket w' = socket w ++ sent /\ bytes sent ++ q' = q ++ bytes (expected (dropping c) evs)) /\ (closes evs \/ dropping c = dropping c')
  | None => counts (objs w') e /\ clients w ≡ₚ id c :: clients w' /\
      exists sent rest, socket w' = socket w ++ sent /\ bytes sent ++ rest = q ++ bytes (expected (dropping c) evs) /\
      (no_error evs -> exists evs1 evs2, evs = evs1 ++ evs2 /\ (closes evs1 \/ dropping c = true) /\ bytes sent = q ++ bytes (expected (dropping c) evs1))
  end.

(** One event before the others: [q1] is the output after it, once [s] has
    been sent. *)
Lemma done_with_cons e c w q N B ev evs c1 w1 q1 N1 B1 oc w' s x : keeps e (objs w) (objs w1) -> clients w1 = clients w -> id c1 = id c ->
  socket w1 = socket w ++ s -> bytes s ++ q1 = q ++ bytes x -> expected (dropping c) (ev :: evs) = x ++ expected (dropping c1) evs ->
  (forall evs1, expected (dropping c) (ev :: evs1) = x ++ expected (dropping c1) evs1) ->
  (dropping c1 = dropping c \/ ev = EClose) -> N1 + session_cost evs <= N + session_cost (ev :: evs) -> B1 + session_cost evs * grow <= B + session_cost (ev :: evs) * grow ->
  done_with e c1 w1 q1 N1 B1 evs oc w' -> done_with e c w q N B (ev :: evs) oc w'.
Proof.
  intros Hk Hcl Hid Hs Hq Hx Hx' Hd HN HB [Hk' H]. split; [by eapply keeps_trans|]. destruct oc as [c'|].
  - destruct H as (q' & (ps & vs & its & Hi & Hq' & Hl & Hb) & Hc & Hor & (sent & Hst & Hsr) & Hdr). exists q'. split; [exists ps, vs, its; split_and!; try done; lia|].
    split; [done|]. split; [done|]. split.
    + exists (s ++ sent). split; [by rewrite Hst, Hs, <-app_assoc|]. rewrite bytes_app, <-app_assoc, Hsr, Hx, bytes_app, app_assoc, Hq, <-app_assoc. done.
    + destruct Hdr as [Hin|Hdr]; [left; by right|]. destruct Hd as [Hd|Hd]; [right; congruence|subst ev; left; by left].
  - destruct H as (Hct & Hcl' & sent & rest & Hst & Hsr & Hne). split; [done|]. split; [by rewrite <-Hcl, <-Hid|]. exists (s ++ sent), rest.
    split; [by rewrite Hst, Hs, <-app_assoc|]. split.
    + rewrite bytes_app, <-app_assoc, Hsr, Hx, bytes_app, app_assoc, Hq, <-app_assoc. done.
    + intros Hno. apply Forall_cons in Hno as [_ Hno]. destruct (Hne Hno) as (evs1 & evs2 & -> & Hcl1 & Hsent). exists (ev :: evs1), evs2. split; [done|]. split.
      * destruct Hcl1 as [Hin|Hdr]; [left; by right|]. destruct Hd as [Hd|Hd]; [right; congruence|subst ev; left; by left].
      * rewrite bytes_app, Hsent, app_assoc, Hq, Hx', bytes_app, <-app_assoc. done.
Qed.

Lemma session_spec e : held e -> forall evs c w q N B, Forall event_ok evs -> holds e c w q N B -> complete q -> ordinary c w -> facts sh known e (objs w) ->
  N + session_cost evs < 2 ^ 30 -> B + session_cost evs * grow < 2 ^ 62 ->
  Z.of_nat (length q) + Z.of_nat (length (expected (dropping c) evs)) + 64 < sds_limit ->
  exists oc w', run evs c w = Some (oc, w') /\ done_with e c w q N B evs oc w'.
Proof.
  intros Hh. assert (0 < grow) as Hgr by done. induction evs as [|ev evs IH]; intros c w q N B Hok Hq0 Hc Hor Hf HN HB Hl.
  - exists (Some c), w. split; [done|]. split; [apply keeps_refl|]. exists q. cbn [session_cost foldr]. rewrite Z.mul_0_l, !Z.add_0_r. cbn [expected].
    change (bytes []) with (@nil out). rewrite app_nil_r. split_and!; auto. exists []. by rewrite app_nil_r.
  - apply Forall_cons in Hok as [Hev Hok]. change (session_cost (ev :: evs)) with (event_cost ev + session_cost evs) in *. pose proof (session_cost_pos evs) as Hcp. cbn [run].
    destruct ev as [rs | | ws]; cbn [run_event event_cost expected event_ok] in *.
    + rewrite length_app in Hl. pose proof (costs_pos rs) as Hcr.
      destruct (run_calls_spec junk _ Hz sh known e rs Hh Hev c w q N B Hq0 Hf) as (c1 & w1 & -> & Hh1 & Hst & Hk); [lia|nia|lia|]. cbn [option_bind mbind].
      destruct (steady_same _ _ _ _ Hst) as [Hcn Hdr]. assert (connected c = true) as Hcon by (unfold connected; rewrite (proj2 (Z.ltb_lt 0 (fd c))) by apply Hor; apply orb_true_r).
      rewrite Hcon in Hh1. pose proof Hst as [Hid Hfd Hfl Hrp _ _ Hcl _ _ _ _ _ Hso].
      destruct (IH c1 w1 _ _ _ Hok Hh1) as (oc & w' & E & Hd); [by apply complete_app|by eapply ordinary_flags|by eapply stable_facts|lia|lia|rewrite Hdr, length_app, length_bytes; lia|].
      exists oc, w'. split; [exact E|]. eapply (done_with_cons e c w q N B _ evs c1 w1 _ _ _ oc w' [] (emits known (dropping c) rs)); try done;
        [by rewrite app_nil_r|cbn [expected]; by rewrite Hdr|intros evs1; cbn [expected]; by rewrite Hdr|by left|change (session_cost (EReplies rs :: evs)) with (costs rs + session_cost evs); lia|change (session_cost (EReplies rs :: evs)) with (costs rs + session_cost evs); lia].
    + destruct (holds_close e c w q N B Hq0 Hor) as (Hh1 & Hor1 & Hd1). cbn [option_bind mbind]. set (c1 := set_flags c _) in *.
      destruct (IH c1 w q N B Hok Hh1 Hc Hor1 Hf) as (oc & w' & E & Hd); [lia|lia|by rewrite Hd1|]. exists oc, w'. split; [exact E|].
      eapply (done_with_cons e c w q N B _ evs c1 w q N B oc w' [] []); try done; [apply keeps_refl|by rewrite app_nil_r|by rewrite app_nil_r|cbn [expected]; by rewrite Hd1|intros evs1; cbn [expected]; by rewrite Hd1|by right].
    + destruct (handler c) eqn:Hhd.
      2:{ cbn [option_bind mbind]. destruct (IH c w q N B Hok Hq0 Hc Hor Hf) as (oc & w' & E & Hd); try done. exists oc, w'. split; [exact E|].
          eapply (done_with_cons e c w q N B _ evs c w q N B oc w' [] []); try done; [apply keeps_refl|by rewrite app_nil_r|by rewrite app_nil_r|by left]. }
      destruct (sendReply_spec _ Hz e c w q N B ws Hq0 Hc) as (r & w1 & k & -> & Hk & Hs & Hkp & _ & Hr); [unfold sds_limit in Hl; lia|lia|apply Hor|]. cbn [option_bind mbind].
      rewrite (or_master _ _ Hor) in Hs. destruct (complete_bytes _ (Forall_take _ k _ Hc)) as [s Es]. rewrite Es, <-bytes_app in Hs. apply bytes_inj in Hs.
      assert (bytes s ++ drop k q = q) as Hq by (rewrite <-Es; apply take_drop).
      destruct r as [c1|].
      * destruct Hr as (Hh1 & Hid & Hfd & Hfl & Hrp & Hcl & _ & _). assert (dropping c1 = dropping c) as Hdr by (unfold dropping; by rewrite Hfl).
        destruct (IH c1 w1 (drop k q) N B Hok Hh1) as (oc & w' & E & Hd); [by apply Forall_drop|eapply ordinary_flags; try done; by rewrite Hfl|by eapply stable_facts|lia|lia|rewrite Hdr, length_drop; lia|].
        exists oc, w'. split; [exact E|]. eapply (done_with_cons e c w q N B _ evs c1 w1 (drop k q) N B oc w' s []); try done;
          [by rewrite Hq, app_nil_r|cbn [expected]; by rewrite Hdr|intros evs1; cbn [expected]; by rewrite Hdr|by left].
      * destruct Hr as (Hct & Hcl & Hwhy). exists None, w1. split; [done|]. split; [done|]. split; [done|]. split; [done|]. exists s, (drop k q ++ bytes (expected (dropping c) evs)).
        split; [done|]. split; [by rewrite app_assoc, Hq|]. intros Hno. apply Forall_cons in Hno as [Hno _]. destruct Hwhy as [[Hdr ->]|[i Hi]].
        -- exists [EWritable ws], evs. split; [done|]. split; [by right|]. cbn [expected]. change (bytes []) with (@nil out). rewrite app_nil_r, <-Es. apply take_ge. lia.
        -- exfalso. rewrite Forall_forall in Hno. by apply (Hno _ (list_elem_of_lookup_2 _ _ _ Hi)).
Qed.
End Stream.

(** The shared objects and a new client, the state sessions start
    from. *)
Import (notations) Corelib.Init.Byte.
Import (notations) Strings.String.

(** References are added, for new objects. *)
Record grown (n n' : loc -> Z) (os os' : gmap loc robj) : Prop := {
  gr_keeps : keeps n os os';
  gr_counts : counts os' n';
  gr_le : forall p, 0 <= n p <= n' p /\ n' p <= Z.max (n p) 1;
  gr_new : forall p y, os' !! p = Some y -> os !! p = Some y \/ exists bs, content_of y bs }.

Lemma grown_trans n n1 n2 os os1 os2 : grown n n1 os os1 -> grown n1 n2 os1 os2 -> grown n n2 os os2.
Proof.
  intros [K1 C1 L1 N1] [K2 C2 L2 N2]. split; [|done| |].
  - intros p x Hp Hx. destruct (K1 p x Hp Hx) as (y & Hy & S1). destruct (K2 p y) as (z & Hz & S2); [specialize (L1 p); lia|done|].
    exists z. split; [done|]. by eapply same_trans.
  - intros p. specialize (L1 p). specialize (L2 p). lia.
  - intros p y Hy. destruct (N2 p y Hy) as [Hy'|]; [by apply N1|by right].
Qed.

Lemma grown_holds n n' os os' o bs : grown n n' os os' -> obj_holds n o bs os -> obj_holds n' o bs os'.
Proof.
  intros [K C L _] (Ho & x & Hx & Hc). destruct (K o x Ho Hx) as (y & Hy & Hs). split; [specialize (L o); lia|]. exists y. split; [done|]. by eapply content_same.
Qed.

Section Shared.
Context (junk : nat -> byte).

(** A function that makes an object with [bs]. *)
Definition makes_object (f : server -> option (loc * server)) bs : Prop := forall w n, counts (objs w) n -> (forall p, 0 <= n p) ->
  exists p os n', f w = Some (p, set_objs w os) /\ grown n n' (objs w) os /\ obj_holds n' p bs os.

Lemma new_object s bs : sds_rep s bs -> makes_object (fun w => Some (new_obj w (createObject REDIS_STRING (PSds s)))) bs.
Proof.
  intros Hs w n Hc Hn. set (x := createObject REDIS_STRING (PSds s)). destruct (counts_new _ _ x Hc eq_refl eq_refl Hn) as (Hp & H0 & Hc').
  unfold new_obj. cbv zeta. set (p := fresh (dom (objs w))) in *. exists p, (<[p:=x]> (objs w)), (give n p). split; [done|]. split.
  - split; [|done| |].
    + apply keeps_frame. intros q Hq. rewrite lookup_insert_ne; [done|]. intros <-. lia.
    + intros q. rewrite give_ext, occ_one. pose proof (Hn q). destruct (decide (q = p)) as [->|]; lia.
    + intros q y [[<- <-]|[_ Hy]]%lookup_insert_Some; [right|by left]. exists bs. left. split; [done|]. by exists s.
  - split; [rewrite give_here; lia|]. exists x. split; [apply lookup_insert_eq|]. left. split; [done|]. by exists s.
Qed.

Lemma makes_shared_string bs : no_nul bs -> Z.of_nat (length bs) < sds_limit -> makes_object (fun w => shared_string junk w bs) bs.
Proof.
  intros Hn Hl. destruct (newlen_spec junk bs [z2b 0] Hl) as (s & E & Hs & _). pose proof (new_object s bs Hs) as H. intros w n Hc Hnn. unfold shared_string, sdsnew.
  assert (strlen (bs ++ [z2b 0]) = Z.of_nat (length bs)) as -> by (unfold strlen; by rewrite (cstr_no_nul _ [] Hn)). rewrite E. by apply H.
Qed.

Lemma makes_shared_format bs : no_nul bs -> Z.of_nat (length bs) < sds_limit -> makes_object (fun w => shared_format junk w bs) bs.
Proof.
  intros Hn Hl. destruct (empty_spec junk) as (s0 & E0 & Hs0). destruct (catprintf_spec junk s0 [] bs Hs0 Hn Hl) as (s & E & Hs).
  pose proof (new_object s bs Hs) as H. intros w n Hc Hnn. unfold shared_format. rewrite E0. cbn [option_bind mbind]. rewrite E. by apply H.
Qed.

Lemma makes_shared_literal bs len : len = Z.of_nat (length bs) -> Z.of_nat (length bs) < sds_limit -> makes_object (fun w => shared_literal junk w bs len) bs.
Proof.
  intros -> Hl. destruct (newlen_spec junk bs [z2b 0] Hl) as (s & E & Hs & _). pose proof (new_object s bs Hs) as H. intros w n Hc Hnn.
  unfold shared_literal, new_string, createStringObject. rewrite E. by apply H.
Qed.

Lemma line_ok m v : b2z m <> 0 -> 0 <= v < 2 ^ 62 -> no_nul (num_line m v) /\ Z.of_nat (length (num_line m v)) < sds_limit.
Proof.
  intros Hm Hv. assert (int64 v) as Hi by (unfold int64; lia). pose proof (length_print_int v Hi). split.
  - constructor; [done|]. apply Forall_app. split; [by apply no_nul_print_int|]. by repeat constructor.
  - unfold num_line, crlf_bytes, sds_limit. cbn [length]. rewrite length_app. cbn [length]. lia.
Qed.

Lemma shared_headers_spec k : forall j w n, 0 <= j -> j + Z.of_nat k < 2 ^ 62 -> counts (objs w) n -> (forall p, 0 <= n p) ->
  exists ms bs os n', shared_headers junk k j w = Some (ms, bs, set_objs w os) /\ grown n n' (objs w) os /\
    forall i, (i < k)%nat -> (exists o, ms !! i = Some o /\ obj_holds n' o (num_line "*" (j + Z.of_nat i)) os) /\
                             (exists o, bs !! i = Some o /\ obj_holds n' o (num_line "$" (j + Z.of_nat i)) os).
Proof.
  induction k as [|k IH]; intros j w n Hj Hjk Hc Hn.
  - exists [], [], (objs w), n. split; [by destruct w|]. split; [split; [apply keeps_refl|done| |by left]|lia]. intros p. specialize (Hn p). lia.
  - cbn [shared_headers]. destruct (line_ok "*" j) as [Hm1 Hm2]; [done|lia|]. destruct (line_ok "$" j) as [Hb1 Hb2]; [done|lia|].
    destruct (makes_shared_format _ Hm1 Hm2 w n Hc Hn) as (m & os1 & n1 & E1 & G1 & O1). change (text "*" ++ print_int j ++ [z2b 13; z2b 10]) with (num_line "*" j).
    rewrite E1. cbn [option_bind mbind].
    destruct (makes_shared_format _ Hb1 Hb2 (set_objs w os1) n1) as (b & os2 & n2 & E2 & G2 & O2); [apply G1|intros p; destruct (gr_le _ _ _ _ G1 p); lia|].
    change (text "$" ++ print_int j ++ [z2b 13; z2b 10]) with (num_line "$" j). rewrite E2. cbn [option_bind mbind].
    destruct (IH (j + 1) (set_objs (set_objs w os1) os2) n2) as (ms & bs & os3 & n3 & E3 & G3 & O3); [lia|lia|apply G2|intros p; destruct (gr_le _ _ _ _ G2 p), (gr_le _ _ _ _ G1 p); lia|].
    rewrite E3. cbn [option_bind mbind]. exists (m :: ms), (b :: bs), os3, n3. split; [done|]. split; [by eapply grown_trans; [exact G1|]; eapply grown_trans|].
    intros [|i] Hi.
    + rewrite Z.add_0_r. split; [exists m|exists b]; (split; [done|]); (eapply grown_holds; [exact G3|]); [by eapply grown_holds|done].
    + replace (j + Z.of_nat (S i)) with (j + 1 + Z.of_nat i) by lia. apply O3. lia.
Qed.

(** The objects made so far, with their strings. *)
Definition all_hold (n : loc -> Z) (os : gmap loc robj) (l : list (loc * list byte)) : Prop := Forall (fun '(o, bs) => obj_holds n o bs os) l.

Lemma grown_all n n' os os' l : grown n n' os os' -> all_hold n os l -> all_hold n' os' l.
Proof. intros G H. eapply Forall_impl; [exact H|]. intros [o bs] Ho. by eapply grown_holds. Qed.

Definition prepares w n (m : option (sharedObjects * server)) : Prop :=
  exists sh os n', m = Some (sh, set_objs w os) /\ grown n n' (objs w) os /\ shared_replies n' sh os.

Lemma prepares_step w n f bs k l : makes_object f bs -> counts (objs w) n -> (forall p, 0 <= n p) -> all_hold n (objs w) l ->
  (forall p os n', counts os n' -> (forall p, 0 <= n' p) -> all_hold n' os ((p, bs) :: l) -> prepares (set_objs w os) n' (k p (set_objs w os))) ->
  prepares w n ('(p, w) ← f w; k p w).
Proof.
  intros Hf Hc Hn Hl Hk. destruct (Hf w n Hc Hn) as (p & os & n1 & -> & G & Ho). cbn [option_bind mbind].
  destruct (Hk p os n1) as (sh & os2 & n2 & E & G2 & Hsh); [apply G|intros q; destruct (gr_le _ _ _ _ G q); lia|constructor; [done|by eapply grown_all]|].
  exists sh, os2, n2. split; [by rewrite E|]. split; [by eapply grown_trans|done].
Qed.

Ltac next_string :=
  match goal with
  | Hl : all_hold _ _ ?l |- prepares _ _ (mbind _ (shared_string _ _ ?bs)) =>
    eapply (prepares_step _ _ (fun w => shared_string junk w bs) bs _ l); [by apply makes_shared_string; [repeat constructor|]|done|done|exact Hl|];
    clear; let Hc := fresh "Hc" in let Hn := fresh "Hn" in let Hl := fresh "Hl" in intros ? ? ? Hc Hn Hl
  | Hl : all_hold _ _ ?l |- prepares _ _ (mbind _ (shared_literal _ _ ?bs ?len)) =>
    eapply (prepares_step _ _ (fun w => shared_literal junk w bs len) bs _ l); [by apply makes_shared_literal|done|done|exact Hl|];
    clear; let Hc := fresh "Hc" in let Hn := fresh "Hn" in let Hl := fresh "Hl" in intros ? ? ? Hc Hn Hl
  end.

(** After [createSharedObjects] the shared replies are there, each held
    once. *)
Lemma createSharedObjects_spec w n : counts (objs w) n -> (forall p, 0 <= n p) -> prepares w n (createSharedObjects junk w).
Proof.
  intros Hc Hn. unfold createSharedObjects. assert (all_hold n (objs w) []) as Hl by by constructor.
  do 27 next_string.
  match goal with |- prepares ?w' _ _ => set (w8 := w') end.
  destruct (shared_headers_spec (Z.to_nat REDIS_SHARED_BULKHDR_LEN) 0 w8 _ ltac:(lia) ltac:(by vm_compute) Hc Hn) as (ms & bs & osf & nf & E & G & Hh).
  rewrite E. cbn [option_bind mbind]. eexists _, osf, nf. split; [reflexivity|]. split; [exact G|]. apply (grown_all _ _ _ _ _ G) in Hl. unfold all_hold in Hl.
  rewrite !Forall_cons in Hl. constructor; [unfold shared_texts; rewrite !Forall_cons; cbv beta iota in Hl |- *; destruct_and! Hl; split_and!; try exact I;
    cbn [crlf ok czero cone nullbulk nullmultibulk queued nokeyerr sameobjecterr outofrangeerr loadingerr slowscripterr masterdownerr bgsaveerr roslaveerr oomerr execaborterr emptybulk wrongtypeerr syntaxerr colon messagebulk pmessagebulk subscribebulk unsubscribebulk psubscribebulk punsubscribebulk];
    match goal with H : obj_holds _ ?o _ _ |- obj_holds _ ?o _ _ => exact H | _ => done end| |]; intros j Hj; destruct (Hh (Z.to_nat j)) as [H1 H2];
    try (unfold REDIS_SHARED_BULKHDR_LEN in *; lia); rewrite Z2Nat.id, Z.add_0_l in H1, H2 by lia; done.
Qed.
End Shared.
