(* ===== verification/ReplyTheorems.v ===== *)
(** ReplyTheorems: the state a session of a client starts from, the typing of
    the store of objects, how the output is drained, and the theorems about
    replies. *)
From Stdlib Require Strings.String.
From S2P Require Import Prelude Util UtilNum UtilSpec Sds SdsProofs SdsMore SdsRepr Adlist AdlistProofs AdlistSpec Objects ObjectsSpec Reply ReplyProofs ReplyQueue ReplySend ReplySpec ReplyStream.
Import (notations) Corelib.Init.Byte.
Import (notations) Strings.String.

(** ** The server a client connects to *)

(** Its objects are counted by [e]; there are three classes of limits; the
    event loop takes the handler of [fd]; the client is new. *)
Record server_ok (e : loc -> Z) (w : server) (i : cid) (fd : Z) : Prop := {
  sv_counts : counts (objs w) e; sv_held : held e; sv_freed : freed (cells w) = []; sv_limits : length (client_obuf_limits w) = 3%nat;
  sv_time : 0 <= unixtime w < 2 ^ 62; sv_ae : 0 < fd -> ae_accepts w fd = true; sv_new : i ∉ clients_to_close w }.

Section Theorems.
Context (junk : nat -> byte) (zmalloc_size : Z -> Z) (sh : sharedObjects) (known : loc -> option (list byte)).
Implicit Types (e : loc -> Z) (w : server).

(** The invariant holds of a client just created, with any flags but
    [REDIS_CLOSE_ASAP]. *)
Lemma create_inv e w i fd f : server_ok e w i fd -> Z.testbit f 10 = false ->
  let '(c, w0) := createClient junk w i fd in out_inv zmalloc_size e (set_flags c f) w0 [] [] [].
Proof.
  intros [Hc He Hf Hl Ht Ha Hn] Hbit. unfold createClient.
  assert (forall w0 c, objs w0 = objs w -> cells w0 = cells w -> client_obuf_limits w0 = client_obuf_limits w -> unixtime w0 = unixtime w ->
    clients_to_close w0 = clients_to_close w -> ae_accepts w0 = ae_accepts w ->
    c = set_flags (fst (createClient junk w i fd)) f -> out_inv zmalloc_size e c w0 [] [] []) as H.
  { intros w0 c E1 E2 E3 E4 E5 E6 ->. constructor; rewrite ?E1, ?E2, ?E3, ?E4, ?E5, ?E6; try done.
    + constructor; [|by eexists|exact Hf| |intros p; apply He|constructor].
      * constructor; try done. apply NoDup_nil_2.
      * eapply counts_ext; [exact Hc|]. intros p. change (occ p []) with 0. lia.
    + by left.
    + change (asap _) with (Z.testbit f 10). change (id _) with i. by rewrite Hbit.
    + cbn. lia. }
  destruct (negb (fd =? -1)); by apply H.
Qed.

Lemma create_holds e w i fd : server_ok e w i fd -> 0 < fd ->
  let '(c, w0) := createClient junk w i fd in
  holds zmalloc_size e c w0 [] 0 0 /\ ordinary c w0 /\ dropping c = false /\ objs w0 = objs w /\ socket w0 = socket w /\ id c = i /\ clients w0 = clients w ++ [i].
Proof.
  intros Hw Hfd. pose proof (create_inv e w i fd 0 Hw eq_refl) as H. unfold createClient in *. generalize dependent (map junk (seq 0 (Z.to_nat REDIS_REPLY_CHUNK_BYTES))).
  rewrite (proj2 (Z.eqb_neq fd (-1))) by lia. intros b H. cbn [negb] in *.
  split; [exists [], [], []; split; [exact H|done]|]. split; [|done]. constructor; try done. cbn. apply elem_of_app. right. by left.
Qed.

(** The bounds the statements assume: fewer than 2^28 nodes can be added and
    less than 2^30 bytes are replied. *)
Definition session_ok (evs : list event) : Prop :=
  Forall (event_ok known) evs /\ session_cost evs < 2 ^ 28 /\ Z.of_nat (length (expected known false evs)) < 2 ^ 30.

Lemma session_from_create e w i fd evs : allocator zmalloc_size -> server_ok e w i fd -> 0 < fd -> facts sh known e (objs w) -> session_ok evs ->
  let '(c, w0) := createClient junk w i fd in
  exists oc w', run junk zmalloc_size sh evs c w0 = Some (oc, w') /\ done_with zmalloc_size known e c w0 [] 0 0 evs oc w'.
Proof.
  intros Hz Hw Hfd Hf (Hev & Hcost & Hlen). pose proof (create_holds e w i fd Hw Hfd) as H. destruct (createClient junk w i fd) as [c w0].
  destruct H as (Hh & Hor & Hdr & Ho & _). pose proof (session_cost_pos evs).
  apply session_spec; try done; [apply Hw|by constructor|by rewrite Ho|lia|unfold grow; lia|rewrite Hdr; cbn [length]; unfold sds_limit; lia].
Qed.
End Theorems.

(** ** Types *)

(** A string object: its payload is what its encoding says. *)
Definition well_typed (x : robj) : Prop :=
  type x = REDIS_STRING /\
  ((encoding x = REDIS_ENCODING_RAW /\ exists s bs, ptr x = PSds s /\ sds_rep s bs) \/
   (encoding x = REDIS_ENCODING_INT /\ exists v, ptr x = PLong v /\ int64 v)).
Definition store_typed (os : gmap loc robj) : Prop := forall p x, os !! p = Some x -> well_typed x.

Lemma typed_same x y : same_object x y -> well_typed x -> well_typed y.
Proof. intros (Ht & He & Hp). unfold well_typed. by rewrite Ht, He, Hp. Qed.

(** The objects held from outside are typed, when they were. *)
Lemma keeps_typed e os os' p y : counts os e -> store_typed os -> keeps e os os' -> 0 < e p -> os' !! p = Some y -> well_typed y.
Proof.
  intros Hc Ht Hk Hp Hy. destruct (ct_alive _ _ Hc p Hp) as [x Hx]. destruct (Hk p x Hp Hx) as (z & Hz & Hs).
  assert (z = y) as -> by congruence. eapply typed_same; [exact Hs|by eapply Ht].
Qed.

(** No length is missing in the list when none is missing in the output: what
    was sent had none. *)
Lemma complete_items (zmalloc_size : Z -> Z) e c w ps vs its p : out_inv zmalloc_size e c w ps vs its -> complete (stream c ps its) ->
  forall k, ps !! k = Some p -> its !! k = Some Hole -> False.
Proof.
  intros H Hq k Hp Hk. pose proof (oi_sent _ _ _ _ _ _ _ H) as Hs. pose proof (oi_pos _ _ _ _ _ _ _ H) as Hpos. pose proof (oi_buf _ _ _ _ _ _ _ H) as Hb.
  assert (forall qs js (j : nat), qs !! j = Some p -> js !! j = Some Hole -> complete (items qs js) -> False) as Hbad.
  { clear. intros qs. induction qs as [|q qs IH]; intros [|it js] [|j] Hp Hj Hc; try done; unfold items in Hc; cbn in Hc; apply Forall_app in Hc as [Hc1 Hc2].
    - injection Hj as ->. by inversion Hc1.
    - by eapply IH. }
  assert (length (bytes (take (Z.to_nat (bufpos c)) (buf c))) = Z.to_nat (bufpos c)) as Hl by (rewrite length_bytes, length_take; lia).
  unfold stream in Hq. destruct Hs as [Hs|[Hs|(Hs & bs & r & -> & Hl')]].
  - rewrite Hs, drop_0 in Hq. apply Forall_app in Hq as [_ Hq]. by eapply Hbad.
  - rewrite drop_app_le in Hq by lia. apply Forall_app in Hq as [_ Hq]. by eapply Hbad.
  - destruct ps as [|p0 ps]; [done|]. destruct k as [|k]; [done|]. cbn in Hp, Hk. rewrite Hs in Hq. change (Z.to_nat 0) with 0%nat in Hq. rewrite take_0 in Hq. change (bytes []) with (@nil out) in Hq.
    unfold items in Hq. cbn [zip_with item_out concat app] in Hq.
    rewrite drop_app_le in Hq by (rewrite length_bytes; lia). apply Forall_app in Hq as [_ Hq]. by eapply (Hbad ps r k).
Qed.

(** Every object is held from outside or by the list. *)
Lemma holds_typed (zmalloc_size : Z -> Z) e os c w q N B : counts os e -> store_typed os -> keeps e os (objs w) -> holds zmalloc_size e c w q N B -> complete q ->
  store_typed (objs w) /\ exists ps vs, list_rep (reply c) (cells w) ps vs /\ counts (objs w) (fun p => e p + occ p vs).
Proof.
  intros Hc Ht Hk (ps & vs & its & H & -> & _) Hq. pose proof (oi_list _ _ _ _ _ _ _ H) as [Hr _ _ Hc' He Hno]. split; [|by exists ps, vs].
  intros p x Hx. destruct (decide (0 < e p)) as [Hp|Hp]; [exact (keeps_typed _ _ _ _ _ Hc Ht Hk Hp Hx)|].
  destruct (ct_count _ _ Hc' p x Hx) as (_ & Hn & Hty). cbv beta in Hn. assert (p ∈ vs) as Hin by (apply occ_in; lia).
  apply list_elem_of_lookup in Hin as [k Hk1]. destruct (Forall2_lookup_l _ _ _ _ _ Hno Hk1) as (it & Hit & y & Hy & Hi). assert (y = x) as -> by congruence.
  split; [done|]. left. destruct it as [bs|].
  - destruct Hi as (? & s & ? & ?). split; [done|]. by exists s, bs.
  - exfalso. pose proof (inv_lengths _ _ _ _ _ _ _ H) as (Hl1 & Hl2 & _).
    destruct (lookup_lt_is_Some_2 ps k) as [n Hn']; [apply lookup_lt_Some in Hk1; lia|]. by eapply complete_items.
Qed.

(** ** Everything is sent in the end *)

(** The socket takes at least a byte, and never fails for good. *)
Definition good_socket (ws : list write_result) : Prop :=
  (exists j, ws !! 0%nat = Some (Takes (S j))) /\ Forall (fun r => r <> Fails false) ws.

Section Drain.
Context (junk : nat -> byte) (zmalloc_size : Z -> Z) (Hz : allocator zmalloc_size) (sh : sharedObjects) (known : loc -> option (list byte)).

Lemma drain e : forall wss c w q N B, holds zmalloc_size e c w q N B -> complete q -> ordinary c w -> (length q <= length wss)%nat ->
  Z.of_nat (length q) < 2 ^ 31 -> B < 2 ^ 63 -> Forall good_socket wss ->
  exists oc w', run junk zmalloc_size sh (map EWritable wss) c w = Some (oc, w') /\ bytes (socket w') = bytes (socket w) ++ q /\
    (dropping c = false -> exists c', oc = Some c').
Proof.
  induction wss as [|ws wss IH]; intros c w q N B H Hc Hor Hl Hq HB Hg.
  - destruct q; [|cbn in Hl; lia]. exists (Some c), w. rewrite app_nil_r. by eauto.
  - apply Forall_cons in Hg as [[Hw Hne] Hg]. cbn [map run run_event]. destruct (handler c) eqn:Hhd.
    2:{ cbn [option_bind mbind]. assert (q = []) as ->.
        { destruct q as [|o q]; [done|]. rewrite (pending_handler zmalloc_size e c w _ N B H Hor) in Hhd; done. }
        eapply IH; try done. cbn. lia. }
    destruct (sendReply_spec _ Hz e c w q N B ws H Hc Hq HB (or_listed _ _ Hor)) as (r & w1 & k & -> & Hk & Hs & _ & Hp & Hr). cbn [option_bind mbind].
    rewrite (or_master _ _ Hor) in Hs. destruct r as [c1|].
    + destruct Hr as (H1 & Hid & Hfd & Hfl & Hrp & Hcl & _ & _). assert (dropping c1 = dropping c) as Hdr by (unfold dropping; by rewrite Hfl).
      destruct (IH c1 w1 (drop k q) N B H1) as (oc & w' & E & Hs' & Ho); try done.
      * by apply Forall_drop.
      * eapply ordinary_flags; try done. by rewrite Hfl.
      * rewrite length_drop. cbn in Hl. destruct q as [|o q]; [cbn; lia|]. assert (0 < k)%nat by (apply Hp; [done|by right]). cbn in *. lia.
      * rewrite length_drop. lia.
      * exists oc, w'. split; [exact E|]. split; [|by rewrite <-Hdr]. rewrite Hs', Hs, <-app_assoc. f_equal. apply take_drop.
    + destruct Hr as (_ & _ & Hwhy). exists None, w1. split; [done|]. destruct Hwhy as [[Hdr ->]|[i Hi]].
      * rewrite Hs, take_ge by lia. split; [done|congruence].
      * exfalso. rewrite Forall_forall in Hne. by apply (Hne _ (list_elem_of_lookup_2 _ _ _ Hi)).
Qed.

Lemma run_app evs1 evs2 c w : run junk zmalloc_size sh (evs1 ++ evs2) c w =
  ('(oc, w) ← run junk zmalloc_size sh evs1 c w; match oc with Some c => run junk zmalloc_size sh evs2 c w | None => Some (None, w) end).
Proof.
  revert c w. induction evs1 as [|ev evs1 IH]; intros c w; [done|]. cbn [app run]. destruct (run_event junk zmalloc_size sh ev c w) as [[[c1|] w1]|]; [|done|done].
  cbn [option_bind mbind]. apply IH.
Qed.
End Drain.

(** ** A client of scripts

    It has no socket and is not on the list of clients. *)
Section Lua.
Context (junk : nat -> byte) (zmalloc_size : Z -> Z) (Hz : allocator zmalloc_size) (Hmem : forall n, 0 <= n -> n <= zmalloc_size n).

Lemma del_client_none i (cs : list cid) : i ∉ cs -> del_client i cs = None.
Proof.
  induction cs as [|j cs IH]; intros Hi; [done|]. cbn. rewrite bool_decide_eq_false_2 by (intros ->; apply Hi; by left).
  rewrite IH; [done|]. intros H. apply Hi. by right.
Qed.

(** A client that is not on the list cannot be freed. *)
Lemma free_unlisted e c w ps vs its f : out_inv zmalloc_size e c w ps vs its -> id c ∉ clients w -> freeClient (set_flags c f) w = None.
Proof.
  intros H Hi. unfold freeClient. destruct (release_spec zmalloc_size e c w ps vs its H) as (h & os & E & Ef & _). change (reply (set_flags c f)) with (reply c).
  rewrite E. cbn [option_bind mbind]. rewrite Ef. cbn [option_bind mbind set_objs set_cells clients]. change (id (set_flags c f)) with (id c). by rewrite del_client_none.
Qed.

(** The memory of a string is at least its length. *)
Lemma wt_least os o bs : node_ok os o (Str bs) -> Z.of_nat (length bs) <= wt zmalloc_size os o.
Proof.
  intros (x & Hx & _ & s & Hp & Hs). unfold wt. rewrite Hx, Hp. unfold zmalloc_size_sds, sizeof_sdshdr.
  destruct Hs as [_ _ _ (g & -> & Hg)]. rewrite length_app. cbn [length].
  pose proof (Hmem (8 + Z.of_nat (length bs + S (length g))) ltac:(lia)). lia.
Qed.

(** The limits of a class that has only a hard one. *)
Lemma hard_limit_reached c w lim : getClientLimitClass c = REDIS_CLIENT_LIMIT_CLASS_NORMAL -> client_obuf_limits w !! 0%nat = Some lim ->
  0 < hard_limit_bytes lim <= reply_bytes c -> reply_bytes c + 40 * listLength (reply c) < 2 ^ 64 -> 0 <= listLength (reply c) ->
  soft_limit_bytes lim = 0 -> checkClientOutputBufferLimits c w = Some (true, set_soft_time c 0).
Proof.
  intros Hc Hl Hh Hb H0 Hs. unfold checkClientOutputBufferLimits. cbv zeta. rewrite Hc. change (Z.to_nat REDIS_CLIENT_LIMIT_CLASS_NORMAL) with 0%nat. rewrite Hl. cbn [option_bind mbind].
  rewrite Hs. cbn [Z.eqb negb andb option_bind mbind orb]. unfold getClientOutputBufferMemoryUsage. rewrite (u64_small (40 * _)), u64_small by lia.
  rewrite (proj2 (Z.eqb_neq (hard_limit_bytes lim) 0)), (proj2 (Z.leb_le (hard_limit_bytes lim) _)) by lia. done.
Qed.
End Lua.

(** ** A server to start from

    It has nothing but the shared objects, memory is made of zeros and the
    allocator gives what it is asked. *)
Definition zeros (_ : nat) : byte := z2b 0.
Definition exact_alloc (n : Z) : Z := n.
Definition no_objects (_ : loc) : option (list byte) := None.
Definition empty_server (hard : Z) : server :=
  Server (Heap ∅ []) ∅ [] [] 1000 [BufferLimits hard 0 0; BufferLimits 0 0 0; BufferLimits 0 0 0] 0 0 (fun _ => true) [].

Lemma exact_allocator : allocator exact_alloc. Proof. intros n Hn. unfold exact_alloc. lia. Qed.

Lemma started hard i fd : exists sh os e, createSharedObjects zeros (empty_server hard) = Some (sh, set_objs (empty_server hard) os) /\
  server_ok e (set_objs (empty_server hard) os) i fd /\ facts sh no_objects e os /\ store_typed os.
Proof.
  assert (counts (objs (empty_server hard)) (fun _ => 0)) as H0 by (split; [intros p Hp; lia|intros p x Hx; done]).
  destruct (createSharedObjects_spec zeros (empty_server hard) (fun _ => 0) H0 ltac:(done)) as (sh & os & e & E & G & Hs). exists sh, os, e.
  split; [exact E|]. clear E. split; [|split; [by split|]].
  - constructor; [exact (gr_counts _ _ _ _ G)| |done|done|done|done|by apply not_elem_of_nil].
    intros p. pose proof (gr_le _ _ _ _ G p) as Hp. cbv beta in Hp. lia.
  - intros p x Hx. split; [by apply (ct_count _ _ (gr_counts _ _ _ _ G) p x Hx)|]. destruct (gr_new _ _ _ _ G p x Hx) as [?|[bs [(He & s & Hp & Hr)|(He & v & Hp & _ & Hv)]]]; [done|left|right].
    + split; [done|]. by exists s, bs.
    + split; [done|]. exists v. split; [done|]. unfold int64. lia.
Qed.

(** A session: a command replies with a status, a deferred multi bulk and a
    number, and the socket takes it in pieces. *)
Definition demo_replies : list reply_call :=
  [CStatus (text "PONG"); CDeferred [CBulkCBuffer (text "a"); CBulkLongLong 1234] 2; CLongLong 100].
Definition demo_session : list event := [EReplies demo_replies; EWritable [Takes 3; Takes 2]].
Definition demo_text : list byte :=
  text "+PONG" ++ crlf_bytes ++ text "*2" ++ crlf_bytes ++ text "$1" ++ crlf_bytes ++ text "a" ++ crlf_bytes ++
  text "$4" ++ crlf_bytes ++ text "1234" ++ crlf_bytes ++ text ":100" ++ crlf_bytes.

Lemma demo_expected : expected no_objects false demo_session = demo_text. Proof. by vm_compute. Qed.
Lemma demo_calls_ok : calls_ok no_objects demo_replies.
Proof. cbn [calls_ok foldr demo_replies call_ok arg_ok]. by split_and!. Qed.
Lemma demo_session_ok : session_ok no_objects demo_session.
Proof.
  split; [|by rewrite demo_expected]. constructor; [apply demo_calls_ok|]. by repeat constructor.
Qed.

(** What a client receives of the replies, when it receives
    them, and what becomes of the objects. *)
Import (notations) Corelib.Init.Byte.
Import (notations) Strings.String.

(** C7: the output of a client is a queue: after any session what the socket
    has taken, followed by what is still buffered, is the text of all the
    replies, in order, each byte once, whatever the sizes of the replies,
    wherever deferred lengths are filled in and however little the socket
    takes at a time; while something is buffered the handler is installed. A
    client is closed only after an error of the socket or, once it is marked
    to be closed after its reply, when all it was to be sent has been sent.
    Nothing fails on the way. *)
Theorem reply_stream_fifo junk zmalloc_size sh known e w i fd evs :
  allocator zmalloc_size -> server_ok e w i fd -> 0 < fd -> facts sh known e (objs w) -> session_ok known evs ->
  let '(c, w0) := createClient junk w i fd in
  exists oc w', run junk zmalloc_size sh evs c w0 = Some (oc, w') /\
    match oc with
    | Some c' => exists pending, socket w' ++ pending = socket w ++ expected known false evs /\
        (exists N B, holds zmalloc_size e c' w' (bytes pending) N B) /\ (pending <> [] -> handler c' = true)
    | None => exists sent rest, socket w' = socket w ++ sent /\ sent ++ rest = expected known false evs /\
        (no_error evs -> exists evs1 evs2, evs = evs1 ++ evs2 /\ closes evs1 /\ sent = expected known false evs1)
    end.
Proof.
  intros Hz Hw Hfd Hf Hok. pose proof (create_holds junk zmalloc_size e w i fd Hw Hfd) as Hc.
  pose proof (session_from_create junk zmalloc_size sh known e w i fd evs Hz Hw Hfd Hf Hok) as H. destruct (createClient junk w i fd) as [c w0].
  destruct Hc as (_ & _ & Hdr & _ & Hso & _). destruct H as (oc & w' & E & _ & H). exists oc, w'. split; [done|]. rewrite Hdr, Hso in H. cbn [app] in H. destruct oc as [c'|].
  - destruct H as (q & Hh & Hq & Hor & (sent & Hs & Hs') & _). destruct (complete_bytes _ Hq) as [pending ->]. exists pending. rewrite <-!bytes_app in Hs'. apply bytes_inj in Hs'.
    split; [by rewrite Hs, <-app_assoc, Hs'|]. split; [by eexists _, _|]. intros Hne. eapply (pending_handler zmalloc_size); [exact Hh|done|]. intros Eq. apply Hne. by destruct pending.
  - destruct H as (_ & _ & sent & rest & Hs & Hr & Hcl). rewrite Hs.
    assert (exists r, rest = bytes r) as [r ->].
    { apply complete_bytes. assert (complete (bytes sent ++ rest)) as Hcm by (rewrite Hr; apply (complete_app []); constructor). by apply Forall_app in Hcm as [_ ?]. }
    exists sent, r. split; [done|]. rewrite <-bytes_app in Hr. apply bytes_inj in Hr. split; [done|]. intros Hno.
    destruct (Hcl Hno) as (evs1 & evs2 & -> & [Hc1|Hc1] & Hsent); [|done]. exists evs1, evs2. split; [done|]. split; [done|]. by apply bytes_inj in Hsent.
Qed.

Lemma reply_stream_fifo_witness : exists sh w e, facts sh no_objects e (objs w) /\
  let '(c, w0) := createClient zeros w 1 5 in
  exists oc w', run zeros exact_alloc sh demo_session c w0 = Some (oc, w') /\
    match oc with Some c' => exists pending, socket w' ++ pending = demo_text | None => exists rest, socket w' ++ rest = demo_text end.
Proof.
  destruct (started 0 1 5) as (sh & os & e & _ & Hw & Hf & _). exists sh, (set_objs (empty_server 0) os), e. split; [exact Hf|].
  pose proof (reply_stream_fifo zeros exact_alloc sh no_objects e _ 1%positive 5 demo_session exact_allocator Hw ltac:(lia) Hf demo_session_ok) as H.
  destruct (createClient zeros _ 1 5) as [c w0]. destruct H as (oc & w' & E & H). exists oc, w'. split; [exact E|]. rewrite demo_expected in H. destruct oc as [c'|].
  - destruct H as (pending & Hp & _). exists pending. exact Hp.
  - destruct H as (sent & rest & -> & Hr & _). exists rest. exact Hr.
Defined.

(** C31: what is buffered is sent: after any session without a failing socket
    and without a request to close, once the socket has been writable as
    often as there are bytes, taking at least one each time, it has taken the
    text of all the replies, and the client is still there. *)
Theorem output_drains junk zmalloc_size sh known e w i fd evs wss :
  allocator zmalloc_size -> server_ok e w i fd -> 0 < fd -> facts sh known e (objs w) -> session_ok known evs ->
  no_error evs -> ~ closes evs -> Forall good_socket wss -> (length (expected known false evs) <= length wss)%nat ->
  let '(c, w0) := createClient junk w i fd in
  exists c' w', run junk zmalloc_size sh (evs ++ map EWritable wss) c w0 = Some (Some c', w') /\ socket w' = socket w ++ expected known false evs.
Proof.
  intros Hz Hw Hfd Hf Hok Hno Hcl Hg Hl. pose proof (create_holds junk zmalloc_size e w i fd Hw Hfd) as Hc.
  pose proof (session_from_create junk zmalloc_size sh known e w i fd evs Hz Hw Hfd Hf Hok) as H. destruct (createClient junk w i fd) as [c w0].
  destruct Hc as (_ & _ & Hdr & _ & Hso & _). destruct H as (oc & w1 & E & _ & H). rewrite Hdr, Hso in H. cbn [app] in H. destruct Hok as (_ & Hcost & Hlen).
  pose proof (session_cost_pos evs). rewrite run_app, E. cbn [option_bind mbind]. destruct oc as [c1|].
  - destruct H as (q & Hh & Hq & Hor & (sent & Hs & Hs') & [Hx|Hd]); [done|].
    assert (length sent + length q = length (expected known false evs))%nat as Hlq.
    { apply (f_equal length) in Hs'. rewrite length_app, !length_bytes in Hs'. done. }
    destruct (drain junk zmalloc_size Hz sh e wss c1 w1 q _ _ Hh Hq Hor) as (oc & w2 & E2 & Hs2 & Ho); [lia|lia|unfold grow; lia|done|].
    destruct Ho as [c2 ->]; [congruence|]. exists c2, w2. split; [done|]. apply bytes_inj. by rewrite Hs2, Hs, !bytes_app, <-app_assoc, Hs'.
  - destruct H as (_ & _ & sent & rest & _ & _ & Hwhy). destruct (Hwhy Hno) as (evs1 & evs2 & -> & [Hc1|Hc1] & _); [|done].
    exfalso. apply Hcl. unfold closes. apply elem_of_app. by left.
Qed.

Lemma output_drains_witness : exists sh w, let '(c, w0) := createClient zeros w 1 5 in
  exists c' w', run zeros exact_alloc sh (demo_session ++ map EWritable (repeat [Takes 1] 50)) c w0 = Some (Some c', w') /\ socket w' = demo_text.
Proof.
  destruct (started 0 1 5) as (sh & os & e & _ & Hw & Hf & _). exists sh, (set_objs (empty_server 0) os).
  assert (no_error demo_session) as Hno by by repeat constructor.
  assert (~ closes demo_session) as Hcl by (unfold closes, demo_session; rewrite !elem_of_cons; intros [H|[H|H%elem_of_nil]]; done).
  pose proof (output_drains zeros exact_alloc sh no_objects e _ 1%positive 5 demo_session (repeat [Takes 1] 50) exact_allocator Hw ltac:(lia) Hf demo_session_ok Hno Hcl) as H.
  rewrite demo_expected in H. apply H; [|by apply Nat.leb_le].
  apply Forall_forall. intros ws Hin. apply list_elem_of_In, repeat_spec in Hin as ->. split; [by exists 0%nat|by repeat constructor].
Defined.

(** The replies of a client of any kind, a script's, a slave's that waits
    for its dump, one without a socket or one to be closed after its reply,
    are its text, appended to its output: an error or status line has one
    line, a length its prefix, a bulk its length, and each end of line is
    there; deferred lengths come before what they count. A client that cannot
    be written to gets nothing, one that is to be closed only deferred
    lengths. The calls do not fail, and leave alone all that is not output. *)
Theorem replies_appended junk zmalloc_size sh known e rs c w q N B :
  allocator zmalloc_size -> held e -> calls_ok known rs -> holds zmalloc_size e c w q N B -> facts sh known e (objs w) ->
  N + costs rs < 2 ^ 30 -> B + costs rs * grow < 2 ^ 62 -> Z.of_nat (length q) + Z.of_nat (length (emits known (dropping c) rs)) + 64 < sds_limit ->
  exists c' w', run_calls junk zmalloc_size sh rs c w = Some (c', w') /\
    holds zmalloc_size e c' w' (q ++ bytes (if connected c then emits known (dropping c) rs else [])) (N + costs rs) (B + costs rs * grow) /\
    steady c w c' w' /\ keeps e (objs w) (objs w').
Proof. intros Hz Hh Hok H Hf HN HB Hl. by apply (run_calls_spec junk zmalloc_size Hz sh known e rs Hh Hok). Qed.

Lemma replies_appended_witness : exists sh w e c w0, createClient zeros w 1 5 = (c, w0) /\
  exists c' w', run_calls zeros exact_alloc sh demo_replies c w0 = Some (c', w') /\ holds exact_alloc e c' w' (bytes demo_text) (costs demo_replies) (costs demo_replies * grow).
Proof.
  destruct (started 0 1 5) as (sh & os & e & _ & Hw & Hf & _). exists sh, (set_objs (empty_server 0) os), e.
  pose proof (create_holds zeros exact_alloc e _ 1 5 Hw ltac:(lia)) as H. destruct (createClient zeros _ 1 5) as [c w0]. exists c, w0. split; [reflexivity|].
  destruct H as (H & Hor & Hd & Ho & _).
  destruct (replies_appended zeros exact_alloc sh no_objects e demo_replies c w0 [] 0 0 exact_allocator (sv_held _ _ _ _ Hw) demo_calls_ok H) as (c' & w' & E & H' & _);
    [by rewrite Ho|by vm_compute|by vm_compute|by rewrite Hd|].
  exists c', w'. split; [exact E|]. rewrite Hd in H'. unfold connected in H'. rewrite (proj2 (Z.ltb_lt 0 (fd c)) (or_fd _ _ Hor)), orb_true_r in H'. exact H'.
Defined.

(** C30: the store of objects is typed: each object is a string with the
    payload its encoding says, and stays so through any session, while what
    is held from outside the list of replies keeps its type, its encoding and
    its payload. The reference counts are exact: those from outside and one
    for each place in the list, none of the list's once the client is
    closed, and an object without references is not there. *)
Theorem reply_store_typed junk zmalloc_size sh known e w i fd evs :
  allocator zmalloc_size -> server_ok e w i fd -> 0 < fd -> facts sh known e (objs w) -> session_ok known evs -> store_typed (objs w) ->
  let '(c, w0) := createClient junk w i fd in
  exists oc w', run junk zmalloc_size sh evs c w0 = Some (oc, w') /\ store_typed (objs w') /\ keeps e (objs w) (objs w') /\
    match oc with
    | Some c' => exists ps vs, list_rep (reply c') (cells w') ps vs /\ counts (objs w') (fun p => e p + occ p vs)
    | None => counts (objs w') e
    end.
Proof.
  intros Hz Hw Hfd Hf Hok Ht. pose proof (create_holds junk zmalloc_size e w i fd Hw Hfd) as Hc.
  pose proof (session_from_create junk zmalloc_size sh known e w i fd evs Hz Hw Hfd Hf Hok) as H. destruct (createClient junk w i fd) as [c w0].
  destruct Hc as (_ & _ & _ & Ho & _). destruct H as (oc & w' & E & Hk & H). rewrite Ho in Hk. pose proof (sv_counts _ _ _ _ Hw) as Hct. exists oc, w'. split; [done|].
  destruct oc as [c'|].
  - destruct H as (q & Hh & Hq & _). destruct (holds_typed zmalloc_size e (objs w) c' w' q _ _ Hct Ht Hk Hh Hq) as [H1 H2]. done.
  - destruct H as (Hc' & _). split; [|done]. intros p x Hx. apply (keeps_typed e (objs w) (objs w') p x Hct Ht Hk); [|done]. apply (ct_count _ _ Hc' p x Hx).
Qed.

Lemma reply_store_typed_witness : exists sh w e, let '(c, w0) := createClient zeros w 1 5 in
  exists oc w', run zeros exact_alloc sh demo_session c w0 = Some (oc, w') /\ store_typed (objs w') /\ keeps e (objs w) (objs w').
Proof.
  destruct (started 0 1 5) as (sh & os & e & _ & Hw & Hf & Ht). exists sh, (set_objs (empty_server 0) os), e.
  pose proof (reply_store_typed zeros exact_alloc sh no_objects e _ 1%positive 5 demo_session exact_allocator Hw ltac:(lia) Hf demo_session_ok Ht) as H.
  destruct (createClient zeros _ 1 5) as [c w0]. destruct H as (oc & w' & E & H1 & H2 & _). exists oc, w'. split; [exact E|]. split; [exact H1|exact H2].
Defined.

(** A limit on the output of normal clients that the reply to a command of
    a script reaches puts the script client on the list of clients to close,
    though it is on no list of clients: the assertion of [freeClient] that
    finds it there fails when the list is processed. *)
Theorem lua_reply_limit_asserts junk zmalloc_size e w i bs lim :
  allocator zmalloc_size -> (forall n, 0 <= n -> n <= zmalloc_size n) -> server_ok e w i (-1) -> i ∉ clients w ->
  client_obuf_limits w !! 0%nat = Some lim -> soft_limit_bytes lim = 0 -> 0 < hard_limit_bytes lim <= Z.of_nat (length bs) ->
  REDIS_REPLY_CHUNK_BYTES < Z.of_nat (length bs) < sds_limit ->
  let '(c, w0) := createClient junk w i (-1) in
  exists c' w', addReplyString junk zmalloc_size (set_flags c (Z.lor (cflags c) REDIS_LUA_CLIENT)) w0 bs = Some (c', w') /\
    clients_to_close w' = clients_to_close w ++ [i] /\ clients w' = clients w /\
    (clients_to_close w = [] -> forall cs, cs !! i = Some c' -> freeClientsInAsyncFreeQueue cs w' = None).
Proof.
  intros Hz Hmem Hw Hi Hlim Hsoft Hhard Hlen. pose proof (create_inv junk zmalloc_size e w i (-1) REDIS_LUA_CLIENT Hw eq_refl) as H.
  unfold createClient in *. generalize dependent (map junk (seq 0 (Z.to_nat REDIS_REPLY_CHUNK_BYTES))). intros b H. cbn [negb Z.eqb Pos.eqb] in *.
  change (Z.lor (cflags _) REDIS_LUA_CLIENT) with REDIS_LUA_CLIENT. match type of H with out_inv _ _ ?c' _ _ _ _ => set (c := c') in * end.
  assert (addReplyString junk zmalloc_size c w bs = _addReplyStringToList junk zmalloc_size c w bs) as ->.
  { unfold addReplyString, prepareClientToWrite. change (negb (Z.land (cflags c) REDIS_LUA_CLIENT =? 0)) with true. cbn [negb]. unfold buffer_or_list, _addReplyToBuffer. cbv zeta.
    change (negb (Z.land (cflags c) Request.REDIS_CLOSE_AFTER_REPLY =? 0)) with false. change (0 <? listLength (reply c)) with false.
    unfold REDIS_REPLY_CHUNK_BYTES in *. change (bufpos c) with 0. rewrite u64_small by lia. by rewrite (proj2 (Z.ltb_lt _ _)) by lia. }
  unfold _addReplyStringToList, add_to_list. change (negb (Z.land (cflags c) Request.REDIS_CLOSE_AFTER_REPLY =? 0)) with false. cbv iota.
  change (listLength (reply c) =? 0) with true. cbn [option_bind mbind].
  destruct (makes_string junk zmalloc_size e c w [] [] [] bs H) as (o & os & -> & Hm & Hn & _); [lia|]. cbn [option_bind mbind].
  destruct (append_obj_spec zmalloc_size Hz e c (set_objs w os) [] [] [] o bs Hm) as (n & l & h & -> & H1 & _); [intros p; apply Hw|done|done|done|done|].
  cbn [option_bind mbind]. pose proof (wt_least zmalloc_size Hmem _ _ _ Hn) as Hwt. pose proof (wt_bound _ Hz _ _ _ Hn) as Hwb. unfold grow in Hwb.
  cbn [set_objs objs] in *. set (c1 := set_reply_bytes (set_reply c l) (reply_bytes c + wt zmalloc_size os o)) in *.
  assert (reply_bytes c1 = wt zmalloc_size os o) as Hb1 by done. pose proof (inv_lengths _ _ _ _ _ _ _ H1) as (_ & _ & Hl1). change (Z.of_nat (length ([] ++ [n]))) with 1 in Hl1.
  destruct (async_spec zmalloc_size e c1 _ _ _ _ H1) as (c2 & w2 & E & H2 & Hst & _); [lia|]. rewrite E. cbn [option_bind mbind].
  unfold asyncCloseClientOnOutputBufferLimitReached in E. rewrite (proj2 (Z.ltb_lt (reply_bytes c1) _)) in E by lia. cbn [negb] in E. rewrite (proj2 (Z.eqb_neq (reply_bytes c1) 0)) in E by lia.
  change (negb (Z.land (cflags c1) REDIS_CLOSE_ASAP =? 0)) with false in E. cbn [orb] in E.
  rewrite (hard_limit_reached c1 _ lim) in E by first [done|lia]. cbn [option_bind mbind] in E.
  exists c2, w2. split; [done|]. assert (clients_to_close w2 = clients_to_close w ++ [i]) as Hcl2 by by injection E as <- <-. assert (clients w2 = clients w) as Hc2 by by injection E as <- <-.
  split; [done|]. split; [done|]. intros Hcl cs Hcs. rewrite Hcl in Hcl2. unfold freeClientsInAsyncFreeQueue. rewrite Hcl2. cbn [app length free_queue]. rewrite Hcl2. cbn [app]. rewrite Hcs. cbn [option_bind mbind].
  erewrite free_unlisted; [done|exact H2|]. by rewrite (st_id _ _ _ _ Hst), Hc2.
Qed.

Lemma lua_reply_limit_asserts_witness : exists w, let '(c, w0) := createClient zeros w 1 (-1) in
  exists c' w', addReplyString zeros exact_alloc (set_flags c (Z.lor (cflags c) REDIS_LUA_CLIENT)) w0 (repeat (z2b 97) (Z.to_nat 20000)) = Some (c', w') /\
    freeClientsInAsyncFreeQueue {[1%positive := c']} w' = None.
Proof.
  destruct (started 1000 1 (-1)) as (sh & os & e & _ & Hw & _). exists (set_objs (empty_server 1000) os).
  assert (Z.of_nat (length (repeat (z2b 97) (Z.to_nat 20000))) = 20000) as Hl by (rewrite repeat_length; apply Z2Nat.id; lia).
  pose proof (lua_reply_limit_asserts zeros exact_alloc e (set_objs (empty_server 1000) os) 1%positive (repeat (z2b 97) (Z.to_nat 20000)) (BufferLimits 1000 0 0) exact_allocator) as H. rewrite Hl in H.
  specialize (H ltac:(intros n _; exact (Z.le_refl n)) Hw (not_elem_of_nil _) eq_refl eq_refl ltac:(cbn; lia) ltac:(by vm_compute)).
  destruct (createClient zeros _ 1 (-1)) as [c w0]. destruct H as (c' & w' & E & _ & _ & H). exists c', w'. split; [exact E|]. apply H; [reflexivity|]. apply lookup_singleton_eq.
Defined.
