(* ===== verification/Server.v ===== *)
(** Server: the state of the server as far as keys and transactions go
    ([redisDb], [redisClient], [redisServer] and [redisCommand] of
    [redis.h]), the monad the commands are written in, and the rest of the
    server behind a class. *)
From Stdlib Require Strings.String.
From S2P Require Import Prelude Util Sds Objects.
From S2P Require Reply ReplySpec Request.
Import (notations) Corelib.Init.Byte.
Import (notations) Strings.String.
Abbreviation text s := (Strings.String.list_byte_of_string s%string).

(** A key is the content of its string; a client is named by a number. *)
Abbreviation key := (list byte).
Abbreviation cid := positive.
Abbreviation reply := ReplySpec.reply_call.

(** ** Commands *)

(** The functions behind the commands; [OtherCommand] stands for the handlers
    that are not modelled, by their names. *)
Inductive redisCommandProc :=
  | DelCommand | ExistsCommand | RandomkeyCommand | SelectCommand | MoveCommand | RenameCommand | RenamenxCommand
  | ExpireCommand | ExpireatCommand | PexpireCommand | PexpireatCommand | KeysCommand | DbsizeCommand | TypeCommand
  | FlushdbCommand | FlushallCommand | TtlCommand | PttlCommand | PersistCommand
  | GetCommand | SetCommand | SetnxCommand | SetexCommand | PsetexCommand | AppendCommand | StrlenCommand | SetrangeCommand
  | GetrangeCommand | IncrCommand | DecrCommand | IncrbyCommand | DecrbyCommand | MgetCommand | GetsetCommand | MsetCommand
  | MsetnxCommand | SetbitCommand | GetbitCommand | BitopCommand | BitcountCommand
  | MultiCommand | ExecCommand | DiscardCommand | WatchCommand | UnwatchCommand
  | AuthCommand | SubscribeCommand | UnsubscribeCommand | PsubscribeCommand | PunsubscribeCommand
  | ShutdownCommand | ScriptCommand | OtherCommand (name : list byte).
#[export] Instance proc_eq_dec : EqDecision redisCommandProc. Proof. solve_decision. Defined.

Record redisCommand := RedisCommand { name : list byte; proc : redisCommandProc; arity : Z; cmd_flags : Z }.

Definition REDIS_CMD_WRITE : Z := 1.
Definition REDIS_CMD_READONLY : Z := 2.
Definition REDIS_CMD_DENYOOM : Z := 4.
Definition REDIS_CMD_FORCE_REPLICATION : Z := 8.
Definition REDIS_CMD_ADMIN : Z := 16.
Definition REDIS_CMD_PUBSUB : Z := 32.
Definition REDIS_CMD_NOSCRIPT : Z := 64.
Definition REDIS_CMD_RANDOM : Z := 128.
Definition REDIS_CMD_SORT_FOR_SCRIPT : Z := 256.
Definition REDIS_CMD_LOADING : Z := 512.
Definition REDIS_CMD_STALE : Z := 1024.
Definition REDIS_CMD_SKIP_MONITOR : Z := 2048.

Definition REDIS_DIRTY_CAS : Z := Z.shiftl 1 5.
Definition REDIS_DIRTY_EXEC : Z := Z.shiftl 1 12.
Definition REDIS_CALL_SLOWLOG : Z := 1.
Definition REDIS_CALL_STATS : Z := 2.
Definition REDIS_CALL_PROPAGATE : Z := 4.
Definition REDIS_CALL_FULL : Z := Z.lor (Z.lor REDIS_CALL_SLOWLOG REDIS_CALL_STATS) REDIS_CALL_PROPAGATE.
Definition REDIS_PROPAGATE_NONE : Z := 0.
Definition REDIS_PROPAGATE_AOF : Z := 1.
Definition REDIS_PROPAGATE_REPL : Z := 2.

(** [flags & mask] as a condition. *)
Definition has (flags mask : Z) : bool := negb (Z.land flags mask =? 0).

(** ** Clients *)

Record watchedKey := WatchedKey { wk_key : key; wk_db : nat }.
#[export] Instance watchedKey_eq_dec : EqDecision watchedKey. Proof. solve_decision. Defined.

(** The content of a string object as it is encoded: [REDIS_ENCODING_RAW] or
    [REDIS_ENCODING_INT]. *)
Inductive string_value := Raw (bs : list byte) | Int (v : Z).
#[export] Instance string_value_eq_dec : EqDecision string_value. Proof. solve_decision. Defined.

(** A queued command: its arguments and its entry in the table. *)
Record multiCmd := MultiCmd { mc_argv : list key; mc_cmd : option redisCommand }.

(** [db] is the index of [c->db] in [server.db]; [subscriptions] counts
    channels and patterns; [replies] are the calls that reply, in order. *)
Record client := Client {
  db : nat; authenticated : bool; argv : list key; cmd : option redisCommand; flags : Z;
  mstate : list multiCmd; watched : list watchedKey; subscriptions : Z; replies : list reply }.

Implicit Types (c : client).

Definition set_db_index c (d : nat) : client :=
  Client d (authenticated c) (argv c) (cmd c) (flags c) (mstate c) (watched c) (subscriptions c) (replies c).
Definition set_command c (a : list key) (x : option redisCommand) : client :=
  Client (db c) (authenticated c) a x (flags c) (mstate c) (watched c) (subscriptions c) (replies c).
Definition set_cflags c (f : Z) : client :=
  Client (db c) (authenticated c) (argv c) (cmd c) f (mstate c) (watched c) (subscriptions c) (replies c).
Definition set_mstate c (l : list multiCmd) : client :=
  Client (db c) (authenticated c) (argv c) (cmd c) (flags c) l (watched c) (subscriptions c) (replies c).
Definition set_watched c (l : list watchedKey) : client :=
  Client (db c) (authenticated c) (argv c) (cmd c) (flags c) (mstate c) l (subscriptions c) (replies c).
Definition set_access c (a : bool) (n : Z) : client :=
  Client (db c) a (argv c) (cmd c) (flags c) (mstate c) (watched c) n (replies c).
Definition set_replies c (l : list reply) : client :=
  Client (db c) (authenticated c) (argv c) (cmd c) (flags c) (mstate c) (watched c) (subscriptions c) l.

(** What the configuration and the state of replication decide; the bytes in
    the output buffers of the slaves and in the buffers of the append only
    file. *)
Record config := Config {
  requirepass : bool; maxmemory : Z; stop_writes_on_bgsave_err : bool; saveparamslen : Z; lastbgsave_err : bool;
  masterhost : bool; repl_slave_ro : bool; repl_connected : bool; repl_serve_stale_data : bool;
  loading : bool; lua_timedout : bool; aof_on : bool; has_slaves : bool;
  maxmemory_policy : Z; maxmemory_samples : nat; slave_buffers : list Z; aof_buffers : Z }.

(** A command in the append only file, or sent to the slaves: its database
    and its arguments. *)
Record feed := Feed { feed_db : nat; feed_argv : list key }.

Section Types.
(** [V] are the pointers to value objects. *)
Context {V : Type}.

Record redisDb := RedisDb { dict : gmap key V; expires : gmap key Z; watched_keys : gmap key (list cid) }.

(** [ticks] counts the readings of the clock, [draws] the random keys drawn. *)
Record server := Server {
  dbs : list redisDb; clients : list cid; store : gmap cid client; dirty : Z;
  ticks : nat; draws : nat; conf : config; aof : list feed; repl : list feed }.

(** The keys and their expiry, of each database. *)
Abbreviation data := (list (gmap key V * gmap key Z)).
Definition data_of (l : list redisDb) : data := (fun x => (dict x, expires x)) <$> l.
Definition with_data (l : list redisDb) (ds : data) : list redisDb :=
  zip_with (fun x d => RedisDb d.1 d.2 (watched_keys x)) l ds.

(** What a handler that is not modelled does: the keys it leaves, those it
    signals as modified, its replies, the counter of changes, and the
    client's database, access, subscriptions and command, which it may
    rewrite. *)
Record outcome := Outcome {
  o_data : data; o_touched : list watchedKey; o_replies : list reply; o_dirty : Z -> Z;
  o_db : nat; o_auth : bool; o_subs : Z; o_argv : list key; o_cmd : option redisCommand }.
End Types.
Arguments redisDb : clear implicits.
Arguments server : clear implicits.
Arguments outcome : clear implicits.
Abbreviation data V := (list (gmap key V * gmap key Z)).

(** ** The rest of the server

    The type of a value, the string it is or the value a string makes,
    whether the value of a key has more references than the key's, how long a
    value was idle, the memory the data take, the
    clock at each reading, the order in which an iterator visits a dictionary,
    the key drawn at random, the shared replies, the table of commands under
    their names in use and under the original ones, whether two names hash to
    the same bucket of a table, and the handlers that are not modelled. *)
Class Rest (V : Type) := {
  value_type : V -> Z;
  as_string : V -> option string_value;
  of_string : string_value -> V;
  referenced : nat -> nat -> key -> bool;
  big_endian : bool;
  idle_time : nat -> V -> Z;
  used_memory : data V -> Z;
  clock : nat -> Z;
  dict_order : gmap key V -> list key;
  random_key : forall A : Type, nat -> gmap key A -> option key;
  shared : Reply.sharedObjects;
  commands : list redisCommand;
  orig_commands : list redisCommand;
  same_bucket : list redisCommand -> list byte -> list byte -> bool;
  other : redisCommandProc -> config -> client -> data V -> outcome V }.

Arguments random_key {V Rest A}.

(** ** The monad

    A command changes the server or fails an assertion. *)
Definition M (V A : Type) : Type := server V -> option (A * server V).
#[export] Instance M_ret {V} : MRet (M V) := fun A a s => Some (a, s).
#[export] Instance M_bind {V} : MBind (M V) := fun A B f m s => match m s with Some (a, s) => f a s | None => None end.

Section Access.
Context {V : Type}.
#[local] Abbreviation M := (M V).
Implicit Types (s : server V) (i : cid) (d : nat) (k : key).

Definition fail {A} : M A := fun _ => None.
Definition get : M (server V) := fun s => Some (s, s).
Definition put s : M unit := fun _ => Some (tt, s).
(** [redisAssert(b)] *)
Definition check (b : bool) : M unit := if b then mret tt else fail.
Definition opt {A} (o : option A) : M A := match o with Some a => mret a | None => fail end.

(** [for each x of l: f x] *)
Fixpoint each {A} (f : A -> M unit) (l : list A) : M unit :=
  match l with
  | [] => mret tt
  | a :: l => f a ;; each f l
  end.

Definition with_dbs s (l : list (redisDb V)) : server V :=
  Server l (clients s) (store s) (dirty s) (ticks s) (draws s) (conf s) (aof s) (repl s).
Definition with_clients s (l : list cid) (m : gmap cid client) : server V :=
  Server (dbs s) l m (dirty s) (ticks s) (draws s) (conf s) (aof s) (repl s).
Definition with_dirty s (n : Z) : server V :=
  Server (dbs s) (clients s) (store s) n (ticks s) (draws s) (conf s) (aof s) (repl s).
Definition with_counters s (t r : nat) : server V :=
  Server (dbs s) (clients s) (store s) (dirty s) t r (conf s) (aof s) (repl s).
Definition with_conf s (x : config) : server V :=
  Server (dbs s) (clients s) (store s) (dirty s) (ticks s) (draws s) x (aof s) (repl s).
Definition with_feeds s (l m : list feed) : server V :=
  Server (dbs s) (clients s) (store s) (dirty s) (ticks s) (draws s) (conf s) l m.

Definition get_db d : M (redisDb V) := fun s => match dbs s !! d with Some x => Some (x, s) | None => None end.
Definition set_db d (x : redisDb V) : M unit := fun s => Some (tt, with_dbs s (<[d := x]> (dbs s))).
Definition get_client i : M client := fun s => match store s !! i with Some c => Some (c, s) | None => None end.
Definition set_client i c : M unit := fun s => Some (tt, with_clients s (clients s) (<[i := c]> (store s))).
Definition update i (f : client -> client) : M unit := c ← get_client i; set_client i (f c).

(** [server.dirty += n] *)
Definition add_dirty (n : Z) : M unit := fun s => Some (tt, with_dirty s (dirty s + n)).

(** [c->flags |= mask], [c->flags &= ~mask] *)
Definition raise i (mask : Z) : M unit := update i (fun c => set_cflags c (Z.lor (flags c) mask)).
Definition lower i (mask : Z) : M unit := update i (fun c => set_cflags c (Z.land (flags c) (Z.lnot mask))).

(** The calls that reply. *)
Definition add_reply i (r : reply) : M unit := update i (fun c => set_replies c (replies c ++ [r])).

(** [server.db], the client's database. *)
Definition client_db i : M nat := c ← get_client i; mret (db c).
Definition arg i (j : nat) : M key := c ← get_client i; opt (argv c !! j).
End Access.
