(* ===== verification/Db.v ===== *)
(** Db: the key space of [db.c]: lookups, additions and deletions, expiry,
    the signals to the clients that watch keys ([multi.c]), and the commands
    that work on keys of any type. *)
From Stdlib Require Strings.String.
From S2P Require Import Prelude Util Sds Objects Server.
From S2P Require Reply ReplySpec.
Import (notations) Corelib.Init.Byte.
Import (notations) Strings.String.

Definition UNIT_SECONDS : Z := 0.
Definition UNIT_MILLISECONDS : Z := 1.

(** ** Replies *)

Section Db.
Context {V : Type} `{E : Rest V}.
#[local] Abbreviation M := (M V).
Implicit Types (i : cid) (d : nat) (k : key).

Definition addReply i (o : Reply.sharedObjects -> positive) : M unit := add_reply i (ReplySpec.CObj (o shared)).
Definition addReplyError i (msg : list byte) : M unit := add_reply i (ReplySpec.CError msg).
Definition addReplyErrorFormat i (msg : list byte) : M unit := add_reply i (ReplySpec.CErrorFormat msg).
Definition addReplyLongLong i (n : Z) : M unit := add_reply i (ReplySpec.CLongLong n).

(** The object an argument is. *)
Definition arg_object (k : key) : robj := Robj REDIS_STRING REDIS_ENCODING_RAW (PSds (Sdshdr (Z.of_nat (length k)) 0 (k ++ [z2b 0]))) 1.

(** The result is the number, when the function returns [REDIS_OK]; the
    message is the null pointer without one. *)
Definition longLongOrReply i (o : option robj) (msg : option (list byte)) : M (option Z) :=
  v ← opt (getLongLongFromObject o);
  match v with
  | Some v => mret (Some v)
  | None =>
    addReplyError i (match msg with Some m => m | None => text "value is not an integer or out of range" end) ;;
    mret None
  end.
Definition getLongLongFromObjectOrReply i (o : key) (msg : option (list byte)) : M (option Z) :=
  longLongOrReply i (Some (arg_object o)) msg.

Definition getLongFromObjectOrReply i (o : key) (msg : option (list byte)) : M (option Z) :=
  v ← getLongLongFromObjectOrReply i o msg;
  match v with
  | None => mret None
  | Some v =>
    if (v <? - 2 ^ 63) || (2 ^ 63 - 1 <? v) then
      addReplyError i (match msg with Some m => m | None => text "value is out of range" end) ;;
      mret None
    else mret (Some v)
  end.

(** ** Propagation *)

Definition feedAppendOnlyFile d (argv : list key) : M unit := s ← get; put (with_feeds s (aof s ++ [Feed d argv]) (repl s)).
Definition replicationFeedSlaves d (argv : list key) : M unit := s ← get; put (with_feeds s (aof s) (repl s ++ [Feed d argv])).

Definition propagate d (argv : list key) (flags : Z) : M unit :=
  s ← get;
  (if aof_on (conf s) && has flags REDIS_PROPAGATE_AOF then feedAppendOnlyFile d argv else mret tt) ;;
  (if has flags REDIS_PROPAGATE_REPL && has_slaves (conf s) then replicationFeedSlaves d argv else mret tt).

(** ** Watched keys *)

(** The two loops are over lists of clients and of keys they do not change. *)
Definition touchWatchedKey d k : M unit :=
  x ← get_db d;
  if (size (watched_keys x) =? 0)%nat then mret tt
  else
    match watched_keys x !! k with
    | None => mret tt
    | Some clients => each (fun i => raise i REDIS_DIRTY_CAS) clients
    end.

(** [None] is the [-1] of [FLUSHALL]. *)
Definition touchWatchedKeysOnFlush (dbid : option nat) : M unit :=
  s ← get;
  each (fun i =>
    c ← get_client i;
    each (fun wk =>
      if bool_decide (dbid = None \/ dbid = Some (wk_db wk)) then
        x ← get_db (wk_db wk);
        match dict x !! wk_key wk with
        | Some _ => raise i REDIS_DIRTY_CAS
        | None => mret tt
        end
      else mret tt) (watched c)) (clients s).

Definition signalModifiedKey d k : M unit := touchWatchedKey d k.
Definition signalFlushedDb (dbid : option nat) : M unit := touchWatchedKeysOnFlush dbid.

(** ** The key space *)

Definition mstime : M Z := s ← get; put (with_counters s (S (ticks s)) (draws s)) ;; mret (clock (ticks s)).

(** The access time is left out. *)
Definition lookupKey d k : M (option V) := x ← get_db d; mret (dict x !! k).

Definition set_dict d (f : gmap key V -> gmap key V) : M unit :=
  x ← get_db d; set_db d (RedisDb (f (dict x)) (expires x) (watched_keys x)).
Definition set_expires d (f : gmap key Z -> gmap key Z) : M unit :=
  x ← get_db d; set_db d (RedisDb (dict x) (f (expires x)) (watched_keys x)).

Definition dbAdd d k (val : V) : M unit :=
  x ← get_db d;
  check (bool_decide (dict x !! k = None)) ;;
  set_dict d <[k := val]>.

Definition dbOverwrite d k (val : V) : M unit :=
  x ← get_db d;
  check (bool_decide (is_Some (dict x !! k))) ;;
  set_dict d <[k := val]>.

Definition dbExists d k : M bool := x ← get_db d; mret (bool_decide (is_Some (dict x !! k))).

Definition dbDelete d k : M bool :=
  x ← get_db d;
  (if (0 <? size (expires x))%nat then set_expires d (delete k) else mret tt) ;;
  set_dict d (delete k) ;;
  mret (bool_decide (is_Some (dict x !! k))).

Definition getExpire d k : M Z :=
  x ← get_db d;
  if (size (expires x) =? 0)%nat then mret (-1)
  else
    match expires x !! k with
    | None => mret (-1)
    | Some t => check (bool_decide (is_Some (dict x !! k))) ;; mret t
    end.

Definition removeExpire d k : M bool :=
  x ← get_db d;
  check (bool_decide (is_Some (dict x !! k))) ;;
  set_expires d (delete k) ;;
  mret (bool_decide (is_Some (expires x !! k))).

Definition setExpire d k (when : Z) : M unit :=
  x ← get_db d;
  check (bool_decide (is_Some (dict x !! k))) ;;
  set_expires d <[k := when]>.

Definition propagateExpire d k : M unit :=
  s ← get;
  let argv := [text "DEL"; k] in
  (if aof_on (conf s) then feedAppendOnlyFile d argv else mret tt) ;;
  (if has_slaves (conf s) then replicationFeedSlaves d argv else mret tt).

(** Whether the key is expired. *)
Definition expireIfNeeded d k : M bool :=
  when ← getExpire d k;
  if when <? 0 then mret false
  else
    s ← get;
    if loading (conf s) then mret false
    else if masterhost (conf s) then now ← mstime; mret (when <? now)
    else
      now ← mstime;
      if now <=? when then mret false
      else propagateExpire d k ;; dbDelete d k.

Definition lookupKeyRead d k : M (option V) := expireIfNeeded d k ;; lookupKey d k.
Definition lookupKeyWrite d k : M (option V) := expireIfNeeded d k ;; lookupKey d k.
Definition lookupKeyReadOrReply i k (o : Reply.sharedObjects -> positive) : M (option V) :=
  d ← client_db i;
  v ← lookupKeyRead d k;
  (if v is None then addReply i o else mret tt) ;;
  mret v.
Definition lookupKeyWriteOrReply i k (o : Reply.sharedObjects -> positive) : M (option V) :=
  d ← client_db i;
  v ← lookupKeyWrite d k;
  (if v is None then addReply i o else mret tt) ;;
  mret v.

Definition setKey d k (val : V) : M unit :=
  v ← lookupKeyWrite d k;
  (if v is None then dbAdd d k val else dbOverwrite d k val) ;;
  removeExpire d k ;;
  signalModifiedKey d k.

(** The loop ends when the dictionary is empty or a key that is not expired
    is drawn. *)
Fixpoint dbRandomKey (fuel : nat) d : M (option key) :=
  match fuel with
  | O => fail
  | S fuel =>
    x ← get_db d;
    s ← get;
    put (with_counters s (ticks s) (S (draws s))) ;;
    match random_key (draws s) (dict x) with
    | None => mret None
    | Some k =>
      match expires x !! k with
      | Some _ => e ← expireIfNeeded d k; if e : bool then dbRandomKey fuel d else mret (Some k)
      | None => mret (Some k)
      end
    end
  end.

Definition empty_db (x : redisDb V) : redisDb V := RedisDb ∅ ∅ (watched_keys x).
Definition emptyDb : M Z :=
  s ← get;
  put (with_dbs s (empty_db <$> dbs s)) ;;
  mret (foldr (fun x n => Z.of_nat (size (dict x)) + n) 0 (dbs s)).

(** Whether the index is in range. *)
Definition selectDb i (id : Z) : M bool :=
  s ← get;
  if (id <? 0) || (Z.of_nat (length (dbs s)) <=? id) then mret false
  else update i (fun c => set_db_index c (Z.to_nat id)) ;; mret true.

(** [lookupCommand], [lookupCommandOrOriginal]: the names of the bucket the
    name hashes to, of which all bytes count, are compared without case, up to
    their first NUL. *)
Definition find_command (table : list redisCommand) (n : list byte) : option redisCommand :=
  List.find (fun x => same_bucket table (name x) n && strcaseeq (name x) n) table.
Definition lookupCommand (n : list byte) : option redisCommand := find_command commands n.
Definition lookupCommandOrOriginal (n : list byte) : option redisCommand :=
  match find_command commands n with Some x => Some x | None => find_command orig_commands n end.

Definition rewriteClientCommandVector i (a : list key) : M unit :=
  n ← opt (a !! 0%nat);
  x ← opt (lookupCommandOrOriginal n);
  update i (fun c => set_command c a (Some x)).

(** ** Commands *)

Definition flushdbCommand i : M unit :=
  d ← client_db i;
  x ← get_db d;
  add_dirty (Z.of_nat (size (dict x))) ;;
  signalFlushedDb (Some d) ;;
  set_dict d (fun _ => ∅) ;;
  set_expires d (fun _ => ∅) ;;
  addReply i Reply.ok.

(** Without the snapshot it writes to disk; around it the counter is kept in an
    [int]. *)
Definition flushallCommand i : M unit :=
  signalFlushedDb None ;;
  n ← emptyDb;
  add_dirty n ;;
  addReply i Reply.ok ;;
  s ← get;
  (if 0 <? saveparamslen (conf s) then put (with_dirty s (s32 (dirty s))) else mret tt) ;;
  add_dirty 1.

Fixpoint del_loop d (ks : list key) (deleted : Z) : M Z :=
  match ks with
  | [] => mret deleted
  | k :: ks =>
    b ← dbDelete d k;
    if b : bool then signalModifiedKey d k ;; add_dirty 1 ;; del_loop d ks (deleted + 1)
    else del_loop d ks deleted
  end.
Definition delCommand i : M unit :=
  c ← get_client i;
  deleted ← del_loop (db c) (drop 1 (argv c)) 0;
  addReplyLongLong i deleted.

Definition existsCommand i : M unit :=
  d ← client_db i; k ← arg i 1;
  expireIfNeeded d k ;;
  b ← dbExists d k;
  if b : bool then addReply i Reply.cone else addReply i Reply.czero.

Definition selectCommand i : M unit :=
  k ← arg i 1;
  id ← getLongFromObjectOrReply i k (Some (text "invalid DB index"));
  match id with
  | None => mret tt
  | Some id =>
    b ← selectDb i (s32 id);
    if b : bool then addReply i Reply.ok else addReplyError i (text "invalid DB index")
  end.

(** With room for as many keys as there are. *)
Definition randomkeyCommand i : M unit :=
  d ← client_db i; x ← get_db d;
  k ← dbRandomKey (S (size (dict x))) d;
  match k with
  | None => addReply i Reply.nullbulk
  | Some k => add_reply i (ReplySpec.CBulkCBuffer k)
  end.

(** The keys an iterator visits, with the replies for those that match. *)
Fixpoint keys_loop d (pattern : list byte) (plen : Z) (allkeys : bool) (ks : list key) (body : list reply) : M (list reply) :=
  match ks with
  | [] => mret body
  | k :: ks =>
    matches ← (if allkeys then mret true else opt (stringmatchlen (pattern ++ [z2b 0]) plen (k ++ [z2b 0]) (Z.of_nat (length k)) false));
    if matches : bool then
      e ← expireIfNeeded d k;
      keys_loop d pattern plen allkeys ks (if e : bool then body else body ++ [ReplySpec.CBulkCBuffer k])
    else keys_loop d pattern plen allkeys ks body
  end.
Definition keysCommand i : M unit :=
  d ← client_db i; pattern ← arg i 1;
  x ← get_db d;
  let c0 := default (z2b 0) ((pattern ++ [z2b 0]) !! 0%nat) in
  let c1 := default (z2b 0) ((pattern ++ [z2b 0]) !! 1%nat) in
  let allkeys := bool_decide (c0 = "*"%byte) && bool_decide (c1 = z2b 0) in
  body ← keys_loop d pattern (Z.of_nat (length pattern)) allkeys (dict_order (dict x)) [];
  add_reply i (ReplySpec.CDeferred body (Z.of_nat (length body))).

Definition dbsizeCommand i : M unit :=
  d ← client_db i; x ← get_db d; addReplyLongLong i (Z.of_nat (size (dict x))).

Definition typeCommand i : M unit :=
  d ← client_db i; k ← arg i 1;
  o ← lookupKeyRead d k;
  add_reply i (ReplySpec.CStatus
    (match o with
     | None => text "none"
     | Some o =>
       if value_type o =? 0 then text "string" else if value_type o =? 1 then text "list"
       else if value_type o =? 2 then text "set" else if value_type o =? 3 then text "zset"
       else if value_type o =? 4 then text "hash" else text "unknown"
     end)).

Definition renameGenericCommand i (nx : bool) : M unit :=
  src ← arg i 1; dst ← arg i 2;
  if bool_decide (src = dst) then addReply i Reply.sameobjecterr
  else
    d ← client_db i;
    o ← lookupKeyWriteOrReply i src Reply.nokeyerr;
    match o with
    | None => mret tt
    | Some o =>
      expire ← getExpire d src;
      v ← lookupKeyWrite d dst;
      if (if v is None then false else nx) then addReply i Reply.czero
      else
        (if v is None then mret tt else dbDelete d dst ;; mret tt) ;;
        dbAdd d dst o ;;
        (if negb (expire =? -1) then setExpire d dst expire else mret tt) ;;
        dbDelete d src ;;
        signalModifiedKey d src ;;
        signalModifiedKey d dst ;;
        add_dirty 1 ;;
        addReply i (if nx then Reply.cone else Reply.ok)
    end.
Definition renameCommand i : M unit := renameGenericCommand i false.
Definition renamenxCommand i : M unit := renameGenericCommand i true.

(** [atoi]: what [strtol] gives, as an [int]. *)
Definition atoi (bs : list byte) : Z := s32 (fst (fst (strtoll_end (bs ++ [z2b 0])))).

Definition moveCommand i : M unit :=
  k ← arg i 1; a ← arg i 2;
  src ← client_db i;
  b ← selectDb i (atoi a);
  if negb b then addReply i Reply.outofrangeerr
  else
    dst ← client_db i;
    selectDb i (Z.of_nat src) ;;
    if bool_decide (src = dst) then addReply i Reply.sameobjecterr
    else
      o ← lookupKeyWrite src k;
      match o with
      | None => addReply i Reply.czero
      | Some o =>
        v ← lookupKeyWrite dst k;
        match v with
        | Some _ => addReply i Reply.czero
        | None => dbAdd dst k o ;; dbDelete src k ;; add_dirty 1 ;; addReply i Reply.cone
        end
      end.

(** *** Expiry *)

Definition expireGenericCommand i (basetime units : Z) : M unit :=
  k ← arg i 1; param ← arg i 2;
  d ← client_db i;
  when ← getLongLongFromObjectOrReply i param None;
  match when with
  | None => mret tt
  | Some when =>
    when ← (if units =? UNIT_SECONDS then opt (chk64 (when * 1000)) else mret when);
    when ← opt (chk64 (when + basetime));
    o ← lookupKeyRead d k;
    match o with
    | None => addReply i Reply.czero
    | Some _ =>
      now ← mstime;
      s ← get;
      if (when <=? now) && negb (loading (conf s)) && negb (masterhost (conf s)) then
        b ← dbDelete d k;
        check b ;;
        add_dirty 1 ;;
        rewriteClientCommandVector i [text "DEL"; k] ;;
        signalModifiedKey d k ;;
        addReply i Reply.cone
      else
        setExpire d k when ;;
        addReply i Reply.cone ;;
        signalModifiedKey d k ;;
        add_dirty 1
    end
  end.
Definition expireCommand i : M unit := now ← mstime; expireGenericCommand i now UNIT_SECONDS.
Definition expireatCommand i : M unit := expireGenericCommand i 0 UNIT_SECONDS.
Definition pexpireCommand i : M unit := now ← mstime; expireGenericCommand i now UNIT_MILLISECONDS.
Definition pexpireatCommand i : M unit := expireGenericCommand i 0 UNIT_MILLISECONDS.

Definition ttlGenericCommand i (output_ms : bool) : M unit :=
  d ← client_db i; k ← arg i 1;
  expire ← getExpire d k;
  ttl ← (if negb (expire =? -1) then
           now ← mstime;
           ttl ← opt (chk64 (expire - now));
           mret (if ttl <? 0 then -1 else ttl)
         else mret (-1));
  if ttl =? -1 then addReplyLongLong i (-1)
  else if output_ms then addReplyLongLong i ttl
  else t ← opt (chk64 (ttl + 500)); addReplyLongLong i (t ÷ 1000).
Definition ttlCommand i : M unit := ttlGenericCommand i false.
Definition pttlCommand i : M unit := ttlGenericCommand i true.

Definition persistCommand i : M unit :=
  d ← client_db i; k ← arg i 1;
  x ← get_db d;
  match dict x !! k with
  | None => addReply i Reply.czero
  | Some _ =>
    b ← removeExpire d k;
    if b : bool then addReply i Reply.cone ;; add_dirty 1 else addReply i Reply.czero
  end.
End Db.
