(* ===== verification/Evict.v ===== *)
(** Evict: freeing memory by deleting keys ([freeMemoryIfNeeded] of
    [redis.c]). *)
From S2P Require Import Prelude Server Db.

Definition REDIS_MAXMEMORY_VOLATILE_LRU : Z := 0.
Definition REDIS_MAXMEMORY_VOLATILE_TTL : Z := 1.
Definition REDIS_MAXMEMORY_VOLATILE_RANDOM : Z := 2.
Definition REDIS_MAXMEMORY_ALLKEYS_LRU : Z := 3.
Definition REDIS_MAXMEMORY_ALLKEYS_RANDOM : Z := 4.
Definition REDIS_MAXMEMORY_NO_EVICTION : Z := 5.

Section Evict.
Context {V : Type} `{E : Rest V}.
#[local] Abbreviation M := (M V).
Implicit Types (d : nat) (k : key).

(** [dictGetRandomKey] of a dictionary that is not empty. *)
Definition draw {A} (m : gmap key A) : M key :=
  s ← get;
  put (with_counters s (ticks s) (S (draws s))) ;;
  opt (random_key (draws s) m).

(** The sampling of the LRU policies: the key with the longest idle time of
    those drawn. *)
Fixpoint best_idle (samples : nat) d (policy : Z) (best : option (key * Z)) : M (option key) :=
  match samples with
  | O => mret (fst <$> best)
  | S samples =>
    x ← get_db d;
    thiskey ← (if policy =? REDIS_MAXMEMORY_ALLKEYS_LRU then draw (dict x) else draw (expires x));
    o ← opt (dict x !! thiskey);
    s ← get;
    let thisval := idle_time (draws s) o in
    best_idle samples d policy
      (match best with
       | Some (_, bestval) => if bestval <? thisval then Some (thiskey, thisval) else best
       | None => Some (thiskey, thisval)
       end)
  end.

(** The sampling of [volatile-ttl]: the one that expires first. *)
Fixpoint best_ttl (samples : nat) d (best : option (key * Z)) : M (option key) :=
  match samples with
  | O => mret (fst <$> best)
  | S samples =>
    x ← get_db d;
    thiskey ← draw (expires x);
    thisval ← opt (expires x !! thiskey);
    best_ttl samples d
      (match best with
       | Some (_, bestval) => if thisval <? bestval then Some (thiskey, thisval) else best
       | None => Some (thiskey, thisval)
       end)
  end.

(** [bestkey] of a database. *)
Definition best_key d : M (option key) :=
  s ← get;
  x ← get_db d;
  let policy := maxmemory_policy (conf s) in
  let samples := maxmemory_samples (conf s) in
  if Nat.eqb (if (policy =? REDIS_MAXMEMORY_ALLKEYS_LRU) || (policy =? REDIS_MAXMEMORY_ALLKEYS_RANDOM) then size (dict x) else size (expires x)) 0
  then mret None
  else if policy =? REDIS_MAXMEMORY_ALLKEYS_RANDOM then k ← draw (dict x); mret (Some k)
  else if policy =? REDIS_MAXMEMORY_VOLATILE_RANDOM then k ← draw (expires x); mret (Some k)
  else if (policy =? REDIS_MAXMEMORY_ALLKEYS_LRU) || (policy =? REDIS_MAXMEMORY_VOLATILE_LRU) then best_idle samples d policy None
  else if policy =? REDIS_MAXMEMORY_VOLATILE_TTL then best_ttl samples d None
  else mret None.

(** Deletes a key; the result is the memory this frees. *)
Definition evict d k : M Z :=
  propagateExpire d k ;;
  s ← get;
  dbDelete d k ;;
  s' ← get;
  mret (used_memory (data_of (dbs s)) - used_memory (data_of (dbs s'))).

(** One key of each database, if it has one: the memory freed so far, a
    [size_t], and the number of keys. *)
Fixpoint evict_round (ds : list nat) (mem_freed keys_freed : Z) : M (Z * Z) :=
  match ds with
  | [] => mret (mem_freed, keys_freed)
  | d :: ds =>
    bestkey ← best_key d;
    match bestkey with
    | None => evict_round ds mem_freed keys_freed
    | Some k => delta ← evict d k; evict_round ds (u64 (mem_freed + delta)) (keys_freed + 1)
    end
  end.

Fixpoint evict_loop (fuel : nat) (mem_tofree mem_freed : Z) : M bool :=
  match fuel with
  | O => fail
  | S fuel =>
    if mem_freed <? mem_tofree then
      s ← get;
      '(mem_freed, keys_freed) ← evict_round (seq 0 (length (dbs s))) mem_freed 0;
      if keys_freed =? 0 then mret false else evict_loop fuel mem_tofree mem_freed
    else mret true
  end.

(** The keys there are: each round but the last deletes one. *)
Definition total_keys (l : list (redisDb V)) : nat := foldr (fun x n => size (dict x) + n)%nat 0%nat l.

(** The memory but for the buffers that empty by themselves. *)
Definition mem_used (s : server V) : Z :=
  let m := foldl (fun m b => if m <? b then 0 else m - b) (used_memory (data_of (dbs s))) (if has_slaves (conf s) then slave_buffers (conf s) else []) in
  if aof_on (conf s) then u64 (m - aof_buffers (conf s)) else m.

Definition freeMemoryIfNeeded : M bool :=
  s ← get;
  if mem_used s <=? maxmemory (conf s) then mret true
  else if maxmemory_policy (conf s) =? REDIS_MAXMEMORY_NO_EVICTION then mret false
  else evict_loop (S (total_keys (dbs s))) (mem_used s - maxmemory (conf s)) 0.
End Evict.
