(* ===== verification/Strings.v ===== *)
(** Strings: the commands on string values of [t_string.c], but
    [INCRBYFLOAT]. A value is its content and its encoding; the copy made of
    a value that is encoded or has other references is made as the code makes
    it. *)
From Stdlib Require Strings.String.
From S2P Require Import Prelude Util UtilNum Sds Objects Server Db.
From S2P Require Reply ReplySpec.
Import (notations) Corelib.Init.Byte.
Import (notations) Strings.String.

Definition REDIS_SET_NO_FLAGS : Z := 0.
Definition REDIS_SET_NX : Z := 1.
Definition REDIS_SET_XX : Z := 2.
Definition LLONG_MIN : Z := - 2 ^ 63.
Definition LLONG_MAX : Z := 2 ^ 63 - 1.

(** ** String values *)

(** What [getDecodedObject] has: the content, or what [ll2string] writes
    ([UtilNum.ll2string_spec]), with the least number negated in two's
    complement. *)
Definition string_bytes (x : string_value) : list byte := match x with Raw bs => bs | Int v => print_int v end.
Definition stringLen (x : string_value) : Z := Z.of_nat (length (string_bytes x)).
Definition is_raw (x : string_value) : bool := match x with Raw _ => true | Int _ => false end.

(** [sdsgrowzero] on the content; a length that the header cannot hold
    fails. *)
Definition grow_zero (bs : list byte) (len : Z) : option (list byte) :=
  if len <=? Z.of_nat (length bs) then Some bs
  else if len <? 2 ^ 31 then Some (bs ++ replicate (Z.to_nat (len - Z.of_nat (length bs))) (z2b 0))
  else None.

(** A character of a C string. *)
Definition char_at (a : list byte) (j : nat) : Z := b2z (default (z2b 0) ((a ++ [z2b 0]) !! j)).
(** [(a[0] == x || a[0] == X) && (a[1] == 'x' || a[1] == 'X') && a[2] == '\0'] *)
Definition is_option (a : list byte) (x : byte) : bool :=
  ((char_at a 0 =? b2z x) || (char_at a 0 =? toupper (b2z x))) && ((char_at a 1 =? b2z "x") || (char_at a 1 =? b2z "X")) && (char_at a 2 =? 0).

(** [tryObjectEncoding] of an argument, but for the sharing of small
    integers. *)
Definition tryEncoding (bs : list byte) : option string_value :=
  value ← string2l (bs ++ [z2b 0]) (Z.of_nat (length bs));
  Some (match value with None => Raw bs | Some v => Int v end).

Section Strings.
Context {V : Type} `{E : Rest V}.
#[local] Abbreviation M := (M V).
Implicit Types (i : cid) (d : nat) (k : key) (x : string_value).

(** The value as an object, as [getLongLongFromObject] looks at it. *)
Definition string_object x : robj :=
  match x with Raw bs => arg_object bs | Int v => Robj REDIS_STRING REDIS_ENCODING_INT (PLong v) 1 end.

(** Whether the type is wrong. *)
Definition checkType i (o : V) (type : Z) : M bool :=
  if negb (value_type o =? type) then addReply i Reply.wrongtypeerr ;; mret true else mret false.

Definition addReplyBulk i x : M unit := add_reply i (ReplySpec.CBulkCBuffer (string_bytes x)).
Definition addReplyString i x : M unit := add_reply i (ReplySpec.CString (string_bytes x)).

(** [c->argv[j] = tryObjectEncoding(c->argv[j])], the value to be stored. *)
Definition encode (a : list byte) : M V := x ← opt (tryEncoding a); mret (of_string x).

(** The object at the key, which holds [x], is to be written: a copy when it
    is shared or encoded. *)
Definition unshare d k x : M (list byte) :=
  s ← get;
  (if referenced (ticks s) d k || negb (is_raw x) then dbOverwrite d k (of_string (Raw (string_bytes x))) else mret tt) ;;
  mret (string_bytes x).
(** The object at the key is written in place. *)
Definition write_string d k (bs : list byte) : M unit := set_dict d <[k := of_string (Raw bs)]>.

(** Whether the length is allowed. *)
Definition checkStringLength i (size : Z) : M bool :=
  if 512 * 1024 * 1024 <? size then addReplyError i (text "string exceeds maximum allowed size (512MB)") ;; mret false
  else mret true.

(** ** Setting and getting *)

(** [expire]: the time to live in milliseconds, 0 without one; [None] when
    there was an error. *)
Definition setExpireTime i (expire : option key) (units : Z) : M (option Z) :=
  match expire with
  | None => mret (Some 0)
  | Some e =>
    milliseconds ← getLongLongFromObjectOrReply i e None;
    match milliseconds with
    | None => mret None
    | Some milliseconds =>
      if milliseconds <=? 0 then addReplyError i (text "invalid expire time in SETEX") ;; mret None
      else if units =? UNIT_SECONDS then milliseconds ← opt (chk64 (milliseconds * 1000)); mret (Some milliseconds)
      else mret (Some milliseconds)
    end
  end.

Definition setGenericCommand i (flags : Z) k (val : V) (expire : option key) (units : Z) (ok_reply abort_reply : option (Reply.sharedObjects -> positive)) : M unit :=
  milliseconds ← setExpireTime i expire units;
  match milliseconds with
  | None => mret tt
  | Some milliseconds =>
    d ← client_db i;
    nx ← (if has flags REDIS_SET_NX then o ← lookupKeyWrite d k; mret (if o is None then false else true) else mret false);
    xx ← (if negb nx && has flags REDIS_SET_XX then o ← lookupKeyWrite d k; mret (if o is None then true else false) else mret false);
    if nx || xx then addReply i (default Reply.nullbulk abort_reply)
    else
      setKey d k val ;;
      add_dirty 1 ;;
      (if expire is None then mret tt else now ← mstime; when ← opt (chk64 (now + milliseconds)); setExpire d k when) ;;
      addReply i (default Reply.ok ok_reply)
  end.

(** The arguments from the fourth on; [None] on a syntax error. *)
Fixpoint set_options (l : list key) (flags units : Z) (expire : option key) : option (Z * Z * option key) :=
  match l with
  | [] => Some (flags, units, expire)
  | a :: l =>
    if is_option a "n" then set_options l (Z.lor flags REDIS_SET_NX) units expire
    else if is_option a "x" then set_options l (Z.lor flags REDIS_SET_XX) units expire
    else
      match l with
      | next :: l' =>
        if is_option a "e" then set_options l' flags UNIT_SECONDS (Some next)
        else if is_option a "p" then set_options l' flags UNIT_MILLISECONDS (Some next)
        else None
      | [] => None
      end
  end.

Definition setCommand i : M unit :=
  c ← get_client i;
  match set_options (drop 3 (argv c)) REDIS_SET_NO_FLAGS UNIT_SECONDS None with
  | None => addReply i Reply.syntaxerr
  | Some (flags, units, expire) =>
    k ← arg i 1; a ← arg i 2;
    val ← encode a;
    setGenericCommand i flags k val expire units None None
  end.
Definition setnxCommand i : M unit :=
  k ← arg i 1; a ← arg i 2;
  val ← encode a;
  setGenericCommand i REDIS_SET_NX k val None 0 (Some Reply.cone) (Some Reply.czero).
Definition setexCommand i : M unit :=
  k ← arg i 1; e ← arg i 2; a ← arg i 3;
  val ← encode a;
  setGenericCommand i REDIS_SET_NO_FLAGS k val (Some e) UNIT_SECONDS None None.
Definition psetexCommand i : M unit :=
  k ← arg i 1; e ← arg i 2; a ← arg i 3;
  val ← encode a;
  setGenericCommand i REDIS_SET_NO_FLAGS k val (Some e) UNIT_MILLISECONDS None None.

(** Whether it is [REDIS_OK]. *)
Definition getGenericCommand i : M bool :=
  k ← arg i 1;
  o ← lookupKeyReadOrReply i k Reply.nullbulk;
  match o with
  | None => mret true
  | Some o =>
    if negb (value_type o =? REDIS_STRING) then addReply i Reply.wrongtypeerr ;; mret false
    else x ← opt (as_string o); addReplyBulk i x ;; mret true
  end.
Definition getCommand i : M unit := getGenericCommand i ;; mret tt.

Definition getsetCommand i : M unit :=
  k ← arg i 1; a ← arg i 2; d ← client_db i;
  ok ← getGenericCommand i;
  if negb ok then mret tt
  else
    val ← encode a;
    setKey d k val ;;
    add_dirty 1.

(** ** Parts of strings *)

Definition setrangeCommand i : M unit :=
  k ← arg i 1; n ← arg i 2; value ← arg i 3;
  offset ← getLongFromObjectOrReply i n None;
  match offset with
  | None => mret tt
  | Some offset =>
    if offset <? 0 then addReplyError i (text "offset is out of range")
    else
      d ← client_db i;
      o ← lookupKeyWrite d k;
      let len := Z.of_nat (length value) in
      let size := u64 (offset + len) in
      let write bs :=
        bs ← opt (grow_zero bs size);
        bs ← opt (mem_write bs offset value);
        write_string d k bs ;;
        signalModifiedKey d k ;;
        add_dirty 1 ;;
        addReplyLongLong i (Z.of_nat (length bs)) in
      match o with
      | None =>
        if len =? 0 then addReply i Reply.czero
        else
          ok ← checkStringLength i (s64 size);
          if negb ok then mret tt else dbAdd d k (of_string (Raw [])) ;; write []
      | Some o =>
        wrong ← checkType i o REDIS_STRING;
        if wrong : bool then mret tt
        else
          x ← opt (as_string o);
          if len =? 0 then addReplyLongLong i (stringLen x)
          else
            ok ← checkStringLength i (s64 size);
            if negb ok then mret tt else bs ← unshare d k x; write bs
      end
  end.

(** The range within a string of [len] bytes; the comparison of [end] takes
    its low 32 bits. *)
Definition get_range (start stop len : Z) : Z * Z :=
  let start := if start <? 0 then len + start else start in
  let stop := if stop <? 0 then len + stop else stop in
  let start := if start <? 0 then 0 else start in
  let stop := if stop <? 0 then 0 else stop in
  let stop := if len <=? u32 stop then len - 1 else stop in
  (start, stop).
Definition getrangeCommand i : M unit :=
  k ← arg i 1; a ← arg i 2; b ← arg i 3;
  start ← getLongFromObjectOrReply i a None;
  match start with
  | None => mret tt
  | Some start =>
    stop ← getLongFromObjectOrReply i b None;
    match stop with
    | None => mret tt
    | Some stop =>
      o ← lookupKeyReadOrReply i k Reply.emptybulk;
      match o with
      | None => mret tt
      | Some o =>
        wrong ← checkType i o REDIS_STRING;
        if wrong : bool then mret tt
        else
          x ← opt (as_string o);
          let '(start, stop) := get_range start stop (stringLen x) in
          if stop <? start then addReply i Reply.emptybulk
          else bs ← opt (mem_read (string_bytes x) start (stop - start + 1)); add_reply i (ReplySpec.CBulkCBuffer bs)
      end
    end
  end.

(** ** Several keys *)

Fixpoint mget_loop i d (ks : list key) : M unit :=
  match ks with
  | [] => mret tt
  | k :: ks =>
    o ← lookupKeyRead d k;
    match o with
    | None => addReply i Reply.nullbulk
    | Some o =>
      if negb (value_type o =? REDIS_STRING) then addReply i Reply.nullbulk
      else x ← opt (as_string o); addReplyBulk i x
    end ;;
    mget_loop i d ks
  end.
Definition mgetCommand i : M unit :=
  c ← get_client i;
  add_reply i (ReplySpec.CMultiBulkLen (Z.of_nat (length (argv c)) - 1)) ;;
  mget_loop i (db c) (drop 1 (argv c)).

(** Keys and values follow each other. *)
Fixpoint mset_busy d (l : list key) (busykeys : Z) : M Z :=
  match l with
  | k :: _ :: l =>
    o ← lookupKeyWrite d k;
    mset_busy d l (if o is None then busykeys else busykeys + 1)
  | _ => mret busykeys
  end.
Fixpoint mset_loop d (l : list key) : M unit :=
  match l with
  | k :: v :: l => val ← encode v; setKey d k val ;; mset_loop d l
  | _ => mret tt
  end.
Definition msetGenericCommand i (nx : bool) : M unit :=
  c ← get_client i;
  let argc := Z.of_nat (length (argv c)) in
  if argc mod 2 =? 0 then addReplyError i (text "wrong number of arguments for MSET")
  else
    busykeys ← (if nx then mset_busy (db c) (drop 1 (argv c)) 0 else mret 0);
    if negb (busykeys =? 0) then addReply i Reply.czero
    else
      mset_loop (db c) (drop 1 (argv c)) ;;
      add_dirty ((argc - 1) ÷ 2) ;;
      addReply i (if nx then Reply.cone else Reply.ok).
Definition msetCommand i : M unit := msetGenericCommand i false.
Definition msetnxCommand i : M unit := msetGenericCommand i true.

(** ** Counters *)

Definition incrDecrCommand i (incr : Z) : M unit :=
  k ← arg i 1; d ← client_db i;
  o ← lookupKeyWrite d k;
  wrong ← match o with Some o => checkType i o REDIS_STRING | None => mret false end;
  if wrong : bool then mret tt
  else
    x ← match o with Some o => x ← opt (as_string o); mret (Some x) | None => mret None end;
    value ← longLongOrReply i (string_object <$> x) None;
    match value with
    | None => mret tt
    | Some oldvalue =>
      if ((incr <? 0) && (oldvalue <? 0) && (incr <? LLONG_MIN - oldvalue)) || ((0 <? incr) && (0 <? oldvalue) && (LLONG_MAX - oldvalue <? incr)) then
        addReplyError i (text "increment or decrement would overflow")
      else
        value ← opt (chk64 (oldvalue + incr));
        (if o is None then dbAdd d k (of_string (Int value)) else dbOverwrite d k (of_string (Int value))) ;;
        signalModifiedKey d k ;;
        add_dirty 1 ;;
        addReply i Reply.colon ;;
        addReplyString i (Int value) ;;
        addReply i Reply.crlf
    end.
Definition incrCommand i : M unit := incrDecrCommand i 1.
Definition decrCommand i : M unit := incrDecrCommand i (-1).
Definition incrbyCommand i : M unit :=
  a ← arg i 2;
  incr ← getLongLongFromObjectOrReply i a None;
  match incr with None => mret tt | Some incr => incrDecrCommand i incr end.
Definition decrbyCommand i : M unit :=
  a ← arg i 2;
  incr ← getLongLongFromObjectOrReply i a None;
  match incr with None => mret tt | Some incr => incr ← opt (chk64 (- incr)); incrDecrCommand i incr end.

(** ** Appending *)

Definition appendCommand i : M unit :=
  k ← arg i 1; a ← arg i 2; d ← client_db i;
  o ← lookupKeyWrite d k;
  match o with
  | None =>
    x ← opt (tryEncoding a);
    dbAdd d k (of_string x) ;;
    signalModifiedKey d k ;;
    add_dirty 1 ;;
    addReplyLongLong i (stringLen x)
  | Some o =>
    wrong ← checkType i o REDIS_STRING;
    if wrong : bool then mret tt
    else
      x ← opt (as_string o);
      ok ← checkStringLength i (stringLen x + Z.of_nat (length a));
      if negb ok then mret tt
      else
        bs ← unshare d k x;
        write_string d k (bs ++ a) ;;
        signalModifiedKey d k ;;
        add_dirty 1 ;;
        addReplyLongLong i (Z.of_nat (length (bs ++ a)))
  end.

Definition strlenCommand i : M unit :=
  k ← arg i 1;
  o ← lookupKeyReadOrReply i k Reply.czero;
  match o with
  | None => mret tt
  | Some o =>
    wrong ← checkType i o REDIS_STRING;
    if wrong : bool then mret tt else x ← opt (as_string o); addReplyLongLong i (stringLen x)
  end.
End Strings.
