(* ===== verification/Bitops.v ===== *)
(** Bitops: the commands on the bits of string values ([bitops.c]). Words of
    memory are read and written in the byte order of the host. *)
From Stdlib Require Strings.String.
From S2P Require Import Prelude Endian Util UtilNum Sds Objects Server Db Strings.
From S2P Require Reply ReplySpec.
Import (notations) Corelib.Init.Byte.
Import (notations) Strings.String.

Definition BITOP_AND : Z := 0.
Definition BITOP_OR : Z := 1.
Definition BITOP_XOR : Z := 2.
Definition BITOP_NOT : Z := 3.

(** ** Counting bits *)

Definition bitsinbyte : list Z :=
  [0; 1; 1; 2; 1; 2; 2; 3; 1; 2; 2; 3; 2; 3; 3; 4; 1; 2; 2; 3; 2; 3; 3; 4; 2; 3; 3; 4; 3; 4; 4; 5;
   1; 2; 2; 3; 2; 3; 3; 4; 2; 3; 3; 4; 3; 4; 4; 5; 2; 3; 3; 4; 3; 4; 4; 5; 3; 4; 4; 5; 4; 5; 5; 6;
   1; 2; 2; 3; 2; 3; 3; 4; 2; 3; 3; 4; 3; 4; 4; 5; 2; 3; 3; 4; 3; 4; 4; 5; 3; 4; 4; 5; 4; 5; 5; 6;
   2; 3; 3; 4; 3; 4; 4; 5; 3; 4; 4; 5; 4; 5; 5; 6; 3; 4; 4; 5; 4; 5; 5; 6; 4; 5; 5; 6; 5; 6; 6; 7;
   1; 2; 2; 3; 2; 3; 3; 4; 2; 3; 3; 4; 3; 4; 4; 5; 2; 3; 3; 4; 3; 4; 4; 5; 3; 4; 4; 5; 4; 5; 5; 6;
   2; 3; 3; 4; 3; 4; 4; 5; 3; 4; 4; 5; 4; 5; 5; 6; 3; 4; 4; 5; 4; 5; 5; 6; 4; 5; 5; 6; 5; 6; 6; 7;
   2; 3; 3; 4; 3; 4; 4; 5; 3; 4; 4; 5; 4; 5; 5; 6; 3; 4; 4; 5; 4; 5; 5; 6; 4; 5; 5; 6; 5; 6; 6; 7;
   3; 4; 4; 5; 4; 5; 5; 6; 4; 5; 5; 6; 5; 6; 6; 7; 4; 5; 5; 6; 5; 6; 6; 7; 5; 6; 6; 7; 6; 7; 7; 8].

(** The steps on one of the four words, in 32 bits. *)
Definition pop_pairs (aux : Z) : Z := u32 (aux - Z.land (Z.shiftr aux 1) 0x55555555).
Definition pop_nibbles (aux : Z) : Z := u32 (Z.land aux 0x33333333 + Z.land (Z.shiftr aux 2) 0x33333333).
Definition pop_bytes (aux : Z) : Z := Z.shiftr (u32 (Z.land (u32 (aux + Z.shiftr aux 4)) 0x0F0F0F0F * 0x01010101)) 24.
Definition pop_word (aux : Z) : Z := pop_bytes (pop_nibbles (pop_pairs aux)).

Section Memory.
Context (be : bool).

Definition word32 (m : list byte) (off : Z) : option Z := bs ← mem_read m off 4; Some (host_load be bs).
Definition word64 (m : list byte) (off : Z) : option Z := bs ← mem_read m off 8; Some (host_load be bs).
Definition set_word64 (m : list byte) (off v : Z) : option (list byte) := mem_write m off (host_store be 8 v).

(** 16 bytes at a time: what is left, and the bits so far. *)
Fixpoint popcount_words (fuel : nat) (p : list byte) (count bits : Z) : option (list byte * Z * Z) :=
  match fuel with
  | O => None
  | S fuel =>
    if 16 <=? count then
      aux1 ← word32 p 0; aux2 ← word32 p 4; aux3 ← word32 p 8; aux4 ← word32 p 12;
      popcount_words fuel (drop 16 p) (count - 16) (u64 (bits + u32 (pop_word aux1 + pop_word aux2 + pop_word aux3 + pop_word aux4)))
    else Some (p, count, bits)
  end.
(** The remaining bytes. *)
Fixpoint popcount_rest (fuel : nat) (p : list byte) (count bits : Z) : option Z :=
  match fuel with
  | O => None
  | S fuel =>
    if count =? 0 then Some bits
    else
      match p with
      | b :: p => n ← bitsinbyte !! Z.to_nat (b2z b); popcount_rest fuel p (count - 1) (u64 (bits + n))
      | [] => None
      end
  end.
(** With a step more than there are bytes. *)
Definition popcount (s : list byte) (count : Z) : option Z :=
  let fuel := S (Z.to_nat count) in
  '(p, count, bits) ← popcount_words fuel s count 0;
  popcount_rest fuel p count bits.

(** ** Operations between strings *)

(** [a op= b] on words or bytes of [w] bits; [~a]. *)
Definition bit_op (op a b : Z) : Z := if op =? BITOP_AND then Z.land a b else if op =? BITOP_OR then Z.lor a b else Z.lxor a b.
Definition bit_not (w a : Z) : Z := Z.lnot a mod 2 ^ w.

(** [lres[0..3] op= lp[i][0..3]], at [off]; [lres[0..3] = ~lres[0..3]]. *)
Definition fast_words (f : list byte -> Z -> option (list byte)) (off : Z) (res : list byte) : option (list byte) :=
  res ← f res off; res ← f res (off + 8); res ← f res (off + 16); f res (off + 24).
Definition fast_source (op off : Z) (res src : list byte) : option (list byte) :=
  fast_words (fun res off => a ← word64 res off; b ← word64 src off; set_word64 res off (bit_op op a b)) off res.
Definition fast_not (off : Z) (res : list byte) : option (list byte) :=
  fast_words (fun res off => a ← word64 res off; set_word64 res off (bit_not 64 a)) off res.
Fixpoint fast_sources (op off : Z) (srcs : list (list byte)) (res : list byte) : option (list byte) :=
  match srcs with
  | [] => Some res
  | src :: srcs => res ← fast_source op off res src; fast_sources op off srcs res
  end.
(** The result and [j]. *)
Fixpoint fast_loop (fuel : nat) (op : Z) (srcs : list (list byte)) (j minlen : Z) (res : list byte) : option (list byte * Z) :=
  match fuel with
  | O => None
  | S fuel =>
    if 32 <=? minlen then
      res ← (if op =? BITOP_NOT then fast_not j res else fast_sources op j (drop 1 srcs) res);
      fast_loop fuel op srcs (j + 32) (minlen - 32) res
    else Some (res, j)
  end.

Definition source_byte (src : list byte) (j : Z) : Z := if Z.of_nat (length src) <=? j then 0 else b2z (default (z2b 0) (src !! Z.to_nat j)).
Definition output_byte (op : Z) (srcs : list (list byte)) (j : Z) : Z :=
  let output := source_byte (default [] (srcs !! 0%nat)) j in
  let output := if op =? BITOP_NOT then bit_not 8 output else output in
  foldl (fun output src => if op =? BITOP_NOT then output else bit_op op output (source_byte src j)) output (drop 1 srcs).
Fixpoint slow_loop (fuel : nat) (op : Z) (srcs : list (list byte)) (j maxlen : Z) (res : list byte) : option (list byte) :=
  match fuel with
  | O => None
  | S fuel =>
    if j <? maxlen then res ← setb res j (output_byte op srcs j); slow_loop fuel op srcs (j + 1) maxlen res
    else Some res
  end.

(** The bytes computed when [maxlen] is not 0. *)
Definition bitop_result (op : Z) (srcs : list (list byte)) (maxlen minlen : Z) : option (list byte) :=
  let fuel := S (Z.to_nat maxlen) in
  let res := replicate (Z.to_nat maxlen) (z2b 0) in
  '(res, j) ← (if negb (minlen =? 0) && (Z.of_nat (length srcs) <=? 16) then
                 src0 ← srcs !! 0%nat;
                 bs ← mem_read src0 0 minlen;
                 res ← mem_write res 0 bs;
                 fast_loop fuel op srcs 0 minlen res
               else Some (res, 0));
  slow_loop fuel op srcs j maxlen res.
End Memory.

Section Bitops.
Context {V : Type} `{E : Rest V}.
#[local] Abbreviation M := (M V).
Implicit Types (i : cid) (d : nat) (k : key).

(** ** Single bits *)

Definition getBitOffsetFromArgument i (o : key) : M (option Z) :=
  let err := text "bit offset is not an integer or out of range" in
  loffset ← getLongLongFromObjectOrReply i o (Some err);
  match loffset with
  | None => mret None
  | Some loffset =>
    if (loffset <? 0) || (512 * 1024 * 1024 <=? Z.shiftr (u64 loffset) 3) then addReplyError i err ;; mret None
    else mret (Some loffset)
  end.

Definition bit_of (byteval bit : Z) : Z := Z.land byteval (Z.shiftl 1 bit).

(** The string with the bit changed, and the old value of the bit. *)
Definition put_bit (bs : list byte) (bitoffset on : Z) : option (list byte * Z) :=
  let byte := Z.shiftr bitoffset 3 in
  bs ← grow_zero bs (byte + 1);
  byteval ← getb bs byte;
  let bit := 7 - Z.land bitoffset 7 in
  let bitval := bit_of byteval bit in
  let byteval := Z.land byteval (Z.lnot (Z.shiftl 1 bit)) in
  let byteval := Z.lor byteval (Z.shiftl (Z.land on 1) bit) in
  bs ← setb bs byte byteval;
  Some (bs, bitval).
(** The end of the function; the object at the key holds [bs]. *)
Definition set_bit i d k (bs : list byte) (bitoffset on : Z) : M unit :=
  '(bs, bitval) ← opt (put_bit bs bitoffset on);
  write_string d k bs ;;
  signalModifiedKey d k ;;
  add_dirty 1 ;;
  addReply i (if negb (bitval =? 0) then Reply.cone else Reply.czero).

Definition setbitCommand i : M unit :=
  let err := text "bit is not an integer or out of range" in
  n ← arg i 2;
  bitoffset ← getBitOffsetFromArgument i n;
  match bitoffset with
  | None => mret tt
  | Some bitoffset =>
    a ← arg i 3;
    on ← getLongFromObjectOrReply i a (Some err);
    match on with
    | None => mret tt
    | Some on =>
      if has on (Z.lnot 1) then addReplyError i err
      else
        k ← arg i 1; d ← client_db i;
        o ← lookupKeyWrite d k;
        match o with
        | None => dbAdd d k (of_string (Raw [])) ;; set_bit i d k [] bitoffset on
        | Some o =>
          wrong ← checkType i o REDIS_STRING;
          if wrong : bool then mret tt else x ← opt (as_string o); bs ← unshare d k x; set_bit i d k bs bitoffset on
        end
    end
  end.

Definition getbitCommand i : M unit :=
  n ← arg i 2;
  bitoffset ← getBitOffsetFromArgument i n;
  match bitoffset with
  | None => mret tt
  | Some bitoffset =>
    k ← arg i 1;
    o ← lookupKeyReadOrReply i k Reply.czero;
    match o with
    | None => mret tt
    | Some o =>
      wrong ← checkType i o REDIS_STRING;
      if wrong : bool then mret tt
      else
        x ← opt (as_string o);
        let byte := Z.shiftr bitoffset 3 in
        let bit := 7 - Z.land bitoffset 7 in
        bitval ← (if byte <? stringLen x then byteval ← opt (getb (string_bytes x) byte); mret (bit_of byteval bit) else mret 0);
        addReply i (if negb (bitval =? 0) then Reply.cone else Reply.czero)
    end
  end.

(** ** BITOP and BITCOUNT *)

Definition bitop_op (opname : list byte) : option Z :=
  let c := char_at opname 0 in
  if ((c =? b2z "a") || (c =? b2z "A")) && strcaseeq opname (text "and") then Some BITOP_AND
  else if ((c =? b2z "o") || (c =? b2z "O")) && strcaseeq opname (text "or") then Some BITOP_OR
  else if ((c =? b2z "x") || (c =? b2z "X")) && strcaseeq opname (text "xor") then Some BITOP_XOR
  else if ((c =? b2z "n") || (c =? b2z "N")) && strcaseeq opname (text "not") then Some BITOP_NOT
  else None.

(** The sources, [maxlen] and [minlen]; [None] when a type is wrong. *)
Fixpoint bitop_sources i d (ks : list key) (j : nat) (srcs : list (list byte)) (maxlen minlen : Z) : M (option (list (list byte) * Z * Z)) :=
  match ks with
  | [] => mret (Some (srcs, maxlen, minlen))
  | k :: ks =>
    o ← lookupKeyRead d k;
    match o with
    | None => bitop_sources i d ks (S j) (srcs ++ [[]]) maxlen 0
    | Some o =>
      wrong ← checkType i o REDIS_STRING;
      if wrong : bool then mret None
      else
        x ← opt (as_string o);
        let len := stringLen x in
        bitop_sources i d ks (S j) (srcs ++ [string_bytes x]) (if maxlen <? len then len else maxlen)
          (if (j =? 0)%nat || (len <? minlen) then len else minlen)
    end
  end.

Definition bitopCommand i : M unit :=
  opname ← arg i 1; targetkey ← arg i 2; c ← get_client i;
  match bitop_op opname with
  | None => addReply i Reply.syntaxerr
  | Some op =>
    if (op =? BITOP_NOT) && negb (Z.of_nat (length (argv c)) =? 4) then
      addReplyError i (text "BITOP NOT must be called with a single source key.")
    else
      sources ← bitop_sources i (db c) (drop 3 (argv c)) 0 [] 0 0;
      match sources with
      | None => mret tt
      | Some (srcs, maxlen, minlen) =>
        (if negb (maxlen =? 0) then
           res ← opt (bitop_result big_endian op srcs maxlen minlen);
           setKey (db c) targetkey (of_string (Raw res))
         else
           b ← dbDelete (db c) targetkey;
           if b : bool then signalModifiedKey (db c) targetkey else mret tt) ;;
        add_dirty 1 ;;
        addReplyLongLong i maxlen
      end
  end.

Definition bitcountCommand i : M unit :=
  k ← arg i 1; c ← get_client i;
  o ← lookupKeyReadOrReply i k Reply.czero;
  match o with
  | None => mret tt
  | Some o =>
    wrong ← checkType i o REDIS_STRING;
    if wrong : bool then mret tt
    else
      x ← opt (as_string o);
      let len := stringLen x in
      let count start stop :=
        if stop <? start then addReply i Reply.czero
        else
          let bytes := stop - start + 1 in
          n ← opt (popcount big_endian (drop (Z.to_nat start) (string_bytes x)) bytes);
          addReplyLongLong i n in
      if Z.of_nat (length (argv c)) =? 4 then
        a ← opt (argv c !! 2%nat); start ← getLongFromObjectOrReply i a None;
        match start with
        | None => mret tt
        | Some start =>
          b ← opt (argv c !! 3%nat); stop ← getLongFromObjectOrReply i b None;
          match stop with
          | None => mret tt
          | Some stop =>
            let start := if start <? 0 then len + start else start in
            let stop := if stop <? 0 then len + stop else stop in
            let start := if start <? 0 then 0 else start in
            let stop := if stop <? 0 then 0 else stop in
            let stop := if len <=? stop then len - 1 else stop in
            count start stop
          end
        end
      else if Z.of_nat (length (argv c)) =? 2 then count 0 (len - 1)
      else addReply i Reply.syntaxerr
  end.
End Bitops.
