(* ===== verification/BitopsProofs.v ===== *)
(** BitopsProofs: the word by word algorithms of [bitops.c] against the bits
    and bytes they stand for. *)
From S2P Require Import Prelude Endian Server Strings Bitops.

(** ** Bits of strings

    The bits of a byte from the highest to the lowest, which is the order of
    the offsets. *)
Definition byte_bits (b : byte) : list bool := (fun j => Z.testbit (b2z b) (7 - Z.of_nat j)) <$> seq 0 8.
Definition string_bits (bs : list byte) : list bool := bs ≫= byte_bits.
Definition ones (l : list bool) : Z := foldr (fun b n => Z.b2z b + n) 0 l.

Lemma ones_app l l' : ones (l ++ l') = ones l + ones l'.
Proof. induction l as [|b l IH]; [done|]. cbn [ones foldr app]. unfold ones in *. lia. Qed.
Lemma string_bits_app bs bs' : string_bits (bs ++ bs') = string_bits bs ++ string_bits bs'.
Proof. apply bind_app. Qed.
Lemma length_byte_bits b : length (byte_bits b) = 8%nat. Proof. done. Qed.
Lemma length_string_bits bs : length (string_bits bs) = (8 * length bs)%nat.
Proof. induction bs as [|b bs IH]; [done|]. change (string_bits (b :: bs)) with (byte_bits b ++ string_bits bs). rewrite length_app, IH, length_byte_bits. cbn [length]. lia. Qed.
Lemma string_bits_cons b bs : string_bits (b :: bs) = byte_bits b ++ string_bits bs. Proof. done. Qed.

(** ** Counting bits *)

Definition bits8 (v : Z) : Z := ones (byte_bits (z2b v)).

Lemma bits8_b2z b : bits8 (b2z b) = ones (byte_bits b). Proof. unfold bits8. by rewrite z2b_b2z. Qed.
Lemma ones_range l : 0 <= ones l <= Z.of_nat (length l).
Proof. induction l as [|b l IH]; [cbn; lia|]. cbn [ones foldr length]. fold (ones l). destruct b; cbn [Z.b2z]; lia. Qed.
Lemma bits8_range v : 0 <= bits8 v <= 8. Proof. apply (ones_range (byte_bits (z2b v))). Qed.

Lemma table_bits b : bitsinbyte !! Z.to_nat (b2z b) = Some (ones (byte_bits b)).
Proof.
  rewrite <-bits8_b2z. set (P := fun v => match bitsinbyte !! Z.to_nat v with Some n => n =? bits8 v | None => false end).
  assert (P (b2z b) = true) as H by (apply (forall_small P 256); [by vm_compute|apply b2z_range]). unfold P in H.
  destruct (bitsinbyte !! Z.to_nat (b2z b)) as [n|]; [|done]. by apply Z.eqb_eq in H as ->.
Qed.

(** Masks work byte by byte. *)
Lemma split_mask k b r m m' : 0 <= k <= 8 -> 0 <= b < 256 -> 0 <= m < 2 ^ (8 - k) ->
  Z.land (Z.shiftr (b + 256 * r) k) (m + 256 * m') = Z.land (Z.shiftr b k) m + 256 * Z.land (Z.shiftr r k) m'.
Proof.
  intros Hk Hb Hm. assert (2 ^ (8 - k) <= 2 ^ 8) as Hp by (apply Z.pow_le_mono_r; lia).
  assert (0 <= Z.land (Z.shiftr b k) m < 2 ^ 8) as Hl.
  { assert (0 <= Z.land (Z.shiftr b k) m) as H0 by (apply Z.land_nonneg; lia). split; [done|]. apply lt_pow2_shiftr; [lia|done|].
    rewrite Z.shiftr_land. assert (Z.shiftr m 8 = 0) as -> by (apply (proj1 (lt_pow2_shiftr 8 m ltac:(lia) ltac:(lia))); lia). apply Z.land_0_r. }
  replace (b + 256 * r) with (r * 2 ^ 8 + b) by lia. replace (m + 256 * m') with (m' * 2 ^ 8 + m) by lia.
  replace (_ + 256 * _) with (Z.land (Z.shiftr r k) m' * 2 ^ 8 + Z.land (Z.shiftr b k) m) by lia.
  rewrite <-!lor_add by lia. apply Z.bits_inj'. intros n Hn. rewrite Z.land_spec, Z.shiftr_spec, !Z.lor_spec, Z.land_spec, Z.shiftr_spec by lia.
  assert (forall j, 8 - k <= j -> Z.testbit m j = false) as Hmb by (intros j Hj; rewrite <-(Z.mod_small m (2 ^ (8 - k))) by done; apply Z.mod_pow2_bits_high; lia).
  assert (forall j, 8 <= j -> Z.testbit b j = false) as Hbb by (intros j Hj; rewrite <-(Z.mod_small b (2 ^ 8)) by lia; apply Z.mod_pow2_bits_high; lia).
  destruct (Z.lt_ge_cases n 8) as [H8|H8].
  - rewrite (Z.shiftl_spec_low m'), (Z.shiftl_spec_low (Z.land _ _)) by lia. cbn [orb]. destruct (Z.lt_ge_cases n (8 - k)) as [Hn2|Hn2].
    + by rewrite (Z.shiftl_spec_low r) by lia.
    + by rewrite Hmb, !andb_false_r by lia.
  - rewrite !Z.shiftl_spec_high, Z.land_spec, Z.shiftr_spec by lia. rewrite (Hmb n), (Hbb (n + k)) by lia. replace (n + k - 8) with (n - 8 + k) by lia.
    btauto.
Qed.

(** The three steps on one byte. *)
Definition pairs8 (b : Z) : Z := b - Z.land (Z.shiftr b 1) 0x55.
Definition nibbles8 (p : Z) : Z := Z.land p 0x33 + Z.land (Z.shiftr p 2) 0x33.
Definition byte_fact (b : Z) : bool :=
  let p := pairs8 b in let c := nibbles8 p in
  (0 <=? p) && (p <? 256) && (0 <=? c) && (c mod 16 <=? 4) && (c / 16 <=? 4) && ((c + c / 16) mod 16 =? bits8 b).
Lemma byte_facts b : 0 <= b < 256 ->
  0 <= pairs8 b < 256 /\ 0 <= nibbles8 (pairs8 b) /\ nibbles8 (pairs8 b) mod 16 <= 4 /\ nibbles8 (pairs8 b) / 16 <= 4 /\
  (nibbles8 (pairs8 b) + nibbles8 (pairs8 b) / 16) mod 16 = bits8 b.
Proof.
  intros Hb. assert (byte_fact b = true) as H by (apply (forall_small byte_fact 256); [by vm_compute|done]).
  unfold byte_fact in H. cbv zeta in H. rewrite !andb_true_iff, !Z.leb_le, Z.ltb_lt, Z.eqb_eq in H. tauto.
Qed.

Definition word_of (b0 b1 b2 b3 : Z) : Z := b0 + 256 * (b1 + 256 * (b2 + 256 * b3)).
Lemma word_range b0 b1 b2 b3 : 0 <= b0 < 256 -> 0 <= b1 < 256 -> 0 <= b2 < 256 -> 0 <= b3 < 256 -> 0 <= word_of b0 b1 b2 b3 < 2 ^ 32.
Proof. unfold word_of. lia. Qed.

Lemma mask_word k b0 b1 b2 b3 m : 0 <= k <= 8 -> 0 <= m < 2 ^ (8 - k) -> 0 <= b0 < 256 -> 0 <= b1 < 256 -> 0 <= b2 < 256 -> 0 <= b3 < 256 ->
  Z.land (Z.shiftr (word_of b0 b1 b2 b3) k) (word_of m m m m) =
  word_of (Z.land (Z.shiftr b0 k) m) (Z.land (Z.shiftr b1 k) m) (Z.land (Z.shiftr b2 k) m) (Z.land (Z.shiftr b3 k) m).
Proof.
  intros Hk Hm H0 H1 H2 H3. unfold word_of. rewrite !split_mask by done. lia.
Qed.

Section Word.
Context (b0 b1 b2 b3 : Z) (H0 : 0 <= b0 < 256) (H1 : 0 <= b1 < 256) (H2 : 0 <= b2 < 256) (H3 : 0 <= b3 < 256).

Lemma pop_pairs_word : pop_pairs (word_of b0 b1 b2 b3) = word_of (pairs8 b0) (pairs8 b1) (pairs8 b2) (pairs8 b3).
Proof.
  unfold pop_pairs. change 0x55555555 with (word_of 0x55 0x55 0x55 0x55). rewrite mask_word by done.
  pose proof (byte_facts b0 H0) as (F0 & _). pose proof (byte_facts b1 H1) as (F1 & _). pose proof (byte_facts b2 H2) as (F2 & _). pose proof (byte_facts b3 H3) as (F3 & _).
  pose proof (word_range _ _ _ _ F0 F1 F2 F3) as Hr. transitivity (u32 (word_of (pairs8 b0) (pairs8 b1) (pairs8 b2) (pairs8 b3))); [|by apply u32_small].
  f_equal. unfold word_of, pairs8. lia.
Qed.

Lemma nibbles_range b : 0 <= b < 256 -> 0 <= nibbles8 (pairs8 b) < 80.
Proof. intros Hb. pose proof (byte_facts b Hb) as (_ & Hc & Hm & Hd & _). pose proof (Z.div_mod (nibbles8 (pairs8 b)) 16). lia. Qed.

Lemma pop_nibbles_word : pop_nibbles (word_of (pairs8 b0) (pairs8 b1) (pairs8 b2) (pairs8 b3)) =
  word_of (nibbles8 (pairs8 b0)) (nibbles8 (pairs8 b1)) (nibbles8 (pairs8 b2)) (nibbles8 (pairs8 b3)).
Proof.
  unfold pop_nibbles. change 0x33333333 with (word_of 0x33 0x33 0x33 0x33).
  pose proof (byte_facts b0 H0) as (F0 & _). pose proof (byte_facts b1 H1) as (F1 & _). pose proof (byte_facts b2 H2) as (F2 & _). pose proof (byte_facts b3 H3) as (F3 & _).
  rewrite (mask_word 2) by done. rewrite <-(Z.shiftr_0_r (word_of (pairs8 b0) _ _ _)), (mask_word 0) by done. rewrite !Z.shiftr_0_r.
  transitivity (u32 (word_of (nibbles8 (pairs8 b0)) (nibbles8 (pairs8 b1)) (nibbles8 (pairs8 b2)) (nibbles8 (pairs8 b3)))).
  - f_equal. unfold word_of, nibbles8. lia.
  - pose proof (nibbles_range b0 H0). pose proof (nibbles_range b1 H1). pose proof (nibbles_range b2 H2). pose proof (nibbles_range b3 H3).
    apply u32_small. pose proof (word_range (nibbles8 (pairs8 b0)) (nibbles8 (pairs8 b1)) (nibbles8 (pairs8 b2)) (nibbles8 (pairs8 b3))). lia.
Qed.
End Word.

(** Adding the nibbles of each byte, then the bytes. *)
Lemma pop_bytes_word c0 c1 c2 c3 :
  (forall c, c = c0 \/ c = c1 \/ c = c2 \/ c = c3 -> 0 <= c /\ c mod 16 <= 4 /\ c / 16 <= 4) ->
  pop_bytes (word_of c0 c1 c2 c3) = (c0 + c0 / 16) mod 16 + (c1 + c1 / 16) mod 16 + (c2 + c2 / 16) mod 16 + (c3 + c3 / 16) mod 16.
Proof.
  intros Hc. pose proof (Hc c0 ltac:(auto)) as (A0 & B0 & D0). pose proof (Hc c1 ltac:(auto)) as (A1 & B1 & D1). pose proof (Hc c2 ltac:(auto)) as (A2 & B2 & D2). pose proof (Hc c3 ltac:(auto)) as (A3 & B3 & D3). clear Hc.
  assert (forall c, 0 <= c -> c mod 16 <= 4 -> c / 16 <= 4 -> c = 16 * (c / 16) + c mod 16 /\ 0 <= c / 16 /\ 0 <= c mod 16) as Hq.
  { intros c Hc _ _. pose proof (Z.div_mod c 16). pose proof (Z.mod_pos_bound c 16). pose proof (Z.div_pos c 16). lia. }
  pose proof (Hq c0 A0 B0 D0). pose proof (Hq c1 A1 B1 D1). pose proof (Hq c2 A2 B2 D2). pose proof (Hq c3 A3 B3 D3).
  set (d0 := c0 + c0 / 16 + 16 * (c1 mod 16)). set (d1 := c1 + c1 / 16 + 16 * (c2 mod 16)). set (d2 := c2 + c2 / 16 + 16 * (c3 mod 16)). set (d3 := c3 + c3 / 16).
  assert (u32 (word_of c0 c1 c2 c3 + Z.shiftr (word_of c0 c1 c2 c3) 4) = word_of d0 d1 d2 d3) as E.
  { transitivity (u32 (word_of d0 d1 d2 d3)); [f_equal|apply u32_small, word_range; unfold d0, d1, d2, d3; lia].
    rewrite Z.shiftr_div_pow2 by lia. change (2 ^ 4) with 16. unfold word_of, d0, d1, d2, d3.
    replace (c0 + 256 * (c1 + 256 * (c2 + 256 * c3))) with (c0 + 16 * (c1 + 256 * (c2 + 256 * c3)) * 16) at 2 by lia. rewrite Z.div_add by lia.
    lia. }
  unfold pop_bytes. rewrite E. change 0x0F0F0F0F with (word_of 0xF 0xF 0xF 0xF).
  rewrite <-(Z.shiftr_0_r (word_of d0 d1 d2 d3)), mask_word by (unfold d0, d1, d2, d3; lia). rewrite !Z.shiftr_0_r.
  pose proof (land_low d0 4 ltac:(lia)) as L0. pose proof (land_low d1 4 ltac:(lia)) as L1. pose proof (land_low d2 4 ltac:(lia)) as L2. pose proof (land_low d3 4 ltac:(lia)) as L3.
  change (2 ^ 4) with 16 in *. change (16 - 1) with 15 in *. rewrite L0, L1, L2, L3.
  assert (d0 mod 16 = (c0 + c0 / 16) mod 16 /\ d1 mod 16 = (c1 + c1 / 16) mod 16 /\ d2 mod 16 = (c2 + c2 / 16) mod 16 /\ d3 mod 16 = (c3 + c3 / 16) mod 16) as (-> & -> & -> & ->)
    by (unfold d0, d1, d2, d3; rewrite !(Z.mul_comm 16 (_ mod _)), !Z.mod_add by lia; done).
  assert (forall c, 0 <= c -> c mod 16 <= 4 -> c / 16 <= 4 -> 0 <= (c + c / 16) mod 16 <= 8) as Hr.
  { intros c Hc Hm Hd. destruct (Hq c Hc Hm Hd) as (E1 & ? & ?). replace (c + c / 16) with (c mod 16 + c / 16 + (c / 16) * 16) by lia. rewrite Z.mod_add, Z.mod_small by lia. lia. }
  pose proof (Hr c0 A0 B0 D0). pose proof (Hr c1 A1 B1 D1). pose proof (Hr c2 A2 B2 D2). pose proof (Hr c3 A3 B3 D3).
  set (n0 := (c0 + c0 / 16) mod 16) in *. set (n1 := (c1 + c1 / 16) mod 16) in *. set (n2 := (c2 + c2 / 16) mod 16) in *. set (n3 := (c3 + c3 / 16) mod 16) in *. clearbody n0 n1 n2 n3.
  rewrite Z.shiftr_div_pow2 by lia. unfold u32, word_of.
  replace ((n0 + 256 * (n1 + 256 * (n2 + 256 * n3))) * 0x01010101) with
    ((n0 + 256 * (n0 + n1) + 65536 * (n0 + n1 + n2)) + (n0 + n1 + n2 + n3) * 2 ^ 24 + (n1 + n2 + n3 + 256 * (n2 + n3) + 65536 * n3) * 2 ^ 32) by lia.
  rewrite Z.mod_add, Z.mod_small by lia. rewrite Z.div_add, Z.div_small by lia. lia.
Qed.

Lemma pop_word_bits b0 b1 b2 b3 : 0 <= b0 < 256 -> 0 <= b1 < 256 -> 0 <= b2 < 256 -> 0 <= b3 < 256 ->
  pop_word (word_of b0 b1 b2 b3) = bits8 b0 + bits8 b1 + bits8 b2 + bits8 b3.
Proof.
  intros H0 H1 H2 H3. unfold pop_word. rewrite pop_pairs_word, pop_nibbles_word by done.
  pose proof (byte_facts b0 H0) as (_ & E0 & F0 & G0 & <-). pose proof (byte_facts b1 H1) as (_ & E1 & F1 & G1 & <-).
  pose proof (byte_facts b2 H2) as (_ & E2 & F2 & G2 & <-). pose proof (byte_facts b3 H3) as (_ & E3 & F3 & G3 & <-).
  apply pop_bytes_word. intros c [->|[->|[->| ->]]]; done.
Qed.

Section Memory.
Context (be : bool).

Lemma pop_load x0 x1 x2 x3 : pop_word (host_load be [x0; x1; x2; x3]) = ones (string_bits [x0; x1; x2; x3]).
Proof.
  assert (ones (string_bits [x0; x1; x2; x3]) = bits8 (b2z x0) + bits8 (b2z x1) + bits8 (b2z x2) + bits8 (b2z x3)) as ->.
  { rewrite !string_bits_cons, !ones_app, !bits8_b2z. cbn. lia. }
  assert (forall y0 y1 y2 y3, le_val [y0; y1; y2; y3] = word_of (b2z y0) (b2z y1) (b2z y2) (b2z y3)) as Hw by (intros; cbn [le_val]; unfold word_of; lia).
  unfold host_load. destruct be; cbn [rev app]; rewrite Hw, pop_word_bits by apply b2z_range; lia.
Qed.

Lemma u64_add a b : u64 (u64 a + b) = u64 (a + b).
Proof. unfold u64. by rewrite Zplus_mod_idemp_l. Qed.

Lemma word32_read m pre x post off : m = pre ++ x ++ post -> off = Z.of_nat (length pre) -> length x = 4%nat -> word32 be m off = Some (host_load be x).
Proof. intros -> -> Hx. unfold word32. rewrite mem_read_app by (done || lia). done. Qed.

Lemma popcount_words_spec fuel : forall s count bits, 0 <= count <= Z.of_nat (length s) -> (Z.to_nat count < fuel)%nat -> 0 <= bits < 2 ^ 64 ->
  exists p c n, popcount_words be fuel s count bits = Some (p, c, n) /\ 0 <= c <= count /\ p = drop (Z.to_nat (count - c)) s /\ c <= Z.of_nat (length p) /\
    n = u64 (bits + ones (string_bits (take (Z.to_nat (count - c)) s))).
Proof.
  induction fuel as [|fuel IH]; intros s count bits Hc Hf Hb; [lia|]. cbn [popcount_words]. destruct (Z.leb_spec 16 count) as [H16|H16].
  - destruct s as [|x0 [|x1 [|x2 [|x3 [|x4 [|x5 [|x6 [|x7 [|x8 [|x9 [|xa [|xb [|xc [|xd [|xe [|xf s]]]]]]]]]]]]]]]]; cbn [length] in Hc; try lia.
    change (x0 :: x1 :: x2 :: x3 :: x4 :: x5 :: x6 :: x7 :: x8 :: x9 :: xa :: xb :: xc :: xd :: xe :: xf :: s) with
      ([x0; x1; x2; x3] ++ [x4; x5; x6; x7] ++ [x8; x9; xa; xb] ++ [xc; xd; xe; xf] ++ s).
    set (A := [x0; x1; x2; x3]). set (B := [x4; x5; x6; x7]). set (C := [x8; x9; xa; xb]). set (D := [xc; xd; xe; xf]).
    rewrite (word32_read (A ++ B ++ C ++ D ++ s) [] A (B ++ C ++ D ++ s) 0), (word32_read (A ++ B ++ C ++ D ++ s) A B (C ++ D ++ s) 4) by done.
    rewrite (word32_read (A ++ B ++ C ++ D ++ s) (A ++ B) C (D ++ s) 8), (word32_read (A ++ B ++ C ++ D ++ s) (A ++ B ++ C) D s 12) by done.
    cbn [option_bind mbind]. unfold A, B, C, D. rewrite !pop_load. fold A B C D. change (drop 16 (A ++ B ++ C ++ D ++ s)) with s.
    set (t := ones (string_bits A) + ones (string_bits B) + ones (string_bits C) + ones (string_bits D)).
    assert (0 <= t <= 128) as Ht.
    { unfold t. pose proof (ones_range (string_bits A)). pose proof (ones_range (string_bits B)). pose proof (ones_range (string_bits C)). pose proof (ones_range (string_bits D)). rewrite length_string_bits in *. cbn [length A B C D] in *. lia. }
    rewrite (u32_small t) by lia. destruct (IH s (count - 16) (u64 (bits + t))) as (p & c & n & -> & Hc' & -> & Hl & ->); [lia|lia|apply u64_range|].
    eexists _, c, _. split; [done|]. split; [lia|]. assert (Z.to_nat (count - c) = 16 + Z.to_nat (count - 16 - c))%nat as E by lia. rewrite E.
    split; [done|]. split; [done|]. rewrite u64_add. f_equal. change (take (16 + ?k) (A ++ B ++ C ++ D ++ s)) with (A ++ B ++ C ++ D ++ take k s).
    rewrite !string_bits_app, !ones_app. unfold t. lia.
  - exists s, count, bits. split; [done|]. split; [lia|]. rewrite Z.sub_diag. cbn [take drop Z.to_nat]. split; [done|]. split; [lia|]. change (ones (string_bits [])) with 0. rewrite Z.add_0_r, u64_small; [done|lia].
Qed.

Lemma popcount_rest_spec fuel : forall p count bits, 0 <= count <= Z.of_nat (length p) -> (Z.to_nat count < fuel)%nat -> 0 <= bits < 2 ^ 64 ->
  popcount_rest fuel p count bits = Some (u64 (bits + ones (string_bits (take (Z.to_nat count) p)))).
Proof.
  induction fuel as [|fuel IH]; intros p count bits Hc Hf Hb; [lia|]. cbn [popcount_rest]. destruct (Z.eqb_spec count 0) as [->|H0].
  - cbn [Z.to_nat take]. change (ones (string_bits [])) with 0. rewrite Z.add_0_r, u64_small; [done|lia].
  - destruct p as [|b p]; cbn [length] in Hc; [lia|]. rewrite table_bits. cbn [option_bind mbind]. rewrite IH; [|lia|lia|apply u64_range]. rewrite u64_add.
    replace (Z.to_nat count) with (S (Z.to_nat (count - 1))) by lia. cbn [take]. rewrite string_bits_cons, ones_app. do 2 f_equal. lia.
Qed.

Lemma popcount_spec s count : 0 <= count <= Z.of_nat (length s) -> popcount be s count = Some (u64 (ones (string_bits (take (Z.to_nat count) s)))).
Proof.
  intros Hc. unfold popcount. destruct (popcount_words_spec (S (Z.to_nat count)) s count 0 Hc ltac:(lia) ltac:(lia)) as (p & c & n & -> & Hc' & -> & Hl & ->).
  cbn [option_bind mbind]. rewrite popcount_rest_spec by (try apply u64_range; lia). rewrite u64_add, Z.add_0_l, <-ones_app, <-string_bits_app. do 4 f_equal.
  rewrite take_take_drop. f_equal. lia.
Qed.

(** ** Bytes of words *)

Definition byte_op (op : Z) (a b : byte) : byte := z2b (bit_op op (b2z a) (b2z b)).
Definition byte_not (a : byte) : byte := z2b (bit_not 8 (b2z a)).

Lemma bit_op_range op a b : 0 <= a < 256 -> 0 <= b < 256 -> 0 <= bit_op op a b < 256.
Proof.
  intros Ha Hb. unfold bit_op. assert (forall x, 0 <= x -> Z.shiftr x 8 = 0 -> 0 <= x < 2 ^ 8) as H by (intros x Hx Hs; split; [done|]; by apply lt_pow2_shiftr).
  assert (Z.shiftr a 8 = 0 /\ Z.shiftr b 8 = 0) as [Sa Sb] by (split; apply lt_pow2_shiftr; lia).
  destruct (op =? BITOP_AND); [|destruct (op =? BITOP_OR)]; apply H.
  - apply Z.land_nonneg. lia.
  - by rewrite Z.shiftr_land, Sa.
  - apply Z.lor_nonneg. lia.
  - by rewrite Z.shiftr_lor, Sa, Sb.
  - apply Z.lxor_nonneg. lia.
  - by rewrite Z.shiftr_lxor, Sa, Sb.
Qed.

(** The operations work byte by byte. *)
Lemma bit_op_split op a b r t : 0 <= a < 256 -> 0 <= b < 256 -> bit_op op (a + 256 * r) (b + 256 * t) = bit_op op a b + 256 * bit_op op r t.
Proof.
  intros Ha Hb. pose proof (bit_op_range op a b Ha Hb) as Hr.
  replace (a + 256 * r) with (r * 2 ^ 8 + a) by lia. replace (b + 256 * t) with (t * 2 ^ 8 + b) by lia. replace (_ + 256 * _) with (bit_op op r t * 2 ^ 8 + bit_op op a b) by lia.
  rewrite <-!lor_add by lia.
  assert (forall x j, 0 <= x < 256 -> 8 <= j -> Z.testbit x j = false) as Hb8 by (intros x j Hx Hj; rewrite <-(Z.mod_small x (2 ^ 8)) by lia; apply Z.mod_pow2_bits_high; lia).
  apply Z.bits_inj'. intros n Hn. unfold bit_op. destruct (Z.lt_ge_cases n 8) as [H8|H8].
  - destruct (op =? BITOP_AND); [|destruct (op =? BITOP_OR)]; rewrite ?Z.land_spec, ?Z.lor_spec, ?Z.lxor_spec, ?Z.lor_spec, ?(Z.shiftl_spec_low _ 8) by lia; rewrite ?Z.land_spec, ?Z.lor_spec, ?Z.lxor_spec; btauto.
  - destruct (op =? BITOP_AND); [|destruct (op =? BITOP_OR)]; rewrite ?Z.land_spec, ?Z.lor_spec, ?Z.lxor_spec, ?Z.lor_spec, ?(Z.shiftl_spec_high _ 8) by lia; rewrite ?Z.land_spec, ?Z.lor_spec, ?Z.lxor_spec;
      rewrite !(Hb8 a), !(Hb8 b) by lia; btauto.
Qed.

Lemma b2z_byte_op op a b : b2z (byte_op op a b) = bit_op op (b2z a) (b2z b).
Proof. unfold byte_op. rewrite b2z_z2b, Z.mod_small; [done|]. apply bit_op_range; apply b2z_range. Qed.
Lemma b2z_byte_not a : b2z (byte_not a) = 255 - b2z a.
Proof.
  pose proof (b2z_range a). unfold byte_not, bit_not. rewrite b2z_z2b. unfold Z.lnot. change (2 ^ 8) with 256. rewrite Z.mod_mod by lia.
  replace (Z.pred (- b2z a)) with (255 - b2z a + (-1) * 256) by lia. rewrite Z.mod_add, Z.mod_small by lia. done.
Qed.

Lemma le_val_op op A : forall B, length A = length B -> le_val (zip_with (byte_op op) A B) = bit_op op (le_val A) (le_val B).
Proof.
  induction A as [|a A IH]; intros [|b B] Hl; try done; [by unfold bit_op; destruct (op =? BITOP_AND), (op =? BITOP_OR)|].
  cbn [zip_with le_val]. rewrite bit_op_split by apply b2z_range. rewrite b2z_byte_op, IH by (cbn [length] in Hl; lia). done.
Qed.
Lemma le_val_not A : le_val (byte_not <$> A) = 256 ^ Z.of_nat (length A) - 1 - le_val A.
Proof.
  induction A as [|a A IH]; [done|]. cbn [fmap list_fmap le_val length]. rewrite b2z_byte_not, IH, Nat2Z.inj_succ, Z.pow_succ_r by lia. lia.
Qed.

Lemma zip_with_rev {X Y Z} (f : X -> Y -> Z) A : forall B, length A = length B -> zip_with f (rev A) (rev B) = rev (zip_with f A B).
Proof.
  induction A as [|a A IH]; intros [|b B] Hl; try done. cbn [length] in Hl. cbn [rev zip_with]. rewrite zip_with_app by (rewrite !length_rev; lia). rewrite IH by lia. done.
Qed.

Lemma store_op op A B : length A = 8%nat -> length B = 8%nat -> host_store be 8 (bit_op op (host_load be A) (host_load be B)) = zip_with (byte_op op) A B.
Proof.
  intros HA HB. assert (length (zip_with (byte_op op) A B) = 8%nat) as Hl by (rewrite length_zip_with; lia). unfold host_store, host_load. destruct be.
  - rewrite <-le_val_op by (rewrite !length_rev; lia). assert (zip_with (byte_op op) (rev A) (rev B) = rev (zip_with (byte_op op) A B)) as ->.
    { apply zip_with_rev. lia. }
    rewrite <-Hl at 1. rewrite <-(length_rev (zip_with _ _ _)), le_bytes_val. apply rev_involutive.
  - rewrite <-le_val_op by lia. rewrite <-Hl at 1. apply le_bytes_val.
Qed.
Lemma store_not A : length A = 8%nat -> host_store be 8 (bit_not 64 (host_load be A)) = byte_not <$> A.
Proof.
  intros HA. assert (forall A, length A = 8%nat -> bit_not 64 (le_val A) = le_val (byte_not <$> A)) as Hn.
  { intros A' H'. rewrite le_val_not, H'. pose proof (le_val_range A') as Hr. rewrite H' in Hr. unfold bit_not, Z.lnot. change (256 ^ Z.of_nat 8) with (2 ^ 64) in *.
    replace (Z.pred (- le_val A')) with (2 ^ 64 - 1 - le_val A' + (-1) * 2 ^ 64) by lia. rewrite Z.mod_add, Z.mod_small by lia. done. }
  unfold host_store, host_load. destruct be.
  - rewrite Hn by (by rewrite length_rev). assert (byte_not <$> rev A = rev (byte_not <$> A)) as -> by apply (map_rev byte_not).
    assert (length (rev (byte_not <$> A)) = 8%nat) as Hl by (by rewrite length_rev, length_fmap). rewrite <-Hl at 1. rewrite le_bytes_val. apply rev_involutive.
  - rewrite Hn by done. assert (length (byte_not <$> A) = 8%nat) as Hl by (by rewrite length_fmap). rewrite <-Hl at 1. apply le_bytes_val.
Qed.
(** ** Combining strings

    A byte past the end is 0. *)
Definition byte_at (m : list byte) (j : nat) : byte := default (z2b 0) (m !! j).
Definition combine (op : Z) (srcs : list (list byte)) (j : nat) (b : byte) : byte :=
  if op =? BITOP_NOT then byte_not b else foldl (fun b src => byte_op op b (byte_at src j)) b (drop 1 srcs).
Definition out_byte (op : Z) (srcs : list (list byte)) (j : nat) : byte := combine op srcs j (byte_at (default [] (srcs !! 0%nat)) j).

Lemma source_byte_at src (j : nat) : source_byte src (Z.of_nat j) = b2z (byte_at src j).
Proof.
  unfold source_byte, byte_at. rewrite Nat2Z.id. destruct (Z.leb_spec (Z.of_nat (length src)) (Z.of_nat j)) as [Hl|]; [|done].
  rewrite lookup_ge_None_2 by lia. done.
Qed.
Lemma output_byte_at op srcs (j : nat) : output_byte op srcs (Z.of_nat j) = b2z (out_byte op srcs j).
Proof.
  unfold output_byte, out_byte, combine. rewrite source_byte_at. set (b := byte_at _ j). clearbody b. generalize (drop 1 srcs). intros l. destruct (op =? BITOP_NOT).
  - assert (bit_not 8 (b2z b) = b2z (byte_not b)) as -> by (unfold byte_not; rewrite b2z_z2b; unfold bit_not; change (2 ^ 8) with 256; by rewrite Z.mod_mod).
    generalize (b2z (byte_not b)). induction l; intros z; [done|]. apply IHl.
  - revert b. induction l as [|src l IH]; intros b; [done|]. cbn [foldl]. rewrite source_byte_at, <-b2z_byte_op. apply IH.
Qed.

(** [n] bytes from [off] are changed. *)
Definition patch (off n : nat) (f : nat -> byte) (res res' : list byte) : Prop :=
  length res' = length res /\ forall j, byte_at res' j = if decide (off <= j < off + n)%nat then f j else byte_at res j.

Lemma patch_trans off n m f g res1 res2 res3 : patch off n f res1 res2 -> patch (off + n) m g res2 res3 -> (forall j, (off <= j < off + n)%nat -> f j = g j) -> patch off (n + m) g res1 res3.
Proof.
  intros [L1 P1] [L2 P2] Hfg. split; [congruence|]. intros j. rewrite P2, P1. repeat case_decide; try lia; auto.
Qed.
Lemma patch_ext off n f g res res' : patch off n f res res' -> (forall j, (off <= j < off + n)%nat -> f j = g j) -> patch off n g res res'.
Proof. intros [L P] H. split; [done|]. intros j. rewrite P. case_decide; auto. Qed.

Lemma write_patch res off bs : (off + length bs <= length res)%nat ->
  exists res', mem_write res (Z.of_nat off) bs = Some res' /\ patch off (length bs) (fun j => byte_at bs (j - off)) res res'.
Proof.
  intros Hl. unfold mem_write. rewrite decide_True by lia. eexists. split; [done|]. rewrite Nat2Z.id. split; [rewrite !length_app, length_take, length_drop; lia|].
  intros j. unfold byte_at. case_decide as Hj.
  - rewrite lookup_app_r by (rewrite length_take; lia). rewrite lookup_app_l by (rewrite length_take; lia). rewrite length_take. do 2 f_equal. lia.
  - destruct (Nat.lt_ge_cases j off).
    + rewrite lookup_app_l by (rewrite length_take; lia). by rewrite lookup_take_lt by lia.
    + rewrite !lookup_app_r by (rewrite ?length_app, ?length_take; lia). rewrite length_take, lookup_drop. do 2 f_equal. lia.
Qed.

Lemma word64_read m (off : nat) : (off + 8 <= length m)%nat -> word64 be m (Z.of_nat off) = Some (host_load be (take 8 (drop off m))).
Proof. intros Hl. unfold word64, mem_read. rewrite decide_True by lia. cbn [option_bind mbind]. by rewrite Nat2Z.id. Qed.
Lemma byte_at_sub m off j : (off <= j < off + 8)%nat -> byte_at (take 8 (drop off m)) (j - off) = byte_at m j.
Proof. intros Hj. unfold byte_at. rewrite lookup_take_lt, lookup_drop by lia. do 2 f_equal. lia. Qed.

(** One word. *)
Lemma word_op_patch op src res (off : nat) : (off + 8 <= length res)%nat -> (off + 8 <= length src)%nat ->
  exists res', (a ← word64 be res (Z.of_nat off); b ← word64 be src (Z.of_nat off); set_word64 be res (Z.of_nat off) (bit_op op a b)) = Some res' /\
    patch off 8 (fun j => byte_op op (byte_at res j) (byte_at src j)) res res'.
Proof.
  intros Hr Hs. rewrite !word64_read by done. cbn [option_bind mbind]. set (A := take 8 (drop off res)). set (B := take 8 (drop off src)).
  assert (length A = 8%nat /\ length B = 8%nat) as [HA HB] by (unfold A, B; rewrite !length_take, !length_drop; lia).
  unfold set_word64. rewrite store_op by done. assert (length (zip_with (byte_op op) A B) = 8%nat) as Hl by (rewrite length_zip_with; lia).
  destruct (write_patch res off (zip_with (byte_op op) A B)) as (res' & -> & Hp); [lia|]. exists res'. split; [done|]. rewrite Hl in Hp. eapply patch_ext; [exact Hp|].
  intros j Hj. cbv beta. rewrite <-(byte_at_sub res off j Hj), <-(byte_at_sub src off j Hj). fold A B. unfold byte_at. rewrite lookup_zip_with.
  destruct (lookup_lt_is_Some_2 A (j - off)) as [a ->]; [lia|]. destruct (lookup_lt_is_Some_2 B (j - off)) as [b ->]; [lia|]. done.
Qed.
Lemma word_not_patch res (off : nat) : (off + 8 <= length res)%nat ->
  exists res', (a ← word64 be res (Z.of_nat off); set_word64 be res (Z.of_nat off) (bit_not 64 a)) = Some res' /\ patch off 8 (fun j => byte_not (byte_at res j)) res res'.
Proof.
  intros Hr. rewrite word64_read by done. cbn [option_bind mbind]. set (A := take 8 (drop off res)). assert (length A = 8%nat) as HA by (unfold A; rewrite length_take, length_drop; lia).
  unfold set_word64. rewrite store_not by done. destruct (write_patch res off (byte_not <$> A)) as (res' & -> & Hp); [rewrite length_fmap; lia|].
  exists res'. split; [done|]. rewrite length_fmap, HA in Hp. eapply patch_ext; [exact Hp|]. intros j Hj. cbv beta. rewrite <-(byte_at_sub res off j Hj). fold A.
  unfold byte_at. rewrite list_lookup_fmap. destruct (lookup_lt_is_Some_2 A (j - off)) as [a ->]; [lia|]. done.
Qed.

(** Four words. *)
Lemma fast_words_patch (g : list byte -> Z -> option (list byte)) (F : nat -> byte -> byte) (off : nat) res :
  (forall res' (off' : nat), length res' = length res -> (off <= off' /\ off' + 8 <= off + 32)%nat ->
     exists r, g res' (Z.of_nat off') = Some r /\ patch off' 8 (fun j => F j (byte_at res' j)) res' r) ->
  exists r, fast_words g (Z.of_nat off) res = Some r /\ patch off 32 (fun j => F j (byte_at res j)) res r.
Proof.
  intros Hg. unfold fast_words.
  replace (Z.of_nat off + 8) with (Z.of_nat (off + 8)) by lia. replace (Z.of_nat off + 16) with (Z.of_nat (off + 16)) by lia. replace (Z.of_nat off + 24) with (Z.of_nat (off + 24)) by lia.
  destruct (Hg res off) as (r1 & -> & P1); [done|lia|]. cbn [option_bind mbind].
  assert (forall n r r', patch off n (fun j => F j (byte_at res j)) res r -> patch (off + n) 8 (fun j => F j (byte_at r j)) r r' -> patch off (n + 8) (fun j => F j (byte_at res j)) res r') as Hstep.
  { intros n r r' Hr Hr'. eapply patch_trans; [exact Hr| |done]. eapply patch_ext; [exact Hr'|]. intros j Hj. cbv beta. f_equal. rewrite (proj2 Hr). case_decide; [lia|done]. }
  destruct (Hg r1 (off + 8)%nat) as (r2 & -> & P2); [apply P1|lia|]. cbn [option_bind mbind]. pose proof (Hstep _ _ _ P1 P2) as P12.
  destruct (Hg r2 (off + 16)%nat) as (r3 & -> & P3); [apply P12|lia|]. cbn [option_bind mbind]. pose proof (Hstep _ _ _ P12 P3) as P13.
  destruct (Hg r3 (off + 24)%nat) as (r4 & -> & P4); [apply P13|lia|]. exists r4. split; [done|]. exact (Hstep _ _ _ P13 P4).
Qed.

Lemma fast_sources_patch op (off : nat) srcs : forall res, (off + 32 <= length res)%nat -> (forall src, src ∈ srcs -> (off + 32 <= length src)%nat) ->
  exists r, fast_sources be op (Z.of_nat off) srcs res = Some r /\ patch off 32 (fun j => foldl (fun b src => byte_op op b (byte_at src j)) (byte_at res j) srcs) res r.
Proof.
  induction srcs as [|src srcs IH]; intros res Hr Hs; cbn [fast_sources foldl].
  - exists res. split; [done|]. split; [done|]. intros j. by case_decide.
  - pose proof (Hs src ltac:(by left)) as Hsrc. destruct (fast_words_patch (fun res off => a ← word64 be res off; b ← word64 be src off; set_word64 be res off (bit_op op a b))
      (fun j b => byte_op op b (byte_at src j)) off res) as (r1 & E1 & P1); [intros res' off' Hl Ho; apply word_op_patch; lia|].
    unfold fast_source. rewrite E1. cbn [option_bind mbind]. destruct (IH r1) as (r2 & -> & P2); [by rewrite (proj1 P1)|intros x Hx; apply Hs; by right|].
    exists r2. split; [done|]. split; [rewrite (proj1 P2); apply P1|]. intros j. rewrite (proj2 P2), (proj2 P1). case_decide; [done|done].
Qed.

Lemma fast_loop_patch op srcs fuel : forall (off : nat) (minlen : Z) res, (Z.to_nat minlen < fuel)%nat -> Z.of_nat off + minlen <= Z.of_nat (length res) ->
  (forall src, src ∈ drop 1 srcs -> Z.of_nat off + minlen <= Z.of_nat (length src)) ->
  exists r (n : nat), fast_loop be fuel op srcs (Z.of_nat off) minlen res = Some (r, Z.of_nat (off + n)) /\ (n = 0%nat \/ Z.of_nat n <= minlen) /\
    patch off n (fun j => combine op srcs j (byte_at res j)) res r.
Proof.
  induction fuel as [|fuel IH]; intros off minlen res Hf Hl Hs; [lia|]. cbn [fast_loop]. destruct (Z.leb_spec 32 minlen) as [H32|H32].
  - assert (exists r1, (if op =? BITOP_NOT then fast_not be (Z.of_nat off) res else fast_sources be op (Z.of_nat off) (drop 1 srcs) res) = Some r1 /\
      patch off 32 (fun j => combine op srcs j (byte_at res j)) res r1) as (r1 & -> & P1).
    { unfold combine. destruct (op =? BITOP_NOT).
      - unfold fast_not. apply (fast_words_patch _ (fun j b => byte_not b)). intros res' off' Hl' Ho. apply word_not_patch. lia.
      - apply fast_sources_patch; [lia|]. intros src Hsrc. specialize (Hs src Hsrc). lia. }
    cbn [option_bind mbind]. replace (Z.of_nat off + 32) with (Z.of_nat (off + 32)) by lia.
    destruct (IH (off + 32)%nat (minlen - 32) r1) as (r & n & -> & Hn & P); [lia|rewrite (proj1 P1); lia|intros src Hsrc; specialize (Hs src Hsrc); lia|].
    exists r, (32 + n)%nat. split; [do 3 f_equal; lia|]. split; [right; lia|]. eapply patch_trans; [exact P1| |done]. eapply patch_ext; [exact P|].
    intros j Hj. cbv beta. f_equal. rewrite (proj2 P1). case_decide; [lia|done].
  - exists res, 0%nat. split; [do 3 f_equal; lia|]. split; [by left|]. split; [done|]. intros j. case_decide; [lia|done].
Qed.

Lemma slow_loop_patch op srcs fuel : forall (j n : nat) res, (n < fuel)%nat -> (j + n = length res)%nat ->
  exists r, slow_loop fuel op srcs (Z.of_nat j) (Z.of_nat (length res)) res = Some r /\ patch j n (out_byte op srcs) res r.
Proof.
  induction fuel as [|fuel IH]; intros j n res Hf Hl; [lia|]. cbn [slow_loop]. destruct (Z.ltb_spec (Z.of_nat j) (Z.of_nat (length res))) as [Hj|Hj].
  - unfold setb. destruct (write_patch res j [z2b (output_byte op srcs (Z.of_nat j))]) as (r1 & -> & P1); [cbn [length]; lia|]. cbn [option_bind mbind length] in *.
    rewrite <-(proj1 P1). replace (Z.of_nat j + 1) with (Z.of_nat (j + 1)) by lia. destruct (IH (j + 1)%nat (n - 1)%nat r1) as (r & -> & P); [lia|rewrite (proj1 P1); lia|].
    exists r. split; [done|]. replace n with (1 + (n - 1))%nat by lia. eapply patch_trans; [exact P1|exact P|]. intros j' Hj'. assert (j' = j) as -> by lia. cbv beta.
    rewrite Nat.sub_diag, output_byte_at, z2b_b2z. done.
  - exists res. split; [done|]. split; [done|]. intros j'. case_decide; [lia|done].
Qed.

Lemma byte_at_eq (A B : list byte) : length A = length B -> (forall j, (j < length A)%nat -> byte_at A j = byte_at B j) -> A = B.
Proof.
  intros Hl H. apply list_eq. intros j. destruct (decide (j < length A)%nat) as [Hj|Hj]; [|by rewrite !lookup_ge_None_2 by lia].
  specialize (H j Hj). unfold byte_at in H. destruct (lookup_lt_is_Some_2 A j) as [a Ha]; [lia|]. destruct (lookup_lt_is_Some_2 B j) as [b Hb]; [lia|]. rewrite Ha, Hb in *. cbn in H. congruence.
Qed.

Lemma bitop_bytes op srcs (maxlen : nat) minlen : srcs <> [] -> 0 <= minlen <= Z.of_nat maxlen -> (forall src, src ∈ srcs -> minlen <= Z.of_nat (length src)) ->
  bitop_result be op srcs (Z.of_nat maxlen) minlen = Some (out_byte op srcs <$> seq 0 maxlen).
Proof.
  intros Hne Hmin Hsrc. unfold bitop_result. rewrite Nat2Z.id. set (z := replicate maxlen (z2b 0)). assert (length z = maxlen) as Hz by apply length_replicate.
  assert (exists r (n : nat), (if negb (minlen =? 0) && (Z.of_nat (length srcs) <=? 16) then
      src0 ← srcs !! 0%nat; bs ← mem_read src0 0 minlen; res ← mem_write z 0 bs; fast_loop be (S maxlen) op srcs 0 minlen res else Some (z, 0)) = Some (r, Z.of_nat n) /\
      (n <= maxlen)%nat /\ length r = maxlen /\ forall j, (j < n)%nat -> byte_at r j = out_byte op srcs j) as (r & n & -> & Hn & Hr & Hb).
  { destruct (_ && _); [|by exists z, 0%nat; split; [done|]; split; [lia|]; split; [done|]; intros j Hj; lia].
    destruct srcs as [|src0 srcs0] eqn:Es; [done|]. rewrite <-Es in *. assert (srcs !! 0%nat = Some src0) as E0 by by rewrite Es. rewrite E0. cbn [option_bind mbind].
    assert (minlen <= Z.of_nat (length src0)) as Hl0 by (apply Hsrc; rewrite Es; by left). unfold mem_read. rewrite decide_True by lia. cbn [option_bind mbind]. change (drop (Z.to_nat 0) src0) with src0.
    destruct (write_patch z 0 (take (Z.to_nat minlen) src0)) as (r1 & E1 & P1); [rewrite length_take; lia|]. change (Z.of_nat 0) with 0 in E1. rewrite E1. cbn [option_bind mbind]. rewrite length_take in P1.
    destruct (fast_loop_patch op srcs (S maxlen) 0 minlen r1) as (r & n & Ef & Hn & P); [lia|rewrite (proj1 P1); lia|intros src Hin; specialize (Hsrc src); rewrite Es in Hin, Hsrc; cbn in Hin; specialize (Hsrc ltac:(by right)); lia|].
    exists r, n. split; [exact Ef|]. split; [lia|]. split; [rewrite (proj1 P), (proj1 P1); lia|]. intros j Hj. rewrite (proj2 P). rewrite decide_True by lia. unfold out_byte. rewrite E0. cbn [default from_option id].
    f_equal. rewrite (proj2 P1). rewrite decide_True by lia. rewrite Nat.sub_0_r. unfold byte_at. by rewrite lookup_take_lt by lia. }
  cbn [option_bind mbind]. rewrite <-Hr at 2. destruct (slow_loop_patch op srcs (S maxlen) n (maxlen - n) r) as (r' & E & P); [lia|lia|]. rewrite E. f_equal.
  apply byte_at_eq; [rewrite (proj1 P), length_fmap, length_seq; lia|]. intros j Hj. rewrite (proj1 P) in Hj.
  assert (byte_at (out_byte op srcs <$> seq 0 maxlen) j = out_byte op srcs j) as -> by (unfold byte_at; rewrite list_lookup_fmap, lookup_seq_lt by lia; done).
  rewrite (proj2 P). case_decide; [done|]. apply Hb. lia.
Qed.
End Memory.

(** ** The sources of BITOP *)

Definition longest (srcs : list (list byte)) : nat := foldr Nat.max 0%nat (length <$> srcs).
Definition sources_ok (j : nat) (srcs : list (list byte)) (maxlen minlen : Z) : Prop :=
  length srcs = j /\ maxlen = Z.of_nat (longest srcs) /\ 0 <= minlen <= maxlen /\ forall src, src ∈ srcs -> minlen <= Z.of_nat (length src).

Lemma longest_snoc srcs src : longest (srcs ++ [src]) = Nat.max (longest srcs) (length src).
Proof. induction srcs as [|x srcs IH]; [cbn; lia|]. unfold longest in *. cbn [app fmap list_fmap foldr]. rewrite IH. lia. Qed.

Lemma sources_none : sources_ok 0 [] 0 0.
Proof. split; [done|]. split; [done|]. split; [lia|]. intros src H. by apply elem_of_nil in H. Qed.
Lemma sources_missing j srcs maxlen minlen : sources_ok j srcs maxlen minlen -> sources_ok (S j) (srcs ++ [[]]) maxlen 0.
Proof.
  intros (<- & -> & H1 & H2). split; [rewrite length_app; cbn; lia|]. rewrite longest_snoc. cbn [length]. split; [lia|]. split; [lia|]. intros src _. lia.
Qed.
Lemma sources_next j srcs maxlen minlen bs : sources_ok j srcs maxlen minlen -> let len := Z.of_nat (length bs) in
  sources_ok (S j) (srcs ++ [bs]) (if maxlen <? len then len else maxlen) (if (j =? 0)%nat || (len <? minlen) then len else minlen).
Proof.
  intros (<- & -> & H1 & H2) len. split; [rewrite length_app; cbn; lia|]. rewrite longest_snoc. split; [destruct (Z.ltb_spec (Z.of_nat (longest srcs)) len); lia|].
  assert (forall src, src ∈ srcs ++ [bs] -> src ∈ srcs \/ src = bs) as Hin by (intros src [?|?%list_elem_of_singleton]%elem_of_app; auto).
  destruct (Nat.eqb_spec (length srcs) 0) as [H0|H0]; cbn [orb].
  - split; [destruct (Z.ltb_spec (Z.of_nat (longest srcs)) len); lia|]. intros src [H|H]%Hin; [apply nil_length_inv in H0 as ->; by apply elem_of_nil in H|subst; lia].
  - split; [destruct (Z.ltb_spec (Z.of_nat (longest srcs)) len), (Z.ltb_spec len minlen); lia|]. intros src [H|H]%Hin; destruct (Z.ltb_spec len minlen); try (subst; lia); specialize (H2 src H); lia.
Qed.

(** ** Changing a bit *)

Lemma byte_range n : 0 <= n < 2 ^ 32 -> 0 <= Z.shiftr n 3 < 2 ^ 29.
Proof. intros Hn. rewrite Z.shiftr_div_pow2 by lia. split; [apply Z.div_pos; lia|apply Z.div_lt_upper_bound; lia]. Qed.

Lemma grow_zero_ok bs len : 0 <= len < 2 ^ 31 -> grow_zero bs len = Some (bs ++ replicate (Z.to_nat (len - Z.of_nat (length bs))) (z2b 0)).
Proof.
  intros Hl. unfold grow_zero. destruct (Z.leb_spec len (Z.of_nat (length bs))).
  - replace (Z.to_nat _) with 0%nat by lia. by rewrite app_nil_r.
  - by rewrite (proj2 (Z.ltb_lt _ _)) by lia.
Qed.
Lemma put_bit_some bs n on : 0 <= n < 2 ^ 32 -> is_Some (put_bit bs n on).
Proof.
  intros Hn. pose proof (byte_range n Hn) as Hb. unfold put_bit. rewrite grow_zero_ok by lia. cbn [option_bind mbind]. set (bs1 := bs ++ _).
  assert (Z.shiftr n 3 < Z.of_nat (length bs1)) as Hl by (unfold bs1; rewrite length_app, length_replicate; lia).
  unfold getb. rewrite decide_True by lia. destruct (lookup_lt_is_Some_2 bs1 (Z.to_nat (Z.shiftr n 3))) as [b ->]; [lia|]. cbn [fmap option_fmap option_map option_bind mbind].
  unfold setb, mem_write. rewrite decide_True by (cbn [length]; lia). by eexists.
Qed.

(** The byte with one bit changed. *)
Definition changed_byte (b bit on : Z) : Z := Z.lor (Z.land b (Z.lnot (Z.shiftl 1 bit))) (Z.shiftl (Z.land on 1) bit).
Definition bit_fact (b bit on j : Z) : bool :=
  eqb (Z.testbit (b2z (z2b (changed_byte b bit on))) j) (if j =? bit then on =? 1 else Z.testbit b j) && eqb (negb (bit_of b bit =? 0)) (Z.testbit b bit).
Lemma bit_facts b bit on j : 0 <= b < 256 -> 0 <= bit < 8 -> 0 <= on < 2 -> 0 <= j < 8 ->
  Z.testbit (b2z (z2b (changed_byte b bit on))) j = (if j =? bit then on =? 1 else Z.testbit b j) /\ negb (bit_of b bit =? 0) = Z.testbit b bit.
Proof.
  intros Hb Hbit Hon Hj. set (Q3 := fun b bit on => forallb (fun j => bit_fact b bit (Z.of_nat on) (Z.of_nat j)) (seq 0 8)).
  set (Q2 := fun b bit => forallb (Q3 b (Z.of_nat bit)) (seq 0 2)). set (Q1 := fun b => forallb (Q2 b) (seq 0 8)).
  assert (Q1 b = true) as H1 by (apply (forall_small Q1 256); [by vm_compute|done]). unfold Q1 in H1. rewrite forallb_forall in H1.
  specialize (H1 (Z.to_nat bit) ltac:(apply in_seq; lia)). unfold Q2 in H1. rewrite forallb_forall in H1. specialize (H1 (Z.to_nat on) ltac:(apply in_seq; lia)).
  unfold Q3 in H1. rewrite forallb_forall in H1. specialize (H1 (Z.to_nat j) ltac:(apply in_seq; lia)). rewrite !Z2Nat.id in H1 by lia.
  unfold bit_fact in H1. by apply andb_true_iff in H1 as [H1%eqb_prop H2%eqb_prop].
Qed.

(** A bit of a string. *)
Lemma byte_bits_lookup b (j : nat) : (j < 8)%nat -> byte_bits b !! j = Some (Z.testbit (b2z b) (7 - Z.of_nat j)).
Proof. intros Hj. unfold byte_bits. by rewrite list_lookup_fmap, lookup_seq_lt. Qed.
Lemma string_bits_lookup bs : forall q r : nat, (r < 8)%nat -> string_bits bs !! (8 * q + r)%nat = (fun b => Z.testbit (b2z b) (7 - Z.of_nat r)) <$> bs !! q.
Proof.
  induction bs as [|b bs IH]; intros q r Hr; [done|]. rewrite string_bits_cons. destruct q as [|q].
  - rewrite lookup_app_l by (rewrite length_byte_bits; lia). replace (8 * 0 + r)%nat with r by lia. by rewrite byte_bits_lookup.
  - rewrite lookup_app_r by (rewrite length_byte_bits; lia). rewrite length_byte_bits. replace (8 * S q + r - 8)%nat with (8 * q + r)%nat by lia. by rewrite IH.
Qed.
Lemma string_bits_zeros n : string_bits (replicate n (z2b 0)) = replicate (8 * n) false.
Proof.
  induction n as [|n IH]; [done|]. cbn [replicate]. rewrite string_bits_cons, IH. replace (8 * S n)%nat with (8 + 8 * n)%nat by lia. by rewrite replicate_add.
Qed.
Lemma string_bits_change bs (q r : nat) b b' : (r < 8)%nat -> bs !! q = Some b -> (forall j : nat, (j < 8)%nat -> j <> r -> Z.testbit (b2z b') (7 - Z.of_nat j) = Z.testbit (b2z b) (7 - Z.of_nat j)) ->
  string_bits (<[q := b']> bs) = <[(8 * q + r)%nat := Z.testbit (b2z b') (7 - Z.of_nat r)]> (string_bits bs).
Proof.
  intros Hr Hb Hj. pose proof (lookup_lt_Some _ _ _ Hb) as Hq. apply list_eq. intros n. pose proof (Nat.div_mod n 8) as Hn. pose proof (Nat.mod_upper_bound n 8) as Hm.
  set (q' := (n / 8)%nat) in *. set (r' := (n mod 8)%nat) in *. rewrite Hn by lia. rewrite string_bits_lookup by lia. destruct (decide (q' = q)) as [->|Hne].
  - rewrite list_lookup_insert_eq by done. cbn [fmap option_fmap option_map]. destruct (decide (r' = r)) as [->|Hr'].
    + rewrite list_lookup_insert_eq; [done|]. rewrite length_string_bits. lia.
    + rewrite list_lookup_insert_ne by lia. rewrite string_bits_lookup by lia. rewrite Hb. cbn [fmap option_fmap option_map]. by rewrite Hj by lia.
  - rewrite !list_lookup_insert_ne by lia. by rewrite string_bits_lookup by lia.
Qed.

(** The bits of the string after [put_bit]. *)
Definition with_bit (bs : list byte) (n : Z) (on : bool) : list bool :=
  let len := Z.to_nat (8 * (n / 8 + 1)) in
  <[Z.to_nat n := on]> (string_bits bs ++ replicate (len - 8 * length bs) false).
Lemma put_bit_bits bs n on bs' old : 0 <= n < 2 ^ 32 -> 0 <= on < 2 -> put_bit bs n on = Some (bs', old) ->
  string_bits bs' = with_bit bs n (on =? 1) /\ negb (old =? 0) = default false (string_bits bs !! Z.to_nat n).
Proof.
  intros Hn Hon. pose proof (byte_range n Hn) as Hq. unfold put_bit. rewrite grow_zero_ok by lia. cbn [option_bind mbind]. set (zs := replicate _ (z2b 0)). set (bs1 := bs ++ zs).
  set (q := Z.to_nat (Z.shiftr n 3)). assert (q < length bs1)%nat as Hl by (unfold bs1, zs, q; rewrite length_app, length_replicate; lia).
  unfold getb. rewrite decide_True by lia. fold q. destruct (lookup_lt_is_Some_2 bs1 q Hl) as [b Hb]. rewrite Hb. cbn [fmap option_fmap option_map option_bind mbind].
  assert (Z.land n 7 = n mod 8) as Hr by (apply (land_low n 3); lia). assert (Z.shiftr n 3 = n / 8) as Hs by (apply Z.shiftr_div_pow2; lia). pose proof (Z.mod_pos_bound n 8) as Hm. pose proof (Z.div_mod n 8) as Hdm.
  rewrite Hr. set (r := Z.to_nat (n mod 8)). set (bit := 7 - n mod 8). fold (changed_byte (b2z b) bit on). set (v := changed_byte (b2z b) bit on).
  assert (setb bs1 (Z.shiftr n 3) v = Some (<[q := z2b v]> bs1)) as ->.
  { unfold setb, mem_write. rewrite decide_True by (cbn [length]; lia). fold q. f_equal. rewrite insert_take_drop by done. cbn [length app]. do 3 f_equal. lia. }
  cbn [option_bind mbind]. intros [= <- <-].
  assert (forall j : nat, (j < 8)%nat -> Z.testbit (b2z (z2b v)) (7 - Z.of_nat j) = (if 7 - Z.of_nat j =? bit then on =? 1 else Z.testbit (b2z b) (7 - Z.of_nat j)) /\ negb (bit_of (b2z b) bit =? 0) = Z.testbit (b2z b) bit) as Hf.
  { intros j Hj. apply bit_facts; [apply b2z_range|unfold bit; lia|done|lia]. }
  split.
  - rewrite (string_bits_change bs1 q r b); [|unfold r; lia|done|].
    + destruct (Hf r) as [-> _]; [unfold r; lia|]. rewrite (proj2 (Z.eqb_eq _ _)) by (unfold bit, r; lia). unfold with_bit. f_equal; [unfold q, r; lia|].
      unfold bs1, zs. rewrite string_bits_app, string_bits_zeros. do 2 f_equal. lia.
    + intros j Hj Hne. destruct (Hf j Hj) as [-> _]. by rewrite (proj2 (Z.eqb_neq _ _)) by (unfold bit, r in *; lia).
  - destruct (Hf r) as [_ ->]; [unfold r; lia|]. replace (Z.to_nat n) with (8 * q + r)%nat by (unfold q, r; lia). rewrite string_bits_lookup by (unfold r; lia).
    unfold bs1 in Hb. apply lookup_app_Some in Hb as [Hb|[Hge Hb]].
    + rewrite Hb. cbn. f_equal. unfold bit, r. lia.
    + rewrite lookup_ge_None_2 by done. unfold zs in Hb. apply lookup_replicate in Hb as [-> _]. cbn [fmap option_fmap option_map default from_option]. unfold bit.
      change (b2z (z2b 0)) with 0. apply Z.testbit_0_l.
Qed.
