(* ===== verification/CommandTable.v ===== *)
(** CommandTable: the table of commands of [redis.c] and the flags computed
    from it. *)
From Stdlib Require Strings.String.
From S2P Require Import Prelude Util Server.
Import (notations) Corelib.Init.Byte.
Import (notations) Strings.String.

(** A row of the table: name, handler, arity and flags as characters. The
    columns that say which arguments are keys are left out. *)
Record tableRow := TableRow { row_name : list byte; row_proc : redisCommandProc; row_arity : Z; sflags : list byte }.

Definition redisCommandTable : list tableRow :=
  [TableRow (text "get") GetCommand 2 (text "r");
   TableRow (text "set") SetCommand (-3) (text "wm");
   TableRow (text "setnx") SetnxCommand 3 (text "wm");
   TableRow (text "setex") SetexCommand 4 (text "wm");
   TableRow (text "psetex") PsetexCommand 4 (text "wm");
   TableRow (text "append") AppendCommand 3 (text "wm");
   TableRow (text "strlen") StrlenCommand 2 (text "r");
   TableRow (text "del") DelCommand (-2) (text "w");
   TableRow (text "exists") ExistsCommand 2 (text "r");
   TableRow (text "setbit") SetbitCommand 4 (text "wm");
   TableRow (text "getbit") GetbitCommand 3 (text "r");
   TableRow (text "setrange") SetrangeCommand 4 (text "wm");
   TableRow (text "getrange") GetrangeCommand 4 (text "r");
   TableRow (text "substr") GetrangeCommand 4 (text "r");
   TableRow (text "incr") IncrCommand 2 (text "wm");
   TableRow (text "decr") DecrCommand 2 (text "wm");
   TableRow (text "mget") MgetCommand (-2) (text "r");
   TableRow (text "rpush") (OtherCommand (text "rpushCommand")) (-3) (text "wm");
   TableRow (text "lpush") (OtherCommand (text "lpushCommand")) (-3) (text "wm");
   TableRow (text "rpushx") (OtherCommand (text "rpushxCommand")) 3 (text "wm");
   TableRow (text "lpushx") (OtherCommand (text "lpushxCommand")) 3 (text "wm");
   TableRow (text "linsert") (OtherCommand (text "linsertCommand")) 5 (text "wm");
   TableRow (text "rpop") (OtherCommand (text "rpopCommand")) 2 (text "w");
   TableRow (text "lpop") (OtherCommand (text "lpopCommand")) 2 (text "w");
   TableRow (text "brpop") (OtherCommand (text "brpopCommand")) (-3) (text "ws");
   TableRow (text "brpoplpush") (OtherCommand (text "brpoplpushCommand")) 4 (text "wms");
   TableRow (text "blpop") (OtherCommand (text "blpopCommand")) (-3) (text "ws");
   TableRow (text "llen") (OtherCommand (text "llenCommand")) 2 (text "r");
   TableRow (text "lindex") (OtherCommand (text "lindexCommand")) 3 (text "r");
   TableRow (text "lset") (OtherCommand (text "lsetCommand")) 4 (text "wm");
   TableRow (text "lrange") (OtherCommand (text "lrangeCommand")) 4 (text "r");
   TableRow (text "ltrim") (OtherCommand (text "ltrimCommand")) 4 (text "w");
   TableRow (text "lrem") (OtherCommand (text "lremCommand")) 4 (text "w");
   TableRow (text "rpoplpush") (OtherCommand (text "rpoplpushCommand")) 3 (text "wm");
   TableRow (text "sadd") (OtherCommand (text "saddCommand")) (-3) (text "wm");
   TableRow (text "srem") (OtherCommand (text "sremCommand")) (-3) (text "w");
   TableRow (text "smove") (OtherCommand (text "smoveCommand")) 4 (text "w");
   TableRow (text "sismember") (OtherCommand (text "sismemberCommand")) 3 (text "r");
   TableRow (text "scard") (OtherCommand (text "scardCommand")) 2 (text "r");
   TableRow (text "spop") (OtherCommand (text "spopCommand")) 2 (text "wRs");
   TableRow (text "srandmember") (OtherCommand (text "srandmemberCommand")) (-2) (text "rR");
   TableRow (text "sinter") (OtherCommand (text "sinterCommand")) (-2) (text "rS");
   TableRow (text "sinterstore") (OtherCommand (text "sinterstoreCommand")) (-3) (text "wm");
   TableRow (text "sunion") (OtherCommand (text "sunionCommand")) (-2) (text "rS");
   TableRow (text "sunionstore") (OtherCommand (text "sunionstoreCommand")) (-3) (text "wm");
   TableRow (text "sdiff") (OtherCommand (text "sdiffCommand")) (-2) (text "rS");
   TableRow (text "sdiffstore") (OtherCommand (text "sdiffstoreCommand")) (-3) (text "wm");
   TableRow (text "smembers") (OtherCommand (text "sinterCommand")) 2 (text "rS");
   TableRow (text "zadd") (OtherCommand (text "zaddCommand")) (-4) (text "wm");
   TableRow (text "zincrby") (OtherCommand (text "zincrbyCommand")) 4 (text "wm");
   TableRow (text "zrem") (OtherCommand (text "zremCommand")) (-3) (text "w");
   TableRow (text "zremrangebyscore") (OtherCommand (text "zremrangebyscoreCommand")) 4 (text "w");
   TableRow (text "zremrangebyrank") (OtherCommand (text "zremrangebyrankCommand")) 4 (text "w");
   TableRow (text "zunionstore") (OtherCommand (text "zunionstoreCommand")) (-4) (text "wm");
   TableRow (text "zinterstore") (OtherCommand (text "zinterstoreCommand")) (-4) (text "wm");
   TableRow (text "zrange") (OtherCommand (text "zrangeCommand")) (-4) (text "r");
   TableRow (text "zrangebyscore") (OtherCommand (text "zrangebyscoreCommand")) (-4) (text "r");
   TableRow (text "zrevrangebyscore") (OtherCommand (text "zrevrangebyscoreCommand")) (-4) (text "r");
   TableRow (text "zcount") (OtherCommand (text "zcountCommand")) 4 (text "r");
   TableRow (text "zrevrange") (OtherCommand (text "zrevrangeCommand")) (-4) (text "r");
   TableRow (text "zcard") (OtherCommand (text "zcardCommand")) 2 (text "r");
   TableRow (text "zscore") (OtherCommand (text "zscoreCommand")) 3 (text "r");
   TableRow (text "zrank") (OtherCommand (text "zrankCommand")) 3 (text "r");
   TableRow (text "zrevrank") (OtherCommand (text "zrevrankCommand")) 3 (text "r");
   TableRow (text "hset") (OtherCommand (text "hsetCommand")) 4 (text "wm");
   TableRow (text "hsetnx") (OtherCommand (text "hsetnxCommand")) 4 (text "wm");
   TableRow (text "hget") (OtherCommand (text "hgetCommand")) 3 (text "r");
   TableRow (text "hmset") (OtherCommand (text "hmsetCommand")) (-4) (text "wm");
   TableRow (text "hmget") (OtherCommand (text "hmgetCommand")) (-3) (text "r");
   TableRow (text "hincrby") (OtherCommand (text "hincrbyCommand")) 4 (text "wm");
   TableRow (text "hincrbyfloat") (OtherCommand (text "hincrbyfloatCommand")) 4 (text "wm");
   TableRow (text "hdel") (OtherCommand (text "hdelCommand")) (-3) (text "w");
   TableRow (text "hlen") (OtherCommand (text "hlenCommand")) 2 (text "r");
   TableRow (text "hkeys") (OtherCommand (text "hkeysCommand")) 2 (text "rS");
   TableRow (text "hvals") (OtherCommand (text "hvalsCommand")) 2 (text "rS");
   TableRow (text "hgetall") (OtherCommand (text "hgetallCommand")) 2 (text "r");
   TableRow (text "hexists") (OtherCommand (text "hexistsCommand")) 3 (text "r");
   TableRow (text "incrby") IncrbyCommand 3 (text "wm");
   TableRow (text "decrby") DecrbyCommand 3 (text "wm");
   TableRow (text "incrbyfloat") (OtherCommand (text "incrbyfloatCommand")) 3 (text "wm");
   TableRow (text "getset") GetsetCommand 3 (text "wm");
   TableRow (text "mset") MsetCommand (-3) (text "wm");
   TableRow (text "msetnx") MsetnxCommand (-3) (text "wm");
   TableRow (text "randomkey") RandomkeyCommand 1 (text "rR");
   TableRow (text "select") SelectCommand 2 (text "rl");
   TableRow (text "move") MoveCommand 3 (text "w");
   TableRow (text "rename") RenameCommand 3 (text "w");
   TableRow (text "renamenx") RenamenxCommand 3 (text "w");
   TableRow (text "expire") ExpireCommand 3 (text "w");
   TableRow (text "expireat") ExpireatCommand 3 (text "w");
   TableRow (text "pexpire") PexpireCommand 3 (text "w");
   TableRow (text "pexpireat") PexpireatCommand 3 (text "w");
   TableRow (text "keys") KeysCommand 2 (text "rS");
   TableRow (text "dbsize") DbsizeCommand 1 (text "r");
   TableRow (text "auth") AuthCommand 2 (text "rsl");
   TableRow (text "ping") (OtherCommand (text "pingCommand")) 1 (text "r");
   TableRow (text "echo") (OtherCommand (text "echoCommand")) 2 (text "r");
   TableRow (text "save") (OtherCommand (text "saveCommand")) 1 (text "ars");
   TableRow (text "bgsave") (OtherCommand (text "bgsaveCommand")) 1 (text "ar");
   TableRow (text "bgrewriteaof") (OtherCommand (text "bgrewriteaofCommand")) 1 (text "ar");
   TableRow (text "shutdown") ShutdownCommand (-1) (text "ar");
   TableRow (text "lastsave") (OtherCommand (text "lastsaveCommand")) 1 (text "rR");
   TableRow (text "type") TypeCommand 2 (text "r");
   TableRow (text "multi") MultiCommand 1 (text "rs");
   TableRow (text "exec") ExecCommand 1 (text "sM");
   TableRow (text "discard") DiscardCommand 1 (text "rs");
   TableRow (text "sync") (OtherCommand (text "syncCommand")) 1 (text "ars");
   TableRow (text "replconf") (OtherCommand (text "replconfCommand")) (-1) (text "ars");
   TableRow (text "flushdb") FlushdbCommand 1 (text "w");
   TableRow (text "flushall") FlushallCommand 1 (text "w");
   TableRow (text "sort") (OtherCommand (text "sortCommand")) (-2) (text "wm");
   TableRow (text "info") (OtherCommand (text "infoCommand")) (-1) (text "rlt");
   TableRow (text "monitor") (OtherCommand (text "monitorCommand")) 1 (text "ars");
   TableRow (text "ttl") TtlCommand 2 (text "r");
   TableRow (text "pttl") PttlCommand 2 (text "r");
   TableRow (text "persist") PersistCommand 2 (text "w");
   TableRow (text "slaveof") (OtherCommand (text "slaveofCommand")) 3 (text "ast");
   TableRow (text "debug") (OtherCommand (text "debugCommand")) (-2) (text "as");
   TableRow (text "config") (OtherCommand (text "configCommand")) (-2) (text "ar");
   TableRow (text "subscribe") SubscribeCommand (-2) (text "rpslt");
   TableRow (text "unsubscribe") UnsubscribeCommand (-1) (text "rpslt");
   TableRow (text "psubscribe") PsubscribeCommand (-2) (text "rpslt");
   TableRow (text "punsubscribe") PunsubscribeCommand (-1) (text "rpslt");
   TableRow (text "publish") (OtherCommand (text "publishCommand")) 3 (text "pfltr");
   TableRow (text "watch") WatchCommand (-2) (text "rs");
   TableRow (text "unwatch") UnwatchCommand 1 (text "rs");
   TableRow (text "restore") (OtherCommand (text "restoreCommand")) 4 (text "awm");
   TableRow (text "migrate") (OtherCommand (text "migrateCommand")) 6 (text "aw");
   TableRow (text "dump") (OtherCommand (text "dumpCommand")) 2 (text "ar");
   TableRow (text "object") (OtherCommand (text "objectCommand")) (-2) (text "r");
   TableRow (text "client") (OtherCommand (text "clientCommand")) (-2) (text "ar");
   TableRow (text "eval") (OtherCommand (text "evalCommand")) (-3) (text "s");
   TableRow (text "evalsha") (OtherCommand (text "evalShaCommand")) (-3) (text "s");
   TableRow (text "slowlog") (OtherCommand (text "slowlogCommand")) (-2) (text "r");
   TableRow (text "script") ScriptCommand (-2) (text "ras");
   TableRow (text "time") (OtherCommand (text "timeCommand")) 1 (text "rR");
   TableRow (text "bitop") BitopCommand (-4) (text "wm");
   TableRow (text "bitcount") BitcountCommand (-2) (text "r")].

(** The flag of a character; another one is a panic. *)
Definition flag_of (f : byte) : option Z :=
  if bool_decide (f = "w"%byte) then Some REDIS_CMD_WRITE
  else if bool_decide (f = "r"%byte) then Some REDIS_CMD_READONLY
  else if bool_decide (f = "m"%byte) then Some REDIS_CMD_DENYOOM
  else if bool_decide (f = "a"%byte) then Some REDIS_CMD_ADMIN
  else if bool_decide (f = "p"%byte) then Some REDIS_CMD_PUBSUB
  else if bool_decide (f = "f"%byte) then Some REDIS_CMD_FORCE_REPLICATION
  else if bool_decide (f = "s"%byte) then Some REDIS_CMD_NOSCRIPT
  else if bool_decide (f = "R"%byte) then Some REDIS_CMD_RANDOM
  else if bool_decide (f = "S"%byte) then Some REDIS_CMD_SORT_FOR_SCRIPT
  else if bool_decide (f = "l"%byte) then Some REDIS_CMD_LOADING
  else if bool_decide (f = "t"%byte) then Some REDIS_CMD_STALE
  else if bool_decide (f = "M"%byte) then Some REDIS_CMD_SKIP_MONITOR
  else None.

Fixpoint flags_of (fs : list byte) (flags : Z) : option Z :=
  match fs with
  | [] => Some flags
  | f :: fs => x ← flag_of f; flags_of fs (Z.lor flags x)
  end.

(** The entries, in the order of the table; adding a name that is there is
    refused by an assertion. *)
Fixpoint populate (rows : list tableRow) (cmds : list redisCommand) : option (list redisCommand) :=
  match rows with
  | [] => Some cmds
  | r :: rows =>
    f ← flags_of (sflags r) 0;
    if existsb (fun x => strcaseeq (name x) (row_name r)) cmds then None
    else populate rows (cmds ++ [RedisCommand (row_name r) (row_proc r) (row_arity r) f])
  end.
Definition populateCommandTable : option (list redisCommand) := populate redisCommandTable [].
