(* ===== verification/Multi.v ===== *)
(** Multi: transactions and watched keys ([multi.c]), and how a command is
    refused, queued or called and propagated ([processCommand] and [call] of
    [redis.c]). *)
From Stdlib Require Strings.String.
From S2P Require Import Prelude Util Sds Objects Server Db Evict Strings Bitops.
From S2P Require Reply ReplySpec Request.
Import (notations) Corelib.Init.Byte.
Import (notations) Strings.String.

Definition REDIS_MULTI : Z := Request.REDIS_MULTI.
Definition REDIS_MASTER : Z := Reply.REDIS_MASTER.
Definition REDIS_CLOSE_AFTER_REPLY : Z := Request.REDIS_CLOSE_AFTER_REPLY.

Section Multi.
Context {V : Type} `{E : Rest V}.
#[local] Abbreviation M := (M V).
Implicit Types (i : cid) (d : nat) (k : key).

(** ** The state of a transaction *)

Definition initClientMultiState i : M unit := update i (fun c => set_mstate c []).

Definition queueMultiCommand i : M unit :=
  update i (fun c => set_mstate c (mstate c ++ [MultiCmd (argv c) (cmd c)])).

Definition watchForKey i k : M unit :=
  c ← get_client i;
  if existsb (fun wk => bool_decide (wk_db wk = db c) && bool_decide (k = wk_key wk)) (watched c) then mret tt
  else
    x ← get_db (db c);
    let clients := default [] (watched_keys x !! k) in
    set_db (db c) (RedisDb (dict x) (expires x) (<[k := clients ++ [i]]> (watched_keys x))) ;;
    update i (fun c => set_watched c (watched c ++ [WatchedKey k (db c)])).

(** One key of the client's list: the client must be on the key's list. *)
Definition unwatch_key i (wk : watchedKey) : M unit :=
  x ← get_db (wk_db wk);
  clients ← opt (watched_keys x !! wk_key wk);
  clients ← opt (Reply.del_client i clients);
  set_db (wk_db wk) (RedisDb (dict x) (expires x)
    (if bool_decide (clients = []) then delete (wk_key wk) (watched_keys x) else <[wk_key wk := clients]> (watched_keys x))) ;;
  update i (fun c => set_watched c (drop 1 (watched c))).
Definition unwatchAllKeys i : M unit :=
  c ← get_client i;
  each (unwatch_key i) (watched c).

Definition discardTransaction i : M unit :=
  initClientMultiState i ;;
  lower i (Z.lor (Z.lor REDIS_MULTI REDIS_DIRTY_CAS) REDIS_DIRTY_EXEC) ;;
  unwatchAllKeys i.

Definition flagTransaction i : M unit :=
  c ← get_client i;
  if has (flags c) REDIS_MULTI then raise i REDIS_DIRTY_EXEC else mret tt.

Definition multiCommand i : M unit :=
  c ← get_client i;
  if has (flags c) REDIS_MULTI then addReplyError i (text "MULTI calls can not be nested")
  else raise i REDIS_MULTI ;; addReply i Reply.ok.

Definition discardCommand i : M unit :=
  c ← get_client i;
  if negb (has (flags c) REDIS_MULTI) then addReplyError i (text "DISCARD without MULTI")
  else discardTransaction i ;; addReply i Reply.ok.

Definition watchCommand i : M unit :=
  c ← get_client i;
  if has (flags c) REDIS_MULTI then addReplyError i (text "WATCH inside MULTI is not allowed")
  else each (watchForKey i) (drop 1 (argv c)) ;; addReply i Reply.ok.

Definition unwatchCommand i : M unit :=
  unwatchAllKeys i ;; lower i REDIS_DIRTY_CAS ;; addReply i Reply.ok.

Definition execCommandPropagateMulti i : M unit :=
  d ← client_db i;
  propagate d [text "MULTI"] (Z.lor REDIS_PROPAGATE_AOF REDIS_PROPAGATE_REPL).

(** The loop over the queue, from [j]; the result tells whether [MULTI] was
    propagated. *)
Fixpoint exec_loop (call : cid -> Z -> M unit) (fuel : nat) i (j : nat) (must_propagate : bool) : M bool :=
  match fuel with
  | O => fail
  | S fuel =>
    c ← get_client i;
    match mstate c !! j with
    | None => mret must_propagate
    | Some mc =>
      set_client i (set_command c (mc_argv mc) (mc_cmd mc)) ;;
      x ← opt (mc_cmd mc);
      let first := negb must_propagate && negb (has (cmd_flags x) REDIS_CMD_READONLY) in
      (if first then execCommandPropagateMulti i else mret tt) ;;
      call i REDIS_CALL_FULL ;;
      update i (fun c => set_mstate c (<[j := MultiCmd (argv c) (cmd c)]> (mstate c))) ;;
      exec_loop call fuel i (S j) (must_propagate || first)
    end
  end.

(** Without the clients in monitor mode. *)
Definition execCommand (call : cid -> Z -> M unit) i : M unit :=
  c ← get_client i;
  if negb (has (flags c) REDIS_MULTI) then addReplyError i (text "EXEC without MULTI")
  else if has (flags c) (Z.lor REDIS_DIRTY_CAS REDIS_DIRTY_EXEC) then
    addReply i (if has (flags c) REDIS_DIRTY_EXEC then Reply.execaborterr else Reply.nullmultibulk) ;;
    discardTransaction i
  else
    unwatchAllKeys i ;;
    add_reply i (ReplySpec.CMultiBulkLen (Z.of_nat (length (mstate c)))) ;;
    must_propagate ← exec_loop call (S (length (mstate c))) i 0 false;
    update i (fun c' => set_command c' (argv c) (cmd c)) ;;
    discardTransaction i ;;
    (if must_propagate : bool then add_dirty 1 else mret tt).

(** ** Calling a command *)

Definition run_other (p : redisCommandProc) i : M unit :=
  c ← get_client i;
  s ← get;
  let o := other p (conf s) c (data_of (dbs s)) in
  put (with_dirty (with_dbs s (with_data (dbs s) (o_data o))) (o_dirty o (dirty s))) ;;
  each (fun wk => signalModifiedKey (wk_db wk) (wk_key wk)) (o_touched o) ;;
  each (add_reply i) (o_replies o) ;;
  update i (fun c => set_command (set_db_index (set_access c (o_auth o) (o_subs o)) (o_db o)) (o_argv o) (o_cmd o)).

Definition run_proc (call : cid -> Z -> M unit) (p : redisCommandProc) i : M unit :=
  match p with
  | DelCommand => delCommand i
  | ExistsCommand => existsCommand i
  | RandomkeyCommand => randomkeyCommand i
  | SelectCommand => selectCommand i
  | MoveCommand => moveCommand i
  | RenameCommand => renameCommand i
  | RenamenxCommand => renamenxCommand i
  | ExpireCommand => expireCommand i
  | ExpireatCommand => expireatCommand i
  | PexpireCommand => pexpireCommand i
  | PexpireatCommand => pexpireatCommand i
  | KeysCommand => keysCommand i
  | DbsizeCommand => dbsizeCommand i
  | TypeCommand => typeCommand i
  | FlushdbCommand => flushdbCommand i
  | FlushallCommand => flushallCommand i
  | TtlCommand => ttlCommand i
  | PttlCommand => pttlCommand i
  | PersistCommand => persistCommand i
  | GetCommand => getCommand i
  | SetCommand => setCommand i
  | SetnxCommand => setnxCommand i
  | SetexCommand => setexCommand i
  | PsetexCommand => psetexCommand i
  | AppendCommand => appendCommand i
  | StrlenCommand => strlenCommand i
  | SetrangeCommand => setrangeCommand i
  | GetrangeCommand => getrangeCommand i
  | IncrCommand => incrCommand i
  | DecrCommand => decrCommand i
  | IncrbyCommand => incrbyCommand i
  | DecrbyCommand => decrbyCommand i
  | MgetCommand => mgetCommand i
  | GetsetCommand => getsetCommand i
  | MsetCommand => msetCommand i
  | MsetnxCommand => msetnxCommand i
  | SetbitCommand => setbitCommand i
  | GetbitCommand => getbitCommand i
  | BitopCommand => bitopCommand i
  | BitcountCommand => bitcountCommand i
  | MultiCommand => multiCommand i
  | ExecCommand => execCommand call i
  | DiscardCommand => discardCommand i
  | WatchCommand => watchCommand i
  | UnwatchCommand => unwatchCommand i
  | _ => run_other p i
  end.

(** The flags a command is propagated with. *)
Definition propagate_flags (x : redisCommand) (dirty : Z) : Z :=
  let flags := REDIS_PROPAGATE_NONE in
  let flags := if has (cmd_flags x) REDIS_CMD_FORCE_REPLICATION then Z.lor flags REDIS_PROPAGATE_REPL else flags in
  if negb (dirty =? 0) then Z.lor flags (Z.lor REDIS_PROPAGATE_REPL REDIS_PROPAGATE_AOF) else flags.

(** Without monitors, the slow log and statistics; nothing uses
    [alsoPropagate]. Calls nest once, for the commands of a transaction. *)
Fixpoint call (depth : nat) i (flags : Z) : M unit :=
  match depth with
  | O => fail
  | S depth =>
    s0 ← get;
    c ← get_client i;
    x ← opt (cmd c);
    run_proc (call depth) (proc x) i ;;
    s ← get;
    c ← get_client i;
    x ← opt (cmd c);
    if has flags REDIS_CALL_PROPAGATE then
      let flags := propagate_flags x (dirty s - dirty s0) in
      if negb (flags =? REDIS_PROPAGATE_NONE) then propagate (db c) (argv c) flags else mret tt
    else mret tt
  end.

(** ** Processing a command *)

Definition refuse i (answer : M unit) : M bool := flagTransaction i ;; answer ;; mret true.
Definition refuse_only (answer : M unit) : M bool := answer ;; mret true.

Definition isSubscribeCommand (p : redisCommandProc) : bool :=
  bool_decide (p = SubscribeCommand) || bool_decide (p = UnsubscribeCommand) ||
  bool_decide (p = PsubscribeCommand) || bool_decide (p = PunsubscribeCommand).

(** [argc == 2 && tolower(argv[1][0]) == ch] *)
Definition first_letter (a : list key) (ch : byte) : bool :=
  match a with
  | [_; k] => tolower (b2z (default (z2b 0) ((k ++ [z2b 0]) !! 0%nat))) =? b2z ch
  | _ => false
  end.
Definition slow_script_allows (x : redisCommand) (a : list key) : bool :=
  bool_decide (proc x = AuthCommand) ||
  (bool_decide (proc x = ShutdownCommand) && first_letter a "n") ||
  (bool_decide (proc x = ScriptCommand) && first_letter a "k").

(** The end of the function; serving the clients blocked on lists, after the
    call, is left out. *)
Definition exec_or_queue i (x : redisCommand) : M bool :=
  c ← get_client i;
  (if has (flags c) REDIS_MULTI && negb (bool_decide (proc x = ExecCommand)) && negb (bool_decide (proc x = DiscardCommand)) &&
      negb (bool_decide (proc x = MultiCommand)) && negb (bool_decide (proc x = WatchCommand)) then
     queueMultiCommand i ;; addReply i Reply.queued
   else call 2 i REDIS_CALL_FULL) ;;
  mret true.

(** [server.maxmemory]: whether memory could be freed. *)
Definition free_memory : M bool :=
  s ← get;
  if maxmemory (conf s) =? 0 then mret true else freeMemoryIfNeeded.

(** What follows the look up of the command. *)
Definition check_command i (x : redisCommand) : M bool :=
  c ← get_client i;
  let argc := Z.of_nat (length (argv c)) in
  let pr := proc x in
  if ((0 <? arity x) && negb (arity x =? argc)) || (argc <? - arity x) then
    refuse i (addReplyErrorFormat i (text "wrong number of arguments for '" ++ name x ++ text "' command"))
  else
  s ← get;
  if requirepass (conf s) && negb (authenticated c) && negb (bool_decide (pr = AuthCommand)) then
    refuse i (addReplyError i (text "operation not permitted"))
  else
  ok ← free_memory;
  if has (cmd_flags x) REDIS_CMD_DENYOOM && negb ok then refuse i (addReply i Reply.oomerr)
  else if stop_writes_on_bgsave_err (conf s) && (0 <? saveparamslen (conf s)) && lastbgsave_err (conf s) && has (cmd_flags x) REDIS_CMD_WRITE then
    refuse i (addReply i Reply.bgsaveerr)
  else if masterhost (conf s) && repl_slave_ro (conf s) && negb (has (flags c) REDIS_MASTER) && has (cmd_flags x) REDIS_CMD_WRITE then
    refuse_only (addReply i Reply.roslaveerr)
  else if (0 <? subscriptions c) && negb (isSubscribeCommand pr) then
    refuse_only (addReplyError i (text "only (P)SUBSCRIBE / (P)UNSUBSCRIBE / QUIT allowed in this context"))
  else if masterhost (conf s) && negb (repl_connected (conf s)) && negb (repl_serve_stale_data (conf s)) && negb (has (cmd_flags x) REDIS_CMD_STALE) then
    refuse i (addReply i Reply.masterdownerr)
  else if loading (conf s) && negb (has (cmd_flags x) REDIS_CMD_LOADING) then
    refuse_only (addReply i Reply.loadingerr)
  else if lua_timedout (conf s) && negb (slow_script_allows x (argv c)) then
    refuse i (addReply i Reply.slowscripterr)
  else exec_or_queue i x.

(** Whether the client goes on. *)
Definition processCommand i : M bool :=
  n ← arg i 0;
  if strcaseeq n (text "quit") then
    addReply i Reply.ok ;; raise i REDIS_CLOSE_AFTER_REPLY ;; mret false
  else
    let found := lookupCommand n in
    update i (fun c => set_command c (argv c) found) ;;
    match found with
    | None => refuse i (addReplyErrorFormat i (text "unknown command '" ++ cstr n ++ text "'"))
    | Some x => check_command i x
    end.

(** ** Clients that come and go *)

(** The databases when the server starts. *)
Definition initServer (dbnum : nat) (x : config) : server V := Server (replicate dbnum (RedisDb ∅ ∅ ∅)) [] ∅ 0 0 0 x [] [].

Definition createClient i : M unit :=
  s ← get;
  put (with_clients s (clients s ++ [i]) (<[i := Client 0 false [] None 0 [] [] 0 []]> (store s))).

Definition freeClient i : M unit :=
  unwatchAllKeys i ;;
  s ← get;
  cs ← opt (Reply.del_client i (clients s));
  put (with_clients s cs (delete i (store s))).

(** What happens to the server: a connection, a command with its arguments,
    its end; a change of what the configuration and replication decide. *)
Inductive event :=
  | EConnect i | ECommand i (argv : list key) | EClose i | EConfig (x : config).

Definition run_event (ev : event) : M unit :=
  match ev with
  | EConnect i => createClient i
  | ECommand i a => update i (fun c => set_command c a (cmd c)) ;; processCommand i ;; mret tt
  | EClose i => freeClient i
  | EConfig x => s ← get; put (with_conf s x)
  end.
Definition run_events (evs : list event) : M unit := each run_event evs.
End Multi.
