(* ===== verification/ServerProofs.v ===== *)
(** ServerProofs: reasoning about the monad of the server, the invariant of
    its state, what commands may change, the laws of the rest of the server,
    and the primitive operations on databases and clients. *)
From Stdlib Require Strings.String.
From S2P Require Import Prelude Util Sds Objects Server Db Evict Strings Bitops Multi.
From S2P Require Request Reply.
Import (notations) Strings.String.

(** ** Triples

    From a state with [P] the command does not fail and ends with [Q]. *)
Definition triple {V A} (P : server V -> Prop) (m : M V A) (Q : A -> server V -> Prop) : Prop :=
  forall s, P s -> exists a s', m s = Some (a, s') /\ Q a s'.

Section Triples.
Context {V : Type}.
Implicit Types (P : server V -> Prop).

Lemma triple_ret {A} P (a : A) (Q : A -> server V -> Prop) : (forall s, P s -> Q a s) -> triple P (mret a) Q.
Proof. intros H s Hs. exists a, s. split; [done|by apply H]. Qed.

Lemma triple_bind {A B} P (m : M V A) (f : A -> M V B) Q R : triple P m Q -> (forall a, triple (Q a) (f a) R) -> triple P (m ≫= f) R.
Proof.
  intros Hm Hf s Hs. destruct (Hm s Hs) as (a & s1 & E & H1). destruct (Hf a s1 H1) as (b & s2 & E2 & H2).
  exists b, s2. split; [|done]. unfold mbind, M_bind. by rewrite E.
Qed.

Lemma triple_conseq {A} P P' (m : M V A) (Q Q' : A -> server V -> Prop) :
  triple P m Q -> (forall s, P' s -> P s) -> (forall a s, Q a s -> Q' a s) -> triple P' m Q'.
Proof. intros H HP HQ s Hs. destruct (H s (HP s Hs)) as (a & s' & E & HQ'). exists a, s'. split; [done|by apply HQ]. Qed.

Lemma triple_pre {A} P (m : M V A) Q : (forall s, P s -> triple (fun s' => s' = s) m Q) -> triple P m Q.
Proof. intros H s Hs. by apply (H s Hs s). Qed.

Lemma triple_get P : triple P get (fun a s => a = s /\ P s).
Proof. intros s Hs. by exists s, s. Qed.

Lemma triple_put P s' (Q : unit -> server V -> Prop) : (forall s, P s -> Q tt s') -> triple P (put s') Q.
Proof. intros H s Hs. exists tt, s'. split; [done|by eapply H]. Qed.

Lemma triple_check P (b : bool) : (forall s, P s -> b = true) -> triple P (check b) (fun _ => P).
Proof. intros H s Hs. rewrite (H s Hs). by exists tt, s. Qed.

Lemma triple_opt {A} P (o : option A) (a : A) : (forall s, P s -> o = Some a) -> triple P (opt o) (fun b s => b = a /\ P s).
Proof. intros H s Hs. rewrite (H s Hs). by exists a, s. Qed.

Lemma triple_some {A} P (o : option A) : (forall s, P s -> is_Some o) -> triple P (opt o) (fun b s => o = Some b /\ P s).
Proof. intros H s Hs. destruct (H s Hs) as [a ->]. by exists a, s. Qed.

(** A loop keeps what each step keeps. *)
Lemma triple_each {A} (I : server V -> Prop) (f : A -> M V unit) l : (forall a, a ∈ l -> triple I (f a) (fun _ => I)) -> triple I (each f l) (fun _ => I).
Proof.
  induction l as [|a l IH]; intros H; [by apply triple_ret|]. apply (triple_bind _ _ _ (fun _ => I)); [apply H; by left|].
  intros _. apply IH. intros b Hb. apply H. by right.
Qed.

Lemma triple_assoc {A B C} P (m : M V A) (f : A -> M V B) (g : B -> M V C) Q : triple P ((m ≫= f) ≫= g) Q -> triple P (m ≫= fun a => f a ≫= g) Q.
Proof. intros H s Hs. destruct (H s Hs) as (c & s' & E & Hq). exists c, s'. split; [|done]. unfold mbind, M_bind in *. by destruct (m s) as [[a s1]|]. Qed.

Lemma triple_assoc_r {A B C} P (m : M V A) (f : A -> M V B) (g : B -> M V C) Q : triple P (m ≫= fun a => f a ≫= g) Q -> triple P ((m ≫= f) ≫= g) Q.
Proof. intros H s Hs. destruct (H s Hs) as (c & s' & E & Hq). exists c, s'. split; [|done]. unfold mbind, M_bind in *. by destruct (m s) as [[a s1]|]. Qed.

(** A fact that does not depend on the state. *)
Lemma triple_fact {A} (F : Prop) P (m : M V A) Q : (F -> triple P m Q) -> triple (fun s => F /\ P s) m Q.
Proof. intros H s [HF Hs]. by apply H. Qed.

Lemma triple_drop {A} (F : server V -> Prop) P (m : M V A) Q : triple P m Q -> triple (fun s => F s /\ P s) m Q.
Proof. intros H s [_ Hs]. by apply H. Qed.
End Triples.

Ltac bind lem := eapply triple_bind; [eapply lem|cbv beta].

(** What is said of a server may depend on which commands it is sent: a slave
    is not asked for a random key, since no key may be free of expiry; and
    whether keys are moved. *)
Class Mode := { may_be_slave : bool; may_move : bool }.

Section State.
Context {V : Type} `{E : Rest V} {mode : Mode}.
Implicit Types (s : server V) (i : cid) (c : client) (d : nat) (k : key) (wk : watchedKey) (x : redisDb V).

(** The value of a watched key. *)
Definition lookup s wk : option V := match dbs s !! wk_db wk with Some x => dict x !! wk_key wk | None => None end.
(** Whether the key has an expire, and whether keys may be evicted. *)
Definition time_of s wk : option Z := match dbs s !! wk_db wk with Some x => expires x !! wk_key wk | None => None end.
Definition mortal s wk : Prop := is_Some (time_of s wk).
Definition evicts s : Prop := maxmemory (conf s) <> 0.
Definition watching s i wk : Prop := exists c, store s !! i = Some c /\ wk ∈ watched c.
Definition listed s i wk : Prop := exists x l, dbs s !! wk_db wk = Some x /\ watched_keys x !! wk_key wk = Some l /\ i ∈ l.
Definition cas c : bool := has (flags c) REDIS_DIRTY_CAS.

(** The tables of watched keys agree with the lists of the clients. *)
Record watch_ok s : Prop := {
  wo_alive : forall i, i ∈ clients s <-> is_Some (store s !! i);
  wo_nodup : NoDup (clients s);
  wo_own : forall i c, store s !! i = Some c -> NoDup (watched c);
  wo_in : forall i wk, watching s i wk -> listed s i wk;
  wo_out : forall i wk, listed s i wk -> watching s i wk;
  wo_lists : forall d x k l, dbs s !! d = Some x -> watched_keys x !! k = Some l -> l <> [] /\ NoDup l }.

(** A key that expires exists, and its time is a time. *)
Definition time_ok (t : Z) : Prop := - 2 ^ 62 < t < 2 ^ 62.
Definition db_ok (x : redisDb V) : Prop := forall k t, expires x !! k = Some t -> is_Some (dict x !! k) /\ time_ok t.
Definition data_ok s : Prop := forall d x, dbs s !! d = Some x -> db_ok x.

(** The arguments a handler reads are there. *)
Definition least_args (p : redisCommandProc) : nat :=
  match p with
  | ExistsCommand | SelectCommand | KeysCommand | TypeCommand | TtlCommand | PttlCommand | PersistCommand
  | GetCommand | StrlenCommand | IncrCommand | DecrCommand | BitcountCommand => 2
  | MoveCommand | RenameCommand | RenamenxCommand | ExpireCommand | ExpireatCommand | PexpireCommand | PexpireatCommand
  | SetCommand | SetnxCommand | AppendCommand | IncrbyCommand | DecrbyCommand | GetsetCommand | GetbitCommand => 3
  | SetexCommand | PsetexCommand | SetrangeCommand | GetrangeCommand | SetbitCommand | BitopCommand => 4
  | _ => 1
  end.
(** A time to live that does not overflow when it is added to the clock, a
    pattern that does not run off its end, an offset that does not wrap, the
    end of a range that fits 32 bits, and a decrement that can be negated. *)
Definition small_time (k : key) : Prop := forall v, getLongLongFromObject (Some (arg_object k)) = Some (Some v) -> - 2 ^ 50 < v < 2 ^ 50.
Definition glob_safe (p : list byte) : Prop := forall k, is_Some (stringmatchlen (p ++ [z2b 0]) (Z.of_nat (length p)) (k ++ [z2b 0]) (Z.of_nat (length k)) false).
Definition number_below (k : key) (n : Z) : Prop := forall v, getLongLongFromObject (Some (arg_object k)) = Some (Some v) -> v < n.
Definition args_fit (p : redisCommandProc) (a : list key) : Prop :=
  match p with
  | ExpireCommand | ExpireatCommand | PexpireCommand | PexpireatCommand => forall k, a !! 2%nat = Some k -> small_time k
  | KeysCommand => forall k, a !! 1%nat = Some k -> glob_safe k
  | SetCommand => Forall small_time (drop 3 a)
  | SetexCommand | PsetexCommand => forall k, a !! 2%nat = Some k -> small_time k
  | SetrangeCommand => forall k v, a !! 2%nat = Some k -> a !! 3%nat = Some v -> number_below k (2 ^ 63 - Z.of_nat (length v))
  | GetrangeCommand => forall k, a !! 3%nat = Some k -> number_below k (2 ^ 32)
  | DecrbyCommand => forall k, a !! 2%nat = Some k -> getLongLongFromObject (Some (arg_object k)) <> Some (Some LLONG_MIN)
  | RandomkeyCommand => may_be_slave = false
  | MoveCommand => may_move = true
  | _ => True
  end.
Definition args_ok (p : redisCommandProc) (a : list key) : Prop := (least_args p <= length a)%nat /\ args_fit p a.

Definition queueable (p : redisCommandProc) : Prop := p <> ExecCommand /\ p <> DiscardCommand /\ p <> MultiCommand /\ p <> WatchCommand.
Definition queued_ok (mc : multiCmd) : Prop :=
  exists x : redisCommand, mc_cmd mc = Some x /\ queueable (proc x) /\ args_ok (proc x) (mc_argv mc).

Record inv s : Prop := {
  inv_watch : watch_ok s;
  inv_data : data_ok s;
  inv_some : (0 < length (dbs s))%nat;
  inv_mode : may_be_slave = false -> masterhost (conf s) = false;
  inv_db : forall i c, store s !! i = Some c -> (db c < length (dbs s))%nat;
  inv_queue : forall i c, store s !! i = Some c -> Forall queued_ok (mstate c) }.

(** ** What a command changes

    The lists of watched keys and of queued commands stay, but for those of
    the client [o]; a client with watched keys stays dirty; a command is
    rewritten to one that could be queued; and a value that is not of [K]
    stays, without a new expire, or is removed because the key expires or is
    evicted. *)
Definition current c : multiCmd := MultiCmd (argv c) (cmd c).
Definition client_kept c c' : Prop :=
  watched c' = watched c /\ mstate c' = mstate c /\ (watched c <> [] -> cas c = true -> cas c' = true) /\ (current c' = current c \/ queued_ok (current c')).

Definition value_kept s s' wk : Prop := lookup s' wk = lookup s wk /\ (mortal s' wk -> mortal s wk).
Definition value_gone s s' wk : Prop := lookup s' wk = None /\ (mortal s wk \/ evicts s).
Definition value_step s s' wk : Prop := value_kept s s' wk \/ value_gone s s' wk.

Record changes (o : option cid) (K : watchedKey -> Prop) s s' : Prop := {
  ch_clients : clients s' = clients s;
  ch_conf : conf s' = conf s;
  ch_len : length (dbs s') = length (dbs s);
  ch_alive : forall i, is_Some (store s !! i) <-> is_Some (store s' !! i);
  ch_kept : forall i c c', o <> Some i -> store s !! i = Some c -> store s' !! i = Some c' -> client_kept c c';
  ch_data : forall wk, K wk \/ value_step s s' wk }.

Lemma kept_refl c : client_kept c c. Proof. split_and!; auto. Qed.
Lemma kept_trans c1 c2 c3 : client_kept c1 c2 -> client_kept c2 c3 -> client_kept c1 c3.
Proof. intros (W1 & M1 & C1 & Q1) (W2 & M2 & C2 & Q2). split; [congruence|]. split; [congruence|]. split; [intros Hw Hc; apply C2; [congruence|by apply C1]|]. destruct Q2 as [ -> | ]; auto. Qed.

Lemma value_refl s s' wk : dbs s' = dbs s -> value_step s s' wk.
Proof. intros Hd. left. unfold value_kept, mortal, lookup, time_of. by rewrite Hd. Qed.
Lemma value_trans s1 s2 s3 wk : (evicts s2 -> evicts s1) -> value_step s1 s2 wk -> value_step s2 s3 wk -> value_step s1 s3 wk.
Proof.
  intros He [[L1 M1]|[L1 M1]] [[L2 M2]|[L2 M2]].
  - left. split; [congruence|auto].
  - right. split; [done|]. destruct M2; auto.
  - right. split; [congruence|done].
  - by right.
Qed.

Lemma changes_refl o K s : changes o K s s.
Proof. constructor; try done; [|intros wk; right; by apply value_refl]. intros i c c' _ E1 E2. assert (c' = c) as -> by congruence. apply kept_refl. Qed.
Lemma changes_trans o K s1 s2 s3 : changes o K s1 s2 -> changes o K s2 s3 -> changes o K s1 s3.
Proof.
  intros [C1 F1 L1 A1 K1 D1] [C2 F2 L2 A2 K2 D2]. constructor; [congruence|congruence|congruence|intros i; by rewrite A1|..].
  - intros i c c' Ho Hc Hc'. destruct (proj1 (A1 i)) as [c1 H1]; [by eexists|]. eapply kept_trans; [by eapply K1|by eapply K2].
  - intros wk. destruct (D2 wk) as [|H2]; [by left|]. destruct (D1 wk) as [|H1]; [by left|right]. eapply value_trans; [|done|done]. unfold evicts. by rewrite F1.
Qed.
Lemma changes_weaken o o' (K K' : watchedKey -> Prop) s s' : (o = None \/ o = o') -> (forall wk, K wk -> K' wk) -> changes o K s s' -> changes o' K' s s'.
Proof.
  intros Ho HK [C F L A Kp D]. constructor; try done.
  - intros i c c' Hi. apply Kp. destruct Ho as [ -> | -> ]; done.
  - intros wk. destruct (D wk) as [|]; auto.
Qed.

(** A state in which only the rest changed. *)
Definition same_core s s' : Prop := dbs s' = dbs s /\ clients s' = clients s /\ store s' = store s /\ conf s' = conf s.

Lemma core_inv s s' : same_core s s' -> inv s -> inv s'.
Proof.
  intros (Hd & Hc & Hs & Hf) [[A1 A2 A3 A4 A5 A6] D S W B Q]. unfold data_ok, watching, listed in *.
  constructor; [constructor|..]; rewrite ?Hd, ?Hc, ?Hs, ?Hf; unfold data_ok, watching, listed; rewrite ?Hd, ?Hs; done.
Qed.
Lemma core_changes o K s s' : same_core s s' -> changes o K s s'.
Proof.
  intros (Hd & Hc & Hs & Hf). constructor; rewrite ?Hd, ?Hc, ?Hs, ?Hf; try done.
  - intros i c c' _ E1 E2. assert (c' = c) as -> by congruence. apply kept_refl.
  - intros wk. right. by apply value_refl.
Qed.
End State.

(** ** The laws of the rest

    The clock reads times within a million years of the epoch; a random key
    is one of the dictionary's, and there is one unless it is empty; a handler
    that is not modelled keeps the expiry of existing keys only, signals the
    keys it writes, gives an expire to or deletes, removes others only when
    they expire or memory is limited (a script may evict), and rewrites its
    command to one that could be queued (this is not said of DEBUG RELOAD and
    DEBUG LOADAOF, which replace the data, nor of CONFIG SET maxmemory where
    memory was not limited: the change is an event of its own); a string
    object has a string; the arity of a command
    covers the arguments its handler reads; [DEL] is the command to delete. *)
Definition data_wf {V} (ds : data V) : Prop :=
  forall j m e, ds !! j = Some (m, e) -> forall (k : key) t, e !! k = Some t -> is_Some (m !! k) /\ time_ok t.
Definition value_in {V} (ds : data V) (wk : watchedKey) : option V :=
  match ds !! wk_db wk with Some (m, _) => m !! wk_key wk | None => None end.
Definition time_in {V} (ds : data V) (wk : watchedKey) : option Z :=
  match ds !! wk_db wk with Some (_, e) => e !! wk_key wk | None => None end.
(** But for the keys of [l], a value stays, without a new expire, or is removed
    when it had one or memory is limited. *)
Definition data_step {V} (limited : Prop) (ds es : data V) (l : list watchedKey) : Prop :=
  length es = length ds /\ data_wf es /\ forall wk, wk ∈ l \/
    value_in es wk = value_in ds wk /\ (is_Some (time_in es wk) -> is_Some (time_in ds wk)) \/
    value_in es wk = None /\ (is_Some (time_in ds wk) \/ limited).

(** An integer kept in an object fits 64 bits. *)
Definition string_wf (x : string_value) : Prop := match x with Raw _ => True | Int n => int64 n end.

Class RestOk (V : Type) `{E : Rest V} : Prop := {
  clock_ok n : 0 <= clock n < 2 ^ 50;
  random_in A n (m : gmap key A) k : random_key n m = Some k -> is_Some (m !! k);
  random_some A n (m : gmap key A) : m <> ∅ -> is_Some (random_key n m);
  other_ok p cf c ds : data_wf ds -> (db c < length ds)%nat -> let o := other p cf c ds in
    data_step (maxmemory cf <> 0) ds (o_data o) (o_touched o) /\ (o_db o < length ds)%nat /\
    (forall mode : Mode, queued_ok (current c) -> queued_ok (MultiCmd (o_argv o) (o_cmd o))) /\ Forall (fun wk => (wk_db wk < length ds)%nat) (o_touched o);
  string_type v : value_type v = REDIS_STRING <-> is_Some (as_string v);
  string_int v n : as_string v = Some (Int n) -> int64 n;
  string_ok x : string_wf x -> as_string (of_string x) = Some x;
  arity_ok x : x ∈ commands -> Z.of_nat (least_args (proc x)) <= (if 0 <? arity x then arity x else - arity x);
  del_ok : exists x, lookupCommandOrOriginal (text "DEL") = Some x /\ proc x = DelCommand }.

(** The functions of [db.c] keep the invariant, fail no assertion,
    and change no value but those they are to change. *)
Section Db.
Context {V : Type} `{E : Rest V} {mode : Mode}.
#[local] Abbreviation M := (M V).
#[local] Abbreviation server := (server V).
Implicit Types (s : server) (i : cid) (c : client) (d : nat) (k : key) (wk : watchedKey) (P : server -> Prop) (K : watchedKey -> Prop).

(** ** Mild changes: replies, flags and counters *)

Definition client_mild c c' : Prop := watched c' = watched c /\ mstate c' = mstate c /\ db c' = db c /\
  (watched c <> [] -> cas c = true -> cas c' = true) /\ (current c' = current c \/ queued_ok (current c')).

Record mild s s' : Prop := {
  mi_dbs : dbs s' = dbs s;
  mi_clients : clients s' = clients s;
  mi_conf : conf s' = conf s;
  mi_fwd : forall i c, store s !! i = Some c -> exists c', store s' !! i = Some c' /\ client_mild c c';
  mi_none : forall i, store s !! i = None -> store s' !! i = None }.

Definition closed P : Prop := forall s s', mild s s' -> P s -> P s'.

Lemma mild_bwd s s' i c' : mild s s' -> store s' !! i = Some c' -> exists c, store s !! i = Some c /\ client_mild c c'.
Proof.
  intros H Hc. destruct (store s !! i) as [c|] eqn:Es.
  - destruct (mi_fwd _ _ H i c Es) as (c2 & E2 & Hm). exists c. split; [done|]. by assert (c2 = c') as <- by congruence.
  - pose proof (mi_none _ _ H i Es). congruence.
Qed.

Lemma core_mild s s' : same_core s s' -> mild s s'.
Proof. intros (Hd & Hc & Hs & Hf). constructor; rewrite ?Hd, ?Hc, ?Hs, ?Hf; try done. intros i c Hi. exists c. split; [done|]. split_and!; auto. Qed.

Lemma mild_lookup s s' wk : mild s s' -> lookup s' wk = lookup s wk.
Proof. intros H. unfold lookup. by rewrite (mi_dbs _ _ H). Qed.

Lemma mild_mortal s s' wk : mild s s' -> (mortal s' wk <-> mortal s wk).
Proof. intros H. unfold mortal, time_of. by rewrite (mi_dbs _ _ H). Qed.

Lemma mild_watching s s' i wk : mild s s' -> (watching s' i wk <-> watching s i wk).
Proof.
  intros H. split; intros (c & Hc & Hw).
  - destruct (mild_bwd _ _ _ _ H Hc) as (c0 & H0 & Hm). exists c0. split; [done|]. by destruct Hm as (<- & _).
  - destruct (mi_fwd _ _ H i c Hc) as (c' & H' & Hm). exists c'. split; [done|]. by destruct Hm as (-> & _).
Qed.
Lemma mild_listed s s' i wk : mild s s' -> (listed s' i wk <-> listed s i wk).
Proof. intros H. unfold listed. by rewrite (mi_dbs _ _ H). Qed.

Lemma inv_closed : closed inv.
Proof.
  intros s s' H [[A1 A2 A3 A4 A5 A6] D S W B Q].
  assert (forall i c', store s' !! i = Some c' -> exists c, store s !! i = Some c /\ client_mild c c') as Hb by (intros i c'; by apply mild_bwd).
  constructor; [constructor|..]; unfold data_ok; rewrite ?(mi_dbs _ _ H), ?(mi_clients _ _ H), ?(mi_conf _ _ H); try done.
  - intros i. rewrite A1. split.
    + intros [c Hc]. destruct (mi_fwd _ _ H i c Hc) as (c' & -> & _). by eexists.
    + intros [c' Hc]. destruct (Hb i c' Hc) as (c & -> & _). by eexists.
  - intros i c' Hc. destruct (Hb i c' Hc) as (c & Hc0 & -> & _). by eapply A3.
  - intros i wk Hw. rewrite (mild_listed _ _ _ _ H). apply A4. by rewrite <-(mild_watching _ _ _ _ H).
  - intros i wk Hw. rewrite (mild_watching _ _ _ _ H). apply A5. by rewrite <-(mild_listed _ _ _ _ H).
  - intros i c' Hc. destruct (Hb i c' Hc) as (c & Hc0 & _ & _ & -> & _). by eapply B.
  - intros i c' Hc. destruct (Hb i c' Hc) as (c & Hc0 & _ & -> & _). by eapply Q.
Qed.

Lemma mild_changes o K s s' : mild s s' -> changes o K s s'.
Proof.
  intros H. constructor; [apply H|apply H|by rewrite (mi_dbs _ _ H)|..].
  - intros i. split; intros [c Hc].
    + destruct (mi_fwd _ _ H i c Hc) as (c' & -> & _). by eexists.
    + destruct (mild_bwd _ _ i c H Hc) as (c' & -> & _). by eexists.
  - intros i c c' _ Hc Hc'. destruct (mi_fwd _ _ H i c Hc) as (c2 & E2 & Hw & Hm & _ & Hf). assert (c2 = c') as <- by congruence. done.
  - intros wk. right. by apply value_refl, mi_dbs.
Qed.

Lemma changes_closed o K s0 : closed (changes o K s0).
Proof. intros s s' H Hc. eapply changes_trans; [exact Hc|by apply mild_changes]. Qed.

Lemma lookup_closed wk (F : option V -> Prop) : closed (fun s => F (lookup s wk)).
Proof. intros s s' H Hl. cbv beta in *. by rewrite (mild_lookup _ _ _ H). Qed.
Lemma mortal_closed wk : closed (fun s => mortal s wk).
Proof. intros s s' H. by apply mild_mortal. Qed.
Lemma alive_closed i : closed (fun s => is_Some (store s !! i)).
Proof. intros s s' H [c Hc]. destruct (mi_fwd _ _ H i c Hc) as (c' & -> & _). by eexists. Qed.
Lemma len_closed (F : nat -> Prop) : closed (fun s => F (length (dbs s))).
Proof. intros s s' H Hl. by rewrite (mi_dbs _ _ H). Qed.
Lemma closed_and P P' : closed P -> closed P' -> closed (fun s => P s /\ P' s).
Proof. intros H1 H2 s s' Hm [? ?]. split; [by eapply H1|by eapply H2]. Qed.
Lemma closed_fact (F : Prop) : closed (fun _ => F). Proof. by intros s s' _. Qed.

(** Operations that are mild keep what is closed. *)
Lemma update_closed P i (f : client -> client) : closed P -> (forall s, P s -> is_Some (store s !! i)) -> (forall c, client_mild c (f c)) ->
  triple P (update i f) (fun _ => P).
Proof.
  intros HP Hi Hf s Hs. destruct (Hi s Hs) as [c Hc]. unfold update, get_client, set_client, mbind, M_bind. rewrite Hc.
  eexists _, _. split; [done|]. eapply HP; [|exact Hs]. constructor; try done; cbn [store with_clients].
  - intros j cj Hj. destruct (decide (j = i)) as [->|Hne].
    + exists (f c). rewrite lookup_insert_eq. split; [done|]. assert (cj = c) as -> by congruence. apply Hf.
    + exists cj. rewrite lookup_insert_ne by done. split; [done|]. split_and!; auto.
  - intros j Hj. destruct (decide (j = i)) as [->|Hne]; [congruence|by rewrite lookup_insert_ne].
Qed.

Lemma mild_same c c' : watched c' = watched c -> mstate c' = mstate c -> db c' = db c -> flags c' = flags c ->
  current c' = current c \/ queued_ok (current c') -> client_mild c c'.
Proof. intros ? ? ? Hf Hc. unfold client_mild, cas. by rewrite Hf. Qed.

Lemma reply_closed P i r : closed P -> (forall s, P s -> is_Some (store s !! i)) -> triple P (add_reply i r) (fun _ => P).
Proof. intros HP Hi. apply update_closed; [done|done|]. intros c. apply mild_same; auto. Qed.

Lemma core_closed P (m : M unit) : closed P -> (forall s, exists s', m s = Some (tt, s') /\ same_core s s') -> triple P m (fun _ => P).
Proof. intros HP Hm s Hs. destruct (Hm s) as (s' & E' & Hc). exists tt, s'. split; [done|]. eapply HP; [by apply core_mild|done]. Qed.

Lemma dirty_closed P n : closed P -> triple P (add_dirty n) (fun _ => P).
Proof. intros HP. apply core_closed; [done|]. intros s. by eexists. Qed.
Lemma mstime_closed P : closed P -> triple P mstime (fun _ => P).
Proof. intros HP s Hs. eexists _, _. split; [reflexivity|]. eapply HP; [|exact Hs]. by apply core_mild. Qed.
Lemma get_closed P : triple P get (fun a s => a = s /\ P s). Proof. apply triple_get. Qed.
Lemma feedAof_closed P d a : closed P -> triple P (feedAppendOnlyFile d a) (fun _ => P).
Proof. intros HP. apply core_closed; [done|]. intros s. by eexists. Qed.
Lemma feedRepl_closed P d a : closed P -> triple P (replicationFeedSlaves d a) (fun _ => P).
Proof. intros HP. apply core_closed; [done|]. intros s. by eexists. Qed.
Lemma propagateExpire_closed P d k : closed P -> triple P (propagateExpire d k) (fun _ => P).
Proof.
  intros HP. apply core_closed; [done|]. intros s. unfold propagateExpire, get, mbind, M_bind.
  destruct (aof_on (conf s)), (has_slaves (conf s)); by eexists.
Qed.
Lemma propagate_core d a f s : exists s', propagate d a f s = Some (tt, s') /\ same_core s s'.
Proof. unfold propagate, get, mbind, M_bind. destruct (aof_on (conf s) && _), (has _ _ && _); by eexists. Qed.
Lemma propagate_closed P d a f : closed P -> triple P (propagate d a f) (fun _ => P).
Proof. intros HP. apply core_closed; [done|]. apply propagate_core. Qed.

Lemma mask_cas c f : client_mild c (set_cflags c (Z.lor (flags c) f)).
Proof.
  unfold client_mild, cas, has. split_and!; try done; [|by left]. cbn [flags set_cflags]. rewrite !negb_true_iff, !Z.eqb_neq, Z.land_lor_distr_l.
  intros _ Hn E0. apply Z.lor_eq_0_iff in E0 as [E0 _]. done.
Qed.
Lemma raise_closed P i f : closed P -> (forall s, P s -> is_Some (store s !! i)) -> triple P (raise i f) (fun _ => P).
Proof. intros HP Hi. apply update_closed; [done|done|]. intros c. apply mask_cas. Qed.
Lemma argv_closed P i a x : closed P -> (forall s, P s -> is_Some (store s !! i)) -> queued_ok (MultiCmd a x) -> triple P (update i (fun c => set_command c a x)) (fun _ => P).
Proof. intros HP Hi Hq. apply update_closed; [done|done|]. intros c. apply mild_same; auto. Qed.
(** ** Touching watched keys *)

Definition dirtied i s : Prop := forall c, store s !! i = Some c -> watched c <> [] -> cas c = true.
Lemma dirtied_closed i : closed (dirtied i).
Proof. intros s s' H Hd c Hc Hw. destruct (mild_bwd _ _ i c H Hc) as (c0 & H0 & E0 & _ & _ & Hf & _). rewrite E0 in Hw. by apply Hf, Hd. Qed.

(** All who watch [wk] are dirty. *)
Definition marked wk s : Prop := forall i, watching s i wk -> dirtied i s.
Lemma marked_closed wk : closed (marked wk).
Proof. intros s s' H Hd i Hw. apply (dirtied_closed i s s' H). apply Hd. by apply (mild_watching _ _ _ _ H). Qed.

Lemma raise_cas P i : closed P -> (forall s, P s -> is_Some (store s !! i)) -> triple P (raise i REDIS_DIRTY_CAS) (fun _ s => P s /\ dirtied i s).
Proof.
  intros HP Hi s Hs. destruct (raise_closed P i REDIS_DIRTY_CAS HP Hi s Hs) as (a & s' & Er & Hs'). exists a, s'. split; [done|]. split; [done|].
  intros c Hc _. destruct (Hi s Hs) as [c0 H0]. unfold raise, update, get_client, set_client, mbind, M_bind in Er. rewrite H0 in Er. injection Er as _ <-.
  cbn [store with_clients] in Hc. rewrite lookup_insert_eq in Hc. injection Hc as <-. unfold cas, has. cbn [flags set_cflags].
  apply negb_true_iff, Z.eqb_neq. rewrite Z.land_lor_distr_l, Z.land_diag. intros E0. by apply Z.lor_eq_0_iff in E0 as [_ ?].
Qed.

(** A loop collects what each of its steps makes true, when small changes keep
    it. *)
Lemma triple_collect {A} (F : A -> server -> Prop) (f : A -> M unit) l P : (forall a, closed (F a)) -> closed P ->
  (forall a R, a ∈ l -> closed R -> (forall s, R s -> P s) -> triple R (f a) (fun _ s => R s /\ F a s)) ->
  triple P (each f l) (fun _ s => P s /\ forall a, a ∈ l -> F a s).
Proof.
  intros HF HP Hf. assert (forall l' R, (forall a, a ∈ l' -> a ∈ l) -> closed R -> (forall s, R s -> P s) ->
    triple R (each f l') (fun _ s => R s /\ forall a, a ∈ l' -> F a s)) as H; [|by apply H].
  intros l'. induction l' as [|a l' IH]; intros R Hl HR HRP.
  - apply triple_ret. intros s Hs. split; [done|]. by intros a ?%elem_of_nil.
  - cbn [each]. eapply triple_bind; [apply (Hf a R); [apply Hl; by left|done|done]|cbv beta; intros _].
    eapply triple_conseq; [apply (IH (fun s => R s /\ F a s))|done|].
    + intros b Hb. apply Hl. by right.
    + by apply closed_and.
    + intros s [Hs _]. by apply HRP.
    + intros _ s [[Hs Ha] Hall]. split; [done|]. by intros b [-> |Hb]%elem_of_cons; [|apply Hall].
Qed.

Lemma raise_each P l : closed P -> (forall s i, P s -> i ∈ l -> is_Some (store s !! i)) ->
  triple P (each (fun i => raise i REDIS_DIRTY_CAS) l) (fun _ s => P s /\ forall i, i ∈ l -> dirtied i s).
Proof.
  intros HP Hi. apply triple_collect; [apply dirtied_closed|done|]. intros i R Hl HR HRP. apply raise_cas; [done|].
  intros s Hs. apply (Hi s i); [by apply HRP|done].
Qed.

Lemma touch_spec P d k : closed P -> (forall s, P s -> inv s /\ (d < length (dbs s))%nat) ->
  triple P (touchWatchedKey d k) (fun _ s => P s /\ marked (WatchedKey k d) s).
Proof.
  intros HP Hd s Hs. destruct (Hd s Hs) as [Hi Hl]. destruct (lookup_lt_is_Some_2 _ _ Hl) as [x Hx].
  unfold touchWatchedKey. unfold mbind at 1, M_bind, get_db. rewrite Hx.
  assert (watched_keys x !! k = None -> marked (WatchedKey k d) s) as Hnone.
  { intros Hn i Hw. apply (wo_in _ (inv_watch _ Hi)) in Hw as (y & l & Hy & Hk & _). cbn in Hy, Hk. congruence. }
  destruct (Nat.eqb_spec (size (watched_keys x)) 0) as [H0|H0].
  - exists tt, s. split; [done|]. split; [done|]. apply Hnone. apply map_size_empty_inv in H0. by rewrite H0.
  - destruct (watched_keys x !! k) as [l|] eqn:Hk; [|exists tt, s; split; [done|]; split; [done|by apply Hnone]].
    destruct (raise_each (fun s' => P s' /\ forall i, watching s' i (WatchedKey k d) <-> i ∈ l) l) with (s := s) as ([] & s' & Er & (HP' & Hw) & Hl').
    + intros s1 s2 H12 [H1 H2]. split; [by eapply HP|]. intros i. by rewrite (mild_watching _ _ _ _ H12).
    + intros s1 i [_ H1] Hi1. apply H1 in Hi1 as (c & -> & _). by eexists.
    + split; [done|]. intros i. split.
      * intros Hw. apply (wo_in _ (inv_watch _ Hi)) in Hw as (y & l' & Hy & Hk' & Hin). cbn in Hy, Hk'. assert (y = x) as -> by congruence. by assert (l' = l) as <- by congruence.
      * intros Hin. apply (wo_out _ (inv_watch _ Hi)). by exists x, l.
    + exists tt, s'. split; [done|]. split; [done|]. intros i Hi'. apply Hl'. by apply Hw.
Qed.

(** On a flush, who watches a key that is there is dirty. *)
Lemma get_db_spec P d : (forall s, P s -> (d < length (dbs s))%nat) -> triple P (get_db d) (fun x s => dbs s !! d = Some x /\ P s).
Proof. intros Hd s Hs. destruct (lookup_lt_is_Some_2 _ _ (Hd s Hs)) as [x Hx]. exists x, s. unfold get_db. by rewrite Hx. Qed.
Lemma get_client_spec P i : (forall s, P s -> is_Some (store s !! i)) -> triple P (get_client i) (fun c s => store s !! i = Some c /\ P s).
Proof. intros Hi s Hs. destruct (Hi s Hs) as [c Hc]. exists c, s. unfold get_client. by rewrite Hc. Qed.

Definition flushed (dbid : option nat) wk : Prop := dbid = None \/ dbid = Some (wk_db wk).
Lemma flush_spec P (dbid : option nat) : closed P -> (forall s, P s -> inv s) ->
  triple P (touchWatchedKeysOnFlush dbid) (fun _ s => P s /\ forall wk, flushed dbid wk -> lookup s wk <> None -> marked wk s).
Proof.
  intros HP Hinv. unfold touchWatchedKeysOnFlush. eapply triple_bind; [apply triple_get|cbv beta; intros s0].
  apply triple_pre. intros s1 [Es H1]. subst s1.
  set (F := fun i s => forall wk, flushed dbid wk -> lookup s wk <> None -> watching s i wk -> dirtied i s).
  assert (forall i, closed (F i)) as HF.
  { intros i s s' Hm Hs wk Hfl Hv Hw. apply (dirtied_closed i s s' Hm), (Hs wk); [done|by rewrite <-(mild_lookup _ _ _ Hm)|by rewrite <-(mild_watching _ _ _ _ Hm)]. }
  set (Q := fun s => P s /\ clients s = clients s0).
  assert (closed Q) as HQ by (intros s s' Hm [HPs Hc]; split; [by eapply HP|by rewrite (mi_clients _ _ Hm)]).
  eapply (triple_conseq Q); [apply (triple_collect F _ (clients s0) Q HF HQ)|intros s ->; done|].
  - intros i R Hi HR HRQ. eapply triple_bind; [apply get_client_spec|cbv beta; intros c].
    { intros s Hs. destruct (HRQ s Hs) as [HPs Hc]. apply (wo_alive _ (inv_watch _ (Hinv _ HPs))). by rewrite Hc. }
    set (G := fun wk s => flushed dbid wk -> lookup s wk <> None -> dirtied i s).
    assert (forall wk, closed (G wk)) as HG.
    { intros wk s s' Hm Hs Hfl Hv. apply (dirtied_closed i s s' Hm), Hs; [done|by rewrite <-(mild_lookup _ _ _ Hm)]. }
    set (R' := fun s => R s /\ forall wk, watching s i wk <-> wk ∈ watched c).
    assert (closed R') as HR'.
    { intros s s' Hm [HRs Hw]. split; [by eapply HR|]. intros wk. by rewrite (mild_watching _ _ _ _ Hm). }
    eapply (triple_conseq R'); [apply (triple_collect G _ (watched c) R' HG HR')| |].
    + intros wk T Hwk HT HTR. assert (forall s, T s -> is_Some (store s !! i) /\ (wk_db wk < length (dbs s))%nat) as Hthere.
      { intros s Hs. destruct (HTR s Hs) as [HRs Hw]. apply Hw in Hwk as Hi'. split; [destruct Hi' as (ci & -> & _); by eexists|].
        destruct (wo_in _ (inv_watch _ (Hinv _ (proj1 (HRQ s HRs)))) i wk Hi') as (x & l & Hx & _). by eapply lookup_lt_Some. }
      case_bool_decide as Hfl; [|apply triple_ret; intros s Hs; split; [done|by intros ?]].
      eapply triple_bind; [apply get_db_spec; intros s Hs; by apply Hthere|cbv beta; intros x]. apply triple_pre. intros s [Hx Hs].
      assert (lookup s wk = dict x !! wk_key wk) as Hlk by (unfold lookup; by rewrite Hx).
      destruct (dict x !! wk_key wk) as [v|]; [|apply triple_ret; intros s2 ->; split; [done|]; by intros _ ?].
      eapply (triple_conseq T); [apply (raise_cas T i HT); intros s2 Hs2; by apply Hthere|by intros s2 ->|]. intros _ s2 [HT2 Hd]. split; [done|]. by intros _ _.
    + intros s [Hc Hs]. split; [done|]. intros wk. split; [intros (c' & Hc' & Hin); by assert (c' = c) as <- by congruence|intros Hin; by exists c].
    + intros _ s [[HRs Hw] Hall]. split; [done|]. intros wk Hfl Hv Hwk. by apply (Hall wk); [apply Hw|..].
  - intros _ s [[HPs Hc] Hall]. split; [done|]. intros wk Hfl Hv i Hw. refine (Hall i _ wk Hfl Hv Hw).
    rewrite <-Hc. apply (wo_alive _ (inv_watch _ (Hinv _ HPs))). destruct Hw as (c & -> & _). by eexists.
Qed.

(** Marks stay. *)
Lemma marked_changes K s s' wk : changes None K s s' -> marked wk s -> marked wk s'.
Proof.
  intros H Hm j (c' & Hc' & Hin) c2 Hc2 Hne. assert (c2 = c') as -> by congruence. destruct (proj2 (ch_alive _ _ _ _ H j)) as [c Hc]; [by eexists|].
  destruct (ch_kept _ _ _ _ H j c c' ltac:(done) Hc Hc') as (Ew & _ & Hf & _). rewrite Ew in *. apply Hf; [done|]. apply (Hm j); [by exists c|done|done].
Qed.
End Db.
