(* ===== verification/KeyProofs.v ===== *)
(** KeyProofs: what the operations on keys, and the loop that frees memory, do
    to the values and to the invariant. *)
From S2P Require Import Prelude Util Sds Objects Server Db Evict Multi ServerProofs.
From S2P Require Request Reply.

Section Keys.
Context {V : Type} `{E : Rest V} {mode : Mode}.
#[local] Abbreviation M := (M V).
#[local] Abbreviation server := (server V).
Implicit Types (s : server) (i : cid) (c : client) (d : nat) (k : key) (wk : watchedKey) (P : server -> Prop) (K : watchedKey -> Prop).

(** The invariant, and the changes since [s0]. *)
Definition rel o K s0 s : Prop := inv s /\ changes o K s0 s.
Lemma rel_closed o K s0 : closed (rel o K s0).
Proof. apply closed_and; [exact inv_closed|apply changes_closed]. Qed.
Lemma rel_start o K s0 : inv s0 -> rel o K s0 s0.
Proof. intros H. split; [done|apply changes_refl]. Qed.
Lemma rel_len o K s0 s d : rel o K s0 s -> (d < length (dbs s0))%nat -> (d < length (dbs s))%nat.
Proof. intros [_ H]. by rewrite (ch_len _ _ _ _ H). Qed.
Lemma rel_alive o K s0 s i : rel o K s0 s -> is_Some (store s0 !! i) -> is_Some (store s !! i).
Proof. intros [_ H]. by apply (ch_alive _ _ _ _ H). Qed.

Lemma lookup_db s d x k : dbs s !! d = Some x -> lookup s (WatchedKey k d) = dict x !! k.
Proof. intros Hx. unfold lookup. cbn. by rewrite Hx. Qed.
Lemma time_db s d x k : dbs s !! d = Some x -> time_of s (WatchedKey k d) = expires x !! k.
Proof. intros Hx. unfold time_of. cbn. by rewrite Hx. Qed.
Lemma mortal_db s d x k : dbs s !! d = Some x -> (mortal s (WatchedKey k d) <-> is_Some (expires x !! k)).
Proof. intros Hx. unfold mortal. by rewrite (time_db _ _ _ _ Hx). Qed.

(** What may happen to the key [k] of a database: it stays, without a new
    expire, or is removed because it has one, or may be evicted. *)
Definition entry_step s (x x' : redisDb V) k : Prop :=
  dict x' !! k = dict x !! k /\ (is_Some (expires x' !! k) -> is_Some (expires x !! k)) \/
  dict x' !! k = None /\ (is_Some (expires x !! k) \/ evicts s).
Lemma entry_refl s (x : redisDb V) k : entry_step s x x k. Proof. by left. Qed.

(** Writing the databases: the watched keys stay, a key that expires exists,
    and values stay, are removed, or are of [K]. *)
Lemma rel_dbs o K s0 s (l : list (redisDb V)) : rel o K s0 s -> length l = length (dbs s) ->
  (forall d x x', dbs s !! d = Some x -> l !! d = Some x' -> watched_keys x' = watched_keys x /\ db_ok x' /\
    forall k, K (WatchedKey k d) \/ entry_step s x x' k) ->
  rel o K s0 (with_dbs s l).
Proof.
  intros [[[A1 A2 A3 A4 A5 A6] D S W B Q] Hch] Hlen Hl.
  assert (forall d x', l !! d = Some x' -> exists x, dbs s !! d = Some x /\ watched_keys x' = watched_keys x) as Hb.
  { intros d x' Hx. destruct (lookup_lt_is_Some_2 (dbs s) d) as [x Hx0]; [rewrite <-Hlen; by eapply lookup_lt_Some|]. exists x. split; [done|]. by apply (Hl d). }
  assert (forall d x, dbs s !! d = Some x -> exists x', l !! d = Some x' /\ watched_keys x' = watched_keys x) as Hf.
  { intros d x Hx. destruct (lookup_lt_is_Some_2 l d) as [x' Hx0]; [rewrite Hlen; by eapply lookup_lt_Some|]. exists x'. split; [done|]. by apply (Hl d). }
  assert (forall j wk, listed (with_dbs s l) j wk <-> listed s j wk) as Hli.
  { intros j wk. unfold listed. cbn [dbs with_dbs]. split; intros (y & ks & Hy & Hkl & Hin).
    - destruct (Hb _ _ Hy) as (y0 & H0 & Hw0). exists y0, ks. by rewrite <-Hw0.
    - destruct (Hf _ _ Hy) as (y0 & H0 & Hw0). exists y0, ks. by rewrite Hw0. }
  split; [constructor; [constructor|..]; cbn [dbs clients store conf with_dbs]; try done|].
  - intros j wk H. apply Hli. by apply A4.
  - intros j wk H. apply A5. by apply Hli.
  - intros j y k ks Hy Hkl. destruct (Hb _ _ Hy) as (y0 & H0 & Hw0). apply (A6 j y0 k ks H0). by rewrite <-Hw0.
  - intros j y Hy. cbn in Hy. destruct (Hb _ _ Hy) as (y0 & H0 & _). by apply (Hl j y0).
  - by rewrite Hlen.
  - by rewrite Hlen.
  - apply (changes_trans o K s0 s); [done|]. constructor; cbn [dbs clients store conf with_dbs]; [done|done|by rewrite Hlen|done|..].
    + intros j c c' _ H1 H2. assert (c' = c) as -> by congruence. apply kept_refl.
    + intros wk. unfold value_step, value_kept, value_gone, mortal, lookup, time_of. cbn [dbs with_dbs]. destruct (l !! wk_db wk) as [x'|] eqn:Hx'.
      * destruct (Hb _ _ Hx') as (x & Hx & _). rewrite Hx. destruct (Hl _ _ _ Hx Hx') as (_ & _ & Hk). destruct (Hk (wk_key wk)) as [H|H]; [|by right].
        left. by destruct wk.
      * right. left. destruct (dbs s !! wk_db wk) as [x|] eqn:Hx; [|by split; [|intros [? ?]]]. destruct (Hf _ _ Hx) as (x' & ? & _). congruence.
Qed.

Lemma rel_write o K s0 s d (x x' : redisDb V) : rel o K s0 s -> dbs s !! d = Some x -> watched_keys x' = watched_keys x -> db_ok x' ->
  (forall k, K (WatchedKey k d) \/ entry_step s x x' k) ->
  rel o K s0 (with_dbs s (<[d := x']> (dbs s))).
Proof.
  intros HR Hx Hw Hok Hk. apply rel_dbs; [done|apply length_insert|]. intros j y y' Hy Hy'. destruct (decide (j = d)) as [->|Hne].
  - rewrite list_lookup_insert_eq in Hy' by by eapply lookup_lt_Some. injection Hy' as <-. by assert (y = x) as -> by congruence.
  - rewrite list_lookup_insert_ne in Hy' by done. assert (y' = y) as -> by congruence. split; [done|]. split; [|intros k; right; apply entry_refl].
    by apply (inv_data _ (proj1 HR) j).
Qed.

(** Replacing a client, with the same watched keys. *)
Lemma rel_client o K s0 s i c c' : rel o K s0 s -> store s !! i = Some c -> watched c' = watched c -> Forall queued_ok (mstate c') ->
  (db c' < length (dbs s))%nat -> o = Some i \/ client_kept c c' -> rel o K s0 (with_clients s (clients s) (<[i := c']> (store s))).
Proof.
  intros HR Hc Ew Hq Hd Hk. set (s' := with_clients s (clients s) (<[i:=c']> (store s))).
  assert (forall j cj, store s' !! j = Some cj -> (j = i /\ cj = c') \/ (j <> i /\ store s !! j = Some cj)) as Hb.
  { intros j cj Hj. cbn [s' store with_clients] in Hj. apply lookup_insert_Some in Hj as [(<- & <-)|(Hne & Hj)]; auto. }
  assert (forall j, is_Some (store s' !! j) <-> is_Some (store s !! j)) as Ha.
  { intros j. cbn [s' store with_clients]. destruct (decide (j = i)) as [->|Hne]; [rewrite lookup_insert_eq; split; intros _; by eexists|by rewrite lookup_insert_ne]. }
  assert (forall j wk, watching s' j wk <-> watching s j wk) as Hw.
  { intros j wk. unfold watching. cbn [s' store with_clients]. destruct (decide (j = i)) as [->|Hne]; [|by rewrite lookup_insert_ne]. rewrite lookup_insert_eq, Hc.
    split; intros (cj & [= <-] & Hin); eexists; (split; [reflexivity|]); congruence. }
  destruct HR as [[[A1 A2 A3 A4 A5 A6] D S W B Q] Hch]. split; [constructor; [constructor|..]; try done|].
  - intros j. cbn [s' clients with_clients]. by rewrite A1, Ha.
  - intros j cj Hj. destruct (Hb _ _ Hj) as [[-> ->]|[_ H1]]; [rewrite Ew|]; by eapply A3.
  - intros j wk Hj. apply A4. by apply Hw.
  - intros j wk Hj. apply Hw. by apply A5.
  - intros j cj Hj. destruct (Hb _ _ Hj) as [[-> ->]|[_ H1]]; [done|by eapply B].
  - intros j cj Hj. destruct (Hb _ _ Hj) as [[-> ->]|[_ H1]]; [done|by eapply Q].
  - apply (changes_trans o K s0 s); [done|]. constructor; try done.
    + intros j c1 c2 Ho H1 H2. destruct (Hb _ _ H2) as [[-> ->]|[_ H3]]; [destruct Hk as [|Hk]; [done|]; by assert (c1 = c) as -> by congruence|].
      assert (c2 = c1) as -> by congruence. apply kept_refl.
    + intros wk. right. by apply value_refl.
Qed.

(** The steps of the operations on a database. *)
Lemma set_dict_run s d x f : dbs s !! d = Some x -> set_dict d f s = Some (tt, with_dbs s (<[d := RedisDb (f (dict x)) (expires x) (watched_keys x)]> (dbs s))).
Proof. intros Hx. unfold set_dict, get_db, set_db, mbind, M_bind. by rewrite Hx. Qed.
Lemma set_expires_run s d x f : dbs s !! d = Some x -> set_expires d f s = Some (tt, with_dbs s (<[d := RedisDb (dict x) (f (expires x)) (watched_keys x)]> (dbs s))).
Proof. intros Hx. unfold set_expires, get_db, set_db, mbind, M_bind. by rewrite Hx. Qed.

Lemma write_lookup s d (x : redisDb V) k : (d < length (dbs s))%nat -> lookup (with_dbs s (<[d := x]> (dbs s))) (WatchedKey k d) = dict x !! k.
Proof. intros Hd. apply lookup_db. cbn. by apply list_lookup_insert_eq. Qed.

Lemma size_0_none {A} (m : gmap key A) k : size m = 0%nat -> m !! k = None.
Proof. intros H. apply map_size_empty_inv in H as ->. apply lookup_empty. Qed.

(** Deleting is one write. *)
Lemma dbDelete_run s d x k : dbs s !! d = Some x ->
  dbDelete d k s = Some (bool_decide (is_Some (dict x !! k)), with_dbs s (<[d := RedisDb (delete k (dict x)) (delete k (expires x)) (watched_keys x)]> (dbs s))).
Proof.
  intros Hx. assert (d < length (dbs s))%nat as Hd by by eapply lookup_lt_Some. unfold dbDelete. unfold mbind at 1, M_bind, get_db. rewrite Hx.
  destruct (Nat.ltb_spec 0 (size (expires x))) as [Hs|Hs].
  - unfold mbind, M_bind. rewrite (set_expires_run _ _ _ _ Hx). rewrite (set_dict_run _ d (RedisDb (dict x) (delete k (expires x)) (watched_keys x))) by by apply list_lookup_insert_eq.
    cbn [dict expires watched_keys with_dbs dbs]. by rewrite list_insert_insert_eq.
  - unfold mbind, M_bind. cbn [mret M_ret]. rewrite (set_dict_run _ _ _ _ Hx). rewrite (delete_id (expires x)); [done|]. apply size_0_none. lia.
Qed.

Section Rel.
Context (o : option cid) (K : watchedKey -> Prop) (s0 : server).
#[local] Abbreviation R := (rel o K s0).

(** Whether the key may be removed. *)
Definition may_delete wk s : Prop := K wk \/ mortal s wk \/ evicts s0 \/ lookup s wk = None.
Lemma may_delete_closed wk : closed (may_delete wk).
Proof. intros s s' Hm H. unfold may_delete. rewrite (mild_lookup _ _ _ Hm), (mild_mortal _ _ _ Hm). exact H. Qed.

Lemma delete_dict d k s x : R s -> dbs s !! d = Some x -> may_delete (WatchedKey k d) s ->
  R (with_dbs s (<[d := RedisDb (delete k (dict x)) (delete k (expires x)) (watched_keys x)]> (dbs s))).
Proof.
  intros HR Hx Hdel. apply (rel_write o K s0 s d x); [done|done|done|..]; cbn [dict].
  - intros k' t Ht. cbn [expires dict] in *. apply lookup_delete_Some in Ht as [Hne Ht]. rewrite lookup_delete_ne by done.
    eapply (inv_data _ (proj1 HR)); [exact Hx|exact Ht].
  - intros k'. unfold entry_step. cbn [dict expires]. destruct (decide (k' = k)) as [->|Hne]; [|right; left; by rewrite !lookup_delete_ne].
    rewrite !lookup_delete_eq. unfold may_delete in Hdel. rewrite (mortal_db _ _ _ _ Hx), (lookup_db _ _ _ _ Hx) in Hdel.
    destruct Hdel as [HK|[Hm|[He|Hn]]]; [by left|right; right; auto|right; right|right; left].
    + split; [done|]. right. unfold evicts in *. by rewrite (ch_conf _ _ _ _ (proj2 HR)).
    + split; [done|]. by intros [? ?].
Qed.

Lemma delete_spec d k v : (d < length (dbs s0))%nat ->
  triple (fun s => (R s /\ lookup s (WatchedKey k d) = v) /\ may_delete (WatchedKey k d) s) (dbDelete d k)
    (fun b s => b = bool_decide (is_Some v) /\ R s /\ lookup s (WatchedKey k d) = None).
Proof.
  intros Hd s [[HR Hv] Hdel]. pose proof (rel_len _ _ _ _ _ HR Hd) as Hds. destruct (lookup_lt_is_Some_2 _ _ Hds) as [x Hx]. rewrite (lookup_db _ _ _ _ Hx) in Hv.
  eexists _, _. split; [apply (dbDelete_run _ _ _ _ Hx)|]. split; [by rewrite Hv|]. split; [by apply delete_dict|].
  rewrite write_lookup by done. apply lookup_delete_eq.
Qed.

Lemma delete_may d k : (d < length (dbs s0))%nat -> triple (fun s => R s /\ may_delete (WatchedKey k d) s) (dbDelete d k) (fun _ => R).
Proof.
  intros Hd. apply triple_pre. intros s [Hs Hm]. eapply triple_conseq; [apply (delete_spec d k (lookup s (WatchedKey k d)) Hd)| |].
  - by intros s' ->.
  - intros b s' (_ & H & _). exact H.
Qed.
Lemma delete_any d k : (d < length (dbs s0))%nat -> K (WatchedKey k d) -> triple R (dbDelete d k) (fun _ => R).
Proof. intros Hd HK. eapply triple_conseq; [by apply delete_may| |done]. intros s Hs. split; [done|by left]. Qed.

Lemma lookupKey_spec P d k : (forall s, P s -> (d < length (dbs s))%nat) -> triple P (lookupKey d k) (fun v s => lookup s (WatchedKey k d) = v /\ P s).
Proof.
  intros Hd s Hs. destruct (lookup_lt_is_Some_2 _ _ (Hd s Hs)) as [x Hx]. unfold lookupKey, get_db, mbind, M_bind. rewrite Hx.
  eexists _, _. split; [done|]. by rewrite (lookup_db _ _ _ _ Hx).
Qed.

(** The state does not change; a key without a time has no expire. *)
Lemma getExpire_spec P d k : (forall s, P s -> inv s /\ (d < length (dbs s))%nat) ->
  triple P (getExpire d k) (fun t s => time_ok t /\ P s /\ (t = -1 \/ mortal s (WatchedKey k d))).
Proof.
  intros HP s Hs. destruct (HP s Hs) as [Hi Hd]. destruct (lookup_lt_is_Some_2 _ _ Hd) as [x Hx]. unfold getExpire, get_db. unfold mbind at 1, M_bind. rewrite Hx.
  assert (time_ok (-1)) by (unfold time_ok; lia).
  destruct (size (expires x) =? 0)%nat; [eexists _, _; split; [done|]; by auto|]. destruct (expires x !! k) as [t|] eqn:Ht; [|eexists _, _; split; [done|]; by auto].
  destruct (inv_data _ Hi d x Hx k t Ht) as [[v Hv] ?]. unfold mbind, M_bind. rewrite bool_decide_eq_true_2 by by eexists. eexists _, _. split; [done|].
  split; [done|]. split; [done|right]. rewrite (mortal_db _ _ _ _ Hx), Ht. by eexists.
Qed.

(** The state before an expired key is deleted. *)
Definition due d k P s : Prop := P s /\ mortal s (WatchedKey k d).
Lemma due_closed d k P : closed P -> closed (due d k P).
Proof. intros HP. apply closed_and; [done|apply mortal_closed]. Qed.
Lemma due_deletes d k : (d < length (dbs s0))%nat -> triple (due d k R) (dbDelete d k) (fun _ => R).
Proof. intros Hd. eapply triple_conseq; [by apply delete_may| |done]. intros s [Hs Hm]. split; [done|right; by left]. Qed.

Lemma expireIfNeeded_spec d k : (d < length (dbs s0))%nat -> triple R (expireIfNeeded d k) (fun _ => R).
Proof.
  intros Hd. unfold expireIfNeeded. eapply triple_bind; [apply (getExpire_spec R)|cbv beta; intros when].
  { intros s HR. split; [apply HR|by eapply rel_len]. }
  apply triple_drop. destruct (Z.ltb_spec when 0) as [|H0]; [apply triple_ret; by intros s [? _]|]. pose proof (rel_closed o K s0) as Hcl. pose proof (due_closed d k R Hcl) as Hdue.
  eapply (triple_conseq (due d k R)); [|intros s [Hs [-> |Hm]]; [lia|by split]|intros a s Hq; exact Hq].
  eapply triple_bind; [apply triple_get|cbv beta; intros s1]. apply triple_drop.
  destruct (loading _); [apply triple_ret; by intros s [? _]|]. destruct (masterhost _).
  - eapply triple_bind; [apply mstime_closed, Hdue|cbv beta; intros now]. apply triple_ret. by intros s [? _].
  - eapply triple_bind; [apply mstime_closed, Hdue|cbv beta; intros now]. destruct (now <=? when); [apply triple_ret; by intros s [? _]|].
    eapply triple_bind; [apply propagateExpire_closed, Hdue|cbv beta; intros _]. by apply due_deletes.
Qed.

(** On a master an expired key is deleted. *)
Lemma expire_deletes d k x : (d < length (dbs s0))%nat -> masterhost (conf s0) = false ->
  triple (fun s => R s /\ dbs s !! d = Some x) (expireIfNeeded d k)
    (fun b s => R s /\ if b : bool then exists x', dbs s !! d = Some x' /\ dict x' = delete k (dict x) else True).
Proof.
  intros Hd Hm. set (P := fun s => R s /\ dbs s !! d = Some x).
  assert (closed P) as HP by (intros s s' Hs [HR Hx]; split; [by eapply rel_closed|by rewrite (mi_dbs _ _ Hs)]). pose proof (due_closed d k P HP) as Hdue.
  unfold expireIfNeeded. eapply triple_bind; [apply (getExpire_spec P)|cbv beta; intros when].
  { intros s [HR _]. split; [apply HR|by eapply rel_len]. }
  apply triple_drop. destruct (Z.ltb_spec when 0) as [|H0]; [by apply triple_ret; intros s [[? _] _]|].
  eapply (triple_conseq (due d k P)); [|intros s [Hs [-> |Ht]]; [lia|by split]|intros a s Hq; exact Hq].
  eapply triple_bind; [apply triple_get|cbv beta; intros s1].
  apply triple_pre. intros s2 [-> Hs2]. pose proof Hs2 as [[HR Hx] _]. destruct (loading _); [apply triple_ret; by intros s ->|].
  assert (masterhost (conf s2) = false) as -> by (destruct HR as [_ HR]; by rewrite (ch_conf _ _ _ _ HR)).
  eapply (triple_conseq (due d k P)); [|by intros s ->|intros b s Hq; exact Hq].
  eapply triple_bind; [apply mstime_closed, Hdue|cbv beta; intros now]. destruct (now <=? when); [by apply triple_ret; intros s [[? _] _]|].
  eapply triple_bind; [apply propagateExpire_closed, Hdue|cbv beta; intros _]. intros s [[HR' Hx'] Ht].
  destruct (due_deletes d k Hd s (conj HR' Ht)) as (b & s' & Er & HR2). exists b, s'. split; [done|]. split; [done|]. rewrite (dbDelete_run _ _ _ _ Hx') in Er. injection Er as <- <-.
  destruct (bool_decide _); [|done]. eexists. split; [cbn; apply list_lookup_insert_eq; by eapply lookup_lt_Some|done].
Qed.

Lemma lookupWrite_spec d k : (d < length (dbs s0))%nat -> triple R (lookupKeyWrite d k) (fun v s => lookup s (WatchedKey k d) = v /\ R s).
Proof.
  intros Hd. unfold lookupKeyWrite. eapply triple_bind; [by apply expireIfNeeded_spec|cbv beta; intros _].
  apply lookupKey_spec. intros s HR. by eapply rel_len.
Qed.
Lemma lookupRead_spec d k : (d < length (dbs s0))%nat -> triple R (lookupKeyRead d k) (fun v s => lookup s (WatchedKey k d) = v /\ R s).
Proof. apply lookupWrite_spec. Qed.

(** Adding a key that is not there. *)
Lemma insert_dict d k v s x : R s -> dbs s !! d = Some x -> K (WatchedKey k d) ->
  R (with_dbs s (<[d := RedisDb (<[k := v]> (dict x)) (expires x) (watched_keys x)]> (dbs s))).
Proof.
  intros HR Hx HK. apply (rel_write o K s0 s d x); [done|done|done|..]; cbn [dict].
  - intros k' t Ht. cbn [expires dict] in *. destruct (inv_data _ (proj1 HR) d x Hx k' t Ht) as [H1 H2]. split; [|done].
    destruct (decide (k' = k)) as [->|Hne]; [rewrite lookup_insert_eq; by eexists|]. by rewrite lookup_insert_ne.
  - intros k'. destruct (decide (k' = k)) as [->|Hne]; [by left|right; left]. cbn [dict expires]. by rewrite lookup_insert_ne.
Qed.

Lemma dbAdd_spec d k v : (d < length (dbs s0))%nat -> K (WatchedKey k d) ->
  triple (fun s => R s /\ lookup s (WatchedKey k d) = None) (dbAdd d k v) (fun _ s => R s /\ lookup s (WatchedKey k d) = Some v).
Proof.
  intros Hd HK s [HR Hv]. pose proof (rel_len _ _ _ _ _ HR Hd) as Hds. destruct (lookup_lt_is_Some_2 _ _ Hds) as [x Hx]. rewrite (lookup_db _ _ _ _ Hx) in Hv.
  unfold dbAdd, get_db. unfold mbind, M_bind. rewrite Hx, bool_decide_eq_true_2 by done. cbn [check mret M_ret]. rewrite (set_dict_run _ _ _ _ Hx).
  eexists _, _. split; [done|]. split; [by apply insert_dict|]. rewrite write_lookup by done. apply lookup_insert_eq.
Qed.

Lemma dbOverwrite_spec d k u v : (d < length (dbs s0))%nat -> K (WatchedKey k d) ->
  triple (fun s => R s /\ lookup s (WatchedKey k d) = Some u) (dbOverwrite d k v) (fun _ s => R s /\ lookup s (WatchedKey k d) = Some v).
Proof.
  intros Hd HK s [HR Hv]. pose proof (rel_len _ _ _ _ _ HR Hd) as Hds. destruct (lookup_lt_is_Some_2 _ _ Hds) as [x Hx]. rewrite (lookup_db _ _ _ _ Hx) in Hv.
  unfold dbOverwrite, get_db. unfold mbind, M_bind. rewrite Hx, bool_decide_eq_true_2 by by eexists. cbn [check mret M_ret]. rewrite (set_dict_run _ _ _ _ Hx).
  eexists _, _. split; [done|]. split; [by apply insert_dict|]. rewrite write_lookup by done. apply lookup_insert_eq.
Qed.

(** The expiry of a key that is there: a new one is a change. *)
Lemma set_expires_spec d k v f : (d < length (dbs s0))%nat ->
  (forall m : gmap key Z, forall k' t, f m !! k' = Some t -> (k' = k /\ time_ok t /\ K (WatchedKey k d)) \/ m !! k' = Some t) ->
  triple (fun s => R s /\ lookup s (WatchedKey k d) = Some v) (set_expires d f) (fun _ s => R s /\ lookup s (WatchedKey k d) = Some v).
Proof.
  intros Hd Hf s [HR Hv]. pose proof (rel_len _ _ _ _ _ HR Hd) as Hds. destruct (lookup_lt_is_Some_2 _ _ Hds) as [x Hx]. rewrite (lookup_db _ _ _ _ Hx) in Hv.
  rewrite (set_expires_run _ _ _ _ Hx). eexists _, _. split; [done|]. split; [|by rewrite write_lookup].
  apply (rel_write o K s0 s d x); [done|done|done|..]; cbn [dict].
  - intros k' t Ht. cbn [expires dict] in *. apply Hf in Ht as [(-> & Ht & _)|Ht]; [split; [by eexists|done]|]. eapply (inv_data _ (proj1 HR)); [exact Hx|exact Ht].
  - intros k'. destruct (f (expires x) !! k') as [t|] eqn:Ht.
    + apply Hf in Ht as [(-> & _ & HK)|Ht]; [by left|]. right. left. split; [done|]. intros _. by exists t.
    + right. left. split; [done|]. cbn [expires]. rewrite Ht. by intros [? ?].
Qed.

Lemma has_check P d k v {A} (m : redisDb V -> M A) (Q : A -> server -> Prop) : (forall s, P s -> (d < length (dbs s))%nat /\ lookup s (WatchedKey k d) = Some v) ->
  (forall x, triple P (m x) Q) -> triple P (x ← get_db d; check (bool_decide (is_Some (dict x !! k))) ;; m x) Q.
Proof.
  intros HP Hm s Hs. destruct (HP s Hs) as [Hd Hv]. destruct (lookup_lt_is_Some_2 _ _ Hd) as [x Hx]. rewrite (lookup_db _ _ _ _ Hx) in Hv.
  unfold get_db. unfold mbind, M_bind. rewrite Hx, bool_decide_eq_true_2 by by eexists. cbn [check mret M_ret]. by apply Hm.
Qed.

Lemma setExpire_spec d k v t : (d < length (dbs s0))%nat -> K (WatchedKey k d) -> time_ok t ->
  triple (fun s => R s /\ lookup s (WatchedKey k d) = Some v) (setExpire d k t) (fun _ s => R s /\ lookup s (WatchedKey k d) = Some v).
Proof.
  intros Hd HK Ht. unfold setExpire. apply (has_check _ d k v); [intros s [HR Hv]; split; [by eapply rel_len|done]|]. intros _. apply set_expires_spec; [done|].
  intros m k' t' [(-> & <-)|[_ H]]%lookup_insert_Some; [by left|by right].
Qed.
Lemma removeExpire_spec d k v : (d < length (dbs s0))%nat ->
  triple (fun s => R s /\ lookup s (WatchedKey k d) = Some v) (removeExpire d k) (fun _ s => R s /\ lookup s (WatchedKey k d) = Some v).
Proof.
  intros Hd. unfold removeExpire. apply (has_check _ d k v); [intros s [HR Hv]; split; [by eapply rel_len|done]|]. intros x.
  eapply triple_bind; [apply set_expires_spec; [done|]|cbv beta; intros _; by apply triple_ret]. intros m k' t' [_ H]%lookup_delete_Some. by right.
Qed.
End Rel.
End Keys.

(** Freeing memory ends, fails no assertion and only removes
    keys. *)
Section Evict.
Context {V : Type} `{E : Rest V} {mode : Mode} `{EOk : !RestOk V}.
#[local] Abbreviation M := (M V).
#[local] Abbreviation server := (server V).
Implicit Types (s : server) (i : cid) (d : nat) (k : key) (l : list (redisDb V)).

Section Rel.
Context (o : option cid) (K : watchedKey -> Prop) (s0 base : server) (Hfree : evicts s0 \/ forall wk, K wk).

(** The databases are [l], the clients as they were, and each value as it was
    in [base] or removed. *)
Definition shrunk s : Prop := forall wk, lookup s wk = lookup base wk \/ lookup s wk = None.
Definition held l s : Prop := (rel o K s0 s /\ shrunk s) /\ store s = store base /\ dbs s = l.

Lemma held_core l s s' : same_core s s' -> held l s -> held l s'.
Proof.
  intros Hc ([[HI Hch] Hs] & Hm & Hl). pose proof Hc as (E1 & _ & E3 & _). split; [split; [split; [by eapply core_inv|eapply changes_trans; [exact Hch|by apply core_changes]]|]|].
  - intros wk. unfold lookup in *. rewrite E1. apply Hs.
  - split; congruence.
Qed.
Lemma held_triple l (f : M unit) : (forall s, exists s', f s = Some (tt, s') /\ same_core s s') -> triple (held l) f (fun _ => held l).
Proof. intros Hf s Hs. destruct (Hf s) as (s' & Er & Hc). exists tt, s'. split; [done|by eapply held_core]. Qed.
Lemma held_db l d : (d < length l)%nat -> triple (held l) (get_db d) (fun x s => l !! d = Some x /\ held l s).
Proof. intros Hd s Hs. destruct (lookup_lt_is_Some_2 _ _ Hd) as [x Hx]. exists x, s. unfold get_db. destruct Hs as (H1 & H2 & H3). rewrite H3, Hx. done. Qed.

Lemma draw_spec {A} l (t : gmap key A) : t <> ∅ -> triple (held l) (draw t) (fun k s => is_Some (t !! k) /\ held l s).
Proof.
  intros Ht s Hs. destruct (random_some A (draws s) t Ht) as [k Hk]. unfold draw, get, put, mbind, M_bind. rewrite Hk. eexists _, _. split; [done|].
  split; [by eapply random_in|]. eapply held_core; [|exact Hs]. by repeat split.
Qed.

(** The key chosen is one of the database's. *)
Definition found l d (best : option (key * Z)) : Prop := forall k v, best = Some (k, v) -> exists x, l !! d = Some x /\ is_Some (dict x !! k).
Definition chosen l d (best : option key) : Prop := forall k, best = Some k -> exists x, l !! d = Some x /\ is_Some (dict x !! k).
Lemma found_chosen l d best : found l d best -> chosen l d (fst <$> best).
Proof. intros H k Hk. destruct best as [[k' v]|]; [|done]. injection Hk as <-. by eapply H. Qed.

Lemma held_expires l s d x k : held l s -> l !! d = Some x -> is_Some (expires x !! k) -> is_Some (dict x !! k).
Proof. intros ([[HI _] _] & _ & <-) Hx [t Ht]. by eapply (inv_data _ HI). Qed.

Lemma best_idle_spec l d x policy n : l !! d = Some x -> (if policy =? REDIS_MAXMEMORY_ALLKEYS_LRU then dict x <> ∅ else expires x <> ∅) -> forall best, found l d best ->
  triple (held l) (best_idle n d policy best) (fun b s => (chosen l d b /\ (b = None -> n = 0%nat /\ best = None)) /\ held l s).
Proof.
  intros Hx Hne. assert (d < length l)%nat as Hd by by eapply lookup_lt_Some. induction n as [|n IH]; intros best Hb.
  { apply triple_ret. intros s Hs. split; [split; [by apply found_chosen|by destruct best as [[]|]]|done]. }
  cbn [best_idle]. eapply triple_bind; [by apply held_db|cbv beta; intros y]. apply triple_fact. intros Hy. assert (y = x) as -> by congruence.
  eapply (triple_bind _ _ _ (fun k s => is_Some (dict x !! k) /\ held l s)).
  { destruct (policy =? _); [by apply draw_spec|]. eapply triple_conseq; [by apply draw_spec|done|]. intros k s [Hk Hs]. split; [by eapply held_expires|done]. }
  intros k. apply triple_fact. intros Hk. pose proof Hk as [v Hv]. eapply triple_bind; [apply triple_opt; intros s _; exact Hv|cbv beta; intros v']. apply triple_drop.
  eapply triple_bind; [apply triple_get|cbv beta; intros s1]. apply triple_drop.
  eapply triple_conseq; [apply IH|done|].
  - intros k' w. destruct best as [[kb vb]|]; [|intros [= <- _]; by exists x]. destruct (vb <? _); [intros [= <- _]; by exists x|by apply Hb].
  - intros b s [[H1 H2] Hs]. split; [split; [done|]|done]. intros ->. destruct (H2 eq_refl) as [_ Hn]. destruct best as [[kb vb]|]; [by destruct (vb <? _)|done].
Qed.

Lemma best_ttl_spec l d x n : l !! d = Some x -> expires x <> ∅ -> forall best, found l d best ->
  triple (held l) (best_ttl n d best) (fun b s => (chosen l d b /\ (b = None -> n = 0%nat /\ best = None)) /\ held l s).
Proof.
  intros Hx Hne. assert (d < length l)%nat as Hd by by eapply lookup_lt_Some. induction n as [|n IH]; intros best Hb.
  { apply triple_ret. intros s Hs. split; [split; [by apply found_chosen|by destruct best as [[]|]]|done]. }
  cbn [best_ttl]. eapply triple_bind; [by apply held_db|cbv beta; intros y]. apply triple_fact. intros Hy. assert (y = x) as -> by congruence.
  eapply triple_bind; [by apply draw_spec|cbv beta; intros k]. apply triple_pre. intros s1 [[t Ht] Hs1]. eapply (triple_conseq (held l)); [|by intros s ->|intros a s Hq; exact Hq].
  assert (is_Some (dict x !! k)) as Hk by (eapply held_expires; [exact Hs1|exact Hx|by exists t]).
  eapply triple_bind; [apply triple_opt; intros s _; exact Ht|cbv beta; intros t']. apply triple_drop.
  eapply triple_conseq; [apply IH|done|].
  - intros k' w. destruct best as [[kb vb]|]; [|intros [= <- _]; by exists x]. destruct (t' <? vb); [intros [= <- _]; by exists x|by apply Hb].
  - intros b s [[H1 H2] Hs]. split; [split; [done|]|done]. intros ->. destruct (H2 eq_refl) as [_ Hn]. destruct best as [[kb vb]|]; [by destruct (t' <? vb)|done].
Qed.

(** No key is chosen when the dictionary the policy looks at is empty, or it
    takes no sample, or is none of the five. *)
Definition all_keys (policy : Z) : bool := (policy =? REDIS_MAXMEMORY_ALLKEYS_LRU) || (policy =? REDIS_MAXMEMORY_ALLKEYS_RANDOM).
Definition sampling (policy : Z) : bool :=
  (policy =? REDIS_MAXMEMORY_ALLKEYS_LRU) || (policy =? REDIS_MAXMEMORY_VOLATILE_LRU) || (policy =? REDIS_MAXMEMORY_VOLATILE_TTL).
Definition evicting (policy : Z) : Prop := 0 <= policy < REDIS_MAXMEMORY_NO_EVICTION.
#[local] Instance evicting_dec policy : Decision (evicting policy). Proof. unfold evicting. apply _. Defined.
Definition nothing_in (x : redisDb V) (policy : Z) (samples : nat) : Prop :=
  (if all_keys policy then size (dict x) else size (expires x)) = 0%nat \/ sampling policy = true /\ samples = 0%nat \/ ~ evicting policy.
Definition policy0 : Z := maxmemory_policy (conf s0).
Definition samples0 : nat := maxmemory_samples (conf s0).

Lemma best_key_spec l d x : l !! d = Some x ->
  triple (held l) (best_key d) (fun b s => (chosen l d b /\ (b = None -> nothing_in x policy0 samples0)) /\ held l s).
Proof.
  intros Hx. assert (d < length l)%nat as Hd by by eapply lookup_lt_Some. unfold best_key. eapply triple_bind; [apply triple_get|cbv beta; intros s1]. apply triple_pre. intros s2 [-> Hs2].
  assert (conf s2 = conf s0) as Hconf by apply (ch_conf _ _ _ _ (proj2 (proj1 (proj1 Hs2)))). rewrite Hconf. fold policy0 samples0.
  eapply (triple_conseq (held l)); [|by intros s ->|intros a s Hq; exact Hq].
  eapply triple_bind; [by apply held_db|cbv beta; intros y]. apply triple_fact. intros Hy. assert (y = x) as -> by congruence. cbv zeta. fold (all_keys policy0).
  assert (forall k, is_Some (dict x !! k) -> chosen l d (Some k)) as Hin by (intros k Hk k' [= <-]; by exists x).
  assert (found l d None) as Hf by done. assert (forall A (t : gmap key A), size t <> 0%nat -> t <> ∅) as Hne by (intros A t H ->; by rewrite map_size_empty in H).
  match goal with |- context [Nat.eqb ?n 0] => destruct (Nat.eqb_spec n 0) as [H0|H0] end; [apply triple_ret; intros s Hs; split; [split; [done|by left]|done]|].
  destruct (decide (evicting policy0)) as [Hev|Hev].
  2:{ unfold evicting, REDIS_MAXMEMORY_NO_EVICTION in Hev. unfold REDIS_MAXMEMORY_ALLKEYS_RANDOM, REDIS_MAXMEMORY_VOLATILE_RANDOM, REDIS_MAXMEMORY_ALLKEYS_LRU, REDIS_MAXMEMORY_VOLATILE_LRU, REDIS_MAXMEMORY_VOLATILE_TTL.
    rewrite !(proj2 (Z.eqb_neq policy0 _)) by lia. apply triple_ret. intros s Hs. split; [split; [done|]|done]. intros _. right. by right. }
  assert ((policy0 =? REDIS_MAXMEMORY_ALLKEYS_RANDOM) = true /\ all_keys policy0 = true \/ (policy0 =? REDIS_MAXMEMORY_ALLKEYS_RANDOM) = false /\
    ((policy0 =? REDIS_MAXMEMORY_VOLATILE_RANDOM) = true /\ all_keys policy0 = false \/ (policy0 =? REDIS_MAXMEMORY_VOLATILE_RANDOM) = false /\
    ((policy0 =? REDIS_MAXMEMORY_ALLKEYS_LRU) || (policy0 =? REDIS_MAXMEMORY_VOLATILE_LRU) = true /\ all_keys policy0 = (policy0 =? REDIS_MAXMEMORY_ALLKEYS_LRU) /\ sampling policy0 = true \/
     (policy0 =? REDIS_MAXMEMORY_ALLKEYS_LRU) || (policy0 =? REDIS_MAXMEMORY_VOLATILE_LRU) = false /\ (policy0 =? REDIS_MAXMEMORY_VOLATILE_TTL) = true /\ all_keys policy0 = false /\ sampling policy0 = true))) as Hp.
  { unfold evicting, REDIS_MAXMEMORY_NO_EVICTION in Hev. clear -Hev. assert (policy0 = 0 \/ policy0 = 1 \/ policy0 = 2 \/ policy0 = 3 \/ policy0 = 4) as [-> |[-> |[-> |[-> | ->]]]] by lia; cbv; tauto. }
  destruct Hp as [[-> Ha]|[-> [[-> Ha]|[-> [(-> & Ha & Hsa)|(-> & -> & Ha & Hsa)]]]]]; rewrite Ha in H0.
  - eapply triple_bind; [apply draw_spec; by apply Hne|cbv beta; intros k]. apply triple_ret. intros s [Hk Hs]. split; [by split; [apply Hin|]|done].
  - eapply triple_bind; [apply draw_spec; by apply Hne|cbv beta; intros k]. apply triple_ret. intros s [Hk Hs]. split; [split; [apply Hin; by eapply held_expires|done]|done].
  - eapply triple_conseq; [eapply (best_idle_spec l d x policy0 samples0 Hx); [destruct (policy0 =? REDIS_MAXMEMORY_ALLKEYS_LRU); by apply Hne|exact Hf]|done|].
    intros b s [[H1 H2] Hs]. split; [split; [done|]|done]. intros Hb. right. left. split; [done|by apply H2].
  - eapply triple_conseq; [eapply (best_ttl_spec l d x samples0 Hx); [by apply Hne|exact Hf]|done|].
    intros b s [[H1 H2] Hs]. split; [split; [done|]|done]. intros Hb. right. left. split; [done|by apply H2].
Qed.

(** *** Each deletion leaves fewer keys *)

Lemma total_write l d x x' : l !! d = Some x -> (size (dict x') < size (dict x))%nat -> (total_keys (<[d := x']> l) < total_keys l)%nat.
Proof.
  unfold total_keys. revert d. induction l as [|y l IH]; intros [|d] Hx Hs; [done|done| |].
  - injection Hx as ->. cbn [insert list_insert foldr]. lia.
  - specialize (IH d Hx Hs). change (<[S d := x']> (y :: l)) with (y :: <[d := x']> l). cbn [foldr]. lia.
Qed.

Lemma evict_spec l d x k : l !! d = Some x -> is_Some (dict x !! k) ->
  triple (held l) (evict d k) (fun _ s => exists l', held l' s /\ length l' = length l /\ (total_keys l' < total_keys l)%nat).
Proof.
  intros Hx Hk. unfold evict. eapply triple_bind; [apply (held_triple l)|cbv beta; intros _].
  { intros s. unfold propagateExpire, get, mbind, M_bind. destruct (aof_on (conf s)), (has_slaves (conf s)); by eexists. }
  eapply triple_bind; [apply triple_get|cbv beta; intros s1]. apply triple_drop. intros s ([HR Hsh] & Hm & Hl).
  unfold mbind at 1, M_bind at 1. assert (dbs s !! d = Some x) as Hx' by by rewrite Hl. rewrite (dbDelete_run _ _ _ _ Hx'). set (s2 := with_dbs s _). exists (used_memory (data_of (dbs s1)) - used_memory (data_of (dbs s2))), s2.
  split; [done|]. exists (<[d := RedisDb (delete k (dict x)) (delete k (expires x)) (watched_keys x)]> l). split; [|split; [apply length_insert|]].
  - split; [split|split; [done|cbn; by rewrite Hl]].
    + apply delete_dict; [done|done|]. unfold may_delete. destruct Hfree as [|HK]; auto.
    + intros [k' d']. destruct (decide (d' = d)) as [->|Hd].
      * destruct (decide (k' = k)) as [->|Hk']; [right|]; unfold s2; rewrite write_lookup by (by eapply lookup_lt_Some); cbn [dict]; [apply lookup_delete_eq|].
        rewrite lookup_delete_ne by done. specialize (Hsh (WatchedKey k' d)). by rewrite (lookup_db _ _ _ _ Hx') in Hsh.
      * specialize (Hsh (WatchedKey k' d')). unfold lookup in *. cbn [s2 dbs with_dbs wk_db wk_key] in *. by rewrite list_lookup_insert_ne.
  - apply (total_write l d x); [done|]. cbn. rewrite map_size_delete_Some by done. destruct Hk as [v Hv]. pose proof (map_size_ne_0_lookup_2 _ _ (mk_is_Some _ _ Hv)). lia.
Qed.

Definition nothing_left (ds : list nat) l : Prop := forall d x, d ∈ ds -> l !! d = Some x -> nothing_in x policy0 samples0.

Lemma evict_round_spec n : forall ds l f kf, length l = n -> Forall (fun d => (d < n)%nat) ds -> 0 <= kf ->
  triple (held l) (evict_round ds f kf)
    (fun r s => exists l', held l' s /\ length l' = n /\ kf <= r.2 /\ (kf < r.2 -> (total_keys l' < total_keys l)%nat) /\ (r.2 = kf -> l' = l /\ nothing_left ds l)).
Proof.
  intros ds. induction ds as [|d ds IH]; intros l f kf Hn Hds Hkf.
  { apply triple_ret. intros s Hs. exists l. cbn. split_and!; [done|done|lia|lia|]. intros _. split; [done|]. by intros d x ?%elem_of_nil. }
  apply Forall_cons in Hds as [Hd Hds]. cbn [evict_round]. rewrite <-Hn in Hd. destruct (lookup_lt_is_Some_2 _ _ Hd) as [x Hx].
  eapply triple_bind; [by apply (best_key_spec l d x)|cbv beta; intros b]. apply triple_fact. intros [Hb Hnone]. destruct b as [k|].
  - destruct (Hb k eq_refl) as (x' & Hx' & Hk). eapply triple_bind; [by eapply evict_spec|cbv beta; intros delta]. apply triple_pre. intros s1 (l1 & Hs1 & Hl1 & Ht1).
    eapply triple_conseq; [apply (IH l1 (u64 (f + delta)) (kf + 1)); [congruence|done|lia]|by intros s ->|].
    intros r s (l2 & Hs2 & Hl2 & Hk2 & Ht2 & He2). exists l2. split; [done|]. split; [done|]. split; [lia|]. split; [|lia]. intros _. destruct (decide (r.2 = kf + 1)) as [E'|]; [by destruct (He2 E') as [-> _]|lia].
  - eapply triple_conseq; [by apply (IH l f kf)|done|]. intros r s (l2 & Hs2 & Hl2 & Hk2 & Ht2 & He2). exists l2. split_and!; [done|done|done|done|]. intros E'. destruct (He2 E') as [-> Hleft]. split; [done|].
    intros d' x' [->|Hin]%elem_of_cons Hx'; [|by apply (Hleft d')]. assert (x' = x) as -> by congruence. by apply Hnone.
Qed.

(** What failing to free enough means. *)
Definition gives_out (b : bool) s : Prop := b = false -> policy0 = REDIS_MAXMEMORY_NO_EVICTION \/ forall d x, dbs s !! d = Some x -> nothing_in x policy0 samples0.

Lemma evict_loop_spec fuel : forall l tofree freed, (total_keys l < fuel)%nat ->
  triple (held l) (evict_loop fuel tofree freed) (fun b s => gives_out b s /\ exists l', held l' s).
Proof.
  induction fuel as [|fuel IH]; intros l tofree freed Hf; [lia|]. cbn [evict_loop]. destruct (freed <? tofree); [|apply triple_ret; intros s Hs; split; [done|by exists l]].
  eapply triple_bind; [apply triple_get|cbv beta; intros s1]. apply triple_pre. intros s2 [-> Hs2]. pose proof Hs2 as (_ & _ & Hl2).
  eapply (triple_conseq (held l)); [|by intros s ->|intros a s Hq; exact Hq].
  eapply triple_bind; [apply (evict_round_spec (length l)); [done| |lia]|cbv beta; intros [f kf]; cbn [snd]].
  { rewrite Hl2. apply Forall_forall. intros d Hd. apply list_elem_of_In, in_seq in Hd. lia. }
  apply triple_pre. intros s3 (l' & Hs3 & _ & Hk0 & Hk & Hleft). destruct (Z.eqb_spec kf 0) as [->|Hne].
  - destruct (Hleft eq_refl) as [-> Hno]. apply triple_ret. intros s ->. split; [|by exists l]. intros _. right. intros d x Hx. destruct Hs3 as (_ & _ & Hl3). rewrite Hl3 in Hx.
    apply (Hno d x); [|done]. apply list_elem_of_In, in_seq. rewrite Hl2. apply lookup_lt_Some in Hx. lia.
  - eapply triple_conseq; [apply (IH l'); lia|by intros s ->|done].
Qed.

(** The clients are as they were, and keys are only removed. *)
Lemma free_spec :
  triple (fun s => rel o K s0 s /\ s = base) freeMemoryIfNeeded (fun b s => gives_out b s /\ rel o K s0 s /\ shrunk s /\ store s = store base).
Proof.
  unfold freeMemoryIfNeeded. eapply triple_bind; [apply triple_get|cbv beta; intros s1]. apply triple_pre. intros s2 [-> [HR ->]].
  assert (conf base = conf s0) as Hconf by apply (ch_conf _ _ _ _ (proj2 HR)). assert (shrunk base) as Hsh by (intros wk; by left).
  destruct (_ <=? _); [by apply triple_ret; intros s ->|]. rewrite Hconf. fold policy0. destruct (Z.eqb_spec policy0 REDIS_MAXMEMORY_NO_EVICTION) as [Hp|Hp].
  { apply triple_ret. intros s ->. split; [|done]. intros _. by left. }
  eapply triple_conseq; [apply (evict_loop_spec _ (dbs base)); lia|by intros s ->|]. intros b s (Hg & l' & [H1 H2] & H3 & _). done.
Qed.
End Rel.
End Evict.
