(* ===== verification/CommandProofs.v ===== *)
(** CommandProofs: no command of [db.c] fails an assertion or breaks the
    invariant, and a value it writes is signalled to the clients that watch
    it. *)
From Stdlib Require Strings.String.
From S2P Require Import Prelude Util UtilNum UtilSpec Sds Objects ObjectsSpec Server Db Multi ServerProofs KeyProofs.
From S2P Require Request Reply ReplySpec.
Import (notations) Strings.String.

Section Commands.
Context {V : Type} `{E : Rest V} {mode : Mode} `{EOk : !RestOk V}.
#[local] Abbreviation M := (M V).
#[local] Abbreviation server := (server V).
Implicit Types (s : server) (i : cid) (c : client) (d : nat) (k : key) (wk : watchedKey) (P : server -> Prop) (K : watchedKey -> Prop).

Lemma ll_arg k : is_Some (getLongLongFromObject (Some (arg_object k))).
Proof.
  unfold getLongLongFromObject, arg_object. cbn [type encoding ptr ptr_sds option_bind mbind sh_buf Z.eqb REDIS_STRING REDIS_ENCODING_RAW].
  destruct (cstr_split k []) as [g Hg]. pose proof (no_nul_cstr k) as Hn. rewrite Hg. set (n := cstr k) in *.
  destruct (strtoll_end_total n g Hn) as (v & b & t & er & ->).
  assert (exists ch0, rd (n ++ z2b 0 :: g) 0 = Some ch0) as [ch0 ->] by (destruct n as [|b0 n]; cbn [app]; rewrite rd_head; by eexists).
  cbn [option_bind mbind]. rewrite rd_head. cbn [option_bind mbind]. destruct (isspace ch0 || _ || er); by eexists.
Qed.

(** What follows is said of a command of the client [i], from [s0]. *)
Section Command.
Context (s0 : server) (i : cid) (c0 : client) (Hinv : inv s0) (Hi : store s0 !! i = Some c0).

(** The state before anything is changed. *)
Definition start s : Prop := same_core s0 s.
Lemma start_rel o K s : start s -> rel o K s0 s.
Proof. intros H. split; [by eapply core_inv|by apply core_changes]. Qed.
Lemma start_closed (m : M unit) : (forall s, exists s', m s = Some (tt, s') /\ same_core s s') -> triple start m (fun _ => start).
Proof.
  intros H s Hs. destruct (H s) as (s' & E' & Hc). exists tt, s'. split; [done|]. destruct Hs as (?&?&?&?), Hc as (?&?&?&?). repeat split; congruence.
Qed.
Lemma start_mstime : triple start mstime (fun t s => 0 <= t < 2 ^ 50 /\ start s).
Proof. intros s Hs. eexists _, _. split; [reflexivity|]. split; [apply clock_ok|]. exact Hs. Qed.

Lemma alive_rel K s : rel None K s0 s -> is_Some (store s !! i).
Proof. intros H. eapply rel_alive; [exact H|by eexists]. Qed.

Lemma arg_spec P j k : (forall s, P s -> start s) -> argv c0 !! j = Some k -> triple P (arg i j) (fun a s => a = k /\ P s).
Proof.
  intros HP Hk s Hs. destruct (HP s Hs) as (_ & _ & Hst & _). unfold arg, get_client, mbind, M_bind. rewrite Hst, Hi, Hk. by eexists _, _.
Qed.
Lemma start_db P : (forall s, P s -> start s) -> triple P (client_db i) (fun d s => d = db c0 /\ P s).
Proof. intros HP s Hs. destruct (HP s Hs) as (_ & _ & Hst & _). unfold client_db, get_client, mbind, M_bind. rewrite Hst, Hi. by eexists _, _. Qed.
Lemma db_in : (db c0 < length (dbs s0))%nat. Proof. by eapply inv_db. Qed.

Lemma start_len s d : start s -> (d < length (dbs s0))%nat -> (d < length (dbs s))%nat.
Proof. by intros (-> & _). Qed.

(** The state after a command: each value stays, is removed, or all who watch
    its key are dirty. *)
Definition fine s : Prop := inv s /\ exists K, changes None K s0 s /\ forall wk, K wk -> marked wk s \/ may_move = true.
Definition R0 : server -> Prop := rel None (fun _ => False) s0.

Lemma fine_R0 s : R0 s -> fine s.
Proof. intros [H1 H2]. split; [done|]. by exists (fun _ => False). Qed.

Lemma R0_closed : closed R0. Proof. apply rel_closed. Qed.
Lemma fine_closed : closed fine.
Proof.
  intros s s' Hm [H1 (K & H2 & H3)]. split; [by eapply inv_closed|]. exists K. split; [by eapply changes_closed|]. intros wk Hk. destruct (H3 wk Hk); [left; by eapply marked_closed|by right].
Qed.
Lemma fine_alive s : fine s -> is_Some (store s !! i).
Proof. intros [_ (K & H & _)]. apply (ch_alive _ _ _ _ H). by eexists. Qed.

Lemma reply_R0 r : triple R0 (add_reply i r) (fun _ => R0).
Proof. apply reply_closed; [apply R0_closed|apply alive_rel]. Qed.
Lemma reply_rel K r : triple (rel None K s0) (add_reply i r) (fun _ => rel None K s0).
Proof. apply reply_closed; [apply rel_closed|apply alive_rel]. Qed.
Lemma reply_fine r : triple fine (add_reply i r) (fun _ => fine).
Proof. apply reply_closed; [apply fine_closed|apply fine_alive]. Qed.

Lemma fine_db s d : fine s -> (d < length (dbs s0))%nat -> (d < length (dbs s))%nat.
Proof. intros [_ (K & H & _)]. by rewrite (ch_len _ _ _ _ H). Qed.

(** The keys of [L] may have been written since they were last signalled. *)
Definition pends (L : watchedKey -> Prop) s : Prop :=
  inv s /\ exists K, changes None K s0 s /\ forall wk, K wk -> (marked wk s \/ may_move = true) \/ L wk.
Lemma fine_pends L s : fine s -> pends L s.
Proof. intros [H1 (K & H2 & H3)]. split; [done|]. exists K. split; [done|]. intros wk Hk. left. by apply H3. Qed.
Lemma pends_fine L s : pends L s -> (forall wk, L wk -> marked wk s \/ may_move = true) -> fine s.
Proof. intros [H1 (K & H2 & H3)] HL. split; [done|]. exists K. split; [done|]. intros wk Hk. destruct (H3 wk Hk) as [?|?]; auto. Qed.
Lemma pends_closed L : closed (pends L).
Proof.
  intros s s' Hm [H1 (K & H2 & H3)]. split; [by eapply inv_closed|]. exists K. split; [by eapply changes_closed|].
  intros wk Hk. destruct (H3 wk Hk) as [[?|?]|?]; [left; left; by eapply marked_closed|left; by right|by right].
Qed.
Lemma pends_alive L s : pends L s -> is_Some (store s !! i).
Proof. intros [_ (K & H & _)]. apply (ch_alive _ _ _ _ H). by eexists. Qed.
Lemma pends_db L s d : pends L s -> (d < length (dbs s0))%nat -> (d < length (dbs s))%nat.
Proof. intros [_ (K & H & _)]. by rewrite (ch_len _ _ _ _ H). Qed.
Lemma pends_step L K s1 s2 : pends L s1 -> rel None K s1 s2 -> (forall wk, K wk -> (marked wk s1 \/ may_move = true) \/ L wk) -> pends L s2.
Proof.
  intros [_ (K1 & H1 & H2)] [H3 H4] HK. split; [done|]. exists (fun wk => K1 wk \/ K wk). split.
  - eapply changes_trans; [eapply changes_weaken; [by left| |exact H1]; auto|eapply changes_weaken; [by left| |exact H4]; auto].
  - intros wk [Hk|Hk]; [destruct (H2 wk Hk) as [[Hm|Hm]|Hm]|destruct (HK wk Hk) as [[Hm|Hm]|Hm]]; auto; left; left; by eapply marked_changes.
Qed.
Lemma fine_step K s1 s2 : fine s1 -> rel None K s1 s2 -> (forall wk, K wk -> marked wk s1 \/ may_move = true) -> fine s2.
Proof.
  intros H1 H2 HK. apply (pends_fine (fun _ => False)); [|done]. eapply pends_step; [by apply fine_pends|exact H2|]. intros wk Hk. left. by apply HK.
Qed.

(** The command is fine. *)
Definition cmd_fine (m : M unit) : Prop := triple start m (fun _ => fine).

Lemma cmd_R0 (m : M unit) : triple start m (fun _ => R0) -> cmd_fine m.
Proof. intros H. eapply triple_conseq; [exact H|done|]. intros a s. apply fine_R0. Qed.
Lemma from_R0 {A} (m : M A) (Q : A -> server -> Prop) : triple R0 m Q -> triple start m Q.
Proof. intros H. eapply triple_conseq; [exact H|apply start_rel|done]. Qed.

Lemma getLL_spec P k msg : closed P -> (forall s, P s -> is_Some (store s !! i)) ->
  triple P (getLongLongFromObjectOrReply i k msg) (fun v s => getLongLongFromObject (Some (arg_object k)) = Some v /\ P s).
Proof.
  intros HP Ha. unfold getLongLongFromObjectOrReply, longLongOrReply. eapply triple_bind; [by apply triple_some, (fun _ _ => ll_arg k)|cbv beta; intros v].
  apply triple_fact. intros Hv. destruct v as [v|]; [by apply triple_ret|].
  eapply triple_bind; [by apply reply_closed|cbv beta; intros _]. by apply triple_ret.
Qed.
Lemma getLong_spec P k msg : closed P -> (forall s, P s -> is_Some (store s !! i)) ->
  triple P (getLongFromObjectOrReply i k msg) (fun _ => P).
Proof.
  intros HP Ha. unfold getLongFromObjectOrReply. eapply triple_bind; [by apply getLL_spec|cbv beta; intros v].
  apply triple_drop. destruct v as [v|]; [|by apply triple_ret]. destruct (_ || _); [|by apply triple_ret].
  eapply triple_bind; [by apply reply_closed|cbv beta; intros _]. by apply triple_ret.
Qed.

(** *** Reading the arguments *)

Lemma has_arg j : (j < length (argv c0))%nat -> exists k, argv c0 !! j = Some k.
Proof. intros H. apply lookup_lt_is_Some_2 in H as [k Hk]. by exists k. Qed.

Ltac read_db := eapply triple_bind; [by apply start_db|cbv beta; intros ?d; apply triple_fact; intros ->].
Ltac read_arg Hk := eapply triple_bind; [eapply arg_spec; [done|exact Hk]|cbv beta; intros ?a; apply triple_fact; intros ->].

Lemma dirty_R0 n : triple R0 (add_dirty n) (fun _ => R0).
Proof. apply dirty_closed, R0_closed. Qed.
Lemma R0_len s d : R0 s -> (d < length (dbs s0))%nat -> (d < length (dbs s))%nat. Proof. apply rel_len. Qed.

Lemma signal_spec P d k : closed P -> (forall s, P s -> inv s /\ (d < length (dbs s))%nat) ->
  triple P (signalModifiedKey d k) (fun _ s => P s /\ marked (WatchedKey k d) s).
Proof. apply touch_spec. Qed.
(** *** Commands that only read or remove *)

Lemma exists_fine : (2 <= length (argv c0))%nat -> cmd_fine (existsCommand i).
Proof.
  intros Hl. destruct (has_arg 1) as [k Hk]; [lia|]. apply cmd_R0. unfold existsCommand. read_db. read_arg Hk. apply from_R0.
  eapply triple_bind; [apply expireIfNeeded_spec, db_in|cbv beta; intros _]. 
  eapply (triple_bind _ _ _ (fun _ => R0)); [|intros b; destruct b; apply reply_R0].
  unfold dbExists. eapply triple_bind; [apply get_db_spec; intros s HR; eapply R0_len; [exact HR|apply db_in]|cbv beta; intros x]. apply triple_drop. by apply triple_ret.
Qed.

Lemma dirty_fine n : triple fine (add_dirty n) (fun _ => fine). Proof. apply dirty_closed, fine_closed. Qed.

(** The one key is pending. *)
Lemma signal_pends d k : (d < length (dbs s0))%nat -> triple (pends (fun wk => wk = WatchedKey k d)) (signalModifiedKey d k) (fun _ => fine).
Proof.
  intros Hd. set (L := fun wk => _). eapply triple_conseq; [apply (signal_spec (pends L) d k); [apply pends_closed|]|done|].
  - intros s Hs. split; [apply Hs|by eapply pends_db].
  - intros _ s [Hs Hm]. eapply pends_fine; [exact Hs|]. intros wk ->. by left.
Qed.
(** Deleting a key that is there makes it pending, another one is fine. *)
Lemma delete_pends d k : (d < length (dbs s0))%nat ->
  triple fine (dbDelete d k) (fun b s => if b : bool then pends (fun wk => wk = WatchedKey k d) s else fine s).
Proof.
  intros Hd. apply triple_pre. intros s1 H1. set (v := lookup s1 (WatchedKey k d)). set (K := fun wk => is_Some v /\ wk = WatchedKey k d).
  eapply triple_conseq; [apply (delete_spec None K s1 d k v); by eapply fine_db| |].
  - intros s ->. split; [split; [by apply rel_start, H1|done]|]. unfold may_delete, K. fold v. destruct v; [left; split; [by eexists|done]|auto].
  - cbv beta. intros b s (-> & HR & _). case_bool_decide as Hv.
    + eapply pends_step; [by apply fine_pends|exact HR|]. intros wk [_ ->]. by right.
    + eapply fine_step; [done|exact HR|]. by intros wk [? _].
Qed.

Lemma del_loop_fine ks : forall n, triple fine (del_loop (db c0) ks n) (fun _ => fine).
Proof.
  induction ks as [|k ks IH]; intros n; [by apply triple_ret|]. cbn [del_loop].
  eapply triple_bind; [apply delete_pends, db_in|cbv beta; intros b]. destruct b; [|apply IH].
  eapply triple_bind; [apply signal_pends, db_in|cbv beta; intros _]. eapply triple_bind; [apply dirty_fine|cbv beta; intros _]. apply IH.
Qed.
Lemma begin_fine {A} (m : M A) (Q : A -> server -> Prop) : triple fine m Q -> triple start m Q.
Proof. intros H. eapply triple_conseq; [exact H|intros s Hs; apply fine_R0; by apply start_rel|done]. Qed.
Lemma read_client P : (forall s, P s -> start s) -> triple P (get_client i) (fun c s => c = c0 /\ P s).
Proof. intros HP s Hs. destruct (HP s Hs) as (_ & _ & Hst & _). unfold get_client. rewrite Hst, Hi. by eexists _, _. Qed.

Lemma del_fine : cmd_fine (delCommand i).
Proof.
  unfold cmd_fine, delCommand. eapply triple_bind; [by apply read_client|cbv beta; intros c; apply triple_fact; intros ->]. apply begin_fine.
  eapply triple_bind; [apply del_loop_fine|cbv beta; intros n]. apply reply_fine.
Qed.

Lemma type_fine : (2 <= length (argv c0))%nat -> cmd_fine (typeCommand i).
Proof.
  intros Hl. destruct (has_arg 1) as [k Hk]; [lia|]. apply cmd_R0. unfold typeCommand. read_db. read_arg Hk. apply from_R0.
  eapply triple_bind; [apply lookupRead_spec, db_in|cbv beta; intros v]. apply triple_drop. apply reply_R0.
Qed.

Lemma dbsize_fine : cmd_fine (dbsizeCommand i).
Proof.
  apply cmd_R0. unfold dbsizeCommand. read_db. apply from_R0.
  eapply triple_bind; [apply get_db_spec; intros s HR; eapply R0_len; [exact HR|apply db_in]|cbv beta; intros x]. apply triple_drop. apply reply_R0.
Qed.

Lemma keys_loop_R0 p allkeys ks : glob_safe p \/ allkeys = true -> forall body,
  triple R0 (keys_loop (db c0) p (Z.of_nat (length p)) allkeys ks body) (fun _ => R0).
Proof.
  intros Hp. induction ks as [|k ks IH]; intros body; [by apply triple_ret|]. cbn [keys_loop].
  eapply (triple_bind _ _ _ (fun _ => R0)).
  - destruct allkeys; [by apply triple_ret|]. destruct Hp as [Hp|]; [|done]. eapply triple_conseq; [apply (triple_some R0); intros _ _; apply Hp|done|]. by intros b s [_ ?].
  - intros b. destruct b; [|apply IH]. eapply triple_bind; [apply expireIfNeeded_spec, db_in|cbv beta; intros e]. apply IH.
Qed.
Lemma keys_fine : args_ok KeysCommand (argv c0) -> cmd_fine (keysCommand i).
Proof.
  intros [Hl Hf]. destruct (has_arg 1) as [k Hk]; [cbn in Hl; lia|]. specialize (Hf k Hk). apply cmd_R0. unfold keysCommand. read_db. read_arg Hk. apply from_R0.
  eapply triple_bind; [apply get_db_spec; intros s HR; eapply R0_len; [exact HR|apply db_in]|cbv beta; intros x]. apply triple_drop.
  eapply triple_bind; [apply keys_loop_R0; by left|cbv beta; intros body]. apply reply_R0.
Qed.

(** A time to live does not overflow. *)
Lemma ttl_fine ms : (2 <= length (argv c0))%nat -> cmd_fine (ttlGenericCommand i ms).
Proof.
  intros Hl. destruct (has_arg 1) as [k Hk]; [lia|]. apply cmd_R0. unfold ttlGenericCommand. read_db. read_arg Hk.
  eapply triple_bind; [apply (getExpire_spec start); intros s Hs; split; [by apply (start_rel None (fun _ => False) s Hs)|eapply start_len; [exact Hs|apply db_in]]|cbv beta; intros e].
  apply triple_fact. intros He. unfold time_ok in He. eapply (triple_conseq start); [|by intros s [? _]|intros a s Hq; exact Hq].
  eapply (triple_bind _ _ _ (fun t s => - 2 ^ 62 < t < 2 ^ 63 - 500 /\ R0 s)).
  - destruct (negb (e =? -1)).
    + eapply triple_bind; [apply start_mstime|cbv beta; intros t]. apply triple_fact. intros Ht.
      eapply triple_bind; [apply triple_opt; intros s Hs; apply chk64_ok; lia|cbv beta; intros u]. apply triple_fact. intros ->.
      apply triple_ret. intros s Hs. split; [destruct (Z.ltb_spec (e - t) 0); lia|by apply start_rel].
    + apply triple_ret. intros s Hs. split; [lia|by apply start_rel].
  - intros t. apply triple_fact. intros Ht. destruct (t =? -1); [apply reply_R0|]. destruct ms; [apply reply_R0|].
    eapply triple_bind; [apply triple_opt; intros s Hs; apply chk64_ok; lia|cbv beta; intros u]. apply triple_drop. apply reply_R0.
Qed.

Lemma persist_fine : (2 <= length (argv c0))%nat -> cmd_fine (persistCommand i).
Proof.
  intros Hl. destruct (has_arg 1) as [k Hk]; [lia|]. apply cmd_R0. unfold persistCommand. read_db. read_arg Hk. apply from_R0.
  eapply triple_bind; [apply get_db_spec; intros s HR; eapply R0_len; [exact HR|apply db_in]|cbv beta; intros x].
  destruct (dict x !! k) as [v|] eqn:Hv; [|apply triple_drop, reply_R0].
  eapply (triple_bind _ _ _ (fun _ => R0)).
  - eapply triple_conseq; [apply (removeExpire_spec None (fun _ => False) s0 (db c0) k v), db_in| |by intros b s [? _]]. intros s [Hx HR]. split; [exact HR|]. by rewrite (lookup_db _ _ _ _ Hx).
  - intros b. destruct b; [|apply reply_R0]. eapply triple_bind; [apply reply_R0|cbv beta; intros _]. apply dirty_R0.
Qed.

(** *** Flushing, selecting and drawing *)

(** After the signal of a flush. *)
Definition flushing (dbid : option nat) s : Prop := fine s /\ forall wk, flushed dbid wk -> lookup s wk <> None -> marked wk s.
Lemma flushing_closed dbid : closed (flushing dbid).
Proof.
  apply closed_and; [apply fine_closed|]. intros s s' Hm H wk Hf Hv. eapply marked_closed; [exact Hm|]. apply H; [done|]. by rewrite <-(mild_lookup _ _ _ Hm).
Qed.
Lemma signalFlush_fine dbid : triple fine (signalFlushedDb dbid) (fun _ => flushing dbid).
Proof. apply flush_spec; [apply fine_closed|by intros s [? _]]. Qed.

(** Keys that are there have been signalled when they are flushed. *)
Lemma flush_step dbid s s' : flushing dbid s -> rel None (fun wk => flushed dbid wk /\ lookup s wk <> None) s s' -> fine s'.
Proof. intros [H1 H2] HR. eapply fine_step; [done|exact HR|]. intros wk [Hf Hv]. left. by apply H2. Qed.

(** An emptied database. *)
Lemma emptied_entry s d (x : redisDb V) k : dbs s !! d = Some x -> lookup s (WatchedKey k d) <> None \/ entry_step s x (empty_db x) k.
Proof.
  intros Hx. rewrite (lookup_db _ _ _ _ Hx). destruct (dict x !! k) as [v|] eqn:Hv; [by left|right; left]. unfold empty_db. cbn [dict expires].
  rewrite Hv, !lookup_empty. split; [done|]. by intros [? ?].
Qed.
Lemma flush_fine d : (d < length (dbs s0))%nat -> triple (flushing (Some d)) (set_dict d (fun _ => ∅) ;; set_expires d (fun _ => ∅)) (fun _ => fine).
Proof.
  intros Hd s Hs. destruct (lookup_lt_is_Some_2 _ _ (fine_db _ _ (proj1 Hs) Hd)) as [x Hx]. unfold mbind, M_bind. rewrite (set_dict_run _ _ _ _ Hx).
  rewrite (set_expires_run _ d (RedisDb ∅ (expires x) (watched_keys x))) by (apply list_lookup_insert_eq; by eapply lookup_lt_Some).
  cbn [dict watched_keys dbs with_dbs]. rewrite list_insert_insert_eq. eexists _, _. split; [done|]. apply (flush_step _ _ _ Hs).
  apply (rel_write None _ s s d x (empty_db x)); [apply rel_start, Hs|done|done|by intros k t|]. intros k.
  destruct (emptied_entry s d x k Hx) as [?|?]; [left; split; [by right|done]|by right].
Qed.

Lemma flushdb_fine : cmd_fine (flushdbCommand i).
Proof.
  unfold cmd_fine, flushdbCommand. read_db. apply begin_fine.
  eapply triple_bind; [apply get_db_spec; intros s HR; eapply fine_db; [exact HR|apply db_in]|cbv beta; intros x]. apply triple_drop.
  eapply triple_bind; [apply dirty_fine|cbv beta; intros _]. eapply triple_bind; [apply signalFlush_fine|cbv beta; intros _].
  apply triple_assoc. eapply triple_bind; [apply flush_fine, db_in|cbv beta; intros _]. apply reply_fine.
Qed.

Lemma emptyDb_fine : triple (flushing None) emptyDb (fun _ => fine).
Proof.
  intros s Hs. eexists _, _. split; [reflexivity|]. apply (flush_step _ _ _ Hs). apply rel_dbs; [apply rel_start, Hs|apply length_fmap|].
  intros d x x' Hx Hx'. rewrite list_lookup_fmap, Hx in Hx'. injection Hx' as <-. split; [done|]. split; [by intros k t|]. intros k.
  destruct (emptied_entry s d x k Hx) as [?|?]; [left; split; [by left|done]|by right].
Qed.
Lemma flushall_fine : cmd_fine (flushallCommand i).
Proof.
  apply begin_fine. unfold flushallCommand. eapply triple_bind; [apply signalFlush_fine|cbv beta; intros _].
  eapply triple_bind; [apply emptyDb_fine|cbv beta; intros n]. eapply triple_bind; [apply dirty_fine|cbv beta; intros _].
  eapply triple_bind; [apply reply_fine|cbv beta; intros _]. eapply triple_bind; [apply triple_get|cbv beta; intros s1].
  eapply (triple_bind _ _ _ (fun _ => fine)); [|intros _; apply dirty_fine]. apply triple_pre. intros s2 [-> Hs]. destruct (0 <? _); [|apply triple_ret; by intros s ->].
  apply triple_put. intros s ->. eapply (fine_closed s2); [apply core_mild; by repeat split|done].
Qed.

(** Changing the client's database. *)
Lemma index_rel K d s : rel None K s0 s -> (d < length (dbs s0))%nat ->
  exists s', update i (fun c => set_db_index c d) s = Some (tt, s') /\ rel None K s0 s'.
Proof.
  intros HR Hd. destruct (alive_rel K s HR) as [c Hc]. unfold update, get_client, set_client, mbind, M_bind. rewrite Hc. eexists. split; [done|].
  eapply rel_client; [done|done|done|exact (inv_queue _ (proj1 HR) i c Hc)|by eapply rel_len|]. right. split_and!; auto.
Qed.

Lemma selectDb_rel K id : triple (rel None K s0) (selectDb i id) (fun _ => rel None K s0).
Proof.
  unfold selectDb. eapply triple_bind; [apply triple_get|cbv beta; intros s1]. apply triple_pre. intros s2 [-> HR].
  destruct (Z.ltb_spec id 0) as [|H0]; [apply triple_ret; by intros s ->|]. destruct (Z.leb_spec (Z.of_nat (length (dbs s2))) id) as [|H1]; [apply triple_ret; by intros s ->|].
  cbn [orb]. intros s ->. destruct (index_rel K (Z.to_nat id) s2 HR) as (s' & Er & HR').
  { destruct HR as [_ HR]. rewrite <-(ch_len _ _ _ _ HR). lia. }
  exists true, s'. unfold mbind, M_bind. by rewrite Er.
Qed.

Lemma select_fine : (2 <= length (argv c0))%nat -> cmd_fine (selectCommand i).
Proof.
  intros Hl. destruct (has_arg 1) as [k Hk]; [lia|]. apply cmd_R0. unfold selectCommand. read_arg Hk. apply from_R0.
  eapply triple_bind; [apply getLong_spec; [apply R0_closed|apply alive_rel]|cbv beta; intros id]. destruct id as [id|]; [|by apply triple_ret].
  eapply triple_bind; [apply selectDb_rel|cbv beta; intros b]. destruct b; apply reply_R0.
Qed.

(** Each key drawn that is expired is deleted. *)
Lemma randomKey_R0 d fuel : (d < length (dbs s0))%nat -> masterhost (conf s0) = false ->
  triple (fun s => R0 s /\ exists x, dbs s !! d = Some x /\ (size (dict x) < fuel)%nat) (dbRandomKey fuel d) (fun _ => R0).
Proof.
  intros Hd Hm. induction fuel as [|fuel IH]; [intros s (_ & x & _ & Hs); lia|]. apply triple_pre. intros s1 (HR & x & Hx & Hs). cbn [dbRandomKey].
  eapply triple_bind; [apply get_db_spec; by intros s ->; eapply R0_len|cbv beta; intros x']. apply triple_pre. intros s2 [Hx' ->]. assert (x' = x) as -> by congruence.
  eapply triple_bind; [apply triple_get|cbv beta; intros s2]. apply triple_pre. intros s3 [-> ->].
  set (P := fun s => R0 s /\ dbs s !! d = Some x).
  eapply (triple_bind _ _ _ (fun _ => P)).
  { apply triple_put. intros s ->. split; [|done]. eapply (R0_closed s1); [apply core_mild; by repeat split|done]. }
  intros _. destruct (random_key _ _) as [k|] eqn:Hk; [|by apply triple_ret; intros s [? _]].
  destruct (expires x !! k); [|by apply triple_ret; intros s [? _]].
  eapply triple_bind; [by apply expire_deletes|cbv beta; intros b]. destruct b; [|by apply triple_ret; intros s [? _]].
  eapply triple_conseq; [apply IH| |done]. intros s (HR' & x' & Hx2 & E2). split; [done|]. exists x'. split; [done|]. rewrite E2.
  apply random_in in Hk as [v Hv]. rewrite map_size_delete_Some by by eexists. pose proof (map_size_ne_0_lookup_2 _ _ (mk_is_Some _ _ Hv)). lia.
Qed.
Lemma randomkey_fine : args_ok RandomkeyCommand (argv c0) -> cmd_fine (randomkeyCommand i).
Proof.
  intros [_ Hm]. cbn in Hm. apply cmd_R0. unfold randomkeyCommand. read_db. apply from_R0.
  eapply triple_bind; [apply get_db_spec; intros s HR; eapply R0_len; [exact HR|apply db_in]|cbv beta; intros x].
  eapply triple_bind; [eapply triple_conseq; [apply (randomKey_R0 (db c0) (S (size (dict x)))); [apply db_in|by apply Hinv]| |done]|cbv beta; intros k].
  - intros s [Hx HR]. split; [done|]. exists x. split; [done|lia].
  - destruct k; apply reply_R0.
Qed.

(** *** Writing *)

(** A key that is written is signalled. *)
Lemma signal_fine K d k : (d < length (dbs s0))%nat -> (forall wk, K wk -> wk = WatchedKey k d) ->
  triple (rel None K s0) (signalModifiedKey d k) (fun _ => fine).
Proof.
  intros Hd HK. eapply triple_conseq; [apply (signal_spec (rel None K s0) d k); [apply rel_closed|]|done|].
  - intros s HR. split; [apply HR|by eapply rel_len].
  - intros _ s [[H1 H2] Hm]. split; [done|]. exists K. split; [done|]. intros wk Hk. left. by rewrite (HK wk Hk).
Qed.
Lemma signal_rel K d k : (d < length (dbs s0))%nat -> triple (rel None K s0) (signalModifiedKey d k) (fun _ => rel None K s0).
Proof.
  intros Hd. eapply triple_conseq; [apply (signal_spec (rel None K s0) d k); [apply rel_closed|]|done|by intros _ s [? _]].
  intros s HR. split; [apply HR|by eapply rel_len].
Qed.
Lemma R0_rel K s : R0 s -> rel None K s0 s.
Proof. intros [H1 H2]. split; [done|]. eapply changes_weaken; [by left| |exact H2]. by intros wk []. Qed.

Lemma rewrite_rel K k : triple (rel None K s0) (rewriteClientCommandVector i [text "DEL"; k]) (fun _ => rel None K s0).
Proof.
  unfold rewriteClientCommandVector. eapply triple_bind; [apply triple_opt; by intros s _|cbv beta; intros n]. apply triple_fact. intros ->.
  destruct del_ok as (x & Hx & Hdel). eapply triple_bind; [apply triple_opt; intros s _; exact Hx|cbv beta; intros y]. apply triple_fact. intros ->.
  apply argv_closed; [apply rel_closed|apply alive_rel|]. exists x. split; [done|]. rewrite Hdel. split; [by repeat split|]. by split; [cbn; lia|].
Qed.

(** The key that gets a time, or is deleted, is signalled. *)
Lemma expireGeneric_fine base units : 0 <= base < 2 ^ 50 -> (3 <= length (argv c0))%nat -> (forall k, argv c0 !! 2%nat = Some k -> small_time k) ->
  triple start (expireGenericCommand i base units) (fun _ => fine).
Proof.
  intros Hb Hl Hsm. destruct (has_arg 1) as [k Hk]; [lia|]. destruct (has_arg 2) as [p Hp]; [lia|]. specialize (Hsm p Hp). unfold expireGenericCommand.
  read_arg Hk. read_arg Hp. read_db. apply from_R0. set (K := fun wk => wk = WatchedKey k (db c0)).
  eapply triple_bind; [apply getLL_spec; [apply R0_closed|apply alive_rel]|cbv beta; intros v]. apply triple_fact. intros Hv.
  destruct v as [v|]; [|apply triple_ret; apply fine_R0]. apply Hsm in Hv.
  eapply (triple_bind _ _ _ (fun w s => - 2 ^ 60 < w < 2 ^ 60 /\ R0 s)).
  { destruct (units =? UNIT_SECONDS); [|apply triple_ret; intros s Hs; split; [lia|done]]. eapply triple_conseq; [apply (triple_opt R0 _ (v * 1000)); intros s _; apply chk64_ok; lia|done|].
    intros w s [-> Hs]. split; [lia|done]. }
  intros w. apply triple_fact. intros Hw. eapply triple_bind; [apply triple_opt; intros s _; apply chk64_ok; lia|cbv beta; intros when]. apply triple_fact. intros ->.
  eapply triple_bind; [apply lookupRead_spec, db_in|cbv beta; intros o].
  destruct o as [o|]; [|apply triple_drop; eapply triple_conseq; [apply reply_R0|done|intros a s; apply fine_R0]].
  set (P := fun s => rel None K s0 s /\ lookup s (WatchedKey k (db c0)) = Some o).
  eapply (triple_conseq P); [|intros s [? ?]; split; [by apply R0_rel|done]|intros a s Hq; exact Hq].
  eapply triple_bind; [apply mstime_closed; apply closed_and; [apply rel_closed|apply (lookup_closed _ (fun v => v = Some o))]|cbv beta; intros now].
  eapply triple_bind; [apply triple_get|cbv beta; intros s1]. apply triple_drop. destruct (_ && _).
  - eapply triple_bind; [eapply triple_conseq; [apply (delete_spec None K s0 (db c0) k (Some o)), db_in| |intros a s Hq; exact Hq]|cbv beta; intros b].
    { intros s Hs. split; [done|]. by left. }
    apply triple_fact. intros ->. rewrite bool_decide_eq_true_2 by by eexists.
    eapply (triple_conseq (rel None K s0)); [|by intros s [? _]|intros a s Hq; exact Hq].
    eapply triple_bind; [by apply triple_check|cbv beta; intros _]. eapply triple_bind; [apply dirty_closed, rel_closed|cbv beta; intros _].
    eapply triple_bind; [apply rewrite_rel|cbv beta; intros _]. eapply triple_bind; [apply (signal_fine K); [apply db_in|done]|cbv beta; intros _]. apply reply_fine.
  - eapply (triple_bind _ _ _ (fun _ => rel None K s0)); [eapply triple_conseq; [apply (setExpire_spec None K s0 (db c0) k o); [apply db_in|done|unfold time_ok; lia]|done|by intros _ s [? _]]|].
    intros _. eapply triple_bind; [apply reply_rel|cbv beta; intros _]. eapply triple_bind; [apply (signal_fine K); [apply db_in|done]|cbv beta; intros _]. apply dirty_fine.
Qed.

(** The four commands; [p] is the handler. *)
Definition expire_proc (p : redisCommandProc) : option (M unit) :=
  match p with
  | ExpireCommand => Some (expireCommand i) | ExpireatCommand => Some (expireatCommand i)
  | PexpireCommand => Some (pexpireCommand i) | PexpireatCommand => Some (pexpireatCommand i)
  | _ => None
  end.
Lemma expire_fine p m : expire_proc p = Some m -> args_ok p (argv c0) -> cmd_fine m.
Proof.
  intros Hp [Hl Hf]. assert ((3 <= length (argv c0))%nat /\ forall k, argv c0 !! 2%nat = Some k -> small_time k) as [H1 H2] by by destruct p.
  destruct p; try discriminate Hp; injection Hp as <-; [|by apply expireGeneric_fine| |by apply expireGeneric_fine];
    (eapply triple_bind; [apply start_mstime|cbv beta; intros t; apply triple_fact; intros Ht; by apply expireGeneric_fine]).
Qed.

Lemma lookupOrReply_rel K k o : triple start (lookupKeyWriteOrReply i k o) (fun _ => rel None K s0).
Proof.
  unfold lookupKeyWriteOrReply. read_db. eapply (triple_conseq (rel None K s0)); [|apply start_rel|intros a s Hq; exact Hq].
  eapply triple_bind; [apply lookupWrite_spec, db_in|cbv beta; intros v]. apply triple_drop.
  eapply (triple_bind _ _ _ (fun _ => rel None K s0)); [destruct v; [by apply triple_ret|apply reply_rel]|intros _; by apply triple_ret].
Qed.

(** Nothing is changed before the two keys are written, and both are
    signalled. *)
Lemma rename_fine nx : (3 <= length (argv c0))%nat -> cmd_fine (renameGenericCommand i nx).
Proof.
  intros Hl. destruct (has_arg 1) as [src Hsrc]; [lia|]. destruct (has_arg 2) as [dst Hdst]; [lia|]. unfold cmd_fine, renameGenericCommand. read_arg Hsrc. read_arg Hdst.
  destruct (bool_decide (src = dst)); [apply cmd_R0, from_R0, reply_R0|]. read_db. set (d := db c0). pose proof db_in as Hd. fold d in Hd.
  set (K := fun wk => wk = WatchedKey src d \/ wk = WatchedKey dst d). set (R := rel None K s0).
  eapply triple_bind; [apply (lookupOrReply_rel (fun _ => False))|cbv beta; intros o]. destruct o as [o|]; [|apply triple_ret; apply fine_R0].
  eapply triple_bind; [apply (getExpire_spec R0); intros s HR; split; [apply HR|by eapply rel_len]|cbv beta; intros e]. apply triple_fact. intros He.
  eapply (triple_conseq R0); [|by intros s [? _]|intros a s Hq; exact Hq].
  eapply triple_bind; [by apply lookupWrite_spec|cbv beta; intros v].
  assert (triple (fun s => R s /\ lookup s (WatchedKey dst d) = v) (if v is None then mret tt else dbDelete d dst ;; mret tt)
    (fun _ s => R s /\ lookup s (WatchedKey dst d) = None)) as Hclear.
  { destruct v as [v|]; [|by apply triple_ret]. eapply triple_bind; [eapply triple_conseq; [by apply (delete_spec None K s0 d dst (Some v))| |intros a s Hq; exact Hq]|cbv beta; intros b].
    - intros s Hs. split; [done|]. left. by right.
    - apply triple_fact. intros _. by apply triple_ret. }
  destruct (if v is None then false else nx).
  { eapply triple_conseq; [apply (reply_fine (ReplySpec.CObj _))| |intros a s Hq; exact Hq]. intros s [_ HR]. by apply fine_R0. }
  eapply triple_bind; [eapply triple_conseq; [exact Hclear| |intros a s Hq; exact Hq]|cbv beta; intros _]; [by intros s [? HR]; split; [apply R0_rel|]|].
  eapply triple_bind; [apply (dbAdd_spec None K s0); [done|by right]|cbv beta; intros _].
  eapply (triple_bind _ _ _ (fun _ => R)).
  { destruct (negb _); [eapply triple_conseq; [apply (setExpire_spec None K s0 d dst o); [done|by right|done]|done|by intros _ s [? _]]|apply triple_ret; by intros s [? _]]. }
  intros _. eapply triple_bind; [apply (delete_any None K s0); [done|by left]|cbv beta; intros _].
  eapply triple_bind; [apply (signal_spec R d src); [apply rel_closed|]|cbv beta; intros _]. { intros s HR. split; [apply HR|by eapply rel_len]. }
  eapply (triple_bind _ _ _ (fun _ => fine)); [|intros _; eapply triple_bind; [apply dirty_fine|cbv beta; intros _; apply reply_fine]].
  eapply triple_conseq; [apply (signal_spec (fun s => R s /\ marked (WatchedKey src d) s) d dst)|done|].
  - apply closed_and; [apply rel_closed|apply (marked_closed (WatchedKey src d))].
  - intros s [HR _]. split; [apply HR|by eapply rel_len].
  - intros _ s [[[H1 H2] Hm1] Hm2]. split; [done|]. exists K. split; [done|]. by intros wk [-> | ->]; left.
Qed.

(** [MOVE] writes the key of both databases, and signals neither. *)
Definition moved (k : key) wk : Prop := wk_key wk = k.
Lemma move_rel : (3 <= length (argv c0))%nat -> triple start (moveCommand i) (fun _ s => exists k, argv c0 !! 1%nat = Some k /\ rel None (moved k) s0 s).
Proof.
  intros Hl. destruct (has_arg 1) as [k Hk]; [lia|]. destruct (has_arg 2) as [a Ha]; [lia|].
  eapply triple_conseq; [|by intros s Hs; exact Hs|intros b s Hs; exists k; split; [exact Hk|exact Hs]].
  unfold moveCommand. read_arg Hk. read_arg Ha. read_db. set (R := rel None (moved k) s0).
  eapply (triple_conseq R); [|apply start_rel|intros b s Hq; exact Hq].
  eapply triple_bind; [apply selectDb_rel|cbv beta; intros b]. destruct (negb b); [apply reply_rel|].
  eapply (triple_bind _ _ _ (fun d s => (d < length (dbs s0))%nat /\ R s)).
  { intros s HR. destruct (alive_rel _ s HR) as [c Hc]. unfold client_db, get_client, mbind, M_bind. rewrite Hc. eexists _, _. split; [done|]. split; [|done].
    destruct HR as [HI HR]. rewrite <-(ch_len _ _ _ _ HR). by eapply inv_db. }
  intros d. apply triple_fact. intros Hd. eapply triple_bind; [apply selectDb_rel|cbv beta; intros _]. destruct (bool_decide _); [apply reply_rel|].
  eapply triple_bind; [apply lookupWrite_spec, db_in|cbv beta; intros o]. destruct o as [o|]; [apply triple_drop|apply triple_drop, reply_rel].
  eapply triple_bind; [by apply lookupWrite_spec|cbv beta; intros v]. destruct v as [v|]; [apply triple_drop, reply_rel|].
  eapply (triple_conseq (fun s => R s /\ lookup s (WatchedKey k d) = None)); [|by intros s [? ?]|intros x s Hq; exact Hq].
  eapply (triple_bind _ _ _ (fun _ => R)); [eapply triple_conseq; [by apply (dbAdd_spec None (moved k) s0 d k o)|done|by intros _ s [? _]]|].
  intros _. eapply triple_bind; [by apply (delete_any None (moved k) s0); [apply db_in|]|cbv beta; intros _]. eapply triple_bind; [apply dirty_closed, rel_closed|cbv beta; intros _]. apply reply_rel.
Qed.
End Command.
End Commands.
