(* ===== verification/StringProofs.v ===== *)
(** StringProofs: no command on strings fails an assertion or breaks the
    invariant, and each signals the keys it writes. *)
From Stdlib Require Strings.String.
From S2P Require Import Prelude Util UtilNum UtilSpec Sds Objects ObjectsSpec Server Db Strings Bitops BitopsProofs Multi ServerProofs KeyProofs CommandProofs.
From S2P Require Reply ReplySpec Request.
Import (notations) Strings.String.

(** ** Values *)

Lemma tryEncoding_total bs : is_Some (tryEncoding bs).
Proof.
  unfold tryEncoding. destruct (string2l (bs ++ [z2b 0]) (Z.of_nat (length bs))) as [r|] eqn:Er; [by eexists|]. exfalso.
  destruct (string2ll_spec bs [z2b 0]) as (r & E & Hr). unfold string2l in Er. rewrite E in Er. cbn [option_bind mbind] in Er. destruct r as [v|]; [|done]. by destruct (_ || _).
Qed.

Lemma grow_zero_some bs len : 0 <= len < 2 ^ 31 -> exists bs', grow_zero bs len = Some bs' /\ len <= Z.of_nat (length bs').
Proof.
  intros Hl. unfold grow_zero. destruct (Z.leb_spec len (Z.of_nat (length bs))); [by exists bs|]. rewrite (proj2 (Z.ltb_lt _ _)) by lia. eexists. split; [done|].
  rewrite length_app, length_replicate. lia.
Qed.
Lemma mem_write_some m off bs : 0 <= off -> off + Z.of_nat (length bs) <= Z.of_nat (length m) -> is_Some (mem_write m off bs).
Proof. intros H1 H2. unfold mem_write. rewrite decide_True by done. by eexists. Qed.

Section Commands.
Context {V : Type} `{E : Rest V} {mode : Mode} `{EOk : !RestOk V}.
#[local] Abbreviation M := (M V).
#[local] Abbreviation server := (server V).
Implicit Types (s : server) (i : cid) (c : client) (d : nat) (k : key) (wk : watchedKey) (P : server -> Prop) (K : watchedKey -> Prop) (x : string_value).

Lemma object_number x : is_Some (getLongLongFromObject (Some (string_object x))).
Proof. destruct x as [bs|v]; [apply ll_arg|by eexists]. Qed.
Lemma value_number (x : option string_value) : is_Some (getLongLongFromObject (string_object <$> x)).
Proof. destruct x as [x|]; [apply object_number|by eexists]. Qed.

Lemma mstime_now P : closed P -> triple P mstime (fun t s => 0 <= t < 2 ^ 50 /\ P s).
Proof.
  intros HP s Hs. destruct (mstime_closed P HP s Hs) as (t & s' & Et & Hs'). exists t, s'. split; [done|]. split; [|done]. unfold mstime in Et. injection Et as <- <-. apply clock_ok.
Qed.

(** What follows is said of a command of the client [i], from [s0]. *)
Section Command.
Context (s0 : server) (i : cid) (c0 : client) (Hinv : inv s0) (Hi : store s0 !! i = Some c0).
#[local] Abbreviation d := (db c0).
#[local] Abbreviation fine := (fine s0).
#[local] Abbreviation start := (start s0).

Lemma start_fine s : start s -> fine s.
Proof. intros H. apply fine_R0. by apply start_rel. Qed.
Lemma from_fine {A} (m : M A) (Q : A -> server -> Prop) : triple fine m Q -> triple start m Q.
Proof. by apply CommandProofs.begin_fine. Qed.
Lemma fine_len s : fine s -> (d < length (dbs s))%nat.
Proof. intros H. eapply fine_db; [exact H|by eapply inv_db]. Qed.

(** The key [k] may have been written since it was last signalled. *)
Definition pend k : server -> Prop := pends s0 (fun wk => wk = WatchedKey k d).
Lemma fine_pend k s : fine s -> pend k s. Proof. apply fine_pends. Qed.
Lemma pend_closed k : closed (pend k). Proof. apply pends_closed. Qed.
Lemma pend_alive k s : pend k s -> is_Some (store s !! i). Proof. by apply (pends_alive s0 i c0). Qed.
Lemma pend_len k s : pend k s -> (d < length (dbs s))%nat.
Proof. intros H. eapply pends_db; [exact H|by eapply inv_db]. Qed.
Lemma pend_step k K s1 s2 : pend k s1 -> rel None K s1 s2 -> (forall wk, K wk -> wk = WatchedKey k d) -> pend k s2.
Proof. intros H1 H2 HK. eapply pends_step; [exact H1|exact H2|]. intros wk Hk. right. by apply HK. Qed.

(** The operations on keys, from a state that is fine or in which the key is
    pending. *)
Lemma lift {A} (m : M A) (Q : A -> server -> Prop) :
  (forall s1, (d < length (dbs s1))%nat -> triple (rel None (fun _ => False) s1) m (fun a s => Q a s /\ rel None (fun _ => False) s1 s)) -> triple fine m (fun a s => Q a s /\ fine s).
Proof.
  intros H. apply triple_pre. intros s1 Hs1. eapply triple_conseq; [apply (H s1); by apply fine_len| |].
  - intros s ->. apply rel_start, Hs1.
  - intros a s [HQ HR]. split; [done|]. by eapply fine_step.
Qed.
Lemma lookupWrite_fine k : triple fine (lookupKeyWrite d k) (fun v s => lookup s (WatchedKey k d) = v /\ fine s).
Proof. apply lift. intros s1 Hd. by apply lookupWrite_spec. Qed.
Lemma lookupRead_fine k : triple fine (lookupKeyRead d k) (fun v s => lookup s (WatchedKey k d) = v /\ fine s).
Proof. apply lift. intros s1 Hd. by apply lookupRead_spec. Qed.
Definition has_key k s : Prop := pend k s /\ is_Some (lookup s (WatchedKey k d)).
Lemma has_key_closed k : closed (has_key k).
Proof. apply closed_and; [apply pend_closed|apply (lookup_closed (WatchedKey k d) is_Some)]. Qed.

(** Writing the key. *)
Lemma lift_write {A} (m : M A) k P (Q : A -> server -> Prop) : (forall s, P s -> pend k s) ->
  (forall s1, P s1 -> triple (fun s => s = s1 /\ rel None (fun wk => wk = WatchedKey k d) s1 s) m (fun a s => rel None (fun wk => wk = WatchedKey k d) s1 s /\ Q a s)) ->
  triple P m (fun a s => pend k s /\ Q a s).
Proof.
  intros HP H. apply triple_pre. intros s1 Hs1. eapply triple_conseq; [by apply (H s1)| |].
  - intros s ->. split; [done|]. apply rel_start. by apply (HP s1).
  - intros a s [HR HQ]. split; [|done]. eapply pend_step; [by apply HP|exact HR|done].
Qed.
Lemma add_key k v : triple (fun s => pend k s /\ lookup s (WatchedKey k d) = None) (dbAdd d k v) (fun _ => has_key k).
Proof.
  apply lift_write; [by intros s [? _]|]. intros s1 [H1 Hn]. eapply triple_conseq; [by apply (dbAdd_spec None (fun wk => wk = WatchedKey k d) s1 d k v); [eapply pend_len|]| |].
  - by intros s [-> HR].
  - intros _ s [HR Hv]. split; [done|]. by eexists.
Qed.
Lemma overwrite_key k v : triple (has_key k) (dbOverwrite d k v) (fun _ => has_key k).
Proof.
  apply lift_write; [by intros s [? _]|]. intros s1 [H1 [u Hu]]. eapply triple_conseq; [by apply (dbOverwrite_spec None (fun wk => wk = WatchedKey k d) s1 d k u v); [eapply pend_len|]| |].
  - by intros s [-> HR].
  - intros _ s [HR Hv]. split; [done|]. by eexists.
Qed.
Lemma write_key k bs : triple (has_key k) (write_string d k bs) (fun _ => has_key k).
Proof.
  apply lift_write; [by intros s [? _]|]. intros s1 [H1 _] s [-> HR]. pose proof (pend_len _ _ H1) as Hd. destruct (lookup_lt_is_Some_2 _ _ Hd) as [x Hx].
  unfold write_string. rewrite (set_dict_run _ _ _ _ Hx). eexists _, _. split; [done|]. split; [by apply insert_dict|]. rewrite write_lookup by done. cbn [dict]. rewrite lookup_insert_eq. by eexists.
Qed.
Lemma unshare_key k x : triple (has_key k) (unshare d k x) (fun bs s => bs = string_bytes x /\ has_key k s).
Proof.
  unfold unshare. eapply triple_bind; [apply triple_get|cbv beta; intros s1]. apply triple_drop.
  eapply (triple_bind _ _ _ (fun _ => has_key k)); [destruct (_ || _); [apply overwrite_key|by apply triple_ret]|]. intros _. by apply triple_ret.
Qed.
Lemma signal_pend k : triple (pend k) (signalModifiedKey d k) (fun _ => fine).
Proof. apply (signal_pends s0 d k). by eapply inv_db. Qed.
(** The key is there, and those who watch it are dirty. *)
Definition touched k s : Prop := (is_Some (lookup s (WatchedKey k d)) /\ marked (WatchedKey k d) s) /\ fine s.
Lemma touched_closed k : closed (touched k).
Proof. apply closed_and; [apply closed_and; [apply (lookup_closed (WatchedKey k d) is_Some)|apply marked_closed]|apply fine_closed]. Qed.
Lemma signal_has k : triple (has_key k) (signalModifiedKey d k) (fun _ => touched k).
Proof.
  eapply triple_conseq; [apply (signal_spec (has_key k) d k); [apply has_key_closed|]|done|].
  - intros s [Hs _]. split; [apply Hs|by eapply pend_len].
  - intros _ s [[Hs Hv] Hm]. split; [done|]. eapply pends_fine; [exact Hs|]. intros wk ->. by left.
Qed.
Lemma expire_key k t : time_ok t -> triple (touched k) (setExpire d k t) (fun _ => fine).
Proof.
  intros Ht. apply triple_pre. intros s1 [[[v Hv] Hm] H1]. eapply triple_conseq; [apply (setExpire_spec None (fun wk => wk = WatchedKey k d) s1 d k v); [by apply fine_len|done|done]| |].
  - intros s ->. split; [apply rel_start, H1|done].
  - intros _ s [HR _]. eapply fine_step; [done|exact HR|]. intros wk ->. by left.
Qed.
Lemma removeExpire_key k : triple (has_key k) (removeExpire d k) (fun _ => has_key k).
Proof.
  apply lift_write; [by intros s [? _]|]. intros s1 [H1 [v Hv]]. eapply triple_conseq; [apply (removeExpire_spec None (fun wk => wk = WatchedKey k d) s1 d k v); by eapply pend_len| |].
  - by intros s [-> HR].
  - intros b s [HR Hv']. split; [done|]. by eexists.
Qed.
Lemma setKey_fine k v : triple fine (setKey d k v) (fun _ => touched k).
Proof.
  unfold setKey. eapply triple_bind; [apply lookupWrite_fine|cbv beta; intros o].
  eapply (triple_bind _ _ _ (fun _ => has_key k)).
  - destruct o as [u|].
    + eapply triple_conseq; [apply overwrite_key| |done]. intros s [Hu Hs]. split; [by apply fine_pend|by eexists].
    + eapply triple_conseq; [apply add_key| |done]. intros s [Hu Hs]. split; [by apply fine_pend|done].
  - intros _. eapply triple_bind; [apply removeExpire_key|cbv beta; intros b]. apply signal_has.
Qed.
Lemma setKey_ok k v : triple fine (setKey d k v) (fun _ => fine).
Proof. eapply triple_conseq; [apply setKey_fine|done|by intros _ s [_ ?]]. Qed.

(** *** Replies, types and numbers *)

Lemma reply_ok P r : closed P -> (forall s, P s -> is_Some (store s !! i)) -> triple P (add_reply i r) (fun _ => P).
Proof. apply reply_closed. Qed.
Lemma answer r : triple fine (add_reply i r) (fun _ => fine).
Proof. by apply (reply_fine s0 i c0). Qed.

Lemma checkType_ok P o t : closed P -> (forall s, P s -> is_Some (store s !! i)) -> triple P (checkType i o t) (fun b s => b = negb (value_type o =? t) /\ P s).
Proof.
  intros HP Ha. unfold checkType. destruct (negb _); [|by apply triple_ret]. eapply triple_bind; [by apply reply_closed|cbv beta; intros _]. by apply triple_ret.
Qed.
Lemma string_there (o : V) : negb (value_type o =? REDIS_STRING) = false -> is_Some (as_string o).
Proof. intros H%negb_false_iff%Z.eqb_eq. by apply string_type. Qed.
Lemma read_string P (o : V) {A} (m : string_value -> M A) (Q : A -> server -> Prop) : negb (value_type o =? REDIS_STRING) = false ->
  (forall x, as_string o = Some x -> triple P (m x) Q) -> triple P (x ← opt (as_string o); m x) Q.
Proof.
  intros Ho H. destruct (string_there o Ho) as [x Hx]. eapply triple_bind; [apply triple_opt; intros s _; exact Hx|cbv beta; intros y]. apply triple_fact. intros ->. by apply H.
Qed.
Lemma bind_opt P {A B} (o : option A) (m : A -> M B) (Q : B -> server -> Prop) : is_Some o -> (forall a, o = Some a -> triple P (m a) Q) -> triple P (a ← opt o; m a) Q.
Proof. intros [a Ha] H. eapply triple_bind; [apply triple_opt; intros s _; exact Ha|cbv beta; intros b]. apply triple_fact. intros ->. by apply H. Qed.

Lemma encode_bind P a {A} (m : V -> M A) (Q : A -> server -> Prop) : (forall x, tryEncoding a = Some x -> triple P (m (of_string x)) Q) -> triple P (encode a ≫= m) Q.
Proof. intros H. unfold encode. apply triple_assoc_r, bind_opt; [apply tryEncoding_total|exact H]. Qed.

(** A number is read, or the error is reported. *)
Definition read_or (F : Z -> Prop) (v : option Z) s : Prop := match v with Some v => F v /\ start s | None => fine s end.
Lemma getLL_start k msg : triple start (getLongLongFromObjectOrReply i k msg) (read_or (fun v => getLongLongFromObject (Some (arg_object k)) = Some (Some v))).
Proof.
  unfold getLongLongFromObjectOrReply, longLongOrReply. apply bind_opt; [apply ll_arg|]. intros v Hv. destruct v as [v|]; [by apply triple_ret|].
  apply from_fine. eapply triple_bind; [apply answer|cbv beta; intros _]. by apply triple_ret.
Qed.
Lemma getLong_start k msg : triple start (getLongFromObjectOrReply i k msg) (read_or (fun v => getLongLongFromObject (Some (arg_object k)) = Some (Some v))).
Proof.
  unfold getLongFromObjectOrReply. eapply triple_bind; [apply getLL_start|cbv beta; intros v]. destruct v as [v|]; cbn [read_or]; [|by apply triple_ret].
  apply triple_fact. intros Hv. destruct (_ || _); [|by apply triple_ret]. apply from_fine. eapply triple_bind; [apply answer|cbv beta; intros _]. by apply triple_ret.
Qed.

Lemma readOrReply_fine k o : triple start (lookupKeyReadOrReply i k o) (fun _ => fine).
Proof.
  unfold lookupKeyReadOrReply. eapply triple_bind; [by apply (start_db s0 i c0 Hi)|cbv beta; intros d'; apply triple_fact; intros ->].
  apply from_fine. eapply triple_bind; [apply lookupRead_fine|cbv beta; intros v]. apply triple_drop.
  eapply (triple_bind _ _ _ (fun _ => fine)); [destruct v; [by apply triple_ret|apply answer]|intros _; by apply triple_ret].
Qed.
Lemma checkType_fine o t : triple fine (checkType i o t) (fun b s => b = negb (value_type o =? t) /\ fine s).
Proof. apply checkType_ok; [apply fine_closed|by apply (fine_alive s0 i c0)]. Qed.
Lemma checkType_key k P o t : closed P -> (forall s, P s -> pend k s) -> triple P (checkType i o t) (fun b s => b = negb (value_type o =? t) /\ P s).
Proof. intros HP H. apply checkType_ok; [done|]. intros s Hs. by eapply pend_alive, H. Qed.
Lemma length_ok P n : closed P -> (forall s, P s -> is_Some (store s !! i)) -> triple P (checkStringLength i n) (fun b s => (b = true -> n <= 512 * 1024 * 1024) /\ P s).
Proof.
  intros HP Ha. unfold checkStringLength. destruct (Z.ltb_spec (512 * 1024 * 1024) n); [|by apply triple_ret]. eapply triple_bind; [by apply reply_closed|cbv beta; intros _]. by apply triple_ret.
Qed.

(** Reading arguments and numbers. *)
Ltac read_db := eapply triple_bind; [by apply (start_db s0 i c0 Hi)|cbv beta; intros ?d; apply triple_fact; intros ->].
Ltac read_arg j := let a := fresh "a" in let Ha := fresh "Ha" in destruct (has_arg c0 j) as [a Ha]; [lia|];
  eapply triple_bind; [eapply (arg_spec s0 i c0 Hi); [done|exact Ha]|cbv beta; intros ?; apply triple_fact; intros ->].
Ltac read_client := eapply triple_bind; [by apply (read_client s0 i c0 Hi)|cbv beta; intros ?c; apply triple_fact; intros ->].
Ltac read_number := eapply triple_bind; [first [apply getLong_start|apply getLL_start]|cbv beta; let v := fresh "v" in intros v; destruct v as [v|]; cbn [read_or]; [apply triple_fact; intros ?Hv|by apply triple_ret]].
Ltac encode := apply encode_bind; intros ?x ?Hx.
(** The type is checked, from a state that is fine. *)
Ltac check_type H := eapply triple_bind; [apply checkType_fine|cbv beta; let b := fresh "b" in intros b; apply triple_fact; intros ->];
  match goal with |- context [negb (value_type ?o =? REDIS_STRING)] => destruct (negb (value_type o =? REDIS_STRING)) eqn:H; [by apply triple_ret|] end.

(** *** Reading *)

Lemma getGeneric_fine : (2 <= length (argv c0))%nat -> triple start (getGenericCommand i) (fun _ => fine).
Proof.
  intros Hl. unfold getGenericCommand. read_arg 1%nat. eapply triple_bind; [apply readOrReply_fine|cbv beta; intros o]. destruct o as [o|]; [|by apply triple_ret].
  destruct (negb _) eqn:Ho; [eapply triple_bind; [apply answer|cbv beta; intros _; by apply triple_ret]|].
  apply read_string; [done|]. intros x _. eapply triple_bind; [apply answer|cbv beta; intros _; by apply triple_ret].
Qed.
Lemma get_fine : (2 <= length (argv c0))%nat -> cmd_fine s0 (getCommand i).
Proof. intros Hl. unfold cmd_fine, getCommand. eapply triple_bind; [by apply getGeneric_fine|cbv beta; intros _; by apply triple_ret]. Qed.

Lemma strlen_fine : (2 <= length (argv c0))%nat -> cmd_fine s0 (strlenCommand i).
Proof.
  intros Hl. unfold cmd_fine, strlenCommand. read_arg 1%nat. eapply triple_bind; [apply readOrReply_fine|cbv beta; intros o]. destruct o as [o|]; [|by apply triple_ret].
  check_type Ho. apply read_string; [done|]. intros x _. apply answer.
Qed.

Lemma getrange_total start stop bs : stop < 2 ^ 32 -> let '(a, b) := get_range start stop (Z.of_nat (length bs)) in
  b < a \/ is_Some (mem_read bs a (b - a + 1)).
Proof.
  intros Hs. unfold get_range. set (n := Z.of_nat (length bs)). assert (0 <= n) as Hn by lia.
  set (stop1 := if stop <? 0 then n + stop else stop). set (stop2 := if stop1 <? 0 then 0 else stop1). set (start1 := if start <? 0 then n + start else start). set (start2 := if start1 <? 0 then 0 else start1).
  assert (0 <= start2) as H0 by (unfold start2; destruct (Z.ltb_spec start1 0); lia).
  assert (0 <= stop2 /\ (stop2 < 2 ^ 32 \/ stop2 < n)) as [H1 H2] by (unfold stop2, stop1; destruct (Z.ltb_spec stop 0); [destruct (Z.ltb_spec (n + stop) 0)|destruct (Z.ltb_spec stop 0)]; lia).
  destruct (Z.leb_spec n (u32 stop2)) as [Hu|Hu].
  - destruct (Z.lt_ge_cases (n - 1) start2); [by left|]. right. unfold mem_read. rewrite decide_True by lia. by eexists.
  - assert (stop2 < n) as H3 by (destruct H2 as [H2|]; [rewrite u32_small in Hu by lia|]; lia).
    destruct (Z.lt_ge_cases stop2 start2); [by left|]. right. unfold mem_read. rewrite decide_True by lia. by eexists.
Qed.
Lemma getrange_fine : args_ok GetrangeCommand (argv c0) -> cmd_fine s0 (getrangeCommand i).
Proof.
  intros [Hl Hf]. cbn in Hl. unfold cmd_fine, getrangeCommand. read_arg 1%nat. read_arg 2%nat. read_arg 3%nat. read_number. read_number.
  specialize (Hf a1 Ha1 _ Hv0). eapply triple_bind; [apply readOrReply_fine|cbv beta; intros o]. destruct o as [o|]; [|by apply triple_ret]. check_type Ho.
  apply read_string; [done|]. intros x _. pose proof (getrange_total v v0 (string_bytes x) Hf) as Ht. change (Z.of_nat (length (string_bytes x))) with (stringLen x) in Ht.
  destruct (get_range v v0 (stringLen x)) as [p q]. destruct (Z.ltb_spec q p); [apply answer|]. destruct Ht as [|Ht]; [lia|]. apply bind_opt; [done|]. intros bs _. apply answer.
Qed.

Lemma mget_loop_fine ks : triple fine (mget_loop i d ks) (fun _ => fine).
Proof.
  induction ks as [|k ks IH]; [by apply triple_ret|]. cbn [mget_loop]. eapply triple_bind; [apply lookupRead_fine|cbv beta; intros o]. apply triple_drop.
  eapply (triple_bind _ _ _ (fun _ => fine)); [|intros _; apply IH]. destruct o as [o|]; [|apply answer]. destruct (negb _) eqn:Ho; [apply answer|]. apply read_string; [done|]. intros x _. apply answer.
Qed.
Lemma mget_fine : cmd_fine s0 (mgetCommand i).
Proof. unfold cmd_fine, mgetCommand. read_client. apply from_fine. eapply triple_bind; [apply answer|cbv beta; intros _]. apply mget_loop_fine. Qed.

(** *** Writing *)

Lemma dirty_ok n : triple fine (add_dirty n) (fun _ => fine). Proof. apply dirty_fine. Qed.

Lemma expireTime_start expire units : (forall e, expire = Some e -> small_time e) ->
  triple start (setExpireTime i expire units) (read_or (fun t => expire <> None -> 0 < t < 2 ^ 61)).
Proof.
  intros He. unfold setExpireTime. destruct expire as [e|]; [|apply triple_ret; intros s Hs; by split]. specialize (He e eq_refl).
  eapply triple_bind; [apply getLL_start|cbv beta; intros v]. destruct v as [v|]; cbn [read_or]; [apply triple_fact; intros Hv|by apply triple_ret]. apply He in Hv.
  destruct (Z.leb_spec v 0); [apply from_fine; eapply triple_bind; [apply answer|cbv beta; intros _; by apply triple_ret]|].
  destruct (units =? UNIT_SECONDS); [|apply triple_ret; intros s Hs; split; [lia|done]].
  apply bind_opt; [rewrite chk64_ok by lia; by eexists|]. intros t Ht. rewrite chk64_ok in Ht by lia. injection Ht as <-. apply triple_ret. intros s Hs. split; [lia|done].
Qed.

Lemma setGeneric_fine flags k (val : V) expire units a b : (forall e, expire = Some e -> small_time e) -> cmd_fine s0 (setGenericCommand i flags k val expire units a b).
Proof.
  intros He. unfold cmd_fine, setGenericCommand. eapply triple_bind; [by apply expireTime_start|cbv beta; intros t]. destruct t as [t|]; cbn [read_or]; [apply triple_fact; intros Ht|by apply triple_ret].
  read_db. apply from_fine. eapply (triple_bind _ _ _ (fun _ => fine)); [destruct (has _ _); [eapply triple_bind; [apply lookupWrite_fine|cbv beta; intros o; apply triple_drop; by apply triple_ret]|by apply triple_ret]|intros nx].
  eapply (triple_bind _ _ _ (fun _ => fine)); [destruct (_ && _); [eapply triple_bind; [apply lookupWrite_fine|cbv beta; intros o; apply triple_drop; by apply triple_ret]|by apply triple_ret]|intros xx].
  destruct (_ || _); [apply answer|]. eapply triple_bind; [apply setKey_fine|cbv beta; intros _].
  eapply triple_bind; [apply dirty_closed, touched_closed|cbv beta; intros _].
  eapply (triple_bind _ _ _ (fun _ => fine)); [|intros _; apply answer]. destruct expire as [e|]; [|apply triple_ret; by intros s [_ ?]].
  eapply triple_bind; [apply mstime_now, touched_closed|cbv beta; intros now]. apply triple_fact. intros Hn.
  specialize (Ht ltac:(done)). apply bind_opt; [rewrite chk64_ok by lia; by eexists|]. intros w Hw. rewrite chk64_ok in Hw by lia. injection Hw as <-. apply expire_key. unfold time_ok. lia.
Qed.

Lemma set_options_times l : forall flags units expire flags' units' expire', Forall small_time l -> (forall e, expire = Some e -> small_time e) ->
  set_options l flags units expire = Some (flags', units', expire') -> forall e, expire' = Some e -> small_time e.
Proof.
  assert (forall n l, (length l < n)%nat -> forall flags units expire flags' units' expire', Forall small_time l -> (forall e, expire = Some e -> small_time e) ->
    set_options l flags units expire = Some (flags', units', expire') -> forall e, expire' = Some e -> small_time e) as H.
  { clear l. induction n as [|n IH]; intros l Hl flags units expire flags' units' expire' Hf He; [lia|]. destruct l as [|a l]; [by intros [= <- <- <-]|]. cbn [length] in Hl.
    apply Forall_cons in Hf as [_ Hf]. cbn [set_options]. destruct (is_option a "n"); [by apply IH; [lia|..]|]. destruct (is_option a "x"); [by apply IH; [lia|..]|].
    destruct l as [|b l]; [done|]. apply Forall_cons in Hf as [Hb Hf]. cbn [length] in Hl.
    destruct (is_option a "e"); [apply IH; [lia|done|by intros e [= <-]]|]. destruct (is_option a "p"); [apply IH; [lia|done|by intros e [= <-]]|done]. }
  apply (H (S (length l))). lia.
Qed.

Lemma set_fine : args_ok SetCommand (argv c0) -> cmd_fine s0 (setCommand i).
Proof.
  intros [Hl Hf]. cbn in Hl, Hf. unfold cmd_fine, setCommand. read_client. destruct (set_options _ _ _ _) as [[[flags units] expire]|] eqn:Eo; [|apply from_fine, answer].
  read_arg 1%nat. read_arg 2%nat. encode. apply setGeneric_fine. eapply (set_options_times _ _ _ None); [exact Hf|intros ? H0; discriminate H0|exact Eo].
Qed.
Lemma setnx_fine : (3 <= length (argv c0))%nat -> cmd_fine s0 (setnxCommand i).
Proof. intros Hl. unfold cmd_fine, setnxCommand. read_arg 1%nat. read_arg 2%nat. encode. apply setGeneric_fine. intros ? H0; discriminate H0. Qed.
Lemma setex_fine p : p = SetexCommand \/ p = PsetexCommand -> args_ok p (argv c0) -> cmd_fine s0 (setexCommand i) /\ cmd_fine s0 (psetexCommand i).
Proof.
  intros Hp [Hl Hf]. assert ((4 <= length (argv c0))%nat /\ forall k, argv c0 !! 2%nat = Some k -> small_time k) as [H4 Hs] by by destruct Hp as [-> | ->].
  split; unfold cmd_fine, setexCommand, psetexCommand; read_arg 1%nat; read_arg 2%nat; read_arg 3%nat; encode; apply setGeneric_fine; intros e [= <-]; by apply Hs.
Qed.

Lemma getset_fine : (3 <= length (argv c0))%nat -> cmd_fine s0 (getsetCommand i).
Proof.
  intros Hl. unfold cmd_fine, getsetCommand. read_arg 1%nat. read_arg 2%nat. read_db. eapply triple_bind; [apply getGeneric_fine; lia|cbv beta; intros ok]. destruct (negb ok); [by apply triple_ret|].
  encode. eapply triple_bind; [apply setKey_ok|cbv beta; intros _]. apply dirty_ok.
Qed.

Lemma mset_busy_fine l : forall n, triple fine (mset_busy d l n) (fun _ => fine).
Proof.
  assert (forall m l, (length l < m)%nat -> forall n, triple fine (mset_busy d l n) (fun _ => fine)) as H; [|intros n; apply (H (S (length l))); lia].
  clear l. induction m as [|m IH]; intros l Hl n; [lia|]. destruct l as [|k [|v l]]; try by apply triple_ret. cbn [mset_busy length] in *.
  eapply triple_bind; [apply lookupWrite_fine|cbv beta; intros o]. apply triple_drop. apply IH. lia.
Qed.
Lemma mset_loop_fine l : triple fine (mset_loop d l) (fun _ => fine).
Proof.
  assert (forall m l, (length l < m)%nat -> triple fine (mset_loop d l) (fun _ => fine)) as H; [|apply (H (S (length l))); lia].
  clear l. induction m as [|m IH]; intros l Hl; [lia|]. destruct l as [|k [|v l]]; try by apply triple_ret. cbn [mset_loop length] in *. encode.
  eapply triple_bind; [apply setKey_ok|cbv beta; intros _]. apply IH. lia.
Qed.
Lemma mset_fine nx : cmd_fine s0 (msetGenericCommand i nx).
Proof.
  unfold cmd_fine, msetGenericCommand. read_client. cbv zeta. destruct (_ =? 0); [apply from_fine, answer|]. apply from_fine.
  eapply (triple_bind _ _ _ (fun _ => fine)); [destruct nx; [apply mset_busy_fine|by apply triple_ret]|intros busy]. destruct (negb _); [apply answer|].
  eapply triple_bind; [apply mset_loop_fine|cbv beta; intros _]. eapply triple_bind; [apply dirty_ok|cbv beta; intros _]. apply answer.
Qed.

(** *** Changing a value *)

(** The end of a command that has written the key. *)
Lemma written k (m : M unit) : triple fine m (fun _ => fine) -> triple (has_key k) (signalModifiedKey d k ;; add_dirty 1 ;; m) (fun _ => fine).
Proof.
  intros Hm. eapply triple_bind; [eapply triple_conseq; [apply signal_pend|by intros s [? _]|intros a s Hq; exact Hq]|].
  cbv beta. intros _. eapply triple_bind; [apply dirty_ok|cbv beta; intros _]. exact Hm.
Qed.

(** What the key was seen to hold. *)
Definition seen k (o : option V) s : Prop := lookup s (WatchedKey k d) = o /\ fine s.
Lemma seen_closed k o : closed (seen k o).
Proof. apply closed_and; [apply (lookup_closed (WatchedKey k d) (fun v => v = o))|apply fine_closed]. Qed.
Lemma seen_alive k o s : seen k o s -> is_Some (store s !! i).
Proof. intros [_ Hs]. by apply (fine_alive s0 i c0). Qed.
Lemma seen_fine k o {A} (m : M A) (Q : A -> server -> Prop) : triple fine m Q -> triple (seen k o) m Q.
Proof. apply triple_drop. Qed.
Lemma seen_has k (o : V) {A} (m : M A) (Q : A -> server -> Prop) : triple (has_key k) m Q -> triple (seen k (Some o)) m Q.
Proof. intros H. eapply triple_conseq; [exact H|intros s [Hv Hs]; split; [by apply fine_pend|by eexists]|done]. Qed.
Lemma seen_done k o : triple (seen k o) (mret tt) (fun _ => fine).
Proof. apply triple_ret. by intros s [_ ?]. Qed.
Lemma seen_type k o v t : triple (seen k o) (checkType i v t) (fun b s => b = negb (value_type v =? t) /\ seen k o s).
Proof. apply checkType_ok; [apply seen_closed|apply seen_alive]. Qed.
Lemma seen_length k o n : triple (seen k o) (checkStringLength i n) (fun b s => (b = true -> n <= 512 * 1024 * 1024) /\ seen k o s).
Proof. apply length_ok; [apply seen_closed|apply seen_alive]. Qed.

Lemma add_string k (v : V) (m : M unit) : triple (has_key k) m (fun _ => fine) -> triple (seen k None) (dbAdd d k v ;; m) (fun _ => fine).
Proof.
  intros Hm. eapply triple_bind; [eapply triple_conseq; [apply (add_key k v)| |intros a s Hq; exact Hq]|cbv beta; intros _; exact Hm]. intros s [Hv Hs]. split; [by apply fine_pend|done].
Qed.
(** The value is copied if need be, and written. *)
Lemma change_string k o x (m : list byte -> M unit) : triple (has_key k) (m (string_bytes x)) (fun _ => fine) -> triple (seen k (Some o)) (bs ← unshare d k x; m bs) (fun _ => fine).
Proof. intros Hm. apply seen_has. eapply triple_bind; [apply unshare_key|cbv beta; intros bs; apply triple_fact; by intros ->]. Qed.
Lemma write_string_fine k bs (m : M unit) : triple (has_key k) m (fun _ => fine) -> triple (has_key k) (write_string d k bs ;; m) (fun _ => fine).
Proof. intros Hm. eapply triple_bind; [apply write_key|cbv beta; intros _; exact Hm]. Qed.

Ltac look_up k o := apply from_fine; eapply (triple_bind _ _ _ (fun o => seen k o)); [apply lookupWrite_fine|intros o].
Ltac seen_string H := eapply triple_bind; [apply seen_type|cbv beta; let b := fresh "b" in intros b; apply triple_fact; intros ->];
  match goal with |- context [negb (value_type ?o =? REDIS_STRING)] => destruct (negb (value_type o =? REDIS_STRING)) eqn:H; [apply seen_done|] end; apply read_string; [done|intros ?x ?Hx].

Lemma append_fine : (3 <= length (argv c0))%nat -> cmd_fine s0 (appendCommand i).
Proof.
  intros Hl. unfold cmd_fine, appendCommand. read_arg 1%nat. read_arg 2%nat. read_db. look_up a o. destruct o as [o|].
  - seen_string Ho. eapply triple_bind; [apply seen_length|cbv beta; intros ok; apply triple_drop]. destruct (negb ok); [apply seen_done|].
    apply (change_string a o x), write_string_fine, written, answer.
  - apply bind_opt; [apply tryEncoding_total|]. intros x Hx. apply add_string, written, answer.
Qed.

Lemma raw_number bs v : getLongLongFromObject (Some (arg_object bs)) = Some (Some v) -> int64 v.
Proof.
  unfold getLongLongFromObject, arg_object. cbn [type encoding ptr ptr_sds option_bind mbind sh_buf Z.eqb REDIS_STRING REDIS_ENCODING_RAW].
  destruct (strtoll_end (bs ++ [z2b 0])) as [[w e] b] eqn:Es. assert (int64 w) as Hw.
  { unfold strtoll_end, int64 in *. cbv zeta in Es. destruct (match skip_space _ with [] => _ | _ => _ end) as [neg t]. destruct t as [|b1 t]; [injection Es as <- _ _; lia|].
    destruct (isdigit (b2z b1)); injection Es as <- _ _; lia. }
  destruct (rd (bs ++ [z2b 0]) 0); [|done]. cbn [option_bind mbind]. destruct (rd e 0); [|done]. cbn [option_bind mbind]. destruct (_ || _); [done|]. by intros [= <-].
Qed.

Lemma incrDecr_fine incr : (2 <= length (argv c0))%nat -> int64 incr -> cmd_fine s0 (incrDecrCommand i incr).
Proof.
  intros Hl Hincr. unfold cmd_fine, incrDecrCommand. read_arg 1%nat. read_db. look_up a o.
  eapply (triple_bind _ _ _ (fun wrong s => (wrong = false -> forall v, o = Some v -> negb (value_type v =? REDIS_STRING) = false) /\ seen a o s)).
  { destruct o as [o|]; [|apply triple_ret; intros s Hs; by split]. eapply triple_conseq; [apply (seen_type a (Some o) o REDIS_STRING)|done|].
    intros wrong s [-> Hs]. split; [|done]. by intros Hw v [= <-]. }
  intros wrong. apply triple_fact. intros Hw. destruct wrong; [apply seen_done|]. specialize (Hw eq_refl).
  eapply (triple_bind _ _ _ (fun (y : option string_value) s => (forall n, y = Some (Int n) -> int64 n) /\ seen a o s)).
  { destruct o as [o|]; [|apply triple_ret; intros s Hs; by split]. apply read_string; [by apply Hw|]. intros x Hx. apply triple_ret. intros s Hs. split; [|done]. intros n [= ->]. by eapply string_int. }
  intros x. apply triple_fact. intros Hx. unfold longLongOrReply. apply triple_assoc_r, bind_opt; [apply value_number|]. intros v Hv.
  destruct v as [v|]; [|apply triple_assoc_r, seen_fine; eapply triple_bind; [apply answer|cbv beta; intros _; by apply triple_ret]].
  change (mret (Some v) ≫= ?f) with (f (Some v)). cbv beta iota.
  assert (int64 v) as Hv64.
  { destruct x as [[bs|n]|]; cbn [string_object fmap option_fmap option_map] in Hv; [by eapply raw_number|injection Hv as <-; by apply Hx|injection Hv as <-; unfold int64; lia]. }
  destruct (_ || _) eqn:Eg; [apply seen_fine, answer|]. unfold int64, LLONG_MIN, LLONG_MAX in *. rewrite orb_false_iff, !andb_false_iff, !Z.ltb_ge in Eg.
  apply bind_opt; [rewrite chk64_ok by lia; by eexists|]. intros n Hn. apply (triple_bind _ _ _ (fun _ => has_key a)).
  { destruct o as [o|]; [apply seen_has, overwrite_key|]. eapply triple_conseq; [apply (add_key a)|intros s [Hs1 Hs2]; split; [by apply fine_pend|done]|done]. }
  intros _. apply written. eapply triple_bind; [apply answer|cbv beta; intros _]. eapply triple_bind; [apply answer|cbv beta; intros _]. apply answer.
Qed.

Lemma incrby_fine : (3 <= length (argv c0))%nat -> cmd_fine s0 (incrbyCommand i).
Proof. intros Hl. unfold cmd_fine, incrbyCommand. read_arg 2%nat. read_number. apply incrDecr_fine; [lia|by eapply raw_number]. Qed.
Lemma decrby_fine : args_ok DecrbyCommand (argv c0) -> cmd_fine s0 (decrbyCommand i).
Proof.
  intros [Hl Hf]. cbn in Hl. unfold cmd_fine, decrbyCommand. read_arg 2%nat. read_number. pose proof (raw_number _ _ Hv) as H64. specialize (Hf _ Ha). unfold int64, LLONG_MIN in *.
  assert (v <> - 2 ^ 63) by (intros ->; by apply Hf). apply bind_opt; [rewrite chk64_ok by lia; by eexists|]. intros n Hn. rewrite chk64_ok in Hn by lia. injection Hn as <-. apply incrDecr_fine; [lia|unfold int64; lia].
Qed.

Lemma setrange_fine : args_ok SetrangeCommand (argv c0) -> cmd_fine s0 (setrangeCommand i).
Proof.
  intros [Hl Hf]. cbn in Hl. unfold cmd_fine, setrangeCommand. read_arg 1%nat. read_arg 2%nat. read_arg 3%nat. read_number. pose proof (raw_number _ _ Hv) as H64. specialize (Hf _ _ Ha0 Ha1 _ Hv). unfold int64 in H64.
  destruct (Z.ltb_spec v 0) as [|Hv0]; [apply from_fine, answer|]. read_db. look_up a o. cbv zeta.
  rewrite (u64_small (v + _)), (s64_small (v + _)) by lia.
  assert (forall bs, v + Z.of_nat (length a1) <= 512 * 1024 * 1024 -> triple (has_key a) (bs ← opt (grow_zero bs (v + Z.of_nat (length a1))); bs ← opt (mem_write bs v a1);
    write_string d a bs ;; signalModifiedKey d a ;; add_dirty 1 ;; addReplyLongLong i (Z.of_nat (length bs))) (fun _ => fine)) as Hwrite.
  { intros bs Hm. destruct (grow_zero_some bs (v + Z.of_nat (length a1))) as (bs' & Eg & Hg); [lia|]. apply bind_opt; [by eexists|]. intros bs1 E1. assert (bs1 = bs') as -> by congruence.
    apply bind_opt; [by apply mem_write_some|]. intros bs2 _. apply write_string_fine, written, answer. }
  destruct o as [o|].
  - seen_string Ho. destruct (_ =? 0); [apply seen_fine, answer|]. eapply triple_bind; [apply seen_length|cbv beta; intros ok; apply triple_fact; intros Hok]. destruct ok; [|apply seen_done]. cbn [negb].
    apply (change_string a o x), Hwrite. by apply Hok.
  - destruct (_ =? 0); [apply seen_fine, answer|]. eapply triple_bind; [apply seen_length|cbv beta; intros ok; apply triple_fact; intros Hok]. destruct ok; [|apply seen_done]. cbn [negb].
    apply add_string, Hwrite. by apply Hok.
Qed.

(** *** Bits *)

Lemma bitOffset_start n : triple start (getBitOffsetFromArgument i n) (read_or (fun v => 0 <= v < 2 ^ 32)).
Proof.
  unfold getBitOffsetFromArgument. cbv zeta. read_number. apply raw_number in Hv. unfold int64 in Hv.
  destruct (Z.ltb_spec v 0) as [|H0]; cbn [orb]; [apply from_fine; eapply triple_bind; [apply answer|cbv beta; intros _; by apply triple_ret]|].
  rewrite u64_small, Z.shiftr_div_pow2 by lia. destruct (Z.leb_spec (512 * 1024 * 1024) (v / 2 ^ 3)) as [|Hm].
  { apply from_fine. eapply triple_bind; [apply answer|cbv beta; intros _; by apply triple_ret]. }
  apply triple_ret. intros s Hs. split; [|done]. pose proof (Z.div_mod v (2 ^ 3)). pose proof (Z.mod_pos_bound v (2 ^ 3)). lia.
Qed.

Lemma setbit_fine : (4 <= length (argv c0))%nat -> cmd_fine s0 (setbitCommand i).
Proof.
  intros Hl. unfold cmd_fine, setbitCommand. cbv zeta. read_arg 2%nat. eapply triple_bind; [apply bitOffset_start|cbv beta; intros n]. destruct n as [n|]; cbn [read_or]; [apply triple_fact; intros Hn|by apply triple_ret].
  read_arg 3%nat. read_number. destruct (has v _); [apply from_fine, answer|]. read_arg 1%nat. read_db. look_up a1 o.
  assert (forall bs, triple (has_key a1) (set_bit i d a1 bs n v) (fun _ => fine)) as Hwrite.
  { intros bs. unfold set_bit. apply bind_opt; [by apply put_bit_some|]. intros [bs1 old] _. apply write_string_fine, written, answer. }
  destruct o as [o|]; [|apply add_string, Hwrite]. seen_string Ho. apply (change_string a1 o x), Hwrite.
Qed.

Lemma getbit_fine : (3 <= length (argv c0))%nat -> cmd_fine s0 (getbitCommand i).
Proof.
  intros Hl. unfold cmd_fine, getbitCommand. read_arg 2%nat. eapply triple_bind; [apply bitOffset_start|cbv beta; intros n]. destruct n as [n|]; cbn [read_or]; [apply triple_fact; intros Hn|by apply triple_ret].
  read_arg 1%nat. eapply triple_bind; [apply readOrReply_fine|cbv beta; intros o]. destruct o as [o|]; [|by apply triple_ret]. check_type Ho. apply read_string; [done|]. intros x _. cbv zeta.
  pose proof (byte_range n Hn) as Hb. eapply (triple_bind _ _ _ (fun _ => fine)); [|intros b; apply answer]. destruct (Z.ltb_spec (Z.shiftr n 3) (stringLen x)) as [Hx|]; [|by apply triple_ret].
  apply bind_opt; [|intros v _; by apply triple_ret]. unfold getb. rewrite decide_True by lia. unfold stringLen in Hx. destruct (lookup_lt_is_Some_2 (string_bytes x) (Z.to_nat (Z.shiftr n 3))) as [b ->]; [lia|by eexists].
Qed.

Lemma bitop_sources_fine ks : forall j srcs maxlen minlen, sources_ok j srcs maxlen minlen ->
  triple fine (bitop_sources i d ks j srcs maxlen minlen)
    (fun r s => match r with Some (srcs, maxlen, minlen) => sources_ok (j + length ks) srcs maxlen minlen | None => True end /\ fine s).
Proof.
  induction ks as [|k ks IH]; intros j srcs maxlen minlen Hok; cbn [bitop_sources].
  - apply triple_ret. intros s Hs. cbn [length]. by rewrite Nat.add_0_r.
  - cbn [length]. rewrite <-Nat.add_succ_comm. eapply triple_bind; [apply lookupRead_fine|cbv beta; intros o]. apply triple_drop. destruct o as [o|]; [|eapply IH, sources_missing, Hok].
    eapply triple_bind; [apply checkType_fine|cbv beta; intros b; apply triple_fact; intros ->]. destruct (negb _) eqn:Ho; [by apply triple_ret|].
    apply read_string; [done|]. intros x _. cbv zeta. apply IH. by apply sources_next.
Qed.

Lemma bitop_fine : (4 <= length (argv c0))%nat -> cmd_fine s0 (bitopCommand i).
Proof.
  intros Hl. unfold cmd_fine, bitopCommand. read_arg 1%nat. read_arg 2%nat. read_client. destruct (bitop_op a) as [op|]; [|apply from_fine, answer].
  destruct (_ && _); [apply from_fine, answer|]. apply from_fine. eapply triple_bind; [apply bitop_sources_fine, sources_none|cbv beta; intros r; apply triple_fact; intros Hr].
  destruct r as [[[srcs maxlen] minlen]|]; [|by apply triple_ret]. eapply (triple_bind _ _ _ (fun _ => fine)).
  - destruct (negb (maxlen =? 0)) eqn:E0.
    + apply bind_opt; [|intros res _; apply setKey_ok]. destruct Hr as (_ & -> & H1 & H2). apply negb_true_iff, Z.eqb_neq in E0. eexists. apply bitop_bytes; [by intros ->|lia|done].
    + eapply triple_bind; [apply delete_pends; by eapply inv_db|cbv beta; intros b]. destruct b; [|by apply triple_ret]. apply signal_pend.
  - intros _. eapply triple_bind; [apply dirty_ok|cbv beta; intros _]. apply answer.
Qed.

Lemma bitcount_fine : (2 <= length (argv c0))%nat -> cmd_fine s0 (bitcountCommand i).
Proof.
  intros Hl. unfold cmd_fine, bitcountCommand. read_arg 1%nat. read_client. eapply triple_bind; [apply readOrReply_fine|cbv beta; intros o]. destruct o as [o|]; [|by apply triple_ret].
  check_type Ho. apply read_string; [done|]. intros x _. cbv zeta. unfold stringLen. set (n := length (string_bytes x)).
  assert (forall p q, 0 <= p -> q < Z.of_nat n -> triple fine (if q <? p then addReply i Reply.czero
     else v ← opt (popcount big_endian (drop (Z.to_nat p) (string_bytes x)) (q - p + 1)); addReplyLongLong i v) (fun _ => fine)) as Hcount.
  { intros p q Hp Hq. destruct (Z.ltb_spec q p); [apply answer|]. apply bind_opt; [|intros v _; apply answer]. rewrite popcount_spec by (rewrite length_drop; fold n; lia). by eexists. }
  destruct (Z.eqb_spec (Z.of_nat (length (argv c0))) 4) as [H4|H4].
  - destruct (has_arg c0 2) as [b2 ->]; [lia|]. destruct (has_arg c0 3) as [b3 ->]; [lia|]. cbn [opt]. unfold mbind at 1. unfold M_bind at 1. cbn [mret M_ret].
    assert (forall k, triple fine (getLongFromObjectOrReply i k None) (fun _ => fine)) as Hlong by (intros k; apply (getLong_spec i); [apply fine_closed|by apply (fine_alive s0 i c0)]).
    eapply triple_bind; [apply Hlong|cbv beta; intros v]. destruct v as [v|]; [|by apply triple_ret]. unfold mbind at 1. unfold M_bind at 1. cbn [mret M_ret].
    eapply triple_bind; [apply Hlong|cbv beta; intros w]. destruct w as [w|]; [|by apply triple_ret]. apply Hcount.
    + destruct (_ <? 0) eqn:Ez; [done|by apply Z.ltb_ge in Ez].
    + destruct (Z.leb_spec (Z.of_nat n) (if (if w <? 0 then Z.of_nat n + w else w) <? 0 then 0 else if w <? 0 then Z.of_nat n + w else w)); lia.
  - destruct (_ =? 2); [apply Hcount; lia|apply answer].
Qed.

(** *** All of them *)

Definition string_proc (p : redisCommandProc) : option (M unit) :=
  match p with
  | GetCommand => Some (getCommand i) | SetCommand => Some (setCommand i) | SetnxCommand => Some (setnxCommand i) | SetexCommand => Some (setexCommand i)
  | PsetexCommand => Some (psetexCommand i) | AppendCommand => Some (appendCommand i) | StrlenCommand => Some (strlenCommand i) | SetrangeCommand => Some (setrangeCommand i)
  | GetrangeCommand => Some (getrangeCommand i) | IncrCommand => Some (incrCommand i) | DecrCommand => Some (decrCommand i) | IncrbyCommand => Some (incrbyCommand i)
  | DecrbyCommand => Some (decrbyCommand i) | MgetCommand => Some (mgetCommand i) | GetsetCommand => Some (getsetCommand i) | MsetCommand => Some (msetCommand i)
  | MsetnxCommand => Some (msetnxCommand i) | SetbitCommand => Some (setbitCommand i) | GetbitCommand => Some (getbitCommand i) | BitopCommand => Some (bitopCommand i)
  | BitcountCommand => Some (bitcountCommand i)
  | _ => None
  end.

Lemma string_fine p m : string_proc p = Some m -> args_ok p (argv c0) -> cmd_fine s0 m.
Proof.
  intros Hp Ha. pose proof Ha as [Hl _]. destruct p; try discriminate Hp; injection Hp as <-; cbn in Hl.
  - by apply get_fine.
  - by apply set_fine.
  - by apply setnx_fine.
  - by apply (setex_fine SetexCommand); [left|].
  - by apply (setex_fine PsetexCommand); [right|].
  - by apply append_fine.
  - by apply strlen_fine.
  - by apply setrange_fine.
  - by apply getrange_fine.
  - by apply incrDecr_fine.
  - by apply incrDecr_fine.
  - by apply incrby_fine.
  - by apply decrby_fine.
  - by apply mget_fine.
  - by apply getset_fine.
  - apply mset_fine.
  - apply mset_fine.
  - by apply setbit_fine.
  - by apply getbit_fine.
  - by apply bitop_fine.
  - by apply bitcount_fine.
Qed.
End Command.
End Commands.
