(* ===== verification/MultiProofs.v ===== *)
(** MultiProofs: the handlers that are not modelled, the tables of watched
    keys, and what a command does to the state of the server. *)
From Stdlib Require Strings.String.
From S2P Require Import Prelude Util Sds Objects Server Db Strings Bitops Multi ServerProofs KeyProofs CommandProofs StringProofs.
From S2P Require Reply ReplySpec Request.
Import (notations) Strings.String.

Section Multi.
Context {V : Type} `{E : Rest V} {mode : Mode} `{EOk : !RestOk V}.
#[local] Abbreviation M := (M V).
#[local] Abbreviation server := (server V).
Implicit Types (s : server) (i j : cid) (c : client) (d : nat) (k : key) (wk : watchedKey) (P : server -> Prop) (K : watchedKey -> Prop).

(** ** Handlers that are not modelled *)

Lemma data_wf_of s : data_ok s -> data_wf (data_of (dbs s)).
Proof.
  intros H j m e Hj k t Ht. unfold data_of in Hj. rewrite list_lookup_fmap in Hj. destruct (dbs s !! j) as [x|] eqn:Hx; [|done]. injection Hj as <- <-. by apply (H j x Hx).
Qed.
Lemma value_time s wk : time_in (data_of (dbs s)) wk = time_of s wk.
Proof. unfold time_in, time_of, data_of. rewrite list_lookup_fmap. by destruct (dbs s !! wk_db wk). Qed.
Lemma value_lookup s wk : value_in (data_of (dbs s)) wk = lookup s wk.
Proof. unfold value_in, lookup, data_of. rewrite list_lookup_fmap. by destruct (dbs s !! wk_db wk). Qed.

(** Writing data that [data_step] allows. *)
Lemma rel_data (o : option cid) K s0 s (es : data V) (l : list watchedKey) : rel o K s0 s -> data_step (evicts s) (data_of (dbs s)) es l -> (forall wk, wk ∈ l -> K wk) ->
  rel o K s0 (with_dbs s (with_data (dbs s) es)).
Proof.
  intros HR (Hlen & Hwf & Hv) HK. unfold data_of in Hlen. rewrite length_fmap in Hlen. apply rel_dbs; [done|unfold with_data; rewrite length_zip_with; lia|].
  intros d x x' Hx Hx'. unfold with_data in Hx'. apply lookup_zip_with_Some in Hx' as (y & [m e] & -> & Hy & He). assert (y = x) as -> by congruence. cbn [watched_keys dict fst snd].
  split; [done|]. split; [by intros k t Ht; apply (Hwf d m e He)|]. intros k. specialize (Hv (WatchedKey k d)). rewrite value_lookup, value_time in Hv. unfold value_in, time_in in Hv. cbn [wk_db wk_key] in Hv.
  rewrite He, (lookup_db _ _ _ _ Hx), (time_db _ _ _ _ Hx) in Hv. destruct Hv as [Hk|Hv]; [left; by apply HK|by right].
Qed.

Section Command.
Context (s0 : server) (i : cid) (c0 : client) (Hinv : inv s0) (Hi : store s0 !! i = Some c0).

(** All the keys are signalled, one after the other. *)
Lemma signal_all P l : closed P -> (forall s, P s -> inv s) -> (forall s wk, P s -> wk ∈ l -> (wk_db wk < length (dbs s))%nat) ->
  triple P (each (fun wk => signalModifiedKey (wk_db wk) (wk_key wk)) l) (fun _ s => P s /\ forall wk, wk ∈ l -> marked wk s).
Proof.
  intros HP HI Hd. apply (triple_collect marked); [apply marked_closed|done|]. intros wk R Hwk HR HRP. destruct wk as [k d].
  apply (signal_spec R d k); [done|]. intros s Hs. split; [by apply HI, HRP|by apply (Hd s (WatchedKey k d)); [apply HRP|]].
Qed.

Lemma fine_client s c c' : fine s0 s -> store s !! i = Some c -> watched c' = watched c -> Forall queued_ok (mstate c') ->
  (db c' < length (dbs s))%nat -> client_kept c c' -> fine s0 (with_clients s (clients s) (<[i := c']> (store s))).
Proof.
  intros [HI (K & Hch & Hm)] Hc Hw Hq Hd Hk. destruct (rel_client None K s s i c c' (rel_start _ _ _ HI) Hc Hw Hq Hd (or_intror Hk)) as [HI' Hch'].
  split; [done|]. exists K. split; [by eapply changes_trans|]. intros wk Hwk. destruct (Hm wk Hwk); [left; by eapply marked_changes|by right].
Qed.

Lemma other_fine p : queued_ok (current c0) -> cmd_fine s0 (run_other p i).
Proof.
  intros Hq. unfold cmd_fine, run_other. eapply triple_bind; [by apply (read_client s0 i c0 Hi)|cbv beta; intros c; apply triple_fact; intros ->].
  eapply triple_bind; [apply triple_get|cbv beta; intros s1]. apply triple_pre. intros s2 [-> Hs]. destruct (start_rel s0 Hinv None (fun _ => False) s2 Hs) as [HI2 _].
  assert (data_wf (data_of (dbs s2))) as Hwf by apply data_wf_of, HI2. assert (length (data_of (dbs s2)) = length (dbs s0)) as Hl2 by (unfold data_of; rewrite length_fmap; by destruct Hs as (-> & _)).
  pose proof (db_in s0 i c0 Hinv Hi) as Hdb. destruct (other_ok p (conf s2) c0 (data_of (dbs s2)) Hwf) as (Hst & Hod & Hcmd & Ht); [by rewrite Hl2|]. cbv zeta in *.
  set (o := other p (conf s2) c0 (data_of (dbs s2))) in *. set (K := fun wk => wk ∈ o_touched o). rewrite Hl2 in *.
  eapply (triple_bind _ _ _ (fun _ => rel None K s0)).
  { apply triple_put. intros s ->. apply (rel_closed None K s0 (with_dbs s2 (with_data (dbs s2) (o_data o)))); [apply core_mild; by repeat split|].
    eapply rel_data; [by apply start_rel|exact Hst|done]. }
  intros _. eapply triple_bind; [apply signal_all; [apply rel_closed|by intros s [? _]|]|cbv beta; intros _].
  { intros s wk HR Hin. rewrite Forall_forall in Ht. eapply rel_len; [exact HR|by apply Ht]. }
  eapply (triple_conseq (fine s0)); [| |intros a s Hq'; exact Hq'].
  2:{ intros s [[H1 H2] Hm]. split; [done|]. exists K. split; [done|]. intros wk Hwk. left. by apply Hm. }
  eapply (triple_bind _ _ _ (fun _ => fine s0)); [apply triple_each; intros r _; by apply (reply_fine s0 i c0)|]. intros _ s Hs'.
  destruct (fine_alive s0 i c0 Hi s Hs') as [c Hc]. unfold update, get_client, set_client, mbind, M_bind. rewrite Hc. eexists _, _. split; [done|].
  eapply fine_client; [done|done|done|exact (inv_queue _ (proj1 Hs') i c Hc)| |].
  - destruct Hs' as [_ (K' & Hch & _)]. by rewrite (ch_len _ _ _ _ Hch).
  - split_and!; auto.
Qed.

(** *** [UNWATCH] of a client that watches nothing *)

Lemma lower_closed P m : closed P -> (forall s, P s -> exists c, store s !! i = Some c /\ watched c = []) -> triple P (lower i m) (fun _ => P).
Proof.
  intros HP Hw s Hs. destruct (Hw s Hs) as (c & Hc & Ew). unfold lower, update, get_client, set_client, mbind, M_bind. rewrite Hc.
  eexists _, _. split; [done|]. eapply HP; [|exact Hs]. constructor; try done; cbn [store with_clients].
  - intros j cj Hj. destruct (decide (j = i)) as [->|Hne].
    + eexists. rewrite lookup_insert_eq. split; [done|]. assert (cj = c) as -> by congruence. split_and!; auto.
    + exists cj. rewrite lookup_insert_ne by done. split; [done|]. split_and!; auto.
  - intros j Hj. destruct (decide (j = i)) as [->|Hne]; [congruence|by rewrite lookup_insert_ne].
Qed.

Lemma unwatch_fine : watched c0 = [] -> cmd_fine s0 (unwatchCommand i).
Proof.
  intros Ew. unfold cmd_fine, unwatchCommand, unwatchAllKeys. apply (triple_bind _ _ _ (fun _ => start s0)).
  { eapply triple_bind; [by apply (read_client s0 i c0 Hi)|cbv beta; intros c; apply triple_fact; intros ->]. rewrite Ew. by apply triple_ret. }
  intros _. set (P := fun s => R0 s0 s /\ exists c, store s !! i = Some c /\ watched c = []).
  assert (closed P) as HP.
  { intros s s' Hm (HR & c & Hc & Hw). split; [by eapply R0_closed|]. destruct (mi_fwd _ _ Hm i c Hc) as (c' & Hc' & E' & _). exists c'. split; [done|congruence]. }
  eapply (triple_conseq P); [|intros s Hs; split; [by apply start_rel|]; exists c0; by destruct Hs as (_ & _ & -> & _)|intros a s Hq; exact Hq].
  eapply triple_bind; [apply lower_closed; [exact HP|by intros s [_ ?]]|cbv beta; intros _].
  eapply triple_conseq; [apply (reply_closed P); [exact HP|]|done|].
  - intros s (_ & c & Hc & _). by eexists.
  - intros a s [HR _]. by apply fine_R0.
Qed.

(** *** The commands that can be queued *)

Lemma multi_move : (3 <= length (argv c0))%nat -> may_move = true -> cmd_fine s0 (moveCommand i).
Proof.
  intros Hl Hm. eapply triple_conseq; [by apply (move_rel s0 i c0 Hinv Hi)|done|]. intros a s (k & _ & H1 & H2). split; [done|]. exists (moved k). split; [done|]. by right.
Qed.

Lemma run_proc_fine call p : queued_ok (current c0) -> queueable p -> args_ok p (argv c0) -> (p = UnwatchCommand -> watched c0 = []) ->
  cmd_fine s0 (run_proc call p i).
Proof.
  intros Hq (He & Hd & Hm & Hw) Ha Hu. pose proof Ha as [Hl Hf]. destruct p; cbn [run_proc]; try (by apply other_fine); try contradiction; cbn in Hl; try (refine (string_fine s0 i c0 Hinv Hi _ _ _ Ha); reflexivity).
  - by eapply del_fine.
  - by eapply exists_fine.
  - by eapply randomkey_fine.
  - by eapply select_fine.
  - by apply multi_move.
  - by eapply rename_fine.
  - by eapply rename_fine.
  - by eapply (expire_fine s0 i c0 Hinv Hi ExpireCommand).
  - by eapply (expire_fine s0 i c0 Hinv Hi ExpireatCommand).
  - by eapply (expire_fine s0 i c0 Hinv Hi PexpireCommand).
  - by eapply (expire_fine s0 i c0 Hinv Hi PexpireatCommand).
  - by eapply keys_fine.
  - by eapply dbsize_fine.
  - by eapply type_fine.
  - by eapply flushdb_fine.
  - by eapply flushall_fine.
  - by eapply ttl_fine.
  - by eapply ttl_fine.
  - by eapply persist_fine.
  - by apply unwatch_fine, Hu.
Qed.

(** *** Calling *)

(** What a handler reaches and small changes keep, a call reaches. *)
Lemma call_post depth x f Q : cmd c0 = Some x -> closed Q -> (forall s, Q s -> exists c, store s !! i = Some c /\ is_Some (cmd c)) ->
  triple (start s0) (run_proc (call depth) (proc x) i) (fun _ => Q) -> triple (start s0) (call (S depth) i f) (fun _ => Q).
Proof.
  intros Hx HQ Hc Hrun. cbn [call]. eapply triple_bind; [apply triple_get|cbv beta; intros s1]. apply triple_drop.
  eapply triple_bind; [by apply (read_client s0 i c0 Hi)|cbv beta; intros c; apply triple_fact; intros ->].
  eapply triple_bind; [apply triple_opt; intros s _; exact Hx|cbv beta; intros y; apply triple_fact; intros ->].
  eapply triple_bind; [exact Hrun|cbv beta; intros _]. eapply triple_bind; [apply triple_get|cbv beta; intros s2]. apply triple_drop.
  intros s Hs. destruct (Hc s Hs) as (c & Hst & y & Hy). unfold mbind at 1, M_bind, get_client. rewrite Hst. unfold mbind, M_bind, opt. rewrite Hy. cbn [mret M_ret].
  destruct (has f _); [|by exists tt, s]. cbv zeta. destruct (negb _); [|by exists tt, s]. by apply (propagate_closed Q).
Qed.

Lemma kept_cmd c c' : client_kept c c' -> is_Some (cmd c) -> is_Some (cmd c').
Proof.
  unfold client_kept, current. intros (_ & _ & _ & [ He | (x & Hx & _)]) Hs; [by injection He as _ -> |]. cbn in Hx. rewrite Hx. by eexists.
Qed.

Lemma call_fine depth f : queued_ok (current c0) -> (forall x, cmd c0 = Some x -> proc x = UnwatchCommand -> watched c0 = []) ->
  cmd_fine s0 (call (S depth) i f).
Proof.
  intros Hq Hu. pose proof Hq as (x & Hx & Hqu & Ha). cbn [mc_cmd mc_argv current] in *. apply (call_post depth x); [done|apply fine_closed| |].
  - intros s Hs. destruct (fine_alive s0 i c0 Hi s Hs) as [c Hc]. exists c. split; [done|]. destruct Hs as [_ (K & Hch & _)].
    eapply kept_cmd; [by eapply (ch_kept _ _ _ _ Hch i)|]. by exists x.
  - apply run_proc_fine; [done|done|done|]. by apply Hu.
Qed.
End Command.
End Multi.
