(* ===== verification/ExecProofs.v ===== *)
(** ExecProofs: the lists of watched keys of the clients and of the
    databases agree when a client watches a key and when it gives up; and what
    [EXEC], a call and a command processed leave of the invariant. *)
From Stdlib Require Strings.String.
From S2P Require Import Prelude Util Sds Objects Server Db Multi ServerProofs KeyProofs CommandProofs StringProofs MultiProofs.
From S2P Require Request Reply ReplySend ReplySpec.

Section Watch.
Context {V : Type} `{E : Rest V} {mode : Mode}.
#[local] Abbreviation M := (M V).
#[local] Abbreviation server := (server V).
Implicit Types (s : server) (i j : cid) (c : client) (d : nat) (k : key) (wk : watchedKey) (P : server -> Prop).

(** Who watches the key [k], in a table. *)
Definition watchers (m : gmap key (list cid)) k : list cid := default [] (m !! k).
Lemma listed_watchers s j k d x : dbs s !! d = Some x -> (listed s j (WatchedKey k d) <-> j ∈ watchers (watched_keys x) k).
Proof.
  intros Hx. unfold listed, watchers. cbn [wk_db wk_key]. split.
  - intros (y & l & Hy & Hl & Hj). assert (y = x) as -> by congruence. by rewrite Hl.
  - destruct (watched_keys x !! k) as [l|] eqn:Hl; cbn [default from_option id]; [|by intros ?%elem_of_nil]. intros Hj. by exists x, l.
Qed.

(** A client's list and a key's list, in a database, are written. *)
Definition retied s i c d (x : redisDb V) (m : gmap key (list cid)) (w : list watchedKey) : server :=
  with_clients (with_dbs s (<[d := RedisDb (dict x) (expires x) m]> (dbs s))) (clients s) (<[i := set_watched c w]> (store s)).

Lemma retied_lookup s i c d x m w wk : dbs s !! d = Some x ->
  lookup (retied s i c d x m w) wk = lookup s wk /\ time_of (retied s i c d x m w) wk = time_of s wk.
Proof.
  intros Hx. unfold lookup, time_of. cbn [retied dbs with_clients with_dbs]. destruct (decide (wk_db wk = d)) as [->|Hne].
  - rewrite list_lookup_insert_eq by (by eapply lookup_lt_Some). by rewrite Hx.
  - by rewrite list_lookup_insert_ne.
Qed.

(** Only the lists of [k] and of [i] differ. *)
Record tie i c k d (x : redisDb V) (m : gmap key (list cid)) (w : list watchedKey) : Prop := {
  tie_nodup : NoDup w;
  tie_keys : forall k', k' <> k -> m !! k' = watched_keys x !! k';
  tie_list : forall l, m !! k = Some l -> l <> [] /\ NoDup l;
  tie_others : forall j, j <> i -> j ∈ watchers m k <-> j ∈ watchers (watched_keys x) k;
  tie_own : i ∈ watchers m k <-> WatchedKey k d ∈ w;
  tie_rest : forall wk, wk <> WatchedKey k d -> wk ∈ w <-> wk ∈ watched c }.

Lemma tie_listed s i c k d x m w j wk : dbs s !! d = Some x -> tie i c k d x m w -> (j = i /\ wk = WatchedKey k d \/
  (listed (retied s i c d x m w) j wk <-> listed s j wk)).
Proof.
  intros Hx T. assert (dbs (retied s i c d x m w) !! d = Some (RedisDb (dict x) (expires x) m)) as Hx'.
  { cbn. apply list_lookup_insert_eq. by eapply lookup_lt_Some. }
  destruct wk as [k' d']. destruct (decide (d' = d)) as [->|Hd].
  - destruct (decide (k' = k)) as [->|Hk].
    + destruct (decide (j = i)) as [->|Hj]; [by left|right]. rewrite (listed_watchers _ _ _ _ _ Hx'), (listed_watchers _ _ _ _ _ Hx). by apply (tie_others _ _ _ _ _ _ _ T).
    + right. rewrite (listed_watchers _ _ _ _ _ Hx'), (listed_watchers _ _ _ _ _ Hx). unfold watchers. cbn [watched_keys]. by rewrite (tie_keys _ _ _ _ _ _ _ T).
  - right. unfold listed. cbn [retied dbs with_clients with_dbs wk_db]. by rewrite list_lookup_insert_ne.
Qed.

Lemma tie_watching s i c k d x m w j wk : store s !! i = Some c -> tie i c k d x m w -> (j = i /\ wk = WatchedKey k d \/
  (watching (retied s i c d x m w) j wk <-> watching s j wk)).
Proof.
  intros Hc T. unfold watching. cbn [retied store with_clients with_dbs]. destruct (decide (j = i)) as [->|Hj]; [|right; by rewrite lookup_insert_ne].
  destruct (decide (wk = WatchedKey k d)) as [->|Hk]; [by left|right]. rewrite lookup_insert_eq, Hc.
  pose proof (tie_rest _ _ _ _ _ _ _ T wk Hk) as Hw.
  split; intros (c' & [= <-] & Hin); eexists; (split; [reflexivity|]); by apply Hw.
Qed.

(** The two lists stay in agreement. *)
Lemma retied_inv s i c k d x m w : inv s -> store s !! i = Some c -> dbs s !! d = Some x -> tie i c k d x m w -> inv (retied s i c d x m w).
Proof.
  intros [[A1 A2 A3 A4 A5 A6] D S W B Q] Hc Hx T. set (s' := retied s i c d x m w).
  assert (dbs s' !! d = Some (RedisDb (dict x) (expires x) m)) as Hx'.
  { cbn. apply list_lookup_insert_eq. by eapply lookup_lt_Some. }
  assert (forall y d', dbs s' !! d' = Some y -> d' <> d -> dbs s !! d' = Some y) as Hoth.
  { intros y d' Hy Hd. cbn in Hy. by rewrite list_lookup_insert_ne in Hy. }
  assert (forall j cj, store s' !! j = Some cj -> exists c1, store s !! j = Some c1 /\ (cj = c1 \/ j = i /\ c1 = c /\ cj = set_watched c w)) as Hst.
  { intros j cj Hj. cbn in Hj. apply lookup_insert_Some in Hj as [[<- <-]|[Hne Hj]]; [exists c|exists cj]; auto. }
  assert (listed s' i (WatchedKey k d) <-> watching s' i (WatchedKey k d)) as Hown.
  { rewrite (listed_watchers _ _ _ _ _ Hx'). cbn [watched_keys]. rewrite (tie_own _ _ _ _ _ _ _ T). unfold watching. cbn [s' retied store with_clients with_dbs]. rewrite lookup_insert_eq.
    split; [intros Hw; by eexists|by intros (c' & [= <-] & Hw)]. }
  constructor; [constructor|..].
  - intros j. cbn [s' retied clients with_clients store]. rewrite A1. destruct (decide (j = i)) as [->|Hj]; [|by rewrite lookup_insert_ne].
    rewrite lookup_insert_eq, Hc. split; intros _; by eexists.
  - exact A2.
  - intros j cj Hj. destruct (Hst _ _ Hj) as (c1 & H1 & [->|(_ & _ & ->)]); [by eapply A3|exact (tie_nodup _ _ _ _ _ _ _ T)].
  - intros j wk Hj. destruct (tie_listed s i c k d x m w j wk Hx T) as [[-> ->]|Hl]; [by apply Hown|]. apply Hl, A4.
    destruct (tie_watching s i c k d x m w j wk Hc T) as [[-> ->]|Hw]; [|by apply Hw]. by apply A5, Hl, Hown.
  - intros j wk Hj. destruct (tie_listed s i c k d x m w j wk Hx T) as [[-> ->]|Hl]; [by apply Hown|].
    destruct (tie_watching s i c k d x m w j wk Hc T) as [[-> ->]|Hw]; [by apply Hown|]. apply Hw, A5. by apply Hl.
  - intros d' y k' l Hy Hl. destruct (decide (d' = d)) as [->|Hd]; [|eapply A6; [by apply Hoth|exact Hl]].
    rewrite Hx' in Hy. injection Hy as <-. cbn [watched_keys] in Hl. destruct (decide (k' = k)) as [->|Hk]; [exact (tie_list _ _ _ _ _ _ _ T l Hl)|].
    rewrite (tie_keys _ _ _ _ _ _ _ T) in Hl by done. by eapply A6.
  - intros d' y Hy. destruct (decide (d' = d)) as [->|Hd]; [|by eapply D, Hoth]. rewrite Hx' in Hy. injection Hy as <-. exact (D d x Hx).
  - cbn. by rewrite length_insert.
  - exact W.
  - intros j cj Hj. cbn [s' retied dbs with_clients with_dbs]. rewrite length_insert. destruct (Hst _ _ Hj) as (c1 & H1 & [->|(_ & _ & ->)]); [by eapply B|by apply (B i c Hc)].
  - intros j cj Hj. destruct (Hst _ _ Hj) as (c1 & H1 & [->|(_ & _ & ->)]); [by eapply Q|by apply (Q i c Hc)].
Qed.

Lemma retied_changes s i c d x m w K : store s !! i = Some c -> dbs s !! d = Some x -> changes (Some i) K s (retied s i c d x m w).
Proof.
  intros Hc Hx. constructor; try done; cbn [retied dbs store with_clients with_dbs].
  - by rewrite length_insert.
  - intros j. destruct (decide (j = i)) as [->|Hj]; [rewrite lookup_insert_eq, Hc; split; intros _; by eexists|by rewrite lookup_insert_ne].
  - intros j c1 c2 Hj H1 H2. rewrite lookup_insert_ne in H2 by congruence. assert (c2 = c1) as -> by congruence. apply kept_refl.
  - intros wk. right. left. destruct (retied_lookup s i c d x m w wk Hx) as [H1 H2]. split; [done|]. unfold mortal. by rewrite H2.
Qed.

(** *** Watching a key *)

Lemma watch_tie s i c k d x : inv s -> store s !! i = Some c -> dbs s !! d = Some x -> WatchedKey k d ∉ watched c ->
  tie i c k d x (<[k := watchers (watched_keys x) k ++ [i]]> (watched_keys x)) (watched c ++ [WatchedKey k d]).
Proof.
  intros H Hc Hx Hn. destruct (inv_watch _ H) as [A1 A2 A3 A4 A5 A6].
  assert (i ∉ watchers (watched_keys x) k) as Hi.
  { intros Hi. destruct (A5 i (WatchedKey k d)) as (c' & Hc' & Hin); [by apply (listed_watchers _ _ _ _ _ Hx)|]. by assert (c' = c) as -> by congruence. }
  constructor.
  - apply NoDup_app. split; [by eapply A3|]. split; [by intros wk Hw ->%list_elem_of_singleton|apply NoDup_singleton].
  - intros k' Hk. by rewrite lookup_insert_ne.
  - intros l. rewrite lookup_insert_eq. intros [= <-]. split; [by destruct (watchers _ _)|]. apply NoDup_app. split; [|split; [by intros j Hj ->%list_elem_of_singleton|apply NoDup_singleton]].
    unfold watchers. destruct (watched_keys x !! k) as [l|] eqn:El; [by eapply A6|apply NoDup_nil_2].
  - intros j Hj. unfold watchers at 1. rewrite lookup_insert_eq. cbn [default from_option id]. rewrite elem_of_app, list_elem_of_singleton. by split; [intros [|]|left].
  - unfold watchers at 1. rewrite lookup_insert_eq. cbn [default from_option id]. rewrite !elem_of_app, !list_elem_of_singleton. by split; right.
  - intros wk Hw. rewrite elem_of_app, list_elem_of_singleton. by split; [intros [|]|left].
Qed.

Lemma existsb_watched (l : list watchedKey) k d :
  existsb (fun wk => bool_decide (wk_db wk = d) && bool_decide (k = wk_key wk)) l = bool_decide (WatchedKey k d ∈ l).
Proof.
  apply eq_true_iff_eq. rewrite existsb_exists, bool_decide_eq_true. split.
  - intros (wk & Hin & Hb). apply andb_true_iff in Hb as [H1 H2]. apply bool_decide_eq_true in H1, H2. apply list_elem_of_In in Hin. destruct wk. cbn in *. by subst.
  - intros Hin. exists (WatchedKey k d). split; [by apply list_elem_of_In|]. cbn. by rewrite !bool_decide_eq_true_2.
Qed.

Lemma watchForKey_spec s i c k : inv s -> store s !! i = Some c ->
  exists s' w, watchForKey i k s = Some (tt, s') /\ inv s' /\ changes (Some i) (fun _ => False) s s' /\ store s' !! i = Some (set_watched c w) /\
    watched c ⊆ w /\ WatchedKey k (db c) ∈ w.
Proof.
  intros H Hc. destruct (lookup_lt_is_Some_2 (dbs s) (db c)) as [x Hx]; [by eapply inv_db|].
  unfold watchForKey, get_client, get_db, set_db, update, set_client, mbind, M_bind. rewrite Hc, existsb_watched. case_bool_decide as Hin.
  - exists s, (watched c). split; [done|]. split; [done|]. split; [apply changes_refl|]. by destruct c.
  - rewrite Hx. unfold get_client. cbn [store with_dbs]. rewrite Hc. exists (retied s i c (db c) x (<[k:=watchers (watched_keys x) k ++ [i]]> (watched_keys x)) (watched c ++ [WatchedKey k (db c)])), (watched c ++ [WatchedKey k (db c)]).
    split; [done|]. split; [by eapply retied_inv, watch_tie|]. split; [by apply retied_changes|]. split; [cbn; by rewrite lookup_insert_eq|]. split; [set_solver|]. set_solver.
Qed.

(** *** Giving up *)

Lemma unwatch_tie s i c k d x (l l' : list cid) (w : list watchedKey) : inv s -> store s !! i = Some c -> watched c = WatchedKey k d :: w -> dbs s !! d = Some x -> watched_keys x !! k = Some l ->
  l ≡ₚ i :: l' ->
  tie i c k d x (if bool_decide (l' = []) then delete k (watched_keys x) else <[k := l']> (watched_keys x)) w.
Proof.
  intros H Hc Ew Hx Hl Hp. destruct (inv_watch _ H) as [A1 A2 A3 A4 A5 A6]. pose proof (A3 i c Hc) as Hnd. rewrite Ew in Hnd. apply NoDup_cons in Hnd as [Hnin Hnd].
  destruct (A6 d x k l Hx Hl) as [_ Hl2]. rewrite Hp in Hl2. apply NoDup_cons in Hl2 as [Hi Hl2]. set (m := if bool_decide _ then _ else _).
  assert (watchers m k = l') as Hm.
  { unfold m, watchers. case_bool_decide as E'; [by rewrite lookup_delete_eq, E'|by rewrite lookup_insert_eq]. }
  constructor; rewrite ?Hm.
  - done.
  - intros k' Hk. unfold m. case_bool_decide; [by rewrite lookup_delete_ne|by rewrite lookup_insert_ne].
  - intros l1 Hl1. assert (l1 = l') as -> by (unfold watchers in Hm; by rewrite Hl1 in Hm). split; [|done]. intros ->. unfold m in Hl1.
    rewrite bool_decide_eq_true_2, lookup_delete_eq in Hl1 by done. done.
  - intros j Hj. unfold watchers. rewrite Hl. cbn [default from_option id]. rewrite Hp, elem_of_cons. by split; [right|intros [|]].
  - done.
  - intros wk Hw. rewrite Ew, elem_of_cons. by split; [right|intros [|]].
Qed.

Definition same_rest s s' : Prop :=
  clients s' = clients s /\ conf s' = conf s /\ dirty s' = dirty s /\ aof s' = aof s /\ repl s' = repl s /\ data_of (dbs s') = data_of (dbs s) /\
  ticks s' = ticks s /\ draws s' = draws s.

Lemma unwatch_key_spec s i c wk (w : list watchedKey) : inv s -> store s !! i = Some c -> watched c = wk :: w ->
  exists s', unwatch_key i wk s = Some (tt, s') /\ inv s' /\ changes (Some i) (fun _ => False) s s' /\ same_rest s s' /\
    store s' = <[i := set_watched c w]> (store s).
Proof.
  intros H Hc Ew. destruct wk as [k d]. destruct (wo_in _ (inv_watch _ H) i (WatchedKey k d)) as (x & l & Hx & Hl & Hi); [exists c; split; [done|rewrite Ew; by left]|].
  cbn [wk_db wk_key] in *. destruct (ReplySend.del_client_spec i l Hi) as (l' & Hdel & Hp).
  unfold unwatch_key, get_client, get_db, set_db, update, set_client, mbind, M_bind. cbn [wk_db wk_key]. rewrite Hx, Hl. cbn [opt mret M_ret]. rewrite Hdel. cbn [opt mret M_ret]. unfold get_client. cbn [store with_dbs].
  rewrite Hc, Ew. exists (retied s i c d x (if bool_decide (l' = []) then delete k (watched_keys x) else <[k := l']> (watched_keys x)) w).
  split; [done|]. split; [by eapply retied_inv, unwatch_tie|]. split; [by apply retied_changes|]. split; [|done]. repeat split. cbn. unfold data_of. rewrite list_fmap_insert. cbn.
  apply list_insert_id. by rewrite list_lookup_fmap, Hx.
Qed.

Lemma unwatchAllKeys_spec s i c : inv s -> store s !! i = Some c ->
  exists s', unwatchAllKeys i s = Some (tt, s') /\ inv s' /\ changes (Some i) (fun _ => False) s s' /\ same_rest s s' /\
    store s' = <[i := set_watched c []]> (store s).
Proof.
  intros H Hc. unfold unwatchAllKeys, get_client. unfold mbind at 1, M_bind. rewrite Hc. remember (watched c) as w eqn:Ew. revert s c H Hc Ew.
  induction w as [|wk w IH]; intros s c H Hc Ew.
  - exists s. split; [done|]. split; [done|]. split; [apply changes_refl|]. split; [done|]. rewrite insert_id; [done|]. rewrite Hc, Ew. by destruct c.
  - destruct (unwatch_key_spec s i c wk w H Hc (eq_sym Ew)) as (s1 & Er & H1 & C1 & (X1 & X2 & X3 & X4 & X5 & X6 & X7 & X8) & S1).
    destruct (IH s1 (set_watched c w)) as (s2 & Er2 & H2 & C2 & (Y1 & Y2 & Y3 & Y4 & Y5 & Y6 & Y7 & Y8) & S2); [done|by rewrite S1, lookup_insert_eq|done|].
    exists s2. cbn [each]. unfold mbind, M_bind. rewrite Er. split; [exact Er2|]. split; [done|]. split; [by eapply changes_trans|]. split; [repeat split; congruence|].
    by rewrite S2, S1, insert_insert_eq.
Qed.
End Watch.

(** [MULTI], [EXEC], [DISCARD] and [WATCH], and the processing of
    a command, keep the invariant and fail no assertion. *)
Import (notations) Strings.String.

Section Exec.
Context {V : Type} `{E : Rest V} {mode : Mode} `{EOk : !RestOk V}.
#[local] Abbreviation M := (M V).
#[local] Abbreviation server := (server V).
Implicit Types (s : server) (i j : cid) (c : client) (d : nat) (k : key) (wk : watchedKey) (P : server -> Prop) (K : watchedKey -> Prop) (Φ : client -> Prop).

Section Client.
Context (i : cid) (s0 : server).

(** ** Inside a transaction

    While the client [i] changes its own state, a value that is written is
    signalled to the others. *)
Definition marked_but wk s : Prop := forall j, j <> i -> watching s j wk -> dirtied j s.
Definition busy Φ s : Prop :=
  inv s /\ (exists K, changes (Some i) K s0 s /\ forall wk, K wk -> marked_but wk s \/ may_move = true) /\ exists c, store s !! i = Some c /\ Φ c.

Lemma marked_but_changes K s s' wk : changes (Some i) K s s' -> marked_but wk s -> marked_but wk s'.
Proof.
  intros H Hm j Hj (c' & Hc' & Hin) c2 Hc2 Hne. assert (c2 = c') as -> by congruence. destruct (proj2 (ch_alive _ _ _ _ H j)) as [c Hc]; [by eexists|].
  destruct (ch_kept _ _ _ _ H j c c' ltac:(congruence) Hc Hc') as (Ew & _ & Hf & _). rewrite Ew in *. apply Hf; [done|]. apply (Hm j); [done|by exists c|done|done].
Qed.

(** Changes after which the marks of [K'] are set. *)
Lemma busy_then Φ Φ' s s' (K' : watchedKey -> Prop) : busy Φ s -> inv s' -> changes (Some i) K' s s' -> (forall wk, K' wk -> marked_but wk s' \/ may_move = true) ->
  (exists c', store s' !! i = Some c' /\ Φ' c') -> busy Φ' s'.
Proof.
  intros (HI & (K & Hch & Hm) & _) HI' Hch' Hm' Hc'. split; [done|]. split; [|done]. exists (fun wk => K wk \/ K' wk). split.
  - eapply changes_trans; (eapply changes_weaken; [| |eassumption]); auto.
  - intros wk [Hk|Hk]; [|by apply Hm']. destruct (Hm wk Hk); [left; by eapply marked_but_changes|by right].
Qed.

Lemma busy_set Φ Φ' s c c' : busy Φ s -> store s !! i = Some c -> watched c' = watched c -> (db c' < length (dbs s))%nat -> Forall queued_ok (mstate c') -> Φ' c' ->
  busy Φ' (with_clients s (clients s) (<[i := c']> (store s))).
Proof.
  intros HB Hc Hw Hd Hq HF. destruct (rel_client (Some i) (fun _ => False) s s i c c') as [HI Hch]; [apply rel_start, HB|done|done|done|done|by left|].
  eapply busy_then; [done|done|exact Hch|by intros wk []|]. exists c'. cbn [store with_clients]. by rewrite lookup_insert_eq.
Qed.

Lemma busy_update Φ Φ' f : (forall c, Φ c -> Forall queued_ok (mstate c) -> watched (f c) = watched c /\ db (f c) = db c /\ Forall queued_ok (mstate (f c)) /\ Φ' (f c)) ->
  triple (busy Φ) (update i f) (fun _ => busy Φ').
Proof.
  intros Hf s HB. pose proof HB as (HI & _ & c & Hc & HF). unfold update, get_client, set_client, mbind, M_bind. rewrite Hc. eexists _, _. split; [done|].
  destruct (Hf c HF) as (Hw & Hd & Hq & HF'); [by eapply inv_queue|]. eapply busy_set; [done|done|done| |done|done]. rewrite Hd. by eapply inv_db.
Qed.

Lemma busy_unwatch Φ Φ' : (forall c, Φ c -> Φ' (set_watched c [])) -> triple (busy Φ) (unwatchAllKeys i) (fun _ => busy Φ').
Proof.
  intros HF s HB. pose proof HB as (HI & _ & c & Hc & H1). destruct (unwatchAllKeys_spec s i c HI Hc) as (s' & Er & HI' & Hch & _ & Hst). exists tt, s'. split; [done|].
  eapply busy_then; [done|done|exact Hch|by intros wk []|]. eexists. rewrite Hst, lookup_insert_eq. split; [done|by apply HF].
Qed.

Lemma busy_reply Φ r : (forall c l, Φ c -> Φ (set_replies c l)) -> triple (busy Φ) (add_reply i r) (fun _ => busy Φ).
Proof. intros HF. apply busy_update. intros c H1 H2. split_and!; auto. Qed.

(** A change of the rest. *)
Lemma busy_core Φ (m : M unit) : (forall s, exists s', m s = Some (tt, s') /\ same_core s s') -> triple (busy Φ) m (fun _ => busy Φ).
Proof.
  intros Hm s HB. destruct (Hm s) as (s' & Er & Hs). exists tt, s'. split; [done|]. eapply (busy_then Φ Φ s s' (fun _ => False)); [done|by eapply core_inv, HB|by apply core_changes|by intros wk []|].
  destruct HB as (_ & _ & c & Hc & HF). exists c. by destruct Hs as (_ & _ & -> & _).
Qed.

(** A command of the transaction. *)
Lemma busy_call Φ Φ' depth f : (forall c, Φ c -> watched c = [] /\ queued_ok (current c)) -> (forall c c', Φ c -> client_kept c c' -> queued_ok (current c') -> Φ' c') ->
  triple (busy Φ) (call (S depth) i f) (fun _ => busy Φ').
Proof.
  intros H1 H2. apply triple_pre. intros s HB. pose proof HB as (HI & _ & c & Hc & HF). destruct (H1 c HF) as [Hw Hq].
  eapply triple_conseq; [apply (call_fine s i c HI Hc depth f Hq); by intros|by intros s' ->|].
  intros [] s' (HI' & K' & Hch & Hm'). eapply busy_then; [done|done|eapply changes_weaken; [by left| |exact Hch]; by intros wk Hk|..].
  - intros wk Hk. destruct (Hm' wk Hk) as [Hm|]; [left|by right]. intros j _. apply Hm.
  - destruct (proj1 (ch_alive _ _ _ _ Hch i)) as [c' Hc']; [by eexists|]. exists c'. split; [done|].
    pose proof (ch_kept _ _ _ _ Hch i c c' ltac:(done) Hc Hc') as Hk. apply (H2 c); [done|done|]. destruct Hk as (_ & _ & _ & [ -> | ]); done.
Qed.

Lemma busy_discard Φ : (forall c l, Φ c -> Φ (set_mstate c l)) -> (forall c f, Φ c -> Φ (set_cflags c f)) -> (forall c, Φ c -> Φ (set_watched c [])) ->
  triple (busy Φ) (discardTransaction i) (fun _ => busy (fun c => watched c = [] /\ Φ c)).
Proof.
  intros H1 H2 H3. unfold discardTransaction. eapply (triple_bind _ _ _ (fun _ => busy Φ)).
  { apply busy_update. intros c Hc Hq. split; [done|]. split; [done|]. split; [constructor|by apply H1]. }
  intros _. eapply (triple_bind _ _ _ (fun _ => busy Φ)); [apply busy_update; intros c Hc Hq; split; [done|]; split; [done|]; split; [done|by apply H2]|].
  intros _. apply busy_unwatch. intros c Hc. split; [done|by apply H3].
Qed.

(** *** The queue *)

Definition idle (n : nat) c : Prop := watched c = [] /\ length (mstate c) = n.

Lemma busy_multi Φ : triple (busy Φ) (execCommandPropagateMulti i) (fun _ => busy Φ).
Proof.
  unfold execCommandPropagateMulti, client_db. apply triple_assoc_r. eapply triple_bind; [apply get_client_spec; intros s (_ & _ & c & -> & _); by eexists|cbv beta; intros c].
  apply triple_drop. apply busy_core, propagate_core.
Qed.

(** Each command of the queue is run, whatever the ones before it did. *)
Lemma exec_loop_busy n fuel : forall (k : nat) (b : bool), (k <= n < fuel + k)%nat -> triple (busy (idle n)) (exec_loop (call 1) fuel i k b) (fun _ => busy (idle n)).
Proof.
  induction fuel as [|fuel IH]; intros k b Hn; [lia|]. cbn [exec_loop].
  eapply triple_bind; [apply get_client_spec; intros s (_ & _ & c & -> & _); by eexists|cbv beta; intros c]. apply triple_pre. intros s [Hc HB].
  pose proof HB as (HI & _ & c1 & Hc1 & Hw & Hl). assert (c1 = c) as -> by congruence.
  destruct (mstate c !! k) as [mc|] eqn:Hk; [|by apply triple_ret; intros s1 ->].
  assert (k < n)%nat as Hkn by (rewrite <-Hl; by eapply lookup_lt_Some).
  pose proof (inv_queue _ HI i c Hc) as HQ. assert (queued_ok mc) as Hq by by eapply Forall_lookup_1. pose proof Hq as (x & Hx & _).
  eapply (triple_bind _ _ _ (fun _ => busy (fun c' => idle n c' /\ current c' = mc))).
  { intros s1 ->. eexists _, _. split; [reflexivity|]. eapply busy_set; [done|done|done|exact (inv_db _ HI i c Hc)|done|]. split; [done|by destruct mc]. }
  intros _. eapply triple_bind; [apply triple_opt; intros s1 _; exact Hx|cbv beta; intros y]. apply triple_fact. intros ->. cbv zeta.
  eapply (triple_bind _ _ _ (fun _ => busy (fun c' => idle n c' /\ current c' = mc))); [destruct (_ && _); [apply busy_multi|by apply triple_ret]|].
  intros _. eapply (triple_bind _ _ _ (fun _ => busy (fun c' => idle n c' /\ queued_ok (current c')))).
  { apply busy_call; [intros c' [[Hw' _] Hcur]; split; [done|by rewrite Hcur]|]. intros c2 c3 [[Hw' Hl'] _] (E1 & E2 & _) Hq'. unfold idle. by rewrite E1, E2. }
  intros _. eapply triple_bind; [apply (busy_update _ (idle n))|cbv beta; intros _; apply IH; lia].
  intros c' [[Hw' Hl'] Hq'] HF. split; [done|]. split; [done|]. split; [by apply Forall_insert|]. split; [done|]. cbn. by rewrite length_insert.
Qed.

(** ** What a command of the client [i] leaves

    Every other client is as it was, but for its marks; the client [i] watches
    nothing, or still watches its keys with its mark. *)
Definition keeps_watch c c' : Prop := watched c' = [] \/ watched c ⊆ watched c' /\ (watched c <> [] -> cas c = true -> cas c' = true).
Definition adv s : Prop :=
  inv s /\ (exists K, changes (Some i) K s0 s /\ forall wk, K wk -> marked wk s \/ may_move = true) /\
  exists c, store s !! i = Some c /\ forall c0, store s0 !! i = Some c0 -> keeps_watch c0 c.
Definition has_cmd s : Prop := exists c, store s !! i = Some c /\ is_Some (cmd c).

Lemma keeps_watch_same c c1 c2 : keeps_watch c c1 -> watched c2 = watched c1 -> (watched c1 <> [] -> cas c1 = true -> cas c2 = true) -> keeps_watch c c2.
Proof.
  intros [Hn|[Hs Hc]] Hw Hf; [left; congruence|right]. split; [by rewrite Hw|]. intros Hne Hcas. apply Hf; [|by apply Hc].
  intros He. rewrite He in Hs. destruct (watched c) as [|wk l]; [done|]. specialize (Hs wk). by apply not_elem_of_nil in Hs; [|left].
Qed.

Lemma adv_closed : closed adv.
Proof.
  intros s s' Hm (HI & (K & Hch & Hk) & c & Hc & Hw). split; [by eapply inv_closed|]. split.
  - exists K. split; [by eapply changes_closed|]. intros wk Hwk. destruct (Hk wk Hwk); [left; by eapply marked_closed|by right].
  - destruct (mi_fwd _ _ Hm i c Hc) as (c' & Hc' & E1 & _ & _ & E2 & _). exists c'. split; [done|]. intros c0 H0. eapply keeps_watch_same; [by apply Hw|done|done].
Qed.
Lemma has_cmd_closed : closed has_cmd.
Proof.
  intros s s' Hm (c & Hc & x & Hx). destruct (mi_fwd _ _ Hm i c Hc) as (c' & Hc' & _ & _ & _ & _ & [ He | (y & Hy & _)]); exists c'; (split; [done|]).
  - injection He as _ ->. by exists x.
  - cbn in Hy. rewrite Hy. by exists y.
Qed.

(** From commands that keep the lists, and from those of a transaction. *)
Lemma adv_fine s : is_Some (store s0 !! i) -> fine s0 s -> adv s.
Proof.
  intros [c0 H0] (HI & K & Hch & Hk). split; [done|]. split; [exists K; split; [|done]; eapply changes_weaken; [by left| |exact Hch]; done|].
  destruct (proj1 (ch_alive _ _ _ _ Hch i)) as [c Hc]; [by eexists|]. exists c. split; [done|]. intros c1 H1.
  destruct (ch_kept _ _ _ _ Hch i c1 c ltac:(done) H1 Hc) as (Ew & _ & Hf & _). right. split; [by rewrite Ew|done].
Qed.
Lemma adv_busy Φ s : (forall c, Φ c -> watched c = []) -> busy Φ s -> adv s.
Proof.
  intros HF (HI & (K & Hch & Hk) & c & Hc & Hf). apply HF in Hf. split; [done|]. split; [|exists c; split; [done|]; by left].
  exists K. split; [done|]. intros wk Hwk. destruct (Hk wk Hwk) as [Hm|]; [left|by right]. intros j Hj. destruct (decide (j = i)) as [->|Hne]; [|by apply Hm].
  intros c' Hc' Hne. by assert (c' = c) as -> by congruence.
Qed.
Lemma busy_start Φ s c0 : inv s0 -> store s0 !! i = Some c0 -> Φ c0 -> start s0 s -> busy Φ s.
Proof.
  intros HI H0 HF Hs. split; [by eapply core_inv|]. split; [exists (fun _ => False); split; [by apply core_changes|by intros wk []]|].
  exists c0. by destruct Hs as (_ & _ & -> & _).
Qed.
End Client.

(** What comes before removes keys at most. *)
Lemma adv_before i s0 s1 s : R0 s0 s1 -> adv i s1 s -> adv i s0 s.
Proof.
  intros [H1 Hch1] (HI & (K & Hch & Hk) & c & Hc & Hw). split; [done|]. split.
  - exists K. split; [|done]. eapply changes_trans; [eapply changes_weaken; [by left| |exact Hch1]; by intros wk []|done].
  - exists c. split; [done|]. intros c0 H0. destruct (proj1 (ch_alive _ _ _ _ Hch1 i)) as [c1 Hc1]; [by eexists|].
    destruct (ch_kept _ _ _ _ Hch1 i c0 c1 ltac:(done) H0 Hc1) as (Ew & _ & Hf & _). destruct (Hw c1 Hc1) as [|[Hs Hc']]; [by left|right].
    rewrite Ew in *. split; [done|]. intros Hne Hcas. apply Hc'; [done|by apply Hf].
Qed.

(** ** The commands of transactions *)

Section Handlers.
Context (i : cid) (s0 : server) (c0 : client) (x : redisCommand) (Hinv : inv s0) (Hi : store s0 !! i = Some c0) (Hx : cmd c0 = Some x).

Definition advc s : Prop := adv i s0 s /\ has_cmd i s.
Lemma advc_closed : closed advc. Proof. apply closed_and; [apply adv_closed|apply has_cmd_closed]. Qed.
Lemma advc_alive s : advc s -> is_Some (store s !! i). Proof. intros [_ (c & -> & _)]. by eexists. Qed.
Lemma advc_reply r : triple advc (add_reply i r) (fun _ => advc). Proof. apply reply_closed; [apply advc_closed|apply advc_alive]. Qed.
Lemma advc_start s : start s0 s -> advc s.
Proof.
  intros Hs. split; [apply adv_fine; [by eexists|]; apply fine_R0; by apply start_rel|]. exists c0. destruct Hs as (_ & _ & -> & _). split; [done|by exists x].
Qed.

Definition watches_none c : Prop := watched c = [] /\ cmd c = Some x.
Lemma advc_busy s : busy i s0 watches_none s -> advc s.
Proof.
  intros HB. split; [eapply adv_busy; [|exact HB]; by intros c [? _]|]. destruct HB as (_ & _ & c & Hc & _ & E'). exists c. split; [done|]. rewrite E'. by eexists.
Qed.
Lemma same_client P : (forall s, P s -> start s0 s) -> triple P (get_client i) (fun c s => c = c0 /\ P s).
Proof. by apply read_client. Qed.

Lemma discard_busy : triple (busy i s0 (fun c => cmd c = Some x)) (discardTransaction i) (fun _ => busy i s0 watches_none).
Proof. by apply busy_discard. Qed.
Lemma start_busy Φ (m : M unit) : Φ c0 -> triple (busy i s0 Φ) m (fun _ => advc) -> triple (start s0) m (fun _ => advc).
Proof. intros HF H. eapply triple_conseq; [exact H| |done]. intros s. by eapply busy_start. Qed.

Lemma multi_adv : triple (start s0) (multiCommand i) (fun _ => advc).
Proof.
  eapply (triple_conseq advc); [|apply advc_start|intros a s Hq; exact Hq]. unfold multiCommand.
  eapply triple_bind; [apply get_client_spec, advc_alive|cbv beta; intros c]. apply triple_drop. destruct (has _ _); [apply advc_reply|].
  eapply triple_bind; [apply raise_closed; [apply advc_closed|apply advc_alive]|cbv beta; intros _]. apply advc_reply.
Qed.

Lemma discard_adv : triple (start s0) (discardCommand i) (fun _ => advc).
Proof.
  unfold discardCommand. eapply triple_bind; [by apply same_client|cbv beta; intros c; apply triple_fact; intros ->].
  destruct (negb _); [eapply triple_conseq; [apply advc_reply|apply advc_start|done]|].
  apply (start_busy (fun c => cmd c = Some x)); [done|]. eapply triple_bind; [apply discard_busy|cbv beta; intros _].
  eapply triple_conseq; [apply advc_reply|apply advc_busy|done].
Qed.

Lemma unwatch_adv : triple (start s0) (unwatchCommand i) (fun _ => advc).
Proof.
  apply (start_busy (fun c => cmd c = Some x)); [done|]. unfold unwatchCommand. eapply triple_bind; [by apply (busy_unwatch i s0 _ watches_none)|cbv beta; intros _].
  eapply triple_bind; [by apply (busy_update i s0 _ watches_none)|cbv beta; intros _]. eapply triple_conseq; [apply advc_reply|apply advc_busy|done].
Qed.

Lemma watch_adv : triple (start s0) (watchCommand i) (fun _ => advc).
Proof.
  unfold watchCommand. eapply triple_bind; [by apply same_client|cbv beta; intros c; apply triple_fact; intros ->].
  destruct (has _ _); [eapply triple_conseq; [apply advc_reply|apply advc_start|done]|].
  set (W := fun s => inv s /\ changes (Some i) (fun _ => False) s0 s /\ exists w, store s !! i = Some (set_watched c0 w) /\ watched c0 ⊆ w).
  assert (forall s, W s -> advc s) as HW.
  { intros s (HI & Hch & w & Hw & Hsub). split; [|by exists (set_watched c0 w); split; [|exists x]]. split; [done|]. split; [exists (fun _ => False); split; [done|by intros wk []]|].
    exists (set_watched c0 w). split; [done|]. intros c1 H1. assert (c1 = c0) as -> by congruence. by right. }
  eapply (triple_bind _ _ _ (fun _ => W)); [|intros _; eapply triple_conseq; [apply advc_reply|apply HW|done]].
  eapply (triple_conseq W); [|intros s Hs|intros a s Hq; exact Hq].
  - apply triple_each. intros k _ s (HI & Hch & w & Hw & Hsub). destruct (watchForKey_spec s i _ k HI Hw) as (s' & w' & Er & HI' & Hch' & Hw' & Hsub' & _).
    exists tt, s'. split; [done|]. split; [done|]. split; [by eapply changes_trans|]. exists w'. split; [done|]. by etrans.
  - destruct (start_rel s0 Hinv (Some i) (fun _ => False) s Hs) as [H1 H2]. split; [done|]. split; [done|]. exists (watched c0). destruct Hs as (_ & _ & -> & _).
    split; [|done]. rewrite Hi. by destruct c0.
Qed.

(** [EXEC]: the transaction is given up, or the client gives up its keys and
    every command of the queue is run. *)
Lemma exec_adv : triple (start s0) (execCommand (call 1) i) (fun _ => advc).
Proof.
  unfold execCommand. eapply triple_bind; [by apply same_client|cbv beta; intros c; apply triple_fact; intros ->].
  destruct (negb _); [eapply triple_conseq; [apply advc_reply|apply advc_start|done]|]. destruct (has _ _).
  - apply (start_busy (fun c => cmd c = Some x)); [done|]. eapply triple_bind; [by apply busy_reply|cbv beta; intros _].
    eapply triple_conseq; [apply discard_busy|done|]. intros a s; apply advc_busy.
  - apply (start_busy (fun c => c = c0)); [done|]. set (n := length (mstate c0)).
    eapply triple_bind; [apply (busy_unwatch i s0 _ (idle n)); by intros c ->|cbv beta; intros _].
    eapply triple_bind; [by apply busy_reply|cbv beta; intros _].
    eapply triple_bind; [apply exec_loop_busy; lia|cbv beta; intros b].
    eapply (triple_bind _ _ _ (fun _ => busy i s0 (fun c => cmd c = Some x))); [apply busy_update; by intros c [H1 H2] H3|intros _].
    eapply triple_bind; [apply discard_busy|cbv beta; intros _]. eapply triple_conseq; [|intros s Hs; exact Hs|intros a s; apply advc_busy].
    destruct b; [|by apply triple_ret]. apply busy_core. intros s. by eexists.
Qed.

(** A call of any command whose arguments its handler can read. *)
Lemma call_adv f : args_ok (proc x) (argv c0) -> triple (start s0) (call 2 i f) (fun _ => advc).
Proof.
  intros Ha. apply (call_post s0 i c0 Hi 1 x f advc Hx advc_closed); [by intros s [_ ?]|].
  destruct (decide (queueable (proc x) /\ proc x <> UnwatchCommand)) as [[Hq Hu]|Hq].
  - eapply triple_conseq; [apply (run_proc_fine s0 i c0 Hinv Hi); [|done|done|done]|done|].
    + by exists x.
    + intros a s Hs. split; [by apply adv_fine|]. destruct Hs as (_ & K & Hch & _). destruct (proj1 (ch_alive _ _ _ _ Hch i)) as [c Hc]; [by eexists|]. exists c. split; [done|].
      eapply kept_cmd; [by eapply (ch_kept _ _ _ _ Hch i)|]. by exists x.
  - destruct (decide (proc x = ExecCommand)) as [->|H1]; [apply exec_adv|]. destruct (decide (proc x = DiscardCommand)) as [->|H2]; [apply discard_adv|].
    destruct (decide (proc x = MultiCommand)) as [->|H3]; [apply multi_adv|]. destruct (decide (proc x = WatchCommand)) as [->|H4]; [apply watch_adv|].
    destruct (decide (proc x = UnwatchCommand)) as [->|H5]; [apply unwatch_adv|]. by destruct Hq.
Qed.
End Handlers.
End Exec.
