(* ===== verification/EventProofs.v ===== *)
(** EventProofs: what happens to the server, connections, commands and
    closing clients, keeps the invariant and fails no assertion; and what each
    event leaves of a value that a client watches. *)
From Stdlib Require Strings.String.
From S2P Require Import Prelude Util Sds Objects Server Db Evict Multi ServerProofs KeyProofs CommandProofs StringProofs MultiProofs ExecProofs.
From S2P Require Reply ReplySpec ReplySend Request.
Import (notations) Strings.String.

Section Events.
Context {V : Type} `{E : Rest V} {mode : Mode} `{EOk : !RestOk V}.
#[local] Abbreviation M := (M V).
#[local] Abbreviation server := (server V).
Implicit Types (s : server) (i j : cid) (c : client) (d : nat) (k : key) (wk : watchedKey) (P : server -> Prop) (K : watchedKey -> Prop).

(** ** Before the command is called

    The client's command and queue may change, and its marks may be set; keys
    may be removed. *)
Definition pre i s0 s : Prop :=
  rel (Some i) (fun _ => False) s0 s /\
  exists c, store s !! i = Some c /\ forall c0, store s0 !! i = Some c0 -> watched c = watched c0 /\ (watched c0 <> [] -> cas c0 = true -> cas c = true).

Lemma pre_closed i s0 : closed (pre i s0).
Proof.
  intros s s' Hm (HR & c & Hc & Hw). split; [by eapply rel_closed|]. destruct (mi_fwd _ _ Hm i c Hc) as (c' & Hc' & E1 & _ & _ & E2 & _). exists c'. split; [done|].
  intros c0 H0. destruct (Hw c0 H0) as [Hw1 Hw2]. split; [congruence|]. intros Hne Hcas. apply E2; [congruence|by apply Hw2].
Qed.
Lemma pre_alive i s0 s : pre i s0 s -> is_Some (store s !! i). Proof. intros (_ & c & -> & _). by eexists. Qed.
Lemma pre_start i s0 c : inv s0 -> store s0 !! i = Some c -> pre i s0 s0.
Proof. intros HI Hc. split; [by apply rel_start|]. exists c. split; [done|]. intros c0 H0. assert (c0 = c) as -> by congruence. done. Qed.

(** Replacing the client, with its keys and its marks. *)
Lemma pre_set i s0 s c c' : pre i s0 s -> store s !! i = Some c -> watched c' = watched c -> db c' = db c -> cas c' = cas c -> Forall queued_ok (mstate c') ->
  pre i s0 (with_clients s (clients s) (<[i := c']> (store s))).
Proof.
  intros (HR & c1 & Hc1 & Hw) Hc Ew Ed Ef Hq. assert (c1 = c) as -> by congruence. split.
  - eapply rel_client; [done|done|done|done| |by left]. rewrite Ed. by eapply (inv_db _ (proj1 HR)).
  - exists c'. cbn [store with_clients]. rewrite lookup_insert_eq. split; [done|]. intros c0 H0. rewrite Ew, Ef. by apply Hw.
Qed.

Lemma pre_adv i s0 s1 s : pre i s0 s1 -> adv i s1 s -> adv i s0 s.
Proof.
  intros ([H1 Hch1] & c1 & Hc1 & Hw1) (HI & (K & Hch & Hk) & c & Hc & Hw). split; [done|]. split.
  - exists K. split; [|done]. eapply changes_trans; [eapply changes_weaken; [by right| |exact Hch1]; by intros wk []|done].
  - exists c. split; [done|]. intros c0 H0. destruct (Hw1 c0 H0) as [Ew Ef]. destruct (Hw c1 Hc1) as [|[Hs Hc']]; [by left|right].
    rewrite Ew in *. split; [done|]. intros Hne Hcas. apply Hc'; [done|by apply Ef].
Qed.
Lemma adv_refl i s : inv s -> is_Some (store s !! i) -> adv i s s.
Proof. intros HI Hi. apply adv_fine; [done|]. apply fine_R0. by apply rel_start. Qed.
Lemma adv_pre i s0 s : pre i s0 s -> adv i s0 s.
Proof. intros Hp. eapply pre_adv; [done|]. apply adv_refl; [apply Hp|by eapply pre_alive]. Qed.

(** ** Processing a command *)

Section Command.
Context (i : cid) (s0 : server) (c0 : client) (Hinv : inv s0) (Hi : store s0 !! i = Some c0).
#[local] Abbreviation P := (pre i s0).
#[local] Abbreviation A := (fun (_ : bool) => adv i s0).

Lemma pre_reply r : triple P (add_reply i r) (fun _ => P). Proof. apply reply_closed; [apply pre_closed|apply pre_alive]. Qed.
Lemma refuse_adv m : triple P m (fun _ => P) -> triple P (refuse i m) A.
Proof.
  intros Hm. unfold refuse. eapply (triple_bind _ _ _ (fun _ => P)).
  - unfold flagTransaction. eapply triple_bind; [apply get_client_spec, pre_alive|cbv beta; intros c]. apply triple_drop.
    destruct (has _ _); [|by apply triple_ret]. apply raise_closed; [apply pre_closed|apply pre_alive].
  - intros _. eapply triple_bind; [exact Hm|cbv beta; intros _]. apply triple_ret. intros s. apply adv_pre.
Qed.
Lemma refuse_only_adv m : triple P m (fun _ => P) -> triple P (refuse_only m) A.
Proof. intros Hm. unfold refuse_only. eapply triple_bind; [exact Hm|cbv beta; intros _]. apply triple_ret. intros s. apply adv_pre. Qed.

(** The command is looked up, its arguments can be read. *)
Definition ready (x : redisCommand) s : Prop := P s /\ exists c, store s !! i = Some c /\ cmd c = Some x /\ args_ok (proc x) (argv c).

Lemma exec_or_queue_adv x : triple (ready x) (exec_or_queue i x) A.
Proof.
  unfold exec_or_queue. apply triple_pre. intros s (Hp & c & Hc & Hx & Ha).
  eapply triple_bind; [apply get_client_spec; intros s1 ->; by eexists|cbv beta; intros c1]. apply triple_pre. intros s1 [Hc1 ->]. assert (c1 = c) as -> by congruence.
  eapply (triple_bind _ _ _ (fun _ => adv i s0)); [|by intros _; apply triple_ret].
  destruct (has (flags c) REDIS_MULTI && _ && _ && _ && _) eqn:Eq.
  - rewrite !andb_true_iff, !negb_true_iff, !bool_decide_eq_false in Eq. destruct Eq as ((((_ & H1) & H2) & H3) & H4).
    eapply (triple_bind _ _ _ (fun _ => P)); [|intros _; eapply triple_conseq; [apply pre_reply|done|by intros a s1; apply adv_pre]].
    intros s1 ->. unfold queueMultiCommand, update, get_client, set_client, mbind, M_bind. rewrite Hc. eexists _, _. split; [done|].
    apply (pre_set i s0 s c); [done|done|done|done|done|]. cbn. apply Forall_app. split; [by eapply (inv_queue _ (proj1 (proj1 Hp)))|].
    constructor; [|constructor]. by exists x.
  - eapply triple_conseq; [apply (call_adv i s c x (proj1 (proj1 Hp)) Hc Hx _ Ha)|by intros s1 ->|]. intros a s1 [Hadv _]. by eapply pre_adv.
Qed.

Lemma free_memory_ready x : triple (ready x) free_memory (fun _ => ready x).
Proof.
  unfold free_memory. eapply triple_bind; [apply triple_get|cbv beta; intros s1]. apply triple_pre. intros s [-> ((HR & Hw) & Hc)].
  destruct (Z.eqb_spec (maxmemory (conf s)) 0) as [|Hmax]; [by apply triple_ret; intros s1 ->|]. assert (evicts s0) as Hev by (unfold evicts; by rewrite <-(ch_conf _ _ _ _ (proj2 HR))).
  intros s1 ->. destruct (free_spec (Some i) (fun _ => False) s0 s (or_introl Hev) s (conj HR eq_refl)) as (b & s' & Er & _ & HR' & _ & Est). exists b, s'. split; [done|].
  unfold ready, pre. rewrite Est. done.
Qed.

Lemma check_command_adv x c : x ∈ commands -> store s0 !! i = Some c -> cmd c = Some x -> args_fit (proc x) (argv c) -> triple (fun s => s = s0) (check_command i x) A.
Proof.
  intros Hin Hc Hx Hf. assert (c = c0) as -> by congruence. assert (forall s, s = s0 -> P s) as Hp0 by (intros s ->; by eapply pre_start).
  assert (forall m, triple P m A -> triple (fun s => s = s0) m A) as Hstart by (intros m Hm; by eapply triple_conseq).
  unfold check_command. eapply triple_bind; [apply get_client_spec; intros s ->; by eexists|cbv beta; intros c]. apply triple_pre. intros s1 [Hc1 ->].
  assert (c = c0) as -> by congruence. cbv zeta.
  destruct (_ || _) eqn:Ear; [apply Hstart, refuse_adv, pre_reply|]. eapply triple_bind; [apply triple_get|cbv beta; intros s2]. apply triple_drop.
  destruct (requirepass _ && _ && _); [apply Hstart, refuse_adv, pre_reply|].
  assert (args_ok (proc x) (argv c0)) as Ha.
  { split; [|done]. apply orb_false_iff in Ear as [H1 H2]. apply Z.ltb_ge in H2. pose proof (arity_ok x Hin) as Hl. destruct (Z.ltb_spec 0 (arity x)) as [H3|H3]; [|lia].
    cbn [andb] in H1. apply negb_false_iff, Z.eqb_eq in H1. lia. }
  eapply (triple_conseq (ready x)); [|intros s ->; split; [by apply Hp0|by exists c0]|intros a s Hq; exact Hq].
  eapply triple_bind; [apply free_memory_ready|cbv beta; intros b].
  assert (forall m, triple P m A -> triple (ready x) m A) as Hm by (intros m Hm; eapply triple_conseq; [exact Hm|by intros s [? _]|done]).
  destruct (_ && negb b); [apply Hm, refuse_adv, pre_reply|]. destruct (stop_writes_on_bgsave_err _ && _ && _ && _); [apply Hm, refuse_adv, pre_reply|].
  destruct (masterhost _ && _ && _ && _); [apply Hm, refuse_only_adv, pre_reply|]. destruct (_ && negb (isSubscribeCommand _)); [apply Hm, refuse_only_adv, pre_reply|].
  destruct (masterhost _ && _ && _ && _); [apply Hm, refuse_adv, pre_reply|]. destruct (loading _ && _); [apply Hm, refuse_only_adv, pre_reply|].
  destruct (lua_timedout _ && _); [apply Hm, refuse_adv, pre_reply|]. apply exec_or_queue_adv.
Qed.
End Command.

Lemma find_in (l : list redisCommand) n x : find_command l n = Some x -> x ∈ l.
Proof. unfold find_command. intros H. apply List.find_some in H as [H _]. by apply list_elem_of_In. Qed.

(** The arguments are there, and if the command is called its handler can read
    them. *)
Definition request_ok (a : list key) : Prop :=
  exists n, a !! 0%nat = Some n /\ forall x, lookupCommand n = Some x -> args_fit (proc x) a.

Lemma processCommand_adv i s0 c0 : inv s0 -> store s0 !! i = Some c0 -> request_ok (argv c0) -> triple (fun s => s = s0) (processCommand i) (fun _ => adv i s0).
Proof.
  intros HI Hc (n & Hn & Hf). unfold processCommand. eapply (triple_bind _ _ _ (fun a s => a = n /\ s = s0)).
  { intros s ->. unfold arg, get_client, mbind, M_bind. rewrite Hc, Hn. by eexists _, _. }
  intros a. apply triple_fact. intros ->. pose proof (pre_start i s0 c0 HI Hc) as Hp. destruct (strcaseeq _ _).
  - eapply (triple_conseq (pre i s0)); [|by intros s ->|intros b s Hq; exact Hq]. eapply triple_bind; [apply pre_reply|cbv beta; intros _].
    eapply triple_bind; [apply raise_closed; [apply pre_closed|apply pre_alive]|cbv beta; intros _]. apply triple_ret. intros s. apply adv_pre.
  - cbv zeta. remember (lookupCommand n) as found eqn:Hx.
    set (c1 := set_command c0 (argv c0) found). set (s1 := with_clients s0 (clients s0) (<[i := c1]> (store s0))).
    assert (pre i s0 s1) as Hp1 by (apply (pre_set i s0 s0 c0); try done; exact (inv_queue _ HI i c0 Hc)).
    assert (store s1 !! i = Some c1) as Hc1 by (cbn; by rewrite lookup_insert_eq). pose proof (proj1 (proj1 Hp1)) as HI1.
    eapply (triple_bind _ _ _ (fun _ s => s = s1)); [intros s ->; unfold update, get_client, set_client, mbind, M_bind; rewrite Hc; by eexists _, _|intros _].
    eapply (triple_conseq (fun s => s = s1) _ _ (fun _ => adv i s1)); [|done|intros b s Hs; by eapply pre_adv]. destruct found as [x|].
    + apply (check_command_adv i s1 c1 HI1 Hc1 x c1); [by eapply find_in|done|done|by apply Hf].
    + eapply triple_conseq; [apply (refuse_adv i s1), pre_reply|intros s ->; by eapply pre_start|done].
Qed.

(** ** Clients that come and go *)

Lemma clients_inv s (l : list cid) (m : gmap cid client) : inv s -> NoDup l -> (forall i, i ∈ l <-> is_Some (m !! i)) ->
  (forall i c, m !! i = Some c -> store s !! i = Some c \/ watched c = [] /\ db c = 0%nat /\ mstate c = []) ->
  (forall i c, store s !! i = Some c -> m !! i = Some c \/ watched c = []) -> inv (with_clients s l m).
Proof.
  intros [[A1 A2 A3 A4 A5 A6] D S W B Q] Hn Hl Hm Hs.
  assert (forall i wk, watching (with_clients s l m) i wk <-> watching s i wk) as Hw.
  { intros i wk. split; intros (c & Hc & Hin); exists c; (split; [|done]).
    - destruct (Hm i c Hc) as [|(E' & _)]; [done|]. rewrite E' in Hin. by apply elem_of_nil in Hin.
    - destruct (Hs i c Hc) as [|E']; [done|]. rewrite E' in Hin. by apply elem_of_nil in Hin. }
  constructor; [constructor|..]; try done.
  - intros i c Hc. destruct (Hm i c Hc) as [|(-> & _)]; [by eapply A3|apply NoDup_nil_2].
  - intros i wk Hi. apply A4. by apply Hw.
  - intros i wk Hi. apply Hw. by apply A5.
  - intros i c Hc. destruct (Hm i c Hc) as [|(_ & -> & _)]; [by eapply B|done].
  - intros i c Hc. destruct (Hm i c Hc) as [|(_ & _ & ->)]; [by eapply Q|constructor].
Qed.

Lemma connect_inv i s : inv s -> store s !! i = None -> exists s', createClient i s = Some (tt, s') /\ inv s' /\ dbs s' = dbs s /\ forall j, j <> i -> store s' !! j = store s !! j.
Proof.
  intros HI Hi. eexists. split; [reflexivity|]. split; [|split; [done|intros j Hj; cbn; by rewrite lookup_insert_ne]].
  pose proof (inv_watch _ HI) as [A1 A2 A3 A4 A5 A6]. apply clients_inv; [done|..].
  - apply NoDup_app. split; [done|]. split; [|apply NoDup_singleton]. intros j Hj ->%list_elem_of_singleton. apply A1 in Hj. rewrite Hi in Hj. by destruct Hj.
  - intros j. rewrite elem_of_app, list_elem_of_singleton, A1. destruct (decide (j = i)) as [->|Hj]; [rewrite lookup_insert_eq|rewrite lookup_insert_ne by done].
    + split; [intros _; by eexists|by right].
    + split; [by intros [|]|by left].
  - intros j c Hc. apply lookup_insert_Some in Hc as [[<- <-]|[_ Hc]]; [by right|by left].
  - intros j c Hc. left. rewrite lookup_insert_ne; [done|]. intros ->. congruence.
Qed.

Lemma close_inv i c s : inv s -> store s !! i = Some c ->
  exists s', freeClient i s = Some (tt, s') /\ inv s' /\ data_of (dbs s') = data_of (dbs s) /\ store s' = delete i (store s).
Proof.
  intros HI Hc. destruct (unwatchAllKeys_spec s i c HI Hc) as (s1 & Er & HI1 & Hch & (Ec & _ & _ & _ & _ & Ed & _) & Es).
  pose proof (inv_watch _ HI1) as [A1 A2 A3 A4 A5 A6]. assert (store s1 !! i = Some (set_watched c [])) as Hc1 by by rewrite Es, lookup_insert_eq.
  destruct (ReplySend.del_client_spec i (clients s1)) as (l & Hdel & Hp); [apply A1; by eexists|].
  assert (NoDup (i :: l)) as Hn by by rewrite <-Hp. apply NoDup_cons in Hn as [Hn1 Hn2].
  exists (with_clients s1 l (delete i (store s1))). split; [|split; [apply clients_inv; [done|done|..]|split; [done|]]].
  - unfold freeClient, get, mbind, M_bind. rewrite Er, Hdel. done.
  - intros j. destruct (decide (j = i)) as [->|Hj].
    + rewrite lookup_delete_eq. split; [by intros ?%Hn1|by intros [? ?]].
    + rewrite lookup_delete_ne by done. rewrite <-A1, Hp, elem_of_cons. by split; [right|intros [|]].
  - intros j cj Hj. apply lookup_delete_Some in Hj as [_ Hj]. by left.
  - intros j cj Hj. destruct (decide (j = i)) as [->|Hne]; [right; by assert (cj = set_watched c []) as -> by congruence|left; by rewrite lookup_delete_ne].
  - cbn. by rewrite Es, delete_insert_eq.
Qed.

(** ** Events

    What may happen: a new client, one that asks or ends, and a change of what
    the configuration decides. *)
Definition event_ok s (ev : event) : Prop :=
  match ev with
  | EConnect i => store s !! i = None
  | ECommand i a => is_Some (store s !! i) /\ request_ok a
  | EClose i => is_Some (store s !! i)
  | EConfig x => may_be_slave = false -> masterhost x = false
  end.
Definition step s s' : Prop := exists ev, event_ok s ev /\ run_event ev s = Some (tt, s').

Inductive reachable (s0 : server) : server -> Prop :=
  | reach_start : reachable s0 s0
  | reach_step s s' : reachable s0 s -> step s s' -> reachable s0 s'.

(** For a client without the mark, each key it goes on to watch keeps its
    value, and gets no expire, or the key expired or was evicted. *)
Definition calm s s' : Prop := forall j wk c c', store s !! j = Some c -> store s' !! j = Some c' -> wk ∈ watched c -> wk ∈ watched c' -> cas c' = false ->
  may_move = true \/ cas c = false /\ value_step s s' wk.

Lemma adv_calm i s s' : adv i s s' -> calm s s'.
Proof.
  intros (HI & (K & Hch & Hk) & ci & Hci & Hw) j wk c c' Hc Hc' Hin Hin' Hcas.
  assert (watched c <> [] /\ watched c' <> []) as [Hn Hn'] by (split; intros He; [rewrite He in Hin; by apply elem_of_nil in Hin|rewrite He in Hin'; by apply elem_of_nil in Hin']).
  assert (cas c = false) as Hcas0.
  { apply not_true_iff_false. intros Ht. rewrite <-not_true_iff_false in Hcas. apply Hcas. destruct (decide (j = i)) as [->|Hj].
    - assert (c' = ci) as -> by congruence. destruct (Hw c Hc) as [|[_ Hf]]; [done|by apply Hf].
    - destruct (ch_kept _ _ _ _ Hch j c c' ltac:(congruence) Hc Hc') as (_ & _ & Hf & _). by apply Hf. }
  destruct (ch_data _ _ _ _ Hch wk) as [HK|Hv]; [|by right]. destruct (Hk wk HK) as [Hm|]; [|by left].
  assert (cas c' = true); [|congruence]. apply (Hm j); [by exists c'|done|done].
Qed.
Lemma same_calm s s' : data_of (dbs s') = data_of (dbs s) -> (forall j c c', store s !! j = Some c -> store s' !! j = Some c' -> c' = c) -> calm s s'.
Proof.
  intros Hd Hs j wk c c' Hc Hc' _ _ Hcas. right. rewrite <-(Hs j c c' Hc Hc'). split; [done|left].
  unfold value_kept, mortal. by rewrite <-!value_lookup, <-!value_time, Hd.
Qed.

(** No event fails, and each keeps the invariant. *)
Lemma event_spec ev s : inv s -> event_ok s ev -> exists s', run_event ev s = Some (tt, s') /\ inv s' /\ calm s s'.
Proof.
  intros HI Hev. destruct ev as [i|i a|i|x]; cbn [run_event event_ok] in *.
  - destruct (connect_inv i s HI Hev) as (s' & Er & HI' & Ed & Es). exists s'. split; [done|]. split; [done|]. apply same_calm; [by rewrite Ed|].
    intros j c c' Hc Hc'. rewrite Es in Hc' by congruence. congruence.
  - destruct Hev as [[c Hc] Hreq]. set (c1 := set_command c a (cmd c)). set (s1 := with_clients s (clients s) (<[i := c1]> (store s))).
    assert (pre i s s1) as Hp by (apply (pre_set i s s c); try done; [by eapply pre_start|exact (inv_queue _ HI i c Hc)]).
    destruct (processCommand_adv i s1 c1 (proj1 (proj1 Hp)) ltac:(cbn; by rewrite lookup_insert_eq) Hreq s1 eq_refl) as (b & s' & Er & Ha).
    exists s'. split; [unfold update, get_client, set_client, mbind, M_bind; rewrite Hc; fold c1; fold s1; by rewrite Er|]. split; [apply Ha|]. apply (adv_calm i). by eapply pre_adv.
  - destruct Hev as [c Hc]. destruct (close_inv i c s HI Hc) as (s' & Er & HI' & Ed & Es). exists s'. split; [done|]. split; [done|]. apply same_calm; [done|].
    intros j c1 c2 H1 H2. rewrite Es in H2. apply lookup_delete_Some in H2 as [_ H2]. congruence.
  - eexists. split; [reflexivity|]. split; [|apply same_calm; [done|]; intros j c c' H1 H2; cbn in H2; congruence].
    destruct HI as [[A1 A2 A3 A4 A5 A6] D S W B Q]. by constructor.
Qed.

(** The invariant holds in every state that can be reached. *)
Lemma initServer_inv n x : (0 < n)%nat -> (may_be_slave = false -> masterhost x = false) -> inv (@initServer V n x).
Proof.
  intros Hn Hx.
  assert (forall d (y : redisDb V), replicate n (RedisDb ∅ ∅ ∅) !! d = Some y -> y = RedisDb ∅ ∅ ∅) as Hdb by (intros d y Hy; by apply lookup_replicate in Hy as [-> _]).
  constructor; [constructor|..]; cbn; try done.
  - intros i. split; [by intros ?%elem_of_nil|by intros [? ?]].
  - apply NoDup_nil_2.
  - by intros i wk (c & Hc & _).
  - intros i wk (y & l & Hy & Hl & _). apply Hdb in Hy as ->. done.
  - intros d y k l Hy Hl. apply Hdb in Hy as ->. done.
  - intros d y Hy. apply Hdb in Hy as ->. by intros k t.
  - by rewrite length_replicate.
Qed.
Lemma reach_inv s0 s : inv s0 -> reachable s0 s -> inv s.
Proof. intros H0. induction 1 as [|s s' _ IH (ev & Hev & Er)]; [done|]. destruct (event_spec ev s IH Hev) as (s2 & Er2 & HI & _). congruence. Qed.

End Events.
