(* ===== verification/ServerDemo.v ===== *)
(** ServerDemo: a small instance of the rest of the server, with the table of
    commands of [redis.c], a clock and string values, on which the theorems
    are evaluated. *)
From Stdlib Require Strings.String.
From S2P Require Import Prelude Util Sds Objects Server Db Evict Strings Bitops CommandTable Multi ServerProofs KeyProofs EventProofs.
From S2P Require Reply ReplySpec Request.
Import (notations) Corelib.Init.Byte.
Import (notations) Strings.String.

Definition demo_shared : Reply.sharedObjects := Reply.SharedObjects 1 2 3 4 5 6 7 8 9 10 11 12 13 14 15 16 17 18 19 20 21 22 23 24 25 26 27 [] [].
Definition demo_commands : list redisCommand := Eval vm_compute in default [] populateCommandTable.

(** The values are strings, the clock advances by a second each time it is
    read, and [SAVE], which resets the counter of changes, is the only other
    command that does something. *)
Abbreviation demo_data := (data string_value).
Definition idle_outcome (c : client) (ds : demo_data) : outcome string_value :=
  Outcome ds [] [] (fun n => n) (db c) (authenticated c) (subscriptions c) (argv c) (cmd c).
Definition demo_other (p : redisCommandProc) (_ : config) (c : client) (ds : demo_data) : outcome string_value :=
  if decide (p = OtherCommand (text "saveCommand")) then
    Outcome ds [] [ReplySpec.CObj (Reply.ok demo_shared)] (fun _ => 0) (db c) (authenticated c) (subscriptions c) (argv c) (cmd c)
  else idle_outcome c ds.
Definition string_wfb (x : string_value) : bool := match x with Raw _ => true | Int n => (- 2 ^ 63 <=? n) && (n <? 2 ^ 63) end.
Lemma string_wfb_ok x : string_wfb x = true <-> string_wf x.
Proof. destruct x as [bs|n]; [done|]. cbn. unfold int64. rewrite andb_true_iff, Z.leb_le, Z.ltb_lt. lia. Qed.

#[export] Instance demo_rest : Rest string_value := {
  value_type v := if string_wfb v then 0 else 1;
  as_string v := if string_wfb v then Some v else None;
  of_string v := v;
  referenced _ _ _ := false;
  big_endian := false;
  idle_time _ v := stringLen v;
  used_memory ds := foldr (fun d n => 100 * Z.of_nat (size d.1) + n) 0 ds;
  clock n := 1000 * (Z.of_nat n mod 1000000 + 1);
  dict_order m := (map_to_list m).*1;
  random_key _ _ m := head (map_to_list m).*1;
  shared := demo_shared;
  commands := demo_commands;
  orig_commands := demo_commands;
  same_bucket _ a b := bool_decide ((tolower ∘ b2z) <$> a = (tolower ∘ b2z) <$> b);
  other := demo_other }.

Lemma step_refl (limited : Prop) (ds : demo_data) l : data_wf ds -> data_step limited ds ds l.
Proof. intros H. split; [done|]. split; [done|]. intros wk. right. by left. Qed.

Lemma idle_fit (limited : Prop) (c : client) (ds : demo_data) : data_wf ds -> (db c < length ds)%nat -> let o := idle_outcome c ds in
  data_step limited ds (o_data o) (o_touched o) /\ (o_db o < length ds)%nat /\
  (forall mode : Mode, queued_ok (current c) -> queued_ok (MultiCmd (o_argv o) (o_cmd o))) /\ Forall (fun wk => (wk_db wk < length ds)%nat) (o_touched o).
Proof. intros H Hd. split; [by apply step_refl|]. split; [done|]. split; [done|constructor]. Qed.

#[export] Instance demo_rest_ok : RestOk string_value.
Proof.
  constructor.
  - intros n. cbn. pose proof (Z.mod_pos_bound (Z.of_nat n) 1000000). lia.
  - intros A n m k. cbn. intros Hk. assert (k ∈ (map_to_list m).*1) as Hin by (destruct (map_to_list m).*1; [done|injection Hk as <-; by left]).
    apply list_elem_of_fmap in Hin as ([k' v] & -> & Hin). apply elem_of_map_to_list in Hin. by exists v.
  - intros A n m. cbn. intros Hm. destruct (map_to_list m) as [|[k v] l] eqn:Em; [by apply map_to_list_empty_iff in Em|by exists k].
  - intros p cf c ds H Hd. cbn. unfold demo_other. destruct (decide _); by apply idle_fit.
  - intros v. cbn. destruct (string_wfb v); split; intros H; try discriminate H; try (by eexists); try done.
  - intros v n. cbn. destruct (string_wfb v) eqn:Ev; [|done]. intros [= ->]. by apply string_wfb_ok in Ev.
  - intros x Hx. cbn. by apply string_wfb_ok in Hx as ->.
  - assert (Forall (fun x => Z.of_nat (least_args (proc x)) <= (if 0 <? arity x then arity x else - arity x)) demo_commands) as H.
    { apply (bool_decide_unpack _). by vm_compute. }
    intros x Hx. rewrite Forall_forall in H. by apply H.
  - eexists. split; [by vm_compute|done].
Qed.

Definition demo_conf : config := Config false 0 false 0 false false false true true false false true true REDIS_MAXMEMORY_VOLATILE_LRU 3 [] 0.

#[export] Instance demo_mode : Mode := { may_be_slave := false; may_move := false }.

(** ** Runs of the small instance *)

Abbreviation demo_server := (server string_value).
Definition demo_start : demo_server := initServer 16 demo_conf.
Fixpoint after (s : demo_server) (evs : list event) : demo_server :=
  match evs with
  | [] => s
  | ev :: evs => match run_event ev s with Some (_, s') => after s' evs | None => s end
  end.

(** A command whose arguments are fit. *)
Definition small_timeb (k : key) : bool :=
  match getLongLongFromObject (Some (arg_object k)) with Some (Some v) => (- 2 ^ 50 <? v) && (v <? 2 ^ 50) | _ => true end.
Definition fitb (p : redisCommandProc) (a : list key) : bool :=
  match p with
  | ExpireCommand | ExpireatCommand | PexpireCommand | PexpireatCommand | SetexCommand | PsetexCommand => small_timeb (default [] (a !! 2%nat))
  | SetCommand => forallb small_timeb (drop 3 a)
  | KeysCommand | MoveCommand | SetrangeCommand | GetrangeCommand | DecrbyCommand => false
  | _ => true
  end.
Definition request_okb (a : list key) : bool :=
  match a with
  | [] => false
  | n :: _ => match lookupCommand n with Some x => fitb (proc x) a | None => true end
  end.
Definition event_okb (s : demo_server) (ev : event) : bool :=
  match ev with
  | EConnect i => bool_decide (store s !! i = None)
  | ECommand i a => bool_decide (is_Some (store s !! i)) && request_okb a
  | EClose i => bool_decide (is_Some (store s !! i))
  | EConfig x => negb (masterhost x)
  end.
Definition watchingb (s : demo_server) i wk : bool := match store s !! i with Some c => bool_decide (wk ∈ watched c) | None => false end.
Fixpoint eventsb (test : demo_server -> bool) (evs : list event) (s : demo_server) : bool :=
  match evs with
  | [] => true
  | ev :: evs => event_okb s ev && match run_event ev s with Some (_, s') => test s' && eventsb test evs s' | None => false end
  end.

Lemma small_timeb_ok k : small_timeb k = true -> small_time k.
Proof. unfold small_timeb, small_time. intros H v Hv. rewrite Hv, andb_true_iff, !Z.ltb_lt in H. lia. Qed.
Lemma fitb_ok p a : fitb p a = true -> args_fit p a.
Proof.
  destruct p; cbn [fitb args_fit]; try done; try (intros H k Hk; rewrite Hk in H; by apply small_timeb_ok).
  intros H. apply Forall_forall. intros k Hk. apply small_timeb_ok. rewrite forallb_forall in H. by apply H, list_elem_of_In.
Qed.
Lemma event_okb_ok s ev : event_okb s ev = true -> event_ok s ev.
Proof.
  destruct ev as [i|i a|i|x]; cbn [event_okb event_ok].
  - apply bool_decide_eq_true.
  - intros [H1%bool_decide_eq_true H2]%andb_true_iff. split; [done|]. destruct a as [|n a]; [done|]. exists n. split; [done|]. intros x Hx. cbn [request_okb] in H2. rewrite Hx in H2. by apply fitb_ok.
  - apply bool_decide_eq_true.
  - by intros ->%negb_true_iff.
Qed.
Lemma watchingb_ok s i wk : watchingb s i wk = true -> watching s i wk.
Proof. unfold watchingb, watching. destruct (store s !! i) as [c|]; [|done]. intros H%bool_decide_eq_true. by exists c. Qed.

Lemma eventsb_cons test ev evs s : eventsb test (ev :: evs) s = true ->
  exists s', step s s' /\ test s' = true /\ eventsb test evs s' = true /\ after s (ev :: evs) = after s' evs.
Proof.
  cbn [eventsb after]. intros [H1 H2]%andb_true_iff. destruct (run_event ev s) as [[[] s']|] eqn:Er; [|done]. apply andb_true_iff in H2 as [H2 H3]. exists s'.
  split; [exists ev; split; [by apply event_okb_ok|done]|]. by split_and!.
Qed.
Lemma after_reachable evs s0 s : reachable s0 s -> eventsb (fun _ => true) evs s = true -> reachable s0 (after s evs).
Proof. revert s. induction evs as [|ev evs IH]; intros s Hs H; [done|]. apply eventsb_cons in H as (s' & Hstep & _ & H & ->). apply IH; [by eapply reach_step|done]. Qed.
Lemma demo_reachable evs : eventsb (fun _ => true) evs demo_start = true -> reachable demo_start (after demo_start evs).
Proof. apply after_reachable, reach_start. Qed.
Lemma demo_inv evs : eventsb (fun _ => true) evs demo_start = true -> inv (after demo_start evs).
Proof. intros H. eapply reach_inv; [by apply (initServer_inv 16 demo_conf); [lia|]|by apply demo_reachable]. Qed.


(** The first client, and a state in which it asks. *)
Definition client_1 (s : demo_server) : client := default (Client 0 false [] None 0 [] [] 0 []) (store s !! 1%positive).

Definition asking (s : demo_server) (a : list key) : demo_server :=
  with_clients s (clients s) (<[1%positive := set_command (client_1 s) a (lookupCommand (default [] (head a)))]> (store s)).

Lemma asking_inv s a : inv s -> store s !! 1%positive = Some (client_1 s) -> inv (asking s a).
Proof.
  intros HI Hc. apply (rel_client (Some 1%positive) (fun _ => False) s s 1%positive _ _ (rel_start _ _ _ HI) Hc); [done|exact (inv_queue _ HI _ _ Hc)|exact (inv_db _ HI _ _ Hc)|by left].
Qed.

