(* ===== verification/FeedProofs.v ===== *)
(** FeedProofs: what is fed to the append only file and to the slaves is
    added at the end, by commands and by the loop of [EXEC]. *)
From Stdlib Require Strings.String.
From S2P Require Import Prelude Util Sds Objects Server Db Strings Bitops Multi ServerProofs KeyProofs CommandProofs StringProofs MultiProofs ExecProofs.
From S2P Require Request Reply ReplySpec.
Import (notations) Strings.String.

Create HintDb grow discriminated.

Section Feed.
Context {V : Type} `{E : Rest V}.
#[local] Abbreviation M := (M V).
#[local] Abbreviation server := (server V).
Implicit Types (s : server) (i : cid) (c : client) (d : nat) (k : key).

Record grows s s' : Prop := {
  gr_conf : conf s' = conf s;
  gr_aof : aof s `prefix_of` aof s';
  gr_repl : repl s `prefix_of` repl s' }.
Definition Grow {A} (m : M A) : Prop := forall s a s', m s = Some (a, s') -> grows s s'.

Lemma grows_refl s : grows s s. Proof. by constructor. Qed.
Lemma grows_trans s1 s2 s3 : grows s1 s2 -> grows s2 s3 -> grows s1 s3.
Proof. intros [C1 A1 R1] [C2 A2 R2]. constructor; [congruence|by etrans|by etrans]. Qed.

Lemma grow_ret {A} (a : A) : Grow (mret a).
Proof. intros s b s' [= <- <-]. apply grows_refl. Qed.
Lemma grow_fail {A} : Grow (@fail V A). Proof. done. Qed.
Lemma grow_bind {A B} (m : M A) (f : A -> M B) : Grow m -> (forall a, Grow (f a)) -> Grow (m ≫= f).
Proof.
  intros Hm Hf s b s' H. unfold mbind, M_bind in H. destruct (m s) as [[a s1]|] eqn:Es; [|done]. eapply grows_trans; [by eapply Hm|by eapply Hf].
Qed.
Lemma grow_get {A} (f : server -> M A) : (forall s, Grow (f s)) -> Grow (get ≫= f).
Proof. intros Hf s a s' H. by apply (Hf s s a s'). Qed.
Lemma grow_put (F : server -> server) : (forall s, grows s (F s)) -> Grow (s ← get; put (F s)).
Proof. intros HF s a s' [= <- <-]. apply HF. Qed.
Lemma grow_get_put {A} (F : server -> server) (f : server -> M A) : (forall s, grows s (F s)) -> (forall s, Grow (f s)) -> Grow (s ← get; put (F s) ;; f s).
Proof. intros HF Hf s a s' H. eapply grows_trans; [apply (HF s)|]. by apply (Hf s (F s) a s'). Qed.
Lemma grow_each {A} (f : A -> M unit) l : (forall a, Grow (f a)) -> Grow (each f l).
Proof. intros Hf. induction l as [|a l IH]; [apply grow_ret|]. by apply grow_bind. Qed.
Lemma grow_opt {A} (o : option A) : Grow (opt o). Proof. destruct o; [apply grow_ret|apply grow_fail]. Qed.
Lemma grow_check b : Grow (@check V b). Proof. destruct b; [apply grow_ret|apply grow_fail]. Qed.

Lemma grow_get_db d : Grow (@get_db V d).
Proof. intros s x s'. unfold get_db. destruct (dbs s !! d); [|done]. intros [= <- <-]. apply grows_refl. Qed.
Lemma grow_set_db d (x : redisDb V) : Grow (set_db d x). Proof. by intros s a s' [= <- <-]. Qed.
Lemma grow_get_client i : Grow (@get_client V i).
Proof. intros s x s'. unfold get_client. destruct (store s !! i); [|done]. intros [= <- <-]. apply grows_refl. Qed.
Lemma grow_set_client i c : Grow (@set_client V i c). Proof. by intros s a s' [= <- <-]. Qed.
Lemma grow_dirty n : Grow (@add_dirty V n).
Proof. by intros s a s' [= <- <-]. Qed.
End Feed.

#[export] Hint Resolve grow_ret grow_fail grow_opt grow_check grow_get_db grow_set_db grow_get_client grow_set_client grow_dirty : grow.

(** The structure of a command is followed down to what it calls. *)
Ltac grow_step :=
  lazymatch goal with
  | |- forall _, _ => intro
  | |- Grow (get ≫= (fun s => put (@?F s) ≫= @?f s)) => apply (grow_get_put F); [by constructor|]
  | |- Grow (get ≫= (fun s => put (@?F s))) => apply (grow_put F); by constructor
  | |- Grow (get ≫= _) => apply grow_get
  | |- Grow (_ ≫= _) => apply grow_bind
  | |- Grow (each _ _) => apply grow_each
  | |- Grow (match _ with _ => _ end) => case_match
  | |- Grow _ => solve [auto 1 with grow nocore]
  end.
Ltac grow := repeat grow_step.

Section Commands.
Context {V : Type} `{E : Rest V}.
#[local] Abbreviation M := (M V).
#[local] Abbreviation server := (server V).
Implicit Types (s : server) (i : cid) (c : client) (d : nat) (k : key).

Lemma grow_update i f : Grow (@update V i f). Proof. unfold update. grow. Qed.
Lemma grow_raise i m : Grow (@raise V i m). Proof. apply grow_update. Qed.
Lemma grow_lower i m : Grow (@lower V i m). Proof. apply grow_update. Qed.
Lemma grow_reply i r : Grow (@add_reply V i r). Proof. apply grow_update. Qed.
Lemma grow_client_db i : Grow (@client_db V i). Proof. unfold client_db. grow. Qed.
Lemma grow_arg i j : Grow (@arg V i j). Proof. unfold arg. grow. Qed.
End Commands.
#[export] Hint Resolve grow_update grow_raise grow_lower grow_reply grow_client_db grow_arg : grow.
#[export] Hint Extern 1 (Grow (addReply _ _)) => apply grow_reply : grow.
#[export] Hint Extern 1 (Grow (addReplyError _ _)) => apply grow_reply : grow.
#[export] Hint Extern 1 (Grow (addReplyErrorFormat _ _)) => apply grow_reply : grow.
#[export] Hint Extern 1 (Grow (addReplyLongLong _ _)) => apply grow_reply : grow.

Section Db.
Context {V : Type} `{E : Rest V}.
#[local] Abbreviation M := (M V).
#[local] Abbreviation server := (server V).
Implicit Types (s : server) (i : cid) (c : client) (d : nat) (k : key).

Lemma grow_feedAof d a : Grow (@feedAppendOnlyFile V d a).
Proof. apply grow_put. intros s. constructor; cbn; [done|by apply prefix_app_r|done]. Qed.
Lemma grow_feedRepl d a : Grow (@replicationFeedSlaves V d a).
Proof. apply grow_put. intros s. constructor; cbn; [done|done|by apply prefix_app_r]. Qed.
Lemma grow_mstime : Grow mstime.
Proof. unfold mstime. grow. Qed.
#[local] Hint Resolve grow_feedAof grow_feedRepl grow_mstime : grow.
Lemma grow_propagate d a f : Grow (@propagate V d a f). Proof. unfold propagate. grow. Qed.
Lemma grow_propagateExpire d k : Grow (@propagateExpire V d k). Proof. unfold propagateExpire. grow. Qed.
Lemma grow_set_dict d f : Grow (@set_dict V d f). Proof. unfold set_dict. grow. Qed.
Lemma grow_set_expires d f : Grow (@set_expires V d f). Proof. unfold set_expires. grow. Qed.
Lemma grow_touch d k : Grow (@touchWatchedKey V d k). Proof. unfold touchWatchedKey. grow. Qed.
#[local] Hint Resolve grow_propagate grow_propagateExpire grow_set_dict grow_set_expires grow_touch : grow.
Lemma grow_signal d k : Grow (@signalModifiedKey V d k). Proof. apply grow_touch. Qed.
Lemma grow_flush o : Grow (@signalFlushedDb V o). Proof. unfold signalFlushedDb, touchWatchedKeysOnFlush. grow. Qed.
Lemma grow_lookupKey d k : Grow (@lookupKey V d k). Proof. unfold lookupKey. grow. Qed.
Lemma grow_dbAdd d k v : Grow (@dbAdd V d k v). Proof. unfold dbAdd. grow. Qed.
Lemma grow_dbExists d k : Grow (@dbExists V d k). Proof. unfold dbExists. grow. Qed.
Lemma grow_dbDelete d k : Grow (@dbDelete V d k). Proof. unfold dbDelete. grow. Qed.
Lemma grow_getExpire d k : Grow (@getExpire V d k). Proof. unfold getExpire. grow. Qed.
Lemma grow_removeExpire d k : Grow (@removeExpire V d k). Proof. unfold removeExpire. grow. Qed.
Lemma grow_setExpire d k t : Grow (@setExpire V d k t). Proof. unfold setExpire. grow. Qed.
#[local] Hint Resolve grow_signal grow_flush grow_lookupKey grow_dbAdd grow_dbExists grow_dbDelete grow_getExpire grow_removeExpire grow_setExpire : grow.
Lemma grow_expireIfNeeded d k : Grow (expireIfNeeded d k). Proof. unfold expireIfNeeded. grow. Qed.
#[local] Hint Resolve grow_expireIfNeeded : grow.
Lemma grow_lookupRead d k : Grow (lookupKeyRead d k). Proof. unfold lookupKeyRead. grow. Qed.
Lemma grow_lookupWrite d k : Grow (lookupKeyWrite d k). Proof. unfold lookupKeyWrite. grow. Qed.
#[local] Hint Resolve grow_lookupRead grow_lookupWrite : grow.
Lemma grow_lookupReply i k o : Grow (lookupKeyWriteOrReply i k o). Proof. unfold lookupKeyWriteOrReply. grow. Qed.
Lemma grow_selectDb i n : Grow (@selectDb V i n). Proof. unfold selectDb. grow. Qed.
Lemma grow_getLL i k m : Grow (@getLongLongFromObjectOrReply V i k m). Proof. unfold getLongLongFromObjectOrReply, longLongOrReply. grow. Qed.
#[local] Hint Resolve grow_lookupReply grow_selectDb grow_getLL : grow.
Lemma grow_getLong i k m : Grow (@getLongFromObjectOrReply V i k m). Proof. unfold getLongFromObjectOrReply. grow. Qed.
Lemma grow_randomKey n d : Grow (dbRandomKey n d). Proof. induction n as [|n IH]; cbn [dbRandomKey]; grow. Qed.
Lemma grow_del_loop d ks : forall n, Grow (@del_loop V d ks n). Proof. induction ks as [|k ks IH]; intros n; cbn [del_loop]; grow; apply IH. Qed.
Lemma grow_keys_loop d p n b ks : forall body, Grow (keys_loop d p n b ks body). Proof. induction ks as [|k ks IH]; intros body; cbn [keys_loop]; grow; apply IH. Qed.
Lemma grow_rewrite i a : Grow (rewriteClientCommandVector i a). Proof. unfold rewriteClientCommandVector. grow. Qed.
#[local] Hint Resolve grow_getLong grow_randomKey grow_del_loop grow_keys_loop grow_rewrite : grow.
Lemma grow_rename i nx : Grow (renameGenericCommand i nx). Proof. unfold renameGenericCommand. grow. Qed.
Lemma grow_move i : Grow (moveCommand i). Proof. unfold moveCommand. grow. Qed.
Lemma grow_expireGeneric i b u : Grow (expireGenericCommand i b u). Proof. unfold expireGenericCommand. grow. Qed.
Lemma grow_ttl i b : Grow (ttlGenericCommand i b). Proof. unfold ttlGenericCommand. grow. Qed.
Lemma grow_emptyDb : Grow (@emptyDb V). Proof. unfold emptyDb. grow. Qed.
#[local] Hint Resolve grow_emptyDb : grow.
Lemma grow_flushall i : Grow (flushallCommand i).
Proof.
  unfold flushallCommand. apply grow_bind; [apply grow_flush|intros u1; cbv beta]. apply grow_bind; [apply grow_emptyDb|intros n; cbv beta].
  apply grow_bind; [apply grow_dirty|intros u2; cbv beta]. apply grow_bind; [apply grow_reply|intros u3; cbv beta]. intros s a s' H. unfold mbind at 1, M_bind at 1, get at 1 in H.
  destruct (0 <? saveparamslen (conf s)); unfold mbind, M_bind in H; cbn in H; injection H as <- <-; by constructor.
Qed.
End Db.
#[export] Hint Resolve grow_feedAof grow_feedRepl grow_mstime grow_propagate grow_propagateExpire grow_set_dict grow_set_expires grow_touch grow_signal grow_flush grow_lookupKey grow_dbAdd grow_dbExists grow_dbDelete grow_getExpire grow_removeExpire grow_setExpire grow_expireIfNeeded grow_lookupRead grow_lookupWrite grow_lookupReply grow_selectDb grow_getLL grow_getLong grow_randomKey grow_del_loop grow_keys_loop grow_rewrite grow_rename grow_move grow_expireGeneric grow_ttl grow_flushall : grow.

(** ** Strings *)

Section Strings.
Context {V : Type} `{E : Rest V}.
#[local] Abbreviation M := (M V).

Lemma grow_overwrite d k v : Grow (@dbOverwrite V d k v). Proof. unfold dbOverwrite. grow. Qed.
#[local] Hint Resolve grow_overwrite : grow.
Lemma grow_setKey d k v : Grow (setKey d k v). Proof. unfold setKey. grow. Qed.
Lemma grow_readReply i k o : Grow (lookupKeyReadOrReply i k o). Proof. unfold lookupKeyReadOrReply. grow. Qed.
Lemma grow_checkType i (o : V) t : Grow (checkType i o t). Proof. unfold checkType. grow. Qed.
Lemma grow_encode a : Grow (encode a). Proof. unfold encode. grow. Qed.
Lemma grow_unshare d k x : Grow (unshare d k x). Proof. unfold unshare. grow. Qed.
Lemma grow_write d k bs : Grow (write_string d k bs). Proof. apply grow_set_dict. Qed.
Lemma grow_length i n : Grow (@checkStringLength V i n). Proof. unfold checkStringLength. grow. Qed.
Lemma grow_longLong i o m : Grow (@longLongOrReply V i o m). Proof. unfold longLongOrReply. grow. Qed.
Lemma grow_bulk i x : Grow (@addReplyBulk V i x). Proof. apply grow_reply. Qed.
Lemma grow_string i x : Grow (@addReplyString V i x). Proof. apply grow_reply. Qed.
#[local] Hint Resolve grow_setKey grow_readReply grow_checkType grow_encode grow_unshare grow_write grow_length grow_longLong grow_bulk grow_string : grow.
Lemma grow_expireTime i e u : Grow (@setExpireTime V i e u). Proof. unfold setExpireTime. grow. Qed.
#[local] Hint Resolve grow_expireTime : grow.
Lemma grow_setGeneric i f k v e u a b : Grow (setGenericCommand i f k v e u a b). Proof. unfold setGenericCommand. grow. Qed.
Lemma grow_getGeneric i : Grow (getGenericCommand i). Proof. unfold getGenericCommand. grow. Qed.
Lemma grow_mget d ks i : Grow (mget_loop i d ks). Proof. induction ks as [|k ks IH]; cbn [mget_loop]; grow; exact IH. Qed.
Lemma grow_busy d n : forall l, (length l < n)%nat -> forall b, Grow (mset_busy d l b).
Proof. induction n as [|n IH]; intros l Hl b; [lia|]. destruct l as [|k [|v l]]; cbn [mset_busy length] in *; grow; apply IH; lia. Qed.
Lemma grow_mset_loop d n : forall l, (length l < n)%nat -> Grow (mset_loop d l).
Proof. induction n as [|n IH]; intros l Hl; [lia|]. destruct l as [|k [|v l]]; cbn [mset_loop length] in *; grow; apply IH; lia. Qed.
Lemma grow_mset i nx : Grow (msetGenericCommand i nx).
Proof. unfold msetGenericCommand. grow; [eapply grow_busy|eapply grow_mset_loop]; apply Nat.lt_succ_diag_r. Qed.
Lemma grow_incrDecr i n : Grow (incrDecrCommand i n). Proof. unfold incrDecrCommand. grow. Qed.
Lemma grow_bitOffset i k : Grow (@getBitOffsetFromArgument V i k). Proof. unfold getBitOffsetFromArgument. grow. Qed.
Lemma grow_set_bit i d k bs n on : Grow (set_bit i d k bs n on). Proof. unfold set_bit. grow. Qed.
#[local] Hint Resolve grow_setGeneric grow_getGeneric grow_mget grow_mset grow_incrDecr grow_bitOffset grow_set_bit : grow.
Lemma grow_sources i d ks : forall j l m n, Grow (bitop_sources i d ks j l m n). Proof. induction ks as [|k ks IH]; intros j l m n; cbn [bitop_sources]; grow; apply IH. Qed.
#[local] Hint Resolve grow_sources : grow.

Ltac grow_command f := unfold f; cbv zeta; grow.
Lemma grow_getCommand i : Grow (getCommand i). Proof. grow_command @getCommand. Qed.
Lemma grow_set i : Grow (setCommand i). Proof. grow_command @setCommand. Qed.
Lemma grow_setnx i : Grow (setnxCommand i). Proof. grow_command @setnxCommand. Qed.
Lemma grow_setex i : Grow (setexCommand i). Proof. grow_command @setexCommand. Qed.
Lemma grow_psetex i : Grow (psetexCommand i). Proof. grow_command @psetexCommand. Qed.
Lemma grow_append i : Grow (appendCommand i). Proof. grow_command @appendCommand. Qed.
Lemma grow_strlen i : Grow (strlenCommand i). Proof. grow_command @strlenCommand. Qed.
Lemma grow_setrange i : Grow (setrangeCommand i). Proof. grow_command @setrangeCommand. Qed.
Lemma grow_getrange i : Grow (getrangeCommand i). Proof. grow_command @getrangeCommand. Qed.
Lemma grow_incrby i : Grow (incrbyCommand i). Proof. grow_command @incrbyCommand. Qed.
Lemma grow_decrby i : Grow (decrbyCommand i). Proof. grow_command @decrbyCommand. Qed.
Lemma grow_mgetCommand i : Grow (mgetCommand i). Proof. grow_command @mgetCommand. Qed.
Lemma grow_getset i : Grow (getsetCommand i). Proof. grow_command @getsetCommand. Qed.
Lemma grow_setbit i : Grow (setbitCommand i). Proof. grow_command @setbitCommand. Qed.
Lemma grow_getbit i : Grow (getbitCommand i). Proof. grow_command @getbitCommand. Qed.
Lemma grow_bitop i : Grow (bitopCommand i). Proof. grow_command @bitopCommand. Qed.
Lemma grow_bitcount i : Grow (bitcountCommand i). Proof. grow_command @bitcountCommand. Qed.
End Strings.
#[export] Hint Resolve grow_getCommand grow_set grow_setnx grow_setex grow_psetex grow_append grow_strlen grow_setrange grow_getrange grow_incrDecr grow_incrby grow_decrby grow_mgetCommand grow_getset grow_mset grow_setbit grow_getbit grow_bitop grow_bitcount : grow.

(** ** Transactions *)

Section Multi.
Context {V : Type} `{E : Rest V}.
#[local] Abbreviation M := (M V).
#[local] Abbreviation server := (server V).
Implicit Types (s : server) (i : cid) (c : client) (d : nat) (k : key).

Lemma grow_unwatchAll i : Grow (@unwatchAllKeys V i).
Proof. unfold unwatchAllKeys, unwatch_key. grow. Qed.
#[local] Hint Resolve grow_unwatchAll : grow.
Lemma grow_initMulti i : Grow (@initClientMultiState V i). Proof. apply grow_update. Qed.
#[local] Hint Resolve grow_initMulti : grow.
Lemma grow_discard i : Grow (@discardTransaction V i). Proof. unfold discardTransaction. grow. Qed.
Lemma grow_multi i : Grow (@execCommandPropagateMulti V i). Proof. unfold execCommandPropagateMulti. grow. Qed.
Lemma grow_watch i k : Grow (@watchForKey V i k). Proof. unfold watchForKey. grow. Qed.
#[local] Hint Resolve grow_discard grow_multi grow_watch : grow.

Lemma grow_other p i : Grow (run_other p i).
Proof.
  unfold run_other. apply grow_bind; [apply grow_get_client|cbv beta; intros c]. cbv zeta.
  apply (grow_get_put (fun s => with_dirty (with_dbs s (with_data (dbs s) (o_data (other p (conf s) c (data_of (dbs s)))))) (o_dirty (other p (conf s) c (data_of (dbs s))) (dirty s)))); [by constructor|intros s; grow].
Qed.
#[local] Hint Resolve grow_other : grow.

Lemma grow_loop call i fuel : (forall j f, Grow (call j f)) -> forall (j : nat) b, Grow (@exec_loop V call fuel i j b).
Proof. intros Hc. induction fuel as [|fuel IH]; intros j b; cbn [exec_loop]; grow; solve [apply Hc|apply IH]. Qed.

Lemma grow_proc call p i : (forall j f, Grow (call j f)) -> Grow (run_proc call p i).
Proof.
  intros Hc. pose proof (grow_loop call i) as Hl.
  destruct p; cbn [run_proc]; try (by apply grow_other); try (solve [auto 1 with grow nocore]); try apply grow_incrDecr; try apply grow_mset; try (by apply grow_flushall); try (by apply grow_move); unfold delCommand, existsCommand, randomkeyCommand, selectCommand,
    renameCommand, renamenxCommand, expireCommand, expireatCommand, pexpireCommand, pexpireatCommand, keysCommand, dbsizeCommand, typeCommand, flushdbCommand,
    ttlCommand, pttlCommand, persistCommand, multiCommand, execCommand, discardCommand, watchCommand, unwatchCommand; grow; by apply Hl.
Qed.

Lemma grow_call depth : forall i f, Grow (call depth i f).
Proof. induction depth as [|depth IH]; intros i f; cbn [call]; cbv zeta; grow; by apply grow_proc. Qed.
End Multi.

(** A transaction that may write is fed as a block, opened by
    [MULTI] before its first command that is not read only and closed by
    [EXEC]. *)
Import (notations) Strings.String.

(** Where commands are fed. *)
Inductive target := ToAof | ToSlaves.

Section Feed.
Context {V : Type} `{E : Rest V} {mode : Mode} `{EOk : !RestOk V}.
#[local] Abbreviation M := (M V).
#[local] Abbreviation server := (server V).
Implicit Types (s a b : server) (i j : cid) (c : client) (d : nat) (k : key) (Φ : client -> Prop) (g : target) (rs : list (server * server)).

Definition feeds g s : list feed := match g with ToAof => aof s | ToSlaves => repl s end.
Definition feeding g s : bool := match g with ToAof => aof_on (conf s) | ToSlaves => has_slaves (conf s) end.
(** What was fed from a state to a later one. *)
Definition fed g s s' : list feed := drop (length (feeds g s)) (feeds g s').

Lemma grows_feeds g s s' : grows s s' -> feeds g s' = feeds g s ++ fed g s s'.
Proof. intros [_ [l1 H1] [l2 H2]]. unfold fed. destruct g; cbn [feeds]; rewrite ?H1, ?H2, drop_app_length; done. Qed.
Lemma grows_feeding g s s' : grows s s' -> feeding g s' = feeding g s.
Proof. intros [Hc _ _]. destruct g; cbn [feeding]; by rewrite Hc. Qed.
Lemma fed_app g s s' l : feeds g s' = feeds g s ++ l -> fed g s s' = l.
Proof. unfold fed. intros ->. apply drop_app_length. Qed.

(** A queued command that is not read only. *)
Definition writes (mc : multiCmd) : bool := match mc_cmd mc with Some x => negb (has (cmd_flags x) REDIS_CMD_READONLY) | None => false end.

(** The same keys, counters and other clients. *)
Definition follows i s s' : Prop :=
  data_of (dbs s') = data_of (dbs s) /\ dirty s' = dirty s /\ ticks s' = ticks s /\ draws s' = draws s /\ conf s' = conf s /\ clients s' = clients s /\
  forall j, j <> i -> store s' !! j = store s !! j.
Lemma follows_refl i s : follows i s s. Proof. by split_and!. Qed.
Lemma follows_trans i s1 s2 s3 : follows i s1 s2 -> follows i s2 s3 -> follows i s1 s3.
Proof. intros (A1 & A2 & A3 & A4 & A5 & A6 & A7) (B1 & B2 & B3 & B4 & B5 & B6 & B7). split_and!; [congruence..|]. intros j Hj. by rewrite B7, A7. Qed.
Lemma follows_put i s c : follows i s (with_clients s (clients s) (<[i := c]> (store s))).
Proof. split_and!; try done. intros j Hj. cbn. by rewrite lookup_insert_ne. Qed.

(** The queued commands are run one after the other, each by [call] with its
    arguments, from the state the one before left to the keys; [rs] are the
    states each is run from and leads to. *)
Inductive runs_queue i : server -> list multiCmd -> list (server * server) -> server -> Prop :=
  | rq_nil s s' : follows i s s' -> runs_queue i s [] [] s'
  | rq_cons s a b s' c l rs : follows i s a -> store a !! i = Some c -> call 1 i REDIS_CALL_FULL a = Some (tt, b) -> runs_queue i b l rs s' ->
      runs_queue i s (current c :: l) ((a, b) :: rs) s'.
Lemma runs_from i s s1 l rs s' : follows i s s1 -> runs_queue i s1 l rs s' -> runs_queue i s l rs s'.
Proof. intros H. destruct 1; [apply rq_nil|eapply rq_cons; [|done..]]; by eapply follows_trans. Qed.

(** What they feed: [MULTI] before the first that is not read only, and what
    each call fed. *)
Fixpoint block_feeds g i (opened : bool) (l : list multiCmd) rs : list feed :=
  match l, rs with
  | mc :: l, (a, b) :: rs =>
    (if negb opened && writes mc then [Feed (default O (db <$> store a !! i)) [text "MULTI"]] else []) ++ fed g a b ++
    block_feeds g i (opened || writes mc) l rs
  | _, _ => []
  end.

(** A command that changed something is the last its call fed, with the
    arguments it has then. *)
Definition fed_itself i (r : server * server) : Prop :=
  exists c, store r.2 !! i = Some c /\
    (dirty r.2 <> dirty r.1 -> forall g, feeding g r.1 = true -> exists own, fed g r.1 r.2 = own ++ [Feed (db c) (argv c)]).

Lemma propagate_both d l f s : has f REDIS_PROPAGATE_AOF = true -> has f REDIS_PROPAGATE_REPL = true ->
  propagate d l f s = Some (tt, with_feeds s (aof s ++ if aof_on (conf s) then [Feed d l] else []) (repl s ++ if has_slaves (conf s) then [Feed d l] else [])).
Proof.
  intros Ha Hr. unfold propagate, get, feedAppendOnlyFile, replicationFeedSlaves, mbind, M_bind. rewrite Ha, Hr. destruct s as [s1 s2 s3 s4 s5 s6 cf la lr]. cbn [conf aof repl].
  destruct (aof_on cf) eqn:E1, (has_slaves cf) eqn:E2; cbn; rewrite ?E1, ?E2, ?app_nil_r; done.
Qed.
Lemma both_feeds g d l s : feeds g (with_feeds s (aof s ++ if aof_on (conf s) then [Feed d l] else []) (repl s ++ if has_slaves (conf s) then [Feed d l] else [])) =
  feeds g s ++ if feeding g s then [Feed d l] else [].
Proof. by destruct g. Qed.

Lemma changed_flags (x : redisCommand) n : n <> 0 -> has (propagate_flags x n) REDIS_PROPAGATE_AOF = true /\ has (propagate_flags x n) REDIS_PROPAGATE_REPL = true.
Proof. intros Hn. unfold propagate_flags. rewrite (proj2 (Z.eqb_neq n 0) Hn). cbn [negb]. by destruct (has (cmd_flags x) REDIS_CMD_FORCE_REPLICATION). Qed.

(** After the handler, [call] feeds the command. *)
Lemma call_after depth i s c (x : redisCommand) s1 c1 (x1 : redisCommand) : store s !! i = Some c -> cmd c = Some x -> run_proc (call depth) (proc x) i s = Some (tt, s1) ->
  store s1 !! i = Some c1 -> cmd c1 = Some x1 ->
  exists s' l1 l2, call (S depth) i REDIS_CALL_FULL s = Some (tt, s') /\ s' = with_feeds s1 (aof s1 ++ l1) (repl s1 ++ l2) /\
    (forall l, l = l1 \/ l = l2 -> l = [] \/ l = [Feed (db c1) (argv c1)]) /\
    (dirty s1 <> dirty s -> forall g, feeding g s1 = true -> feeds g s' = feeds g s1 ++ [Feed (db c1) (argv c1)]).
Proof.
  intros Hc Hx Er Hc1 Hx1. cbn [call]. unfold mbind, M_bind, get, get_client. rewrite Hc, Hx. cbn [opt mret M_ret]. rewrite Er, Hc1, Hx1. cbn [opt mret M_ret].
  change (has REDIS_CALL_FULL REDIS_CALL_PROPAGATE) with true. cbv iota zeta. set (f := propagate_flags x1 (dirty s1 - dirty s)).
  assert (with_feeds s1 (aof s1 ++ []) (repl s1 ++ []) = s1) as E0 by (rewrite !app_nil_r; by destruct s1).
  destruct (decide (dirty s1 = dirty s)) as [Hd|Hd].
  - assert (exists s' l1 l2, (if negb (f =? REDIS_PROPAGATE_NONE) then propagate (db c1) (argv c1) f else mret tt) s1 = Some (tt, s') /\ s' = with_feeds s1 (aof s1 ++ l1) (repl s1 ++ l2) /\
      (forall l, l = l1 \/ l = l2 -> l = [] \/ l = [Feed (db c1) (argv c1)])) as (s' & l1 & l2 & Ep & Es & Hl); [|exists s', l1, l2; by split_and!].
    destruct (negb _); [|exists s1, [], []; split; [done|split; [done|]]; by intros l [-> | ->]; left].
    unfold propagate, get, feedAppendOnlyFile, replicationFeedSlaves, mbind, M_bind.
    destruct (aof_on (conf s1) && _), (has f REDIS_PROPAGATE_REPL && _).
    + eexists _, [_], [_]. split; [done|]. split; [done|]. by intros l [-> | ->]; right.
    + exists (with_feeds s1 (aof s1 ++ [Feed (db c1) (argv c1)]) (repl s1 ++ [])), [Feed (db c1) (argv c1)], []. rewrite app_nil_r. split; [done|]. split; [done|]. by intros l [-> | ->]; [right|left].
    + exists (with_feeds s1 (aof s1 ++ []) (repl s1 ++ [Feed (db c1) (argv c1)])), [], [Feed (db c1) (argv c1)]. rewrite app_nil_r. split; [done|]. split; [done|]. by intros l [-> | ->]; [left|right].
    + exists s1, [], []. split; [done|]. split; [done|]. by intros l [-> | ->]; left.
  - destruct (changed_flags x1 (dirty s1 - dirty s)) as [F1 F2]; [lia|]. fold f in F1, F2.
    destruct (Z.eqb_spec f REDIS_PROPAGATE_NONE) as [Ef|_]; [by rewrite Ef in F1|]. cbn [negb]. eexists _, _, _. split; [by apply propagate_both|]. split; [done|]. split.
    + intros l [-> | ->]; [destruct (aof_on _)|destruct (has_slaves _)]; auto.
    + intros _ g Hg. by rewrite both_feeds, Hg.
Qed.

(** Each call adds to the feeds, and feeds its command. *)
Lemma call_fed i a b : call 1 i REDIS_CALL_FULL a = Some (tt, b) -> fed_itself i (a, b).
Proof.
  intros Er. assert (exists c x s1 c1 x1, store a !! i = Some c /\ cmd c = Some x /\ run_proc (call 0) (proc x) i a = Some (tt, s1) /\ store s1 !! i = Some c1 /\ cmd c1 = Some x1)
    as (c & x & s1 & c1 & x1 & Hc & Hx & Hrun & Hc1 & Hx1).
  { cbn [call] in Er. unfold mbind, M_bind, get, get_client in Er. destruct (store a !! i) as [c|] eqn:Hc; [|done]. destruct (cmd c) as [x|] eqn:Hx; [|done]. cbn [opt mret M_ret] in Er.
    destruct (run_proc _ _ _ _) as [[[] s1]|] eqn:Hrun; [|done]. destruct (store s1 !! i) as [c1|] eqn:Hc1; [|done]. destruct (cmd c1) as [x1|] eqn:Hx1; [|done].
    by exists c, x, s1, c1, x1. }
  destruct (call_after 0 i a c x s1 c1 x1 Hc Hx Hrun Hc1 Hx1) as (b' & l1 & l2 & Er' & -> & _ & Hfed). rewrite Er in Er'. injection Er' as ->.
  exists c1. split; [done|]. cbn [fst snd dirty with_feeds]. intros Hd g Hg. pose proof (grow_proc (call 0) (proc x) i (grow_call 0) _ _ _ Hrun) as Hgr.
  exists (fed g a s1). apply fed_app. rewrite Hfed; [|done|by rewrite (grows_feeding g _ _ Hgr)]. by rewrite (grows_feeds g _ _ Hgr), <-app_assoc.
Qed.
Lemma runs_fed i s l rs s' : runs_queue i s l rs s' -> Forall (fed_itself i) rs.
Proof. induction 1; constructor; [by apply call_fed|done]. Qed.

Section Client.
Context (i : cid) (s0 : server).

Lemma multi_fed Φ s c : busy i s0 Φ s -> store s !! i = Some c ->
  exists s', execCommandPropagateMulti i s = Some (tt, s') /\ busy i s0 Φ s' /\ follows i s s' /\ store s' = store s /\
    forall g, feeding g s = true -> feeds g s' = feeds g s ++ [Feed (db c) [text "MULTI"]].
Proof.
  intros HB Hc. destruct (busy_multi i s0 Φ s HB) as ([] & s' & Er & HB'). exists s'. split; [done|]. split; [done|].
  unfold execCommandPropagateMulti, client_db, get_client, mbind, M_bind in Er. rewrite Hc in Er. cbn [mret M_ret] in Er. rewrite propagate_both in Er by done. injection Er as <-.
  split; [by split_and!|]. split; [done|]. intros g Hg. by rewrite both_feeds, Hg.
Qed.

(** The commands from [k] on, [l]. *)
Definition queue (n k : nat) (l : list multiCmd) c : Prop := idle n c /\ drop k (mstate c) = l.

Lemma exec_loop_runs n fuel : forall (k : nat) (opened : bool) l s1, (k <= n < fuel + k)%nat -> busy i s0 (queue n k l) s1 ->
  exists s2 rs, exec_loop (call 1) fuel i k opened s1 = Some (opened || existsb writes l, s2) /\ busy i s0 (idle n) s2 /\ runs_queue i s1 l rs s2 /\
    forall g, feeding g s1 = true -> feeds g s2 = feeds g s1 ++ block_feeds g i opened l rs.
Proof.
  induction fuel as [|fuel IH]; intros k opened l s1 Hn HB; [lia|]. cbn [exec_loop]. pose proof HB as (HI & HK & c & Hc & [Hw Hl] & Hd).
  unfold mbind at 1, M_bind at 1, get_client at 1. rewrite Hc. destruct (mstate c !! k) as [mc|] eqn:Hk.
  2:{ apply lookup_ge_None in Hk. rewrite drop_ge in Hd by done. subst l. exists s1, []. cbn. rewrite orb_false_r. split; [done|].
      split; [split; [done|]; split; [done|]; by exists c|]. split; [by apply rq_nil, follows_refl|]. intros g _. by rewrite app_nil_r. }
  assert (k < n)%nat as Hkn by (rewrite <-Hl; by eapply lookup_lt_Some). rewrite (drop_S _ mc) in Hd by done. subst l. set (l := drop (S k) (mstate c)).
  assert (queued_ok mc) as Hq by (eapply Forall_lookup_1; [exact (inv_queue _ HI i c Hc)|exact Hk]). pose proof Hq as (x & Hx & _).
  set (Ψ := fun c' => (idle n c' /\ drop (S k) (mstate c') = l) /\ current c' = mc). set (cq := set_command c (mc_argv mc) (mc_cmd mc)).
  unfold mbind at 1, M_bind at 1, set_client at 1. set (sq := with_clients s1 (clients s1) _).
  assert (busy i s0 Ψ sq) as HBq by (eapply busy_set; [exact HB|exact Hc|done|exact (inv_db _ HI i c Hc)|exact (inv_queue _ HI i c Hc)|]; split; [done|by destruct mc]).
  assert (store sq !! i = Some cq) as Hcq by (cbn; apply lookup_insert_eq). rewrite Hx. unfold mbind at 1, M_bind at 1, opt at 1. cbn [mret M_ret]. cbv zeta.
  set (first := negb opened && _). assert (first = negb opened && writes mc) as Hfirst by (unfold first, writes; by rewrite Hx).
  assert (exists a, (if first then execCommandPropagateMulti i else mret tt) sq = Some (tt, a) /\ busy i s0 Ψ a /\ follows i sq a /\ store a = store sq /\
    forall g, feeding g sq = true -> feeds g a = feeds g sq ++ if first then [Feed (db c) [text "MULTI"]] else []) as (a & Ea & HBa & Hfa & Hsa & Hga).
  { destruct first; [by apply (multi_fed Ψ sq cq)|]. exists sq. split; [done|]. split; [done|]. split; [apply follows_refl|]. split; [done|]. intros g _. by rewrite app_nil_r. }
  unfold mbind at 1, M_bind at 1. rewrite Ea. set (Ψ2 := fun c' => (idle n c' /\ drop (S k) (mstate c') = l) /\ queued_ok (current c')).
  destruct (busy_call i s0 Ψ Ψ2 0 REDIS_CALL_FULL) with (s := a) as ([] & b & Eb & HBb); [..|exact HBa|].
  { intros c' [[[Hw' _] _] Hcur]. split; [done|by rewrite Hcur]. }
  { intros c2 c3 [[[Hw' Hl'] Hd'] _] (E1 & E2 & _) Hq'. unfold Ψ2, idle. by rewrite E1, E2. }
  unfold mbind at 1, M_bind at 1. rewrite Eb. pose proof (grow_call 1 i REDIS_CALL_FULL a tt b Eb) as Hgb.
  destruct (busy_update i s0 Ψ2 (queue n (S k) l) (fun c => set_mstate c (<[k := MultiCmd (argv c) (cmd c)]> (mstate c)))) with (s := b) as ([] & s5 & E5 & HB5); [|exact HBb|].
  { intros c' [[[Hw' Hl'] Hd'] Hq'] HF. split; [done|]. split; [done|]. split; [apply Forall_insert; [exact HF|exact Hq']|]. split; [split; [done|cbn; by rewrite length_insert]|].
    cbn. by rewrite drop_insert_lt by lia. }
  unfold mbind at 1, M_bind at 1. rewrite E5. pose proof HBb as (_ & _ & cb & Hcb & _). unfold update, get_client, set_client, mbind, M_bind in E5. rewrite Hcb in E5. injection E5 as <-.
  match type of HB5 with busy _ _ _ ?s => set (s5 := s) in * end. assert (follows i b s5) as Hf5 by apply follows_put.
  destruct (IH (S k) (opened || first) l s5 ltac:(lia) HB5) as (s2 & rs & E2 & HB2 & Hrun & Hg2). exists s2, ((a, b) :: rs).
  assert (opened || first = opened || writes mc) as Eo by (rewrite Hfirst; by destruct opened, (writes mc)). rewrite Eo in *. cbn [existsb]. rewrite orb_assoc.
  split; [exact E2|]. split; [done|]. assert (store a !! i = Some cq) as Hca by by rewrite Hsa. split.
  - replace mc with (current cq) by by destruct mc. eapply rq_cons; [|exact Hca|exact Eb|by eapply runs_from]. eapply follows_trans; [apply follows_put|exact Hfa].
  - intros g Hg. assert (feeding g s5 = true) as Hg5.
    { destruct Hf5 as (_ & _ & _ & _ & Hc5 & _), Hfa as (_ & _ & _ & _ & Hca' & _). pose proof (grows_feeding g a b Hgb) as Hgf. destruct g; cbn [feeding] in *; by rewrite Hc5, Hgf, Hca'. }
    rewrite (Hg2 g Hg5). replace (feeds g s5) with (feeds g b) by by destruct g. rewrite (grows_feeds g a b Hgb), (Hga g) by by destruct g.
    replace (feeds g sq) with (feeds g s1) by by destruct g. cbn [block_feeds]. rewrite Hca. cbn [fmap option_fmap option_map default from_option id db cq set_command]. rewrite <-Hfirst. by rewrite <-!app_assoc.
Qed.
End Client.

(** [EXEC] itself, when the transaction is not given up: after it the client
    has its command again. *)
Lemma exec_feeds i s c : inv s -> store s !! i = Some c -> has (flags c) REDIS_MULTI = true -> has (flags c) (Z.lor REDIS_DIRTY_CAS REDIS_DIRTY_EXEC) = false ->
  exists s' c' rs t, execCommand (call 1) i s = Some (tt, s') /\ store s' !! i = Some c' /\ current c' = current c /\ conf s' = conf s /\ runs_queue i s (mstate c) rs t /\
    data_of (dbs s') = data_of (dbs t) /\ dirty s' = (if existsb writes (mstate c) then dirty t + 1 else dirty t) /\
    forall g, feeding g s = true -> feeds g s' = feeds g s ++ block_feeds g i false (mstate c) rs.
Proof.
  intros HI Hc Hm Hd. unfold execCommand. unfold mbind at 1, M_bind at 1, get_client at 1. rewrite Hc, Hm, Hd. cbn [negb]. set (n := length (mstate c)).
  destruct (unwatchAllKeys_spec s i c HI Hc) as (sw & Ew & HIw & _ & (W1 & W2 & W3 & W4 & W5 & W6 & W7 & W8) & Wst). unfold mbind at 1, M_bind at 1. rewrite Ew.
  set (s1 := with_clients sw (clients sw) (<[i := set_replies (set_watched c []) (replies c ++ [ReplySpec.CMultiBulkLen (Z.of_nat n)])]> (store sw))).
  assert (add_reply i (ReplySpec.CMultiBulkLen (Z.of_nat n)) sw = Some (tt, s1)) as E1 by (unfold add_reply, update, get_client, set_client, mbind, M_bind; by rewrite Wst, lookup_insert_eq).
  unfold mbind at 1, M_bind at 1. rewrite E1. assert (busy i sw (queue n 0 (mstate c)) s1) as HB1.
  { eapply (busy_set i sw (fun c1 => c1 = set_watched c [])); [apply (busy_start i sw _ sw (set_watched c [])); [done|by rewrite Wst, lookup_insert_eq|done|by repeat split]|by rewrite Wst, lookup_insert_eq|done|..].
    - exact (inv_db _ HIw i (set_watched c []) ltac:(by rewrite Wst, lookup_insert_eq)).
    - exact (inv_queue _ HI i c Hc).
    - by repeat split. }
  assert (follows i s s1) as Hf1 by (split_and!; try done; intros j Hj; cbn; by rewrite Wst, !lookup_insert_ne).
  destruct (exec_loop_runs i sw n (S n) 0 false (mstate c) s1 ltac:(lia) HB1) as (s2 & rs & E2 & HB2 & Hrun & Hg). unfold mbind at 1, M_bind at 1. rewrite E2.
  pose proof HB2 as (HI2 & _ & c2 & Hc2 & _). set (c3 := set_command c2 (argv c) (cmd c)). set (s3 := with_clients s2 (clients s2) (<[i := c3]> (store s2))).
  assert (update i (fun c' => set_command c' (argv c) (cmd c)) s2 = Some (tt, s3)) as E3 by (unfold update, get_client, set_client, mbind, M_bind; by rewrite Hc2).
  unfold mbind at 1, M_bind at 1. rewrite E3.
  assert (exists s4 c4, discardTransaction i s3 = Some (tt, s4) /\ store s4 !! i = Some c4 /\ current c4 = current c3 /\ same_rest s3 s4) as (s4 & c4 & E4 & Hc4 & Hcur & (R1 & R2 & R3 & R4 & R5 & R6 & _)).
  { set (c4 := set_cflags (set_mstate c3 []) (Z.land (flags (set_mstate c3 [])) (Z.lnot (Z.lor (Z.lor REDIS_MULTI REDIS_DIRTY_CAS) REDIS_DIRTY_EXEC)))).
    set (s3' := with_clients s3 (clients s3) (<[i := c4]> (store s3))).
    destruct (rel_client (Some i) (fun _ => False) s2 s2 i c2 c4 (rel_start _ _ _ HI2) Hc2) as [HI3 _]; [done|constructor|exact (inv_db _ HI2 i c2 Hc2)|by left|].
    assert (with_clients s2 (clients s2) (<[i := c4]> (store s2)) = s3') as Es3 by (unfold s3', s3, with_clients; cbn; by rewrite insert_insert_eq). rewrite Es3 in HI3.
    destruct (unwatchAllKeys_spec s3' i c4 HI3) as (s4 & E4 & _ & _ & Hrest & Hst); [cbn; apply lookup_insert_eq|]. exists s4, (set_watched c4 []).
    split; [|split; [by rewrite Hst, lookup_insert_eq|split; [done|exact Hrest]]].
    unfold discardTransaction, initClientMultiState, lower, update, get_client, set_client, mbind, M_bind. cbn [s3 store with_clients]. rewrite lookup_insert_eq. cbn [store with_clients]. rewrite lookup_insert_eq.
    refine (eq_trans _ E4). f_equal. unfold s3', s3, with_clients. cbn. by rewrite !insert_insert_eq. }
  unfold mbind at 1, M_bind at 1. rewrite E4. cbn [orb]. set (w := existsb writes (mstate c)).
  exists (if w then with_dirty s4 (dirty s4 + 1) else s4), c4, rs, s2. split; [by destruct w|]. split; [by destruct w|]. split; [by rewrite Hcur|].
  assert (conf s2 = conf s) as Hconf.
  { pose proof (grow_loop (call 1) i (S n) (grow_call 1) _ _ _ _ _ E2) as [Hcf _ _]. rewrite Hcf. cbn. exact W2. }
  split; [destruct w; cbn; by rewrite R2|]. split; [by eapply runs_from|]. split; [destruct w; exact R6|]. split; [destruct w; cbn; by rewrite R3|].
  intros g Hgon. assert (feeds g (if w then with_dirty s4 (dirty s4 + 1) else s4) = feeds g s2) as ->.
  { destruct w, g; cbn [feeds aof repl with_dirty]; by rewrite ?R4, ?R5. }
  rewrite (Hg g) by (destruct g; cbn [feeding s1 conf with_clients] in *; by rewrite W2). f_equal. destruct g; [exact W4|exact W5].
Qed.
End Feed.
