(* ===== verification/KeyTheorems.v ===== *)
(** KeyTheorems: what the commands on keys do to the key space. *)
From Stdlib Require Strings.String.
From S2P Require Import Prelude Util UtilNum UtilSpec Sds Objects ObjectsSpec Server Db Evict CommandTable Multi ServerProofs KeyProofs CommandProofs StringProofs MultiProofs EventProofs ServerDemo.
From S2P Require Reply ReplySpec Request.
Import (notations) Corelib.Init.Byte.
Import (notations) Strings.String.

Section Keys.
Context {V : Type} `{E : Rest V} {mode : Mode} `{EOk : !RestOk V}.
#[local] Abbreviation M := (M V).
#[local] Abbreviation server := (server V).
Implicit Types (s : server) (i j : cid) (c : client) (d : nat) (k : key) (wk : watchedKey) (x : redisDb V).

(** ** Expiry

    Whether a key of the database is past its time, and the value a client
    should see. *)
Definition expired x (now : Z) k : bool := match expires x !! k with Some t => (0 <=? t) && (t <? now) | None => false end.
Definition live x (now : Z) k : option V := if expired x now k then None else dict x !! k.

(** A master that serves. *)
Definition serving s : Prop := loading (conf s) = false /\ masterhost (conf s) = false.

Definition without x k : redisDb V := RedisDb (delete k (dict x)) (delete k (expires x)) (watched_keys x).
Definition fed (on : bool) (l : list feed) (f : feed) : list feed := if on then l ++ [f] else l.

(** The state after the look up: the clock may have been read, and an expired
    key is deleted and the deletion propagated. *)
Definition looked_up s s' d x k : Prop :=
  clients s' = clients s /\ store s' = store s /\ dirty s' = dirty s /\ conf s' = conf s /\ (ticks s <= ticks s' <= S (ticks s))%nat /\
  if expired x (clock (ticks s)) k then
    dbs s' = <[d := without x k]> (dbs s) /\ let f := Feed d [text "DEL"; k] in aof s' = fed (aof_on (conf s)) (aof s) f /\ repl s' = fed (has_slaves (conf s)) (repl s) f
  else dbs s' = dbs s /\ aof s' = aof s /\ repl s' = repl s.

Lemma getExpire_run s d x k : dbs s !! d = Some x -> db_ok x -> getExpire d k s = Some (default (-1) (expires x !! k), s).
Proof.
  intros Hx Hok. unfold getExpire, get_db. unfold mbind at 1, M_bind. rewrite Hx. destruct (Nat.eqb_spec (size (expires x)) 0) as [H0|H0].
  - by rewrite (size_0_none _ k H0).
  - destruct (expires x !! k) as [t|] eqn:Ht; [|done]. destruct (Hok k t Ht) as [Hk _]. unfold mbind, M_bind. by rewrite bool_decide_eq_true_2.
Qed.

Lemma propagateExpire_run s d k : let f := Feed d [text "DEL"; k] in
  propagateExpire d k s = Some (tt, with_feeds s (fed (aof_on (conf s)) (aof s) f) (fed (has_slaves (conf s)) (repl s) f)).
Proof.
  cbv zeta. unfold propagateExpire, get, feedAppendOnlyFile, replicationFeedSlaves, mbind, M_bind, fed. destruct s as [s1 s2 s3 s4 s5 s6 cf la lr]. cbn [conf aof repl].
  destruct (aof_on cf) eqn:E1, (has_slaves cf) eqn:E2; cbn; rewrite ?E1, ?E2; done.
Qed.

Lemma expire_run s d x k : dbs s !! d = Some x -> db_ok x -> serving s ->
  exists b s', expireIfNeeded d k s = Some (b, s') /\ looked_up s s' d x k /\ dbs s' !! d = Some (if expired x (clock (ticks s)) k then without x k else x).
Proof.
  intros Hx Hok [Hl Hm]. assert (d < length (dbs s))%nat as Hd by by eapply lookup_lt_Some. unfold expireIfNeeded. unfold mbind at 1, M_bind at 1. rewrite (getExpire_run s d x k Hx Hok).
  unfold looked_up, expired. destruct (expires x !! k) as [t|] eqn:Ht; cbn [default from_option id]; [|exists false, s; repeat split; auto; lia].
  destruct (Z.ltb_spec t 0) as [H0|H0].
  { rewrite (proj2 (Z.leb_gt 0 t)) by lia. exists false, s. repeat split; auto; lia. }
  rewrite (proj2 (Z.leb_le 0 t)) by lia. cbn [andb]. unfold mbind at 1, M_bind at 1, get at 1. rewrite Hl, Hm. unfold mbind at 1, M_bind at 1. cbn [mstime].
  unfold mstime. unfold mbind at 1, M_bind at 1, get at 1. unfold mbind at 1, M_bind at 1, put at 1. cbn [mret M_ret]. set (s1 := with_counters s (S (ticks s)) (draws s)).
  destruct (Z.leb_spec (clock (ticks s)) t) as [H1|H1].
  - rewrite (proj2 (Z.ltb_ge t _)) by lia. exists false, s1. repeat split; auto; cbn; lia.
  - rewrite (proj2 (Z.ltb_lt t _)) by lia. unfold mbind, M_bind. rewrite propagateExpire_run. erewrite dbDelete_run; [|exact Hx].
    eexists _, _. split; [done|]. split; [|cbn; by apply list_lookup_insert_eq]. repeat split; cbn; lia.
Qed.

Lemma lookup_run s d x k : dbs s !! d = Some x -> db_ok x -> serving s ->
  exists s', lookupKeyWrite d k s = Some (live x (clock (ticks s)) k, s') /\ looked_up s s' d x k.
Proof.
  intros Hx Hok Hs. destruct (expire_run s d x k Hx Hok Hs) as (b & s' & Er & Hl & Hx'). exists s'. split; [|done].
  unfold lookupKeyWrite, lookupKey, get_db, mbind, M_bind. rewrite Er, Hx'. cbn [mret M_ret]. unfold live. destruct (expired _ _ _); [|done]. cbn. by rewrite lookup_delete_eq.
Qed.
(** A key that is there, and one that is not. *)
Lemma lookup_some_run s d x k v : dbs s !! d = Some x -> db_ok x -> serving s -> live x (clock (ticks s)) k = Some v ->
  exists s', lookupKeyWrite d k s = Some (Some v, s') /\ dbs s' = dbs s /\ store s' = store s /\ dirty s' = dirty s /\ conf s' = conf s /\ (ticks s <= ticks s' <= S (ticks s))%nat /\ dict x !! k = Some v.
Proof.
  intros Hx Hok Hs Hv. destruct (lookup_run s d x k Hx Hok Hs) as (s' & Er & _ & E2 & E3 & E4 & E5 & E6). rewrite Hv in Er. unfold live in Hv.
  destruct (expired _ _ _); [done|]. destruct E6 as (E6 & _). exists s'. by split_and!; try apply E5.
Qed.
Lemma lookup_none_run s d x k : dbs s !! d = Some x -> db_ok x -> serving s -> dict x !! k = None ->
  exists s', lookupKeyWrite d k s = Some (None, s') /\ dbs s' = dbs s /\ store s' = store s /\ dirty s' = dirty s /\ conf s' = conf s /\ (ticks s <= ticks s' <= S (ticks s))%nat.
Proof.
  intros Hx Hok Hs Hv. assert (expired x (clock (ticks s)) k = false) as He.
  { unfold expired. destruct (expires x !! k) as [t|] eqn:Ht; [|done]. destruct (Hok k t Ht) as [[v Hv'] _]. congruence. }
  destruct (lookup_run s d x k Hx Hok Hs) as (s' & Er & _ & E2 & E3 & E4 & E5 & E6). unfold live in Er. rewrite He in Er, E6. rewrite Hv in Er. destruct E6 as (E6 & _). exists s'. by split_and!; try apply E5.
Qed.

(** C17: on a master the look up of a key gives its value unless its time is
    past; then, and only then, the key is deleted with its time and [DEL] is
    propagated. *)
Theorem lookup_live s d x k : dbs s !! d = Some x -> db_ok x -> serving s ->
  exists s', lookupKeyWrite d k s = Some (live x (clock (ticks s)) k, s') /\ looked_up s s' d x k.
Proof. apply lookup_run. Qed.

(** ** Moving and renaming *)

Lemma arg_run s i c (j : nat) k : store s !! i = Some c -> argv c !! j = Some k -> arg i j s = Some (k, s).
Proof. intros Hc Hk. unfold arg, get_client, mbind, M_bind. by rewrite Hc, Hk. Qed.
Lemma db_run s i c : store s !! i = Some c -> client_db i s = Some (db c, s).
Proof. intros Hc. unfold client_db, get_client, mbind, M_bind. by rewrite Hc. Qed.
Lemma reply_run s i c r : store s !! i = Some c -> add_reply i r s = Some (tt, with_clients s (clients s) (<[i := set_replies c (replies c ++ [r])]> (store s))).
Proof. intros Hc. unfold add_reply, update, get_client, set_client, mbind, M_bind. by rewrite Hc. Qed.
Lemma mstime_run s : mstime s = Some (clock (ticks s), with_counters s (S (ticks s)) (draws s)).
Proof. done. Qed.
Lemma select_run s i c n : store s !! i = Some c -> 0 <= n < Z.of_nat (length (dbs s)) ->
  selectDb i n s = Some (true, with_clients s (clients s) (<[i := set_db_index c (Z.to_nat n)]> (store s))).
Proof.
  intros Hc Hn. unfold selectDb, get, update, get_client, set_client, mbind, M_bind. rewrite (proj2 (Z.ltb_ge n 0)), (proj2 (Z.leb_gt _ n)) by lia. cbn [orb]. by rewrite Hc.
Qed.

(** [MOVE] of a key that is in the client's database and not in the other
    one moves the value, but forgets its time to live and marks no client,
    though clients may watch the key in either database. *)
Theorem move_forgets i s c k a (dst : nat) (o : V) x y : inv s -> serving s -> store s !! i = Some c -> argv c !! 1%nat = Some k -> argv c !! 2%nat = Some a ->
  atoi a = Z.of_nat dst -> dst <> db c -> dbs s !! db c = Some x -> dbs s !! dst = Some y -> live x (clock (ticks s)) k = Some o -> dict y !! k = None ->
  exists s', moveCommand i s = Some (tt, s') /\ dirty s' = dirty s + 1 /\
    dbs s' = <[db c := without x k]> (<[dst := RedisDb (<[k := o]> (dict y)) (expires y) (watched_keys y)]> (dbs s)) /\ expires y !! k = None /\
    store s' = <[i := set_replies c (replies c ++ [ReplySpec.CObj (Reply.cone shared)])]> (store s).
Proof.
  intros HI Hs Hc Hk Ha Hat Hne Hx Hy Ho Hn. assert (dst < length (dbs s))%nat as Hd by by eapply lookup_lt_Some. assert (db c < length (dbs s))%nat as Hdc by by eapply lookup_lt_Some.
  set (s1 := with_clients s (clients s) (<[i := set_db_index c dst]> (store s))).
  assert (selectDb i (Z.of_nat dst) s = Some (true, s1)) as Sel1 by (rewrite (select_run s i c) by first [done|lia]; by rewrite Nat2Z.id).
  set (s2 := with_clients s (clients s) (<[i := c]> (store s))).
  assert (selectDb i (Z.of_nat (db c)) s1 = Some (true, s2)) as Sel2.
  { rewrite (select_run s1 i (set_db_index c dst)); [|cbn; by rewrite lookup_insert_eq|cbn; lia]. rewrite Nat2Z.id. unfold s1, s2, with_clients. cbn. rewrite insert_insert_eq. by destruct c. }
  destruct (lookup_some_run s2 (db c) x k o Hx (inv_data _ HI _ _ Hx) Hs Ho) as (s3 & L3 & D3 & S3 & N3 & C3 & T3 & Hko).
  assert (serving s3) as Hs3 by (unfold serving; by rewrite C3). assert (dbs s3 !! dst = Some y) as Hy3 by by rewrite D3.
  destruct (lookup_none_run s3 dst y k Hy3 (inv_data _ HI _ _ Hy) Hs3 Hn) as (s4 & L4 & D4 & S4 & N4 & C4 & T4). rewrite D3 in D4. rewrite S3 in S4. cbn [s2 dbs store with_clients] in D4, S4.
  set (y' := RedisDb (<[k := o]> (dict y)) (expires y) (watched_keys y)).
  assert (dbAdd dst k o s4 = Some (tt, with_dbs s4 (<[dst := y']> (dbs s)))) as A4.
  { unfold dbAdd, get_db, mbind, M_bind. rewrite D4, Hy, bool_decide_eq_true_2 by done. cbn [check mret M_ret]. rewrite (set_dict_run _ _ y) by by rewrite D4. by rewrite D4. }
  set (s5 := with_dbs s4 (<[dst := y']> (dbs s))). assert (dbs s5 !! db c = Some x) as Hx5 by (cbn; by rewrite list_lookup_insert_ne).
  unfold moveCommand, mbind, M_bind. rewrite (arg_run s i c 1 k Hc Hk), (arg_run s i c 2 a Hc Ha), (db_run s i c Hc), Hat, Sel1. cbn [negb].
  rewrite (db_run s1 i (set_db_index c dst)) by (cbn; by rewrite lookup_insert_eq). cbn [db set_db_index]. rewrite Sel2, bool_decide_eq_false_2 by done.
  rewrite L3, L4, A4. fold s5. rewrite (dbDelete_run _ _ _ _ Hx5). unfold add_dirty, addReply. erewrite reply_run by (cbn; rewrite S4; apply lookup_insert_eq).
  eexists. split; [reflexivity|]. cbn. split; [rewrite N4, N3; done|]. split; [done|]. split; [|by rewrite S4, insert_insert_eq].
  destruct (expires y !! k) as [t|] eqn:Ht; [|done]. destruct (inv_data _ HI _ _ Hy k t Ht) as [[v Hv] _]. congruence.
Qed.

(** Signals and replies leave the databases. *)
Definition keeps_dbs {A} (m : M A) : Prop := forall s a s', m s = Some (a, s') -> dbs s' = dbs s.
Lemma keeps_bind {A B} (m : M A) (f : A -> M B) : keeps_dbs m -> (forall a, keeps_dbs (f a)) -> keeps_dbs (m ≫= f).
Proof. intros Hm Hf s b s' H. unfold mbind, M_bind in H. destruct (m s) as [[a s1]|] eqn:Es; [|done]. etrans; [by eapply Hf|by eapply Hm]. Qed.
Lemma keeps_update i f : keeps_dbs (@update V i f).
Proof. intros s a s'. unfold update, get_client, set_client, mbind, M_bind. destruct (store s !! i); [|done]. by intros [= <- <-]. Qed.
Lemma keeps_each {A} (f : A -> M unit) l : (forall a, keeps_dbs (f a)) -> keeps_dbs (each f l).
Proof. intros Hf. induction l as [|a l IH]; [by intros s b s' [= <- <-]|]. by apply keeps_bind. Qed.
Lemma keeps_signal d k : keeps_dbs (@signalModifiedKey V d k).
Proof.
  unfold signalModifiedKey, touchWatchedKey. apply keeps_bind.
  - intros s a s'. unfold get_db. destruct (dbs s !! d); [|done]. by intros [= <- <-].
  - intros x. destruct (_ =? _)%nat; [by intros s a s' [= <- <-]|]. destruct (_ !! k); [|by intros s a s' [= <- <-]]. apply keeps_each. intros j. apply keeps_update.
Qed.

(** Making room for a key. *)
Lemma clear_run s d x k : dbs s !! d = Some x -> db_ok x -> serving s ->
  exists v s1 s2, lookupKeyWrite d k s = Some (v, s1) /\ (if v is None then mret tt else dbDelete d k ;; mret tt) s1 = Some (tt, s2) /\
    (v <> None -> dict x !! k <> None) /\ dbs s2 = <[d := without x k]> (dbs s) /\ store s2 = store s /\ conf s2 = conf s.
Proof.
  intros Hx Hok Hs. assert (d < length (dbs s))%nat as Hd by by eapply lookup_lt_Some.
  destruct (lookup_run s d x k Hx Hok Hs) as (s1 & L1 & _ & S1 & _ & C1 & _ & D1). exists (live x (clock (ticks s)) k), s1. unfold live in *. destruct (expired _ _ _).
  - exists s1. destruct D1 as (D1 & _). by split_and!.
  - destruct D1 as (D1 & _). assert (dbs s1 !! d = Some x) as Hx1 by by rewrite D1. destruct (dict x !! k) as [v|] eqn:Hv.
    + eexists. split; [done|]. split; [unfold mbind, M_bind; rewrite (dbDelete_run _ _ _ _ Hx1); done|]. split; [done|]. cbn. by rewrite D1.
    + exists s1. split; [done|]. split; [done|]. split; [done|]. split; [|done]. rewrite D1. unfold without. rewrite (delete_id (dict x)) by done.
      rewrite (delete_id (expires x)) by (destruct (expires x !! k) as [t|] eqn:Ht; [destruct (Hok k t Ht) as [[? ?] _]; congruence|done]).
      rewrite list_insert_id; [done|]. rewrite Hx. by destruct x.
Qed.

(** The database after a key is renamed. *)
Definition renamed x (src dst : key) (o : V) : redisDb V :=
  let e := default (-1) (expires x !! src) in
  let times := delete dst (expires x) in
  RedisDb (delete src (<[dst := o]> (dict x))) (delete src (if e =? -1 then times else <[dst := e]> times)) (watched_keys x).

(** C24: [RENAME] of a key that is there gives its value and its time to live
    to the new name, whatever that was, [RENAMENX] if that was free; the old
    name is gone and no other key changes. *)
Theorem rename_moves i s c (src dst : key) (o : V) x nx : inv s -> serving s -> store s !! i = Some c -> argv c !! 1%nat = Some src -> argv c !! 2%nat = Some dst -> src <> dst ->
  dbs s !! db c = Some x -> live x (clock (ticks s)) src = Some o -> (nx = true -> dict x !! dst = None) ->
  exists s', renameGenericCommand i nx s = Some (tt, s') /\ dbs s' = <[db c := renamed x src dst o]> (dbs s).
Proof.
  intros HI Hs Hc Hsrc Hdst Hne Hx Ho Hnx. set (d := db c) in *. assert (d < length (dbs s))%nat as Hd by by eapply lookup_lt_Some. pose proof (inv_data _ HI _ _ Hx) as Hok.
  destruct (rename_fine s i c HI Hc nx) with (s := s) as ([] & s' & Er & _); [by apply lookup_lt_Some in Hdst|by repeat split|]. exists s'. split; [done|].
  unfold renameGenericCommand in Er. unfold mbind at 1, M_bind at 1 in Er. rewrite (arg_run s i c 1 src Hc Hsrc) in Er. unfold mbind at 1, M_bind at 1 in Er. rewrite (arg_run s i c 2 dst Hc Hdst) in Er.
  rewrite bool_decide_eq_false_2 in Er by done. unfold mbind at 1, M_bind at 1 in Er. rewrite (db_run s i c Hc) in Er. fold d in Er.
  destruct (lookup_some_run s d x src o Hx Hok Hs Ho) as (s1 & L1 & D1 & S1 & _ & C1 & _ & Hv). assert (serving s1) as Hs1 by (unfold serving; by rewrite C1). assert (dbs s1 !! d = Some x) as Hx1 by by rewrite D1.
  assert (lookupKeyWriteOrReply i src Reply.nokeyerr s = Some (Some o, s1)) as L1'.
  { unfold lookupKeyWriteOrReply, mbind, M_bind. rewrite (db_run s i c Hc). fold d. by rewrite L1. }
  unfold mbind at 1, M_bind at 1 in Er. rewrite L1' in Er. unfold mbind at 1, M_bind at 1 in Er. rewrite (getExpire_run s1 d x src Hx1 Hok) in Er.
  destruct (clear_run s1 d x dst Hx1 Hok Hs1) as (v & s2 & s3 & L2 & Cl & Hv2 & D3 & S3 & C3). unfold mbind at 1, M_bind at 1 in Er. rewrite L2 in Er.
  assert ((if v is None then false else nx) = false) as Hf by (destruct v; [|done]; destruct nx; [by destruct Hv2; [|apply Hnx]|done]). rewrite Hf in Er.
  unfold mbind at 1, M_bind at 1 in Er. rewrite Cl in Er. rewrite D1 in D3. assert (dbs s3 !! d = Some (without x dst)) as Hx3 by (rewrite D3; by apply list_lookup_insert_eq).
  set (x4 := RedisDb (<[dst := o]> (dict x)) (delete dst (expires x)) (watched_keys x)).
  assert (dbAdd d dst o s3 = Some (tt, with_dbs s3 (<[d := x4]> (dbs s)))) as A4.
  { unfold dbAdd, get_db, mbind, M_bind. rewrite Hx3, bool_decide_eq_true_2 by (cbn; by rewrite lookup_delete_eq). cbn [check mret M_ret]. rewrite (set_dict_run _ _ _ _ Hx3), D3, list_insert_insert_eq.
    cbn [without dict expires watched_keys]. by rewrite insert_delete_eq. }
  unfold mbind at 1, M_bind at 1 in Er. rewrite A4 in Er. set (s4 := with_dbs s3 _) in *. assert (dbs s4 !! d = Some x4) as Hx4 by (cbn; by apply list_lookup_insert_eq).
  set (e := default (-1) (expires x !! src)) in *. set (x5 := RedisDb (dict x4) (if e =? -1 then expires x4 else <[dst := e]> (expires x4)) (watched_keys x)).
  assert ((if negb (e =? -1) then setExpire d dst e else mret tt) s4 = Some (tt, with_dbs s4 (<[d := x5]> (dbs s)))) as A5.
  { unfold x5. destruct (e =? -1); cbn [negb].
    - unfold s4. cbn [mret M_ret]. done.
    - unfold setExpire, get_db, mbind, M_bind. rewrite Hx4, bool_decide_eq_true_2 by (cbn; rewrite lookup_insert_eq; by eexists). cbn [check mret M_ret]. rewrite (set_expires_run _ _ _ _ Hx4).
      cbn [dbs s4 with_dbs]. by rewrite list_insert_insert_eq. }
  unfold mbind at 1, M_bind at 1 in Er. rewrite A5 in Er. set (s5 := with_dbs s4 _) in *. assert (dbs s5 !! d = Some x5) as Hx5 by (cbn; by apply list_lookup_insert_eq).
  unfold mbind at 1, M_bind at 1 in Er. rewrite (dbDelete_run _ _ _ _ Hx5) in Er. assert (keeps_dbs (signalModifiedKey d src ;; signalModifiedKey d dst ;; add_dirty 1 ;; addReply i (if nx then Reply.cone else Reply.ok))) as Hkeep.
  { do 2 (apply keeps_bind; [apply keeps_signal|intros _]). apply keeps_bind; [by intros s6 u s7 [= <- <-]|intros _]. apply keeps_update. }
  apply Hkeep in Er. rewrite Er. cbn [dbs s5 with_dbs]. by rewrite list_insert_insert_eq.
Qed.

(** ** Times to live *)

(** [TTL] and [PTTL] of a key with a time. *)
Lemma ttl_run s j c k x t ms : store s !! j = Some c -> argv c !! 1%nat = Some k -> dbs s !! db c = Some x -> db_ok x -> expires x !! k = Some t -> t <> -1 ->
  let left := t - clock (ticks s) in 0 <= left ->
  exists s', ttlGenericCommand j ms s = Some (tt, s') /\ dbs s' = dbs s /\
    store s' = <[j := set_replies c (replies c ++ [ReplySpec.CLongLong (if ms then left else (left + 500) ÷ 1000)])]> (store s).
Proof.
  intros Hc Hk Hx Hok Ht Hne left Hleft. destruct (Hok k t Ht) as [_ Htime]. unfold time_ok in Htime. pose proof (clock_ok (ticks s)) as Hnow.
  unfold ttlGenericCommand. unfold mbind at 1, M_bind at 1. rewrite (db_run s j c Hc). unfold mbind at 1, M_bind at 1. rewrite (arg_run s j c 1 k Hc Hk).
  unfold mbind at 1, M_bind at 1. rewrite (getExpire_run s (db c) x k Hx Hok), Ht. cbn [default from_option id]. rewrite (proj2 (Z.eqb_neq t (-1)) Hne). cbn [negb].
  unfold mbind, M_bind. rewrite mstime_run. fold left. set (s1 := with_counters s (S (ticks s)) (draws s)).
  rewrite (chk64_ok left) by (unfold left; lia). cbn [opt mret M_ret]. rewrite (proj2 (Z.ltb_ge left 0)) by lia. rewrite (proj2 (Z.eqb_neq left (-1))) by lia. assert (store s1 !! j = Some c) as Hc1 by done.
  destruct ms; [unfold addReplyLongLong; rewrite (reply_run s1 j c _ Hc1); by eexists|].
  rewrite (chk64_ok (left + 500)) by (unfold left; lia). cbn [opt mret M_ret]. unfold addReplyLongLong. rewrite (reply_run s1 j c _ Hc1). by eexists.
Qed.

(** C25: on a master a key that is given a time to live in the future keeps its
    value and gets that time, in seconds or milliseconds from now or since the
    epoch; and whoever asks for it then, in the same database, is told what
    is left of it, rounded to seconds by [TTL]. *)
Theorem expire_then_ttl i s c k p v base units (o : V) x : let when := (if units =? UNIT_SECONDS then v * 1000 else v) + base in
  inv s -> serving s -> store s !! i = Some c -> argv c !! 1%nat = Some k -> argv c !! 2%nat = Some p -> getLongLongFromObject (Some (arg_object p)) = Some (Some v) ->
  - 2 ^ 50 < v < 2 ^ 50 -> 0 <= base < 2 ^ 50 -> dbs s !! db c = Some x -> live x (clock (ticks s)) k = Some o -> clock (ticks s) < when -> clock (S (ticks s)) < when ->
  exists s', expireGenericCommand i base units s = Some (tt, s') /\ dbs s' = <[db c := RedisDb (dict x) (<[k := when]> (expires x)) (watched_keys x)]> (dbs s) /\
    forall j c' ms, store s' !! j = Some c' -> db c' = db c -> argv c' !! 1%nat = Some k -> let left := when - clock (ticks s') in 0 <= left ->
      exists s2, ttlGenericCommand j ms s' = Some (tt, s2) /\ dbs s2 = dbs s' /\
        store s2 = <[j := set_replies c' (replies c' ++ [ReplySpec.CLongLong (if ms then left else (left + 500) ÷ 1000)])]> (store s').
Proof.
  intros when HI Hs Hc Hk Hp Hv Hvr Hbase Hx Ho Hw1 Hw2. set (d := db c) in *. assert (d < length (dbs s))%nat as Hd by by eapply lookup_lt_Some. pose proof (inv_data _ HI _ _ Hx) as Hok.
  assert (- 2 ^ 61 < when < 2 ^ 61) as Hwr by (unfold when; destruct (_ =? _); lia).
  set (x' := RedisDb (dict x) (<[k := when]> (expires x)) (watched_keys x)).
  assert (exists s', expireGenericCommand i base units s = Some (tt, s') /\ dbs s' = <[d := x']> (dbs s)) as (s' & Er & Ed).
  { destruct (expireGeneric_fine s i c HI Hc base units Hbase) with (s := s) as ([] & s' & Er & _); [by apply lookup_lt_Some in Hp| |by repeat split|].
    { intros p' Hp' v'. rewrite Hp in Hp'. injection Hp' as <-. rewrite Hv. by intros [= <-]. }
    exists s'. split; [done|]. unfold expireGenericCommand in Er. unfold mbind at 1, M_bind at 1 in Er. rewrite (arg_run s i c 1 k Hc Hk) in Er. unfold mbind at 1, M_bind at 1 in Er. rewrite (arg_run s i c 2 p Hc Hp) in Er.
    unfold mbind at 1, M_bind at 1 in Er. rewrite (db_run s i c Hc) in Er. fold d in Er. unfold getLongLongFromObjectOrReply, longLongOrReply in Er. rewrite Hv in Er. unfold mbind at 1, M_bind at 1, mbind at 1, M_bind at 1 in Er. cbn [opt mret M_ret] in Er.
    assert ((if units =? UNIT_SECONDS then opt (chk64 (v * 1000)) else mret v) s = Some ((if units =? UNIT_SECONDS then v * 1000 else v), s)) as Hmul by (destruct (units =? _); [by rewrite chk64_ok by lia|done]).
    unfold mbind at 1, M_bind at 1 in Er. rewrite Hmul in Er. fold when in Er. unfold mbind at 1, M_bind at 1 in Er. rewrite chk64_ok in Er by lia. cbn [opt mret M_ret] in Er.
    destruct (lookup_some_run s d x k o Hx Hok Hs Ho) as (s1 & L1 & D1 & S1 & _ & C1 & T1 & Hko). unfold mbind at 1, M_bind at 1 in Er. unfold lookupKeyRead in Er. fold (lookupKeyWrite d k) in Er. rewrite L1 in Er.
    unfold mbind at 1, M_bind at 1 in Er. rewrite mstime_run in Er. unfold mbind at 1, M_bind at 1, get at 1 in Er.
    assert (clock (ticks s1) < when) as Hnow by (assert (ticks s1 = ticks s \/ ticks s1 = S (ticks s)) as [-> | ->] by lia; done). rewrite (proj2 (Z.leb_gt _ _) Hnow) in Er. cbn [andb] in Er.
    set (s2 := with_counters s1 (S (ticks s1)) (draws s1)) in *. assert (dbs s2 !! d = Some x) as Hx2 by (cbn; by rewrite D1).
    assert (setExpire d k when s2 = Some (tt, with_dbs s2 (<[d := x']> (dbs s)))) as A2.
    { unfold setExpire, get_db, mbind, M_bind. rewrite Hx2, bool_decide_eq_true_2 by (rewrite Hko; by eexists). cbn [check mret M_ret]. rewrite (set_expires_run _ _ _ _ Hx2). cbn [s2 dbs with_counters]. by rewrite D1. }
    unfold mbind at 1, M_bind at 1 in Er. rewrite A2 in Er.
    assert (keeps_dbs (addReply i Reply.cone ;; signalModifiedKey d k ;; add_dirty 1)) as Hkeep.
    { apply keeps_bind; [apply keeps_update|intros _]. apply keeps_bind; [apply keeps_signal|intros _]. by intros s6 u s7 [= <- <-]. }
    apply Hkeep in Er. by rewrite Er. }
  exists s'. split; [done|]. split; [done|]. intros j c' ms Hc' Hdb Hk' left Hleft. apply (ttl_run s' j c' k x' when ms Hc' Hk').
  - rewrite Hdb, Ed. by apply list_lookup_insert_eq.
  - intros k' t Ht. cbn [x' expires dict] in *. apply lookup_insert_Some in Ht as [[<- <-]|[_ Ht]]; [|by apply Hok]. split; [|unfold time_ok; lia].
    unfold live in Ho. destruct (expired _ _ _); [done|by exists o].
  - cbn. apply lookup_insert_eq.
  - pose proof (clock_ok (ticks s)). lia.
  - done.
Qed.

(** ** Memory *)

(** C26: freeing memory always ends, fails no assertion, leaves the clients
    and the invariant, and removes keys at most; and it reports that it failed
    only when the policy evicts nothing or no database has a key left that it
    could choose. *)
Theorem eviction_ends s : inv s ->
  exists b s', freeMemoryIfNeeded s = Some (b, s') /\ inv s' /\ store s' = store s /\ (forall wk, lookup s' wk = lookup s wk \/ lookup s' wk = None) /\
    (b = false -> maxmemory_policy (conf s) = REDIS_MAXMEMORY_NO_EVICTION \/
      forall d x, dbs s' !! d = Some x -> nothing_in x (maxmemory_policy (conf s)) (maxmemory_samples (conf s))).
Proof.
  intros HI. destruct (free_spec None (fun _ => True) s s (or_intror (fun _ => I)) s (conj (rel_start None (fun _ => True) s HI) eq_refl)) as (b & s' & Er & Hg & [HI' _] & Hsh & Hst).
  by exists b, s'.
Qed.

(** ** A slave whose keys are all past their time *)

(** On a slave [RANDOMKEY] never ends when every key of the database is
    past its time: no key is deleted there, and each one drawn is refused,
    however many are drawn. *)
Theorem randomkey_never_ends s d x : dbs s !! d = Some x -> db_ok x -> loading (conf s) = false -> masterhost (conf s) = true ->
  (forall n, is_Some (random_key n (dict x))) -> (forall k n, is_Some (dict x !! k) -> (ticks s <= n)%nat -> expired x (clock n) k = true) ->
  forall fuel, dbRandomKey fuel d s = None.
Proof.
  intros Hx Hok Hl Hm Hr He fuel. revert s Hx Hl Hm He. induction fuel as [|fuel IH]; intros s Hx Hl Hm He; [done|].
  cbn [dbRandomKey]. unfold mbind at 1, M_bind at 1, get_db. rewrite Hx. unfold mbind at 1, M_bind at 1, get at 1. unfold mbind at 1, M_bind at 1, put at 1.
  destruct (Hr (draws s)) as [k Hk]. rewrite Hk. set (s1 := with_counters s (ticks s) (S (draws s))). apply random_in in Hk as Hin. pose proof (He k (ticks s) Hin ltac:(lia)) as Hex. unfold expired in Hex.
  destruct (expires x !! k) as [t|] eqn:Ht; [|done]. apply andb_true_iff in Hex as [H1%Z.leb_le H2%Z.ltb_lt].
  assert (expireIfNeeded d k s1 = Some (true, with_counters s1 (S (ticks s1)) (draws s1))) as Hexp.
  { unfold expireIfNeeded. unfold mbind at 1, M_bind at 1. rewrite (getExpire_run s1 d x k Hx Hok), Ht. cbn [default from_option id]. rewrite (proj2 (Z.ltb_ge t 0)) by lia.
    unfold mbind at 1, M_bind at 1, get at 1. cbn [conf s1 with_counters]. rewrite Hl, Hm. unfold mbind, M_bind. rewrite mstime_run. cbn [mret M_ret]. by rewrite (proj2 (Z.ltb_lt t _)). }
  unfold mbind, M_bind. rewrite Hexp. apply IH; [done|done|done|]. intros k' n Hk' Hn. apply He; [done|]. cbn in Hn. lia.
Qed.
End Keys.

(** ** Runs of the small instance *)

Definition key_events : list event := [EConnect 1; ECommand 1 [text "set"; text "k"; text "v"]].
Definition db_0 (s : demo_server) : redisDb string_value := default (RedisDb ∅ ∅ ∅) (dbs s !! 0%nat).
(** The key with a time to live of half a second, which is past. *)
Definition past_db : redisDb string_value := RedisDb {[text "k" := Raw (text "v")]} {[text "k" := 500]} ∅.
Definition past_server (x : config) : demo_server := Server [past_db] [] ∅ 0 0 0 x [] [].

Lemma past_db_ok : db_ok past_db.
Proof. intros k t Ht. cbn [expires past_db] in Ht. apply lookup_singleton_Some in Ht as [<- <-]. split; [exists (Raw (text "v")); apply lookup_singleton_eq|unfold time_ok; lia]. Qed.

Lemma lookup_live_witness : let s := past_server demo_conf in
  exists s', lookupKeyWrite 0 (text "k") s = Some (None, s') /\ looked_up s s' 0 past_db (text "k").
Proof.
  intros s. assert (None = live past_db (clock (ticks s)) (text "k")) as -> by (vm_compute; reflexivity). apply (lookup_live s 0 past_db (text "k")); [reflexivity|exact past_db_ok|split; reflexivity].
Defined.

Lemma asked_inv a : inv (asking (after demo_start key_events) a).
Proof. apply asking_inv; [apply demo_inv; vm_compute; reflexivity|vm_compute; reflexivity]. Qed.

Lemma move_forgets_witness : let s := asking (after demo_start key_events) [text "move"; text "k"; text "1"] in
  let c := client_1 s in let x := db_0 s in let y : redisDb string_value := RedisDb ∅ ∅ ∅ in
  exists s', moveCommand 1 s = Some (tt, s') /\ dirty s' = dirty s + 1 /\
    dbs s' = <[db c := without x (text "k")]> (<[1%nat := RedisDb (<[text "k" := Raw (text "v")]> (dict y)) (expires y) (watched_keys y)]> (dbs s)) /\ expires y !! text "k" = None /\
    store s' = <[1%positive := set_replies c (replies c ++ [ReplySpec.CObj (Reply.cone shared)])]> (store s).
Proof.
  intros s c x y. apply (move_forgets 1 s c (text "k") (text "1") 1 (Raw (text "v")) x y);
    [apply asked_inv|split; vm_compute; reflexivity|vm_compute; reflexivity|vm_compute; reflexivity|vm_compute; reflexivity|vm_compute; reflexivity
    |vm_compute; discriminate|vm_compute; reflexivity|vm_compute; reflexivity|vm_compute; reflexivity|vm_compute; reflexivity].
Defined.

Lemma rename_moves_witness : let s := asking (after demo_start key_events) [text "rename"; text "k"; text "l"] in
  exists s', renameGenericCommand 1 false s = Some (tt, s') /\ dbs s' = <[db (client_1 s) := renamed (db_0 s) (text "k") (text "l") (Raw (text "v"))]> (dbs s).
Proof.
  intros s. apply (rename_moves 1 s (client_1 s) (text "k") (text "l") (Raw (text "v")) (db_0 s) false);
    [apply asked_inv|split; vm_compute; reflexivity|vm_compute; reflexivity|vm_compute; reflexivity|vm_compute; reflexivity|vm_compute; discriminate
    |vm_compute; reflexivity|vm_compute; reflexivity|discriminate].
Defined.

Lemma expire_then_ttl_witness : let s := asking (after demo_start key_events) [text "expire"; text "k"; text "10"] in
  exists s', expireGenericCommand 1 5000 UNIT_SECONDS s = Some (tt, s') /\
    dbs s' = <[db (client_1 s) := RedisDb (dict (db_0 s)) (<[text "k" := 10 * 1000 + 5000]> (expires (db_0 s))) (watched_keys (db_0 s))]> (dbs s).
Proof.
  intros s. destruct (expire_then_ttl 1 s (client_1 s) (text "k") (text "10") 10 5000 UNIT_SECONDS (Raw (text "v")) (db_0 s)) as (s' & H1 & H2 & _);
    [apply asked_inv|split; vm_compute; reflexivity|vm_compute; reflexivity|vm_compute; reflexivity|vm_compute; reflexivity|vm_compute; reflexivity
    |lia|lia|vm_compute; reflexivity|vm_compute; reflexivity|vm_compute; reflexivity|vm_compute; reflexivity|].
  exists s'. split; [exact H1|exact H2].
Defined.

Definition slave_conf : config := Config false 0 false 0 false true true true true false false true true REDIS_MAXMEMORY_VOLATILE_LRU 3 [] 0.
Lemma randomkey_never_ends_witness : forall fuel, dbRandomKey fuel 0 (past_server slave_conf) = None.
Proof.
  apply (randomkey_never_ends (past_server slave_conf) 0 past_db); [reflexivity|exact past_db_ok|reflexivity|reflexivity|intros n; exists (text "k"); vm_compute; reflexivity|].
  intros k n [v Hv] _. cbn [dict past_db] in Hv. apply lookup_singleton_Some in Hv as [<- _]. unfold expired. cbn [expires past_db]. rewrite lookup_singleton_eq. cbn [clock demo_rest].
  pose proof (Z.mod_pos_bound (Z.of_nat n) 1000000 ltac:(lia)). apply andb_true_iff. split; [reflexivity|apply Z.ltb_lt; lia].
Defined.

Definition evict_conf : config := Config false 50 false 0 false false false true true false false true true REDIS_MAXMEMORY_ALLKEYS_LRU 3 [10] 5.
Lemma eviction_ends_witness : let s := after demo_start (key_events ++ [EConfig evict_conf]) in
  exists b s', freeMemoryIfNeeded s = Some (b, s') /\ inv s' /\ store s' = store s.
Proof.
  intros s. destruct (eviction_ends s) as (b & s' & H1 & H2 & H3 & _); [apply demo_inv; vm_compute; reflexivity|]. exists b, s'. split; [exact H1|]. split; [exact H2|exact H3].
Defined.

(** The index of [SELECT] is cut to an [int]. *)
Lemma select_truncates : forall s, s = after demo_start [EConnect 1; ECommand 1 [text "select"; text "4294967297"]] ->
  db (client_1 s) = 1%nat /\ replies (client_1 s) = [ReplySpec.CObj (Reply.ok shared)].
Proof. intros s ->. vm_compute. split; reflexivity. Qed.
