(* ===== verification/MultiTheorems.v ===== *)
(** MultiTheorems: what transactions promise. *)
From Stdlib Require Strings.String.
From S2P Require Import Prelude Util Sds Objects Server Db Evict CommandTable Multi ServerProofs KeyProofs CommandProofs StringProofs MultiProofs ExecProofs EventProofs ServerDemo FeedProofs.
From S2P Require Reply ReplySpec Request.
Import (notations) Corelib.Init.Byte.
Import (notations) Strings.String.

Section Multi.
Context {V : Type} `{E : Rest V} {mode : Mode} `{EOk : !RestOk V}.
#[local] Abbreviation M := (M V).
#[local] Abbreviation server := (server V).
Implicit Types (s : server) (i j : cid) (c : client) (d : nat) (k : key) (wk : watchedKey).

(** A client that goes on watching a key, from [s1] on; keys are not evicted
    on the way unless [evict] says so. *)
Inductive keeps_watching (evict : bool) i wk s1 : server -> Prop :=
  | kw_start : watching s1 i wk -> keeps_watching evict i wk s1 s1
  | kw_step s s' : keeps_watching evict i wk s1 s -> (evict = false -> ~ evicts s) -> step s s' -> watching s' i wk -> keeps_watching evict i wk s1 s'.

(** A client whose transaction was given up. *)
Definition given_up c : client :=
  let c := set_replies c (replies c ++ [ReplySpec.CObj ((if has (flags c) REDIS_DIRTY_EXEC then Reply.execaborterr else Reply.nullmultibulk) shared)]) in
  set_watched (set_mstate (set_cflags c (Z.land (flags c) (Z.lnot (Z.lor (Z.lor REDIS_MULTI REDIS_DIRTY_CAS) REDIS_DIRTY_EXEC)))) []) [].

Lemma keeps_inv evict i wk s1 s : inv s1 -> keeps_watching evict i wk s1 s -> inv s.
Proof. intros H1. induction 1 as [|s s' _ IH _ (ev & Hev & Er)]; [done|]. destruct (event_spec ev s IH Hev) as (s2 & Er2 & HI & _). congruence. Qed.
Lemma keeps_watches evict i wk s1 s : keeps_watching evict i wk s1 s -> watching s i wk.
Proof. by destruct 1. Qed.

(** Without the mark at the end, there was none at the start, and the value is
    the same, or the key expired or was evicted. *)
Lemma kept_value evict i wk s1 s c : may_move = false -> inv s1 -> keeps_watching evict i wk s1 s -> store s !! i = Some c -> cas c = false ->
  (exists c1, store s1 !! i = Some c1 /\ cas c1 = false) /\
  (value_kept s1 s wk \/ lookup s wk = None /\ (mortal s1 wk \/ evict = true)).
Proof.
  intros Hm H1 Hk. revert c. induction Hk as [Hw|s s' Hk IH Hev (ev & Hok & Er) (c' & Hc' & Hw')]; intros c Hc Hcas.
  { split; [by exists c|]. by left. }
  pose proof (keeps_inv _ _ _ _ _ H1 Hk) as HI. destruct (keeps_watches _ _ _ _ _ Hk) as (c0 & Hc0 & Hw0).
  destruct (event_spec ev s HI Hok) as (s2 & Er2 & _ & Hcalm). rewrite Er in Er2. injection Er2 as <-.
  assert (c = c') as -> by congruence. destruct (Hcalm i wk c0 c' Hc0 Hc' Hw0 Hw' Hcas) as [|[Hcas0 Hv]]; [congruence|].
  destruct (IH c0 Hc0 Hcas0) as [Hs1 Hv1]. split; [done|].
  assert (evicts s -> evict = true) as He by (intros He; destruct evict; [done|by destruct (Hev eq_refl)]).
  destruct Hv1 as [[L1 M1]|[L1 M1]], Hv as [[L2 M2]|[L2 M2]]; [left; split; [congruence|auto]|right; split; [done|]; destruct M2; auto|right; split; [congruence|done]|right; by split].
Qed.

(** [EXEC] of a transaction with a mark. *)
Lemma gives_up i s c : inv s -> store s !! i = Some c -> has (flags c) REDIS_MULTI = true -> has (flags c) (Z.lor REDIS_DIRTY_CAS REDIS_DIRTY_EXEC) = true ->
  exists s', execCommand (call 1) i s = Some (tt, s') /\ same_rest s s' /\ store s' = <[i := given_up c]> (store s) /\ inv s'.
Proof.
  intros HI Hc Hm Hd. set (c1 := set_mstate (set_cflags (set_replies c (replies c ++ [ReplySpec.CObj ((if has (flags c) REDIS_DIRTY_EXEC then Reply.execaborterr else Reply.nullmultibulk) shared)]))
    (Z.land (flags c) (Z.lnot (Z.lor (Z.lor REDIS_MULTI REDIS_DIRTY_CAS) REDIS_DIRTY_EXEC)))) []).
  set (s1 := with_clients s (clients s) (<[i := c1]> (store s))).
  destruct (rel_client (Some i) (fun _ => False) s s i c c1) as [HI1 _]; [by apply rel_start|done|done|constructor|exact (inv_db _ HI i c Hc)|by left|]. fold s1 in HI1.
  destruct (unwatchAllKeys_spec s1 i c1 HI1) as (s' & Er & HI' & _ & Hs & Hst); [cbn; by rewrite lookup_insert_eq|]. exists s'. split; [|split; [exact Hs|split; [|done]]].
  - unfold execCommand, discardTransaction, addReply, add_reply, initClientMultiState, lower, update, get_client, set_client, mbind, M_bind. rewrite Hc, Hm, Hd. cbn [negb]. rewrite Hc. cbn [store with_clients].
    rewrite lookup_insert_eq. cbn [store with_clients]. rewrite lookup_insert_eq. cbn [store with_clients clients set_replies set_mstate set_cflags flags]. rewrite !insert_insert_eq. exact Er.
  - rewrite Hst. cbn. by rewrite insert_insert_eq.
Qed.

(** C2: in a state the server can reach by events that are [event_ok], from a
    start with a database at least and no master unless [may_be_slave], no
    further such event makes it fail an assertion, run into the undefined or
    read what is not there, and the tables of watched keys, the expiry of keys
    and the queues of commands stay consistent. [event_ok] leaves out: a time
    to live of [2^50] or more in absolute value (EXPIRE and its variants,
    SETEX, PSETEX, the options of SET), a KEYS pattern the matcher runs off,
    an offset of SETRANGE that wraps, an end of GETRANGE of [2^32] or more,
    DECRBY of the least long long, RANDOMKEY when the server may be a slave,
    MOVE unless [may_move]; and it asks that a client that connects is new and
    one that asks or ends is there. [getrange_overreads] and
    [stringmatchlen_defects] show two of the failures that are left out. *)
Theorem server_safe n x s ev : (0 < n)%nat -> (may_be_slave = false -> masterhost x = false) -> reachable (@initServer V n x) s -> event_ok s ev ->
  inv s /\ exists s', run_event ev s = Some (tt, s') /\ inv s'.
Proof.
  intros Hn Hx Hr Hev. assert (inv s) as HI by (eapply reach_inv; [by apply (initServer_inv n x)|done]). split; [done|].
  destruct (event_spec ev s HI Hev) as (s' & Er & HI' & _). by exists s'.
Qed.

(** C4: as long as keys are not moved between databases ([may_move]) and
    events are [event_ok], [EXEC] of a client that has gone on watching a key
    runs no command if at some moment since [s1] the key had another value, or
    was gone, having had a value without an expire in [s1], while keys were not
    evicted ([evict]):
    the reply is a null multi bulk (or the error of a refused command), the
    keys and what is propagated do not change, and the transaction is over. A
    key that is gone because it expired, or was evicted, does not count. *)
Theorem watch_aborts_exec evict i wk s1 s2 s c : may_move = false -> inv s1 -> keeps_watching evict i wk s1 s2 -> keeps_watching evict i wk s2 s ->
  lookup s2 wk <> lookup s1 wk -> lookup s2 wk <> None \/ ~ mortal s1 wk /\ evict = false ->
  store s !! i = Some c -> has (flags c) REDIS_MULTI = true ->
  exists s', execCommand (call 1) i s = Some (tt, s') /\ same_rest s s' /\ store s' = <[i := given_up c]> (store s) /\ inv s'.
Proof.
  intros Hmove H1 Hk1 Hk2 Hne Hn Hc Hm. pose proof (keeps_inv _ _ _ _ _ H1 Hk1) as HI2.
  apply gives_up; [by eapply keeps_inv|done|done|]. destruct (cas c) eqn:Ecas.
  - unfold cas, has in *. apply negb_true_iff, Z.eqb_neq. apply negb_true_iff, Z.eqb_neq in Ecas. rewrite Z.land_lor_distr_r. intros [? _]%Z.lor_eq_0_iff. done.
  - destruct (kept_value evict i wk s2 s c Hmove HI2 Hk2 Hc Ecas) as [(c2 & Hc2 & Hcas2) _].
    destruct (kept_value evict i wk s1 s2 c2 Hmove H1 Hk1 Hc2 Hcas2) as [_ [[Hv _]|[Hv Hr]]]; [done|]. destruct Hn as [|[Hn1 Hn2]]; [done|]. destruct Hr; [done|congruence].
Qed.

(** A transaction that is given up, because a watched key was touched or a
    command was refused, runs no command, says which, forgets its queue, its
    keys and its marks, and changes neither keys nor what is propagated. *)
Theorem exec_gives_up i s c : inv s -> store s !! i = Some c -> has (flags c) REDIS_MULTI = true -> has (flags c) (Z.lor REDIS_DIRTY_CAS REDIS_DIRTY_EXEC) = true ->
  exists s', execCommand (call 1) i s = Some (tt, s') /\ same_rest s s' /\ store s' = <[i := given_up c]> (store s) /\ inv s' /\ forall wk, ~ watching s' i wk.
Proof.
  intros HI Hc Hm Hd. destruct (gives_up i s c HI Hc Hm Hd) as (s' & Er & Hr & Hst & HI'). exists s'. split_and!; [done|apply Hr..|done|done|].
  intros wk (c' & Hc' & Hin). rewrite Hst, lookup_insert_eq in Hc'. injection Hc' as <-. by apply elem_of_nil in Hin.
Qed.

(** *** The feeds *)

(** C8: when a transaction with a command that is not read only is run, its
    commands are run one after the other, each as it was queued
    ([runs_queue]); the append only file and the slaves get [MULTI] right
    before the first command that is not read only, what the call of each
    command feeds, in their order ([block_feeds]), which ends with the command
    itself if it changed something ([fed_itself]); and [EXEC] last, unless the
    counter of changes ends where it began. *)
Theorem exec_fed_as_block i s c (x : redisCommand) : inv s -> store s !! i = Some c -> cmd c = Some x -> proc x = ExecCommand ->
  has (flags c) REDIS_MULTI = true -> has (flags c) (Z.lor REDIS_DIRTY_CAS REDIS_DIRTY_EXEC) = false -> existsb writes (mstate c) = true ->
  exists s' c' rs t, call 2 i REDIS_CALL_FULL s = Some (tt, s') /\ store s' !! i = Some c' /\
    runs_queue i s (mstate c) rs t /\ Forall (fed_itself i) rs /\ data_of (dbs s') = data_of (dbs t) /\ dirty s' = dirty t + 1 /\
    forall g, feeding g s = true -> exists last, feeds g s' = feeds g s ++ block_feeds g i false (mstate c) rs ++ last /\
      (last = [] \/ last = [Feed (db c') (argv c)]) /\ (dirty s' <> dirty s -> last = [Feed (db c') (argv c)]).
Proof.
  intros HI Hc Hx Hp Hm Hd Hw. destruct (exec_feeds i s c HI Hc Hm Hd) as (s1 & c1 & rs & t & Er & Hc1 & Hcur & Hconf & Hrun & Hdata & Hdirty & Hg). rewrite Hw in Hdirty.
  injection Hcur as E1 E2. rewrite Hx in E2.
  destruct (call_after 1 i s c x s1 c1 x) as (s' & l1 & l2 & Ecall & -> & Hl & Hfed); [done|done|by rewrite Hp|done|done|]. rewrite E1 in *.
  eexists _, c1, rs, t. split; [exact Ecall|]. split; [done|]. split; [done|]. split; [by eapply runs_fed|]. split; [done|]. split; [done|]. intros g Hon.
  exists (match g with ToAof => l1 | ToSlaves => l2 end). split; [|split].
  - rewrite app_assoc, <-(Hg g Hon). by destruct g.
  - apply Hl. destruct g; auto.
  - cbn [dirty with_feeds]. intros Hne. specialize (Hfed Hne g). assert (feeding g s1 = true) as Hon1 by (destruct g; cbn [feeding] in *; by rewrite Hconf).
    specialize (Hfed Hon1). destruct g; cbn [feeds aof repl with_feeds] in Hfed; by apply app_inv_head in Hfed.
Qed.

(** *** Queueing *)

(** The refusals that do not mark the transaction. *)
Definition unmarked (r : ReplySpec.reply_call) : Prop :=
  r = ReplySpec.CObj (Reply.roslaveerr shared) \/ r = ReplySpec.CObj (Reply.loadingerr shared) \/
  r = ReplySpec.CError (text "only (P)SUBSCRIBE / (P)UNSUBSCRIBE / QUIT allowed in this context").
Definition queued_as (x : redisCommand) c c' : Prop :=
  flags c' = flags c /\ mstate c' = mstate c ++ [MultiCmd (argv c) (Some x)] /\ replies c' = replies c ++ [ReplySpec.CObj (Reply.queued shared)].
Definition refused_as c c' : Prop :=
  mstate c' = mstate c /\ exists r, replies c' = replies c ++ [r] /\ (flags c' = Z.lor (flags c) REDIS_DIRTY_EXEC \/ flags c' = flags c /\ unmarked r).

Section Queue.
Context (i : cid) s c (x : redisCommand) (Hm : has (flags c) REDIS_MULTI = true).
#[local] Abbreviation put_client c' := (with_clients s (clients s) (<[i := c']> (store s))).

(** The command ends with the client changed in this way. *)
Definition waits (m : M bool) s1 : Prop :=
  exists c', m s1 = Some (true, put_client c') /\ watched c' = watched c /\ db c' = db c /\ (queued_as x c c' \/ refused_as c c').
#[local] Abbreviation c1 := (set_command c (argv c) (Some x)).

Lemma update_put c' f : update i f (put_client c') = Some (tt, put_client (f c')).
Proof. unfold update, get_client, set_client, mbind, M_bind. cbn [store with_clients]. rewrite lookup_insert_eq. unfold with_clients. cbn. by rewrite insert_insert_eq. Qed.

Lemma refuse_waits r : waits (refuse i (add_reply i r)) (put_client c1).
Proof.
  unfold waits, refuse, flagTransaction. unfold mbind, M_bind, get_client. cbn [store with_clients]. rewrite lookup_insert_eq. cbn [flags set_command]. rewrite Hm.
  unfold raise, add_reply. rewrite !update_put. eexists. split; [done|]. split; [done|]. split; [done|]. right. split; [done|]. eexists. by split; [|left].
Qed.
Lemma refuse_only_waits r : unmarked r -> waits (refuse_only (add_reply i r)) (put_client c1).
Proof.
  intros Hr. unfold waits, refuse_only, mbind, M_bind, add_reply. rewrite update_put. eexists. split; [done|]. split; [done|]. split; [done|]. right. split; [done|]. eexists. by split; [|right].
Qed.
Lemma queue_waits : queueable (proc x) -> waits (exec_or_queue i x) (put_client c1).
Proof.
  intros (H1 & H2 & H3 & H4). unfold waits, exec_or_queue. unfold mbind, M_bind, get_client. cbn [store with_clients]. rewrite lookup_insert_eq. cbn [flags set_command].
  rewrite Hm, !bool_decide_eq_false_2 by done. cbn [andb negb]. unfold queueMultiCommand, addReply, add_reply. rewrite !update_put.
  eexists. split; [done|]. split; [done|]. split; [done|]. by left.
Qed.

(** What follows the freeing of memory. *)
Lemma rest_waits s0 (ok : bool) : queueable (proc x) -> waits
  (if has (cmd_flags x) REDIS_CMD_DENYOOM && negb ok then refuse i (addReply i Reply.oomerr)
   else if stop_writes_on_bgsave_err (conf s0) && (0 <? saveparamslen (conf s0)) && lastbgsave_err (conf s0) && has (cmd_flags x) REDIS_CMD_WRITE then
     refuse i (addReply i Reply.bgsaveerr)
   else if masterhost (conf s0) && repl_slave_ro (conf s0) && negb (has (flags c1) REDIS_MASTER) && has (cmd_flags x) REDIS_CMD_WRITE then
     refuse_only (addReply i Reply.roslaveerr)
   else if (0 <? subscriptions c1) && negb (isSubscribeCommand (proc x)) then
     refuse_only (addReplyError i (text "only (P)SUBSCRIBE / (P)UNSUBSCRIBE / QUIT allowed in this context"))
   else if masterhost (conf s0) && negb (repl_connected (conf s0)) && negb (repl_serve_stale_data (conf s0)) && negb (has (cmd_flags x) REDIS_CMD_STALE) then
     refuse i (addReply i Reply.masterdownerr)
   else if loading (conf s0) && negb (has (cmd_flags x) REDIS_CMD_LOADING) then
     refuse_only (addReply i Reply.loadingerr)
   else if lua_timedout (conf s0) && negb (slow_script_allows x (argv c1)) then
     refuse i (addReply i Reply.slowscripterr)
   else exec_or_queue i x) (put_client c1).
Proof.
  intros Hq. destruct (_ && negb ok); [apply refuse_waits|]. destruct (stop_writes_on_bgsave_err _ && _ && _ && _); [apply refuse_waits|].
  destruct (masterhost _ && _ && _ && _); [apply refuse_only_waits; by left|]. destruct (_ && negb (isSubscribeCommand _)); [apply refuse_only_waits; by right; right|].
  destruct (masterhost _ && _ && _ && _); [apply refuse_waits|]. destruct (loading _ && _); [apply refuse_only_waits; by right; left|].
  destruct (lua_timedout _ && _); [apply refuse_waits|]. by apply queue_waits.
Qed.
End Queue.

(** Memory has been freed, if it is limited; what [freeMemoryIfNeeded] does is
    [eviction_ends]. *)
Definition freed s s1 : Prop := s1 = s \/ evicts s /\ exists b, freeMemoryIfNeeded s = Some (b, s1).

Lemma free_memory_freed s : inv s -> exists b s1, free_memory s = Some (b, s1) /\ freed s s1 /\ clients s1 = clients s /\ store s1 = store s.
Proof.
  intros HI. unfold free_memory, get, mbind, M_bind. destruct (Z.eqb_spec (maxmemory (conf s)) 0) as [|Hmax]; [exists true, s; split; [done|]; split; [by left|done]|].
  destruct (free_spec None (fun _ => False) s s (or_introl Hmax) s (conj (rel_start None (fun _ => False) s HI) eq_refl)) as (b & s1 & Er & _ & [_ Hch] & _ & Hst).
  exists b, s1. split; [done|]. split; [right; split; [done|by exists b]|]. split; [apply Hch|done].
Qed.

(** C16: the command of a client in a transaction does not run, whatever it is
    but [EXEC], [DISCARD], [MULTI], [WATCH] and [QUIT], and when its name is in
    the table: with its arguments it is added to the queue and answered so, or
    it is refused with one error and the transaction is marked, except by the
    refusals of a read only slave, of a server that is loading and of a client
    with subscriptions. Nothing else changes, but that memory may be freed
    before, when it is limited ([freed]): keys may then be evicted, and their
    [DEL] fed. *)
Theorem transaction_queues i s c n (x : redisCommand) : inv s -> store s !! i = Some c -> argv c !! 0%nat = Some n -> strcaseeq n (text "quit") = false -> lookupCommand n = Some x ->
  queueable (proc x) -> has (flags c) REDIS_MULTI = true ->
  exists s1 c', freed (with_clients s (clients s) (<[i := set_command c (argv c) (Some x)]> (store s))) s1 /\
    processCommand i s = Some (true, with_clients s1 (clients s) (<[i := c']> (store s))) /\ watched c' = watched c /\ db c' = db c /\
    (queued_as x c c' \/ refused_as c c').
Proof.
  intros HI Hc Hn Hquit Hx Hq Hm. unfold processCommand, arg. unfold mbind at 1, M_bind at 1, mbind at 1, M_bind at 1, get_client at 1. rewrite Hc, Hn. cbn [opt mret M_ret].
  rewrite Hquit. cbv zeta. unfold mbind at 1, M_bind at 1, update, mbind at 1, M_bind at 1, get_client at 1. rewrite Hc. unfold set_client. rewrite Hx.
  set (c1 := set_command c (argv c) (Some x)). set (sx := with_clients s (clients s) (<[i := c1]> (store s))).
  assert (inv sx) as HIx by (apply (pre_set i s s c); try done; [by eapply pre_start|exact (inv_queue _ HI i c Hc)]).
  assert (forall m, waits i s c x m sx -> exists s1 c', freed sx s1 /\ m sx = Some (true, with_clients s1 (clients s) (<[i := c']> (store s))) /\ watched c' = watched c /\ db c' = db c /\
    (queued_as x c c' \/ refused_as c c')) as Hdone by (intros m (c' & Em & H); exists sx, c'; split; [by left|by split]).
  unfold check_command. unfold mbind at 1, M_bind, get_client. cbn [sx store with_clients]. rewrite lookup_insert_eq. fold sx. cbv zeta.
  destruct (_ || _); [by apply Hdone, refuse_waits|]. unfold mbind at 1, get. destruct (requirepass _ && _ && _); [by apply Hdone, refuse_waits|].
  destruct (free_memory_freed sx HIx) as (ok & s1 & Ef & Hf & Ec & Es). unfold mbind. rewrite Ef.
  assert (with_clients s1 (clients s1) (<[i := c1]> (store s1)) = s1) as Eput by (rewrite Es; cbn [sx store with_clients]; rewrite insert_insert_eq; change (<[i:=c1]> (store s)) with (store sx); rewrite <-Es; by destruct s1).
  destruct (rest_waits i s1 c x Hm sx ok Hq) as (c' & Em & H). fold c1 in Em. rewrite Eput in Em. exists s1, c'. split; [done|]. split; [|done].
  refine (eq_trans Em _). rewrite Ec, Es. cbn [sx clients store with_clients]. by rewrite insert_insert_eq.
Qed.
End Multi.

(** ** Runs of the small instance *)

(** The key is watched, and nothing is evicted, from an event to the next. *)
Definition watched_stillb i wk (s : demo_server) : bool := watchingb s i wk && (maxmemory (conf s) =? 0).
Lemma kept_after i wk evs s1 s : keeps_watching false i wk s1 s -> ~ evicts s -> eventsb (watched_stillb i wk) evs s = true -> keeps_watching false i wk s1 (after s evs).
Proof.
  revert s. induction evs as [|ev evs IH]; intros s Hs He H; [done|]. apply eventsb_cons in H as (s' & Hstep & Hw & H & ->).
  apply andb_true_iff in Hw as [Hw Hmax%Z.eqb_eq]. apply IH; [|unfold evicts; lia|done]. eapply kw_step; [done|done|done|by apply watchingb_ok].
Qed.
(** A client watches a key, begins a transaction and queues commands; another
    one writes the key. *)
Definition watch_events : list event :=
  [EConnect 1; EConnect 2; ECommand 2 [text "set"; text "k"; text "v"]; ECommand 1 [text "WATCH"; text "k"]].
Definition queue_events : list event :=
  [ECommand 1 [text "MULTI"]; ECommand 1 [text "get"; text "k"]; ECommand 1 [text "set"; text "k"; text "x"]; ECommand 1 [text "del"; text "k"]].
Definition touch_events : list event := [ECommand 2 [text "set"; text "k"; text "w"]].
Definition exec_event : event := ECommand 1 [text "EXEC"].

Lemma server_safe_witness : let s := after demo_start (watch_events ++ queue_events) in
  inv s /\ exists s', run_event exec_event s = Some (tt, s') /\ inv s'.
Proof.
  intros s. apply (server_safe 16 demo_conf s exec_event); [lia|intros _; reflexivity|apply demo_reachable; vm_compute; reflexivity|apply event_okb_ok; vm_compute; reflexivity].
Defined.

Definition watched_k : watchedKey := WatchedKey (text "k") 0.

Definition rewrite_events : list event := [ECommand 2 [text "set"; text "k"; text "v"]].
(** The key, which had no expire, is deleted by another client, and written
    back. *)
Definition delete_events : list event := [ECommand 2 [text "del"; text "k"]].
Lemma watch_aborts_exec_witness : let s1 := after demo_start watch_events in let s2 := after s1 (queue_events ++ delete_events) in let s := after s2 rewrite_events in
  exists s', execCommand (call 1) 1 s = Some (tt, s') /\ same_rest s s' /\ store s' = <[1%positive := given_up (client_1 s)]> (store s) /\ inv s'.
Proof.
  intros s1 s2 s. apply (watch_aborts_exec false 1 watched_k s1 s2 s (client_1 s)).
  - reflexivity.
  - apply demo_inv. vm_compute. reflexivity.
  - apply kept_after; [apply kw_start, watchingb_ok; vm_compute; reflexivity|intros H; apply H; vm_compute; reflexivity|vm_compute; reflexivity].
  - apply kept_after; [apply kw_start, watchingb_ok; vm_compute; reflexivity|intros H; apply H; vm_compute; reflexivity|vm_compute; reflexivity].
  - vm_compute. discriminate.
  - right. split; [|reflexivity]. intros [t Ht]. vm_compute in Ht. discriminate Ht.
  - vm_compute. reflexivity.
  - vm_compute. reflexivity.
Defined.

Lemma exec_gives_up_witness : let s := after demo_start (watch_events ++ queue_events ++ touch_events) in
  exists s', execCommand (call 1) 1 s = Some (tt, s') /\ same_rest s s' /\ store s' = <[1%positive := given_up (client_1 s)]> (store s) /\ inv s' /\ forall wk, ~ watching s' 1 wk.
Proof.
  intros s. apply (exec_gives_up 1 s (client_1 s)); [apply demo_inv; vm_compute; reflexivity|vm_compute; reflexivity|vm_compute; reflexivity|vm_compute; reflexivity].
Defined.

Definition exec_cmd : redisCommand := default (RedisCommand [] ExecCommand 0 0) (lookupCommand (text "exec")).

Lemma exec_fed_as_block_witness : let s := asking (after demo_start (watch_events ++ queue_events)) [text "exec"] in let c := client_1 s in
  exists s' c' rs t, call 2 1 REDIS_CALL_FULL s = Some (tt, s') /\ store s' !! 1%positive = Some c' /\
    runs_queue 1 s (mstate c) rs t /\ Forall (fed_itself 1) rs /\ data_of (dbs s') = data_of (dbs t) /\ dirty s' = dirty t + 1 /\
    forall g, feeding g s = true -> exists last, feeds g s' = feeds g s ++ block_feeds g 1 false (mstate c) rs ++ last /\
      (last = [] \/ last = [Feed (db c') (argv c)]) /\ (dirty s' <> dirty s -> last = [Feed (db c') (argv c)]).
Proof.
  intros s c. apply (exec_fed_as_block 1 s c exec_cmd); [|vm_compute; reflexivity..].
  apply asking_inv; [apply demo_inv; vm_compute; reflexivity|vm_compute; reflexivity].
Defined.
(** What is fed there: [GET] is before [MULTI] and is not fed. *)
Lemma transaction_fed : let s := after demo_start (watch_events ++ queue_events) in
  aof (after s [exec_event]) = aof s ++ [Feed 0 [text "MULTI"]; Feed 0 [text "set"; text "k"; text "x"]; Feed 0 [text "del"; text "k"]; Feed 0 [text "EXEC"]].
Proof. vm_compute. reflexivity. Qed.

(** Memory is limited to what one key takes, and there are two with an expire:
    one of them is evicted before the command is queued. *)
Definition limited_conf : config := Config false 150 false 0 false false false true true false false true true REDIS_MAXMEMORY_VOLATILE_LRU 3 [] 0.
Definition volatile_events : list event :=
  [EConnect 1; ECommand 1 [text "setex"; text "a"; text "1000"; text "v"]; ECommand 1 [text "setex"; text "b"; text "1000"; text "v"]; ECommand 1 [text "MULTI"]; EConfig limited_conf].
Lemma transaction_queues_witness : let s := asking (after demo_start volatile_events) [text "get"; text "a"] in
  let c := client_1 s in
  let x := default exec_cmd (lookupCommand (text "get")) in
  exists s1 c', freed (with_clients s (clients s) (<[1%positive := set_command c (argv c) (Some x)]> (store s))) s1 /\
    processCommand 1 s = Some (true, with_clients s1 (clients s) (<[1%positive := c']> (store s))) /\ watched c' = watched c /\ db c' = db c /\
    (queued_as x c c' \/ refused_as c c').
Proof.
  intros s c x. apply (transaction_queues 1 s c (text "get") x); [|vm_compute; reflexivity..| |vm_compute; reflexivity].
  - apply asking_inv; [apply demo_inv; vm_compute; reflexivity|vm_compute; reflexivity].
  - repeat split; vm_compute; discriminate.
Defined.
Lemma queueing_evicts : let s0 := after demo_start volatile_events in let s := after s0 [ECommand 1 [text "get"; text "a"]] in
  (size (dict (default (RedisDb ∅ ∅ ∅) (dbs s0 !! 0%nat))), size (dict (default (RedisDb ∅ ∅ ∅) (dbs s !! 0%nat)))) = (2%nat, 1%nat) /\
  length (aof s) = S (length (aof s0)) /\ length (mstate (client_1 s)) = 1%nat.
Proof. vm_compute. split_and!; reflexivity. Qed.

(** [SAVE] in a transaction: the counter was one before [EXEC], [SET] makes it
    two, [SAVE] zero, the end of [EXEC] one again; [SAVE] itself is fed, and
    [MULTI] was, and [EXEC] is not. *)
Lemma save_leaves_block_open :
  let evs := [EConnect 1; ECommand 1 [text "set"; text "a"; text "b"]; ECommand 1 [text "multi"]; ECommand 1 [text "set"; text "k"; text "v"]; ECommand 1 [text "save"]; ECommand 1 [text "exec"]] in
  aof (after demo_start evs) = [Feed 0 [text "set"; text "a"; text "b"]; Feed 0 [text "MULTI"]; Feed 0 [text "set"; text "k"; text "v"]; Feed 0 [text "save"]].
Proof. vm_compute. reflexivity. Qed.
