(* ===== verification/StringTheorems.v ===== *)
(** StringTheorems: what the commands on strings and bits do to the values and
    what they answer. *)
From Stdlib Require Strings.String.
From S2P Require Import Prelude Endian Util UtilNum UtilSpec Sds Objects ObjectsSpec Server Db Evict Strings Bitops BitopsProofs CommandTable Multi ServerProofs KeyProofs CommandProofs StringProofs MultiProofs EventProofs ServerDemo KeyTheorems.
From S2P Require Reply ReplySpec Request.
Import (notations) Corelib.Init.Byte.
Import (notations) Strings.String.

(** ** Encoded arguments *)

(** What is stored for an argument has its content. *)
Lemma tryEncoding_bytes a x : tryEncoding a = Some x -> string_bytes x = a /\ string_wf x.
Proof.
  unfold tryEncoding. destruct (string2ll_spec a [z2b 0]) as (r & Er & Hr). unfold string2l. rewrite Er. cbn [option_bind mbind]. destruct r as [v|].
  - destruct (_ || _); [by intros [= <-]|]. cbn [option_bind mbind]. intros [= <-]. pose proof (proj1 (Hr v) eq_refl) as H0. apply numeral_print in H0 as [Hv Ha]. unfold int64 in Hv. rewrite s64_small by lia. cbn. unfold int64. split; [done|lia].
  - by intros [= <-].
Qed.

Section Strings.
Context {V : Type} `{E : Rest V} {mode : Mode} `{EOk : !RestOk V}.
#[local] Abbreviation M := (M V).
#[local] Abbreviation server := (server V).
Implicit Types (s : server) (i j : cid) (c : client) (d : nat) (k : key) (x : redisDb V) (y : string_value).

(** ** Runs *)

Lemma bind_run {A B} (m : M A) (f : A -> M B) s a s' : m s = Some (a, s') -> (m ≫= f) s = f a s'.
Proof. intros H. unfold mbind, M_bind. by rewrite H. Qed.
Lemma opt_run {A B} (o : option A) (f : A -> M B) s a : o = Some a -> (opt o ≫= f) s = f a s.
Proof. intros ->. done. Qed.

(** The database after the look up of a key. *)
Definition looked x (now : Z) k : redisDb V := if expired x now k then without x k else x.
Lemma looked_live x now k : dict (looked x now k) !! k = live x now k.
Proof. unfold looked, live. destruct (expired x now k); [apply lookup_delete_eq|done]. Qed.
Lemma live_looked x now k : dict x !! k = None -> live x now k = None.
Proof. unfold live. by destruct (expired x now k). Qed.

Definition put_db s d x : list (redisDb V) := <[d := x]> (dbs s).
Lemma look_up s d x k : dbs s !! d = Some x -> db_ok x -> serving s ->
  exists s1, lookupKeyWrite d k s = Some (live x (clock (ticks s)) k, s1) /\ dbs s1 = <[d := looked x (clock (ticks s)) k]> (dbs s) /\
    store s1 = store s /\ dirty s1 = dirty s /\ conf s1 = conf s.
Proof.
  intros Hx Hok Hs. destruct (lookup_run s d x k Hx Hok Hs) as (s1 & L & _ & S1 & N1 & C1 & _ & H). exists s1. unfold looked. split; [done|].
  destruct (expired _ _ _); destruct H as (H & _); split_and!; try done. rewrite H. by rewrite list_insert_id.
Qed.

(** What signals leave: everything but the flags of the clients. *)
Definition kept c c' : Prop := db c' = db c /\ argv c' = argv c /\ replies c' = replies c.
Record quiet_step s s' : Prop := {
  qs_dbs : dbs s' = dbs s; qs_dirty : dirty s' = dirty s; qs_conf : conf s' = conf s; qs_ticks : ticks s' = ticks s;
  qs_store : forall j c, store s !! j = Some c -> exists c', store s' !! j = Some c' /\ kept c c' }.
Definition Quiet {A} (m : M A) : Prop := forall s a s', m s = Some (a, s') -> quiet_step s s'.
Lemma quiet_refl s : quiet_step s s. Proof. constructor; try done. intros j c Hc. by exists c. Qed.
Lemma quiet_ret {A} (a : A) : Quiet (mret a). Proof. intros s b s' [= <- <-]. apply quiet_refl. Qed.
Lemma quiet_bind {A B} (m : M A) (f : A -> M B) : Quiet m -> (forall a, Quiet (f a)) -> Quiet (m ≫= f).
Proof.
  intros Hm Hf s b s' H. unfold mbind, M_bind in H. destruct (m s) as [[a s1]|] eqn:Es; [|done]. apply Hm in Es as [D1 N1 C1 T1 S1]. apply Hf in H as [D2 N2 C2 T2 S2].
  constructor; try congruence. intros j c Hc. destruct (S1 j c Hc) as (c1 & H1 & K1 & K2 & K3). destruct (S2 j c1 H1) as (c2 & H2 & K4 & K5 & K6). exists c2. split; [done|]. repeat split; congruence.
Qed.
Lemma quiet_raise i m : Quiet (@raise V i m).
Proof.
  intros s a s'. unfold raise, update, get_client, set_client, mbind, M_bind. destruct (store s !! i) as [c|] eqn:Hc; [|done]. intros [= <- <-]. constructor; try done. intros j c' Hc'. cbn.
  destruct (decide (j = i)) as [->|Hne]; [rewrite lookup_insert_eq; eexists; split; [done|]; by replace c' with c by congruence|rewrite lookup_insert_ne by done; by exists c'].
Qed.
Lemma quiet_each {A} (f : A -> M unit) l : (forall a, Quiet (f a)) -> Quiet (each f l).
Proof. intros Hf. induction l as [|a l IH]; [apply quiet_ret|]. by apply quiet_bind. Qed.
Lemma quiet_signal d k : Quiet (@signalModifiedKey V d k).
Proof.
  unfold signalModifiedKey, touchWatchedKey. apply quiet_bind.
  - intros s a s'. unfold get_db. destruct (dbs s !! d); [|done]. intros [= <- <-]. apply quiet_refl.
  - intros x. destruct (_ =? _)%nat; [apply quiet_ret|]. destruct (_ !! k); [|apply quiet_ret]. apply quiet_each. intros j. apply quiet_raise.
Qed.

(** The end of a command that changed a key: it is signalled, counted and
    answered. *)
Fixpoint answers i (rs : list reply) : M unit := match rs with [] => mret tt | [r] => add_reply i r | r :: rs => add_reply i r ;; answers i rs end.
Definition answered s' i c (rs : list reply) : Prop :=
  exists c', store s' !! i = Some c' /\ replies c' = replies c ++ rs /\ db c' = db c /\ argv c' = argv c.

Lemma answers_run i rs : forall s c s' a, store s !! i = Some c -> answers i rs s = Some (a, s') ->
  dbs s' = dbs s /\ dirty s' = dirty s /\ conf s' = conf s /\ ticks s' = ticks s /\ answered s' i c rs.
Proof.
  induction rs as [|r rs IH]; intros s c s' a Hc H.
  - injection H as _ <-. split_and!; try done. exists c. by rewrite app_nil_r.
  - assert ((add_reply i r ;; answers i rs) s = Some (a, s')) as H1.
    { destruct rs as [|r' rs]; [|exact H]. cbn [answers] in *. rewrite (bind_run _ _ _ _ _ (reply_run s i c r Hc)). rewrite (reply_run s i c r Hc) in H. destruct a. exact H. }
    rewrite (bind_run _ _ _ _ _ (reply_run s i c r Hc)) in H1. apply (IH _ (set_replies c (replies c ++ [r]))) in H1 as (D & N & C & T & c' & Hc' & Hr & Hd & Ha); [|cbn; apply lookup_insert_eq].
    split_and!; try done. exists c'. split; [done|]. cbn [replies set_replies] in Hr. by rewrite Hr, <-app_assoc.
Qed.
Lemma closing_run i c d k n rs s s' a : store s !! i = Some c -> (signalModifiedKey d k ;; add_dirty n ;; answers i rs) s = Some (a, s') ->
  dbs s' = dbs s /\ dirty s' = dirty s + n /\ conf s' = conf s /\ ticks s' = ticks s /\ answered s' i c rs.
Proof.
  intros Hc H. unfold mbind at 1, M_bind at 1 in H. destruct (signalModifiedKey d k s) as [[u s1]|] eqn:Es; [|done]. apply quiet_signal in Es as [D1 N1 C1 T1 S1].
  destruct (S1 i c Hc) as (c1 & Hc1 & K1 & K2 & K3). unfold mbind, M_bind, add_dirty in H. destruct (answers_run i rs (with_dirty s1 (dirty s1 + n)) c1 _ _ Hc1 H) as (D & N & C & T & c' & Hc' & Hr & Hd & Ha).
  cbn in D, N, C, T. split; [congruence|]. split; [rewrite N; cbn; lia|]. split; [congruence|]. split; [congruence|]. exists c'. split; [done|]. split; [congruence|]. split; congruence.
Qed.

(** ** Arguments and values *)

Definition stored x k (o : V) : redisDb V := RedisDb (<[k := o]> (dict x)) (expires x) (watched_keys x).

Lemma number_of_run s i (o : option robj) v msg : getLongLongFromObject o = Some (Some v) -> longLongOrReply i o msg s = Some (Some v, s).
Proof. intros H. unfold longLongOrReply. by rewrite H. Qed.
Lemma number_run s i (k : key) v msg : getLongLongFromObject (Some (arg_object k)) = Some (Some v) -> getLongLongFromObjectOrReply i k msg s = Some (Some v, s).
Proof. apply number_of_run. Qed.
Lemma long_run s i (k : key) v msg : getLongLongFromObject (Some (arg_object k)) = Some (Some v) -> getLongFromObjectOrReply i k msg s = Some (Some v, s).
Proof.
  intros H. unfold getLongFromObjectOrReply. rewrite (bind_run _ _ _ _ _ (number_run s i k v msg H)). apply raw_number in H. unfold int64 in H.
  assert ((v <? - 2 ^ 63) || (2 ^ 63 - 1 <? v) = false) as -> by (apply orb_false_iff; rewrite !Z.ltb_ge; lia). done.
Qed.
Lemma type_run s i (o : V) y : as_string o = Some y -> checkType i o REDIS_STRING s = Some (false, s).
Proof. intros H. unfold checkType. assert (value_type o = REDIS_STRING) as -> by (apply string_type; by eexists). done. Qed.
Lemma there o y : as_string o = Some y -> negb (value_type o =? REDIS_STRING) = false.
Proof. intros H. assert (value_type o = REDIS_STRING) as -> by (apply string_type; by eexists). done. Qed.

Lemma get_db_run s d x : dbs s !! d = Some x -> get_db d s = Some (x, s).
Proof. intros H. unfold get_db. by rewrite H. Qed.
Lemma add_run s d x k (o : V) : dbs s !! d = Some x -> dict x !! k = None -> dbAdd d k o s = Some (tt, with_dbs s (<[d := stored x k o]> (dbs s))).
Proof. intros Hx Hk. unfold dbAdd. rewrite (bind_run _ _ _ _ _ (get_db_run s d x Hx)). rewrite bool_decide_eq_true_2 by done. unfold mbind, M_bind. cbn [check mret M_ret]. by rewrite (set_dict_run _ _ _ _ Hx). Qed.
Lemma over_run s d x k (o u : V) : dbs s !! d = Some x -> dict x !! k = Some u -> dbOverwrite d k o s = Some (tt, with_dbs s (<[d := stored x k o]> (dbs s))).
Proof. intros Hx Hk. unfold dbOverwrite. rewrite (bind_run _ _ _ _ _ (get_db_run s d x Hx)). rewrite bool_decide_eq_true_2 by by eexists. unfold mbind, M_bind. cbn [check mret M_ret]. by rewrite (set_dict_run _ _ _ _ Hx). Qed.

(** A value that is there is copied if need be, and written. *)
Lemma unshare_run s d x k u y : dbs s !! d = Some x -> dict x !! k = Some u ->
  exists s1 x1, unshare d k y s = Some (string_bytes y, s1) /\ dbs s1 = <[d := x1]> (dbs s) /\ store s1 = store s /\ dirty s1 = dirty s /\ conf s1 = conf s /\ ticks s1 = ticks s /\
    forall o, stored x1 k o = stored x k o.
Proof.
  intros Hx Hk. unfold unshare. unfold mbind at 1, M_bind at 1, get. destruct (_ || _).
  - rewrite (bind_run _ _ _ _ _ (over_run s d x k _ u Hx Hk)). eexists _, _. split; [done|]. split_and!; try done. intros o. unfold stored. cbn. by rewrite insert_insert_eq.
  - exists s, x. split; [done|]. split_and!; try done. by rewrite list_insert_id.
Qed.
Lemma write_run s d x k bs : dbs s !! d = Some x -> write_string d k bs s = Some (tt, with_dbs s (<[d := stored x k (of_string (Raw bs))]> (dbs s))).
Proof. intros Hx. unfold write_string. by rewrite (set_dict_run _ _ _ _ Hx). Qed.

(** ** Counters *)

Lemma held_run s (o : option V) : (forall v, o = Some v -> is_Some (as_string v)) ->
  (match o with Some v => y ← opt (as_string v); mret (Some y) | None => mret None end) s = Some (o ≫= as_string, s).
Proof. intros H. destruct o as [v|]; [|done]. cbn [option_bind mbind]. destruct (H v eq_refl) as [y Hy]. rewrite (opt_run _ _ _ y) by done. by rewrite Hy. Qed.
Lemma held_int64 (o : option V) v : getLongLongFromObject (string_object <$> (o ≫= as_string)) = Some (Some v) -> int64 v.
Proof.
  destruct o as [u|]; cbn [option_bind mbind]; [|intros [= <-]; unfold int64; lia]. destruct (as_string u) as [[bs|n]|] eqn:Eu; cbn [fmap option_fmap option_map string_object].
  - apply raw_number.
  - intros [= <-]. by eapply string_int.
  - intros [= <-]. unfold int64. lia.
Qed.

(** C13: [INCR], [DECR] and the like add exactly: a key that holds the numeral
    of a number, or no key, gets the number that is the sum and the client is
    told it; a sum that is not a [long long] is refused, and then no key
    changes but an expired one that is deleted. *)
Theorem incr_exact s i c k x incr old : inv s -> serving s -> store s !! i = Some c -> argv c !! 1%nat = Some k -> dbs s !! db c = Some x -> int64 incr ->
  let now := clock (ticks s) in let o := live x now k in let x1 := looked x now k in
  (forall v, o = Some v -> is_Some (as_string v)) -> getLongLongFromObject (string_object <$> (o ≫= as_string)) = Some (Some old) ->
  exists s', incrDecrCommand i incr s = Some (tt, s') /\
    if (- 2 ^ 63 <=? old + incr) && (old + incr <? 2 ^ 63) then
      dbs s' = <[db c := stored x1 k (of_string (Int (old + incr)))]> (dbs s) /\ dirty s' = dirty s + 1 /\
      answered s' i c [ReplySpec.CObj (Reply.colon shared); ReplySpec.CString (print_int (old + incr)); ReplySpec.CObj (Reply.crlf shared)]
    else
      dbs s' = <[db c := x1]> (dbs s) /\ dirty s' = dirty s /\
      answered s' i c [ReplySpec.CError (text "increment or decrement would overflow")].
Proof.
  intros HI Hs Hc Hk Hx Hincr now o x1 Ho Hold. set (d := db c) in *. assert (d < length (dbs s))%nat as Hd by by eapply lookup_lt_Some. pose proof (inv_data _ HI _ _ Hx) as Hok.
  destruct (incrDecr_fine s i c HI Hc incr) with (s := s) as ([] & s' & Er & _); [by apply lookup_lt_Some in Hk|done|by repeat split|]. exists s'. split; [done|].
  unfold incrDecrCommand in Er. rewrite (bind_run _ _ _ _ _ (arg_run s i c 1 k Hc Hk)), (bind_run _ _ _ _ _ (db_run s i c Hc)) in Er. fold d in Er.
  destruct (look_up s d x k Hx Hok Hs) as (s1 & L1 & D1 & S1 & N1 & C1). fold now o x1 in L1, D1. rewrite (bind_run _ _ _ _ _ L1) in Er.
  assert (dbs s1 !! d = Some x1) as Hx1 by (rewrite D1; by apply list_lookup_insert_eq). assert (dict x1 !! k = o) as Hko by apply looked_live.
  assert ((match o with Some v => checkType i v REDIS_STRING | None => mret false end) s1 = Some (false, s1)) as T1.
  { destruct o as [v|]; [|done]. destruct (Ho v eq_refl) as [y Hy]. by apply (type_run s1 i v y). }
  rewrite (bind_run _ _ _ _ _ T1), (bind_run _ _ _ _ _ (held_run s1 o Ho)) in Er. 
  rewrite (bind_run _ _ _ _ _ (number_of_run s1 i _ old None Hold)) in Er.
  pose proof (held_int64 o old Hold) as H64. unfold int64, LLONG_MIN, LLONG_MAX in *. destruct ((- 2 ^ 63 <=? old + incr) && (old + incr <? 2 ^ 63)) eqn:Eb.
  - apply andb_true_iff in Eb as [B1%Z.leb_le B2%Z.ltb_lt].
    assert ((incr <? 0) && (old <? 0) && (incr <? - 2 ^ 63 - old) || (0 <? incr) && (0 <? old) && (2 ^ 63 - 1 - old <? incr) = false) as Eg.
    { rewrite orb_false_iff, !andb_false_iff, !Z.ltb_ge. lia. }
    rewrite Eg, chk64_ok in Er by lia. rewrite (opt_run _ _ _ (old + incr)) in Er by done. set (v := of_string (Int (old + incr))) in *.
    assert ((if o is None then dbAdd d k v else dbOverwrite d k v) s1 = Some (tt, with_dbs s1 (<[d := stored x1 k v]> (dbs s)))) as A1.
    { destruct o as [u|]; [rewrite (over_run s1 d x1 k v u)|rewrite (add_run s1 d x1 k v)]; try done; by rewrite D1, list_insert_insert_eq. }
    rewrite (bind_run _ _ _ _ _ A1) in Er.
    apply (closing_run i c d k 1 [ReplySpec.CObj (Reply.colon shared); ReplySpec.CString (print_int (old + incr)); ReplySpec.CObj (Reply.crlf shared)]) in Er as (E1 & E2 & _ & _ & E3); [|cbn; by rewrite S1].
    split; [done|]. split; [by rewrite E2; cbn; rewrite N1|exact E3].
  - assert ((incr <? 0) && (old <? 0) && (incr <? - 2 ^ 63 - old) || (0 <? incr) && (0 <? old) && (2 ^ 63 - 1 - old <? incr) = true) as Eg.
    { apply andb_false_iff in Eb. rewrite Z.leb_gt, Z.ltb_ge in Eb. rewrite orb_true_iff, !andb_true_iff, !Z.ltb_lt. lia. }
    rewrite Eg in Er. unfold addReplyError in Er. rewrite (reply_run s1 i c) in Er by by rewrite S1. injection Er as <-. cbn. split; [done|]. split; [done|].
    exists (set_replies c (replies c ++ [ReplySpec.CError (text "increment or decrement would overflow")])). split; [cbn; apply lookup_insert_eq|by split_and!].
Qed.

(** ** Setting and getting *)

Definition set_key x k (o : V) : redisDb V := RedisDb (<[k := o]> (dict x)) (delete k (expires x)) (watched_keys x).

Lemma setKey_run s d x k v a s' : dbs s !! d = Some x -> db_ok x -> serving s -> setKey d k v s = Some (a, s') ->
  dbs s' = <[d := set_key x k v]> (dbs s) /\ dirty s' = dirty s /\ conf s' = conf s /\ forall j c, store s !! j = Some c -> exists c', store s' !! j = Some c' /\ kept c c'.
Proof.
  intros Hx Hok Hs H. assert (d < length (dbs s))%nat as Hd by by eapply lookup_lt_Some. destruct (look_up s d x k Hx Hok Hs) as (s1 & L1 & D1 & S1 & N1 & C1).
  set (x1 := looked x (clock (ticks s)) k) in *. assert (dbs s1 !! d = Some x1) as Hx1 by (rewrite D1; by apply list_lookup_insert_eq). assert (dict x1 !! k = live x (clock (ticks s)) k) as Hk by apply looked_live.
  unfold setKey in H. rewrite (bind_run _ _ _ _ _ L1) in H. set (s2 := with_dbs s1 (<[d := stored x1 k v]> (dbs s))).
  assert ((if live x (clock (ticks s)) k is None then dbAdd d k v else dbOverwrite d k v) s1 = Some (tt, s2)) as A1.
  { destruct (live x _ k) as [u|]; [rewrite (over_run s1 d x1 k v u)|rewrite (add_run s1 d x1 k v)]; try done; unfold s2; by rewrite D1, list_insert_insert_eq. }
  rewrite (bind_run _ _ _ _ _ A1) in H. assert (dbs s2 !! d = Some (stored x1 k v)) as Hx2 by (cbn; by apply list_lookup_insert_eq).
  unfold removeExpire in H. unfold mbind at 1, M_bind at 1 in H. rewrite (bind_run _ _ _ _ _ (get_db_run s2 d _ Hx2)) in H. rewrite (bool_decide_eq_true_2 (is_Some (dict (stored x1 k v) !! k))) in H by (cbn [stored dict]; rewrite lookup_insert_eq; by eexists).
  cbn [check] in H. rewrite (bind_run (mret tt) _ s2 tt s2 eq_refl), (bind_run _ _ _ _ _ (set_expires_run s2 d _ _ Hx2)) in H. cbn [mret M_ret] in H.
  apply quiet_signal in H as [E1 E2 E3 _ E5]. cbn in E1, E2, E3, E5. rewrite S1 in E5. split; [|split; [congruence|]; split; [congruence|done]].
  rewrite E1, list_insert_insert_eq. f_equal. unfold set_key, x1, looked, without. destruct (expired _ _ _); cbn; f_equal; [by rewrite insert_delete_eq|by rewrite delete_delete_eq].
Qed.

(** C14: what is set is what is got: after [SET] of a key on a master the key
    has no time to live, the client is told [OK], and whoever then gets the
    key in the same database is sent the very bytes, whether they were stored
    as a number or not. *)
Theorem set_then_get i s c n k a x : inv s -> serving s -> store s !! i = Some c -> argv c = [n; k; a] -> dbs s !! db c = Some x ->
  exists s' y, setCommand i s = Some (tt, s') /\ string_bytes y = a /\ dbs s' = <[db c := set_key x k (of_string y)]> (dbs s) /\ dirty s' = dirty s + 1 /\
    answered s' i c [ReplySpec.CObj (Reply.ok shared)] /\
    forall j c', store s' !! j = Some c' -> db c' = db c -> argv c' !! 1%nat = Some k ->
      exists s2, getCommand j s' = Some (tt, s2) /\ dbs s2 = dbs s' /\ answered s2 j c' [ReplySpec.CBulkCBuffer a].
Proof.
  intros HI Hs Hc Ha Hx. set (d := db c) in *. assert (d < length (dbs s))%nat as Hd by by eapply lookup_lt_Some. pose proof (inv_data _ HI _ _ Hx) as Hok.
  destruct (set_fine s i c HI Hc) with (s := s) as ([] & s' & Er & HI' & _); [split; [rewrite Ha; cbn; lia|rewrite Ha; constructor]|by repeat split|].
  destruct (tryEncoding_total a) as [y Hy]. destruct (tryEncoding_bytes a y Hy) as [Hya Hwf]. exists s', y. split; [done|]. split; [done|].
  assert (argv c !! 1%nat = Some k /\ argv c !! 2%nat = Some a) as [Hk1 Hk2] by by rewrite Ha.
  unfold setCommand in Er. unfold mbind at 1, M_bind at 1, get_client in Er. rewrite Hc, Ha in Er. cbn [drop set_options] in Er.
  rewrite (bind_run _ _ _ _ _ (arg_run s i c 1 k Hc Hk1)), (bind_run _ _ _ _ _ (arg_run s i c 2 a Hc Hk2)) in Er. unfold encode in Er. rewrite Hy in Er.
  rewrite (bind_run _ _ s (of_string y) s eq_refl) in Er. unfold setGenericCommand in Er. cbn [setExpireTime] in Er.
  rewrite (bind_run _ _ s (Some 0) s eq_refl), (bind_run _ _ _ _ _ (db_run s i c Hc)) in Er. fold d in Er. 
  change (has REDIS_SET_NO_FLAGS REDIS_SET_NX) with false in Er. change (has REDIS_SET_NO_FLAGS REDIS_SET_XX) with false in Er. 
  cbv iota in Er. rewrite (bind_run (mret false) _ s false s eq_refl) in Er. cbn [negb andb] in Er. rewrite (bind_run (mret false) _ s false s eq_refl) in Er. cbn [orb] in Er. unfold mbind at 1, M_bind at 1 in Er. destruct (setKey d k (of_string y) s) as [[u s1]|] eqn:Es; [|done].
  apply (setKey_run s d x) in Es as (D1 & N1 & C1 & S1); [|done|done|done]. destruct (S1 i c Hc) as (c1 & Hc1 & K1 & K2 & K3).
  rewrite (bind_run _ _ s1 tt (with_dirty s1 (dirty s1 + 1)) eq_refl), (bind_run (mret tt) _ _ tt _ eq_refl) in Er.
  change (default Reply.ok None) with Reply.ok in Er. unfold addReply in Er. rewrite (reply_run _ i c1) in Er by done. injection Er as Es. assert (dbs s' = <[d := set_key x k (of_string y)]> (dbs s)) as D2 by by rewrite <-Es.
  split; [done|]. split; [by rewrite <-Es; cbn; rewrite N1|]. split.
  { exists (set_replies c1 (replies c1 ++ [ReplySpec.CObj (Reply.ok shared)])). split; [rewrite <-Es; cbn; apply lookup_insert_eq|]. cbn. split; [by rewrite K3|done]. }
  intros j c' Hc' Hd' Hk'. set (x2 := set_key x k (of_string y)) in *. assert (dbs s' !! d = Some x2) as Hx2 by (rewrite D2; by apply list_lookup_insert_eq).
  assert (serving s') as Hs' by (rewrite <-Es; unfold serving; cbn; by rewrite C1).
  assert (live x2 (clock (ticks s')) k = Some (of_string y)) as Hlive.
  { unfold live, expired. cbn [x2 set_key expires dict]. rewrite lookup_delete_eq. apply lookup_insert_eq. }
  destruct (lookup_some_run s' d x2 k _ Hx2 (inv_data _ HI' _ _ Hx2) Hs' Hlive) as (s2 & L2 & E2 & T2 & _).
  unfold getCommand, getGenericCommand. unfold mbind at 1, M_bind at 1. rewrite (bind_run _ _ _ _ _ (arg_run s' j c' 1 k Hc' Hk')). unfold lookupKeyReadOrReply. unfold mbind at 1, M_bind at 1.
  rewrite (bind_run _ _ _ _ _ (db_run s' j c' Hc')), Hd'. fold d. rewrite (bind_run _ _ _ _ _ L2), (bind_run (mret tt) _ s2 tt s2 eq_refl). cbn [mret M_ret].
  rewrite (there _ y), (opt_run _ _ _ y) by by apply string_ok. unfold addReplyBulk. assert (store s2 !! j = Some c') as Hc2 by by rewrite T2. rewrite (bind_run _ _ _ _ _ (reply_run s2 j c' _ Hc2)), Hya.
  eexists. split; [reflexivity|]. split; [exact E2|]. exists (set_replies c' (replies c' ++ [ReplySpec.CBulkCBuffer a])). split; [cbn; apply lookup_insert_eq|by split_and!].
Qed.

(** ** Bits *)

Definition held (o : option V) : list byte := default [] (string_bytes <$> (o ≫= as_string)).

Lemma offset_run s i (a : key) n : getLongLongFromObject (Some (arg_object a)) = Some (Some n) -> 0 <= n < 2 ^ 32 -> getBitOffsetFromArgument i a s = Some (Some n, s).
Proof.
  intros Ha Hn. unfold getBitOffsetFromArgument. cbv zeta. rewrite (bind_run _ _ _ _ _ (number_run s i a n _ Ha)). pose proof (byte_range n Hn) as Hb.
  rewrite (u64_small n) by lia. rewrite (proj2 (Z.ltb_ge n 0)), (proj2 (Z.leb_gt _ (Z.shiftr n 3))) by lia. done.
Qed.
Lemma set_bit_run s i c d x k bs n on bs' old a s' : store s !! i = Some c -> dbs s !! d = Some x -> put_bit bs n on = Some (bs', old) -> set_bit i d k bs n on s = Some (a, s') ->
  dbs s' = <[d := stored x k (of_string (Raw bs'))]> (dbs s) /\ dirty s' = dirty s + 1 /\ answered s' i c [ReplySpec.CObj ((if negb (old =? 0) then Reply.cone else Reply.czero) shared)].
Proof.
  intros Hc Hx Hp H. unfold set_bit in H. rewrite Hp in H. rewrite (bind_run _ _ s (bs', old) s eq_refl) in H. cbv beta iota in H. rewrite (bind_run _ _ _ _ _ (write_run s d x k bs' Hx)) in H.
  apply (closing_run i c d k 1 [ReplySpec.CObj ((if negb (old =? 0) then Reply.cone else Reply.czero) shared)]) in H as (E1 & E2 & _ & _ & E3); [|done]. by split_and!.
Qed.

(** C23: [SETBIT] sets one bit: with the bits of a string in the order of the
    offsets, the new value is the old one, with bits of 0 behind it as far as
    the byte of the offset, and the bit at the offset replaced; the reply is
    the old bit, 0 behind the end; a missing key counts as the empty string. *)
Theorem setbit_bits i s c k a b n on x : inv s -> serving s -> store s !! i = Some c -> argv c !! 1%nat = Some k -> argv c !! 2%nat = Some a -> argv c !! 3%nat = Some b ->
  getLongLongFromObject (Some (arg_object a)) = Some (Some n) -> 0 <= n < 2 ^ 32 -> getLongLongFromObject (Some (arg_object b)) = Some (Some on) -> 0 <= on < 2 -> dbs s !! db c = Some x ->
  let now := clock (ticks s) in let o := live x now k in (forall v, o = Some v -> is_Some (as_string v)) ->
  exists s' bs, setbitCommand i s = Some (tt, s') /\ string_bits bs = with_bit (held o) n (on =? 1) /\
    dbs s' = <[db c := stored (looked x now k) k (of_string (Raw bs))]> (dbs s) /\ dirty s' = dirty s + 1 /\
    answered s' i c [ReplySpec.CObj ((if default false (string_bits (held o) !! Z.to_nat n) then Reply.cone else Reply.czero) shared)].
Proof.
  intros HI Hs Hc Hk Ha Hb Hn Hnr Hon Hor Hx now o Ho. set (d := db c) in *. assert (d < length (dbs s))%nat as Hd by by eapply lookup_lt_Some. pose proof (inv_data _ HI _ _ Hx) as Hok.
  destruct (setbit_fine s i c HI Hc) with (s := s) as ([] & s' & Er & _); [by apply lookup_lt_Some in Hb|by repeat split|]. pose proof Er as Er0.
  unfold setbitCommand in Er. cbv zeta in Er. rewrite (bind_run _ _ _ _ _ (arg_run s i c 2 a Hc Ha)), (bind_run _ _ _ _ _ (offset_run s i a n Hn Hnr)) in Er.
  rewrite (bind_run _ _ _ _ _ (arg_run s i c 3 b Hc Hb)), (bind_run _ _ _ _ _ (long_run s i b on _ Hon)) in Er.
  assert (has on (Z.lnot 1) = false) as Eh by (assert (on = 0 \/ on = 1) as [-> | ->] by lia; done). rewrite Eh in Er.
  rewrite (bind_run _ _ _ _ _ (arg_run s i c 1 k Hc Hk)), (bind_run _ _ _ _ _ (db_run s i c Hc)) in Er. fold d in Er.
  destruct (look_up s d x k Hx Hok Hs) as (s1 & L1 & D1 & S1 & N1 & _). fold now o in L1, D1. set (x1 := looked x now k) in *. rewrite (bind_run _ _ _ _ _ L1) in Er.
  assert (dbs s1 !! d = Some x1) as Hx1 by (rewrite D1; by apply list_lookup_insert_eq). assert (dict x1 !! k = o) as Hko by apply looked_live. assert (store s1 !! i = Some c) as Hc1 by by rewrite S1.
  destruct (put_bit_some (held o) n on Hnr) as [[bs old] Hp]. destruct (put_bit_bits _ _ _ _ _ Hnr Hor Hp) as [Hbits Hold]. exists s', bs. split; [exact Er0|]. split; [exact Hbits|].
  assert (exists s2 x2, set_bit i d k (held o) n on s2 = Some (tt, s') /\ dbs s2 = <[d := x2]> (dbs s) /\ store s2 = store s /\ dirty s2 = dirty s /\ forall v, stored x2 k v = stored x1 k v) as (s2 & x2 & Er2 & D2 & S2 & N2 & Hst).
  { destruct o as [u|].
    - destruct (Ho u eq_refl) as [y Hy]. rewrite (bind_run _ _ _ _ _ (type_run s1 i u y Hy)), (opt_run _ _ _ y Hy) in Er.
      destruct (unshare_run s1 d x1 k u y Hx1 Hko) as (s2 & x2 & U2 & D2 & S2 & N2 & _ & _ & Hst). rewrite (bind_run _ _ _ _ _ U2) in Er. exists s2, x2.
      split; [|split; [by rewrite D2, D1, list_insert_insert_eq|split; [congruence|split; [congruence|done]]]]. unfold held. cbn [option_bind mbind]. rewrite Hy. exact Er.
    - rewrite (bind_run _ _ _ _ _ (add_run s1 d x1 k _ Hx1 Hko)) in Er. eexists _, (stored x1 k (of_string (Raw []))). split; [exact Er|]. cbn. split; [by rewrite D1, list_insert_insert_eq|].
      split; [done|]. split; [done|]. intros v. unfold stored. cbn. by rewrite insert_insert_eq. }
  assert (dbs s2 !! d = Some x2) as Hx2 by (rewrite D2; by apply list_lookup_insert_eq). destruct (set_bit_run s2 i c d x2 k _ n on bs old _ _ ltac:(by rewrite S2) Hx2 Hp Er2) as (E1 & E2 & E3).
  split; [by rewrite E1, D2, list_insert_insert_eq, Hst|]. split; [congruence|]. by rewrite <-Hold.
Qed.

(** ** Parts of strings *)

Lemma read_run s i c x k f (v : V) : store s !! i = Some c -> dbs s !! db c = Some x -> db_ok x -> serving s -> live x (clock (ticks s)) k = Some v ->
  exists s1, lookupKeyReadOrReply i k f s = Some (Some v, s1) /\ dbs s1 = dbs s /\ store s1 = store s /\ dirty s1 = dirty s.
Proof.
  intros Hc Hx Hok Hs Hv. destruct (lookup_some_run s (db c) x k v Hx Hok Hs Hv) as (s1 & L1 & D1 & S1 & N1 & _). exists s1. split; [|done].
  unfold lookupKeyReadOrReply. rewrite (bind_run _ _ _ _ _ (db_run s i c Hc)). unfold lookupKeyRead. fold (lookupKeyWrite (db c) k). rewrite (bind_run _ _ _ _ _ L1). by rewrite (bind_run (mret tt) _ s1 tt s1 eq_refl).
Qed.

(** An index from the end counts back from it. *)
Definition from_end (len n : Z) : Z := Z.max 0 (if n <? 0 then len + n else n).

(** C21: [BITCOUNT] with a range counts the ones among the bits of the bytes
    from the one index to the other, whole words at a time or not; indices
    from the end are negative, and the range is cut at the ends. *)
Theorem bitcount_counts i s c n k a b start stop x (v : V) y : inv s -> serving s -> store s !! i = Some c -> argv c = [n; k; a; b] ->
  getLongLongFromObject (Some (arg_object a)) = Some (Some start) -> getLongLongFromObject (Some (arg_object b)) = Some (Some stop) ->
  dbs s !! db c = Some x -> live x (clock (ticks s)) k = Some v -> as_string v = Some y -> let bs := string_bytes y in let len := Z.of_nat (length bs) in len < 2 ^ 60 ->
  let p := from_end len start in let q := Z.min (from_end len stop) (len - 1) in
  exists s', bitcountCommand i s = Some (tt, s') /\ dbs s' = dbs s /\ dirty s' = dirty s /\
    answered s' i c [if q <? p then ReplySpec.CObj (Reply.czero shared) else ReplySpec.CLongLong (ones (string_bits (take (Z.to_nat (q - p + 1)) (drop (Z.to_nat p) bs))))].
Proof.
  intros HI Hs Hc Ha Hstart Hstop Hx Hv Hy bs len Hlen p q. assert (argv c !! 1%nat = Some k) as Hk by by rewrite Ha. pose proof (inv_data _ HI _ _ Hx) as Hok.
  destruct (read_run s i c x k Reply.czero v Hc Hx Hok Hs Hv) as (s1 & L1 & D1 & S1 & N1). assert (store s1 !! i = Some c) as Hc1 by by rewrite S1.
  unfold bitcountCommand. rewrite (bind_run _ _ _ _ _ (arg_run s i c 1 k Hc Hk)). unfold mbind at 1, M_bind at 1, get_client. rewrite Hc. rewrite (bind_run _ _ _ _ _ L1), (bind_run _ _ _ _ _ (type_run s1 i v y Hy)), (opt_run _ _ _ y Hy).
  cbv zeta. rewrite Ha. change (Z.of_nat (length [n; k; a; b]) =? 4) with true. cbv iota. rewrite (opt_run _ _ _ a) by done. rewrite (bind_run _ _ _ _ _ (long_run s1 i a start _ Hstart)).
  rewrite (opt_run _ _ _ b) by done. rewrite (bind_run _ _ _ _ _ (long_run s1 i b stop _ Hstop)). change (stringLen y) with len.
  assert ((if (if start <? 0 then len + start else start) <? 0 then 0 else if start <? 0 then len + start else start) = p) as ->.
  { unfold p, from_end. destruct (Z.ltb_spec (if start <? 0 then len + start else start) 0); lia. }
  set (stop1 := if (if stop <? 0 then len + stop else stop) <? 0 then 0 else if stop <? 0 then len + stop else stop).
  assert (stop1 = from_end len stop) as -> by (unfold stop1, from_end; destruct (Z.ltb_spec (if stop <? 0 then len + stop else stop) 0); lia).
  assert ((if len <=? from_end len stop then len - 1 else from_end len stop) = q) as -> by (unfold q; destruct (Z.leb_spec len (from_end len stop)); lia).
  assert (0 <= p) as Hp by (unfold p, from_end; lia). assert (q < len) as Hq by (unfold q; lia). destruct (Z.ltb_spec q p) as [Hqp|Hqp].
  - unfold addReply. rewrite (reply_run s1 i c _ Hc1). eexists. split; [reflexivity|]. split; [done|]. split; [done|]. eexists. split; [cbn; apply lookup_insert_eq|by split_and!].
  - rewrite popcount_spec by (rewrite length_drop; fold bs; unfold len in *; lia). fold bs.
    set (ws := take (Z.to_nat (q - p + 1)) (drop (Z.to_nat p) bs)). pose proof (ones_range (string_bits ws)) as Hr. rewrite length_string_bits in Hr.
    assert (length ws <= length bs)%nat as Hws by (unfold ws; rewrite length_take, length_drop; lia).
    rewrite u64_small by (unfold len in *; lia). rewrite (opt_run _ _ _ (ones (string_bits ws))) by done. unfold addReplyLongLong. rewrite (reply_run s1 i c _ Hc1).
    eexists. split; [reflexivity|]. split; [done|]. split; [done|]. eexists. split; [cbn; apply lookup_insert_eq|by split_and!].
Qed.

(** C35: the comparison of [GETRANGE] cuts the last index to 32 bits, so one of
    [2^32] or more may pass for one within the string: the command then reads
    behind the block of the string. *)
Theorem getrange_overreads i s c k a b start stop x (v : V) y : inv s -> serving s -> store s !! i = Some c -> argv c !! 1%nat = Some k -> argv c !! 2%nat = Some a -> argv c !! 3%nat = Some b ->
  getLongLongFromObject (Some (arg_object a)) = Some (Some start) -> getLongLongFromObject (Some (arg_object b)) = Some (Some stop) ->
  dbs s !! db c = Some x -> live x (clock (ticks s)) k = Some v -> as_string v = Some y -> let len := Z.of_nat (length (string_bytes y)) in
  0 <= start <= stop -> len <= stop -> stop mod 2 ^ 32 < len -> getrangeCommand i s = None.
Proof.
  intros HI Hs Hc Hk Ha Hb Hstart Hstop Hx Hv Hy len Hss Hl Hmod. pose proof (inv_data _ HI _ _ Hx) as Hok.
  destruct (read_run s i c x k Reply.emptybulk v Hc Hx Hok Hs Hv) as (s1 & L1 & D1 & S1 & N1).
  unfold getrangeCommand. rewrite (bind_run _ _ _ _ _ (arg_run s i c 1 k Hc Hk)), (bind_run _ _ _ _ _ (arg_run s i c 2 a Hc Ha)), (bind_run _ _ _ _ _ (arg_run s i c 3 b Hc Hb)).
  rewrite (bind_run _ _ _ _ _ (long_run s i a start _ Hstart)), (bind_run _ _ _ _ _ (long_run s i b stop _ Hstop)), (bind_run _ _ _ _ _ L1), (bind_run _ _ _ _ _ (type_run s1 i v y Hy)), (opt_run _ _ _ y Hy).
  change (stringLen y) with len. assert (get_range start stop len = (start, stop)) as ->.
  { unfold get_range. rewrite (proj2 (Z.ltb_ge start 0)), (proj2 (Z.ltb_ge stop 0)), (proj2 (Z.ltb_ge start 0)), (proj2 (Z.ltb_ge stop 0)) by lia. unfold u32. by rewrite (proj2 (Z.leb_gt _ _)) by done. }
  rewrite (proj2 (Z.ltb_ge stop start)) by lia. unfold mem_read. rewrite decide_False by (fold len; lia). done.
Qed.
End Strings.

(** ** BITOP *)

Definition bit_at (src : list byte) (n : nat) : bool := default false (string_bits src !! n).
Definition bool_op (op : Z) (a b : bool) : bool := if op =? BITOP_AND then a && b else if op =? BITOP_OR then a || b else xorb a b.
(** The bit of the result. *)
Definition result_bit (op : Z) (srcs : list (list byte)) (n : nat) : bool :=
  let b := bit_at (default [] (srcs !! 0%nat)) n in
  if op =? BITOP_NOT then negb b else foldl (fun b src => bool_op op b (bit_at src n)) b (drop 1 srcs).

Lemma bit_at_byte src (q r : nat) : (r < 8)%nat -> bit_at src (8 * q + r) = Z.testbit (b2z (byte_at src q)) (7 - Z.of_nat r).
Proof.
  intros Hr. unfold bit_at, byte_at. rewrite string_bits_lookup by done. destruct (src !! q) as [b|]; [done|]. cbn [fmap option_fmap option_map default from_option]. change (b2z (z2b 0)) with 0. by rewrite Z.testbit_0_l.
Qed.
Lemma op_testbit op a b j : Z.testbit (b2z (byte_op op a b)) j = bool_op op (Z.testbit (b2z a) j) (Z.testbit (b2z b) j).
Proof. rewrite b2z_byte_op. unfold bit_op, bool_op. destruct (_ =? _); [apply Z.land_spec|]. destruct (_ =? _); [apply Z.lor_spec|apply Z.lxor_spec]. Qed.
Lemma not_testbit a j : 0 <= j < 8 -> Z.testbit (b2z (byte_not a)) j = negb (Z.testbit (b2z a) j).
Proof.
  intros Hj. unfold byte_not, bit_not. rewrite b2z_z2b. change 256 with (2 ^ 8). rewrite Z.mod_mod by lia. rewrite Z.mod_pow2_bits_low by lia. apply Z.lnot_spec. lia.
Qed.
Lemma out_testbit op srcs (q r : nat) : (r < 8)%nat -> Z.testbit (b2z (out_byte op srcs q)) (7 - Z.of_nat r) = result_bit op srcs (8 * q + r).
Proof.
  intros Hr. unfold out_byte, combine, result_bit. rewrite bit_at_byte by done. set (b := byte_at _ q). clearbody b. destruct (op =? BITOP_NOT); [apply not_testbit; lia|].
  generalize (drop 1 srcs). intros l. revert b. induction l as [|src l IH]; intros b; [done|]. cbn [foldl]. by rewrite IH, op_testbit, bit_at_byte.
Qed.

(** C15: [BITOP] on strings, four words at a time as far as the shortest goes
    and byte by byte from there, on either kind of host: the result is as
    long as the longest, and each of its bits is the operation on the bits of
    the sources, which are 0 behind their ends. *)
Theorem bitop_bitwise be op srcs (maxlen : Z) minlen : srcs <> [] -> sources_ok (length srcs) srcs maxlen minlen ->
  exists res, bitop_result be op srcs maxlen minlen = Some res /\ length res = longest srcs /\
    forall n, (n < 8 * longest srcs)%nat -> string_bits res !! n = Some (result_bit op srcs n).
Proof.
  intros Hne (_ & -> & H1 & H2). exists (out_byte op srcs <$> seq 0 (longest srcs)). split; [by apply bitop_bytes|]. split; [by rewrite length_fmap, length_seq|].
  intros n Hn. pose proof (Nat.div_mod n 8) as Hdm. pose proof (Nat.mod_upper_bound n 8) as Hm. set (q := (n / 8)%nat) in *. set (r := (n mod 8)%nat) in *. rewrite Hdm by lia.
  rewrite string_bits_lookup by lia. rewrite list_lookup_fmap, lookup_seq_lt by lia. cbn [fmap option_fmap option_map]. by rewrite out_testbit by lia.
Qed.

(** ** Runs of the small instance *)

Definition string_events (v : String.string) : list event := [EConnect 1; ECommand 1 [text "set"; text "k"; text v]].
Definition string_state (v : String.string) (a : list key) : demo_server := asking (after demo_start (string_events v)) a.
Lemma string_state_inv v a : eventsb (fun _ => true) (string_events v) demo_start = true -> (if store (after demo_start (string_events v)) !! 1%positive is Some _ then true else false) = true ->
  inv (string_state v a).
Proof. intros H1 H2. apply asking_inv; [by apply demo_inv|]. unfold client_1. by destruct (store _ !! 1%positive). Qed.

Lemma incr_exact_witness : let s := string_state "41" [text "incr"; text "k"] in let c := client_1 s in
  exists s', incrDecrCommand 1 1 s = Some (tt, s') /\ dbs s' = <[db c := stored (looked (db_0 s) (clock (ticks s)) (text "k")) (text "k") (of_string (Int (41 + 1)))]> (dbs s) /\ dirty s' = dirty s + 1 /\
    answered s' 1 c [ReplySpec.CObj (Reply.colon shared); ReplySpec.CString (print_int (41 + 1)); ReplySpec.CObj (Reply.crlf shared)].
Proof.
  intros s c. destruct (incr_exact s 1 c (text "k") (db_0 s) 1 41) as (s' & H1 & H2);
    [apply string_state_inv; vm_compute; reflexivity|split; vm_compute; reflexivity|vm_compute; reflexivity|vm_compute; reflexivity|vm_compute; reflexivity|unfold int64; lia
    |intros v Hv; vm_compute in Hv; injection Hv as <-; vm_compute; eexists; reflexivity|vm_compute; reflexivity|].
  exists s'. split; [exact H1|]. change ((- 2 ^ 63 <=? 41 + 1) && (41 + 1 <? 2 ^ 63)) with true in H2. exact H2.
Defined.

Lemma set_then_get_witness : let s := string_state "v" [text "set"; text "k"; text "12"] in let c := client_1 s in
  exists s' y, setCommand 1 s = Some (tt, s') /\ string_bytes y = text "12" /\ dbs s' = <[db c := set_key (db_0 s) (text "k") (of_string y)]> (dbs s).
Proof.
  intros s c. destruct (set_then_get 1 s c (text "set") (text "k") (text "12") (db_0 s)) as (s' & y & H1 & H2 & H3 & _);
    [apply string_state_inv; vm_compute; reflexivity|split; vm_compute; reflexivity|vm_compute; reflexivity|vm_compute; reflexivity|vm_compute; reflexivity|].
  exists s', y. split; [exact H1|]. split; [exact H2|exact H3].
Defined.

Lemma setbit_bits_witness : let s := string_state "a" [text "setbit"; text "k"; text "10"; text "1"] in let c := client_1 s in
  exists s' bs, setbitCommand 1 s = Some (tt, s') /\ string_bits bs = with_bit (text "a") 10 true /\
    dbs s' = <[db c := stored (looked (db_0 s) (clock (ticks s)) (text "k")) (text "k") (of_string (Raw bs))]> (dbs s) /\ dirty s' = dirty s + 1.
Proof.
  intros s c. destruct (setbit_bits 1 s c (text "k") (text "10") (text "1") 10 1 (db_0 s)) as (s' & bs & H1 & H2 & H3 & H4 & _);
    [apply string_state_inv; vm_compute; reflexivity|split; vm_compute; reflexivity|vm_compute; reflexivity|vm_compute; reflexivity|vm_compute; reflexivity|vm_compute; reflexivity|vm_compute; reflexivity
    |lia|vm_compute; reflexivity|lia|vm_compute; reflexivity|intros v Hv; vm_compute in Hv; injection Hv as <-; vm_compute; eexists; reflexivity|].
  exists s', bs. split; [exact H1|]. split; [|split; [exact H3|exact H4]].
  assert (held (live (db_0 s) (clock (ticks s)) (text "k")) = text "a") as Hh by (vm_compute; reflexivity). rewrite Hh in H2. exact H2.
Defined.

Lemma bitcount_counts_witness : let s := string_state "foobar" [text "bitcount"; text "k"; text "1"; text "-2"] in let c := client_1 s in
  exists s', bitcountCommand 1 s = Some (tt, s') /\ dbs s' = dbs s /\ dirty s' = dirty s /\ answered s' 1 c [ReplySpec.CLongLong 18].
Proof.
  intros s c. destruct (bitcount_counts 1 s c (text "bitcount") (text "k") (text "1") (text "-2") 1 (-2) (db_0 s) (Raw (text "foobar")) (Raw (text "foobar"))) as (s' & H1 & H2 & H3 & H4);
    [apply string_state_inv; vm_compute; reflexivity|split; vm_compute; reflexivity|vm_compute; reflexivity|vm_compute; reflexivity|vm_compute; reflexivity|vm_compute; reflexivity|vm_compute; reflexivity
    |vm_compute; reflexivity|vm_compute; reflexivity|vm_compute; reflexivity|].
  exists s'. split; [exact H1|]. split; [exact H2|]. split; [exact H3|exact H4].
Defined.

Lemma getrange_overreads_witness : getrangeCommand 1 (string_state "v" [text "getrange"; text "k"; text "0"; text "4294967296"]) = None.
Proof.
  set (s := string_state "v" [text "getrange"; text "k"; text "0"; text "4294967296"]).
  apply (getrange_overreads 1 s (client_1 s) (text "k") (text "0") (text "4294967296") 0 4294967296 (db_0 s) (Raw (text "v")) (Raw (text "v")));
    [apply string_state_inv; vm_compute; reflexivity|split; vm_compute; reflexivity|vm_compute; reflexivity|vm_compute; reflexivity|vm_compute; reflexivity|vm_compute; reflexivity|vm_compute; reflexivity|vm_compute; reflexivity
    |vm_compute; reflexivity|vm_compute; reflexivity|vm_compute; reflexivity|lia|vm_compute; discriminate|vm_compute; reflexivity].
Defined.

Lemma bitop_bitwise_witness : let srcs := [replicate 40 "a"%byte; replicate 33 "b"%byte; text "c"] in
  exists res, bitop_result false BITOP_OR srcs 40 1 = Some res /\ length res = 40%nat /\ forall n, (n < 320)%nat -> string_bits res !! n = Some (result_bit BITOP_OR srcs n).
Proof.
  intros srcs. apply (bitop_bitwise false BITOP_OR srcs 40 1); [discriminate|]. split; [reflexivity|]. split; [reflexivity|]. split; [lia|].
  intros src Hsrc. apply list_elem_of_In in Hsrc. cbn [srcs In] in Hsrc. destruct Hsrc as [<-|[<-|[<-|[]]]]; vm_compute; discriminate.
Defined.
