(* ===== verification/Pubsub.v ===== *)
(** Pubsub: channels, patterns and published messages ([pubsub.c]), with the
    parts of [createClient] and [freeClient] that concern them. *)
From Stdlib Require Strings.String.
From S2P Require Import Prelude Util Server.
From S2P Require Reply ReplySpec.

(** [pubsubPattern] of [redis.h]. *)
Record pubsubPattern := PubsubPattern { pp_client : cid; pp_pattern : key }.
#[export] Instance pubsubPattern_eq_dec : EqDecision pubsubPattern. Proof. solve_decision. Defined.

(** A client: [c->pubsub_channels], [c->pubsub_patterns] and the calls that
    reply to it. *)
Record subscriber := Subscriber { sub_channels : gset key; sub_patterns : list key; sub_replies : list reply }.
(** [server.pubsub_channels], [server.pubsub_patterns] and the clients. *)
Record pubsubServer := PubsubServer { pubsub_channels : gmap key (list cid); pubsub_patterns : list pubsubPattern; subscribers : gmap cid subscriber }.

Implicit Types (s : pubsubServer) (i : cid) (c : subscriber) (channel pattern message : key).

Definition add_channel c channel : subscriber := Subscriber ({[channel]} ∪ sub_channels c) (sub_patterns c) (sub_replies c).
Definition del_channel c channel : subscriber := Subscriber (sub_channels c ∖ {[channel]}) (sub_patterns c) (sub_replies c).
Definition with_patterns c (l : list key) : subscriber := Subscriber (sub_channels c) l (sub_replies c).
Definition with_replies c (l : list reply) : subscriber := Subscriber (sub_channels c) (sub_patterns c) l.
Definition with_channels s (m : gmap key (list cid)) : pubsubServer := PubsubServer m (pubsub_patterns s) (subscribers s).
Definition with_pattern_list s (l : list pubsubPattern) : pubsubServer := PubsubServer (pubsub_channels s) l (subscribers s).
Definition with_subscribers s (m : gmap cid subscriber) : pubsubServer := PubsubServer (pubsub_channels s) (pubsub_patterns s) m.

(** [dictSize(c->pubsub_channels)+listLength(c->pubsub_patterns)] *)
Definition subscription_count c : Z := Z.of_nat (size (sub_channels c)) + Z.of_nat (length (sub_patterns c)).

(** An operation changes the tables or fails an assertion. *)
Definition P (A : Type) : Type := pubsubServer -> option (A * pubsubServer).
#[export] Instance P_ret : MRet P := fun A a s => Some (a, s).
#[export] Instance P_bind : MBind P := fun A B f m s => match m s with Some (a, s) => f a s | None => None end.

Definition tables : P pubsubServer := fun s => Some (s, s).
Definition set_tables s : P unit := fun _ => Some (tt, s).
Definition need {A} (o : option A) : P A := fun s => match o with Some a => Some (a, s) | None => None end.
Definition subscriber_of i : P subscriber := fun s => match subscribers s !! i with Some c => Some (c, s) | None => None end.
Definition set_subscriber i c : P unit := fun s => Some (tt, with_subscribers s (<[i := c]> (subscribers s))).
Definition send i (r : reply) : P unit := c ← subscriber_of i; set_subscriber i (with_replies c (sub_replies c ++ [r])).

(** [listSearchKey] and [listDelNode]: the first node with the value goes;
    [None] when there is none. *)
Fixpoint remove_node {A} `{!EqDecision A} (a : A) (l : list A) : option (list A) :=
  match l with
  | [] => None
  | b :: l => if decide (b = a) then Some l else l ← remove_node a l; Some (b :: l)
  end.

Section Pubsub.
(** The shared replies, and the order in which an iterator visits the channels
    of a client. *)
Context (shared : Reply.sharedObjects) (channel_order : gset key -> list key).

(** [addReply(c,shared.mbulkhdr[n])] *)
Definition addReplyHeader i (n : nat) : P unit := o ← need (Reply.mbulkhdr shared !! n); send i (ReplySpec.CObj o).
Definition addReplyShared i (o : Reply.sharedObjects -> positive) : P unit := send i (ReplySpec.CObj (o shared)).
Definition addReplyContent i (bs : list byte) : P unit := send i (ReplySpec.CBulkCBuffer bs).

(** The notification; without a name the null reply. *)
Definition notify_client i (kind : Reply.sharedObjects -> positive) (name : option key) : P unit :=
  addReplyHeader i 3 ;;
  addReplyShared i kind ;;
  (match name with Some k => addReplyContent i k | None => addReplyShared i Reply.nullbulk end) ;;
  c ← subscriber_of i;
  send i (ReplySpec.CLongLong (subscription_count c)).

Definition pubsubSubscribeChannel i channel : P bool :=
  c ← subscriber_of i;
  retval ← (if bool_decide (channel ∈ sub_channels c) then mret false
            else
              set_subscriber i (add_channel c channel) ;;
              s ← tables;
              let clients := match pubsub_channels s !! channel with None => [] | Some clients => clients end in
              set_tables (with_channels s (<[channel := clients ++ [i]]> (pubsub_channels s))) ;;
              mret true);
  notify_client i Reply.subscribebulk (Some channel) ;;
  mret retval.

(** The client is searched in the list and the node is deleted, which is an
    assertion. *)
Definition pubsubUnsubscribeChannel i channel (notify : bool) : P bool :=
  c ← subscriber_of i;
  retval ← (if bool_decide (channel ∈ sub_channels c) then
              set_subscriber i (del_channel c channel) ;;
              s ← tables;
              clients ← need (pubsub_channels s !! channel);
              clients ← need (remove_node i clients);
              set_tables (with_channels s (match clients with [] => delete channel (pubsub_channels s) | _ => <[channel := clients]> (pubsub_channels s) end)) ;;
              mret true
            else mret false);
  (if notify then notify_client i Reply.unsubscribebulk (Some channel) else mret tt) ;;
  mret retval.

Definition pubsubSubscribePattern i pattern : P bool :=
  c ← subscriber_of i;
  retval ← (if bool_decide (pattern ∈ sub_patterns c) then mret false
            else
              set_subscriber i (with_patterns c (sub_patterns c ++ [pattern])) ;;
              s ← tables;
              set_tables (with_pattern_list s (pubsub_patterns s ++ [PubsubPattern i pattern])) ;;
              mret true);
  notify_client i Reply.psubscribebulk (Some pattern) ;;
  mret retval.

(** A node that is not found would be a null pointer to [listDelNode]. *)
Definition pubsubUnsubscribePattern i pattern (notify : bool) : P bool :=
  c ← subscriber_of i;
  retval ← match remove_node pattern (sub_patterns c) with
           | Some l =>
             set_subscriber i (with_patterns c l) ;;
             s ← tables;
             l ← need (remove_node (PubsubPattern i pattern) (pubsub_patterns s));
             set_tables (with_pattern_list s l) ;;
             mret true
           | None => mret false
           end;
  (if notify then notify_client i Reply.punsubscribebulk (Some pattern) else mret tt) ;;
  mret retval.

(** [for each name: count += unsubscribe(c,name,notify)] *)
Fixpoint unsubscribe_each (f : key -> P bool) (names : list key) (count : Z) : P Z :=
  match names with
  | [] => mret count
  | k :: names => b ← f k; unsubscribe_each f names (count + Z.b2z b)
  end.
(** The iterator is safe: the entries it visits are those at its start. *)
Definition pubsubUnsubscribeAllChannels i (notify : bool) : P Z :=
  c ← subscriber_of i;
  count ← unsubscribe_each (fun channel => pubsubUnsubscribeChannel i channel notify) (channel_order (sub_channels c)) 0;
  (if notify && (count =? 0) then notify_client i Reply.unsubscribebulk None else mret tt) ;;
  mret count.
Definition pubsubUnsubscribeAllPatterns i (notify : bool) : P Z :=
  c ← subscriber_of i;
  count ← unsubscribe_each (fun pattern => pubsubUnsubscribePattern i pattern notify) (sub_patterns c) 0;
  (if notify && (count =? 0) then notify_client i Reply.punsubscribebulk None else mret tt) ;;
  mret count.

Fixpoint publish_clients channel message (l : list cid) (receivers : Z) : P Z :=
  match l with
  | [] => mret receivers
  | i :: l =>
    addReplyHeader i 3 ;;
    addReplyShared i Reply.messagebulk ;;
    addReplyContent i channel ;;
    addReplyContent i message ;;
    publish_clients channel message l (receivers + 1)
  end.
Fixpoint publish_patterns channel message (l : list pubsubPattern) (receivers : Z) : P Z :=
  match l with
  | [] => mret receivers
  | pat :: l =>
    let p := pp_pattern pat in
    matches ← need (stringmatchlen (p ++ [z2b 0]) (Z.of_nat (length p)) (channel ++ [z2b 0]) (Z.of_nat (length channel)) false);
    if matches : bool then
      addReplyHeader (pp_client pat) 4 ;;
      addReplyShared (pp_client pat) Reply.pmessagebulk ;;
      addReplyContent (pp_client pat) p ;;
      addReplyContent (pp_client pat) channel ;;
      addReplyContent (pp_client pat) message ;;
      publish_patterns channel message l (receivers + 1)
    else publish_patterns channel message l receivers
  end.
Definition pubsubPublishMessage channel message : P Z :=
  s ← tables;
  receivers ← match pubsub_channels s !! channel with None => mret 0 | Some l => publish_clients channel message l 0 end;
  publish_patterns channel message (pubsub_patterns s) receivers.

(** ** The commands, with their arguments after the name *)

Fixpoint for_each (f : key -> P bool) (names : list key) : P unit :=
  match names with [] => mret tt | k :: names => f k ;; for_each f names end.

Definition subscribeCommand i (args : list key) : P unit := for_each (pubsubSubscribeChannel i) args.
Definition unsubscribeCommand i (args : list key) : P unit :=
  match args with [] => pubsubUnsubscribeAllChannels i true ;; mret tt | _ => for_each (fun k => pubsubUnsubscribeChannel i k true) args end.
Definition psubscribeCommand i (args : list key) : P unit := for_each (pubsubSubscribePattern i) args.
Definition punsubscribeCommand i (args : list key) : P unit :=
  match args with [] => pubsubUnsubscribeAllPatterns i true ;; mret tt | _ => for_each (fun k => pubsubUnsubscribePattern i k true) args end.
Definition publishCommand i (args : list key) : P unit :=
  channel ← need (args !! 0%nat); message ← need (args !! 1%nat);
  receivers ← pubsubPublishMessage channel message;
  send i (ReplySpec.CLongLong receivers).

(** ** Clients come and go *)

Definition createClient i : P unit := set_subscriber i (Subscriber ∅ [] []).
Definition freeClient i : P unit :=
  pubsubUnsubscribeAllChannels i false ;;
  pubsubUnsubscribeAllPatterns i false ;;
  s ← tables; set_tables (with_subscribers s (delete i (subscribers s))).

Inductive pubsub_event :=
  | PConnect i | PClose i | PSubscribe i (args : list key) | PUnsubscribe i (args : list key)
  | PPsubscribe i (args : list key) | PPunsubscribe i (args : list key) | PPublish i (args : list key).
Definition run_pubsub (ev : pubsub_event) : P unit :=
  match ev with
  | PConnect i => createClient i
  | PClose i => freeClient i
  | PSubscribe i args => subscribeCommand i args
  | PUnsubscribe i args => unsubscribeCommand i args
  | PPsubscribe i args => psubscribeCommand i args
  | PPunsubscribe i args => punsubscribeCommand i args
  | PPublish i args => publishCommand i args
  end.
Definition no_tables : pubsubServer := PubsubServer ∅ [] ∅.
End Pubsub.
