(* ===== verification/PubsubProofs.v ===== *)
(** PubsubProofs: publish and subscribe refine a specification without the
    tables of the server, in which each client has its channels and patterns
    and gets the messages it asked for. *)
From Stdlib Require Strings.String.
From S2P Require Import Prelude Util UtilProofs Server Pubsub.
From S2P Require Reply ReplySpec.
Import (notations) Corelib.Init.Byte.
Import (notations) Strings.String.

Implicit Types (s : pubsubServer) (i j : cid) (c : subscriber) (channel pattern message : key).

(** ** The tables

    The lists of the channels and the list of patterns say what the clients
    say, the patterns of a client in its order. *)
Definition own_patterns (l : list pubsubPattern) i : list key := pp_pattern <$> filter (fun p => pp_client p = i) l.
Definition channel_of s i channel : Prop := exists c, subscribers s !! i = Some c /\ channel ∈ sub_channels c.

Record pubsub_ok s : Prop := {
  po_channels : forall i channel, i ∈ default [] (pubsub_channels s !! channel) <-> channel_of s i channel;
  po_lists : forall channel l, pubsub_channels s !! channel = Some l -> l <> [] /\ NoDup l;
  po_own : forall i c, subscribers s !! i = Some c -> NoDup (sub_patterns c) /\ own_patterns (pubsub_patterns s) i = sub_patterns c;
  po_alive : forall p, p ∈ pubsub_patterns s -> is_Some (subscribers s !! pp_client p) }.

Lemma no_tables_ok : pubsub_ok no_tables.
Proof.
  constructor; unfold channel_of; cbn [no_tables pubsub_channels pubsub_patterns subscribers].
  - intros i channel. split; [rewrite lookup_empty; by intros ?%elem_of_nil|]. intros (c & Hc & _). by rewrite lookup_empty in Hc.
  - intros channel l H. by rewrite lookup_empty in H.
  - intros i c H. by rewrite lookup_empty in H.
  - intros p H. by apply elem_of_nil in H.
Qed.

(** Replies leave the tables. *)
Lemma ok_replies s i c c' : pubsub_ok s -> subscribers s !! i = Some c -> sub_channels c' = sub_channels c -> sub_patterns c' = sub_patterns c ->
  pubsub_ok (with_subscribers s (<[i := c']> (subscribers s))).
Proof.
  intros [H1 H2 H3 H4] Hc Hch Hpa. constructor; cbn.
  - intros j channel. rewrite H1. unfold channel_of. cbn. destruct (decide (j = i)) as [->|Hne].
    + rewrite lookup_insert_eq, Hc. split; intros (x & [= <-] & Hx); eexists; (split; [done|congruence]).
    + by rewrite lookup_insert_ne.
  - done.
  - intros j x. destruct (decide (j = i)) as [->|Hne]; [rewrite lookup_insert_eq; intros [= <-]; rewrite Hpa; by apply H3|rewrite lookup_insert_ne by done; apply H3].
  - intros p Hp. destruct (decide (pp_client p = i)) as [->|Hne]; [rewrite lookup_insert_eq; by eexists|rewrite lookup_insert_ne by done; by apply H4].
Qed.

Lemma remove_node_spec {A} `{!EqDecision A} (a : A) l : a ∈ l -> exists l', remove_node a l = Some l' /\ l ≡ₚ a :: l'.
Proof.
  induction l as [|b l IH]; [by intros ?%elem_of_nil|]. cbn [remove_node]. destruct (decide (b = a)) as [->|Hne]; [by exists l|].
  intros [->|Ha]%elem_of_cons; [done|]. destruct (IH Ha) as (l' & -> & Hp). exists (b :: l'). split; [done|]. rewrite Hp. by apply perm_swap.
Qed.
Lemma remove_node_none {A} `{!EqDecision A} (a : A) l : a ∉ l -> remove_node a l = None.
Proof.
  induction l as [|b l IH]; [done|]. intros [Hne Ha]%not_elem_of_cons. cbn [remove_node]. rewrite decide_False by congruence. by rewrite IH.
Qed.
Lemma remove_node_filter {A} `{!EqDecision A} (a : A) l l' : NoDup l -> remove_node a l = Some l' -> l' = filter (fun b => b <> a) l.
Proof.
  revert l'. induction l as [|b l IH]; [done|]. intros l' [Hb Hl]%NoDup_cons. cbn [remove_node]. destruct (decide (b = a)) as [->|Hne].
  - intros [= <-]. rewrite filter_cons_False by (intros H; by apply H). symmetry. apply list_filter_all, Forall_forall. by intros x Hx ->.
  - rewrite filter_cons_True by done. destruct (remove_node a l) as [l1|]; [|done]. cbn [option_bind mbind]. intros [= <-]. f_equal. by apply IH.
Qed.
(** The pattern that is removed from the list of all is the client's. *)
Lemma remove_own i pattern l l' j : remove_node (PubsubPattern i pattern) l = Some l' ->
  own_patterns l' j = if decide (j = i) then default [] (remove_node pattern (own_patterns l j)) else own_patterns l j.
Proof.
  revert l'. induction l as [|[j' p] l IH]; [done|]. intros l'. cbn [remove_node]. unfold own_patterns in *. destruct (decide (PubsubPattern j' p = PubsubPattern i pattern)) as [[= -> ->]|Hne].
  - intros [= <-]. destruct (decide (j = i)) as [->|Hji].
    + rewrite filter_cons_True by done. cbn [fmap list_fmap remove_node pp_pattern]. by rewrite decide_True.
    + by rewrite filter_cons_False by (cbn; congruence).
  - destruct (remove_node _ l) as [l1|] eqn:El; [|done]. cbn [option_bind mbind]. intros [= <-]. specialize (IH l1 eq_refl). destruct (decide (j' = j)) as [->|Hj].
    + rewrite !filter_cons_True by done. cbn [fmap list_fmap pp_pattern]. destruct (decide (j = i)) as [->|Hji].
      * rewrite IH. cbn [remove_node]. rewrite decide_False by congruence. assert (pattern ∈ pp_pattern <$> filter (fun p => pp_client p = i) l) as Hin.
        { apply list_elem_of_fmap. exists (PubsubPattern i pattern). split; [done|]. apply list_elem_of_filter. split; [done|]. destruct (decide (PubsubPattern i pattern ∈ l)) as [|Hn]; [done|]. by rewrite remove_node_none in El. }
        destruct (remove_node_spec _ _ Hin) as (l2 & -> & _). done.
      * by rewrite IH.
    + by rewrite !filter_cons_False by (cbn; congruence).
Qed.

(** ** Changing one subscription *)

Lemma ok_add_channel s i c channel : pubsub_ok s -> subscribers s !! i = Some c -> channel ∉ sub_channels c ->
  pubsub_ok (PubsubServer (<[channel := default [] (pubsub_channels s !! channel) ++ [i]]> (pubsub_channels s)) (pubsub_patterns s) (<[i := add_channel c channel]> (subscribers s))).
Proof.
  intros [H1 H2 H3 H4] Hc Hnew. assert (i ∉ default [] (pubsub_channels s !! channel)) as Hi.
  { rewrite H1. intros (x & Hx & Hin). by replace x with c in Hin by congruence. }
  constructor; unfold channel_of; cbn [pubsub_channels pubsub_patterns subscribers].
  - intros j ch. destruct (decide (ch = channel)) as [->|Hch]; [rewrite lookup_insert_eq|rewrite lookup_insert_ne by done]; destruct (decide (j = i)) as [->|Hj].
    + cbn [default from_option id]. rewrite lookup_insert_eq. split; [|intros _; apply elem_of_app; right; by left]. intros _. eexists. split; [done|]. cbn. set_solver +.
    + cbn [default from_option id]. rewrite lookup_insert_ne, elem_of_app, list_elem_of_singleton, H1 by done. split; [by intros [?|?]|by left].
    + rewrite lookup_insert_eq, H1. unfold channel_of. rewrite Hc. split; intros (x & [= <-] & Hx); eexists; (split; [done|]); cbn in *; set_solver +Hx Hch.
    + by rewrite lookup_insert_ne, H1 by done.
  - intros ch l. destruct (decide (ch = channel)) as [->|Hch]; [rewrite lookup_insert_eq|rewrite lookup_insert_ne by done; apply H2]. intros [= <-]. split; [by destruct (default [] _)|].
    apply NoDup_app. split; [destruct (pubsub_channels s !! channel) as [l|] eqn:El; [by apply (H2 channel l)|constructor]|]. split; [|by apply NoDup_singleton].
    intros j Hj ->%list_elem_of_singleton. done.
  - intros j x. destruct (decide (j = i)) as [->|Hj]; [rewrite lookup_insert_eq; intros [= <-]; by apply (H3 i c)|rewrite lookup_insert_ne by done; apply H3].
  - intros p Hp. destruct (decide (pp_client p = i)) as [->|Hj]; [rewrite lookup_insert_eq; by eexists|rewrite lookup_insert_ne by done; by apply H4].
Qed.

Definition without_node (m : gmap key (list cid)) channel (l : list cid) : gmap key (list cid) := match l with [] => delete channel m | _ => <[channel := l]> m end.
Lemma without_node_lookup m channel l : default [] (without_node m channel l !! channel) = l.
Proof. destruct l as [|j l]; cbn; [by rewrite lookup_delete_eq|by rewrite lookup_insert_eq]. Qed.
Lemma without_node_ne m channel l ch : ch <> channel -> without_node m channel l !! ch = m !! ch.
Proof. intros H. destruct l as [|j l]; cbn; [by rewrite lookup_delete_ne|by rewrite lookup_insert_ne]. Qed.

Lemma ok_del_channel s i c channel : pubsub_ok s -> subscribers s !! i = Some c -> channel ∈ sub_channels c ->
  exists l l', pubsub_channels s !! channel = Some l /\ remove_node i l = Some l' /\
    pubsub_ok (PubsubServer (without_node (pubsub_channels s) channel l') (pubsub_patterns s) (<[i := del_channel c channel]> (subscribers s))).
Proof.
  intros [H1 H2 H3 H4] Hc Hin. assert (i ∈ default [] (pubsub_channels s !! channel)) as Hi by (apply H1; by exists c).
  destruct (pubsub_channels s !! channel) as [l|] eqn:El; [|by apply elem_of_nil in Hi]. cbn in Hi. destruct (remove_node_spec i l Hi) as (l' & Hr & Hp). exists l, l'. split; [done|]. split; [done|].
  destruct (H2 _ _ El) as [_ Hnd]. rewrite Hp in Hnd. apply NoDup_cons in Hnd as [Hil Hnd].
  constructor; unfold channel_of; cbn [pubsub_channels pubsub_patterns subscribers].
  - intros j ch. destruct (decide (ch = channel)) as [->|Hch]; [rewrite without_node_lookup|rewrite without_node_ne by done]; destruct (decide (j = i)) as [->|Hj].
    + rewrite lookup_insert_eq. split; [done|]. intros (x & [= <-] & Hx). cbn in Hx. set_solver +Hx.
    + rewrite lookup_insert_ne by done. pose proof (H1 j channel) as Hj1. rewrite El in Hj1. cbn in Hj1. rewrite Hp, elem_of_cons in Hj1. unfold channel_of in Hj1. rewrite <-Hj1. split; [by right|by intros [?|?]].
    + rewrite lookup_insert_eq, H1. unfold channel_of. rewrite Hc. split; intros (x & [= <-] & Hx); eexists; (split; [done|]); cbn in *; set_solver +Hx Hch.
    + by rewrite lookup_insert_ne, H1 by done.
  - intros ch lc. destruct (decide (ch = channel)) as [->|Hch]; [|rewrite without_node_ne by done; apply H2]. destruct l' as [|j l']; cbn; [by rewrite lookup_delete_eq|rewrite lookup_insert_eq; by intros [= <-]].
  - intros j x. destruct (decide (j = i)) as [->|Hj]; [rewrite lookup_insert_eq; intros [= <-]; by apply (H3 i c)|rewrite lookup_insert_ne by done; apply H3].
  - intros p Hpp. destruct (decide (pp_client p = i)) as [->|Hj]; [rewrite lookup_insert_eq; by eexists|rewrite lookup_insert_ne by done; by apply H4].
Qed.

Lemma own_app l l' i : own_patterns (l ++ l') i = own_patterns l i ++ own_patterns l' i.
Proof. unfold own_patterns. by rewrite filter_app, fmap_app. Qed.

Lemma ok_change_patterns s i c l pp : pubsub_ok s -> subscribers s !! i = Some c -> NoDup l -> (forall p, p ∈ pp -> p ∈ pubsub_patterns s \/ pp_client p = i) ->
  own_patterns pp i = l -> (forall j, j <> i -> own_patterns pp j = own_patterns (pubsub_patterns s) j) ->
  pubsub_ok (PubsubServer (pubsub_channels s) pp (<[i := with_patterns c l]> (subscribers s))).
Proof.
  intros [H1 H2 H3 H4] Hc Hl Hpp Hi Hj. constructor; unfold channel_of; cbn [pubsub_channels pubsub_patterns subscribers].
  - intros j ch. rewrite H1. unfold channel_of. destruct (decide (j = i)) as [->|Hne]; [|by rewrite lookup_insert_ne]. rewrite lookup_insert_eq, Hc. split; intros (x & [= <-] & Hx); by eexists.
  - done.
  - intros j x. destruct (decide (j = i)) as [->|Hne]; [rewrite lookup_insert_eq; by intros [= <-]|rewrite lookup_insert_ne by done]. intros Hx. rewrite Hj by done. by apply H3.
  - intros p [Hp|Hp]%Hpp; (destruct (decide (pp_client p = i)) as [->|Hne]; [rewrite lookup_insert_eq; by eexists|rewrite lookup_insert_ne by done]); [by apply H4|done].
Qed.
Lemma ok_add_pattern s i c pattern : pubsub_ok s -> subscribers s !! i = Some c -> pattern ∉ sub_patterns c ->
  pubsub_ok (PubsubServer (pubsub_channels s) (pubsub_patterns s ++ [PubsubPattern i pattern]) (<[i := with_patterns c (sub_patterns c ++ [pattern])]> (subscribers s))).
Proof.
  intros Hok Hc Hnew. destruct (po_own _ Hok _ _ Hc) as [Hnd Hown]. apply ok_change_patterns; try done.
  - apply NoDup_app. split; [done|]. split; [by intros p Hp ->%list_elem_of_singleton|apply NoDup_singleton].
  - intros p [Hp|Hp]%elem_of_app; [by left|]. apply list_elem_of_singleton in Hp as ->. by right.
  - rewrite own_app, Hown. f_equal. unfold own_patterns. by rewrite filter_cons_True.
  - intros j Hj. rewrite own_app. unfold own_patterns at 2. rewrite filter_cons_False by (cbn; congruence). by rewrite app_nil_r.
Qed.
Lemma ok_del_pattern s i c pattern l : pubsub_ok s -> subscribers s !! i = Some c -> remove_node pattern (sub_patterns c) = Some l ->
  exists pp, remove_node (PubsubPattern i pattern) (pubsub_patterns s) = Some pp /\
    pubsub_ok (PubsubServer (pubsub_channels s) pp (<[i := with_patterns c l]> (subscribers s))).
Proof.
  intros Hok Hc Hl. destruct (po_own _ Hok _ _ Hc) as [Hnd Hown]. assert (PubsubPattern i pattern ∈ pubsub_patterns s) as Hin.
  { assert (pattern ∈ own_patterns (pubsub_patterns s) i) as H by (rewrite Hown; destruct (decide (pattern ∈ sub_patterns c)) as [|Hn]; [done|]; by rewrite remove_node_none in Hl).
    unfold own_patterns in H. apply list_elem_of_fmap in H as ([j p] & -> & H). by apply list_elem_of_filter in H as [<- H]. }
  destruct (remove_node_spec _ _ Hin) as (pp & Hr & Hp). exists pp. split; [done|]. apply ok_change_patterns; try done.
  - rewrite (remove_node_filter _ _ _ Hnd Hl). by apply NoDup_filter.
  - intros p Hpp. left. rewrite Hp. by right.
  - rewrite (remove_own _ _ _ _ i Hr), decide_True, Hown, Hl by done. done.
  - intros j Hj. by rewrite (remove_own _ _ _ _ j Hr), decide_False by done.
Qed.

(** ** The specification

    What a client sees of its own subscriptions and messages. *)
Section Refinement.
Context (shared : Reply.sharedObjects) (channel_order : gset key -> list key) (hdr3 hdr4 : positive).
Context (Horder : forall m, channel_order m ≡ₚ elements m) (Hhdr3 : Reply.mbulkhdr shared !! 3%nat = Some hdr3) (Hhdr4 : Reply.mbulkhdr shared !! 4%nat = Some hdr4).

Definition told c (rs : list reply) : subscriber := with_replies c (sub_replies c ++ rs).
Definition noted c (kind : Reply.sharedObjects -> positive) (name : option key) : subscriber :=
  told c [ReplySpec.CObj hdr3; ReplySpec.CObj (kind shared);
          match name with Some k => ReplySpec.CBulkCBuffer k | None => ReplySpec.CObj (Reply.nullbulk shared) end; ReplySpec.CLongLong (subscription_count c)].

Definition c_subscribe c channel : subscriber := noted (if bool_decide (channel ∈ sub_channels c) then c else add_channel c channel) Reply.subscribebulk (Some channel).
Definition c_unsubscribe (notify : bool) c channel : subscriber :=
  let c := if bool_decide (channel ∈ sub_channels c) then del_channel c channel else c in
  if notify then noted c Reply.unsubscribebulk (Some channel) else c.
Definition c_psubscribe c pattern : subscriber :=
  noted (if bool_decide (pattern ∈ sub_patterns c) then c else with_patterns c (sub_patterns c ++ [pattern])) Reply.psubscribebulk (Some pattern).
Definition c_punsubscribe (notify : bool) c pattern : subscriber :=
  let c := match remove_node pattern (sub_patterns c) with Some l => with_patterns c l | None => c end in
  if notify then noted c Reply.punsubscribebulk (Some pattern) else c.
Definition c_unsubscribe_all (notify : bool) c : subscriber :=
  let c' := foldl (c_unsubscribe notify) c (channel_order (sub_channels c)) in
  if notify && bool_decide (sub_channels c = ∅) then noted c' Reply.unsubscribebulk None else c'.
Definition c_punsubscribe_all (notify : bool) c : subscriber :=
  let c' := foldl (c_punsubscribe notify) c (sub_patterns c) in
  if notify && bool_decide (sub_patterns c = []) then noted c' Reply.punsubscribebulk None else c'.

(** What a message brings to a client: once for the channel, and once for each
    pattern that matches. *)
Definition matches channel pattern : bool :=
  default false (stringmatchlen (pattern ++ [z2b 0]) (Z.of_nat (length pattern)) (channel ++ [z2b 0]) (Z.of_nat (length channel)) false).
Definition pattern_message channel message pattern : list reply :=
  [ReplySpec.CObj hdr4; ReplySpec.CObj (Reply.pmessagebulk shared); ReplySpec.CBulkCBuffer pattern; ReplySpec.CBulkCBuffer channel; ReplySpec.CBulkCBuffer message].
Definition channel_message channel message : list reply :=
  [ReplySpec.CObj hdr3; ReplySpec.CObj (Reply.messagebulk shared); ReplySpec.CBulkCBuffer channel; ReplySpec.CBulkCBuffer message].
Definition messages channel message c : list reply :=
  (if bool_decide (channel ∈ sub_channels c) then channel_message channel message else []) ++
  (filter (fun p => matches channel p = true) (sub_patterns c) ≫= pattern_message channel message).
Definition deliveries channel c : nat :=
  (if bool_decide (channel ∈ sub_channels c) then 1 else 0) + length (filter (fun p => matches channel p = true) (sub_patterns c)).
Definition receivers channel (m : gmap cid subscriber) : nat := sum_list_with (fun x => deliveries channel x.2) (map_to_list m).

(** ** Runs *)

Lemma P_run {A B} (m : P A) (f : A -> P B) s a s' : m s = Some (a, s') -> (m ≫= f) s = f a s'.
Proof. intros H. unfold mbind, P_bind. by rewrite H. Qed.
Lemma send_run s i c r : subscribers s !! i = Some c -> send i r s = Some (tt, with_subscribers s (<[i := told c [r]]> (subscribers s))).
Proof. intros Hc. unfold send, subscriber_of, mbind, P_bind. by rewrite Hc. Qed.
Lemma told_told c rs rs' : told (told c rs) rs' = told c (rs ++ rs').
Proof. unfold told, with_replies. cbn. by rewrite app_assoc. Qed.

(** Replies to one client, one after the other. *)
Fixpoint sends i (rs : list reply) : P unit := match rs with [] => mret tt | r :: rs => send i r ;; sends i rs end.
Lemma sends_run i rs : forall s c, subscribers s !! i = Some c -> sends i rs s = Some (tt, with_subscribers s (<[i := told c rs]> (subscribers s))).
Proof.
  induction rs as [|r rs IH]; intros s c Hc; cbn [sends].
  - unfold told. rewrite app_nil_r. rewrite insert_id; [by destruct s|]. by destruct c.
  - rewrite (P_run _ _ _ _ _ (send_run s i c r Hc)). rewrite (IH _ (told c [r])) by (cbn; apply lookup_insert_eq). unfold with_subscribers. cbn. by rewrite insert_insert_eq, told_told.
Qed.
Lemma header_run s i n h : Reply.mbulkhdr shared !! n = Some h -> addReplyHeader shared i n s = send i (ReplySpec.CObj h) s.
Proof. intros H. unfold addReplyHeader, need. unfold mbind, P_bind. by rewrite H. Qed.

(** The operation [m] takes the client from [c] to [c'] and has the value
    [a]. *)
Definition does {A} i c (m : P A) c' (a : A) : Prop :=
  forall s, pubsub_ok s -> subscribers s !! i = Some c -> exists s', m s = Some (a, s') /\ pubsub_ok s' /\ subscribers s' = <[i := c']> (subscribers s).

Lemma does_bind {A B} i c c1 c2 (m : P A) (k : A -> P B) a b : does i c m c1 a -> does i c1 (k a) c2 b -> does i c (m ≫= k) c2 b.
Proof.
  intros Hm Hk s Hok Hc. destruct (Hm s Hok Hc) as (s1 & E1 & Ok1 & S1). rewrite (P_run _ _ _ _ _ E1).
  destruct (Hk s1 Ok1) as (s2 & E2 & Ok2 & S2); [by rewrite S1, lookup_insert_eq|]. exists s2. split; [done|]. split; [done|]. by rewrite S2, S1, insert_insert_eq.
Qed.
Lemma does_ret {A} i c (a : A) : does i c (mret a) c a.
Proof. intros s Hok Hc. exists s. split; [done|]. split; [done|]. by rewrite insert_id. Qed.
Lemma does_get i c : does i c (subscriber_of i) c c.
Proof. intros s Hok Hc. exists s. unfold subscriber_of. rewrite Hc. split; [done|]. split; [done|]. by rewrite insert_id. Qed.
Lemma does_sends i c rs : does i c (sends i rs) (told c rs) tt.
Proof. intros s Hok Hc. rewrite (sends_run i rs s c Hc). eexists. split; [done|]. split; [by apply (ok_replies s i c)|done]. Qed.
Lemma does_send i c r : does i c (send i r) (told c [r]) tt.
Proof. intros s Hok Hc. rewrite (send_run s i c r Hc). eexists. split; [done|]. split; [by apply (ok_replies s i c)|done]. Qed.
Lemma does_header i c n h : Reply.mbulkhdr shared !! n = Some h -> does i c (addReplyHeader shared i n) (told c [ReplySpec.CObj h]) tt.
Proof. intros Hh s Hok Hc. rewrite (header_run s i n h Hh). by apply does_send. Qed.
Lemma does_eq {A} i c (m : P A) c1 c2 a : does i c m c1 a -> c1 = c2 -> does i c m c2 a.
Proof. by intros H <-. Qed.

Lemma does_note i c kind name : does i c (notify_client shared i kind name) (noted c kind name) tt.
Proof.
  unfold notify_client. eapply does_eq.
  - eapply does_bind; [by apply does_header|cbv beta]. eapply does_bind; [apply does_send|cbv beta].
    eapply does_bind; [instantiate (1 := tt); instantiate (1 := told _ [match name with Some k => ReplySpec.CBulkCBuffer k | None => ReplySpec.CObj (Reply.nullbulk shared) end]); destruct name; apply does_send|cbv beta].
    eapply does_bind; [apply does_get|cbv beta]. apply does_send.
  - unfold noted. rewrite !told_told. done.
Qed.
Lemma does_notify i c (notify : bool) kind name : does i c (if notify then notify_client shared i kind name else mret tt) (if notify then noted c kind name else c) tt.
Proof. destruct notify; [apply does_note|apply does_ret]. Qed.

Lemma does_subscribe i c channel : does i c (pubsubSubscribeChannel shared i channel) (c_subscribe c channel) (negb (bool_decide (channel ∈ sub_channels c))).
Proof.
  unfold pubsubSubscribeChannel, c_subscribe. eapply does_bind; [apply does_get|cbv beta]. eapply does_bind; [|eapply does_bind; [apply does_note|apply does_ret]].
  case_bool_decide as Hin; [apply does_ret|]. intros s Hok Hc. eexists. split; [reflexivity|]. split; [|done]. by apply (ok_add_channel s i c channel).
Qed.
Lemma does_unsubscribe i c channel notify : does i c (pubsubUnsubscribeChannel shared i channel notify) (c_unsubscribe notify c channel) (bool_decide (channel ∈ sub_channels c)).
Proof.
  unfold pubsubUnsubscribeChannel, c_unsubscribe. eapply does_bind; [apply does_get|cbv beta]. eapply does_bind; [|eapply does_bind; [apply does_notify|apply does_ret]].
  case_bool_decide as Hin; [|apply does_ret]. intros s Hok Hc. destruct (ok_del_channel s i c channel Hok Hc Hin) as (l & l' & El & Hr & Hok').
  unfold mbind, P_bind, set_subscriber, tables, need. cbn [with_subscribers pubsub_channels]. rewrite El, Hr. eexists. split; [reflexivity|]. by split.
Qed.
Lemma does_psubscribe i c pattern : does i c (pubsubSubscribePattern shared i pattern) (c_psubscribe c pattern) (negb (bool_decide (pattern ∈ sub_patterns c))).
Proof.
  unfold pubsubSubscribePattern, c_psubscribe. eapply does_bind; [apply does_get|cbv beta]. eapply does_bind; [|eapply does_bind; [apply does_note|apply does_ret]].
  case_bool_decide as Hin; [apply does_ret|]. intros s Hok Hc. eexists. split; [reflexivity|]. split; [|done]. by apply (ok_add_pattern s i c pattern).
Qed.
Lemma does_punsubscribe i c pattern notify : does i c (pubsubUnsubscribePattern shared i pattern notify) (c_punsubscribe notify c pattern) (bool_decide (pattern ∈ sub_patterns c)).
Proof.
  unfold pubsubUnsubscribePattern, c_punsubscribe. eapply does_bind; [apply does_get|cbv beta]. eapply does_bind; [|eapply does_bind; [apply does_notify|apply does_ret]].
  case_bool_decide as Hin; [|rewrite remove_node_none by done; apply does_ret]. destruct (remove_node_spec _ _ Hin) as (l & Hl & _). rewrite Hl.
  intros s Hok Hc. destruct (ok_del_pattern s i c pattern l Hok Hc Hl) as (pp & Hr & Hok').
  unfold mbind, P_bind, set_subscriber, tables, need. cbn [with_subscribers pubsub_patterns]. rewrite Hr. eexists. split; [reflexivity|]. by split.
Qed.

(** ** Several names *)

Lemma does_for_each i (f : key -> P bool) (g : subscriber -> key -> subscriber) (v : subscriber -> key -> bool) names :
  (forall c k, does i c (f k) (g c k) (v c k)) -> forall c, does i c (for_each f names) (foldl g c names) tt.
Proof. intros H. induction names as [|k names IH]; intros c; cbn [for_each foldl]; [apply does_ret|]. eapply does_bind; [apply H|apply IH]. Qed.
Lemma does_each i (f : key -> P bool) (g : subscriber -> key -> subscriber) (v : subscriber -> key -> bool) names : (forall c k, does i c (f k) (g c k) (v c k)) ->
  forall c n, exists n', does i c (unsubscribe_each f names n) (foldl g c names) n' /\ n + match names with k :: _ => Z.b2z (v c k) | [] => 0 end <= n' /\ (names = [] -> n' = n).
Proof.
  intros H. induction names as [|k names IH]; intros c n; cbn [unsubscribe_each foldl].
  - exists n. split; [apply does_ret|]. split; [lia|done].
  - destruct (IH (g c k) (n + Z.b2z (v c k))) as (n' & Hd & Hn & _). exists n'. split; [eapply does_bind; [apply H|exact Hd]|]. split; [|done].
    assert (forall b, 0 <= Z.b2z b) as Hb by (intros []; cbn; lia). destruct names as [|k' names]; [lia|]. specialize (Hb (v (g c k) k')). lia.
Qed.

Lemma does_unsubscribe_all i c notify : exists n, does i c (pubsubUnsubscribeAllChannels shared channel_order i notify) (c_unsubscribe_all notify c) n.
Proof.
  unfold pubsubUnsubscribeAllChannels, c_unsubscribe_all.
  destruct (does_each i (fun channel => pubsubUnsubscribeChannel shared i channel notify) (c_unsubscribe notify) (fun c k => bool_decide (k ∈ sub_channels c)) (channel_order (sub_channels c))
    (fun c k => does_unsubscribe i c k notify) c 0) as (n & Hd & Hn & H0). exists n.
  assert ((n =? 0) = bool_decide (sub_channels c = ∅)) as Hz.
  { pose proof (Horder (sub_channels c)) as Hp. destruct (channel_order (sub_channels c)) as [|k l].
    - rewrite H0 by done. apply Permutation_nil_l in Hp. symmetry. apply bool_decide_eq_true. symmetry in Hp. apply elements_empty_inv in Hp. by apply leibniz_equiv.
    - assert (k ∈ sub_channels c) as Hk by (apply elem_of_elements; rewrite <-Hp; by left). rewrite bool_decide_eq_true_2 in Hn by done. cbn in Hn. rewrite (proj2 (Z.eqb_neq n 0)) by lia.
      symmetry. apply bool_decide_eq_false. intros He. rewrite He in Hk. by apply elem_of_empty in Hk. }
  rewrite <-Hz. eapply does_bind; [apply does_get|cbv beta]. eapply does_bind; [exact Hd|cbv beta]. eapply does_bind; [apply does_notify|apply does_ret].
Qed.
Lemma does_punsubscribe_all i c notify : exists n, does i c (pubsubUnsubscribeAllPatterns shared i notify) (c_punsubscribe_all notify c) n.
Proof.
  unfold pubsubUnsubscribeAllPatterns, c_punsubscribe_all.
  destruct (does_each i (fun pattern => pubsubUnsubscribePattern shared i pattern notify) (c_punsubscribe notify) (fun c k => bool_decide (k ∈ sub_patterns c)) (sub_patterns c)
    (fun c k => does_punsubscribe i c k notify) c 0) as (n & Hd & Hn & H0). exists n.
  assert ((n =? 0) = bool_decide (sub_patterns c = [])) as Hz.
  { destruct (sub_patterns c) as [|k l] eqn:El; [by rewrite H0|]. rewrite bool_decide_eq_true_2 in Hn by by left. cbn in Hn. rewrite (proj2 (Z.eqb_neq n 0)) by lia. done. }
  rewrite <-Hz. eapply does_bind; [apply does_get|cbv beta]. eapply does_bind; [exact Hd|cbv beta]. eapply does_bind; [apply does_notify|apply does_ret].
Qed.

(** ** Publishing *)

Lemma filter_sum {A} (f : A -> bool) l : length (filter (fun a => f a = true) l) = sum_list_with (fun a => if f a then 1%nat else 0%nat) l.
Proof. induction l as [|a l IH]; [done|]. cbn [sum_list_with]. destruct (f a) eqn:Ef; [rewrite filter_cons_True by done; cbn [length]; lia|rewrite filter_cons_False by congruence; lia]. Qed.
Lemma filter_eq {A} (f g : A -> bool) (l : list A) : (forall a, a ∈ l -> f a = g a) -> filter (fun a => f a = true) l = filter (fun a => g a = true) l.
Proof.
  induction l as [|a l IH]; intros H; [done|]. rewrite !filter_cons, IH by (intros b Hb; apply H; by right). by rewrite (H a) by by left.
Qed.
Lemma sum_plus {A} (f g : A -> nat) l : sum_list_with (fun a => (f a + g a)%nat) l = (sum_list_with f l + sum_list_with g l)%nat.
Proof. induction l as [|a l IH]; [done|]. cbn [sum_list_with]. lia. Qed.
Lemma sum_eq {A} (f g : A -> nat) l : (forall a, a ∈ l -> f a = g a) -> sum_list_with f l = sum_list_with g l.
Proof. induction l as [|a l IH]; intros H; [done|]. cbn [sum_list_with]. rewrite H by by left. f_equal. apply IH. intros b Hb. apply H. by right. Qed.
Lemma sum_one {A} (f g : A -> nat) (a : A) n l : NoDup l -> a ∈ l -> f a = (n + g a)%nat -> (forall b, b <> a -> f b = g b) -> sum_list_with f l = (n + sum_list_with g l)%nat.
Proof.
  intros Hl Ha Hf Hg. induction l as [|b l IH]; [by apply elem_of_nil in Ha|]. apply NoDup_cons in Hl as [Hb Hl]. cbn [sum_list_with]. apply elem_of_cons in Ha as [->|Ha].
  - rewrite Hf. assert (sum_list_with f l = sum_list_with g l) as -> by (apply sum_eq; intros x Hx; apply Hg; by intros ->). lia.
  - rewrite IH by done. rewrite Hg by by intros ->. lia.
Qed.

(** The patterns that match, all together and client by client. *)
Lemma matching_sum channel ids l : NoDup ids -> (forall p, p ∈ l -> pp_client p ∈ ids) ->
  length (filter (fun p => matches channel (pp_pattern p) = true) l) = sum_list_with (fun i => length (filter (fun p => matches channel p = true) (own_patterns l i))) ids.
Proof.
  intros Hids. induction l as [|[i p] l IH]; intros Hl.
  - clear. induction ids as [|i ids IH]; [done|]. cbn [sum_list_with]. rewrite <-IH. done.
  - specialize (IH (fun q Hq => Hl q (list_elem_of_further _ _ _ Hq))). pose proof (Hl (PubsubPattern i p) ltac:(by left)) as Hi. cbn in Hi.
    rewrite (sum_one _ (fun j => length (filter (fun p => matches channel p = true) (own_patterns l j))) i (if matches channel p then 1 else 0) ids Hids Hi).
    + rewrite <-IH. destruct (matches channel p) eqn:Em; [rewrite filter_cons_True by done; done|by rewrite filter_cons_False by (cbn [pp_pattern]; congruence)].
    + unfold own_patterns. rewrite filter_cons_True by done. cbn [fmap list_fmap pp_pattern]. destruct (matches channel p) eqn:Em; [by rewrite filter_cons_True by done|by rewrite filter_cons_False by congruence].
    + intros j Hj. unfold own_patterns. by rewrite filter_cons_False by (cbn; congruence).
Qed.

(** How many receive. *)
Lemma receivers_count s channel : pubsub_ok s ->
  (length (default [] (pubsub_channels s !! channel)) + length (filter (fun p => matches channel (pp_pattern p) = true) (pubsub_patterns s)))%nat = receivers channel (subscribers s).
Proof.
  intros [H1 H2 H3 H4]. unfold receivers, deliveries. rewrite sum_plus. set (L := map_to_list (subscribers s)). assert (NoDup L.*1) as HL by apply NoDup_fst_map_to_list. f_equal.
  - rewrite <-filter_sum. set (F := filter _ L). rewrite <-(length_fmap fst F). apply Permutation_length, NoDup_Permutation.
    + destruct (pubsub_channels s !! channel) as [l|] eqn:El; [by apply (H2 channel l)|constructor].
    + apply (sublist_NoDup F.*1 L.*1); [exact HL|]. apply fmap_sublist, sublist_filter.
    + intros i. rewrite H1. unfold channel_of. rewrite list_elem_of_fmap. split.
      * intros (c & Hc & Hin). exists (i, c). split; [done|]. apply list_elem_of_filter. split; [by apply bool_decide_eq_true|by apply elem_of_map_to_list].
      * intros ([j c] & -> & [Hin%bool_decide_eq_true Hc%elem_of_map_to_list]%list_elem_of_filter). by exists c.
  - rewrite (matching_sum channel L.*1); [|done|].
    + unfold L. clear HL L. assert (forall x, x ∈ map_to_list (subscribers s) -> own_patterns (pubsub_patterns s) x.1 = sub_patterns x.2) as H.
      { intros [i c] Hx%elem_of_map_to_list. by apply H3. }
      revert H. generalize (map_to_list (subscribers s)). intros L H. induction L as [|x L IH]; [done|]. cbn [fmap list_fmap sum_list_with]. rewrite (H x) by by left. f_equal. apply IH. intros y Hy. apply H. by right.
    + intros p Hp. destruct (H4 p Hp) as [c Hc]. apply list_elem_of_fmap. exists (pp_client p, c). split; [done|by apply elem_of_map_to_list].
Qed.

(** Replies to all clients. *)
Definition told_all (f : cid -> list reply) (m : gmap cid subscriber) : gmap cid subscriber := map_imap (fun i c => Some (told c (f i))) m.
Lemma told_all_lookup f m i : told_all f m !! i = (fun c => told c (f i)) <$> m !! i.
Proof. unfold told_all. rewrite map_lookup_imap. by destruct (m !! i). Qed.
Lemma told_nil c : told c [] = c.
Proof. unfold told. rewrite app_nil_r. by destruct c. Qed.
Lemma told_all_nil m : told_all (fun _ => []) m = m.
Proof. apply map_eq. intros i. rewrite told_all_lookup. destruct (m !! i); cbn; [by rewrite told_nil|done]. Qed.
Lemma told_all_told i c rs f m : m !! i = Some c -> told_all f (<[i := told c rs]> m) = told_all (fun j => (if decide (j = i) then rs else []) ++ f j) m.
Proof.
  intros Hc. apply map_eq. intros j. rewrite !told_all_lookup. destruct (decide (j = i)) as [->|Hj].
  - rewrite lookup_insert_eq, Hc. cbn. by rewrite told_told.
  - by rewrite lookup_insert_ne.
Qed.
Lemma told_all_ext f g m : (forall i, is_Some (m !! i) -> f i = g i) -> told_all f m = told_all g m.
Proof. intros H. apply map_eq. intros i. rewrite !told_all_lookup. destruct (m !! i) eqn:Em; cbn; [by rewrite H by (rewrite Em; by eexists)|done]. Qed.

Lemma P_chain4 {B} (m1 m2 m3 m4 : P unit) (k : P B) s : ((m1 ;; m2 ;; m3 ;; m4) ≫= (fun _ => k)) s = (m1 ;; m2 ;; m3 ;; m4 ;; k) s.
Proof. unfold mbind, P_bind. destruct (m1 s) as [[? s1]|]; [|done]. destruct (m2 s1) as [[? s2]|]; [|done]. by destruct (m3 s2) as [[? s3]|]. Qed.
Lemma P_chain5 {B} (m1 m2 m3 m4 m5 : P unit) (k : P B) s : ((m1 ;; m2 ;; m3 ;; m4 ;; m5) ≫= (fun _ => k)) s = (m1 ;; m2 ;; m3 ;; m4 ;; m5 ;; k) s.
Proof. unfold mbind, P_bind. destruct (m1 s) as [[? s1]|]; [|done]. destruct (m2 s1) as [[? s2]|]; [|done]. destruct (m3 s2) as [[? s3]|]; [|done]. by destruct (m4 s3) as [[? s4]|]. Qed.

Lemma does_channel_message i c channel message :
  does i c (addReplyHeader shared i 3 ;; addReplyShared shared i Reply.messagebulk ;; addReplyContent i channel ;; addReplyContent i message) (told c (channel_message channel message)) tt.
Proof.
  eapply does_eq; [eapply does_bind; [by apply does_header|cbv beta]; do 2 (eapply does_bind; [apply does_send|cbv beta]); apply does_send|]. by rewrite !told_told.
Qed.
Lemma does_pattern_message i c channel message pattern :
  does i c (addReplyHeader shared i 4 ;; addReplyShared shared i Reply.pmessagebulk ;; addReplyContent i pattern ;; addReplyContent i channel ;; addReplyContent i message)
    (told c (pattern_message channel message pattern)) tt.
Proof.
  eapply does_eq; [eapply does_bind; [by apply does_header|cbv beta]; do 3 (eapply does_bind; [apply does_send|cbv beta]); apply does_send|]. by rewrite !told_told.
Qed.

Lemma publish_clients_run channel message l : NoDup l -> forall s n, pubsub_ok s -> (forall i, i ∈ l -> is_Some (subscribers s !! i)) ->
  exists s', publish_clients shared channel message l n s = Some (n + Z.of_nat (length l), s') /\ pubsub_ok s' /\
    subscribers s' = told_all (fun i => if decide (i ∈ l) then channel_message channel message else []) (subscribers s).
Proof.
  induction l as [|i l IH]; intros Hl s n Hok Ha; cbn [publish_clients].
  - exists s. rewrite Z.add_0_r. split; [done|]. split; [done|]. rewrite <-(told_all_nil (subscribers s)) at 1. apply told_all_ext. intros i _. rewrite decide_False; [done|]. apply not_elem_of_nil.
  - apply NoDup_cons in Hl as [Hi Hl]. destruct (Ha i ltac:(by left)) as [c Hc]. destruct (does_channel_message i c channel message s Hok Hc) as (s1 & E1 & Ok1 & S1).
    destruct (IH Hl s1 (n + 1) Ok1) as (s2 & E2 & Ok2 & S2).
    { intros j Hj. rewrite S1. destruct (decide (j = i)) as [->|Hne]; [rewrite lookup_insert_eq; by eexists|rewrite lookup_insert_ne by done; apply Ha; by right]. }
    exists s2. split; [|split; [done|]].
    + rewrite <-P_chain4. rewrite (P_run _ _ _ _ _ E1), E2. do 2 f_equal. cbn [length]. lia.
    + rewrite S2, S1, (told_all_told i c _ _ _ Hc). apply told_all_ext. intros j _. destruct (decide (j = i)) as [->|Hne].
      * rewrite (decide_False (P := i ∈ l)) by done. rewrite decide_True by by left. by rewrite app_nil_r.
      * cbn [app]. destruct (decide (j ∈ l)) as [Hj|Hj]; [by rewrite decide_True by by right|]. rewrite decide_False; [done|]. by intros [?|?]%elem_of_cons.
Qed.

(** A pattern that the matcher can compare with the channel: it does not run
    off its end. *)
Definition fits channel pattern : Prop :=
  is_Some (stringmatchlen (pattern ++ [z2b 0]) (Z.of_nat (length pattern)) (channel ++ [z2b 0]) (Z.of_nat (length channel)) false).

Lemma publish_patterns_run channel message l : forall s n, pubsub_ok s -> (forall p, p ∈ l -> fits channel (pp_pattern p) /\ is_Some (subscribers s !! pp_client p)) ->
  exists s', publish_patterns shared channel message l n s = Some (n + Z.of_nat (length (filter (fun p => matches channel (pp_pattern p) = true) l)), s') /\ pubsub_ok s' /\
    subscribers s' = told_all (fun i => filter (fun p => matches channel p = true) (own_patterns l i) ≫= pattern_message channel message) (subscribers s).
Proof.
  induction l as [|[i p] l IH]; intros s n Hok Ha; cbn [publish_patterns].
  - exists s. rewrite Z.add_0_r. split; [done|]. split; [done|]. rewrite <-(told_all_nil (subscribers s)) at 1. by apply told_all_ext.
  - destruct (Ha (PubsubPattern i p) ltac:(by left)) as [[b Hb] [c Hc]]. cbn [pp_pattern pp_client] in *. assert (matches channel p = b) as Hm by (unfold matches; by rewrite Hb).
    rewrite (P_run (need _) _ s b s) by (unfold need; by rewrite Hb). unfold own_patterns. rewrite filter_cons. cbn [pp_pattern]. rewrite Hm. destruct b.
    + destruct (does_pattern_message i c channel message p s Hok Hc) as (s1 & E1 & Ok1 & S1). destruct (IH s1 (n + 1) Ok1) as (s2 & E2 & Ok2 & S2).
      { intros q Hq. destruct (Ha q ltac:(by right)) as [Hf Hs]. split; [done|]. rewrite S1. destruct (decide (pp_client q = i)) as [->|Hne]; [rewrite lookup_insert_eq; by eexists|by rewrite lookup_insert_ne]. }
      exists s2. split; [rewrite <-P_chain5; rewrite (P_run _ _ _ _ _ E1), E2; do 2 f_equal; rewrite decide_True by done; cbn [length]; lia|]. split; [done|].
      rewrite S2, S1, (told_all_told i c _ _ _ Hc). apply told_all_ext. intros j _. destruct (decide (j = i)) as [->|Hne].
      * rewrite filter_cons_True by done. cbn [fmap list_fmap pp_pattern]. rewrite filter_cons_True by done. done.
      * by rewrite filter_cons_False by (cbn; congruence).
    + destruct (IH s n Hok) as (s2 & E2 & Ok2 & S2); [intros q Hq; apply Ha; by right|]. exists s2. rewrite decide_False by done. split; [exact E2|]. split; [done|]. rewrite S2. apply told_all_ext. intros j _.
      destruct (decide (j = i)) as [->|Hne]; [|by rewrite filter_cons_False by (cbn; congruence)]. rewrite filter_cons_True by done. cbn [fmap list_fmap pp_pattern]. by rewrite filter_cons_False by congruence.
Qed.

Definition published channel message (m : gmap cid subscriber) : gmap cid subscriber := (fun c => told c (messages channel message c)) <$> m.
Lemma publish_run s channel message : pubsub_ok s -> (forall i c p, subscribers s !! i = Some c -> p ∈ sub_patterns c -> fits channel p) ->
  exists s', pubsubPublishMessage shared channel message s = Some (Z.of_nat (receivers channel (subscribers s)), s') /\ pubsub_ok s' /\ subscribers s' = published channel message (subscribers s).
Proof.
  intros Hok Hf. pose proof (receivers_count s channel Hok) as Hn. set (l := default [] (pubsub_channels s !! channel)) in *.
  assert (NoDup l) as Hl by (unfold l; destruct (pubsub_channels s !! channel) as [l'|] eqn:El; [by apply (po_lists _ Hok channel l')|constructor]).
  destruct (publish_clients_run channel message l Hl s 0 Hok) as (s1 & E1 & Ok1 & S1).
  { intros i Hi. apply (po_channels _ Hok) in Hi as (c & Hc & _). by exists c. }
  destruct (publish_patterns_run channel message (pubsub_patterns s) s1 (0 + Z.of_nat (length l)) Ok1) as (s2 & E2 & Ok2 & S2).
  { intros p Hp. destruct (po_alive _ Hok p Hp) as [c Hc]. split.
    - apply (Hf (pp_client p) c); [done|]. rewrite <-(proj2 (po_own _ Hok _ _ Hc)). unfold own_patterns. apply list_elem_of_fmap. exists p. split; [done|]. by apply list_elem_of_filter.
    - rewrite S1, told_all_lookup, Hc. by eexists. }
  exists s2. split; [|split; [done|]].
  - unfold pubsubPublishMessage. rewrite (P_run tables _ s s s eq_refl). rewrite (P_run _ _ s (0 + Z.of_nat (length l)) s1); [rewrite E2, <-Hn; do 2 f_equal; lia|].
    rewrite <-E1. unfold l. by destruct (pubsub_channels s !! channel).
  - rewrite S2, S1. apply map_eq. intros i. rewrite !told_all_lookup. unfold published. rewrite lookup_fmap. destruct (subscribers s !! i) as [c|] eqn:Hc; [|done]. cbn [fmap option_fmap option_map]. f_equal.
    rewrite told_told. unfold messages. rewrite (proj2 (po_own _ Hok _ _ Hc)). do 2 f_equal. destruct (bool_decide_reflect (channel ∈ sub_channels c)) as [Hin|Hin].
    + rewrite decide_True; [done|]. apply (po_channels _ Hok). by exists c.
    + rewrite decide_False; [done|]. intros H. apply (po_channels _ Hok) in H as (x & Hx & H). apply Hin. by replace c with x by congruence.
Qed.

(** ** Clients that go *)

Lemma unsubscribed_channels names : forall c, sub_channels (foldl (c_unsubscribe false) c names) = sub_channels c ∖ list_to_set names /\ sub_patterns (foldl (c_unsubscribe false) c names) = sub_patterns c.
Proof.
  induction names as [|k names IH]; intros c; cbn [foldl list_to_set].
  - split; [|done]. symmetry. apply leibniz_equiv, difference_empty.
  - destruct (IH (c_unsubscribe false c k)) as [-> ->]. unfold c_unsubscribe. case_bool_decide as Hk; (split; [|done]); cbn [sub_channels del_channel]; apply leibniz_equiv; set_solver +Hk.
Qed.
Lemma unsubscribed_patterns names : forall c, sub_channels (foldl (c_punsubscribe false) c names) = sub_channels c /\ (sub_patterns c = names -> sub_patterns (foldl (c_punsubscribe false) c names) = []).
Proof.
  induction names as [|k names IH]; intros c; cbn [foldl]; [done|]. destruct (IH (c_punsubscribe false c k)) as [-> H2]. split.
  - unfold c_punsubscribe. by destruct (remove_node k (sub_patterns c)).
  - intros Hn. apply H2. unfold c_punsubscribe. rewrite Hn. cbn [remove_node]. by rewrite decide_True.
Qed.

Lemma ok_free s i c : pubsub_ok s -> subscribers s !! i = Some c -> sub_channels c = ∅ -> sub_patterns c = [] -> pubsub_ok (with_subscribers s (delete i (subscribers s))).
Proof.
  intros [H1 H2 H3 H4] Hc Hch Hpa. constructor; unfold channel_of; cbn [with_subscribers pubsub_channels pubsub_patterns subscribers].
  - intros j ch. rewrite H1. unfold channel_of. destruct (decide (j = i)) as [->|Hne]; [|by rewrite lookup_delete_ne]. rewrite lookup_delete_eq, Hc. split; [|by intros (x & ? & _)].
    intros (x & [= <-] & Hx). rewrite Hch in Hx. by apply elem_of_empty in Hx.
  - done.
  - intros j x. destruct (decide (j = i)) as [->|Hne]; [by rewrite lookup_delete_eq|rewrite lookup_delete_ne by done; apply H3].
  - intros p Hp. destruct (decide (pp_client p = i)) as [Hi|Hne]; [|rewrite lookup_delete_ne by done; by apply H4]. exfalso. destruct (H3 _ _ Hc) as [_ Hown]. rewrite Hpa in Hown.
    assert (pp_pattern p ∈ own_patterns (pubsub_patterns s) i) as H by (apply list_elem_of_fmap; exists p; split; [done|by apply list_elem_of_filter]). rewrite Hown in H. by apply elem_of_nil in H.
Qed.
Lemma free_run s i c : pubsub_ok s -> subscribers s !! i = Some c ->
  exists s', freeClient shared channel_order i s = Some (tt, s') /\ pubsub_ok s' /\ subscribers s' = delete i (subscribers s).
Proof.
  intros Hok Hc. destruct (does_unsubscribe_all i c false) as [n Hn]. destruct (Hn s Hok Hc) as (s1 & E1 & Ok1 & S1). set (c1 := c_unsubscribe_all false c) in *.
  assert (subscribers s1 !! i = Some c1) as Hc1 by by rewrite S1, lookup_insert_eq. destruct (does_punsubscribe_all i c1 false) as [n' Hn']. destruct (Hn' s1 Ok1 Hc1) as (s2 & E2 & Ok2 & S2). set (c2 := c_punsubscribe_all false c1) in *.
  exists (with_subscribers s2 (delete i (subscribers s2))). split; [unfold freeClient; by rewrite (P_run _ _ _ _ _ E1), (P_run _ _ _ _ _ E2)|]. split.
  - apply (ok_free s2 i c2); [done|by rewrite S2, lookup_insert_eq|..]; unfold c2, c_punsubscribe_all; cbn [andb].
    + rewrite (proj1 (unsubscribed_patterns _ c1)). unfold c1, c_unsubscribe_all. cbn [andb]. rewrite (proj1 (unsubscribed_channels _ c)). apply leibniz_equiv. intros k. rewrite elem_of_difference, elem_of_list_to_set, (Horder (sub_channels c)), elem_of_elements. set_solver +.
    + by apply unsubscribed_patterns.
  - cbn [with_subscribers subscribers]. rewrite S2, S1. by rewrite !delete_insert_eq.
Qed.

(** ** Events *)

Definition client_event (ev : pubsub_event) c : subscriber :=
  match ev with
  | PSubscribe _ args => foldl c_subscribe c args
  | PUnsubscribe _ args => match args with [] => c_unsubscribe_all true c | _ => foldl (c_unsubscribe true) c args end
  | PPsubscribe _ args => foldl c_psubscribe c args
  | PPunsubscribe _ args => match args with [] => c_punsubscribe_all true c | _ => foldl (c_punsubscribe true) c args end
  | _ => c
  end.
Definition spec_event (m : gmap cid subscriber) (ev : pubsub_event) : gmap cid subscriber :=
  match ev with
  | PConnect i => <[i := Subscriber ∅ [] []]> m
  | PClose i => delete i m
  | PSubscribe i _ | PUnsubscribe i _ | PPsubscribe i _ | PPunsubscribe i _ => alter (client_event ev) i m
  | PPublish i args =>
    let channel := default [] (args !! 0%nat) in let message := default [] (args !! 1%nat) in
    alter (fun c => told c [ReplySpec.CLongLong (Z.of_nat (receivers channel m))]) i (published channel message m)
  end.
(** A new client has a new name, a command has a client and its arguments, and
    the patterns can be compared with the channel of a message. *)
Definition event_fits (m : gmap cid subscriber) (ev : pubsub_event) : Prop :=
  match ev with
  | PConnect i => m !! i = None
  | PClose i | PSubscribe i _ | PUnsubscribe i _ | PPsubscribe i _ | PPunsubscribe i _ => is_Some (m !! i)
  | PPublish i args => is_Some (m !! i) /\ length args = 2%nat /\ forall j c p, m !! j = Some c -> p ∈ sub_patterns c -> fits (default [] (args !! 0%nat)) p
  end.
Fixpoint events_fit (m : gmap cid subscriber) (evs : list pubsub_event) : Prop :=
  match evs with [] => True | ev :: evs => event_fits m ev /\ events_fit (spec_event m ev) evs end.
Fixpoint run_events (evs : list pubsub_event) : P unit :=
  match evs with [] => mret tt | ev :: evs => run_pubsub shared channel_order ev ;; run_events evs end.

Lemma alter_some (f : subscriber -> subscriber) (m : gmap cid subscriber) i c : m !! i = Some c -> alter f i m = <[i := f c]> m.
Proof.
  intros Hc. apply map_eq. intros j. destruct (decide (j = i)) as [->|Hj]; [by rewrite lookup_alter_eq, lookup_insert_eq, Hc|by rewrite lookup_alter_ne, lookup_insert_ne].
Qed.
Lemma ok_connect s i : pubsub_ok s -> subscribers s !! i = None -> pubsub_ok (with_subscribers s (<[i := Subscriber ∅ [] []]> (subscribers s))).
Proof.
  intros [H1 H2 H3 H4] Hn. constructor; unfold channel_of; cbn [with_subscribers pubsub_channels pubsub_patterns subscribers].
  - intros j ch. rewrite H1. unfold channel_of. destruct (decide (j = i)) as [->|Hne]; [|by rewrite lookup_insert_ne]. rewrite lookup_insert_eq, Hn. split; [by intros (x & ? & _)|]. intros (x & [= <-] & Hx). by apply elem_of_empty in Hx.
  - done.
  - intros j x. destruct (decide (j = i)) as [->|Hne]; [|rewrite lookup_insert_ne by done; apply H3]. rewrite lookup_insert_eq. intros [= <-]. split; [constructor|]. cbn.
    unfold own_patterns. destruct (filter _ _) as [|p l] eqn:El; [done|]. assert (p ∈ filter (fun p => pp_client p = i) (pubsub_patterns s)) as [Hi Hp]%list_elem_of_filter by (rewrite El; by left). destruct (H4 p Hp) as [x Hx]. congruence.
  - intros p Hp. destruct (H4 p Hp) as [x Hx]. rewrite lookup_insert_ne by congruence. by exists x.
Qed.

Lemma does_command i c ev m : (exists a, does i c m (client_event ev c) a) -> forall s, pubsub_ok s -> subscribers s !! i = Some c ->
  exists s' a, m s = Some (a : unit, s') /\ pubsub_ok s' /\ subscribers s' = alter (client_event ev) i (subscribers s).
Proof. intros [a H] s Hok Hc. destruct (H s Hok Hc) as (s' & E & Ok & S). exists s', a. split; [done|]. split; [done|]. by rewrite S, (alter_some _ _ _ _ Hc). Qed.

Lemma event_run s ev : pubsub_ok s -> event_fits (subscribers s) ev ->
  exists s', run_pubsub shared channel_order ev s = Some (tt, s') /\ pubsub_ok s' /\ subscribers s' = spec_event (subscribers s) ev.
Proof.
  intros Hok Hf. destruct ev as [i|i|i args|i args|i args|i args|i args]; cbn [event_fits run_pubsub spec_event] in *.
  - eexists. split; [reflexivity|]. split; [by apply ok_connect|done].
  - destruct Hf as [c Hc]. by apply (free_run s i c).
  - destruct Hf as [c Hc]. destruct (does_command i c (PSubscribe i args) (subscribeCommand shared i args)) with (s := s) as (s' & [] & H); [|done|done|by exists s'].
    exists tt. apply (does_for_each i _ c_subscribe (fun c k => negb (bool_decide (k ∈ sub_channels c)))). intros; apply does_subscribe.
  - destruct Hf as [c Hc]. destruct (does_command i c (PUnsubscribe i args) (unsubscribeCommand shared channel_order i args)) with (s := s) as (s' & [] & H); [|done|done|by exists s'].
    exists tt. destruct args as [|a args]; cbn [unsubscribeCommand client_event].
    + destruct (does_unsubscribe_all i c true) as [n Hn]. eapply does_bind; [exact Hn|apply does_ret].
    + apply (does_for_each i _ (c_unsubscribe true) (fun c k => bool_decide (k ∈ sub_channels c))). intros; apply does_unsubscribe.
  - destruct Hf as [c Hc]. destruct (does_command i c (PPsubscribe i args) (psubscribeCommand shared i args)) with (s := s) as (s' & [] & H); [|done|done|by exists s'].
    exists tt. apply (does_for_each i _ c_psubscribe (fun c k => negb (bool_decide (k ∈ sub_patterns c)))). intros; apply does_psubscribe.
  - destruct Hf as [c Hc]. destruct (does_command i c (PPunsubscribe i args) (punsubscribeCommand shared i args)) with (s := s) as (s' & [] & H); [|done|done|by exists s'].
    exists tt. destruct args as [|a args]; cbn [punsubscribeCommand client_event].
    + destruct (does_punsubscribe_all i c true) as [n Hn]. eapply does_bind; [exact Hn|apply does_ret].
    + apply (does_for_each i _ (c_punsubscribe true) (fun c k => bool_decide (k ∈ sub_patterns c))). intros; apply does_punsubscribe.
  - destruct Hf as ([c Hc] & Hl & Hp). destruct args as [|channel [|message [|? ?]]]; try done. cbn [lookup list_lookup default from_option id] in *.
    destruct (publish_run s channel message Hok Hp) as (s1 & E1 & Ok1 & S1). unfold publishCommand. cbn [lookup list_lookup]. rewrite (P_run (need (Some channel)) _ s channel s eq_refl), (P_run (need (Some message)) _ s message s eq_refl), (P_run _ _ _ _ _ E1).
    assert (subscribers s1 !! i = Some (told c (messages channel message c))) as Hc1 by (rewrite S1; unfold published; rewrite lookup_fmap, Hc; reflexivity).
    destruct (does_send i _ (ReplySpec.CLongLong (Z.of_nat (receivers channel (subscribers s)))) s1 Ok1 Hc1) as (s2 & E2 & Ok2 & S2). exists s2. split; [done|]. split; [done|]. rewrite S2. rewrite S1 in *. cbv zeta. by rewrite (alter_some _ _ _ _ Hc1).
Qed.
End Refinement.

Section Theorems.
Context (shared : Reply.sharedObjects) (channel_order : gset key -> list key) (hdr3 hdr4 : positive).
Context (Horder : forall m, channel_order m ≡ₚ elements m) (Hhdr3 : Reply.mbulkhdr shared !! 3%nat = Some hdr3) (Hhdr4 : Reply.mbulkhdr shared !! 4%nat = Some hdr4).

(** C9: as long as the events are [events_fit] (clients that connect are new,
    those that act are there, PUBLISH has its two arguments, and no subscribed
    pattern runs off its end when it is matched with the channel of a message:
    see [publish_overreads]), whatever clients come, subscribe, publish and go,
    no operation fails an assertion or looks for a node that is not there; the lists of the
    channels and of the patterns agree with the clients after each; and the
    clients are what the specification without those lists says: who is
    subscribed to what, what each was answered and sent, and in which order. *)
Theorem pubsub_refines evs : events_fit shared channel_order hdr3 hdr4 ∅ evs ->
  exists s, run_events shared channel_order evs no_tables = Some (tt, s) /\ pubsub_ok s /\ subscribers s = foldl (spec_event shared channel_order hdr3 hdr4) ∅ evs.
Proof.
  assert (forall s, pubsub_ok s -> events_fit shared channel_order hdr3 hdr4 (subscribers s) evs ->
    exists s', run_events shared channel_order evs s = Some (tt, s') /\ pubsub_ok s' /\ subscribers s' = foldl (spec_event shared channel_order hdr3 hdr4) (subscribers s) evs) as H.
  { induction evs as [|ev evs IH]; intros s Hok Hf; [by exists s|]. destruct Hf as [H1 H2]. destruct (event_run shared channel_order hdr3 hdr4 Horder Hhdr3 Hhdr4 s ev Hok H1) as (s1 & E1 & Ok1 & S1).
    destruct (IH s1 Ok1) as (s2 & E2 & Ok2 & S2); [by rewrite S1|]. exists s2. split; [cbn [run_events]; by rewrite (P_run _ _ _ _ _ E1)|]. split; [done|]. by rewrite S2, S1. }
  apply (H no_tables), no_tables_ok.
Qed.

(** Whether the pattern, read as a glob, matches the channel. *)
Definition wanted channel pattern : bool :=
  match glob_parse (length pattern) (char_val <$> pattern) with Some ts => glob false ts (char_val <$> channel) | None => false end.

(** C22: when the channel is not empty and every subscribed pattern parses as
    a glob, a message goes to each client once for the channel, if it is
    subscribed to it, and then once for each of its patterns that matches the
    channel as a glob, in the order it subscribed to them; nobody else hears
    anything, the subscriptions stay, and the reply counts the messages. *)
Theorem publish_delivers s channel message : pubsub_ok s -> channel <> [] ->
  (forall i c p, subscribers s !! i = Some c -> p ∈ sub_patterns c -> is_Some (glob_parse (length p) (char_val <$> p))) ->
  let news c := (if bool_decide (channel ∈ sub_channels c) then [channel_message shared hdr3 channel message] else []) ++
    (pattern_message shared hdr4 channel message <$> filter (fun p => wanted channel p = true) (sub_patterns c)) in
  exists s', pubsubPublishMessage shared channel message s = Some (Z.of_nat (sum_list_with (fun x => length (news x.2)) (map_to_list (subscribers s))), s') /\ pubsub_ok s' /\
    subscribers s' = (fun c => told c (concat (news c))) <$> subscribers s.
Proof.
  intros Hok Hne Hp news. assert (forall i c p, subscribers s !! i = Some c -> p ∈ sub_patterns c -> fits channel p /\ matches channel p = wanted channel p) as Hm.
  { intros i c p Hc Hin. destruct (Hp i c p Hc Hin) as [ts Hts]. pose proof (stringmatchlen_parsed p channel [z2b 0] false ts Hts Hne) as E. unfold fits, matches, wanted. rewrite E, Hts. split; [by eexists|done]. }
  assert (forall i c, subscribers s !! i = Some c -> filter (fun p => matches channel p = true) (sub_patterns c) = filter (fun p => wanted channel p = true) (sub_patterns c)) as Hfil.
  { intros i c Hc. apply filter_eq. intros p Hin. by rewrite (proj2 (Hm i c p Hc Hin)). }
  destruct (publish_run shared hdr3 hdr4 Hhdr3 Hhdr4 s channel message Hok) as (s' & E & Ok' & S'); [intros i c p Hc Hin; by apply (Hm i c)|].
  exists s'. split; [|split; [done|]].
  - rewrite E. do 2 f_equal. f_equal. unfold receivers. apply sum_eq. intros [i c] Hx%elem_of_map_to_list. unfold deliveries, news. cbn [snd]. rewrite length_app, length_fmap, (Hfil i c Hx). f_equal. by destruct (bool_decide _).
  - rewrite S'. apply map_eq. intros i. unfold published. rewrite !lookup_fmap. destruct (subscribers s !! i) as [c|] eqn:Hc; [|done]. cbn [fmap option_fmap option_map]. do 2 f_equal. unfold messages, news. rewrite (Hfil i c Hc), concat_app. f_equal; [destruct (bool_decide _); cbn [concat]; by rewrite ?app_nil_r|].
    generalize (filter (fun p => wanted channel p = true) (sub_patterns c)). intros l. induction l as [|p l IH]; [done|]. cbn [fmap list_fmap concat]. by rewrite <-IH.
Qed.
End Theorems.

(** ** A small run *)

Definition small_shared : Reply.sharedObjects := Reply.SharedObjects 1 2 3 4 5 6 7 8 9 10 11 12 13 14 15 16 17 18 19 20 21 22 23 24 25 26 27 [40; 41; 42; 43; 44]%positive [].
Definition small_events : list pubsub_event :=
  [PConnect 1; PConnect 2; PSubscribe 1 [text "news"; text "news"]; PPsubscribe 2 [text "n*"; text "[m-o]ews"]; PPublish 1 [text "news"; text "hi"]; PUnsubscribe 1 []; PClose 2].

Definition fitsb channel pattern : bool := if stringmatchlen (pattern ++ [z2b 0]) (Z.of_nat (length pattern)) (channel ++ [z2b 0]) (Z.of_nat (length channel)) false is Some _ then true else false.
Definition event_fitsb (m : gmap cid subscriber) (ev : pubsub_event) : bool :=
  match ev with
  | PConnect i => bool_decide (m !! i = None)
  | PClose i | PSubscribe i _ | PUnsubscribe i _ | PPsubscribe i _ | PPunsubscribe i _ => if m !! i is Some _ then true else false
  | PPublish i args => (if m !! i is Some _ then true else false) && (length args =? 2)%nat && forallb (fun x => forallb (fitsb (default [] (args !! 0%nat))) (sub_patterns x.2)) (map_to_list m)
  end.

Section Check.
Context (shared : Reply.sharedObjects) (channel_order : gset key -> list key) (hdr3 hdr4 : positive).
Fixpoint events_fitb (m : gmap cid subscriber) (evs : list pubsub_event) : bool :=
  match evs with [] => true | ev :: evs => event_fitsb m ev && events_fitb (spec_event shared channel_order hdr3 hdr4 m ev) evs end.
Lemma event_fitsb_ok m ev : event_fitsb m ev = true -> event_fits m ev.
Proof.
  destruct ev as [i|i|i args|i args|i args|i args|i args]; cbn [event_fitsb event_fits]; try (destruct (m !! i); [by eexists|done]); [apply bool_decide_eq_true|].
  intros [[H1 H2%Nat.eqb_eq]%andb_true_iff H3]%andb_true_iff. split; [destruct (m !! i); [by eexists|done]|]. split; [done|]. intros j c p Hc Hp. rewrite forallb_forall in H3.
  specialize (H3 (j, c)). cbn [snd] in H3. rewrite forallb_forall in H3. specialize (H3 ltac:(by apply list_elem_of_In, elem_of_map_to_list) p ltac:(by apply list_elem_of_In)). unfold fitsb in H3. unfold fits. destruct (stringmatchlen _ _ _ _ _); [by eexists|done].
Qed.
Lemma events_fitb_ok evs : forall m, events_fitb m evs = true -> events_fit shared channel_order hdr3 hdr4 m evs.
Proof. induction evs as [|ev evs IH]; intros m; [done|]. cbn [events_fitb events_fit]. intros [H1 H2]%andb_true_iff. split; [by apply event_fitsb_ok|by apply IH]. Qed.
End Check.

Lemma pubsub_refines_witness : exists s, run_events small_shared elements small_events no_tables = Some (tt, s) /\ pubsub_ok s /\ subscribers s = foldl (spec_event small_shared elements 43 44) ∅ small_events.
Proof. apply (pubsub_refines small_shared elements 43 44); [reflexivity|reflexivity|reflexivity|]. apply events_fitb_ok. vm_compute. reflexivity. Defined.

Definition small_state : pubsubServer :=
  PubsubServer {[text "news" := [1%positive]]} [PubsubPattern 1 (text "n*"); PubsubPattern 1 (text "x")] {[1%positive := Subscriber {[text "news"]} [text "n*"; text "x"] []]}.
Lemma small_state_ok : pubsub_ok small_state.
Proof.
  constructor; unfold channel_of; cbn [small_state pubsub_channels pubsub_patterns subscribers].
  - intros i ch. destruct (decide (ch = text "news")) as [->|Hch]; [rewrite lookup_singleton_eq|rewrite lookup_singleton_ne by done]; cbn [default from_option id].
    + rewrite list_elem_of_singleton. split; [intros ->; eexists; split; [apply lookup_singleton_eq|cbn [sub_channels]; by apply elem_of_singleton]|]. intros (c & [Hi _]%lookup_singleton_Some & _). done.
    + split; [by intros ?%elem_of_nil|]. intros (c & [_ <-]%lookup_singleton_Some & Hin). cbn [sub_channels] in Hin. by apply elem_of_singleton in Hin.
  - intros ch l [_ <-]%lookup_singleton_Some. split; [done|apply NoDup_singleton].
  - intros i c [<- <-]%lookup_singleton_Some. split; [|reflexivity]. apply (bool_decide_unpack _). by vm_compute.
  - intros p Hp. exists (Subscriber {[text "news"]} [text "n*"; text "x"] []). apply elem_of_cons in Hp as [->|Hp]; [apply lookup_singleton_eq|]. apply list_elem_of_singleton in Hp as ->. apply lookup_singleton_eq.
Qed.
Lemma publish_delivers_witness : exists s', pubsubPublishMessage small_shared (text "news") (text "hi") small_state = Some (2, s') /\ pubsub_ok s'.
Proof.
  destruct (publish_delivers small_shared 43 44 ltac:(reflexivity) ltac:(reflexivity) small_state (text "news") (text "hi") small_state_ok) as (s' & H1 & H2 & _).
  - discriminate.
  - intros i c p Hc Hp. cbn [small_state subscribers] in Hc. apply lookup_singleton_Some in Hc as [_ <-]. cbn [sub_patterns] in Hp. apply elem_of_cons in Hp as [->|Hp]; [vm_compute; by eexists|]. apply list_elem_of_singleton in Hp as ->. vm_compute. by eexists.
  - exists s'. split; [|exact H2]. rewrite H1. vm_compute. reflexivity.
Defined.

(** What the small run sends: two patterns match, so the second client hears
    the message twice. *)
Lemma small_run : (r ← run_events small_shared elements (take 5 small_events) no_tables; sub_replies <$> subscribers r.2 !! 2%positive) = Some
    [ReplySpec.CObj 43; ReplySpec.CObj (Reply.psubscribebulk small_shared); ReplySpec.CBulkCBuffer (text "n*"); ReplySpec.CLongLong 1;
     ReplySpec.CObj 43; ReplySpec.CObj (Reply.psubscribebulk small_shared); ReplySpec.CBulkCBuffer (text "[m-o]ews"); ReplySpec.CLongLong 2;
     ReplySpec.CObj 44; ReplySpec.CObj (Reply.pmessagebulk small_shared); ReplySpec.CBulkCBuffer (text "n*"); ReplySpec.CBulkCBuffer (text "news"); ReplySpec.CBulkCBuffer (text "hi");
     ReplySpec.CObj 44; ReplySpec.CObj (Reply.pmessagebulk small_shared); ReplySpec.CBulkCBuffer (text "[m-o]ews"); ReplySpec.CBulkCBuffer (text "news"); ReplySpec.CBulkCBuffer (text "hi")].
Proof. vm_compute. reflexivity. Qed.

(** A pattern that runs off its end is accepted, and the next message reads
    behind it. *)
Lemma publish_overreads : run_events small_shared elements [PConnect 1; PPsubscribe 1 [text "[\"]; PPublish 1 [text "news"; text "hi"]] no_tables = None.
Proof. vm_compute. reflexivity. Qed.
