(* ===== verification/Zipmap.v ===== *)
(** Zipmap: the packed maps of strings of [zipmap.c], on a block of bytes with
    offsets for pointers; the layout of the block as a list of entries with
    their free bytes; and the refinement of association lists by any sequence
    of the operations ([zipmap_refines_map]). *)
From Stdlib Require Strings.String.
From S2P Require Import Prelude Endian.

Definition ZIPMAP_BIGLEN : Z := 254.
Definition ZIPMAP_END : Z := 255.
Definition ZIPMAP_VALUE_MAX_FREE : Z := 4.
Definition ZIPMAP_LEN_BYTES (l : Z) : Z := if l <? ZIPMAP_BIGLEN then 1 else 4 + 1.

Section Zipmap.
(** The host's byte order and the content of memory never written. *)
Context (be : bool) (junk : nat -> byte).
Implicit Types (zm key val : list byte) (p : Z).

Definition zipmapNew : list byte := [z2b 0; z2b ZIPMAP_END].

Definition zipmapDecodeLength zm p : option Z :=
  len ← getb zm p;
  if len <? ZIPMAP_BIGLEN then Some len
  else bs ← mem_read zm (p + 1) 4; Some (host_load be (memrev32ifbe be bs)).

(** [p] is [None] for the null pointer. *)
Definition zipmapEncodeLength zm (p : option Z) (len : Z) : option (list byte * Z) :=
  match p with
  | None => Some (zm, ZIPMAP_LEN_BYTES len)
  | Some p =>
    if len <? ZIPMAP_BIGLEN then zm ← setb zm p len; Some (zm, 1)
    else
      zm ← setb zm p ZIPMAP_BIGLEN;
      zm ← mem_write zm (p + 1) (host_store be 4 len);
      bs ← mem_read zm (p + 1) 4;
      zm ← mem_write zm (p + 1) (memrev32ifbe be bs);
      Some (zm, 1 + 4)
  end.

(** The loop up to [ZIPMAP_END]: [k] and [p] at the end, or at the key when
    nobody asks for the total length. *)
Fixpoint lookup_loop (fuel : nat) zm p (key : option (list byte)) (total : bool) (k : option Z) : option (option Z * Z) :=
  match fuel with
  | O => None
  | S fuel =>
    b ← getb zm p;
    if b =? ZIPMAP_END then Some (k, p)
    else
      l ← zipmapDecodeLength zm p;
      '(_, llen) ← zipmapEncodeLength zm None l;
      hit ← match key, k with
            | Some key, None =>
              if l =? Z.of_nat (length key) then bs ← mem_read zm (p + llen) l; Some (bool_decide (bs = key)) else Some false
            | _, _ => Some false
            end;
      if (hit : bool) && negb total then Some (Some p, p)
      else
        let k := if hit : bool then Some p else k in
        let p := p + u32 (llen + l) in
        l ← zipmapDecodeLength zm p;
        '(_, n) ← zipmapEncodeLength zm None l;
        let p := p + n in
        free ← getb zm p;
        lookup_loop fuel zm (p + u32 (l + 1 + free)) key total k
  end.
(** The key and [*totlen]; with a round more than there are bytes. *)
Definition zipmapLookupRaw zm (key : option (list byte)) (total : bool) : option (option Z * Z) :=
  '(k, p) ← lookup_loop (S (length zm)) zm 1 key total None;
  Some (k, u32 (u32 p + 1)).

Definition zipmapRequiredLength (klen vlen : Z) : Z :=
  let l := u32 (klen + vlen + 3) in
  let l := if ZIPMAP_BIGLEN <=? klen then u32 (l + 4) else l in
  if ZIPMAP_BIGLEN <=? vlen then u32 (l + 4) else l.

Definition zipmapRawKeyLength zm p : option Z :=
  l ← zipmapDecodeLength zm p; '(_, n) ← zipmapEncodeLength zm None l; Some (u32 (n + l)).
Definition zipmapRawValueLength zm p : option Z :=
  l ← zipmapDecodeLength zm p;
  '(_, used) ← zipmapEncodeLength zm None l;
  free ← getb zm (p + used);
  Some (u32 (used + (free + 1 + l))).
Definition zipmapRawEntryLength zm p : option Z :=
  l ← zipmapRawKeyLength zm p; n ← zipmapRawValueLength zm (p + l); Some (u32 (l + n)).

Definition zipmapResize zm (len : Z) : option (list byte) := setb (mem_resize junk zm len) (u32 (len - 1)) ZIPMAP_END.

(** [memmove(p+reqlen, p+freelen, zmlen-(offset+freelen+1))] *)
Definition move_tail zm p (reqlen freelen zmlen : Z) : option (list byte) :=
  memmove zm (p + reqlen) (p + freelen) (u32 (zmlen - u32 (p + freelen + 1))).

(** Room for an entry of [reqlen] bytes, at the end or in place of the key's:
    the block, [p], [zmlen], [freelen] and [*update]. *)
Definition set_room zm key (reqlen : Z) : option (list byte * Z * Z * Z * bool) :=
  '(p, zmlen) ← zipmapLookupRaw zm (Some key) true;
  match p with
  | None =>
    zm ← zipmapResize zm (u32 (zmlen + reqlen));
    b ← getb zm 0;
    zm ← (if b <? ZIPMAP_BIGLEN then setb zm 0 (b + 1) else Some zm);
    Some (zm, zmlen - 1, u32 (zmlen + reqlen), reqlen, false)
  | Some p =>
    freelen ← zipmapRawEntryLength zm p;
    if freelen <? reqlen then
      zm ← zipmapResize zm (u32 (zmlen - freelen + reqlen));
      zm ← move_tail zm p reqlen freelen zmlen;
      Some (zm, p, u32 (zmlen - freelen + reqlen), reqlen, true)
    else Some (zm, p, zmlen, freelen, true)
  end.

(** The bytes too many are given back: the block and [vempty]. *)
Definition set_trim zm p (reqlen freelen zmlen : Z) : option (list byte * Z) :=
  let empty := u32 (freelen - reqlen) in
  if ZIPMAP_VALUE_MAX_FREE <=? empty then
    zm ← move_tail zm p reqlen freelen zmlen;
    zm ← zipmapResize zm (u32 (zmlen - empty));
    Some (zm, 0)
  else Some (zm, empty).

Definition write_entry zm p key val (vempty : Z) : option (list byte) :=
  let klen := Z.of_nat (length key) in
  let vlen := Z.of_nat (length val) in
  '(zm, n) ← zipmapEncodeLength zm (Some p) klen;
  let p := p + n in
  zm ← mem_write zm p key;
  let p := p + klen in
  '(zm, n) ← zipmapEncodeLength zm (Some p) vlen;
  let p := p + n in
  zm ← setb zm p vempty;
  mem_write zm (p + 1) val.

(** The block and [*update]. *)
Definition zipmapSet zm key val : option (list byte * bool) :=
  let reqlen := zipmapRequiredLength (Z.of_nat (length key)) (Z.of_nat (length val)) in
  '(zm, p, zmlen, freelen, update) ← set_room zm key reqlen;
  '(zm, vempty) ← set_trim zm p reqlen freelen zmlen;
  zm ← write_entry zm p key val vempty;
  Some (zm, update).

(** The block and [*deleted]. *)
Definition zipmapDel zm key : option (list byte * bool) :=
  '(p, zmlen) ← zipmapLookupRaw zm (Some key) true;
  match p with
  | Some p =>
    freelen ← zipmapRawEntryLength zm p;
    zm ← move_tail zm p 0 freelen zmlen;
    zm ← zipmapResize zm (u32 (zmlen - freelen));
    b ← getb zm 0;
    zm ← (if b <? ZIPMAP_BIGLEN then setb zm 0 (b - 1) else Some zm);
    Some (zm, true)
  | None => Some (zm, false)
  end.

Definition zipmapRewind : Z := 1.
(** [None] is the null pointer; else the next pointer, and the pointers and
    lengths of the key and the value. *)
Definition zipmapNext zm p : option (option (Z * (Z * Z) * (Z * Z))) :=
  b ← getb zm p;
  if b =? ZIPMAP_END then Some None
  else
    klen ← zipmapDecodeLength zm p;
    n ← zipmapRawKeyLength zm p;
    let p1 := p + n in
    vlen ← zipmapDecodeLength zm p1;
    m ← zipmapRawValueLength zm p1;
    Some (Some (p1 + m, (p + ZIPMAP_LEN_BYTES klen, klen), (p1 + 1 + ZIPMAP_LEN_BYTES vlen, vlen))).

(** The pointer to the value and its length. *)
Definition zipmapGet zm key : option (option (Z * Z)) :=
  '(p, _) ← zipmapLookupRaw zm (Some key) false;
  match p with
  | None => Some None
  | Some p =>
    n ← zipmapRawKeyLength zm p;
    vlen ← zipmapDecodeLength zm (p + n);
    Some (Some (p + n + ZIPMAP_LEN_BYTES vlen + 1, vlen))
  end.
Definition zipmapExists zm key : option bool := '(p, _) ← zipmapLookupRaw zm (Some key) false; Some (if p is Some _ then true else false).

Fixpoint count_loop (fuel : nat) zm p (len : Z) : option Z :=
  match fuel with
  | O => None
  | S fuel => r ← zipmapNext zm p; match r with None => Some len | Some (p, _, _) => count_loop fuel zm p (u32 (len + 1)) end
  end.
(** The length, and the block in which it may be stored again. *)
Definition zipmapLen zm : option (Z * list byte) :=
  b ← getb zm 0;
  if b <? ZIPMAP_BIGLEN then Some (b, zm)
  else
    len ← count_loop (S (length zm)) zm zipmapRewind 0;
    zm ← (if len <? ZIPMAP_BIGLEN then setb zm 0 len else Some zm);
    Some (len, zm).
Definition zipmapBlobLen zm : option Z := '(_, totlen) ← zipmapLookupRaw zm None true; Some totlen.

(** What a client sees who reads the strings of every round of the iterator. *)
Fixpoint pairs_loop (fuel : nat) zm p : option (list (list byte * list byte)) :=
  match fuel with
  | O => None
  | S fuel =>
    r ← zipmapNext zm p;
    match r with
    | None => Some []
    | Some (p, (kp, klen), (vp, vlen)) =>
      k ← mem_read zm kp klen; v ← mem_read zm vp vlen; l ← pairs_loop fuel zm p; Some ((k, v) :: l)
    end
  end.
Definition zipmap_pairs zm : option (list (list byte * list byte)) := pairs_loop (S (length zm)) zm zipmapRewind.
End Zipmap.

(** ** The abstract map: an association list in insertion order *)

Abbreviation pairs := (list (list byte * list byte)).
Fixpoint assoc (key : list byte) (l : pairs) : option (list byte) :=
  match l with [] => None | (k, v) :: l => if decide (k = key) then Some v else assoc key l end.
Fixpoint assign (key val : list byte) (l : pairs) : pairs :=
  match l with [] => [(key, val)] | (k, v) :: l => if decide (k = key) then (key, val) :: l else (k, v) :: assign key val l end.
Fixpoint erase (key : list byte) (l : pairs) : pairs :=
  match l with [] => [] | (k, v) :: l => if decide (k = key) then l else (k, v) :: erase key l end.
Definition has (key : list byte) (l : pairs) : bool := if assoc key l is Some _ then true else false.

(** The operations of a client, who reads the bytes behind the pointers. *)
Inductive zop : Type :=
  | ZSet (key val : list byte)
  | ZDel (key : list byte)
  | ZGet (key : list byte)
  | ZExists (key : list byte)
  | ZLen
  | ZPairs.
Inductive zres : Type :=
  | ZFlag (b : bool)
  | ZValue (v : option (list byte))
  | ZCount (n : Z)
  | ZAll (l : pairs).

Definition map_step (l : pairs) (op : zop) : pairs * zres :=
  match op with
  | ZSet key val => (assign key val l, ZFlag (has key l))
  | ZDel key => (erase key l, ZFlag (has key l))
  | ZGet key => (l, ZValue (assoc key l))
  | ZExists key => (l, ZFlag (has key l))
  | ZLen => (l, ZCount (Z.of_nat (length l)))
  | ZPairs => (l, ZAll l)
  end.
Fixpoint map_run (l : pairs) (ops : list zop) : pairs * list zres :=
  match ops with [] => (l, []) | op :: ops => let '(l, r) := map_step l op in let '(l, rs) := map_run l ops in (l, r :: rs) end.

Definition zip_step (be : bool) (junk : nat -> byte) (zm : list byte) (op : zop) : option (list byte * zres) :=
  match op with
  | ZSet key val => '(zm, b) ← zipmapSet be junk zm key val; Some (zm, ZFlag b)
  | ZDel key => '(zm, b) ← zipmapDel be junk zm key; Some (zm, ZFlag b)
  | ZGet key =>
    r ← zipmapGet be zm key;
    match r with None => Some (zm, ZValue None) | Some (p, n) => v ← mem_read zm p n; Some (zm, ZValue (Some v)) end
  | ZExists key => b ← zipmapExists be zm key; Some (zm, ZFlag b)
  | ZLen => '(n, zm) ← zipmapLen be zm; Some (zm, ZCount n)
  | ZPairs => l ← zipmap_pairs be zm; Some (zm, ZAll l)
  end.
Fixpoint zip_run (be : bool) (junk : nat -> byte) (zm : list byte) (ops : list zop) : option (list byte * list zres) :=
  match ops with
  | [] => Some (zm, [])
  | op :: ops => '(zm, r) ← zip_step be junk zm op; '(zm, rs) ← zip_run be junk zm ops; Some (zm, r :: rs)
  end.

(** What an entry takes at most without its free bytes; the operations' total. *)
Definition pair_cost (kv : list byte * list byte) : Z := Z.of_nat (length kv.1) + Z.of_nat (length kv.2) + 11.
Fixpoint set_cost (ops : list zop) : Z :=
  match ops with [] => 0 | ZSet key val :: ops => pair_cost (key, val) + set_cost ops | _ :: ops => set_cost ops end.
(** What the contents take at most, free bytes included. *)
Fixpoint weight (l : pairs) : Z := match l with [] => 2 | kv :: l => pair_cost kv + 3 + weight l end.

(** ** The layout

    An entry: a key, a value, and the free bytes behind it. *)
Abbreviation zent := (list byte * list byte * list byte)%type.
Definition zkey (e : zent) : list byte := e.1.1.
Definition zval (e : zent) : list byte := e.1.2.
Definition zfree (e : zent) : list byte := e.2.

Definition len_bytes (n : Z) : list byte := if n <? ZIPMAP_BIGLEN then [z2b n] else z2b ZIPMAP_BIGLEN :: le_bytes 4 n.
Definition zlen (l : list byte) : Z := Z.of_nat (length l).
Definition entry (e : zent) : list byte := len_bytes (zlen (zkey e)) ++ zkey e ++ len_bytes (zlen (zval e)) ++ z2b (zlen (zfree e)) :: zval e ++ zfree e.
Definition body (es : list zent) : list byte := es ≫= entry.
Definition layout (c : Z) (es : list zent) : list byte := z2b c :: body es ++ [z2b ZIPMAP_END].

Lemma zlen_app l l' : zlen (l ++ l') = zlen l + zlen l'. Proof. unfold zlen. rewrite length_app. lia. Qed.
Lemma zlen_cons b l : zlen (b :: l) = 1 + zlen l. Proof. unfold zlen. cbn [length]. lia. Qed.
Lemma zlen_nonneg l : 0 <= zlen l. Proof. unfold zlen. lia. Qed.
Lemma zlen_len n : zlen (len_bytes n) = ZIPMAP_LEN_BYTES n.
Proof. unfold len_bytes, ZIPMAP_LEN_BYTES, zlen. destruct (n <? _); [done|]. cbn [length]. by rewrite length_le_bytes. Qed.
Lemma len_range n : 1 <= ZIPMAP_LEN_BYTES n <= 5. Proof. unfold ZIPMAP_LEN_BYTES. destruct (_ <? _); lia. Qed.
Lemma zlen_entry e : zlen (entry e) = ZIPMAP_LEN_BYTES (zlen (zkey e)) + zlen (zkey e) + ZIPMAP_LEN_BYTES (zlen (zval e)) + 1 + zlen (zval e) + zlen (zfree e).
Proof. unfold entry. rewrite !zlen_app, zlen_cons, zlen_app, !zlen_len. lia. Qed.
Lemma body_app es es' : body (es ++ es') = body es ++ body es'. Proof. apply bind_app. Qed.
Lemma body_cons e es : body (e :: es) = entry e ++ body es. Proof. done. Qed.

Lemma getb_at (A B : list byte) b p : p = zlen A -> getb (A ++ b :: B) p = Some (b2z b). Proof. apply getb_app. Qed.
Lemma setb_at (A B : list byte) b p v : p = zlen A -> setb (A ++ b :: B) p v = Some (A ++ z2b v :: B).
Proof. apply setb_app. Qed.

Lemma write_at (A X B bs : list byte) p : p = zlen A -> zlen bs = zlen X -> mem_write (A ++ X ++ B) p bs = Some (A ++ bs ++ B).
Proof. unfold zlen. intros. apply mem_write_app; lia. Qed.

Section Proofs.
Context (be : bool) (junk : nat -> byte).
Implicit Types (A B m zm key val : list byte) (e : zent) (es : list zent) (p : Z) (n c : Z).

Lemma length_first_byte A B n p : 0 <= n < 2 ^ 32 -> p = zlen A -> exists b, getb (A ++ len_bytes n ++ B) p = Some b /\ (b =? ZIPMAP_END) = false /\ (b <? ZIPMAP_BIGLEN) = (n <? ZIPMAP_BIGLEN) /\ (n < ZIPMAP_BIGLEN -> b = n).
Proof.
  intros Hn ->. unfold len_bytes. destruct (Z.ltb_spec n ZIPMAP_BIGLEN) as [Hs|Hs]; cbn [app]; rewrite (getb_at _ _ _ _ eq_refl); eexists; (split; [done|]); unfold ZIPMAP_BIGLEN, ZIPMAP_END in *; rewrite b2z_z2b, Z.mod_small by lia.
  - split; [apply Z.eqb_neq; lia|]. split; [by apply Z.ltb_lt|done].
  - split; [done|]. split; [done|lia].
Qed.
Lemma decode_at A B n p : 0 <= n < 2 ^ 32 -> p = zlen A -> zipmapDecodeLength be (A ++ len_bytes n ++ B) p = Some n.
Proof.
  intros Hn Hp. destruct (length_first_byte A B n p Hn Hp) as (b & Eb & _ & Hlt & Hsm). unfold zipmapDecodeLength. rewrite Eb. cbn [option_bind mbind]. rewrite Hlt. unfold len_bytes. destruct (Z.ltb_spec n ZIPMAP_BIGLEN) as [Hs|Hs]; [by rewrite Hsm|].
  subst p. cbn [app]. rewrite (cons_middle _ A). rewrite (app_assoc A). rewrite (mem_read_app (A ++ [z2b ZIPMAP_BIGLEN]) (le_bytes 4 n) B) by (rewrite ?length_app, ?length_le_bytes; unfold zlen; cbn [length]; lia).
  cbn [option_bind mbind]. rewrite load32_le by apply length_le_bytes. rewrite le_val_bytes. change (256 ^ Z.of_nat 4) with (2 ^ 32). by rewrite Z.mod_small.
Qed.
Lemma encode_at A X B n p : 0 <= n < 2 ^ 32 -> p = zlen A -> zlen X = ZIPMAP_LEN_BYTES n -> zipmapEncodeLength be (A ++ X ++ B) (Some p) n = Some (A ++ len_bytes n ++ B, ZIPMAP_LEN_BYTES n).
Proof.
  intros Hn -> Hx. unfold zipmapEncodeLength, len_bytes, ZIPMAP_LEN_BYTES, zlen in *. destruct (Z.ltb_spec n ZIPMAP_BIGLEN) as [Hs|Hs].
  - destruct X as [|x [|? ?]]; cbn [length] in Hx; try lia. cbn [app]. rewrite (setb_at A B x) by done. done.
  - destruct X as [|x X]; cbn [length] in Hx; [lia|]. cbn [app]. rewrite (setb_at A (X ++ B) x) by done. cbn [option_bind mbind]. rewrite (cons_middle _ A (X ++ B)), (app_assoc A).
    set (A1 := A ++ [z2b ZIPMAP_BIGLEN]). assert (Z.of_nat (length A) + 1 = Z.of_nat (length A1)) as -> by (unfold A1; rewrite length_app; cbn [length]; lia).
    rewrite (mem_write_app A1 X B _ (host_store be 4 n) eq_refl) by (rewrite length_host_store; lia). cbn [option_bind mbind].
    rewrite (mem_read_app A1 (host_store be 4 n) B _ 4 eq_refl) by (by rewrite length_host_store). cbn [option_bind mbind].
    rewrite (mem_write_app A1 (host_store be 4 n) B _ _ eq_refl) by (by rewrite store32_le, length_le_bytes, length_host_store). cbn [option_bind mbind].
    rewrite store32_le. unfold A1. by rewrite <-!app_assoc.
Qed.

(** *** An entry in place *)

(** The entries whose lengths an [unsigned int] and an [unsigned char] hold. *)
Definition small e : Prop := zlen (entry e) < 2 ^ 32 /\ zlen (zfree e) < 256.

Lemma small_bounds e : small e ->
  0 <= zlen (zkey e) < 2 ^ 32 /\ 0 <= zlen (zval e) < 2 ^ 32 /\ 0 <= zlen (zfree e) < 256 /\
  ZIPMAP_LEN_BYTES (zlen (zkey e)) + zlen (zkey e) + ZIPMAP_LEN_BYTES (zlen (zval e)) + 1 + zlen (zval e) + zlen (zfree e) < 2 ^ 32.
Proof.
  intros [H ?]. rewrite zlen_entry in H. pose proof (zlen_nonneg (zkey e)). pose proof (zlen_nonneg (zval e)). pose proof (zlen_nonneg (zfree e)).
  pose proof (len_range (zlen (zkey e))). pose proof (len_range (zlen (zval e))). lia.
Qed.
Lemma entry_split P e B : P ++ entry e ++ B = (P ++ len_bytes (zlen (zkey e)) ++ zkey e) ++ len_bytes (zlen (zval e)) ++ z2b (zlen (zfree e)) :: zval e ++ zfree e ++ B.
Proof. unfold entry. by rewrite <-!app_assoc; cbn [app]; rewrite <-!app_assoc. Qed.
Lemma entry_key P e B : P ++ entry e ++ B = P ++ len_bytes (zlen (zkey e)) ++ zkey e ++ len_bytes (zlen (zval e)) ++ z2b (zlen (zfree e)) :: zval e ++ zfree e ++ B.
Proof. rewrite entry_split. by rewrite <-!app_assoc. Qed.

Section Entry.
Context (P : list byte) (e : zent) (B : list byte) (Hsmall : small e).
Let zm := P ++ entry e ++ B.
Let klen := zlen (zkey e).
Let vlen := zlen (zval e).
(** Where the value's length is. *)
Let q := zlen P + (ZIPMAP_LEN_BYTES klen + klen).

Lemma key_at : zipmapDecodeLength be zm (zlen P) = Some klen.
Proof. destruct (small_bounds e Hsmall) as (?&?&?&?). unfold zm. rewrite entry_key. by apply decode_at. Qed.
Lemma value_at : zipmapDecodeLength be zm q = Some vlen.
Proof. destruct (small_bounds e Hsmall) as (?&?&?&?). unfold zm. rewrite entry_split. apply decode_at; [done|]. rewrite !zlen_app, zlen_len. done. Qed.
Lemma free_at : getb zm (q + ZIPMAP_LEN_BYTES vlen) = Some (zlen (zfree e)).
Proof.
  destruct (small_bounds e Hsmall) as (?&?&?&?). unfold zm. rewrite entry_split, app_assoc. rewrite getb_at by (rewrite !zlen_app, !zlen_len; unfold q, klen, vlen; lia).
  by rewrite b2z_z2b, Z.mod_small.
Qed.
Lemma not_end : exists b, getb zm (zlen P) = Some b /\ (b =? ZIPMAP_END) = false.
Proof. destruct (small_bounds e Hsmall) as (?&?&?&?). unfold zm. rewrite entry_key. edestruct length_first_byte as (b & ? & ? & _); [..|by exists b]; done. Qed.
Lemma key_read : mem_read zm (zlen P + ZIPMAP_LEN_BYTES klen) klen = Some (zkey e).
Proof. unfold zm. rewrite entry_key, app_assoc. apply mem_read_app; [|done]. fold (zlen (P ++ len_bytes (zlen (zkey e)))). by rewrite zlen_app, zlen_len. Qed.
Lemma value_read : mem_read zm (q + 1 + ZIPMAP_LEN_BYTES vlen) vlen = Some (zval e).
Proof.
  unfold zm. rewrite entry_split, (cons_middle (z2b _)). rewrite 2!app_assoc. apply mem_read_app; [|done].
  match goal with |- _ = Z.of_nat (length ?l) => fold (zlen l) end. rewrite !zlen_app, !zlen_len. unfold q, klen, vlen. change (zlen [z2b _]) with 1. lia.
Qed.
Lemma key_length_at : zipmapRawKeyLength be zm (zlen P) = Some (ZIPMAP_LEN_BYTES klen + klen).
Proof. destruct (small_bounds e Hsmall) as (?&?&?&?). pose proof (len_range klen). pose proof (len_range vlen). unfold zipmapRawKeyLength. rewrite key_at. cbn [option_bind mbind zipmapEncodeLength]. unfold klen, vlen in *. by rewrite u32_small by lia. Qed.
Lemma value_length_at : zipmapRawValueLength be zm q = Some (ZIPMAP_LEN_BYTES vlen + (zlen (zfree e) + 1 + vlen)).
Proof.
  destruct (small_bounds e Hsmall) as (?&?&?&?). pose proof (len_range klen). pose proof (len_range vlen). unfold zipmapRawValueLength. rewrite value_at. cbn [option_bind mbind zipmapEncodeLength]. rewrite free_at. cbn [option_bind mbind]. unfold klen, vlen in *. by rewrite u32_small by lia.
Qed.
Lemma entry_length_at : zipmapRawEntryLength be zm (zlen P) = Some (zlen (entry e)).
Proof.
  unfold zipmapRawEntryLength. rewrite key_length_at. cbn [option_bind mbind]. fold q. rewrite value_length_at. cbn [option_bind mbind].
  destruct (small_bounds e Hsmall) as (?&?&?&?). pose proof (len_range klen). pose proof (len_range vlen). rewrite zlen_entry. unfold klen, vlen in *. rewrite u32_small by lia. f_equal. lia.
Qed.
Lemma next_at : zipmapNext be zm (zlen P) = Some (Some (zlen P + zlen (entry e), (zlen P + ZIPMAP_LEN_BYTES klen, klen), (q + 1 + ZIPMAP_LEN_BYTES vlen, vlen))).
Proof.
  unfold zipmapNext. destruct not_end as (b & -> & Hb). cbn [option_bind mbind]. rewrite Hb, key_at. cbn [option_bind mbind]. rewrite key_length_at. cbn [option_bind mbind]. fold q. rewrite value_at. cbn [option_bind mbind]. rewrite value_length_at. cbn [option_bind mbind].
  do 4 f_equal. rewrite zlen_entry. unfold q, klen, vlen. lia.
Qed.

Definition key_hit (key : option (list byte)) (k : option Z) : bool :=
  match key, k with Some key, None => bool_decide (key = zkey e) | _, _ => false end.
Lemma lookup_step fuel (key : option (list byte)) (total : bool) (k : option Z) :
  lookup_loop be (S fuel) zm (zlen P) key total k =
  if key_hit key k && negb total then Some (Some (zlen P), zlen P)
  else lookup_loop be fuel zm (zlen P + zlen (entry e)) key total (if key_hit key k then Some (zlen P) else k).
Proof.
  destruct (small_bounds e Hsmall) as (?&?&?&?). pose proof (len_range klen). pose proof (len_range vlen).
  cbn [lookup_loop]. destruct not_end as (b & -> & Hb). cbn [option_bind mbind]. rewrite Hb, key_at. cbn [option_bind mbind zipmapEncodeLength].
  assert ((match key, k with
    | Some key, None => if klen =? Z.of_nat (length key) then bs ← mem_read zm (zlen P + ZIPMAP_LEN_BYTES klen) klen; Some (bool_decide (bs = key)) else Some false
    | _, _ => Some false end) = Some (key_hit key k)) as ->.
  { unfold key_hit. destruct key as [key|]; [|done]. destruct k; [done|]. destruct (Z.eqb_spec klen (Z.of_nat (length key))) as [E|E].
    - rewrite key_read. cbn [option_bind mbind]. f_equal. by apply bool_decide_ext.
    - f_equal. symmetry. apply bool_decide_false. by intros ->. }
  cbn [option_bind mbind]. destruct (key_hit key k && negb total); [done|]. unfold klen, vlen in *. rewrite (u32_small (_ + _)) by lia. change (zlen P + (ZIPMAP_LEN_BYTES (zlen (zkey e)) + zlen (zkey e))) with q. rewrite value_at. cbn [option_bind mbind zipmapEncodeLength]. rewrite free_at. cbn [option_bind mbind].
  unfold vlen. rewrite u32_small by lia. f_equal. rewrite zlen_entry. unfold q, klen. lia.
Qed.
End Entry.

(** *** Walks over the block *)

Lemma end_at A : getb (A ++ [z2b ZIPMAP_END]) (zlen A) = Some ZIPMAP_END.
Proof. by rewrite getb_at. Qed.
Lemma layout_split c es1 es2 : layout c (es1 ++ es2) = (z2b c :: body es1) ++ body es2 ++ [z2b ZIPMAP_END].
Proof. unfold layout. by rewrite body_app, <-app_assoc. Qed.
Lemma zlen_layout c es : zlen (layout c es) = zlen (body es) + 2.
Proof. unfold layout. rewrite zlen_cons, zlen_app. change (zlen [_]) with 1. lia. Qed.
Lemma length_body es : Z.of_nat (length es) <= zlen (body es).
Proof.
  induction es as [|e es IH]; [done|]. rewrite body_cons, zlen_app, zlen_entry. cbn [length].
  pose proof (len_range (zlen (zkey e))). pose proof (len_range (zlen (zval e))). pose proof (zlen_nonneg (zkey e)). pose proof (zlen_nonneg (zval e)). pose proof (zlen_nonneg (zfree e)). lia.
Qed.
(** The rounds of a loop over a block: one per entry, and one at the end. *)
Lemma layout_fuel c es1 es2 : exists fuel, S (length (layout c (es1 ++ es2))) = (length es1 + S fuel)%nat /\ (length es2 <= fuel)%nat.
Proof.
  pose proof (length_body (es1 ++ es2)) as H. rewrite length_app in H. exists (length (layout c (es1 ++ es2)) - length es1)%nat.
  pose proof (zlen_layout c (es1 ++ es2)). unfold zlen in *. lia.
Qed.

Lemma lookup_skip es fuel P B (key : option (list byte)) (total : bool) (k : option Z) : Forall small es -> Forall (fun e => key_hit e key k = false) es ->
  lookup_loop be (length es + fuel) (P ++ body es ++ B) (zlen P) key total k = lookup_loop be fuel (P ++ body es ++ B) (zlen P + zlen (body es)) key total k.
Proof.
  intros Hs. revert P. induction Hs as [|e es He Hes IH]; intros P Hk; [by rewrite Z.add_0_r|]. inversion_clear Hk as [|? ? Hk1 Hk2].
  rewrite body_cons, <-(app_assoc (entry e)). cbn [length Nat.add]. rewrite lookup_step by done. rewrite Hk1. cbn [andb]. rewrite app_assoc, <-!zlen_app, IH by done. f_equal. rewrite !zlen_app. lia.
Qed.
Lemma lookup_end fuel P (key : option (list byte)) (total : bool) (k : option Z) : lookup_loop be (S fuel) (P ++ [z2b ZIPMAP_END]) (zlen P) key total k = Some (k, zlen P).
Proof. cbn [lookup_loop]. by rewrite end_at. Qed.
Lemma lookup_rest es fuel P (key : option (list byte)) (total : bool) (k : option Z) : Forall small es -> Forall (fun e => key_hit e key k = false) es -> (length es <= fuel)%nat ->
  lookup_loop be (S fuel) (P ++ body es ++ [z2b ZIPMAP_END]) (zlen P) key total k = Some (k, zlen P + zlen (body es)).
Proof.
  intros Hs Hk Hf. replace (S fuel) with (length es + S (fuel - length es))%nat by lia. rewrite lookup_skip by done. rewrite <-zlen_app, app_assoc. apply lookup_end.
Qed.

Lemma no_key_hit es key : Forall (fun e => zkey e <> key) es -> Forall (fun e => key_hit e (Some key) None = false) es.
Proof. intros H. eapply Forall_impl; [exact H|]. intros e He. apply bool_decide_false. congruence. Qed.
Lemma no_more_hit es (key : option (list byte)) (k : option Z) : key = None \/ is_Some k -> Forall (fun e => key_hit e key k = false) es.
Proof. intros H. apply Forall_forall. intros e _. destruct H as [->|[? ->]]; [done|by destruct key]. Qed.

Lemma totlen_layout c es : zlen (layout c es) < 2 ^ 32 -> u32 (u32 (1 + zlen (body es)) + 1) = zlen (layout c es).
Proof. rewrite zlen_layout. intros H. pose proof (zlen_nonneg (body es)). rewrite !u32_small by (rewrite ?u32_small; lia). lia. Qed.

Lemma lookup_miss c es (key : option (list byte)) (total : bool) : Forall small es -> zlen (layout c es) < 2 ^ 32 -> Forall (fun e => key_hit e key None = false) es ->
  zipmapLookupRaw be (layout c es) key total = Some (None, zlen (layout c es)).
Proof.
  intros Hs Hl Hk. unfold zipmapLookupRaw. destruct (layout_fuel c [] es) as (fuel & E & Hf). cbn [app length Nat.add] in E. rewrite E.
  change (layout c es) with ([z2b c] ++ body es ++ [z2b ZIPMAP_END]) at 1. change 1 with (zlen [z2b c]) at 1. rewrite lookup_rest by done. cbn [option_bind mbind]. change (zlen [z2b c]) with 1. by rewrite (totlen_layout c es).
Qed.
Lemma lookup_hit c es1 e es2 (total : bool) : Forall small (es1 ++ e :: es2) -> zlen (layout c (es1 ++ e :: es2)) < 2 ^ 32 -> Forall (fun e' => zkey e' <> zkey e) es1 ->
  exists t, zipmapLookupRaw be (layout c (es1 ++ e :: es2)) (Some (zkey e)) total = Some (Some (zlen (z2b c :: body es1)), t) /\ (total = true -> t = zlen (layout c (es1 ++ e :: es2))).
Proof.
  intros Hs Hl Hk. pose proof (totlen_layout _ _ Hl) as Ht. remember (zlen (layout c (es1 ++ e :: es2))) as L eqn:EL. apply Forall_app in Hs as [Hs1 Hs2]. inversion_clear Hs2 as [|? ? He Hs2']. unfold zipmapLookupRaw. destruct (layout_fuel c es1 (e :: es2)) as (fuel & -> & Hf).
  rewrite layout_split. change ((z2b c :: body es1) ++ ?l) with ([z2b c] ++ body es1 ++ l). change 1 with (zlen [z2b c]) at 1. rewrite lookup_skip by (by try apply no_key_hit).
  rewrite <-zlen_app, body_cons, <-app_assoc, (app_assoc [z2b c]). rewrite lookup_step by done.
  assert (key_hit e (Some (zkey e)) None = true) as -> by by apply bool_decide_true. destruct total; cbn [negb andb]; [|by eexists].
  cbn [length] in Hf. destruct fuel as [|fuel]; [lia|]. rewrite <-zlen_app, app_assoc, lookup_rest by (try apply no_more_hit; by eauto || lia). cbn [option_bind mbind]. eexists. split; [done|]. intros _.
  rewrite <-Ht. do 3 f_equal. rewrite body_app, body_cons, !zlen_app. change (zlen [z2b c]) with 1. lia.
Qed.

(** *** The abstract map *)

Definition pair e : list byte * list byte := (zkey e, zval e).
Definition absent key es : Prop := Forall (fun e => zkey e <> key) es.

Lemma locate key es : absent key es \/ exists es1 e es2, es = es1 ++ e :: es2 /\ zkey e = key /\ absent key es1.
Proof.
  induction es as [|e es [IH|(es1 & e' & es2 & -> & Hk & IH)]]; [by left; constructor| |]; (destruct (decide (zkey e = key)); [right; exists [], e; eexists; by repeat constructor|]).
  - left. by constructor.
  - right. exists (e :: es1), e', es2. by repeat constructor.
Qed.
Lemma assoc_absent key es : absent key es -> assoc key (map pair es) = None.
Proof. induction 1; [done|]. cbn. by rewrite decide_False. Qed.
Lemma assign_absent key val es : absent key es -> assign key val (map pair es) = map pair es ++ [(key, val)].
Proof. induction 1 as [|? ? ? ? IH]; [done|]. cbn. by rewrite decide_False, IH. Qed.
Lemma erase_absent key es : absent key es -> erase key (map pair es) = map pair es.
Proof. induction 1 as [|? ? ? ? IH]; [done|]. cbn. by rewrite decide_False, IH. Qed.
Lemma assoc_found es1 e es2 : absent (zkey e) es1 -> assoc (zkey e) (map pair (es1 ++ e :: es2)) = Some (zval e).
Proof. induction 1 as [|? ? ? ? IH]; cbn; [by rewrite decide_True|by rewrite decide_False]. Qed.
Lemma assign_found val es1 e es2 : absent (zkey e) es1 -> assign (zkey e) val (map pair (es1 ++ e :: es2)) = map pair es1 ++ (zkey e, val) :: map pair es2.
Proof. induction 1 as [|? ? ? ? IH]; cbn; [by rewrite decide_True|by rewrite decide_False, IH]. Qed.
Lemma erase_found es1 e es2 : absent (zkey e) es1 -> erase (zkey e) (map pair (es1 ++ e :: es2)) = map pair (es1 ++ es2).
Proof. induction 1 as [|? ? ? ? IH]; cbn; [by rewrite decide_True|by rewrite decide_False, IH]. Qed.

Lemma assign_keys key val l : map fst (assign key val l) = if has key l then map fst l else map fst l ++ [key].
Proof. unfold has. induction l as [|[k v] l IH]; [done|]. cbn. case_decide as Hk; cbn; [by subst|]. by rewrite IH; destruct (assoc key l). Qed.
Lemma has_keys key l : has key l = bool_decide (key ∈ map fst l).
Proof.
  unfold has. induction l as [|[k v] l IH]; [done|]. cbn [assoc map fst]. destruct (decide (k = key)) as [->|Hk]; [symmetry; apply bool_decide_true; by left|]. rewrite IH. apply bool_decide_ext. rewrite elem_of_cons. split; [by right|by intros [->|?]].
Qed.
Lemma erase_sub key l : sublist (map fst (erase key l)) (map fst l).
Proof. induction l as [|[k v] l IH]; [done|]. cbn. case_decide; [by apply sublist_cons|by apply sublist_skip]. Qed.

(** *** The representation *)

(** [es] in a block of [c] elements: a [zmlen] of 254 counts nothing. *)
Record valid c es : Prop := Valid {
  few_free : Forall (fun e => zlen (zfree e) < ZIPMAP_VALUE_MAX_FREE) es;
  fits : zlen (layout c es) < 2 ^ 32;
  count_range : 0 <= c <= ZIPMAP_BIGLEN;
  counted : c < ZIPMAP_BIGLEN -> c = Z.of_nat (length es) }.
Definition rep zm (l : pairs) : Prop := exists c es, zm = layout c es /\ l = map pair es /\ valid c es.

Lemma valid_small c es : valid c es -> Forall small es.
Proof.
  intros [Hf Hl _ _]. rewrite zlen_layout in Hl. assert (zlen (body es) < 2 ^ 32) as Hb by lia. clear Hl. induction Hf as [|e es He Hes IH]; [done|].
  rewrite body_cons, zlen_app in Hb. pose proof (zlen_nonneg (entry e)). pose proof (zlen_nonneg (body es)). unfold ZIPMAP_VALUE_MAX_FREE in He. constructor; [split; lia|apply IH; lia].
Qed.

Lemma count_loop_at es fuel P n : Forall small es -> (length es <= fuel)%nat -> 0 <= n -> n + Z.of_nat (length es) < 2 ^ 32 ->
  count_loop be (S fuel) (P ++ body es ++ [z2b ZIPMAP_END]) (zlen P) n = Some (n + Z.of_nat (length es)).
Proof.
  intros Hs. revert P fuel n. induction Hs as [|e es He Hes IH]; intros P fuel n Hf Hn Hl; cbn [count_loop].
  - unfold zipmapNext. cbn [body mbind list_bind app length]. rewrite end_at. cbn [option_bind mbind]. by rewrite Z.add_0_r.
  - cbn [length] in *. destruct fuel as [|fuel]; [lia|]. rewrite body_cons, <-(app_assoc (entry e)), next_at by done. cbn [option_bind mbind]. rewrite app_assoc, <-zlen_app, u32_small by lia. rewrite IH by lia. f_equal. lia.
Qed.
Lemma pairs_loop_at es fuel P : Forall small es -> (length es <= fuel)%nat ->
  pairs_loop be (S fuel) (P ++ body es ++ [z2b ZIPMAP_END]) (zlen P) = Some (map pair es).
Proof.
  intros Hs. revert P fuel. induction Hs as [|e es He Hes IH]; intros P fuel Hf; cbn [pairs_loop].
  - unfold zipmapNext. cbn [body mbind list_bind app]. by rewrite end_at.
  - cbn [length] in *. destruct fuel as [|fuel]; [lia|]. rewrite body_cons, <-(app_assoc (entry e)), next_at by done. cbn [option_bind mbind]. rewrite key_read. cbn [option_bind mbind]. rewrite value_read. cbn [option_bind mbind]. by rewrite app_assoc, <-zlen_app, IH by lia.
Qed.

Lemma count_byte c B : 0 <= c <= ZIPMAP_BIGLEN -> getb (z2b c :: B) 0 = Some c.
Proof. intros H. etransitivity; [exact (getb_at [] _ _ 0 eq_refl)|]. rewrite b2z_z2b, Z.mod_small; [done|]. unfold ZIPMAP_BIGLEN in *. lia. Qed.

Section Observers.
Context (c : Z) (es : list zent) (Hv : valid c es).

Lemma pairs_rep : zipmap_pairs be (layout c es) = Some (map pair es).
Proof.
  unfold zipmap_pairs. destruct (layout_fuel c [] es) as (fuel & E & Hf). cbn [app length Nat.add] in E. rewrite E. change zipmapRewind with (zlen [z2b c]). change (layout c es) with ([z2b c] ++ body es ++ [z2b ZIPMAP_END]). apply pairs_loop_at; [by eapply valid_small|done].
Qed.
Lemma blob_rep : zipmapBlobLen be (layout c es) = Some (zlen (layout c es)).
Proof. unfold zipmapBlobLen. rewrite lookup_miss; [done|by eapply valid_small|apply Hv|apply no_more_hit; by left]. Qed.
Lemma count_at : getb (layout c es) 0 = Some c.
Proof. apply count_byte, Hv. Qed.
Lemma set_count v : setb (layout c es) 0 v = Some (layout v es).
Proof. exact (setb_at [] _ _ 0 v eq_refl). Qed.

Lemma len_rep : exists c', zipmapLen be (layout c es) = Some (Z.of_nat (length es), layout c' es) /\ valid c' es.
Proof.
  unfold zipmapLen. rewrite count_at. cbn [option_bind mbind]. destruct (Z.ltb_spec c ZIPMAP_BIGLEN) as [Hc|Hc]; [exists c; split; [by rewrite <-(counted _ _ Hv Hc)|done]|].
  pose proof (length_body es). pose proof (fits _ _ Hv). rewrite zlen_layout in *.
  assert (count_loop be (S (length (layout c es))) (layout c es) zipmapRewind 0 = Some (Z.of_nat (length es))) as ->.
  { destruct (layout_fuel c [] es) as (fuel & E & Hf). cbn [app length Nat.add] in E. rewrite E. change zipmapRewind with (zlen [z2b c]). change (layout c es) with ([z2b c] ++ body es ++ [z2b ZIPMAP_END]). rewrite count_loop_at by (by try eapply valid_small || lia). done. }
  cbn [option_bind mbind]. destruct (Z.ltb_spec (Z.of_nat (length es)) ZIPMAP_BIGLEN); [rewrite set_count|]; cbn [option_bind mbind]; (eexists; split; [done|]); [|done].
  destruct Hv. split; [done|by rewrite zlen_layout in *|lia|done].
Qed.

Lemma get_rep key : match zipmapGet be (layout c es) key with
  | Some (Some (p, n)) => mem_read (layout c es) p n = assoc key (map pair es) /\ has key (map pair es) = true
  | Some None => assoc key (map pair es) = None
  | None => False end.
Proof.
  pose proof (valid_small _ _ Hv) as Hs. pose proof (fits _ _ Hv) as Hl. unfold zipmapGet. destruct (locate key es) as [H|(es1 & e & es2 & E & Hk & H)].
  - rewrite lookup_miss by (done || by apply no_key_hit). cbn [option_bind mbind]. by apply assoc_absent.
  - rewrite E in *. subst key. destruct (lookup_hit c es1 e es2 false) as (t & -> & _); [done..|]. cbn [option_bind mbind].
    apply Forall_app in Hs as [_ Hs]. inversion_clear Hs as [|? ? He _]. unfold has. rewrite assoc_found by done. rewrite layout_split, body_cons, <-(app_assoc (entry e)). rewrite key_length_at by done. cbn [option_bind mbind]. rewrite value_at by done. cbn [option_bind mbind].
    split; [|done]. rewrite <-(value_read (z2b c :: body es1) e (body es2 ++ [z2b ZIPMAP_END])). f_equal. lia.
Qed.
Lemma exists_rep key : zipmapExists be (layout c es) key = Some (has key (map pair es)).
Proof.
  pose proof (valid_small _ _ Hv) as Hs. pose proof (fits _ _ Hv) as Hl. unfold zipmapExists, has. destruct (locate key es) as [H|(es1 & e & es2 & E & Hk & H)].
  - rewrite lookup_miss by (done || by apply no_key_hit). cbn [option_bind mbind]. by rewrite assoc_absent.
  - rewrite E in *. subst key. destruct (lookup_hit c es1 e es2 false) as (t & -> & _); [done..|]. cbn [option_bind mbind]. by rewrite assoc_found.
Qed.
End Observers.

(** *** Moves and writes *)

Lemma zlen_split X n : 0 <= n <= zlen X -> exists X1 X2, X = X1 ++ X2 /\ zlen X1 = n /\ zlen X2 = zlen X - n.
Proof. intros H. unfold zlen in *. exists (take (Z.to_nat n) X), (drop (Z.to_nat n) X). rewrite take_drop, length_take, length_drop. split_and!; [done|lia..]. Qed.

Lemma zipmapResize_grow M len : zlen M + 1 <= len < 2 ^ 32 ->
  exists G, zipmapResize junk (M ++ [z2b ZIPMAP_END]) len = Some (M ++ G ++ [z2b ZIPMAP_END]) /\ zlen G = len - zlen M - 1.
Proof.
  intros H. pose proof (zlen_nonneg M). unfold zipmapResize. destruct (mem_resize_grow junk (M ++ [z2b ZIPMAP_END]) len) as (g & -> & Hg); [rewrite length_app; unfold zlen in *; cbn [length]; lia|].
  rewrite length_app in Hg. cbn [length] in Hg. destruct (zlen_split (z2b ZIPMAP_END :: g) (len - zlen M - 1)) as (G & T & E & HG & HT); [rewrite zlen_cons; unfold zlen in *; lia|]. rewrite zlen_cons in HT.
  destruct T as [|x [|? T]]; [unfold zlen in *; cbn [length] in HT; lia| |rewrite !zlen_cons in HT; pose proof (zlen_nonneg T); unfold zlen in *; lia].
  exists G. split; [|done]. rewrite <-app_assoc. cbn [app]. rewrite E, u32_small, (app_assoc M) by lia. rewrite setb_at by (rewrite zlen_app; lia). by rewrite <-app_assoc.
Qed.
Lemma zipmapResize_shrink A T len : zlen A + 1 = len -> len < 2 ^ 32 -> T <> [] -> zipmapResize junk (A ++ T) len = Some (A ++ [z2b ZIPMAP_END]).
Proof.
  intros <- Hl HT. pose proof (zlen_nonneg A). destruct T as [|x T]; [done|]. unfold zipmapResize. rewrite mem_resize_shrink by (rewrite length_app; unfold zlen in *; cbn [length]; lia).
  rewrite (cons_middle x), app_assoc, take_app_length' by (rewrite length_app; unfold zlen in *; cbn [length]; lia). rewrite u32_small by lia. by rewrite setb_at by lia.
Qed.

(** The bytes [X] are taken out. *)
Lemma move_down A X B p r fl zmlen : p + r = zlen A -> p + fl = zlen A + zlen X -> zmlen = zlen (A ++ X ++ B ++ [z2b ZIPMAP_END]) -> zmlen < 2 ^ 32 ->
  exists zm, move_tail (A ++ X ++ B ++ [z2b ZIPMAP_END]) p r fl zmlen = Some zm /\ zipmapResize junk zm (u32 (zmlen - zlen X)) = Some (A ++ B ++ [z2b ZIPMAP_END]).
Proof.
  intros Hr Hf Hz Hl. rewrite !zlen_app in Hz. change (zlen [_]) with 1 in Hz. pose proof (zlen_nonneg A). pose proof (zlen_nonneg X). pose proof (zlen_nonneg B).
  unfold move_tail. rewrite !u32_small by (rewrite ?u32_small; lia). rewrite memmove_left by (unfold zlen in *; lia). eexists. split; [done|]. rewrite app_assoc, (app_assoc A B). apply zipmapResize_shrink; [rewrite zlen_app; lia|lia|].
  intros E. apply app_eq_nil in E as [_ E]. done.
Qed.
(** A gap [G] behind [B] is moved in front of it. *)
Lemma move_up A X B G p r fl zmlen : p = zlen A -> fl = zlen X -> r = fl + zlen G -> zmlen = zlen (A ++ X ++ B ++ [z2b ZIPMAP_END]) -> zmlen < 2 ^ 32 ->
  exists Y, move_tail (A ++ X ++ B ++ G ++ [z2b ZIPMAP_END]) p r fl zmlen = Some (A ++ Y ++ B ++ [z2b ZIPMAP_END]) /\ zlen Y = r.
Proof.
  intros -> -> -> Hz Hl. rewrite !zlen_app in Hz. change (zlen [_]) with 1 in Hz. pose proof (zlen_nonneg A). pose proof (zlen_nonneg X). pose proof (zlen_nonneg B).
  unfold move_tail. rewrite !u32_small by (rewrite ?u32_small; lia). rewrite (app_assoc A). rewrite memmove_right by (rewrite ?length_app; unfold zlen in *; lia). exists (X ++ take (length G) (B ++ G)). rewrite <-!app_assoc. split; [done|].
  rewrite zlen_app. f_equal. unfold zlen. rewrite length_take, length_app. lia.
Qed.

Lemma required_exact key val : zlen (entry (key, val, [])) < 2 ^ 32 -> zipmapRequiredLength (zlen key) (zlen val) = zlen (entry (key, val, [])).
Proof.
  rewrite zlen_entry. cbn [zkey zval zfree fst snd]. change (zlen []) with 0. intros H. pose proof (zlen_nonneg key). pose proof (zlen_nonneg val). unfold zipmapRequiredLength, ZIPMAP_LEN_BYTES in *.
  destruct (Z.leb_spec ZIPMAP_BIGLEN (zlen key)), (Z.leb_spec ZIPMAP_BIGLEN (zlen val)), (Z.ltb_spec (zlen key) ZIPMAP_BIGLEN), (Z.ltb_spec (zlen val) ZIPMAP_BIGLEN); try lia; rewrite !u32_small by (rewrite ?u32_small; rewrite ?u32_small; lia); lia.
Qed.

Lemma write_entry_at P X B key val vempty : zlen X = zlen (entry (key, val, [])) + vempty -> zlen X < 2 ^ 32 -> 0 <= vempty ->
  exists F, write_entry be (P ++ X ++ B) (zlen P) key val vempty = Some (P ++ entry (key, val, F) ++ B) /\ zlen F = vempty.
Proof.
  intros HX Hl Hv. rewrite zlen_entry in HX. cbn [zkey zval zfree fst snd] in HX. change (zlen []) with 0 in HX.
  pose proof (zlen_nonneg key). pose proof (zlen_nonneg val). pose proof (len_range (zlen key)). pose proof (len_range (zlen val)).
  destruct (zlen_split X (ZIPMAP_LEN_BYTES (zlen key))) as (X1 & Y1 & -> & L1 & E1); [lia|].
  destruct (zlen_split Y1 (zlen key)) as (X2 & Y2 & -> & L2 & E2); [lia|].
  destruct (zlen_split Y2 (ZIPMAP_LEN_BYTES (zlen val))) as (X3 & Y3 & -> & L3 & E3); [lia|].
  destruct Y3 as [|x Y3]; [change (zlen []) with 0 in E3; lia|]. rewrite zlen_cons in E3.
  destruct (zlen_split Y3 (zlen val)) as (X4 & F & -> & L4 & E4); [lia|].
  assert (zlen F = vempty) as E4' by lia. exists F. split; [|done]. unfold write_entry. fold (zlen key) (zlen val).
  rewrite <-!app_assoc. rewrite (encode_at P X1) by (done || lia). cbn [option_bind mbind].
  rewrite (app_assoc P), (write_at (P ++ len_bytes (zlen key)) X2) by (rewrite ?zlen_app, ?zlen_len; lia). cbn [option_bind mbind].
  rewrite (app_assoc (P ++ _)), (encode_at _ X3) by (rewrite ?zlen_app, ?zlen_len; lia). cbn [option_bind mbind].
  rewrite (app_assoc ((P ++ _) ++ _)). cbn [app]. rewrite <-(app_assoc X4). rewrite setb_at by (rewrite !zlen_app, !zlen_len; lia). cbn [option_bind mbind].
  rewrite (cons_middle (z2b vempty)), (app_assoc (((P ++ _) ++ _) ++ _)), (write_at _ X4) by (rewrite ?zlen_app, ?zlen_len; change (zlen [_]) with 1; lia).
  rewrite entry_key. cbn [zkey zval zfree fst snd]. rewrite E4', <-!app_assoc. done.
Qed.

(** *** Set and delete *)

Lemma set_count_at c v B : setb (z2b c :: B) 0 v = Some (z2b v :: B).
Proof. exact (setb_at [] B (z2b c) 0 v eq_refl). Qed.
Lemma set_trim_at P X B reqlen freelen zmlen : freelen = zlen X -> 0 <= reqlen <= zlen X -> zmlen = zlen (P ++ X ++ B ++ [z2b ZIPMAP_END]) -> zmlen < 2 ^ 32 ->
  exists Y vempty, set_trim junk (P ++ X ++ B ++ [z2b ZIPMAP_END]) (zlen P) reqlen freelen zmlen = Some (P ++ Y ++ B ++ [z2b ZIPMAP_END], vempty) /\
    zlen Y = reqlen + vempty /\ 0 <= vempty < ZIPMAP_VALUE_MAX_FREE /\ zlen Y <= zlen X.
Proof.
  intros -> Hr Hz Hl. pose proof Hz as Hz'. rewrite !zlen_app in Hz'. pose proof (zlen_nonneg P). pose proof (zlen_nonneg B). change (zlen [_]) with 1 in Hz'.
  unfold set_trim. rewrite (u32_small (_ - _)) by lia. destruct (Z.leb_spec ZIPMAP_VALUE_MAX_FREE (zlen X - reqlen)) as [He|He]; [|exists X; eexists; split; [done|lia]].
  destruct (zlen_split X reqlen Hr) as (Y & T & -> & HY & HT). rewrite <-HT. rewrite <-(app_assoc Y), (app_assoc P) in *.
  destruct (move_down (P ++ Y) T B (zlen P) reqlen (zlen (Y ++ T)) zmlen) as (zm & -> & Hm); [by rewrite zlen_app, HY|rewrite !zlen_app; lia|done|done|]. cbn [option_bind mbind]. rewrite Hm. cbn [option_bind mbind].
  exists Y, 0. rewrite <-app_assoc. split_and!; [done|lia|done|done|rewrite zlen_app; pose proof (zlen_nonneg T); lia].
Qed.

Lemma zlen_entry_free key val F : zlen (entry (key, val, F)) = zlen (entry (key, val, [])) + zlen F.
Proof. rewrite !zlen_entry. cbn [zkey zval zfree fst snd]. change (zlen []) with 0. lia. Qed.
(** The entry in the room [X]. *)
Lemma set_write P X B key val fl zmlen : fl = zlen X -> zlen (entry (key, val, [])) <= zlen X -> zmlen = zlen (P ++ X ++ B ++ [z2b ZIPMAP_END]) -> zmlen < 2 ^ 32 ->
  exists zm ve F, set_trim junk (P ++ X ++ B ++ [z2b ZIPMAP_END]) (zlen P) (zlen (entry (key, val, []))) fl zmlen = Some (zm, ve) /\
    write_entry be zm (zlen P) key val ve = Some (P ++ entry (key, val, F) ++ B ++ [z2b ZIPMAP_END]) /\
    zlen F < ZIPMAP_VALUE_MAX_FREE /\ zlen (entry (key, val, F)) <= zlen X.
Proof.
  intros Hf Hn Hz Hl. pose proof (zlen_nonneg (entry (key, val, []))). destruct (set_trim_at P X B (zlen (entry (key, val, []))) fl zmlen) as (Y & ve & -> & HY & Hve & HXY); [lia..|].
  assert (zlen Y < 2 ^ 32) as HYl. { rewrite !zlen_app in Hz. pose proof (zlen_nonneg P). pose proof (zlen_nonneg B). change (zlen [_]) with 1 in Hz. lia. }
  destruct (write_entry_at P Y (B ++ [z2b ZIPMAP_END]) key val ve) as (F & E & HF); [lia..|]. eexists _, _, F. split; [done|]. split; [exact E|]. rewrite zlen_entry_free. lia.
Qed.

Definition next_count c : Z := if c <? ZIPMAP_BIGLEN then c + 1 else c.
Definition prev_count c : Z := if c <? ZIPMAP_BIGLEN then c - 1 else c.

Lemma set_room_new c es key reqlen : valid c es -> absent key es -> 0 < reqlen -> zlen (layout c es) + reqlen < 2 ^ 32 ->
  exists X, set_room be junk (layout c es) key reqlen = Some ((z2b (next_count c) :: body es) ++ X ++ [] ++ [z2b ZIPMAP_END], zlen (z2b (next_count c) :: body es), zlen (layout c es) + reqlen, reqlen, false) /\ zlen X = reqlen.
Proof.
  intros Hv Ha Hr Hl. pose proof (fits _ _ Hv) as Hf. pose proof (valid_small _ _ Hv). pose proof (zlen_layout c es) as Hz. pose proof (zlen_nonneg (body es)).
  unfold set_room. rewrite lookup_miss by (done || by apply no_key_hit). cbn [option_bind mbind]. remember (zlen (layout c es)) as L eqn:EL.
  destruct (zipmapResize_grow (z2b c :: body es) (u32 (L + reqlen))) as (X & E & HX); [rewrite u32_small, zlen_cons by lia; lia|].
  change (layout c es) with ((z2b c :: body es) ++ [z2b ZIPMAP_END]). rewrite E. cbn [option_bind mbind]. rewrite u32_small, zlen_cons in * by lia.
  exists X. split; [|lia]. cbn [app]. rewrite count_byte by apply Hv.
  cbn [option_bind mbind]. unfold next_count. destruct (c <? ZIPMAP_BIGLEN); [rewrite set_count_at|]; cbn [option_bind mbind]; (do 5 f_equal; lia).
Qed.

Lemma set_room_found c es1 e es2 reqlen : valid c (es1 ++ e :: es2) -> absent (zkey e) es1 -> 0 < reqlen -> zlen (layout c (es1 ++ e :: es2)) + reqlen < 2 ^ 32 ->
  exists X zmlen, set_room be junk (layout c (es1 ++ e :: es2)) (zkey e) reqlen = Some ((z2b c :: body es1) ++ X ++ body es2 ++ [z2b ZIPMAP_END], zlen (z2b c :: body es1), zmlen, zlen X, true) /\
    reqlen <= zlen X /\ zmlen = zlen ((z2b c :: body es1) ++ X ++ body es2 ++ [z2b ZIPMAP_END]) /\ zmlen <= zlen (layout c (es1 ++ e :: es2)) + reqlen.
Proof.
  intros Hv Ha Hr Hl. pose proof (fits _ _ Hv) as Hf. pose proof (valid_small _ _ Hv) as Hs. unfold set_room.
  destruct (lookup_hit c es1 e es2 true) as (t & -> & Ht); [done..|]. rewrite (Ht eq_refl). cbn [option_bind mbind]. clear t Ht. apply Forall_app in Hs as [_ Hs]. inversion_clear Hs as [|? ? He _].
  rewrite layout_split, body_cons, <-(app_assoc (entry e)) in *. set (P := z2b c :: body es1) in *. rewrite entry_length_at by done. cbn [option_bind mbind].
  pose proof (zlen_nonneg (entry e)). pose proof (zlen_nonneg P). pose proof (zlen_nonneg (body es2)). pose proof Hf as Hf'. rewrite !zlen_app in Hf'. change (zlen [_]) with 1 in Hf'.
  destruct (Z.ltb_spec (zlen (entry e)) reqlen) as [Hg|Hg]; [|exists (entry e); eexists; by split_and!; [|lia|done|lia]].
  remember (zlen (P ++ entry e ++ body es2 ++ [z2b ZIPMAP_END])) as L eqn:EL. pose proof EL as EL'. rewrite !zlen_app in EL'. change (zlen [_]) with 1 in EL'. rewrite u32_small by lia.
  rewrite 2!app_assoc. destruct (zipmapResize_grow ((P ++ entry e) ++ body es2) (L - zlen (entry e) + reqlen)) as (G & -> & HG); [rewrite !zlen_app; lia|]. rewrite !zlen_app in HG. cbn [option_bind mbind].
  rewrite <-!app_assoc. destruct (move_up P (entry e) (body es2) G (zlen P) reqlen (zlen (entry e)) L) as (Y & -> & HY); [lia..|]. cbn [option_bind mbind].
  exists Y. eexists. rewrite HY. split_and!; [done|lia|rewrite !zlen_app, HY; change (zlen [_]) with 1; lia|lia].
Qed.

Lemma next_counted c es e : 0 <= c <= ZIPMAP_BIGLEN -> (c < ZIPMAP_BIGLEN -> c = Z.of_nat (length es)) ->
  0 <= next_count c <= ZIPMAP_BIGLEN /\ (next_count c < ZIPMAP_BIGLEN -> next_count c = Z.of_nat (length (es ++ [e]))).
Proof. intros Hc Hn. rewrite length_app. cbn [length]. unfold next_count. destruct (Z.ltb_spec c ZIPMAP_BIGLEN); lia. Qed.
Lemma prev_counted c es1 e es2 : 0 <= c <= ZIPMAP_BIGLEN -> (c < ZIPMAP_BIGLEN -> c = Z.of_nat (length (es1 ++ e :: es2))) ->
  0 <= prev_count c <= ZIPMAP_BIGLEN /\ (prev_count c < ZIPMAP_BIGLEN -> prev_count c = Z.of_nat (length (es1 ++ es2))).
Proof. intros Hc Hn. rewrite length_app in *. cbn [length] in *. unfold prev_count. destruct (Z.ltb_spec c ZIPMAP_BIGLEN); lia. Qed.

Lemma few_app es1 e es2 (Q : zent -> Prop) : Forall Q (es1 ++ e :: es2) -> Forall Q es1 /\ Forall Q es2.
Proof. intros [? H]%Forall_app. by inversion_clear H. Qed.
Lemma few_insert es1 e es2 (Q : zent -> Prop) : Forall Q es1 -> Q e -> Forall Q es2 -> Forall Q (es1 ++ e :: es2).
Proof. intros ? ? ?. apply Forall_app. split; [done|by constructor]. Qed.
Lemma zlen_middle c es1 e es2 : zlen (layout c (es1 ++ e :: es2)) = zlen (layout c (es1 ++ es2)) + zlen (entry e).
Proof. rewrite !zlen_layout, !body_app, body_cons, !zlen_app. lia. Qed.
Lemma layout_middle c es1 e es2 : layout c (es1 ++ e :: es2) = (z2b c :: body es1) ++ entry e ++ body es2 ++ [z2b ZIPMAP_END].
Proof. by rewrite layout_split, body_cons, <-(app_assoc (entry e)). Qed.
Lemma zlen_count c c' es : zlen (layout c es) = zlen (layout c' es). Proof. by rewrite !zlen_layout. Qed.
Lemma entry_pos e : 0 < zlen (entry e).
Proof. rewrite zlen_entry. pose proof (zlen_nonneg (zkey e)). pose proof (zlen_nonneg (zval e)). pose proof (zlen_nonneg (zfree e)). pose proof (len_range (zlen (zkey e))). pose proof (len_range (zlen (zval e))). lia. Qed.

Section Set_rep.
Context (c : Z) (es : list zent) (key val : list byte) (Hv : valid c es).
Context (Hl : zlen (layout c es) + zlen (entry (key, val, [])) < 2 ^ 32).

Lemma set_new_rep : absent key es -> exists zm', zipmapSet be junk (layout c es) key val = Some (zm', false) /\
  rep zm' (assign key val (map pair es)) /\ zlen zm' <= zlen (layout c es) + zlen (entry (key, val, [])).
Proof.
  intros Ha. pose proof (zlen_nonneg (layout c es)). pose proof (entry_pos (key, val, [])). rewrite assign_absent by done.
  unfold zipmapSet. fold (zlen key) (zlen val). rewrite (required_exact key val) by lia.
  destruct (set_room_new c es key (zlen (entry (key, val, [])))) as (X & -> & HX); [done..|]. cbn [option_bind mbind].
  assert (zlen (layout c es) + zlen (entry (key, val, [])) = zlen ((z2b (next_count c) :: body es) ++ X ++ [] ++ [z2b ZIPMAP_END])) as Hz by (rewrite zlen_layout, !zlen_app, zlen_cons, HX; change (zlen []) with 0; change (zlen [_]) with 1; lia).
  destruct (set_write (z2b (next_count c) :: body es) X [] key val _ _ (eq_sym HX) ltac:(lia) Hz Hl) as (zm & ve & F & -> & E & HF & HE). cbn [option_bind mbind]. rewrite E. cbn [option_bind mbind].
  change ([] ++ [z2b ZIPMAP_END]) with (body [] ++ [z2b ZIPMAP_END]). rewrite <-layout_middle. eexists. split; [done|]. destruct Hv as [Hf _ Hc Hn]. destruct (next_counted c es (key, val, F) Hc Hn).
  assert (zlen (layout (next_count c) (es ++ [(key, val, F)])) <= zlen (layout c es) + zlen (entry (key, val, []))) by (rewrite zlen_middle, app_nil_r, (zlen_count _ c); lia).
  split; [|done]. exists (next_count c), (es ++ [(key, val, F)]). split; [done|]. split; [by rewrite map_app|]. split; [by apply few_insert|lia|done|done].
Qed.

Lemma set_found_rep es1 e es2 : es = es1 ++ e :: es2 -> zkey e = key -> absent key es1 -> exists zm', zipmapSet be junk (layout c es) key val = Some (zm', true) /\
  rep zm' (assign key val (map pair es)) /\ zlen zm' <= zlen (layout c es) + zlen (entry (key, val, [])).
Proof.
  intros Ees <- Ha. rewrite Ees in *. pose proof (zlen_nonneg (layout c (es1 ++ e :: es2))). pose proof (entry_pos (zkey e, val, [])). rewrite assign_found by done.
  unfold zipmapSet. fold (zlen (zkey e)) (zlen val). rewrite (required_exact (zkey e) val) by lia.
  destruct (set_room_found c es1 e es2 (zlen (entry (zkey e, val, [])))) as (X & zl & -> & HX & Hz & Hzl); [done..|]. cbn [option_bind mbind].
  destruct (set_write (z2b c :: body es1) X (body es2) (zkey e) val _ _ eq_refl HX Hz ltac:(lia)) as (zm & ve & F & -> & E & HF & HE). cbn [option_bind mbind]. rewrite E. cbn [option_bind mbind].
  rewrite <-layout_middle. eexists. split; [done|]. destruct Hv as [Hf _ Hc Hn].
  assert (zlen (layout c (es1 ++ (zkey e, val, F) :: es2)) <= zlen (layout c (es1 ++ e :: es2)) + zlen (entry (zkey e, val, []))).
  { rewrite zlen_middle. rewrite !zlen_app in Hz. change (zlen [_]) with 1 in Hz. rewrite (zlen_layout c (es1 ++ es2)), body_app, zlen_app in *. rewrite zlen_cons in Hz. lia. }
  split; [|done]. exists c, (es1 ++ (zkey e, val, F) :: es2). split; [done|]. split; [by rewrite map_app|]. destruct (few_app _ _ _ _ Hf). split; [by apply few_insert|lia|done|by rewrite length_app in *].
Qed.

Lemma zipmapSet_rep : exists zm', zipmapSet be junk (layout c es) key val = Some (zm', has key (map pair es)) /\
  rep zm' (assign key val (map pair es)) /\ zlen zm' <= zlen (layout c es) + zlen (entry (key, val, [])).
Proof.
  unfold has. destruct (locate key es) as [Ha|(es1 & e & es2 & E & Hk & Ha)].
  - rewrite assoc_absent by done. by apply set_new_rep.
  - destruct (set_found_rep es1 e es2 E Hk Ha) as (zm & -> & ?). subst. rewrite assoc_found by done. by exists zm.
Qed.
End Set_rep.

Lemma zipmapDel_rep c es key : valid c es -> exists zm', zipmapDel be junk (layout c es) key = Some (zm', has key (map pair es)) /\ rep zm' (erase key (map pair es)) /\ zlen zm' <= zlen (layout c es).
Proof.
  intros Hv. pose proof (fits _ _ Hv) as Hl. pose proof (valid_small _ _ Hv) as Hs. unfold zipmapDel, has. destruct (locate key es) as [Ha|(es1 & e & es2 & E & Hk & Ha)].
  - rewrite lookup_miss by (done || by apply no_key_hit). cbn [option_bind mbind]. rewrite assoc_absent, erase_absent by done. eexists. split; [done|]. split; [by exists c, es|done].
  - subst key es. destruct (lookup_hit c es1 e es2 true) as (t & -> & Ht); [done..|]. rewrite (Ht eq_refl). cbn [option_bind mbind]. clear t Ht. apply Forall_app in Hs as [_ Hs]. inversion_clear Hs as [|? ? He _].
    rewrite assoc_found, erase_found by done. pose proof (zlen_middle c es1 e es2) as Hm. remember (zlen (layout c (es1 ++ e :: es2))) as L eqn:EL. rewrite layout_middle in *. rewrite entry_length_at by done. cbn [option_bind mbind].
    destruct (move_down (z2b c :: body es1) (entry e) (body es2) (zlen (z2b c :: body es1)) 0 (zlen (entry e)) L) as (zm & -> & E); [lia|lia|done|done|]. cbn [option_bind mbind]. rewrite E. cbn [option_bind mbind]. clear E. rewrite <-layout_split.
    destruct Hv as [Hf _ Hc Hn]. destruct (prev_counted c es1 e es2 Hc Hn). rewrite (count_byte c (body (es1 ++ es2) ++ [z2b ZIPMAP_END]) Hc : getb (layout c (es1 ++ es2)) 0 = Some c). cbn [option_bind mbind]. exists (layout (prev_count c) (es1 ++ es2)). split; [unfold prev_count; destruct (c <? ZIPMAP_BIGLEN); [rewrite set_count|]; done|].
    rewrite (zlen_count _ c). pose proof (entry_pos e). split; [|lia]. exists (prev_count c), (es1 ++ es2). split; [done|]. split; [done|]. destruct (few_app _ _ _ _ Hf). split; [by apply Forall_app|rewrite (zlen_count _ c); lia|done|done].
Qed.

(** *** Any run of operations *)

Lemma weight_rep zm l : rep zm l -> zlen zm <= weight l.
Proof.
  intros (c & es & -> & -> & [Hf _ _ _]). rewrite zlen_layout. induction Hf as [|e es He _ IH]; [done|]. rewrite body_cons, zlen_app, zlen_entry. cbn [map weight]. unfold pair_cost. cbn [pair fst snd]. fold (zlen (zkey e)) (zlen (zval e)).
  pose proof (len_range (zlen (zkey e))). pose proof (len_range (zlen (zval e))). unfold ZIPMAP_VALUE_MAX_FREE in *. lia.
Qed.
Lemma entry_cost key val : zlen (entry (key, val, [])) <= pair_cost (key, val).
Proof. rewrite zlen_entry. cbn [zkey zval zfree fst snd]. unfold pair_cost. cbn [fst snd]. fold (zlen key) (zlen val). pose proof (len_range (zlen key)). pose proof (len_range (zlen val)). change (zlen []) with 0. lia. Qed.
Lemma set_cost_nonneg ops : 0 <= set_cost ops.
Proof. induction ops as [|[] ops IH]; cbn [set_cost]; unfold pair_cost; lia. Qed.
Lemma set_cost_cons op ops : set_cost (op :: ops) = set_cost [op] + set_cost ops.
Proof. destruct op; cbn [set_cost]; lia. Qed.

Lemma step_rep zm l op : rep zm l -> zlen zm + set_cost [op] < 2 ^ 32 ->
  exists zm', zip_step be junk zm op = Some (zm', (map_step l op).2) /\ rep zm' (map_step l op).1 /\ zlen zm' <= zlen zm + set_cost [op].
Proof.
  intros Hrep Hl. pose proof Hrep as (c & es & -> & -> & Hv). destruct op as [key val|key|key|key| |]; cbn [zip_step map_step set_cost fst snd] in *.
  - pose proof (entry_cost key val). destruct (zipmapSet_rep c es key val Hv) as (zm & -> & Hr & Hz); [lia|]. exists zm. split; [done|]. split; [done|lia].
  - destruct (zipmapDel_rep c es key Hv) as (zm & -> & Hr & Hz). exists zm. split; [done|]. split; [done|lia].
  - pose proof (get_rep c es Hv key) as Hg. destruct (zipmapGet be (layout c es) key) as [[[p n]|]|]; [| |done]; cbn [option_bind mbind].
    + destruct Hg as [Er Hh]. unfold has in Hh. rewrite Er. destruct (assoc key _); [|done]. cbn [option_bind mbind]. eexists. split; [done|]. split; [done|lia].
    + rewrite Hg. eexists. split; [done|]. split; [done|lia].
  - rewrite exists_rep by done. eexists. split; [done|]. split; [done|lia].
  - destruct (len_rep c es Hv) as (c' & -> & Hv'). cbn [option_bind mbind]. rewrite length_map. eexists. split; [done|]. split; [by exists c', es|]. rewrite (zlen_count _ c). lia.
  - rewrite pairs_rep by done. eexists. split; [done|]. split; [done|lia].
Qed.

Lemma run_rep ops zm l : rep zm l -> zlen zm + set_cost ops < 2 ^ 32 ->
  exists zm', zip_run be junk zm ops = Some (zm', (map_run l ops).2) /\ rep zm' (map_run l ops).1.
Proof.
  revert zm l. induction ops as [|op ops IH]; intros zm l Hr Hl; [by exists zm|]. rewrite set_cost_cons in Hl. pose proof (set_cost_nonneg ops). pose proof (set_cost_nonneg [op]). cbn [zip_run map_run].
  destruct (step_rep zm l op Hr) as (zm1 & -> & Hr1 & Hl1); [lia|]. cbn [option_bind mbind]. destruct (map_step l op) as [l1 r]. cbn [fst snd] in *. destruct (IH zm1 l1 Hr1) as (zm2 & -> & Hr2); [lia|]. cbn [option_bind mbind].
  destruct (map_run l1 ops) as [l2 rs]. by exists zm2.
Qed.

Lemma step_keys l op : NoDup (map fst l) -> NoDup (map fst (map_step l op).1).
Proof.
  intros H. destruct op; cbn [map_step fst]; try done.
  - rewrite assign_keys. rewrite has_keys. case_bool_decide; [done|]. apply NoDup_app. split; [done|]. split; [|by apply NoDup_singleton]. intros x Hx ->%list_elem_of_singleton. done.
  - eapply sublist_NoDup; [exact H|apply erase_sub].
Qed.
Lemma run_keys ops l : NoDup (map fst l) -> NoDup (map fst (map_run l ops).1).
Proof.
  revert l. induction ops as [|op ops IH]; intros l H; [done|]. cbn [map_run]. pose proof (step_keys l op H). destruct (map_step l op) as [l1 r]. cbn [fst] in *. specialize (IH l1). destruct (map_run l1 ops). by apply IH.
Qed.
Lemma rep_new : rep zipmapNew []. Proof. exists 0, []. split; [done|]. split; [done|]. by split. Qed.

(** C11: the packed map is a map. From the empty block, whatever the sequence of
    operations, and as long as the strings set take less than 4 GB with 11
    bytes of overhead each, every call succeeds and answers as the association
    list does (the flags of insertions and deletions, the values and pairs
    read through the returned pointers, the length, also when the length byte
    does not count); at the end the iterator yields the pairs of that list,
    whose keys are distinct, and the block's recomputed size is its real size,
    at most 14 bytes per pair above the strings. *)
Theorem zipmap_refines_map ops : 2 + set_cost ops < 2 ^ 32 ->
  exists zm, zip_run be junk zipmapNew ops = Some (zm, (map_run [] ops).2) /\
    zipmap_pairs be zm = Some (map_run [] ops).1 /\ NoDup (map fst (map_run [] ops).1) /\
    zipmapBlobLen be zm = Some (Z.of_nat (length zm)) /\ Z.of_nat (length zm) <= weight (map_run [] ops).1.
Proof.
  intros H. destruct (run_rep ops _ _ rep_new) as (zm & E & Hr); [exact H|]. exists zm. split; [done|]. pose proof (weight_rep _ _ Hr) as Hw. destruct Hr as (c & es & -> & El & Hv).
  split; [by rewrite pairs_rep, El|]. split; [apply run_keys, NoDup_nil_2|]. by split; [apply blob_rep|].
Qed.
End Proofs.

Import (notations) Strings.String.
Abbreviation text s := (Strings.String.list_byte_of_string s%string).
Example zipmap_refines_map_witness : let ops := [ZSet (text "foo") (text "bar"); ZSet (text "k") (List.repeat (z2b 7) 300); ZSet (text "foo") (text "hi"); ZSet (text "k") (text "v"); ZGet (text "foo"); ZDel (text "foo"); ZGet (text "foo"); ZLen] in
  2 + set_cost ops < 2 ^ 32 /\
  exists zm, zip_run false (fun _ => z2b 0) zipmapNew ops = Some (zm, [ZFlag false; ZFlag false; ZFlag true; ZFlag true; ZValue (Some (text "hi")); ZFlag true; ZValue None; ZCount 1]) /\ zipmap_pairs false zm = Some [(text "k", text "v")].
Proof.
  split; [done|]. destruct (zipmap_refines_map false (fun _ => z2b 0) [ZSet (text "foo") (text "bar"); ZSet (text "k") (List.repeat (z2b 7) 300); ZSet (text "foo") (text "hi"); ZSet (text "k") (text "v"); ZGet (text "foo"); ZDel (text "foo"); ZGet (text "foo"); ZLen]) as (zm & E & Ep & _); [done|].
  exists zm. split; [rewrite E|rewrite Ep]; vm_compute; reflexivity.
Defined.
